(* ===== verification/_CoqProject ===== *)
-Q . S2P
Prelude.v
Bytes.v
Xerlibc.v
Syslib.v
Physical.v
SpinLock.v
Console.v
Kbd.v
Pci.v
Ledger.v
Paging.v
PageTree.v
Aspace.v
Exb.v
Sys.v
Frames.v
Trap.v
Proc.v
Load.v
Blk.v
Dev.v
Nvme.v
ExfsDefs.v
Sb.v
Gmap.v
GmapOk.v
Exfs.v
ExfsNames.v
ExfsPool.v
ExfsData.v
ExfsFiles.v
ExfsWrite.v
ExfsWriteAt.v
ExfsTree.v
ExfsImage.v
ExfsMount.v
ExfsCommit.v
ExfsSuper.v
ExfsPublish.v
ExfsFormat.v
ExfsCrash.v
LoadAmd64.v
Xsh.v
Run.v
Shell.v
ShellOk.v
Tools.v
Start.v
