(* ===== verification/Prelude.v ===== *)
(** * XASMOS: a verification library

    XASMOS is a small operating system for amd64: a UEFI loader hands a memory
    map to the kernel (xeret), which manages physical frames, hardware tokens
    (capabilities over frames), address spaces and ring-3 programs; a file
    system (EXFS) keeps names and content on block devices; a loader brings
    .exb programs from memory into address spaces; a shell (xsh) reads lines
    from the keyboard and runs directives. The library models the C sources
    under [source/] and proves what makes the parts correct.

    ** Parts, files and sources

    Foundations.
    - [Prelude]: C integers (a w-bit integer is a [Z], wrap-around written with
      [u8], [u16], [u32], [u64]), the C operators, counted loops ([for_range]),
      counting and list lemmas, tactics. [Bytes]: byte buffers ([list Z]), 32-
      and 64-bit little-endian fields, the tactics for fields at fixed offsets.
    - [Xerlibc]: memory, string and number routines, [core/xerlibc].
      [Syslib]: paths and the command ring, [syslib/core].

    Memory.
    - [Physical]: the frame bitmap, [kernel/xeret/mem/physical.c].
      [SpinLock]: the lock, [kerncall/include/spinlock.h], and the bitmap under it.
    - [Ledger]: the token ledger, [kernel/xeret/mem/token_ledger.c]. Its state
      [MemState] is the bitmap, the words of physical memory and the table.
    - [Paging] (definitions), [PageTree] (theory of the 4-level tables),
      [Aspace] (invariant and theorems): [kernel/xeret/mem/paging.c].
      [Frames]: the account of every frame.

    Programs.
    - [Exb]: the validator of program images, [core/exb/exb.c], in an error and
      state monad whose only effect is the caller's [ExbInfo].
    - [Sys]: quotas, resource system calls and teardown, [kernel/xeret/sys.c].
    - [Trap]: descriptor tables, gates, entry and exit assembly, dispatch and the
      crash report, [gdt.c] and [idt.c]. [Proc]: ring-3 runs, the timer and the
      context switch, [proc.c] and [lapic.c].
    - [Load]: the portable loader, [core/exb/load.c], over the class
      [LoaderBackend] with the laws [LoaderLaws] ([xload_backend.h]).
      [LoadAmd64]: the kernel's instance, [kernel/xeret/load_amd64.c], with the
      laws proved from the invariant of [Aspace].

    Devices.
    - [Console]: serial port and frame-buffer console, [serial.c] and
      [fb_console.c] with its font. [Kbd]: the keyboard and its line editor, [kbd.c].
    - [Pci]: enumeration, [drivers/pci/pci.c], over any configuration space
      ([ConfigSpace]). [Nvme]: the driver and the choice of the disk, [nvme.c] and
      [storage.c], over any hardware ([Bus]); [Controller] is what the NVMe
      specification says of a controller.
    - [Blk]: block devices and the RAM disk, [core/blk]. A driver is a state
      type and three functions; the class [BlockDevice] is the contract of
      [blk.h], the class [FailStop] adds a device that may stop at any write.
      [Dev]: the registry of names, [core/dev].

    Files.
    - [ExfsDefs], [Sb], [Gmap] (definitions), [GmapOk] (theory): constants,
      superblock and allocation map of EXFS, [core/exfs/sb.c] and [gmap.c].
    - [Exfs]: every operation of [core/exfs/exfs.c]; the static structure [V]
      is the record [Vol]. [ExfsNames]: the theory of the name space.
      [ExfsPool] (extent slices), [ExfsData] (taking, releasing and writing
      blocks), [ExfsFiles] (the invariant [fs_ok], reading), [ExfsWrite] and
      [ExfsWriteAt] (the two writes), [ExfsTree] (the abstract tree).
    - [ExfsImage] (records and chains on disk), [ExfsMount] (the predicate
      [saved]: the disk holds what the volume says; mounting), [ExfsCommit]
      (chains), [ExfsSuper] (bitmaps, inode table, superblock), [ExfsPublish]
      (a whole commit), [ExfsFormat] (formatting), [ExfsCrash] (crash safety).

    Shell and start.
    - [Xsh] (output, words, command line), [Run] (the run directive and the
      embedded images), [Shell] (identity, directives, dispatcher, loop),
      [ShellOk] (theory), [Tools] (pci and nvme directives, the disks of the
      machine): [apps/xsh]. [Start]: loader, [kernel_main] and boot stages,
      [boot/exord/efi/efi_main.c], [kernel/xeret/main.c] and [init/exit].

    Parts interact as in the code: the ledger calls the bitmap, the address
    spaces pin tokens of the ledger, system calls and the loader call both, EXFS
    calls the allocation map and both call the block layer, the shell calls
    EXFS, the loader and the drivers, and start-up calls them all in order. The
    records of state nest the same way ([SysState] holds [KState] holds
    [MemState]). Classes stand where the code has a table of functions or a
    device behind registers; what a client proves against the class holds of
    every instance, and the instances of the code are proved to satisfy it
    ([amd64_laws], [rd_block_device], [nvme_block_device], [phys_laws]).

    ** What is proved

    - Memory: first fit, release and boot-time construction of the bitmap, on
      any number of CPUs in any interleaving; exclusive ownership of frames by
      live tokens, staleness and pinning of tokens; every present user page
      belongs to a live, pinned token of the owner of its space within its
      rights and is never writable and executable, in every state reachable by
      any sequence of calls and user writes; map, unmap, revoke and destroy on
      all branches; every used frame is accounted for, exactly once.
    - Calls and runs: quotas hold through any sequence of system calls with any
      registers; teardown ends and returns everything; traps save and restore
      every register; a run ends with the first ending trap, and the run
      directive leaves no space, token or frame behind.
    - Programs: the validator reads inside the image and accepts only sound
      layouts; its checksum is CRC-32 and detects bursts; loading is all or
      nothing.
    - Devices: console, keyboard and line editor refine a terminal, a decoder
      and an editor of lines; the PCI scan ends and finds exactly the reachable
      functions; the NVMe driver implements the contract of block devices.
    - Files: the superblock round trip and its checksum; the allocation map with
      its cache refines a set of blocks and never touches a committed slot, on
      a device that may stop at any write; the name space is a tree after any
      sequence of operations; a mounted volume refines a finite map from names
      to byte strings through any sequence of creations, deletions, writes,
      reads and queries, and until the next commit none of them writes a block
      that the last commit refers to. Whenever the device stops, mounting again
      gives the last committed tree, or during a commit the one being
      committed; unmounting and mounting gives the tree back; formatting makes
      a volume from which all this starts.
    - Shell and start: every directive returns, the file directives are
      operations on the tree; from power-on, with any firmware within the
      promises of UEFI, the machine halts or waits for a line with all
      invariants.

    ** Assumptions

    What the code relies on and cannot check is a class: [FailStop] (a device
    stops at most once, and then for good, until power returns) and
    [TornDetected] (the superblock write during which it stops leaves the old
    bytes, the new ones, or bytes whose checksum is wrong) for crash safety;
    [ConfigSpace], [Controller] and the firmware of [Start] for hardware. Each has
    an instance, so that no theorem is empty; crash safety is witnessed on a RAM
    disk that stops at its third write.

    ** Bounds and fuel

    Loops of the C code over a fixed range are [for_range] or structural
    recursion over the list that holds the data. Fuel appears where the C loop
    has no bound of its own: [reap_loop] (65 rounds are enough, proved), the
    scans of the ledger and the pool (the table size), the extent loops of EXFS
    (the capacity of the extent list; a round takes at least one block), the
    recursion over PCI buses (a bus number is a byte), the polls of the NVMe
    driver (their own limit), the slices of a run (500, the limit in the code), the
    dispatcher (each nested directive is shorter), the walk over the memory map
    (its size). Theorems state that the result is produced, not only that a
    produced result is right.

    ** Not modelled

    Other structures than the bitmap have atomic critical sections; that their
    locks make them so is what [SpinLock] shows for any user that meets
    [CriticalLaws]. TLB and cache instructions have no effect in the model, nor
    have the instructions that load descriptor tables; the deliberate faults of
    [diag_trigger] are left out. A device with a volatile write cache is outside
    [FailStop]: the commit never asks for a flush. Tests and the host-side
    image tools are not part of the kernel. *)

From stdpp Require Export base gmap list numbers sets.
From Stdlib Require Export ZArith Lia.

#[global] Open Scope Z_scope.
#[global] Set Default Goal Selector "!".

(** * C integers

    A [w]-bit unsigned integer is a [Z]; the wrap-around of an operation that
    can overflow is written out with the function of its result type. *)

Definition wrap (w x : Z) : Z := x mod 2 ^ w.
Definition u8 (x : Z) : Z := x mod 2 ^ 8.
Definition u16 (x : Z) : Z := x mod 2 ^ 16.
Definition u32 (x : Z) : Z := x mod 2 ^ 32.
Definition u64 (x : Z) : Z := x mod 2 ^ 64.

(** The C operators, as they are written in the sources. *)
Declare Scope c_scope.
Delimit Scope c_scope with C.
Notation "a .& b" := (Z.land a b) (at level 40, left associativity) : c_scope.
Notation "a .| b" := (Z.lor a b) (at level 50, left associativity) : c_scope.
Notation "a .^ b" := (Z.lxor a b) (at level 45, left associativity) : c_scope.
Notation "a .<< b" := (Z.shiftl a b) (at level 38, left associativity) : c_scope.
Notation "a .>> b" := (Z.shiftr a b) (at level 38, left associativity) : c_scope.
#[global] Open Scope c_scope.

(** The truth value of a C integer. *)
Definition tst (x : Z) : bool := negb (x =? 0).

(** * Automation *)

Create HintDb xas.

Ltac zcase_step :=
  match goal with
  | |- context [Z.eqb ?a ?b] => destruct (Z.eqb_spec a b)
  | |- context [Z.ltb ?a ?b] => destruct (Z.ltb_spec a b)
  | |- context [Z.leb ?a ?b] => destruct (Z.leb_spec a b)
  | |- context [Z.gtb ?a ?b] => rewrite (Z.gtb_ltb a b)
  | |- context [Z.geb ?a ?b] => rewrite (Z.geb_leb a b)
  end.

(** Case analysis on every integer comparison of the goal. *)
Ltac zcase := repeat (zcase_step; simpl); try lia.

Ltac zcase_in H :=
  repeat match type of H with
  | context [Z.eqb ?a ?b] => destruct (Z.eqb_spec a b)
  | context [Z.ltb ?a ?b] => destruct (Z.ltb_spec a b)
  | context [Z.leb ?a ?b] => destruct (Z.leb_spec a b)
  | context [Z.gtb ?a ?b] => rewrite (Z.gtb_ltb a b) in H
  | context [Z.geb ?a ?b] => rewrite (Z.geb_leb a b) in H
  end; simpl in H.

(** Turn boolean hypotheses into propositions. *)
Ltac unbool :=
  repeat match goal with
  | H : (_ && _)%bool = true |- _ => apply andb_prop in H as [? ?]
  | H : (_ || _)%bool = false |- _ => apply orb_false_elim in H as [? ?]
  | H : negb _ = true |- _ => apply negb_true_iff in H
  | H : negb _ = false |- _ => apply negb_false_iff in H
  | H : (_ =? _) = true |- _ => apply Z.eqb_eq in H
  | H : (_ =? _) = false |- _ => apply Z.eqb_neq in H
  | H : (_ <? _) = true |- _ => apply Z.ltb_lt in H
  | H : (_ <? _) = false |- _ => apply Z.ltb_ge in H
  | H : (_ <=? _) = true |- _ => apply Z.leb_le in H
  | H : (_ <=? _) = false |- _ => apply Z.leb_gt in H
  | H : (_ >? _) = _ |- _ => rewrite Z.gtb_ltb in H
  | H : (_ >=? _) = _ |- _ => rewrite Z.geb_leb in H
  end.

(** * Bits *)

Lemma wrap_small w x : 0 <= x < 2 ^ w -> wrap w x = x.
Proof. apply Z.mod_small. Qed.

Lemma u64_small x : 0 <= x < 2 ^ 64 -> u64 x = x.
Proof. apply Z.mod_small. Qed.
Lemma u32_small x : 0 <= x < 2 ^ 32 -> u32 x = x.
Proof. apply Z.mod_small. Qed.
Lemma u16_small x : 0 <= x < 2 ^ 16 -> u16 x = x.
Proof. apply Z.mod_small. Qed.
Lemma u8_small x : 0 <= x < 2 ^ 8 -> u8 x = x.
Proof. apply Z.mod_small. Qed.

Lemma u64_range x : 0 <= u64 x < 2 ^ 64.
Proof. apply Z.mod_pos_bound; lia. Qed.
Lemma u32_range x : 0 <= u32 x < 2 ^ 32.
Proof. apply Z.mod_pos_bound; lia. Qed.
Lemma u16_range x : 0 <= u16 x < 2 ^ 16.
Proof. apply Z.mod_pos_bound; lia. Qed.
Lemma u8_range x : 0 <= u8 x < 2 ^ 8.
Proof. apply Z.mod_pos_bound; lia. Qed.

Lemma testbit_u8 x i : 0 <= i -> Z.testbit (u8 x) i = (i <? 8) && Z.testbit x i.
Proof.
  intros Hi. unfold u8. destruct (Z.ltb_spec i 8); simpl.
  - apply Z.mod_pow2_bits_low; lia.
  - apply Z.mod_pow2_bits_high; lia.
Qed.

Lemma testbit_pow2 n i : 0 <= n -> Z.testbit (1 .<< n) i = (i =? n).
Proof.
  intros Hn. destruct (Z.ltb_spec i 0).
  - rewrite Z.testbit_neg_r by lia. symmetry. apply Z.eqb_neq. lia.
  - rewrite Z.shiftl_1_l, Z.pow2_bits_eqb by lia. apply Z.eqb_sym.
Qed.

Lemma testbit_high x w i : 0 <= x < 2 ^ w -> w <= i -> Z.testbit x i = false.
Proof.
  intros Hx Hi. destruct (Z.ltb_spec w 0).
  { rewrite Z.pow_neg_r in Hx by lia. lia. }
  rewrite <- (Z.mod_small x (2 ^ w)) by lia. apply Z.mod_pow2_bits_high. lia.
Qed.

Lemma land_1_testbit x : x .& 1 = Z.b2z (Z.testbit x 0).
Proof.
  change 1 with (Z.ones 1). rewrite Z.land_ones, Z.bit0_mod by lia. reflexivity.
Qed.

Lemma land_pow2_mod x n : 0 <= n -> x .& (2 ^ n - 1) = x mod 2 ^ n.
Proof. intros. rewrite <- Z.land_ones by lia. rewrite Z.ones_equiv. reflexivity. Qed.

Lemma land_7 x : x .& 7 = x mod 8.
Proof. exact (land_pow2_mod x 3 ltac:(lia)). Qed.

Lemma shiftr_div x n : 0 <= n -> x .>> n = x / 2 ^ n.
Proof. apply Z.shiftr_div_pow2. Qed.

Lemma shiftl_mul x n : 0 <= n -> x .<< n = x * 2 ^ n.
Proof. apply Z.shiftl_mul_pow2. Qed.

Lemma lor_disjoint_add a b : a .& b = 0 -> a .| b = a + b.
Proof. intros H. pose proof (Z.add_lor_land a b). lia. Qed.

Lemma lor_shift_add a b n : 0 <= n -> 0 <= a < 2 ^ n -> a .| (b .<< n) = a + b * 2 ^ n.
Proof.
  intros Hn Ha. rewrite lor_disjoint_add; [by rewrite shiftl_mul|]. apply Z.bits_inj'. intros i Hi.
  rewrite Z.land_spec, Z.shiftl_spec, Z.bits_0 by done. destruct (Z.lt_ge_cases i n).
  - by rewrite (Z.testbit_neg_r b), andb_false_r by lia.
  - by rewrite (testbit_high a n).
Qed.

Lemma bits_below x w :
  0 <= w -> (forall i, w <= i -> Z.testbit x i = false) -> 0 <= x < 2 ^ w.
Proof.
  intros Hw H. enough (x = x mod 2 ^ w) as -> by (apply Z.mod_pos_bound; lia).
  apply Z.bits_inj'. intros i Hi. destruct (Z.ltb_spec i w).
  - symmetry. apply Z.mod_pow2_bits_low. lia.
  - rewrite Z.mod_pow2_bits_high by lia. auto.
Qed.

Lemma lor_bound a b w :
  0 <= w -> 0 <= a < 2 ^ w -> 0 <= b < 2 ^ w -> 0 <= a .| b < 2 ^ w.
Proof.
  intros Hw Ha Hb. apply bits_below; [lia|]. intros i Hi.
  rewrite Z.lor_spec, (testbit_high a w), (testbit_high b w) by lia. reflexivity.
Qed.

Lemma lxor_bound a b w :
  0 <= w -> 0 <= a < 2 ^ w -> 0 <= b < 2 ^ w -> 0 <= a .^ b < 2 ^ w.
Proof.
  intros Hw Ha Hb. apply bits_below; [lia|]. intros i Hi.
  rewrite Z.lxor_spec, (testbit_high a w), (testbit_high b w) by lia. reflexivity.
Qed.

Lemma land_bound a b : 0 <= b -> 0 <= a .& b <= b.
Proof.
  intros Hb. split; [apply Z.land_nonneg; lia|].
  pose proof (Z.add_lor_land (Z.lnot a .& b) (a .& b)) as H'.
  assert ((Z.lnot a .& b) .& (a .& b) = 0) as E0.
  { apply Z.bits_inj'. intros i Hi.
    rewrite !Z.land_spec, Z.lnot_spec, Z.bits_0 by lia.
    destruct (Z.testbit a i), (Z.testbit b i); reflexivity. }
  assert ((Z.lnot a .& b) .| (a .& b) = b) as E1.
  { apply Z.bits_inj'. intros i Hi.
    rewrite Z.lor_spec, !Z.land_spec, Z.lnot_spec by lia.
    destruct (Z.testbit a i), (Z.testbit b i); reflexivity. }
  assert (0 <= Z.lnot a .& b) by (apply Z.land_nonneg; lia). lia.
Qed.

(** Equality of integers by their bits. *)
Ltac zbits := apply Z.bits_inj'; let i := fresh "i" in let Hi := fresh "Hi" in intros i Hi;
  repeat first [ rewrite Z.lor_spec | rewrite Z.land_spec | rewrite Z.lxor_spec
               | rewrite Z.lnot_spec by lia | rewrite Z.shiftr_spec by lia
               | rewrite Z.shiftl_spec by lia | rewrite Z.bits_0 ].

Lemma tst_bit x k : 0 <= k -> tst (x .& 2 ^ k) = Z.testbit x k.
Proof.
  intros Hk. unfold tst. destruct (Z.testbit x k) eqn:E.
  - destruct (Z.eqb_spec (x .& 2 ^ k) 0) as [H|]; [|done].
    pose proof (f_equal (fun z => Z.testbit z k) H) as H'. cbn beta in H'.
    rewrite Z.land_spec, E, Z.pow2_bits_true, Z.bits_0 in H' by lia. done.
  - destruct (Z.eqb_spec (x .& 2 ^ k) 0) as [|H]; [done|]. destruct H.
    apply Z.bits_inj'. intros i Hi. rewrite Z.land_spec, Z.pow2_bits_eqb, Z.bits_0 by lia.
    destruct (Z.eqb_spec k i) as [<-|]; [by rewrite E|by rewrite andb_false_r].
Qed.

(** No bit outside the lowest three. *)
Lemma below_8 f : 0 <= f < 2 ^ 32 -> tst (f .& u32 (Z.lnot 7)) = false -> 0 <= f < 8.
Proof.
  intros Hf H. unfold tst in H. apply negb_false_iff, Z.eqb_eq in H.
  apply (bits_below f 3); [lia|]. intros i Hi. destruct (Z.ltb_spec i 32).
  2: { by apply (testbit_high f 32). }
  pose proof (f_equal (fun z => Z.testbit z i) H) as Hb. cbn beta in Hb.
  rewrite Z.land_spec, Z.bits_0 in Hb. unfold u32 in Hb.
  rewrite Z.mod_pow2_bits_low, Z.lnot_spec in Hb by lia.
  rewrite (testbit_high 7 3) in Hb by lia. by rewrite andb_true_r in Hb.
Qed.

(** * Counting *)

(** The number of elements of a list that satisfy a boolean predicate. *)
Fixpoint countb {A} (P : A -> bool) (l : list A) : Z :=
  match l with
  | [] => 0
  | x :: r => (if P x then 1 else 0) + countb P r
  end.

Lemma countb_app {A} (P : A -> bool) l1 l2 : countb P (l1 ++ l2) = countb P l1 + countb P l2.
Proof. induction l1 as [|x l1 IH]; simpl; [lia|]. rewrite IH. lia. Qed.

Lemma countb_bound {A} (P : A -> bool) l : 0 <= countb P l <= Z.of_nat (length l).
Proof. induction l as [|x l IH]; simpl; [lia|]. destruct (P x); lia. Qed.

Lemma countb_ext {A} (P Q : A -> bool) l :
  (forall x, x ∈ l -> P x = Q x) -> countb P l = countb Q l.
Proof.
  induction l as [|x l IH]; intros H; simpl; [done|].
  rewrite (H x), IH; [done| |set_solver]. intros y Hy. apply H. set_solver.
Qed.

Lemma countb_zero {A} (P : A -> bool) l :
  countb P l = 0 <-> (forall x, x ∈ l -> P x = false).
Proof.
  induction l as [|x l IH]; simpl.
  - split; [intros _ x Hx; set_solver|done].
  - pose proof (countb_bound P l) as Hb. destruct (P x) eqn:E.
    + split; [lia|]. intros H. specialize (H x ltac:(set_solver)). congruence.
    + rewrite Z.add_0_l, IH. split; intros H y Hy.
      * apply elem_of_cons in Hy as [->|Hy]; auto.
      * apply H. set_solver.
Qed.

(** Updating one array cell changes the count by that cell only. *)
Lemma countb_insert {A} (P : A -> bool) (l : list A) i x y :
  l !! i = Some x ->
  countb P (<[i:=y]> l) = countb P l - (if P x then 1 else 0) + (if P y then 1 else 0).
Proof.
  revert i. induction l as [|z l IH]; intros i H; [done|].
  destruct i as [|i]; simpl in *; [simplify_eq; lia|]. rewrite (IH _ H). lia.
Qed.

Lemma countb_lookup_pos {A} (P : A -> bool) (l : list A) i x :
  l !! i = Some x -> P x = true -> 1 <= countb P l.
Proof.
  revert i. induction l as [|z l IH]; intros i H HP; [done|].
  pose proof (countb_bound P l). destruct i as [|i]; simpl in *.
  - simplify_eq. rewrite HP. lia.
  - pose proof (IH _ H HP). destruct (P z); lia.
Qed.

Lemma countb_seqZ_le (P : Z -> bool) lo n : 0 <= n -> 0 <= countb P (seqZ lo n) <= n.
Proof. intros Hn. pose proof (countb_bound P (seqZ lo n)) as H. rewrite length_seqZ in H. lia. Qed.

Lemma countb_seqZ_split (P : Z -> bool) lo a b :
  0 <= a -> 0 <= b -> countb P (seqZ lo (a + b)) = countb P (seqZ lo a) + countb P (seqZ (lo + a) b).
Proof. intros. rewrite seqZ_app by lia. apply countb_app. Qed.

Lemma countb_seqZ_ext (P Q : Z -> bool) lo n :
  (forall f, lo <= f < lo + n -> P f = Q f) -> countb P (seqZ lo n) = countb Q (seqZ lo n).
Proof. intros H. apply countb_ext. intros x Hx%elem_of_seqZ. apply H. lia. Qed.

Lemma countb_seqZ_one (P : Z -> bool) f : countb P (seqZ f 1) = if P f then 1 else 0.
Proof. rewrite seqZ_cons by lia. cbn [countb]. rewrite seqZ_nil by lia. cbn [countb]. lia. Qed.

(** Flipping the predicate at one point of a range changes the count by one. *)
Lemma countb_seqZ_flip (P Q : Z -> bool) lo n f :
  lo <= f < lo + n -> P f = false -> Q f = true -> (forall g, g <> f -> P g = Q g) ->
  countb Q (seqZ lo n) = countb P (seqZ lo n) + 1.
Proof.
  intros Hf HP HQ Hext.
  replace n with ((f - lo) + (1 + (n - (f - lo) - 1))) by lia.
  rewrite !(countb_seqZ_split _ lo), !(countb_seqZ_split _ _ 1) by lia.
  replace (lo + (f - lo)) with f by lia. rewrite !countb_seqZ_one, HP, HQ.
  rewrite (countb_seqZ_ext P Q lo), (countb_seqZ_ext P Q (f + 1)); [lia| |];
    intros g Hg; apply Hext; lia.
Qed.

(** A whole sub-range switched from false to true adds its length. *)
Lemma countb_seqZ_range (P Q : Z -> bool) lo n a k :
  lo <= a -> 0 <= k -> a + k <= lo + n ->
  (forall f, a <= f < a + k -> P f = false /\ Q f = true) ->
  (forall f, lo <= f < lo + n -> ~ (a <= f < a + k) -> P f = Q f) ->
  countb Q (seqZ lo n) = countb P (seqZ lo n) + k.
Proof.
  intros Hlo Hk Hn Hin Hout.
  replace n with ((a - lo) + (k + (n - (a - lo) - k))) by lia.
  rewrite !(countb_seqZ_split _ lo), !(countb_seqZ_split _ _ k) by lia.
  replace (lo + (a - lo)) with a by lia.
  rewrite (countb_seqZ_ext P Q lo), (countb_seqZ_ext P Q (a + k)) by (intros; apply Hout; lia).
  rewrite (countb_seqZ_ext P (fun _ => false) a), (countb_seqZ_ext Q (fun _ => true) a)
    by (intros; apply Hin; lia).
  assert (forall l : list Z, countb (fun _ => false) l = 0) as Hf.
  { intros l. apply countb_zero. done. }
  assert (forall l : list Z, countb (fun _ => true) l = Z.of_nat (length l)) as Ht.
  { induction l as [|x l IH]; cbn [countb length]; lia. }
  rewrite Hf, Ht, length_seqZ. lia.
Qed.

Lemma fold_left_same {A B} (f g : A -> B -> A) l a :
  (forall a b, f a b = g a b) -> fold_left f l a = fold_left g l a.
Proof. intros H. revert a. induction l as [|b l IH]; intros a; [done|]. cbn. by rewrite H, IH. Qed.

(** * Loops

    [for_range lo n f s] runs the body [f i] for [i = lo .. lo + n - 1]. *)
Definition for_range {S} (lo n : Z) (f : Z -> S -> S) (s : S) : S :=
  fold_left (fun s i => f i s) (seqZ lo n) s.

Lemma for_range_0 {S} lo n (f : Z -> S -> S) s : n <= 0 -> for_range lo n f s = s.
Proof. intros. unfold for_range. rewrite seqZ_nil by lia. done. Qed.

Lemma for_range_cons {S} lo n (f : Z -> S -> S) s :
  0 < n -> for_range lo n f s = for_range (lo + 1) (n - 1) f (f lo s).
Proof.
  intros. unfold for_range. rewrite seqZ_cons by lia.
  replace (Z.succ lo) with (lo + 1) by lia. replace (Z.pred n) with (n - 1) by lia. done.
Qed.

(** Loop invariant rule: [I k s] holds before iteration [lo + k]. *)
Lemma for_range_inv {S} (I : Z -> S -> Prop) lo n (f : Z -> S -> S) s :
  0 <= n -> I 0 s ->
  (forall k s, 0 <= k < n -> I k s -> I (k + 1) (f (lo + k) s)) ->
  I n (for_range lo n f s).
Proof.
  intros Hn. revert lo I s. pattern n. apply natlike_ind; [| |done]; clear n Hn.
  - intros lo I s HI _. by rewrite for_range_0 by lia.
  - intros n Hn IH lo I s HI Hstep. rewrite for_range_cons by lia.
    replace (Z.succ n - 1) with n by lia.
    replace (Z.succ n) with (n + 1) by lia.
    apply (IH (lo + 1) (fun k => I (k + 1))).
    + replace lo with (lo + 0) at 1 by lia. apply (Hstep 0); [lia|done].
    + intros k s' Hk HI'. replace (lo + 1 + k) with (lo + (k + 1)) by lia.
      apply Hstep; [lia|done].
Qed.

(** * Byte arrays

    A C byte buffer read at an index the code has checked: a missing cell
    reads as 0. *)
Definition nthZ (l : list Z) (i : Z) : Z := default 0 (l !! Z.to_nat i).

Definition bytes_ok (l : list Z) : Prop := Forall (fun b => 0 <= b < 256) l.

Lemma nthZ_range l i : bytes_ok l -> 0 <= nthZ l i < 256.
Proof.
  intros H. unfold nthZ. destruct (l !! Z.to_nat i) eqn:E; simpl; [|lia].
  eapply Forall_lookup_1 in H; eauto.
Qed.

(** * Function update *)

Definition upd {A} `{EqDecision K} (f : K -> A) (k : K) (v : A) : K -> A :=
  fun k' => if decide (k' = k) then v else f k'.

Lemma upd_eq {A} `{EqDecision K} (f : K -> A) k v : upd f k v k = v.
Proof. unfold upd. by rewrite decide_True. Qed.

Lemma upd_ne {A} `{EqDecision K} (f : K -> A) k k' v : k' <> k -> upd f k v k' = f k'.
Proof. intros. unfold upd. by rewrite decide_False. Qed.
