(* ===== verification/Bytes.v ===== *)
(** Little-endian fields of byte buffers: the [get32]/[put32]/[get64]/[put64]
    helpers of [exfs.c] and [sb.c] and the [le16]/[le32]/[le64] helpers of
    [exb.c] and [nvme.c], over lists of bytes. *)

From S2P Require Import Prelude.

(** A store to a checked index. *)
Definition setZ (l : list Z) (i v : Z) : list Z := <[Z.to_nat i := v]> l.

Definition get16 (p : list Z) (o : Z) : Z := nthZ p o .| (nthZ p (o + 1) .<< 8).

Definition get32 (p : list Z) (o : Z) : Z :=
  nthZ p o .| (nthZ p (o + 1) .<< 8) .| (nthZ p (o + 2) .<< 16) .| (nthZ p (o + 3) .<< 24).

Definition get64 (p : list Z) (o : Z) : Z := get32 p o .| (get32 p (o + 4) .<< 32).

Definition put32 (p : list Z) (o v : Z) : list Z :=
  setZ (setZ (setZ (setZ p o (u8 v)) (o + 1) (u8 (v .>> 8))) (o + 2) (u8 (v .>> 16)))
    (o + 3) (u8 (v .>> 24)).

Definition put64 (p : list Z) (o v : Z) : list Z :=
  put32 (put32 p o (u32 v)) (o + 4) (u32 (v .>> 32)).

(** * Single cells *)

Abbreviation lenZ l := (Z.of_nat (length l)).

Lemma length_setZ l i v : length (setZ l i v) = length l.
Proof. apply length_insert. Qed.

Lemma nthZ_setZ_eq l i v : 0 <= i < lenZ l -> nthZ (setZ l i v) i = v.
Proof. intros H. unfold nthZ, setZ. rewrite list_lookup_insert_eq by lia. done. Qed.

Lemma nthZ_setZ_ne l i j v : 0 <= i -> 0 <= j -> i <> j -> nthZ (setZ l i v) j = nthZ l j.
Proof. intros Hi Hj Hne. unfold nthZ, setZ. rewrite list_lookup_insert_ne by lia. done. Qed.

Lemma nthZ_setZ l i j v : 0 <= i < lenZ l -> 0 <= j -> nthZ (setZ l i v) j = if j =? i then v else nthZ l j.
Proof.
  intros. destruct (Z.eqb_spec j i) as [->|]; [by apply nthZ_setZ_eq|].
  apply nthZ_setZ_ne; lia.
Qed.

Lemma bytes_ok_setZ l i v : bytes_ok l -> 0 <= v < 256 -> bytes_ok (setZ l i v).
Proof. intros H Hv. by apply Forall_insert. Qed.

Lemma length_put32 p o v : length (put32 p o v) = length p.
Proof. unfold put32. by rewrite !length_setZ. Qed.

Lemma length_put64 p o v : length (put64 p o v) = length p.
Proof. unfold put64. by rewrite !length_put32. Qed.

Lemma bytes_ok_put32 p o v : bytes_ok p -> bytes_ok (put32 p o v).
Proof. intros H. unfold put32. repeat apply bytes_ok_setZ; auto using u8_range. Qed.

Lemma bytes_ok_put64 p o v : bytes_ok p -> bytes_ok (put64 p o v).
Proof. intros H. unfold put64. auto using bytes_ok_put32. Qed.

(** The byte of [v] stored at offset [k] of a field. *)
Lemma nthZ_put32 p o v j :
  0 <= o -> o + 4 <= lenZ p -> 0 <= j ->
  nthZ (put32 p o v) j =
  if (o <=? j) && (j <? o + 4) then u8 (v .>> (8 * (j - o))) else nthZ p j.
Proof.
  intros Ho Hlen Hj. unfold put32.
  rewrite !nthZ_setZ by (rewrite ?length_setZ; lia).
  destruct (Z.leb_spec o j), (Z.ltb_spec j (o + 4)); simpl; zcase; subst.
  - replace (8 * (o + 3 - o)) with 24 by lia. done.
  - replace (8 * (o + 2 - o)) with 16 by lia. done.
  - replace (8 * (o + 1 - o)) with 8 by lia. done.
  - replace (8 * (o - o)) with 0 by lia. by rewrite Z.shiftr_0_r.
Qed.

Lemma nthZ_put64 p o v j :
  0 <= o -> o + 8 <= lenZ p -> 0 <= j -> 0 <= v ->
  nthZ (put64 p o v) j =
  if (o <=? j) && (j <? o + 8) then u8 (v .>> (8 * (j - o))) else nthZ p j.
Proof.
  intros Ho Hlen Hj Hv. unfold put64.
  rewrite !nthZ_put32 by (rewrite ?length_put32; lia).
  assert (forall x k, 0 <= k <= 24 -> u8 (u32 x .>> k) = u8 (x .>> k)) as Hu.
  { intros x k Hk. apply Z.bits_inj'. intros i Hi. rewrite !testbit_u8 by lia.
    destruct (Z.ltb_spec i 8); simpl; [|done].
    rewrite !Z.shiftr_spec by lia. apply Z.mod_pow2_bits_low. lia. }
  destruct (Z.leb_spec o j), (Z.ltb_spec j (o + 8)); simpl; zcase.
  - by rewrite Hu by lia.
  - rewrite Hu, Z.shiftr_shiftr by lia. do 2 f_equal. lia.
Qed.

(** * Fields *)

Lemma testbit_get32 p o i :
  bytes_ok p -> 0 <= i ->
  Z.testbit (get32 p o) i =
  if i <? 32 then Z.testbit (nthZ p (o + i / 8)) (i mod 8) else false.
Proof.
  intros Hok Hi. unfold get32. rewrite !Z.lor_spec, !Z.shiftl_spec by lia.
  pose proof (nthZ_range p o Hok). pose proof (nthZ_range p (o + 1) Hok).
  pose proof (nthZ_range p (o + 2) Hok). pose proof (nthZ_range p (o + 3) Hok).
  assert (forall x k, 0 <= x < 256 -> (8 <= k \/ k < 0) -> Z.testbit x k = false) as Hz.
  { intros x k Hx [Hk|Hk]; [by apply (testbit_high x 8); lia|by apply Z.testbit_neg_r]. }
  assert (i < 8 \/ 8 <= i < 16 \/ 16 <= i < 24 \/ 24 <= i < 32 \/ 32 <= i) as Hc by lia.
  destruct Hc as [Hc|[Hc|[Hc|[Hc|Hc]]]];
    [ replace (i / 8) with 0 by (apply Z.div_unique with i; lia);
      rewrite (Z.mod_small i 8), (Hz (nthZ p (o + 1))), (Hz (nthZ p (o + 2))), (Hz (nthZ p (o + 3))) by lia
    | replace (i / 8) with 1 by (apply Z.div_unique with (i - 8); lia);
      replace (i mod 8) with (i - 8) by (apply Z.mod_unique with 1; lia);
      rewrite (Hz (nthZ p o)), (Hz (nthZ p (o + 2))), (Hz (nthZ p (o + 3))) by lia
    | replace (i / 8) with 2 by (apply Z.div_unique with (i - 16); lia);
      replace (i mod 8) with (i - 16) by (apply Z.mod_unique with 2; lia);
      rewrite (Hz (nthZ p o)), (Hz (nthZ p (o + 1))), (Hz (nthZ p (o + 3))) by lia
    | replace (i / 8) with 3 by (apply Z.div_unique with (i - 24); lia);
      replace (i mod 8) with (i - 24) by (apply Z.mod_unique with 3; lia);
      rewrite (Hz (nthZ p o)), (Hz (nthZ p (o + 1))), (Hz (nthZ p (o + 2))) by lia
    | rewrite (Hz (nthZ p o)), (Hz (nthZ p (o + 1))), (Hz (nthZ p (o + 2))), (Hz (nthZ p (o + 3))) by lia ];
    destruct (Z.ltb_spec i 32); try lia; simpl; rewrite ?orb_false_r; try done.
  by replace (o + 0) with o by lia.
Qed.

Lemma get32_range p o : bytes_ok p -> 0 <= get32 p o < 2 ^ 32.
Proof.
  intros Hok. apply bits_below; [lia|]. intros i Hi.
  rewrite testbit_get32 by (auto; lia). destruct (Z.ltb_spec i 32); [lia|done].
Qed.

Lemma get64_range p o : bytes_ok p -> 0 <= get64 p o < 2 ^ 64.
Proof.
  intros Hok. unfold get64. pose proof (get32_range p o Hok). pose proof (get32_range p (o + 4) Hok).
  apply lor_bound; [lia|lia|]. rewrite shiftl_mul by lia. lia.
Qed.

Lemma get16_range p o : bytes_ok p -> 0 <= get16 p o < 2 ^ 16.
Proof.
  intros Hok. unfold get16. pose proof (nthZ_range p o Hok). pose proof (nthZ_range p (o + 1) Hok).
  apply lor_bound; [lia|lia|]. rewrite shiftl_mul by lia. lia.
Qed.

(** Fields read back what was stored and disjoint stores do not interfere. *)
Lemma get32_put32 p o v :
  bytes_ok p -> 0 <= o -> o + 4 <= lenZ p -> 0 <= v < 2 ^ 32 -> get32 (put32 p o v) o = v.
Proof.
  intros Hok Ho Hlen Hv. apply Z.bits_inj'. intros i Hi.
  rewrite testbit_get32 by auto using bytes_ok_put32.
  destruct (Z.ltb_spec i 32) as [Hc|Hc]; [|by rewrite (testbit_high v 32) by lia].
  pose proof (Z.mod_pos_bound i 8 ltac:(lia)).
  pose proof (Z.div_mod i 8 ltac:(lia)).
  rewrite nthZ_put32 by lia. destruct (Z.leb_spec o (o + i / 8)); [|lia].
  destruct (Z.ltb_spec (o + i / 8) (o + 4)); [|lia]. simpl.
  rewrite testbit_u8, Z.shiftr_spec by lia. destruct (Z.ltb_spec (i mod 8) 8); [|lia].
  simpl. f_equal. lia.
Qed.

Lemma get32_ext p q o :
  (forall j, o <= j < o + 4 -> nthZ p j = nthZ q j) -> get32 p o = get32 q o.
Proof. intros H. unfold get32. rewrite !H by lia. done. Qed.

Lemma get64_ext p q o :
  (forall j, o <= j < o + 8 -> nthZ p j = nthZ q j) -> get64 p o = get64 q o.
Proof. intros H. unfold get64. f_equal; [|f_equal]; apply get32_ext; intros; apply H; lia. Qed.

Lemma u32_split v : 0 <= v < 2 ^ 64 -> u32 v .| (u32 (v .>> 32) .<< 32) = v.
Proof.
  intros Hv. rewrite (u32_small (v .>> 32)).
  2: { rewrite shiftr_div by lia. split; [apply Z.div_pos; lia|].
       apply Z.div_lt_upper_bound; lia. }
  apply Z.bits_inj'. intros i Hi. rewrite Z.lor_spec, Z.shiftl_spec by lia.
  destruct (Z.ltb_spec i 32) as [Hc|Hc].
  - unfold u32. rewrite Z.mod_pow2_bits_low, (Z.testbit_neg_r _ (i - 32)) by lia.
    by rewrite orb_false_r.
  - unfold u32. rewrite Z.mod_pow2_bits_high, Z.shiftr_spec by lia. simpl. f_equal. lia.
Qed.

Lemma get64_put64 p o v :
  bytes_ok p -> 0 <= o -> o + 8 <= lenZ p -> 0 <= v < 2 ^ 64 -> get64 (put64 p o v) o = v.
Proof.
  intros Hok Ho Hlen Hv. unfold get64, put64.
  rewrite get32_put32 by (rewrite ?length_put32; auto using bytes_ok_put32, u32_range; lia).
  rewrite (get32_ext _ (put32 p o (u32 v)) o).
  2: { intros j Hj. rewrite nthZ_put32 by (rewrite ?length_put32; lia).
       destruct (Z.leb_spec (o + 4) j); [lia|done]. }
  rewrite get32_put32 by (auto using u32_range; lia). by apply u32_split.
Qed.

(** Disjoint stores leave a field alone. *)
Definition field_apart (o n o' n' : Z) : Prop := o + n <= o' \/ o' + n' <= o.

Lemma nthZ_put32_ne p o v j : 0 <= o -> o + 4 <= lenZ p -> 0 <= j -> field_apart o 4 j 1 -> nthZ (put32 p o v) j = nthZ p j.
Proof. intros Ho Hl Hj Ha. rewrite nthZ_put32 by lia. unfold field_apart in Ha. zcase. Qed.

Lemma nthZ_put64_ne p o v j : 0 <= o -> o + 8 <= lenZ p -> 0 <= j -> 0 <= v -> field_apart o 8 j 1 ->
  nthZ (put64 p o v) j = nthZ p j.
Proof. intros Ho Hl Hj Hv Ha. rewrite nthZ_put64 by lia. unfold field_apart in Ha. zcase. Qed.

Lemma get32_put32_ne p o v o' : 0 <= o -> o + 4 <= lenZ p -> 0 <= o' -> field_apart o 4 o' 4 ->
  get32 (put32 p o v) o' = get32 p o'.
Proof. intros Ho Hl Ho' Ha. apply get32_ext. intros. unfold field_apart in Ha. apply nthZ_put32_ne; unfold field_apart; lia. Qed.

Lemma get32_put64_ne p o v o' : 0 <= o -> o + 8 <= lenZ p -> 0 <= o' -> 0 <= v -> field_apart o 8 o' 4 ->
  get32 (put64 p o v) o' = get32 p o'.
Proof. intros Ho Hl Ho' Hv Ha. apply get32_ext. intros. unfold field_apart in Ha. apply nthZ_put64_ne; unfold field_apart; lia. Qed.

Lemma get64_put32_ne p o v o' : 0 <= o -> o + 4 <= lenZ p -> 0 <= o' -> field_apart o 4 o' 8 ->
  get64 (put32 p o v) o' = get64 p o'.
Proof. intros Ho Hl Ho' Ha. apply get64_ext. intros. unfold field_apart in Ha. apply nthZ_put32_ne; unfold field_apart; lia. Qed.

Lemma get64_put64_ne p o v o' : 0 <= o -> o + 8 <= lenZ p -> 0 <= o' -> 0 <= v -> field_apart o 8 o' 8 ->
  get64 (put64 p o v) o' = get64 p o'.
Proof. intros Ho Hl Ho' Hv Ha. apply get64_ext. intros. unfold field_apart in Ha. apply nthZ_put64_ne; unfold field_apart; lia. Qed.

(** Reading fields of a page built by stores. *)
Ltac flen := repeat match goal with
  | |- context [length (put64 ?p ?o ?v)] => rewrite (length_put64 p o v)
  | |- context [length (put32 ?p ?o ?v)] => rewrite (length_put32 p o v)
  | |- context [length (setZ ?p ?o ?v)] => rewrite (length_setZ p o v)
  end.
Ltac fok := repeat match goal with
  | |- bytes_ok (put64 _ _ _) => apply bytes_ok_put64
  | |- bytes_ok (put32 _ _ _) => apply bytes_ok_put32
  end; try assumption.
Ltac fields := repeat match goal with
  | |- context [get64 (put64 ?p ?o ?v) ?o] => rewrite (get64_put64 p o v) by first [solve [fok] | flen; lia]
  | |- context [get32 (put32 ?p ?o ?v) ?o] => rewrite (get32_put32 p o v) by first [solve [fok] | flen; lia]
  | |- context [get64 (put64 ?p ?o ?v) ?i] => rewrite (get64_put64_ne p o v i) by (flen; unfold field_apart; lia)
  | |- context [get64 (put32 ?p ?o ?v) ?i] => rewrite (get64_put32_ne p o v i) by (flen; unfold field_apart; lia)
  | |- context [get32 (put64 ?p ?o ?v) ?i] => rewrite (get32_put64_ne p o v i) by (flen; unfold field_apart; lia)
  | |- context [get32 (put32 ?p ?o ?v) ?i] => rewrite (get32_put32_ne p o v i) by (flen; unfold field_apart; lia)
  | |- context [nthZ (put64 ?p ?o ?v) ?i] => rewrite (nthZ_put64_ne p o v i) by (flen; unfold field_apart; lia)
  | |- context [nthZ (put32 ?p ?o ?v) ?i] => rewrite (nthZ_put32_ne p o v i) by (flen; unfold field_apart; lia)
  end.

(** * Whole buffers *)

Lemma nthZ_ext l1 l2 : length l1 = length l2 -> (forall i, 0 <= i < lenZ l1 -> nthZ l1 i = nthZ l2 i) -> l1 = l2.
Proof.
  intros Hl H. apply list_eq. intros i. destruct (l1 !! i) as [x|] eqn:E1.
  - pose proof (lookup_lt_Some _ _ _ E1). destruct (lookup_lt_is_Some_2 l2 i ltac:(lia)) as [y E2]. rewrite E2.
    specialize (H (Z.of_nat i) ltac:(lia)). unfold nthZ in H. rewrite Nat2Z.id, E1, E2 in H. by f_equal.
  - apply lookup_ge_None in E1. symmetry. apply lookup_ge_None. lia.
Qed.

Lemma nthZ_map_seqZ (f : Z -> Z) lo n i : 0 <= i < n -> nthZ (f <$> seqZ lo n) i = f (lo + i).
Proof.
  intros Hi. unfold nthZ. rewrite list_lookup_fmap, lookup_seqZ_lt by lia. cbn. f_equal. lia.
Qed.

Lemma length_map_seqZ (f : Z -> Z) lo n : 0 <= n -> lenZ (f <$> seqZ lo n) = n.
Proof. intros. rewrite length_fmap, length_seqZ. lia. Qed.

Lemma nthZ_replicate n i : nthZ (replicate n 0) i = 0.
Proof.
  unfold nthZ. destruct (replicate n 0 !! Z.to_nat i) eqn:E; [|done]. by apply lookup_replicate in E as [-> _].
Qed.

Lemma bytes_ok_zeros n : bytes_ok (replicate n 0).
Proof. apply Forall_replicate. lia. Qed.

Lemma bytes_ok_nth l : bytes_ok l <-> (forall o, 0 <= o < lenZ l -> 0 <= nthZ l o < 256).
Proof.
  split; [intros H o _; by apply nthZ_range|]. intros H. apply Forall_lookup_2. intros i x Hx.
  pose proof (lookup_lt_Some _ _ _ Hx). specialize (H (Z.of_nat i) ltac:(lia)).
  unfold nthZ in H. by rewrite Nat2Z.id, Hx in H.
Qed.
