(* ===== verification/Xerlibc.v ===== *)
(** Memory, string and formatting routines: [core/xerlibc/src]. Byte memory is
    a function from addresses to bytes. *)

From S2P Require Import Prelude.
From S2P Require Import Bytes.

Implicit Types (m : Z -> Z) (dst src a b s : Z).

(** * [mem.c] *)

Definition memcpy m dst src (n : Z) : Z -> Z := for_range 0 n (fun i m => upd m (dst + i) (m (src + i))) m.

Definition memmove m dst src (n : Z) : Z -> Z :=
  if (dst <? src) || (src + n <=? dst) then for_range 0 n (fun i m => upd m (dst + i) (m (src + i))) m
  else for_range 0 n (fun i m => upd m (dst + n - 1 - i) (m (src + n - 1 - i))) m.

Definition memset m dst (c n : Z) : Z -> Z := for_range 0 n (fun i m => upd m (dst + i) (u8 c)) m.

(** The loop from index [i]: the first difference, if any. *)
Fixpoint memcmp_loop (k : nat) m a b (i : Z) : Z :=
  match k with
  | O => 0
  | S k => if negb (m (a + i) =? m (b + i)) then m (a + i) - m (b + i) else memcmp_loop k m a b (i + 1)
  end.
Definition memcmp m a b (n : Z) : Z := memcmp_loop (Z.to_nat n) m a b 0.

(** The address found. *)
Fixpoint memchr_loop (k : nat) m s (v i : Z) : option Z :=
  match k with
  | O => None
  | S k => if m (s + i) =? v then Some (s + i) else memchr_loop k m s v (i + 1)
  end.
Definition memchr m s (c n : Z) : option Z := memchr_loop (Z.to_nat n) m s (u8 c) 0.

(** * [str.c] *)

(** Loops up to a NUL take fuel; [None] when it runs out. *)
Fixpoint strlen_loop (fuel : nat) m s (n : Z) : option Z :=
  if m (s + n) =? 0 then Some n else
  match fuel with O => None | S fuel => strlen_loop fuel m s (n + 1) end.
Definition strlen (fuel : nat) m s : option Z := strlen_loop fuel m s 0.

Fixpoint strnlen_loop (k : nat) m s (n : Z) : Z :=
  match k with
  | O => n
  | S k => if m (s + n) =? 0 then n else strnlen_loop k m s (n + 1)
  end.
Definition strnlen m s (maxlen : Z) : Z := strnlen_loop (Z.to_nat maxlen) m s 0.

Fixpoint strcmp (fuel : nat) m a b : option Z :=
  if negb (m a =? 0) && (m a =? m b) then
    match fuel with O => None | S fuel => strcmp fuel m (a + 1) (b + 1) end
  else Some (m a - m b).

Fixpoint strncmp_loop (k : nat) m a b (i : Z) : Z :=
  match k with
  | O => 0
  | S k =>
    if negb (m (a + i) =? m (b + i)) then m (a + i) - m (b + i) else
    if m (a + i) =? 0 then 0 else strncmp_loop k m a b (i + 1)
  end.
Definition strncmp m a b (n : Z) : Z := strncmp_loop (Z.to_nat n) m a b 0.

Fixpoint strcpy (fuel : nat) m dst src : option (Z -> Z) :=
  let c := m src in
  let m := upd m dst c in
  if c =? 0 then Some m else
  match fuel with O => None | S fuel => strcpy fuel m (dst + 1) (src + 1) end.

(** The first loop of [strncpy]: the memory and the index it stops at. *)
Fixpoint strncpy_copy (k : nat) m dst src (i : Z) : (Z -> Z) * Z :=
  match k with
  | O => (m, i)
  | S k => if m (src + i) =? 0 then (m, i) else strncpy_copy k (upd m (dst + i) (m (src + i))) dst src (i + 1)
  end.
Definition strncpy m dst src (n : Z) : Z -> Z :=
  let '(m, i) := strncpy_copy (Z.to_nat n) m dst src 0 in
  for_range i (n - i) (fun j m => upd m (dst + j) 0) m.

(** [Some None]: the NUL was met first. *)
Fixpoint strchr (fuel : nat) m s (c : Z) : option (option Z) :=
  if m s =? u8 c then Some (Some s) else
  if m s =? 0 then Some None else
  match fuel with O => None | S fuel => strchr fuel m (s + 1) c end.

(** * [fmt.c] *)

Definition hexdigits : list Z := [48; 49; 50; 51; 52; 53; 54; 55; 56; 57; 65; 66; 67; 68; 69; 70].
Definition hexdigit (v : Z) : Z := nthZ hexdigits v.

(** The do-while loop: the digits in [tmp], last one first. *)
Fixpoint dec_loop (fuel : nat) (v : Z) (tmp : list Z) : list Z :=
  let tmp := tmp ++ [48 + v mod 10] in
  match fuel with
  | O => tmp
  | S fuel => if v / 10 =? 0 then tmp else dec_loop fuel (v / 10) tmp
  end.

(** The characters written to [out]. *)
Definition xl_u64_dec (v : Z) : list Z := reverse (dec_loop 20 v []).

Definition xl_u64_hex (v width : Z) : list Z :=
  let width := if 16 <? width then 16 else width in
  (fun i => hexdigit ((v .>> (4 * (width - 1 - i))) .& 15)) <$> seqZ 0 width.

Definition xl_hexdump_line (off : Z) (b : list Z) (n : Z) : list Z :=
  let n := if 16 <? n then 16 else n in
  let out := xl_u64_hex off 8 ++ [32; 32] in
  let out := for_range 0 16 (fun i out =>
    let out := if i <? n then out ++ [hexdigit (nthZ b i .>> 4); hexdigit (nthZ b i .& 15)] else out ++ [32; 32] in
    let out := out ++ [32] in
    if i =? 7 then out ++ [32] else out) out in
  let out := out ++ [124] in
  let out := for_range 0 16 (fun i out =>
    out ++ [if i <? n then (if (32 <=? nthZ b i) && (nthZ b i <? 127) then nthZ b i else 46) else 32]) out in
  out ++ [124].

(** * [kernel/xeret/kernel_lib.c]: the kernel's own two *)

Fixpoint xk_strcmp_loop (fuel : nat) m a b (i : Z) : option Z :=
  if negb (m (a + i) =? 0) && negb (m (b + i) =? 0) then
    if negb (m (a + i) =? m (b + i)) then Some (m (a + i) - m (b + i)) else
    match fuel with O => None | S fuel => xk_strcmp_loop fuel m a b (i + 1) end
  else Some (m (a + i) - m (b + i)).
Definition xk_strcmp (fuel : nat) m a b : option Z := xk_strcmp_loop fuel m a b 0.

Fixpoint xk_strlen_loop (fuel : nat) m s (n : Z) : option Z :=
  if negb (m (s + n) =? 0) then match fuel with O => None | S fuel => xk_strlen_loop fuel m s (n + 1) end else Some n.
Definition xk_strlen (fuel : nat) m s : option Z := xk_strlen_loop fuel m s 0.

(** They are the library's. *)
Lemma xk_strcmp_same fuel m : forall a b i, xk_strcmp_loop fuel m a b i = strcmp fuel m (a + i) (b + i).
Proof.
  induction fuel as [|fuel IH]; intros a b i; cbn [xk_strcmp_loop strcmp]; rewrite <- ?Z.add_assoc, ?IH;
    destruct (Z.eqb_spec (m (a + i)) 0) as [E1|E1]; destruct (Z.eqb_spec (m (b + i)) 0) as [E2|E2]; destruct (Z.eqb_spec (m (a + i)) (m (b + i))) as [E3|E3]; cbn [negb andb]; try done; congruence.
Qed.

Lemma xk_strlen_same fuel m s : forall n, xk_strlen_loop fuel m s n = strlen_loop fuel m s n.
Proof. induction fuel as [|fuel IH]; intros n; cbn [xk_strlen_loop strlen_loop]; destruct (m (s + n) =? 0); cbn [negb]; auto. Qed.

(** * Copies *)

Definition inside (lo n a : Z) : bool := (lo <=? a) && (a <? lo + n).

Lemma inside_spec lo n a : inside lo n a = true <-> lo <= a < lo + n.
Proof. unfold inside. lia. Qed.

(** The memory with the [n] bytes at [src] put at [dst]. *)
Definition moved_to m dst src n : Z -> Z := fun a => if inside dst n a then m (src + (a - dst)) else m a.

Lemma forward_copy m dst src n : 0 <= n -> dst <= src \/ src + n <= dst ->
  forall a, for_range 0 n (fun i m => upd m (dst + i) (m (src + i))) m a = moved_to m dst src n a.
Proof.
  intros Hn Hd. refine (for_range_inv (fun k m' => forall a, m' a = moved_to m dst src k a) 0 n _ m Hn _ _).
  - intros a. unfold moved_to, inside. zcase.
  - intros k m' Hk IH a. rewrite Z.add_0_l. unfold upd. destruct (decide (a = dst + k)) as [->|Hne].
    + rewrite IH. unfold moved_to. rewrite (proj2 (inside_spec dst (k + 1) _)) by lia.
      destruct (inside dst k (src + k)) eqn:E; [apply inside_spec in E; replace src with dst in * by lia; f_equal; lia|f_equal; lia].
    + rewrite IH. unfold moved_to. replace (inside dst (k + 1) a) with (inside dst k a); [done|]. unfold inside. lia.
Qed.

Lemma backward_copy m dst src n : 0 <= n -> src <= dst ->
  forall a, for_range 0 n (fun i m => upd m (dst + n - 1 - i) (m (src + n - 1 - i))) m a = moved_to m dst src n a.
Proof.
  intros Hn Hd a. pose (I := fun k (m' : Z -> Z) => forall a, m' a = if inside (dst + n - k) k a then m (src + (a - dst)) else m a).
  assert (I n (for_range 0 n (fun i m => upd m (dst + n - 1 - i) (m (src + n - 1 - i))) m)) as H.
  { apply (for_range_inv I); [done|intros b; unfold inside; by zcase|]. intros k m' Hk IH b. rewrite Z.add_0_l. unfold upd.
    destruct (decide (b = dst + n - 1 - k)) as [->|Hne].
    - rewrite (proj2 (inside_spec _ (k + 1) _)) by lia. rewrite IH. destruct (inside _ k _) eqn:E; [apply inside_spec in E; lia|f_equal; lia].
    - rewrite IH. replace (inside (dst + n - (k + 1)) (k + 1) b) with (inside (dst + n - k) k b); [done|]. unfold inside. lia. }
  rewrite (H a). unfold moved_to. replace (dst + n - n) with dst by lia. done.
Qed.

(** copying memory. [memmove] puts the bytes that were at [src] at [dst],
    whichever way the ranges overlap, and changes nothing else; [memcpy] does the
    same for ranges that do not overlap, [memset] fills exactly its range. *)
Theorem memmove_correct m dst src n c : 0 <= n ->
  (forall a, memmove m dst src n a = moved_to m dst src n a) /\
  (src + n <= dst \/ dst + n <= src -> forall a, memcpy m dst src n a = moved_to m dst src n a) /\
  (forall a, memset m dst c n a = if inside dst n a then u8 c else m a).
Proof.
  intros Hn. split_and!.
  - intros a. unfold memmove. destruct (_ || _) eqn:E; [apply forward_copy; [done|lia]|apply backward_copy; [done|lia]].
  - intros Hd a. apply forward_copy; [done|]. destruct (Z.eq_dec n 0); lia.
  - refine (for_range_inv (fun k m' => forall a, m' a = if inside dst k a then u8 c else m a) 0 n _ m Hn _ _).
    + intros a. unfold inside. by zcase.
    + intros k m' Hk IH a. rewrite Z.add_0_l. unfold upd. destruct (decide (a = dst + k)) as [->|Hne].
      * by rewrite (proj2 (inside_spec dst (k + 1) _)) by lia.
      * rewrite IH. replace (inside dst (k + 1) a) with (inside dst k a); [done|]. unfold inside. lia.
Qed.

(** * Comparison and search *)

Lemma memcmp_loop_spec m a b k : forall i, 0 <= i ->
  let r := memcmp_loop k m a b i in
  (r = 0 <-> forall j, i <= j < i + Z.of_nat k -> m (a + j) = m (b + j)) /\
  (r <> 0 -> exists j, i <= j < i + Z.of_nat k /\ (forall j', i <= j' < j -> m (a + j') = m (b + j')) /\ r = m (a + j) - m (b + j)).
Proof.
  induction k as [|k IH]; intros i Hi; cbn [memcmp_loop].
  { split; [split; [lia|done]|done]. }
  destruct (Z.eqb_spec (m (a + i)) (m (b + i))) as [E|E]; cbn [negb].
  - destruct (IH (i + 1) ltac:(lia)) as [H1 H2]. split.
    + rewrite H1. split; intros H j Hj; [|apply H; lia]. destruct (Z.eq_dec j i) as [->|]; [done|]. apply H. lia.
    + intros Hr. destruct (H2 Hr) as (j & Hj & Hb & Er). exists j. split_and!; [lia|lia| |done]. intros j' Hj'.
      destruct (Z.eq_dec j' i) as [->|]; [done|]. apply Hb. lia.
  - split; [split; [lia|]|].
    + intros H. destruct E. apply H. lia.
    + intros _. exists i. split_and!; [lia|lia| |done]. intros j' Hj'. lia.
Qed.

Lemma memchr_loop_spec m s v k : forall i, 0 <= i ->
  match memchr_loop k m s v i with
  | Some p => exists j, p = s + j /\ i <= j < i + Z.of_nat k /\ m p = v /\ forall j', i <= j' < j -> m (s + j') <> v
  | None => forall j, i <= j < i + Z.of_nat k -> m (s + j) <> v
  end.
Proof.
  induction k as [|k IH]; intros i Hi; cbn [memchr_loop]; [intros j Hj; lia|].
  destruct (Z.eqb_spec (m (s + i)) v) as [E|E].
  - exists i. split_and!; [done|lia|lia|done|]. intros j' Hj'. lia.
  - specialize (IH (i + 1) ltac:(lia)). destruct (memchr_loop k m s v (i + 1)) as [p|].
    + destruct IH as (j & -> & Hj & Hm & Hb). exists j. split_and!; [done|lia|lia|done|]. intros j' Hj'.
      destruct (Z.eq_dec j' i) as [->|]; [done|]. apply Hb. lia.
    + intros j Hj. destruct (Z.eq_dec j i) as [->|]; [done|]. apply IH. lia.
Qed.

(** * C strings in memory *)

(** The string [l] at [s], with its NUL. *)
Fixpoint cstr_at m s (l : list Z) : Prop :=
  match l with
  | [] => m s = 0
  | c :: l => m s = c /\ c <> 0 /\ cstr_at m (s + 1) l
  end.

Lemma strlen_loop_spec m s l : forall n fuel, cstr_at m (s + n) l -> (length l <= fuel)%nat -> strlen_loop fuel m s n = Some (n + lenZ l).
Proof.
  induction l as [|c l IH]; intros n fuel; cbn [cstr_at].
  - intros H _. destruct fuel; cbn [strlen_loop]; rewrite H; cbn; f_equal; lia.
  - intros (H & Hc & Hl) Hf. destruct fuel as [|fuel]; cbn [length] in Hf; [lia|]. cbn [strlen_loop]. rewrite H, (proj2 (Z.eqb_neq c 0) Hc).
    rewrite IH; [cbn [length]; f_equal; lia|by replace (s + (n + 1)) with (s + n + 1) by lia|lia].
Qed.

Lemma strcmp_loop_spec m l1 : forall a b l2 fuel, cstr_at m a l1 -> cstr_at m b l2 -> (length l1 <= fuel)%nat ->
  exists r, strcmp fuel m a b = Some r /\ (r = 0 <-> l1 = l2).
Proof.
  induction l1 as [|c l1 IH]; intros a b l2 fuel H1 H2 Hf; cbn [cstr_at] in H1.
  - exists (0 - m b). assert (strcmp fuel m a b = Some (0 - m b)) as -> by (destruct fuel; cbn [strcmp]; by rewrite H1).
    split; [done|]. destruct l2 as [|c2 l2]; cbn [cstr_at] in H2; [rewrite H2; done|]. destruct H2 as (-> & Hc & _). split; [lia|done].
  - destruct H1 as (E & Hc & H1), fuel as [|fuel]; cbn [length] in Hf; [lia|]. cbn [strcmp]. rewrite E, (proj2 (Z.eqb_neq c 0) Hc). cbn [negb andb].
    destruct l2 as [|c2 l2]; cbn [cstr_at] in H2.
    + rewrite H2, (proj2 (Z.eqb_neq c 0) Hc). exists (c - 0). split; [done|]. split; [lia|done].
    + destruct H2 as (-> & Hc2 & H2). destruct (Z.eqb_spec c c2) as [->|Hne].
      * destruct (IH (a + 1) (b + 1) l2 fuel H1 H2 ltac:(lia)) as (r & -> & Hr). exists r. split; [done|]. rewrite Hr. split; [by intros ->|by intros [= ->]].
      * exists (c - c2). split; [done|]. split; [lia|congruence].
Qed.

Lemma cstr_at_same m m' l : forall s, (forall a, s <= a <= s + lenZ l -> m' a = m a) -> cstr_at m s l -> cstr_at m' s l.
Proof.
  induction l as [|c l IH]; intros s Hm; cbn [cstr_at length] in *; [rewrite Hm by lia; done|].
  intros (H1 & H2 & H3). rewrite Hm by lia. split_and!; [done|done|]. apply IH; [|done]. intros a Ha. apply Hm. lia.
Qed.

Lemma strcpy_spec l : forall m dst src fuel, cstr_at m src l -> (length l <= fuel)%nat -> src + lenZ l < dst \/ dst + lenZ l < src ->
  exists m', strcpy fuel m dst src = Some m' /\ cstr_at m' dst l /\ forall a, ~ (dst <= a <= dst + lenZ l) -> m' a = m a.
Proof.
  induction l as [|c l IH]; intros m dst src fuel Hs Hf Hd; cbn [cstr_at] in Hs.
  - exists (upd m dst 0). split_and!; [destruct fuel; cbn [strcpy]; by rewrite Hs|apply upd_eq|]. intros a Ha. apply upd_ne. cbn in Ha. lia.
  - destruct Hs as (E & Hc & Hs), fuel as [|fuel]; cbn [length] in Hf; [lia|]. cbn [strcpy]. rewrite E, (proj2 (Z.eqb_neq c 0) Hc). cbn [length] in *.
    destruct (IH (upd m dst c) (dst + 1) (src + 1) fuel) as (m' & -> & H1 & H2).
    + apply (cstr_at_same m); [|done]. intros a Ha. apply upd_ne. lia.
    + lia.
    + lia.
    + exists m'. split; [done|]. cbn [cstr_at]. split_and!; [rewrite H2 by lia; apply upd_eq|done|done|]. intros a Ha. rewrite H2 by lia. apply upd_ne. lia.
Qed.

(** C strings. On strings with a NUL [strlen] is the length, [strcmp] is
    zero exactly on equal strings, and [strcpy] into a place apart writes the
    string and its NUL there and nothing else; all three stop at the NUL. *)
Theorem strings_correct m a b l1 l2 fuel : cstr_at m a l1 -> cstr_at m b l2 -> (length l1 <= fuel)%nat ->
  strlen fuel m a = Some (lenZ l1) /\ (exists r, strcmp fuel m a b = Some r /\ (r = 0 <-> l1 = l2)) /\
  (forall dst, a + lenZ l1 < dst \/ dst + lenZ l1 < a ->
    exists m', strcpy fuel m dst a = Some m' /\ cstr_at m' dst l1 /\ forall x, ~ (dst <= x <= dst + lenZ l1) -> m' x = m x).
Proof.
  intros H1 H2 Hf. split_and!.
  - unfold strlen. rewrite (strlen_loop_spec m a l1 0 fuel); [done|by rewrite Z.add_0_r|done].
  - by apply strcmp_loop_spec.
  - intros dst Hd. by apply strcpy_spec.
Qed.

(** * Numbers *)

(** The number a string of decimal or hexadecimal digits denotes. *)
Definition parse_dec (l : list Z) : Z := fold_left (fun v c => v * 10 + (c - 48)) l 0.
Definition unhex (c : Z) : Z := if c <? 58 then c - 48 else c - 55.
Definition parse_hex (l : list Z) : Z := fold_left (fun v c => v * 16 + unhex c) l 0.

Fixpoint digits_value (l : list Z) : Z := match l with [] => 0 | c :: l => (c - 48) + 10 * digits_value l end.

Lemma digits_value_app l1 l2 : digits_value (l1 ++ l2) = digits_value l1 + 10 ^ lenZ l1 * digits_value l2.
Proof.
  induction l1 as [|c l1 IH]; [cbn; lia|]. cbn [app digits_value length]. rewrite IH, Nat2Z.inj_succ, Z.pow_succ_r by lia. lia.
Qed.

Lemma parse_dec_reverse l : parse_dec (reverse l) = digits_value l.
Proof.
  unfold parse_dec. induction l as [|c l IH]; [done|]. rewrite reverse_cons, fold_left_app. cbn [fold_left digits_value]. lia.
Qed.

Lemma dec_loop_spec fuel : forall v tmp, 0 <= v < 10 ^ Z.of_nat (S fuel) ->
  exists l, dec_loop fuel v tmp = tmp ++ l /\ digits_value l = v /\ 1 <= lenZ l <= Z.of_nat (S fuel) /\ Forall (fun c => 48 <= c <= 57) l /\
    (1 < lenZ l -> last l <> Some 48).
Proof.
  induction fuel as [|fuel IH]; intros v tmp Hv; cbn [dec_loop]; pose proof (Z.div_mod v 10 ltac:(lia)); pose proof (Z.mod_pos_bound v 10 ltac:(lia)).
  { exists [48 + v mod 10]. change (10 ^ Z.of_nat 1) with 10 in Hv. rewrite Z.mod_small by lia. split_and!; [done|cbn; lia|cbn; lia|cbn; lia|repeat constructor; lia|cbn; lia]. }
  destruct (Z.eqb_spec (v / 10) 0) as [E|E].
  { exists [48 + v mod 10]. split_and!; [done|cbn; lia|cbn; lia|cbn [length]; lia|repeat constructor; lia|cbn; lia]. }
  rewrite Nat2Z.inj_succ, Z.pow_succ_r in Hv by lia.
  destruct (IH (v / 10) (tmp ++ [48 + v mod 10])) as (l & -> & H1 & H2 & H3 & H4); [split; [apply Z.div_pos; lia|apply Z.div_lt_upper_bound; lia]|].
  exists ((48 + v mod 10) :: l). split_and!; [by rewrite <- app_assoc|cbn; lia|cbn [length]; lia|cbn [length]; lia|constructor; [lia|done]|].
  intros _. destruct l as [|c l]; [cbn in H2; lia|]. rewrite last_cons_cons. destruct l as [|c' l]; [|apply H4; cbn [length]; lia].
  cbn [last]. cbn in H1. intros [= ->]. lia.
Qed.

Lemma hexdigit_spec v : 0 <= v < 16 -> unhex (hexdigit v) = v.
Proof. intros Hv. assert (v ∈ seqZ 0 16) as H by (apply elem_of_seqZ; lia). revert v H Hv. intros v H _. revert v H. apply Forall_forall. repeat constructor. Qed.

Lemma land_15 v : 0 <= v -> v .& 15 = v mod 16.
Proof. intros Hv. change 15 with (Z.ones 4). by rewrite Z.land_ones by lia. Qed.

Lemma hex_fold v w : 0 <= v -> forall k : nat, Z.of_nat k <= w ->
  fold_left (fun x c => x * 16 + unhex c) ((fun i => hexdigit ((v .>> (4 * (w - 1 - i))) .& 15)) <$> seqZ 0 (Z.of_nat k)) 0 =
  (v / 2 ^ (4 * (w - Z.of_nat k))) mod 16 ^ Z.of_nat k.
Proof.
  intros Hv. induction k as [|k IH]; intros Hk; [by rewrite Z.mod_1_r|].
  replace (Z.of_nat (S k)) with (Z.of_nat k + 1) in * by lia. rewrite seqZ_app, fmap_app, fold_left_app by lia. rewrite IH by lia.
  rewrite Z.add_0_l, seqZ_cons, seqZ_nil by lia. cbn [fmap list_fmap fold_left].
  rewrite land_15 by (apply Z.shiftr_nonneg; lia). rewrite hexdigit_spec by (apply Z.mod_pos_bound; lia). rewrite Z.shiftr_div_pow2 by lia.
  replace (w - 1 - Z.of_nat k) with (w - (Z.of_nat k + 1)) by lia. set (e := w - (Z.of_nat k + 1)) in *.
  replace (w - Z.of_nat k) with (e + 1) by lia. replace (4 * (e + 1)) with (4 * e + 4) by lia. rewrite Z.pow_add_r by lia. change (2 ^ 4) with 16.
  rewrite <- Z.div_div by lia. set (x := v / 2 ^ (4 * e)). rewrite Z.pow_add_r, Z.pow_1_r by lia. rewrite Z.mul_comm.
  rewrite (Z.mul_comm (16 ^ Z.of_nat k)). rewrite Z.rem_mul_r by lia. lia.
Qed.

(** printing numbers. The decimal digits of a 64-bit number read back as
    the number, without a leading zero, and fit the 20 bytes the header asks
    for; the hexadecimal digits read back as the number modulo 16 to the width,
    which is clamped to 16. *)
Theorem xl_numbers_roundtrip v w : 0 <= v < 2 ^ 64 -> 0 <= w ->
  (let l := xl_u64_dec v in parse_dec l = v /\ 1 <= lenZ l <= 20 /\ Forall (fun c => 48 <= c <= 57) l /\ (1 < lenZ l -> head l <> Some 48)) /\
  (let l := xl_u64_hex v w in lenZ l = Z.min w 16 /\ parse_hex l = v mod 16 ^ Z.min w 16).
Proof.
  intros Hv Hw. split.
  - unfold xl_u64_dec. destruct (dec_loop_spec 20 v []) as (l & -> & H1 & H2 & H3 & H4); [change (10 ^ Z.of_nat 21) with 1000000000000000000000; lia|].
    cbn [app]. assert (lenZ l <= 20) as Hl20.
    { destruct (decide (lenZ l <= 20)) as [|Hbig]; [done|]. exfalso. assert (lenZ l = 21) as El by lia.
      destruct l as [|c l _] using rev_ind; [cbn in El; lia|]. rewrite digits_value_app in H1. rewrite last_snoc in H4. apply Forall_app in H3 as [H3 Hc].
      apply Forall_cons in Hc as [Hc _]. rewrite length_app in El, H4. cbn [length digits_value] in *. assert (c <> 48) by (intros ->; apply H4; [lia|done]).
      replace (lenZ l) with 20 in H1 by lia. change (10 ^ 20) with 100000000000000000000 in H1.
      assert (0 <= digits_value l); [|lia]. clear - H3. induction H3; cbn; lia. }
    split_and!; [by rewrite parse_dec_reverse|rewrite length_reverse; lia|rewrite length_reverse; lia|by apply Forall_reverse|].
    rewrite length_reverse. intros Hl. rewrite head_reverse. by apply H4.
  - unfold xl_u64_hex. assert ((if 16 <? w then 16 else w) = Z.min w 16) as -> by zcase. set (k := Z.min w 16) in *.
    split; [rewrite length_fmap, length_seqZ; lia|]. unfold parse_hex. replace (seqZ 0 k) with (seqZ 0 (Z.of_nat (Z.to_nat k))) by (f_equal; lia).
    rewrite hex_fold by lia. rewrite Z2Nat.id by lia. by rewrite Z.sub_diag, Z.mul_0_r, Z.div_1_r.
Qed.

(** A dump line has 77 characters whatever the bytes are, which with the NUL
    fit the 96 bytes the header asks for. *)
Lemma hexdump_length off (b : list Z) n : lenZ (xl_hexdump_line off b n) = 77.
Proof.
  unfold xl_hexdump_line. set (k := if 16 <? n then 16 else n). cbv zeta. rewrite length_app, Nat2Z.inj_add. cbn [length].
  set (f2 := fun i out => _ ++ [if i <? k then _ else 32]).
  assert (forall out, lenZ (for_range 0 16 f2 out) = lenZ out + 16) as ->.
  { intros out. refine (for_range_inv (fun j o => lenZ o = lenZ out + j) 0 16 f2 out ltac:(lia) _ _); [lia|].
    intros j o _ H. unfold f2. rewrite length_app. cbn [length]. lia. }
  rewrite length_app, Nat2Z.inj_add. cbn [length]. set (f1 := fun i out => if i =? 7 then _ else _).
  assert (forall out, lenZ (for_range 0 16 f1 out) = lenZ out + 49) as H1.
  { intros out. pose proof (for_range_inv (fun j o => lenZ o = lenZ out + 3 * j + (if 7 <? j then 1 else 0)) 0 16 f1 out ltac:(lia)) as H.
    cbn in H. rewrite H; [lia|lia|]. intros j o Hj E. rewrite Z.add_0_l. unfold f1.
    assert (forall o, lenZ (if j <? k then o ++ [hexdigit (nthZ b j .>> 4); hexdigit (nthZ b j .& 15)] else o ++ [32; 32]) = lenZ o + 2) as H2.
    { intros o'. destruct (j <? k); rewrite length_app; cbn [length]; lia. }
    specialize (H2 o). destruct (Z.eqb_spec j 7); rewrite ?length_app; cbn [length]; destruct (Z.ltb_spec 7 j), (Z.ltb_spec 7 (j + 1)); lia. }
  rewrite H1, length_app. cbn [length]. unfold xl_u64_hex. rewrite length_fmap, length_seqZ. cbn. lia.
Qed.

(** * Witnesses *)

Lemma memmove_correct_witness : memmove (fun a => a) 12 10 5 13 = 11 /\ memmove (fun a => a) 10 12 5 14 = 16.
Proof.
  split.
  - rewrite (proj1 (memmove_correct (fun a => a) 12 10 5 0 ltac:(lia))). reflexivity.
  - rewrite (proj1 (memmove_correct (fun a => a) 10 12 5 0 ltac:(lia))). reflexivity.
Defined.

(** "ab" at 4, "b" at 5. *)
Definition demo_strings : Z -> Z := upd (upd (fun _ => 0) 4 97) 5 98.

Lemma strings_correct_witness : strlen 2 demo_strings 4 = Some 2 /\ exists r, strcmp 2 demo_strings 4 5 = Some r /\ r <> 0.
Proof.
  destruct (strings_correct demo_strings 4 5 [97; 98] [98] 2) as (H1 & (r & H2 & H3) & _).
  - cbn. split_and!; (reflexivity || lia).
  - cbn. split_and!; (reflexivity || lia).
  - cbn. lia.
  - split; [exact H1|]. exists r. split; [exact H2|]. rewrite H3. discriminate.
Defined.

Lemma xl_numbers_roundtrip_witness : parse_dec (xl_u64_dec 1234) = 1234 /\ parse_hex (xl_u64_hex 255 4) = 255.
Proof.
  split.
  - apply (xl_numbers_roundtrip 1234 4); lia.
  - rewrite (proj2 (proj2 (xl_numbers_roundtrip 255 4 ltac:(lia) ltac:(lia)))). reflexivity.
Defined.
