(* ===== verification/Syslib.v ===== *)
(** The system library: paths with the [|] delimiter ([syslib/core/path.c]) and
    the command ring between a producer and a consumer ([syslib/core/xqueue.c]). *)

From S2P Require Import Prelude.
From S2P Require Import Bytes.

(** * Paths *)

Module Path.

Definition MAX_PATH_LENGTH : Z := 256.
Definition MAX_TOKENS : Z := 8.
Definition MAX_TOKEN_SIZE : Z := 32.
Definition RESOLVE_MAX : Z := 256.
Definition path_bar : Z := 124.

(** The loop over the characters after the first: the tokens closed so far and
    the characters of the current one. *)
Fixpoint parse_loop (l : list Z) (tokens : list (list Z)) (cur : list Z) : list (list Z) * list Z :=
  match l with
  | [] => (tokens, cur)
  | c :: l =>
    if c =? path_bar then
      if 0 <? lenZ cur then
        let tokens := tokens ++ [cur] in
        if MAX_TOKENS <=? lenZ tokens then (tokens, []) else parse_loop l tokens []
      else parse_loop l tokens cur
    else if lenZ cur <? MAX_TOKEN_SIZE - 1 then parse_loop l tokens (cur ++ [c]) else parse_loop l tokens cur
  end.

(** The status and, when the syntax allows one, the tokens. *)
Definition parse_superdir_path (raw_path : list Z) : Z * option (list (list Z)) :=
  if negb (nthZ raw_path 0 =? path_bar) then (-1, None) else
  let '(tokens, cur) := parse_loop (take (Z.to_nat (MAX_PATH_LENGTH - 1)) (drop 1 raw_path)) [] [] in
  let tokens := if (0 <? lenZ cur) && (lenZ tokens <? MAX_TOKENS) then tokens ++ [cur] else tokens in
  ((if 0 <? lenZ tokens then 0 else -1), Some tokens).

(** The copy loops: characters of [src] while there is room. *)
Fixpoint copy_max (out src : list Z) : list Z :=
  match src with
  | [] => out
  | c :: src => if lenZ out <? RESOLVE_MAX - 1 then copy_max (out ++ [c]) src else out
  end.

(** A missing target is [None]. *)
Definition resolve_superdir_path (cwd : list Z) (target : option (list Z)) : list Z :=
  match target with
  | None | Some [] => copy_max [] cwd
  | Some target =>
    if nthZ target 0 =? path_bar then copy_max [] target else
    let out := copy_max [] cwd in
    let i := lenZ out in
    let out := if (0 <? i) && negb (nthZ out (i - 1) =? path_bar) && (i <? RESOLVE_MAX - 1) then out ++ [path_bar] else out in
    copy_max out target
  end.

(** ** Reference *)

(** The parts between bars, the last one apart. *)
Fixpoint split (l : list Z) : list Z * list (list Z) :=
  match l with
  | [] => ([], [])
  | c :: l => let '(p, ps) := split l in if c =? path_bar then ([], p :: ps) else (c :: p, ps)
  end.

Definition parts (l : list Z) : list (list Z) := let '(p, ps) := split l in p :: ps.
Definition names (l : list Z) : list (list Z) := filter (fun p => p <> []) (parts l).

(** Names cut to their size. *)
Definition cut (n : list Z) : list Z := take 31 n.

Lemma parts_cons c l : parts (c :: l) = if c =? path_bar then [] :: parts l else match parts l with p :: ps => (c :: p) :: ps | [] => [] end.
Proof. unfold parts. cbn [split]. destruct (split l) as [p ps]. by destruct (c =? path_bar). Qed.

Lemma parts_bar l : parts (path_bar :: l) = [] :: parts l.
Proof. by rewrite parts_cons. Qed.

Lemma names_bar l : names (path_bar :: l) = names l.
Proof. unfold names. rewrite parts_bar. by rewrite filter_cons_False by (intros H; by apply H). Qed.

(** The names from the middle of one: [cur] is the part of it seen so far. *)
Definition names_from (cur l : list Z) : list (list Z) := names (cur ++ l).

Lemma no_bar_parts cur : Forall (fun c => c <> path_bar) cur -> forall l p ps, parts l = p :: ps -> parts (cur ++ l) = (cur ++ p) :: ps.
Proof.
  induction 1 as [|c cur Hc Hcur IH]; intros l p ps E; [done|]. cbn [app]. rewrite parts_cons, (proj2 (Z.eqb_neq c path_bar) Hc). by rewrite (IH l p ps E).
Qed.

Lemma names_from_bar cur l : Forall (fun c => c <> path_bar) cur -> cur <> [] -> names (cur ++ path_bar :: l) = cur :: names l.
Proof.
  intros Hb Hc. unfold names. rewrite (no_bar_parts cur Hb _ [] (parts l) (parts_bar l)), app_nil_r. by rewrite filter_cons_True.
Qed.

Lemma names_one cur : Forall (fun c => c <> path_bar) cur -> cur <> [] -> names cur = [cur].
Proof.
  intros Hb Hc. unfold names. rewrite <- (app_nil_r cur) at 1. rewrite (no_bar_parts cur Hb [] [] []) by done. rewrite app_nil_r. by rewrite filter_cons_True.
Qed.

(** Names whose bars are apart. *)
Lemma names_app l1 l2 : names (l1 ++ path_bar :: l2) = names l1 ++ names l2.
Proof.
  assert (forall l, parts (l ++ path_bar :: l2) = parts l ++ parts l2) as H.
  { induction l as [|c l IH]; [apply parts_bar|]. cbn [app]. rewrite !parts_cons, IH. destruct (c =? path_bar); [done|].
    unfold parts at 1 3. destruct (split l). done. }
  unfold names. by rewrite H, filter_app.
Qed.

Lemma parse_loop_spec l : forall tokens seen, Forall (fun c => c <> path_bar) seen -> lenZ tokens < 8 ->
  let '(ts, cur) := parse_loop l tokens (cut seen) in
  (if (0 <? lenZ cur) && (lenZ ts <? 8) then ts ++ [cur] else ts) = take 8 (tokens ++ (cut <$> names (seen ++ l))).
Proof.
  induction l as [|c l IH]; intros tokens seen Hs Ht; cbn [parse_loop].
  { rewrite (proj2 (Z.ltb_lt _ 8)) by done. rewrite andb_true_r, app_nil_r. destruct seen as [|c seen].
    - cbn. rewrite app_nil_r, take_ge by lia. done.
    - rewrite names_one by done. cbn [fmap list_fmap]. rewrite take_ge by (rewrite length_app; cbn [length]; lia). done. }
  change MAX_TOKENS with 8. change (MAX_TOKEN_SIZE - 1) with 31. destruct (Z.eqb_spec c path_bar) as [->|Hc].
  - destruct seen as [|c seen].
    + cbn [cut take length Z.ltb Z.of_nat Z.compare app]. rewrite names_bar. apply (IH tokens []); [constructor|done].
    + assert ((0 <? lenZ (cut (c :: seen))) = true) as -> by (apply Z.ltb_lt; unfold cut; rewrite length_take; cbn [length]; lia).
      rewrite names_from_bar by done. cbn [fmap list_fmap].
      destruct (Z.leb_spec 8 (lenZ (tokens ++ [cut (c :: seen)]))) as [H8|H8]; rewrite length_app in H8; cbn [length] in H8.
      * cbn [length Z.of_nat Z.ltb Z.compare andb]. replace (tokens ++ cut (c :: seen) :: (cut <$> names l)) with ((tokens ++ [cut (c :: seen)]) ++ (cut <$> names l)) by (by rewrite <- app_assoc).
        rewrite take_app_length'; [done|]. rewrite length_app. cbn [length]. lia.
      * specialize (IH (tokens ++ [cut (c :: seen)]) [] ltac:(constructor)). rewrite length_app in IH. cbn [length] in IH. specialize (IH ltac:(lia)).
        change (cut []) with (@nil Z) in IH. destruct (parse_loop l _ []) as [ts cur]. rewrite IH. by rewrite <- app_assoc.
  - assert (seen ++ c :: l = (seen ++ [c]) ++ l) as -> by (by rewrite <- app_assoc).
    assert ((if lenZ (cut seen) <? 31 then parse_loop l tokens (cut seen ++ [c]) else parse_loop l tokens (cut seen)) = parse_loop l tokens (cut (seen ++ [c]))) as ->.
    { unfold cut. rewrite length_take. destruct (Z.ltb_spec (Z.of_nat (31 `min` length seen)) 31).
      - f_equal. rewrite (take_ge seen) by lia. rewrite take_ge; [done|]. rewrite length_app. cbn [length]. lia.
      - f_equal. rewrite take_app_le by lia. done. }
    apply IH; [|done]. apply Forall_app. split; [done|by constructor].
Qed.

Lemma copy_max_spec src : forall out, lenZ out <= 255 -> copy_max out src = take 255 (out ++ src).
Proof.
  induction src as [|c src IH]; intros out Ho; cbn [copy_max]; [rewrite app_nil_r, take_ge by lia; done|].
  change (RESOLVE_MAX - 1) with 255. destruct (Z.ltb_spec (lenZ out) 255).
  - rewrite IH by (rewrite length_app; cbn [length]; lia). by rewrite <- app_assoc.
  - rewrite take_app_length' by lia. done.
Qed.

(** C29: the path parser equals its reference. A path that starts with a bar
    parses to the non-empty parts between bars, each cut to 31 characters, at
    most eight of them, of the first 256 characters; it is refused exactly when
    there is none. Resolving a relative target puts it below the current
    directory: the names of the result are those of both, as long as it fits. *)
Theorem path_parse_correct raw cwd target :
  (parse_superdir_path raw = if nthZ raw 0 =? path_bar then
    let ts := take 8 (cut <$> names (take 255 (drop 1 raw))) in ((if 0 <? lenZ ts then 0 else -1), Some ts) else (-1, None)) /\
  lenZ (resolve_superdir_path cwd target) <= 255 /\
  (forall t, target = Some t -> t <> [] -> nthZ t 0 <> path_bar -> cwd <> [] -> lenZ cwd + lenZ t < 255 ->
    names (resolve_superdir_path cwd target) = names cwd ++ names t).
Proof.
  split_and!.
  - unfold parse_superdir_path. destruct (nthZ raw 0 =? path_bar); cbn [negb]; [|done]. change (Z.to_nat (MAX_PATH_LENGTH - 1)) with 255%nat.
    pose proof (parse_loop_spec (take 255 (drop 1 raw)) [] [] ltac:(constructor) ltac:(done)) as H. change (cut []) with (@nil Z) in H.
    destruct (parse_loop _ [] []) as [ts cur]. change MAX_TOKENS with 8. by rewrite H.
  - assert (forall out src, lenZ out <= 255 -> lenZ (copy_max out src) <= 255) as Hc by (intros out src H; rewrite copy_max_spec, length_take by done; lia).
    unfold resolve_superdir_path. destruct target as [[|c t]|]; [by apply Hc| |by apply Hc]. destruct (_ =? path_bar); [by apply Hc|].
    apply Hc. specialize (Hc [] cwd ltac:(done)). change (RESOLVE_MAX - 1) with 255.
    destruct (Z.ltb_spec (lenZ (copy_max [] cwd)) 255); [|rewrite andb_false_r; done]. destruct (_ && _ && _); [|done]. rewrite length_app. cbn [length]. lia.
  - intros t -> Ht Hb Hcwd Hlen. unfold resolve_superdir_path. destruct t as [|c t]; [done|]. rewrite (proj2 (Z.eqb_neq _ _) Hb).
    rewrite (copy_max_spec cwd []) by done. cbn [app]. rewrite (take_ge cwd) by lia. change (RESOLVE_MAX - 1) with 255.
    rewrite (proj2 (Z.ltb_lt (lenZ cwd) 255)) by lia. rewrite andb_true_r. destruct (exists_last Hcwd) as (l0 & x & ->). rewrite length_app in *. cbn [length] in *.
    assert (nthZ (l0 ++ [x]) (Z.of_nat (length l0 + 1) - 1) = x) as -> by (unfold nthZ; replace (Z.to_nat _) with (length l0) by lia; by rewrite list_lookup_middle).
    rewrite (proj2 (Z.ltb_lt 0 _)) by lia. cbn [andb]. destruct (Z.eqb_spec x path_bar) as [->|Hx]; cbn [negb].
    + rewrite copy_max_spec by (rewrite length_app; cbn [length]; lia). rewrite take_ge by (rewrite !length_app; cbn [length]; lia).
      rewrite <- app_assoc. cbn [app]. by rewrite names_app, (names_app l0 []), app_nil_r.
    + rewrite copy_max_spec by (rewrite !length_app; cbn [length]; lia). rewrite take_ge by (rewrite !length_app; cbn [length]; lia).
      rewrite <- (app_assoc (l0 ++ [x])). cbn [app]. by rewrite names_app.
Qed.

(** "|a" and "b|c" *)
Lemma path_parse_correct_witness : names (resolve_superdir_path [124; 97] (Some [98; 124; 99])) = [[97]; [98]; [99]].
Proof.
  rewrite (proj2 (proj2 (path_parse_correct [] [124; 97] (Some [98; 124; 99]))) [98; 124; 99]); [reflexivity|reflexivity|discriminate|discriminate|discriminate|cbn; lia].
Defined.
End Path.

(** * The command ring *)

Module Queue.

Definition XQUEUE_RING_SIZE : Z := 256.

Record XQueueCommand := mkCmd {
  operation_type : Z; source_address : Z; target_address : Z; payload_length : Z; security_token : Z
}.

Record XQueueChannel := mkChan { commands : Z -> XQueueCommand; head : Z; tail : Z }.

Definition ring_next (i : Z) : Z := u32 (i + 1) .& (XQUEUE_RING_SIZE - 1).

Definition store_command (ch : XQueueChannel) (i : Z) (cmd : XQueueCommand) : XQueueChannel := mkChan (upd (commands ch) i cmd) (head ch) (tail ch).
Definition set_tail (ch : XQueueChannel) (t : Z) : XQueueChannel := mkChan (commands ch) (head ch) t.
Definition set_head (ch : XQueueChannel) (h : Z) : XQueueChannel := mkChan (commands ch) h (tail ch).

Definition xqueue_submit_command (ch : XQueueChannel) (cmd : XQueueCommand) : Z * XQueueChannel :=
  let current_tail := tail ch in
  let next_tail := ring_next current_tail in
  if next_tail =? head ch then (-1, ch) else
  (0, set_tail (store_command ch current_tail cmd) next_tail).

(** The status and [*out_cmd] when it was written. *)
Definition xqueue_poll_completion (ch : XQueueChannel) : Z * option XQueueCommand * XQueueChannel :=
  if head ch =? tail ch then (0, None, ch) else
  let current_head := head ch in
  (1, Some (commands ch current_head), set_head ch (ring_next current_head)).

(** ** Interleaving *)

(** Producer and consumer run at the same time; what each has still to do after
    its last access to the shared channel. The fences order the accesses as
    written. *)
Inductive producer := PIdle | PTail (cmd : XQueueCommand) (t : Z) | PFree (cmd : XQueueCommand) (t : Z) | PStored (cmd : XQueueCommand) (t : Z).
Inductive consumer := CIdle | CBusy (h : Z) | CTaken (h : Z) (cmd : XQueueCommand).

Record ring := mkRing { chan : XQueueChannel; prod : producer; cons_ : consumer }.

(** What a step shows to the outside. *)
Inductive event := Sent (cmd : XQueueCommand) | Received (cmd : XQueueCommand) | Full | Empty.

Inductive rstep : ring -> list event -> ring -> Prop :=
  | p_tail ch c cmd : rstep (mkRing ch PIdle c) [] (mkRing ch (PTail cmd (tail ch)) c)
  | p_full ch c cmd t : ring_next t = head ch -> rstep (mkRing ch (PTail cmd t) c) [Full] (mkRing ch PIdle c)
  | p_free ch c cmd t : ring_next t <> head ch -> rstep (mkRing ch (PTail cmd t) c) [] (mkRing ch (PFree cmd t) c)
  | p_store ch c cmd t : rstep (mkRing ch (PFree cmd t) c) [] (mkRing (store_command ch t cmd) (PStored cmd t) c)
  | p_publish ch c cmd t : rstep (mkRing ch (PStored cmd t) c) [Sent cmd] (mkRing (set_tail ch (ring_next t)) PIdle c)
  | c_empty ch p : head ch = tail ch -> rstep (mkRing ch p CIdle) [Empty] (mkRing ch p CIdle)
  | c_busy ch p : head ch <> tail ch -> rstep (mkRing ch p CIdle) [] (mkRing ch p (CBusy (head ch)))
  | c_take ch p h : rstep (mkRing ch p (CBusy h)) [] (mkRing ch p (CTaken h (commands ch h)))
  | c_advance ch p h cmd : rstep (mkRing ch p (CTaken h cmd)) [Received cmd] (mkRing (set_head ch (ring_next h)) p CIdle).

Inductive rsteps : ring -> list event -> ring -> Prop :=
  | rs_nil r : rsteps r [] r
  | rs_snoc r tr r1 ev r2 : rsteps r tr r1 -> rstep r1 ev r2 -> rsteps r (tr ++ ev) r2.

(** One side alone does what its function does. *)
Lemma submit_steps ch cmd c : exists tr, let '(rc, ch') := xqueue_submit_command ch cmd in
  rsteps (mkRing ch PIdle c) tr (mkRing ch' PIdle c) /\ tr = (if rc =? 0 then [Sent cmd] else [Full]).
Proof.
  unfold xqueue_submit_command. destruct (Z.eqb_spec (ring_next (tail ch)) (head ch)) as [E|E]; eexists; (split; [|reflexivity]).
  - apply (rs_snoc _ [] (mkRing ch (PTail cmd (tail ch)) c) [Full]); [apply (rs_snoc _ [] (mkRing ch PIdle c) []); constructor|by constructor].
  - apply (rs_snoc _ [] (mkRing (store_command ch (tail ch) cmd) (PStored cmd (tail ch)) c) [Sent cmd]); [|constructor].
    apply (rs_snoc _ [] (mkRing ch (PFree cmd (tail ch)) c) []); [|constructor].
    apply (rs_snoc _ [] (mkRing ch (PTail cmd (tail ch)) c) []); [|by constructor].
    apply (rs_snoc _ [] (mkRing ch PIdle c) []); constructor.
Qed.

Lemma poll_steps ch p : exists tr, let '(rc, out, ch') := xqueue_poll_completion ch in
  rsteps (mkRing ch p CIdle) tr (mkRing ch' p CIdle) /\ tr = match out with Some cmd => [Received cmd] | None => [Empty] end.
Proof.
  unfold xqueue_poll_completion. destruct (Z.eqb_spec (head ch) (tail ch)) as [E|E]; eexists; (split; [|reflexivity]).
  - apply (rs_snoc _ [] (mkRing ch p CIdle) [Empty]); by constructor.
  - apply (rs_snoc _ [] (mkRing ch p (CTaken (head ch) (commands ch (head ch)))) [Received _]); [|constructor].
    apply (rs_snoc _ [] (mkRing ch p (CBusy (head ch))) []); [|constructor].
    apply (rs_snoc _ [] (mkRing ch p CIdle) []); by constructor.
Qed.

(** ** Refinement of a queue *)

Definition size (ch : XQueueChannel) : Z := (tail ch - head ch) mod 256.

(** The commands in the ring, oldest first. *)
Definition queue (ch : XQueueChannel) : list XQueueCommand := (fun k => commands ch ((head ch + k) mod 256)) <$> seqZ 0 (size ch).

Definition in_ring (i : Z) : Prop := 0 <= i < 256.

(** The invariant: what each side remembers is still so. *)
Definition rinv (r : ring) : Prop :=
  let ch := chan r in
  in_ring (head ch) /\ in_ring (tail ch) /\
  match prod r with
  | PIdle => True
  | PTail _ t => t = tail ch
  | PFree _ t => t = tail ch /\ ring_next t <> head ch
  | PStored cmd t => t = tail ch /\ ring_next t <> head ch /\ commands ch t = cmd
  end /\
  match cons_ r with
  | CIdle => True
  | CBusy h => h = head ch /\ head ch <> tail ch
  | CTaken h cmd => h = head ch /\ head ch <> tail ch /\ commands ch h = cmd
  end.

Lemma next_mod i : in_ring i -> ring_next i = (i + 1) mod 256.
Proof. intros Hi. unfold in_ring in Hi. unfold ring_next. rewrite u32_small by lia. change (XQUEUE_RING_SIZE - 1) with (Z.ones 8). by rewrite Z.land_ones by lia. Qed.

Lemma next_range i : in_ring i -> in_ring (ring_next i).
Proof. intros Hi. rewrite next_mod by done. apply Z.mod_pos_bound. lia. Qed.

(** The distance around the ring. *)
Lemma size_cases ch : in_ring (head ch) -> in_ring (tail ch) -> size ch = if head ch <=? tail ch then tail ch - head ch else tail ch - head ch + 256.
Proof.
  intros Hh Ht. unfold in_ring in *. unfold size. destruct (Z.leb_spec (head ch) (tail ch)); [by rewrite Z.mod_small by lia|].
  rewrite <- (Z_mod_plus_full _ 1), Z.mod_small by lia. lia.
Qed.

Lemma next_cases i : in_ring i -> ring_next i = if i =? 255 then 0 else i + 1.
Proof.
  intros Hi. rewrite next_mod by done. unfold in_ring in Hi. destruct (Z.eqb_spec i 255) as [->|]; [done|]. by rewrite Z.mod_small by lia.
Qed.

Lemma length_queue ch : lenZ (queue ch) = size ch.
Proof. unfold queue. rewrite length_fmap, length_seqZ. unfold size. pose proof (Z.mod_pos_bound (tail ch - head ch) 256). lia. Qed.

(** A slot outside the queue may change. *)
Lemma queue_store ch i cmd : in_ring (head ch) -> in_ring (tail ch) -> i = tail ch -> queue (store_command ch i cmd) = queue ch.
Proof.
  intros Hh Ht ->. unfold queue. change (size (store_command ch (tail ch) cmd)) with (size ch). apply list_fmap_ext. intros j k [-> Hk]%lookup_seqZ.
  cbn [store_command commands head]. apply upd_ne. rewrite size_cases in Hk by done. unfold in_ring in *. intros E. revert Hk.
  pose proof (Z.mod_pos_bound (head ch + (0 + Z.of_nat j)) 256 ltac:(lia)). pose proof (Z.div_mod (head ch + (0 + Z.of_nat j)) 256 ltac:(lia)) as Hd.
  destruct (Z.leb_spec (head ch) (tail ch)); nia.
Qed.

Lemma queue_publish ch : in_ring (head ch) -> in_ring (tail ch) -> ring_next (tail ch) <> head ch ->
  queue (set_tail ch (ring_next (tail ch))) = queue ch ++ [commands ch (tail ch)].
Proof.
  intros Hh Ht Hn. pose proof (next_range _ Ht) as Hr. unfold queue. rewrite (size_cases (set_tail ch _)), size_cases by done. cbn [set_tail head tail commands].
  rewrite next_cases in * by done. unfold in_ring in *.
  assert (forall a, a = (if head ch <=? tail ch then tail ch - head ch else tail ch - head ch + 256) -> 0 <= a -> (head ch + a) mod 256 = tail ch) as Hlast.
  { intros a -> Ha. destruct (Z.leb_spec (head ch) (tail ch)).
    - rewrite Z.mod_small by lia. lia.
    - rewrite <- (Z_mod_plus_full _ (-1)), Z.mod_small by lia. lia. }
  set (a := if head ch <=? tail ch then tail ch - head ch else tail ch - head ch + 256) in *.
  assert (0 <= a) as Ha by (unfold a; destruct (Z.leb_spec (head ch) (tail ch)); lia).
  assert ((if head ch <=? (if tail ch =? 255 then 0 else tail ch + 1) then (if tail ch =? 255 then 0 else tail ch + 1) - head ch
    else (if tail ch =? 255 then 0 else tail ch + 1) - head ch + 256) = a + 1) as ->.
  { revert Hn. unfold a. destruct (Z.eqb_spec (tail ch) 255), (Z.leb_spec (head ch) (tail ch)); zcase; lia. }
  rewrite seqZ_app, fmap_app, Z.add_0_l by lia. rewrite (seqZ_cons a), (seqZ_nil (Z.succ a)) by lia. cbn [fmap list_fmap]. by rewrite Hlast.
Qed.

Lemma queue_advance ch : in_ring (head ch) -> in_ring (tail ch) -> head ch <> tail ch ->
  queue ch = commands ch (head ch) :: queue (set_head ch (ring_next (head ch))).
Proof.
  intros Hh Ht Hn. pose proof (next_range _ Hh) as Hr. unfold queue. rewrite (size_cases (set_head ch _)), size_cases by done. cbn [set_head head tail commands].
  rewrite next_cases in * by done. unfold in_ring in *. set (a := if head ch <=? tail ch then _ else _).
  assert (0 < a) as Ha by (unfold a; destruct (Z.leb_spec (head ch) (tail ch)); lia).
  assert ((if (if head ch =? 255 then 0 else head ch + 1) <=? tail ch then tail ch - (if head ch =? 255 then 0 else head ch + 1)
    else tail ch - (if head ch =? 255 then 0 else head ch + 1) + 256) = a - 1) as ->.
  { unfold a. destruct (Z.eqb_spec (head ch) 255), (Z.leb_spec (head ch) (tail ch)); zcase; lia. }
  rewrite seqZ_cons by lia. cbn [fmap list_fmap]. rewrite Z.add_0_r, Z.mod_small by lia. f_equal.
  replace (Z.pred a) with (a - 1) by lia. change (Z.succ 0) with (1 + 0). rewrite <- (fmap_add_seqZ 1 0 (a - 1)), <- list_fmap_compose.
  apply list_fmap_ext. intros j k [-> Hk]%lookup_seqZ. cbn [compose]. f_equal. destruct (Z.eqb_spec (head ch) 255) as [->|].
  - rewrite Z.add_0_l. replace (255 + (1 + Z.of_nat j)) with (Z.of_nat j + 1 * 256) by lia. by rewrite Z_mod_plus_full.
  - f_equal. lia.
Qed.

(** What a step does to the queue. *)
Definition qstep (q : list XQueueCommand) (ev : list event) (q' : list XQueueCommand) : Prop :=
  match ev with
  | [] => q' = q
  | [Sent cmd] => q' = q ++ [cmd]
  | [Received cmd] => q = cmd :: q'
  | [Full] => q' = q /\ lenZ q = 255
  | [Empty] => q' = q /\ q = []
  | _ => False
  end.

Lemma rstep_refines r ev r' : rinv r -> rstep r ev r' -> rinv r' /\ qstep (queue (chan r)) ev (queue (chan r')).
Proof.
  intros (Hh & Ht & Hp & Hc) H. destruct H as [ch c cmd|ch c cmd t E|ch c cmd t E|ch c cmd t|ch c cmd t|ch p E|ch p E|ch p h|ch p h cmd];
    cbn [chan prod cons_ rinv] in *; unfold rinv; cbn [chan prod cons_].
  - by split_and!.
  - subst t. split_and!; try done. cbn [qstep]. split; [done|]. rewrite length_queue, size_cases by done. rewrite next_cases in E by done. unfold in_ring in *. revert E.
    destruct (Z.eqb_spec (tail ch) 255), (Z.leb_spec (head ch) (tail ch)); lia.
  - by split_and!.
  - destruct Hp as [-> Hn]. split_and!; try done; [apply upd_eq| |by apply queue_store].
    cbn [store_command head tail commands]. destruct c as [|h|h cmd']; try done. destruct Hc as (-> & Hne & <-). split_and!; try done. by rewrite upd_ne.
  - destruct Hp as (-> & Hn & <-). pose proof (next_range _ Ht). split_and!; try done; [|by apply queue_publish].
    cbn [set_tail head tail commands]. destruct c as [|h|h cmd']; [done|split; [by destruct Hc|congruence]|]. destruct Hc as (-> & Hne & <-). by split_and!.
  - split_and!; try done. cbn [qstep]. split; [done|]. unfold queue, size. by rewrite E, Z.sub_diag.
  - by split_and!.
  - destruct Hc as [-> Hne]. by split_and!.
  - destruct Hc as (-> & Hne & <-). pose proof (next_range _ Hh). split_and!; try done; [|by rewrite (queue_advance ch Hh Ht Hne)].
    cbn [set_head head tail commands]. destruct p as [|cmd t|cmd t|cmd t]; [done|done| |].
    + destruct Hp as [-> Hn]. split; [done|]. rewrite !next_cases by done. unfold in_ring in *. zcase; lia.
    + destruct Hp as (-> & Hn & <-). split_and!; [done| |done]. rewrite !next_cases by done. unfold in_ring in *. zcase; lia.
Qed.

Definition sent (tr : list event) : list XQueueCommand := omap (fun e => match e with Sent c => Some c | _ => None end) tr.
Definition received (tr : list event) : list XQueueCommand := omap (fun e => match e with Received c => Some c | _ => None end) tr.

Lemma rsteps_refines r tr r' : rinv r -> rsteps r tr r' -> rinv r' /\ queue (chan r) ++ sent tr = received tr ++ queue (chan r').
Proof.
  intros Hr H. induction H as [r|r tr r1 ev r2 H IH Hs]; [split; [done|apply app_nil_r]|]. destruct (IH Hr) as [H1 E].
  destruct (rstep_refines r1 ev r2 H1 Hs) as [H2 Hq]. split; [done|]. unfold sent, received in *. rewrite !omap_app, app_assoc, E, <- !app_assoc. f_equal.
  destruct ev as [|[c|c| |] [|? ?]]; cbn in Hq |- *; try done.
  - by rewrite app_nil_r.
  - by rewrite app_nil_r.
  - destruct Hq as [-> _]. apply app_nil_r.
  - destruct Hq as [-> _]. apply app_nil_r.
Qed.

(** C28: the ring is a queue under any interleaving. However the accesses of
    one producer and one consumer to the shared channel interleave, the
    commands received are those sent, in order, and the rest is in the ring;
    a command is refused only while 255 are in the ring and the consumer finds
    nothing only while none is. *)
Theorem xqueue_refines_fifo r tr r1 ev r2 : rinv r -> rsteps r tr r1 -> rstep r1 ev r2 ->
  queue (chan r) ++ sent (tr ++ ev) = received (tr ++ ev) ++ queue (chan r2) /\ qstep (queue (chan r1)) ev (queue (chan r2)) /\
  lenZ (queue (chan r2)) <= 255.
Proof.
  intros Hr H Hs. destruct (rsteps_refines r tr r1 Hr H) as [H1 _]. destruct (rstep_refines r1 ev r2 H1 Hs) as [_ Hq].
  destruct (rsteps_refines r (tr ++ ev) r2 Hr (rs_snoc _ _ _ _ _ H Hs)) as [_ E]. split_and!; [done|done|].
  rewrite length_queue. unfold size. pose proof (Z.mod_pos_bound (tail (chan r2) - head (chan r2)) 256 ltac:(lia)). lia.
Qed.

Definition demo_cmd : XQueueCommand := mkCmd 1 2 3 4 5.
Definition demo_ring : ring := mkRing (mkChan (fun _ => demo_cmd) 255 255) PIdle CIdle.

(** A command crosses the end of the ring: the consumer looks before it is
    published and finds nothing. *)
Lemma xqueue_refines_fifo_witness : exists r1 r2, rsteps demo_ring [Empty] r1 /\ rstep r1 [Sent demo_cmd] r2 /\ queue (chan r2) = [demo_cmd].
Proof.
  set (ch := chan demo_ring). set (r1 := mkRing (store_command ch 255 demo_cmd) (PStored demo_cmd 255) CIdle).
  assert (rsteps demo_ring [Empty] r1) as H.
  { apply (rs_snoc _ [] r1 [Empty]); [|constructor; reflexivity].
    apply (rs_snoc _ [] (mkRing ch (PFree demo_cmd 255) CIdle) []); [|constructor].
    apply (rs_snoc _ [] (mkRing ch (PTail demo_cmd 255) CIdle) []); [|constructor; discriminate].
    apply (rs_snoc _ [] demo_ring []); [constructor|]. apply (p_tail ch CIdle demo_cmd). }
  assert (rinv demo_ring) as Hi by (split; [split; reflexivity || discriminate|split; [split; reflexivity || discriminate|split; exact I]]).
  exists r1, (mkRing (set_tail (chan r1) (ring_next 255)) PIdle CIdle). split; [exact H|]. split; [constructor|].
  destruct (xqueue_refines_fifo demo_ring [Empty] r1 [Sent demo_cmd] _ Hi H (p_publish (chan r1) CIdle demo_cmd 255)) as [E _].
  symmetry. exact E.
Defined.
End Queue.
