(* ===== verification/Physical.v ===== *)
(** Physical frame bitmap: model of
    [source/arch/amd64/kernel/xeret/mem/physical.c] and
    [source/kerncall/include/kmemory.h].

    The state [PhysBitmap] is the C struct; its byte array is a finite map
    whose missing cells are zero bytes (the static storage is zero-filled at
    init).  The spinlock around each operation is not part of the sequential
    state: an operation runs to completion under it. *)

From S2P Require Import Prelude.
From S2P Require Import Bytes.

#[local] Ltac Zify.zify_post_hook ::= Z.div_mod_to_equations.

(** * Data *)

Definition XERET_FRAME_SHIFT : Z := 12.
Definition XERET_FRAME_SIZE : Z := 1 .<< XERET_FRAME_SHIFT.
Definition XERET_FRAMES_PER_HUGE : Z := 512.
Definition XERET_BITMAP_MAX_FRAMES : Z := 128 * 1024 * 1024 * 1024 / XERET_FRAME_SIZE.

Record PhysBitmap := mkPhys {
  total_frames : Z;
  free_frames : Z;
  used_frames : Z;
  phys_end : Z;
  bits : gmap Z Z
}.

Definition set_bits (p : PhysBitmap) (b : gmap Z Z) : PhysBitmap :=
  mkPhys (total_frames p) (free_frames p) (used_frames p) (phys_end p) b.

Definition set_counts (p : PhysBitmap) (fr us : Z) : PhysBitmap :=
  mkPhys (total_frames p) fr us (phys_end p) (bits p).

Definition bits_at (b : gmap Z Z) (i : Z) : Z := default 0 (b !! i).

(** * Bit operations *)

Definition bit_set (frame : Z) (p : PhysBitmap) : PhysBitmap :=
  let i := frame .>> 3 in
  set_bits p (<[i := u8 (bits_at (bits p) i .| u8 (1 .<< (frame .& 7)))]> (bits p)).

Definition bit_clear (frame : Z) (p : PhysBitmap) : PhysBitmap :=
  let i := frame .>> 3 in
  set_bits p (<[i := u8 (bits_at (bits p) i .& u8 (Z.lnot (1 .<< (frame .& 7))))]> (bits p)).

Definition bit_test (p : PhysBitmap) (frame : Z) : bool :=
  tst ((bits_at (bits p) (frame .>> 3) .>> (frame .& 7)) .& 1).

(** * Range marking *)

Definition mark_free_step (f : Z) (p : PhysBitmap) : PhysBitmap :=
  if bit_test p f then p else
  let p := bit_set f p in
  set_counts p (u64 (free_frames p + 1))
    (if used_frames p >? 0 then used_frames p - 1 else used_frames p).

Definition mark_used_step (f : Z) (p : PhysBitmap) : PhysBitmap :=
  if bit_test p f then
    let p := bit_clear f p in
    set_counts p (if free_frames p >? 0 then free_frames p - 1 else free_frames p)
      (u64 (used_frames p + 1))
  else p.

Definition mark_range_free (start pages : Z) (p : PhysBitmap) : PhysBitmap :=
  if pages =? 0 then p else
  let f := start .>> XERET_FRAME_SHIFT in
  let end_ := u64 (f + pages) in
  let end_ := if end_ >? total_frames p then total_frames p else end_ in
  for_range f (end_ - f) mark_free_step p.

Definition mark_range_used (start bytes : Z) (p : PhysBitmap) : PhysBitmap :=
  if bytes =? 0 then p else
  let f := start .>> XERET_FRAME_SHIFT in
  let pages := u64 (bytes + XERET_FRAME_SIZE - 1) .>> XERET_FRAME_SHIFT in
  let end_ := u64 (f + pages) in
  let end_ := if end_ >? total_frames p then total_frames p else end_ in
  for_range f (end_ - f) mark_used_step p.

Definition phys_reserve_range (addr size : Z) (p : PhysBitmap) : PhysBitmap :=
  mark_range_used addr size p.

(** * Allocation *)

(** First-fit search: the loop [for (f = 0; f < total_frames; f++)] of
    [phys_alloc_frames], with its [run] and [start] variables.  The fuel is
    the number of frames left to visit. *)
Fixpoint alloc_scan (fuel : nat) (p : PhysBitmap) (n f run start : Z) : option Z :=
  match fuel with
  | O => None
  | S k =>
    if bit_test p f then
      let start := if run =? 0 then f else start in
      let run := run + 1 in
      if run =? n then Some start else alloc_scan k p n (f + 1) run start
    else alloc_scan k p n (f + 1) 0 start
  end.

Definition take_frames (start n : Z) (p : PhysBitmap) : PhysBitmap :=
  let p := for_range start n bit_clear p in
  set_counts p (u64 (free_frames p - n)) (u64 (used_frames p + n)).

Definition phys_alloc_frames (n : Z) (p : PhysBitmap) : Z * PhysBitmap :=
  if n =? 0 then (0, p) else
  if n >? free_frames p then (0, p) else
  match alloc_scan (Z.to_nat (total_frames p)) p n 0 0 0 with
  | Some start => (u64 (start .<< XERET_FRAME_SHIFT), take_frames start n p)
  | None => (0, p)
  end.

Definition phys_free_frames (addr n : Z) (p : PhysBitmap) : PhysBitmap :=
  if (n =? 0) || tst (addr .& (XERET_FRAME_SIZE - 1)) then p else
  let f := addr .>> XERET_FRAME_SHIFT in
  if u64 (f + n) >? total_frames p then p else
  for_range f (u64 (f + n) - f) mark_free_step p.

(** The search of [phys_alloc_huge]: [run] restarts at each 2 MiB boundary
    and a used frame skips to the next boundary. *)
Fixpoint huge_scan (fuel : nat) (p : PhysBitmap) (f run start : Z) : option Z :=
  match fuel with
  | O => None
  | S k =>
    if f <? total_frames p then
      let aligned := (f .& (XERET_FRAMES_PER_HUGE - 1)) =? 0 in
      let run := if aligned then 0 else run in
      let start := if aligned then f else start in
      if bit_test p f then
        let run := run + 1 in
        if run =? XERET_FRAMES_PER_HUGE then Some start else huge_scan k p (f + 1) run start
      else
        let f := if (f .& (XERET_FRAMES_PER_HUGE - 1)) =? XERET_FRAMES_PER_HUGE - 1 then f
                 else f .| (XERET_FRAMES_PER_HUGE - 1) in
        huge_scan k p (f + 1) 0 start
    else None
  end.

Definition phys_alloc_huge (p : PhysBitmap) : Z * PhysBitmap :=
  match huge_scan (Z.to_nat (total_frames p)) p 0 0 0 with
  | Some start => (u64 (start .<< XERET_FRAME_SHIFT), take_frames start XERET_FRAMES_PER_HUGE p)
  | None => (0, p)
  end.

Definition phys_free_count (p : PhysBitmap) : Z := free_frames p.
Definition phys_total_count (p : PhysBitmap) : Z := total_frames p.

(** * Boot initialisation *)

Definition EfiLoaderCode : Z := 1.
Definition EfiLoaderData : Z := 2.
Definition EfiBootServicesCode : Z := 3.
Definition EfiBootServicesData : Z := 4.
Definition EfiConventionalMemory : Z := 7.
Definition XERET_HANDOFF_MAGIC : Z := 0x5845524554484E44.

Record FramebufferInfo := mkFb {
  fb_base : Z; fb_width : Z; fb_height : Z; pixels_per_scanline : Z; pixel_format : Z
}.

Record XeretHandoff := mkHandoff {
  magic : Z; fb : FramebufferInfo;
  mmap_addr : Z; mmap_size : Z; mmap_desc_size : Z; hand_phys_end : Z
}.

Record EFI_MEMORY_DESCRIPTOR := mkDesc { Type_ : Z; PhysicalStart : Z; NumberOfPages : Z }.

(** The descriptor at byte offset [off] of the memory map. *)
Definition read_desc (mmap : list Z) (off : Z) : EFI_MEMORY_DESCRIPTOR :=
  mkDesc (get32 mmap off) (get64 mmap (off + 8)) (get64 mmap (off + 24)).

Definition usable (t : Z) : bool :=
  (t =? EfiConventionalMemory) || (t =? EfiBootServicesCode) || (t =? EfiBootServicesData)
  || (t =? EfiLoaderCode) || (t =? EfiLoaderData).

Definition add_desc (d : EFI_MEMORY_DESCRIPTOR) (p : PhysBitmap) : PhysBitmap :=
  if usable (Type_ d) then mark_range_free (PhysicalStart d) (NumberOfPages d) p else p.

(** The descriptor loop [for (off = 0; off + desc_size <= map_size; off += desc_size)];
    the fuel is the size of the map, an upper bound on the number of
    descriptors. *)
Fixpoint add_descs (fuel : nat) (mmap : list Z) (off desc_size map_size : Z) (p : PhysBitmap)
  : PhysBitmap :=
  match fuel with
  | O => p
  | S k =>
    if u64 (off + desc_size) <=? map_size
    then add_descs k mmap (u64 (off + desc_size)) desc_size map_size
           (add_desc (read_desc mmap off) p)
    else p
  end.

(** [mmap] is the memory at [mmap_addr]; the result is [-1] or 0. *)
Definition phys_init_from_handoff (hand : option XeretHandoff) (mmap : list Z) (p : PhysBitmap)
  : Z * PhysBitmap :=
  match hand with
  | None => (-1, p)
  | Some h =>
    if negb (magic h =? XERET_HANDOFF_MAGIC) then (-1, p) else
    if (mmap_addr h =? 0) || (mmap_size h =? 0) || (mmap_desc_size h =? 0) then (-1, p) else
    if hand_phys_end h =? 0 then (-1, p) else
    let frames := u64 (hand_phys_end h + XERET_FRAME_SIZE - 1) .>> XERET_FRAME_SHIFT in
    let big := frames >? XERET_BITMAP_MAX_FRAMES in
    let frames := if big then XERET_BITMAP_MAX_FRAMES else frames in
    let pe := if big then frames .<< XERET_FRAME_SHIFT else hand_phys_end h in
    let p := mkPhys frames 0 frames pe ∅ in
    let p := add_descs (Z.to_nat (mmap_size h)) mmap 0 (mmap_desc_size h) (mmap_size h) p in
    let p := phys_reserve_range 0 0x100000 p in
    let p := if negb (fb_base (fb h) =? 0) && negb (fb_height (fb h) =? 0)
             then phys_reserve_range (fb_base (fb h))
                    (u64 (u64 (pixels_per_scanline (fb h) * 4) * fb_height (fb h))) p
             else p in
    (0, p)
  end.

(** * Well-formedness *)

(** The counters agree with the bitmap and nothing is free past the end. *)
Record phys_cnt (p : PhysBitmap) : Prop := {
  wf_total : 0 <= total_frames p <= XERET_BITMAP_MAX_FRAMES;
  wf_free : free_frames p = countb (bit_test p) (seqZ 0 (total_frames p));
  wf_used : used_frames p = total_frames p - free_frames p;
  wf_end : forall f, total_frames p <= f -> bit_test p f = false
}.

(** After boot, frame 0 is never free, so that the address 0 can mean failure. *)
Record phys_wf (p : PhysBitmap) : Prop := {
  wf_cnt :> phys_cnt p;
  wf_zero : bit_test p 0 = false
}.

(** [n] consecutive free frames from [s]. *)
Definition free_run (p : PhysBitmap) (s n : Z) : Prop :=
  forall g, s <= g < s + n -> bit_test p g = true.

(** The bitmap [q] is [p] with the frames of [s, s + n) set to [v]. *)
Definition frames_set (p q : PhysBitmap) (s n : Z) (v : bool) : Prop :=
  forall g, 0 <= g -> bit_test q g = if decide (s <= g < s + n) then v else bit_test p g.

(** * Lemmas on bits *)

Lemma bit_test_testbit p f : bit_test p f = Z.testbit (bits_at (bits p) (f / 8)) (f mod 8).
Proof.
  unfold bit_test, tst. rewrite land_7, (shiftr_div f 3) by lia. change (2 ^ 3) with 8.
  rewrite land_1_testbit, Z.shiftr_spec, Z.add_0_l by lia.
  by destruct (Z.testbit _ _).
Qed.

Lemma bits_at_insert b i j v : bits_at (<[i:=v]> b) j = if decide (i = j) then v else bits_at b j.
Proof. unfold bits_at. rewrite lookup_insert. by case_decide. Qed.

Lemma bit_test_set p f g :
  0 <= f -> 0 <= g -> bit_test (bit_set f p) g = (g =? f) || bit_test p g.
Proof.
  intros Hf Hg. rewrite !bit_test_testbit. unfold bit_set, set_bits. simpl.
  rewrite land_7, shiftr_div, bits_at_insert by lia. change (2 ^ 3) with 8.
  case_decide as E.
  - rewrite <- E, testbit_u8, Z.lor_spec, testbit_u8, testbit_pow2 by lia.
    destruct (Z.ltb_spec (g mod 8) 8); [|lia].
    destruct (Z.eqb_spec (g mod 8) (f mod 8)), (Z.eqb_spec g f); simpl;
      rewrite ?orb_true_r, ?orb_false_r; (done || lia).
  - destruct (Z.eqb_spec g f); [subst; done|done].
Qed.

Lemma bit_test_clear p f g :
  0 <= f -> 0 <= g -> bit_test (bit_clear f p) g = negb (g =? f) && bit_test p g.
Proof.
  intros Hf Hg. rewrite !bit_test_testbit. unfold bit_clear, set_bits. simpl.
  rewrite land_7, shiftr_div, bits_at_insert by lia. change (2 ^ 3) with 8.
  case_decide as E.
  - rewrite <- E, testbit_u8, Z.land_spec, testbit_u8, Z.lnot_spec, testbit_pow2 by lia.
    destruct (Z.ltb_spec (g mod 8) 8); [|lia].
    destruct (Z.eqb_spec (g mod 8) (f mod 8)), (Z.eqb_spec g f); simpl;
      rewrite ?andb_true_r, ?andb_false_r; (done || lia).
  - destruct (Z.eqb_spec g f); [subst; done|done].
Qed.

Lemma total_bit_set f p : total_frames (bit_set f p) = total_frames p.
Proof. done. Qed.
Lemma total_bit_clear f p : total_frames (bit_clear f p) = total_frames p.
Proof. done. Qed.

Lemma bit_test_set_counts p a b f : bit_test (set_counts p a b) f = bit_test p f.
Proof. done. Qed.

(** Clearing a range of bits leaves the counters alone. *)
Lemma clear_range p s n :
  0 <= s -> 0 <= n ->
  let q := for_range s n bit_clear p in
  frames_set p q s n false /\ total_frames q = total_frames p /\
  free_frames q = free_frames p /\ used_frames q = used_frames p.
Proof.
  intros Hs Hn q. subst q.
  apply (for_range_inv (fun k q => frames_set p q s k false /\
    total_frames q = total_frames p /\ free_frames q = free_frames p /\
    used_frames q = used_frames p)); [done| |].
  - split_and!; try done. intros g _. case_decide; [lia|done].
  - intros k q Hk (Hset & Ht & Hf & Hu). split_and!; try done.
    intros g Hg. rewrite bit_test_clear, Hset by lia.
    zcase; repeat case_decide; (done || lia).
Qed.

(** A bitmap range switched from used to free, seen by the counters. *)
Lemma count_freed p q s n :
  frames_set p q s n true -> free_run q s n -> 0 <= s -> 0 <= n ->
  s + n <= total_frames p -> (forall g, s <= g < s + n -> bit_test p g = false) ->
  countb (bit_test q) (seqZ 0 (total_frames p)) =
  countb (bit_test p) (seqZ 0 (total_frames p)) + n.
Proof.
  intros Hset Hrun Hs Hn Hle Hp.
  rewrite (countb_seqZ_ext (bit_test q)
    (fun g => if decide (s <= g < s + n) then true else bit_test p g)).
  2: { intros f Hf. apply Hset. lia. }
  eapply (countb_seqZ_range _ _ _ _ s n); try lia.
  - intros f Hf. rewrite decide_True by lia. auto.
  - intros f _ Hf. by rewrite decide_False by lia.
Qed.

(** * The searches *)

(** The scan returns the lowest start of a run of [n] free frames. *)
Definition first_fit (p : PhysBitmap) (ok : Z -> Prop) (n : Z) (r : option Z) : Prop :=
  match r with
  | Some s => 0 <= s /\ ok s /\ s + n <= total_frames p /\ free_run p s n /\
              (forall s', 0 <= s' < s -> ok s' -> ~ free_run p s' n)
  | None => forall s', 0 <= s' -> ok s' -> s' + n <= total_frames p -> ~ free_run p s' n
  end.

Lemma alloc_scan_spec fuel p n f run start :
  0 < n -> 0 <= f -> Z.of_nat fuel = total_frames p - f -> 0 <= run < n -> run <= f ->
  (0 < run -> start = f - run) -> free_run p (f - run) run ->
  (forall s', 0 <= s' < f - run -> ~ free_run p s' n) ->
  first_fit p (fun _ => True) n (alloc_scan fuel p n f run start).
Proof.
  revert f run start. induction fuel as [|k IH];
    intros f run start Hn Hf Hfuel Hrun Hle Hstart Hfr Hmin; simpl.
  - intros s' Hs' _ Hend Hr. destruct (Z.lt_ge_cases s' (f - run)); [by apply (Hmin s'); (lia || done)|lia].
  - destruct (bit_test p f) eqn:Hb.
    + destruct (Z.eqb_spec (run + 1) n).
      * assert ((if run =? 0 then f else start) = f - run) as ->.
        { destruct (Z.eqb_spec run 0); [lia|]. apply Hstart. lia. }
        repeat split; try lia; auto.
        intros g Hg. destruct (Z.eq_dec g f) as [->|]; [done|]. apply Hfr. lia.
      * apply IH; try lia.
        -- intros _. destruct (Z.eqb_spec run 0); [lia|]. rewrite Hstart; lia.
        -- intros g Hg. destruct (Z.eq_dec g f) as [->|]; [done|]. apply Hfr. lia.
        -- intros s' Hs'. apply Hmin. lia.
    + apply IH; try lia; [intros g Hg; lia|].
      intros s' Hs' Hr. destruct (Z.lt_ge_cases s' (f - run)); [by apply (Hmin s'); (lia || done)|].
      rewrite Hr in Hb by lia. done.
Qed.

Lemma land_511 f : f .& (XERET_FRAMES_PER_HUGE - 1) = f mod 512.
Proof. exact (land_pow2_mod f 9 ltac:(lia)). Qed.

Lemma lor_511 f : f .| (XERET_FRAMES_PER_HUGE - 1) = f - f mod 512 + 511.
Proof.
  pose proof (Z.add_lor_land f 511) as H.
  pose proof (land_511 f) as H'. change (XERET_FRAMES_PER_HUGE - 1) with 511 in *. lia.
Qed.

Lemma huge_scan_spec fuel p f run start :
  0 <= f -> total_frames p - f <= Z.of_nat fuel -> 0 <= f ->
  (f mod 512 <> 0 -> run = f mod 512 /\ start = f - run /\ free_run p start run) ->
  (forall s', 0 <= s' < f - f mod 512 -> s' mod 512 = 0 -> ~ free_run p s' 512) ->
  first_fit p (fun s => s mod 512 = 0) 512 (huge_scan fuel p f run start).
Proof.
  revert f run start. induction fuel as [|k IH]; intros f run start Hf0 Hfuel Hf Hinv Hmin; simpl.
  - intros s' Hs' Hm Hend Hr. apply (Hmin s'); auto. lia.
  - destruct (Z.ltb_spec f (total_frames p)) as [Hft|Hft].
    2: { intros s' Hs' Hm Hend Hr. apply (Hmin s'); auto. lia. }
    rewrite !land_511, lor_511. change XERET_FRAMES_PER_HUGE with 512.
    set (run1 := if f mod 512 =? 0 then 0 else run).
    set (start1 := if f mod 512 =? 0 then f else start).
    assert (run1 = f mod 512 /\ start1 = f - run1 /\ free_run p start1 run1) as (Hr1 & Hs1 & Hfr).
    { subst run1 start1. destruct (Z.eqb_spec (f mod 512) 0) as [E|E].
      - split_and!; try lia. intros g Hg. lia.
      - by apply Hinv. }
    clearbody run1 start1. destruct (bit_test p f) eqn:Hb.
    + assert (free_run p start1 (run1 + 1)) as Hfr1.
      { intros g Hg. destruct (Z.eq_dec g f) as [->|]; [done|]. apply Hfr. lia. }
      destruct (Z.eqb_spec (run1 + 1) 512).
      * repeat split; try lia; [by replace 512 with (run1 + 1) by lia|].
        intros s' Hs' Hm. apply Hmin; lia.
      * apply IH; try lia.
        -- intros _. split_and!; [lia|lia|done].
        -- intros s' Hs' Hm. apply Hmin; lia.
    + assert ((if f mod 512 =? 512 - 1 then f else f - f mod 512 + 511) = f - f mod 512 + 511) as ->.
      { destruct (Z.eqb_spec (f mod 512) (512 - 1)); lia. }
      apply IH; try lia.
      * intros s' Hs' Hm Hr. destruct (Z.lt_ge_cases s' (f - f mod 512)); [by apply (Hmin s'); (lia || done)|].
        rewrite Hr in Hb by lia. done.
Qed.

(** * Operation specifications *)

Lemma max_frames_val : XERET_BITMAP_MAX_FRAMES = 2 ^ 25.
Proof. reflexivity. Qed.

Lemma wf_counts p : phys_cnt p -> 0 <= free_frames p <= total_frames p.
Proof.
  intros Hwf. rewrite (wf_free p Hwf). apply countb_seqZ_le. apply Hwf.
Qed.

(** Taking a free run keeps the counters right. *)
Lemma take_frames_cnt p s n :
  phys_cnt p -> 0 <= s -> 0 < n -> s + n <= total_frames p -> free_run p s n ->
  let q := take_frames s n p in
  phys_cnt q /\ frames_set p q s n false /\ total_frames q = total_frames p /\
  free_frames q = free_frames p - n.
Proof.
  intros Hwf Hs Hn Hle Hrun q. subst q. unfold take_frames.
  pose proof (clear_range p s n ltac:(lia) ltac:(lia)) as (Hset & Ht & Hf & Hu).
  set (q := for_range s n bit_clear p) in *.
  pose proof (wf_counts p Hwf) as Hc.
  assert (countb (bit_test p) (seqZ 0 (total_frames q)) =
          countb (bit_test q) (seqZ 0 (total_frames q)) + n) as Hcount.
  { apply (count_freed q p s n); try lia.
    - intros g Hg. rewrite Hset by lia. case_decide; [apply Hrun; lia|done].
    - done.
    - intros g Hg. rewrite Hset by lia. by rewrite decide_True by lia. }
  pose proof (countb_seqZ_le (bit_test q) 0 (total_frames q) ltac:(lia)).
  pose proof (wf_free p Hwf) as Hwfr. pose proof (wf_total p Hwf) as Hwt.
  rewrite max_frames_val in Hwt. rewrite Ht in *.
  assert (u64 (free_frames q - n) = free_frames p - n) as Hf'.
  { rewrite Hf. apply u64_small. lia. }
  split_and!; [|by intros g Hg; rewrite bit_test_set_counts; apply Hset|done|done].
  split; cbn [total_frames free_frames used_frames set_counts].
  - rewrite Ht. apply Hwf.
  - rewrite Hf', Ht. rewrite (countb_seqZ_ext _ (bit_test q)) by done. lia.
  - rewrite Hf', Ht, Hu. pose proof (wf_used p Hwf). rewrite u64_small; lia.
  - intros f Hge. rewrite Ht in Hge. rewrite bit_test_set_counts, Hset by lia.
    rewrite decide_False by lia. by apply Hwf.
Qed.

Lemma take_frames_spec p s n :
  phys_wf p -> 0 < s -> 0 < n -> s + n <= total_frames p -> free_run p s n ->
  let q := take_frames s n p in
  phys_wf q /\ frames_set p q s n false /\ total_frames q = total_frames p /\
  free_frames q = free_frames p - n.
Proof.
  intros Hwf Hs Hn Hle Hrun.
  pose proof (take_frames_cnt p s n Hwf ltac:(lia) Hn Hle Hrun) as (Hc & Hset & Ht & Hf).
  split_and!; try done. split; [done|]. rewrite Hset by lia.
  rewrite decide_False by lia. apply (wf_zero p Hwf).
Qed.

Lemma shift_frame s : 0 <= s < 2 ^ 25 -> u64 (s .<< XERET_FRAME_SHIFT) = s * 4096.
Proof.
  intros. unfold XERET_FRAME_SHIFT. rewrite shiftl_mul by lia. change (2 ^ 12) with 4096.
  apply u64_small. lia.
Qed.

Lemma no_long_run p n :
  phys_wf p -> 0 < n -> free_frames p < n ->
  forall s, 0 <= s -> s + n <= total_frames p -> ~ free_run p s n.
Proof.
  intros Hwf Hn Hlt s Hs Hle Hrun.
  pose proof (take_frames_spec p s n Hwf) as H.
  assert (s <> 0).
  { intros ->. specialize (Hrun 0 ltac:(lia)). rewrite (wf_zero p Hwf) in Hrun. done. }
  destruct H as (Hwf' & _ & _ & Hf); try lia; auto.
  pose proof (wf_counts _ Hwf'). lia.
Qed.

(** What an allocation of [n] frames at starts satisfying [ok] returns: the
    lowest free run, marked used, or 0 with the bitmap unchanged when there
    is none. *)
Definition alloc_result (ok : Z -> Prop) (n : Z) (p : PhysBitmap) (r : Z * PhysBitmap) : Prop :=
  (exists s, r.1 = s * 4096 /\ 0 < s /\ ok s /\ s + n <= total_frames p /\
     free_run p s n /\ (forall s', 0 <= s' < s -> ok s' -> ~ free_run p s' n) /\
     phys_wf r.2 /\ frames_set p r.2 s n false /\ total_frames r.2 = total_frames p /\
     free_frames r.2 = free_frames p - n) \/
  (r = (0, p) /\ forall s, 0 <= s -> ok s -> s + n <= total_frames p -> ~ free_run p s n).

Lemma alloc_result_intro ok n p r :
  phys_wf p -> 0 < n -> first_fit p ok n r ->
  alloc_result ok n p
    match r with
    | Some start => (u64 (start .<< XERET_FRAME_SHIFT), take_frames start n p)
    | None => (0, p)
    end.
Proof.
  intros Hwf Hn. destruct r as [s|]; simpl.
  - intros (Hs & Hok & Hle & Hrun & Hmin). left. exists s.
    assert (s <> 0).
    { intros ->. specialize (Hrun 0 ltac:(lia)). rewrite (wf_zero p Hwf) in Hrun. done. }
    pose proof (take_frames_spec p s n Hwf ltac:(lia) Hn Hle Hrun) as (? & ? & ? & ?).
    pose proof (wf_total p Hwf) as Ht. rewrite max_frames_val in Ht.
    simpl. rewrite shift_frame by lia. split_and!; auto; lia.
  - intros Hno. right. auto.
Qed.

Lemma alloc_frames_result n p :
  phys_wf p -> 0 < n -> alloc_result (fun _ => True) n p (phys_alloc_frames n p).
Proof.
  intros Hwf Hn. unfold phys_alloc_frames.
  destruct (Z.eqb_spec n 0); [lia|]. rewrite Z.gtb_ltb.
  destruct (Z.ltb_spec (free_frames p) n).
  { right. split; [done|]. intros s Hs _ Hle. by apply (no_long_run p n). }
  apply alloc_result_intro; [done|done|].
  pose proof (wf_total p Hwf).
  apply alloc_scan_spec; try lia. intros g Hg. lia.
Qed.

Lemma alloc_huge_result p :
  phys_wf p -> alloc_result (fun s => s mod 512 = 0) 512 p (phys_alloc_huge p).
Proof.
  intros Hwf. unfold phys_alloc_huge. change XERET_FRAMES_PER_HUGE with 512.
  apply alloc_result_intro; [done|lia|].
  pose proof (wf_total p Hwf).
  apply huge_scan_spec; lia.
Qed.

(** The loop of [mark_range_free] and [phys_free_frames]. *)
Lemma mark_free_loop p s n :
  phys_cnt p -> 0 <= s -> 0 <= n -> s + n <= total_frames p ->
  let q := for_range s n mark_free_step p in
  phys_cnt q /\ frames_set p q s n true /\ total_frames q = total_frames p.
Proof.
  intros Hwf Hs Hn Hle q. subst q.
  apply (for_range_inv (fun k q => phys_cnt q /\ frames_set p q s k true /\
    total_frames q = total_frames p)); [done| |].
  - split_and!; try done. intros g _. case_decide; [lia|done].
  - intros k q Hk (Hq & Hset & Ht). unfold mark_free_step.
    destruct (bit_test q (s + k)) eqn:Hb.
    + split_and!; try done. intros g Hg. rewrite Hset by lia.
      repeat case_decide; try (done || lia). assert (g = s + k) by lia. subst.
      rewrite Hset, decide_False in Hb by lia. done.
    + pose proof (wf_counts q Hq). pose proof (wf_total q Hq) as Htot.
      rewrite max_frames_val in Htot. pose proof (wf_used q Hq) as Hu.
      assert (frames_set q (bit_set (s + k) q) (s + k) 1 true) as Hset1.
      { intros g Hg. rewrite bit_test_set by lia. zcase; case_decide; (done || lia). }
      pose proof (count_freed q (bit_set (s + k) q) (s + k) 1 Hset1) as Hcount.
      specialize (Hcount ltac:(intros g Hg; rewrite Hset1, decide_True by lia; done)
        ltac:(lia) ltac:(lia) ltac:(lia)
        ltac:(intros g Hg; by replace g with (s + k) by lia)).
      pose proof (countb_seqZ_le (bit_test (bit_set (s + k) q)) 0 (total_frames q) ltac:(lia)) as Hb'.
      rewrite <- (wf_free q Hq) in Hcount.
      cbn [total_frames free_frames used_frames set_counts bit_set set_bits].
      split_and!; [split| |done]; cbn [total_frames free_frames used_frames set_counts bit_set set_bits].
      * apply Hq.
      * rewrite u64_small by lia. rewrite (countb_seqZ_ext _ (bit_test (bit_set (s + k) q))) by done. lia.
      * rewrite u64_small by lia. rewrite Z.gtb_ltb. destruct (Z.ltb_spec 0 (used_frames q)); lia.
      * intros f Hf. rewrite bit_test_set_counts, Hset1, decide_False by lia. by apply Hq.
      * intros g Hg. rewrite bit_test_set_counts, Hset1, Hset by lia.
        repeat case_decide; (done || lia).
Qed.

(** The loop of [mark_range_used]. *)
Lemma mark_used_loop p s n :
  phys_cnt p -> 0 <= s -> 0 <= n -> s + n <= total_frames p ->
  let q := for_range s n mark_used_step p in
  phys_cnt q /\ frames_set p q s n false /\ total_frames q = total_frames p.
Proof.
  intros Hwf Hs Hn Hle q. subst q.
  apply (for_range_inv (fun k q => phys_cnt q /\ frames_set p q s k false /\
    total_frames q = total_frames p)); [done| |].
  - split_and!; try done. intros g _. case_decide; [lia|done].
  - intros k q Hk (Hq & Hset & Ht). unfold mark_used_step.
    destruct (bit_test q (s + k)) eqn:Hb.
    + pose proof (wf_counts q Hq). pose proof (wf_total q Hq) as Htot.
      rewrite max_frames_val in Htot. pose proof (wf_used q Hq) as Hu.
      assert (frames_set q (bit_clear (s + k) q) (s + k) 1 false) as Hset1.
      { intros g Hg. rewrite bit_test_clear by lia. zcase; case_decide; (done || lia). }
      pose proof (count_freed (bit_clear (s + k) q) q (s + k) 1) as Hcount.
      rewrite total_bit_clear in Hcount.
      specialize (Hcount
        ltac:(intros g Hg; rewrite Hset1 by lia; case_decide; [by replace g with (s + k) by lia|done])
        ltac:(intros g Hg; by replace g with (s + k) by lia)
        ltac:(lia) ltac:(lia) ltac:(lia)
        ltac:(intros g Hg; rewrite Hset1, decide_True by lia; done)).
      pose proof (countb_seqZ_le (bit_test (bit_clear (s + k) q)) 0 (total_frames q) ltac:(lia)) as Hb'.
      rewrite <- (wf_free q Hq) in Hcount.
      split_and!; [split| |done]; cbn [total_frames free_frames used_frames set_counts bit_clear set_bits].
      * apply Hq.
      * rewrite Z.gtb_ltb. rewrite (countb_seqZ_ext _ (bit_test (bit_clear (s + k) q))) by done.
        destruct (Z.ltb_spec 0 (free_frames q)); lia.
      * rewrite u64_small by lia. rewrite Z.gtb_ltb. destruct (Z.ltb_spec 0 (free_frames q)); lia.
      * intros f Hf. rewrite bit_test_set_counts, Hset1 by lia. case_decide; [done|]. by apply Hq.
      * intros g Hg. rewrite bit_test_set_counts, Hset1, Hset by lia.
        repeat case_decide; (done || lia).
    + split_and!; try done. intros g Hg. rewrite Hset by lia.
      repeat case_decide; try (done || lia). assert (g = s + k) by lia. subst.
      rewrite Hset, decide_False in Hb by lia. done.
Qed.

(** Two bitmaps that no operation can tell apart. *)
Definition phys_eqv (p q : PhysBitmap) : Prop :=
  total_frames p = total_frames q /\ free_frames p = free_frames q /\
  used_frames p = used_frames q /\ forall f, 0 <= f -> bit_test p f = bit_test q f.

#[export] Instance phys_eqv_equivalence : Equivalence phys_eqv.
Proof.
  split.
  - by intros p.
  - intros p q (H1 & H2 & H3 & H4). split_and!; try done. intros f Hf. by rewrite H4.
  - intros p q r (H1 & H2 & H3 & H4) (G1 & G2 & G3 & G4).
    split_and!; try congruence. intros f Hf. by rewrite H4, G4.
Qed.

(** The counters of a well-formed bitmap are a function of its bits. *)
Lemma phys_eqv_intro p q :
  phys_cnt p -> phys_cnt q -> total_frames p = total_frames q ->
  (forall f, 0 <= f -> bit_test p f = bit_test q f) -> phys_eqv p q.
Proof.
  intros Hp Hq Ht Hb.
  assert (free_frames p = free_frames q) as Hf.
  { rewrite (wf_free p Hp), (wf_free q Hq), Ht. apply countb_seqZ_ext. intros f ?. apply Hb. lia. }
  split_and!; try done. rewrite (wf_used p Hp), (wf_used q Hq). lia.
Qed.

Lemma land_4095 a : a .& (XERET_FRAME_SIZE - 1) = a mod 4096.
Proof. exact (land_pow2_mod a 12 ltac:(lia)). Qed.

Lemma shift_4096 a : a .>> XERET_FRAME_SHIFT = a / 4096.
Proof. exact (shiftr_div a 12 ltac:(lia)). Qed.

(** [phys_free_frames] on any 64-bit arguments, the wrap of [f + n] included:
    it acts exactly on an aligned, non-empty range inside the bitmap. *)
Definition free_in_range (p : PhysBitmap) (addr n : Z) : Prop :=
  addr mod 4096 = 0 /\ 0 < n /\ addr / 4096 + n <= total_frames p.

Lemma free_frames_in p addr n :
  phys_cnt p -> 0 <= addr < 2 ^ 64 -> free_in_range p addr n ->
  phys_cnt (phys_free_frames addr n p) /\
  frames_set p (phys_free_frames addr n p) (addr / 4096) n true /\
  total_frames (phys_free_frames addr n p) = total_frames p.
Proof.
  intros Hwf Ha (Hal & Hn & Hle). unfold phys_free_frames.
  rewrite land_4095, shift_4096, Hal.
  pose proof (wf_total p Hwf) as Ht. rewrite max_frames_val in Ht.
  destruct (Z.eqb_spec n 0); [lia|]. simpl.
  rewrite (u64_small (addr / 4096 + n)) by lia.
  rewrite Z.gtb_ltb. destruct (Z.ltb_spec (total_frames p) (addr / 4096 + n)); [lia|].
  replace (addr / 4096 + n - addr / 4096) with n by lia.
  apply mark_free_loop; try done; lia.
Qed.

Lemma free_frames_out p addr n :
  phys_cnt p -> 0 <= addr < 2 ^ 64 -> 0 <= n < 2 ^ 64 -> ~ free_in_range p addr n ->
  phys_free_frames addr n p = p.
Proof.
  intros Hwf Ha Hn Hout. unfold phys_free_frames, free_in_range in *.
  rewrite land_4095, shift_4096. unfold tst.
  pose proof (wf_total p Hwf) as Ht. rewrite max_frames_val in Ht.
  destruct (Z.eqb_spec n 0); [done|]. destruct (Z.eqb_spec (addr mod 4096) 0); [simpl|done].
  rewrite Z.gtb_ltb. destruct (Z.ltb_spec (total_frames p) (u64 (addr / 4096 + n))); [done|].
  apply for_range_0. pose proof (u64_range (addr / 4096 + n)).
  destruct (Z.lt_ge_cases (addr / 4096 + n) (2 ^ 64)).
  - rewrite u64_small in * by lia. lia.
  - unfold u64 in *. rewrite <- (Z.mod_unique (addr / 4096 + n) (2 ^ 64) 1 (addr / 4096 + n - 2 ^ 64)); lia.
Qed.

Lemma free_frames_wf p addr n :
  phys_wf p -> 0 < addr < 2 ^ 64 -> free_in_range p addr n -> phys_wf (phys_free_frames addr n p).
Proof.
  intros Hwf Ha Hin. pose proof Hin as (Hm & Hn & Hle).
  pose proof (free_frames_in p addr n Hwf ltac:(lia) Hin) as (Hc & Hset & Ht).
  split; [done|]. rewrite Hset, decide_False by lia. apply (wf_zero p Hwf).
Qed.

(** * Boot *)

(** Marking a range clipped to the end of the bitmap. *)
Lemma mark_range_free_spec p start pages :
  phys_cnt p -> 0 <= start < 2 ^ 64 -> 0 <= pages < 2 ^ 64 ->
  let q := mark_range_free start pages p in
  phys_cnt q /\ total_frames q = total_frames p /\
  forall g, 0 <= g -> bit_test q g = true <->
    bit_test p g = true \/
    (g < total_frames p /\ 0 < pages /\ start / 4096 <= g < u64 (start / 4096 + pages)).
Proof.
  intros Hwf Hs Hp. unfold mark_range_free. rewrite shift_4096.
  pose proof (wf_total p Hwf) as Htot.
  destruct (Z.eqb_spec pages 0).
  { split_and!; try done. intros g Hg. split; [auto|]. intros [?|?]; [done|lia]. }
  rewrite Z.gtb_ltb.
  set (e := if total_frames p <? u64 (start / 4096 + pages) then total_frames p else u64 (start / 4096 + pages)).
  assert (e = Z.min (total_frames p) (u64 (start / 4096 + pages))) as He.
  { subst e. destruct (Z.ltb_spec (total_frames p) (u64 (start / 4096 + pages))); lia. }
  clearbody e.
  destruct (Z.le_gt_cases e (start / 4096)).
  - rewrite for_range_0 by lia. split_and!; try done. intros g Hg. split; [auto|]. intros [?|?]; [done|lia].
  - pose proof (mark_free_loop p (start / 4096) (e - start / 4096) Hwf
      ltac:(lia) ltac:(lia) ltac:(lia)) as (Hc & Hset & Ht).
    split_and!; try done. intros g Hg. rewrite Hset by done. case_decide.
    + split; [|done]. intros _. right. lia.
    + split; [auto|]. intros [?|?]; [done|lia].
Qed.

Lemma mark_range_used_spec p start bytes :
  phys_cnt p -> 0 <= start < 2 ^ 64 -> 0 <= bytes < 2 ^ 64 ->
  let q := mark_range_used start bytes p in
  phys_cnt q /\ total_frames q = total_frames p /\
  forall g, 0 <= g -> bit_test q g = true <->
    bit_test p g = true /\
    ~ (0 < bytes /\ start / 4096 <= g < u64 (start / 4096 + u64 (bytes + 4095) / 4096)).
Proof.
  intros Hwf Hs Hp. unfold mark_range_used. rewrite !shift_4096.
  replace (bytes + XERET_FRAME_SIZE - 1) with (bytes + 4095) by (change XERET_FRAME_SIZE with 4096; lia).
  pose proof (wf_total p Hwf) as Htot.
  destruct (Z.eqb_spec bytes 0).
  { split_and!; try done. intros g Hg. split; [|tauto]. intros. split; [done|lia]. }
  rewrite Z.gtb_ltb. set (e0 := u64 (start / 4096 + u64 (bytes + 4095) / 4096)).
  set (e := if total_frames p <? e0 then total_frames p else e0).
  assert (e = Z.min (total_frames p) e0) as He.
  { subst e. destruct (Z.ltb_spec (total_frames p) e0); lia. }
  clearbody e e0.
  assert (forall g, bit_test p g = true -> g < total_frames p) as Hin.
  { intros g Hb. destruct (Z.lt_ge_cases g (total_frames p)); [done|].
    rewrite (wf_end p Hwf) in Hb by lia. done. }
  destruct (Z.le_gt_cases e (start / 4096)).
  - rewrite for_range_0 by lia. split_and!; try done. intros g Hg.
    split; [|tauto]. intros Hb. specialize (Hin g Hb). split; [done|lia].
  - pose proof (mark_used_loop p (start / 4096) (e - start / 4096) Hwf
      ltac:(lia) ltac:(lia) ltac:(lia)) as (Hc & Hset & Ht).
    split_and!; try done. intros g Hg. rewrite Hset by done. case_decide.
    + split; [done|]. intros [_ Hn]. lia.
    + split; [|tauto]. intros Hb. specialize (Hin g Hb). split; [done|lia].
Qed.

(** The frames a descriptor of usable memory covers. *)
Definition desc_covers (d : EFI_MEMORY_DESCRIPTOR) (f : Z) : Prop :=
  usable (Type_ d) = true /\ 0 < NumberOfPages d /\
  PhysicalStart d / 4096 <= f < u64 (PhysicalStart d / 4096 + NumberOfPages d).

Lemma add_desc_spec mmap off p :
  bytes_ok mmap -> phys_cnt p ->
  let q := add_desc (read_desc mmap off) p in
  phys_cnt q /\ total_frames q = total_frames p /\
  forall g, 0 <= g -> bit_test q g = true <->
    bit_test p g = true \/ (g < total_frames p /\ desc_covers (read_desc mmap off) g).
Proof.
  intros Hok Hwf. unfold add_desc, desc_covers. destruct (usable _) eqn:Hu.
  - pose proof (mark_range_free_spec p (PhysicalStart (read_desc mmap off))
      (NumberOfPages (read_desc mmap off)) Hwf (get64_range _ _ Hok) (get64_range _ _ Hok))
      as (Hc & Ht & Hb).
    split_and!; try done. intros g Hg. rewrite Hb by done. tauto.
  - split_and!; try done. intros g Hg. split; [auto|]. by intros [?|(_ & ? & _)].
Qed.

Lemma add_descs_spec fuel mmap off ds ms p :
  bytes_ok mmap -> phys_cnt p -> 0 <= off -> 0 < ds -> off + ds < 2 ^ 64 -> ms + ds < 2 ^ 64 ->
  ms - off <= Z.of_nat fuel ->
  let q := add_descs fuel mmap off ds ms p in
  phys_cnt q /\ total_frames q = total_frames p /\
  forall g, 0 <= g -> bit_test q g = true <->
    bit_test p g = true \/
    (g < total_frames p /\ exists k, 0 <= k /\ off + (k + 1) * ds <= ms /\
       desc_covers (read_desc mmap (off + k * ds)) g).
Proof.
  intros Hok. revert off p. induction fuel as [|n IH];
    intros off p Hwf Hoff Hds Ho Hms Hfuel; simpl.
  - split_and!; try done. intros g Hg. split; [auto|]. intros [?|(_ & k & Hk & Hle & _)]; [done|nia].
  - rewrite (u64_small (off + ds)) by lia. destruct (Z.leb_spec (off + ds) ms) as [Hle|Hle].
    + pose proof (add_desc_spec mmap off p Hok Hwf) as (Hc & Ht & Hb).
      destruct (IH (off + ds) _ Hc) as (Hc' & Ht' & Hb'); try lia.
      split_and!; [done|congruence|]. intros g Hg. rewrite Hb', Hb, Ht by done. split.
      * intros [[?|[? ?]]|(? & k & Hk & Hkle & Hcov)]; [auto| |].
        -- right. split; [done|]. exists 0. rewrite Z.mul_0_l, Z.add_0_r. split_and!; (done || lia).
        -- right. split; [done|]. exists (k + 1). split_and!; [lia|lia|].
           by replace (off + (k + 1) * ds) with (off + ds + k * ds) by lia.
      * intros [?|(? & k & Hk & Hkle & Hcov)]; [auto|].
        destruct (Z.eq_dec k 0) as [->|].
        -- left. right. rewrite Z.mul_0_l, Z.add_0_r in Hcov. auto.
        -- right. split; [done|]. exists (k - 1). split_and!; [lia|lia|].
           by replace (off + ds + (k - 1) * ds) with (off + k * ds) by lia.
    + split_and!; try done. intros g Hg. split; [auto|].
      intros [?|(_ & k & Hk & Hkle & _)]; [done|nia].
Qed.

(** An empty bitmap, as [phys_init_from_handoff] starts from. *)
Lemma phys_cnt_empty n pe : 0 <= n <= XERET_BITMAP_MAX_FRAMES -> phys_cnt (mkPhys n 0 n pe ∅).
Proof.
  intros Hn.
  assert (forall f, bit_test (mkPhys n 0 n pe ∅) f = false) as H.
  { intros f. rewrite bit_test_testbit. unfold bits_at. simpl. by rewrite Z.bits_0. }
  split; simpl; try lia; auto.
  symmetry. apply countb_zero. intros f _. apply H.
Qed.

Definition fb_bytes (h : XeretHandoff) : Z :=
  u64 (u64 (pixels_per_scanline (fb h) * 4) * fb_height (fb h)).

Definition fb_covers (h : XeretHandoff) (f : Z) : Prop :=
  fb_base (fb h) <> 0 /\ fb_height (fb h) <> 0 /\ 0 < fb_bytes h /\
  fb_base (fb h) / 4096 <= f < u64 (fb_base (fb h) / 4096 + u64 (fb_bytes h + 4095) / 4096).

(** The handoff fields at their widths, with a memory map whose end does not
    wrap. *)
Record handoff_ok (h : XeretHandoff) (mmap : list Z) : Prop := {
  ho_magic : magic h = XERET_HANDOFF_MAGIC;
  ho_map : mmap_addr h <> 0 /\ 0 < mmap_size h /\ 0 < mmap_desc_size h /\
           mmap_size h + mmap_desc_size h < 2 ^ 64;
  ho_end : 0 < hand_phys_end h < 2 ^ 64 - 4095;
  ho_fb : 0 <= fb_base (fb h) < 2 ^ 64;
  ho_bytes : bytes_ok mmap
}.

Definition init_frames (h : XeretHandoff) : Z :=
  Z.min ((hand_phys_end h + 4095) / 4096) XERET_BITMAP_MAX_FRAMES.

Lemma init_value h mmap p :
  handoff_ok h mmap ->
  exists q0 pe, q0 = mkPhys (init_frames h) 0 (init_frames h) pe ∅ /\
  phys_init_from_handoff (Some h) mmap p =
  (0, let q := phys_reserve_range 0 0x100000
        (add_descs (Z.to_nat (mmap_size h)) mmap 0 (mmap_desc_size h) (mmap_size h) q0) in
      if negb (fb_base (fb h) =? 0) && negb (fb_height (fb h) =? 0)
      then phys_reserve_range (fb_base (fb h)) (fb_bytes h) q else q).
Proof.
  intros [Hm (Ha & Hs & Hd & Hsz) He Hfb Hok].
  unfold phys_init_from_handoff. rewrite Hm, Z.eqb_refl. simpl negb. cbv iota.
  destruct (Z.eqb_spec (mmap_addr h) 0); [lia|]. destruct (Z.eqb_spec (mmap_size h) 0); [lia|].
  destruct (Z.eqb_spec (mmap_desc_size h) 0); [lia|]. destruct (Z.eqb_spec (hand_phys_end h) 0); [lia|].
  simpl orb. cbv iota.
  assert (u64 (hand_phys_end h + XERET_FRAME_SIZE - 1) .>> XERET_FRAME_SHIFT
          = (hand_phys_end h + 4095) / 4096) as ->.
  { rewrite shift_4096. change XERET_FRAME_SIZE with 4096. rewrite u64_small by lia. f_equal. lia. }
  assert ((if (hand_phys_end h + 4095) / 4096 >? XERET_BITMAP_MAX_FRAMES
           then XERET_BITMAP_MAX_FRAMES else (hand_phys_end h + 4095) / 4096) = init_frames h) as ->.
  { unfold init_frames. rewrite Z.gtb_ltb.
    destruct (Z.ltb_spec XERET_BITMAP_MAX_FRAMES ((hand_phys_end h + 4095) / 4096)); lia. }
  eexists _, _. split; [reflexivity|]. reflexivity.
Qed.

Lemma reserve_low q :
  phys_cnt q ->
  let r := phys_reserve_range 0 0x100000 q in
  phys_cnt r /\ total_frames r = total_frames q /\
  forall f, 0 <= f -> bit_test r f = true <-> bit_test q f = true /\ 256 <= f.
Proof.
  intros Hq.
  destruct (mark_range_used_spec q 0 0x100000 Hq ltac:(lia) ltac:(lia)) as (Hc & Ht & Hb).
  split_and!; try done. intros f Hf. rewrite (Hb f Hf).
  change (u64 (0 / 4096 + u64 (0x100000 + 4095) / 4096)) with 256. change (0 / 4096) with 0.
  split; intros [? Hx]; (split; [done|lia]).
Qed.

Lemma init_spec h mmap p :
  handoff_ok h mmap ->
  let r := phys_init_from_handoff (Some h) mmap p in
  r.1 = 0 /\ phys_wf r.2 /\ total_frames r.2 = init_frames h /\
  forall f, 0 <= f -> bit_test r.2 f = true <->
    256 <= f < init_frames h /\ ~ fb_covers h f /\
    exists k, 0 <= k /\ (k + 1) * mmap_desc_size h <= mmap_size h /\
      desc_covers (read_desc mmap (k * mmap_desc_size h)) f.
Proof.
  intros Hh. destruct (init_value h mmap p Hh) as (q0 & pe & Hq0 & ->).
  destruct Hh as [Hm (Ha & Hs & Hd & Hsz) He Hfb Hok].
  assert (phys_cnt q0) as Hc0.
  { subst q0. apply phys_cnt_empty. unfold init_frames. rewrite max_frames_val. lia. }
  assert (forall f, bit_test q0 f = false) as Hz0.
  { intros f. subst q0. rewrite bit_test_testbit. unfold bits_at. simpl. by rewrite Z.bits_0. }
  assert (total_frames q0 = init_frames h) as Ht0 by (by subst q0).
  destruct (add_descs_spec (Z.to_nat (mmap_size h)) mmap 0 (mmap_desc_size h) (mmap_size h) q0
    Hok Hc0) as (Hc1 & Ht1 & Hb1); try lia.
  set (q1 := add_descs _ _ _ _ _ _) in *.
  destruct (reserve_low q1 Hc1) as (Hc2 & Ht2 & Hb2).
  set (q2 := phys_reserve_range 0 0x100000 q1) in *. cbn zeta beta. cbn [fst snd].
  set (q3 := if (_ : bool) then _ else q2).
  assert (phys_cnt q3 /\ total_frames q3 = total_frames q2 /\ forall f, 0 <= f ->
    bit_test q3 f = true <-> bit_test q2 f = true /\ ~ fb_covers h f) as (Hc3 & Ht3 & Hb3).
  { subst q3. unfold fb_covers.
    destruct (Z.eqb_spec (fb_base (fb h)) 0); cbn [negb andb].
    { split_and!; try done. intros f Hf. split; [|tauto]. intros. split; [done|lia]. }
    destruct (Z.eqb_spec (fb_height (fb h)) 0); cbn [negb andb].
    { split_and!; try done. intros f Hf. split; [|tauto]. intros. split; [done|lia]. }
    destruct (mark_range_used_spec q2 (fb_base (fb h)) (fb_bytes h) Hc2 Hfb (u64_range _)) as (? & ? & Hx).
    split_and!; try done. intros f Hf. rewrite (Hx f Hf). split; intros [? Hn]; (split; [done|]); tauto. }
  clearbody q3.
  assert (forall f, 0 <= f -> bit_test q3 f = true <->
    256 <= f < init_frames h /\ ~ fb_covers h f /\
    exists k, 0 <= k /\ (k + 1) * mmap_desc_size h <= mmap_size h /\
      desc_covers (read_desc mmap (k * mmap_desc_size h)) f) as Hfinal.
  { intros f Hf. rewrite Hb3, Hb2, Hb1, Hz0, Ht0 by done. clear Hb1 Hb2 Hb3 Hz0. split.
    - intros [[[?|(? & k & ? & ? & ?)] ?] ?]; [done|]. split_and!; try lia; [done|]. exists k.
      rewrite Z.add_0_l in *. auto.
    - intros (? & ? & k & ? & ? & ?). split_and!; try lia; try done. right. split; [lia|]. exists k.
      rewrite !Z.add_0_l. auto. }
  split_and!; [done| |congruence|done].
  split; [done|]. apply not_true_iff_false. rewrite Hfinal by lia. lia.
Qed.

(** * Theorems *)

(** C39: on a well-formed bitmap [phys_alloc_frames n] returns the address of
    the lowest run of [n] free frames, marks exactly those frames used and
    subtracts [n] from the free count; it returns 0, with the bitmap
    unchanged, exactly when no such run exists. *)
Theorem phys_alloc_frames_correct n p :
  phys_wf p -> 0 < n -> alloc_result (fun _ => True) n p (phys_alloc_frames n p).
Proof. apply alloc_frames_result. Qed.

(** [phys_alloc_huge] does the same for the lowest 2 MiB-aligned run of
    512 free frames, although its scan skips ahead at each used frame. *)
Theorem phys_alloc_huge_correct p :
  phys_wf p -> alloc_result (fun s => s mod 512 = 0) 512 p (phys_alloc_huge p).
Proof. apply alloc_huge_result. Qed.

(** Freeing what an allocation returned restores the bitmap: every bit
    and every counter is as before the allocation. *)
Theorem phys_alloc_free_roundtrip n p a q :
  phys_wf p -> 0 < n -> phys_alloc_frames n p = (a, q) -> a <> 0 ->
  phys_eqv (phys_free_frames a n q) p.
Proof.
  intros Hwf Hn Heq Ha. pose proof (alloc_frames_result n p Hwf Hn) as H.
  rewrite Heq in H. destruct H as [(s & Hs & Hpos & _ & Hle & Hrun & _ & Hq & Hset & Ht & _)|[? _]].
  2: { simplify_eq. }
  simpl in *. subst a. pose proof (wf_total p Hwf) as Htot. rewrite max_frames_val in Htot.
  assert (s * 4096 / 4096 = s) as Hdiv by lia.
  destruct (free_frames_in q (s * 4096) n Hq) as (Hc & Hset' & Ht'); [lia| |].
  { unfold free_in_range. lia. }
  apply phys_eqv_intro; [done|apply Hwf|congruence|].
  intros f Hf. rewrite Hset', Hset, Hdiv by done. case_decide; [|done].
  symmetry. apply Hrun. lia.
Qed.

(** for every 64-bit address and count, the wrap-around of their sum
    included, [phys_free_frames] marks free exactly an aligned, non-empty
    range inside the bitmap and otherwise changes nothing; it keeps the
    counters right. *)
Theorem phys_free_frames_total p addr n :
  phys_cnt p -> 0 <= addr < 2 ^ 64 -> 0 <= n < 2 ^ 64 ->
  let q := phys_free_frames addr n p in
  phys_cnt q /\
  forall f, 0 <= f -> bit_test q f =
    if decide (addr mod 4096 = 0 /\ 0 < n /\ addr / 4096 + n <= total_frames p /\
               addr / 4096 <= f < addr / 4096 + n)
    then true else bit_test p f.
Proof.
  intros Hwf Ha Hn q. subst q.
  destruct (decide (addr mod 4096 = 0 /\ 0 < n /\ addr / 4096 + n <= total_frames p)) as [Hin|Hout].
  - destruct (free_frames_in p addr n Hwf Ha Hin) as (Hc & Hset & Ht). split; [done|].
    intros f Hf. rewrite Hset by done. repeat case_decide; (done || lia).
  - rewrite free_frames_out by done. split; [done|]. intros f Hf. rewrite decide_False; [done|lia].
Qed.


(** [phys_reserve_range] rounds the size up but not the end: when the
    start is not page aligned, the frame that holds the last bytes of the
    range stays free, so an "arbitrary physical range" is not fully reserved. *)
Theorem phys_reserve_misses_tail p f d k :
  phys_cnt p -> 0 <= f -> 0 < d < 4096 -> 0 < k -> f + k < total_frames p ->
  bit_test p (f + k) = true ->
  (f + k) * 4096 < (f * 4096 + d) + k * 4096 /\
  bit_test (phys_reserve_range (f * 4096 + d) (k * 4096) p) (f + k) = true.
Proof.
  intros Hwf Hf Hd Hk Hle Hb. split; [lia|].
  pose proof (wf_total p Hwf) as Ht. rewrite max_frames_val in Ht.
  destruct (mark_range_used_spec p (f * 4096 + d) (k * 4096) Hwf) as (_ & _ & H); [lia..|].
  apply H; [lia|]. split; [done|]. rewrite (u64_small (k * 4096 + 4095)) by lia.
  rewrite u64_small; lia.
Qed.

(** * Witnesses *)

(** A machine with 4 MiB of conventional memory and no framebuffer. *)
Definition demo_mmap : list Z :=
  put64 (put32 (replicate 48 0) 0 EfiConventionalMemory) 24 1024.
Definition demo_handoff : XeretHandoff :=
  mkHandoff XERET_HANDOFF_MAGIC (mkFb 0 0 0 0 0) 4096 48 48 (1024 * 4096).
Definition demo_phys : PhysBitmap :=
  (phys_init_from_handoff (Some demo_handoff) demo_mmap (mkPhys 0 0 0 0 ∅)).2.

Lemma demo_handoff_ok : handoff_ok demo_handoff demo_mmap.
Proof.
  split; try (simpl; lia); try reflexivity.
  apply bytes_ok_put64, bytes_ok_put32, Forall_replicate. lia.
Qed.

Lemma demo_phys_wf : phys_wf demo_phys.
Proof. apply (init_spec _ _ (mkPhys 0 0 0 0 ∅) demo_handoff_ok). Qed.

Lemma phys_alloc_frames_correct_witness :
  alloc_result (fun _ => True) 3 demo_phys (phys_alloc_frames 3 demo_phys) /\
  (phys_alloc_frames 3 demo_phys).1 = 256 * 4096.
Proof.
  split; [|vm_compute; reflexivity].
  apply (phys_alloc_frames_correct 3 demo_phys demo_phys_wf). lia.
Defined.

Lemma phys_alloc_huge_correct_witness :
  alloc_result (fun s => s mod 512 = 0) 512 demo_phys (phys_alloc_huge demo_phys) /\
  (phys_alloc_huge demo_phys).1 = 512 * 4096.
Proof.
  split; [|vm_compute; reflexivity]. apply (phys_alloc_huge_correct demo_phys demo_phys_wf).
Defined.

Lemma phys_alloc_free_roundtrip_witness :
  phys_eqv (phys_free_frames (256 * 4096) 3 (phys_alloc_frames 3 demo_phys).2) demo_phys.
Proof.
  apply (phys_alloc_free_roundtrip 3 demo_phys (256 * 4096) (phys_alloc_frames 3 demo_phys).2 demo_phys_wf);
    [lia|vm_compute; reflexivity|lia].
Defined.

Lemma phys_free_frames_total_witness :
  phys_cnt (phys_free_frames (2 ^ 64 - 4096) (2 ^ 64 - 1) demo_phys).
Proof.
  apply (phys_free_frames_total demo_phys (2 ^ 64 - 4096) (2 ^ 64 - 1) demo_phys_wf); lia.
Defined.


Lemma phys_reserve_misses_tail_witness :
  302 * 4096 < 300 * 4096 + 1 + 2 * 4096 /\
  bit_test (phys_reserve_range (300 * 4096 + 1) (2 * 4096) demo_phys) (300 + 2) = true.
Proof.
  apply (phys_reserve_misses_tail demo_phys 300 1 2 demo_phys_wf); try lia; vm_compute; reflexivity.
Defined.
