(* ===== verification/SpinLock.v ===== *)
(** The spin lock ([kerncall/include/spinlock.h]) and what it gives its users:
    CPUs that call into a structure with one lock, in any interleaving of their
    steps, get what they would get one after the other. The frame bitmap of
    [physical.c] is the user; its critical sections are split into the rounds
    of their loops. The accesses of one CPU take effect in program order. *)

From S2P Require Import Prelude.
From S2P Require Import Physical.

(** * The lock word *)

Definition XSPINLOCK_INIT : Z := 0.

(** The exchange of [xspin_lock]: the old value decides whether to wait. *)
Definition xspin_exchange (l : Z) : Z * Z := (l, 1).

(** The test of the inner loop. *)
Definition xspin_taken (l : Z) : bool := tst l.

Definition xspin_unlock (l : Z) : Z := 0.

(** * Critical sections *)

(** What a structure with a lock provides: its operations, the answer of a call
    that returns before it takes the lock, and the steps between lock and
    unlock on a local state and the shared one. [cs_act] is the operation as
    a whole. *)
Class Critical (S Op R L : Type) := {
  cs_early : Op -> option R;
  cs_start : Op -> L;
  cs_step : L -> S -> option (L * S);
  cs_result : L -> R;
  cs_act : Op -> S -> R * S
}.

Section Machine.
Context {S Op R L : Type} `{!Critical S Op R L}.

(** Where a CPU is: outside, before the exchange, in the inner loop, or between
    lock and unlock. *)
Inductive Pc := Idle | Try (op : Op) | Wait (op : Op) | Inside (op : Op) (l : L).

Record Conf := mkConf { lock : Z; shared : S; cpus : list Pc }.

(** One step of CPU [i]. A step that returns from a call says with what. *)
Inductive cstep : Conf -> option (nat * Op * R) -> Conf -> Prop :=
  | c_quick c i op r : cpus c !! i = Some Idle -> cs_early op = Some r -> cstep c (Some (i, op, r)) c
  | c_call c i op : cpus c !! i = Some Idle -> cs_early op = None ->
      cstep c None (mkConf (lock c) (shared c) (<[i := Try op]> (cpus c)))
  | c_exchange c i op old l : cpus c !! i = Some (Try op) -> xspin_exchange (lock c) = (old, l) ->
      cstep c None (mkConf l (shared c) (<[i := if tst old then Wait op else Inside op (cs_start op)]> (cpus c)))
  | c_wait c i op : cpus c !! i = Some (Wait op) ->
      cstep c None (mkConf (lock c) (shared c) (<[i := if xspin_taken (lock c) then Wait op else Try op]> (cpus c)))
  | c_inside c i op l l' s' : cpus c !! i = Some (Inside op l) -> cs_step l (shared c) = Some (l', s') ->
      cstep c None (mkConf (lock c) s' (<[i := Inside op l']> (cpus c)))
  | c_unlock c i op l : cpus c !! i = Some (Inside op l) -> cs_step l (shared c) = None ->
      cstep c (Some (i, op, cs_result l)) (mkConf (xspin_unlock (lock c)) (shared c) (<[i := Idle]> (cpus c))).

(** Steps with the returns among them, in order. *)
Inductive csteps : Conf -> list (nat * Op * R) -> Conf -> Prop :=
  | cs_nil c : csteps c [] c
  | cs_cons c e c1 tr c2 : cstep c e c1 -> csteps c1 tr c2 -> csteps c (option_list e ++ tr) c2.

Definition boot (k : nat) (s : S) : Conf := mkConf XSPINLOCK_INIT s (replicate k Idle).

(** The same calls one after the other. *)
Inductive serial : S -> list (nat * Op * R) -> S -> Prop :=
  | sr_nil s : serial s [] s
  | sr_cons s i op r s1 tr s2 : cs_act op s = (r, s1) -> serial s1 tr s2 -> serial s ((i, op, r) :: tr) s2.

Definition inside (c : Conf) (i : nat) : Prop := exists op l, cpus c !! i = Some (Inside op l).

(** The steps of a critical section. *)
Definition mrel (x y : L * S) : Prop := cs_step x.1 x.2 = Some y.
End Machine.
Arguments Conf : clear implicits.
Arguments Pc : clear implicits.

(** The steps make up the operation, and there are finitely many. *)
Class CriticalLaws (S Op R L : Type) `{!Critical S Op R L} : Prop := {
  cs_early_act op (s : S) r : cs_early op = Some r -> cs_act op s = (r, s);
  cs_runs op (s : S) : cs_early op = None -> exists l, rtc mrel (cs_start op, s) (l, (cs_act op s).2) /\ cs_step l (cs_act op s).2 = None /\ cs_result l = (cs_act op s).1
}.

(** * Any interleaving is serial *)

Section Theory.
Context {S Op R L : Type} `{!Critical S Op R L} `{!CriticalLaws S Op R L}.
Implicit Types (c : Conf S Op L) (s : S) (l : L).

Lemma serial_snoc s tr s1 i op r s2 : serial s tr s1 -> cs_act op s1 = (r, s2) -> serial s (tr ++ [(i, op, r)]) s2.
Proof. induction 1 as [s|s j op' r' s' tr s1 E H IH]; intros Ha; cbn [app]; econstructor; eauto. constructor. Qed.

Lemma mrel_end (x y z : L * S) : rtc mrel x y -> rtc mrel x z -> cs_step z.1 z.2 = None -> rtc mrel y z.
Proof.
  induction 1 as [x|x x1 y H1 H IH]; intros Hz Hn; [done|]. apply IH; [|done]. inversion Hz as [|? x2 ? H2 Hz']; subst.
  - unfold mrel in H1. congruence.
  - unfold mrel in *. by simplify_eq.
Qed.

(** The state of the lock: free, and then the structure is as after the calls
    that have returned; or held by one CPU, on its way through its operation. *)
Definition orderly s0 tr c : Prop :=
  (lock c = 0 /\ (forall i, ~ inside c i) /\ serial s0 tr (shared c)) \/
  (lock c = 1 /\ exists i op l s, cpus c !! i = Some (Inside op l) /\ (forall j, inside c j -> j = i) /\ serial s0 tr s /\
    cs_early op = None /\ rtc mrel (cs_start op, s) (l, shared c)).

(** No CPU's place but one changes. *)
Lemma inside_insert c i pc w s' j : inside (mkConf w s' (<[i := pc]> (cpus c))) j -> j <> i -> inside c j.
Proof. intros (op & l & H) Hj. exists op, l. cbn [cpus] in H. by rewrite list_lookup_insert_ne in H by done. Qed.

Definition calling (pc : Pc Op L) : Prop := match pc with Try op | Wait op => cs_early op = None | _ => True end.
Definition asked c : Prop := forall i pc, cpus c !! i = Some pc -> calling pc.

Lemma asked_insert c i pc w s' : asked c -> calling pc -> asked (mkConf w s' (<[i := pc]> (cpus c))).
Proof. intros H Hp j x Hj. cbn [cpus] in Hj. apply list_lookup_insert_Some in Hj as [(_ & <- & _)|[_ Hj]]; [done|by apply (H j)]. Qed.

(** A CPU that goes nowhere or out leaves the others where they are. *)
Lemma inside_outside c i pc w s' j : (forall op l, pc <> Inside op l) -> inside (mkConf w s' (<[i := pc]> (cpus c))) j -> j <> i /\ inside c j.
Proof.
  intros Hp Hj. assert (j <> i) as Hne; [|split; [done|by apply (inside_insert c i pc w s')]]. intros ->. destruct Hj as (op & l & Hj). cbn [cpus] in Hj.
  apply list_lookup_insert_Some in Hj as [(_ & E & _)|[E _]]; [by destruct (Hp op l)|done].
Qed.

Lemma orderly_outside s0 tr c i pc : orderly s0 tr c -> ~ inside c i -> (forall op l, pc <> Inside op l) ->
  orderly s0 tr (mkConf (lock c) (shared c) (<[i := pc]> (cpus c))).
Proof.
  intros H Hi Hp. destruct H as [(H1 & H2 & H3)|(H1 & j & op & l & s & Hj & Hu & Hs & He & Hr)]; [left|right].
  - split_and!; [done| |done]. intros j Hj. apply inside_outside in Hj as [_ Hj]; [by apply (H2 j)|done].
  - split; [done|]. exists j, op, l, s. split_and!; [|intros k Hk; apply inside_outside in Hk as [_ Hk]; [by apply Hu|done]|done|done|done]. cbn [cpus].
    rewrite list_lookup_insert_ne; [done|]. intros ->. apply Hi. by exists op, l.
Qed.

Lemma not_inside c i pc : cpus c !! i = Some pc -> (forall op l, pc <> Inside op l) -> ~ inside c i.
Proof. intros Hi Hp (op & l & E). destruct (Hp op l). congruence. Qed.

(** The CPU that is inside is the one that holds the lock. *)
Lemma orderly_inside s0 tr c i op l : orderly s0 tr c -> cpus c !! i = Some (Inside op l) ->
  lock c = 1 /\ (forall j, inside c j -> j = i) /\ cs_early op = None /\ exists s, serial s0 tr s /\ rtc mrel (cs_start op, s) (l, shared c).
Proof.
  intros [(_ & H & _)|(H1 & j & op' & l' & s & Hj & Hu & Hs & He & Hr)] Hi; [destruct (H i); by exists op, l|].
  assert (i = j) as -> by (apply Hu; by exists op, l). rewrite Hi in Hj. simplify_eq. split_and!; eauto.
Qed.

(** A call that finishes makes the next one of the serial calls. *)
Lemma section_done op s l s' : cs_early op = None -> rtc mrel (cs_start op, s) (l, s') -> cs_step l s' = None -> cs_act op s = (cs_result l, s').
Proof.
  intros He Hr Hn. destruct (cs_runs op s He) as (l1 & R1 & R2 & R3). pose proof (mrel_end _ _ _ Hr R1 R2) as H.
  inversion H as [|? x ? Hm]; subst; [|unfold mrel in Hm; cbn in Hm; congruence]. destruct (cs_act op s) as [r s1]. cbn in *. by rewrite R3.
Qed.

Lemma cstep_orderly s0 tr c e c' : asked c -> orderly s0 tr c -> cstep c e c' -> asked c' /\ orderly s0 (tr ++ option_list e) c'.
Proof.
  intros Ha H Hst. destruct Hst as [c i op r Hi He|c i op Hi He|c i op old w Hi Hx|c i op Hi|c i op l l' s' Hi Hx|c i op l Hi Hx]; cbn [option_list]; rewrite ?app_nil_r.
  - split; [done|]. destruct H as [(H1 & H2 & H3)|(H1 & j & op' & l & s & Hj & Hu & Hs & He' & Hr)]; [left|right].
    + split_and!; [done|done|]. eapply serial_snoc; [done|by apply cs_early_act].
    + split; [done|]. exists j, op', l, s. split_and!; try done. eapply serial_snoc; [done|by apply cs_early_act].
  - split; [by apply asked_insert|]. apply orderly_outside; [done|by apply (not_inside c i Idle)|done].
  - injection Hx as <- <-. pose proof (Ha i _ Hi) as He. cbn in He. split; [apply asked_insert; [done|by destruct (tst (lock c))]|].
    destruct H as [(H1 & H2 & H3)|(H1 & H2)].
    + rewrite H1. change (tst 0) with false. cbn iota. right. split; [done|]. exists i, op, (cs_start op), (shared c). cbn [cpus shared].
      split_and!; [apply list_lookup_insert_eq; by apply lookup_lt_Some in Hi| |done|done|done]. intros j Hj. destruct (decide (j = i)) as [|Hne]; [done|].
      by apply inside_insert, H2 in Hj.
    + rewrite H1. change (tst 1) with true. cbn iota. rewrite <- H1. apply orderly_outside; [by right|by apply (not_inside c i (Try op))|done].
  - pose proof (Ha i _ Hi) as He. cbn in He. split; [apply asked_insert; [done|by destruct (xspin_taken _)]|].
    apply orderly_outside; [done|by apply (not_inside c i (Wait op))|by destruct (xspin_taken _)].
  - destruct (orderly_inside s0 tr c i op l H Hi) as (H1 & H2 & He & s & Hs & Hr). split; [by apply asked_insert|]. right. split; [done|]. exists i, op, l', s. cbn [cpus shared].
    split_and!; [apply list_lookup_insert_eq; by apply lookup_lt_Some in Hi| |done|done|by eapply rtc_r]. intros j Hj. destruct (decide (j = i)) as [|Hne]; [done|].
    by apply H2, (inside_insert _ _ _ _ _ _ Hj).
  - destruct (orderly_inside s0 tr c i op l H Hi) as (H1 & H2 & He & s & Hs & Hr). split; [by apply asked_insert|]. left. cbn [lock shared]. split_and!; [done| |].
    + intros j Hj. apply inside_outside in Hj as [Hne Hj]; [|done]. by apply Hne, H2.
    + eapply serial_snoc; [done|by apply section_done].
Qed.

Lemma boot_orderly k s : asked (boot k s) /\ orderly s [] (boot k s).
Proof.
  split.
  - intros i pc Hi. cbn in Hi. by apply lookup_replicate in Hi as [-> _].
  - left. split_and!; [done| |constructor]. intros i (op & l & Hi). cbn in Hi. by apply lookup_replicate in Hi as [? _].
Qed.

Lemma csteps_orderly s0 c tr c' : csteps c tr c' -> forall tr0, asked c -> orderly s0 tr0 c -> asked c' /\ orderly s0 (tr0 ++ tr) c'.
Proof.
  induction 1 as [c|c e c1 tr c2 Hs H IH]; intros tr0 Ha Ho; [by rewrite app_nil_r|].
  destruct (cstep_orderly s0 tr0 c e c1 Ha Ho Hs) as [A1 O1]. rewrite app_assoc. by apply IH.
Qed.

(** ** Someone always returns *)

Lemma csteps_none c c1 tr c2 : cstep c None c1 -> csteps c1 tr c2 -> csteps c tr c2.
Proof. intros H1 H2. by apply (cs_cons c None c1 tr c2). Qed.

(** The CPU inside gets out. *)
Lemma inside_returns i op x y : rtc mrel x y -> cs_step y.1 y.2 = None -> forall c, cpus c !! i = Some (Inside op x.1) -> shared c = x.2 ->
  exists r c', csteps c [(i, op, r)] c'.
Proof.
  induction 1 as [x|x x1 y Hm H IH]; intros Hn c Hi Hs.
  - eexists _, _. eapply (cs_cons c (Some _) _ []); [|constructor]. eapply c_unlock; [done|by rewrite Hs].
  - destruct x1 as [l1 s1]. destruct (IH Hn (mkConf (lock c) s1 (<[i := Inside op l1]> (cpus c)))) as (r & c' & Hc); [|done|].
    + cbn. apply list_lookup_insert_eq. by apply lookup_lt_Some in Hi.
    + exists r, c'. eapply csteps_none; [|done]. eapply c_inside; [done|]. by rewrite Hs.
Qed.

Lemma orderly_returns s0 tr c i pc : asked c -> orderly s0 tr c -> cpus c !! i = Some pc -> pc <> Idle -> exists e c', csteps c [e] c'.
Proof.
  intros Ha Ho Hi Hp. assert (forall c j op l, orderly s0 tr c -> cpus c !! j = Some (Inside op l) -> exists e c', csteps c [e] c') as Hin.
  { intros c1 j op l Ho1 Hj. destruct (orderly_inside s0 tr c1 j op l Ho1 Hj) as (_ & _ & He & s & _ & Hr). destruct (cs_runs op s He) as (l1 & R1 & R2 & _).
    pose proof (mrel_end _ _ _ Hr R1 R2) as H. destruct (inside_returns j op _ _ H R2 c1 Hj eq_refl) as (r & c' & Hc). eauto. }
  pose proof Ho as [(H1 & H2 & H3)|(_ & j & op & l & s & Hj & _)]; [|by apply (Hin c j op l)].
  assert (forall c op, asked c -> orderly s0 tr c -> lock c = 0 -> cpus c !! i = Some (Try op) -> exists e c', csteps c [e] c') as Htry.
  { intros c1 op Ha1 Ho1 Hl1 Hi1. pose proof (c_exchange c1 i op (lock c1) 1 Hi1 eq_refl) as Hst. destruct (cstep_orderly s0 tr c1 _ _ Ha1 Ho1 Hst) as [_ Ho2].
    rewrite Hl1 in Hst, Ho2. change (tst 0) with false in *. cbn [option_list] in Ho2. rewrite app_nil_r in Ho2. cbn iota in *.
    destruct (Hin _ i op (cs_start op) Ho2) as (e & c' & Hc); [cbn; apply list_lookup_insert_eq; by apply lookup_lt_Some in Hi1|]. exists e, c'. by eapply csteps_none. }
  destruct pc as [|op|op|op l]; [done|by apply (Htry c op)| |destruct (H2 i); by exists op, l].
  pose proof (c_wait c i op Hi) as Hst. destruct (cstep_orderly s0 tr c _ _ Ha Ho Hst) as [Ha2 Ho2]. cbn [option_list] in Ho2. rewrite app_nil_r in Ho2.
  rewrite H1 in *. change (xspin_taken 0) with false in *. cbn iota in *.
  destruct (Htry _ op Ha2 Ho2 eq_refl) as (e & c' & Hc); [cbn; apply list_lookup_insert_eq; by apply lookup_lt_Some in Hi|]. exists e, c'. by eapply csteps_none.
Qed.
End Theory.

(** * The frame bitmap *)

Inductive PhysOp := PAlloc (n : Z) | PFree (addr n : Z).

(** The variables of a call: where it is in [phys_alloc_frames] or
    [phys_free_frames]. *)
Inductive Local :=
  | LAlloc (n : Z) | LScan (n f run start : Z) | LTake (start n i : Z) | LCount (start n : Z)
  | LFree (f n : Z) | LMark (i e : Z) | LDone (r : Z).

(** Before the lock is taken. *)
Definition phys_early (op : PhysOp) : option Z :=
  match op with
  | PAlloc n => if n =? 0 then Some 0 else None
  | PFree addr n => if (n =? 0) || tst (addr .& (XERET_FRAME_SIZE - 1)) then Some 0 else None
  end.

Definition phys_start (op : PhysOp) : Local :=
  match op with PAlloc n => LAlloc n | PFree addr n => LFree (addr .>> XERET_FRAME_SHIFT) n end.

(** One test or one round of a loop. *)
Definition phys_step (l : Local) (p : PhysBitmap) : option (Local * PhysBitmap) :=
  match l with
  | LAlloc n => Some (if n >? free_frames p then LDone 0 else LScan n 0 0 0, p)
  | LScan n f run start =>
    Some (if f <? total_frames p then
      if bit_test p f then
        let start := if run =? 0 then f else start in
        let run := run + 1 in
        if run =? n then LTake start n start else LScan n (f + 1) run start
      else LScan n (f + 1) 0 start
    else LDone 0, p)
  | LTake start n i => Some (if i <? start + n then (LTake start n (i + 1), bit_clear i p) else (LCount start n, p))
  | LCount start n => Some (LDone (u64 (start .<< XERET_FRAME_SHIFT)), set_counts p (u64 (free_frames p - n)) (u64 (used_frames p + n)))
  | LFree f n => Some (if u64 (f + n) >? total_frames p then LDone 0 else LMark f (u64 (f + n)), p)
  | LMark i e => Some (if i <? e then (LMark (i + 1) e, mark_free_step i p) else (LDone 0, p))
  | LDone _ => None
  end.

Definition phys_act (op : PhysOp) (p : PhysBitmap) : Z * PhysBitmap :=
  match op with PAlloc n => phys_alloc_frames n p | PFree addr n => (0, phys_free_frames addr n p) end.

#[export] Instance phys_critical : Critical PhysBitmap PhysOp Z Local := {|
  cs_early := phys_early; cs_start := phys_start; cs_step := phys_step;
  cs_result l := match l with LDone r => r | _ => 0 end; cs_act := phys_act
|}.

(** One step, then the rest. *)
Lemma mrel_step l p l1 p1 y : phys_step l p = Some (l1, p1) -> rtc mrel (l1, p1) y -> rtc (mrel (L := Local)) (l, p) y.
Proof. intros H1 H2. eapply rtc_l; [|done]. exact H1. Qed.

(** The loops of the two functions. *)
Lemma run_take start n : forall k i p, Z.of_nat k = Z.max 0 (start + n - i) -> rtc mrel (LTake start n i, p) (LCount start n, for_range i (Z.of_nat k) bit_clear p).
Proof.
  induction k as [|k IH]; intros i p Hk.
  - rewrite for_range_0 by lia. eapply mrel_step; [cbn; by rewrite (proj2 (Z.ltb_ge i (start + n))) by lia|done].
  - rewrite for_range_cons by lia. eapply mrel_step; [cbn; by rewrite (proj2 (Z.ltb_lt i (start + n))) by lia|].
    replace (Z.of_nat (S k) - 1) with (Z.of_nat k) by lia. apply IH. lia.
Qed.

Lemma run_mark e : forall k i p, Z.of_nat k = Z.max 0 (e - i) -> rtc mrel (LMark i e, p) (LDone 0, for_range i (Z.of_nat k) mark_free_step p).
Proof.
  induction k as [|k IH]; intros i p Hk.
  - rewrite for_range_0 by lia. eapply mrel_step; [cbn; by rewrite (proj2 (Z.ltb_ge i e)) by lia|done].
  - rewrite for_range_cons by lia. eapply mrel_step; [cbn; by rewrite (proj2 (Z.ltb_lt i e)) by lia|].
    replace (Z.of_nat (S k) - 1) with (Z.of_nat k) by lia. apply IH. lia.
Qed.

Lemma for_range_max {A} lo n (f : Z -> A -> A) x : for_range lo (Z.max 0 n) f x = for_range lo n f x.
Proof. destruct (decide (0 <= n)); [by rewrite Z.max_r by lia|]. by rewrite !for_range_0 by lia. Qed.

Lemma run_scan n p : forall k f run start, f + Z.of_nat k = Z.max f (total_frames p) ->
  rtc mrel (LScan n f run start, p)
    match alloc_scan k p n f run start with Some s => (LDone (u64 (s .<< XERET_FRAME_SHIFT)), take_frames s n p) | None => (LDone 0, p) end.
Proof.
  induction k as [|k IH]; intros f run start Hk; cbn [alloc_scan].
  { eapply mrel_step; [cbn; by rewrite (proj2 (Z.ltb_ge f (total_frames p))) by lia|done]. }
  assert (f < total_frames p) as Hf by lia. destruct (bit_test p f) eqn:Eb.
  2: { eapply mrel_step; [cbn; by rewrite (proj2 (Z.ltb_lt f (total_frames p))), Eb by lia|]. apply IH. lia. }
  destruct (Z.eqb_spec (run + 1) n) as [En|En].
  - eapply mrel_step; [cbn; rewrite (proj2 (Z.ltb_lt f (total_frames p))), Eb by lia; cbn iota; by rewrite (proj2 (Z.eqb_eq (run + 1) n) En)|].
    set (s := if run =? 0 then f else start). eapply rtc_trans; [apply (run_take s n (Z.to_nat (Z.max 0 n)) s p); lia|].
    eapply mrel_step; [done|]. rewrite Z2Nat.id, for_range_max by lia. done.
  - eapply mrel_step; [cbn; rewrite (proj2 (Z.ltb_lt f (total_frames p))), Eb by lia; cbn iota; by rewrite (proj2 (Z.eqb_neq (run + 1) n) En)|]. apply IH. lia.
Qed.

(** The rounds of the critical section make up the function. *)
#[export] Instance phys_laws : CriticalLaws PhysBitmap PhysOp Z Local.
Proof.
  split.
  - intros [n|addr n] s r; cbn; unfold phys_alloc_frames, phys_free_frames.
    + destruct (n =? 0); [by intros [= <-]|done].
    + destruct (_ || _); [by intros [= <-]|done].
  - intros [n|addr n] p; cbn [cs_early phys_critical phys_early cs_start phys_start cs_act phys_act].
    + unfold phys_alloc_frames. destruct (n =? 0); [done|]. intros _. destruct (n >? free_frames p) eqn:E.
      { exists (LDone 0). split; [|done]. eapply mrel_step; [cbn; by rewrite E|done]. }
      pose proof (run_scan n p (Z.to_nat (total_frames p)) 0 0 0 ltac:(lia)) as H. destruct (alloc_scan _ p n 0 0 0) as [s|];
        (eexists; split; [eapply mrel_step; [cbn; by rewrite E|exact H]|done]).
    + unfold phys_free_frames. destruct (_ || _); [done|]. intros _. set (f := addr .>> XERET_FRAME_SHIFT). exists (LDone 0). cbn [fst snd].
      destruct (u64 (f + n) >? total_frames p) eqn:E; (split; [|done]); (eapply mrel_step; [cbn; by rewrite E|]); [done|].
      rewrite <- for_range_max. pose proof (run_mark (u64 (f + n)) (Z.to_nat (Z.max 0 (u64 (f + n) - f))) f p ltac:(lia)) as H. by rewrite Z2Nat.id in H by lia.
Qed.

(** ** Frames handed out *)

(** The frames of a call that got some. *)
Definition got (e : nat * PhysOp * Z) (g : Z) : Prop :=
  match e with (_, PAlloc n, r) => r <> 0 /\ r / 4096 <= g < r / 4096 + n | _ => False end.

Definition takes (e : nat * PhysOp * Z) : Prop := match e.1.2 with PAlloc n => 0 < n | PFree _ _ => False end.

Lemma serial_frames p tr p' : serial p tr p' -> phys_wf p -> Forall takes tr ->
  phys_wf p' /\ (forall e g, e ∈ tr -> got e g -> 0 <= g /\ bit_test p g = true) /\
  (forall a b e e' g, tr !! a = Some e -> tr !! b = Some e' -> got e g -> got e' g -> a = b).
Proof.
  induction 1 as [p|p i op r p1 tr p2 E H IH]; intros Hwf Ht; [split_and!; [done|by intros e g ?%not_elem_of_nil|done]|].
  apply Forall_cons in Ht as [Hop Ht]. destruct op as [n|]; [|done]. cbn in Hop, E. pose proof (alloc_frames_result n p Hwf Hop) as Hr. rewrite E in Hr.
  assert (phys_wf p1 /\ (forall g, got (i, PAlloc n, r) g -> 0 <= g /\ bit_test p g = true /\ bit_test p1 g = false) /\
    (forall g, 0 <= g -> bit_test p1 g = true -> bit_test p g = true)) as (Hwf1 & Hg1 & Hm).
  { destruct Hr as [(s & Es & S1 & _ & S2 & S3 & _ & S4 & S5 & _)|[[= -> ->] _]]; cbn in *.
    - rewrite Es, Z.div_mul by lia. split_and!; [done| |].
      + intros g [_ Hg]. split_and!; [lia|by apply S3|]. rewrite S5 by lia. by rewrite decide_True by lia.
      + intros g Hg. rewrite S5 by done. by case_decide.
    - split_and!; [done|by intros g [? _]|done]. }
  destruct (IH Hwf1 Ht) as (I1 & I2 & I3). assert (forall b e g, tr !! b = Some e -> got e g -> ~ got (i, PAlloc n, r) g) as Hap.
  { intros b e g Hb Hg (_ & _ & Hf)%Hg1. apply list_elem_of_lookup_2 in Hb. destruct (I2 e g Hb Hg). congruence. }
  split_and!; [done| |].
  - intros e g [->|He]%elem_of_cons Hg; [by destruct (Hg1 g Hg) as (? & ? & _)|]. destruct (I2 e g He Hg). split; [done|by apply Hm].
  - intros [|a] [|b] e e' g Ha Hb Hg Hg'; cbn in Ha, Hb; simplify_eq; [done| | |].
    + by destruct (Hap b e' g).
    + by destruct (Hap a e g).
    + f_equal. by apply (I3 a b e e' g).
Qed.

(** C38: CPUs that share the frame bitmap. Whatever the number of CPUs and
    however their steps interleave, between lock and unlock too, at most one is
    in the critical section; the calls that have returned are
    [phys_alloc_frames] and [phys_free_frames] one after the other in the order
    of their returns, with those answers, and with no CPU inside the bitmap is
    what they left; as long as CPUs only take frames no frame is handed out
    twice; and while a call is under way some call can return. *)
Theorem cpus_share_frames k p0 tr c : phys_wf p0 -> csteps (boot k p0) tr c ->
  (forall i j, inside c i -> inside c j -> i = j) /\
  (exists p, serial p0 tr p /\ ((forall i, ~ inside c i) -> shared c = p)) /\
  (Forall takes tr -> forall a b e e' g, tr !! a = Some e -> tr !! b = Some e' -> got e g -> got e' g -> a = b) /\
  (forall i pc, cpus c !! i = Some pc -> pc <> Idle -> exists e c', csteps c [e] c').
Proof.
  intros Hwf H. destruct (boot_orderly k p0) as [Ha Ho]. destruct (csteps_orderly p0 _ _ _ H [] Ha Ho) as [Ha' Ho']. cbn [app] in Ho'.
  assert (exists p, serial p0 tr p /\ ((forall i, ~ inside c i) -> shared c = p)) as (p & Hs & Hp).
  { destruct Ho' as [(_ & _ & Hs)|(_ & j & op & l & s & Hj & _ & Hs & _)]; [by exists (shared c)|]. exists s. split; [done|]. intros Hn. destruct (Hn j). by exists op, l. }
  split_and!.
  - intros i j (op & l & Hi) Hj. destruct (orderly_inside _ _ _ _ _ _ Ho' Hi) as (_ & Hu & _). symmetry. by apply Hu.
  - by exists p.
  - intros Ht. by apply (serial_frames p0 tr p).
  - intros i pc. by apply (orderly_returns p0 tr).
Qed.

(** * Witness: two CPUs, the second tries while the first is inside *)

Definition demo_inside : Conf PhysBitmap PhysOp Local := mkConf 1 demo_phys [Inside (PAlloc 1) (LScan 1 0 0 0); Wait (PAlloc 2)].

Lemma demo_race : csteps (boot 2 demo_phys) [] demo_inside.
Proof.
  eapply csteps_none; [eapply (c_call _ 0 (PAlloc 1)); done|]. eapply csteps_none; [eapply (c_call _ 1 (PAlloc 2)); done|].
  eapply csteps_none; [eapply (c_exchange _ 0 (PAlloc 1)); done|]. eapply csteps_none; [eapply (c_exchange _ 1 (PAlloc 2)); done|].
  eapply csteps_none; [eapply (c_inside _ 0 (PAlloc 1)); done|]. constructor.
Qed.

Lemma cpus_share_frames_witness : inside demo_inside 0 /\ ~ inside demo_inside 1 /\ exists e c', csteps demo_inside [e] c'.
Proof.
  destruct (cpus_share_frames 2 demo_phys [] demo_inside demo_phys_wf demo_race) as (H1 & H2 & H3 & H4). split; [|split].
  - exists (PAlloc 1), (LScan 1 0 0 0). reflexivity.
  - intros H. discriminate (H1 0%nat 1%nat ltac:(exists (PAlloc 1), (LScan 1 0 0 0); reflexivity) H).
  - apply (H4 1%nat (Wait (PAlloc 2))); [reflexivity|discriminate].
Defined.
