(* ===== verification/Console.v ===== *)
(** The console: the glyphs of the frame buffer ([kernel/xeret/fb_console.c],
    [font8x16.h]) and the serial port ([serial.c]). The frame buffer is byte
    memory; the theory shows that it displays a grid of characters. *)

From S2P Require Import Prelude.
From S2P Require Import Bytes.
From S2P Require Import Physical.

(** * Serial port *)

Module Serial.

Definition COM1 : Z := 0x3F8.

(** Port accesses: a write, or a read and the value it gave. *)
Inductive io := Out (port v : Z) | In (port v : Z).

(** [line k] is the line status at the [k]-th read. *)
Section Port.
Variable line : nat -> Z.

Definition serial_init : list io :=
  [Out (COM1 + 1) 0x00; Out (COM1 + 3) 0x80; Out (COM1 + 0) 0x01; Out (COM1 + 1) 0x00; Out (COM1 + 3) 0x03; Out (COM1 + 2) 0xC7; Out (COM1 + 4) 0x0B].

(** The bounded wait, [fuel] reads at most from read [k] on. *)
Fixpoint wait_line (fuel : nat) (k : nat) : list io :=
  match fuel with
  | O => []
  | S fuel => In (COM1 + 5) (line k) :: (if tst (line k .& 0x20) then [] else wait_line fuel (S k))
  end.

Definition serial_putc (k : nat) (c : Z) : list io := wait_line (Z.to_nat 100000) k ++ [Out COM1 (u8 c)].

Definition is_read (e : io) : bool := match e with In _ _ => true | Out _ _ => false end.
Definition reads (l : list io) : nat := length (filter (fun e => is_read e = true) l).

Fixpoint serial_puts (k : nat) (s : list Z) : list io :=
  match s with
  | [] => []
  | c :: s =>
    let a := if c =? 10 then serial_putc k 13 else [] in
    let b := serial_putc (k + reads a) c in
    a ++ b ++ serial_puts (k + reads a + reads b) s
  end.

Definition hex_digits : list Z := [48; 49; 50; 51; 52; 53; 54; 55; 56; 57; 65; 66; 67; 68; 69; 70].

Fixpoint hex_loop (n : nat) (k : nat) (v shift : Z) : list io :=
  match n with
  | O => []
  | S n => let a := serial_putc k (nthZ hex_digits ((v .>> shift) .& 0xF)) in a ++ hex_loop n (k + reads a) v (shift - 4)
  end.

Definition serial_hex (k : nat) (v : Z) : list io :=
  let a := serial_putc k 48 in
  let b := serial_putc (k + reads a) 120 in
  a ++ b ++ hex_loop 16 (k + reads a + reads b) v 60.

(** The bytes that go out on the line. *)
Definition sent (l : list io) : list Z := omap (fun e => match e with Out p v => if p =? COM1 then Some v else None | In _ _ => None end) l.

(** Text with carriage returns before line feeds. *)
Definition crlf (s : list Z) : list Z := concat ((fun c => if c =? 10 then [13; u8 c] else [u8 c]) <$> s).

Lemma sent_wait fuel : forall k, sent (wait_line fuel k) = [] /\ (length (wait_line fuel k) <= fuel)%nat.
Proof.
  induction fuel as [|fuel IH]; intros k; cbn [wait_line]; [done|]. destruct (IH (S k)) as [H1 H2].
  destruct (tst _); cbn; [split; [done|lia]|]. split; [exact H1|lia].
Qed.

Lemma sent_app a b : sent (a ++ b) = sent a ++ sent b.
Proof. apply omap_app. Qed.

Lemma sent_putc k c : sent (serial_putc k c) = [u8 c].
Proof. unfold serial_putc. rewrite sent_app. by rewrite (proj1 (sent_wait _ k)). Qed.

(** Printing sends the text, whatever the line status does, and ends: at most
    100000 reads for each byte. *)
Lemma serial_puts_sent s : forall k, sent (serial_puts k s) = crlf s.
Proof.
  induction s as [|c s IH]; intros k; [done|]. cbn [serial_puts crlf]. rewrite !sent_app, IH, sent_putc. unfold crlf. cbn [fmap list_fmap concat].
  destruct (c =? 10); [by rewrite sent_putc|done].
Qed.
End Port.
End Serial.

(** * Font *)

Definition FONT_FIRST_CHAR : Z := 32.
Definition FONT_LAST_CHAR : Z := 126.
Definition FONT_CELL_W : Z := 8.
Definition FONT_CELL_H : Z := 16.

Definition font8x16 : list (list Z) :=
  [[0; 0; 0; 0; 0; 0; 0; 0; 0; 0; 0; 0; 0; 0; 0; 0];
  [0; 0; 0; 0; 24; 24; 24; 24; 24; 16; 0; 24; 0; 0; 0; 0];
  [0; 0; 0; 0; 44; 44; 36; 0; 0; 0; 0; 0; 0; 0; 0; 0];
  [0; 0; 0; 0; 22; 20; 127; 36; 44; 254; 40; 72; 0; 0; 0; 0];
  [0; 0; 0; 24; 60; 96; 96; 60; 14; 2; 62; 60; 0; 0; 0; 0];
  [0; 0; 0; 0; 112; 144; 80; 44; 44; 10; 27; 14; 0; 0; 0; 0];
  [0; 0; 0; 24; 32; 32; 32; 48; 91; 202; 70; 110; 58; 0; 0; 0];
  [0; 0; 0; 0; 24; 24; 16; 0; 0; 0; 0; 0; 0; 0; 0; 0];
  [0; 0; 0; 8; 24; 16; 16; 16; 16; 16; 16; 24; 8; 0; 0; 0];
  [0; 0; 0; 16; 16; 24; 8; 8; 8; 8; 24; 16; 16; 0; 0; 0];
  [0; 0; 0; 0; 16; 56; 56; 16; 0; 0; 0; 0; 0; 0; 0; 0];
  [0; 0; 0; 0; 0; 24; 24; 126; 24; 24; 24; 0; 0; 0; 0; 0];
  [0; 0; 0; 0; 0; 0; 24; 24; 16; 16; 0; 0; 0; 0; 0; 0];
  [0; 0; 0; 0; 0; 0; 60; 0; 0; 0; 0; 0; 0; 0; 0; 0];
  [0; 0; 0; 0; 0; 0; 0; 24; 24; 0; 0; 0; 0; 0; 0; 0];
  [0; 0; 0; 6; 4; 12; 8; 24; 16; 48; 32; 96; 64; 0; 0; 0];
  [0; 0; 0; 24; 44; 102; 70; 66; 90; 70; 102; 44; 24; 0; 0; 0];
  [0; 0; 0; 24; 56; 8; 8; 8; 8; 8; 8; 62; 62; 0; 0; 0];
  [0; 0; 0; 56; 108; 6; 6; 4; 8; 16; 32; 124; 60; 0; 0; 0];
  [0; 0; 0; 56; 108; 6; 4; 28; 12; 6; 6; 108; 56; 0; 0; 0];
  [0; 0; 0; 4; 12; 28; 52; 36; 68; 126; 126; 4; 4; 0; 0; 0];
  [0; 0; 0; 60; 96; 96; 120; 12; 6; 6; 6; 124; 48; 0; 0; 0];
  [0; 0; 0; 28; 52; 96; 88; 124; 102; 66; 102; 36; 24; 0; 0; 0];
  [0; 0; 0; 124; 126; 4; 12; 12; 8; 24; 16; 48; 0; 0; 0; 0];
  [0; 0; 0; 56; 100; 102; 102; 60; 36; 70; 70; 102; 56; 0; 0; 0];
  [0; 0; 0; 56; 108; 70; 70; 102; 62; 22; 6; 12; 56; 0; 0; 0];
  [0; 0; 0; 0; 0; 24; 0; 0; 0; 24; 24; 0; 0; 0; 0; 0];
  [0; 0; 0; 0; 24; 24; 0; 0; 0; 24; 16; 16; 0; 0; 0; 0];
  [0; 0; 0; 0; 0; 14; 56; 96; 56; 14; 0; 0; 0; 0; 0; 0];
  [0; 0; 0; 0; 0; 126; 0; 126; 126; 0; 0; 0; 0; 0; 0; 0];
  [0; 0; 0; 0; 0; 112; 28; 6; 28; 112; 0; 0; 0; 0; 0; 0];
  [0; 0; 0; 56; 44; 6; 4; 8; 24; 16; 0; 16; 16; 0; 0; 0];
  [0; 0; 0; 62; 98; 78; 210; 146; 146; 218; 72; 96; 28; 0; 0; 0];
  [0; 0; 0; 16; 24; 56; 44; 36; 36; 126; 102; 66; 2; 0; 0; 0];
  [0; 0; 0; 56; 124; 102; 102; 124; 102; 98; 98; 126; 56; 0; 0; 0];
  [0; 0; 0; 28; 54; 96; 96; 64; 64; 96; 96; 54; 28; 0; 0; 0];
  [0; 0; 0; 48; 124; 70; 70; 70; 70; 70; 70; 124; 48; 0; 0; 0];
  [0; 0; 0; 60; 124; 96; 96; 124; 96; 96; 96; 126; 62; 0; 0; 0];
  [0; 0; 0; 62; 62; 32; 32; 60; 32; 32; 32; 32; 32; 0; 0; 0];
  [0; 0; 0; 28; 54; 96; 64; 64; 78; 66; 98; 54; 28; 0; 0; 0];
  [0; 0; 0; 64; 70; 70; 70; 126; 102; 66; 70; 70; 64; 0; 0; 0];
  [0; 0; 0; 60; 60; 24; 24; 24; 24; 24; 24; 60; 60; 0; 0; 0];
  [0; 0; 0; 28; 12; 4; 4; 4; 4; 4; 4; 124; 48; 0; 0; 0];
  [0; 0; 0; 66; 70; 76; 88; 112; 120; 76; 68; 70; 66; 0; 0; 0];
  [0; 0; 0; 0; 96; 96; 96; 96; 96; 96; 96; 126; 62; 0; 0; 0];
  [0; 0; 0; 66; 102; 102; 110; 90; 90; 66; 66; 66; 66; 0; 0; 0];
  [0; 0; 0; 64; 102; 114; 114; 82; 74; 78; 78; 70; 68; 0; 0; 0];
  [0; 0; 0; 24; 44; 102; 70; 66; 66; 70; 102; 44; 24; 0; 0; 0];
  [0; 0; 0; 56; 126; 98; 98; 102; 124; 96; 96; 96; 0; 0; 0; 0];
  [0; 0; 24; 60; 102; 70; 66; 66; 66; 102; 100; 60; 4; 0; 0; 0];
  [0; 0; 0; 56; 124; 70; 70; 108; 124; 68; 70; 66; 64; 0; 0; 0];
  [0; 0; 0; 28; 100; 64; 96; 56; 28; 6; 2; 102; 56; 0; 0; 0];
  [0; 0; 0; 126; 126; 24; 24; 24; 24; 24; 24; 24; 0; 0; 0; 0];
  [0; 0; 0; 66; 70; 70; 70; 70; 70; 70; 102; 60; 24; 0; 0; 0];
  [0; 0; 0; 66; 66; 70; 102; 36; 36; 44; 56; 24; 16; 0; 0; 0];
  [0; 0; 0; 0; 195; 194; 90; 90; 90; 110; 102; 102; 4; 0; 0; 0];
  [0; 0; 0; 66; 102; 36; 60; 24; 24; 60; 36; 66; 2; 0; 0; 0];
  [0; 0; 0; 66; 70; 36; 44; 24; 24; 24; 24; 24; 0; 0; 0; 0];
  [0; 0; 0; 62; 62; 4; 12; 8; 24; 48; 32; 126; 62; 0; 0; 0];
  [0; 0; 24; 24; 16; 16; 16; 16; 16; 16; 16; 16; 24; 24; 0; 0];
  [0; 0; 0; 64; 96; 32; 48; 16; 24; 8; 12; 4; 6; 0; 0; 0];
  [0; 0; 16; 24; 8; 8; 8; 8; 8; 8; 8; 8; 24; 16; 0; 0];
  [0; 0; 0; 16; 56; 36; 66; 0; 0; 0; 0; 0; 0; 0; 0; 0];
  [0; 0; 0; 0; 0; 0; 0; 0; 254; 254; 0; 0; 0; 0; 0; 0];
  [0; 0; 0; 48; 16; 0; 0; 0; 0; 0; 0; 0; 0; 0; 0; 0];
  [0; 0; 0; 0; 56; 36; 6; 62; 102; 70; 126; 16; 0; 0; 0; 0];
  [0; 0; 0; 64; 96; 104; 124; 102; 98; 98; 102; 116; 24; 0; 0; 0];
  [0; 0; 0; 0; 28; 54; 32; 96; 96; 32; 62; 12; 0; 0; 0; 0];
  [0; 0; 0; 4; 6; 22; 62; 102; 70; 70; 70; 110; 56; 0; 0; 0];
  [0; 0; 0; 0; 24; 38; 66; 126; 64; 96; 62; 24; 0; 0; 0; 0];
  [0; 0; 0; 14; 24; 24; 126; 16; 16; 16; 16; 16; 0; 0; 0; 0];
  [0; 0; 0; 56; 110; 70; 70; 70; 102; 62; 6; 44; 56; 0; 0; 0];
  [0; 0; 0; 96; 96; 104; 124; 102; 102; 102; 102; 102; 0; 0; 0; 0];
  [0; 0; 0; 24; 8; 0; 56; 24; 24; 24; 24; 62; 60; 0; 0; 0];
  [0; 0; 8; 0; 48; 56; 8; 8; 8; 8; 8; 8; 24; 112; 0; 0];
  [0; 0; 0; 32; 32; 32; 36; 40; 56; 40; 36; 38; 2; 0; 0; 0];
  [0; 0; 0; 112; 16; 16; 16; 16; 16; 16; 16; 28; 12; 0; 0; 0];
  [0; 0; 0; 0; 4; 126; 90; 90; 90; 90; 90; 0; 0; 0; 0; 0];
  [0; 0; 0; 0; 8; 124; 102; 102; 102; 102; 102; 0; 0; 0; 0; 0];
  [0; 0; 0; 0; 24; 44; 102; 66; 70; 102; 60; 24; 0; 0; 0; 0];
  [0; 0; 0; 24; 116; 102; 98; 98; 102; 124; 104; 96; 64; 0; 0; 0];
  [0; 0; 0; 24; 46; 102; 70; 70; 102; 62; 22; 6; 6; 0; 0; 0];
  [0; 0; 0; 0; 4; 62; 48; 48; 48; 48; 48; 0; 0; 0; 0; 0];
  [0; 0; 0; 0; 28; 36; 96; 56; 12; 6; 124; 24; 0; 0; 0; 0];
  [0; 0; 0; 16; 16; 124; 124; 16; 16; 16; 16; 28; 0; 0; 0; 0];
  [0; 0; 0; 0; 0; 102; 102; 102; 102; 102; 62; 16; 0; 0; 0; 0];
  [0; 0; 0; 0; 66; 70; 100; 36; 44; 56; 24; 0; 0; 0; 0; 0];
  [0; 0; 0; 0; 0; 195; 66; 90; 126; 102; 36; 0; 0; 0; 0; 0];
  [0; 0; 0; 0; 64; 100; 60; 24; 24; 36; 102; 0; 0; 0; 0; 0];
  [0; 0; 0; 66; 102; 36; 36; 60; 24; 24; 16; 48; 32; 0; 0; 0];
  [0; 0; 0; 0; 60; 60; 12; 8; 16; 32; 124; 0; 0; 0; 0; 0];
  [0; 0; 12; 24; 24; 24; 24; 48; 16; 24; 24; 24; 12; 4; 0; 0];
  [0; 0; 24; 24; 24; 24; 24; 24; 24; 24; 24; 24; 24; 24; 0; 0];
  [0; 0; 48; 16; 24; 24; 24; 12; 8; 24; 24; 24; 48; 32; 0; 0];
  [0; 0; 0; 0; 0; 32; 126; 0; 0; 0; 0; 0; 0; 0; 0; 0]].

(** * Frame buffer *)

Module Fb.

Definition FB_COLOR_WHITE : Z := 0x00FFFFFF.
Definition FB_COLOR_BLACK : Z := 0.

(** The static variables of the console and the memory of the frame buffer. *)
Record Console := mkCon { fb_info : FramebufferInfo; cols : Z; rows : Z; cursor_col : Z; cursor_row : Z; vram : Z -> Z }.
Implicit Types (st : Console) (m : Z -> Z).

Definition set_vram st m : Console := mkCon (fb_info st) (cols st) (rows st) (cursor_col st) (cursor_row st) m.
Definition set_cursor st c r : Console := mkCon (fb_info st) (cols st) (rows st) c r (vram st).

Definition pack_pixel (info : FramebufferInfo) (rgb : Z) : Z :=
  let r := u8 ((rgb .>> 16) .& 0xFF) in
  let g := u8 ((rgb .>> 8) .& 0xFF) in
  let b := u8 (rgb .& 0xFF) in
  if pixel_format info =? 1 then (b .| (g .<< 8)) .| (r .<< 16) else (r .| (g .<< 8)) .| (b .<< 16).

(** A 32-bit store, least byte first. *)
Definition store32 m (a v : Z) : Z -> Z :=
  upd (upd (upd (upd m a (u8 v)) (a + 1) (u8 (v .>> 8))) (a + 2) (u8 (v .>> 16))) (a + 3) (u8 (v .>> 24)).

Definition put_pixel (info : FramebufferInfo) (x y rgb : Z) m : Z -> Z :=
  if (fb_width info <=? x) || (fb_height info <=? y) then m else
  store32 m (u64 (fb_base info + u64 (y * pixels_per_scanline info * 4)) + 4 * x) (pack_pixel info rgb).

(** The loops over all pixels of rows [lo], ... *)
Definition black_rows (info : FramebufferInfo) (lo n : Z) m : Z -> Z :=
  for_range lo n (fun y m => for_range 0 (fb_width info) (fun x m => put_pixel info x y FB_COLOR_BLACK m) m) m.

Definition scroll_fb (info : FramebufferInfo) m : Z -> Z :=
  let base := fb_base info in
  let stride := u32 (pixels_per_scanline info * 4) in
  let row_px := FONT_CELL_H in
  let move_bytes := u64 (u32 (fb_height info - row_px) * stride) in
  let m := for_range 0 move_bytes (fun i m => upd m (base + i) (m (base + (i + u64 (row_px * stride))))) m in
  black_rows info (u32 (fb_height info - row_px)) (fb_height info - u32 (fb_height info - row_px)) m.

Definition glyph_of (c : Z) : list Z :=
  if (FONT_FIRST_CHAR <=? c) && (c <=? FONT_LAST_CHAR) then default (replicate 16 0) (font8x16 !! Z.to_nat (c - FONT_FIRST_CHAR)) else replicate 16 0.

Definition draw_glyph (info : FramebufferInfo) (cell_col cell_row c fg bg : Z) m : Z -> Z :=
  let ox := u32 (cell_col * FONT_CELL_W) in
  let oy := u32 (cell_row * FONT_CELL_H) in
  let glyph := glyph_of c in
  for_range 0 FONT_CELL_H (fun ry m =>
    let bits := nthZ glyph ry in
    for_range 0 FONT_CELL_W (fun rx m =>
      let on := (bits .>> (7 - rx)) .& 1 in
      put_pixel info (u32 (ox + rx)) (u32 (oy + ry)) (if tst on then fg else bg) m) m) m.

Definition fb_console_init (info : FramebufferInfo) st : Console :=
  mkCon info (fb_width info / FONT_CELL_W) (fb_height info / FONT_CELL_H) 0 0 (black_rows info 0 (fb_height info) (vram st)).

(** Scrolls when the cursor has left the last row. *)
Definition wrap_row st : Console :=
  if rows st <=? cursor_row st then set_cursor (set_vram st (scroll_fb (fb_info st) (vram st))) (cursor_col st) (u32 (rows st - 1)) else st.

Definition advance_cursor st : Console :=
  let st := set_cursor st (u32 (cursor_col st + 1)) (cursor_row st) in
  let st := if cols st <=? cursor_col st then set_cursor st 0 (u32 (cursor_row st + 1)) else st in
  wrap_row st.

Definition xk_clear st : Console := set_cursor (set_vram st (black_rows (fb_info st) 0 (fb_height (fb_info st)) (vram st))) 0 0.

Definition xk_putchar st (c : Z) : Console :=
  if c =? 10 then wrap_row (set_cursor st 0 (u32 (cursor_row st + 1))) else
  if c =? 8 then
    let st :=
      if 0 <? cursor_col st then set_cursor st (cursor_col st - 1) (cursor_row st) else
      if 0 <? cursor_row st then set_cursor st (u32 (cols st - 1)) (cursor_row st - 1) else st in
    set_vram st (draw_glyph (fb_info st) (cursor_col st) (cursor_row st) 32 FB_COLOR_WHITE FB_COLOR_BLACK (vram st))
  else
    advance_cursor (set_vram st (draw_glyph (fb_info st) (cursor_col st) (cursor_row st) c FB_COLOR_WHITE FB_COLOR_BLACK (vram st))).

(** Text goes to the serial port and to the screen. *)
Definition xk_print (line : nat -> Z) (k : nat) st (str : list Z) : list Serial.io * Console :=
  (Serial.serial_puts line k str, fold_left xk_putchar str st).

Definition xk_println (line : nat -> Z) (k : nat) st (str : list Z) : list Serial.io * Console :=
  let '(l, st) := xk_print line k st str in (l, xk_putchar st 10).

(** * A grid of characters *)

Record Text := mkText { t_col : Z; t_row : Z; t_cell : Z -> Z -> Z }.

Definition newline (w h : Z) (T : Text) : Text :=
  if h <=? t_row T + 1 then mkText 0 (h - 1) (fun c r => if r =? h - 1 then 32 else t_cell T c (r + 1)) else mkText 0 (t_row T + 1) (t_cell T).

Definition set_cell (T : Text) (ch : Z) : Text :=
  mkText (t_col T) (t_row T) (fun c r => if (c =? t_col T) && (r =? t_row T) then ch else t_cell T c r).

(** The terminal: [w] columns, [h] rows. *)
Definition text_putchar (w h : Z) (T : Text) (ch : Z) : Text :=
  if ch =? 10 then newline w h T else
  if ch =? 8 then
    set_cell (if 0 <? t_col T then mkText (t_col T - 1) (t_row T) (t_cell T) else if 0 <? t_row T then mkText (w - 1) (t_row T - 1) (t_cell T) else T) 32
  else let T := set_cell T ch in if w <=? t_col T + 1 then newline w h T else mkText (t_col T + 1) (t_row T) (t_cell T).

(** ** Pixels *)

Record fb_ok (info : FramebufferInfo) : Prop := {
  fo_w : 8 <= fb_width info <= pixels_per_scanline info; fo_h : 16 <= fb_height info < 2 ^ 32;
  fo_stride : pixels_per_scanline info * 4 < 2 ^ 32;
  fo_base : 0 <= fb_base info; fo_end : fb_base info + fb_height info * (pixels_per_scanline info * 4) <= 2 ^ 64 }.

Section Pixels.
Context (info : FramebufferInfo) (Ok : fb_ok info).
Abbreviation WW := (fb_width info).
Abbreviation HH := (fb_height info).
Abbreviation S4 := (pixels_per_scanline info * 4).

Definition pix_addr (x y : Z) : Z := fb_base info + y * S4 + 4 * x.
Definition pix m (x y : Z) : list Z := m <$> seqZ (pix_addr x y) 4.
Definition colour (rgb : Z) : list Z := let v := pack_pixel info rgb in [u8 v; u8 (v .>> 8); u8 (v .>> 16); u8 (v .>> 24)].

(** The two memories agree outside the frame buffer. *)
Definition same_outside m m' : Prop := forall a, ~ (fb_base info <= a < fb_base info + HH * S4) -> m' a = m a.

Lemma pix_bytes m x y : pix m x y = [m (pix_addr x y); m (pix_addr x y + 1); m (pix_addr x y + 2); m (pix_addr x y + 3)].
Proof. unfold pix. rewrite !seqZ_cons by lia. rewrite seqZ_nil by lia. cbn [fmap list_fmap]. repeat f_equal; lia. Qed.

Lemma store32_at m a v b : store32 m a v b =
  if b =? a then u8 v else if b =? a + 1 then u8 (v .>> 8) else if b =? a + 2 then u8 (v .>> 16) else if b =? a + 3 then u8 (v .>> 24) else m b.
Proof. unfold store32, upd. repeat case_decide; repeat (case_match; unbool); try lia; done. Qed.

Lemma pix_apart x y x' y' : 0 <= x < WW -> 0 <= x' < WW -> (x, y) <> (x', y') -> pix_addr x y + 4 <= pix_addr x' y' \/ pix_addr x' y' + 4 <= pix_addr x y.
Proof.
  intros Hx Hx' Hne. unfold pix_addr. pose proof (fo_w info Ok).
  destruct (Z.lt_trichotomy y y') as [Hy|[Hy|Hy]].
  - left. assert (y * S4 + S4 <= y' * S4) by nia. lia.
  - subst. assert (x <> x') by congruence. lia.
  - right. assert (y' * S4 + S4 <= y * S4) by nia. lia.
Qed.

Lemma pix_inside x y : 0 <= x < WW -> 0 <= y < HH -> fb_base info <= pix_addr x y /\ pix_addr x y + 4 <= fb_base info + HH * S4.
Proof.
  intros Hx Hy. unfold pix_addr. pose proof (fo_w info Ok). assert (0 <= y * S4) by nia. assert (y * S4 + S4 <= HH * S4) by nia. lia.
Qed.

Lemma put_pixel_store x y c m : 0 <= x < WW -> 0 <= y < HH -> put_pixel info x y c m = store32 m (pix_addr x y) (pack_pixel info c).
Proof.
  intros Hx Hy. pose proof (pix_inside x y Hx Hy) as Hin. pose proof (fo_end info Ok). pose proof (fo_base info Ok). pose proof (fo_w info Ok).
  unfold put_pixel. destruct (Z.leb_spec WW x); [lia|]. destruct (Z.leb_spec HH y); [lia|]. cbn [orb].
  unfold pix_addr in *. replace (y * pixels_per_scanline info * 4) with (y * S4) by ring. assert (0 <= y * S4) by nia.
  rewrite (u64_small (y * S4)) by lia. rewrite u64_small by lia. done.
Qed.

Lemma put_pixel_pix x y c m x' y' : 0 <= x < WW -> 0 <= y < HH -> 0 <= x' < WW ->
  pix (put_pixel info x y c m) x' y' = if (x' =? x) && (y' =? y) then colour c else pix m x' y'.
Proof.
  intros Hx Hy Hx'. rewrite put_pixel_store by done. rewrite !pix_bytes, !store32_at.
  destruct (decide ((x, y) = (x', y'))) as [[= <- <-]|Hne].
  - unfold colour. rewrite !Z.eqb_refl. repeat (case_match; unbool; try lia). done.
  - replace ((x' =? x) && (y' =? y)) with false by (symmetry; apply andb_false_iff; rewrite !Z.eqb_neq; destruct (decide (x' = x)); [right|left]; congruence).
    pose proof (pix_apart _ _ _ _ Hx Hx' Hne). repeat (case_match; unbool; try lia). done.
Qed.

Lemma put_pixel_outside x y c m : 0 <= x < WW -> 0 <= y < HH -> same_outside m (put_pixel info x y c m).
Proof.
  intros Hx Hy a Ha. rewrite put_pixel_store by done. pose proof (pix_inside x y Hx Hy). rewrite store32_at. repeat (case_match; unbool; try lia); try done.
Qed.

Lemma same_outside_refl m : same_outside m m.
Proof. by intros a _. Qed.

Lemma same_outside_trans m1 m2 m3 : same_outside m1 m2 -> same_outside m2 m3 -> same_outside m1 m3.
Proof. intros H1 H2 a Ha. by rewrite H2, H1. Qed.

(** Painting the rectangle [w] by [h] at [(ox, oy)]. *)
Definition paint (ox oy w h : Z) (f : Z -> Z -> Z) m : Z -> Z :=
  for_range 0 h (fun ry m => for_range 0 w (fun rx m => put_pixel info (ox + rx) (oy + ry) (f rx ry) m) m) m.

Definition in_rect (ox oy w h x y : Z) : bool := (ox <=? x) && (x <? ox + w) && (oy <=? y) && (y <? oy + h).

Lemma paint_row ox oy w ry f m : 0 <= ox -> ox + w <= WW -> 0 <= w -> 0 <= oy + ry < HH ->
  let m' := for_range 0 w (fun rx m => put_pixel info (ox + rx) (oy + ry) (f rx ry) m) m in
  same_outside m m' /\ forall x y, 0 <= x < WW -> pix m' x y = if in_rect ox (oy + ry) w 1 x y then colour (f (x - ox) ry) else pix m x y.
Proof.
  intros Hox Hw Hw0 Hy. cbv zeta. apply (for_range_inv (fun k m' => same_outside m m' /\
    forall x y, 0 <= x < WW -> pix m' x y = if in_rect ox (oy + ry) k 1 x y then colour (f (x - ox) ry) else pix m x y)); [done| |].
  - split; [apply same_outside_refl|]. intros x y Hx. unfold in_rect. zcase; done.
  - intros k m' Hk [Ho Hp]. rewrite Z.add_0_l. split.
    + eapply same_outside_trans; [exact Ho|]. apply put_pixel_outside; lia.
    + intros x y Hx. rewrite put_pixel_pix by lia. rewrite Hp by done. unfold in_rect.
      destruct (Z.eqb_spec x (ox + k)) as [->|]; destruct (Z.eqb_spec y (oy + ry)) as [->|]; cbn [andb];
        zcase; try done; by replace (ox + k - ox) with k by lia.
Qed.

Lemma paint_spec ox oy w h f m : 0 <= ox -> ox + w <= WW -> 0 <= w -> 0 <= oy -> 0 <= h -> oy + h <= HH ->
  same_outside m (paint ox oy w h f m) /\
  forall x y, 0 <= x < WW -> pix (paint ox oy w h f m) x y = if in_rect ox oy w h x y then colour (f (x - ox) (y - oy)) else pix m x y.
Proof.
  intros. unfold paint. apply (for_range_inv (fun k m' => same_outside m m' /\
    forall x y, 0 <= x < WW -> pix m' x y = if in_rect ox oy w k x y then colour (f (x - ox) (y - oy)) else pix m x y)); [done| |].
  - split; [apply same_outside_refl|]. intros x y Hx. unfold in_rect. zcase; done.
  - intros k m' Hk [Ho Hp]. rewrite Z.add_0_l. destruct (paint_row ox oy w k f m') as [Ho' Hp']; [lia..|]. split.
    + by eapply same_outside_trans.
    + intros x y Hx. rewrite Hp', Hp by done. unfold in_rect.
      destruct (Z.eqb_spec y (oy + k)) as [->|]; zcase; try done; by replace (oy + k - oy) with k by lia.
Qed.

Lemma for_range_shift {S} (lo n : Z) (f : Z -> S -> S) s : for_range lo n f s = for_range 0 n (fun k => f (lo + k)) s.
Proof.
  unfold for_range. replace (seqZ lo n) with (Z.add lo <$> seqZ 0 n) by (rewrite fmap_add_seqZ; f_equal; lia). generalize (seqZ 0 n). intros l. revert s.
  induction l as [|i l IH]; intros s; [done|]. cbn [fmap list_fmap fold_left]. apply IH.
Qed.

Lemma for_range_ext {S} (n : Z) (f g : Z -> S -> S) s : (forall k s, 0 <= k < n -> f k s = g k s) -> for_range 0 n f s = for_range 0 n g s.
Proof.
  intros Hfg. destruct (Z.le_gt_cases n 0); [by rewrite !for_range_0 by lia|].
  apply (for_range_inv (fun k s' => s' = for_range 0 k g s)); [lia|by rewrite for_range_0 by lia|].
  intros k s' Hk ->. rewrite Z.add_0_l, Hfg by lia. unfold for_range. rewrite seqZ_app by lia. rewrite fold_left_app, Z.add_0_l. done.
Qed.

Lemma black_rows_paint lo n m : black_rows info lo n m = paint 0 lo WW n (fun _ _ => FB_COLOR_BLACK) m.
Proof. unfold black_rows, paint. by rewrite for_range_shift. Qed.

Definition cell_colour (c rx ry : Z) : Z := if tst ((nthZ (glyph_of c) ry .>> (7 - rx)) .& 1) then FB_COLOR_WHITE else FB_COLOR_BLACK.

Lemma draw_glyph_paint cc cr c m : 0 <= cc < WW / 8 -> 0 <= cr < HH / 16 ->
  draw_glyph info cc cr c FB_COLOR_WHITE FB_COLOR_BLACK m = paint (cc * 8) (cr * 16) 8 16 (cell_colour c) m.
Proof.
  intros Hc Hr. pose proof (fo_w info Ok). pose proof (fo_h info Ok). pose proof (fo_stride info Ok).
  pose proof (Z.mul_div_le WW 8 ltac:(lia)). pose proof (Z.mul_div_le HH 16 ltac:(lia)).
  unfold draw_glyph, FONT_CELL_W, FONT_CELL_H. rewrite (u32_small (cc * 8)), (u32_small (cr * 16)) by lia.
  unfold paint. apply for_range_ext. intros ry m1 Hry. apply for_range_ext. intros rx m2 Hrx. by rewrite !u32_small by lia.
Qed.

(** A scroll moves every line of pixels up by a cell and blanks the last. *)
Lemma copy_up d n m : 0 <= d -> 0 <= n ->
  forall a, for_range 0 n (fun i m => upd m (fb_base info + i) (m (fb_base info + (i + d)))) m a =
            if (fb_base info <=? a) && (a <? fb_base info + n) then m (a + d) else m a.
Proof.
  intros Hd Hn. apply (for_range_inv (fun k m' => forall a, m' a = if (fb_base info <=? a) && (a <? fb_base info + k) then m (a + d) else m a)); [done| |].
  - intros a. zcase; done.
  - intros k m' Hk Hm a. rewrite Z.add_0_l. unfold upd. rewrite !Hm. case_decide as Ha.
    + subst a. zcase; try done; f_equal; lia.
    + zcase; done.
Qed.

Lemma scroll_spec m : same_outside m (scroll_fb info m) /\
  forall x y, 0 <= x < WW -> 0 <= y < HH -> pix (scroll_fb info m) x y = if y <? HH - 16 then pix m x (y + 16) else colour FB_COLOR_BLACK.
Proof.
  pose proof (fo_w info Ok). pose proof (fo_h info Ok). pose proof (fo_stride info Ok). pose proof (fo_base info Ok). pose proof (fo_end info Ok).
  assert (HH * S4 = (HH - 16) * S4 + 16 * S4) as Hsplit by ring. assert (0 <= (HH - 16) * S4) by nia.
  unfold scroll_fb, FONT_CELL_H. rewrite (u32_small S4), (u32_small (HH - 16)) by lia. rewrite (u64_small ((HH - 16) * S4)), (u64_small (16 * S4)) by lia.
  rewrite black_rows_paint. set (m1 := for_range _ _ _ m).
  assert (forall a, m1 a = if (fb_base info <=? a) && (a <? fb_base info + (HH - 16) * S4) then m (a + 16 * S4) else m a) as Hm1 by (apply copy_up; lia).
  destruct (paint_spec 0 (HH - 16) WW (HH - (HH - 16)) (fun _ _ => FB_COLOR_BLACK) m1) as [Ho Hp]; [lia..|]. split.
  - eapply same_outside_trans; [|exact Ho]. intros a Ha. rewrite Hm1. zcase; done.
  - intros x y Hx Hy. rewrite Hp by done. unfold in_rect. destruct (Z.ltb_spec y (HH - 16)) as [Hlt|Hge]; [|zcase; done].
    replace (HH - 16 <=? y) with false by (symmetry; apply Z.leb_gt; lia). rewrite andb_false_r. cbn [andb].
    rewrite !pix_bytes, !Hm1. assert (pix_addr x (y + 16) = pix_addr x y + 16 * S4) as -> by (unfold pix_addr; ring).
    assert (fb_base info <= pix_addr x y /\ pix_addr x y + 4 <= fb_base info + (HH - 16) * S4) as [? ?].
    { unfold pix_addr. assert (0 <= y * S4) by nia. assert (y * S4 + S4 <= (HH - 16) * S4) by nia. lia. }
    repeat f_equal; zcase; f_equal; lia.
Qed.
End Pixels.

(** ** The screen shows the grid *)

Definition text_pixel (w h : Z) (T : Text) (x y : Z) : Z :=
  if (x / 8 <? w) && (y / 16 <? h) then cell_colour (t_cell T (x / 8) (y / 16)) (x mod 8) (y mod 16) else FB_COLOR_BLACK.

Definition on_screen (info : FramebufferInfo) m (T : Text) : Prop :=
  forall x y, 0 <= x < fb_width info -> 0 <= y < fb_height info ->
  pix info m x y = colour info (text_pixel (fb_width info / 8) (fb_height info / 16) T x y).

Record shows (info : FramebufferInfo) st (T : Text) : Prop := {
  sh_info : fb_info st = info; sh_cols : cols st = fb_width info / 8; sh_rows : rows st = fb_height info / 16;
  sh_col : cursor_col st = t_col T; sh_row : cursor_row st = t_row T;
  sh_colb : 0 <= t_col T < fb_width info / 8; sh_rowb : 0 <= t_row T < fb_height info / 16;
  sh_pix : on_screen info (vram st) T }.

Definition blank : Text := mkText 0 0 (fun _ _ => 32).

Lemma cell_colour_space rx ry : 0 <= ry < 16 -> cell_colour 32 rx ry = FB_COLOR_BLACK.
Proof.
  intros Hry. unfold cell_colour. assert (nthZ (glyph_of 32) ry = 0) as ->; [|by rewrite Z.shiftr_0_l].
  change (glyph_of 32) with (replicate 16 0). unfold nthZ. destruct (_ !! _) eqn:E; [|done]. by apply lookup_replicate in E as [-> _].
Qed.

Lemma blank_pixel w h c r x y : text_pixel w h (mkText c r (fun _ _ => 32)) x y = FB_COLOR_BLACK.
Proof. unfold text_pixel. cbn [t_cell]. destruct (_ && _); [|done]. apply cell_colour_space, Z.mod_pos_bound; lia. Qed.

Section Screen.
Context (info : FramebufferInfo) (Ok : fb_ok info).

Lemma screen_dims : 0 < fb_width info / 8 < 2 ^ 32 /\ 0 < fb_height info / 16 < 2 ^ 32.
Proof.
  pose proof (fo_w info Ok). pose proof (fo_h info Ok). pose proof (fo_stride info Ok).
  split; split; try (apply Z.div_str_pos; lia); apply Z.div_lt_upper_bound; lia.
Qed.

Lemma clear_screen m c r : on_screen info (black_rows info 0 (fb_height info) m) (mkText c r (fun _ _ => 32)) /\ same_outside info m (black_rows info 0 (fb_height info) m).
Proof.
  pose proof (fo_w info Ok). pose proof (fo_h info Ok). rewrite black_rows_paint by done.
  destruct (paint_spec info Ok 0 0 (fb_width info) (fb_height info) (fun _ _ => FB_COLOR_BLACK) m) as [Ho Hp]; [lia..|]. split; [|done].
  intros x y Hx Hy. rewrite Hp, blank_pixel by done. unfold in_rect. zcase; done.
Qed.

(** Drawing a character shows it in its cell. *)
Lemma draw_screen T ch m : 0 <= t_col T < fb_width info / 8 -> 0 <= t_row T < fb_height info / 16 -> on_screen info m T ->
  let m' := draw_glyph info (t_col T) (t_row T) ch FB_COLOR_WHITE FB_COLOR_BLACK m in
  on_screen info m' (set_cell T ch) /\ same_outside info m m'.
Proof.
  intros Hc Hr Hs. cbv zeta. rewrite draw_glyph_paint by done.
  pose proof (fo_w info Ok). pose proof (fo_h info Ok). pose proof (Z.mul_div_le (fb_width info) 8 ltac:(lia)). pose proof (Z.mul_div_le (fb_height info) 16 ltac:(lia)).
  destruct (paint_spec info Ok (t_col T * 8) (t_row T * 16) 8 16 (cell_colour ch) m) as [Ho Hp]; [lia..|]. split; [|done].
  intros x y Hx Hy. rewrite Hp, Hs by done. unfold in_rect, text_pixel, set_cell. cbn [t_cell].
  pose proof (Z.div_mod x 8 ltac:(lia)). pose proof (Z.mod_pos_bound x 8 ltac:(lia)). pose proof (Z.div_mod y 16 ltac:(lia)). pose proof (Z.mod_pos_bound y 16 ltac:(lia)).
  destruct (Z.eqb_spec (x / 8) (t_col T)) as [Ex|Ex]; destruct (Z.eqb_spec (y / 16) (t_row T)) as [Ey|Ey]; cbn [andb].
  1: { assert (x - t_col T * 8 = x mod 8) as -> by lia. assert (y - t_row T * 16 = y mod 16) as -> by lia. zcase; done. }
  all: replace ((t_col T * 8 <=? x) && (x <? t_col T * 8 + 8) && (t_row T * 16 <=? y) && (y <? t_row T * 16 + 16)) with false by (zcase; lia); done.
Qed.

Lemma scroll_screen m T : on_screen info m T ->
  let h := fb_height info / 16 in
  on_screen info (scroll_fb info m) (mkText 0 (h - 1) (fun c r => if r =? h - 1 then 32 else t_cell T c (r + 1))) /\ same_outside info m (scroll_fb info m).
Proof.
  intros Hs. cbv zeta. destruct (scroll_spec info Ok m) as [Ho Hp]. split; [|done]. pose proof (fo_h info Ok).
  pose proof (Z.div_mod (fb_height info) 16 ltac:(lia)) as Hd. pose proof (Z.mod_pos_bound (fb_height info) 16 ltac:(lia)).
  set (h := fb_height info / 16) in *.
  intros x y Hx Hy. rewrite Hp by done. unfold text_pixel. cbn [t_cell].
  pose proof (Z.div_mod y 16 ltac:(lia)). pose proof (Z.mod_pos_bound y 16 ltac:(lia)).
  destruct (Z.ltb_spec y (fb_height info - 16)) as [Hlt|Hge].
  - rewrite Hs by lia. unfold text_pixel.
    assert ((y + 16) / 16 = y / 16 + 1) as -> by (rewrite <- (Z.div_add y 1 16) by lia; f_equal; lia).
    assert ((y + 16) mod 16 = y mod 16) as -> by (rewrite <- (Z.mod_add y 1 16) by lia; f_equal; lia).
    destruct (x / 8 <? fb_width info / 8); cbn [andb]; [|done]. fold h. destruct (Z.eqb_spec (y / 16) (h - 1)).
    + zcase; try done. by rewrite cell_colour_space.
    + zcase; done.
  - destruct (_ <? _); cbn [andb]; [|done]. zcase; try done. by rewrite cell_colour_space.
Qed.

Definition steps_to (st : Console) (st' : Console) (T' : Text) : Prop := shows info st' T' /\ same_outside info (vram st) (vram st').

(** The cursor at the start of the next line, the screen scrolled when there
    is none. *)
Lemma newline_shows st T : shows info st T -> steps_to st (wrap_row (set_cursor st 0 (u32 (cursor_row st + 1)))) (newline (cols st) (rows st) T).
Proof.
  intros [Hi Hcs Hrs Hc Hr Hcb Hrb Hp]. pose proof screen_dims as [? ?]. unfold wrap_row, newline.
  rewrite Hr, u32_small by lia. cbn [rows cursor_row set_cursor]. destruct (Z.leb_spec (rows st) (t_row T + 1)).
  - destruct (scroll_screen (vram st) T Hp) as [Hs Ho]. rewrite u32_small by lia. cbn [fb_info set_cursor set_vram cursor_col vram]. rewrite Hi, Hrs.
    split; [|exact Ho]. split; cbn; try done; lia.
  - split; [|apply same_outside_refl]. split; cbn; try done; lia.
Qed.

Lemma draw_shows st T ch : shows info st T ->
  steps_to st (set_vram st (draw_glyph (fb_info st) (cursor_col st) (cursor_row st) ch FB_COLOR_WHITE FB_COLOR_BLACK (vram st))) (set_cell T ch).
Proof.
  intros [Hi Hcs Hrs Hc Hr Hcb Hrb Hp]. rewrite Hi, Hc, Hr. destruct (draw_screen T ch (vram st) Hcb Hrb Hp) as [Hs Ho]. split; [|exact Ho]. by split.
Qed.

Lemma move_shows st T c r : shows info st T -> 0 <= c < fb_width info / 8 -> 0 <= r < fb_height info / 16 ->
  shows info (set_cursor st c r) (mkText c r (t_cell T)).
Proof. intros [Hi Hcs Hrs Hc Hr Hcb Hrb Hp] Hc' Hr'. split; done. Qed.

Lemma putchar_shows st T ch : shows info st T -> steps_to st (xk_putchar st ch) (text_putchar (cols st) (rows st) T ch).
Proof.
  intros Hs. pose proof screen_dims as [? ?]. pose proof Hs as [Hi Hcs Hrs Hc Hr Hcb Hrb Hp]. unfold xk_putchar, text_putchar.
  destruct (ch =? 10); [by apply newline_shows|]. destruct (ch =? 8).
  - rewrite Hc, Hr.
    set (st1 := if 0 <? t_col T then _ else _). set (T1 := if 0 <? t_col T then _ else _).
    assert (shows info st1 T1 /\ vram st1 = vram st) as [H1 Hv].
    { unfold st1, T1. rewrite Hcs. destruct (Z.ltb_spec 0 (t_col T)); [split; [apply move_shows; [done|lia..]|done]|].
      destruct (Z.ltb_spec 0 (t_row T)); [|done]. split; [|done]. rewrite u32_small by lia. apply move_shows; [done|lia..]. }
    pose proof (draw_shows st1 T1 32 H1) as Hd. unfold steps_to in *. by rewrite Hv in Hd |- *.
  - pose proof (draw_shows st T ch Hs) as [Hd Ho]. set (st1 := set_vram _ _) in *. unfold advance_cursor.
    change (cursor_col st1) with (cursor_col st). change (cursor_row st1) with (cursor_row st). rewrite Hc, u32_small by lia.
    cbn [cursor_col cols set_cursor]. change (cols st1) with (cols st). cbn [t_col set_cell]. change (t_col (set_cell T ch)) with (t_col T).
    destruct (Z.leb_spec (cols st) (t_col T + 1)).
    + destruct (newline_shows st1 _ Hd) as [Hn Hno]. split; [exact Hn|by eapply same_outside_trans].
    + unfold wrap_row. cbn [rows cursor_row set_cursor]. change (rows st1) with (rows st).
      destruct (Z.leb_spec (rows st) (cursor_row st)); [lia|]. rewrite Hr. split; [|exact Ho].
      apply (move_shows st1 (set_cell T ch)); [done|lia|exact Hrb].
Qed.

Lemma print_shows s : forall st T, shows info st T -> steps_to st (fold_left xk_putchar s st) (fold_left (text_putchar (fb_width info / 8) (fb_height info / 16)) s T).
Proof.
  induction s as [|ch s IH]; intros st T Hs; [split; [done|apply same_outside_refl]|]. cbn [fold_left].
  destruct (putchar_shows st T ch Hs) as [H1 Ho1]. rewrite (sh_cols _ _ _ Hs), (sh_rows _ _ _ Hs) in H1.
  destruct (IH _ _ H1) as [H2 Ho2]. split; [done|by eapply same_outside_trans].
Qed.

Lemma clear_shows st0 st : fb_info st = info -> cols st = fb_width info / 8 -> rows st = fb_height info / 16 ->
  vram st0 = vram st -> steps_to st0 (xk_clear st) blank.
Proof.
  intros Hi Hc Hr Hv. pose proof screen_dims. destruct (clear_screen (vram st) 0 0) as [Hs Ho]. unfold steps_to, xk_clear. rewrite Hi, Hv.
  split; [|exact Ho]. split; try done; cbn; lia.
Qed.
End Screen.


End Fb.
