(* ===== verification/Kbd.v ===== *)
(** The PS/2 keyboard: scancodes to characters, and lines edited on the console
    ([kernel/xeret/kbd.c]). *)

From S2P Require Import Prelude.
From S2P Require Import Bytes.
From S2P Require Import Console.

Definition ST_OUT_FULL : Z := 0x01.
Definition ST_AUX : Z := 0x20.
Definition SC_LCTRL : Z := 0x1D.
Definition SC_LSHIFT : Z := 0x2A.
Definition SC_RSHIFT : Z := 0x36.
Definition SC_CAPS : Z := 0x3A.
Definition SC_TABLE_N : Z := 0x3A.

Definition map_plain : list Z :=
  [0; 27; 49; 50; 51; 52; 53; 54; 55; 56; 57; 48; 45; 61; 8;
   9; 113; 119; 101; 114; 116; 121; 117; 105; 111; 112; 91; 93; 10;
   0; 97; 115; 100; 102; 103; 104; 106; 107; 108; 59; 39; 96;
   0; 92; 122; 120; 99; 118; 98; 110; 109; 44; 46; 47; 0; 42; 0; 32].

Definition map_shift : list Z :=
  [0; 27; 33; 64; 35; 36; 37; 94; 38; 42; 40; 41; 95; 43; 8;
   9; 81; 87; 69; 82; 84; 89; 85; 73; 79; 80; 123; 125; 10;
   0; 65; 83; 68; 70; 71; 72; 74; 75; 76; 58; 34; 126;
   0; 124; 90; 88; 67; 86; 66; 78; 77; 60; 62; 63; 0; 42; 0; 32].

(** The static variables of the driver. *)
Record Kbd := mkKbd { st_shift : bool; st_caps : bool; st_ctrl : bool; st_ext : bool; st_skip : Z }.
Implicit Types (kb : Kbd).

Definition kbd_reset : Kbd := mkKbd false false false false 0.

(** What the two ports give, one entry for each read of the status: the status
    and the byte that is then in the data register. When the list is over, the
    controller has nothing. *)
Abbreviation Inbox := (list (Z * Z)).

(** ["%X%X "]: the text of the diagnostic trace. *)
Definition kdbg_hex (v : Z) : list Z := [nthZ Serial.hex_digits (v .>> 4); nthZ Serial.hex_digits (v .& 15); 32].

Fixpoint drain (n : nat) (evs : Inbox) : Inbox :=
  match n, evs with
  | S n, (status, _) :: evs => if tst (status .& ST_OUT_FULL) then drain n evs else evs
  | _, _ => evs
  end.

Definition xk_init_keyboard (evs : Inbox) : Kbd * Inbox := (kbd_reset, drain 32 evs).

(** The rest of the loop body once [status] and [sc] are read: the new state
    and the key to return, if any. *)
Definition scan_step kb (status sc : Z) : Kbd * option Z :=
  let 'mkKbd shift caps ctrl ext skip := kb in
  if tst (status .& ST_AUX) then (kb, None) else
  if negb (skip =? 0) then (mkKbd shift caps ctrl ext (skip - 1), None) else
  if sc =? 0xE1 then (mkKbd shift caps ctrl ext 5, None) else
  if sc =? 0xE0 then (mkKbd shift caps ctrl true skip, None) else
  let released := tst (sc .& 0x80) in
  let sc := sc .& 0x7F in
  if ext then (mkKbd shift caps (if sc =? SC_LCTRL then negb released else ctrl) false skip, None) else
  if (sc =? SC_LSHIFT) || (sc =? SC_RSHIFT) then (mkKbd (negb released) caps ctrl ext skip, None) else
  if sc =? SC_LCTRL then (mkKbd shift caps (negb released) ext skip, None) else
  if sc =? SC_CAPS then (mkKbd shift (if released then caps else negb caps) ctrl ext skip, None) else
  if released || (SC_TABLE_N <=? sc) then (kb, None) else
  let plain := nthZ map_plain sc in
  let c :=
    if (97 <=? plain) && (plain <=? 122) then
      let c := if xorb shift caps then nthZ map_shift sc else plain in
      if ctrl then plain .& 0x1F else c
    else if shift then nthZ map_shift sc else plain in
  (kb, if negb (c =? 0) then Some (u8 c) else None).

(** The key, the state, what is left of the input and the diagnostic trace. *)
Fixpoint poll_loop (guard : nat) kb (evs : Inbox) : option Z * Kbd * Inbox * list Z :=
  match guard with
  | O => (None, kb, evs, [])
  | S guard =>
    match evs with
    | [] => (None, kb, [], [])
    | (status, sc) :: evs =>
      if negb (tst (status .& ST_OUT_FULL)) then (None, kb, evs, []) else
      let t := kdbg_hex status ++ kdbg_hex sc ++ [10] in
      match scan_step kb status sc with
      | (kb, Some c) => (Some c, kb, evs, t)
      | (kb, None) => let '(r, kb, evs, t') := poll_loop guard kb evs in (r, kb, evs, t ++ t')
      end
    end
  end.

Definition xk_pollkey kb (evs : Inbox) : option Z * Kbd * Inbox * list Z := poll_loop 64 kb evs.

(** Polls until there is a key; [None] when the input is over before. Each
    poll reads the status at least once, so as many polls as there are entries
    are enough. *)
Fixpoint getkey_loop (fuel : nat) kb (evs : Inbox) : option (Z * Kbd * Inbox * list Z) :=
  let '(r, kb, evs, t) := xk_pollkey kb evs in
  match r with
  | Some c => Some (c, kb, evs, t)
  | None =>
    match fuel with
    | O => None
    | S fuel => '(c, kb, evs, t') ← getkey_loop fuel kb evs; Some (c, kb, evs, t ++ t')
    end
  end.

Definition xk_getkey kb (evs : Inbox) : option (Z * Kbd * Inbox * list Z) := getkey_loop (length evs) kb evs.

(** The state of [xk_readline]: the caller's buffer, its index, the screen. *)
Record Line := mkLine { l_buf : Z -> Z; l_idx : Z; l_con : Fb.Console }.

Fixpoint readline_loop (fuel : nat) (max_chars : Z) kb (evs : Inbox) (L : Line) : option (Line * Kbd * Inbox) :=
  match fuel with
  | O => None
  | S fuel =>
    '(c, kb, evs, _) ← xk_getkey kb evs;
    let 'mkLine buf idx con := L in
    if c =? 10 then Some (mkLine (upd buf idx 0) idx (Fb.xk_putchar con 10), kb, evs) else
    if c =? 8 then
      readline_loop fuel max_chars kb evs (if 0 <? idx then mkLine buf (idx - 1) (Fb.xk_putchar con 8) else L)
    else
      readline_loop fuel max_chars kb evs
        (if (32 <=? c) && (c <=? 126) && (idx <? max_chars - 1) then mkLine (upd buf idx c) (idx + 1) (Fb.xk_putchar con c) else L)
  end.

(** [None] when the input is over before a line feed: the C function then
    waits. *)
Definition xk_readline (max_chars : Z) kb (evs : Inbox) (buf : Z -> Z) (con : Fb.Console) : option (Line * Kbd * Inbox) :=
  readline_loop (S (length evs)) max_chars kb evs (mkLine buf 0 con).

(** * Specification *)

(** The keys in the input, each with the state and the input after it: no
    polling, no gaps, no guard. *)
Fixpoint first_key kb (evs : Inbox) : option (Z * Kbd * Inbox) :=
  match evs with
  | [] => None
  | (status, sc) :: evs =>
    if negb (tst (status .& ST_OUT_FULL)) then first_key kb evs else
    match scan_step kb status sc with
    | (kb, Some c) => Some (c, kb, evs)
    | (kb, None) => first_key kb evs
    end
  end.

Fixpoint keys kb (evs : Inbox) : list Z :=
  match evs with
  | [] => []
  | (status, sc) :: evs =>
    if negb (tst (status .& ST_OUT_FULL)) then keys kb evs else
    let '(kb, r) := scan_step kb status sc in
    match r with Some c => c :: keys kb evs | None => keys kb evs end
  end.

(** The state after all the input. *)
Fixpoint after kb (evs : Inbox) : Kbd :=
  match evs with
  | [] => kb
  | (status, sc) :: evs => if negb (tst (status .& ST_OUT_FULL)) then after kb evs else after (fst (scan_step kb status sc)) evs
  end.

(** A line editor: the text, what it puts on the screen, and the keys after
    the line feed. *)
Fixpoint edit_line (max_chars : Z) (ks text echo : list Z) : option (list Z * list Z * list Z) :=
  match ks with
  | [] => None
  | c :: ks =>
    if c =? 10 then Some (text, echo ++ [10], ks) else
    if c =? 8 then
      if 0 <? lenZ text then edit_line max_chars ks (take (pred (length text)) text) (echo ++ [8]) else edit_line max_chars ks text echo
    else if (32 <=? c) && (c <=? 126) && (lenZ text <? max_chars - 1) then edit_line max_chars ks (text ++ [c]) (echo ++ [c])
    else edit_line max_chars ks text echo
  end.

(** * Polling is decoding *)

Lemma poll_loop_key guard : forall kb evs, let '(r, kb', evs', _) := poll_loop guard kb evs in
  first_key kb evs = match r with Some c => Some (c, kb', evs') | None => first_key kb' evs' end /\
  (length evs' <= length evs - (if guard is O then 0 else 1))%nat.
Proof.
  induction guard as [|guard IH]; intros kb evs; [cbn; split; [done|lia]|].
  destruct evs as [|[status sc] evs]; cbn [poll_loop first_key length]; [split; [done|lia]|].
  destruct (negb _); [split; [done|lia]|]. destruct (scan_step kb status sc) as [kb1 [c|]]; [split; [done|lia]|].
  specialize (IH kb1 evs). destruct (poll_loop guard kb1 evs) as [[[r kb'] evs'] t]. destruct IH as [-> Hl]. split; [done|]. destruct guard; lia.
Qed.

Lemma getkey_first fuel : forall kb evs, (length evs <= fuel)%nat ->
  (fun '(c, kb, evs, _) => (c, kb, evs)) <$> getkey_loop fuel kb evs = first_key kb evs.
Proof.
  induction fuel as [|fuel IH]; intros kb evs Hf; cbn [getkey_loop]; unfold xk_pollkey;
    pose proof (poll_loop_key 64 kb evs) as Hp; destruct (poll_loop 64 kb evs) as [[[[c|] kb'] evs'] t]; destruct Hp as [-> Hl]; try done.
  - destruct evs'; [done|]. cbn in *. lia.
  - rewrite <- (IH kb' evs') by lia. by destruct (getkey_loop fuel kb' evs') as [[[[? ?] ?] ?]|].
Qed.

Lemma first_key_keys evs : forall kb,
  match first_key kb evs with
  | Some (c, kb', evs') => keys kb evs = c :: keys kb' evs' /\ (length evs' < length evs)%nat
  | None => keys kb evs = []
  end.
Proof.
  induction evs as [|[status sc] evs IH]; intros kb; [done|]. cbn [first_key keys length]. destruct (negb _).
  - specialize (IH kb). destruct (first_key kb evs) as [[[? ?] ?]|]; [|done]. destruct IH as [-> ?]. split; [done|lia].
  - destruct (scan_step kb status sc) as [kb1 [c|]]; [split; [done|lia]|].
    specialize (IH kb1). destruct (first_key kb1 evs) as [[[? ?] ?]|]; [|done]. destruct IH as [-> ?]. split; [done|lia].
Qed.

(** [xk_getkey] takes the first key of the input, if there is one. *)
Lemma getkey_keys kb evs :
  match xk_getkey kb evs with
  | Some (c, kb', evs', _) => keys kb evs = c :: keys kb' evs' /\ (length evs' < length evs)%nat
  | None => keys kb evs = []
  end.
Proof.
  pose proof (getkey_first (length evs) kb evs ltac:(lia)) as Hg. pose proof (first_key_keys evs kb) as Hk. rewrite <- Hg in Hk.
  unfold xk_getkey. by destruct (getkey_loop _ kb evs) as [[[[? ?] ?] ?]|].
Qed.

(** * Lines *)

(** The buffer holds [text], the rest of it outside [0 .. max - 1] is [buf0]. *)
Record holds (buf0 : Z -> Z) (max : Z) (buf : Z -> Z) (text : list Z) : Prop := {
  ho_text : forall i, (i < length text)%nat -> text !! i = Some (buf (Z.of_nat i));
  ho_rest : forall i, i < 0 \/ Z.max 1 max <= i -> buf i = buf0 i;
  ho_len : lenZ text <= Z.max 0 (max - 1);
  ho_print : Forall (fun c => 32 <= c <= 126) text }.

Lemma holds_push buf0 max buf text c : holds buf0 max buf text -> 32 <= c <= 126 -> lenZ text < max - 1 -> holds buf0 max (upd buf (lenZ text) c) (text ++ [c]).
Proof.
  intros [H1 H2 H3 H4] Hc Hl. split.
  - intros i Hi. rewrite length_app in Hi. cbn in Hi. destruct (decide (i = length text)) as [->|].
    + rewrite upd_eq. by rewrite lookup_app_r, Nat.sub_diag by lia.
    + rewrite upd_ne by lia. rewrite lookup_app_l by lia. apply H1. lia.
  - intros i Hi. rewrite upd_ne by lia. by apply H2.
  - rewrite length_app. cbn. lia.
  - apply Forall_app. auto.
Qed.

Lemma holds_pop buf0 max buf text : holds buf0 max buf text -> holds buf0 max buf (take (pred (length text)) text).
Proof.
  intros [H1 H2 H3 H4]. split; [|done|rewrite length_take; lia|by apply Forall_take].
  intros i Hi. rewrite length_take in Hi. rewrite lookup_take_lt by lia. apply H1. lia.
Qed.

Lemma readline_edits fuel : forall max buf0 con0 kb evs buf text echo, (length evs < fuel)%nat -> holds buf0 max buf text ->
  match edit_line max (keys kb evs) text echo with
  | None => readline_loop fuel max kb evs (mkLine buf (lenZ text) (fold_left Fb.xk_putchar echo con0)) = None
  | Some (text', echo', rest) => exists buf' kb' evs',
      readline_loop fuel max kb evs (mkLine buf (lenZ text) (fold_left Fb.xk_putchar echo con0)) =
        Some (mkLine buf' (lenZ text') (fold_left Fb.xk_putchar echo' con0), kb', evs') /\
      holds buf0 max buf' text' /\ buf' (lenZ text') = 0 /\ keys kb' evs' = rest
  end.
Proof.
  induction fuel as [|fuel IH]; intros max buf0 con0 kb evs buf text echo Hf Hh; [lia|]. cbn [readline_loop].
  pose proof (getkey_keys kb evs) as Hk. destruct (xk_getkey kb evs) as [[[[c kb1] evs1] t]|]; [|by rewrite Hk]. destruct Hk as [-> Hl]. cbn [edit_line mbind option_bind].
  assert (forall ch, fold_left Fb.xk_putchar (echo ++ [ch]) con0 = Fb.xk_putchar (fold_left Fb.xk_putchar echo con0) ch) as Hecho by (intros ch; by rewrite fold_left_app).
  destruct (c =? 10).
  - eexists _, _, _. rewrite Hecho. split; [done|]. rewrite upd_eq. split; [|done]. pose proof Hh as [H1 H2 H3 H4]. split; [|intros i Hi; rewrite upd_ne by lia; by apply H2|done..].
    intros i Hi. rewrite upd_ne by lia. by apply H1.
  - destruct (c =? 8).
    + destruct (Z.ltb_spec 0 (lenZ text)); [|apply IH; [lia|done]].
      rewrite <- Hecho. replace (lenZ text - 1) with (lenZ (take (pred (length text)) text)) by (rewrite length_take; lia).
      apply IH; [lia|by apply holds_pop].
    + destruct ((32 <=? c) && (c <=? 126) && (lenZ text <? max - 1)) eqn:E; [|apply IH; [lia|done]].
      rewrite <- Hecho. replace (lenZ text + 1) with (lenZ (text ++ [c])) by (rewrite length_app; cbn; lia).
      apply IH; [lia|]. apply holds_push; [done|lia..].
Qed.

Lemma xk_readline_edits_keys max_chars kb evs buf con :
  match edit_line max_chars (keys kb evs) [] [] with
  | None => xk_readline max_chars kb evs buf con = None
  | Some (text, echo, rest) => exists buf' kb' evs',
      xk_readline max_chars kb evs buf con = Some (mkLine buf' (lenZ text) (fold_left Fb.xk_putchar echo con), kb', evs') /\
      holds buf max_chars buf' text /\ buf' (lenZ text) = 0 /\ keys kb' evs' = rest
  end.
Proof.
  apply (readline_edits (S (length evs)) max_chars buf con kb evs buf [] []); [lia|].
  split; [cbn; lia|done|cbn; lia|constructor].
Qed.


(** * Typing *)

(** The index of the first [c] of a table. *)
Definition scancode_of (tab : list Z) (c : Z) : option Z := '(i, _) ← list_find (fun x => x = c) tab; Some (Z.of_nat i).

(** The scancodes of a typist: the key pressed and released, between a press
    and a release of the left shift key when it is needed. *)
Definition press (c : Z) : list Z :=
  match scancode_of map_plain c with
  | Some i => [i; i .| 0x80]
  | None => match scancode_of map_shift c with Some i => [SC_LSHIFT; i; i .| 0x80; SC_LSHIFT .| 0x80] | None => [] end
  end.

Definition typable : list Z := [8; 9; 10; 27] ++ seqZ 32 95.
Definition swapcase (c : Z) : Z := if ((65 <=? c) && (c <=? 90)) || ((97 <=? c) && (c <=? 122)) then Z.lxor c 32 else c.
Definition caps_on : Kbd := mkKbd false true false false 0.

(** The input carries [scs]: empty polls apart, from the keyboard, in order. *)
Definition carries (evs : Inbox) (scs : list Z) : Prop := filter (fun e => tst (e.1 .& ST_OUT_FULL) = true) evs = (fun sc => (ST_OUT_FULL, sc)) <$> scs.

Lemma keys_filter evs : forall kb, let l := filter (fun e => tst (e.1 .& ST_OUT_FULL) = true) evs in keys kb l = keys kb evs /\ after kb l = after kb evs.
Proof.
  induction evs as [|[status sc] evs IH]; intros kb; [done|]. cbn [keys after]. destruct (tst (status .& ST_OUT_FULL)) eqn:E; cbn [negb].
  - rewrite filter_cons_True by done. cbn [keys after]. rewrite E. cbn [negb]. destruct (scan_step kb status sc) as [kb1 r]. cbn [fst].
    destruct (IH kb1) as [-> ->]. done.
  - rewrite filter_cons_False by (cbn; congruence). apply IH.
Qed.

Lemma keys_app l1 : forall kb l2, keys kb (l1 ++ l2) = keys kb l1 ++ keys (after kb l1) l2 /\ after kb (l1 ++ l2) = after (after kb l1) l2.
Proof.
  induction l1 as [|[status sc] l1 IH]; intros kb l2; [done|]. cbn [app keys after]. destruct (negb _); [apply IH|].
  destruct (scan_step kb status sc) as [kb1 r]. cbn [fst]. destruct (IH kb1 l2) as [-> ->]. by destruct r.
Qed.

Definition events (scs : list Z) : Inbox := (fun sc => (ST_OUT_FULL, sc)) <$> scs.

(** A key press decodes to its character and leaves the state as it was. *)
Definition press_ok (kb : Kbd) (f : Z -> Z) (c : Z) : bool :=
  bool_decide (keys kb (events (press c)) = [f c]) &&
  match after kb (events (press c)), kb with
  | mkKbd s1 c1 t1 e1 k1, mkKbd s2 c2 t2 e2 k2 => eqb s1 s2 && eqb c1 c2 && eqb t1 t2 && eqb e1 e2 && (k1 =? k2)
  end.

Lemma press_ok_spec kb f c : press_ok kb f c = true -> keys kb (events (press c)) = [f c] /\ after kb (events (press c)) = kb.
Proof.
  unfold press_ok. intros [H1%bool_decide_eq_true H2]%andb_true_iff. split; [done|].
  destruct (after _ _), kb. rewrite !andb_true_iff in H2. destruct H2 as [[[[H3 H4] H5] H6] H7]. apply eqb_prop in H3, H4, H5, H6. unbool. congruence.
Qed.

Lemma press_plain : forallb (press_ok kbd_reset (fun c => c)) typable = true.
Proof. vm_compute. done. Qed.

Lemma press_caps : forallb (press_ok caps_on swapcase) typable = true.
Proof. vm_compute. done. Qed.

Lemma types_keys kb f s : forallb (press_ok kb f) typable = true -> Forall (fun c => c ∈ typable) s ->
  keys kb (events (concat (press <$> s))) = f <$> s /\ after kb (events (concat (press <$> s))) = kb.
Proof.
  intros Hok. rewrite forallb_forall in Hok. induction s as [|c s IH]; intros Hs; [done|]. apply Forall_cons in Hs as [Hc Hs].
  cbn [fmap list_fmap concat]. unfold events. rewrite fmap_app.
  destruct (press_ok_spec kb f c) as [H1 H2]; [apply Hok; by apply list_elem_of_In|].
  destruct (keys_app (events (press c)) kb (events (concat (press <$> s)))) as [K1 K2]. unfold events in *. rewrite K1, K2, H1, H2. destruct (IH Hs) as [-> ->]. done.
Qed.

Lemma edit_text s : forall max rest text echo, Forall (fun c => 32 <= c <= 126) s -> lenZ text + lenZ s < max ->
  edit_line max (s ++ 10 :: rest) text echo = Some (text ++ s, echo ++ s ++ [10], rest).
Proof.
  induction s as [|c s IH]; intros max rest text echo Hs Hl; [by rewrite app_nil_r|]. apply Forall_cons in Hs as [Hc Hs]. cbn [app edit_line]. cbn [length] in Hl.
  destruct (Z.eqb_spec c 10); [lia|]. destruct (Z.eqb_spec c 8); [lia|].
  replace ((32 <=? c) && (c <=? 126) && (lenZ text <? max - 1)) with true by (symmetry; zcase).
  rewrite IH; [by rewrite <- !app_assoc|done|rewrite length_app; cbn; lia].
Qed.

(** What is typed is what is read. For every text of the keys of the
    board, the scancodes a typist makes for it, with any number of empty polls
    between them, decode to the text, with upper and lower case exchanged when
    Caps Lock is on, and leave the modifiers as they were; and typing a line
    that fits the buffer and the Enter key makes [xk_readline] return that
    line. *)
Theorem keyboard_types_text (s : list Z) (evs : Inbox) : Forall (fun c => c ∈ typable) s -> carries evs (concat (press <$> s)) ->
  keys kbd_reset evs = s /\ after kbd_reset evs = kbd_reset /\ keys caps_on evs = swapcase <$> s /\ after caps_on evs = caps_on /\
  forall line max buf con, s = line ++ [10] -> Forall (fun c => 32 <= c <= 126) line -> lenZ line < max ->
  exists buf' kb' evs', xk_readline max kbd_reset evs buf con = Some (mkLine buf' (lenZ line) (fold_left Fb.xk_putchar s con), kb', evs') /\
    holds buf max buf' line /\ buf' (lenZ line) = 0 /\ keys kb' evs' = [].
Proof.
  intros Hs Hc. unfold carries in Hc. fold (events (concat (press <$> s))) in Hc.
  destruct (types_keys kbd_reset (fun c => c) s press_plain Hs) as [P1 P2]. destruct (types_keys caps_on swapcase s press_caps Hs) as [Q1 Q2].
  destruct (keys_filter evs kbd_reset) as [F1 F2]. destruct (keys_filter evs caps_on) as [G1 G2]. cbv zeta in *. rewrite Hc in F1, F2, G1, G2.
  rewrite <- F1, <- F2, <- G1, <- G2, P1, P2, Q1, Q2, list_fmap_id. split_and!; try done.
  intros line max buf con Hl Hp Hlen. pose proof (xk_readline_edits_keys max kbd_reset evs buf con) as Hr.
  rewrite <- F1, P1, list_fmap_id, Hl, (edit_text line max [] [] []) in Hr by done. by rewrite Hl.
Qed.

(** "Hi", Enter, with empty polls: the Shift key for the capital. *)
Definition demo_evs : Inbox := (0, 7) :: events [0x2A; 0x23; 0xA3] ++ (0, 0) :: events [0xAA; 0x17; 0x97] ++ [(0, 9)] ++ events [0x1C; 0x9C].

Lemma keyboard_types_text_witness : carries demo_evs (concat (press <$> [72; 105; 10])) /\ keys kbd_reset demo_evs = [72; 105; 10] /\
  forall buf con, exists buf' kb' evs', xk_readline 16 kbd_reset demo_evs buf con = Some (mkLine buf' 2 (fold_left Fb.xk_putchar [72; 105; 10] con), kb', evs').
Proof.
  assert (carries demo_evs (concat (press <$> [72; 105; 10]))) as Hc by reflexivity.
  assert (Forall (fun c => c ∈ typable) [72; 105; 10]) as Hs by (repeat constructor; apply bool_decide_eq_true_1; reflexivity).
  destruct (keyboard_types_text [72; 105; 10] demo_evs Hs Hc) as (K & _ & _ & _ & R).
  split; [exact Hc|]. split; [exact K|]. intros buf con.
  destruct (R [72; 105] 16 buf con) as (buf' & kb' & evs' & H & _); [reflexivity|repeat constructor; lia|reflexivity|].
  exists buf', kb', evs'. exact H.
Defined.
