(* ===== verification/Pci.v ===== *)
(** PCI enumeration: [drivers/pci/pci.c]. The configuration space of the
    machine is a parameter, with the behaviour of its registers as an
    interface. *)

From S2P Require Import Prelude.
From S2P Require Import Bytes.

Definition PCI_MAX_DEVICES : Z := 64.
Definition PCI_ANY_PROGIF : Z := 0xFF.
Definition PCI_CFG_ADDR : Z := 0xCF8.
Definition PCI_CFG_DATA : Z := 0xCFC.
Definition PCI_CMD : Z := 0x04.
Definition PCI_BAR0 : Z := 0x10.

Record PciDev := mkDev { bus : Z; dev : Z; fn : Z; class_code : Z; subclass : Z; prog_if : Z; header_type : Z; vendor : Z; device : Z; bar : list Z; bar_size : list Z }.

(** A configuration space: 32-bit registers by configuration address, each
    with read-write bits, bits cleared by writing one, and read-only bits; a
    write has no effect on other registers (PCI Local Bus Specification,
    sections 6.1 and 6.2). *)
Class ConfigSpace (Cfg : Type) := {
  cfg_read : Cfg -> Z -> Z; cfg_write : Cfg -> Z -> Z -> Cfg;
  rw : Z -> Z; w1c : Z -> Z }.

Definition cfg_addr (b d f off : Z) : Z :=
  (((0x80000000 .| (b .<< 16)) .| ((d .& 0x1F) .<< 11)) .| ((f .& 0x07) .<< 8)) .| (off .& 0xFC).

(** How many address registers the header type gives. *)
Definition bar_count (header : Z) : Z :=
  let ht := u8 ((header .>> 16) .& 0x7F) in if ht =? 0 then 6 else if ht =? 1 then 2 else 0.

Class ConfigLaws (Cfg : Type) `{ConfigSpace Cfg} : Prop := {
  cfg_range : forall c a, 0 <= cfg_read c a < 2 ^ 32;
  rw_range : forall a, 0 <= rw a < 2 ^ 32;
  cfg_write_read : forall c a v b, cfg_read (cfg_write c a v) b =
    if b =? a then Z.ldiff (Z.ldiff (cfg_read c a) (rw a)) (w1c a .& v) .| (v .& rw a) else cfg_read c b;
  (* the status half of the command register has no read-write bit, its command half none that a one clears *)
  rw_command : forall b d f, 0 <= rw (cfg_addr b d f PCI_CMD) < 2 ^ 16;
  w1c_command : forall b d f, w1c (cfg_addr b d f PCI_CMD) .& 0xFFFF = 0;
  w1c_bar : forall c b d f i, 0 <= i < bar_count (cfg_read c (cfg_addr b d f 0x0C)) -> w1c (cfg_addr b d f (PCI_BAR0 + 4 * i)) = 0 }.

(** What the processor does: port accesses and the interrupt flag. *)
Inductive Ev := EvOut (port v : Z) | EvIn (port : Z) | Cli | Sti.

Section Driver.
Context {Cfg : Type} `{ConfigSpace Cfg}.

(** The static variables ([g_count] is the length of [g_devs]), the address
    port, the configuration space, the interrupt flag, and what was done. *)
Record Pci := mkPci { port_addr : Z; cfg : Cfg; iflag : bool; g_devs : list PciDev; g_overflow : bool; g_bus_seen : Z -> bool; log : list Ev }.
Implicit Types (s : Pci).

Definition pci_emit s (e : Ev) : Pci := mkPci (port_addr s) (cfg s) (iflag s) (g_devs s) (g_overflow s) (g_bus_seen s) (log s ++ [e]).
Definition set_devs s (l : list PciDev) : Pci := mkPci (port_addr s) (cfg s) (iflag s) l (g_overflow s) (g_bus_seen s) (log s).
Definition set_overflow s : Pci := mkPci (port_addr s) (cfg s) (iflag s) (g_devs s) true (g_bus_seen s) (log s).
Definition set_seen s (f : Z -> bool) : Pci := mkPci (port_addr s) (cfg s) (iflag s) (g_devs s) (g_overflow s) f (log s).

Definition outl s (port v : Z) : Pci :=
  let s := pci_emit s (EvOut port v) in
  if port =? PCI_CFG_ADDR then mkPci v (cfg s) (iflag s) (g_devs s) (g_overflow s) (g_bus_seen s) (log s) else
  if port =? PCI_CFG_DATA then mkPci (port_addr s) (cfg_write (cfg s) (port_addr s) v) (iflag s) (g_devs s) (g_overflow s) (g_bus_seen s) (log s) else s.

Definition inl s (port : Z) : Z * Pci := (cfg_read (cfg s) (port_addr s), pci_emit s (EvIn port)).

Definition pci_read32 (b d f off : Z) s : Z * Pci := inl (outl s PCI_CFG_ADDR (cfg_addr b d f off)) PCI_CFG_DATA.
Definition pci_write32 (b d f off v : Z) s : Pci := outl (outl s PCI_CFG_ADDR (cfg_addr b d f off)) PCI_CFG_DATA v.

(** The flag register: only the interrupt flag matters. *)
Definition irq_save s : bool * Pci := let e := pci_emit s Cli in (iflag s, mkPci (port_addr e) (cfg e) false (g_devs e) (g_overflow e) (g_bus_seen e) (log e)).
Definition irq_restore (f : bool) s : Pci := if f then let e := pci_emit s Sti in mkPci (port_addr e) (cfg e) true (g_devs e) (g_overflow e) (g_bus_seen e) (log e) else s.

(** The result, with the base and the size when it is not negative. *)
Definition pci_decode_bar (raw_lo raw_hi m_lo m_hi : Z) : Z * Z * Z :=
  if tst (raw_lo .& 1) then (-1, 0, 0) else
  if ((raw_lo .>> 1) .& 3) =? 2 then
    let mask := (m_hi .<< 32) .| (m_lo .& 0xFFFFFFF0) in
    if mask =? 0 then (-1, 0, 0) else (1, (raw_hi .<< 32) .| (raw_lo .& 0xFFFFFFF0), u64 (u64 (Z.lnot mask) + 1))
  else
    let mask := m_lo .& 0xFFFFFFF0 in
    if mask =? 0 then (-1, 0, 0) else (0, raw_lo .& 0xFFFFFFF0, u32 (u32 (Z.lnot mask) + 1)).

(** One BAR that is not an I/O one and has its slots. *)
Definition size_bar (b d f off raw_lo : Z) (is64 : bool) s : Z * Z * Z * Pci :=
  let '(raw_hi, s) := if is64 then pci_read32 b d f (u8 (off + 4)) s else (0, s) in
  let '(cmd, s) := pci_read32 b d f PCI_CMD s in
  let '(irq, s) := irq_save s in
  let s := pci_write32 b d f PCI_CMD (cmd .& 0xFFFD) s in
  let s := pci_write32 b d f off 0xFFFFFFFF s in
  let '(m_lo, s) := pci_read32 b d f off s in
  let s := pci_write32 b d f off raw_lo s in
  let '(m_hi, s) :=
    if is64 then
      let s := pci_write32 b d f (u8 (off + 4)) 0xFFFFFFFF s in
      let '(m_hi, s) := pci_read32 b d f (u8 (off + 4)) s in
      (m_hi, pci_write32 b d f (u8 (off + 4)) raw_hi s)
    else (0, s) in
  let s := pci_write32 b d f PCI_CMD (cmd .& 0xFFFF) s in
  let s := irq_restore irq s in
  (pci_decode_bar raw_lo raw_hi m_lo m_hi, s).

Definition set_bar (d : PciDev) (i base size : Z) : PciDev :=
  mkDev (bus d) (dev d) (fn d) (class_code d) (subclass d) (prog_if d) (header_type d) (vendor d) (device d)
        (<[Z.to_nat i := base]> (bar d)) (<[Z.to_nat i := size]> (bar_size d)).

(** The loop from [i]; [k] bounds the iterations left. *)
Fixpoint read_bars_loop (k : nat) (count i : Z) (d : PciDev) s : PciDev * Pci :=
  match k with
  | O => (d, s)
  | S k =>
    if count <=? i then (d, s) else
    let off := u8 (PCI_BAR0 + 4 * i) in
    let '(raw_lo, s) := pci_read32 (bus d) (dev d) (fn d) off s in
    if tst (raw_lo .& 1) then read_bars_loop k count (i + 1) d s else
    let is64 := ((raw_lo .>> 1) .& 3) =? 2 in
    if is64 && (i =? count - 1) then read_bars_loop k count (i + 1) d s else
    let '(r, base, size, s) := size_bar (bus d) (dev d) (fn d) off raw_lo is64 s in
    if r <? 0 then read_bars_loop k count (i + 1) d s else
    let d := set_bar d i base size in
    if r =? 1 then read_bars_loop k count (i + 1 + 1) d s else read_bars_loop k count (i + 1) d s
  end.

Definition read_bars (d : PciDev) (count : Z) s : PciDev * Pci := read_bars_loop (Z.to_nat count) count 0 d s.

(** [scan_bus] and [scan_function] call each other; [rec] is [scan_bus]. *)
Definition scan_function (rec : Z -> Pci -> option Pci) (b d f : Z) s : option Pci :=
  let '(id, s) := pci_read32 b d f 0x00 s in
  if (id .& 0xFFFF) =? 0xFFFF then Some s else
  if PCI_MAX_DEVICES <=? lenZ (g_devs s) then Some (set_overflow s) else
  let '(cls, s) := pci_read32 b d f 0x08 s in
  let '(r, s) := pci_read32 b d f 0x0C s in
  let ht := u8 ((r .>> 16) .& 0x7F) in
  let i := length (g_devs s) in
  let e := mkDev b d f (u8 (cls .>> 24)) (u8 (cls .>> 16)) (u8 (cls .>> 8)) ht (u16 (id .& 0xFFFF)) (u16 (id .>> 16)) (replicate 6 0) (replicate 6 0) in
  let s := set_devs s (g_devs s ++ [e]) in
  s ← (if (ht =? 1) && (class_code e =? 0x06) && (subclass e =? 0x04) then
         let '(r, s) := pci_read32 b d f 0x18 s in rec (u8 (r .>> 8)) s
       else Some s);
  if ht =? 0 then let '(e, s) := read_bars e 6 s in Some (set_devs s (<[i := e]> (g_devs s)))
  else if ht =? 1 then let '(e, s) := read_bars e 2 s in Some (set_devs s (<[i := e]> (g_devs s)))
  else Some s.

Fixpoint each (l : list Z) (f : Z -> Pci -> option Pci) s : option Pci :=
  match l with
  | [] => Some s
  | x :: l => s ← f x s; each l f s
  end.

Definition scan_dev (rec : Z -> Pci -> option Pci) (b d : Z) s : option Pci :=
  let '(id, s) := pci_read32 b d 0 0x00 s in
  if (id .& 0xFFFF) =? 0xFFFF then Some s else
  let '(r, s) := pci_read32 b d 0 0x0C s in
  let ht := u8 (r .>> 16) in
  s ← scan_function rec b d 0 s;
  if tst (ht .& 0x80) then each (seqZ 1 7) (fun f => scan_function rec b d f) s else Some s.

(** [None] when the fuel is over. *)
Fixpoint scan_bus (fuel : nat) (b : Z) s : option Pci :=
  match fuel with
  | O => None
  | S fuel =>
    if g_bus_seen s b then Some s else
    each (seqZ 0 32) (scan_dev (scan_bus fuel) b) (set_seen s (upd (g_bus_seen s) b true))
  end.

Definition pci_scan s : option (Z * Pci) :=
  let s := mkPci (port_addr s) (cfg s) (iflag s) [] false (fun _ => false) (log s) in
  s ← scan_bus 257 0 s;
  Some (if g_overflow s then -1 else lenZ (g_devs s), s).

Definition pci_count s : Z := lenZ (g_devs s).

Definition pci_at s (index : Z) : option PciDev :=
  if (index <? 0) || (lenZ (g_devs s) <=? index) then None else g_devs s !! Z.to_nat index.

Fixpoint find_scan (l : list PciDev) (cc sc pi skip : Z) : option PciDev :=
  match l with
  | [] => None
  | d :: l =>
    if negb (class_code d =? cc) || negb (subclass d =? sc) then find_scan l cc sc pi skip else
    if negb (pi =? PCI_ANY_PROGIF) && negb (prog_if d =? pi) then find_scan l cc sc pi skip else
    if 0 <? skip then find_scan l cc sc pi (skip - 1) else Some d
  end.
Definition pci_find s (cc sc pi skip : Z) : option PciDev := find_scan (g_devs s) cc sc pi skip.

Definition pci_enable s (d : option PciDev) : Z * Pci :=
  match d with
  | None => (-1, s)
  | Some d =>
    let '(cmd, s) := pci_read32 (bus d) (dev d) (fn d) PCI_CMD s in
    (0, pci_write32 (bus d) (dev d) (fn d) PCI_CMD ((cmd .& 0xFFFF) .| 0x6) s)
  end.
End Driver.

(** * Sizing *)

(** The address bits of a [w]-bit BAR of [2 ^ k] bytes, and a BAR as the
    firmware leaves it. *)
Definition bar_mask (w k : Z) : Z := Z.ones (w - k) .<< k.

Record mem_bar (w k base flags : Z) : Prop := {
  mb_k : 4 <= k < w; mb_base : 0 <= base < 2 ^ w; mb_align : base mod 2 ^ k = 0; mb_flags : 0 <= flags < 16;
  mb_mem : Z.testbit flags 0 = false; mb_type : ((flags .>> 1) .& 3 =? 2) = (w =? 64) }.

(** What a register holds once all ones are written to it. *)
Definition sized (raw mask : Z) : Z := Z.ldiff raw mask .| mask.

Lemma bar_mask_bit w k i : 0 <= k <= w -> 0 <= i -> Z.testbit (bar_mask w k) i = (k <=? i) && (i <? w).
Proof.
  intros Hk Hi. unfold bar_mask. rewrite Z.shiftl_spec by lia. destruct (Z.leb_spec k i); cbn [andb].
  - rewrite Z.testbit_ones_nonneg by lia. zcase.
  - by rewrite Z.testbit_neg_r by lia.
Qed.

Lemma bar_mask_value w k : 0 <= k <= w -> bar_mask w k = 2 ^ w - 2 ^ k.
Proof.
  intros Hk. unfold bar_mask. rewrite shiftl_mul, Z.ones_equiv by lia. replace w with (w - k + k) at 2 by lia. rewrite Z.pow_add_r by lia. lia.
Qed.

Lemma align_bits base k i : 0 <= k -> base mod 2 ^ k = 0 -> i < k -> Z.testbit base i = false.
Proof.
  intros Hk Hm Hi. destruct (Z.lt_ge_cases i 0); [by apply Z.testbit_neg_r|].
  rewrite <- (Z.mod_pow2_bits_low base k) by lia. by rewrite Hm, Z.bits_0.
Qed.

Lemma bit_15 i : 0 <= i -> Z.testbit 15 i = (i <? 4).
Proof. intros. change 15 with (Z.ones 4). apply Z.testbit_ones_nonneg; lia. Qed.

Section Bar.
Context (w k base flags : Z) (B : mem_bar w k base flags).

Lemma raw_base : Z.ldiff (base .| flags) 15 = base.
Proof.
  pose proof (mb_k _ _ _ _ B). apply Z.bits_inj'. intros i Hi. rewrite Z.ldiff_spec, Z.lor_spec, bit_15 by done. destruct (Z.ltb_spec i 4); cbn [negb].
  - rewrite andb_false_r, (align_bits base k) by (try apply (mb_align _ _ _ _ B); lia). done.
  - rewrite (testbit_high flags 4) by (try apply (mb_flags _ _ _ _ B); lia). by rewrite orb_false_r, andb_true_r.
Qed.

Lemma sized_mask : Z.ldiff (sized (base .| flags) (bar_mask w k)) 15 = bar_mask w k.
Proof.
  pose proof (mb_k _ _ _ _ B) as Hk. unfold sized. apply Z.bits_inj'. intros i Hi. rewrite Z.ldiff_spec, Z.lor_spec, Z.ldiff_spec, Z.lor_spec, bit_15, bar_mask_bit by lia.
  destruct (Z.ltb_spec i 4); cbn [negb].
  - rewrite andb_false_r. zcase; done.
  - rewrite (testbit_high flags 4) by (try apply (mb_flags _ _ _ _ B); lia). rewrite orb_false_r, andb_true_r.
    destruct (Z.leb_spec k i); cbn [andb negb]; [|by rewrite (align_bits base k) by (try apply (mb_align _ _ _ _ B); lia)].
    destruct (Z.ltb_spec i w); cbn; [by rewrite orb_true_r|]. by rewrite (testbit_high base w) by (try apply (mb_base _ _ _ _ B); lia).
Qed.

Lemma raw_range : 0 <= base .| flags < 2 ^ w.
Proof. pose proof (mb_k _ _ _ _ B). apply lor_bound; [lia|apply (mb_base _ _ _ _ B)|]. pose proof (mb_flags _ _ _ _ B). pose proof (Z.pow_le_mono_r 2 4 w ltac:(lia) ltac:(lia)). change (2 ^ 4) with 16 in *. lia. Qed.

Lemma sized_range : 0 <= sized (base .| flags) (bar_mask w k) < 2 ^ w.
Proof.
  pose proof (mb_k _ _ _ _ B) as Hk. pose proof raw_range as Hr. unfold sized. apply lor_bound; [lia| |rewrite bar_mask_value by lia; pose proof (Z.pow_le_mono_r 2 k w ltac:(lia) ltac:(lia)); pose proof (Z.pow_pos_nonneg 2 k ltac:(lia) ltac:(lia)); lia].
  apply bits_below; [lia|]. intros i Hi. rewrite Z.ldiff_spec. by rewrite (testbit_high _ w) by lia.
Qed.

Lemma mask_size : wrap w (wrap w (Z.lnot (bar_mask w k)) + 1) = 2 ^ k.
Proof.
  pose proof (mb_k _ _ _ _ B) as Hk. rewrite bar_mask_value by lia. unfold Z.lnot, wrap. pose proof (Z.pow_lt_mono_r 2 k w ltac:(lia) ltac:(lia) ltac:(lia)). pose proof (Z.pow_pos_nonneg 2 k ltac:(lia) ltac:(lia)).
  replace (Z.pred (- (2 ^ w - 2 ^ k))) with (2 ^ k - 1 + -1 * 2 ^ w) by lia. rewrite Z.mod_add by lia. rewrite (Z.mod_small (2 ^ k - 1)) by lia. rewrite Z.mod_small by lia. lia.
Qed.

Lemma mask_nonzero : bar_mask w k <> 0.
Proof. pose proof (mb_k _ _ _ _ B) as Hk. rewrite bar_mask_value by lia. pose proof (Z.pow_lt_mono_r 2 k w ltac:(lia) ltac:(lia) ltac:(lia)). lia. Qed.

Lemma raw_bit i : 0 <= i < 4 -> Z.testbit (base .| flags) i = Z.testbit flags i.
Proof. intros Hi. pose proof (mb_k _ _ _ _ B). rewrite Z.lor_spec, (align_bits base k) by (try apply (mb_align _ _ _ _ B); lia). done. Qed.
End Bar.

Lemma keep_32 x : 0 <= x < 2 ^ 32 -> x .& 0xFFFFFFF0 = Z.ldiff x 15.
Proof.
  intros Hx. apply Z.bits_inj'. intros i Hi. rewrite Z.land_spec, Z.ldiff_spec, bit_15 by done. change 0xFFFFFFF0 with (bar_mask 32 4). rewrite bar_mask_bit by lia.
  destruct (Z.ltb_spec i 32); [|by rewrite (testbit_high x 32) by lia]. rewrite andb_true_r. f_equal. zcase; done.
Qed.

Lemma keep_64 x : 0 <= x < 2 ^ 64 -> ((x .>> 32) .<< 32) .| (u32 x .& 0xFFFFFFF0) = Z.ldiff x 15.
Proof.
  intros Hx. apply Z.bits_inj'. intros i Hi. rewrite Z.lor_spec, Z.land_spec, Z.ldiff_spec, bit_15, Z.shiftl_spec by done.
  change 0xFFFFFFF0 with (bar_mask 32 4). rewrite bar_mask_bit by lia. destruct (Z.ltb_spec i 32).
  - rewrite Z.testbit_neg_r by lia. unfold u32. rewrite Z.mod_pow2_bits_low by lia. rewrite andb_true_r. cbn [orb]. f_equal. zcase; done.
  - rewrite !andb_false_r, orb_false_r, Z.shiftr_spec by lia. replace (i - 32 + 32) with i by lia. zcase. by rewrite andb_true_r.
Qed.

(** The type bits. *)
Lemma type_bits x y : (forall i, 0 <= i < 4 -> Z.testbit x i = Z.testbit y i) -> tst (x .& 1) = Z.testbit y 0 /\ (x .>> 1) .& 3 = (y .>> 1) .& 3.
Proof.
  intros Hxy. split.
  - change (x .& 1) with (x .& 2 ^ 0). rewrite (tst_bit x 0) by lia. apply Hxy. lia.
  - apply Z.bits_inj'. intros i Hi. rewrite !Z.land_spec, !Z.shiftr_spec by done. change 3 with (Z.ones 2). rewrite Z.testbit_ones_nonneg by lia.
    destruct (Z.ltb_spec i 2); [|by rewrite !andb_false_r]. rewrite Hxy by lia. done.
Qed.

Lemma decode_32 k base flags : mem_bar 32 k base flags ->
  pci_decode_bar (base .| flags) 0 (sized (base .| flags) (bar_mask 32 k)) 0 = (0, base, 2 ^ k).
Proof.
  intros B. unfold pci_decode_bar. destruct (type_bits _ _ (raw_bit 32 k base flags B)) as [-> ->]. rewrite (mb_mem _ _ _ _ B), (mb_type _ _ _ _ B). change (32 =? 64) with false. cbv iota zeta.
  rewrite !keep_32 by (apply (raw_range 32 k); done) || (apply (sized_range 32 k); done).
  rewrite (sized_mask 32 k base flags B), (raw_base 32 k base flags B). destruct (Z.eqb_spec (bar_mask 32 k) 0) as [E|]; [by destruct (mask_nonzero 32 k base flags B)|].
  do 2 f_equal. apply (mask_size 32 k base flags B).
Qed.

Lemma decode_64 k base flags : mem_bar 64 k base flags ->
  let raw := base .| flags in let m := sized raw (bar_mask 64 k) in
  pci_decode_bar (u32 raw) (raw .>> 32) (u32 m) (m .>> 32) = (1, base, 2 ^ k).
Proof.
  intros B. cbv zeta. unfold pci_decode_bar. destruct (type_bits (u32 (base .| flags)) flags) as [-> ->].
  { intros i Hi. unfold u32. rewrite Z.mod_pow2_bits_low by lia. apply (raw_bit 64 k); done. }
  rewrite (mb_mem _ _ _ _ B), (mb_type _ _ _ _ B). change (64 =? 64) with true. cbv iota zeta.
  rewrite !keep_64 by (apply (raw_range 64 k); done) || (apply (sized_range 64 k); done).
  rewrite (sized_mask 64 k base flags B), (raw_base 64 k base flags B). destruct (Z.eqb_spec (bar_mask 64 k) 0) as [E|]; [by destruct (mask_nonzero 64 k base flags B)|].
  do 2 f_equal. apply (mask_size 64 k base flags B).
Qed.

(** * Restoration *)

Lemma cfg_addr_off b d f off : cfg_addr b d f off .& 0xFF = off .& 0xFC.
Proof.
  unfold cfg_addr. apply Z.bits_inj'. intros i Hi. rewrite !Z.land_spec, !Z.lor_spec, !Z.land_spec, !Z.shiftl_spec by done. change 0xFF with (Z.ones 8). rewrite Z.testbit_ones_nonneg by lia.
  destruct (Z.ltb_spec i 8).
  - rewrite !(Z.testbit_neg_r _ (i - _)) by lia. change 0x80000000 with (1 .<< 31). rewrite testbit_pow2 by lia. replace (i =? 31) with false by lia. by rewrite andb_true_r.
  - rewrite andb_false_r. change 0xFC with (bar_mask 8 2). rewrite bar_mask_bit by lia. replace (i <? 8) with false by lia. by rewrite !andb_false_r.
Qed.

Lemma cfg_addr_ne b d f o1 o2 : o1 .& 0xFC <> o2 .& 0xFC -> (cfg_addr b d f o1 =? cfg_addr b d f o2) = false.
Proof. intros Ho. apply Z.eqb_neq. intros E. apply Ho. by rewrite <- !(cfg_addr_off b d f), E. Qed.

(** The six address registers and the command register are apart. *)
Lemma bar_off_ne b d f i : 0 <= i < 6 -> (cfg_addr b d f (PCI_BAR0 + 4 * i) =? cfg_addr b d f PCI_CMD) = false.
Proof. intros Hi. apply cfg_addr_ne. assert (i = 0 \/ i = 1 \/ i = 2 \/ i = 3 \/ i = 4 \/ i = 5) as [->|[->|[->|[->|[->| ->]]]]] by lia; done. Qed.

Lemma bar_bar_ne b d f i j : 0 <= i < 6 -> 0 <= j < 6 -> i <> j -> (cfg_addr b d f (PCI_BAR0 + 4 * i) =? cfg_addr b d f (PCI_BAR0 + 4 * j)) = false.
Proof.
  intros Hi Hj Hne. apply cfg_addr_ne.
  assert (forall k, 0 <= k < 6 -> (PCI_BAR0 + 4 * k) .& 0xFC = PCI_BAR0 + 4 * k) as Hk.
  { intros k Hk. assert (k = 0 \/ k = 1 \/ k = 2 \/ k = 3 \/ k = 4 \/ k = 5) as [->|[->|[->|[->|[->| ->]]]]] by lia; done. }
  rewrite !Hk by done. lia.
Qed.

(** Writing ones and then the old value leaves the old value. *)
Lemma restore_bits x r v : Z.ldiff (Z.ldiff (Z.ldiff x r .| (v .& r)) r) 0 .| (x .& r) = x.
Proof.
  apply Z.bits_inj'. intros i Hi. rewrite ?Z.lor_spec, ?Z.ldiff_spec, ?Z.lor_spec, ?Z.ldiff_spec, ?Z.land_spec, ?Z.bits_0.
  by destruct (Z.testbit x i), (Z.testbit r i), (Z.testbit v i).
Qed.

Section Hardware.
Context {Cfg : Type} `{CS : ConfigSpace Cfg} {CL : ConfigLaws Cfg}.
Implicit Types (s : Pci (Cfg := Cfg)) (c : Cfg).

(** What the code can see has not changed. *)
Record same s s' : Prop := {
  sa_cfg : forall a, cfg_read (cfg s') a = cfg_read (cfg s) a; sa_if : iflag s' = iflag s;
  sa_devs : g_devs s' = g_devs s; sa_over : g_overflow s' = g_overflow s; sa_seen : g_bus_seen s' = g_bus_seen s }.

Lemma same_refl s : same s s.
Proof. done. Qed.

Lemma same_trans s1 s2 s3 : same s1 s2 -> same s2 s3 -> same s1 s3.
Proof. intros [H1 H2 H3 H4 H5] [K1 K2 K3 K4 K5]. split; [intros a; by rewrite K1|congruence..]. Qed.

Lemma write_plain c a v : w1c a .& v = 0 -> cfg_read (cfg_write c a v) a = Z.ldiff (cfg_read c a) (rw a) .| (v .& rw a).
Proof. intros Hv. rewrite cfg_write_read, Z.eqb_refl, Hv. by rewrite Z.ldiff_0_r. Qed.

Lemma write_other c a v b : (b =? a) = false -> cfg_read (cfg_write c a v) b = cfg_read c b.
Proof. intros E. by rewrite cfg_write_read, E. Qed.

(** The old value over any other: the register is as before. *)
Lemma write_back c c' a v : w1c a .& v = 0 -> w1c a .& cfg_read c a = 0 -> cfg_read c' a = cfg_read (cfg_write c a v) a ->
  cfg_read (cfg_write c' a (cfg_read c a)) a = cfg_read c a.
Proof. intros H1 H2 H3. rewrite write_plain by done. rewrite H3, write_plain by done. pose proof (restore_bits (cfg_read c a) (rw a) v) as R. by rewrite Z.ldiff_0_r in R. Qed.

Lemma write_ones c a : w1c a = 0 -> cfg_read (cfg_write c a 0xFFFFFFFF) a = sized (cfg_read c a) (rw a).
Proof.
  intros Hw. rewrite write_plain by (by rewrite Hw). unfold sized. f_equal. change 0xFFFFFFFF with (Z.ones 32). rewrite Z.land_comm, Z.land_ones by lia.
  apply Z.mod_small, rw_range.
Qed.

(** The command register, its status half written as zero. *)
Lemma command_restored c c' b d f : let a := cfg_addr b d f PCI_CMD in let x := cfg_read c a in
  cfg_read c' a = cfg_read (cfg_write c a (x .& 0xFFFD)) a -> cfg_read (cfg_write c' a (x .& 0xFFFF)) a = x.
Proof.
  cbv zeta. intros H3. set (a := cfg_addr b d f PCI_CMD) in *. set (x := cfg_read c a) in *.
  pose proof (w1c_command b d f) as Hw. pose proof (rw_command b d f) as Hr. fold a in Hw, Hr.
  assert (w1c a .& (x .& 0xFFFF) = 0) as W2 by (rewrite (Z.land_comm x), Z.land_assoc, Hw; done).
  assert (w1c a .& (x .& 0xFFFD) = 0) as W1 by (change 0xFFFD with (0xFFFF .& 0xFFFD); rewrite (Z.land_comm x), <- (Z.land_assoc 0xFFFF), Z.land_assoc, Hw; done).
  rewrite write_plain, H3, write_plain by done. fold x. transitivity (Z.ldiff (Z.ldiff (Z.ldiff x (rw a) .| ((x .& 0xFFFD) .& rw a)) (rw a)) 0 .| (x .& rw a)); [|apply restore_bits].
  rewrite Z.ldiff_0_r. f_equal. change 0xFFFF with (Z.ones 16). rewrite <- Z.land_assoc. f_equal. rewrite Z.land_comm, Z.land_ones by lia. by apply Z.mod_small.
Qed.

(** Address registers are only written while interrupts are off and the
    device decodes no memory access; [a] is the address port. *)
Fixpoint guarded (cmd a : Z) (intr decode : bool) (l : list Ev) : bool :=
  match l with
  | [] => true
  | EvOut port v :: l =>
    if port =? PCI_CFG_ADDR then guarded cmd v intr decode l else
    if a =? cmd then guarded cmd a intr (tst (v .& 2)) l else negb intr && negb decode && guarded cmd a intr decode l
  | EvIn _ :: l => guarded cmd a intr decode l
  | Cli :: l => guarded cmd a false decode l
  | Sti :: l => guarded cmd a true decode l
  end.

Definition flag_after (intr : bool) (l : list Ev) : bool := fold_left (fun x e => match e with Cli => false | Sti => true | _ => x end) l intr.

Definition sizing_log (b d f : Z) s s' : Prop :=
  exists t, log s' = log s ++ t /\ flag_after (iflag s) t = iflag s' /\ forall a decode, guarded (cfg_addr b d f PCI_CMD) a (iflag s) decode t = true.

(** The port accesses of a read and of a write. *)
Definition rd_log (a : Z) : list Ev := [EvOut PCI_CFG_ADDR a; EvIn PCI_CFG_DATA].
Definition wr_log (a v : Z) : list Ev := [EvOut PCI_CFG_ADDR a; EvOut PCI_CFG_DATA v].

Lemma guarded_end cmd (on : bool) l : forall a intr decode, guarded cmd a intr decode (l ++ (if on then [Sti] else [])) = guarded cmd a intr decode l.
Proof.
  induction l as [|[p v|p| |] l IH]; intros a intr decode; cbn [app guarded]; [by destruct on| |apply IH..].
  destruct (p =? _); [apply IH|]. destruct (a =? cmd); [apply IH|]. by rewrite IH.
Qed.

Lemma guarded_rd cmd a intr decode x l : guarded cmd a intr decode (rd_log x ++ l) = guarded cmd x intr decode l.
Proof. done. Qed.

Lemma guarded_wr cmd a intr decode x v l :
  guarded cmd a intr decode (wr_log x v ++ l) = if x =? cmd then guarded cmd x intr (tst (v .& 2)) l else negb intr && negb decode && guarded cmd x intr decode l.
Proof. done. Qed.

Lemma flag_after_app intr l1 l2 : flag_after intr (l1 ++ l2) = flag_after (flag_after intr l1) l2.
Proof. apply fold_left_app. Qed.

Lemma no_decode x : tst ((x .& 0xFFFD) .& 2) = false.
Proof. rewrite <- Z.land_assoc. change (0xFFFD .& 2) with 0. by rewrite Z.land_0_r. Qed.

Lemma sizing_guarded (cm x x' v1 v2 v3 v4 v5 v6 : Z) (on : bool) : (x =? cm) = false -> (x' =? cm) = false -> tst (v1 .& 2) = false ->
  let t := (rd_log x' ++ rd_log cm ++ [Cli] ++ wr_log cm v1 ++ wr_log x v2 ++ rd_log x ++ wr_log x v3 ++ wr_log x' v4 ++ rd_log x' ++ wr_log x' v5 ++ wr_log cm v6) ++ (if on then [Sti] else []) in
  flag_after on t = on /\ forall a decode, guarded cm a on decode t = true.
Proof.
  intros H1 H2 H3. split; [by rewrite !flag_after_app; destruct on|]. intros a decode.
  rewrite guarded_end, <- (app_nil_r (wr_log cm v6)). rewrite !guarded_rd. cbn [app guarded].
  rewrite guarded_wr, Z.eqb_refl, H3, guarded_wr, H1, guarded_rd, guarded_wr, H1, guarded_wr, H2, guarded_rd, guarded_wr, H2, guarded_wr, Z.eqb_refl. done.
Qed.


Lemma bar_u8 i : 0 <= i < 6 -> u8 (PCI_BAR0 + 4 * i) = PCI_BAR0 + 4 * i.
Proof. intros. apply u8_small. unfold PCI_BAR0. lia. Qed.

Lemma bar_u8_next i : 0 <= i < 5 -> u8 (PCI_BAR0 + 4 * i + 4) = PCI_BAR0 + 4 * (i + 1).
Proof. intros. rewrite u8_small by (unfold PCI_BAR0; lia). lia. Qed.

Lemma bar_count_le h : bar_count h <= 6.
Proof. unfold bar_count. repeat case_match; lia. Qed.

(** The operations on a state given by its port, space, flag and log. *)
Lemma read_step s a c on l b d f off : pci_read32 b d f off (mkPci a c on (g_devs s) (g_overflow s) (g_bus_seen s) l) =
  (cfg_read c (cfg_addr b d f off), mkPci (cfg_addr b d f off) c on (g_devs s) (g_overflow s) (g_bus_seen s) (l ++ rd_log (cfg_addr b d f off))).
Proof. unfold rd_log. change [EvOut PCI_CFG_ADDR (cfg_addr b d f off); EvIn PCI_CFG_DATA] with ([EvOut PCI_CFG_ADDR (cfg_addr b d f off)] ++ [EvIn PCI_CFG_DATA]). by rewrite app_assoc. Qed.

Lemma write_step s a c on l b d f off v : pci_write32 b d f off v (mkPci a c on (g_devs s) (g_overflow s) (g_bus_seen s) l) =
  mkPci (cfg_addr b d f off) (cfg_write c (cfg_addr b d f off) v) on (g_devs s) (g_overflow s) (g_bus_seen s) (l ++ wr_log (cfg_addr b d f off) v).
Proof. unfold wr_log. change [EvOut PCI_CFG_ADDR (cfg_addr b d f off); EvOut PCI_CFG_DATA v] with ([EvOut PCI_CFG_ADDR (cfg_addr b d f off)] ++ [EvOut PCI_CFG_DATA v]). by rewrite app_assoc. Qed.

Lemma save_step s a c on l : irq_save (mkPci a c on (g_devs s) (g_overflow s) (g_bus_seen s) l) = (on, mkPci a c false (g_devs s) (g_overflow s) (g_bus_seen s) (l ++ [Cli])).
Proof. done. Qed.

Lemma restore_step s a c on l : irq_restore on (mkPci a c false (g_devs s) (g_overflow s) (g_bus_seen s) l) =
  mkPci a c on (g_devs s) (g_overflow s) (g_bus_seen s) (l ++ (if on then [Sti] else [])).
Proof. destruct on; cbn; by rewrite ?app_nil_r. Qed.

Lemma state_eta s : s = mkPci (port_addr s) (cfg s) (iflag s) (g_devs s) (g_overflow s) (g_bus_seen s) (log s).
Proof. by destruct s. Qed.

Ltac pci_steps s := first [rewrite (read_step s) | rewrite (write_step s) | rewrite (save_step s) | rewrite (restore_step s)]; cbv beta iota zeta.

Section Sizing.
Context (b d f i : Z) (s : Pci (Cfg := Cfg)) (Hi : 0 <= i < bar_count (cfg_read (cfg s) (cfg_addr b d f 0x0C))).
Abbreviation A := (cfg_addr b d f (PCI_BAR0 + 4 * i)).
Abbreviation A' := (cfg_addr b d f (PCI_BAR0 + 4 * (i + 1))).
Abbreviation CMD := (cfg_addr b d f PCI_CMD).

Lemma size_bar_32 : let raw := cfg_read (cfg s) A in
  exists s', size_bar b d f (PCI_BAR0 + 4 * i) raw false s = (pci_decode_bar raw 0 (sized raw (rw A)) 0, s') /\ same s s' /\ sizing_log b d f s s'.
Proof.
  cbv zeta. pose proof (bar_count_le (cfg_read (cfg s) (cfg_addr b d f 0x0C))) as Hle. pose proof (bar_off_ne b d f i ltac:(lia)) as Hne.
  pose proof (w1c_bar (cfg s) b d f i Hi) as Hw. assert ((CMD =? A) = false) as Hne' by (by rewrite Z.eqb_sym).
  set (raw := cfg_read (cfg s) A). set (cmd := cfg_read (cfg s) CMD).
  set (c1 := cfg_write (cfg s) CMD (cmd .& 0xFFFD)). set (c2 := cfg_write c1 A 0xFFFFFFFF). set (c3 := cfg_write c2 A raw). set (c4 := cfg_write c3 CMD (cmd .& 0xFFFF)).
  assert (cfg_read c1 A = raw) as E1 by (unfold c1; by rewrite write_other).
  assert (cfg_read c2 A = sized raw (rw A)) as E2 by (unfold c2; by rewrite write_ones, E1).
  exists (mkPci CMD c4 (iflag s) (g_devs s) (g_overflow s) (g_bus_seen s)
    (log s ++ (rd_log CMD ++ [Cli] ++ wr_log CMD (cmd .& 0xFFFD) ++ wr_log A 0xFFFFFFFF ++ rd_log A ++ wr_log A raw ++ wr_log CMD (cmd .& 0xFFFF)) ++ (if iflag s then [Sti] else []))). split.
  { rewrite (state_eta s) at 1. unfold size_bar. cbv iota. repeat pci_steps s.
    fold raw cmd c1 c2 c3 c4. by rewrite E2, <- !app_assoc. }
  split.
  - split; try done. intros a. cbn [cfg]. unfold c4. destruct (Z.eqb_spec a CMD) as [->|Hc].
    + apply command_restored. unfold c3. rewrite write_other by done. unfold c2. by rewrite write_other.
    + rewrite write_other by lia. unfold c3. destruct (Z.eqb_spec a A) as [->|Ha].
      * pose proof (write_back c1 c2 A 0xFFFFFFFF) as W. rewrite E1 in W. apply W; [by rewrite Hw..|done].
      * rewrite write_other by lia. unfold c2. rewrite write_other by lia. unfold c1. by rewrite write_other by lia.
  - eexists. split; [done|]. split; [by rewrite !flag_after_app; destruct (iflag s)|]. intros a decode.
    rewrite guarded_end, <- (app_nil_r (wr_log CMD (cmd .& 0xFFFF))). rewrite !guarded_rd. cbn [app guarded]. rewrite ?guarded_rd, ?guarded_wr, ?Z.eqb_refl, ?Hne, ?guarded_rd, ?guarded_wr, ?Hne, no_decode. rewrite ?Z.eqb_refl. done.
Qed.

Lemma size_bar_64 : i + 1 < bar_count (cfg_read (cfg s) (cfg_addr b d f 0x0C)) -> let raw := cfg_read (cfg s) A in let raw' := cfg_read (cfg s) A' in
  exists s', size_bar b d f (PCI_BAR0 + 4 * i) raw true s = (pci_decode_bar raw raw' (sized raw (rw A)) (sized raw' (rw A')), s') /\ same s s' /\ sizing_log b d f s s'.
Proof.
  intros Hi'. cbv zeta. pose proof (bar_count_le (cfg_read (cfg s) (cfg_addr b d f 0x0C))) as Hle. pose proof (bar_off_ne b d f i ltac:(lia)) as Hne. pose proof (bar_off_ne b d f (i + 1) ltac:(lia)) as Gne.
  pose proof (w1c_bar (cfg s) b d f i Hi) as Hw. assert (w1c A' = 0) as Gw by (apply (w1c_bar (cfg s)); lia).
  assert ((CMD =? A) = false) as Hne' by (by rewrite Z.eqb_sym). assert ((CMD =? A') = false) as Gne' by (by rewrite Z.eqb_sym).
  pose proof (bar_bar_ne b d f i (i + 1) ltac:(lia) ltac:(lia) ltac:(lia)) as Hx. assert ((A' =? A) = false) as Hx' by (by rewrite Z.eqb_sym).
  set (raw := cfg_read (cfg s) A). set (raw' := cfg_read (cfg s) A'). set (cmd := cfg_read (cfg s) CMD).
  set (c1 := cfg_write (cfg s) CMD (cmd .& 0xFFFD)). set (c2 := cfg_write c1 A 0xFFFFFFFF). set (c3 := cfg_write c2 A raw).
  set (k1 := cfg_write c3 A' 0xFFFFFFFF). set (k2 := cfg_write k1 A' raw'). set (c4 := cfg_write k2 CMD (cmd .& 0xFFFF)).
  assert (cfg_read c1 A = raw) as E1 by (unfold c1; by rewrite write_other).
  assert (cfg_read c2 A = sized raw (rw A)) as E2 by (unfold c2; by rewrite write_ones, E1).
  assert (cfg_read c3 A' = raw') as E3 by (unfold c3, c2, c1; by rewrite !write_other).
  assert (cfg_read k1 A' = sized raw' (rw A')) as E4 by (unfold k1; by rewrite write_ones, E3).
  exists (mkPci CMD c4 (iflag s) (g_devs s) (g_overflow s) (g_bus_seen s)
    (log s ++ (rd_log A' ++ rd_log CMD ++ [Cli] ++ wr_log CMD (cmd .& 0xFFFD) ++ wr_log A 0xFFFFFFFF ++ rd_log A ++ wr_log A raw ++ wr_log A' 0xFFFFFFFF ++ rd_log A' ++ wr_log A' raw' ++ wr_log CMD (cmd .& 0xFFFF)) ++ (if iflag s then [Sti] else []))). split.
  { rewrite (state_eta s) at 1. unfold size_bar. rewrite bar_u8_next by lia. cbv iota. repeat pci_steps s.
    fold raw raw' cmd c1 c2 c3 k1 k2 c4. by rewrite E2, E4, <- !app_assoc. }
  split.
  - split; try done. intros a. cbn [cfg]. unfold c4. destruct (Z.eqb_spec a CMD) as [->|Hc].
    + apply command_restored. unfold k2. rewrite write_other by done. unfold k1. rewrite write_other by done. unfold c3. rewrite write_other by done. unfold c2. by rewrite write_other.
    + rewrite write_other by lia. destruct (Z.eqb_spec a A') as [->|Ha'].
      * unfold k2. pose proof (write_back c3 k1 A' 0xFFFFFFFF) as W. rewrite E3 in W. apply W; [by rewrite Gw..|done].
      * unfold k2, k1. rewrite !write_other by lia. unfold c3. destruct (Z.eqb_spec a A) as [->|Ha].
        -- pose proof (write_back c1 c2 A 0xFFFFFFFF) as W. rewrite E1 in W. apply W; [by rewrite Hw..|done].
        -- rewrite write_other by lia. unfold c2. rewrite write_other by lia. unfold c1. by rewrite write_other by lia.
  - eexists. split; [done|]. split; [|intros a decode]; by apply (sizing_guarded CMD A A' _ _ _ _ _ _ (iflag s) Hne Gne (no_decode cmd)).
Qed.
End Sizing.

(** ** The loop over the address registers *)

Lemma log_refl b d f s : sizing_log b d f s s.
Proof. exists []. split; [by rewrite app_nil_r|done]. Qed.

Lemma guarded_app cmd l1 : forall a intr decode l2,
  guarded cmd a intr decode l1 = true -> (forall a decode, guarded cmd a (flag_after intr l1) decode l2 = true) -> guarded cmd a intr decode (l1 ++ l2) = true.
Proof.
  induction l1 as [|[p v|p| |] l1 IH]; intros a intr decode l2 H1 H2; cbn [app guarded] in *; [apply H2| |by apply IH..].
  destruct (p =? _); [by apply IH|]. destruct (a =? cmd); [by apply IH|].
  apply andb_true_iff in H1 as [H1 H1']. rewrite H1. by apply IH.
Qed.

Lemma log_trans b d f s1 s2 s3 : sizing_log b d f s1 s2 -> sizing_log b d f s2 s3 -> sizing_log b d f s1 s3.
Proof.
  intros (t1 & L1 & F1 & G1) (t2 & L2 & F2 & G2). exists (t1 ++ t2). split; [by rewrite L2, L1, app_assoc|]. split.
  - unfold flag_after. rewrite fold_left_app. fold (flag_after (iflag s1) t1). by rewrite F1.
  - intros a decode. apply guarded_app; [done|]. rewrite F1. apply G2.
Qed.

Lemma read_same b d f b' d' f' off s : exists s', pci_read32 b d f off s = (cfg_read (cfg s) (cfg_addr b d f off), s') /\ same s s' /\ sizing_log b' d' f' s s'.
Proof.
  eexists. split; [reflexivity|]. split; [done|]. exists (rd_log (cfg_addr b d f off)). split; [cbn; by rewrite <- app_assoc|]. done.
Qed.

(** The loop leaves the registers as they were, whatever they hold. *)
Lemma read_bars_same k : forall count i d s, 0 <= i -> count <= bar_count (cfg_read (cfg s) (cfg_addr (bus d) (dev d) (fn d) 0x0C)) ->
  let '(d', s') := read_bars_loop k count i d s in
  same s s' /\ sizing_log (bus d) (dev d) (fn d) s s' /\
  d' = mkDev (bus d) (dev d) (fn d) (class_code d) (subclass d) (prog_if d) (header_type d) (vendor d) (device d) (bar d') (bar_size d').
Proof.
  induction k as [|k IH]; intros count i d s Hi Hc; cbn [read_bars_loop]; [split; [done|split; [apply log_refl|by destruct d]]|].
  destruct (Z.leb_spec count i); [split; [done|split; [apply log_refl|by destruct d]]|].
  pose proof (bar_count_le (cfg_read (cfg s) (cfg_addr (bus d) (dev d) (fn d) 0x0C))) as Hle. rewrite bar_u8 by lia.
  destruct (read_same (bus d) (dev d) (fn d) (bus d) (dev d) (fn d) (PCI_BAR0 + 4 * i) s) as (s1 & -> & S1 & L1).
  assert (forall i' d0 s2, 0 <= i' -> same s s2 -> sizing_log (bus d) (dev d) (fn d) s s2 ->
    d0 = mkDev (bus d) (dev d) (fn d) (class_code d) (subclass d) (prog_if d) (header_type d) (vendor d) (device d) (bar d0) (bar_size d0) ->
    let '(d', s') := read_bars_loop k count i' d0 s2 in same s s' /\ sizing_log (bus d) (dev d) (fn d) s s' /\
    d' = mkDev (bus d) (dev d) (fn d) (class_code d) (subclass d) (prog_if d) (header_type d) (vendor d) (device d) (bar d') (bar_size d')) as Rec.
  { intros i' d0 s2 Hi' S2 L2 D2. specialize (IH count i' d0 s2 Hi'). rewrite D2 in IH. cbn [bus dev fn class_code subclass prog_if header_type vendor device] in IH. rewrite (sa_cfg _ _ S2) in IH. specialize (IH Hc).
    rewrite D2. cbn [bar bar_size] in IH |- *. destruct (read_bars_loop k count i' _ s2) as [d' s']. destruct IH as (S3 & L3 & D3).
    split; [by eapply same_trans|]. split; [by eapply log_trans|exact D3]. }
  set (raw := cfg_read (cfg s) _). destruct (tst _); [apply Rec; [lia|done..|by destruct d]|].
  set (is64 := _ =? 2). destruct (is64 && (i =? count - 1)) eqn:E; [apply Rec; [lia|done..|by destruct d]|].
  assert (exists r base size s2, size_bar (bus d) (dev d) (fn d) (PCI_BAR0 + 4 * i) raw is64 s1 = (r, base, size, s2) /\ same s s2 /\ sizing_log (bus d) (dev d) (fn d) s s2) as (r & base & size & s2 & -> & S2 & L2).
  { unfold raw. rewrite <- (sa_cfg _ _ S1). assert (0 <= i < bar_count (cfg_read (cfg s1) (cfg_addr (bus d) (dev d) (fn d) 0x0C))) as Hb by (rewrite (sa_cfg _ _ S1); lia).
    destruct is64.
    - cbn [andb] in E. destruct (size_bar_64 (bus d) (dev d) (fn d) i s1 Hb) as (s2 & -> & S2 & L2); [rewrite (sa_cfg _ _ S1); lia|].
      destruct (pci_decode_bar _ _ _ _) as [[r base] size]. eexists _, _, _, _. split; [done|]. split; [by eapply same_trans|by eapply log_trans].
    - destruct (size_bar_32 (bus d) (dev d) (fn d) i s1 Hb) as (s2 & -> & S2 & L2).
      destruct (pci_decode_bar _ _ _ _) as [[r base] size]. eexists _, _, _, _. split; [done|]. split; [by eapply same_trans|by eapply log_trans]. }
  destruct (r <? 0); [apply Rec; [lia|done..|by destruct d]|]. destruct (r =? 1); (apply Rec; [lia|done..]).
Qed.

(** ** What the firmware lays out *)

Inductive Slot := SIo | SNone | SMem32 (k base flags : Z) | SMem64 (k base flags : Z).

(** The registers from [i] to [count] hold the slots. *)
Fixpoint laid_out c (b d f : Z) (i count : Z) (l : list Slot) : Prop :=
  let R j := cfg_read c (cfg_addr b d f (PCI_BAR0 + 4 * j)) in
  let M j := rw (cfg_addr b d f (PCI_BAR0 + 4 * j)) in
  match l with
  | [] => i = count
  | SIo :: l => Z.testbit (R i) 0 = true /\ laid_out c b d f (i + 1) count l
  | SNone :: l => R i = 0 /\ M i = 0 /\ laid_out c b d f (i + 1) count l
  | SMem32 k base flags :: l => mem_bar 32 k base flags /\ R i = base .| flags /\ M i = bar_mask 32 k /\ laid_out c b d f (i + 1) count l
  | SMem64 k base flags :: l => mem_bar 64 k base flags /\ R i = u32 (base .| flags) /\ R (i + 1) = (base .| flags) .>> 32 /\
      M i = u32 (bar_mask 64 k) /\ M (i + 1) = bar_mask 64 k .>> 32 /\ laid_out c b d f (i + 2) count l
  end.

(** Base and size of each slot. *)
Definition slot_entry (x : Slot) : list (Z * Z) :=
  match x with SIo | SNone => [(0, 0)] | SMem32 k base _ => [(base, 2 ^ k)] | SMem64 k base _ => [(base, 2 ^ k); (0, 0)] end.
Definition slot_bars (l : list Slot) : list (Z * Z) := concat (slot_entry <$> l).

Lemma slot_bars_cons x l : slot_bars (x :: l) = slot_entry x ++ slot_bars l.
Proof. done. Qed.

Lemma slot_entry_length x : (1 <= length (slot_entry x))%nat.
Proof. destruct x; cbn; lia. Qed.

Lemma laid_le c b d f count l : forall i, laid_out c b d f i count l -> i + lenZ (slot_bars l) = count.
Proof.
  induction l as [|x l IH]; intros i Hl; cbn [laid_out] in *; [cbn; lia|]. rewrite slot_bars_cons, length_app.
  destruct x; destruct_and!; match goal with H : laid_out _ _ _ _ ?j _ _ |- _ => specialize (IH j H) end; cbn [length slot_entry]; lia.
Qed.

Lemma laid_same s s' b d f count l : same s s' -> forall i, laid_out (cfg s) b d f i count l -> laid_out (cfg s') b d f i count l.
Proof.
  intros S. induction l as [|x l IH]; intros i Hl; cbn [laid_out] in *; [done|].
  destruct x; destruct_and!; rewrite !(sa_cfg _ _ S); split_and!; auto.
Qed.

Lemma sized_low x m : sized (u32 x) (u32 m) = u32 (sized x m).
Proof.
  unfold sized, u32. apply Z.bits_inj'. intros i Hi. rewrite Z.lor_spec, Z.ldiff_spec. destruct (Z.ltb_spec i 32).
  - by rewrite !Z.mod_pow2_bits_low, Z.lor_spec, Z.ldiff_spec by lia.
  - by rewrite !Z.mod_pow2_bits_high by lia.
Qed.

Lemma sized_high x m : sized (x .>> 32) (m .>> 32) = sized x m .>> 32.
Proof. unfold sized. by rewrite Z.shiftr_lor, Z.shiftr_ldiff. Qed.

Lemma insert_zeros (pre : list Z) n x : 0 < n -> <[length pre := x]> (pre ++ replicate (Z.to_nat n) 0) = (pre ++ [x]) ++ replicate (Z.to_nat (n - 1)) 0.
Proof.
  intros Hn. replace (Z.to_nat n) with (S (Z.to_nat (n - 1))) by lia. cbn [replicate].
  rewrite <- (Nat.add_0_r (length pre)) at 1. rewrite insert_app_r, <- app_assoc. done.
Qed.

Definition bars_at (d : PciDev) (i : Z) (pre pre' : list Z) : Prop :=
  lenZ pre = i /\ lenZ pre' = i /\ bar d = pre ++ replicate (Z.to_nat (6 - i)) 0 /\ bar_size d = pre' ++ replicate (Z.to_nat (6 - i)) 0.

Lemma bars_skip d i pre pre' : i < 6 -> bars_at d i pre pre' -> bars_at d (i + 1) (pre ++ [0]) (pre' ++ [0]).
Proof.
  intros Hi (H1 & H2 & H3 & H4). unfold bars_at. rewrite !length_app. cbn [length]. rewrite H3, H4, <- !app_assoc.
  replace (Z.to_nat (6 - i)) with (S (Z.to_nat (6 - (i + 1)))) by lia. cbn [replicate app]. split_and!; try done; lia.
Qed.

Lemma bars_set d i pre pre' base size : 0 <= i < 6 -> bars_at d i pre pre' -> bars_at (set_bar d i base size) (i + 1) (pre ++ [base]) (pre' ++ [size]).
Proof.
  intros Hi (H1 & H2 & H3 & H4). unfold bars_at, set_bar. cbn [bar bar_size]. rewrite !length_app. cbn [length]. rewrite H3, H4.
  replace (Z.to_nat i) with (length pre) at 1 by lia. rewrite insert_zeros by lia. replace (Z.to_nat i) with (length pre') by lia. rewrite insert_zeros by lia.
  replace (6 - (i + 1)) with (6 - i - 1) by lia. split_and!; try done; lia.
Qed.

Lemma decode_none : pci_decode_bar 0 0 (sized 0 0) 0 = (-1, 0, 0).
Proof. done. Qed.

Lemma read_bars_laid l : forall k i d s pre pre' count,
  laid_out (cfg s) (bus d) (dev d) (fn d) i count l -> count <= bar_count (cfg_read (cfg s) (cfg_addr (bus d) (dev d) (fn d) 0x0C)) ->
  0 <= i -> count - i <= Z.of_nat k -> bars_at d i pre pre' ->
  let '(d', _) := read_bars_loop k count i d s in bars_at d' count (pre ++ (fst <$> slot_bars l)) (pre' ++ (snd <$> slot_bars l)).
Proof.
  induction l as [|x l IH]; intros k i d s pre pre' count Hl Hc Hi Hk Hb.
  - cbn in Hl. subst i. cbn. rewrite !app_nil_r. destruct k; cbn [read_bars_loop]; [done|]. by rewrite Z.leb_refl.
  - pose proof (laid_le _ _ _ _ _ _ _ Hl) as Hle. rewrite slot_bars_cons in Hle |- *. rewrite length_app in Hle. pose proof (slot_entry_length x) as Hx.
    pose proof (bar_count_le (cfg_read (cfg s) (cfg_addr (bus d) (dev d) (fn d) 0x0C))) as H6.
    destruct k as [|k]; [lia|]. cbn [read_bars_loop]. destruct (Z.leb_spec count i); [lia|]. rewrite bar_u8 by lia.
    destruct (read_same (bus d) (dev d) (fn d) (bus d) (dev d) (fn d) (PCI_BAR0 + 4 * i) s) as (s1 & -> & S1 & L1). rewrite <- (sa_cfg _ _ S1).
    apply (laid_same _ _ _ _ _ _ _ S1) in Hl. rewrite <- (sa_cfg _ _ S1) in Hc. rewrite <- (sa_cfg _ _ S1) in H6.
    assert (0 <= i < bar_count (cfg_read (cfg s1) (cfg_addr (bus d) (dev d) (fn d) 0x0C))) as Hib by lia.
    change (tst (?x .& 1)) with (tst (x .& 2 ^ 0)). rewrite tst_bit by lia. cbn [laid_out] in Hl.
    rewrite !fmap_app, !app_assoc.
    destruct x as [| |k' base flags|k' base flags]; cbn [slot_entry fmap list_fmap fst snd] in *.
    + destruct Hl as [-> Hl]. apply IH; [done..|lia|lia|]. apply bars_skip; [lia|done].
    + destruct Hl as (R0 & M0 & Hl). destruct (size_bar_32 (bus d) (dev d) (fn d) i s1 Hib) as (s2 & Hs & S2 & L2). rewrite R0, M0, decode_none in Hs. rewrite R0.
      change (Z.testbit 0 0) with false. change (((0 .>> 1) .& 3) =? 2) with false. cbn [andb]. rewrite Hs. cbn [Z.ltb Z.compare].
      apply IH; [by apply (laid_same _ _ _ _ _ _ _ S2)|by rewrite (sa_cfg _ _ S2)|lia|lia|]. apply bars_skip; [lia|done].
    + destruct Hl as (B & R0 & M0 & Hl). destruct (size_bar_32 (bus d) (dev d) (fn d) i s1 Hib) as (s2 & Hs & S2 & L2). rewrite R0, M0, (decode_32 k' base flags B) in Hs. rewrite R0.
      rewrite (raw_bit 32 k' base flags B), (mb_mem _ _ _ _ B) by lia. destruct (type_bits _ _ (raw_bit 32 k' base flags B)) as [_ ->]. rewrite (mb_type _ _ _ _ B). change (32 =? 64) with false. cbn [andb]. rewrite Hs.
      change (0 <? 0) with false. change (0 =? 1) with false. cbv iota zeta.
      apply (IH k (i + 1) (set_bar d i base (2 ^ k')) s2); [by apply (laid_same _ _ _ _ _ _ _ S2)|cbn [bus dev fn set_bar]; by rewrite (sa_cfg _ _ S2)|lia|lia|]. apply bars_set; [lia|done].
    + destruct Hl as (B & R0 & R1 & M0 & M1 & Hl). cbn [length] in Hle.
      destruct (size_bar_64 (bus d) (dev d) (fn d) i s1 Hib) as (s2 & Hs & S2 & L2); [lia|].
      rewrite R0, R1, M0, M1, sized_low, sized_high, (decode_64 k' base flags B) in Hs. rewrite R0.
      assert (forall j, 0 <= j < 4 -> Z.testbit (u32 (base .| flags)) j = Z.testbit flags j) as Hj by (intros j Hj; unfold u32; rewrite Z.mod_pow2_bits_low by lia; by apply (raw_bit 64 k')).
      rewrite Hj, (mb_mem _ _ _ _ B) by lia. destruct (type_bits _ _ Hj) as [_ ->]. rewrite (mb_type _ _ _ _ B). change (64 =? 64) with true. cbn [andb].
      destruct (Z.eqb_spec i (count - 1)); [lia|]. rewrite Hs. change (1 <? 0) with false. change (1 =? 1) with true. cbv iota zeta.
      replace (i + 1 + 1) with (i + 2) by lia.
      apply (IH k (i + 2) (set_bar d i base (2 ^ k')) s2); [by apply (laid_same _ _ _ _ _ _ _ S2)|cbn [bus dev fn set_bar]; by rewrite (sa_cfg _ _ S2)|lia|lia|].
      replace (i + 2) with (i + 1 + 1) by lia. change [base; 0] with ([base] ++ [0]). change [2 ^ k'; 0] with ([2 ^ k'] ++ [0]). rewrite !app_assoc. apply bars_skip; [lia|]. apply bars_set; [lia|done].
Qed.
End Hardware.

(** * The bus tree *)

Section Tree.
Context {Cfg : Type} `{CS : ConfigSpace Cfg} {CL : ConfigLaws Cfg}.
Implicit Types (s : Pci (Cfg := Cfg)).
Context (c0 : Cfg).

Definition reg (b d f off : Z) : Z := cfg_read c0 (cfg_addr b d f off).
Definition present (b d f : Z) : bool := negb (reg b d f 0x00 .& 0xFFFF =? 0xFFFF).
Definition header (b d f : Z) : Z := u8 ((reg b d f 0x0C .>> 16) .& 0x7F).

(** A function of a device: function 0, or another one of a multi-function
    device. *)
Definition has_fun (b d f : Z) : Prop :=
  0 <= d < 32 /\ present b d 0 = true /\ present b d f = true /\ (f = 0 \/ 1 <= f < 8 /\ tst (u8 (reg b d 0 0x0C .>> 16) .& 0x80) = true).

(** A bridge, and the bus behind it. *)
Definition bridge_to (b d f sec : Z) : Prop :=
  header b d f = 1 /\ u8 (reg b d f 0x08 .>> 24) = 6 /\ u8 (reg b d f 0x08 .>> 16) = 4 /\ sec = u8 (reg b d f 0x18 .>> 8).

Inductive reach : Z -> Prop :=
  | reach_root : reach 0
  | reach_bridge b d f sec : reach b -> has_fun b d f -> bridge_to b d f sec -> reach sec.

Definition key (e : PciDev) : Z * Z * Z := (bus e, dev e, fn e).

(** The table entry of a function. *)
Record entry_ok (e : PciDev) : Prop := {
  eo_fun : has_fun (bus e) (dev e) (fn e); eo_reach : reach (bus e);
  eo_id : vendor e = u16 (reg (bus e) (dev e) (fn e) 0x00 .& 0xFFFF) /\ device e = u16 (reg (bus e) (dev e) (fn e) 0x00 .>> 16);
  eo_class : class_code e = u8 (reg (bus e) (dev e) (fn e) 0x08 .>> 24) /\ subclass e = u8 (reg (bus e) (dev e) (fn e) 0x08 .>> 16) /\ prog_if e = u8 (reg (bus e) (dev e) (fn e) 0x08 .>> 8);
  eo_header : header_type e = header (bus e) (dev e) (fn e);
  eo_bars : forall l, let n := bar_count (reg (bus e) (dev e) (fn e) 0x0C) in laid_out c0 (bus e) (dev e) (fn e) 0 n l ->
    bar e = (fst <$> slot_bars l) ++ replicate (Z.to_nat (6 - n)) 0 /\ bar_size e = (snd <$> slot_bars l) ++ replicate (Z.to_nat (6 - n)) 0 }.

Record inv s : Prop := {
  iv_regs : forall a, cfg_read (cfg s) a = cfg_read c0 a;
  iv_nodup : NoDup (key <$> g_devs s);
  iv_len : lenZ (g_devs s) <= 64;
  iv_seen : forall b, g_bus_seen s b = true -> reach b /\ 0 <= b < 256;
  iv_keys : forall k, k ∈ key <$> g_devs s -> g_bus_seen s k.1.1 = true;
  iv_over : g_overflow s = true -> lenZ (g_devs s) = 64 /\ exists b d f, reach b /\ has_fun b d f /\ (b, d, f) ∉ key <$> g_devs s }.

(** A function is done: it is in the table, and the bus behind it is seen. *)
Definition done_fun s (b d f : Z) : Prop := (b, d, f) ∈ key <$> g_devs s /\ forall sec, bridge_to b d f sec -> g_bus_seen s sec = true.

(** What a scan that is to deal with the functions [X] has done: it added
    those and the ones of the buses it has seen. *)
Record ext (X : Z -> Z -> Z -> Prop) s s' : Prop := {
  ex_if : iflag s' = iflag s;
  ex_seen : forall b, g_bus_seen s b = true -> g_bus_seen s' b = true;
  ex_over : g_overflow s = true -> g_overflow s' = true;
  ex_new : exists new, g_devs s' = g_devs s ++ new /\ Forall entry_ok new /\
    forall e, e ∈ new -> (g_bus_seen s (bus e) = false) \/ X (bus e) (dev e) (fn e);
  ex_done : g_overflow s' = false -> (forall b d f, X b d f -> done_fun s' b d f) /\
    forall b d f, g_bus_seen s b = false -> g_bus_seen s' b = true -> has_fun b d f -> done_fun s' b d f }.

Lemma ext_refl s : ext (fun _ _ _ => False) s s.
Proof. split; try done. { exists []. rewrite app_nil_r. split; [done|]. split; [constructor|]. intros e He. by apply elem_of_nil in He. } intros _. split; [done|]. intros; congruence. Qed.

Lemma done_mono X s s' b d f : ext X s s' -> done_fun s b d f -> done_fun s' b d f.
Proof.
  intros [_ Hs _ (new & Hn & _) _] [H1 H2]. split; [|auto]. rewrite Hn, fmap_app. apply elem_of_app. by left.
Qed.

Lemma ext_trans X Y s1 s2 s3 : ext X s1 s2 -> ext Y s2 s3 -> ext (fun b d f => X b d f \/ Y b d f) s1 s3.
Proof.
  intros E1 E2. pose proof E1 as [I1 S1 O1 (n1 & N1 & G1 & K1) D1]. pose proof E2 as [I2 S2 O2 (n2 & N2 & G2 & K2) D2]. split; [congruence|auto|auto| |].
  - exists (n1 ++ n2). split; [by rewrite N2, N1, app_assoc|]. split; [by apply Forall_app|]. intros e [He|He]%elem_of_app.
    + destruct (K1 e He); auto.
    + destruct (K2 e He) as [Hf|]; [|auto]. left. destruct (g_bus_seen s1 (bus e)) eqn:E; [|done]. rewrite (S1 _ E) in Hf. done.
  - intros Ho. assert (g_overflow s2 = false) as Ho2 by (destruct (g_overflow s2); [by rewrite O2 in Ho|done]).
    destruct (D1 Ho2) as [Da Db]. destruct (D2 Ho) as [Dc Dd]. split.
    + intros b d f [HX|HY]; [eapply done_mono; [exact E2|auto]|auto].
    + intros b d f Hf Ht Hh. destruct (g_bus_seen s2 b) eqn:E; [eapply done_mono; [exact E2|auto]|auto].
Qed.

Lemma ext_weaken (X Y : Z -> Z -> Z -> Prop) s s' : (forall b d f, X b d f <-> Y b d f) -> ext X s s' -> ext Y s s'.
Proof.
  intros HXY [I S O (n & N & G & K) D]. split; [done..| |].
  - exists n. split; [done|]. split; [done|]. intros e He. destruct (K e He); [by left|right; by apply HXY].
  - intros Ho. destruct (D Ho) as [Da Db]. split; [|done]. intros b d f HY. by apply Da, HXY.
Qed.

(** The states that only differ in the port, the log and the space. *)
Definition still s s' : Prop := iflag s' = iflag s /\ g_devs s' = g_devs s /\ g_overflow s' = g_overflow s /\ g_bus_seen s' = g_bus_seen s.

Lemma still_trans s1 s2 s3 : still s1 s2 -> still s2 s3 -> still s1 s3.
Proof. intros (A1 & A2 & A3 & A4) (B1 & B2 & B3 & B4). unfold still. split_and!; congruence. Qed.

Lemma same_still s s' : same s s' -> still s s'.
Proof. by intros [? ? ? ? ?]. Qed.

Lemma same_inv s s' : same s s' -> inv s -> inv s'.
Proof. intros [S1 S2 S3 S4 S5] [I1 I2 I3 I4 I5 I6]. split; rewrite ?S3, ?S4, ?S5; try done. intros a. by rewrite S1. Qed.

Lemma ext_still X s1 s s' : still s1 s -> ext X s s' -> ext X s1 s'.
Proof. intros (A1 & A2 & A3 & A4) [E1 E2 E3 E4 E5]. split; rewrite <- ?A1, <- ?A2, <- ?A3, <- ?A4; done. Qed.

Lemma read_inv s b d f off : inv s -> exists s', pci_read32 b d f off s = (reg b d f off, s') /\ inv s' /\ still s s'.
Proof.
  intros I. destruct (read_same b d f b d f off s) as (s' & Hr & S & _). exists s'. rewrite Hr. unfold reg. rewrite (iv_regs s I). split; [done|].
  split; [by eapply same_inv|by apply same_still].
Qed.

Definition unseen s : nat := length (filter (fun b => g_bus_seen s b = false) (seqZ 0 256)).

Definition rec_ok (rec : Z -> Pci (Cfg := Cfg) -> option (Pci (Cfg := Cfg))) (n : nat) : Prop :=
  forall b s, 0 <= b < 256 -> reach b -> inv s -> (unseen s < n)%nat ->
  exists s', rec b s = Some s' /\ inv s' /\ ext (fun _ _ _ => False) s s' /\ g_bus_seen s' b = true.

(** An entry pushed on the table, the rest of the work, and the entry put back
    with its registers. *)
Section Push.
Context (s s1 s2 : Pci (Cfg := Cfg)) (e e' : PciDev).
Context (I : inv s) (Hlt : lenZ (g_devs s) < 64) (Hb : g_bus_seen s (bus e) = true) (Hk : key e ∉ key <$> g_devs s).

Lemma push_inv : still s s1 -> inv s1 -> inv (set_devs s1 (g_devs s1 ++ [e])).
Proof.
  intros (A1 & A2 & A3 & A4) I1. destruct I1 as [J1 J2 J3 J4 J5 J6]. split; cbn [cfg set_devs g_devs g_bus_seen g_overflow]; try done.
  - rewrite fmap_app. apply NoDup_app. split; [done|]. split; [|apply NoDup_singleton]. intros k Hk1 Hk2. apply list_elem_of_singleton in Hk2 as ->. rewrite A2 in Hk1. done.
  - rewrite length_app. cbn. rewrite A2. lia.
  - intros k Hk1. rewrite fmap_app in Hk1. apply elem_of_app in Hk1 as [Hk1|Hk1]; [by apply J5|]. apply list_elem_of_singleton in Hk1 as ->. by rewrite A4.
  - intros Ho. rewrite A3 in Ho. destruct (iv_over s I Ho). lia.
Qed.

Lemma key_put (l new : list PciDev) : key e' = key e -> key <$> <[length l := e']> ((l ++ [e]) ++ new) = key <$> (l ++ [e]) ++ new.
Proof.
  intros He. rewrite <- app_assoc, <- (Nat.add_0_r (length l)), insert_app_r. cbn [app insert list_insert]. rewrite !fmap_app. cbn [fmap list_fmap]. by rewrite He.
Qed.

Lemma put_back (l new : list PciDev) : <[length l := e']> ((l ++ [e]) ++ new) = l ++ e' :: new.
Proof. by rewrite <- app_assoc, <- (Nat.add_0_r (length l)), insert_app_r. Qed.

Lemma push_done : still s s1 -> inv s1 -> ext (fun _ _ _ => False) (set_devs s1 (g_devs s1 ++ [e])) s2 -> inv s2 -> key e' = key e -> entry_ok e' ->
  (forall sec, bridge_to (bus e) (dev e) (fn e) sec -> g_bus_seen s2 sec = true) ->
  forall s3, still s2 s3 -> inv s3 -> let s' := set_devs s3 (<[length (g_devs s) := e']> (g_devs s3)) in
  inv s' /\ ext (fun b d f => (b, d, f) = key e) s s'.
Proof.
  intros St1 I1 [X1 X2 X3 (new & N & G & K) D] I2 He Hok Hsec s3 (B1 & B2 & B3 & B4) I3. cbv zeta. destruct St1 as (A1 & A2 & A3 & A4).
  cbn [set_devs g_devs g_bus_seen g_overflow iflag] in *. rewrite A2 in N.
  assert (key <$> <[length (g_devs s) := e']> (g_devs s3) = key <$> g_devs s3) as Hkeys by (rewrite B2, N; by apply key_put).
  assert (<[length (g_devs s) := e']> (g_devs s3) = g_devs s ++ e' :: new) as Hput by (rewrite B2, N; apply put_back).
  assert (forall b d f, done_fun s2 b d f -> done_fun (set_devs s3 (<[length (g_devs s) := e']> (g_devs s3))) b d f) as Hdone.
  { intros b d f [Q1 Q2]. split; cbn [set_devs g_devs g_bus_seen]; rewrite ?Hkeys, ?B2, ?B4; done. }
  split.
  - destruct I3 as [J1 J2 J3 J4 J5 J6]. split; cbn [cfg set_devs g_devs g_bus_seen g_overflow]; rewrite ?Hkeys; try done.
    + by rewrite length_insert.
    + by rewrite length_insert.
  - split; cbn [set_devs g_devs g_bus_seen g_overflow iflag].
    + congruence.
    + intros b Hs. rewrite B4. apply X2. by rewrite A4.
    + intros Ho. rewrite B3. apply X3. by rewrite A3.
    + exists (e' :: new). split; [done|]. split; [by constructor|]. intros x [->|Hx]%elem_of_cons.
      * right. exact He.
      * rewrite <- A4. left. destruct (K x Hx); done.
    + intros Ho. rewrite B3 in Ho. destruct (D Ho) as [_ D2]. split.
      * intros b d f Hkey. unfold key in Hkey. apply Hdone. injection Hkey as -> -> ->. split; [|done].
        rewrite N, !fmap_app. apply elem_of_app. left. apply elem_of_app. right. by left.
      * intros b d f Hf Ht Hh. apply Hdone. apply D2; [by rewrite A4|by rewrite <- B4|done].
Qed.
End Push.

Lemma laid_regs c c' b d f count l : (forall a, cfg_read c' a = cfg_read c a) -> forall i, laid_out c b d f i count l -> laid_out c' b d f i count l.
Proof.
  intros S. induction l as [|x l IH]; intros i Hl; cbn [laid_out] in *; [done|]. destruct x; destruct_and!; rewrite !S; split_and!; auto.
Qed.

(** The registers of the table entry, read in any state of the scan. *)
Lemma read_bars_entry e s n : inv s -> n = bar_count (reg (bus e) (dev e) (fn e) 0x0C) -> bar e = replicate 6 0 -> bar_size e = replicate 6 0 ->
  exists e' s', read_bars e n s = (e', s') /\ inv s' /\ still s s' /\
  e' = mkDev (bus e) (dev e) (fn e) (class_code e) (subclass e) (prog_if e) (header_type e) (vendor e) (device e) (bar e') (bar_size e') /\
  forall l, laid_out c0 (bus e) (dev e) (fn e) 0 n l ->
    bar e' = (fst <$> slot_bars l) ++ replicate (Z.to_nat (6 - n)) 0 /\ bar_size e' = (snd <$> slot_bars l) ++ replicate (Z.to_nat (6 - n)) 0.
Proof.
  intros I Hn B1 B2. unfold reg in Hn. rewrite <- (iv_regs s I) in Hn. unfold read_bars.
  assert (n <= bar_count (cfg_read (cfg s) (cfg_addr (bus e) (dev e) (fn e) 0x0C))) as Hc by lia. assert (0 <= n) by (subst n; unfold bar_count; repeat case_match; lia).
  pose proof (read_bars_same (Z.to_nat n) n 0 e s (Z.le_refl 0) Hc) as Hs.
  pose proof (fun l H => read_bars_laid l (Z.to_nat n) 0 e s [] [] n H Hc (Z.le_refl 0) ltac:(lia)) as Hl.
  destruct (read_bars_loop (Z.to_nat n) n 0 e s) as [e' s']. destruct Hs as (S & _ & E). exists e', s'. split; [done|]. split; [by eapply same_inv|]. split; [by apply same_still|]. split; [done|].
  intros l Hlay. destruct (Hl l) as (_ & _ & -> & ->); [by apply (laid_regs c0); [apply iv_regs|]|by unfold bars_at; rewrite B1, B2|done].
Qed.

Lemma unseen_still s s' : g_bus_seen s' = g_bus_seen s -> unseen s' = unseen s.
Proof. intros E. unfold unseen. by rewrite E. Qed.

Lemma u8_class x : 0 <= x -> u8 x = x mod 256.
Proof. done. Qed.

Lemma scan_function_ok rec n b d f s : rec_ok rec n -> inv s -> g_bus_seen s b = true -> (unseen s < n)%nat -> 0 <= d < 32 -> present b d 0 = true ->
  f = 0 \/ 1 <= f < 8 /\ tst (u8 (reg b d 0 0x0C .>> 16) .& 0x80) = true -> (b, d, f) ∉ key <$> g_devs s ->
  exists s', scan_function rec b d f s = Some s' /\ inv s' /\ ext (fun b' d' f' => (b', d', f') = (b, d, f) /\ present b d f = true) s s'.
Proof.
  intros Hrec I Hb Hn Hd Hp0 Hf Hk. unfold scan_function. destruct (read_inv s b d f 0 I) as (s1 & -> & I1 & St1).
  destruct (Z.eqb_spec (reg b d f 0 .& 0xFFFF) 0xFFFF) as [Ep|Ep].
  { exists s1. split; [done|]. split; [done|]. assert (present b d f = false) as Hpf by (unfold present; by rewrite Ep).
    eapply ext_still; [exact St1|]. eapply ext_weaken; [|apply ext_refl]. intros b' d' f'. rewrite Hpf. split; [done|]. by intros [_ ?]. }
  assert (present b d f = true) as Hp by (unfold present; by apply negb_true_iff, Z.eqb_neq).
  assert (has_fun b d f) as Hfun by done. pose proof (iv_seen s I b Hb) as [Hreach Hb256].
  pose proof St1 as (A1 & A2 & A3 & A4). unfold PCI_MAX_DEVICES. rewrite A2. destruct (Z.leb_spec 64 (lenZ (g_devs s))) as [Hfull|Hlt].
  { exists (set_overflow s1). split; [done|]. pose proof (iv_len s I). split.
    - destruct I1 as [J1 J2 J3 J4 J5 J6]. split; try done. intros _. cbn [g_devs set_overflow]. rewrite A2. split; [lia|]. exists b, d, f. done.
    - split; cbn [set_overflow g_devs g_bus_seen g_overflow iflag]; [done|by rewrite A4|done| |done].
      exists []. rewrite app_nil_r. split; [done|]. split; [constructor|]. intros e He. by apply elem_of_nil in He. }
  destruct (read_inv s1 b d f 8 I1) as (s2 & -> & I2 & St2). destruct (read_inv s2 b d f 0x0C I2) as (s3 & -> & I3 & St3).
  assert (still s s3) as St by (eapply still_trans; [|exact St3]; by eapply still_trans). fold (header b d f).
  set (e := mkDev b d f _ _ _ _ _ _ _ _). pose proof St as (B1 & B2 & B3 & B4). cbv zeta.
  assert (inv (set_devs s3 (g_devs s3 ++ [e]))) as Ipush by (by apply (push_inv s s3 e)).
  set (sp := set_devs s3 (g_devs s3 ++ [e])) in *.
  assert (exists s4, (if (header b d f =? 1) && (class_code e =? 6) && (subclass e =? 4) then let '(r, s) := pci_read32 b d f 24 sp in rec (u8 (r .>> 8)) s else Some sp) = Some s4 /\
    inv s4 /\ ext (fun _ _ _ => False) sp s4 /\ forall sec, bridge_to b d f sec -> g_bus_seen s4 sec = true) as (s4 & -> & I4 & X4 & Hsec).
  { destruct ((header b d f =? 1) && (class_code e =? 6) && (subclass e =? 4)) eqn:Eb.
    - destruct (read_inv sp b d f 24 Ipush) as (s4 & -> & I4 & St4).
      assert (bridge_to b d f (u8 (reg b d f 24 .>> 8))) as Hbr by (unfold e in Eb; cbn [class_code subclass] in Eb; unfold bridge_to; generalize dependent (u8 (reg b d f 8 .>> 24)); generalize dependent (u8 (reg b d f 8 .>> 16)); generalize dependent (header b d f); intros; split_and!; lia).
      destruct (Hrec (u8 (reg b d f 24 .>> 8)) s4) as (s5 & -> & I5 & X5 & Hs5); [apply u8_range|by eapply reach_bridge|done| |].
      { destruct St4 as (_ & _ & _ & E4). rewrite (unseen_still sp s4 E4). by rewrite (unseen_still s sp B4). }
      exists s5. split; [done|]. split; [done|]. split; [by eapply ext_still|]. intros sec (_ & _ & _ & ->). exact Hs5.
    - exists sp. split; [done|]. split; [done|]. split; [apply ext_refl|]. intros sec (H1 & H2 & H3 & _). subst e. cbn in Eb. rewrite H1, H2, H3 in Eb. done. }
  cbn [mbind option_bind].
  assert (exists e' s5, (if header b d f =? 0 then let '(e, s) := read_bars e 6 s4 in Some (set_devs s (<[length (g_devs s3) := e]> (g_devs s)))
     else if header b d f =? 1 then let '(e, s) := read_bars e 2 s4 in Some (set_devs s (<[length (g_devs s3) := e]> (g_devs s))) else Some s4) =
     Some (set_devs s5 (<[length (g_devs s) := e']> (g_devs s5))) /\ inv s5 /\ still s4 s5 /\ key e' = key e /\ entry_ok e') as (e' & s5 & -> & I5 & St5 & Hke & Hok).
  { assert (forall e', e' = mkDev (bus e) (dev e) (fn e) (class_code e) (subclass e) (prog_if e) (header_type e) (vendor e) (device e) (bar e') (bar_size e') ->
      (forall l, laid_out c0 b d f 0 (bar_count (reg b d f 0x0C)) l -> bar e' = (fst <$> slot_bars l) ++ replicate (Z.to_nat (6 - bar_count (reg b d f 0x0C))) 0 /\
         bar_size e' = (snd <$> slot_bars l) ++ replicate (Z.to_nat (6 - bar_count (reg b d f 0x0C))) 0) -> key e' = key e /\ entry_ok e') as Hmk.
    { intros e' -> Hbars. split; [done|]. split; try done. }
    assert (forall k, bar_count (reg b d f 0x0C) = k -> exists e' s5, read_bars e k s4 = (e', s5) /\ inv s5 /\ still s4 s5 /\ key e' = key e /\ entry_ok e') as Hrb.
    { intros k Ek. destruct (read_bars_entry e s4 k I4 (eq_sym Ek) eq_refl eq_refl) as (e' & s5 & Hr & I5 & St5 & He & Hl). exists e', s5. split; [done|]. split; [done|]. split; [done|].
      apply Hmk; [done|]. rewrite Ek. exact Hl. }
    rewrite <- B2. change (header b d f) with (u8 ((reg b d f 0x0C .>> 16) .& 0x7F)) in *. unfold bar_count in Hrb, Hmk.
    destruct (_ =? 0).
    - destruct (Hrb 6 eq_refl) as (e' & s5 & -> & H5). exists e', s5. done.
    - destruct (_ =? 1).
      + destruct (Hrb 2 eq_refl) as (e' & s5 & -> & H5). exists e', s5. done.
      + exists e, s4. destruct X4 as [_ _ _ (new & N & _) _]. rewrite list_insert_id; [|rewrite N; unfold sp; cbn [set_devs g_devs]; rewrite <- app_assoc, lookup_app_r, Nat.sub_diag by lia; done].
        split; [by destruct s4|]. split; [done|]. split; [done|]. apply Hmk; [done|]. intros l Hl. pose proof (laid_le _ _ _ _ _ _ _ Hl) as Hle.
        destruct (slot_bars l); [done|]. cbn in Hle. lia. }
  destruct (push_done s s3 s4 e e' St I3 X4 I4 Hke Hok Hsec s5 St5 I5) as [Ifin Xfin].
  eexists. split; [reflexivity|]. split; [exact Ifin|]. eapply ext_weaken; [|exact Xfin]. intros b' d' f'. unfold key, e; cbn. rewrite Hp. naive_solver.
Qed.

Lemma unseen_mono s s' : (forall b, g_bus_seen s b = true -> g_bus_seen s' b = true) -> (unseen s' <= unseen s)%nat.
Proof.
  intros Hs. unfold unseen. induction (seqZ 0 256) as [|b l IH]; [done|]. rewrite !filter_cons.
  repeat case_decide; cbn [length]; try lia. destruct (g_bus_seen s b) eqn:E; [|done]. apply Hs in E. congruence.
Qed.

Lemma unseen_mark s b : 0 <= b < 256 -> g_bus_seen s b = false -> (unseen (set_seen s (upd (g_bus_seen s) b true)) < unseen s)%nat.
Proof.
  intros Hb Hs. unfold unseen. cbn [set_seen g_bus_seen]. assert (b ∈ seqZ 0 256) as Hin by (apply elem_of_seqZ; lia).
  assert (forall l, (length (filter (fun x => upd (g_bus_seen s) b true x = false) l) <= length (filter (fun x => g_bus_seen s x = false) l))%nat) as Hle.
  { induction l as [|x l IH]; [done|]. rewrite !filter_cons. repeat case_decide; cbn [length]; try lia. unfold upd in *. case_decide; congruence. }
  induction (seqZ 0 256) as [|x l IH]; [by apply elem_of_nil in Hin|]. specialize (Hle l). rewrite !filter_cons. destruct (decide (x = b)) as [->|Hne].
  - rewrite (decide_False (P := upd (g_bus_seen s) b true b = false)) by (by rewrite upd_eq). rewrite decide_True by done. cbn [length]. lia.
  - apply elem_of_cons in Hin as [->|Hin]; [done|]. specialize (IH Hin). destruct (decide (g_bus_seen s x = false)) as [E|E].
    + rewrite decide_True by (by rewrite upd_ne). cbn [length]. lia.
    + rewrite decide_False by (by rewrite upd_ne). lia.
Qed.

(** The table's functions of bus [b] are among [P]. *)
Definition only s b (P : Z -> Z -> Prop) : Prop := forall d f, (b, d, f) ∈ key <$> g_devs s -> P d f.

Lemma ext_only X s s' b P : ext X s s' -> g_bus_seen s b = true -> only s b P -> only s' b (fun d f => P d f \/ X b d f).
Proof.
  intros [_ _ _ (new & N & _ & K) _] Hb HP d f Hin. rewrite N, fmap_app in Hin. apply elem_of_app in Hin as [Hin|Hin]; [left; by apply HP|].
  apply list_elem_of_fmap in Hin as (e & He & Hin). unfold key in He. injection He as -> -> ->. destruct (K e Hin); [congruence|by right].
Qed.

Section Loops.
Context (rec : Z -> Pci (Cfg := Cfg) -> option (Pci (Cfg := Cfg))) (n : nat) (Hrec : rec_ok rec n) (b : Z).

(** A loop over indices: the body deals with [X i], from the states whose
    functions of the bus are those of the indices before. *)
Lemma each_ok (body : Z -> Pci -> option Pci) (X : Z -> Z -> Z -> Prop) P :
  forall lo m s, inv s -> g_bus_seen s b = true -> (unseen s < n)%nat -> 0 <= m ->
  only s b (fun d f => P d f \/ exists j, j < lo /\ X j d f) ->
  (forall i s, lo <= i < lo + m -> inv s -> g_bus_seen s b = true -> (unseen s < n)%nat -> only s b (fun d f => P d f \/ exists j, j < i /\ X j d f) ->
     exists s', body i s = Some s' /\ inv s' /\ ext (fun b' d f => b' = b /\ X i d f) s s') ->
  exists s', each (seqZ lo m) body s = Some s' /\ inv s' /\ ext (fun b' d f => b' = b /\ exists j, lo <= j < lo + m /\ X j d f) s s'.
Proof.
  intros lo m s I Hb Hn Hm Ho Hbody. revert lo s I Hb Hn Ho Hbody. pattern m. apply natlike_ind; [| |done]; clear m Hm.
  - intros lo s I Hb Hn Ho Hbody. rewrite seqZ_nil by lia. exists s. split; [done|]. split; [done|]. eapply ext_weaken; [|apply ext_refl]. intros b' d f. split; [done|]. intros (_ & j & Hj & _). lia.
  - intros m Hm IH lo s I Hb Hn Ho Hbody. rewrite seqZ_cons by lia. cbn [each].
    destruct (Hbody lo s) as (s1 & -> & I1 & X1); [lia|done..|]. cbn [mbind option_bind].
    replace (Z.pred (Z.succ m)) with m by lia. replace (Z.succ lo) with (lo + 1) by lia.
    pose proof (ex_seen _ _ _ X1) as Hs1. pose proof (unseen_mono s s1 Hs1).
    destruct (IH (lo + 1) s1) as (s2 & -> & I2 & X2); [done|auto|lia| | |].
    + intros d f Hin. destruct (ext_only _ _ _ _ _ X1 Hb Ho d f Hin) as [[?|(j & ? & ?)]|[_ ?]]; [by left|right; exists j; split; [lia|done]|right; exists lo; split; [lia|done]].
    + intros i s0 Hi. apply Hbody. lia.
    + exists s2. split; [done|]. split; [done|]. eapply ext_weaken; [|exact (ext_trans _ _ _ _ _ X1 X2)]. intros b' d f. split.
      * intros [[-> Hx]|[-> (j & Hj & Hx)]]; (split; [done|]); [exists lo|exists j]; (split; [lia|done]).
      * intros [-> (j & Hj & Hx)]. destruct (decide (j = lo)) as [->|]; [by left|right]. split; [done|]. exists j. split; [lia|done].
Qed.

Lemma scan_dev_ok d s : inv s -> g_bus_seen s b = true -> (unseen s < n)%nat -> 0 <= d < 32 -> only s b (fun d' f' => False \/ exists j, j < d /\ d' = j /\ has_fun b d' f') ->
  exists s', scan_dev rec b d s = Some s' /\ inv s' /\ ext (fun b' d' f' => b' = b /\ d' = d /\ has_fun b d' f') s s'.
Proof.
  intros I Hb Hn Hd Ho. unfold scan_dev. destruct (read_inv s b d 0 0 I) as (s1 & -> & I1 & St1).
  destruct (Z.eqb_spec (reg b d 0 0 .& 0xFFFF) 0xFFFF) as [Ep|Ep].
  { exists s1. split; [done|]. split; [done|]. eapply ext_still; [exact St1|]. eapply ext_weaken; [|apply ext_refl]. intros b' d' f'. split; [done|].
    intros (_ & -> & _ & Hp & _). unfold present in Hp. by rewrite Ep in Hp. }
  assert (present b d 0 = true) as Hp by (unfold present; by apply negb_true_iff, Z.eqb_neq).
  destruct (read_inv s1 b d 0 0x0C I1) as (s2 & -> & I2 & St2). assert (still s s2) as (B1 & B2 & B3 & B4) by (by eapply still_trans). cbv zeta.
  destruct (scan_function_ok rec n b d 0 s2 Hrec I2) as (s3 & -> & I3 & X3); [by rewrite B4|by rewrite (unseen_still s s2)|done|done|by left| |].
  { rewrite B2. intros Hin. destruct (Ho _ _ Hin) as [[]|(j & Hj & -> & _)]. lia. }
  apply (ext_still _ s) in X3; [|done]. cbn [mbind option_bind].
  destruct (tst (u8 (reg b d 0 12 .>> 16) .& 128)) eqn:Em.
  - pose proof (ex_seen _ _ _ X3) as Hs3. pose proof (unseen_mono s s3 Hs3).
    destruct (each_ok (fun f => scan_function rec b d f) (fun i d' f' => d' = d /\ f' = i /\ has_fun b d f') (fun d' f' => d' < d \/ d' = d /\ f' = 0) 1 7 s3) as (s4 & -> & I4 & X4); [done|auto|lia|lia| | |].
    + intros d' f' Hin. left. destruct (ext_only _ _ _ _ _ X3 Hb Ho d' f' Hin) as [[[]|(j & ? & -> & _)]|[[= -> ->] _]]; [left; lia|by right].
    + intros i s0 Hi I0 Hb0 Hn0 Ho0. destruct (scan_function_ok rec n b d i s0 Hrec I0) as (s5 & -> & I5 & X5); [done..|right; split; [lia|done]| |].
      { intros Hin. destruct (Ho0 _ _ Hin) as [[|[_ ?]]|(j & Hj & _ & ? & _)]; lia. }
      exists s5. split; [done|]. split; [done|]. eapply ext_weaken; [|exact X5]. intros b' d' f'. split.
      * intros [[= -> -> ->] Hpi]. split; [done|]. split; [done|]. split; [done|]. split; [done|]. split; [done|]. split; [done|]. right. split; [lia|done].
      * intros (-> & -> & -> & _ & _ & Hpi & _). done.
    + exists s4. split; [done|]. split; [done|]. eapply ext_weaken; [|exact (ext_trans _ _ _ _ _ X3 X4)]. intros b' d' f'. split.
      * intros [[[= -> -> ->] _]|(-> & j & Hj & -> & -> & Hf)]; [|done]. split; [done|]. split; [done|]. split; [done|]. split; [done|]. split; [done|]. by left.
      * intros (-> & -> & Hf). pose proof Hf as (_ & _ & Hpf & [->|[Hr _]]); [by left|right]. split; [done|]. exists f'. split; [lia|done].
  - exists s3. split; [done|]. split; [done|]. eapply ext_weaken; [|exact X3]. intros b' d' f'. split.
    + intros [[= -> -> ->] _]. split; [done|]. split; [done|]. split; [done|]. split; [done|]. split; [done|]. by left.
    + intros (-> & -> & Hf). pose proof Hf as (_ & _ & Hpf & [->|[_ Ht]]); [done|]. congruence.
Qed.
End Loops.

Lemma scan_bus_ok fuel : rec_ok (scan_bus fuel) fuel.
Proof.
  induction fuel as [|fuel IH]; intros b s Hb Hr I Hn; [lia|]. cbn [scan_bus]. destruct (g_bus_seen s b) eqn:Es.
  { exists s. split; [done|]. split; [done|]. split; [apply ext_refl|done]. }
  pose proof (unseen_mark s b Hb Es) as Hm. set (s1 := set_seen s (upd (g_bus_seen s) b true)) in *.
  assert (forall x, g_bus_seen s x = true -> g_bus_seen s1 x = true) as Hmono by (intros x Hx; unfold s1, upd; cbn; by case_decide).
  assert (inv s1) as I1.
  { destruct I as [J1 J2 J3 J4 J5 J6]. split; cbn [set_seen cfg g_devs g_overflow]; try done.
    - intros x Hx. unfold s1, upd in Hx. cbn in Hx. case_decide; [by subst|auto].
    - intros k Hk. apply Hmono. auto. }
  destruct (each_ok fuel b (scan_dev (scan_bus fuel) b) (fun i d f => d = i /\ has_fun b d f) (fun _ _ => False) 0 32 s1) as (s2 & -> & I2 & X2); [done|by unfold s1; cbn; rewrite upd_eq|lia|lia| | |].
  { intros d f Hin. pose proof (iv_keys s I _ Hin) as Hk. cbn in Hk. congruence. }
  { intros i s0 Hi I0 Hb0 Hn0 Ho0. apply (scan_dev_ok (scan_bus fuel) fuel IH b i s0 I0 Hb0 Hn0); [lia|done]. }
  exists s2. split; [done|]. split; [done|]. destruct X2 as [E1 E2 E3 (new & N & G & K) D]. split; [|apply E2; unfold s1; cbn; by rewrite upd_eq].
  split; [done|auto|done| |].
  - exists new. split; [done|]. split; [done|]. intros e He. left. destruct (K e He) as [Hf|[-> _]]; [|done].
    destruct (g_bus_seen s (bus e)) eqn:E; [|done]. apply Hmono in E. congruence.
  - intros Ho. destruct (D Ho) as [Da Db]. split; [done|]. intros b' d f Hf Ht Hh. destruct (decide (b' = b)) as [->|Hne].
    + apply Da. split; [done|]. exists d. split; [apply Hh|done].
    + apply Db; [|done..]. unfold s1; cbn. by rewrite upd_ne.
Qed.
End Tree.

Lemma pci_scan_table {Cfg : Type} `{CS : ConfigSpace Cfg} {CL : ConfigLaws Cfg} (s : Pci (Cfg := Cfg)) :
  exists r s', pci_scan s = Some (r, s') /\
  (forall a, cfg_read (cfg s') a = cfg_read (cfg s) a) /\ iflag s' = iflag s /\
  NoDup (key <$> g_devs s') /\ Forall (entry_ok (cfg s)) (g_devs s') /\
  ((r = pci_count s' /\ r <= PCI_MAX_DEVICES /\ forall b d f, reach (cfg s) b /\ has_fun (cfg s) b d f <-> (b, d, f) ∈ key <$> g_devs s') \/
   (r = -1 /\ pci_count s' = PCI_MAX_DEVICES /\ exists b d f, reach (cfg s) b /\ has_fun (cfg s) b d f /\ (b, d, f) ∉ key <$> g_devs s')).
Proof.
  unfold pci_scan. set (s0 := mkPci (port_addr s) (cfg s) (iflag s) [] false (fun _ => false) (log s)).
  assert (inv (cfg s) s0) as I0 by (split; try done; [constructor|intros k Hk; by apply elem_of_nil in Hk]).
  destruct (scan_bus_ok (cfg s) 257 0 s0) as (s' & -> & I & X & H0); [lia|constructor|done| |].
  { unfold unseen. pose proof (length_filter (fun b => g_bus_seen s0 b = false) (seqZ 0 256)) as Hl. rewrite length_seqZ in Hl. lia. }
  destruct X as [E1 E2 E3 (new & N & G & K) D]. cbn [mbind option_bind]. eexists _, s'. split; [reflexivity|].
  pose proof (iv_over _ _ I) as Hov. cbn in N. split; [apply I|]. split; [done|]. split; [apply I|]. split; [by rewrite N|]. destruct (g_overflow s') eqn:Eo.
  - right. destruct (Hov eq_refl) as [Hl Hx]. done.
  - left. split; [done|]. split; [apply I|]. destruct (D eq_refl) as [_ Hd].
    assert (forall b, reach (cfg s) b -> g_bus_seen s' b = true) as Hseen.
    { intros b Hb. induction Hb as [|b d f sec Hb IH Hf Hbr]; [done|]. destruct (Hd b d f eq_refl IH Hf) as [_ Hs]. by apply Hs. }
    intros b d f. split.
    + intros [Hb Hf]. apply (Hd b d f eq_refl (Hseen b Hb) Hf).
    + intros Hin. apply list_elem_of_fmap in Hin as (e & He & Hin). unfold key in He. injection He as -> -> ->. rewrite N in Hin.
      rewrite Forall_forall in G. destruct (G e Hin) as [Hf Hr _ _ _ _]. done.
Qed.

(** C23: The scan finds the bus tree, and leaves it alone. On every machine
    whose configuration registers behave as the specification says, [pci_scan]
    terminates, bridge loops included, and its table holds, once each, exactly
    the functions on the buses that can be reached from bus 0 through bridges,
    with their identity and, for any legal layout of the address registers,
    the base and the size of each memory window; or it returns -1, the table
    full of 64 such functions and at least one more left out. Every register
    reads as before the scan, and so does the interrupt flag. *)
Theorem pci_scan_correct {Cfg : Type} `{CS : ConfigSpace Cfg} {CL : ConfigLaws Cfg} (s : Pci (Cfg := Cfg)) :
  exists r s', pci_scan s = Some (r, s') /\
  (forall a, cfg_read (cfg s') a = cfg_read (cfg s) a) /\ iflag s' = iflag s /\
  NoDup (key <$> g_devs s') /\ Forall (entry_ok (cfg s)) (g_devs s') /\
  ((r = pci_count s' /\ r <= PCI_MAX_DEVICES /\ forall b d f, reach (cfg s) b /\ has_fun (cfg s) b d f <-> (b, d, f) ∈ key <$> g_devs s') \/
   (r = -1 /\ pci_count s' = PCI_MAX_DEVICES /\ exists b d f, reach (cfg s) b /\ has_fun (cfg s) b d f /\ (b, d, f) ∉ key <$> g_devs s')).
Proof. exact (pci_scan_table s). Qed.

(** Sizing an address register does no harm: in the whole treatment of a
    device the registers are only written while interrupts are off and the
    device's memory decoding is disabled, every register, the command register
    and its status bits included, reads as before when it is over, the
    interrupt flag is as it was, and the table gets what the firmware laid
    out. *)
Theorem read_bars_correct {Cfg : Type} `{CS : ConfigSpace Cfg} {CL : ConfigLaws Cfg} (d : PciDev) (s : Pci (Cfg := Cfg)) (l : list Slot) :
  let n := bar_count (cfg_read (cfg s) (cfg_addr (bus d) (dev d) (fn d) 0x0C)) in
  laid_out (cfg s) (bus d) (dev d) (fn d) 0 n l -> bar d = replicate 6 0 -> bar_size d = replicate 6 0 ->
  let '(d', s') := read_bars d n s in
  bar d' = (fst <$> slot_bars l) ++ replicate (Z.to_nat (6 - n)) 0 /\ bar_size d' = (snd <$> slot_bars l) ++ replicate (Z.to_nat (6 - n)) 0 /\
  same s s' /\ sizing_log (bus d) (dev d) (fn d) s s'.
Proof.
  cbv zeta. set (n := bar_count _). intros Hl B1 B2. assert (0 <= n) by (unfold n, bar_count; repeat case_match; lia). unfold read_bars.
  pose proof (read_bars_same (Z.to_nat n) n 0 d s (Z.le_refl 0) (Z.le_refl _)) as Hs.
  pose proof (read_bars_laid l (Z.to_nat n) 0 d s [] [] n Hl (Z.le_refl _) (Z.le_refl 0) ltac:(lia)) as Hb.
  destruct (read_bars_loop _ _ _ d s) as [d' s']. destruct Hs as (S & L & _). destruct Hb as (_ & _ & -> & ->); [by unfold bars_at; rewrite B1, B2|done].
Qed.

(** The search by class: the [skip]-th entry that matches. *)
Definition matches (cc sc pi : Z) (d : PciDev) : bool :=
  (class_code d =? cc) && (subclass d =? sc) && ((pi =? PCI_ANY_PROGIF) || (prog_if d =? pi)).

Lemma pci_find_spec {Cfg : Type} (s : Pci (Cfg := Cfg)) cc sc pi skip :
  pci_find s cc sc pi skip = filter (fun d => matches cc sc pi d = true) (g_devs s) !! Z.to_nat skip.
Proof.
  unfold pci_find. revert skip. induction (g_devs s) as [|d l IH]; intros skip; [done|]. cbn [find_scan]. unfold matches in *.
  destruct (class_code d =? cc) eqn:E1; cbn [negb orb]; [|rewrite filter_cons_False by (rewrite E1; done); apply IH].
  destruct (subclass d =? sc) eqn:E2; cbn [negb orb]; [|rewrite filter_cons_False by (rewrite E1, E2; done); apply IH].
  destruct (pi =? PCI_ANY_PROGIF) eqn:E3; [|destruct (prog_if d =? pi) eqn:E4]; cbn [negb andb].
  3: { rewrite filter_cons_False by (rewrite E1, E2, E4; done). apply IH. }
  all: rewrite filter_cons_True by (rewrite E1, E2, ?E4; done); destruct (Z.ltb_spec 0 skip);
    [replace (Z.to_nat skip) with (S (Z.to_nat (skip - 1))) by lia; apply IH|by replace (Z.to_nat skip) with 0%nat by lia].
Qed.

(** Enabling a device sets the two bits, and clears no status bit. *)
Lemma pci_enable_spec {Cfg : Type} `{CS : ConfigSpace Cfg} {CL : ConfigLaws Cfg} (s : Pci (Cfg := Cfg)) d :
  let a := cfg_addr (bus d) (dev d) (fn d) PCI_CMD in
  let '(r, s') := pci_enable s (Some d) in
  r = 0 /\ cfg_read (cfg s') a = cfg_read (cfg s) a .| (6 .& rw a) /\ forall b, b <> a -> cfg_read (cfg s') b = cfg_read (cfg s) b.
Proof.
  cbv zeta. destruct (read_same (bus d) (dev d) (fn d) (bus d) (dev d) (fn d) PCI_CMD s) as (s1 & Hr & S & _). unfold pci_enable. rewrite Hr.
  set (a := cfg_addr _ _ _ _). set (x := cfg_read (cfg s) a). split; [done|].
  pose proof (w1c_command (bus d) (dev d) (fn d)) as Hw. pose proof (rw_command (bus d) (dev d) (fn d)) as Hrw. fold a in Hw, Hrw.
  change (cfg (pci_write32 (bus d) (dev d) (fn d) PCI_CMD ((x .& 0xFFFF) .| 6) s1)) with (cfg_write (cfg s1) a ((x .& 0xFFFF) .| 6)). split.
  - rewrite write_plain.
    + rewrite (sa_cfg _ _ S). fold x. apply Z.bits_inj'. intros i Hi. rewrite !Z.lor_spec, Z.ldiff_spec, !Z.land_spec, Z.lor_spec, Z.land_spec. change 0xFFFF with (Z.ones 16). rewrite Z.testbit_ones_nonneg by lia.
      destruct (Z.ltb_spec i 16); [|rewrite (testbit_high (rw a) 16) by lia]; by destruct (Z.testbit x i), (Z.testbit (rw a) i), (Z.testbit 6 i).
    + apply Z.bits_inj'. intros i Hi. rewrite Z.land_spec, Z.lor_spec, Z.land_spec, Z.bits_0. pose proof (f_equal (fun z => Z.testbit z i) Hw) as Hi16. cbn beta in Hi16.
      rewrite Z.land_spec, Z.bits_0 in Hi16. change 0xFFFF with (Z.ones 16) in *. rewrite Z.testbit_ones_nonneg in * by lia. change 6 with (0xFFFF .& 6).
      rewrite Z.land_spec. change 0xFFFF with (Z.ones 16). rewrite Z.testbit_ones_nonneg by lia.
      destruct (Z.ltb_spec i 16); [|by rewrite !andb_false_r]. rewrite andb_true_r in Hi16. by rewrite Hi16.
  - intros b Hb. rewrite write_other by lia. apply S.
Qed.

(** * A machine *)

(** Registers as a function: a storage controller with a 64-bit window of 16
    KiB, a 32-bit one of 4 KiB and an I/O one, at every device number. *)
Definition demo_rw (a : Z) : Z :=
  let off := a .& 0xFF in
  if off =? 0x04 then 0x0547 else if off =? 0x10 then u32 (bar_mask 64 14) else if off =? 0x14 then bar_mask 64 14 .>> 32 else
  if off =? 0x18 then bar_mask 32 12 else if off =? 0x1C then 0xFFFFFFE0 else 0.
Definition demo_w1c (a : Z) : Z := if a .& 0xFF =? 0x04 then 0xF9000000 else 0.

#[local] Instance demo_space : ConfigSpace (Z -> Z) := {|
  cfg_read c a := u32 (c a);
  cfg_write c a v := upd c a (Z.ldiff (Z.ldiff (u32 (c a)) (demo_rw a)) (demo_w1c a .& v) .| (v .& demo_rw a));
  rw := demo_rw; w1c := demo_w1c |}.

Lemma demo_rw_range a : 0 <= demo_rw a < 2 ^ 32.
Proof. unfold demo_rw. repeat case_match; vm_compute; split; congruence. Qed.

Lemma ldiff_bound a b w : 0 <= w -> 0 <= a < 2 ^ w -> 0 <= Z.ldiff a b < 2 ^ w.
Proof. intros Hw Ha. apply bits_below; [done|]. intros i Hi. rewrite Z.ldiff_spec. by rewrite (testbit_high a w). Qed.

#[local] Instance demo_laws : ConfigLaws (Z -> Z).
Proof.
  split.
  - intros c a. apply u32_range.
  - apply demo_rw_range.
  - intros c a v b. cbn [cfg_read cfg_write demo_space rw w1c]. destruct (Z.eqb_spec b a) as [->|Hne]; [|by rewrite upd_ne].
    rewrite upd_eq. apply u32_small. apply lor_bound; [lia| |].
    + apply ldiff_bound; [lia|]. apply ldiff_bound; [lia|apply u32_range].
    + pose proof (demo_rw_range a). apply bits_below; [lia|]. intros i Hi. by rewrite Z.land_spec, (testbit_high (demo_rw a) 32), andb_false_r by lia.
  - intros b d f. cbn. unfold demo_rw. rewrite cfg_addr_off. vm_compute. split; congruence.
  - intros b d f. cbn. unfold demo_w1c. rewrite cfg_addr_off. reflexivity.
  - intros c b d f i Hi. pose proof (bar_count_le (cfg_read c (cfg_addr b d f 12))). cbn. unfold demo_w1c. rewrite cfg_addr_off.
    assert (i = 0 \/ i = 1 \/ i = 2 \/ i = 3 \/ i = 4 \/ i = 5) as [->|[->|[->|[->|[->| ->]]]]] by lia; reflexivity.
Qed.

(** The registers of the function 0 of device 3; every other one is absent. *)
Definition demo_regs : Z -> Z :=
  let A := cfg_addr 0 3 0 in
  upd (upd (upd (upd (upd (upd (upd (fun _ => 0xFFFFFFFF) (A 0x00) 0x00101B36) (A 0x08) 0x01080202) (A 0x0C) 0) (A 0x04) 0x00100007)
    (A 0x10) 0xFEBD0004) (A 0x14) 0) (A 0x18) 0xFEBD4000.
Definition demo_full : Z -> Z := let A := cfg_addr 0 3 0 in upd (upd (upd demo_regs (A 0x1C) 0xC001) (A 0x20) 0) (A 0x24) 0.
Definition demo_pci : Pci := mkPci 0 demo_full true [] false (fun _ => false) [].
Definition demo_slots : list Slot := [SMem64 14 0xFEBD0000 4; SMem32 12 0xFEBD4000 0; SIo; SNone; SNone].

Lemma demo_laid : laid_out demo_full 0 3 0 0 6 demo_slots.
Proof. cbn [laid_out demo_slots]. split_and!; try reflexivity; split; try reflexivity; try lia; vm_compute; split; congruence. Qed.

Lemma read_bars_correct_witness :
  laid_out demo_full 0 3 0 0 6 demo_slots /\
  let '(d', s') := read_bars (mkDev 0 3 0 1 8 2 0 0x1B36 0x0010 (replicate 6 0) (replicate 6 0)) 6 demo_pci in
  bar d' = [0xFEBD0000; 0; 0xFEBD4000; 0; 0; 0] /\ bar_size d' = [16384; 0; 4096; 0; 0; 0] /\ same demo_pci s'.
Proof.
  split; [exact demo_laid|].
  pose proof (read_bars_correct (mkDev 0 3 0 1 8 2 0 0x1B36 0x0010 (replicate 6 0) (replicate 6 0)) demo_pci demo_slots demo_laid eq_refl eq_refl) as Hw.
  change (bar_count (cfg_read (cfg demo_pci) _)) with 6 in Hw.
  destruct (read_bars _ 6 demo_pci) as [d' s']. destruct Hw as (-> & -> & Hs & _). split; [reflexivity|]. split; [reflexivity|exact Hs].
Defined.

Lemma pci_scan_correct_witness : ConfigLaws (Z -> Z) /\ exists r s', pci_scan demo_pci = Some (r, s') /\ (forall a, cfg_read (cfg s') a = u32 (demo_full a)) /\ iflag s' = true.
Proof.
  split; [exact demo_laws|]. destruct (pci_scan_correct demo_pci) as (r & s' & H1 & H2 & H3 & _). exists r, s'. split; [exact H1|]. split; [exact H2|exact H3].
Defined.
