(* ===== verification/Ledger.v ===== *)
(** Hardware-token ledger: model of
    [source/arch/amd64/kernel/xeret/mem/token_ledger.c] and
    [source/kerncall/include/capability.h].

    The C globals [g_table], [g_live] and [g_next_hint] are the record
    [Ledger]; the operations that also allocate or clear physical memory act
    on [MemState], which adds the frame bitmap and the words of physical
    memory.  Each operation is one critical section of the ledger lock; calls
    into [physical.c] happen outside it, in the order of the source. *)

From S2P Require Import Prelude.
From S2P Require Import Physical.

#[local] Ltac Zify.zify_post_hook ::= Z.div_mod_to_equations.

(** * Data *)

Definition XTOK_KIND_NONE : Z := 0.
Definition XTOK_KIND_RAM : Z := 1.
Definition XTOK_KIND_MMIO : Z := 2.
Definition XTOK_KIND_IRQ : Z := 3.

Definition XTOK_RIGHT_READ : Z := 1 .<< 0.
Definition XTOK_RIGHT_WRITE : Z := 1 .<< 1.
Definition XTOK_RIGHT_EXECUTE : Z := 1 .<< 2.
Definition XTOK_RIGHT_MAP : Z := 1 .<< 3.
Definition XTOK_RIGHT_DMA : Z := 1 .<< 4.
Definition XTOK_RIGHT_RELEASE : Z := 1 .<< 5.

Definition XTOKEN_INVALID : Z := 0.
Definition XTOK_OWNER_KERNEL : Z := 0.
Definition XTOK_TABLE_SLOTS : Z := 4096.

Definition XTOK_REL_ESTALE : Z := -1.
Definition XTOK_REL_EBUSY : Z := -2.
Definition XTOK_REL_ERIGHTS : Z := -3.

Definition XTOK_MAP_OK : Z := 0.
Definition XTOK_MAP_ESTALE : Z := -1.
Definition XTOK_MAP_EOWNER : Z := -2.
Definition XTOK_MAP_ERIGHTS : Z := -3.
Definition XTOK_MAP_EKIND : Z := -4.
Definition XTOK_MAP_EBUSY : Z := -5.

Record XTokenEntry := mkEntry {
  generation : Z;
  kind : Z;
  owner_id : Z;
  rights : Z;
  e_phys : Z;
  n_frames : Z;
  live : bool;
  map_count : Z
}.

Record Ledger := mkLedger {
  g_table : list XTokenEntry;
  g_live : Z;
  g_next_hint : Z
}.

(** Physical memory as the kernel sees it through its identity map: 64-bit
    words by byte address; a missing word is 0. *)
Record MemState := mkMem {
  phys : PhysBitmap;
  mem : gmap Z Z;
  ledger : Ledger
}.

Definition mem_word (m : gmap Z Z) (a : Z) : Z := default 0 (m !! a).

Definition set_ledger (st : MemState) (l : Ledger) : MemState := mkMem (phys st) (mem st) l.
Definition set_phys (st : MemState) (p : PhysBitmap) : MemState := mkMem p (mem st) (ledger st).

(** * Tokens and slots *)

Definition pack_token (slot gen : Z) : Z := (slot .<< 32) .| gen.
Definition token_slot (tok : Z) : Z := u32 (tok .>> 32).
Definition token_gen (tok : Z) : Z := u32 (tok .& 0xFFFFFFFF).

Definition set_entry (l : Ledger) (slot : Z) (e : XTokenEntry) : Ledger :=
  mkLedger (<[Z.to_nat slot := e]> (g_table l)) (g_live l) (g_next_hint l).

(** The slot and entry of a live token; [None] for the null pointer. *)
Definition lookup_live (l : Ledger) (tok : Z) : option (Z * XTokenEntry) :=
  if tok =? XTOKEN_INVALID then None else
  let slot := token_slot tok in
  let gen := token_gen tok in
  if slot >=? XTOK_TABLE_SLOTS then None else
  match g_table l !! Z.to_nat slot with
  | None => None
  | Some e =>
    if negb (live e) then None else
    if negb (generation e =? gen) then None else Some (slot, e)
  end.

(** Round-robin search for a dead slot; [i] counts the slots already tried. *)
Fixpoint claim_scan (fuel : nat) (l : Ledger) (i : Z) : option Z :=
  match fuel with
  | O => None
  | S k =>
    let idx := (g_next_hint l + i) mod XTOK_TABLE_SLOTS in
    match g_table l !! Z.to_nat idx with
    | Some e => if negb (live e) then Some idx else claim_scan k l (i + 1)
    | None => None
    end
  end.

Definition claim_slot (l : Ledger) : option (Z * Ledger) :=
  match claim_scan (Z.to_nat XTOK_TABLE_SLOTS) l 0 with
  | Some idx => Some (idx, mkLedger (g_table l) (g_live l) ((idx + 1) mod XTOK_TABLE_SLOTS))
  | None => None
  end.

Definition fresh_entry : XTokenEntry := mkEntry 1 XTOK_KIND_NONE 0 0 0 0 false 0.

Definition xtok_init : Ledger :=
  mkLedger (replicate (Z.to_nat XTOK_TABLE_SLOTS) fresh_entry) 0 0.

(** * Allocation *)

Definition seal_ram_locked (l : Ledger) (owner ph n rts : Z) : Z * Ledger :=
  if (ph =? 0) || (n =? 0) then (XTOKEN_INVALID, l) else
  match claim_slot l with
  | None => (XTOKEN_INVALID, l)
  | Some (slot, l) =>
    match g_table l !! Z.to_nat slot with
    | None => (XTOKEN_INVALID, l)
    | Some e =>
      let e' := mkEntry (generation e) XTOK_KIND_RAM owner rts ph n true (map_count e) in
      let l' := set_entry l slot e' in
      (pack_token slot (generation e), mkLedger (g_table l') (u32 (g_live l + 1)) (g_next_hint l'))
    end
  end.

Definition zero_frames (ph n : Z) (m : gmap Z Z) : gmap Z Z :=
  for_range 0 (u64 (n * (XERET_FRAME_SIZE / 8))) (fun i m => <[ph + 8 * i := 0]> m) m.

(** The common tail of [xtok_alloc_ram] and [xtok_alloc_ram_huge]. *)
Definition seal_or_free (owner ph n rts : Z) (p : PhysBitmap) (st : MemState) : Z * MemState :=
  let m := zero_frames ph n (mem st) in
  let '(tok, l) := seal_ram_locked (ledger st) owner ph n rts in
  if tok =? XTOKEN_INVALID then (tok, mkMem (phys_free_frames ph n p) m l)
  else (tok, mkMem p m l).

Definition xtok_alloc_ram (owner n rts : Z) (st : MemState) : Z * MemState :=
  if n =? 0 then (XTOKEN_INVALID, st) else
  let '(ph, p) := phys_alloc_frames n (phys st) in
  if ph =? 0 then (XTOKEN_INVALID, set_phys st p) else
  seal_or_free owner ph n rts p st.

Definition xtok_alloc_ram_huge (owner rts : Z) (st : MemState) : Z * MemState :=
  let '(ph, p) := phys_alloc_huge (phys st) in
  if ph =? 0 then (XTOKEN_INVALID, set_phys st p) else
  seal_or_free owner ph XERET_FRAMES_PER_HUGE rts p st.

(** * Queries *)

Definition xtok_validate (tok rights_needed : Z) (l : Ledger) : bool :=
  match lookup_live l tok with
  | Some (_, e) => (rights e .& rights_needed) =? rights_needed
  | None => false
  end.

Definition xtok_ram_info (tok : Z) (l : Ledger) : option (Z * Z) :=
  match lookup_live l tok with
  | Some (_, e) => if negb (kind e =? XTOK_KIND_RAM) then None else Some (e_phys e, n_frames e)
  | None => None
  end.

Definition xtok_live_count (l : Ledger) : Z := g_live l.

Definition xtok_map_count (tok : Z) (l : Ledger) : Z :=
  match lookup_live l tok with
  | Some (_, e) => map_count e
  | None => 0xFFFFFFFF
  end.

(** The slots of an owner in table order, at most [max] of them. *)
Fixpoint owner_scan (tbl : list XTokenEntry) (slot n max owner : Z) : list Z :=
  match tbl with
  | [] => []
  | e :: r =>
    if n <? max then
      if live e && (owner_id e =? owner)
      then pack_token slot (generation e) :: owner_scan r (slot + 1) (n + 1) max owner
      else owner_scan r (slot + 1) n max owner
    else []
  end.

Definition xtok_owner_tokens (owner max : Z) (l : Ledger) : list Z :=
  owner_scan (g_table l) 0 0 max owner.

Definition usage_step (owner : Z) (acc : Z * Z) (e : XTokenEntry) : Z * Z :=
  if live e && (owner_id e =? owner) then (u64 (acc.1 + n_frames e), u32 (acc.2 + 1)) else acc.

(** Frames and tokens an owner holds. *)
Definition xtok_owner_usage (owner : Z) (l : Ledger) : Z * Z :=
  fold_left (usage_step owner) (g_table l) (0, 0).

(** * Release *)

Definition REL_CHECK_RIGHT : Z := 1.
Definition REL_CHECK_OWNER : Z := 2.

Definition gen_next (g : Z) : Z :=
  let g := u32 (g + 1) in if g =? 0 then 1 else g.

Definition release_impl (tok flags owner : Z) (st : MemState) : Z * MemState :=
  let l := ledger st in
  match lookup_live l tok with
  | None => (XTOK_REL_ESTALE, st)
  | Some (slot, e) =>
    if tst (flags .& REL_CHECK_OWNER) && negb (owner_id e =? owner) then (XTOK_REL_ESTALE, st) else
    if tst (flags .& REL_CHECK_RIGHT) && ((rights e .& XTOK_RIGHT_RELEASE) =? 0)
    then (XTOK_REL_ERIGHTS, st) else
    if negb (map_count e =? 0) then (XTOK_REL_EBUSY, st) else
    let ph := e_phys e in
    let n := n_frames e in
    let was_ram := (kind e =? XTOK_KIND_RAM) && negb (ph =? 0) && negb (n =? 0) in
    let e' := mkEntry (gen_next (generation e)) XTOK_KIND_NONE 0 0 0 0 false 0 in
    let l' := set_entry l slot e' in
    let l' := mkLedger (g_table l') (if g_live l >? 0 then g_live l - 1 else g_live l) (g_next_hint l') in
    let p' := if was_ram then phys_free_frames ph n (phys st) else phys st in
    (0, mkMem p' (mem st) l')
  end.

Definition xtok_release (tok : Z) (st : MemState) : Z * MemState :=
  let '(r, st') := release_impl tok REL_CHECK_RIGHT 0 st in
  (if r =? XTOK_REL_ERIGHTS then -1 else r, st').

Definition xtok_release_owned (tok owner : Z) (st : MemState) : Z * MemState :=
  release_impl tok (REL_CHECK_RIGHT .| REL_CHECK_OWNER) owner st.

Definition xtok_reclaim (tok : Z) (st : MemState) : Z * MemState :=
  release_impl tok 0 0 st.

(** * Map gate *)

Definition set_map_count (e : XTokenEntry) (c : Z) : XTokenEntry :=
  mkEntry (generation e) (kind e) (owner_id e) (rights e) (e_phys e) (n_frames e) (live e) c.

(** Status, and on success the physical address and frame count. *)
Definition xtok_map_acquire (tok caller rights_needed : Z) (l : Ledger) : Z * (Z * Z) * Ledger :=
  match lookup_live l tok with
  | None => (XTOK_MAP_ESTALE, (0, 0), l)
  | Some (slot, e) =>
    if negb (kind e =? XTOK_KIND_RAM) then (XTOK_MAP_EKIND, (0, 0), l) else
    if negb (owner_id e =? caller) then (XTOK_MAP_EOWNER, (0, 0), l) else
    if negb ((rights e .& rights_needed) =? rights_needed) then (XTOK_MAP_ERIGHTS, (0, 0), l) else
    if map_count e =? 0xFFFF then (XTOK_MAP_EBUSY, (0, 0), l) else
    (XTOK_MAP_OK, (e_phys e, n_frames e), set_entry l slot (set_map_count e (map_count e + 1)))
  end.

Definition xtok_map_release (tok : Z) (l : Ledger) : Ledger :=
  match lookup_live l tok with
  | Some (slot, e) =>
    if map_count e >? 0 then set_entry l slot (set_map_count e (map_count e - 1)) else l
  | None => l
  end.

(** * Invariant *)

Record entry_ok (e : XTokenEntry) : Prop := {
  eo_gen : 0 < generation e < 2 ^ 32;
  eo_owner : 0 <= owner_id e < 2 ^ 32;
  eo_maps : 0 <= map_count e <= 0xFFFF;
  eo_live : live e = true ->
    kind e = XTOK_KIND_RAM /\ 0 < e_phys e < 2 ^ 64 /\ e_phys e mod 4096 = 0 /\ 0 < n_frames e;
  eo_dead : live e = false ->
    kind e = XTOK_KIND_NONE /\ owner_id e = 0 /\ rights e = 0 /\ e_phys e = 0 /\
    n_frames e = 0 /\ map_count e = 0
}.

Record ledger_wf (l : Ledger) : Prop := {
  lw_len : length (g_table l) = 4096%nat;
  lw_entry : Forall entry_ok (g_table l);
  lw_live : g_live l = countb live (g_table l);
  lw_hint : 0 <= g_next_hint l < XTOK_TABLE_SLOTS
}.

(** The frames of an entry. *)
Definition in_frames (e : XTokenEntry) (f : Z) : Prop :=
  e_phys e / 4096 <= f < e_phys e / 4096 + n_frames e.

(** Exclusive ownership: the frames of live tokens lie inside the bitmap, are
    marked used, and no two live tokens share a frame. *)
Record own_ok (p : PhysBitmap) (tbl : list XTokenEntry) : Prop := {
  oo_range : forall i e, tbl !! i = Some e -> live e = true ->
    e_phys e / 4096 + n_frames e <= total_frames p;
  oo_used : forall i e f, tbl !! i = Some e -> live e = true -> in_frames e f ->
    bit_test p f = false;
  oo_disj : forall i j e e' f, tbl !! i = Some e -> tbl !! j = Some e' ->
    live e = true -> live e' = true -> in_frames e f -> in_frames e' f -> i = j
}.

Record mem_inv (st : MemState) : Prop := {
  mi_phys : phys_wf (phys st);
  mi_ledger : ledger_wf (ledger st);
  mi_own : own_ok (phys st) (g_table (ledger st))
}.

(** What a token denotes: its entry while it is live. *)
Definition info (l : Ledger) (tok : Z) : option XTokenEntry := snd <$> lookup_live l tok.

(** * Token arithmetic *)

Lemma pack_token_add s g : 0 <= s -> 0 <= g < 2 ^ 32 -> pack_token s g = s * 2 ^ 32 + g.
Proof.
  intros Hs Hg. unfold pack_token. rewrite lor_disjoint_add, shiftl_mul; [lia|lia|].
  apply Z.bits_inj'. intros i Hi. rewrite Z.land_spec, Z.shiftl_spec, Z.bits_0 by lia.
  destruct (Z.ltb_spec i 32).
  - rewrite Z.testbit_neg_r by lia. done.
  - rewrite (testbit_high g 32) by lia. by rewrite andb_false_r.
Qed.

Lemma token_slot_div t : 0 <= t < 2 ^ 64 -> token_slot t = t / 2 ^ 32.
Proof.
  intros Ht. unfold token_slot. rewrite shiftr_div by lia. apply u32_small.
  split; [apply Z.div_pos; lia|]. apply Z.div_lt_upper_bound; lia.
Qed.

Lemma token_gen_mod t : token_gen t = t mod 2 ^ 32.
Proof.
  unfold token_gen. change 0xFFFFFFFF with (2 ^ 32 - 1).
  rewrite land_pow2_mod by lia. apply u32_small. apply Z.mod_pos_bound. lia.
Qed.

Lemma token_eq_pack t s g :
  0 <= t < 2 ^ 64 -> 0 <= s -> 0 <= g < 2 ^ 32 ->
  t = pack_token s g <-> token_slot t = s /\ token_gen t = g.
Proof.
  intros Ht Hs Hg. rewrite pack_token_add, token_slot_div, token_gen_mod by lia. lia.
Qed.

Lemma token_slot_pack s g : 0 <= s < 2 ^ 32 -> 0 <= g < 2 ^ 32 -> token_slot (pack_token s g) = s.
Proof. intros. rewrite pack_token_add, token_slot_div by lia. lia. Qed.

Lemma token_gen_pack s g : 0 <= s -> 0 <= g < 2 ^ 32 -> token_gen (pack_token s g) = g.
Proof. intros. rewrite pack_token_add, token_gen_mod by lia. lia. Qed.

Lemma pack_token_range s g : 0 <= s < 4096 -> 0 < g < 2 ^ 32 -> 0 < pack_token s g < 2 ^ 64.
Proof. intros. rewrite pack_token_add by lia. lia. Qed.

(** * Lookup *)

Lemma lookup_live_Some l t s e :
  lookup_live l t = Some (s, e) <->
  t <> 0 /\ s = token_slot t /\ s < 4096 /\ g_table l !! Z.to_nat s = Some e /\
  live e = true /\ generation e = token_gen t.
Proof.
  unfold lookup_live. unfold XTOKEN_INVALID, XTOK_TABLE_SLOTS. rewrite Z.geb_leb.
  destruct (Z.eqb_spec t 0); [split; [done|intros (? & _); done]|].
  destruct (Z.leb_spec 4096 (token_slot t)); [split; [done|intros (_ & -> & ? & _); lia]|].
  destruct (g_table l !! Z.to_nat (token_slot t)) as [e'|] eqn:E.
  2: { split; [done|]. intros (_ & -> & _ & ? & _). congruence. }
  destruct (live e') eqn:El; simpl.
  2: { split; [done|]. intros (_ & -> & _ & ? & ? & _). congruence. }
  destruct (Z.eqb_spec (generation e') (token_gen t)); simpl.
  - split; [intros [= <- <-]; auto 10|]. intros (_ & -> & _ & ? & _). congruence.
  - split; [done|]. intros (_ & -> & _ & ? & _ & ?). congruence.
Qed.

Lemma token_slot_nonneg t : 0 <= token_slot t.
Proof. pose proof (u32_range (t .>> 32)). unfold token_slot. lia. Qed.

Lemma info_Some l t e :
  info l t = Some e <->
  t <> 0 /\ token_slot t < 4096 /\ g_table l !! Z.to_nat (token_slot t) = Some e /\
  live e = true /\ generation e = token_gen t.
Proof.
  unfold info. rewrite fmap_Some. split.
  - intros ([s e'] & H & ->). apply lookup_live_Some in H as (? & -> & ?). auto.
  - intros (? & ? & ?). exists (token_slot t, e). split; [|done]. apply lookup_live_Some. auto.
Qed.

Lemma info_lookup l t e : info l t = Some e <-> lookup_live l t = Some (token_slot t, e).
Proof. rewrite info_Some, lookup_live_Some. tauto. Qed.

Lemma info_None l t : info l t = None <-> lookup_live l t = None.
Proof. unfold info. apply fmap_None. Qed.

Lemma set_entry_lookup l s e i :
  0 <= s -> (Z.to_nat s < length (g_table l))%nat ->
  g_table (set_entry l s e) !! i = if decide (i = Z.to_nat s) then Some e else g_table l !! i.
Proof.
  intros Hs Hlen. simpl. case_decide as E; [subst; by apply list_lookup_insert_eq|].
  by apply list_lookup_insert_ne.
Qed.

(** Replacing a slot changes what the tokens of that slot denote, and only those. *)
Lemma info_set_entry l s e t :
  0 <= s < 4096 -> length (g_table l) = 4096%nat ->
  info (set_entry l s e) t =
  if decide (token_slot t = s)
  then if decide (t <> 0 /\ live e = true /\ generation e = token_gen t) then Some e else None
  else info l t.
Proof.
  intros Hs Hlen. pose proof (token_slot_nonneg t) as Hts. apply option_eq. intros e'.
  rewrite info_Some, set_entry_lookup by lia.
  destruct (decide (token_slot t = s)) as [E|E].
  - rewrite decide_True by congruence. destruct (decide _) as [D|D].
    + split; [by intros (_ & _ & ? & _)|]. intros [= <-]. split_and!; try tauto; lia.
    + split; [|done]. intros (? & ? & [= <-] & ? & ?). tauto.
  - rewrite decide_False by lia. by rewrite info_Some.
Qed.

Lemma info_counts l a b t : info (mkLedger (g_table l) a b) t = info l t.
Proof. done. Qed.

Lemma entry_of l i e : ledger_wf l -> g_table l !! i = Some e -> entry_ok e.
Proof. intros Hwf H. eapply Forall_lookup_1; [apply Hwf|done]. Qed.

Lemma info_entry l t e : ledger_wf l -> info l t = Some e -> entry_ok e /\ live e = true.
Proof. intros Hwf H. apply info_Some in H as (_ & _ & H & Hl & _). eauto using entry_of. Qed.

(** A live slot is denoted by its packed token. *)
Lemma info_pack l s e :
  ledger_wf l -> 0 <= s < 4096 -> g_table l !! Z.to_nat s = Some e -> live e = true ->
  info l (pack_token s (generation e)) = Some e.
Proof.
  intros Hwf Hs He Hl. pose proof (eo_gen e (entry_of l _ _ Hwf He)) as Hg.
  pose proof (pack_token_range s (generation e) Hs Hg) as Hr.
  apply info_Some. rewrite token_slot_pack, token_gen_pack by lia. split_and!; (done || lia).
Qed.

(** * Preservation by slot update *)

Lemma ledger_wf_set l s e0 e gl h :
  ledger_wf l -> 0 <= s < 4096 -> g_table l !! Z.to_nat s = Some e0 -> entry_ok e ->
  gl = g_live l - (if live e0 then 1 else 0) + (if live e then 1 else 0) ->
  0 <= h < XTOK_TABLE_SLOTS ->
  ledger_wf (mkLedger (<[Z.to_nat s := e]> (g_table l)) gl h).
Proof.
  intros Hwf Hs He0 He Hgl Hh. split; simpl.
  - rewrite length_insert. apply Hwf.
  - apply Forall_insert; [apply Hwf|done].
  - rewrite (countb_insert _ _ _ _ _ He0), <- (lw_live l Hwf). done.
  - done.
Qed.

(** Changing an entry without touching its life or its frames keeps ownership. *)
Lemma own_ok_same p tbl i e0 e :
  own_ok p tbl -> tbl !! i = Some e0 -> live e = live e0 -> e_phys e = e_phys e0 ->
  n_frames e = n_frames e0 -> own_ok p (<[i := e]> tbl).
Proof.
  intros [Hr Hu Hd] He0 Hl Hp Hn.
  assert (forall j e', <[i := e]> tbl !! j = Some e' -> exists e1, tbl !! j = Some e1 /\
    live e' = live e1 /\ e_phys e' = e_phys e1 /\ n_frames e' = n_frames e1) as Hback.
  { intros j e' H. destruct (decide (j = i)) as [->|].
    - rewrite list_lookup_insert_eq in H by eauto using lookup_lt_Some. simplify_eq. eauto.
    - rewrite list_lookup_insert_ne in H by done. eauto. }
  unfold in_frames in *. split.
  - intros j e' H Hl'. destruct (Hback j e' H) as (e1 & H1 & E1 & E2 & E3).
    rewrite E2, E3. apply (Hr j e1); congruence.
  - intros j e' f H Hl' Hf. destruct (Hback j e' H) as (e1 & H1 & E1 & E2 & E3).
    unfold in_frames in *. rewrite E2, E3 in Hf. apply (Hu j e1); congruence.
  - intros j k e' e'' f H H' Hl' Hl'' Hf Hf'.
    destruct (Hback j e' H) as (e1 & H1 & E1 & E2 & E3).
    destruct (Hback k e'' H') as (e2 & H2 & F1 & F2 & F3).
    unfold in_frames in *. rewrite E2, E3 in Hf. rewrite F2, F3 in Hf'.
    apply (Hd j k e1 e2 f); congruence.
Qed.

(** * Claiming a slot *)

Lemma claim_scan_spec fuel l i :
  ledger_wf l -> 0 <= i -> Z.of_nat fuel + i = 4096 ->
  match claim_scan fuel l i with
  | Some idx => 0 <= idx < 4096 /\ exists e, g_table l !! Z.to_nat idx = Some e /\ live e = false
  | None => forall k e, i <= k < 4096 ->
      g_table l !! Z.to_nat ((g_next_hint l + k) mod 4096) = Some e -> live e = true
  end.
Proof.
  intros Hwf. revert i. induction fuel as [|n IH]; intros i Hi Hf.
  - simpl. intros k e Hk. lia.
  - cbn [claim_scan]. change XTOK_TABLE_SLOTS with 4096.
    pose proof (Z.mod_pos_bound (g_next_hint l + i) 4096 ltac:(lia)) as Hm.
    destruct (lookup_lt_is_Some_2 (g_table l) (Z.to_nat ((g_next_hint l + i) mod 4096))) as [e He].
    { rewrite (lw_len l Hwf). lia. }
    rewrite He. destruct (live e) eqn:El; simpl.
    + specialize (IH (i + 1) ltac:(lia) ltac:(lia)).
      destruct (claim_scan n l (i + 1)); [done|]. intros k e' Hk He'.
      destruct (Z.eq_dec k i) as [->|]; [by simplify_eq|]. apply (IH k); [lia|done].
    + split; [lia|]. eauto.
Qed.

Lemma claim_slot_spec l :
  ledger_wf l ->
  match claim_slot l with
  | Some (idx, l') => 0 <= idx < 4096 /\
      (exists e, g_table l !! Z.to_nat idx = Some e /\ live e = false) /\
      l' = mkLedger (g_table l) (g_live l) ((idx + 1) mod 4096)
  | None => forall i e, g_table l !! i = Some e -> live e = true
  end.
Proof.
  intros Hwf. unfold claim_slot.
  pose proof (claim_scan_spec (Z.to_nat XTOK_TABLE_SLOTS) l 0 Hwf ltac:(lia) ltac:(reflexivity)) as H.
  destruct (claim_scan _ _ _) as [idx|].
  - destruct H as [Hi He]. auto.
  - intros i e He. pose proof (lookup_lt_Some _ _ _ He) as Hlt. rewrite (lw_len l Hwf) in Hlt.
    pose proof (lw_hint l Hwf) as Hh. change XTOK_TABLE_SLOTS with 4096 in Hh.
    apply (H ((Z.of_nat i - g_next_hint l) mod 4096) e).
    + apply Z.mod_pos_bound. lia.
    + replace ((g_next_hint l + (Z.of_nat i - g_next_hint l) mod 4096) mod 4096) with (Z.of_nat i).
      * by rewrite Nat2Z.id.
      * rewrite Z.add_mod_idemp_r by lia. replace (g_next_hint l + (Z.of_nat i - g_next_hint l))
          with (Z.of_nat i) by lia. by rewrite Z.mod_small by lia.
Qed.

(** * Sealing *)

Definition ram_entry (g owner ph n rts : Z) : XTokenEntry :=
  mkEntry g XTOK_KIND_RAM owner rts ph n true 0.

(** The effect of a successful seal on the table and on what tokens denote. *)
Definition sealed (l l' : Ledger) (tok owner ph n rts : Z) : Prop :=
  exists s e, 0 <= s < 4096 /\ g_table l !! Z.to_nat s = Some e /\ live e = false /\
    tok = pack_token s (generation e) /\ 0 < tok < 2 ^ 64 /\
    g_table l' = <[Z.to_nat s := ram_entry (generation e) owner ph n rts]> (g_table l) /\
    info l tok = None /\
    (forall t, 0 <= t < 2 ^ 64 -> info l' t =
       if decide (t = tok) then Some (ram_entry (generation e) owner ph n rts) else info l t).

Lemma seal_spec l owner ph n rts :
  ledger_wf l -> 0 <= owner < 2 ^ 32 -> 0 < ph < 2 ^ 64 -> ph mod 4096 = 0 -> 0 < n ->
  let '(tok, l') := seal_ram_locked l owner ph n rts in
  ledger_wf l' /\
  ((tok = 0 /\ l' = l /\ forall i e, g_table l !! i = Some e -> live e = true) \/
   (tok <> 0 /\ sealed l l' tok owner ph n rts)).
Proof.
  intros Hwf Ho Hph Hal Hn. unfold seal_ram_locked.
  destruct (Z.eqb_spec ph 0); [lia|]. destruct (Z.eqb_spec n 0); [lia|]. cbn [orb].
  pose proof (claim_slot_spec l Hwf) as Hc. destruct (claim_slot l) as [[s l1]|]; [|auto].
  destruct Hc as (Hs & (e & He & Hd) & ->). cbn [g_table g_live g_next_hint]. rewrite He.
  pose proof (entry_of l _ _ Hwf He) as Heo. pose proof (eo_gen e Heo) as Hg.
  destruct (eo_dead e Heo Hd) as (_ & _ & _ & _ & _ & Hmc). rewrite Hmc.
  fold (ram_entry (generation e) owner ph n rts).
  pose proof (pack_token_range s (generation e) Hs Hg) as Hr.
  assert (g_live l < 4096) as Hgl.
  { rewrite (lw_live l Hwf). pose proof (countb_bound live (<[Z.to_nat s := ram_entry 1 0 0 0 0]> (g_table l))) as Hb.
    rewrite (countb_insert _ _ _ _ _ He), Hd, length_insert, (lw_len l Hwf) in Hb. simpl in Hb. lia. }
  assert (0 <= g_live l) by (rewrite (lw_live l Hwf); apply countb_bound).
  split.
  - cbn [set_entry g_table g_next_hint]. apply (ledger_wf_set l s e); [done|done|done| | |].
    + split; cbn [generation owner_id map_count live kind e_phys n_frames ram_entry];
        [lia|lia|lia|auto|done].
    + rewrite Hd. simpl. rewrite u32_small; lia.
    + apply Z.mod_pos_bound. reflexivity.
  - right. split; [lia|]. exists s, e. split_and!; try done; try lia.
    + destruct (info l _) as [e'|] eqn:Hi; [|done].
      apply info_Some in Hi as (_ & _ & Hi & Hl & _).
      rewrite token_slot_pack in Hi by lia. congruence.
    + intros t Ht. rewrite info_counts, info_set_entry by (simpl; try apply Hwf; lia).
      rewrite info_counts. cbn [live generation ram_entry].
      destruct (decide (token_slot t = s)) as [E|E].
      * destruct (decide (t = pack_token s (generation e))) as [->|Hne].
        -- rewrite decide_True; [done|]. split_and!; [lia|done|].
           by rewrite token_gen_pack by lia.
        -- rewrite decide_False.
           { destruct (info l t) eqn:Hi; [|done]. apply info_Some in Hi as (_ & _ & Hi & Hl & _).
             rewrite E in Hi. congruence. }
           intros (_ & _ & Hgen). apply Hne. apply token_eq_pack; auto; lia.
      * rewrite decide_False; [done|]. intros ->. apply E.
        by rewrite token_slot_pack by lia.
Qed.

(** * Clearing memory *)

Lemma mem_word_insert m a v b : mem_word (<[a:=v]> m) b = if decide (a = b) then v else mem_word m b.
Proof. unfold mem_word. rewrite lookup_insert. by case_decide. Qed.

Lemma zero_frames_spec ph n m a :
  0 <= n < 2 ^ 52 ->
  mem_word (zero_frames ph n m) a =
  if decide (ph <= a < ph + n * 4096 /\ (a - ph) mod 8 = 0) then 0 else mem_word m a.
Proof.
  intros Hn. unfold zero_frames. change (XERET_FRAME_SIZE / 8) with 512.
  rewrite u64_small by lia.
  set (I := fun k m' => mem_word m' a =
    if decide (ph <= a < ph + k * 8 /\ (a - ph) mod 8 = 0) then 0 else mem_word m a).
  assert (I (n * 512) (for_range 0 (n * 512) (fun i m => <[ph + 8 * i := 0]> m) m)) as H.
  { apply for_range_inv; [lia| |].
    - unfold I. rewrite decide_False by lia. done.
    - intros k m' Hk Hi. unfold I in *. rewrite mem_word_insert, Hi.
      repeat case_decide; (done || lia). }
  unfold I in H. rewrite H. repeat case_decide; (done || lia).
Qed.

(** * Allocation *)

(** Adding an entry whose frames were free in [p0], and are used in [p]. *)
Lemma own_ok_add p0 p tbl i e :
  own_ok p0 tbl -> total_frames p = total_frames p0 ->
  (i < length tbl)%nat -> 0 <= e_phys e ->
  e_phys e / 4096 + n_frames e <= total_frames p0 ->
  free_run p0 (e_phys e / 4096) (n_frames e) ->
  frames_set p0 p (e_phys e / 4096) (n_frames e) false ->
  (forall j e', tbl !! j = Some e' -> live e' = true -> 0 <= e_phys e') ->
  own_ok p (<[i := e]> tbl).
Proof.
  intros [Hr Hu Hd] Ht Hi Hp Hle Hrun Hset Hpos.
  assert (forall j e', <[i:=e]> tbl !! j = Some e' -> live e' = true ->
    (j = i /\ e' = e) \/ (j <> i /\ tbl !! j = Some e' /\ 0 <= e_phys e')) as Hback.
  { intros j e' H Hl. destruct (decide (j = i)) as [->|].
    - rewrite list_lookup_insert_eq in H by done. left. by simplify_eq.
    - rewrite list_lookup_insert_ne in H by done. right. eauto. }
  assert (forall j e' f, tbl !! j = Some e' -> live e' = true -> in_frames e' f ->
    in_frames e f -> False) as Hexcl.
  { intros j e' f H Hl Hf Hf'. specialize (Hu j e' f H Hl Hf). specialize (Hrun f Hf'). congruence. }
  split.
  - intros j e' H Hl. rewrite Ht. destruct (Hback j e' H Hl) as [[-> ->]|(_ & H' & _)]; eauto.
  - intros j e' f H Hl Hf. destruct (Hback j e' H Hl) as [[-> ->]|(_ & H' & Hp')]; unfold in_frames in Hf.
    + rewrite Hset, decide_True by lia. done.
    + rewrite Hset by lia. case_decide; [done|]. eauto.
  - intros j k e1 e2 f H1 H2 Hl1 Hl2 Hf1 Hf2.
    destruct (Hback j e1 H1 Hl1) as [[-> ->]|(? & H1' & _)],
             (Hback k e2 H2 Hl2) as [[-> ->]|(? & H2' & _)]; try done.
    + exfalso. eauto.
    + exfalso. eauto.
    + eauto.
Qed.

(** The result of an allocation of [n] frames for [owner] from a well-formed
    state: either a new token that denotes exactly a suitable free
    run, cleared, with everything else unchanged; or no token, and the same
    bitmap and ledger. *)
Definition grant_result (ok : Z -> Prop) (owner n rts : Z) (st : MemState) (r : Z * MemState) : Prop :=
  let '(tok, st') := r in
  (tok <> 0 /\ exists s g,
     0 < s /\ ok s /\ s + n <= total_frames (phys st) /\ free_run (phys st) s n /\
     frames_set (phys st) (phys st') s n false /\ total_frames (phys st') = total_frames (phys st) /\
     sealed (ledger st) (ledger st') tok owner (s * 4096) n rts /\
     info (ledger st') tok = Some (ram_entry g owner (s * 4096) n rts) /\
     (forall a, mem_word (mem st') a =
        if decide (s * 4096 <= a < (s + n) * 4096 /\ a mod 8 = 0) then 0 else mem_word (mem st) a)) \/
  (tok = 0 /\ phys_eqv (phys st') (phys st) /\ ledger st' = ledger st /\
   (forall a, mem_word (mem st') a <> mem_word (mem st) a -> bit_test (phys st) (a / 4096) = true) /\
   ((forall s, 0 <= s -> ok s -> s + n <= total_frames (phys st) -> ~ free_run (phys st) s n) \/
    (forall i e, g_table (ledger st) !! i = Some e -> live e = true))).

Lemma frames_bound p s n : phys_cnt p -> 0 <= s -> 0 <= n -> s + n <= total_frames p -> s + n <= 2 ^ 25.
Proof. intros H Hs Hn Hle. pose proof (wf_total p H) as Ht. rewrite max_frames_val in Ht. lia. Qed.

Lemma own_nonneg l j e : ledger_wf l -> g_table l !! j = Some e -> live e = true -> 0 <= e_phys e.
Proof. intros Hwf He Hl. pose proof (eo_live e (entry_of _ _ _ Hwf He) Hl). lia. Qed.

Lemma own_ok_eqv p q tbl : 
  phys_eqv p q -> (forall i e, tbl !! i = Some e -> live e = true -> 0 <= e_phys e) ->
  own_ok p tbl -> own_ok q tbl.
Proof.
  intros (Ht & _ & _ & Hb) Hpos [Hr Hu Hd]. split; [|intros i e f H Hl Hf|done].
  - intros i e H Hl. rewrite <- Ht. eauto.
  - rewrite <- Hb; [eauto|]. specialize (Hpos i e H Hl). unfold in_frames in Hf. lia.
Qed.

Lemma seal_or_free_spec ok owner n rts st p s :
  mem_inv st -> 0 <= owner < 2 ^ 32 -> 0 < n -> 0 < s -> ok s -> s + n <= total_frames (phys st) ->
  free_run (phys st) s n -> phys_wf p -> frames_set (phys st) p s n false ->
  total_frames p = total_frames (phys st) ->
  grant_result ok owner n rts st (seal_or_free owner (s * 4096) n rts p st) /\
  mem_inv (seal_or_free owner (s * 4096) n rts p st).2.
Proof.
  intros [Hp Hl Ho] How Hn Hs Hok Hle Hrun Hwf Hset Ht. unfold seal_or_free.
  pose proof (frames_bound _ s n Hp ltac:(lia) ltac:(lia) Hle) as Hb.
  assert (s * 4096 / 4096 = s) as Hdiv by lia.
  pose proof (seal_spec (ledger st) owner (s * 4096) n rts Hl How ltac:(lia) ltac:(lia) Hn) as Hseal.
  destruct (seal_ram_locked _ _ _ _ _) as [tok l']. destruct Hseal as [Hl' [(-> & -> & Hfull)|[Hne Hs']]].
  - change (0 =? XTOKEN_INVALID) with true. cbv iota. cbn [snd].
    assert (free_in_range p (s * 4096) n) as Hin.
    { unfold free_in_range. rewrite Hdiv, Ht. lia. }
    assert (phys_eqv (phys_free_frames (s * 4096) n p) (phys st)) as Heqv.
    { destruct (free_frames_in p (s * 4096) n Hwf ltac:(lia) Hin) as (Hc & Hset' & Ht').
      apply phys_eqv_intro; [done|apply Hp|congruence|].
      intros f Hf. rewrite Hset', Hset, Hdiv by done. case_decide; [|done]. symmetry. apply Hrun. lia. }
    split.
    + right. cbn [phys mem ledger]. split_and!; auto.
      intros a Ha. rewrite zero_frames_spec in Ha by lia. case_decide; [|done]. apply Hrun. lia.
    + split; cbn [phys mem ledger]; [by apply free_frames_wf; try lia|done|].
      eapply own_ok_eqv; [symmetry; exact Heqv| |done]. eauto using own_nonneg.
  - destruct (Z.eqb_spec tok XTOKEN_INVALID) as [E|_]; [done|]. cbn [snd].
    pose proof Hs' as (i & e & Hi & He & Hd & Htok & Htr & Htbl & Hnone & Hinfo).
    split.
    + left. split; [done|]. exists s, (generation e). cbn [phys mem ledger]. split_and!; auto.
      * rewrite Hinfo, decide_True by (done || lia). done.
      * intros a. rewrite zero_frames_spec by lia. repeat case_decide; (done || lia).
    + split; cbn [phys mem ledger]; [done|done|]. rewrite Htbl.
      apply (own_ok_add (phys st)); cbn [e_phys n_frames ram_entry]; rewrite ?Hdiv; try done.
      * by eapply lookup_lt_Some.
      * lia.
      * eauto using own_nonneg.
Qed.

Lemma set_phys_same st : set_phys st (phys st) = st.
Proof. by destruct st. Qed.

Lemma alloc_none_result ok owner n rts st :
  (forall s, 0 <= s -> ok s -> s + n <= total_frames (phys st) -> ~ free_run (phys st) s n) ->
  grant_result ok owner n rts st (XTOKEN_INVALID, st).
Proof. intros H. right. split_and!; try done. auto. Qed.

Lemma xtok_alloc_ram_spec owner n rts st :
  mem_inv st -> 0 <= owner < 2 ^ 32 -> 0 < n ->
  grant_result (fun _ => True) owner n rts st (xtok_alloc_ram owner n rts st) /\
  mem_inv (xtok_alloc_ram owner n rts st).2.
Proof.
  intros Hinv Ho Hn. unfold xtok_alloc_ram. destruct (Z.eqb_spec n 0); [lia|].
  pose proof (alloc_frames_result n (phys st) (mi_phys st Hinv) Hn) as Ha.
  destruct (phys_alloc_frames n (phys st)) as [ph p].
  destruct Ha as [(s & Hph & Hs & _ & Hle & Hrun & _ & Hwf & Hset & Ht & _)|[[= -> ->] Hno]];
    cbn [fst snd] in *.
  - subst ph. destruct (Z.eqb_spec (s * 4096) 0); [lia|]. by apply seal_or_free_spec.
  - cbn [Z.eqb]. rewrite set_phys_same. split; [|done]. apply alloc_none_result. auto.
Qed.

Lemma xtok_alloc_ram_huge_spec owner rts st :
  mem_inv st -> 0 <= owner < 2 ^ 32 ->
  grant_result (fun s => s mod 512 = 0) owner 512 rts st (xtok_alloc_ram_huge owner rts st) /\
  mem_inv (xtok_alloc_ram_huge owner rts st).2.
Proof.
  intros Hinv Ho. unfold xtok_alloc_ram_huge.
  pose proof (alloc_huge_result (phys st) (mi_phys st Hinv)) as Ha.
  destruct (phys_alloc_huge (phys st)) as [ph p]. change XERET_FRAMES_PER_HUGE with 512.
  destruct Ha as [(s & Hph & Hs & Hal & Hle & Hrun & _ & Hwf & Hset & Ht & _)|[[= -> ->] Hno]];
    cbn [fst snd] in *.
  - subst ph. destruct (Z.eqb_spec (s * 4096) 0); [lia|]. by apply seal_or_free_spec.
  - cbn [Z.eqb]. rewrite set_phys_same. split; [|done]. apply alloc_none_result. auto.
Qed.

(** * Release *)

Lemma gen_next_range g : 0 < g < 2 ^ 32 -> 0 < gen_next g < 2 ^ 32.
Proof.
  intros Hg. unfold gen_next. pose proof (u32_range (g + 1)).
  destruct (Z.eqb_spec (u32 (g + 1)) 0); lia.
Qed.

Definition dead_entry (g : Z) : XTokenEntry := mkEntry g XTOK_KIND_NONE 0 0 0 0 false 0.

(** The state after a token [tok] that denoted [e] has been released: its
    frames are free, its slot is dead with the next generation, and every
    other token denotes what it did. *)
Definition released (st st' : MemState) (tok : Z) (e : XTokenEntry) : Prop :=
  frames_set (phys st) (phys st') (e_phys e / 4096) (n_frames e) true /\
  total_frames (phys st') = total_frames (phys st) /\ mem st' = mem st /\
  g_table (ledger st') =
    <[Z.to_nat (token_slot tok) := dead_entry (gen_next (generation e))]> (g_table (ledger st)) /\
  (forall t, 0 <= t < 2 ^ 64 -> info (ledger st') t =
     if decide (t = tok) then None else info (ledger st) t).

(** Removing an entry and freeing its frames keeps ownership of the others. *)
Lemma own_ok_remove p q tbl i e g :
  own_ok p tbl -> tbl !! i = Some e -> live e = true -> total_frames q = total_frames p ->
  frames_set p q (e_phys e / 4096) (n_frames e) true ->
  (forall j e', tbl !! j = Some e' -> live e' = true -> 0 <= e_phys e') ->
  own_ok q (<[i := dead_entry g]> tbl).
Proof.
  intros [Hr Hu Hd] He Hl Ht Hset Hpos.
  assert (forall j e', <[i := dead_entry g]> tbl !! j = Some e' -> live e' = true ->
    j <> i /\ tbl !! j = Some e') as Hback.
  { intros j e' H Hl'. destruct (decide (j = i)) as [->|].
    - rewrite list_lookup_insert_eq in H by eauto using lookup_lt_Some. by simplify_eq.
    - by rewrite list_lookup_insert_ne in H. }
  split.
  - intros j e' H Hl'. destruct (Hback j e' H Hl'). rewrite Ht. eauto.
  - intros j e' f H Hl' Hf. destruct (Hback j e' H Hl') as [Hne H'].
    specialize (Hpos j e' H' Hl'). rewrite Hset by (unfold in_frames in Hf; lia).
    case_decide as Hin; [|eauto]. destruct Hne. by eapply (Hd j i e' e f).
  - intros j k e1 e2 f H1 H2 Hl1 Hl2. destruct (Hback j e1 H1 Hl1), (Hback k e2 H2 Hl2). eauto.
Qed.

Lemma info_kill l tok e g a b t :
  ledger_wf l -> 0 <= tok < 2 ^ 64 -> 0 <= t < 2 ^ 64 -> info l tok = Some e ->
  info (mkLedger (<[Z.to_nat (token_slot tok) := dead_entry g]> (g_table l)) a b) t =
  if decide (t = tok) then None else info l t.
Proof.
  intros Hwf Htok Ht Hi. pose proof (token_slot_nonneg tok) as Hns.
  apply info_Some in Hi as (Hnz & Hs & Hi & Hl & Hg).
  change (info (mkLedger (<[Z.to_nat (token_slot tok):=dead_entry g]> (g_table l)) a b) t)
    with (info (set_entry l (token_slot tok) (dead_entry g)) t).
  rewrite info_set_entry by (try apply Hwf; lia). cbn [live dead_entry].
  destruct (decide (token_slot t = token_slot tok)) as [E|E].
  - rewrite (decide_False (P := t <> 0 /\ _)) by (intros (_ & ? & _); done).
    case_decide as D; [done|]. symmetry. destruct (info l t) eqn:Hi'; [|done].
    apply info_Some in Hi' as (_ & _ & Hi' & _ & Hg'). destruct D.
    rewrite E in Hi'. simplify_eq. rewrite !token_slot_div, !token_gen_mod in * by lia. lia.
  - rewrite decide_False by congruence. done.
Qed.

Lemma release_impl_spec tok flags owner st :
  mem_inv st -> 0 <= tok < 2 ^ 64 ->
  match info (ledger st) tok with
  | None => release_impl tok flags owner st = (XTOK_REL_ESTALE, st)
  | Some e =>
    if tst (flags .& REL_CHECK_OWNER) && negb (owner_id e =? owner)
    then release_impl tok flags owner st = (XTOK_REL_ESTALE, st)
    else if tst (flags .& REL_CHECK_RIGHT) && ((rights e .& XTOK_RIGHT_RELEASE) =? 0)
    then release_impl tok flags owner st = (XTOK_REL_ERIGHTS, st)
    else if negb (map_count e =? 0)
    then release_impl tok flags owner st = (XTOK_REL_EBUSY, st)
    else exists st', release_impl tok flags owner st = (0, st') /\ released st st' tok e /\ mem_inv st'
  end.
Proof.
  intros [Hp Hl Ho] Htok. unfold release_impl. destruct (info (ledger st) tok) as [e|] eqn:Hi.
  2: { apply info_None in Hi. by rewrite Hi. }
  pose proof (proj1 (info_lookup _ _ _) Hi) as Hlk. rewrite Hlk.
  repeat (destruct (_ && _); [done|]). destruct (negb _); [done|].
  pose proof (info_entry _ _ _ Hl Hi) as [Heo Hlive].
  destruct (eo_live e Heo Hlive) as (Hk & Hph & Hal & Hn).
  pose proof (proj1 (info_Some _ _ _) Hi) as (Hnz & Hs & He & _ & _).
  pose proof (oo_range _ _ Ho _ _ He Hlive) as Hrange.
  pose proof (frames_bound _ (e_phys e / 4096) (n_frames e) Hp ltac:(lia) ltac:(lia) Hrange) as Hb.
  rewrite Hk. change (XTOK_KIND_RAM =? XTOK_KIND_RAM) with true.
  destruct (Z.eqb_spec (e_phys e) 0); [lia|]. destruct (Z.eqb_spec (n_frames e) 0); [lia|]. cbn [negb andb].
  assert (free_in_range (phys st) (e_phys e) (n_frames e)) as Hin by (unfold free_in_range; lia).
  destruct (free_frames_in (phys st) (e_phys e) (n_frames e) Hp ltac:(lia) Hin) as (Hc & Hset & Ht).
  assert (1 <= g_live (ledger st)) as Hg1.
  { rewrite (lw_live _ Hl). by eapply countb_lookup_pos. }
  rewrite Z.gtb_ltb. destruct (Z.ltb_spec 0 (g_live (ledger st))); [|lia].
  eexists. split; [reflexivity|]. fold (dead_entry (gen_next (generation e))).
  cbn [set_entry g_table g_next_hint]. split.
  - unfold released. cbn [phys mem ledger g_table]. split_and!; try done.
    intros t Ht'. by apply (info_kill _ _ e).
  - split; cbn [phys mem ledger g_table].
    + by apply free_frames_wf; try lia.
    + pose proof (gen_next_range _ (eo_gen e Heo)). pose proof (token_slot_nonneg tok).
      apply (ledger_wf_set _ _ e); [done|lia|done| | |apply Hl].
      * split; cbn; try lia; try done.
      * rewrite Hlive. cbn. lia.
    + eapply (own_ok_remove (phys st)); eauto using own_nonneg.
Qed.

(** A release that returned 0 did its work on an unmapped live token. *)
Lemma release_impl_ok tok flags owner st st' :
  mem_inv st -> 0 <= tok < 2 ^ 64 -> release_impl tok flags owner st = (0, st') ->
  exists e, info (ledger st) tok = Some e /\ map_count e = 0 /\ released st st' tok e /\ mem_inv st'.
Proof.
  intros Hinv Htok Hrel. pose proof (release_impl_spec tok flags owner st Hinv Htok) as H.
  unfold XTOK_REL_ESTALE, XTOK_REL_ERIGHTS, XTOK_REL_EBUSY in H.
  destruct (info (ledger st) tok) as [e|] eqn:Hi; [|congruence].
  destruct (_ && _); [congruence|]. destruct (_ && _); [congruence|].
  destruct (Z.eqb_spec (map_count e) 0); cbn [negb] in H; [|congruence].
  destruct H as (st'' & Hrel' & Hr & Hinv'). assert (st'' = st') as -> by congruence. exists e. auto.
Qed.

(** * Map gate *)

(** What [xtok_map_acquire] and [xtok_map_release] do to the tokens. *)
Lemma info_set_count l tok e c t :
  ledger_wf l -> 0 <= tok < 2 ^ 64 -> 0 <= t < 2 ^ 64 -> info l tok = Some e ->
  info (set_entry l (token_slot tok) (set_map_count e c)) t =
  if decide (t = tok) then Some (set_map_count e c) else info l t.
Proof.
  intros Hwf Htok Ht Hi. pose proof (token_slot_nonneg tok) as Hns.
  apply info_Some in Hi as (Hnz & Hs & Hi & Hl & Hg).
  rewrite info_set_entry by (try apply Hwf; lia). cbn [live generation set_map_count].
  rewrite Hg. destruct (decide (token_slot t = token_slot tok)) as [E|E].
  - destruct (decide (t = tok)) as [->|Hne]; [by rewrite decide_True|].
    rewrite decide_False.
    + destruct (info l t) eqn:Hi'; [|done]. apply info_Some in Hi' as (_ & _ & Hi' & _ & Hg').
      exfalso. apply Hne. rewrite E in Hi'. simplify_eq.
      rewrite !token_slot_div, !token_gen_mod in * by lia. lia.
    + intros (_ & _ & Hg'). apply Hne. rewrite !token_slot_div, !token_gen_mod in * by lia. lia.
  - rewrite decide_False by congruence. done.
Qed.

Lemma set_count_inv st tok e c :
  mem_inv st -> info (ledger st) tok = Some e -> 0 <= c <= 0xFFFF ->
  mem_inv (set_ledger st (set_entry (ledger st) (token_slot tok) (set_map_count e c))).
Proof.
  intros [Hp Hl Ho] Hi Hc. pose proof (token_slot_nonneg tok) as Hns.
  pose proof (info_entry _ _ _ Hl Hi) as [Heo Hlive].
  apply info_Some in Hi as (Hnz & Hs & Hi & _ & Hg).
  split; cbn [set_ledger phys mem ledger]; [done| |].
  - apply (ledger_wf_set _ _ e); [done|lia|done| |cbn; lia|apply Hl].
    destruct Heo as [? ? ? ? ?]. split; cbn; try done. rewrite Hlive. done.
  - cbn [set_entry g_table]. by apply (own_ok_same _ _ _ e).
Qed.

(** A refused request: the state is the old one and the result an error. *)
#[local] Ltac refused Hsame := rewrite Hsame; split; [done|left; split_and!; (done || lia)].

(** [xtok_map_acquire] pins the token it succeeds on, once, and changes nothing otherwise. *)
Lemma map_acquire_spec tok caller need st :
  mem_inv st -> 0 <= tok < 2 ^ 64 ->
  let '(r, (ph, n), l') := xtok_map_acquire tok caller need (ledger st) in
  mem_inv (set_ledger st l') /\
  ((r < 0 /\ l' = ledger st /\ ph = 0 /\ n = 0) \/
   (r = XTOK_MAP_OK /\ exists e, info (ledger st) tok = Some e /\
      ph = e_phys e /\ n = n_frames e /\ owner_id e = caller /\ rights e .& need = need /\
      map_count e < 0xFFFF /\
      forall t, 0 <= t < 2 ^ 64 -> info l' t =
        if decide (t = tok) then Some (set_map_count e (map_count e + 1)) else info (ledger st) t)).
Proof.
  intros Hinv Htok. unfold xtok_map_acquire.
  assert (set_ledger st (ledger st) = st) as Hsame by (by destruct st).
  destruct (lookup_live (ledger st) tok) as [[s e]|] eqn:Hl.
  2: { unfold XTOK_MAP_ESTALE. refused Hsame. }
  pose proof (proj1 (lookup_live_Some _ _ _ _) Hl) as (_ & -> & _).
  apply info_lookup in Hl. pose proof (info_entry _ _ _ (mi_ledger _ Hinv) Hl) as [Heo Hlive]. pose proof (eo_maps e Heo).
  unfold XTOK_MAP_EKIND, XTOK_MAP_EOWNER, XTOK_MAP_ERIGHTS, XTOK_MAP_EBUSY.
  destruct (negb _); [refused Hsame|].
  destruct (Z.eqb_spec (owner_id e) caller); cbn [negb]; [|refused Hsame].
  destruct (Z.eqb_spec (rights e .& need) need); cbn [negb]; [|refused Hsame].
  destruct (Z.eqb_spec (map_count e) 0xFFFF); [refused Hsame|].
  split; [apply set_count_inv; [done|done|lia]|].
  right. split; [done|]. exists e. split_and!; try done; [lia|].
  intros t Ht. apply info_set_count; try done; apply Hinv.
Qed.

Lemma map_release_spec tok st :
  mem_inv st -> 0 <= tok < 2 ^ 64 ->
  let l' := xtok_map_release tok (ledger st) in
  mem_inv (set_ledger st l') /\
  (forall t, 0 <= t < 2 ^ 64 -> info l' t =
     if decide (t = tok) then (fun e => set_map_count e (Z.max 0 (map_count e - 1))) <$> info (ledger st) t
     else info (ledger st) t).
Proof.
  intros Hinv Htok. unfold xtok_map_release.
  assert (set_ledger st (ledger st) = st) as Hsame by (by destruct st).
  destruct (lookup_live (ledger st) tok) as [[s e]|] eqn:Hl; cbv zeta.
  2: { rewrite Hsame. split; [done|]. intros t Ht. case_decide; [subst|done].
       apply info_None in Hl. by rewrite Hl. }
  pose proof (proj1 (lookup_live_Some _ _ _ _) Hl) as (_ & -> & _).
  apply info_lookup in Hl. pose proof (info_entry _ _ _ (mi_ledger _ Hinv) Hl) as [Heo Hlive].
  pose proof (eo_maps e Heo). rewrite Z.gtb_ltb. destruct (Z.ltb_spec 0 (map_count e)).
  - split; [apply set_count_inv; [done|done|lia]|]. intros t Ht.
    rewrite (info_set_count _ _ e) by (done || apply Hinv). case_decide; [subst|done].
    rewrite Hl. cbn. by rewrite Z.max_r by lia.
  - rewrite Hsame. split; [done|]. intros t Ht. case_decide; [subst|done]. rewrite Hl. cbn.
    rewrite Z.max_l by lia. replace 0 with (map_count e) by lia. by destruct e.
Qed.

(** * Sequences of ledger operations *)

Inductive LedgerOp :=
  | OpAlloc (owner n rts : Z)
  | OpAllocHuge (owner rts : Z)
  | OpRelease (tok : Z)
  | OpReleaseOwned (tok owner : Z)
  | OpReclaim (tok : Z)
  | OpMapAcquire (tok caller need : Z)
  | OpMapRelease (tok : Z).

Definition run_op (op : LedgerOp) (st : MemState) : MemState :=
  match op with
  | OpAlloc o n r => (xtok_alloc_ram o n r st).2
  | OpAllocHuge o r => (xtok_alloc_ram_huge o r st).2
  | OpRelease t => (xtok_release t st).2
  | OpReleaseOwned t o => (xtok_release_owned t o st).2
  | OpReclaim t => (xtok_reclaim t st).2
  | OpMapAcquire t c need => set_ledger st (xtok_map_acquire t c need (ledger st)).2
  | OpMapRelease t => set_ledger st (xtok_map_release t (ledger st))
  end.

Definition run_ops (ops : list LedgerOp) (st : MemState) : MemState :=
  fold_left (fun st op => run_op op st) ops st.

(** The arguments have the C types: 64-bit tokens and counts, 32-bit owners. *)
Definition op_ok (op : LedgerOp) : Prop :=
  match op with
  | OpAlloc o n _ => 0 <= o < 2 ^ 32 /\ 0 <= n < 2 ^ 64
  | OpAllocHuge o _ => 0 <= o < 2 ^ 32
  | OpRelease t | OpReleaseOwned t _ | OpReclaim t | OpMapAcquire t _ _ | OpMapRelease t =>
    0 <= t < 2 ^ 64
  end.

#[global] Instance op_ok_dec op : Decision (op_ok op).
Proof. destruct op; cbn; apply _. Defined.

(** The generation in a slot of the table. *)
Definition gen_at (st : MemState) (i : nat) : option Z := generation <$> g_table (ledger st) !! i.

(** An operation advances a slot's generation by at most one step. *)
Definition gen_step (st st' : MemState) : Prop :=
  forall i g, gen_at st i = Some g -> gen_at st' i = Some g \/ gen_at st' i = Some (gen_next g).

Lemma gen_step_refl st : gen_step st st.
Proof. intros i g H. auto. Qed.

Lemma gen_step_insert st st' i e e' :
  g_table (ledger st) !! i = Some e -> g_table (ledger st') = <[i := e']> (g_table (ledger st)) ->
  generation e' = generation e \/ generation e' = gen_next (generation e) -> gen_step st st'.
Proof.
  intros He Ht Hg j g Hj. unfold gen_at in *. rewrite Ht. destruct (decide (j = i)) as [->|].
  - rewrite He in Hj. rewrite list_lookup_insert_eq by eauto using lookup_lt_Some.
    cbn in *. simplify_eq. destruct Hg as [-> | ->]; auto.
  - rewrite list_lookup_insert_ne by done. auto.
Qed.

Lemma grant_gen_step ok owner n rts st r : grant_result ok owner n rts st r -> gen_step st r.2.
Proof.
  destruct r as [tok st']. cbn [snd].
  intros [(_ & s & g & _ & _ & _ & _ & _ & _ & (i & e & _ & He & _ & _ & _ & Ht & _) & _)|(_ & _ & Hl & _)].
  - eapply gen_step_insert; eauto.
  - intros i g. unfold gen_at. rewrite Hl. auto.
Qed.

Lemma release_impl_step tok flags owner st :
  mem_inv st -> 0 <= tok < 2 ^ 64 ->
  mem_inv (release_impl tok flags owner st).2 /\ gen_step st (release_impl tok flags owner st).2.
Proof.
  intros Hinv Htok. pose proof (release_impl_spec tok flags owner st Hinv Htok) as H.
  pose proof (gen_step_refl st).
  destruct (info (ledger st) tok) as [e|] eqn:Hi; [|by rewrite H].
  destruct (_ && _); [by rewrite H|]. destruct (_ && _); [by rewrite H|].
  destruct (negb _); [by rewrite H|]. destruct H as (st' & -> & (_ & _ & _ & Ht & _) & Hinv').
  split; [done|]. apply info_Some in Hi as (_ & _ & He & _). eapply gen_step_insert; eauto.
Qed.

Lemma set_ledger_gen_step st l :
  (forall i, generation <$> g_table l !! i = generation <$> g_table (ledger st) !! i) ->
  gen_step st (set_ledger st l).
Proof. intros H i g. unfold gen_at. cbn [ledger set_ledger]. rewrite H. auto. Qed.

Lemma set_count_gens l s e c i :
  g_table l !! Z.to_nat s = Some e ->
  generation <$> g_table (set_entry l s (set_map_count e c)) !! i = generation <$> g_table l !! i.
Proof.
  intros He. cbn [set_entry g_table]. destruct (decide (i = Z.to_nat s)) as [->|].
  - rewrite list_lookup_insert_eq by eauto using lookup_lt_Some. by rewrite He.
  - by rewrite list_lookup_insert_ne.
Qed.

Lemma map_acquire_gen_step st tok caller need :
  gen_step st (set_ledger st (xtok_map_acquire tok caller need (ledger st)).2).
Proof.
  apply set_ledger_gen_step. intros i. unfold xtok_map_acquire.
  destruct (lookup_live _ _) as [[s e]|] eqn:Hl; [|done].
  apply lookup_live_Some in Hl as (_ & _ & _ & He & _).
  repeat (destruct (negb _); [done|]). destruct (_ =? _); [done|]. by apply set_count_gens.
Qed.

Lemma map_release_gen_step st tok :
  gen_step st (set_ledger st (xtok_map_release tok (ledger st))).
Proof.
  apply set_ledger_gen_step. intros i. unfold xtok_map_release.
  destruct (lookup_live _ _) as [[s e]|] eqn:Hl; [|done].
  apply lookup_live_Some in Hl as (_ & _ & _ & He & _).
  case_match; [|done]. by apply set_count_gens.
Qed.

Lemma run_op_step op st : mem_inv st -> op_ok op -> mem_inv (run_op op st) /\ gen_step st (run_op op st).
Proof.
  intros Hinv Hok. destruct op as [o n r|o r|t|t o|t|t c need|t]; cbn [op_ok] in Hok; unfold run_op.
  - destruct (decide (n = 0)) as [->|]; [by split; [|apply gen_step_refl]|].
    destruct (xtok_alloc_ram_spec o n r st Hinv) as [? ?]; [lia|lia|eauto using grant_gen_step].
  - destruct (xtok_alloc_ram_huge_spec o r st Hinv Hok). eauto using grant_gen_step.
  - unfold xtok_release. pose proof (release_impl_step t REL_CHECK_RIGHT 0 st Hinv Hok) as H.
    by destruct (release_impl _ _ _ _).
  - by apply release_impl_step.
  - by apply release_impl_step.
  - split; [|apply map_acquire_gen_step]. pose proof (map_acquire_spec t c need st Hinv Hok) as H.
    destruct (xtok_map_acquire _ _ _ _) as [[? [? ?]] ?]. apply H.
  - split; [|apply map_release_gen_step]. by apply map_release_spec.
Qed.

Lemma run_ops_inv ops st : mem_inv st -> Forall op_ok ops -> mem_inv (run_ops ops st).
Proof.
  intros H Hok. revert st H. induction Hok as [|op ops Ho _ IH]; intros st H; [done|].
  cbn. apply IH. by apply run_op_step.
Qed.

Lemma boot_inv p m : phys_wf p -> mem_inv (mkMem p m xtok_init).
Proof.
  intros Hp. assert (forall i e, g_table xtok_init !! i = Some e -> e = fresh_entry) as Hf.
  { intros i e H. cbn [xtok_init g_table] in H. by apply lookup_replicate in H as [-> _]. }
  split; cbn [phys ledger]; [done| |].
  - split; [cbn [xtok_init g_table]; by rewrite length_replicate| | |done].
    + apply Forall_lookup. intros i e ->%Hf. split; cbn; try done.
    + cbn [xtok_init g_table g_live]. symmetry. apply countb_zero.
      intros x [-> _]%elem_of_replicate. done.
  - split; intros i.
    + intros e ->%Hf. done.
    + intros e f ->%Hf. done.
    + intros j e e' f ->%Hf. done.
Qed.

(** * Generations *)

(** How far a slot's generation has moved since [g0]; generations run
    through 1 .. 2^32 - 1 and skip 0. *)
Definition gdist (g0 g : Z) : Z := (g - g0) mod (2 ^ 32 - 1).

Lemma gdist_next g0 g : 0 < g0 < 2 ^ 32 -> 0 < g < 2 ^ 32 ->
  gdist g0 g + 1 < 2 ^ 32 - 1 -> gdist g0 (gen_next g) = gdist g0 g + 1.
Proof.
  intros H0 Hg Hd. unfold gdist, gen_next in *.
  assert (u32 (g + 1) = if decide (g = 2 ^ 32 - 1) then 0 else g + 1) as ->.
  { case_decide; [subst; reflexivity|]. apply u32_small. lia. }
  case_decide as E.
  - change (0 =? 0) with true. cbv iota. rewrite E in *. lia.
  - destruct (Z.eqb_spec (g + 1) 0); lia.
Qed.

Lemma gdist_0 g0 g : 0 < g0 < 2 ^ 32 -> 0 < g < 2 ^ 32 -> gdist g0 g = 0 <-> g = g0.
Proof. unfold gdist. lia. Qed.

Lemma gen_at_range st i g : mem_inv st -> gen_at st i = Some g -> 0 < g < 2 ^ 32.
Proof.
  intros Hinv H. unfold gen_at in H. apply fmap_Some in H as (e & He & ->).
  apply eo_gen. eapply entry_of; [apply Hinv|done].
Qed.

(** A slot [d] steps past generation [g0] stays past it for the operations
    that are left before the counter comes round. *)
Lemma run_ops_gdist ops st i g0 g :
  mem_inv st -> Forall op_ok ops -> 0 < g0 < 2 ^ 32 -> gen_at st i = Some g -> 0 < gdist g0 g ->
  gdist g0 g + Z.of_nat (length ops) < 2 ^ 32 - 1 ->
  exists g', gen_at (run_ops ops st) i = Some g' /\ 0 < gdist g0 g'.
Proof.
  intros Hinv Hok H0. revert st g Hinv.
  induction Hok as [|op ops Ho _ IH]; intros st g Hinv Hg Hd Hlen; [by exists g|].
  cbn [length] in Hlen. destruct (run_op_step op st Hinv Ho) as [Hinv' Hstep].
  pose proof (gen_at_range st i g Hinv Hg) as Hr. change (run_ops (op :: ops) st) with (run_ops ops (run_op op st)).
  destruct (Hstep i g Hg) as [Hg'|Hg'].
  - apply (IH _ g); [done|done|done|lia].
  - apply (IH _ (gen_next g)); [done|done| |]; rewrite gdist_next by lia; lia.
Qed.

Lemma lookup_dead st tok g :
  gen_at st (Z.to_nat (token_slot tok)) = Some g -> g <> token_gen tok ->
  lookup_live (ledger st) tok = None.
Proof.
  intros Hg Hne. apply info_None. destruct (info (ledger st) tok) as [e|] eqn:Hi; [|done].
  apply info_Some in Hi as (_ & _ & He & _ & Hge). unfold gen_at in Hg. rewrite He in Hg.
  cbn in Hg. congruence.
Qed.

(** * Owner accounting *)

Definition owned (owner : Z) (e : XTokenEntry) : bool := live e && (owner_id e =? owner).

(** Frame [f] belongs to a live token of [owner]. *)
Definition owns_frame (owner : Z) (tbl : list XTokenEntry) (f : Z) : bool :=
  existsb (fun e => owned owner e && bool_decide (in_frames e f)) tbl.

(** Exact counts: the frames add up without overflow because live tokens
    never share a frame. *)
Fixpoint frames_sum (owner : Z) (tbl : list XTokenEntry) : Z :=
  match tbl with
  | [] => 0
  | e :: r => (if owned owner e then n_frames e else 0) + frames_sum owner r
  end.

Lemma own_ok_tail p e tbl : own_ok p (e :: tbl) -> own_ok p tbl.
Proof.
  intros [Hr Hu Hd]. split.
  - intros i. apply (Hr (S i)).
  - intros i. apply (Hu (S i)).
  - intros i j e1 e2 f H1 H2 H3 H4 H5 H6. by injection (Hd (S i) (S j) e1 e2 f H1 H2 H3 H4 H5 H6).
Qed.

Lemma owns_frame_disjoint p owner e tbl f :
  own_ok p (e :: tbl) -> live e = true -> in_frames e f -> owns_frame owner tbl f = false.
Proof.
  intros Ho Hl Hf. destruct (owns_frame owner tbl f) eqn:E; [|done].
  apply existsb_exists in E as (e' & Hin & H). unfold owned in H.
  apply andb_true_iff in H as [[H1 _]%andb_true_iff H2]. apply bool_decide_eq_true_1 in H2.
  apply list_elem_of_In, list_elem_of_lookup in Hin as [j Hj].
  by pose proof (oo_disj _ _ Ho 0%nat (S j) e e' f eq_refl Hj Hl H1 Hf H2).
Qed.

Lemma frames_sum_count p owner tbl :
  own_ok p tbl -> Forall entry_ok tbl ->
  frames_sum owner tbl = countb (owns_frame owner tbl) (seqZ 0 (total_frames p)).
Proof.
  intros Ho Hok. induction Hok as [|e tbl He Hok IH].
  { symmetry. by apply countb_zero. }
  cbn [frames_sum]. rewrite (IH (own_ok_tail _ _ _ Ho)). unfold owned.
  destruct (live e) eqn:Hl; cbn [andb].
  2: { apply countb_ext. intros f _. cbn. unfold owned. by rewrite Hl. }
  destruct (Z.eqb_spec (owner_id e) owner) as [Eo|Eo].
  2: { apply countb_ext. intros f _. cbn. unfold owned. rewrite Hl.
       by destruct (Z.eqb_spec (owner_id e) owner). }
  destruct (eo_live e He Hl) as (_ & Hph & _ & Hn).
  pose proof (oo_range _ _ Ho 0%nat e eq_refl Hl) as Hr.
  rewrite Z.add_comm. symmetry.
  apply (countb_seqZ_range _ _ 0 _ (e_phys e / 4096) (n_frames e)); [lia|lia|lia| |].
  - intros f Hf. split; [by eapply owns_frame_disjoint|]. cbn. unfold owned.
    rewrite Hl, Eo, Z.eqb_refl, bool_decide_eq_true_2 by done. done.
  - intros f _ Hf. cbn. by rewrite (bool_decide_eq_false_2 (in_frames e f)), andb_false_r by done.
Qed.

Lemma frames_sum_nonneg owner tbl : Forall entry_ok tbl -> 0 <= frames_sum owner tbl.
Proof.
  induction 1 as [|e tbl He _ IH]; cbn [frames_sum]; [lia|]. unfold owned.
  destruct (live e) eqn:Hl; cbn [andb]; [|lia]. destruct (eo_live e He Hl).
  case_match; lia.
Qed.

Lemma usage_fold owner tbl f c :
  Forall entry_ok tbl -> 0 <= f -> 0 <= c -> f + frames_sum owner tbl < 2 ^ 64 ->
  c + Z.of_nat (length tbl) < 2 ^ 32 ->
  fold_left (usage_step owner) tbl (f, c) = (f + frames_sum owner tbl, c + countb (owned owner) tbl).
Proof.
  intros Hok. revert f c. induction Hok as [|e tbl He Hok IH]; intros f c Hf Hc Hs Hl.
  { cbn. f_equal; lia. }
  pose proof (frames_sum_nonneg owner tbl Hok). pose proof (countb_bound (owned owner) tbl).
  cbn [fold_left frames_sum countb length] in *. unfold usage_step at 2. fold (owned owner e).
  cbn [fst snd]. destruct (owned owner e) eqn:E.
  - unfold owned in E. apply andb_true_iff in E as [E _]. destruct (eo_live e He E) as (_ & _ & _ & Hn).
    rewrite u64_small, u32_small by lia. rewrite IH by lia. f_equal; lia.
  - rewrite IH by lia. f_equal; lia.
Qed.

Lemma owner_usage_spec owner st :
  mem_inv st ->
  xtok_owner_usage owner (ledger st) =
    (countb (owns_frame owner (g_table (ledger st))) (seqZ 0 (total_frames (phys st))),
     countb (owned owner) (g_table (ledger st))).
Proof.
  intros [Hp Hl Ho]. pose proof (lw_entry _ Hl) as He.
  pose proof (frames_sum_count (phys st) owner _ Ho He) as Hs.
  pose proof (wf_total (phys st) Hp) as Ht. rewrite max_frames_val in Ht.
  pose proof (countb_seqZ_le (owns_frame owner (g_table (ledger st))) 0 (total_frames (phys st)) ltac:(lia)).
  unfold xtok_owner_usage. rewrite usage_fold.
  - by rewrite Hs.
  - done.
  - done.
  - done.
  - lia.
  - rewrite (lw_len _ Hl). lia.
Qed.

(** The tokens [xtok_owner_tokens] reports, as positions in the table. *)
Fixpoint owner_list (tbl : list XTokenEntry) (slot owner : Z) : list Z :=
  match tbl with
  | [] => []
  | e :: r => (if owned owner e then [pack_token slot (generation e)] else []) ++ owner_list r (slot + 1) owner
  end.

Lemma owner_scan_take tbl slot n max owner :
  0 <= n -> owner_scan tbl slot n max owner = take (Z.to_nat (max - n)) (owner_list tbl slot owner).
Proof.
  revert slot n. induction tbl as [|e tbl IH]; intros slot n Hn; cbn [owner_scan owner_list].
  { by rewrite take_nil. }
  fold (owned owner e). destruct (Z.ltb_spec n max).
  - destruct (owned owner e); rewrite IH by lia; cbn [app]; [|done].
    replace (Z.to_nat (max - n)) with (S (Z.to_nat (max - (n + 1)))) by lia. done.
  - replace (Z.to_nat (max - n)) with 0%nat by lia. done.
Qed.

Lemma owner_list_elem tbl slot owner t :
  t ∈ owner_list tbl slot owner <->
  exists i e, tbl !! i = Some e /\ owned owner e = true /\ t = pack_token (slot + Z.of_nat i) (generation e).
Proof.
  revert slot. induction tbl as [|e tbl IH]; intros slot; cbn [owner_list].
  { split; [by intros ?%elem_of_nil|]. intros (i & e & H & _). by rewrite lookup_nil in H. }
  rewrite elem_of_app, IH. split.
  - intros [H|(i & e' & H1 & H2 & ->)].
    + destruct (owned owner e) eqn:E; [|by apply elem_of_nil in H].
      apply list_elem_of_singleton in H as ->. exists 0%nat, e. by rewrite Z.add_0_r.
    + exists (S i), e'. split_and!; try done. f_equal. lia.
  - intros ([|i] & e' & H1 & H2 & ->); cbn in H1.
    + simplify_eq. left. rewrite H2. apply list_elem_of_singleton. by rewrite Z.add_0_r.
    + right. exists i, e'. split_and!; try done. f_equal. lia.
Qed.

Lemma owner_list_length tbl slot owner :
  Z.of_nat (length (owner_list tbl slot owner)) = countb (owned owner) tbl.
Proof.
  revert slot. induction tbl as [|e tbl IH]; intros slot; cbn [owner_list countb]; [done|].
  rewrite length_app, Nat2Z.inj_add, IH. by destruct (owned owner e).
Qed.

Lemma owned_iff_info l owner t :
  ledger_wf l -> 0 <= t < 2 ^ 64 ->
  t ∈ owner_list (g_table l) 0 owner <-> exists e, info l t = Some e /\ owner_id e = owner.
Proof.
  intros Hwf Ht. rewrite owner_list_elem. split.
  - intros (i & e & He & Ho & ->). unfold owned in Ho. apply andb_true_iff in Ho as [Hl Ho].
    exists e. split; [|lia]. apply lookup_lt_Some in He as Hlt. rewrite (lw_len l Hwf) in Hlt.
    rewrite Z.add_0_l. apply info_pack; [done|lia|by rewrite Nat2Z.id|done].
  - intros (e & Hi & Ho). pose proof (info_entry l t e Hwf Hi) as [Heo Hlive].
    apply info_Some in Hi as (_ & Hs & He & Hl & Hg). pose proof (token_slot_nonneg t) as Hns.
    exists (Z.to_nat (token_slot t)), e. split_and!; [done| |].
    + unfold owned. rewrite Hl, Ho. apply Z.eqb_refl.
    + pose proof (eo_gen e Heo). apply token_eq_pack; [lia|lia|lia|]. lia.
Qed.

(** * Properties *)

(** C33: [xtok_alloc_ram] either returns a fresh token that denotes exactly
    the frames it took (a free run inside the bitmap, now used), owned by
    the caller with the rights asked for, unmapped, every 64-bit word of the
    run cleared and no other word, frame or token changed; or it returns the
    invalid token, leaves the bitmap and the ledger as they were (frames
    taken before the ledger turned out to be full are given back), and then
    no free run of that length exists or every slot is live. *)
Theorem xtok_alloc_ram_correct owner n rts st :
  mem_inv st -> 0 <= owner < 2 ^ 32 -> 0 < n ->
  grant_result (fun _ => True) owner n rts st (xtok_alloc_ram owner n rts st) /\
  mem_inv (xtok_alloc_ram owner n rts st).2.
Proof. apply xtok_alloc_ram_spec. Qed.

(** Release by an owner, on every branch: an unknown, stale or foreign
    token is [XTOK_REL_ESTALE], so a caller cannot tell another owner's live
    token from one that does not exist; a token without the release right is
    [XTOK_REL_ERIGHTS]; a mapped one [XTOK_REL_EBUSY]; each of these changes
    nothing. Otherwise exactly its frames become free, its slot moves to the
    next generation, every other token keeps its meaning, and the ownership
    invariant holds. *)
Theorem xtok_release_owned_correct tok owner st :
  mem_inv st -> 0 <= tok < 2 ^ 64 ->
  match info (ledger st) tok with
  | Some e =>
    if negb (owner_id e =? owner) then xtok_release_owned tok owner st = (XTOK_REL_ESTALE, st)
    else if (rights e .& XTOK_RIGHT_RELEASE) =? 0
    then xtok_release_owned tok owner st = (XTOK_REL_ERIGHTS, st)
    else if negb (map_count e =? 0) then xtok_release_owned tok owner st = (XTOK_REL_EBUSY, st)
    else exists st', xtok_release_owned tok owner st = (0, st') /\ released st st' tok e /\ mem_inv st'
  | None => xtok_release_owned tok owner st = (XTOK_REL_ESTALE, st)
  end.
Proof. exact (release_impl_spec tok (REL_CHECK_RIGHT .| REL_CHECK_OWNER) owner st). Qed.

(** C32: Exclusive ownership in every reachable state. From boot (an empty
    ledger over a well-formed bitmap), after any sequence of ledger
    operations on arguments of their C types, two different live tokens never
    share a frame, every frame of a live token lies inside the bitmap, is not
    frame 0 and is marked used, and [g_live] is the number of live slots. *)
Theorem ledger_exclusive_ownership p m ops st t1 t2 e1 e2 f :
  phys_wf p -> Forall op_ok ops -> st = run_ops ops (mkMem p m xtok_init) ->
  0 <= t1 < 2 ^ 64 -> 0 <= t2 < 2 ^ 64 ->
  info (ledger st) t1 = Some e1 -> info (ledger st) t2 = Some e2 -> in_frames e1 f ->
  (t1 <> t2 -> ~ in_frames e2 f) /\ 0 < f < total_frames (phys st) /\
  bit_test (phys st) f = false /\ xtok_live_count (ledger st) = countb live (g_table (ledger st)).
Proof.
  intros Hp Hok -> Ht1 Ht2 H1 H2 Hf.
  pose proof (run_ops_inv ops _ (boot_inv p m Hp) Hok) as [Hwf Hl Ho].
  set (st := run_ops ops _) in *.
  pose proof (info_entry _ _ _ Hl H1) as [Heo1 Hl1]. pose proof (info_entry _ _ _ Hl H2) as [_ Hl2].
  apply info_Some in H1 as (_ & Hs1 & H1 & _ & Hg1), H2 as (_ & Hs2 & H2 & _ & Hg2).
  destruct (eo_live e1 Heo1 Hl1) as (_ & Hph & Hal & _). pose proof (oo_range _ _ Ho _ _ H1 Hl1).
  split_and!.
  - intros Hne Hf2. apply Hne. pose proof (oo_disj _ _ Ho _ _ _ _ f H1 H2 Hl1 Hl2 Hf Hf2) as E.
    pose proof (token_slot_nonneg t1). pose proof (token_slot_nonneg t2).
    assert (token_slot t1 = token_slot t2) as Es by lia. assert (e1 = e2) as -> by congruence.
    rewrite !token_slot_div in Es by lia. rewrite !token_gen_mod in Hg1, Hg2. lia.
  - unfold in_frames in Hf. lia.
  - unfold in_frames in Hf. lia.
  - exact (oo_used _ _ Ho _ _ f H1 Hl1 Hf).
  - apply Hl.
Qed.

(** C34: A released token never comes back. After any successful release,
    whatever fewer than 2^32 - 2 ledger operations run next, the token stays
    stale: [lookup_live] refuses it, although its slot may have been handed
    out again many times. The bound is the period of the generation counter. *)
Theorem xtok_stale_token_dead tok flags owner st st' ops :
  mem_inv st -> 0 <= tok < 2 ^ 64 -> release_impl tok flags owner st = (0, st') ->
  Forall op_ok ops -> Z.of_nat (length ops) < 2 ^ 32 - 2 ->
  lookup_live (ledger (run_ops ops st')) tok = None.
Proof.
  intros Hinv Htok Hrel Hok Hlen.
  destruct (release_impl_ok _ _ _ _ _ Hinv Htok Hrel) as (e & Hi & _ & (_ & _ & _ & Htbl & _) & Hinv').
  pose proof (info_entry _ _ _ (mi_ledger _ Hinv) Hi) as [Heo Hlive]. pose proof (eo_gen e Heo) as Hg.
  apply info_Some in Hi as (_ & _ & He & _ & Hge).
  assert (gen_at st' (Z.to_nat (token_slot tok)) = Some (gen_next (generation e))) as Hga.
  { unfold gen_at. rewrite Htbl, list_lookup_insert_eq by eauto using lookup_lt_Some. done. }
  assert (gdist (generation e) (generation e) = 0) as Hd by (by apply gdist_0).
  assert (gdist (generation e) (gen_next (generation e)) = 1) as Hd1.
  { rewrite gdist_next, Hd by (rewrite ?Hd; lia). done. }
  destruct (run_ops_gdist ops st' _ (generation e) _ Hinv' Hok Hg Hga) as (g' & Hg' & Hpos); [lia|lia|].
  eapply lookup_dead; [done|]. intros ->. rewrite <- Hge in Hpos. lia.
Qed.

(** A mapped token pins its frames. After a successful
    [xtok_map_acquire], neither its owner nor the kernel's forced reclaim can
    release it: every release path refuses and changes nothing, so the frames
    under a live mapping never return to the allocator. *)
Theorem xtok_pinned_not_released tok caller need st ph n l flags owner :
  mem_inv st -> 0 <= tok < 2 ^ 64 ->
  xtok_map_acquire tok caller need (ledger st) = (XTOK_MAP_OK, (ph, n), l) ->
  (release_impl tok flags owner (set_ledger st l)).1 < 0 /\
  (release_impl tok flags owner (set_ledger st l)).2 = set_ledger st l.
Proof.
  intros Hinv Htok Hacq. pose proof (map_acquire_spec tok caller need st Hinv Htok) as H.
  rewrite Hacq in H. destruct H as [Hinv' [(Hneg & _)|(_ & e & Hi & _ & _ & _ & _ & _ & Hinfo)]]; [done|].
  pose proof (release_impl_spec tok flags owner (set_ledger st l) Hinv' Htok) as H.
  cbn [ledger set_ledger] in H. rewrite Hinfo, decide_True in H by done. cbn [map_count set_map_count] in H.
  pose proof (info_entry _ _ _ (mi_ledger _ Hinv) Hi) as [Heo _]. pose proof (eo_maps e Heo).
  destruct (_ && _); [by rewrite H|]. destruct (_ && _); [by rewrite H|].
  destruct (Z.eqb_spec (map_count e + 1) 0); [lia|]. cbn [negb] in H. by rewrite H.
Qed.

(** Owner accounting is exact. [xtok_owner_usage] returns the number of
    frames that belong to live tokens of the owner and the number of those
    tokens; its 64-bit and 32-bit sums cannot overflow because live tokens
    never share a frame. *)
Theorem xtok_owner_usage_correct owner st :
  mem_inv st ->
  xtok_owner_usage owner (ledger st) =
    (countb (owns_frame owner (g_table (ledger st))) (seqZ 0 (total_frames (phys st))),
     countb (owned owner) (g_table (ledger st))).
Proof. apply owner_usage_spec. Qed.

(** * Witnesses *)

Definition demo_mem : MemState := mkMem demo_phys ∅ xtok_init.

Lemma demo_mem_inv : mem_inv demo_mem.
Proof. apply boot_inv, demo_phys_wf. Qed.

(** Two tokens of owner 7. *)
Definition demo_ops : list LedgerOp := [OpAlloc 7 2 0x2F; OpAlloc 7 3 0x2F].
Definition demo_mem2 : MemState := run_ops demo_ops demo_mem.
Definition demo_tok1 : Z := pack_token 0 1.
Definition demo_tok2 : Z := pack_token 1 1.

Lemma demo_tok1_range : 0 <= demo_tok1 < 2 ^ 64.
Proof. by vm_compute. Qed.

Lemma demo_mem2_inv : mem_inv demo_mem2.
Proof. apply run_ops_inv; [apply demo_mem_inv|]. repeat constructor; cbn; lia. Qed.

Lemma xtok_alloc_ram_correct_witness :
  grant_result (fun _ => True) 7 2 0x2F demo_mem (xtok_alloc_ram 7 2 0x2F demo_mem) /\
  (xtok_alloc_ram 7 2 0x2F demo_mem).1 = demo_tok1.
Proof.
  split; [|vm_compute; reflexivity].
  exact (proj1 (xtok_alloc_ram_correct 7 2 0x2F demo_mem demo_mem_inv ltac:(lia) ltac:(lia))).
Defined.

Lemma xtok_release_owned_correct_witness :
  xtok_release_owned demo_tok1 8 demo_mem2 = (XTOK_REL_ESTALE, demo_mem2) /\
  (xtok_release_owned demo_tok1 7 demo_mem2).1 = 0.
Proof.
  split; [|vm_compute; reflexivity].
  pose proof (xtok_release_owned_correct demo_tok1 8 demo_mem2 demo_mem2_inv ltac:(by vm_compute)) as H.
  assert (info (ledger demo_mem2) demo_tok1 = Some (ram_entry 1 7 (256 * 4096) 2 0x2F)) as E
    by (vm_compute; reflexivity).
  rewrite E in H. exact H.
Defined.

Lemma ledger_exclusive_ownership_witness :
  ~ in_frames (ram_entry 1 7 (258 * 4096) 3 0x2F) 257 /\ bit_test (phys demo_mem2) 257 = false.
Proof.
  destruct (ledger_exclusive_ownership demo_phys ∅ demo_ops demo_mem2 demo_tok1 demo_tok2
    (ram_entry 1 7 (256 * 4096) 2 0x2F) (ram_entry 1 7 (258 * 4096) 3 0x2F) 257 demo_phys_wf)
    as (H1 & _ & H2 & _).
  - repeat constructor; cbn; lia.
  - reflexivity.
  - by vm_compute.
  - by vm_compute.
  - vm_compute; reflexivity.
  - vm_compute; reflexivity.
  - unfold in_frames; cbn; lia.
  - split; [apply H1; discriminate|exact H2].
Defined.

Lemma xtok_stale_token_dead_witness :
  lookup_live (ledger (run_ops [OpAlloc 9 1 0x2F; OpAlloc 9 1 0x2F] (release_impl demo_tok1 0 0 demo_mem2).2))
    demo_tok1 = None.
Proof.
  assert ((release_impl demo_tok1 0 0 demo_mem2).1 = 0) as E by (vm_compute; reflexivity).
  refine (xtok_stale_token_dead demo_tok1 0 0 demo_mem2 _ _ demo_mem2_inv demo_tok1_range _ _ _).
  - etransitivity; [apply surjective_pairing|]. rewrite E. reflexivity.
  - repeat constructor; cbn; lia.
  - cbn; lia.
Defined.

Lemma xtok_pinned_not_released_witness :
  (release_impl demo_tok1 0 0
     (set_ledger demo_mem2 (xtok_map_acquire demo_tok1 7 0x3 (ledger demo_mem2)).2)).1 < 0.
Proof.
  refine (proj1 (xtok_pinned_not_released demo_tok1 7 0x3 demo_mem2 (256 * 4096) 2 _ 0 0 demo_mem2_inv _ _)).
  - by vm_compute.
  - vm_compute; reflexivity.
Defined.

Lemma xtok_owner_usage_correct_witness : xtok_owner_usage 7 (ledger demo_mem2) = (5, 2).
Proof.
  rewrite (xtok_owner_usage_correct 7 demo_mem2 demo_mem2_inv). vm_compute. reflexivity.
Defined.
