(* ===== verification/Paging.v ===== *)
(** Page tables and per-owner address spaces: model of
    [source/arch/amd64/kernel/xeret/mem/paging.c] and
    [source/arch/amd64/include/paging.h].

    Page tables are read and written as 64-bit words of physical memory, at
    the addresses the C code computes.  [KState] holds the file's globals
    ([g_pml4_phys], [g_prot], [g_maps], [g_mmio_next]) and the memory state
    shared with the frame allocator and the ledger.  The CPU is a record of
    the control registers the code writes and a parameter for [cpuid]; the
    translation look-aside buffer ([invlpg]) is not modelled. *)

From S2P Require Import Prelude.
From S2P Require Import Physical.
From S2P Require Import Ledger.

#[local] Ltac Zify.zify_post_hook ::= Z.div_mod_to_equations.

(** * Data *)

Definition XPT_ENTS : Z := 512.
Definition XPT_ADDR_MASK : Z := 0x000FFFFFFFFFF000.
Definition XPT_HUGE_MASK : Z := 0x000FFFFFFFE00000.
Definition XERET_HUGE_SIZE : Z := 1 .<< 21.
Definition FOUR_GIB : Z := 0x100000000.
Definition PML4_SPAN : Z := 1 .<< 39.
Definition XAS_MAX_MAPS : Z := 1024.
Definition XPT_KERNEL_HALF : Z := 256.
Definition XPT_MMIO_PML4 : Z := 384.
Definition XPT_MMIO_VA : Z := 0xFFFFC00000000000.
Definition XPT_MMIO_MAX_PAGES : Z := 4096.
Definition XPT_MMIO_BASE : Z := 0xC0000000.
Definition EFER_NXE : Z := 1 .<< 11.
Definition CR0_WP : Z := 1 .<< 16.
Definition CR4_SMEP : Z := 1 .<< 20.

Definition XPT_PRESENT : Z := 1 .<< 0.
Definition XPT_WRITE : Z := 1 .<< 1.
Definition XPT_USER : Z := 1 .<< 2.
Definition XPT_PWT : Z := 1 .<< 3.
Definition XPT_PCD : Z := 1 .<< 4.
Definition XPT_HUGE : Z := 1 .<< 7.
Definition XPT_GLOBAL : Z := 1 .<< 8.
Definition XPT_NX : Z := 1 .<< 63.
Definition XPT_KERNEL_RW : Z := XPT_PRESENT .| XPT_WRITE.
Definition XPT_UC : Z := XPT_PCD .| XPT_PWT.
Definition XPT_UPPER : Z := XPT_PRESENT .| XPT_WRITE .| XPT_USER.

Definition XPERM_R : Z := 1.
Definition XPERM_W : Z := 2.
Definition XPERM_X : Z := 4.

Definition XAS_OK : Z := 0.
Definition XAS_ERR_ARG : Z := -1.
Definition XAS_ERR_WX : Z := -2.
Definition XAS_ERR_RANGE : Z := -3.
Definition XAS_ERR_TOKEN : Z := -4.
Definition XAS_ERR_OWNER : Z := -5.
Definition XAS_ERR_RIGHTS : Z := -6.
Definition XAS_ERR_BUSY : Z := -7.
Definition XAS_ERR_NOMEM : Z := -8.
Definition XAS_ERR_NOTMAPPED : Z := -9.
Definition XAS_MAX_MAPS_PER_OWNER : Z := 64.
Definition XAS_USER_BASE : Z := 0x0000008000000000.
Definition XAS_USER_TOP : Z := 0x0000800000000000.
Definition XPROT_NX : Z := 1.
Definition XPROT_WP : Z := 2.
Definition XPROT_SMEP : Z := 4.

Record MapRec := mkRec {
  as_pml4 : Z; r_owner : Z; r_virt : Z; r_tok : Z; r_pages : Z; r_live : bool
}.

Record XAspace := mkAs { as_root : Z; as_owner : Z; as_live : bool }.

Record Cpu := mkCpu { efer : Z; cr0 : Z; cr4 : Z; cr3 : Z }.

Record KState := mkK {
  k_mem : MemState;
  k_cpu : Cpu;
  g_pml4_phys : Z;
  g_prot : Z;
  g_maps : list MapRec;
  g_mmio_next : Z
}.

Definition set_kmem (ks : KState) (st : MemState) : KState :=
  mkK st (k_cpu ks) (g_pml4_phys ks) (g_prot ks) (g_maps ks) (g_mmio_next ks).
Definition set_maps (ks : KState) (l : list MapRec) : KState :=
  mkK (k_mem ks) (k_cpu ks) (g_pml4_phys ks) (g_prot ks) l (g_mmio_next ks).
Definition set_cpu (ks : KState) (c : Cpu) (prot : Z) : KState :=
  mkK (k_mem ks) c (g_pml4_phys ks) prot (g_maps ks) (g_mmio_next ks).

Definition dead_rec : MapRec := mkRec 0 0 0 0 0 false.

(** * Helpers *)

Definition align_down (v a : Z) : Z := v .& u64 (Z.lnot (a - 1)).
Definition align_up (v a : Z) : Z := u64 (v + a - 1) .& u64 (Z.lnot (a - 1)).

(** [tbl(phys)[i]] and the assignment to it. *)
Definition ent (m : gmap Z Z) (t i : Z) : Z := mem_word m (t + 8 * i).
Definition set_ent (st : MemState) (t i v : Z) : MemState :=
  mkMem (phys st) (<[t + 8 * i := v]> (mem st)) (ledger st).

Definition clear_table (t : Z) (m : gmap Z Z) : gmap Z Z :=
  for_range 0 XPT_ENTS (fun i m => <[t + 8 * i := 0]> m) m.

Definition alloc_zero_table (st : MemState) : Z * MemState :=
  let '(ph, p) := phys_alloc_frames 1 (phys st) in
  if ph =? 0 then (0, mkMem p (mem st) (ledger st))
  else (ph, mkMem p (clear_table ph (mem st)) (ledger st)).

(** * Protections *)

(** [cpuid leaf subleaf] gives [(eax, ebx, ecx, edx)]. *)
Definition enable_protections (cpuid : Z -> Z -> Z * Z * Z * Z) (ks : KState) : Z * KState :=
  let '(a, _, _, _) := cpuid 0x80000000 0 in
  if a <? 0x80000001 then (-1, ks) else
  let '(_, _, _, d) := cpuid 0x80000001 0 in
  if negb (tst (d .& (1 .<< 20))) then (-1, ks) else
  let c := k_cpu ks in
  let c := mkCpu (efer c .| EFER_NXE) (cr0 c .| CR0_WP) (cr4 c) (cr3 c) in
  let prot := XPROT_NX .| XPROT_WP in
  let '(a, _, _, _) := cpuid 0 0 in
  if a >=? 7 then
    let '(_, b, _, _) := cpuid 7 0 in
    if tst (b .& (1 .<< 7))
    then (0, set_cpu ks (mkCpu (efer c) (cr0 c) (cr4 c .| CR4_SMEP) (cr3 c)) (prot .| XPROT_SMEP))
    else (0, set_cpu ks c prot)
  else (0, set_cpu ks c prot).

(** * Kernel identity map *)

(** The table under entry [idx], created when absent; [None] for the null pointer. *)
Definition next_level (t idx fl : Z) (st : MemState) : option Z * MemState :=
  if negb (tst (ent (mem st) t idx .& XPT_PRESENT)) then
    let '(ph, st) := alloc_zero_table st in
    if ph =? 0 then (None, st) else (Some ph, set_ent st t idx (ph .| fl))
  else (Some (ent (mem st) t idx .& XPT_ADDR_MASK), st).

(** One round of the [map_huge] loop, for the 2 MiB page at [a]. *)
Definition map_huge_step (root fl a : Z) (st : MemState) : Z * MemState :=
  match next_level root ((a .>> 39) .& 0x1FF) XPT_KERNEL_RW st with
  | (None, st) => (-1, st)
  | (Some pdpt, st) =>
    match next_level pdpt ((a .>> 30) .& 0x1FF) XPT_KERNEL_RW st with
    | (None, st) => (-1, st)
    | (Some pd, st) =>
      let idx := (a .>> 21) .& 0x1FF in
      if negb (tst (ent (mem st) pd idx .& XPT_PRESENT))
      then (0, set_ent st pd idx ((a .& XPT_HUGE_MASK) .| fl .| XPT_HUGE))
      else (0, st)
    end
  end.

(** The loop from [a] while [a < end]; [k] bounds the pages left. *)
Fixpoint map_huge_loop (k : nat) (root fl a en : Z) (st : MemState) : Z * MemState :=
  match k with
  | O => (0, st)
  | S k' =>
    if a <? en then
      match map_huge_step root fl a st with
      | (0, st) => map_huge_loop k' root fl (u64 (a + XERET_HUGE_SIZE)) en st
      | (r, st) => (r, st)
      end
    else (0, st)
  end.

Definition map_huge (root start en fl : Z) (st : MemState) : Z * MemState :=
  let a := align_down start XERET_HUGE_SIZE in
  map_huge_loop (Z.to_nat ((en - a) / XERET_HUGE_SIZE + 1)) root fl a en st.

Definition set_boot (ks : KState) (root : Z) : KState :=
  let c := k_cpu ks in
  mkK (k_mem ks) (mkCpu (efer c) (cr0 c) (cr4 c) root) root (g_prot ks) (g_maps ks) XPT_MMIO_VA.

(** [if (map_huge(...) != 0) return -1;] *)
Definition huge_or_fail (root start en fl : Z) (ks : KState) (k : KState -> Z * KState) : Z * KState :=
  let '(r, st) := map_huge root start en fl (k_mem ks) in
  let ks := set_kmem ks st in
  if negb (r =? 0) then (-1, ks) else k ks.

Definition xpt_init_identity (cpuid : Z -> Z -> Z * Z * Z * Z) (phys_end extra_base extra_size : Z)
    (ks : KState) : Z * KState :=
  if phys_end =? 0 then (-1, ks) else
  if align_up phys_end XERET_HUGE_SIZE >? PML4_SPAN then (-1, ks) else
  if tst extra_size && ((u64 (extra_base + extra_size) >? PML4_SPAN) ||
                        (u64 (extra_base + extra_size) <? extra_base)) then (-1, ks) else
  let '(r, ks) := enable_protections cpuid ks in
  if negb (r =? 0) then (-1, ks) else
  let '(root, st) := alloc_zero_table (k_mem ks) in
  let ks := set_kmem ks st in
  if root =? 0 then (-1, ks) else
  let uc := XPT_KERNEL_RW .| XPT_GLOBAL .| XPT_UC in
  let wb := XPT_KERNEL_RW .| XPT_GLOBAL in
  let low_end := if phys_end <? XPT_MMIO_BASE then phys_end else XPT_MMIO_BASE in
  let finish ks :=
    match next_level root XPT_MMIO_PML4 XPT_KERNEL_RW (k_mem ks) with
    | (None, st) => (-1, set_kmem ks st)
    | (Some _, st) => (0, set_boot (set_kmem ks st) root)
    end in
  huge_or_fail root XPT_MMIO_BASE FOUR_GIB uc ks (fun ks =>
  (if tst extra_size then huge_or_fail root extra_base (extra_base + extra_size) uc ks else fun k => k ks) (fun ks =>
  huge_or_fail root 0 (align_up low_end XERET_HUGE_SIZE) wb ks (fun ks =>
  (if phys_end >? FOUR_GIB then huge_or_fail root FOUR_GIB (align_up phys_end XERET_HUGE_SIZE) wb ks
   else fun k => k ks) finish))).

(** The leaf entry and translation of a kernel address. *)
Definition walk_pd (m : gmap Z Z) (root virt : Z) : option Z :=
  let e := ent m root ((virt .>> 39) .& 0x1FF) in
  if negb (tst (e .& XPT_PRESENT)) then None else
  let e := ent m (e .& XPT_ADDR_MASK) ((virt .>> 30) .& 0x1FF) in
  if negb (tst (e .& XPT_PRESENT)) then None else
  Some (ent m (e .& XPT_ADDR_MASK) ((virt .>> 21) .& 0x1FF)).

Definition xpt_translate (virt : Z) (ks : KState) : option Z :=
  if g_pml4_phys ks =? 0 then None else
  match walk_pd (mem (k_mem ks)) (g_pml4_phys ks) virt with
  | None => None
  | Some e =>
    if negb (tst (e .& XPT_PRESENT)) || negb (tst (e .& XPT_HUGE)) then None
    else Some ((e .& XPT_HUGE_MASK) .| (virt .& (XERET_HUGE_SIZE - 1)))
  end.

Definition xpt_attributes (virt : Z) (ks : KState) : option Z :=
  if g_pml4_phys ks =? 0 then None else
  match walk_pd (mem (k_mem ks)) (g_pml4_phys ks) virt with
  | None => None
  | Some e =>
    if negb (tst (e .& XPT_PRESENT)) then None else
    if negb (tst (e .& XPT_HUGE)) then
      let e := ent (mem (k_mem ks)) (e .& XPT_ADDR_MASK) ((virt .>> 12) .& 0x1FF) in
      if negb (tst (e .& XPT_PRESENT)) then None else Some e
    else Some e
  end.

(** * MMIO window *)

Definition map_uc_step (pdpt va pa fl : Z) (st : MemState) : Z * MemState :=
  match next_level pdpt ((va .>> 30) .& 0x1FF) XPT_KERNEL_RW st with
  | (None, st) => (-1, st)
  | (Some pd, st) =>
    match next_level pd ((va .>> 21) .& 0x1FF) XPT_KERNEL_RW st with
    | (None, st) => (-1, st)
    | (Some pt, st) =>
      let idx := (va .>> 12) .& 0x1FF in
      if tst (ent (mem st) pt idx .& XPT_PRESENT) then (-1, st)
      else (0, set_ent st pt idx ((pa .& XPT_ADDR_MASK) .| fl))
    end
  end.

Fixpoint map_uc_loop (k : nat) (i pdpt base start fl : Z) (st : MemState) : Z * MemState :=
  match k with
  | O => (0, st)
  | S k' =>
    match map_uc_step pdpt (base + i * XERET_FRAME_SIZE) (start + i * XERET_FRAME_SIZE) fl st with
    | (0, st) => map_uc_loop k' (i + 1) pdpt base start fl st
    | (r, st) => (r, st)
    end
  end.

(** Status, virtual address on success, and the state. *)
Definition xpt_map_uncached (ph size : Z) (ks : KState) : Z * Z * KState :=
  if (g_pml4_phys ks =? 0) || (size =? 0) then (-1, 0, ks) else
  let start := align_down ph XERET_FRAME_SIZE in
  if u64 (ph + size) <? ph then (-1, 0, ks) else
  let en := align_up (u64 (ph + size)) XERET_FRAME_SIZE in
  let pages := u64 (en - start) / XERET_FRAME_SIZE in
  if (pages =? 0) || (pages >? XPT_MMIO_MAX_PAGES) then (-1, 0, ks) else
  let base := g_mmio_next ks in
  if (u64 (base + pages * XERET_FRAME_SIZE) <? base) ||
     (u64 (base + pages * XERET_FRAME_SIZE) >? u64 (0xFFFFC00000000000 + PML4_SPAN)) then (-1, 0, ks) else
  let pdpt := ent (mem (k_mem ks)) (g_pml4_phys ks) XPT_MMIO_PML4 .& XPT_ADDR_MASK in
  let fl := XPT_KERNEL_RW .| XPT_GLOBAL .| XPT_UC .| XPT_NX in
  let '(r, st) := map_uc_loop (Z.to_nat pages) 0 pdpt base start fl (k_mem ks) in
  let ks := set_kmem ks st in
  if negb (r =? 0) then (-1, 0, ks) else
  (0, base + (ph - start),
   mkK (k_mem ks) (k_cpu ks) (g_pml4_phys ks) (g_prot ks) (g_maps ks) (base + pages * XERET_FRAME_SIZE)).

(** * 4 KiB user mappings *)

(** The address of the PTE for [va]; [None] when a level is absent. *)
Definition walk_pte (m : gmap Z Z) (root va : Z) : option Z :=
  match walk_pd m root va with
  | None => None
  | Some e =>
    if negb (tst (e .& XPT_PRESENT)) || tst (e .& XPT_HUGE) then None
    else Some ((e .& XPT_ADDR_MASK) + 8 * ((va .>> 12) .& 0x1FF))
  end.

Definition map_page (root va pa leaf : Z) (st : MemState) : Z * MemState :=
  match next_level root ((va .>> 39) .& 0x1FF) XPT_UPPER st with
  | (None, st) => (XAS_ERR_NOMEM, st)
  | (Some pdpt, st) =>
    match next_level pdpt ((va .>> 30) .& 0x1FF) XPT_UPPER st with
    | (None, st) => (XAS_ERR_NOMEM, st)
    | (Some pd, st) =>
      match next_level pd ((va .>> 21) .& 0x1FF) XPT_UPPER st with
      | (None, st) => (XAS_ERR_NOMEM, st)
      | (Some pt, st) =>
        let idx := (va .>> 12) .& 0x1FF in
        if tst (ent (mem st) pt idx .& XPT_PRESENT) then (XAS_ERR_BUSY, st)
        else (XAS_OK, set_ent st pt idx ((pa .& XPT_ADDR_MASK) .| leaf))
      end
    end
  end.

Definition unmap_step (root va : Z) (st : MemState) : MemState :=
  match walk_pte (mem st) root va with
  | Some a =>
    if tst (mem_word (mem st) a .& XPT_PRESENT) then mkMem (phys st) (<[a := 0]> (mem st)) (ledger st) else st
  | None => st
  end.

Definition unmap_pages (root va pages : Z) (st : MemState) : MemState :=
  for_range 0 pages (fun i st => unmap_step root (va + i * XERET_FRAME_SIZE) st) st.

(** Record [i] is taken down: its pages, its pin, then the record. *)
Definition drop_record (i : nat) (ks : KState) : KState :=
  match g_maps ks !! i with
  | None => ks
  | Some r =>
    let st := unmap_pages (as_pml4 r) (r_virt r) (r_pages r) (k_mem ks) in
    let st := set_ledger st (xtok_map_release (r_tok r) (ledger st)) in
    set_maps (set_kmem ks st)
      (<[i := mkRec (as_pml4 r) (r_owner r) (r_virt r) (r_tok r) (r_pages r) false]> (g_maps ks))
  end.

Definition map_err (rc : Z) : Z :=
  if rc =? XTOK_MAP_ESTALE then XAS_ERR_TOKEN else
  if rc =? XTOK_MAP_EKIND then XAS_ERR_TOKEN else
  if rc =? XTOK_MAP_EOWNER then XAS_ERR_OWNER else
  if rc =? XTOK_MAP_ERIGHTS then XAS_ERR_RIGHTS else XAS_ERR_BUSY.

Definition copy_entry (src dst i : Z) (st : MemState) : MemState :=
  set_ent st dst i (ent (mem st) src i).

(** Status, the new space on success, and the state. *)
Definition xas_create (owner_id : Z) (ks : KState) : Z * option XAspace * KState :=
  if (g_pml4_phys ks =? 0) || (owner_id =? XTOK_OWNER_KERNEL) then (XAS_ERR_ARG, None, ks) else
  let '(root, st) := alloc_zero_table (k_mem ks) in
  let ks := set_kmem ks st in
  if root =? 0 then (XAS_ERR_NOMEM, None, ks) else
  let kp := g_pml4_phys ks in
  if existsb (fun i => tst (ent (mem st) kp i .& XPT_PRESENT)) (seqZ 1 (XPT_KERNEL_HALF - 1)) then
    (XAS_ERR_ARG, None, set_kmem ks (mkMem (phys_free_frames root 1 (phys st)) (mem st) (ledger st)))
  else
  let st := copy_entry kp root 0 st in
  let st := for_range XPT_KERNEL_HALF (XPT_ENTS - XPT_KERNEL_HALF) (copy_entry kp root) st in
  (XAS_OK, Some (mkAs root owner_id true), set_kmem ks st).

Definition need_rights (perms : Z) : Z :=
  let need := XTOK_RIGHT_MAP .| XTOK_RIGHT_READ in
  let need := if tst (perms .& XPERM_W) then need .| XTOK_RIGHT_WRITE else need in
  if tst (perms .& XPERM_X) then need .| XTOK_RIGHT_EXECUTE else need.

Definition leaf_bits (perms : Z) : Z :=
  let leaf := XPT_PRESENT .| XPT_USER in
  let leaf := if tst (perms .& XPERM_W) then leaf .| XPT_WRITE else leaf in
  if negb (tst (perms .& XPERM_X)) then leaf .| XPT_NX else leaf.

(** Maps pages [i], [i+1], ... ([k] of them); undoes pages [0 .. i-1] on failure. *)
Fixpoint map_loop (k : nat) (i root virt ph leaf : Z) (st : MemState) : Z * MemState :=
  match k with
  | O => (XAS_OK, st)
  | S k' =>
    let '(r, st) := map_page root (virt + i * XERET_FRAME_SIZE) (ph + i * XERET_FRAME_SIZE) leaf st in
    if negb (r =? XAS_OK) then (r, unmap_pages root virt i st)
    else map_loop k' (i + 1) root virt ph leaf st
  end.

Definition rec_of (owner : Z) (r : MapRec) : bool := r_live r && (r_owner r =? owner).

(** The first dead record. *)
Fixpoint find_dead (l : list MapRec) (i : nat) : option nat :=
  match l with
  | [] => None
  | r :: l' => if negb (r_live r) then Some i else find_dead l' (S i)
  end.

Definition unpin (tok : Z) (st : MemState) : MemState := set_ledger st (xtok_map_release tok (ledger st)).

(** The critical section of [xas_map]. *)
Definition xas_map_locked (a : XAspace) (virt tok perms : Z) (ks : KState) : Z * KState :=
  if countb (rec_of (as_owner a)) (g_maps ks) >=? XAS_MAX_MAPS_PER_OWNER then (XAS_ERR_NOMEM, ks) else
  let '(rc, (ph, frames), l) := xtok_map_acquire tok (as_owner a) (need_rights perms) (ledger (k_mem ks)) in
  if negb (rc =? XTOK_MAP_OK) then (map_err rc, ks) else
  let st := set_ledger (k_mem ks) l in
  if (frames =? 0) || (frames >? (XAS_USER_TOP - virt) / XERET_FRAME_SIZE) then
    (XAS_ERR_RANGE, set_kmem ks (unpin tok st))
  else match find_dead (g_maps ks) 0 with
  | None => (XAS_ERR_NOMEM, set_kmem ks (unpin tok st))
  | Some i =>
    let '(r, st) := map_loop (Z.to_nat frames) 0 (as_root a) virt ph (leaf_bits perms) st in
    if negb (r =? XAS_OK) then (r, set_kmem ks (unpin tok st))
    else (XAS_OK, set_maps (set_kmem ks st)
           (<[i := mkRec (as_root a) (as_owner a) virt tok frames true]> (g_maps ks)))
  end.

Definition xas_map (a : option XAspace) (virt tok perms : Z) (ks : KState) : Z * KState :=
  match a with
  | None => (XAS_ERR_ARG, ks)
  | Some a =>
    if negb (as_live a) then (XAS_ERR_ARG, ks) else
    if (perms =? 0) || tst (perms .& u32 (Z.lnot (XPERM_R .| XPERM_W .| XPERM_X))) then (XAS_ERR_ARG, ks) else
    if tst (perms .& XPERM_W) && tst (perms .& XPERM_X) then (XAS_ERR_WX, ks) else
    if negb ((virt .& (XERET_FRAME_SIZE - 1)) =? 0) then (XAS_ERR_RANGE, ks) else
    if (virt <? XAS_USER_BASE) || (virt >=? XAS_USER_TOP) then (XAS_ERR_RANGE, ks) else
    xas_map_locked a virt tok perms ks
  end.

(** The first record at index [i] or later that satisfies [P]. *)
Fixpoint find_rec (P : MapRec -> bool) (l : list MapRec) (i : nat) : option nat :=
  match l with
  | [] => None
  | r :: l' => if P r then Some i else find_rec P l' (S i)
  end.

Definition rec_at (root virt : Z) (r : MapRec) : bool :=
  r_live r && (as_pml4 r =? root) && (r_virt r =? virt).

Definition xas_unmap (a : option XAspace) (virt : Z) (ks : KState) : Z * KState :=
  match a with
  | None => (XAS_ERR_ARG, ks)
  | Some a =>
    if negb (as_live a) then (XAS_ERR_ARG, ks) else
    match find_rec (rec_at (as_root a) virt) (g_maps ks) 0 with
    | Some i => (XAS_OK, drop_record i ks)
    | None => (XAS_ERR_NOTMAPPED, ks)
    end
  end.

(** Drops every record from index [i] on that satisfies [P]; counts them. *)
Definition drop_where (P : MapRec -> bool) (i : Z) (acc : Z * KState) : Z * KState :=
  let '(n, ks) := acc in
  match g_maps ks !! Z.to_nat i with
  | Some r => if P r then (n + 1, drop_record (Z.to_nat i) ks) else (n, ks)
  | None => (n, ks)
  end.

Definition drop_all (P : MapRec -> bool) (ks : KState) : Z * KState :=
  for_range 0 XAS_MAX_MAPS (drop_where P) (0, ks).

Definition rec_tok (tok : Z) (r : MapRec) : bool := r_live r && (r_tok r =? tok).
Definition rec_in (root : Z) (r : MapRec) : bool := r_live r && (as_pml4 r =? root).

Definition xas_revoke_token (tok : Z) (ks : KState) : Z * KState := drop_all (rec_tok tok) ks.

(** Frees the tables below the user half of a PML4. *)
Definition free_frame (t : Z) (st : MemState) : MemState :=
  mkMem (phys_free_frames t 1 (phys st)) (mem st) (ledger st).

Definition free_pd (pd : Z) (st : MemState) : MemState :=
  let st := for_range 0 XPT_ENTS (fun i2 st =>
    let e := ent (mem st) pd i2 in
    if tst (e .& XPT_PRESENT) then free_frame (e .& XPT_ADDR_MASK) st else st) st in
  free_frame pd st.

Definition free_pdpt (pdpt : Z) (st : MemState) : MemState :=
  let st := for_range 0 XPT_ENTS (fun i3 st =>
    let e := ent (mem st) pdpt i3 in
    if tst (e .& XPT_PRESENT) then free_pd (e .& XPT_ADDR_MASK) st else st) st in
  free_frame pdpt st.

Definition free_user_half (root : Z) (st : MemState) : MemState :=
  for_range 1 (XPT_KERNEL_HALF - 1) (fun i4 st =>
    let e := ent (mem st) root i4 in
    if tst (e .& XPT_PRESENT) then free_pdpt (e .& XPT_ADDR_MASK) st else st) st.

(** The space after the call, and the state. *)
Definition xas_destroy (a : option XAspace) (ks : KState) : option XAspace * KState :=
  match a with
  | None => (None, ks)
  | Some a =>
    if negb (as_live a) then (Some a, ks) else
    let ks := (drop_all (rec_in (as_root a)) ks).2 in
    let st := free_frame (as_root a) (free_user_half (as_root a) (k_mem ks)) in
    (Some (mkAs (as_root a) (as_owner a) false), set_kmem ks st)
  end.

Definition xas_live_mappings (ks : KState) : Z := countb r_live (g_maps ks).
Definition xpt_protections (ks : KState) : Z := g_prot ks.
Definition xpt_pml4_phys (ks : KState) : Z := g_pml4_phys ks.
