(* ===== verification/PageTree.v ===== *)
(** The structure of the user page tables built by [paging.c]: an invariant
    over the tables of all live address spaces, and what [next_level],
    [map_page] and [unmap_pages] do to the abstract page map [pte_of] they
    implement. *)

From S2P Require Import Prelude.
From S2P Require Import Physical.
From S2P Require Import Ledger.
From S2P Require Import Paging.

#[local] Ltac Zify.zify_post_hook ::= Z.div_mod_to_equations.

(** * Entries *)

Lemma tst_present e : tst (e .& XPT_PRESENT) = Z.testbit e 0.
Proof.
  change XPT_PRESENT with 1. rewrite land_1_testbit. by destruct (Z.testbit e 0).
Qed.

Lemma tst_huge e : tst (e .& XPT_HUGE) = Z.testbit e 7.
Proof.
  unfold tst. change XPT_HUGE with (2 ^ 7). destruct (Z.testbit e 7) eqn:E.
  - destruct (Z.eqb_spec (e .& 2 ^ 7) 0) as [H|]; [|done].
    apply (f_equal (fun z => Z.testbit z 7)) in H. by rewrite Z.land_spec, E in H.
  - destruct (Z.eqb_spec (e .& 2 ^ 7) 0) as [|H]; [done|]. destruct H. zbits.
    rewrite Z.pow2_bits_eqb by lia. destruct (Z.eqb_spec 7 i) as [<-|]; [by rewrite E|by rewrite andb_false_r].
Qed.

(** Bits 12 to 51. *)
Lemma addr_mask_bit i : 0 <= i -> Z.testbit XPT_ADDR_MASK i = (12 <=? i) && (i <? 52).
Proof.
  intros Hi. change XPT_ADDR_MASK with (Z.ones 40 .<< 12). rewrite Z.shiftl_spec by lia.
  destruct (Z.leb_spec 12 i), (Z.ltb_spec i 52); cbn [andb].
  - apply Z.ones_spec_low. lia.
  - apply Z.ones_spec_high. lia.
  - apply Z.testbit_neg_r. lia.
  - apply Z.testbit_neg_r. lia.
Qed.

(** A frame address: what an entry can point to. *)
Definition frame_addr (t : Z) : Prop := 0 <= t < 2 ^ 52 /\ t mod 4096 = 0.

Lemma frame_addr_low t i : frame_addr t -> 0 <= i < 12 -> Z.testbit t i = false.
Proof.
  intros [_ Hm] Hi. replace t with (t / 2 ^ 12 * 2 ^ 12) by (change (2 ^ 12) with 4096; lia).
  apply Z.mul_pow2_bits_low. lia.
Qed.

Lemma mask_entry t fl :
  frame_addr t -> (forall i, 12 <= i < 52 -> Z.testbit fl i = false) -> (t .| fl) .& XPT_ADDR_MASK = t.
Proof.
  intros Ht Hf. apply Z.bits_inj'. intros i Hi. rewrite Z.land_spec, Z.lor_spec, addr_mask_bit by lia.
  destruct (Z.leb_spec 12 i), (Z.ltb_spec i 52); cbn [andb].
  - rewrite Hf by lia. by rewrite orb_false_r, andb_true_r.
  - rewrite andb_false_r. symmetry. apply (testbit_high t 52); [apply Ht|lia].
  - rewrite andb_false_r. symmetry. apply frame_addr_low; [done|lia].
  - lia.
Qed.

Lemma small_no_mask fl : 0 <= fl < 4096 -> forall i, 12 <= i < 52 -> Z.testbit fl i = false.
Proof. intros Hf i Hi. apply (testbit_high fl 12); lia. Qed.

Lemma entry_bit_low t fl i : frame_addr t -> 0 <= i < 12 -> Z.testbit (t .| fl) i = Z.testbit fl i.
Proof. intros Ht Hi. rewrite Z.lor_spec, frame_addr_low by done. done. Qed.

Lemma mask_frame t : frame_addr t -> t .& XPT_ADDR_MASK = t.
Proof. intros Ht. rewrite <- (Z.lor_0_r t) at 1. apply mask_entry; [done|]. intros. apply Z.bits_0. Qed.

(** * Paths *)

Definition child (m : gmap Z Z) (t i : Z) : option Z :=
  let e := ent m t i in if tst (e .& XPT_PRESENT) then Some (e .& XPT_ADDR_MASK) else None.

Lemma child_Some m t i c :
  child m t i = Some c <-> tst (ent m t i .& XPT_PRESENT) = true /\ ent m t i .& XPT_ADDR_MASK = c.
Proof. unfold child. destruct (tst _); [|naive_solver]. split; [by intros [= <-]|by intros [_ <-]]. Qed.

Lemma child_None m t i : child m t i = None <-> tst (ent m t i .& XPT_PRESENT) = false.
Proof. unfold child. by destruct (tst _). Qed.

(** The table reached from [t] by a list of indices. *)
Fixpoint node (m : gmap Z Z) (t : Z) (q : list Z) : option Z :=
  match q with
  | [] => Some t
  | i :: q' => child m t i ≫= fun t' => node m t' q'
  end.

Lemma node_app m t q q' : node m t (q ++ q') = node m t q ≫= fun t' => node m t' q'.
Proof.
  revert t. induction q as [|i q IH]; intros t; [done|]. cbn. destruct (child m t i); [|done]. apply IH.
Qed.

Lemma node_snoc m t q i : node m t (q ++ [i]) = node m t q ≫= fun t' => child m t' i.
Proof. rewrite node_app. destruct (node m t q); [|done]. cbn. by destruct (child m _ i). Qed.

(** The user tables of a space: below PML4 entries 1 to 255, at most three levels down. *)
Definition upath (q : list Z) : Prop :=
  (length q <= 3)%nat /\ Forall (fun i => 0 <= i < 512) q /\
  match q with [] => True | i :: _ => 1 <= i < 256 end.

Lemma upath_nil : upath [].
Proof. split; [cbn; lia|done]. Qed.

Lemma upath_snoc q i : upath (q ++ [i]) -> upath q /\ 0 <= i < 512.
Proof.
  intros (Hl & Hf & Hh). rewrite length_app in Hl. cbn in Hl. apply Forall_app in Hf as [Hf Hi].
  apply Forall_cons in Hi as [Hi _]. split; [|done]. split; [lia|]. split; [done|]. by destruct q.
Qed.

(** * Invariant *)

(** A table lives in a used frame that belongs to no token. *)
Record table_ok (st : MemState) (t : Z) : Prop := {
  tk_align : t mod 4096 = 0;
  tk_pos : 0 < t;
  tk_range : t / 4096 < total_frames (phys st);
  tk_used : bit_test (phys st) (t / 4096) = false;
  tk_free : forall i e, g_table (ledger st) !! i = Some e -> live e = true -> ~ in_frames e (t / 4096)
}.

Record pt_wf (st : MemState) (R : list Z) : Prop := {
  pw_mem : mem_inv st;
  pw_node : forall r q t, r ∈ R -> upath q -> node (mem st) r q = Some t -> table_ok st t;
  pw_inj : forall r r' q q' t, r ∈ R -> r' ∈ R -> upath q -> upath q' ->
    node (mem st) r q = Some t -> node (mem st) r' q' = Some t -> r = r' /\ q = q';
  pw_upper : forall r q t i, r ∈ R -> upath (q ++ [i]) -> node (mem st) r q = Some t ->
    Z.testbit (ent (mem st) t i) 0 = true ->
    exists c, frame_addr c /\ ent (mem st) t i = c .| XPT_UPPER
}.

Lemma table_frame st t : mem_inv st -> table_ok st t -> frame_addr t /\ t / 4096 < 2 ^ 25.
Proof.
  intros Hm [Ha Hp Hr _ _]. pose proof (wf_total _ (mi_phys st Hm)) as Ht. rewrite max_frames_val in Ht.
  split; [split; [lia|done]|lia].
Qed.

(** Two entries at the same address are the same entry of the same table. *)
Lemma ent_addr_inj t t' i j :
  t mod 4096 = 0 -> t' mod 4096 = 0 -> 0 <= i < 512 -> 0 <= j < 512 -> t + 8 * i = t' + 8 * j -> t = t' /\ i = j.
Proof. intros. lia. Qed.

Lemma ent_insert m t i v t' j :
  t mod 4096 = 0 -> t' mod 4096 = 0 -> 0 <= i < 512 -> 0 <= j < 512 ->
  ent (<[t + 8 * i := v]> m) t' j = if decide (t = t' /\ i = j) then v else ent m t' j.
Proof.
  intros Ht Ht' Hi Hj. unfold ent. rewrite mem_word_insert.
  destruct (decide (t + 8 * i = t' + 8 * j)) as [E|E]; case_decide as D; try done.
  - destruct D. by apply ent_addr_inj.
  - destruct D as [-> ->]. done.
Qed.

(** ** Frame lemma: memory that agrees on the tables has the same tables. *)
Lemma node_agree st R m' :
  pt_wf st R ->
  (forall r q t i, r ∈ R -> upath q -> node (mem st) r q = Some t -> 0 <= i < 512 ->
     ent m' t i = ent (mem st) t i) ->
  forall r q, r ∈ R -> upath q -> node m' r q = node (mem st) r q.
Proof.
  intros Hwf Hag r q Hr. induction q as [|i q IH] using rev_ind; intros Hq; [done|].
  pose proof (upath_snoc q i Hq) as [Hq' Hi]. rewrite !node_snoc, (IH Hq').
  destruct (node (mem st) r q) as [t|] eqn:E; [|done]. cbn. unfold child. by rewrite (Hag r q t i).
Qed.

(** ** Write lemma: a write to entry [i] of table [(r, q0)] changes only the
    tables below that entry. *)
Lemma node_write st R r q0 t i v :
  pt_wf st R -> r ∈ R -> upath q0 -> node (mem st) r q0 = Some t -> 0 <= i < 512 ->
  forall r' q, r' ∈ R -> upath q -> ~ (r' = r /\ q0 ++ [i] `prefix_of` q) ->
  node (<[t + 8 * i := v]> (mem st)) r' q = node (mem st) r' q.
Proof.
  intros Hwf Hr Hq0 Ht Hi r' q Hr'. induction q as [|j q IH] using rev_ind; intros Hq Hnp; [done|].
  pose proof (upath_snoc q j Hq) as [Hq' Hj]. rewrite !node_snoc, IH; [|done|].
  2: { intros [E Hp]. apply Hnp. split; [done|]. by apply prefix_app_r. }
  destruct (node (mem st) r' q) as [t'|] eqn:E; [|done]. cbn. unfold child.
  pose proof (tk_align _ _ (pw_node _ _ Hwf _ _ _ Hr Hq0 Ht)). pose proof (tk_align _ _ (pw_node _ _ Hwf _ _ _ Hr' Hq' E)).
  rewrite ent_insert by done. case_decide as D; [|done]. destruct D as [<- <-]. destruct Hnp.
  destruct (pw_inj _ _ Hwf r r' q0 q t) as [-> ->]; done.
Qed.

(** * Allocating a table *)

Lemma own_ok_used p q s n tbl :
  own_ok p tbl -> total_frames q = total_frames p -> frames_set p q s n false ->
  (forall j e, tbl !! j = Some e -> live e = true -> 0 <= e_phys e) -> own_ok q tbl.
Proof.
  intros [Hr Hu Hd] Ht Hset Hpos. split; [|intros i e f He Hl Hf|done].
  - intros i e He Hl. rewrite Ht. eauto.
  - specialize (Hpos i e He Hl). unfold in_frames in Hf. rewrite Hset by lia. case_decide; [done|]. eauto.
Qed.

Lemma clear_table_spec t m a :
  mem_word (clear_table t m) a = if decide (t <= a < t + 4096 /\ (a - t) mod 8 = 0) then 0 else mem_word m a.
Proof.
  change (clear_table t m) with (zero_frames t 1 m). rewrite zero_frames_spec by lia.
  repeat case_decide; (done || lia).
Qed.

(** A fresh table: a frame that was free, now used and cleared. *)
Record fresh_table (st st' : MemState) (c : Z) : Prop := {
  ft_align : c mod 4096 = 0;
  ft_pos : 0 < c;
  ft_range : c / 4096 < total_frames (phys st);
  ft_was : bit_test (phys st) (c / 4096) = true;
  ft_set : frames_set (phys st) (phys st') (c / 4096) 1 false;
  ft_total : total_frames (phys st') = total_frames (phys st);
  ft_ledger : ledger st' = ledger st;
  ft_mem : forall a, mem_word (mem st') a =
    if decide (c <= a < c + 4096 /\ (a - c) mod 8 = 0) then 0 else mem_word (mem st) a;
  ft_inv : mem_inv st'
}.

Lemma alloc_zero_table_spec st :
  mem_inv st ->
  match alloc_zero_table st with
  | (c, st') => (c = 0 /\ st' = st) \/ (c <> 0 /\ fresh_table st st' c)
  end.
Proof.
  intros Hinv. unfold alloc_zero_table.
  pose proof (alloc_frames_result 1 (phys st) (mi_phys st Hinv) ltac:(lia)) as Ha.
  destruct (phys_alloc_frames 1 (phys st)) as [ph p].
  destruct Ha as [(s & Hph & Hs & _ & Hle & Hrun & _ & Hwf & Hset & Ht & _)|[[= -> ->] Hno]]; cbn [fst snd] in *.
  - subst ph. destruct (Z.eqb_spec (s * 4096) 0); [lia|]. right. split; [lia|].
    assert (s * 4096 / 4096 = s) as Hdiv by lia.
    split; cbn [phys mem ledger]; rewrite ?Hdiv; try done; try lia.
    + apply Hrun. lia.
    + intros a. apply clear_table_spec.
    + destruct Hinv as [Hp Hl Ho]. split; cbn [phys mem ledger]; [done|done|].
      eapply own_ok_used; eauto using own_nonneg.
  - left. cbn [Z.eqb]. split; [done|]. by destruct st.
Qed.

(** * Growing the tables *)

(** A frame that holds a table of one of the spaces. *)
Definition tab_frame (R : list Z) (m : gmap Z Z) (f : Z) : Prop :=
  exists r q t, r ∈ R /\ upath q /\ node m r q = Some t /\ t / 4096 = f.

(** What every operation on the tables keeps: the ledger, the frames in use,
    the tables there are, and every word of a used frame that is no table.
    A frame it takes holds a new table. *)
Record pt_frame (R : list Z) (st st' : MemState) : Prop := {
  pf_ledger : ledger st' = ledger st;
  pf_total : total_frames (phys st') = total_frames (phys st);
  pf_used : forall f, 0 <= f -> bit_test (phys st) f = false -> bit_test (phys st') f = false;
  pf_node : forall r q t, r ∈ R -> upath q -> node (mem st) r q = Some t -> node (mem st') r q = Some t;
  pf_new : forall r q t, r ∈ R -> upath q -> node (mem st') r q = Some t ->
    node (mem st) r q = Some t \/ (node (mem st) r q = None /\ bit_test (phys st) (t / 4096) = true);
  pf_back : forall f, 0 <= f -> bit_test (phys st) f = true -> bit_test (phys st') f = false -> tab_frame R (mem st') f;
  pf_other : forall a, 0 <= a -> bit_test (phys st) (a / 4096) = false ->
    (forall r q t, r ∈ R -> upath q -> node (mem st) r q = Some t -> t / 4096 <> a / 4096) ->
    mem_word (mem st') a = mem_word (mem st) a
}.

Lemma pt_frame_refl R st : pt_frame R st st.
Proof. split; auto. congruence. Qed.

Lemma pt_frame_trans R st1 st2 st3 :
  pt_wf st3 R -> pt_frame R st1 st2 -> pt_frame R st2 st3 -> pt_frame R st1 st3.
Proof.
  intros Hwf H1 H2. split.
  - by rewrite (pf_ledger _ _ _ H2), (pf_ledger _ _ _ H1).
  - by rewrite (pf_total _ _ _ H2), (pf_total _ _ _ H1).
  - intros f Hf Hb. by apply (pf_used _ _ _ H2), (pf_used _ _ _ H1).
  - intros r q t Hr Hq Ht. by apply (pf_node _ _ _ H2), (pf_node _ _ _ H1).
  - intros r q t Hr Hq Ht. destruct (pf_new _ _ _ H2 r q t Hr Hq Ht) as [Ht2|[Hn2 Hb2]].
    + by apply (pf_new _ _ _ H1).
    + right. destruct (node (mem st1) r q) as [t1|] eqn:E1.
      { rewrite (pf_node _ _ _ H1 r q t1 Hr Hq E1) in Hn2. done. }
      split; [done|]. destruct (bit_test (phys st1) (t / 4096)) eqn:Eb; [done|].
      rewrite (pf_used _ _ _ H1) in Hb2; [done| |done].
      pose proof (tk_pos _ _ (pw_node _ _ Hwf r q t Hr Hq Ht)). lia.
  - intros f Hf H1f H3f. destruct (bit_test (phys st2) f) eqn:E2; [by apply (pf_back _ _ _ H2)|].
    destruct (pf_back _ _ _ H1 f Hf H1f E2) as (r & q & t & Hr & Hq & Ht & <-). exists r, q, t.
    split_and!; [done|done|by apply (pf_node _ _ _ H2)|done].
  - intros a Ha Hb Hno. rewrite (pf_other _ _ _ H2 a Ha), (pf_other _ _ _ H1 a Ha); auto.
    + by apply (pf_used _ _ _ H1); [lia|].
    + intros r q t Hr Hq Ht E. destruct (pf_new _ _ _ H1 r q t Hr Hq Ht) as [Ht1|[_ Hb1]].
      * by apply (Hno r q t).
      * rewrite E in Hb1. congruence.
Qed.

(** [st'] has the tables of [st] and possibly new, empty ones. *)
Record pt_ext (R : list Z) (st st' : MemState) : Prop := {
  px_wf : pt_wf st' R;
  px_frame : pt_frame R st st';
  px_leaf : forall r q t i, r ∈ R -> upath q -> length q = 3%nat -> 0 <= i < 512 ->
    node (mem st') r q = Some t ->
    ent (mem st') t i = if decide (node (mem st) r q = Some t) then ent (mem st) t i else 0
}.

Lemma pt_ext_refl R st : pt_wf st R -> pt_ext R st st.
Proof. intros H. split; [done|apply pt_frame_refl|]. intros. by rewrite decide_True. Qed.

Lemma pt_ext_trans R st1 st2 st3 : pt_ext R st1 st2 -> pt_ext R st2 st3 -> pt_ext R st1 st3.
Proof.
  intros [W1 F1 L1] [W2 F2 L2]. split; [done|by eapply pt_frame_trans|].
  intros r q t i Hr Hq Hl Hi Ht. rewrite (L2 r q t i) by done. case_decide as D.
  - by apply L1.
  - rewrite decide_False; [done|]. intros E. apply D. by apply (pf_node _ _ _ F1).
Qed.

Section Attach.
Context (R : list Z) (st st1 : MemState) (c : Z) (Hwf : pt_wf st R) (Hc : fresh_table st st1 c).
Context (r : Z) (q : list Z) (t i : Z) (Hr : r ∈ R) (Hqi : upath (q ++ [i])).
Context (Ht : node (mem st) r q = Some t) (Habs : Z.testbit (ent (mem st) t i) 0 = false).

Let st2 : MemState := set_ent st1 t i (c .| XPT_UPPER).

Lemma at_q : upath q /\ 0 <= i < 512.
Proof. by apply upath_snoc. Qed.

Lemma at_c : frame_addr c.
Proof.
  pose proof (wf_total _ (mi_phys _ (pw_mem _ _ Hwf))) as Hm. rewrite max_frames_val in Hm.
  pose proof (ft_range _ _ _ Hc). pose proof (ft_pos _ _ _ Hc). split; [lia|apply Hc].
Qed.

(** The fresh frame is none of the tables. *)
Lemma at_fresh r' q' t' : r' ∈ R -> upath q' -> node (mem st) r' q' = Some t' -> t' / 4096 <> c / 4096.
Proof.
  intros Hr' Hq' Ht' E. pose proof (tk_used _ _ (pw_node _ _ Hwf r' q' t' Hr' Hq' Ht')) as Hu.
  rewrite E, (ft_was _ _ _ Hc) in Hu. done.
Qed.

Lemma at_ent1 r' q' t' j :
  r' ∈ R -> upath q' -> node (mem st) r' q' = Some t' -> 0 <= j < 512 -> ent (mem st1) t' j = ent (mem st) t' j.
Proof.
  intros Hr' Hq' Ht' Hj. pose proof (at_fresh r' q' t' Hr' Hq' Ht'). unfold ent. rewrite (ft_mem _ _ _ Hc).
  pose proof (tk_align _ _ (pw_node _ _ Hwf r' q' t' Hr' Hq' Ht')). pose proof (ft_align _ _ _ Hc).
  rewrite decide_False by lia. done.
Qed.

Lemma at_node1 r' q' : r' ∈ R -> upath q' -> node (mem st1) r' q' = node (mem st) r' q'.
Proof. intros. apply (node_agree st R); [done| |done|done]. exact at_ent1. Qed.

Lemma table_ok_mono t' : table_ok st t' -> table_ok st1 t'.
Proof.
  intros [H1 H2 H3 H4 H5]. split; rewrite ?(ft_total _ _ _ Hc), ?(ft_ledger _ _ _ Hc); try done.
  rewrite (ft_set _ _ _ Hc) by lia. by case_decide.
Qed.

Lemma at_wf1 : pt_wf st1 R.
Proof.
  split; [apply Hc| | |].
  - intros r' q' t' Hr' Hq' Ht'. rewrite at_node1 in Ht' by done. apply table_ok_mono.
    by eapply (pw_node _ _ Hwf).
  - intros r1 r2 q1 q2 t' Hr1 Hr2 Hq1 Hq2. rewrite !at_node1 by done. by apply (pw_inj _ _ Hwf).
  - intros r' q' t' j Hr' Hq' Ht' Hp. pose proof (upath_snoc _ _ Hq') as [Hq'' Hj].
    rewrite at_node1 in Ht' by done. rewrite (at_ent1 r' q') in Hp |- * by done.
    by eapply (pw_upper _ _ Hwf).
Qed.

Lemma at_t : table_ok st t.
Proof. by eapply (pw_node _ _ Hwf); [|apply at_q|]. Qed.

(** Entries of the tables after the write. *)
Lemma at_ent2 r' q' t' j :
  r' ∈ R -> upath q' -> node (mem st) r' q' = Some t' -> 0 <= j < 512 ->
  ent (mem st2) t' j = if decide (r' = r /\ q' = q /\ j = i) then c .| XPT_UPPER else ent (mem st) t' j.
Proof.
  intros Hr' Hq' Ht' Hj. cbn [st2 set_ent mem].
  rewrite ent_insert; [|apply at_t|by eapply (pw_node _ _ Hwf)|apply at_q|done].
  rewrite (at_ent1 r' q') by done. case_decide as D1; case_decide as D2; try done.
  - destruct D2. destruct D1 as [<- <-]. split_and!; [| |done]; symmetry.
    + by eapply (pw_inj _ _ Hwf r r' q q'); [| |apply at_q| | |].
    + by eapply (pw_inj _ _ Hwf r r' q q'); [| |apply at_q| | |].
  - destruct D1. destruct D2 as (-> & -> & ->). split; [congruence|done].
Qed.

Lemma at_ent2_c j : 0 <= j < 512 -> ent (mem st2) c j = 0.
Proof.
  intros Hj. cbn [st2 set_ent mem]. rewrite ent_insert; [|apply at_t|apply Hc|apply at_q|done].
  rewrite decide_False.
  - unfold ent. rewrite (ft_mem _ _ _ Hc), decide_True by lia. done.
  - intros [E _]. apply (at_fresh r q t); [done|apply at_q|done|by rewrite E].
Qed.

Lemma at_child : child (mem st2) t i = Some c.
Proof.
  unfold child. rewrite (at_ent2 r q) by (done || apply at_q). rewrite decide_True by done.
  rewrite tst_present, entry_bit_low by (done || lia || apply at_c).
  change (Z.testbit XPT_UPPER 0) with true. cbv iota. f_equal.
  apply mask_entry; [apply at_c|]. apply small_no_mask. by vm_compute.
Qed.

(** The tables after the write. *)
Lemma at_node2 r' q' :
  r' ∈ R -> upath q' ->
  node (mem st2) r' q' =
    if decide (r' = r /\ q' = q ++ [i]) then Some c
    else if decide (r' = r /\ q ++ [i] `prefix_of` q') then None else node (mem st) r' q'.
Proof.
  intros Hr' Hq'.
  assert (forall r1 q1, r1 ∈ R -> upath q1 -> ~ (r1 = r /\ q ++ [i] `prefix_of` q1) ->
    node (mem st2) r1 q1 = node (mem st) r1 q1) as Hout.
  { intros r1 q1 Hr1 Hq1 Hn. cbn [st2 set_ent mem].
    rewrite (node_write st1 R r q t i _ at_wf1 Hr); [by apply at_node1|apply at_q| |apply at_q|done|done|done].
    by rewrite at_node1 by (done || apply at_q). }
  assert (node (mem st2) r (q ++ [i]) = Some c) as Hself.
  { rewrite node_snoc, Hout, Ht; [apply at_child|done|apply at_q|].
    intros [_ Hp]. apply prefix_length in Hp. rewrite length_app in Hp. cbn in Hp. lia. }
  destruct (decide (r' = r /\ q' = q ++ [i])) as [[-> ->]|Hne]; [done|].
  destruct (decide (r' = r /\ q ++ [i] `prefix_of` q')) as [[-> [rest ->]]|Hn]; [|by apply Hout].
  destruct rest as [|j rest]; [destruct Hne; by rewrite app_nil_r|].
  rewrite node_app, Hself. cbn. unfold child.
  rewrite at_ent2_c; [done|]. destruct Hq' as (_ & Hf & _). apply Forall_app in Hf as [_ Hf].
  by apply Forall_cons in Hf as [? _].
Qed.

Lemma at_absent q' : q ++ [i] `prefix_of` q' -> node (mem st) r q' = None.
Proof.
  intros [rest ->]. rewrite node_app, node_snoc, Ht. cbn. unfold child. by rewrite tst_present, Habs.
Qed.

(** What a table of the new state was. *)
Lemma at_back r' q' t' :
  r' ∈ R -> upath q' -> node (mem st2) r' q' = Some t' ->
  (r' = r /\ q' = q ++ [i] /\ t' = c) \/ (node (mem st) r' q' = Some t' /\ ~ (r' = r /\ q' = q ++ [i])).
Proof.
  intros Hr' Hq' H. rewrite at_node2 in H by done. case_decide as D; [left; naive_solver|].
  case_decide; [done|]. by right.
Qed.

Lemma at_tables t' : table_ok st t' \/ t' = c -> table_ok st2 t'.
Proof.
  intros [H|H].
  - apply table_ok_mono in H as [H1 H2 H3 H4 H5]. by split.
  - subst t'. pose proof (ft_pos _ _ _ Hc).
    split; cbn [st2 set_ent phys mem ledger]; rewrite ?(ft_total _ _ _ Hc), ?(ft_ledger _ _ _ Hc).
    + apply Hc.
    + done.
    + apply Hc.
    + rewrite (ft_set _ _ _ Hc) by lia. by rewrite decide_True by lia.
    + intros j e He Hl Hf. pose proof (oo_used _ _ (mi_own _ (pw_mem _ _ Hwf)) j e _ He Hl Hf) as Hu.
      by rewrite (ft_was _ _ _ Hc) in Hu.
Qed.

Lemma at_wf2 : pt_wf st2 R.
Proof.
  split.
  - destruct (ft_inv _ _ _ Hc) as [H1 H2 H3]. by split.
  - intros r' q' t' Hr' Hq' Ht'. apply at_tables.
    destruct (at_back r' q' t' Hr' Hq' Ht') as [(_ & _ & ->)|[H _]]; [by right|left].
    by eapply (pw_node _ _ Hwf).
  - intros r1 r2 q1 q2 t' Hr1 Hr2 Hq1 Hq2 H1 H2.
    pose proof (at_back r1 q1 t' Hr1 Hq1 H1) as B1. pose proof (at_back r2 q2 t' Hr2 Hq2 H2) as B2.
    destruct B1 as [(-> & -> & E1)|[H1' _]], B2 as [(-> & -> & E2)|[H2' _]]; try done.
    + subst t'. by destruct (at_fresh r2 q2 c Hr2 Hq2 H2').
    + subst t'. by destruct (at_fresh r1 q1 c Hr1 Hq1 H1').
    + by apply (pw_inj _ _ Hwf r1 r2 q1 q2 t').
  - intros r' q' t' j Hr' Hq' Ht' Hp. pose proof (upath_snoc _ _ Hq') as [Hq'' Hj].
    destruct (at_back r' q' t' Hr' Hq'' Ht') as [(-> & -> & ->)|[H' _]].
    + rewrite at_ent2_c in Hp by done. by rewrite Z.bits_0 in Hp.
    + rewrite (at_ent2 r' q') in Hp |- * by done. case_decide; [exists c; split; [apply at_c|done]|].
      by eapply (pw_upper _ _ Hwf).
Qed.

Lemma at_frame : pt_frame R st st2.
Proof.
  split.
  - apply Hc.
  - apply Hc.
  - intros f Hf Hb. cbn [st2 set_ent phys]. rewrite (ft_set _ _ _ Hc) by done. by case_decide.
  - intros r' q' t' Hr' Hq' Ht'. rewrite at_node2 by done.
    repeat case_decide; try done; exfalso; destruct_and?; subst; by rewrite at_absent in Ht'.
  - intros r' q' t' Hr' Hq' Ht'. destruct (at_back r' q' t' Hr' Hq' Ht') as [(-> & -> & ->)|[H _]]; [right|by left].
    split; [by apply at_absent|apply Hc].
  - intros f Hf. cbn [st2 set_ent phys]. rewrite (ft_set _ _ _ Hc) by done. case_decide as D; [|congruence]. intros _ _.
    exists r, (q ++ [i]), c. split_and!; [done|done|by rewrite at_node2, decide_True|lia].
  - intros a Ha Hb Hno. cbn [st2 set_ent mem]. rewrite mem_word_insert.
    pose proof (tk_align _ _ at_t). pose proof at_q as [Hq Hi]. specialize (Hno r q t Hr Hq Ht).
    rewrite decide_False by lia. rewrite (ft_mem _ _ _ Hc). pose proof (ft_align _ _ _ Hc).
    pose proof (ft_was _ _ _ Hc). rewrite decide_False; [done|]. intros [Hin _].
    assert (a / 4096 = c / 4096) as E by lia. congruence.
Qed.

Lemma at_ext : pt_ext R st st2.
Proof.
  split; [apply at_wf2|apply at_frame|]. intros r' q' t' j Hr' Hq' Hl Hj Ht'.
  destruct (at_back r' q' t' Hr' Hq' Ht') as [(-> & -> & ->)|[H _]].
  - rewrite at_absent by done. rewrite decide_False by done. by apply at_ent2_c.
  - rewrite decide_True by done. rewrite (at_ent2 r' q') by done. rewrite decide_False; [done|].
    intros (-> & -> & ->). destruct Hqi as (Hl' & _). rewrite length_app in Hl'. cbn in Hl'. lia.
Qed.
End Attach.

Lemma next_level_spec R st r q t i :
  pt_wf st R -> r ∈ R -> upath (q ++ [i]) -> node (mem st) r q = Some t ->
  match next_level t i XPT_UPPER st with
  | (None, st') => st' = st
  | (Some c, st') => pt_ext R st st' /\ node (mem st') r (q ++ [i]) = Some c
  end.
Proof.
  intros Hwf Hr Hqi Ht. unfold next_level. rewrite tst_present.
  destruct (Z.testbit (ent (mem st) t i) 0) eqn:E; cbn [negb].
  - split; [by apply pt_ext_refl|]. rewrite node_snoc, Ht. cbn. unfold child. by rewrite tst_present, E.
  - pose proof (alloc_zero_table_spec st (pw_mem _ _ Hwf)) as Ha. destruct (alloc_zero_table st) as [c st1].
    destruct Ha as [[-> ->]|[Hne Hc]]; [done|]. destruct (Z.eqb_spec c 0); [done|]. split.
    + by apply (at_ext R st st1 c Hwf Hc r q t i).
    + rewrite (at_node2 R st st1 c Hwf Hc r q t i) by done. by rewrite decide_True.
Qed.

(** * The page map *)

Definition user_va (va : Z) : Prop := XAS_USER_BASE <= va < XAS_USER_TOP.

(** The indices of the tables on the way to [va], and of its PTE. *)
Definition vpath (va : Z) : list Z := [(va .>> 39) .& 0x1FF; (va .>> 30) .& 0x1FF; (va .>> 21) .& 0x1FF].
Definition pidx (va : Z) : Z := (va .>> 12) .& 0x1FF.

(** The present leaf entry of [va] in the space with PML4 [r]. *)
Definition pte_of (m : gmap Z Z) (r va : Z) : option Z :=
  match node m r (vpath va) with
  | Some t => let e := ent m t (pidx va) in if Z.testbit e 0 then Some e else None
  | None => None
  end.

Lemma idx_mod va k : 0 <= k -> (va .>> k) .& 0x1FF = va / 2 ^ k mod 512.
Proof. intros. change 0x1FF with (2 ^ 9 - 1). rewrite land_pow2_mod, shiftr_div by lia. done. Qed.

Lemma vpath_upath va : user_va va -> upath (vpath va).
Proof.
  unfold user_va, vpath, XAS_USER_BASE, XAS_USER_TOP. intros H. rewrite !idx_mod by lia. split; [done|]. split.
  - repeat (apply Forall_cons; split; [apply Z.mod_pos_bound; lia|]). done.
  - lia.
Qed.

Lemma pidx_range va : 0 <= pidx va < 512.
Proof. unfold pidx. rewrite idx_mod by lia. apply Z.mod_pos_bound. lia. Qed.

Lemma page_eq va va' :
  user_va va -> user_va va' -> vpath va = vpath va' -> pidx va = pidx va' -> va / 4096 = va' / 4096.
Proof.
  unfold user_va, vpath, pidx, XAS_USER_BASE, XAS_USER_TOP. intros H H'. rewrite !idx_mod by lia.
  change (2 ^ 12) with 4096. change (2 ^ 21) with (4096 * 512). change (2 ^ 30) with (4096 * 512 * 512).
  change (2 ^ 39) with (4096 * 512 * 512 * 512). rewrite <- !Z.div_div by lia.
  intros [= E1 E2 E3] E4. lia.
Qed.

Lemma page_eq_path va va' : va / 4096 = va' / 4096 -> vpath va = vpath va' /\ pidx va = pidx va'.
Proof.
  intros E. unfold vpath, pidx. rewrite !idx_mod by lia.
  change (2 ^ 12) with 4096. change (2 ^ 21) with (4096 * 512). change (2 ^ 30) with (4096 * 512 * 512).
  change (2 ^ 39) with (4096 * 512 * 512 * 512). rewrite <- !Z.div_div by lia. by rewrite E.
Qed.

(** The walk of the code finds the PTE of the tree. *)
Lemma walk_pte_node R st r va :
  pt_wf st R -> r ∈ R -> user_va va ->
  walk_pte (mem st) r va = (fun t => t + 8 * pidx va) <$> node (mem st) r (vpath va).
Proof.
  intros Hwf Hr Hva. pose proof (vpath_upath va Hva) as Hp. unfold walk_pte, walk_pd.
  unfold vpath. cbn [node].
  destruct (child (mem st) r _) as [t3|] eqn:E4; pose proof E4 as C4.
  2: { apply child_None in C4 as ->. done. }
  apply child_Some in C4 as [D4 F4]. rewrite D4, F4. cbn [negb mbind option_bind].
  destruct (child (mem st) t3 _) as [t2|] eqn:E3; pose proof E3 as C3.
  2: { apply child_None in C3 as ->. done. }
  apply child_Some in C3 as [D3 F3]. rewrite D3, F3. cbn [negb mbind option_bind].
  destruct (child (mem st) t2 _) as [t1|] eqn:E2; pose proof E2 as C2.
  2: { apply child_None in C2 as ->. done. }
  apply child_Some in C2 as [C2 F2]. rewrite C2, F2, tst_huge. cbn [negb orb].
  rewrite tst_present in C2.
  destruct (pw_upper st R Hwf r [(va .>> 39) .& 0x1FF; (va .>> 30) .& 0x1FF] t2 ((va .>> 21) .& 0x1FF) Hr)
    as (c & Hc & Ec); [done| |done|].
  - cbn [node]. rewrite E4. cbn [mbind option_bind]. by rewrite E3.
  - rewrite Ec, entry_bit_low by (done || lia). done.
Qed.

(** * Changes of the page map *)

(** [st'] follows from [st] by operations on the tables of [R] that leave the
    ledger alone and make the page map [P]. *)
Record pt_rel (R : list Z) (st st' : MemState) (P : Z -> Z -> option Z) : Prop := {
  pr_wf : pt_wf st' R;
  pr_frame : pt_frame R st st';
  pr_pte : forall r va, r ∈ R -> user_va va -> pte_of (mem st') r va = P r va
}.

Lemma pt_rel_trans R st1 st2 st3 P P' : pt_rel R st1 st2 P -> pt_rel R st2 st3 P' -> pt_rel R st1 st3 P'.
Proof.
  intros H1 H2. split; [apply H2| |apply H2].
  eapply pt_frame_trans; [apply H2|apply H1|apply H2].
Qed.

Lemma pt_ext_rel R st st' : pt_ext R st st' -> pt_rel R st st' (pte_of (mem st)).
Proof.
  intros H. split; [apply H|apply H|]. intros r va Hr Hva. pose proof (vpath_upath va Hva) as Hp.
  unfold pte_of. destruct (node (mem st') r (vpath va)) as [t|] eqn:E'.
  - rewrite (px_leaf _ _ _ H r (vpath va) t) by (done || apply pidx_range).
    destruct (pf_new _ _ _ (px_frame _ _ _ H) r _ t Hr Hp E') as [E|[E _]]; rewrite E.
    + by rewrite decide_True.
    + rewrite decide_False by done. by rewrite Z.bits_0.
  - destruct (node (mem st) r (vpath va)) as [t|] eqn:E; [|done].
    by rewrite (pf_node _ _ _ (px_frame _ _ _ H) r _ t Hr Hp E) in E'.
Qed.

(** The page map with the page of [va] in space [r] set to [v]. *)
Definition pmap_set (P : Z -> Z -> option Z) (r va : Z) (v : option Z) (r' va' : Z) : option Z :=
  if decide (r' = r /\ va' / 4096 = va / 4096) then v else P r' va'.

Definition set_word (st : MemState) (a v : Z) : MemState := mkMem (phys st) (<[a := v]> (mem st)) (ledger st).

Section Leaf.
Context (R : list Z) (st : MemState) (Hwf : pt_wf st R) (r va t v : Z) (Hr : r ∈ R) (Hva : user_va va).
Context (Ht : node (mem st) r (vpath va) = Some t).
Let st' : MemState := set_word st (t + 8 * pidx va) v.

Lemma leaf_node r' q : r' ∈ R -> upath q -> node (mem st') r' q = node (mem st) r' q.
Proof.
  intros Hr' Hq. apply (node_write st R r (vpath va) t (pidx va) v); auto using vpath_upath, pidx_range.
  intros [_ Hp]. apply prefix_length in Hp. destruct Hq as (Hl & _). cbn in Hp. lia.
Qed.

Lemma leaf_ent r' q t' j :
  r' ∈ R -> upath q -> node (mem st) r' q = Some t' -> 0 <= j < 512 ->
  ent (mem st') t' j = if decide (r' = r /\ q = vpath va /\ j = pidx va) then v else ent (mem st) t' j.
Proof.
  intros Hr' Hq Ht' Hj. pose proof (vpath_upath va Hva) as Hp. cbn [st' set_word mem].
  rewrite ent_insert; [|exact (tk_align _ _ (pw_node _ _ Hwf r _ t Hr Hp Ht))|
    exact (tk_align _ _ (pw_node _ _ Hwf r' q t' Hr' Hq Ht'))|apply pidx_range|done].
  case_decide as D1; case_decide as D2; try done.
  - destruct D2. destruct D1 as [<- <-]. by destruct (pw_inj _ _ Hwf r r' (vpath va) q t) as [-> ->].
  - destruct D1. destruct D2 as (-> & -> & ->). split; [congruence|done].
Qed.

Lemma leaf_wf : pt_wf st' R.
Proof.
  destruct Hwf as [Hm Hn Hi Hu]. split.
  - by destruct Hm.
  - intros r' q t' Hr' Hq. rewrite leaf_node by done. intros H. by destruct (Hn r' q t' Hr' Hq H).
  - intros r1 r2 q1 q2 t' Hr1 Hr2 Hq1 Hq2. rewrite !leaf_node by done. by apply Hi.
  - intros r' q t' j Hr' Hq Ht'. pose proof (upath_snoc _ _ Hq) as [Hq' Hj]. rewrite leaf_node in Ht' by done.
    rewrite (leaf_ent r' q) by done. rewrite decide_False; [by apply Hu with r' q|].
    intros (_ & -> & _). destruct Hq as (Hl & _). cbn in Hl. lia.
Qed.

Lemma leaf_rel :
  pt_rel R st st' (pmap_set (pte_of (mem st)) r va (if Z.testbit v 0 then Some v else None)).
Proof.
  split; [apply leaf_wf| |].
  - split; try done.
    + intros r' q t' Hr' Hq. by rewrite leaf_node.
    + intros r' q t' Hr' Hq. rewrite leaf_node by done. by left.
    + intros f _ E1 E2. exfalso. cbn [st' set_word phys] in E2. congruence.
    + intros a Ha Hb Hno. cbn [st' set_word mem]. rewrite mem_word_insert.
      pose proof (vpath_upath va Hva) as Hp. pose proof (pidx_range va).
      pose proof (tk_align _ _ (pw_node _ _ Hwf r _ t Hr Hp Ht)). specialize (Hno r _ t Hr Hp Ht).
      by rewrite decide_False by lia.
  - intros r' va' Hr' Hva'. pose proof (vpath_upath va' Hva') as Hp. unfold pmap_set, pte_of.
    rewrite leaf_node by done. destruct (node (mem st) r' (vpath va')) as [t'|] eqn:E'.
    + rewrite (leaf_ent r' (vpath va')) by (done || apply pidx_range).
      case_decide as D1; case_decide as D2; try done.
      * destruct D2, D1 as (-> & E1 & E2). split; [done|]. by apply page_eq.
      * destruct D1, D2 as [-> E]. by apply page_eq_path in E as [-> ->].
    + case_decide as D; [|done]. destruct D as [-> E]. apply page_eq_path in E as [Ep _]. rewrite Ep in E'. congruence.
Qed.
End Leaf.

Lemma pt_rel_ext_rel R st st1 st2 P :
  pt_ext R st st1 -> pt_rel R st1 st2 (P (pte_of (mem st1))) ->
  (forall f g, (forall r va, r ∈ R -> user_va va -> f r va = g r va) ->
     forall r va, r ∈ R -> user_va va -> P f r va = P g r va) ->
  pt_rel R st st2 (P (pte_of (mem st))).
Proof.
  intros He Hr HP. pose proof (pt_ext_rel _ _ _ He) as H1. pose proof (pt_rel_trans _ _ _ _ _ _ H1 Hr) as [W F E].
  split; [done|done|]. intros r va Hr' Hva. rewrite E by done. apply HP; [|done|done]. apply H1.
Qed.

(** What [map_page] does: on success the page of [va], not mapped before, has
    the new entry; on failure the page map is the old one. *)
Lemma map_page_spec R st r va pa leaf :
  pt_wf st R -> r ∈ R -> user_va va ->
  match map_page r va pa leaf st with
  | (rc, st') =>
    (rc = XAS_OK /\ pte_of (mem st) r va = None /\
     pt_rel R st st' (pmap_set (pte_of (mem st)) r va
       (let e := (pa .& XPT_ADDR_MASK) .| leaf in if Z.testbit e 0 then Some e else None))) \/
    (rc < 0 /\ pt_rel R st st' (pte_of (mem st)))
  end.
Proof.
  intros Hwf Hr Hva. pose proof (vpath_upath va Hva) as Hp. unfold map_page.
  assert (forall st', pt_ext R st st' -> pt_wf st' R) as Hw by (intros st' []; done).
  pose proof (next_level_spec R st r [] r ((va .>> 39) .& 0x1FF) Hwf Hr) as H3.
  assert (upath [(va .>> 39) .& 0x1FF] /\ upath [(va .>> 39) .& 0x1FF; (va .>> 30) .& 0x1FF]) as [P1 P2].
  { split; [apply (upath_snoc [_] ((va .>> 30) .& 0x1FF)), (upath_snoc [_; _] ((va .>> 21) .& 0x1FF)), Hp|
            apply (upath_snoc [_; _] ((va .>> 21) .& 0x1FF)), Hp]. }
  specialize (H3 P1 eq_refl). cbn [app] in H3.
  destruct (next_level r _ _ st) as [[pdpt|] st1]; [|subst; right; split; [done|by apply pt_ext_rel, pt_ext_refl]].
  destruct H3 as [X1 N1]. pose proof (next_level_spec R st1 r [_] pdpt ((va .>> 30) .& 0x1FF) (Hw _ X1) Hr P2 N1) as H2.
  cbn [app] in H2.
  destruct (next_level pdpt _ _ st1) as [[pd|] st2]; [|subst; right; split; [done|by apply pt_ext_rel]].
  destruct H2 as [X2 N2]. pose proof (pt_ext_trans _ _ _ _ X1 X2) as X12.
  pose proof (next_level_spec R st2 r [_; _] pd ((va .>> 21) .& 0x1FF) (Hw _ X12) Hr Hp N2) as H1. cbn [app] in H1.
  destruct (next_level pd _ _ st2) as [[pt|] st3]; [|subst; right; split; [done|by apply pt_ext_rel]].
  destruct H1 as [X3 N3]. pose proof (pt_ext_trans _ _ _ _ X12 X3) as X.
  fold (pidx va). fold (vpath va) in N3. rewrite tst_present.
  assert (pte_of (mem st3) r va = pte_of (mem st) r va) as E3 by (by apply (pr_pte _ _ _ _ (pt_ext_rel _ _ _ X))).
  unfold pte_of at 1 in E3. rewrite N3 in E3.
  destruct (Z.testbit (ent (mem st3) pt (pidx va)) 0) eqn:Eb; [right; split; [done|by apply pt_ext_rel]|].
  left. split; [done|]. split; [done|].
  apply (pt_rel_ext_rel R st st3 _ (fun f => pmap_set f r va _)); [done| |].
  - by apply (leaf_rel R st3 (Hw _ X)).
  - intros f g Hfg r' va' Hr' Hva'. unfold pmap_set. case_decide; [done|]. by apply Hfg.
Qed.

Lemma unmap_step_spec R st r va :
  pt_wf st R -> r ∈ R -> user_va va ->
  pt_rel R st (unmap_step r va st) (pmap_set (pte_of (mem st)) r va None).
Proof.
  intros Hwf Hr Hva. unfold unmap_step. rewrite (walk_pte_node R) by done.
  assert (pte_of (mem st) r va = None -> pt_rel R st st (pmap_set (pte_of (mem st)) r va None)) as Hsame.
  { intros E. split; [done|apply pt_frame_refl|]. intros r' va' Hr' Hva'. unfold pmap_set.
    case_decide as D; [|done]. destruct D as [-> D]. apply page_eq_path in D as [D1 D2].
    unfold pte_of in *. by rewrite D1, D2. }
  destruct (node (mem st) r (vpath va)) as [t|] eqn:E; cbn [fmap option_fmap option_map].
  2: { apply Hsame. unfold pte_of. by rewrite E. }
  fold (ent (mem st) t (pidx va)). rewrite tst_present.
  destruct (Z.testbit (ent (mem st) t (pidx va)) 0) eqn:Eb.
  - by apply (leaf_rel R st Hwf r va t 0).
  - apply Hsame. unfold pte_of. by rewrite E, Eb.
Qed.

(** The page map with [n] pages from [virt] in space [r] set by [g]. *)
Definition pmap_fill (P : Z -> Z -> option Z) (r virt n : Z) (g : Z -> option Z) (r' va' : Z) : option Z :=
  if decide (r' = r /\ virt / 4096 <= va' / 4096 < virt / 4096 + n) then g (va' / 4096 - virt / 4096) else P r' va'.

Lemma pt_rel_eq R st st' (P P' : Z -> Z -> option Z) :
  pt_rel R st st' P -> (forall r va, r ∈ R -> user_va va -> P r va = P' r va) -> pt_rel R st st' P'.
Proof. intros [W F E] H. split; [done|done|]. intros r va Hr Hva. rewrite E by done. by apply H. Qed.

Lemma pt_rel_refl R st : pt_wf st R -> pt_rel R st st (pte_of (mem st)).
Proof. intros H. by apply pt_ext_rel, pt_ext_refl. Qed.

(** A range of whole pages inside the user range. *)
Definition user_range (virt n : Z) : Prop :=
  XAS_USER_BASE <= virt /\ virt mod 4096 = 0 /\ 0 <= n /\ virt + n * 4096 <= XAS_USER_TOP.

Lemma user_range_va virt n k : user_range virt n -> 0 <= k < n -> user_va (virt + k * 4096).
Proof. unfold user_range, user_va. lia. Qed.

Lemma unmap_pages_spec R st r virt n :
  pt_wf st R -> r ∈ R -> user_range virt n ->
  pt_rel R st (unmap_pages r virt n st) (pmap_fill (pte_of (mem st)) r virt n (fun _ => None)).
Proof.
  intros Hwf Hr Hu. unfold unmap_pages. pose proof Hu as (_ & Hal & Hn & _).
  apply (for_range_inv (fun k st' => pt_rel R st st' (pmap_fill (pte_of (mem st)) r virt k (fun _ => None))));
    [lia| |].
  - eapply pt_rel_eq; [by apply pt_rel_refl|]. intros. unfold pmap_fill. by rewrite decide_False by lia.
  - intros k st' Hk IH. change XERET_FRAME_SIZE with 4096. rewrite Z.add_0_l.
    pose proof (unmap_step_spec R st' r (virt + k * 4096) (pr_wf _ _ _ _ IH) Hr (user_range_va _ _ _ Hu Hk)) as Hs.
    eapply pt_rel_eq; [by eapply pt_rel_trans|]. intros r' va' Hr' Hva'. unfold pmap_set, pmap_fill.
    rewrite (pr_pte _ _ _ _ IH) by done. unfold pmap_fill. repeat case_decide; try done; exfalso; lia.
Qed.

Section MapLoop.
Context (R : list Z) (st : MemState) (Hwf : pt_wf st R) (r virt n ph leaf : Z) (Hr : r ∈ R).
Context (Hu : user_range virt n) (Hph : forall j, 0 <= j < n -> frame_addr (ph + j * 4096)).
Context (Hleaf : Z.testbit leaf 0 = true).

Let filled (i : Z) := pmap_fill (pte_of (mem st)) r virt i (fun j => Some ((ph + j * 4096) .| leaf)).

Lemma map_loop_spec k i sti :
  0 <= i -> i + Z.of_nat k = n -> pt_rel R st sti (filled i) ->
  (forall va, user_va va -> virt / 4096 <= va / 4096 < virt / 4096 + i -> pte_of (mem st) r va = None) ->
  match map_loop k i r virt ph leaf sti with
  | (rc, st') =>
    (rc = XAS_OK /\ pt_rel R st st' (filled n) /\
     forall va, user_va va -> virt / 4096 <= va / 4096 < virt / 4096 + n -> pte_of (mem st) r va = None) \/
    (rc < 0 /\ pt_rel R st st' (pte_of (mem st)))
  end.
Proof.
  revert i sti. induction k as [|k IH]; intros i sti Hi Hk Hrel Hnone; cbn [map_loop].
  { left. assert (i = n) as -> by lia. done. }
  change XERET_FRAME_SIZE with 4096. pose proof (user_range_va virt n i Hu ltac:(lia)) as Hva.
  pose proof Hu as (_ & Hal & _ & _).
  pose proof (map_page_spec R sti r _ (ph + i * 4096) leaf (pr_wf _ _ _ _ Hrel) Hr Hva) as Hm.
  destruct (map_page _ _ _ _ sti) as [rc st1]. rewrite mask_frame in Hm by (apply Hph; lia).
  destruct Hm as [(-> & Hold & Hnew)|[Hneg Hsame]].
  - change (negb (XAS_OK =? XAS_OK)) with false. cbv iota. cbv zeta in Hnew.
    rewrite entry_bit_low, Hleaf in Hnew by (apply Hph || idtac; lia).
    apply IH; [lia|lia| |].
    + eapply pt_rel_eq; [by eapply pt_rel_trans|]. intros r' va' Hr' Hva'. unfold pmap_set, filled, pmap_fill.
      rewrite (pr_pte _ _ _ _ Hrel) by done. unfold filled, pmap_fill.
      assert ((virt + i * 4096) / 4096 = virt / 4096 + i) as Ev by lia. rewrite Ev.
      repeat case_decide; try done; try (exfalso; lia). do 3 f_equal. lia.
    + intros va Hva' Hin. destruct (decide (va / 4096 = virt / 4096 + i)) as [E|]; [|apply Hnone; [done|lia]].
      rewrite (pr_pte _ _ _ _ Hrel) in Hold by done. unfold filled, pmap_fill in Hold.
      rewrite decide_False in Hold by lia.
      assert (va / 4096 = (virt + i * 4096) / 4096) as Ep by lia. apply page_eq_path in Ep as [E1 E2].
      unfold pte_of in *. by rewrite E1, E2.
  - destruct (Z.eqb_spec rc XAS_OK) as [->|_]; [done|]. cbn [negb]. right. split; [done|].
    pose proof (pt_rel_trans _ _ _ _ _ _ Hrel Hsame) as H1.
    assert (user_range virt i) as Hui by (unfold user_range in *; lia).
    eapply pt_rel_eq; [eapply pt_rel_trans; [exact H1|by apply unmap_pages_spec; [apply H1| |]]|].
    intros r' va' Hr' Hva'. unfold pmap_fill. rewrite (pr_pte _ _ _ _ H1), (pr_pte _ _ _ _ Hrel) by done.
    unfold filled, pmap_fill. case_decide as D; [|done]. destruct D as [-> D]. symmetry. by apply Hnone.
Qed.
End MapLoop.
