(* ===== verification/Aspace.v ===== *)
(** Address spaces: the invariant that ties the page tables, the mapping
    records and the token ledger together, its preservation by every
    operation of [paging.c] and [token_ledger.c], and isolation. *)

From S2P Require Import Prelude.
From S2P Require Import Physical.
From S2P Require Import Ledger.
From S2P Require Import Paging.
From S2P Require Import PageTree.

#[local] Ltac Zify.zify_post_hook ::= Z.div_mod_to_equations.

(** * Invariant *)

Definition roots (S : list XAspace) : list Z := as_root <$> S.

(** Page [va] lies in the range of record [rc]. *)
Definition rec_covers (rc : MapRec) (va : Z) : Prop :=
  r_virt rc / 4096 <= va / 4096 < r_virt rc / 4096 + r_pages rc.

(** Permission bits [xas_map] accepts. *)
Definition perms_ok (perms : Z) : Prop :=
  0 < perms < 8 /\ ~ (Z.testbit perms 1 = true /\ Z.testbit perms 2 = true).

(** A live record: its token is live, belongs to the owner of its space and
    carries the rights of the mapping; exactly its frames are mapped, in
    order, with the permission bits asked for. *)
Record rec_ok (ks : KState) (S : list XAspace) (rc : MapRec) (e : XTokenEntry) (perms : Z) : Prop := {
  ro_space : exists a, a ∈ S /\ as_root a = as_pml4 rc /\ as_owner a = r_owner rc;
  ro_tok : 0 <= r_tok rc < 2 ^ 64;
  ro_info : info (ledger (k_mem ks)) (r_tok rc) = Some e;
  ro_owner : owner_id e = r_owner rc;
  ro_pages : r_pages rc = n_frames e;
  ro_range : user_range (r_virt rc) (r_pages rc);
  ro_perms : perms_ok perms;
  ro_rights : rights e .& need_rights perms = need_rights perms;
  ro_pte : forall va, user_va va -> rec_covers rc va ->
    pte_of (mem (k_mem ks)) (as_pml4 rc) va =
      Some ((e_phys e + (va / 4096 - r_virt rc / 4096) * 4096) .| leaf_bits perms)
}.

Record k_inv (ks : KState) (S : list XAspace) : Prop := {
  ki_pt : pt_wf (k_mem ks) (roots S);
  ki_nodup : NoDup (roots S);
  ki_space : forall a, a ∈ S -> as_live a = true /\ 0 < as_owner a < 2 ^ 32;
  ki_len : length (g_maps ks) = 1024%nat;
  ki_rec : forall i rc, g_maps ks !! i = Some rc -> r_live rc = true -> exists e perms, rec_ok ks S rc e perms;
  ki_disj : forall i j rc rc' va, g_maps ks !! i = Some rc -> g_maps ks !! j = Some rc' ->
    r_live rc = true -> r_live rc' = true -> as_pml4 rc = as_pml4 rc' ->
    rec_covers rc va -> rec_covers rc' va -> i = j;
  ki_pte : forall r va e, r ∈ roots S -> user_va va -> pte_of (mem (k_mem ks)) r va = Some e ->
    exists i rc, g_maps ks !! i = Some rc /\ r_live rc = true /\ as_pml4 rc = r /\ rec_covers rc va;
  ki_count : forall tok e, 0 <= tok < 2 ^ 64 -> info (ledger (k_mem ks)) tok = Some e ->
    map_count e = countb (rec_tok tok) (g_maps ks)
}.

(** * Changes that leave the tables alone *)

(** The tables of [st] are tables of [st'], word for word. *)
Record tables_kept (R : list Z) (st st' : MemState) : Prop := {
  tp_inv : mem_inv st';
  tp_ent : forall r q t i, r ∈ R -> upath q -> node (mem st) r q = Some t -> 0 <= i < 512 ->
    ent (mem st') t i = ent (mem st) t i;
  tp_table : forall t, table_ok st t -> table_ok st' t
}.

Lemma kept_node R st st' r q :
  pt_wf st R -> tables_kept R st st' -> r ∈ R -> upath q -> node (mem st') r q = node (mem st) r q.
Proof. intros Hwf Hp. apply (node_agree st R); [done|apply Hp]. Qed.

Lemma kept_wf R st st' : pt_wf st R -> tables_kept R st st' -> pt_wf st' R.
Proof.
  intros Hwf Hp. split; [apply Hp| | |].
  - intros r q t Hr Hq. rewrite (kept_node R st st') by done. intros Ht. apply (tp_table _ _ _ Hp).
    by apply (pw_node _ _ Hwf r q).
  - intros r r' q q' t Hr Hr' Hq Hq'. rewrite !(kept_node R st st') by done. by apply (pw_inj _ _ Hwf).
  - intros r q t i Hr Hq Ht. pose proof (upath_snoc _ _ Hq) as [Hq' Hi].
    rewrite (kept_node R st st') in Ht by done. rewrite (tp_ent _ _ _ Hp r q) by done.
    by apply (pw_upper _ _ Hwf) with r q.
Qed.

Lemma kept_pte R st st' r va :
  pt_wf st R -> tables_kept R st st' -> r ∈ R -> user_va va -> pte_of (mem st') r va = pte_of (mem st) r va.
Proof.
  intros Hwf Hp Hr Hva. pose proof (vpath_upath va Hva). unfold pte_of. rewrite (kept_node R st st') by done.
  destruct (node (mem st) r (vpath va)) as [t|] eqn:E; [|done].
  by rewrite (tp_ent _ _ _ Hp r (vpath va)) by (done || apply pidx_range).
Qed.

(** The invariant is kept by a memory state with the same page map in which
    every token a record names denotes the same entry. *)
Lemma k_inv_same ks S st' :
  k_inv ks S -> pt_wf st' (roots S) ->
  (forall r va, r ∈ roots S -> user_va va -> pte_of (mem st') r va = pte_of (mem (k_mem ks)) r va) ->
  (forall tok e, 0 <= tok < 2 ^ 64 -> info (ledger (k_mem ks)) tok = Some e ->
     0 < countb (rec_tok tok) (g_maps ks) -> info (ledger st') tok = Some e) ->
  (forall tok e, 0 <= tok < 2 ^ 64 -> info (ledger st') tok = Some e ->
     map_count e = countb (rec_tok tok) (g_maps ks)) ->
  k_inv (set_kmem ks st') S.
Proof.
  intros [Hpt Hnd Hsp Hlen Hrec Hdis Hpte Hcnt] Hwf Epte Hinfo Hcnt'.
  split; cbn [set_kmem k_mem g_maps]; try done.
  - intros i rc Hi Hl. destruct (Hrec i rc Hi Hl) as (e & perms & Hok). exists e, perms. destruct Hok.
    split; cbn [set_kmem k_mem]; try done.
    + apply Hinfo; [done|done|].
      enough (1 <= countb (rec_tok (r_tok rc)) (g_maps ks)) by lia.
      eapply countb_lookup_pos; [done|]. unfold rec_tok. by rewrite Hl, Z.eqb_refl.
    + intros va Hva Hcov. destruct ro_space0 as (a & Ha & Er & _). rewrite Epte; [auto| |done].
      rewrite <- Er. by apply list_elem_of_fmap_2.
  - intros r va e Hr Hva. rewrite Epte by done. by apply Hpte.
Qed.

Lemma k_inv_kept ks S st' :
  k_inv ks S -> tables_kept (roots S) (k_mem ks) st' ->
  (forall tok e, 0 <= tok < 2 ^ 64 -> info (ledger (k_mem ks)) tok = Some e ->
     0 < countb (rec_tok tok) (g_maps ks) -> info (ledger st') tok = Some e) ->
  (forall tok e, 0 <= tok < 2 ^ 64 -> info (ledger st') tok = Some e ->
     map_count e = countb (rec_tok tok) (g_maps ks)) ->
  k_inv (set_kmem ks st') S.
Proof.
  intros Hk Hp. apply k_inv_same; [done|by apply (kept_wf _ (k_mem ks)); [apply Hk|]|].
  intros. apply (kept_pte (roots S)); [apply Hk|done|done|done].
Qed.

(** ** Memory of tokens *)

(** The words in the frames of live tokens are the same. *)
Definition words_kept (st st' : MemState) : Prop :=
  forall t e x, 0 <= t < 2 ^ 64 -> info (ledger st) t = Some e -> in_frames e (x / 4096) ->
    mem_word (mem st') x = mem_word (mem st) x.

Lemma words_kept_refl st st' : mem st' = mem st -> words_kept st st'.
Proof. intros E t e x _ _ _. by rewrite E. Qed.

(** Work on page tables does not touch the memory of tokens. *)
Lemma frame_words R st st' : pt_wf st R -> pt_frame R st st' -> words_kept st st'.
Proof.
  intros Hw Hf t e x Ht Hi Hx. pose proof (pw_mem _ _ Hw) as Hm.
  pose proof (info_entry _ _ _ (mi_ledger _ Hm) Hi) as [Heo Hl]. destruct (eo_live e Heo Hl) as (_ & Hp & _ & _).
  apply info_Some in Hi as (_ & _ & He & _). apply (pf_other _ _ _ Hf).
  - unfold in_frames in Hx. lia.
  - exact (oo_used _ _ (mi_own _ Hm) _ e _ He Hl Hx).
  - intros r q t' Hr Hq Hn E. apply (tk_free _ _ (pw_node _ _ Hw r q t' Hr Hq Hn) _ e He Hl). by rewrite E.
Qed.

Definition set_mem (st : MemState) (m : gmap Z Z) : MemState := mkMem (phys st) m (ledger st).

(** A write to the memory of a live token, by its owner or by the kernel. *)
Lemma write_kept ks S tok e x v :
  k_inv ks S -> info (ledger (k_mem ks)) tok = Some e -> in_frames e (x / 4096) ->
  tables_kept (roots S) (k_mem ks) (set_mem (k_mem ks) (<[x := v]> (mem (k_mem ks)))).
Proof.
  intros Hk Hi Hx. pose proof (ki_pt _ _ Hk) as Hpt. apply info_Some in Hi as (_ & _ & He & Hl & _). split.
  - by destruct (pw_mem _ _ Hpt).
  - intros r q t i Hr Hq Hn Hii. unfold ent. cbn [set_mem mem]. rewrite mem_word_insert. rewrite decide_False; [done|].
    intros ->. destruct (pw_node _ _ Hpt r q t Hr Hq Hn) as [Hal _ _ _ Hfree]. apply (Hfree _ e He Hl).
    by replace (t / 4096) with ((t + 8 * i) / 4096) by lia.
  - by intros t [? ? ? ? ?].
Qed.

Lemma write_k_inv ks S tok e x v :
  k_inv ks S -> info (ledger (k_mem ks)) tok = Some e -> in_frames e (x / 4096) ->
  k_inv (set_kmem ks (set_mem (k_mem ks) (<[x := v]> (mem (k_mem ks))))) S.
Proof.
  intros Hk Hi Hx. apply k_inv_kept; [done|by apply (write_kept ks S tok e)|done|intros t e' Ht; by apply (ki_count _ _ Hk)].
Qed.

(** * Ledger operations *)

Lemma table_word_frame t i : t mod 4096 = 0 -> 0 <= i < 512 -> (t + 8 * i) / 4096 = t / 4096.
Proof. lia. Qed.

Lemma grant_kept ok owner n rts st tok st' R :
  pt_wf st R -> 0 < n -> grant_result ok owner n rts st (tok, st') -> mem_inv st' -> tables_kept R st st'.
Proof.
  intros Hwf Hn Hg Hinv'. split; [done| |].
  - intros r q t i Hr Hq Ht Hi. pose proof (pw_node _ _ Hwf r q t Hr Hq Ht) as [Ta Tp Tr Tu _].
    pose proof (table_word_frame t i Ta Hi) as Ef. unfold ent.
    destruct Hg as [(_ & s & g & Hs & _ & _ & Hrun & _ & _ & _ & _ & Hm)|(_ & _ & _ & Hm & _)].
    + rewrite Hm. case_decide as D; [|done]. rewrite (Hrun (t / 4096)) in Tu by lia. done.
    + destruct (decide (mem_word (mem st') (t + 8 * i) = mem_word (mem st) (t + 8 * i))) as [|Hne]; [done|].
      apply Hm in Hne. rewrite Ef in Hne. congruence.
  - intros t [Ta Tp Tr Tu Tf].
    destruct Hg as [(_ & s & g & Hs & _ & _ & Hrun & Hset & Htot & Hseal & _)|(_ & (Htot & _ & _ & Hb) & Hl & _)].
    + destruct Hseal as (i & e & _ & He & _ & _ & _ & Htbl & _).
      split; rewrite ?Htot; try done.
      * rewrite Hset by lia. by case_decide.
      * intros j e' He' Hl' Hf. rewrite Htbl in He'. destruct (decide (j = Z.to_nat i)) as [->|].
        -- rewrite list_lookup_insert_eq in He' by eauto using lookup_lt_Some. simplify_eq.
           unfold in_frames in Hf. cbn [e_phys n_frames ram_entry] in Hf.
           rewrite (Hrun (t / 4096)) in Tu by lia. done.
        -- rewrite list_lookup_insert_ne in He' by done. by apply (Tf j e').
    + split; rewrite ?Htot, ?Hl; try done. rewrite Hb by lia. done.
Qed.

Lemma released_kept st st' tok e R :
  pt_wf st R -> info (ledger st) tok = Some e -> released st st' tok e -> mem_inv st' -> tables_kept R st st'.
Proof.
  intros Hwf Hi (Hset & Htot & Hm & Htbl & _) Hinv'. split; [done| |].
  - intros. by rewrite Hm.
  - pose proof (info_entry _ _ _ (mi_ledger _ (pw_mem _ _ Hwf)) Hi) as [_ Hlive].
    apply info_Some in Hi as (_ & _ & He & _ & _).
    intros t [Ta Tp Tr Tu Tf]. split; rewrite ?Htot; try done.
    + rewrite Hset by lia. case_decide as D; [|done]. by destruct (Tf _ e He Hlive).
    + intros j e' He' Hl'. rewrite Htbl in He'. destruct (decide (j = Z.to_nat (token_slot tok))) as [->|].
      * rewrite list_lookup_insert_eq in He' by eauto using lookup_lt_Some. by simplify_eq.
      * rewrite list_lookup_insert_ne in He' by done. by apply (Tf j e').
Qed.

(** A ledger that gives every frame the same owner as before. *)
Lemma set_count_kept st R tok e c :
  pt_wf st R -> info (ledger st) tok = Some e -> 0 <= c <= 0xFFFF ->
  tables_kept R st (set_ledger st (set_entry (ledger st) (token_slot tok) (set_map_count e c))).
Proof.
  intros Hwf Hi Hc. split; [apply set_count_inv; [apply Hwf|done|done]|done|].
  apply info_Some in Hi as (_ & _ & He & _ & _).
  intros t [Ta Tp Tr Tu Tf]. split; cbn [set_ledger set_entry phys ledger g_table]; try done.
  intros j e' He' Hl'. destruct (decide (j = Z.to_nat (token_slot tok))) as [->|].
  - rewrite list_lookup_insert_eq in He' by eauto using lookup_lt_Some. simplify_eq. exact (Tf _ e He Hl').
  - rewrite list_lookup_insert_ne in He' by done. by apply (Tf j e').
Qed.

(** No live record names a token that denotes nothing. *)
Lemma no_rec_of_dead ks S tok :
  k_inv ks S -> info (ledger (k_mem ks)) tok = None -> countb (rec_tok tok) (g_maps ks) = 0.
Proof.
  intros Hk Hi. apply countb_zero. intros rc Hin. apply list_elem_of_lookup in Hin as [i Hr].
  unfold rec_tok. destruct (r_live rc) eqn:Hl; [|done]. destruct (Z.eqb_spec (r_tok rc) tok) as [E|]; [|done].
  destruct (ki_rec _ _ Hk i rc Hr Hl) as (e & perms & Hok). pose proof (ro_info _ _ _ _ _ Hok). congruence.
Qed.

Lemma grant_k_inv ok owner n rts ks S tok st' :
  k_inv ks S -> 0 < n -> grant_result ok owner n rts (k_mem ks) (tok, st') -> mem_inv st' ->
  k_inv (set_kmem ks st') S.
Proof.
  intros Hk Hn Hg Hinv'. apply k_inv_kept; [done|by eapply grant_kept; [apply Hk| | |]| |].
  - intros t e Ht Hi _. destruct Hg as [(_ & s & g & _ & _ & _ & _ & _ & _ & (j & e' & _ & _ & _ & _ & _ & _ & Hno & Hinfo) & _)|(_ & _ & -> & _)]; [|done].
    rewrite Hinfo by done. case_decide; [subst; congruence|done].
  - intros t e Ht. destruct Hg as [(_ & s & g & _ & _ & _ & _ & _ & _ & (j & e' & _ & _ & _ & _ & _ & _ & Hno & Hinfo) & _)|(_ & _ & -> & _)].
    2: { by apply (ki_count _ _ Hk). }
    rewrite Hinfo by done. case_decide; [|by apply (ki_count _ _ Hk)]. subst t. intros [= <-].
    by rewrite (no_rec_of_dead ks S).
Qed.

(** An operation of the ledger alone. *)
Definition with_mem (ks : KState) (r : Z * MemState) : Z * KState := (r.1, set_kmem ks r.2).

Lemma set_kmem_same ks : set_kmem ks (k_mem ks) = ks.
Proof. by destruct ks. Qed.

Lemma alloc_k_inv owner n rts ks S :
  k_inv ks S -> 0 <= owner < 2 ^ 32 -> 0 <= n -> k_inv (set_kmem ks (xtok_alloc_ram owner n rts (k_mem ks)).2) S.
Proof.
  intros Hk Ho Hn. destruct (decide (n = 0)) as [->|]; [cbn; by rewrite set_kmem_same|].
  destruct (xtok_alloc_ram_spec owner n rts (k_mem ks) (pw_mem _ _ (ki_pt _ _ Hk)) Ho) as [Hg Hi]; [lia|].
  destruct (xtok_alloc_ram _ _ _ _) as [tok st']. eapply grant_k_inv; [done| |exact Hg|done]; lia.
Qed.

Lemma alloc_huge_k_inv owner rts ks S :
  k_inv ks S -> 0 <= owner < 2 ^ 32 -> k_inv (set_kmem ks (xtok_alloc_ram_huge owner rts (k_mem ks)).2) S.
Proof.
  intros Hk Ho.
  destruct (xtok_alloc_ram_huge_spec owner rts (k_mem ks) (pw_mem _ _ (ki_pt _ _ Hk)) Ho) as [Hg Hi].
  destruct (xtok_alloc_ram_huge _ _ _) as [tok st']. eapply grant_k_inv; [done| |exact Hg|done]; lia.
Qed.

Lemma release_k_inv tok flags owner ks S :
  k_inv ks S -> 0 <= tok < 2 ^ 64 -> k_inv (set_kmem ks (release_impl tok flags owner (k_mem ks)).2) S.
Proof.
  intros Hk Ht. pose proof (pw_mem _ _ (ki_pt _ _ Hk)) as Hm.
  pose proof (release_impl_spec tok flags owner (k_mem ks) Hm Ht) as Hs.
  destruct (info (ledger (k_mem ks)) tok) as [e|] eqn:Hi; [|rewrite Hs; cbn; by rewrite set_kmem_same].
  destruct (_ && _); [rewrite Hs; cbn; by rewrite set_kmem_same|].
  destruct (_ && _); [rewrite Hs; cbn; by rewrite set_kmem_same|].
  destruct (Z.eqb_spec (map_count e) 0) as [E0|]; cbn [negb] in Hs; [|rewrite Hs; cbn; by rewrite set_kmem_same].
  destruct Hs as (st' & -> & Hrel & Hinv'). cbn [snd].
  pose proof Hrel as (_ & _ & _ & _ & Hinfo). rewrite (ki_count _ _ Hk tok e Ht Hi) in E0.
  apply k_inv_kept; [done|by eapply released_kept; [apply Hk| | |]| |].
  - intros t e' Ht' Hi' Hpos. rewrite Hinfo by done. case_decide; [subst; lia|done].
  - intros t e' Ht'. rewrite Hinfo by done. case_decide; [done|]. by apply (ki_count _ _ Hk).
Qed.

(** * Taking a mapping down *)

Definition kill_rec (rc : MapRec) : MapRec :=
  mkRec (as_pml4 rc) (r_owner rc) (r_virt rc) (r_tok rc) (r_pages rc) false.

(** What [xtok_map_release] leaves: the same token, one mapping fewer. *)
Lemma release_ledger l tok e :
  ledger_wf l -> info l tok = Some e -> 0 < map_count e ->
  xtok_map_release tok l = set_entry l (token_slot tok) (set_map_count e (map_count e - 1)).
Proof.
  intros Hwf Hi Hpos. unfold xtok_map_release. rewrite (proj1 (info_lookup _ _ _) Hi).
  rewrite Z.gtb_ltb. by destruct (Z.ltb_spec 0 (map_count e)); [|lia].
Qed.

(** Entries that differ only in the map count. *)
Lemma rec_ok_count ks S rc e perms c :
  rec_ok ks S rc e perms -> forall ks', (forall va, user_va va -> rec_covers rc va ->
    pte_of (mem (k_mem ks')) (as_pml4 rc) va = pte_of (mem (k_mem ks)) (as_pml4 rc) va) ->
  info (ledger (k_mem ks')) (r_tok rc) = Some (set_map_count e c) ->
  rec_ok ks' S rc (set_map_count e c) perms.
Proof.
  intros [? ? ? ? ? ? ? ? Hp] ks' Hpte Hi. split; try done. intros va Hva Hcov. rewrite Hpte by done.
  by apply Hp.
Qed.

Lemma set_map_count_same e : set_map_count e (map_count e) = e.
Proof. by destruct e. Qed.

Section Drop.
Context (ks : KState) (S : list XAspace) (Hk : k_inv ks S) (i : nat) (rc : MapRec).
Context (Hi : g_maps ks !! i = Some rc) (Hl : r_live rc = true).

Lemma drop_maps : g_maps (drop_record i ks) = <[i := kill_rec rc]> (g_maps ks).
Proof. unfold drop_record. by rewrite Hi. Qed.

Lemma drop_root : as_pml4 rc ∈ roots S.
Proof.
  destruct (ki_rec _ _ Hk i rc Hi Hl) as (e & perms & Hok). destruct (ro_space _ _ _ _ _ Hok) as (a & Ha & <- & _).
  by apply list_elem_of_fmap_2.
Qed.

Lemma drop_count_pos : 0 < countb (rec_tok (r_tok rc)) (g_maps ks).
Proof.
  enough (1 <= countb (rec_tok (r_tok rc)) (g_maps ks)) by lia. eapply countb_lookup_pos; [done|].
  unfold rec_tok. by rewrite Hl, Z.eqb_refl.
Qed.

(** The memory after the record is dropped: its pages are unmapped, the rest
    of the page map is the same, and its token has one mapping fewer. *)
Lemma drop_mem :
  exists e, info (ledger (k_mem ks)) (r_tok rc) = Some e /\ 0 <= r_tok rc < 2 ^ 64 /\
    pt_wf (k_mem (drop_record i ks)) (roots S) /\
    (forall r va, r ∈ roots S -> user_va va ->
       pte_of (mem (k_mem (drop_record i ks))) r va =
         if decide (r = as_pml4 rc /\ rec_covers rc va) then None else pte_of (mem (k_mem ks)) r va) /\
    (forall t, 0 <= t < 2 ^ 64 -> info (ledger (k_mem (drop_record i ks))) t =
       if decide (t = r_tok rc) then Some (set_map_count e (map_count e - 1))
       else info (ledger (k_mem ks)) t) /\
    words_kept (k_mem ks) (k_mem (drop_record i ks)).
Proof.
  destruct (ki_rec _ _ Hk i rc Hi Hl) as (e & perms & Hok). pose proof Hok as [_ Ht Hinfo _ _ Hr _ _ _].
  exists e. split; [done|]. split; [done|].
  pose proof (unmap_pages_spec (roots S) (k_mem ks) (as_pml4 rc) (r_virt rc) (r_pages rc)
    (ki_pt _ _ Hk) drop_root Hr) as Hu.
  pose proof (pf_ledger _ _ _ (pr_frame _ _ _ _ Hu)) as El.
  pose proof (pr_wf _ _ _ _ Hu) as Hw. pose proof drop_count_pos as Hpos.
  rewrite <- (ki_count _ _ Hk _ e Ht Hinfo) in Hpos. unfold drop_record. rewrite Hi.
  cbn [set_maps set_kmem k_mem]. set (st1 := unmap_pages _ _ _ _) in *.
  assert (info (ledger st1) (r_tok rc) = Some e) as Hinfo1 by (by rewrite El).
  pose proof (mi_ledger _ (pw_mem _ _ Hw)) as Hlw.
  rewrite (release_ledger (ledger st1) _ e Hlw Hinfo1 Hpos).
  pose proof (eo_maps e (proj1 (info_entry _ _ _ Hlw Hinfo1))) as Hmx.
  pose proof (set_count_kept st1 (roots S) (r_tok rc) e (map_count e - 1) Hw Hinfo1 ltac:(lia)) as Hkept.
  split_and!.
  - by apply (kept_wf _ st1).
  - intros r va Hr' Hva. rewrite (kept_pte (roots S) st1) by done. rewrite (pr_pte _ _ _ _ Hu) by done.
    unfold pmap_fill, rec_covers. done.
  - intros t Ht'. cbn [set_ledger ledger]. rewrite info_set_count by done. by rewrite El.
  - exact (frame_words (roots S) (k_mem ks) st1 (ki_pt _ _ Hk) (pr_frame _ _ _ _ Hu)).
Qed.

Lemma rec_tok_kill t : rec_tok t (kill_rec rc) = false.
Proof. done. Qed.

Lemma drop_record_inv : k_inv (drop_record i ks) S.
Proof.
  destruct drop_mem as (e & Hinfo & Htok & Hw & Hpte & Hin & _). pose proof drop_maps as Hm.
  assert (forall j rc', g_maps (drop_record i ks) !! j = Some rc' -> r_live rc' = true ->
    j <> i /\ g_maps ks !! j = Some rc') as Hback.
  { intros j rc' Hj Hl'. rewrite Hm in Hj. destruct (decide (j = i)) as [->|].
    - rewrite list_lookup_insert_eq in Hj by eauto using lookup_lt_Some. by simplify_eq.
    - by rewrite list_lookup_insert_ne in Hj. }
  pose proof Hk as [_ Hnd Hsp Hlen Hrec Hdis Hstray Hcnt].
  split; try done.
  - by rewrite Hm, length_insert.
  - intros j rc' Hj Hl'. destruct (Hback j rc' Hj Hl') as [Hne Hj']. destruct (Hrec j rc' Hj' Hl') as (e' & p' & Hok').
    destruct (ro_space _ _ _ _ _ Hok') as (a & Ha & Er & _).
    assert (forall va, user_va va -> rec_covers rc' va ->
      pte_of (mem (k_mem (drop_record i ks))) (as_pml4 rc') va = pte_of (mem (k_mem ks)) (as_pml4 rc') va) as Hsame.
    { intros va Hva Hcov. rewrite Hpte; [|rewrite <- Er; by apply list_elem_of_fmap_2|done].
      rewrite decide_False; [done|]. intros [E Hc]. apply Hne. by apply (Hdis j i rc' rc va). }
    pose proof (ro_tok _ _ _ _ _ Hok') as Ht'. pose proof (ro_info _ _ _ _ _ Hok') as Hi'.
    destruct (decide (r_tok rc' = r_tok rc)) as [E|E].
    + exists (set_map_count e' (map_count e - 1)), p'. apply (rec_ok_count ks); [done|done|].
      rewrite Hin, decide_True by done. rewrite E in Hi'. congruence.
    + exists e', p'. rewrite <- (set_map_count_same e'). apply (rec_ok_count ks); [done|done|].
      rewrite Hin, decide_False by done. by rewrite set_map_count_same.
  - intros j k rc1 rc2 va Hj1 Hk1 L1 L2. destruct (Hback j rc1 Hj1 L1) as [_ Hj'], (Hback k rc2 Hk1 L2) as [_ Hk'].
    by apply Hdis.
  - intros r va x Hr Hva. rewrite Hpte by done. case_decide as D; [done|]. intros Hx.
    destruct (Hstray r va x Hr Hva Hx) as (j & rc' & Hj & L & E & C). exists j, rc'. split; [|done].
    rewrite Hm, list_lookup_insert_ne; [done|]. intros <-. rewrite Hi in Hj. simplify_eq. tauto.
  - intros t x Ht. rewrite Hin by done. rewrite Hm, (countb_insert _ _ _ _ _ Hi). rewrite rec_tok_kill.
    unfold rec_tok at 2. rewrite Hl. cbn [andb].
    case_decide as D.
    + intros [= <-]. subst t. rewrite Z.eqb_refl. cbn [map_count set_map_count].
      rewrite (Hcnt _ e Htok Hinfo). lia.
    + intros Hx. destruct (Z.eqb_spec (r_tok rc) t); [done|]. rewrite (Hcnt t x Ht Hx). lia.
Qed.
End Drop.

(** * Taking many mappings down *)

(** The record table after every record that satisfies [P] is dropped. *)
(** The same live tokens, up to their map counts. *)
Definition same_tokens (l l' : Ledger) : Prop :=
  forall t, 0 <= t < 2 ^ 64 -> exists c, info l' t = (fun e => set_map_count e c) <$> info l t.

Lemma same_tokens_refl l : same_tokens l l.
Proof.
  intros t _. destruct (info l t) as [e|]; [|by exists 0]. exists (map_count e). cbn. by rewrite set_map_count_same.
Qed.

Lemma same_tokens_trans l1 l2 l3 : same_tokens l1 l2 -> same_tokens l2 l3 -> same_tokens l1 l3.
Proof.
  intros H1 H2 t Ht. destruct (H1 t Ht) as [c1 E1], (H2 t Ht) as [c2 E2]. exists c2. rewrite E2, E1. by destruct (info l1 t).
Qed.

Definition kill_where (P : MapRec -> bool) (l : list MapRec) : list MapRec :=
  (fun rc => if P rc then kill_rec rc else rc) <$> l.

Lemma drop_record_same ks S (Hk : k_inv ks S) i rc :
  g_maps ks !! i = Some rc -> r_live rc = true ->
  same_tokens (ledger (k_mem ks)) (ledger (k_mem (drop_record i ks))).
Proof.
  intros Hrc Hl t Ht. destruct (drop_mem ks S Hk _ rc Hrc Hl) as (e0 & He0 & _ & _ & _ & Hled & _).
  rewrite Hled by done. case_decide; [subst t|by apply same_tokens_refl]. rewrite He0. by eexists.
Qed.

Section DropAll.
Context (P : MapRec -> bool) (HPl : forall rc, P rc = true -> r_live rc = true).
Context (ks0 : KState) (S : list XAspace) (H0 : k_inv ks0 S).

Lemma P_kill rc : P (kill_rec rc) = false.
Proof. destruct (P (kill_rec rc)) eqn:E; [|done]. by apply HPl in E. Qed.

(** After [k] rounds the first [k] records are done. *)
Definition dropped (k : Z) (acc : Z * KState) : Prop :=
  k_inv acc.2 S /\ acc.1 = countb P (take (Z.to_nat k) (g_maps ks0)) /\
  g_maps acc.2 = kill_where P (take (Z.to_nat k) (g_maps ks0)) ++ drop (Z.to_nat k) (g_maps ks0) /\
  g_pml4_phys acc.2 = g_pml4_phys ks0 /\
  same_tokens (ledger (k_mem ks0)) (ledger (k_mem acc.2)).

Lemma drop_where_step k acc : 0 <= k < 1024 -> dropped k acc -> dropped (k + 1) (drop_where P k acc).
Proof.
  destruct acc as [n ks]. intros Hk (Hinv & Hn & Hm & Hp & Hi). cbn [fst snd] in *. unfold drop_where, dropped.
  destruct (lookup_lt_is_Some_2 (g_maps ks0) (Z.to_nat k)) as [rc Hrc]; [rewrite (ki_len _ _ H0); lia|].
  assert (length (kill_where P (take (Z.to_nat k) (g_maps ks0))) = Z.to_nat k) as Hlen.
  { unfold kill_where. rewrite length_fmap, length_take, (ki_len _ _ H0). lia. }
  assert (g_maps ks !! Z.to_nat k = Some rc) as Hcur.
  { rewrite Hm, lookup_app_r, lookup_drop by lia. rewrite Hlen. by rewrite Nat.sub_diag, Nat.add_0_r. }
  rewrite Hcur. replace (Z.to_nat (k + 1)) with (Datatypes.S (Z.to_nat k)) by lia.
  rewrite (take_S_r _ _ _ Hrc), (countb_app P). unfold kill_where. rewrite fmap_app.
  fold (kill_where P (take (Z.to_nat k) (g_maps ks0))).
  pose proof (drop_S _ _ _ Hrc) as Hd. cbn [countb fmap list_fmap].
  destruct (P rc) eqn:E; cbn [fst snd].
  - pose proof (HPl rc E) as Hl. split_and!.
    + by apply (drop_record_inv ks S Hinv _ rc).
    + lia.
    + rewrite (drop_maps ks _ rc Hcur), Hm, Hd, insert_app_r_alt by lia.
      rewrite Hlen, Nat.sub_diag. cbn [insert list_insert]. by rewrite <- app_assoc.
    + unfold drop_record. by rewrite Hcur.
    + eapply same_tokens_trans; [exact Hi|]. by apply (drop_record_same ks S Hinv _ rc).
  - split_and!; [done|lia| |done|done]. rewrite Hm, Hd. by rewrite <- app_assoc.
Qed.

Lemma drop_all_spec :
  k_inv (drop_all P ks0).2 S /\ (drop_all P ks0).1 = countb P (g_maps ks0) /\
  g_maps (drop_all P ks0).2 = kill_where P (g_maps ks0) /\
  g_pml4_phys (drop_all P ks0).2 = g_pml4_phys ks0 /\
  same_tokens (ledger (k_mem ks0)) (ledger (k_mem (drop_all P ks0).2)).
Proof.
  assert (dropped 1024 (drop_all P ks0)) as (Hi & Hn & Hm & Hp & He).
  { unfold drop_all. apply (for_range_inv dropped); [done| |].
    - unfold dropped. cbn [fst snd Z.to_nat take]. rewrite drop_0. split_and!; try done.
      apply same_tokens_refl.
    - intros k acc Hk. rewrite Z.add_0_l. by apply drop_where_step. }
  rewrite take_ge in Hn, Hm by (rewrite (ki_len _ _ H0); lia).
  rewrite drop_ge, app_nil_r in Hm by (rewrite (ki_len _ _ H0); lia). split_and!; assumption.
Qed.

Lemma drop_all_none : countb P (g_maps (drop_all P ks0).2) = 0.
Proof.
  destruct drop_all_spec as (_ & _ & -> & _). apply countb_zero. intros rc Hin.
  unfold kill_where in Hin. apply list_elem_of_fmap in Hin as (rc0 & -> & _). destruct (P rc0) eqn:E; [apply P_kill|done].
Qed.
End DropAll.

Lemma rec_tok_live tok rc : rec_tok tok rc = true -> r_live rc = true.
Proof. unfold rec_tok. by intros [? _]%andb_true_iff. Qed.

Lemma rec_in_live r rc : rec_in r rc = true -> r_live rc = true.
Proof. unfold rec_in. by intros [? _]%andb_true_iff. Qed.

(** * Making a mapping *)

Lemma find_dead_spec l k i :
  find_dead l k = Some i -> exists j rc, i = (k + j)%nat /\ l !! j = Some rc /\ r_live rc = false.
Proof.
  revert k. induction l as [|rc l IH]; intros k; cbn [find_dead]; [done|].
  destruct (r_live rc) eqn:E; cbn [negb].
  - intros H. apply IH in H as (j & rc' & -> & H1 & H2). exists (S j), rc'. split_and!; (done || lia).
  - intros [= <-]. exists 0%nat, rc. split_and!; (done || lia).
Qed.

Lemma leaf_bits_spec perms :
  perms_ok perms ->
  let l := leaf_bits perms in
  Z.testbit l 0 = true /\ Z.testbit l 1 = Z.testbit perms 1 /\ Z.testbit l 2 = true /\
  Z.testbit l 63 = negb (Z.testbit perms 2) /\ (forall i, 12 <= i < 52 -> Z.testbit l i = false).
Proof.
  intros [Hp Hwx].
  assert (perms = 1 \/ perms = 2 \/ perms = 3 \/ perms = 4 \/ perms = 5 \/ perms = 6 \/ perms = 7) as Hc by lia.
  assert (forall i, 12 <= i < 52 -> Z.testbit 0x8000000000000007 i = false) as Hbits.
  { intros i Hi. change 0x8000000000000007 with (2 ^ 63 .| 7). rewrite Z.lor_spec, Z.pow2_bits_false, (testbit_high 7 3) by lia. done. }
  assert (forall v, v .| 0x8000000000000007 = 0x8000000000000007 -> forall i, 12 <= i < 52 -> Z.testbit v i = false) as Hsub.
  { intros v Hv i Hi. pose proof (Hbits i Hi) as H. rewrite <- Hv, Z.lor_spec in H. by apply orb_false_iff in H as [? _]. }
  destruct Hc as [-> | [-> | [-> | [-> | [-> | [-> | -> ]]]]]]; split_and!; try reflexivity; apply Hsub; reflexivity.
Qed.

(** ** Pin and unpin *)

Definition pinned (l : Ledger) (tok : Z) (e : XTokenEntry) : Ledger :=
  set_entry l (token_slot tok) (set_map_count e (map_count e + 1)).

Lemma acquire_ok tok owner need l ph n l' :
  xtok_map_acquire tok owner need l = (XTOK_MAP_OK, (ph, n), l') ->
  exists e, info l tok = Some e /\ l' = pinned l tok e /\ ph = e_phys e /\ n = n_frames e /\
    owner_id e = owner /\ rights e .& need = need /\ map_count e <> 0xFFFF.
Proof.
  unfold xtok_map_acquire, XTOK_MAP_OK, XTOK_MAP_ESTALE, XTOK_MAP_EKIND, XTOK_MAP_EOWNER,
    XTOK_MAP_ERIGHTS, XTOK_MAP_EBUSY.
  destruct (lookup_live l tok) as [[s e]|] eqn:E; [|done].
  pose proof (proj1 (lookup_live_Some _ _ _ _) E) as (_ & -> & _). apply info_lookup in E.
  destruct (negb _); [done|]. destruct (Z.eqb_spec (owner_id e) owner); cbn [negb]; [|done].
  destruct (Z.eqb_spec (rights e .& need) need); cbn [negb]; [|done].
  destruct (Z.eqb_spec (map_count e) 0xFFFF); [done|]. intros [= <- <- <-]. exists e. done.
Qed.

Lemma acquire_fail tok owner need l rc x l' :
  xtok_map_acquire tok owner need l = (rc, x, l') -> rc <> XTOK_MAP_OK -> l' = l /\ map_err rc < 0.
Proof.
  unfold xtok_map_acquire. destruct (lookup_live l tok) as [[s e]|]; [|by intros [= <- <- <-]].
  destruct (negb _); [by intros [= <- <- <-]|]. destruct (negb _); [by intros [= <- <- <-]|].
  destruct (negb _); [by intros [= <- <- <-]|]. destruct (_ =? _); [by intros [= <- <- <-]|].
  by intros [= <- <- <-].
Qed.

Section Pin.
Context (l : Ledger) (Hwf : ledger_wf l) (tok : Z) (e : XTokenEntry).
Context (Htok : 0 <= tok < 2 ^ 64) (Hi : info l tok = Some e) (Hmax : map_count e <> 0xFFFF).

Lemma pinned_info t : 0 <= t < 2 ^ 64 ->
  info (pinned l tok e) t = if decide (t = tok) then Some (set_map_count e (map_count e + 1)) else info l t.
Proof. intros Ht. by apply info_set_count. Qed.

Lemma unpin_pinned : xtok_map_release tok (pinned l tok e) = l.
Proof.
  pose proof (eo_maps e (proj1 (info_entry _ _ _ Hwf Hi))) as Hm. unfold xtok_map_release.
  rewrite (proj1 (info_lookup _ _ (set_map_count e (map_count e + 1)))) by (rewrite pinned_info, decide_True by done; done).
  cbn [map_count set_map_count]. rewrite Z.gtb_ltb. destruct (Z.ltb_spec 0 (map_count e + 1)); [|lia].
  apply info_Some in Hi as (_ & _ & He & _ & _). unfold pinned, set_entry, set_map_count.
  cbn [g_table g_live g_next_hint generation kind owner_id rights e_phys n_frames live map_count].
  rewrite list_insert_insert_eq. replace (map_count e + 1 - 1) with (map_count e) by lia.
  rewrite list_insert_id by (rewrite He; by destruct e). by destruct l.
Qed.
End Pin.

(** ** [xas_map] *)

(** The state [ks'] is [ks] with token [tok] (entry [e]) newly mapped at
    [virt] of space [a], in the record slot [i]. *)
Record mapped (ks ks' : KState) (S : list XAspace) (a : XAspace) (virt tok perms : Z) (e : XTokenEntry) (i : nat) : Prop := {
  mp_info : info (ledger (k_mem ks)) tok = Some e;
  mp_owner : owner_id e = as_owner a;
  mp_rights : rights e .& need_rights perms = need_rights perms;
  mp_range : user_range virt (n_frames e);
  mp_slot : exists rc, g_maps ks !! i = Some rc /\ r_live rc = false;
  mp_maps : g_maps ks' = <[i := mkRec (as_root a) (as_owner a) virt tok (n_frames e) true]> (g_maps ks);
  mp_wf : pt_wf (k_mem ks') (roots S);
  mp_old : forall va, user_va va -> virt / 4096 <= va / 4096 < virt / 4096 + n_frames e ->
    pte_of (mem (k_mem ks)) (as_root a) va = None;
  mp_pte : forall r va, r ∈ roots S -> user_va va -> pte_of (mem (k_mem ks')) r va =
    pmap_fill (pte_of (mem (k_mem ks))) (as_root a) virt (n_frames e)
      (fun j => Some ((e_phys e + j * 4096) .| leaf_bits perms)) r va;
  mp_led : forall t, 0 <= t < 2 ^ 64 -> info (ledger (k_mem ks')) t =
    if decide (t = tok) then Some (set_map_count e (map_count e + 1)) else info (ledger (k_mem ks)) t;
  mp_words : words_kept (k_mem ks) (k_mem ks')
}.

Lemma mapped_inv ks ks' S a virt tok perms e i :
  k_inv ks S -> a ∈ S -> 0 <= tok < 2 ^ 64 -> perms_ok perms ->
  mapped ks ks' S a virt tok perms e i -> k_inv ks' S.
Proof.
  intros Hk Ha Htok Hp [Hinfo Hown Hri Hrg (rc0 & Hrc0 & Hdead) Hm Hw Hold Hpte Hled _].
  pose proof Hk as [_ Hnd Hsp Hlen Hrec Hdis Hstray Hcnt].
  set (rcn := mkRec (as_root a) (as_owner a) virt tok (n_frames e) true) in *.
  assert (as_root a ∈ roots S) as Hra by (by apply list_elem_of_fmap_2).
  assert (forall j rc, g_maps ks' !! j = Some rc -> r_live rc = true ->
    (j = i /\ rc = rcn) \/ (j <> i /\ g_maps ks !! j = Some rc)) as Hback.
  { intros j rc Hj Hl. rewrite Hm in Hj. destruct (decide (j = i)) as [->|].
    - rewrite list_lookup_insert_eq in Hj by eauto using lookup_lt_Some. left. by simplify_eq.
    - rewrite list_lookup_insert_ne in Hj by done. by right. }
  assert (forall j rc va, g_maps ks !! j = Some rc -> r_live rc = true -> as_pml4 rc = as_root a -> user_va va ->
    rec_covers rc va -> ~ (virt / 4096 <= va / 4096 < virt / 4096 + n_frames e)) as Hsep.
  { intros j rc va Hj Hl Er Hva Hcov Hin. destruct (Hrec j rc Hj Hl) as (e' & p' & Hok).
    pose proof (ro_pte _ _ _ _ _ Hok va Hva Hcov) as Hx. rewrite Er, Hold in Hx by done. done. }
  assert (forall rc va, user_range (r_virt rc) (r_pages rc) -> rec_covers rc va -> user_va (va / 4096 * 4096) /\
    rec_covers rc (va / 4096 * 4096)) as Hpage.
  { intros rc va Hr Hcov. unfold user_range, rec_covers, user_va in *. lia. }
  split; try done.
  - by rewrite Hm, length_insert.
  - intros j rc Hj Hl. destruct (Hback j rc Hj Hl) as [[-> ->]|[Hne Hj']].
    + exists (set_map_count e (map_count e + 1)), perms. split; try done.
      * exists a. done.
      * cbn [r_tok rcn]. rewrite Hled, decide_True by done. done.
      * intros va Hva Hcov. cbn [as_pml4 rcn]. rewrite Hpte by done. unfold pmap_fill.
        rewrite decide_True by done. done.
    + destruct (Hrec j rc Hj' Hl) as (e' & p' & Hok). destruct (ro_space _ _ _ _ _ Hok) as (b & Hb & Er & _).
      assert (forall va, user_va va -> rec_covers rc va ->
        pte_of (mem (k_mem ks')) (as_pml4 rc) va = pte_of (mem (k_mem ks)) (as_pml4 rc) va) as Hsame.
      { intros va Hva Hcov. rewrite Hpte; [|rewrite <- Er; by apply list_elem_of_fmap_2|done]. unfold pmap_fill.
        rewrite decide_False; [done|]. intros [E Hin]. by apply (Hsep j rc va Hj' Hl). }
      pose proof (ro_tok _ _ _ _ _ Hok) as Ht'. pose proof (ro_info _ _ _ _ _ Hok) as Hi'.
      destruct (decide (r_tok rc = tok)) as [E|E].
      * exists (set_map_count e' (map_count e + 1)), p'. apply (rec_ok_count ks); [done|done|].
        rewrite Hled, decide_True by done. rewrite E in Hi'. congruence.
      * exists e', p'. rewrite <- (set_map_count_same e'). apply (rec_ok_count ks); [done|done|].
        rewrite Hled, decide_False by done. by rewrite set_map_count_same.
  - intros j k rc1 rc2 va H1 H2 L1 L2 Er C1 C2.
    destruct (Hback j rc1 H1 L1) as [[-> ->]|[_ H1']], (Hback k rc2 H2 L2) as [[-> ->]|[_ H2']]; try done.
    + exfalso. destruct (Hrec k rc2 H2' L2) as (e' & p' & Hok).
      destruct (Hpage rc2 va (ro_range _ _ _ _ _ Hok) C2) as [Hu Hc].
      apply (Hsep k rc2 _ H2' L2 ltac:(done) Hu Hc). unfold rec_covers in C1. cbn in C1. lia.
    + exfalso. destruct (Hrec j rc1 H1' L1) as (e' & p' & Hok).
      destruct (Hpage rc1 va (ro_range _ _ _ _ _ Hok) C1) as [Hu Hc].
      apply (Hsep j rc1 _ H1' L1 ltac:(done) Hu Hc). unfold rec_covers in C2. cbn in C2. lia.
    + by apply (Hdis j k rc1 rc2 va).
  - intros r va x Hr Hva. rewrite Hpte by done. unfold pmap_fill. case_decide as D.
    + intros _. exists i, rcn. rewrite Hm, list_lookup_insert_eq by eauto using lookup_lt_Some.
      destruct D as [-> D]. done.
    + intros Hx. destruct (Hstray r va x Hr Hva Hx) as (j & rc & Hj & L & E & C). exists j, rc. split; [|done].
      rewrite Hm, list_lookup_insert_ne; [done|]. intros <-. congruence.
  - intros t x Ht. rewrite Hled by done. rewrite Hm, (countb_insert _ _ _ _ _ Hrc0).
    unfold rec_tok at 2 3. rewrite Hdead. cbn [andb rcn r_live r_tok]. case_decide as D.
    + subst t. intros [= <-]. rewrite Z.eqb_refl. cbn [map_count set_map_count]. rewrite (Hcnt _ e Htok Hinfo). lia.
    + intros Hx. destruct (Z.eqb_spec tok t); [done|]. rewrite (Hcnt t x Ht Hx). lia.
Qed.

(** A refused mapping: the records, the page map and the meaning of every
    token are as they were. *)
Record unchanged (ks ks' : KState) (S : list XAspace) : Prop := {
  un_maps : g_maps ks' = g_maps ks;
  un_ledger : ledger (k_mem ks') = ledger (k_mem ks);
  un_pte : forall r va, r ∈ roots S -> user_va va ->
    pte_of (mem (k_mem ks')) r va = pte_of (mem (k_mem ks)) r va;
  un_words : words_kept (k_mem ks) (k_mem ks')
}.

Lemma unchanged_refl ks S : unchanged ks ks S.
Proof. by split. Qed.

Section MapLocked.
Context (ks : KState) (S : list XAspace) (Hk : k_inv ks S) (tok : Z) (Htok : 0 <= tok < 2 ^ 64).
Context (e : XTokenEntry) (Hi : info (ledger (k_mem ks)) tok = Some e) (Hmax : map_count e <> 0xFFFF).

Let st0 : MemState := set_ledger (k_mem ks) (pinned (ledger (k_mem ks)) tok e).

Lemma ml_lw : ledger_wf (ledger (k_mem ks)).
Proof. exact (mi_ledger _ (pw_mem _ _ (ki_pt _ _ Hk))). Qed.

Lemma ml_kept : tables_kept (roots S) (k_mem ks) st0.
Proof.
  pose proof (eo_maps e (proj1 (info_entry _ _ _ ml_lw Hi))). apply set_count_kept; [apply Hk|done|lia].
Qed.

Lemma ml_wf : pt_wf st0 (roots S).
Proof. apply (kept_wf _ (k_mem ks)); [apply Hk|apply ml_kept]. Qed.

Lemma ml_pte r va : r ∈ roots S -> user_va va -> pte_of (mem st0) r va = pte_of (mem (k_mem ks)) r va.
Proof. done. Qed.

Lemma ml_words st1 : pt_frame (roots S) st0 st1 -> words_kept (k_mem ks) st1.
Proof.
  intros Hf t x y Ht Hx Hy.
  assert (exists x', info (ledger st0) t = Some x' /\ in_frames x' (y / 4096)) as (x' & Hx' & Hy').
  { cbn [st0 set_ledger ledger]. rewrite pinned_info by (done || apply ml_lw). case_decide as E; [|by exists x].
    eexists. split; [done|]. subst t. rewrite Hi in Hx. by simplify_eq. }
  exact (frame_words (roots S) st0 st1 ml_wf Hf t x' y Ht Hx' Hy').
Qed.

(** Undoing the pin on a state whose tables only grew. *)
Lemma ml_undo st1 :
  pt_rel (roots S) st0 st1 (pte_of (mem st0)) ->
  k_inv (set_kmem ks (unpin tok st1)) S /\ unchanged ks (set_kmem ks (unpin tok st1)) S.
Proof.
  intros [Hw Hf Hpte]. pose proof (pf_ledger _ _ _ Hf) as El. cbn [st0 set_ledger ledger] in El.
  assert (ledger (unpin tok st1) = ledger (k_mem ks)) as El'.
  { cbn [unpin set_ledger ledger]. rewrite El. apply unpin_pinned; [apply ml_lw|done|done|done]. }
  assert (tables_kept (roots S) st1 (unpin tok st1)) as Hkept.
  { pose proof (eo_maps e (proj1 (info_entry _ _ _ ml_lw Hi))) as Hm.
    assert (info (ledger st1) tok = Some (set_map_count e (map_count e + 1))) as Hi1.
    { rewrite El, pinned_info, decide_True by (done || apply ml_lw). done. }
    unfold unpin. rewrite (release_ledger _ tok (set_map_count e (map_count e + 1))); [|apply Hw|done|cbn; lia].
    apply set_count_kept; [done|done|cbn [map_count set_map_count]; lia]. }
  assert (forall r va, r ∈ roots S -> user_va va ->
    pte_of (mem (unpin tok st1)) r va = pte_of (mem (k_mem ks)) r va) as Hpte'.
  { intros r va Hr Hva. rewrite (kept_pte (roots S) st1) by done. by apply Hpte. }
  split.
  - apply k_inv_same; [done|by apply (kept_wf _ st1)|done| |]; intros t x Ht; rewrite El'; [done|by apply (ki_count _ _ Hk)].
  - split; [done|done|done|]. exact (ml_words st1 Hf).
Qed.

Lemma ml_undo0 : k_inv (set_kmem ks (unpin tok st0)) S /\ unchanged ks (set_kmem ks (unpin tok st0)) S.
Proof. apply ml_undo, pt_rel_refl, ml_wf. Qed.

Lemma ml_frames j : 0 <= j < n_frames e -> frame_addr (e_phys e + j * 4096).
Proof.
  intros Hj. pose proof (info_entry _ _ _ ml_lw Hi) as [Heo Hl].
  destruct (eo_live e Heo Hl) as (_ & Hph & Ham & Hn). apply info_Some in Hi as (_ & _ & He & _).
  pose proof (oo_range _ _ (mi_own _ (pw_mem _ _ (ki_pt _ _ Hk))) _ _ He Hl) as Hr.
  pose proof (wf_total _ (mi_phys _ (pw_mem _ _ (ki_pt _ _ Hk)))) as Ht. rewrite max_frames_val in Ht.
  unfold frame_addr. lia.
Qed.

Lemma ml_done a virt perms i rc0 st1 :
  g_maps ks !! i = Some rc0 -> r_live rc0 = false -> owner_id e = as_owner a ->
  rights e .& need_rights perms = need_rights perms -> user_range virt (n_frames e) ->
  pt_rel (roots S) st0 st1 (pmap_fill (pte_of (mem st0)) (as_root a) virt (n_frames e)
    (fun j => Some ((e_phys e + j * 4096) .| leaf_bits perms))) ->
  (forall va, user_va va -> virt / 4096 <= va / 4096 < virt / 4096 + n_frames e ->
    pte_of (mem st0) (as_root a) va = None) ->
  mapped ks (set_maps (set_kmem ks st1)
    (<[i := mkRec (as_root a) (as_owner a) virt tok (n_frames e) true]> (g_maps ks))) S a virt tok perms e i.
Proof.
  intros Hrc Hd Ho Hri Hrg [Hw Hf Hpte] Hold. split; cbn [set_maps set_kmem k_mem g_maps]; try done.
  - by exists rc0.
  - intros t Ht. rewrite (pf_ledger _ _ _ Hf). cbn [st0 set_ledger ledger]. apply pinned_info; [apply ml_lw|done|done|done].
  - exact (ml_words st1 Hf).
Qed.
End MapLocked.

Lemma xas_map_locked_spec ks S a virt tok perms :
  k_inv ks S -> a ∈ S -> 0 <= tok < 2 ^ 64 -> perms_ok perms ->
  XAS_USER_BASE <= virt < XAS_USER_TOP -> virt mod 4096 = 0 ->
  match xas_map_locked a virt tok perms ks with
  | (rc, ks') =>
    k_inv ks' S /\
    ((rc = XAS_OK /\ countb (rec_of (as_owner a)) (g_maps ks) < 64 /\
      exists e i, mapped ks ks' S a virt tok perms e i) \/
     (rc < 0 /\ unchanged ks ks' S))
  end.
Proof.
  intros Hk Ha Htok Hp Hv Hal. unfold xas_map_locked. rewrite Z.geb_leb.
  change XAS_MAX_MAPS_PER_OWNER with 64.
  destruct (Z.leb_spec 64 (countb (rec_of (as_owner a)) (g_maps ks))).
  { split; [done|]. right. split; [done|apply unchanged_refl]. }
  destruct (xtok_map_acquire tok (as_owner a) (need_rights perms) (ledger (k_mem ks))) as [[rc [ph n]] l] eqn:Hacq.
  destruct (Z.eqb_spec rc XTOK_MAP_OK) as [->|Hne]; cbn [negb].
  2: { split; [done|]. right. apply acquire_fail in Hacq as [_ ?]; [|done]. split; [done|apply unchanged_refl]. }
  apply acquire_ok in Hacq as (e & Hi & -> & -> & -> & Ho & Hri & Hmax).
  pose proof (info_entry _ _ _ (ml_lw ks S Hk) Hi) as [Heo Hl]. destruct (eo_live e Heo Hl) as (_ & _ & _ & Hn).
  pose proof (ml_undo0 ks S Hk tok Htok e Hi Hmax) as [U1 U2].
  destruct (Z.eqb_spec (n_frames e) 0); [lia|]. cbn [orb]. rewrite Z.gtb_ltb. change XERET_FRAME_SIZE with 4096.
  destruct (Z.ltb_spec ((XAS_USER_TOP - virt) / 4096) (n_frames e)); [split; [done|by right]|].
  assert (user_range virt (n_frames e)) as Hrg by (unfold user_range, XAS_USER_BASE, XAS_USER_TOP in *; lia).
  destruct (find_dead (g_maps ks) 0) as [i|] eqn:Hd; [|split; [done|by right]].
  apply find_dead_spec in Hd as (j & rc0 & -> & Hrc & Hdead). rewrite Nat.add_0_l.
  pose proof (leaf_bits_spec perms Hp) as (Hl0 & _).
  set (st0 := set_ledger _ _) in *. pose proof (ml_wf ks S Hk tok Htok e Hi Hmax) as Hw0. fold st0 in Hw0.
  assert (as_root a ∈ roots S) as Hra by (by apply list_elem_of_fmap_2).
  pose proof (map_loop_spec (roots S) st0 (as_root a) virt (n_frames e) (e_phys e) (leaf_bits perms) Hra Hrg
    (ml_frames ks S Hk tok Htok e Hi) Hl0 (Z.to_nat (n_frames e)) 0 st0 ltac:(lia) ltac:(lia)) as Hml.
  destruct (map_loop _ _ _ _ _ _ st0) as [r st1].
  destruct Hml as [(-> & Hrel & Hold)|[Hneg Hrel]].
  - eapply pt_rel_eq; [by apply pt_rel_refl|]. intros. unfold pmap_fill. by rewrite decide_False by lia.
  - intros va _ Hin. lia.
  - change (negb (XAS_OK =? XAS_OK)) with false. cbv iota.
    pose proof (ml_done ks S Hk tok Htok e Hi Hmax a virt perms j rc0 st1 Hrc Hdead Ho Hri Hrg Hrel Hold) as Hmp.
    split; [exact (mapped_inv _ _ _ _ _ _ _ _ _ Hk Ha Htok Hp Hmp)|]. left. split_and!; [done|done|]. by exists e, j.
  - destruct (Z.eqb_spec r XAS_OK) as [->|_]; [done|]. cbn [negb].
    destruct (ml_undo ks S Hk tok Htok e Hi Hmax st1 Hrel). split; [done|]. right. done.
Qed.

Lemma xas_map_spec ks S a virt tok perms :
  k_inv ks S -> a ∈ S -> 0 <= tok < 2 ^ 64 -> 0 <= perms < 2 ^ 32 ->
  match xas_map (Some a) virt tok perms ks with
  | (rc, ks') =>
    k_inv ks' S /\
    ((rc = XAS_OK /\ perms_ok perms /\ countb (rec_of (as_owner a)) (g_maps ks) < 64 /\
      exists e i, mapped ks ks' S a virt tok perms e i) \/
     (rc < 0 /\ unchanged ks ks' S))
  end.
Proof.
  intros Hk Ha Htok Hpr. pose proof (unchanged_refl ks S) as Hu. unfold xas_map.
  destruct (ki_space _ _ Hk a Ha) as [-> _]. cbn [negb].
  destruct (Z.eqb_spec perms 0) as [|Hp0]; [by split; [|right]|]. cbn [orb].
  change (XPERM_R .| XPERM_W .| XPERM_X) with 7.
  destruct (tst (perms .& u32 (Z.lnot 7))) eqn:Hb; [by split; [|right]|].
  destruct (tst (perms .& XPERM_W) && tst (perms .& XPERM_X)) eqn:Hwx; [by split; [|right]|].
  apply below_8 in Hb; [|done]. change XPERM_W with (2 ^ 1) in Hwx. change XPERM_X with (2 ^ 2) in Hwx.
  rewrite !tst_bit in Hwx by lia.
  assert (perms_ok perms) as Hp. { split; [lia|]. intros [E1 E2]. by rewrite E1, E2 in Hwx. }
  change (XERET_FRAME_SIZE - 1) with (2 ^ 12 - 1). rewrite land_pow2_mod by lia.
  destruct (Z.eqb_spec (virt mod 2 ^ 12) 0) as [Hal|]; cbn [negb]; [|by split; [|right]].
  rewrite Z.geb_leb.
  destruct (Z.ltb_spec virt XAS_USER_BASE); [by split; [|right]|].
  destruct (Z.leb_spec XAS_USER_TOP virt); [by split; [|right]|]. cbn [orb].
  pose proof (xas_map_locked_spec ks S a virt tok perms Hk Ha Htok Hp ltac:(lia) Hal) as Hm.
  destruct (xas_map_locked a virt tok perms ks) as [rc ks']. destruct Hm as [Hk' [(-> & Hc & Hm)|Hm]];
    (split; [done|]); [left|by right]. split_and!; done.
Qed.

(** * Creating a space *)

Lemma copy_range_mem lo n kp c st a :
  0 <= n -> c mod 4096 = 0 -> 0 <= lo -> lo + n <= 512 ->
  ~ (c + 8 * lo <= a < c + 8 * (lo + n) /\ (a - c) mod 8 = 0) ->
  mem_word (mem (for_range lo n (copy_entry kp c) st)) a = mem_word (mem st) a.
Proof.
  intros Hn Hc Hlo Hle Ha.
  apply (for_range_inv (fun k st' => mem_word (mem st') a = mem_word (mem st) a)); [done|done|].
  intros k st' Hk IH. unfold copy_entry, set_ent. cbn [mem]. rewrite mem_word_insert, decide_False by lia. done.
Qed.

Lemma copy_range_rest lo n kp c st :
  0 <= n -> phys (for_range lo n (copy_entry kp c) st) = phys st /\
  ledger (for_range lo n (copy_entry kp c) st) = ledger st.
Proof.
  intros Hn. apply (for_range_inv (fun k st' => phys st' = phys st /\ ledger st' = ledger st)); [done|done|].
  intros k st' Hk IH. done.
Qed.

Section Create.
Context (R : list Z) (st st1 st2 : MemState) (c : Z) (Hwf : pt_wf st R) (Hc : fresh_table st st1 c).
Context (Hph : phys st2 = phys st1) (Hld : ledger st2 = ledger st1).
Context (Hmem : forall a, ~ (c <= a < c + 4096) -> mem_word (mem st2) a = mem_word (mem st1) a).
Context (Hzero : forall i, 1 <= i < 256 -> ent (mem st2) c i = 0).

Lemma cr_table_ok t : table_ok st t \/ t = c -> table_ok st2 t.
Proof.
  intros Ht. pose proof (at_tables R st st1 c Hwf Hc 0 0 t Ht) as [H1 H2 H3 H4 H5].
  split; rewrite ?Hph, ?Hld; done.
Qed.

Lemma cr_old r q t i : r ∈ R -> upath q -> node (mem st) r q = Some t -> 0 <= i < 512 ->
  ent (mem st2) t i = ent (mem st) t i.
Proof.
  intros Hr Hq Ht Hi. rewrite <- (at_ent1 R st st1 c Hwf Hc r q t i) by done. unfold ent. apply Hmem.
  pose proof (at_fresh R st st1 c Hwf Hc r q t Hr Hq Ht). pose proof (ft_align _ _ _ Hc).
  pose proof (tk_align _ _ (pw_node _ _ Hwf r q t Hr Hq Ht)). lia.
Qed.

Lemma cr_node r q : r ∈ R -> upath q -> node (mem st2) r q = node (mem st) r q.
Proof. intros. apply (node_agree st R); [done|apply cr_old|done|done]. Qed.

(** The new space has only its root. *)
Lemma cr_new q : upath q -> node (mem st2) c q = if decide (q = []) then Some c else None.
Proof.
  intros Hq. destruct q as [|i q]; [done|]. cbn. unfold child. rewrite Hzero; [done|]. by destruct Hq as (_ & _ & ?).
Qed.

Lemma cr_kept : mem_inv st2 -> tables_kept R st st2.
Proof. intros Hi. split; [done|apply cr_old|]. intros t Ht. apply cr_table_ok. by left. Qed.

Lemma cr_fresh r q t : r ∈ R -> upath q -> node (mem st2) r q = Some t -> t <> c.
Proof.
  intros Hr Hq. rewrite cr_node by done. intros Ht ->. by apply (at_fresh R st st1 c Hwf Hc r q c).
Qed.

Lemma cr_wf : mem_inv st2 -> pt_wf st2 (c :: R).
Proof.
  intros Hi. pose proof (kept_wf R st st2 Hwf (cr_kept Hi)) as Hold. split; [done| | |].
  - intros r q t [->|Hr]%elem_of_cons Hq Ht; [|by apply (pw_node _ _ Hold r q)].
    rewrite cr_new in Ht by done. case_decide; [|done]. injection Ht as <-. apply cr_table_ok. by right.
  - intros r r' q q' t [->|Hr]%elem_of_cons [->|Hr']%elem_of_cons Hq Hq' Ht Ht'.
    + rewrite !cr_new in Ht, Ht' by done. do 2 case_decide; try done. by subst.
    + rewrite cr_new in Ht by done. case_decide; [|done]. injection Ht as <-. by destruct (cr_fresh r' q' c).
    + rewrite cr_new in Ht' by done. case_decide; [|done]. injection Ht' as <-. by destruct (cr_fresh r q c).
    + by apply (pw_inj _ _ Hold) with t.
  - intros r q t i [->|Hr]%elem_of_cons Hq Ht Hp; [|by apply (pw_upper _ _ Hold) with r q].
    pose proof (upath_snoc _ _ Hq) as [Hq' _]. rewrite cr_new in Ht by done. case_decide; [|done]. injection Ht as <-. subst q.
    destruct Hq as (_ & _ & Hh). cbn in Hh. by rewrite Hzero, Z.bits_0 in Hp.
Qed.
End Create.

Lemma k_inv_add ks S st' a :
  k_inv ks S -> as_live a = true -> 0 < as_owner a < 2 ^ 32 -> as_root a ∉ roots S ->
  pt_wf st' (as_root a :: roots S) -> ledger st' = ledger (k_mem ks) ->
  (forall r va, r ∈ roots S -> user_va va -> pte_of (mem st') r va = pte_of (mem (k_mem ks)) r va) ->
  (forall va, user_va va -> pte_of (mem st') (as_root a) va = None) ->
  k_inv (set_kmem ks st') (a :: S).
Proof.
  intros [Hpt Hnd Hsp Hlen Hrec Hdis Hpte Hcnt] Hl Ho Hnew Hwf El Epte Hnone.
  split; cbn [set_kmem k_mem g_maps]; rewrite ?El; try done.
  - by apply NoDup_cons.
  - intros b [->|Hb]%elem_of_cons; auto.
  - intros i rc Hi Hli. destruct (Hrec i rc Hi Hli) as (e & perms & Hok). exists e, perms.
    destruct Hok as [(b & Hb & Er & Eo) ? ? ? ? ? ? ? Hx]. split; cbn [set_kmem k_mem]; rewrite ?El; try done.
    + exists b. split; [by apply elem_of_cons; right|done].
    + intros va Hva Hcov. rewrite Epte; [auto| |done]. rewrite <- Er. by apply list_elem_of_fmap_2.
  - intros r va e [->|Hr]%elem_of_cons Hva; [by rewrite Hnone|]. rewrite Epte by done. by apply Hpte.
Qed.

Lemma free_fresh st st1 c :
  mem_inv st -> fresh_table st st1 c ->
  phys_wf (phys_free_frames c 1 (phys st1)) /\
  total_frames (phys_free_frames c 1 (phys st1)) = total_frames (phys st) /\
  (forall f, 0 <= f -> bit_test (phys_free_frames c 1 (phys st1)) f = bit_test (phys st) f).
Proof.
  intros Hm Hc. pose proof Hc as [Ha Hp Hr Hw Hs Ht _ _ Hi].
  pose proof (wf_total _ (mi_phys _ Hm)) as Htot. rewrite max_frames_val in Htot.
  assert (free_in_range (phys st1) c 1) as Hin by (unfold free_in_range; rewrite Ht; lia).
  destruct (free_frames_in (phys st1) c 1 (wf_cnt _ (mi_phys _ Hi)) ltac:(lia) Hin) as (_ & Hs' & Ht').
  split_and!; [apply free_frames_wf; [apply Hi|lia|done]|congruence|].
  intros f Hf. rewrite Hs', Hs by done. case_decide; [|done]. replace f with (c / 4096) by lia. done.
Qed.

(** A fresh table leaves the memory of tokens alone. *)
Lemma fresh_words st st1 c m :
  mem_inv st -> fresh_table st st1 c -> (forall a, ~ (c <= a < c + 4096) -> mem_word m a = mem_word (mem st1) a) ->
  words_kept st (set_mem st m).
Proof.
  intros Hm Hc Hmem t e x Ht Hi Hx. apply info_Some in Hi as (_ & _ & He & Hl & _).
  pose proof (oo_used _ _ (mi_own _ Hm) _ e _ He Hl Hx) as Hu. pose proof (ft_was _ _ _ Hc) as Hw.
  pose proof (ft_align _ _ _ Hc) as Hal. cbn [set_mem mem].
  assert (~ (c <= x < c + 4096)) as Hn. { intros H. replace (c / 4096) with (x / 4096) in Hw by lia. congruence. }
  rewrite Hmem, (ft_mem _ _ _ Hc), decide_False by tauto. done.
Qed.

(** Giving back a table that was never used. *)
Lemma undo_kept ks S c st1 :
  k_inv ks S -> fresh_table (k_mem ks) st1 c ->
  tables_kept (roots S) (k_mem ks) (mkMem (phys_free_frames c 1 (phys st1)) (mem st1) (ledger st1)).
Proof.
  intros Hk Hc. pose proof (ki_pt _ _ Hk) as Hpt. destruct (free_fresh _ _ _ (pw_mem _ _ Hpt) Hc) as (Hw & Ht & Hb). split.
  - destruct (ft_inv _ _ _ Hc) as [_ Hl' _]. split; cbn [phys ledger]; [done|done|].
    rewrite (ft_ledger _ _ _ Hc). pose proof (mi_own _ (pw_mem _ _ Hpt)) as [H1 H2 H3].
    split; [by intros; rewrite Ht; eauto|intros i e f He Hl Hf|done].
    rewrite Hb; [by eauto|]. pose proof (own_nonneg _ _ _ (mi_ledger _ (pw_mem _ _ Hpt)) He Hl).
    unfold in_frames in Hf. lia.
  - intros r q t i Hr Hq Htt Hi. by apply (at_ent1 (roots S) (k_mem ks) st1 c Hpt Hc r q).
  - intros t [T1 T2 T3 T4 T5]. split; cbn [phys ledger]; rewrite ?Ht, ?(ft_ledger _ _ _ Hc); try done.
    by rewrite Hb by lia.
Qed.

Lemma create_undo ks S c st1 :
  k_inv ks S -> fresh_table (k_mem ks) st1 c ->
  let st2 := mkMem (phys_free_frames c 1 (phys st1)) (mem st1) (ledger st1) in
  k_inv (set_kmem ks st2) S /\ unchanged ks (set_kmem ks st2) S.
Proof.
  intros Hk Hc st2. pose proof (ki_pt _ _ Hk) as Hpt. pose proof (undo_kept ks S c st1 Hk Hc) as Hkept. fold st2 in Hkept.
  split.
  - apply k_inv_kept; [done|done| |]; intros t e Htt; cbn [st2 ledger]; rewrite (ft_ledger _ _ _ Hc); [done|].
    by apply (ki_count _ _ Hk).
  - split; [done|exact (ft_ledger _ _ _ Hc)| |exact (fresh_words _ _ _ _ (pw_mem _ _ Hpt) Hc (fun _ _ => eq_refl))].
    intros r va Hr Hva. by apply (kept_pte (roots S) (k_mem ks) st2).
Qed.

(** The new root: the kernel half copied, the user half empty. *)
Lemma create_copy ks st1 c :
  fresh_table (k_mem ks) st1 c ->
  let st2 := for_range XPT_KERNEL_HALF (XPT_ENTS - XPT_KERNEL_HALF) (copy_entry (g_pml4_phys ks) c)
    (copy_entry (g_pml4_phys ks) c 0 st1) in
  phys st2 = phys st1 /\ ledger st2 = ledger st1 /\
  (forall a, ~ (c <= a < c + 4096) -> mem_word (mem st2) a = mem_word (mem st1) a) /\
  (forall i, 1 <= i < 256 -> ent (mem st2) c i = 0).
Proof.
  intros Hc st2. pose proof (ft_align _ _ _ Hc) as Hal.
  destruct (copy_range_rest XPT_KERNEL_HALF (XPT_ENTS - XPT_KERNEL_HALF) (g_pml4_phys ks) c
    (copy_entry (g_pml4_phys ks) c 0 st1) ltac:(done)) as [Hph Hld].
  split_and!; [exact Hph|exact Hld| |].
  - intros a Hna. unfold st2. change XPT_KERNEL_HALF with 256. change (XPT_ENTS - 256) with 256.
    rewrite copy_range_mem by lia.
    unfold copy_entry, set_ent. cbn [mem]. by rewrite mem_word_insert, decide_False by lia.
  - intros i Hi. unfold st2, ent. change XPT_KERNEL_HALF with 256. change (XPT_ENTS - 256) with 256.
    rewrite copy_range_mem by lia.
    unfold copy_entry, set_ent. cbn [mem]. rewrite mem_word_insert, decide_False by lia.
    rewrite (ft_mem _ _ _ Hc), decide_True by lia. done.
Qed.

Lemma create_commit ks S owner c st1 st2 :
  k_inv ks S -> 0 < owner < 2 ^ 32 -> fresh_table (k_mem ks) st1 c ->
  phys st2 = phys st1 -> ledger st2 = ledger st1 ->
  (forall a, ~ (c <= a < c + 4096) -> mem_word (mem st2) a = mem_word (mem st1) a) ->
  (forall i, 1 <= i < 256 -> ent (mem st2) c i = 0) ->
  k_inv (set_kmem ks st2) (mkAs c owner true :: S) /\ unchanged ks (set_kmem ks st2) S /\
  forall va, user_va va -> pte_of (mem st2) c va = None.
Proof.
  intros Hk Ho Hc Hph Hld Hmem Hz. pose proof (ki_pt _ _ Hk) as Hpt.
  assert (mem_inv st2) as Hi2. { destruct (ft_inv _ _ _ Hc) as [H1 H2 H3]. split; rewrite ?Hph, ?Hld; done. }
  pose proof (cr_kept (roots S) (k_mem ks) st1 st2 c Hpt Hc Hph Hld Hmem Hi2) as Hkept.
  assert (forall r va, r ∈ roots S -> user_va va -> pte_of (mem st2) r va = pte_of (mem (k_mem ks)) r va) as Hpte
    by (intros; by apply (kept_pte (roots S) (k_mem ks) st2)).
  assert (forall va, user_va va -> pte_of (mem st2) c va = None) as Hnone.
  { intros va Hva. unfold pte_of. rewrite (cr_new st2 c Hz) by (by apply vpath_upath). done. }
  assert (ledger st2 = ledger (k_mem ks)) as El by (rewrite Hld; apply Hc).
  split_and!; [|split; [done|done|done|]; exact (fresh_words _ _ _ _ (pw_mem _ _ Hpt) Hc Hmem)|done].
  apply (k_inv_add ks S st2); cbn [as_live as_owner as_root]; [done|done|lia| |by apply (cr_wf (roots S) (k_mem ks) st1)|done..].
  intros Hin. by destruct (at_fresh (roots S) (k_mem ks) st1 c Hpt Hc c [] c Hin upath_nil).
Qed.

Lemma xas_create_spec owner ks S :
  k_inv ks S -> 0 <= owner < 2 ^ 32 ->
  match xas_create owner ks with
  | (rc, Some a, ks') => rc = XAS_OK /\ as_owner a = owner /\ k_inv ks' (a :: S) /\
      unchanged ks ks' S /\ forall va, user_va va -> pte_of (mem (k_mem ks')) (as_root a) va = None
  | (rc, None, ks') => rc < 0 /\ k_inv ks' S /\ unchanged ks ks' S
  end.
Proof.
  intros Hk Ho. pose proof (unchanged_refl ks S) as Hun. unfold xas_create.
  destruct (g_pml4_phys ks =? 0); [done|]. cbn [orb].
  destruct (Z.eqb_spec owner XTOK_OWNER_KERNEL) as [|Hne]; [done|]. unfold XTOK_OWNER_KERNEL in Hne.
  pose proof (alloc_zero_table_spec (k_mem ks) (pw_mem _ _ (ki_pt _ _ Hk))) as Ha.
  destruct (alloc_zero_table (k_mem ks)) as [c st1]. destruct Ha as [[-> ->]|[Hc0 Hc]].
  { cbn [Z.eqb]. by rewrite set_kmem_same. }
  destruct (Z.eqb_spec c 0); [done|]. cbn [set_kmem g_pml4_phys k_mem].
  destruct (existsb _ _).
  - split; [done|]. exact (create_undo ks S c st1 Hk Hc).
  - destruct (create_copy ks st1 c Hc) as (H1 & H2 & H3 & H4).
    destruct (create_commit ks S owner c st1 _ Hk ltac:(lia) Hc H1 H2 H3 H4) as (K1 & K2 & K3).
    split_and!; [done|done|exact K1|exact K2|exact K3].
Qed.

(** * Destroying a space *)

(** [st'] is [st] with the frames of [F] given back. *)
Record freed (st st' : MemState) (F : Z -> Prop) : Prop := {
  fr_mem : mem st' = mem st;
  fr_ledger : ledger st' = ledger st;
  fr_total : total_frames (phys st') = total_frames (phys st);
  fr_wf : phys_wf (phys st');
  fr_bits : forall f, 0 <= f -> bit_test (phys st') f = true <-> bit_test (phys st) f = true \/ F f
}.

Lemma freed_refl st : phys_wf (phys st) -> freed st st (fun _ => False).
Proof. intros H. split; try done. intros f Hf. tauto. Qed.

Lemma freed_trans st1 st2 st3 F G H :
  freed st1 st2 F -> freed st2 st3 G -> (forall f, H f <-> F f \/ G f) -> freed st1 st3 H.
Proof.
  intros [M1 L1 T1 W1 B1] [M2 L2 T2 W2 B2] Hfg. split; [congruence|congruence|congruence|done|].
  intros f Hf. rewrite B2, B1, Hfg by done. tauto.
Qed.

Lemma freed_eq st st' F G : freed st st' F -> (forall f, F f <-> G f) -> freed st st' G.
Proof. intros [M L T W B] H. split; try done. intros f Hf. by rewrite B, H. Qed.

(** An address whose frame the bitmap covers. *)
Definition frame_in (p : PhysBitmap) (t : Z) : Prop := t mod 4096 = 0 /\ 0 < t /\ t / 4096 < total_frames p.

Lemma free_frame_spec st t :
  phys_wf (phys st) -> frame_in (phys st) t -> freed st (free_frame t st) (fun f => f = t / 4096).
Proof.
  intros Hw (Ha & Hp & Hr). pose proof (wf_total _ Hw) as Ht. rewrite max_frames_val in Ht.
  assert (free_in_range (phys st) t 1) as Hin by (unfold free_in_range; lia).
  destruct (free_frames_in (phys st) t 1 Hw ltac:(lia) Hin) as (_ & Hs & Ht').
  split; cbn [free_frame mem ledger phys]; try done; [apply free_frames_wf; (done || lia)|].
  intros f Hf. rewrite Hs by done. case_decide as D.
  - split; [right; lia|done].
  - split; [by left|intros [?|?]; [done|lia]].
Qed.

Lemma freed_range lo n body (F : Z -> Z -> Prop) st :
  0 <= n -> phys_wf (phys st) ->
  (forall k st', lo <= k < lo + n -> mem st' = mem st -> total_frames (phys st') = total_frames (phys st) ->
     phys_wf (phys st') -> freed st' (body k st') (F k)) ->
  freed st (for_range lo n body st) (fun f => exists k, lo <= k < lo + n /\ F k f).
Proof.
  intros Hn Hw Hb.
  apply (for_range_inv (fun k st' => freed st st' (fun f => exists j, lo <= j < lo + k /\ F j f))); [done| |].
  - eapply freed_eq; [by apply freed_refl|]. intros f. split; [done|]. intros (j & Hj & _). lia.
  - intros k st' Hk IH. pose proof IH as [M L T W B].
    eapply freed_trans; [exact IH|apply Hb; try done; lia|]. intros f. split.
    + intros (j & Hj & HF). destruct (decide (j = lo + k)) as [->|]; [by right|left]. exists j. split; [lia|done].
    + intros [(j & Hj & HF)|HF]; [exists j; split; [lia|done]|]. exists (lo + k). split; [lia|done].
Qed.

(** The frames of the tables at or below a table, by level. *)
Definition kids (m : gmap Z Z) (G : Z -> Z -> Prop) (lo hi t f : Z) : Prop :=
  exists i c, lo <= i < hi /\ child m t i = Some c /\ G c f.
Definition at_frame_of (t f : Z) : Prop := f = t / 4096.
Definition pd_frames (m : gmap Z Z) (t f : Z) : Prop := kids m at_frame_of 0 512 t f \/ f = t / 4096.
Definition pdpt_frames (m : gmap Z Z) (t f : Z) : Prop := kids m (pd_frames m) 0 512 t f \/ f = t / 4096.
Definition root_frames (m : gmap Z Z) (t f : Z) : Prop := kids m (pdpt_frames m) 1 256 t f \/ f = t / 4096.

(** One loop over the entries of a table, freeing below each present one. *)
Lemma freed_kids lo n t G (body : Z -> MemState -> MemState) st :
  0 <= n -> phys_wf (phys st) ->
  (forall c st', (exists i, lo <= i < lo + n /\ child (mem st) t i = Some c) -> mem st' = mem st ->
     total_frames (phys st') = total_frames (phys st) -> phys_wf (phys st') -> freed st' (body c st') (G c)) ->
  freed st (for_range lo n (fun i st =>
      let e := ent (mem st) t i in
      if tst (e .& XPT_PRESENT) then body (e .& XPT_ADDR_MASK) st else st) st)
    (kids (mem st) G lo (lo + n) t).
Proof.
  intros Hn Hw Hb.
  eapply freed_eq; [apply (freed_range lo n _ (fun i f => exists c, child (mem st) t i = Some c /\ G c f)); [done|done|]|].
  - intros k st' Hk Hm Ht Hw'. cbv zeta. rewrite Hm. destruct (child (mem st) t k) as [c|] eqn:E; pose proof E as E'.
    + apply child_Some in E' as [-> E']. rewrite E'. eapply freed_eq; [apply Hb; [by exists k|done|done|done]|].
      intros f. split; [intros H; by exists c|]. by intros (c' & [= <-] & H).
    + apply child_None in E' as ->. eapply freed_eq; [by apply freed_refl|]. intros f. split; [done|]. by intros (c & ? & _).
  - intros f. unfold kids. split; [intros (i & Hi & c & H1 & H2)|intros (i & c & Hi & H1 & H2)]; eauto 10.
Qed.

Section FreeTree.
Context (st0 : MemState) (R : list Z) (Hwf : pt_wf st0 R) (r : Z) (Hr : r ∈ R).

Lemma ft_frame_in q t st : upath q -> node (mem st0) r q = Some t ->
  total_frames (phys st) = total_frames (phys st0) -> frame_in (phys st) t.
Proof. intros Hq Ht E. destruct (pw_node _ _ Hwf r q t Hr Hq Ht). split_and!; rewrite ?E; done. Qed.

Lemma upath3 i4 i3 i2 : 1 <= i4 < 256 -> 0 <= i3 < 512 -> 0 <= i2 < 512 -> upath [i4; i3; i2].
Proof. intros. split; [done|]. split; [|done]. repeat constructor; lia. Qed.

Lemma upath2 i4 i3 : 1 <= i4 < 256 -> 0 <= i3 < 512 -> upath [i4; i3].
Proof. intros. apply (upath_snoc [i4; i3] 0). by apply upath3. Qed.

Lemma upath1 i4 : 1 <= i4 < 256 -> upath [i4].
Proof. intros. apply (upath_snoc [i4] 0). by apply upath2. Qed.

Lemma free_pd_spec i4 i3 pd st :
  1 <= i4 < 256 -> 0 <= i3 < 512 -> node (mem st0) r [i4; i3] = Some pd -> mem st = mem st0 ->
  total_frames (phys st) = total_frames (phys st0) -> phys_wf (phys st) ->
  freed st (free_pd pd st) (pd_frames (mem st0) pd).
Proof.
  intros H4 H3 Hn Hm Ht Hw. unfold free_pd.
  unshelve epose proof (freed_kids 0 512 pd at_frame_of free_frame st ltac:(lia) Hw _) as Hk.
  { intros c st' (i2 & Hi & Hc) Hm' Ht' Hw'. apply free_frame_spec; [done|].
    apply (ft_frame_in [i4; i3; i2]); [by apply upath3; try lia| |congruence].
    change [i4; i3; i2] with ([i4; i3] ++ [i2]). rewrite node_snoc, Hn. cbn. by rewrite <- Hm. }
  pose proof Hk as [M L T W B]. rewrite Hm in Hk. eapply freed_trans; [exact Hk|apply free_frame_spec; [done|]|done].
  apply (ft_frame_in [i4; i3]); [by apply upath2|done|exact (eq_trans T Ht)].
Qed.

Lemma free_pdpt_spec i4 pdpt st :
  1 <= i4 < 256 -> node (mem st0) r [i4] = Some pdpt -> mem st = mem st0 ->
  total_frames (phys st) = total_frames (phys st0) -> phys_wf (phys st) ->
  freed st (free_pdpt pdpt st) (pdpt_frames (mem st0) pdpt).
Proof.
  intros H4 Hn Hm Ht Hw. unfold free_pdpt.
  unshelve epose proof (freed_kids 0 512 pdpt (pd_frames (mem st0)) free_pd st ltac:(lia) Hw _) as Hk.
  { intros c st' (i3 & Hi & Hc) Hm' Ht' Hw'. apply (free_pd_spec i4 i3); [done|lia| |congruence|congruence|done].
    change [i4; i3] with ([i4] ++ [i3]). rewrite node_snoc, Hn. cbn. by rewrite <- Hm. }
  pose proof Hk as [M L T W B]. rewrite Hm in Hk. eapply freed_trans; [exact Hk|apply free_frame_spec; [done|]|done].
  apply (ft_frame_in [i4]); [by apply upath1|done|exact (eq_trans T Ht)].
Qed.

Lemma free_space_spec :
  freed st0 (free_frame r (free_user_half r st0)) (root_frames (mem st0) r).
Proof.
  unfold free_user_half.
  pose proof (mi_phys _ (pw_mem _ _ Hwf)) as Hw.
  unshelve epose proof (freed_kids 1 255 r (pdpt_frames (mem st0)) free_pdpt st0 ltac:(lia) Hw _) as Hk.
  { intros c st' (i4 & Hi & Hc) Hm' Ht' Hw'. apply (free_pdpt_spec i4); [lia| |done|done|done].
    cbn. by rewrite Hc. }
  pose proof Hk as [M L T W B]. eapply freed_trans; [exact Hk|apply free_frame_spec; [done|]|done].
  apply (ft_frame_in []); [apply upath_nil|done|exact T].
Qed.

(** The freed frames are exactly those of the tables of the space. *)
Lemma root_frames_node f :
  root_frames (mem st0) r f <-> exists q t, upath q /\ node (mem st0) r q = Some t /\ f = t / 4096.
Proof.
  unfold root_frames, pdpt_frames, pd_frames, at_frame_of. split.
  - intros [(i4 & t3 & H4 & C4 & [(i3 & t2 & H3 & C3 & [(i2 & t1 & H2 & C2 & ->)| ->])| ->])| ->].
    + exists [i4; i3; i2], t1. split; [by apply upath3|]. cbn. rewrite C4. cbn. rewrite C3. cbn. by rewrite C2.
    + exists [i4; i3], t2. split; [by apply upath2|]. cbn. rewrite C4. cbn. by rewrite C3.
    + exists [i4], t3. split; [by apply upath1|]. cbn. by rewrite C4.
    + exists [], r. split; [apply upath_nil|done].
  - intros (q & t & (Hl & Hf & Hh) & Hn & ->).
    destruct q as [|i4 [|i3 [|i2 [|? ?]]]]; cbn [length] in Hl; [| | | |lia];
      repeat match goal with H : Forall _ (_ :: _) |- _ => apply Forall_cons in H as [? H] end; cbn [node] in Hn.
    + injection Hn as <-. by right.
    + destruct (child (mem st0) r i4) as [t3|] eqn:C4; cbn in Hn; [|done]. injection Hn as <-.
      left. exists i4, t3. split_and!; [lia|lia|done|by right].
    + destruct (child (mem st0) r i4) as [t3|] eqn:C4; cbn in Hn; [|done].
      destruct (child (mem st0) t3 i3) as [t2|] eqn:C3; cbn in Hn; [|done]. injection Hn as <-.
      left. exists i4, t3. split_and!; [lia|lia|done|]. left. exists i3, t2. split_and!; [lia|lia|done|by right].
    + destruct (child (mem st0) r i4) as [t3|] eqn:C4; cbn in Hn; [|done].
      destruct (child (mem st0) t3 i3) as [t2|] eqn:C3; cbn in Hn; [|done].
      destruct (child (mem st0) t2 i2) as [t1|] eqn:C2; cbn in Hn; [|done]. injection Hn as <-.
      left. exists i4, t3. split_and!; [lia|lia|done|]. left. exists i3, t2. split_and!; [lia|lia|done|].
      left. exists i2, t1. done.
Qed.
End FreeTree.

(** The spaces left after [a] is destroyed. *)
Definition without (a : XAspace) (S : list XAspace) : list XAspace :=
  filter (fun b => as_root b <> as_root a) S.

Lemma elem_without a b S : b ∈ without a S <-> b ∈ S /\ as_root b <> as_root a.
Proof. unfold without. rewrite list_elem_of_filter. tauto. Qed.

Lemma roots_without a S r : r ∈ roots (without a S) <-> r ∈ roots S /\ r <> as_root a.
Proof.
  unfold roots. rewrite !list_elem_of_fmap. setoid_rewrite elem_without. naive_solver.
Qed.

Lemma NoDup_without a S : NoDup (roots S) -> NoDup (roots (without a S)).
Proof.
  intros H. eapply sublist_NoDup; [exact H|]. unfold roots, without. apply fmap_sublist, sublist_filter.
Qed.

Lemma node_without_kept ks S a st' :
  k_inv ks S -> a ∈ S -> freed (k_mem ks) st' (root_frames (mem (k_mem ks)) (as_root a)) ->
  pt_wf st' (roots (without a S)).
Proof.
  intros Hk Ha Hf. pose proof (ki_pt _ _ Hk) as Hpt. pose proof Hf as [Hm Hl Ht Hw Hb].
  assert (as_root a ∈ roots S) as Hra by (by apply list_elem_of_fmap_2).
  assert (forall t r q, r ∈ roots (without a S) -> upath q -> node (mem (k_mem ks)) r q = Some t ->
    table_ok st' t) as Htab.
  { intros t r q [Hr Hne]%roots_without Hq Hn. destruct (pw_node _ _ Hpt r q t Hr Hq Hn) as [T1 T2 T3 T4 T5] eqn:E. clear E.
    split; rewrite ?Hl, ?Ht; try done. apply not_true_iff_false. intros Htr. apply Hb in Htr as [Htr|Htr]; [congruence| |lia].
    apply (root_frames_node (k_mem ks)) in Htr as (q' & t' & Hq' & Hn' & Et).
    pose proof (tk_align _ _ (pw_node _ _ Hpt _ q' t' Hra Hq' Hn')).
    assert (t = t') as -> by lia. by destruct (pw_inj _ _ Hpt r (as_root a) q q' t') as [? _]. }
  split.
  - destruct (pw_mem _ _ Hpt) as [_ Hlw [O1 O2 O3]]. split; rewrite ?Hl; [done|done|].
    split; [by intros; rewrite Ht; eauto|intros i e f He Hli Hin|done].
    pose proof (own_nonneg _ _ _ Hlw He Hli) as Hn0.
    apply not_true_iff_false. intros Htr. apply Hb in Htr as [Htr|Htr]; [by rewrite (O2 i e f) in Htr| |unfold in_frames in Hin; lia].
    apply (root_frames_node (k_mem ks)) in Htr as (q' & t' & Hq' & Hn' & Et). subst f.
    by apply (tk_free _ _ (pw_node _ _ Hpt _ q' t' Hra Hq' Hn') i e).
  - intros r q t Hr Hq. rewrite Hm. by apply Htab.
  - rewrite Hm. intros r r' q q' t [Hr _]%roots_without [Hr' _]%roots_without. by apply (pw_inj _ _ Hpt).
  - rewrite Hm. intros r q t i [Hr _]%roots_without. by apply (pw_upper _ _ Hpt).
Qed.

Lemma k_inv_remove ks S a st' :
  k_inv ks S -> a ∈ S -> countb (rec_in (as_root a)) (g_maps ks) = 0 ->
  freed (k_mem ks) st' (root_frames (mem (k_mem ks)) (as_root a)) -> k_inv (set_kmem ks st') (without a S).
Proof.
  intros Hk Ha Hnone Hf. pose proof (node_without_kept ks S a _ Hk Ha Hf) as Hw. pose proof Hf as [Fm Fl _ _ _].
  pose proof Hk as [_ Hnd Hsp Hlen Hrec Hdis Hstray Hcnt].
  assert (forall i rc, g_maps ks !! i = Some rc -> r_live rc = true -> as_pml4 rc <> as_root a) as Hout.
  { intros i rc Hi Hl E. rewrite countb_zero in Hnone. pose proof (Hnone rc (list_elem_of_lookup_2 _ _ _ Hi)) as H.
    unfold rec_in in H. by rewrite Hl, E, Z.eqb_refl in H. }
  split; cbn [set_kmem k_mem g_maps]; rewrite ?Fl; try done.
  - by apply NoDup_without.
  - intros b [Hb _]%elem_without. by apply Hsp.
  - intros i rc Hi Hl. destruct (Hrec i rc Hi Hl) as (e & perms & Hok). exists e, perms.
    destruct Hok as [(b & Hb & Er & Eo) ? ? ? ? ? ? ? Hx]. split; cbn [set_kmem k_mem]; rewrite ?Fl, ?Fm; try done.
    exists b. split; [|done]. apply elem_without. split; [done|]. rewrite Er. by apply (Hout i).
  - intros r va e [Hr _]%roots_without. rewrite Fm. by apply Hstray.
Qed.

(** The space is dead, its records are dropped, and exactly the frames of its
    tables return to the allocator. *)
Record destroyed (ks ks' : KState) (S : list XAspace) (a : XAspace) : Prop := {
  ds_inv : k_inv ks' (without a S);
  ds_maps : g_maps ks' = kill_where (rec_in (as_root a)) (g_maps ks);
  ds_tokens : same_tokens (ledger (k_mem ks)) (ledger (k_mem ks'));
  ds_freed : exists ks1, k_inv ks1 S /\ g_maps ks1 = g_maps ks' /\ ledger (k_mem ks1) = ledger (k_mem ks') /\
    freed (k_mem ks1) (k_mem ks') (fun f => exists q t, upath q /\
      node (mem (k_mem ks1)) (as_root a) q = Some t /\ f = t / 4096)
}.

Lemma destroyed_intro ks ks1 S a :
  k_inv ks1 S -> a ∈ S -> countb (rec_in (as_root a)) (g_maps ks1) = 0 ->
  g_maps ks1 = kill_where (rec_in (as_root a)) (g_maps ks) ->
  same_tokens (ledger (k_mem ks)) (ledger (k_mem ks1)) ->
  destroyed ks (set_kmem ks1 (free_frame (as_root a) (free_user_half (as_root a) (k_mem ks1)))) S a.
Proof.
  intros Hk1 Ha Hnone Hm Hsm. assert (as_root a ∈ roots S) as Hra by (by apply list_elem_of_fmap_2).
  pose proof (free_space_spec _ _ (ki_pt _ _ Hk1) _ Hra) as Hf. generalize dependent (free_frame (as_root a) (free_user_half (as_root a) (k_mem ks1))).
  intros st' Hf. pose proof Hf as [_ Fl _ _ _].
  split; [by apply k_inv_remove|exact Hm|cbn; by rewrite Fl|]. exists ks1. split_and!; [done|done|by rewrite <- Fl|]. eapply freed_eq; [exact Hf|]. intros f. apply root_frames_node.
Qed.

Lemma xas_destroy_spec ks S a :
  k_inv ks S -> a ∈ S ->
  (xas_destroy (Some a) ks).1 = Some (mkAs (as_root a) (as_owner a) false) /\
  destroyed ks (xas_destroy (Some a) ks).2 S a.
Proof.
  intros Hk Ha. unfold xas_destroy. destruct (ki_space _ _ Hk a Ha) as [-> _]. cbn [negb].
  destruct (drop_all_spec _ (rec_in_live (as_root a)) ks S Hk) as (Hk1 & _ & Hm & _ & Hsm).
  pose proof (drop_all_none _ (rec_in_live (as_root a)) ks S Hk) as Hnone.
  split; [reflexivity|]. by apply destroyed_intro.
Qed.

(** * Reachable states *)

(** One step of the memory system: a ledger call, a call of [paging.c] on a
    live address space, or a write of any value by anyone anywhere in the
    memory of a live token. *)
Inductive kstep : KState * list XAspace -> KState * list XAspace -> Prop :=
  | ks_alloc ks S owner n rts : 0 <= owner < 2 ^ 32 -> 0 <= n < 2 ^ 64 ->
      kstep (ks, S) (set_kmem ks (xtok_alloc_ram owner n rts (k_mem ks)).2, S)
  | ks_alloc_huge ks S owner rts : 0 <= owner < 2 ^ 32 ->
      kstep (ks, S) (set_kmem ks (xtok_alloc_ram_huge owner rts (k_mem ks)).2, S)
  | ks_release ks S tok : 0 <= tok < 2 ^ 64 ->
      kstep (ks, S) (set_kmem ks (xtok_release tok (k_mem ks)).2, S)
  | ks_release_owned ks S tok owner : 0 <= tok < 2 ^ 64 ->
      kstep (ks, S) (set_kmem ks (xtok_release_owned tok owner (k_mem ks)).2, S)
  | ks_reclaim ks S tok : 0 <= tok < 2 ^ 64 ->
      kstep (ks, S) (set_kmem ks (xtok_reclaim tok (k_mem ks)).2, S)
  | ks_create ks S owner rc a ks' : 0 <= owner < 2 ^ 32 -> xas_create owner ks = (rc, a, ks') ->
      kstep (ks, S) (ks', match a with Some a => a :: S | None => S end)
  | ks_map ks S a virt tok perms rc ks' : a ∈ S -> 0 <= tok < 2 ^ 64 -> 0 <= perms < 2 ^ 32 ->
      xas_map (Some a) virt tok perms ks = (rc, ks') -> kstep (ks, S) (ks', S)
  | ks_unmap ks S a virt rc ks' : a ∈ S -> xas_unmap (Some a) virt ks = (rc, ks') -> kstep (ks, S) (ks', S)
  | ks_revoke ks S tok : kstep (ks, S) ((xas_revoke_token tok ks).2, S)
  | ks_destroy ks S a : a ∈ S -> kstep (ks, S) ((xas_destroy (Some a) ks).2, without a S)
  | ks_write ks S tok e x v : info (ledger (k_mem ks)) tok = Some e -> in_frames e (x / 4096) ->
      kstep (ks, S) (set_kmem ks (set_mem (k_mem ks) (<[x := v]> (mem (k_mem ks)))), S).

Lemma find_rec_spec P l k i :
  find_rec P l k = Some i -> exists j rc, i = (k + j)%nat /\ l !! j = Some rc /\ P rc = true.
Proof.
  revert k. induction l as [|rc l IH]; intros k; cbn [find_rec]; [done|]. destruct (P rc) eqn:E.
  - intros [= <-]. exists 0%nat, rc. split_and!; (done || lia).
  - intros H. apply IH in H as (j & rc' & -> & H1 & H2). exists (S j), rc'. split_and!; (done || lia).
Qed.

Lemma xas_unmap_inv ks S a virt : k_inv ks S -> a ∈ S -> k_inv (xas_unmap (Some a) virt ks).2 S.
Proof.
  intros Hk Ha. unfold xas_unmap. destruct (negb _); [done|].
  destruct (find_rec _ _ _) as [i|] eqn:E; [|done]. apply find_rec_spec in E as (j & rc & -> & Hj & Hp).
  unfold rec_at in Hp. apply andb_true_iff in Hp as [[Hl _]%andb_true_iff _]. cbn [snd Nat.add].
  by apply (drop_record_inv ks S Hk j rc).
Qed.

Lemma kstep_inv s s' : kstep s s' -> k_inv s.1 s.2 -> k_inv s'.1 s'.2.
Proof.
  destruct 1 as [ks S owner n rts Ho Hn|ks S owner rts Ho|ks S tok Ht|ks S tok owner Ht|ks S tok Ht
    |ks S owner rc a ks' Ho Hc|ks S a virt tok perms rc ks' Ha Ht Hp Hm|ks S a virt rc ks' Ha Hu|ks S tok|ks S a Ha|ks S tok e x v Hi Hx];
    cbn [fst snd]; intros Hk.
  - apply alloc_k_inv; [done|done|lia].
  - by apply alloc_huge_k_inv.
  - pose proof (release_k_inv tok REL_CHECK_RIGHT 0 ks S Hk Ht) as H. unfold xtok_release.
    by destruct (release_impl _ _ _ _).
  - by apply release_k_inv.
  - by apply release_k_inv.
  - pose proof (xas_create_spec owner ks S Hk Ho) as H. rewrite Hc in H. destruct a; apply H.
  - pose proof (xas_map_spec ks S a virt tok perms Hk Ha Ht Hp) as H. rewrite Hm in H. apply H.
  - pose proof (xas_unmap_inv ks S a virt Hk Ha) as H. by rewrite Hu in H.
  - by apply (drop_all_spec _ (rec_tok_live tok) ks S Hk).
  - by apply xas_destroy_spec.
  - by eapply write_k_inv.
Qed.

(** The state after boot: an empty ledger, no records, no spaces. *)
Record k_boot (ks : KState) : Prop := {
  kb_phys : phys_wf (phys (k_mem ks));
  kb_ledger : ledger (k_mem ks) = xtok_init;
  kb_maps : g_maps ks = replicate 1024 dead_rec
}.

(** The machine's own boot state. *)
Class Boot := boot_state : KState.

Definition reachable `{Boot} (ks : KState) (S : list XAspace) : Prop :=
  k_boot boot_state /\ rtc kstep (boot_state, []) (ks, S).

Lemma boot_k_inv ks : k_boot ks -> k_inv ks [].
Proof.
  intros [Hp Hl Hm].
  assert (mem_inv (k_mem ks)) as Hinv.
  { pose proof (boot_inv (phys (k_mem ks)) (mem (k_mem ks)) Hp) as H. rewrite <- Hl in H. by destruct (k_mem ks). }
  assert (forall i rc, g_maps ks !! i = Some rc -> rc = dead_rec) as Hd.
  { intros i rc Hi. rewrite Hm in Hi. by apply lookup_replicate in Hi as [-> _]. }
  split.
  - split; [done| | |]; by intros r ? ? ? ?%elem_of_nil || (intros r; intros; exfalso; by eapply not_elem_of_nil).
  - constructor.
  - by intros a ?%elem_of_nil.
  - by rewrite Hm, length_replicate.
  - by intros i rc ->%Hd.
  - by intros i j rc rc' va ->%Hd.
  - by intros r va e ?%elem_of_nil.
  - intros tok e Ht Hi. rewrite Hl in Hi. apply info_Some in Hi as (_ & _ & Hi & Hlive & _).
    cbn [xtok_init g_table] in Hi. apply lookup_replicate in Hi as [-> _]. done.
Qed.

Section Reachable.
Context `{Bt : Boot}.

Lemma reachable_inv ks S : reachable ks S -> k_inv ks S.
Proof.
  intros (Hb & Hr). apply boot_k_inv in Hb. remember (boot_state, []) as s eqn:Es. remember (ks, S) as s' eqn:Es'.
  assert (k_inv s.1 s.2) as Hk by (by subst).
  assert (k_inv s'.1 s'.2) as H; [|by subst]. clear Es Es' Hb. induction Hr as [s|s1 s2 s3 Hst _ IH]; [done|].
  by apply IH, (kstep_inv s1).
Qed.

Lemma reachable_step ks S ks' S' : reachable ks S -> kstep (ks, S) (ks', S') -> reachable ks' S'.
Proof. intros [Hb Hr] Hs. split; [done|]. by eapply rtc_r. Qed.

(** * What an entry of a space says *)

Lemma need_bits perms r :
  r .& need_rights perms = need_rights perms ->
  (Z.testbit perms 1 = true -> Z.testbit r 1 = true) /\ (Z.testbit perms 2 = true -> Z.testbit r 2 = true) /\
  Z.testbit r 0 = true /\ Z.testbit r 3 = true.
Proof.
  intros H. assert (forall i, Z.testbit (need_rights perms) i = true -> Z.testbit r i = true) as Hb.
  { intros i Hi. rewrite <- H, Z.land_spec in Hi. by apply andb_true_iff in Hi as [? _]. }
  unfold need_rights in Hb. change XPERM_W with (2 ^ 1) in Hb. change XPERM_X with (2 ^ 2) in Hb.
  rewrite !tst_bit in Hb by lia.
  destruct (Z.testbit perms 1), (Z.testbit perms 2); split_and!; intros; try done; by apply Hb.
Qed.

Lemma space_unique ks S a b : k_inv ks S -> a ∈ S -> b ∈ S -> as_root a = as_root b -> a = b.
Proof.
  intros Hk Ha Hb E. pose proof (ki_nodup _ _ Hk) as Hnd.
  apply list_elem_of_lookup in Ha as [n1 E1], Hb as [n2 E2].
  assert (n1 = n2) as ->; [|congruence]. apply (NoDup_lookup (roots S) n1 n2 (as_root a)); [done| |].
  - unfold roots. by rewrite list_lookup_fmap, E1.
  - unfold roots. rewrite list_lookup_fmap, E2. cbn. by rewrite E.
Qed.

(** A present entry of a space, in terms of the token it maps. *)
Lemma pte_token ks S a va x :
  k_inv ks S -> a ∈ S -> user_va va -> pte_of (mem (k_mem ks)) (as_root a) va = Some x ->
  exists tok e, 0 <= tok < 2 ^ 64 /\ info (ledger (k_mem ks)) tok = Some e /\ owner_id e = as_owner a /\
    0 < map_count e /\ in_frames e ((x .& XPT_ADDR_MASK) / 4096) /\
    Z.testbit x 2 = true /\ (Z.testbit x 1 = true -> Z.testbit x 63 = true) /\
    (Z.testbit x 1 = true -> Z.testbit (rights e) 1 = true) /\
    (Z.testbit x 63 = false -> Z.testbit (rights e) 2 = true) /\
    Z.testbit (rights e) 0 = true /\ Z.testbit (rights e) 3 = true.
Proof.
  intros Hk Ha Hva Hx. assert (as_root a ∈ roots S) as Hra by (by apply list_elem_of_fmap_2).
  destruct (ki_pte _ _ Hk _ va x Hra Hva Hx) as (i & rc & Hi & Hl & Er & Hcov).
  destruct (ki_rec _ _ Hk i rc Hi Hl) as (e & perms & [Hsp Ht Hin Ho Hpg Hrg Hp Hri Hpte]).
  rewrite <- Er, (Hpte va Hva Hcov) in Hx. injection Hx as <-.
  set (j := va / 4096 - r_virt rc / 4096). unfold rec_covers in Hcov.
  assert (frame_addr (e_phys e + j * 4096)) as Hf by (apply (ml_frames ks S Hk (r_tok rc) Ht e Hin); lia).
  destruct (leaf_bits_spec perms Hp) as (L0 & L1 & L2 & L63 & Lm). destruct (need_bits perms _ Hri) as (N1 & N2 & N0 & N3).
  exists (r_tok rc), e. rewrite !entry_bit_low by (done || lia). rewrite mask_entry by done.
  rewrite Z.lor_spec, (testbit_high _ 52 63) by (apply Hf || lia). cbn [orb]. rewrite L1, L2, L63.
  assert (owner_id e = as_owner a) as Eo.
  { destruct Hsp as (b & Hb & Eb & Eob). rewrite Ho, <- Eob. by rewrite (space_unique ks S b a) by congruence. }
  assert (0 < map_count e) as Hmc.
  { rewrite (ki_count _ _ Hk _ e Ht Hin). enough (1 <= countb (rec_tok (r_tok rc)) (g_maps ks)) by lia.
    eapply countb_lookup_pos; [exact Hi|]. unfold rec_tok. by rewrite Hl, Z.eqb_refl. }
  destruct Hp as [Hp Hwx]. pose proof (info_entry _ _ _ (ml_lw ks S Hk) Hin) as [Heo Hlv].
  destruct (eo_live e Heo Hlv) as (_ & Hph & Ham & _).
  split_and!; try done; try lia.
  - unfold in_frames. lia.
  - intros E1. destruct (Z.testbit perms 2) eqn:E2; [by destruct Hwx|done].
  - intros E2%negb_false_iff. auto.
Qed.

(** * The per-owner cap *)

Definition cap_ok (ks : KState) : Prop := forall o, countb (rec_of o) (g_maps ks) <= 64.

Lemma countb_kill_where P o l : countb (rec_of o) (kill_where P l) <= countb (rec_of o) l.
Proof.
  induction l as [|rc l IH]; [done|]. unfold kill_where in *. cbn [fmap list_fmap countb].
  destruct (P rc); [|lia]. change (rec_of o (kill_rec rc)) with false. destruct (rec_of o rc); lia.
Qed.

Lemma kstep_cap s s' : kstep s s' -> k_inv s.1 s.2 -> cap_ok s.1 -> cap_ok s'.1.
Proof.
  destruct 1 as [ks S owner n rts Ho Hn|ks S owner rts Ho|ks S tok Ht|ks S tok owner Ht|ks S tok Ht
    |ks S owner rc a ks' Ho Hc|ks S a virt tok perms rc ks' Ha Ht Hp Hm|ks S a virt rc ks' Ha Hu|ks S tok|ks S a Ha|ks S tok e x v Hi Hx];
    cbn [fst snd]; intros Hk Hcap; try exact Hcap.
  - pose proof (xas_create_spec owner ks S Hk Ho) as H. rewrite Hc in H.
    assert (g_maps ks' = g_maps ks) as E by (destruct a; apply H). unfold cap_ok. by rewrite E.
  - pose proof (xas_map_spec ks S a virt tok perms Hk Ha Ht Hp) as H. rewrite Hm in H.
    destruct H as (_ & [(_ & _ & Hc & e & i & Hmp)|(_ & Hun)]); intros o; [|rewrite (un_maps _ _ _ Hun); apply Hcap].
    destruct (mp_slot _ _ _ _ _ _ _ _ _ Hmp) as (rc0 & Hi & Hd).
    rewrite (mp_maps _ _ _ _ _ _ _ _ _ Hmp), (countb_insert _ _ _ _ _ Hi). unfold rec_of at 2 3. rewrite Hd.
    cbn [r_live r_owner andb]. specialize (Hcap o). destruct (Z.eqb_spec (as_owner a) o) as [<-|]; lia.
  - unfold xas_unmap in Hu. destruct (negb _); [by injection Hu as _ <-|].
    destruct (find_rec _ _ _) as [i|] eqn:E; [|by injection Hu as _ <-]. injection Hu as _ <-.
    apply find_rec_spec in E as (j & rc0 & -> & Hj & _). cbn [Nat.add]. intros o.
    rewrite (drop_maps ks _ rc0 Hj), (countb_insert _ _ _ _ _ Hj). change (rec_of o (kill_rec rc0)) with false.
    specialize (Hcap o). destruct (rec_of o rc0); lia.
  - intros o. destruct (drop_all_spec _ (rec_tok_live tok) ks S Hk) as (_ & _ & Hm & _).
    unfold xas_revoke_token. rewrite Hm. pose proof (countb_kill_where (rec_tok tok) o (g_maps ks)).
    specialize (Hcap o). lia.
  - intros o. destruct (xas_destroy_spec ks S a Hk Ha) as [_ Hd]. rewrite (ds_maps _ _ _ _ Hd).
    pose proof (countb_kill_where (rec_in (as_root a)) o (g_maps ks)). specialize (Hcap o). lia.
Qed.

Lemma reachable_cap ks S : reachable ks S -> cap_ok ks.
Proof.
  intros (Hb & Hr).
  assert (cap_ok boot_state) as Hc0.
  { intros o. rewrite (kb_maps _ Hb). replace (countb (rec_of o) (replicate 1024 dead_rec)) with 0; [lia|].
    symmetry. apply countb_zero. by intros x [-> _]%elem_of_replicate. }
  apply boot_k_inv in Hb. remember (boot_state, []) as s eqn:Es. remember (ks, S) as s' eqn:Es'.
  assert (k_inv s.1 s.2) as Hk by (by subst). assert (cap_ok s.1) as Hc by (by subst).
  assert (cap_ok s'.1) as H; [|by subst]. clear Es Es' Hb Hc0. induction Hr as [s|s1 s2 s3 Hst _ IH]; [done|].
  apply IH; [by apply (kstep_inv s1)|by apply (kstep_cap s1)].
Qed.

(** * Properties *)

(** C1: Isolation. In every reachable state, a present entry that the page
    walk finds for a user address of a live space maps a frame of a live
    token that the owner of the space holds, that carries READ and MAP and is
    pinned against release; the entry is a user entry, never writable and
    executable at once, writable only if the token carries WRITE, executable
    only if it carries EXECUTE. *)
Theorem aspace_isolation ks S a va pte :
  reachable ks S -> a ∈ S -> XAS_USER_BASE <= va < XAS_USER_TOP ->
  walk_pte (mem (k_mem ks)) (as_root a) va = Some pte ->
  let x := mem_word (mem (k_mem ks)) pte in
  tst (x .& XPT_PRESENT) = true ->
  exists tok e, info (ledger (k_mem ks)) tok = Some e /\ owner_id e = as_owner a /\ 0 < map_count e /\
    in_frames e ((x .& XPT_ADDR_MASK) / 4096) /\
    Z.testbit x 2 = true /\ (Z.testbit x 1 = true -> Z.testbit x 63 = true) /\
    (Z.testbit x 1 = true -> Z.testbit (rights e) 1 = true) /\
    (Z.testbit x 63 = false -> Z.testbit (rights e) 2 = true) /\
    Z.testbit (rights e) 0 = true /\ Z.testbit (rights e) 3 = true.
Proof.
  intros Hr Ha Hva Hw x Hx. apply reachable_inv in Hr as Hk.
  assert (as_root a ∈ roots S) as Hra by (by apply list_elem_of_fmap_2).
  rewrite (walk_pte_node (roots S)) in Hw by (done || apply Hk).
  destruct (pte_token ks S a va x Hk Ha Hva) as (tok & e & _ & H).
  - unfold pte_of. apply fmap_Some in Hw as (t & -> & Ep). cbv zeta.
    assert (ent (mem (k_mem ks)) t (pidx va) = x) as -> by (unfold ent, x; by rewrite Ep).
    by rewrite <- tst_present, Hx.
  - by exists tok, e.
Qed.



(** C11: The abort protocol makes progress. Revoking a live token removes
    every one of its mappings, in every space, and returns how many there
    were; afterwards no space maps a frame of it, and the forced reclaim that
    follows succeeds. *)
Theorem xas_revoke_then_reclaim ks S tok e :
  reachable ks S -> 0 <= tok < 2 ^ 64 -> info (ledger (k_mem ks)) tok = Some e ->
  let '(n, ks') := xas_revoke_token tok ks in
  n = map_count e /\ xtok_map_count tok (ledger (k_mem ks')) = 0 /\
  (forall a va x, a ∈ S -> user_va va -> pte_of (mem (k_mem ks')) (as_root a) va = Some x ->
     ~ in_frames e ((x .& XPT_ADDR_MASK) / 4096)) /\
  (xtok_reclaim tok (k_mem ks')).1 = 0.
Proof.
  intros Hr Ht Hi. apply reachable_inv in Hr as Hk. unfold xas_revoke_token.
  destruct (drop_all_spec _ (rec_tok_live tok) ks S Hk) as (Hk' & Hn & Hm & _ & Hled).
  pose proof (drop_all_none _ (rec_tok_live tok) ks S Hk) as H0.
  destruct (drop_all (rec_tok tok) ks) as [n ks']. cbn [fst snd] in *.
  destruct (Hled tok Ht) as [c Hc]. rewrite Hi in Hc. cbn [fmap option_fmap option_map] in Hc.
  pose proof (ki_count _ _ Hk' tok _ Ht Hc) as Ec. rewrite H0 in Ec. cbn [map_count set_map_count] in Ec. subst c.
  split_and!.
  - by rewrite Hn, (ki_count _ _ Hk tok e Ht Hi).
  - unfold xtok_map_count. by rewrite (proj1 (info_lookup _ _ _) Hc).
  - intros a va x Ha Hva Hx Hf.
    destruct (pte_token ks' S a va x Hk' Ha Hva Hx) as (tok' & e' & Ht' & Hi' & _ & Hpos & Hf' & _).
    pose proof (mi_own _ (pw_mem _ _ (ki_pt _ _ Hk'))) as [_ _ O3].
    pose proof Hc as Hc'. apply info_Some in Hc' as (_ & _ & He & Hl & _), Hi' as (_ & _ & He' & Hl' & _).
    pose proof (O3 _ _ _ _ _ He He' Hl Hl' Hf Hf') as Es. rewrite Es in He.
    assert (e' = set_map_count e 0) as -> by congruence. cbn in Hpos. lia.
  - pose proof (release_impl_spec tok 0 0 (k_mem ks') (pw_mem _ _ (ki_pt _ _ Hk')) Ht) as H. rewrite Hc in H.
    cbn in H. destruct H as (st' & H & _). unfold xtok_reclaim. by rewrite H.
Qed.

(** Destroying a space leaks nothing and takes nothing else: the space is
    dead, its records are dropped, and the frames returned to the allocator
    are exactly those of its own page tables (every level, the root
    included); the invariant holds for the spaces that remain. *)
Theorem xas_destroy_correct ks S a :
  reachable ks S -> a ∈ S ->
  (xas_destroy (Some a) ks).1 = Some (mkAs (as_root a) (as_owner a) false) /\
  destroyed ks (xas_destroy (Some a) ks).2 S a.
Proof. intros Hr Ha. apply reachable_inv in Hr. by apply xas_destroy_spec. Qed.

(** No owner ever holds more than 64 mapping records. *)
Theorem xas_owner_cap ks S owner :
  reachable ks S -> countb (rec_of owner) (g_maps ks) <= XAS_MAX_MAPS_PER_OWNER.
Proof. intros Hr. by apply (reachable_cap ks S). Qed.
End Reachable.

(** * Witnesses *)

(** A booted machine whose kernel PML4 is the (empty) table at 4 KiB. *)
Definition demo_ks0 : KState := mkK demo_mem (mkCpu 0 0 0 0) 4096 0 (replicate 1024 dead_rec) XPT_MMIO_VA.

Definition demo_va : Z := XAS_USER_BASE.

(** Owner 7 takes two frames, gets a space, and maps them read-write. *)
Definition demo_ks1 : KState := set_kmem demo_ks0 (xtok_alloc_ram 7 2 0x2F (k_mem demo_ks0)).2.
Definition demo_as : XAspace := Eval vm_compute in default (mkAs 0 0 false) (xas_create 7 demo_ks1).1.2.
Definition demo_ks2 : KState := (xas_create 7 demo_ks1).2.
Definition demo_ks3 : KState := (xas_map (Some demo_as) demo_va demo_tok1 3 demo_ks2).2.

#[local] Instance demo_boot_state : Boot := demo_ks0.

Lemma demo_boot : k_boot demo_ks0.
Proof. split; [apply demo_phys_wf|reflexivity|reflexivity]. Qed.

Lemma triple_eta {A B C} (x : A * B * C) b : x.1.2 = b -> x = (x.1.1, b, x.2).
Proof. destruct x as [[? ?] ?]. by intros <-. Qed.

Lemma demo_created_ok : (xas_create 7 demo_ks1).1.2 = Some demo_as.
Proof. vm_compute. reflexivity. Qed.

Lemma demo_reach2 : reachable demo_ks2 [demo_as].
Proof.
  split; [apply demo_boot|]. apply rtc_l with (demo_ks1, []).
  { apply ks_alloc; lia. }
  apply rtc_once. unfold demo_ks2. pose proof (triple_eta _ _ demo_created_ok) as E.
  exact (ks_create demo_ks1 [] 7 _ (Some demo_as) _ ltac:(lia) E).
Qed.

Lemma demo_in : demo_as ∈ [demo_as].
Proof. by apply list_elem_of_singleton. Qed.

Lemma demo_reach3 : reachable demo_ks3 [demo_as].
Proof.
  destruct demo_reach2 as [Hb Hr]. split; [done|]. eapply rtc_r; [exact Hr|].
  eapply (ks_map demo_ks2 [demo_as] demo_as demo_va demo_tok1 3).
  - exact demo_in.
  - exact demo_tok1_range.
  - lia.
  - unfold demo_ks3. apply surjective_pairing.
Qed.

Lemma demo_va_user : user_va demo_va.
Proof. unfold user_va, demo_va, XAS_USER_BASE, XAS_USER_TOP. lia. Qed.

Definition demo_pte : Z := default 0 (walk_pte (mem (k_mem demo_ks3)) (as_root demo_as) demo_va).

Lemma aspace_isolation_witness :
  mem_word (mem (k_mem demo_ks3)) demo_pte = 0x8000000000100007 /\
  exists tok e, info (ledger (k_mem demo_ks3)) tok = Some e /\ owner_id e = 7.
Proof.
  split; [vm_compute; reflexivity|].
  destruct (aspace_isolation demo_ks3 [demo_as] demo_as demo_va demo_pte demo_reach3 demo_in demo_va_user)
    as (tok & e & Hi & Ho & _).
  - vm_compute; reflexivity.
  - vm_compute; reflexivity.
  - exists tok, e. split; [exact Hi|]. rewrite Ho. vm_compute; reflexivity.
Defined.



Lemma xas_revoke_then_reclaim_witness : (xtok_reclaim demo_tok1 (k_mem (xas_revoke_token demo_tok1 demo_ks3).2)).1 = 0.
Proof.
  pose proof (xas_revoke_then_reclaim demo_ks3 [demo_as] demo_tok1
    (set_map_count (ram_entry 1 7 (256 * 4096) 2 0x2F) 1) demo_reach3 demo_tok1_range
    ltac:(vm_compute; reflexivity)) as H.
  destruct (xas_revoke_token demo_tok1 demo_ks3) as [n ks']. exact (proj2 (proj2 (proj2 H))).
Defined.

Lemma xas_destroy_correct_witness :
  (xas_destroy (Some demo_as) demo_ks3).1 = Some (mkAs (as_root demo_as) 7 false) /\
  phys_free_count (phys (k_mem (xas_destroy (Some demo_as) demo_ks3).2)) = phys_free_count (phys (k_mem demo_ks1)).
Proof.
  split; [|vm_compute; reflexivity].
  rewrite (proj1 (xas_destroy_correct demo_ks3 [demo_as] demo_as demo_reach3 demo_in)). vm_compute; reflexivity.
Defined.

Lemma xas_owner_cap_witness : countb (rec_of 7) (g_maps demo_ks3) = 1 /\ 1 <= XAS_MAX_MAPS_PER_OWNER.
Proof.
  assert (countb (rec_of 7) (g_maps demo_ks3) = 1) as E by (vm_compute; reflexivity). split; [exact E|].
  rewrite <- E. exact (xas_owner_cap demo_ks3 [demo_as] 7 demo_reach3).
Defined.
