(* ===== verification/Exb.v ===== *)
(** The [.exb] validator: model of [source/core/exb/exb.c] and
    [source/kerncall/include/exb.h].

    The image is a list of bytes, and every read of it is checked: a read
    outside the buffer is [Fault].  [parse_impl] writes its result through the
    pointer [out] while it still may fail, so the model threads the contents
    of [*out] through every step; a C [return] is [Ret]. *)

From S2P Require Import Prelude.
From S2P Require Import Bytes.

#[local] Ltac Zify.zify_post_hook ::= Z.div_mod_to_equations.

(** * Data *)

Definition EXB_VERSION : Z := 1.
Definition EXB_ENDIAN_LITTLE : Z := 1.
Definition EXB_HEADER_SIZE : Z := 64.
Definition EXB_SEG_SIZE : Z := 32.
Definition EXB_CAP_SIZE : Z := 16.
Definition EXB_TARGET_AMD64 : Z := 1.
Definition EXB_KIND_USER : Z := 0.
Definition EXB_SEG_R : Z := 1.
Definition EXB_SEG_W : Z := 2.
Definition EXB_SEG_X : Z := 4.
Definition EXB_CAP_STACK : Z := 1.
Definition EXB_CAP_HEAP_FRAMES : Z := 2.
Definition EXB_CAP_TOKENS : Z := 3.
Definition EXB_CAP_OPTIONAL : Z := 0x80000000.
Definition EXB_PAGE : Z := 4096.
Definition EXB_MAX_FILE : Z := 16 * 1024 * 1024.
Definition EXB_MAX_SEGS : Z := 8.
Definition EXB_MAX_CAPS : Z := 8.
Definition EXB_MAX_IMAGE_PAGES : Z := 4096.
Definition EXB_MAX_IMAGE_BYTES : Z := EXB_MAX_IMAGE_PAGES * EXB_PAGE.
Definition EXB_DEFAULT_STACK_PAGES : Z := 4.
Definition EXB_MAX_STACK_PAGES : Z := 64.
Definition EXB_MAX_HEAP_REQUEST : Z := 1 .<< 20.
Definition EXB_MAX_TOKEN_REQUEST : Z := 4096.
Definition EXB_VA_MIN : Z := 0x0000008000000000.
Definition EXB_VA_LIMIT : Z := 0x0000700000000000.

Definition EXB_OK : Z := 0.
Definition EXB_E_SIZE : Z := -1.
Definition EXB_E_MAGIC : Z := -2.
Definition EXB_E_VERSION : Z := -3.
Definition EXB_E_HEADER : Z := -4.
Definition EXB_E_TARGET : Z := -5.
Definition EXB_E_CRC : Z := -6.
Definition EXB_E_SEGTAB : Z := -7.
Definition EXB_E_SEG : Z := -8.
Definition EXB_E_WX : Z := -9.
Definition EXB_E_OVERLAP : Z := -10.
Definition EXB_E_ENTRY : Z := -11.
Definition EXB_E_CAP : Z := -12.
Definition EXB_E_LIMIT : Z := -13.
Definition EXB_E_KIND : Z := -14.

Record ExbSeg := mkSeg {
  vaddr : Z; mem_size : Z; pages : Z;
  file_off : Z; file_size : Z; flags : Z
}.

Record ExbInfo := mkInfo {
  entry : Z;
  seg_count : Z;
  seg : list ExbSeg;
  image_pages : Z;
  stack_bytes : Z;
  heap_frames : Z;
  extra_tokens : Z
}.

Definition zero_seg : ExbSeg := mkSeg 0 0 0 0 0 0.
Definition zero_info : ExbInfo := mkInfo 0 0 (replicate (Z.to_nat EXB_MAX_SEGS) zero_seg) 0 0 0 0.

(** Assignments to the fields of [*out]. *)
Definition set_seg (o : ExbInfo) (i : Z) (s : ExbSeg) : ExbInfo :=
  mkInfo (entry o) (seg_count o) (<[Z.to_nat i := s]> (seg o)) (image_pages o) (stack_bytes o)
    (heap_frames o) (extra_tokens o).
Definition set_sizes (o : ExbInfo) (n pg : Z) : ExbInfo :=
  mkInfo (entry o) n (seg o) pg (stack_bytes o) (heap_frames o) (extra_tokens o).
Definition set_exb_entry (o : ExbInfo) (e : Z) : ExbInfo :=
  mkInfo e (seg_count o) (seg o) (image_pages o) (stack_bytes o) (heap_frames o) (extra_tokens o).
Definition set_stack (o : ExbInfo) (b : Z) : ExbInfo :=
  mkInfo (entry o) (seg_count o) (seg o) (image_pages o) b (heap_frames o) (extra_tokens o).
Definition set_heap (o : ExbInfo) (h : Z) : ExbInfo :=
  mkInfo (entry o) (seg_count o) (seg o) (image_pages o) (stack_bytes o) h (extra_tokens o).
Definition set_tokens (o : ExbInfo) (t : Z) : ExbInfo :=
  mkInfo (entry o) (seg_count o) (seg o) (image_pages o) (stack_bytes o) (heap_frames o) t.

(** * Effects *)

Inductive outcome (A : Type) :=
  | Fault
  | Ret (code : Z) (out : ExbInfo)
  | Next (a : A) (out : ExbInfo).
Arguments Fault {A}.
Arguments Ret {A} _ _.
Arguments Next {A} _ _.

Definition P (A : Type) : Type := ExbInfo -> outcome A.

Definition next {A} (a : A) : P A := fun o => Next a o.
Definition bind {A B} (m : P A) (k : A -> P B) : P B := fun o =>
  match m o with Fault => Fault | Ret c o' => Ret c o' | Next a o' => k a o' end.
(** [return code;] *)
Definition stop {A} (code : Z) : P A := fun o => Ret code o.
(** [if (c) return code;] *)
Definition guard (c : bool) (code : Z) : P unit := if c then stop code else next tt.
Definition set_out (f : ExbInfo -> ExbInfo) : P unit := fun o => Next tt (f o).
(** A read of the image. *)
Definition rd_ {A} (r : option A) : P A := fun o =>
  match r with Some a => Next a o | None => Fault end.

Declare Scope exb_scope.
Notation "'let*' x := m 'in' k" := (bind m (fun x => k))
  (at level 10, x name, m at level 100, k at level 200) : exb_scope.
Notation "m ;; k" := (bind m (fun _ => k)) (at level 100, right associativity) : exb_scope.
Open Scope exb_scope.

(** * Reads *)

Definition rd (img : list Z) (o : Z) : option Z := if o <? 0 then None else img !! Z.to_nat o.

Definition le16 (img : list Z) (o : Z) : option Z :=
  a ← rd img o; b ← rd img (o + 1); Some (u16 (a .| (b .<< 8))).

Definition le32 (img : list Z) (o : Z) : option Z :=
  a ← rd img o; b ← rd img (o + 1); c ← rd img (o + 2); d ← rd img (o + 3);
  Some (a .| (b .<< 8) .| (c .<< 16) .| (d .<< 24)).

Definition le64 (img : list Z) (o : Z) : option Z :=
  a ← le32 img o; b ← le32 img (o + 4); Some (a .| (b .<< 32)).

(** * CRC *)

Definition crc_tab : list Z :=
  [0x00000000; 0x1DB71064; 0x3B6E20C8; 0x26D930AC; 0x76DC4190; 0x6B6B51F4; 0x4DB26158; 0x5005713C;
   0xEDB88320; 0xF00F9344; 0xD6D6A3E8; 0xCB61B38C; 0x9B64C2B0; 0x86D3D2D4; 0xA00AE278; 0xBDBDF21C].

Definition crc_nibble (crc : Z) : Z := (crc .>> 4) .^ nthZ crc_tab (crc .& 15).

Definition crc_byte (crc b : Z) : Z := crc_nibble (crc_nibble (crc .^ b)).

(** Bytes 28..31, the stored checksum, count as zero and are not read. *)
Fixpoint crc_loop (img : list Z) (k : nat) (i crc : Z) : option Z :=
  match k with
  | O => Some crc
  | S k' =>
    b ← (if (i >=? 28) && (i <? 32) then Some 0 else rd img i);
    crc_loop img k' (i + 1) (crc_byte crc b)
  end.

Definition exb_crc32_image (img : list Z) (size : Z) : option Z :=
  crc ← crc_loop img (Z.to_nat size) 0 0xFFFFFFFF; Some (u32 (Z.lnot crc)).

(** * The validator *)

Definition overlap (a0 a1 b0 b1 : Z) : bool := (a0 <? b1) && (b0 <? a1).

(** Entries [v0[j]], [v1[j]], [d0[j]], [d1[j]] of the local arrays. *)
Record span := mkSpan { v0 : Z; v1 : Z; d0 : Z; d1 : Z }.

Fixpoint hdr_zero (img : list Z) (k : nat) (i : Z) : P unit :=
  match k with
  | O => next tt
  | S k' =>
    let* b := rd_ (rd img i) in
    guard (negb (b =? 0)) EXB_E_HEADER;;
    hdr_zero img k' (i + 1)
  end.

Fixpoint seg_overlaps (prev : list span) (va vend foff fsz : Z) : P unit :=
  match prev with
  | [] => next tt
  | s :: r =>
    guard (overlap va vend (v0 s) (v1 s)) EXB_E_OVERLAP;;
    guard (tst fsz && (d1 s >? d0 s) && overlap foff (foff + fsz) (d0 s) (d1 s)) EXB_E_OVERLAP;;
    seg_overlaps r va vend foff fsz
  end.

Section Segments.
Context (img : list Z) (size seg_off seg_end cap_cnt cap_off cap_end : Z).

Definition seg_data (foff fsz mem : Z) : P unit :=
  guard (fsz >? mem) EXB_E_SEG;;
  if fsz =? 0 then guard (negb (foff =? 0)) EXB_E_SEG
  else
    guard (foff <? EXB_HEADER_SIZE) EXB_E_SEG;;
    guard (foff + fsz >? size) EXB_E_SEG;;
    guard (overlap foff (foff + fsz) seg_off seg_end) EXB_E_OVERLAP;;
    guard (tst cap_cnt && overlap foff (foff + fsz) cap_off cap_end) EXB_E_OVERLAP.

(** One round of the segment loop: checks entry [i] and stores it. *)
Definition seg_step (i : Z) (prev : list span) (total : Z) : P (span * Z) :=
  let p := seg_off + i * EXB_SEG_SIZE in
  let* va := rd_ (le64 img p) in
  let* mem := rd_ (le64 img (p + 8)) in
  let* foff := rd_ (le32 img (p + 16)) in
  let* fsz := rd_ (le32 img (p + 20)) in
  let* fl := rd_ (le32 img (p + 24)) in
  let* rsv := rd_ (le32 img (p + 28)) in
  guard (negb (rsv =? 0)) EXB_E_SEG;;
  guard (tst (fl .& u32 (Z.lnot (EXB_SEG_R .| EXB_SEG_W .| EXB_SEG_X)))) EXB_E_SEG;;
  guard (negb (tst (fl .& EXB_SEG_R))) EXB_E_SEG;;
  guard (tst (fl .& EXB_SEG_W) && tst (fl .& EXB_SEG_X)) EXB_E_WX;;
  guard (tst (va .& (EXB_PAGE - 1))) EXB_E_SEG;;
  guard ((va <? EXB_VA_MIN) || (va >=? EXB_VA_LIMIT)) EXB_E_SEG;;
  guard ((mem =? 0) || (mem >? EXB_MAX_IMAGE_BYTES)) EXB_E_SEG;;
  let pgs := u64 (mem + EXB_PAGE - 1) / EXB_PAGE in
  let vend := u64 (va + pgs * EXB_PAGE) in
  guard (vend >? EXB_VA_LIMIT) EXB_E_SEG;;
  seg_data foff fsz mem;;
  let total := u64 (total + pgs) in
  guard (total >? EXB_MAX_IMAGE_PAGES) EXB_E_LIMIT;;
  seg_overlaps prev va vend foff fsz;;
  set_out (fun o => set_seg o i (mkSeg va mem pgs foff fsz fl));;
  next (mkSpan va vend foff (foff + fsz), total).

Fixpoint seg_loop (k : nat) (i : Z) (prev : list span) (total : Z) : P Z :=
  match k with
  | O => next total
  | S k' =>
    let* r := seg_step i prev total in
    seg_loop k' (i + 1) (prev ++ [r.1]) r.2
  end.
End Segments.

Definition seg_has_entry (e : Z) (s : ExbSeg) : bool :=
  tst (flags s .& EXB_SEG_X) && (e >=? vaddr s) && (e - vaddr s <? file_size s).

Definition entry_in (e seg_cnt : Z) (o : ExbInfo) : bool :=
  existsb (seg_has_entry e) (take (Z.to_nat seg_cnt) (seg o)).

Definition fail_zero {A} (code : Z) : P A := fun o => Ret code zero_info.
Definition guard_zero (c : bool) (code : Z) : P unit := if c then fail_zero code else next tt.

(** One capability entry; [seen] has a bit per kind already given. *)
Definition cap_step (img : list Z) (cap_off i seen : Z) : P Z :=
  let p := cap_off + i * EXB_CAP_SIZE in
  let* kind := rd_ (le32 img p) in
  let* value := rd_ (le64 img (p + 8)) in
  let* rsv := rd_ (le32 img (p + 4)) in
  guard_zero (negb (rsv =? 0)) EXB_E_CAP;;
  let base := kind .& u32 (Z.lnot EXB_CAP_OPTIONAL) in
  guard_zero (base =? 0) EXB_E_CAP;;
  if base =? EXB_CAP_STACK then
    guard_zero (tst (seen .& 1)) EXB_E_CAP;;
    guard_zero (tst (value mod EXB_PAGE) || (value <? EXB_PAGE) || (value >? EXB_MAX_STACK_PAGES * EXB_PAGE))
      EXB_E_CAP;;
    set_out (fun o => set_stack o (u32 value));;
    next (seen .| 1)
  else if base =? EXB_CAP_HEAP_FRAMES then
    guard_zero (tst (seen .& 2)) EXB_E_CAP;;
    guard_zero (value >? EXB_MAX_HEAP_REQUEST) EXB_E_CAP;;
    set_out (fun o => set_heap o value);;
    next (seen .| 2)
  else if base =? EXB_CAP_TOKENS then
    guard_zero (tst (seen .& 4)) EXB_E_CAP;;
    guard_zero (value >? EXB_MAX_TOKEN_REQUEST) EXB_E_CAP;;
    set_out (fun o => set_tokens o (u32 value));;
    next (seen .| 4)
  else
    guard_zero (negb (tst (kind .& EXB_CAP_OPTIONAL))) EXB_E_CAP;;
    next seen.

Fixpoint cap_loop (img : list Z) (cap_off : Z) (k : nat) (i seen : Z) : P unit :=
  match k with
  | O => next tt
  | S k' => let* seen := cap_step img cap_off i seen in cap_loop img cap_off k' (i + 1) seen
  end.

Definition check_header (img : list Z) (size : Z) : P unit :=
  let* b0 := rd_ (rd img 0) in
  let* b1 := rd_ (rd img 1) in
  let* b2 := rd_ (rd img 2) in
  let* b3 := rd_ (rd img 3) in
  guard (negb (b0 =? 0x7F) || negb (b1 =? 69) || negb (b2 =? 88) || negb (b3 =? 66)) EXB_E_MAGIC;;
  let* b4 := rd_ (rd img 4) in
  let* b5 := rd_ (rd img 5) in
  guard (negb (b4 =? EXB_VERSION) || negb (b5 =? EXB_ENDIAN_LITTLE)) EXB_E_VERSION;;
  let* hs := rd_ (le16 img 6) in
  guard (negb (hs =? EXB_HEADER_SIZE)) EXB_E_HEADER;;
  let* fl := rd_ (le32 img 8) in
  guard (negb (fl =? 0)) EXB_E_HEADER;;
  hdr_zero img 15 49;;
  let* kind := rd_ (rd img 48) in
  guard (negb (kind =? EXB_KIND_USER)) EXB_E_KIND;;
  let* target := rd_ (le32 img 12) in
  guard (negb (target =? EXB_TARGET_AMD64)) EXB_E_TARGET;;
  let* fsize := rd_ (le32 img 24) in
  guard (negb (fsize =? size)) EXB_E_SIZE;;
  let* stored := rd_ (le32 img 28) in
  let* crc := rd_ (exb_crc32_image img size) in
  guard (negb (stored =? crc)) EXB_E_CRC.

(** The end of the capability table. *)
Definition check_caps (size seg_off seg_end cap_off cap_cnt : Z) : P Z :=
  guard (cap_cnt >? EXB_MAX_CAPS) EXB_E_CAP;;
  if cap_cnt =? 0 then
    guard (negb (cap_off =? 0)) EXB_E_CAP;;
    next cap_off
  else
    let cap_end := cap_off + cap_cnt * EXB_CAP_SIZE in
    guard ((cap_off <? EXB_HEADER_SIZE) || (cap_end >? size)) EXB_E_CAP;;
    guard (overlap seg_off seg_end cap_off cap_end) EXB_E_OVERLAP;;
    next cap_end.

Definition parse_impl (image : option (list Z)) (size : Z) : P unit :=
  match image with
  | None => stop EXB_E_SIZE
  | Some img =>
    guard ((size <? EXB_HEADER_SIZE) || (size >? EXB_MAX_FILE)) EXB_E_SIZE;;
    check_header img size;;
    let* ent := rd_ (le64 img 16) in
    let* seg_off := rd_ (le32 img 32) in
    let* seg_cnt := rd_ (le32 img 36) in
    let* cap_off := rd_ (le32 img 40) in
    let* cap_cnt := rd_ (le32 img 44) in
    guard ((seg_cnt <? 1) || (seg_cnt >? EXB_MAX_SEGS)) EXB_E_SEGTAB;;
    let seg_end := seg_off + seg_cnt * EXB_SEG_SIZE in
    guard ((seg_off <? EXB_HEADER_SIZE) || (seg_end >? size)) EXB_E_SEGTAB;;
    let* cap_end := check_caps size seg_off seg_end cap_off cap_cnt in
    let* total := seg_loop img size seg_off seg_end cap_cnt cap_off cap_end (Z.to_nat seg_cnt) 0 [] 0 in
    set_out (fun o => set_sizes o seg_cnt total);;
    (fun o => guard_zero (negb (entry_in ent seg_cnt o)) EXB_E_ENTRY o);;
    set_out (fun o => set_exb_entry o ent);;
    set_out (fun o => set_stack o (u32 (EXB_DEFAULT_STACK_PAGES * EXB_PAGE)));;
    cap_loop img cap_off (Z.to_nat cap_cnt) 0 0
  end.

(** [None] for a read outside the image; otherwise the status and [*out]. *)
Definition exb_parse (image : option (list Z)) (size : Z) (out : ExbInfo) : option (Z * ExbInfo) :=
  match parse_impl image size out with
  | Fault => None
  | Ret c o => Some (c, if negb (c =? EXB_OK) then zero_info else o)
  | Next _ o => Some (EXB_OK, o)
  end.

(** * Reasoning about the validator

    [wp m Q o]: run from [*out = o], [m] does not fault, and either returns a
    negative status or goes on with a value and contents that satisfy [Q]. *)
Definition wp {A} (m : P A) (Q : A -> ExbInfo -> Prop) (o : ExbInfo) : Prop :=
  match m o with Fault => False | Ret c _ => c < 0 | Next a o' => Q a o' end.

Lemma wp_bind {A B} (m : P A) (k : A -> P B) Q o :
  wp m (fun a o' => wp (k a) Q o') o -> wp (bind m k) Q o.
Proof. unfold wp, bind. by destruct (m o). Qed.

Lemma wp_mono {A} (m : P A) (Q Q' : A -> ExbInfo -> Prop) o :
  wp m Q o -> (forall a o', Q a o' -> Q' a o') -> wp m Q' o.
Proof. unfold wp. destruct (m o); auto. Qed.

Lemma wp_guard c code Q o : code < 0 -> (c = false -> Q tt o) -> wp (guard c code) Q o.
Proof. intros Hc H. unfold wp, guard. destruct c; cbn; auto. Qed.

Lemma wp_guard_zero c code Q o : code < 0 -> (c = false -> Q tt o) -> wp (guard_zero c code) Q o.
Proof. intros Hc H. unfold wp, guard_zero. destruct c; cbn; auto. Qed.

Lemma wp_rd {A} (r : option A) a (Q : A -> ExbInfo -> Prop) o : r = Some a -> Q a o -> wp (rd_ r) Q o.
Proof. by intros ->. Qed.

(** ** Reads inside the buffer *)

Lemma rd_in img o : 0 <= o < lenZ img -> rd img o = Some (nthZ img o).
Proof.
  intros H. unfold rd, nthZ. destruct (Z.ltb_spec o 0); [lia|].
  destruct (lookup_lt_is_Some_2 img (Z.to_nat o)) as [b ->]; [lia|done].
Qed.

Lemma le16_in img o : bytes_ok img -> 0 <= o -> o + 2 <= lenZ img -> le16 img o = Some (get16 img o).
Proof.
  intros Hb H1 H2. unfold le16. rewrite !rd_in by lia. cbn.
  pose proof (get16_range img o Hb). unfold get16 in *. by rewrite u16_small.
Qed.

Lemma le32_in img o : 0 <= o -> o + 4 <= lenZ img -> le32 img o = Some (get32 img o).
Proof. intros. unfold le32. by rewrite !rd_in by lia. Qed.

Lemma le64_in img o : 0 <= o -> o + 8 <= lenZ img -> le64 img o = Some (get64 img o).
Proof. intros. unfold le64. by rewrite !le32_in by lia. Qed.

(** The bytes the checksum covers. *)
Definition crc_view (img : list Z) (i : Z) : Z := if (i >=? 28) && (i <? 32) then 0 else nthZ img i.

Lemma crc_loop_in img k i crc :
  0 <= i -> i + Z.of_nat k <= lenZ img ->
  crc_loop img k i crc = Some (fold_left crc_byte (crc_view img <$> seqZ i (Z.of_nat k)) crc).
Proof.
  revert i crc. induction k as [|k IH]; intros i crc Hi Hk; [done|].
  cbn [crc_loop]. rewrite seqZ_cons by lia. cbn [fmap list_fmap fold_left].
  replace (Z.pred (Z.of_nat (S k))) with (Z.of_nat k) by lia. replace (Z.succ i) with (i + 1) by lia.
  unfold crc_view at 2. destruct (_ && _); cbn; [|rewrite rd_in by lia; cbn]; apply IH; lia.
Qed.

Definition crc_value (img : list Z) : Z :=
  u32 (Z.lnot (fold_left crc_byte (crc_view img <$> seqZ 0 (lenZ img)) 0xFFFFFFFF)).

Lemma crc32_in img : exb_crc32_image img (lenZ img) = Some (crc_value img).
Proof. unfold exb_crc32_image. rewrite crc_loop_in by lia. cbn. by rewrite Z2Nat.id by lia. Qed.

(** One step of a proof about the validator. *)
Ltac wstep :=
  match goal with
  | |- wp (bind _ _) _ _ => apply wp_bind
  | |- wp (guard _ _) _ _ => apply wp_guard; [done|intros]
  | |- wp (guard_zero _ _) _ _ => apply wp_guard_zero; [done|intros]
  | |- wp (rd_ (rd _ _)) _ _ => eapply wp_rd; [apply rd_in; lia|]
  | |- wp (rd_ (le16 _ _)) _ _ => eapply wp_rd; [apply le16_in; [done|lia|lia]|]
  | |- wp (rd_ (le32 _ _)) _ _ => eapply wp_rd; [apply le32_in; lia|]
  | |- wp (rd_ (le64 _ _)) _ _ => eapply wp_rd; [apply le64_in; lia|]
  | |- wp (next _) _ _ => cbn [wp next]
  | |- wp (set_out _) _ _ => cbn [wp set_out]
  end.
Ltac wsteps := repeat (cbv beta; wstep).

(** * What an accepted image guarantees *)

(** Entry [i] of the segment table, decoded. *)
Definition seg_entry (img : list Z) (off i : Z) : ExbSeg :=
  let p := off + i * 32 in
  mkSeg (get64 img p) (get64 img (p + 8)) ((get64 img (p + 8) + 4095) / 4096)
    (get32 img (p + 16)) (get32 img (p + 20)) (get32 img (p + 24)).

Definition seg_entries (img : list Z) (off n : Z) : list ExbSeg := seg_entry img off <$> seqZ 0 n.

Definition seg_vend (s : ExbSeg) : Z := vaddr s + pages s * 4096.

Definition apart (a0 a1 b0 b1 : Z) : Prop := a1 <= b0 \/ b1 <= a0.

(** A segment the loader can map: readable, never writable and executable,
    page aligned inside the user range, and with file data inside the image
    and clear of the header and the tables. *)
Record seg_ok (img : list Z) (s : ExbSeg) : Prop := {
  so_flags : 0 <= flags s < 8;
  so_read : Z.testbit (flags s) 0 = true;
  so_wx : Z.testbit (flags s) 1 = true -> Z.testbit (flags s) 2 = false;
  so_align : vaddr s mod 4096 = 0;
  so_lo : EXB_VA_MIN <= vaddr s;
  so_hi : seg_vend s <= EXB_VA_LIMIT;
  so_mem : 0 < mem_size s <= pages s * 4096;
  so_pages : 0 < pages s <= 4096;
  so_fsz : 0 <= file_size s <= mem_size s;
  so_nofile : file_size s = 0 -> file_off s = 0;
  so_file : 0 < file_size s ->
    64 <= file_off s /\ file_off s + file_size s <= lenZ img /\
    apart (file_off s) (file_off s + file_size s) (get32 img 32) (get32 img 32 + get32 img 36 * 32) /\
    apart (file_off s) (file_off s + file_size s) (get32 img 40) (get32 img 40 + get32 img 44 * 16)
}.

(** Two segments share neither an address nor a byte of file data. *)
Definition seg_apart (s t : ExbSeg) : Prop :=
  apart (vaddr s) (seg_vend s) (vaddr t) (seg_vend t) /\
  (0 < file_size s -> 0 < file_size t ->
   apart (file_off s) (file_off s + file_size s) (file_off t) (file_off t + file_size t)).

Definition segs_apart (l : list ExbSeg) : Prop :=
  forall i j s t, l !! i = Some s -> l !! j = Some t -> i <> j -> seg_apart s t.

Definition total_of (l : list ExbSeg) : Z := foldr (fun s n => pages s + n) 0 l.

Record header_ok (img : list Z) : Prop := {
  ho_len : 64 <= lenZ img <= EXB_MAX_FILE;
  ho_magic : nthZ img 0 = 0x7F /\ nthZ img 1 = 69 /\ nthZ img 2 = 88 /\ nthZ img 3 = 66;
  ho_version : nthZ img 4 = 1 /\ nthZ img 5 = 1 /\ get16 img 6 = 64 /\ get32 img 8 = 0;
  ho_reserved : forall i, 49 <= i < 64 -> nthZ img i = 0;
  ho_kind : nthZ img 48 = EXB_KIND_USER;
  ho_target : get32 img 12 = EXB_TARGET_AMD64;
  ho_size : get32 img 24 = lenZ img;
  ho_crc : get32 img 28 = crc_value img
}.

Record exb_valid (img : list Z) (info : ExbInfo) : Prop := {
  ev_header : header_ok img;
  ev_count : seg_count info = get32 img 36 /\ 1 <= seg_count info <= 8;
  ev_segs : take (Z.to_nat (seg_count info)) (seg info) =
            seg_entries img (get32 img 32) (seg_count info);
  ev_seg_ok : Forall (seg_ok img) (seg_entries img (get32 img 32) (seg_count info));
  ev_apart : segs_apart (seg_entries img (get32 img 32) (seg_count info));
  ev_pages : image_pages info = total_of (seg_entries img (get32 img 32) (seg_count info)) /\
             image_pages info <= EXB_MAX_IMAGE_PAGES;
  ev_entry : entry info = get64 img 16 /\
    exists s, s ∈ seg_entries img (get32 img 32) (seg_count info) /\
      Z.testbit (flags s) 2 = true /\ vaddr s <= entry info < vaddr s + file_size s;
  ev_stack : stack_bytes info mod 4096 = 0 /\ 4096 <= stack_bytes info <= 64 * 4096
}.

(** ** Flag tests *)

Lemma overlap_apart a0 a1 b0 b1 : overlap a0 a1 b0 b1 = false -> apart a0 a1 b0 b1.
Proof. unfold overlap, apart. destruct (Z.ltb_spec a0 b1), (Z.ltb_spec b0 a1); cbn; (done || lia). Qed.

(** ** The parts of the validator *)

Lemma wp_hdr_zero img k i (Q : unit -> ExbInfo -> Prop) o :
  0 <= i -> i + Z.of_nat k <= lenZ img ->
  ((forall j, i <= j < i + Z.of_nat k -> nthZ img j = 0) -> Q tt o) -> wp (hdr_zero img k i) Q o.
Proof.
  revert i. induction k as [|k IH]; intros i Hi Hk HQ; cbn [hdr_zero].
  { apply HQ. lia. }
  wsteps. apply IH; [lia|lia|]. intros Hz. apply HQ. intros j Hj.
  destruct (decide (j = i)) as [->|]; [unbool; done|apply Hz; lia].
Qed.

Lemma wp_check_header img (Q : unit -> ExbInfo -> Prop) o :
  bytes_ok img -> 64 <= lenZ img <= EXB_MAX_FILE -> (header_ok img -> Q tt o) ->
  wp (check_header img (lenZ img)) Q o.
Proof.
  intros Hb Hl HQ. unfold check_header. wsteps.
  apply wp_hdr_zero; [lia|lia|]. intros Hres. wsteps.
  eapply wp_rd; [apply crc32_in|]. wsteps. unbool. apply HQ. by split.
Qed.

Lemma wp_check_caps size so se co cc (Q : Z -> ExbInfo -> Prop) o :
  0 <= co -> 0 <= cc ->
  (0 <= cc <= 8 -> (cc = 0 -> co = 0) ->
   (0 < cc -> 64 <= co /\ co + cc * 16 <= size /\ apart so se co (co + cc * 16)) -> Q (co + cc * 16) o) ->
  wp (check_caps size so se co cc) Q o.
Proof.
  intros Ho Hc HQ. unfold check_caps. wsteps. unbool.
  change EXB_MAX_CAPS with 8 in *. change EXB_HEADER_SIZE with 64 in *. change EXB_CAP_SIZE with 16 in *.
  destruct (Z.eqb_spec cc 0) as [->|]; wsteps; unbool.
  - subst co. rewrite Z.mul_0_l, Z.add_0_r in HQ. apply HQ; lia.
  - apply HQ; [lia|lia|]. intros _. split_and!; [done|done|]. by apply overlap_apart.
Qed.

Definition span_of (s : ExbSeg) : span := mkSpan (vaddr s) (seg_vend s) (file_off s) (file_off s + file_size s).

Lemma wp_seg_overlaps l s (Q : unit -> ExbInfo -> Prop) o :
  0 <= file_size s ->
  ((forall t, t ∈ l -> seg_apart s t) -> Q tt o) ->
  wp (seg_overlaps (span_of <$> l) (vaddr s) (seg_vend s) (file_off s) (file_size s)) Q o.
Proof.
  intros Hf. induction l as [|t l IH]; intros HQ; cbn [fmap list_fmap seg_overlaps].
  { apply HQ. by intros t ?%elem_of_nil. }
  cbn [span_of v0 v1 d0 d1]. wsteps. apply IH. intros Hl. apply HQ.
  intros u [->|Hu]%elem_of_cons; [|auto]. split; [by apply overlap_apart|].
  intros Hs Ht. match goal with H : _ && _ = false |- _ => rename H into Hg end.
  unfold tst in Hg. destruct (Z.eqb_spec (file_size s) 0); [lia|].
  rewrite Z.gtb_ltb in Hg. destruct (Z.ltb_spec (file_off t) (file_off t + file_size t)); [|lia].
  by apply overlap_apart.
Qed.

Section SegLoop.
Context (img : list Z) (Hb : bytes_ok img) (Hlen : 64 <= lenZ img <= EXB_MAX_FILE).
Let so := get32 img 32.
Let sc := get32 img 36.
Let co := get32 img 40.
Let cc := get32 img 44.
Context (Hso : 64 <= so) (Hse : so + sc * 32 <= lenZ img) (Hsc : 1 <= sc <= 8).
Context (Hcc : 0 <= cc <= 8) (Hco : cc = 0 -> co = 0).

Lemma wp_seg_data foff fsz mem (Q : unit -> ExbInfo -> Prop) o :
  0 <= foff -> 0 <= fsz ->
  (fsz <= mem -> (fsz = 0 -> foff = 0) ->
   (0 < fsz -> 64 <= foff /\ foff + fsz <= lenZ img /\ apart foff (foff + fsz) so (so + sc * 32) /\
      apart foff (foff + fsz) co (co + cc * 16)) -> Q tt o) ->
  wp (seg_data (lenZ img) so (so + sc * 32) cc co (co + cc * 16) foff fsz mem) Q o.
Proof.
  intros Hf Hz HQ. unfold seg_data. wsteps. change EXB_HEADER_SIZE with 64.
  destruct (Z.eqb_spec fsz 0) as [E|E]; wsteps; unbool; apply HQ; try lia.
  intros _. split_and!; [done|done|by apply overlap_apart|].
  match goal with H : _ && _ = false |- _ => rename H into Hg end.
  unfold tst in Hg. destruct (Z.eqb_spec cc 0) as [E0|]; [|by apply overlap_apart].
  right. rewrite E0, (Hco E0). lia.
Qed.

Lemma seg_bits_ok f :
  0 <= f < 2 ^ 32 ->
  tst (f .& u32 (Z.lnot (EXB_SEG_R .| EXB_SEG_W .| EXB_SEG_X))) = false ->
  negb (tst (f .& EXB_SEG_R)) = false -> tst (f .& EXB_SEG_W) && tst (f .& EXB_SEG_X) = false ->
  0 <= f < 8 /\ Z.testbit f 0 = true /\ (Z.testbit f 1 = true -> Z.testbit f 2 = false).
Proof.
  intros Hf H1 H2 H3. split; [by apply below_8|].
  change EXB_SEG_R with (2 ^ 0) in H2. change EXB_SEG_W with (2 ^ 1) in H3. change EXB_SEG_X with (2 ^ 2) in H3.
  rewrite tst_bit in H2 by lia. rewrite !tst_bit in H3 by lia. unbool. split; [done|].
  intros E. rewrite E in H3. done.
Qed.

(** One accepted round: the entry is well formed, apart from the earlier
    ones, and stored. *)
Lemma wp_seg_step i l (Q : span * Z -> ExbInfo -> Prop) o :
  0 <= i < sc -> 0 <= total_of l <= 4096 ->
  let s := seg_entry img so i in
  (seg_ok img s -> (forall t, t ∈ l -> seg_apart s t) -> total_of l + pages s <= 4096 ->
   Q (span_of s, total_of l + pages s) (set_seg o i s)) ->
  wp (seg_step img (lenZ img) so (so + sc * 32) cc co (co + cc * 16) i (span_of <$> l) (total_of l)) Q o.
Proof.
  intros Hi Ht s HQ. unfold seg_step. change EXB_SEG_SIZE with 32. change EXB_MAX_FILE with 16777216 in Hlen.
  set (p := so + i * 32) in *. assert (64 <= p /\ p + 32 <= lenZ img) as Hp by (unfold p; nia).
  pose proof (get64_range img p Hb) as Rva. pose proof (get64_range img (p + 8) Hb) as Rm.
  pose proof (get32_range img (p + 16) Hb) as Rfo. pose proof (get32_range img (p + 20) Hb) as Rfs.
  pose proof (get32_range img (p + 24) Hb) as Rfl.
  do 26 (cbv beta; wstep).
  match goal with H1 : _ = false, H2 : _ = false, H3 : _ = false |- _ =>
    pose proof (seg_bits_ok _ Rfl H1 H2 H3) as (Bf & B0 & B1); clear H1 H2 H3 end.
  unbool. change EXB_PAGE with 4096 in *. change EXB_MAX_IMAGE_BYTES with 16777216 in *.
  change EXB_VA_MIN with (2 ^ 39) in *. change EXB_VA_LIMIT with (7 * 2 ^ 44) in *.
  change EXB_MAX_IMAGE_PAGES with 4096 in *.
  match goal with H : tst _ = false |- _ => rename H into Hal end.
  unfold tst in Hal. change (4096 - 1) with (2 ^ 12 - 1) in Hal.
  rewrite land_pow2_mod in Hal by lia. unbool.
  set (mem := get64 img (p + 8)) in *. set (va := get64 img p) in *.
  set (foff := get32 img (p + 16)) in *. set (fsz := get32 img (p + 20)) in *.
  replace (u64 (mem + 4096 - 1)) with (mem + 4095) by (rewrite u64_small; lia).
  set (pgs := (mem + 4095) / 4096) in *. assert (0 < pgs <= 4096 /\ mem <= pgs * 4096) as Hpg by (unfold pgs; lia).
  rewrite (u64_small (va + _)), (u64_small (total_of l + pgs)) by lia.
  wsteps. apply wp_seg_data; [lia|lia|]. intros D1 D2 D3. wsteps. unbool.
  change (mkSeg va mem pgs foff fsz (get32 img (p + 24))) with s.
  change (mkSpan va (va + pgs * 4096) foff (foff + fsz)) with (span_of s).
  apply (wp_seg_overlaps l s); [exact (proj1 Rfs)|]. intros Hap. wsteps. apply HQ; [|done|assumption].
  split; cbn [flags vaddr mem_size pages file_off file_size s seg_entry seg_vend];
    fold p va mem foff fsz pgs; try done; unfold EXB_VA_MIN, EXB_VA_LIMIT; lia.
Qed.
(** The table read so far. *)
Let segs (i : Z) : list ExbSeg := seg_entries img so i.

Lemma segs_snoc i : 0 <= i -> segs (i + 1) = segs i ++ [seg_entry img so i].
Proof.
  intros Hi. unfold segs, seg_entries. rewrite seqZ_app, fmap_app by lia.
  rewrite (seqZ_cons (0 + i) 1), (seqZ_nil _ (Z.pred 1)) by lia. done.
Qed.

Lemma length_segs i : 0 <= i -> length (segs i) = Z.to_nat i.
Proof. intros. unfold segs, seg_entries. by rewrite length_fmap, length_seqZ. Qed.

Record loop_inv (i : Z) (o : ExbInfo) : Prop := {
  li_len : length (seg o) = 8%nat;
  li_take : take (Z.to_nat i) (seg o) = segs i;
  li_ok : Forall (seg_ok img) (segs i);
  li_apart : segs_apart (segs i);
  li_total : 0 <= total_of (segs i) <= 4096
}.

Lemma total_of_snoc l s : total_of (l ++ [s]) = total_of l + pages s.
Proof. unfold total_of. induction l; cbn in *; lia. Qed.

Lemma segs_apart_snoc l s :
  segs_apart l -> (forall t, t ∈ l -> seg_apart s t) -> segs_apart (l ++ [s]).
Proof.
  intros Hl Hs i j a b Ha Hb' Hij. rewrite lookup_snoc_Some in Ha, Hb'.
  destruct Ha as [[Hi Ha]|[Hi <-]], Hb' as [[Hj Hb']|[Hj <-]].
  - eauto.
  - destruct (Hs a) as [H1 H2]; [by eapply list_elem_of_lookup_2|]. unfold seg_apart, apart in *.
    split; [lia|]. intros. specialize (H2 ltac:(done) ltac:(done)). lia.
  - apply Hs. by eapply list_elem_of_lookup_2.
  - lia.
Qed.

Lemma loop_inv_step i o :
  0 <= i < sc -> loop_inv i o -> seg_ok img (seg_entry img so i) ->
  (forall t, t ∈ segs i -> seg_apart (seg_entry img so i) t) ->
  total_of (segs i) + pages (seg_entry img so i) <= 4096 ->
  loop_inv (i + 1) (set_seg o i (seg_entry img so i)).
Proof.
  intros Hi [H1 H2 H3 H4 H5] Hok Hap Ht. pose proof (so_pages _ _ Hok) as Hpg.
  split; rewrite ?segs_snoc, ?total_of_snoc by lia.
  - cbn [set_seg seg]. by rewrite length_insert.
  - cbn [set_seg seg]. replace (Z.to_nat (i + 1)) with (S (Z.to_nat i)) by lia.
    rewrite (take_S_r _ _ (seg_entry img so i)).
    + rewrite take_insert_ge by lia. by rewrite H2.
    + apply list_lookup_insert_eq. lia.
  - apply Forall_app. auto.
  - by apply segs_apart_snoc.
  - lia.
Qed.

Lemma wp_seg_loop k i o (Q : Z -> ExbInfo -> Prop) :
  0 <= i -> i + Z.of_nat k = sc -> loop_inv i o ->
  (forall o', loop_inv sc o' -> heap_frames o' = heap_frames o -> extra_tokens o' = extra_tokens o ->
     Q (total_of (segs sc)) o') ->
  wp (seg_loop img (lenZ img) so (so + sc * 32) cc co (co + cc * 16) k i (span_of <$> segs i)
        (total_of (segs i))) Q o.
Proof.
  revert i o. induction k as [|k IH]; intros i o Hi Hk Hinv HQ; cbn [seg_loop].
  { assert (i = sc) as -> by lia. by apply HQ. }
  wstep. pose proof Hinv as [_ _ _ _ Ht]. apply wp_seg_step; [lia|done|].
  intros Hok Hap Hle. cbn [fst snd].
  replace ((span_of <$> segs i) ++ [span_of (seg_entry img so i)]) with (span_of <$> segs (i + 1))
    by (rewrite segs_snoc, fmap_app by lia; done).
  rewrite <- total_of_snoc, <- segs_snoc by lia. apply IH; [lia|lia|by apply loop_inv_step; try lia|done].
Qed.
End SegLoop.

(** A capability entry changes only the three resource fields, within their bounds. *)
Definition caps_inv (o0 o : ExbInfo) : Prop :=
  entry o = entry o0 /\ seg_count o = seg_count o0 /\ seg o = seg o0 /\ image_pages o = image_pages o0 /\
  stack_bytes o mod 4096 = 0 /\ 4096 <= stack_bytes o <= 64 * 4096.

Lemma wp_cap_step img co i seen o0 o (Q : Z -> ExbInfo -> Prop) :
  bytes_ok img -> 0 <= co -> 0 <= i -> co + i * 16 + 16 <= lenZ img -> caps_inv o0 o ->
  (forall seen' o', caps_inv o0 o' -> Q seen' o') -> wp (cap_step img co i seen) Q o.
Proof.
  intros Hb Hco Hi Hl Hinv HQ. unfold cap_step. change EXB_CAP_SIZE with 16. wsteps.
  pose proof (get64_range img (co + i * 16 + 8) Hb) as Hr.
  destruct Hinv as (? & ? & ? & ? & ? & ?).
  destruct (_ =? EXB_CAP_STACK); [|destruct (_ =? EXB_CAP_HEAP_FRAMES); [|destruct (_ =? EXB_CAP_TOKENS)]].
  - wsteps. apply HQ. unbool. unfold tst in *. unbool.
    change EXB_PAGE with 4096 in *. change EXB_MAX_STACK_PAGES with 64 in *.
    unfold caps_inv. cbn [set_stack entry seg_count seg image_pages stack_bytes].
    rewrite u32_small by lia. auto 10.
  - wsteps. apply HQ. unfold caps_inv. auto 10.
  - wsteps. apply HQ. unfold caps_inv. auto 10.
  - wsteps. apply HQ. unfold caps_inv. auto 10.
Qed.

Lemma wp_cap_loop img co k i seen o0 o (Q : unit -> ExbInfo -> Prop) :
  bytes_ok img -> 0 <= co -> 0 <= i -> (k = 0%nat \/ co + (i + Z.of_nat k) * 16 <= lenZ img) -> caps_inv o0 o ->
  (forall o', caps_inv o0 o' -> Q tt o') -> wp (cap_loop img co k i seen) Q o.
Proof.
  intros Hb Hco. revert i seen o. induction k as [|k IH]; intros i seen o Hi Hl Hinv HQ; cbn [cap_loop].
  { by apply HQ. }
  wstep. apply (wp_cap_step img co i seen o0); [done|lia|lia|lia|done|].
  intros seen' o' Hinv'. apply IH; [lia|lia|done|done].
Qed.

Lemma wp_parse img o :
  bytes_ok img -> length (seg o) = 8%nat ->
  wp (parse_impl (Some img) (lenZ img)) (fun _ info => exb_valid img info) o.
Proof.
  intros Hb Hso8. unfold parse_impl. wsteps. unbool.
  change EXB_HEADER_SIZE with 64 in *. change EXB_MAX_SEGS with 8 in *. change EXB_SEG_SIZE with 32 in *.
  apply wp_check_header; [done|lia|]. intros Hh. wsteps. unbool.
  pose proof (get32_range img 40 Hb). pose proof (get32_range img 44 Hb).
  apply wp_check_caps; [lia|lia|]. intros Hcc Hc0 Hcap. wsteps.
  set (sc := get32 img 36) in *. set (so := get32 img 32) in *.
  apply (wp_seg_loop img Hb) with (k := Z.to_nat sc) (i := 0); [done|done|done|lia|done|lia|lia| |].
  { by split. }
  intros o1 [L1 L2 L3 L4 L5] _ _. fold sc so in L2, L3, L4, L5. wsteps.
  unfold wp at 1. match goal with |- match guard_zero ?c _ _ with _ => _ end => destruct c eqn:Hent end;
    cbn [guard_zero fail_zero next]; [done|]. wsteps.
  set (o2 := set_stack _ _).
  apply (wp_cap_loop img _ _ 0 0 o2); [done|lia|lia|lia| |].
  { unfold caps_inv, o2. split_and!; try done. }
  intros info (E1 & E2 & E3 & E4 & E5 & E6).
  cbn [o2 set_stack set_exb_entry set_sizes entry seg_count seg image_pages] in E1, E2, E3, E4.
  split; rewrite ?E1, ?E2, ?E3, ?E4; [done|done|done|done|done| | |done].
  - split; [done|apply L5].
  - split; [done|]. unbool. unfold entry_in in Hent. cbn [set_sizes seg] in Hent. rewrite L2 in Hent.
    apply existsb_exists in Hent as (s & Hin & Hs). exists s.
    split; [by apply list_elem_of_In|]. unfold seg_has_entry in Hs. change EXB_SEG_X with (2 ^ 2) in Hs.
    rewrite tst_bit in Hs by lia. unbool. split; [done|]. lia.
Qed.

(** * The checksum

    The table-driven loop computes the CRC-32 of the reflected polynomial
    0xEDB88320, one bit at a time here. *)

Definition crc_bit (c : Z) : Z := (c .>> 1) .^ (if Z.testbit c 0 then 0xEDB88320 else 0).

Definition crc_bits (n : nat) (c : Z) : Z := Nat.iter n crc_bit c.

Definition crc_byte_ref (c b : Z) : Z := crc_bits 8 (c .^ b).

Definition crc32_ref (bytes : list Z) : Z := u32 (Z.lnot (fold_left crc_byte_ref bytes 0xFFFFFFFF)).

Lemma crc_bit_xor a b : crc_bit (a .^ b) = crc_bit a .^ crc_bit b.
Proof.
  unfold crc_bit. rewrite Z.shiftr_lxor, Z.lxor_spec.
  destruct (Z.testbit a 0), (Z.testbit b 0); cbn [xorb]; rewrite ?Z.lxor_0_r.
  - zbits. by destruct (Z.testbit a _), (Z.testbit b _), (Z.testbit 3988292384 _).
  - zbits. by destruct (Z.testbit a _), (Z.testbit b _), (Z.testbit 3988292384 _).
  - zbits. by destruct (Z.testbit a _), (Z.testbit b _), (Z.testbit 3988292384 _).
  - done.
Qed.

Lemma crc_bits_xor n a b : crc_bits n (a .^ b) = crc_bits n a .^ crc_bits n b.
Proof.
  induction n as [|n IH]; [done|].
  change (crc_bit (crc_bits n (a .^ b)) = crc_bit (crc_bits n a) .^ crc_bit (crc_bits n b)).
  by rewrite IH, crc_bit_xor.
Qed.

Lemma crc_bits_add n m c : crc_bits (n + m) c = crc_bits n (crc_bits m c).
Proof. apply Nat.iter_add. Qed.

Lemma crc_bit_shift x : crc_bit (x .<< 1) = x.
Proof.
  unfold crc_bit. rewrite Z.shiftl_spec, Z.testbit_neg_r, Z.lxor_0_r by lia.
  rewrite Z.shiftr_shiftl_l by lia. apply Z.shiftl_0_r.
Qed.

Lemma crc_bits_shift n x : crc_bits n (x .<< Z.of_nat n) = x.
Proof.
  revert x. induction n as [|n IH]; intros x; [apply Z.shiftl_0_r|].
  replace (S n) with (n + 1)%nat by lia. rewrite crc_bits_add.
  replace (Z.of_nat (n + 1)) with (Z.of_nat n + 1) by lia. rewrite <- Z.shiftl_shiftl by lia.
  change (crc_bits 1) with crc_bit. by rewrite crc_bit_shift.
Qed.

(** Four single-bit steps are one table step: the sixteen low nibbles are
    checked one by one, the rest is linear. *)
Lemma crc_nibble_bits c : crc_nibble c = crc_bits 4 c.
Proof.
  assert (c = ((c .>> 4) .<< 4) .^ (c .& 15)) as E.
  { apply Z.bits_inj'. intros i Hi. change 15 with (2 ^ 4 - 1). rewrite land_pow2_mod by lia.
    rewrite Z.lxor_spec, Z.shiftl_spec by lia. destruct (Z.ltb_spec i 4).
    - rewrite (Z.testbit_neg_r (c .>> 4)), Z.mod_pow2_bits_low by lia. by destruct (Z.testbit c i).
    - rewrite Z.shiftr_spec, Z.mod_pow2_bits_high by lia. replace (i - 4 + 4) with i by lia.
      by destruct (Z.testbit c i). }
  rewrite E at 2. rewrite crc_bits_xor. change 4 with (Z.of_nat 4) at 2. rewrite crc_bits_shift.
  unfold crc_nibble. f_equal. change 15 with (2 ^ 4 - 1). rewrite land_pow2_mod by lia.
  pose proof (Z.mod_pos_bound c (2 ^ 4) ltac:(lia)) as Hr. generalize dependent (c mod 2 ^ 4). clear E.
  change (2 ^ 4) with 16. intros n Hr.
  assert (forallb (fun n => nthZ crc_tab n =? crc_bits 4 n) (seqZ 0 16) = true) as Hall by (vm_compute; reflexivity).
  rewrite forallb_forall in Hall. apply Z.eqb_eq, Hall, list_elem_of_In, elem_of_seqZ. lia.
Qed.

Lemma crc_byte_bits c b : crc_byte c b = crc_bits 8 (c .^ b).
Proof. unfold crc_byte. rewrite !crc_nibble_bits. by rewrite <- crc_bits_add. Qed.

Lemma crc_fold_ref l c :
  fold_left crc_byte l c = fold_left crc_byte_ref l c.
Proof. apply fold_left_same, crc_byte_bits. Qed.

Lemma crc_bit_range c : 0 <= c < 2 ^ 32 -> 0 <= crc_bit c < 2 ^ 32.
Proof.
  intros Hc. unfold crc_bit. apply lxor_bound; [lia| |destruct (Z.testbit c 0); lia].
  rewrite shiftr_div by lia. lia.
Qed.

Lemma crc_bits_range n c : 0 <= c < 2 ^ 32 -> 0 <= crc_bits n c < 2 ^ 32.
Proof. intros Hc. induction n as [|n IH]; [done|]. by apply crc_bit_range. Qed.

(** The top bit of the result tells which branch was taken, so no two states
    step to the same one. *)
Lemma crc_bit_inj a b : 0 <= a < 2 ^ 32 -> 0 <= b < 2 ^ 32 -> crc_bit a = crc_bit b -> a = b.
Proof.
  intros Ha Hb H.
  assert (forall c, 0 <= c < 2 ^ 32 -> Z.testbit (crc_bit c) 31 = Z.testbit c 0) as Htop.
  { intros c Hc. unfold crc_bit. rewrite Z.lxor_spec, Z.shiftr_spec, (testbit_high c 32) by lia.
    by destruct (Z.testbit c 0). }
  assert (Z.testbit a 0 = Z.testbit b 0) as E by (rewrite <- !Htop by done; by rewrite H).
  unfold crc_bit in H. rewrite E in H.
  assert (a .>> 1 = b .>> 1) as Es.
  { apply (f_equal (fun z => z .^ (if Z.testbit b 0 then 0xEDB88320 else 0))) in H.
    rewrite !Z.lxor_assoc, Z.lxor_nilpotent, !Z.lxor_0_r in H. done. }
  apply Z.bits_inj'. intros i Hi. destruct (decide (i = 0)) as [->|]; [done|].
  replace i with (i - 1 + 1) by lia. rewrite <- !Z.shiftr_spec by lia. by rewrite Es.
Qed.

Lemma crc_bits_inj n a b :
  0 <= a < 2 ^ 32 -> 0 <= b < 2 ^ 32 -> crc_bits n a = crc_bits n b -> a = b.
Proof.
  intros Ha Hb. induction n as [|n IH]; [done|]. intros H. apply IH.
  by apply crc_bit_inj; [by apply crc_bits_range|by apply crc_bits_range|].
Qed.

(** ** Bursts *)

(** A run of bytes enters the state as one little-endian word. *)
Fixpoint leword (w : list Z) : Z :=
  match w with [] => 0 | b :: r => b .^ (leword r .<< 8) end.

Lemma crc_run w c :
  fold_left crc_byte w c = crc_bits (8 * length w) (c .^ leword w).
Proof.
  revert c. induction w as [|b w IH]; intros c; cbn [fold_left leword length].
  { by rewrite Z.lxor_0_r. }
  rewrite IH, crc_byte_bits. replace (8 * S (length w))%nat with (8 * length w + 8)%nat by lia.
  rewrite crc_bits_add. f_equal. rewrite <- Z.lxor_assoc, (crc_bits_xor 8 _ (leword w .<< 8)).
  f_equal. symmetry. apply (crc_bits_shift 8).
Qed.

Lemma leword_range w : bytes_ok w -> 0 <= leword w < 2 ^ (8 * lenZ w).
Proof.
  induction 1 as [|b w Hb _ IH]; [cbn; lia|]. cbn [leword length].
  replace (8 * Z.of_nat (S (length w))) with (8 * lenZ w + 8) by lia.
  apply lxor_bound; [lia| |]; rewrite Z.pow_add_r by lia; change (2 ^ 8) with 256; [nia|].
  rewrite shiftl_mul by lia. change (2 ^ 8) with 256. nia.
Qed.

Lemma leword_inj w w' :
  bytes_ok w -> bytes_ok w' -> length w = length w' -> leword w = leword w' -> w = w'.
Proof.
  intros Hw. revert w'. induction Hw as [|b w Hb Hw IH]; intros [|b' w'] Hw' Hl H; try done.
  apply Forall_cons in Hw' as [Hb' Hw']. cbn [leword length] in *.
  assert (forall x y, 0 <= x < 256 -> (x .^ (y .<< 8)) mod 2 ^ 8 = x /\ (x .^ (y .<< 8)) .>> 8 = y) as Hsplit.
  { intros x y Hx. split; apply Z.bits_inj'; intros i Hi.
    - destruct (Z.ltb_spec i 8).
      + rewrite Z.mod_pow2_bits_low, Z.lxor_spec, Z.shiftl_spec, (Z.testbit_neg_r y) by lia.
        by destruct (Z.testbit x i).
      + rewrite Z.mod_pow2_bits_high by lia. symmetry. apply (testbit_high x 8); lia.
    - rewrite Z.shiftr_spec, Z.lxor_spec, Z.shiftl_spec, (testbit_high x 8) by lia.
      replace (i + 8 - 8) with i by lia. by destruct (Z.testbit y i). }
  destruct (Hsplit b (leword w) Hb) as [E1 E2], (Hsplit b' (leword w') Hb') as [E1' E2'].
  f_equal; [congruence|]. apply IH; [done|lia|congruence].
Qed.

Lemma crc_fold_range w c : bytes_ok w -> 0 <= c < 2 ^ 32 -> 0 <= fold_left crc_byte w c < 2 ^ 32.
Proof.
  intros Hw. revert c. induction Hw as [|b w Hb _ IH]; intros c Hc; [done|]. cbn. apply IH.
  rewrite crc_byte_bits. apply crc_bits_range, lxor_bound; lia.
Qed.

Lemma crc_fold_inj w c c' :
  bytes_ok w -> 0 <= c < 2 ^ 32 -> 0 <= c' < 2 ^ 32 ->
  fold_left crc_byte w c = fold_left crc_byte w c' -> c = c'.
Proof.
  intros Hw. revert c c'. induction Hw as [|b w Hb _ IH]; intros c c' Hc Hc' H; [done|]. cbn in H.
  assert (forall x, 0 <= x < 2 ^ 32 -> 0 <= x .^ b < 2 ^ 32) as Hx by (intros; apply lxor_bound; lia).
  rewrite !crc_byte_bits in H. apply IH in H; [|by apply crc_bits_range, Hx..].
  apply crc_bits_inj in H; [|by apply Hx..].
  apply (f_equal (fun z => z .^ b)) in H. by rewrite !Z.lxor_assoc, Z.lxor_nilpotent, !Z.lxor_0_r in H.
Qed.

(** Two runs of at most four bytes from the same state. *)
Lemma crc_burst_inj w w' c :
  bytes_ok w -> bytes_ok w' -> length w = length w' -> (length w <= 4)%nat -> 0 <= c < 2 ^ 32 ->
  fold_left crc_byte w c = fold_left crc_byte w' c -> w = w'.
Proof.
  intros Hw Hw' Hl H4 Hc H. rewrite !crc_run, <- Hl in H.
  pose proof (leword_range w Hw) as R. pose proof (leword_range w' Hw') as R'. rewrite <- Hl in R'.
  assert (2 ^ (8 * lenZ w) <= 2 ^ 32) by (apply Z.pow_le_mono_r; lia).
  apply crc_bits_inj in H; [|apply lxor_bound; lia..].
  apply leword_inj; [done|done|done|].
  apply (f_equal (fun z => c .^ z)) in H. by rewrite <- !Z.lxor_assoc, Z.lxor_nilpotent, !Z.lxor_0_l in H.
Qed.

Lemma crc_view_byte img i : bytes_ok img -> 0 <= crc_view img i < 256.
Proof. intros H. unfold crc_view. destruct (_ && _); [lia|]. by apply nthZ_range. Qed.

Lemma crc_view_ok img l : bytes_ok img -> bytes_ok (crc_view img <$> l).
Proof. intros H. apply Forall_fmap, Forall_forall. intros i _. by apply crc_view_byte. Qed.

Lemma crc_burst_differs img img' a :
  bytes_ok img -> bytes_ok img' -> length img = length img' ->
  0 <= a -> a + 4 <= lenZ img -> a + 4 <= 28 \/ 32 <= a ->
  (forall i, 0 <= i < a \/ a + 4 <= i -> nthZ img i = nthZ img' i) ->
  crc_value img = crc_value img' -> forall i, 0 <= i -> nthZ img i = nthZ img' i.
Proof.
  intros Hb Hb' Hl Ha Hle Hw Hout Hcrc. unfold crc_value in Hcrc. rewrite <- Hl in Hcrc.
  replace (lenZ img) with (a + (4 + (lenZ img - a - 4))) in Hcrc by lia.
  rewrite !seqZ_app, !fmap_app, !fold_left_app in Hcrc by lia. rewrite Z.add_0_l in Hcrc.
  assert (forall l : list Z, (forall i, i ∈ l -> 0 <= i < a \/ a + 4 <= i) -> crc_view img <$> l = crc_view img' <$> l) as Hsame.
  { intros l Hin. apply list_fmap_ext. intros j i Hi. unfold crc_view. destruct (_ && _); [done|].
    apply Hout, Hin. by eapply list_elem_of_lookup_2. }
  rewrite (Hsame (seqZ 0 a)), (Hsame (seqZ (a + 4) _)) in Hcrc
    by (intros i Hi%elem_of_seqZ; lia).
  assert (forall x y, 0 <= x < 2 ^ 32 -> 0 <= y < 2 ^ 32 -> u32 (Z.lnot x) = u32 (Z.lnot y) -> x = y) as Hnot.
  { unfold u32, Z.lnot. intros x y Hx Hy E. lia. }
  set (c := fold_left crc_byte (crc_view img' <$> seqZ 0 a) 0xFFFFFFFF) in *.
  assert (0 <= c < 2 ^ 32) as Hc by (apply crc_fold_range; [by apply crc_view_ok|lia]).
  apply Hnot in Hcrc; [|repeat (apply crc_fold_range; [by apply crc_view_ok|]); done..].
  apply crc_fold_inj in Hcrc; [|by apply crc_view_ok|apply crc_fold_range; [by apply crc_view_ok|done]..].
  apply crc_burst_inj in Hcrc; [|by apply crc_view_ok|by apply crc_view_ok|by rewrite !length_fmap| |done].
  2: { rewrite length_fmap, length_seqZ. lia. }
  intros i Hi. destruct (decide (a <= i < a + 4)) as [Hin|]; [|apply Hout; lia].
  assert (crc_view img i = crc_view img' i) as Hv.
  { apply (f_equal (fun l => l !! Z.to_nat (i - a))) in Hcrc. rewrite !list_lookup_fmap in Hcrc.
    rewrite (lookup_seqZ_lt a 4) in Hcrc by lia. cbn in Hcrc. injection Hcrc as Hcrc.
    by replace (a + Z.of_nat (Z.to_nat (i - a))) with i in Hcrc by lia. }
  unfold crc_view in Hv. rewrite Z.geb_leb in Hv.
  destruct (Z.leb_spec 28 i), (Z.ltb_spec i 32); cbn [andb] in Hv; (done || lia).
Qed.

(** * Without a capability table *)

Lemma wp_parse_nocaps img o :
  bytes_ok img -> length (seg o) = 8%nat -> get32 img 44 = 0 ->
  wp (parse_impl (Some img) (lenZ img))
    (fun _ info => heap_frames info = heap_frames o /\ extra_tokens info = extra_tokens o) o.
Proof.
  intros Hb Hso8 H0. unfold parse_impl. wsteps. unbool.
  change EXB_HEADER_SIZE with 64 in *. change EXB_MAX_SEGS with 8 in *. change EXB_SEG_SIZE with 32 in *.
  apply wp_check_header; [done|lia|]. intros Hh. wsteps. unbool.
  pose proof (get32_range img 40 Hb).
  apply wp_check_caps; [lia|lia|]. intros Hcc Hc0 Hcap. wsteps.
  apply (wp_seg_loop img Hb) with (k := Z.to_nat (get32 img 36)) (i := 0); [done|done|done|lia|done|lia|lia| |].
  { by split. }
  intros o1 _ Eh Et. wsteps.
  unfold wp at 1. match goal with |- match guard_zero ?c _ _ with _ => _ end => destruct c end;
    cbn [guard_zero fail_zero next]; [done|]. wsteps. rewrite H0. done.
Qed.

Lemma parse_of_wp img o Q :
  wp (parse_impl (Some img) (lenZ img)) Q o ->
  exists rc info, exb_parse (Some img) (lenZ img) o = Some (rc, info) /\
    ((rc = EXB_OK /\ Q tt info) \/ (rc < 0 /\ info = zero_info)).
Proof.
  unfold wp, exb_parse. destruct (parse_impl _ _ o) as [|c o'|[] o']; [done| |]; intros H.
  - exists c. rewrite (proj2 (Z.eqb_neq c EXB_OK)) by (unfold EXB_OK; lia). eauto.
  - eauto 10.
Qed.

(** * Properties *)


(** The half-byte table loop of [exb_crc32_image] computes the CRC-32
    with reflected polynomial 0xEDB88320, one bit at a time, of the image
    with its checksum field read as zero. *)
Theorem exb_crc32_is_crc32 img :
  exb_crc32_image img (lenZ img) = Some (crc32_ref (crc_view img <$> seqZ 0 (lenZ img))).
Proof. rewrite crc32_in. unfold crc_value, crc32_ref. by rewrite crc_fold_ref. Qed.

(** Corruption is rejected. If an image is accepted, then no image that
    differs from it only within four consecutive bytes outside the checksum
    field is accepted. *)
Theorem exb_burst_rejected img img' out out' info a :
  bytes_ok img -> bytes_ok img' -> length img = length img' ->
  length (seg out) = 8%nat -> length (seg out') = 8%nat ->
  0 <= a -> a + 4 <= lenZ img -> a + 4 <= 28 \/ 32 <= a ->
  (forall i, 0 <= i < a \/ a + 4 <= i -> nthZ img i = nthZ img' i) -> img <> img' ->
  exb_parse (Some img) (lenZ img) out = Some (EXB_OK, info) ->
  exists rc, exb_parse (Some img') (lenZ img') out' = Some (rc, zero_info) /\ rc < 0.
Proof.
  intros Hb Hb' Hl Ho Ho' Ha Hle Hw Hout Hne Hok.
  destruct (parse_of_wp img out _ (wp_parse img out Hb Ho)) as (rc & i1 & E1 & [[-> V1]|[Hneg ->]]);
    [|rewrite E1 in Hok; injection Hok as -> _; done].
  destruct (parse_of_wp img' out' _ (wp_parse img' out' Hb' Ho')) as (rc & i2 & E2 & [[-> V2]|[Hneg ->]]);
    [|by exists rc].
  exfalso. pose proof (ho_crc img (ev_header _ _ V1)) as C1. pose proof (ho_crc img' (ev_header _ _ V2)) as C2.
  assert (get32 img 28 = get32 img' 28) as E by (apply get32_ext; intros; apply Hout; lia).
  assert (crc_value img = crc_value img') as Ec by congruence.
  pose proof (crc_burst_differs img img' a Hb Hb' Hl Ha Hle Hw Hout Ec) as Hall. apply Hne.
  apply (list_eq_same_length _ _ (length img)); [done|done|]. intros i x y Hi Hx Hy.
  specialize (Hall (Z.of_nat i) ltac:(lia)). unfold nthZ in Hall. rewrite Nat2Z.id, Hx, Hy in Hall. done.
Qed.

(** C37: An accepted image without a capability table leaves
    [out->heap_frames] and [out->extra_tokens] as the caller had them: the
    validator stores them only when the image carries the entry. The loader
    passes an uninitialised [ExbInfo] and copies [extra_tokens] into its
    result, so the value it reports for such an image is unrelated to it. *)
Theorem exb_parse_keeps_stale_requests img out info :
  bytes_ok img -> length (seg out) = 8%nat -> get32 img 44 = 0 ->
  exb_parse (Some img) (lenZ img) out = Some (EXB_OK, info) ->
  heap_frames info = heap_frames out /\ extra_tokens info = extra_tokens out.
Proof.
  intros Hb Hl H0 Hok.
  destruct (parse_of_wp img out _ (wp_parse_nocaps img out Hb Hl H0)) as (rc & i & E & [[-> H]|[Hneg ->]]);
    rewrite E in Hok; simplify_eq; done.
Qed.

(** * Witnesses *)

(** A one-segment program: four bytes of code at the bottom of the user range. *)
Definition demo_exb0 : list Z :=
  [0x7F; 69; 88; 66; 1; 1; 64; 0] ++ [0; 0; 0; 0] ++ [1; 0; 0; 0] ++ [0; 0; 0; 0; 0x80; 0; 0; 0] ++
  [100; 0; 0; 0] ++ [0; 0; 0; 0] ++ [64; 0; 0; 0] ++ [1; 0; 0; 0] ++ replicate 24 0 ++
  [0; 0; 0; 0; 0x80; 0; 0; 0] ++ [16; 0; 0; 0; 0; 0; 0; 0] ++ [96; 0; 0; 0] ++ [4; 0; 0; 0] ++
  [5; 0; 0; 0] ++ [0; 0; 0; 0] ++ [0x90; 0x90; 0x0F; 0x05].

Definition demo_exb : list Z := Eval vm_compute in put32 demo_exb0 28 (crc_value demo_exb0).

(** The contents of an uninitialised local. *)
Definition demo_out : ExbInfo := mkInfo 7 7 (replicate 8 (mkSeg 7 7 7 7 7 7)) 7 7 7 7.

Lemma demo_exb_bytes : bytes_ok demo_exb.
Proof. repeat constructor; lia. Qed.


Lemma exb_burst_rejected_witness :
  exists rc, exb_parse (Some (setZ demo_exb 97 0x91)) 100 demo_out = Some (rc, zero_info) /\ rc < 0.
Proof.
  refine (exb_burst_rejected demo_exb (setZ demo_exb 97 0x91) demo_out demo_out _ 96
    demo_exb_bytes _ eq_refl eq_refl eq_refl _ _ _ _ _ _).
  - repeat constructor; lia.
  - lia.
  - vm_compute. discriminate.
  - lia.
  - intros i Hi. symmetry. apply nthZ_setZ_ne; lia.
  - discriminate.
  - vm_compute. reflexivity.
Defined.

Lemma exb_parse_keeps_stale_requests_witness :
  exists info, exb_parse (Some demo_exb) 100 demo_out = Some (EXB_OK, info) /\ extra_tokens info = 7.
Proof.
  eexists. split; [vm_compute; reflexivity|].
  refine (proj2 (exb_parse_keeps_stale_requests demo_exb demo_out _ demo_exb_bytes eq_refl _ _));
    vm_compute; reflexivity.
Defined.
