(* ===== verification/Sys.v ===== *)
(** Resource system calls and process teardown: model of
    [source/arch/amd64/kernel/xeret/sys.c], with the saved frame of
    [xframe.h] and the codes of [xproc.h]. *)

From S2P Require Import Prelude.
From S2P Require Import Physical.
From S2P Require Import Ledger.
From S2P Require Import Paging.
From S2P Require Import PageTree.
From S2P Require Import Aspace.

#[local] Ltac Zify.zify_post_hook ::= Z.div_mod_to_equations.

(** * Data *)

Record ExcFrame := mkFrame {
  f_r15 : Z; f_r14 : Z; f_r13 : Z; f_r12 : Z; f_r11 : Z; f_r10 : Z; f_r9 : Z; f_r8 : Z;
  f_rbp : Z; f_rdi : Z; f_rsi : Z; f_rdx : Z; f_rcx : Z; f_rbx : Z; f_rax : Z;
  f_vector : Z; f_error : Z;
  f_rip : Z; f_cs : Z; f_rflags : Z; f_rsp : Z; f_ss : Z
}.

Definition set_rax (f : ExcFrame) (v : Z) : ExcFrame :=
  mkFrame (f_r15 f) (f_r14 f) (f_r13 f) (f_r12 f) (f_r11 f) (f_r10 f) (f_r9 f) (f_r8 f)
    (f_rbp f) (f_rdi f) (f_rsi f) (f_rdx f) (f_rcx f) (f_rbx f) v
    (f_vector f) (f_error f) (f_rip f) (f_cs f) (f_rflags f) (f_rsp f) (f_ss f).
Definition set_rdx (f : ExcFrame) (v : Z) : ExcFrame :=
  mkFrame (f_r15 f) (f_r14 f) (f_r13 f) (f_r12 f) (f_r11 f) (f_r10 f) (f_r9 f) (f_r8 f)
    (f_rbp f) (f_rdi f) (f_rsi f) v (f_rcx f) (f_rbx f) (f_rax f)
    (f_vector f) (f_error f) (f_rip f) (f_cs f) (f_rflags f) (f_rsp f) (f_ss f).

Definition XSYS_EXIT : Z := 1.
Definition XSYS_LOG : Z := 2.
Definition XSYS_YIELD : Z := 3.
Definition XSYS_ALLOC : Z := 4.
Definition XSYS_MAP : Z := 5.
Definition XSYS_UNMAP : Z := 6.
Definition XSYS_FREE : Z := 7.
Definition XSYS_INFO : Z := 8.
Definition XINFO_FRAMES_USED : Z := 0.
Definition XINFO_FRAMES_LIMIT : Z := 1.
Definition XINFO_TOKENS_USED : Z := 2.
Definition XINFO_TOKENS_LIMIT : Z := 3.
Definition XSYS_USER_RIGHTS : Z :=
  XTOK_RIGHT_READ .| XTOK_RIGHT_WRITE .| XTOK_RIGHT_EXECUTE .| XTOK_RIGHT_MAP .| XTOK_RIGHT_RELEASE.
Definition XERR_NOSYS : Z := -1.
Definition XERR_INVAL : Z := -2.
Definition XERR_NOMEM : Z := -3.
Definition XERR_BADTOKEN : Z := -4.
Definition XERR_PERM : Z := -5.
Definition XERR_BUSY : Z := -6.
Definition XERR_RANGE : Z := -7.
Definition XERR_NOMAP : Z := -8.

Definition XOWNER_MAX : Z := 64.

Record Quota := mkQuota { q_frames : Z; q_tokens : Z; q_set : bool }.

Record SysState := mkSys { s_k : KState; g_quota : list Quota }.

Definition g_def_frames : Z := 2048.
Definition g_def_tokens : Z := 256.

Definition set_sk (s : SysState) (ks : KState) : SysState := mkSys ks (g_quota s).

(** * Quotas *)

Definition xproc_set_quota (owner max_frames max_tokens : Z) (s : SysState) : Z * SysState :=
  if (owner =? XTOK_OWNER_KERNEL) || (owner >=? XOWNER_MAX) then (-1, s)
  else (0, mkSys (s_k s) (<[Z.to_nat owner := mkQuota max_frames max_tokens true]> (g_quota s))).

Definition quota_of (owner : Z) (s : SysState) : Z * Z :=
  if owner <? XOWNER_MAX then
    match g_quota s !! Z.to_nat owner with
    | Some q => if q_set q then (q_frames q, q_tokens q) else (g_def_frames, g_def_tokens)
    | None => (g_def_frames, g_def_tokens)
    end
  else (g_def_frames, g_def_tokens).

Definition xproc_quota_get (owner : Z) (s : SysState) : Z * Z := quota_of owner s.

(** * System calls *)

Definition ret (f : ExcFrame) (code : Z) : ExcFrame := set_rax f (u64 code).

Definition map_xas_err (rc : Z) : Z :=
  if rc =? XAS_OK then 0 else
  if rc =? XAS_ERR_ARG then XERR_INVAL else
  if rc =? XAS_ERR_WX then XERR_PERM else
  if rc =? XAS_ERR_RANGE then XERR_RANGE else
  if rc =? XAS_ERR_TOKEN then XERR_BADTOKEN else
  if rc =? XAS_ERR_OWNER then XERR_BADTOKEN else
  if rc =? XAS_ERR_RIGHTS then XERR_PERM else
  if rc =? XAS_ERR_BUSY then XERR_BUSY else
  if rc =? XAS_ERR_NOMEM then XERR_NOMEM else
  if rc =? XAS_ERR_NOTMAPPED then XERR_NOMAP else XERR_INVAL.

Definition k_ledger (s : SysState) : Ledger := ledger (k_mem (s_k s)).

Definition sys_alloc (a : XAspace) (f : ExcFrame) (s : SysState) : ExcFrame * SysState :=
  let n := f_rdi f in
  let rts := f_rsi f in
  let f := set_rdx f 0 in
  if (n =? 0) || (rts =? 0) then (ret f XERR_INVAL, s) else
  if tst (rts .& u64 (Z.lnot XSYS_USER_RIGHTS)) then (ret f XERR_PERM, s) else
  let '(max_frames, max_tokens) := quota_of (as_owner a) s in
  let '(used_frames, used_tokens) := xtok_owner_usage (as_owner a) (k_ledger s) in
  if used_tokens >=? max_tokens then (ret f XERR_NOMEM, s) else
  if (n >? max_frames) || (used_frames >? max_frames - n) then (ret f XERR_NOMEM, s) else
  let '(tok, st) := xtok_alloc_ram (as_owner a) n (u32 rts) (k_mem (s_k s)) in
  let s := set_sk s (set_kmem (s_k s) st) in
  if tok =? XTOKEN_INVALID then (ret f XERR_NOMEM, s) else
  (ret (set_rdx f tok) 0, s).

Definition sys_map (a : XAspace) (f : ExcFrame) (s : SysState) : ExcFrame * SysState :=
  if f_rdx f >? 0xFFFFFFFF then (ret f XERR_INVAL, s) else
  let '(rc, ks) := xas_map (Some a) (f_rsi f) (f_rdi f) (u32 (f_rdx f)) (s_k s) in
  (ret f (map_xas_err rc), set_sk s ks).

Definition sys_unmap (a : XAspace) (f : ExcFrame) (s : SysState) : ExcFrame * SysState :=
  let '(rc, ks) := xas_unmap (Some a) (f_rdi f) (s_k s) in
  (ret f (map_xas_err rc), set_sk s ks).

Definition sys_free (a : XAspace) (f : ExcFrame) (s : SysState) : ExcFrame * SysState :=
  let '(rc, st) := xtok_release_owned (f_rdi f) (as_owner a) (k_mem (s_k s)) in
  let s := set_sk s (set_kmem (s_k s) st) in
  if rc =? 0 then (ret f 0, s) else
  if rc =? XTOK_REL_EBUSY then (ret f XERR_BUSY, s) else
  if rc =? XTOK_REL_ERIGHTS then (ret f XERR_PERM, s) else
  (ret f XERR_BADTOKEN, s).

Definition sys_info (a : XAspace) (f : ExcFrame) (s : SysState) : ExcFrame * SysState :=
  let '(max_frames, max_tokens) := quota_of (as_owner a) s in
  let '(used_frames, used_tokens) := xtok_owner_usage (as_owner a) (k_ledger s) in
  (if f_rdi f =? XINFO_FRAMES_USED then set_rax f used_frames else
   if f_rdi f =? XINFO_FRAMES_LIMIT then set_rax f max_frames else
   if f_rdi f =? XINFO_TOKENS_USED then set_rax f used_tokens else
   if f_rdi f =? XINFO_TOKENS_LIMIT then set_rax f max_tokens else
   ret f XERR_INVAL, s).

Definition xsys_resource (a : XAspace) (f : ExcFrame) (s : SysState) : ExcFrame * SysState :=
  if f_rax f =? XSYS_ALLOC then sys_alloc a f s else
  if f_rax f =? XSYS_MAP then sys_map a f s else
  if f_rax f =? XSYS_UNMAP then sys_unmap a f s else
  if f_rax f =? XSYS_FREE then sys_free a f s else
  if f_rax f =? XSYS_INFO then sys_info a f s else
  (ret f XERR_NOSYS, s).

(** * Teardown *)

(** Unmaps a token everywhere and reclaims it; counts the success. *)
Definition reap_one (acc : Z * KState) (tok : Z) : Z * KState :=
  let '(progress, ks) := acc in
  let ks := (xas_revoke_token tok ks).2 in
  let '(r, st) := xtok_reclaim tok (k_mem ks) in
  ((if r =? 0 then u32 (progress + 1) else progress), set_kmem ks st).

(** The endless loop of [xproc_reap], as often as [fuel] allows. *)
Fixpoint reap_loop (fuel : nat) (owner total : Z) (ks : KState) : option (Z * KState) :=
  match fuel with
  | O => None
  | S fuel =>
    let list := xtok_owner_tokens owner 64 (ledger (k_mem ks)) in
    if Z.of_nat (length list) =? 0 then Some (total, ks) else
    let '(progress, ks) := fold_left reap_one list (0, ks) in
    if progress =? 0 then Some (total, ks)
    else reap_loop fuel owner (u32 (total + progress)) ks
  end.

(** The number of tokens reclaimed, the space, and the state. *)
Definition xproc_reap (fuel : nat) (a : option XAspace) (ks : KState) : option (Z * option XAspace * KState) :=
  match a with
  | None => Some (0, None, ks)
  | Some sp =>
    if negb (as_live sp) then Some (0, Some sp, ks) else
    match reap_loop fuel (as_owner sp) 0 ks with
    | None => None
    | Some (total, ks) => let '(a', ks) := xas_destroy (Some sp) ks in Some (total, a', ks)
    end
  end.

(** * Usage *)

(** What an entry counts for in the usage of [o]. *)
Definition weight (o : Z) (e : XTokenEntry) : option Z := if owned o e then Some (n_frames e) else None.

Lemma usage_weight o l l' :
  (fun e => weight o e) <$> g_table l = (fun e => weight o e) <$> g_table l' ->
  xtok_owner_usage o l = xtok_owner_usage o l'.
Proof.
  unfold xtok_owner_usage. generalize (0, 0). generalize (g_table l'). generalize (g_table l).
  intros t t'. revert t'. induction t as [|e t IH]; intros [|e' t'] acc; cbn [fmap list_fmap fold_left]; try done.
  intros [= Hw Ht]. rewrite (IH t') by done. f_equal. unfold usage_step.
  fold (owned o e) (owned o e'). unfold weight in Hw. destruct (owned o e), (owned o e'); congruence.
Qed.

Lemma same_tokens_weight l l' : ledger_wf l -> ledger_wf l' -> same_tokens l l' ->
  forall o i e e', g_table l !! i = Some e -> g_table l' !! i = Some e' -> weight o e = weight o e'.
Proof.
  intros Hw Hw' Hs o i e e' He He'. apply lookup_lt_Some in He as Hlt. rewrite (lw_len _ Hw) in Hlt.
  assert (forall l x, ledger_wf l -> g_table l !! i = Some x -> live x = true ->
    info l (pack_token (Z.of_nat i) (generation x)) = Some x /\ 0 <= pack_token (Z.of_nat i) (generation x) < 2 ^ 64) as Hp.
  { intros l0 x Hl0 Hx Hlx. split; [apply info_pack; [done|lia|by rewrite Nat2Z.id|done]|].
    pose proof (eo_gen _ (entry_of _ _ _ Hl0 Hx)). pose proof (pack_token_range (Z.of_nat i) (generation x)). lia. }
  assert (forall x y t, 0 <= t < 2 ^ 64 -> g_table l !! i = Some x -> g_table l' !! i = Some y ->
    t / 2 ^ 32 = Z.of_nat i -> (info l t = Some x \/ info l' t = Some y) ->
    live x = true /\ exists c, y = set_map_count x c) as Hxy.
  { intros x y t Ht Hx Hy Hsl Hor. destruct (Hs t Ht) as [c Hc].
    assert (info l t <> None) as Hn. { intros E. rewrite E in Hc. cbn in Hc. destruct Hor; congruence. }
    destruct (info l t) as [x'|] eqn:Ex; [|done]. cbn in Hc. rewrite <- token_slot_div in Hsl by done.
    apply info_Some in Ex as (_ & _ & Ex & Hlx & _), Hc as (_ & _ & Ec & _ & _).
    rewrite Hsl, Nat2Z.id in Ex, Ec. assert (x' = x) as -> by congruence.
    split; [done|]. exists c. congruence. }
  assert (forall g, 0 < g < 2 ^ 32 -> pack_token (Z.of_nat i) g / 2 ^ 32 = Z.of_nat i) as Hsl.
  { intros g Hg. rewrite pack_token_add by lia. lia. }
  destruct (live e) eqn:Hl; [|destruct (live e') eqn:Hl'].
  - destruct (Hp _ _ Hw He Hl) as [Hi Hr].
    destruct (Hxy e e' _ Hr He He') as [_ [c ->]]; [apply Hsl, (eo_gen _ (entry_of _ _ _ Hw He))|by left|done].
  - destruct (Hp _ _ Hw' He' Hl') as [Hi Hr].
    destruct (Hxy e e' _ Hr He He') as [? _]; [apply Hsl, (eo_gen _ (entry_of _ _ _ Hw' He'))|by right|congruence].
  - unfold weight, owned. by rewrite Hl, Hl'.
Qed.

Lemma same_tokens_usage l l' o : ledger_wf l -> ledger_wf l' -> same_tokens l l' ->
  xtok_owner_usage o l' = xtok_owner_usage o l.
Proof.
  intros Hw Hw' Hs. apply usage_weight, list_eq. intros i. rewrite !list_lookup_fmap.
  destruct (g_table l' !! i) as [e'|] eqn:E', (g_table l !! i) as [e|] eqn:E; cbn [fmap option_fmap option_map].
  - f_equal. symmetry. exact (same_tokens_weight l l' Hw Hw' Hs o i e e' E E').
  - apply lookup_lt_Some in E'. apply lookup_ge_None in E. rewrite (lw_len _ Hw') in E'. rewrite (lw_len _ Hw) in E. lia.
  - apply lookup_lt_Some in E. apply lookup_ge_None in E'. rewrite (lw_len _ Hw) in E. rewrite (lw_len _ Hw') in E'. lia.
  - done.
Qed.

(** The exact sums behind [xtok_owner_usage]. *)
Lemma usage_sums o st : mem_inv st ->
  xtok_owner_usage o (ledger st) = (frames_sum o (g_table (ledger st)), countb (owned o) (g_table (ledger st))).
Proof.
  intros Hi. rewrite (owner_usage_spec o st Hi). f_equal. symmetry.
  apply frames_sum_count; [apply (mi_own _ Hi)|apply (lw_entry _ (mi_ledger _ Hi))].
Qed.

Lemma frames_sum_insert o tbl i e e' : tbl !! i = Some e ->
  frames_sum o (<[i := e']> tbl) = frames_sum o tbl - default 0 (weight o e) + default 0 (weight o e').
Proof.
  revert i. induction tbl as [|x tbl IH]; intros i H; [done|].
  destruct i as [|i]; simpl in *; [|rewrite (IH _ H); lia].
  simplify_eq. unfold weight. destruct (owned o e), (owned o e'); cbn; lia.
Qed.

Lemma owned_ram o g owner ph n rts : owned o (ram_entry g owner ph n rts) = (owner =? o).
Proof. done. Qed.

Lemma owned_dead o g : owned o (dead_entry g) = false.
Proof. done. Qed.

(** A new token of [n] frames adds exactly [(n, 1)] to its owner. *)
Lemma grant_usage ok owner n rts st tok st' o :
  mem_inv st -> mem_inv st' -> grant_result ok owner n rts st (tok, st') -> tok <> 0 ->
  xtok_owner_usage o (ledger st') =
    let '(f, t) := xtok_owner_usage o (ledger st) in if owner =? o then (f + n, t + 1) else (f, t).
Proof.
  intros Hi Hi' [(_ & s & g & _ & _ & _ & _ & _ & _ & (j & e & _ & He & Hd & _ & _ & Ht & _ & _) & _)|(-> & _)] Hn; [|done].
  rewrite !usage_sums, Ht by done. rewrite (frames_sum_insert _ _ _ _ _ He), (countb_insert _ _ _ _ _ He).
  unfold weight. rewrite owned_ram. assert (owned o e = false) as -> by (unfold owned; by rewrite Hd).
  destruct (owner =? o); cbn; f_equal; lia.
Qed.

(** Releasing a token takes exactly its frames from its owner. *)
Lemma released_usage st st' tok e o :
  mem_inv st -> mem_inv st' -> 0 <= tok < 2 ^ 64 -> info (ledger st) tok = Some e -> released st st' tok e ->
  xtok_owner_usage o (ledger st') =
    let '(f, t) := xtok_owner_usage o (ledger st) in if owner_id e =? o then (f - n_frames e, t - 1) else (f, t).
Proof.
  intros Hi Hi' Ht He (_ & _ & _ & Htb & _). rewrite !usage_sums, Htb by done.
  apply info_Some in He as (_ & _ & He & Hl & _).
  rewrite (frames_sum_insert _ _ _ _ _ He), (countb_insert _ _ _ _ _ He).
  unfold weight. rewrite owned_dead. assert (owned o e = (owner_id e =? o)) as -> by (unfold owned; by rewrite Hl).
  destruct (owner_id e =? o); cbn; f_equal; lia.
Qed.

Lemma usage_nonneg o st : mem_inv st ->
  0 <= (xtok_owner_usage o (ledger st)).1 < 2 ^ 64 /\ 0 <= (xtok_owner_usage o (ledger st)).2 <= 4096.
Proof.
  intros Hi. rewrite (owner_usage_spec o st Hi). cbn [fst snd]. pose proof (wf_total _ (mi_phys _ Hi)) as Ht.
  rewrite max_frames_val in Ht.
  pose proof (countb_seqZ_le (owns_frame o (g_table (ledger st))) 0 (total_frames (phys st)) ltac:(lia)).
  pose proof (countb_bound (owned o) (g_table (ledger st))) as Hb. rewrite (lw_len _ (mi_ledger _ Hi)) in Hb.
  pose proof (countb_bound (owns_frame o (g_table (ledger st))) (seqZ 0 (total_frames (phys st)))). lia.
Qed.

Lemma k_mem_inv ks S : k_inv ks S -> mem_inv (k_mem ks).
Proof. intros Hk. exact (pw_mem _ _ (ki_pt _ _ Hk)). Qed.

(** A frame belongs to one token at most. *)
Lemma info_disjoint st t t' e e' f : mem_inv st -> 0 <= t < 2 ^ 64 -> 0 <= t' < 2 ^ 64 ->
  info (ledger st) t = Some e -> info (ledger st) t' = Some e' -> in_frames e f -> in_frames e' f -> t = t'.
Proof.
  intros [_ Hl Ho] Ht Ht' Hi Hi' Hf Hf'. apply info_Some in Hi as (_ & _ & He & Le & Ge), Hi' as (_ & _ & He' & Le' & Ge').
  pose proof (oo_disj _ _ Ho _ _ _ _ _ He He' Le Le' Hf Hf') as E. rewrite E in He. simplify_eq.
  pose proof (token_slot_nonneg t). pose proof (token_slot_nonneg t').
  rewrite !token_gen_mod in *. rewrite !token_slot_div in * by done. lia.
Qed.

Lemma k_same_usage ks ks' S S' o : k_inv ks S -> k_inv ks' S' ->
  same_tokens (ledger (k_mem ks)) (ledger (k_mem ks')) ->
  xtok_owner_usage o (ledger (k_mem ks')) = xtok_owner_usage o (ledger (k_mem ks)).
Proof.
  intros Hk Hk'. apply same_tokens_usage; [exact (mi_ledger _ (k_mem_inv _ _ Hk))|exact (mi_ledger _ (k_mem_inv _ _ Hk'))].
Qed.

Lemma xas_map_tokens ks S a virt tok perms :
  k_inv ks S -> a ∈ S -> 0 <= tok < 2 ^ 64 -> 0 <= perms < 2 ^ 32 ->
  same_tokens (ledger (k_mem ks)) (ledger (k_mem (xas_map (Some a) virt tok perms ks).2)).
Proof.
  intros Hk Ha Ht Hp. pose proof (xas_map_spec ks S a virt tok perms Hk Ha Ht Hp) as H.
  destruct (xas_map _ _ _ _ _) as [rc ks']. destruct H as [_ [(_ & _ & _ & e & i & Hm)|[_ Hu]]]; cbn [snd].
  - intros t Ht'. rewrite (mp_led _ _ _ _ _ _ _ _ _ Hm) by done.
    case_decide; [subst t|by apply same_tokens_refl]. rewrite (mp_info _ _ _ _ _ _ _ _ _ Hm). by eexists.
  - rewrite (un_ledger _ _ _ Hu). apply same_tokens_refl.
Qed.

Lemma xas_unmap_tokens ks S a virt :
  k_inv ks S -> same_tokens (ledger (k_mem ks)) (ledger (k_mem (xas_unmap (Some a) virt ks).2)).
Proof.
  intros Hk. unfold xas_unmap. destruct (negb _); [apply same_tokens_refl|].
  destruct (find_rec _ _ _) as [i|] eqn:E; [|apply same_tokens_refl]. apply find_rec_spec in E as (j & rc & -> & Hj & Hp).
  unfold rec_at in Hp. apply andb_true_iff in Hp as [[Hl _]%andb_true_iff _]. by apply (drop_record_same ks S Hk j rc).
Qed.

(** * System calls against the ledger *)

(** Registers hold 64-bit values. *)
Definition regs_ok (f : ExcFrame) : Prop :=
  0 <= f_rdi f < 2 ^ 64 /\ 0 <= f_rsi f < 2 ^ 64 /\ 0 <= f_rdx f < 2 ^ 64.

Definition usage (s : SysState) (o : Z) : Z * Z := xtok_owner_usage o (k_ledger s).

Definition within_quota (s : SysState) (o : Z) : Prop :=
  (usage s o).1 <= (quota_of o s).1 /\ (usage s o).2 <= (quota_of o s).2.

Lemma quota_set_sk o s ks : quota_of o (set_sk s ks) = quota_of o s.
Proof. done. Qed.

(** The rights mask test. *)
Lemma user_rights_ok r : 0 <= r < 2 ^ 64 -> tst (r .& u64 (Z.lnot XSYS_USER_RIGHTS)) = false ->
  u32 r = r /\ r .& XSYS_USER_RIGHTS = r.
Proof.
  intros Hr Hb. change (u64 (Z.lnot XSYS_USER_RIGHTS)) with (Z.ldiff (2 ^ 64 - 1) XSYS_USER_RIGHTS) in Hb.
  unfold tst in Hb. apply negb_false_iff, Z.eqb_eq in Hb.
  assert (r .& XSYS_USER_RIGHTS = r) as E.
  { apply Z.bits_inj'. intros i Hi. rewrite Z.land_spec. apply (f_equal (fun x => Z.testbit x i)) in Hb.
    rewrite Z.land_spec, Z.ldiff_spec, Z.bits_0 in Hb. change (2 ^ 64 - 1) with (Z.ones 64) in Hb.
    destruct (Z.lt_ge_cases i 64).
    - rewrite Z.ones_spec_low in Hb by lia. by destruct (Z.testbit r i), (Z.testbit XSYS_USER_RIGHTS i).
    - by rewrite (testbit_high r 64 i) by lia. }
  split; [|done]. apply u32_small. pose proof (land_bound r XSYS_USER_RIGHTS ltac:(done)).
  change XSYS_USER_RIGHTS with 47 in *. lia.
Qed.

(** The outcome of [sys_alloc]. *)
Record allocated (a : XAspace) (f f' : ExcFrame) (s s' : SysState) (e : XTokenEntry) : Prop := {
  al_rax : f_rax f' = 0;
  al_tok : 0 < f_rdx f' < 2 ^ 64;
  al_fresh : info (k_ledger s) (f_rdx f') = None;
  al_info : forall t, 0 <= t < 2 ^ 64 -> info (k_ledger s') t = if decide (t = f_rdx f') then Some e else info (k_ledger s) t;
  al_entry : owner_id e = as_owner a /\ n_frames e = f_rdi f /\ rights e = f_rsi f /\ map_count e = 0;
  al_rights : rights e .& XSYS_USER_RIGHTS = rights e;
  al_zero : forall x, e_phys e <= x < e_phys e + 4096 * n_frames e -> x mod 8 = 0 -> mem_word (mem (k_mem (s_k s'))) x = 0;
  al_usage : forall o, usage s' o = let '(uf, ut) := usage s o in if as_owner a =? o then (uf + f_rdi f, ut + 1) else (uf, ut);
  al_quota : within_quota s' (as_owner a)
}.

Lemma sys_alloc_spec a f s S :
  k_inv (s_k s) S -> a ∈ S -> regs_ok f ->
  let '(f', s') := sys_alloc a f s in
  g_quota s' = g_quota s /\
  ((exists e, allocated a f f' s s' e) \/
   (f_rdx f' = 0 /\ k_ledger s' = k_ledger s /\
    f_rax f' = u64 (if (f_rdi f =? 0) || (f_rsi f =? 0) then XERR_INVAL
                    else if negb (f_rsi f .& XSYS_USER_RIGHTS =? f_rsi f) then XERR_PERM else XERR_NOMEM))).
Proof.
  intros Hk Ha (Hn & Hr & _). unfold sys_alloc. cbv zeta.
  destruct ((f_rdi f =? 0) || (f_rsi f =? 0)) eqn:E0; [split; [done|by right]|].
  destruct (tst _) eqn:E1.
  { split; [done|]. right. split_and!; [done|done|]. cbn. destruct (Z.eqb_spec (f_rsi f .& XSYS_USER_RIGHTS) (f_rsi f)) as [E|]; [|done].
    exfalso. rewrite <- E, <- Z.land_assoc in E1. change (XSYS_USER_RIGHTS .& _) with 0 in E1. by rewrite Z.land_0_r in E1. }
  destruct (user_rights_ok _ Hr E1) as [-> Emask]. rewrite Emask, Z.eqb_refl. cbn [negb].
  destruct (quota_of (as_owner a) s) as [mf mt] eqn:Hq. fold (usage s (as_owner a)).
  destruct (usage s (as_owner a)) as [uf ut] eqn:Hu.
  destruct (ut >=? mt) eqn:E2; [split; [done|by right]|].
  destruct ((f_rdi f >? mf) || _) eqn:E3; [split; [done|by right]|].
  pose proof (k_mem_inv _ _ Hk) as Hi. destruct (ki_space _ _ Hk a Ha) as [_ Ho].
  destruct (xtok_alloc_ram_spec (as_owner a) (f_rdi f) (f_rsi f) (k_mem (s_k s)) Hi) as [Hg Hi']; [lia|lia|].
  destruct (xtok_alloc_ram _ _ _ _) as [tok st']. cbn [snd] in Hi'.
  destruct (Z.eqb_spec tok XTOKEN_INVALID) as [->|Ht].
  { split; [done|]. right. destruct Hg as [(? & _)|(_ & _ & Hl & _)]; [done|]. unfold k_ledger. cbn. by rewrite Hl. }
  split; [done|]. left. pose proof (fun o => grant_usage _ _ _ _ _ _ _ o Hi Hi' Hg Ht) as Hus.
  destruct Hg as [(_ & b & g & Hb & _ & _ & _ & _ & _ & (j & e0 & _ & _ & _ & _ & Htr & _ & Hno & Hin) & Hinfo & Hz)|[? _]]; [|done].
  eexists. split; cbn [f_rax f_rdx ret set_rax set_rdx].
  - done.
  - exact Htr.
  - exact Hno.
  - exact Hin.
  - done.
  - exact Emask.
  - cbn. intros x Hx Hx8. rewrite Hz, decide_True; [done|split; [lia|done]].
  - exact Hus.
  - unfold within_quota, usage. rewrite quota_set_sk, Hq. unfold k_ledger. cbn [s_k set_sk k_mem set_kmem]. rewrite Hus.
    unfold usage, k_ledger in Hu. rewrite Hu, Z.eqb_refl. cbn. lia.
Qed.

(** What one system call may do to the books: nothing to other owners, and
    the caller either shrinks or stays inside its quota. *)
Definition fair (a : XAspace) (s s' : SysState) : Prop :=
  g_quota s' = g_quota s /\
  (forall o, o <> as_owner a -> usage s' o = usage s o) /\
  (((usage s' (as_owner a)).1 <= (usage s (as_owner a)).1 /\ (usage s' (as_owner a)).2 <= (usage s (as_owner a)).2) \/
   within_quota s' (as_owner a)).

Lemma fair_same a s s' : g_quota s' = g_quota s -> (forall o, usage s' o = usage s o) -> fair a s s'.
Proof. intros Hq Hu. split_and!; [done|auto|]. left. by rewrite Hu. Qed.

Lemma fair_tokens a s ks' S : k_inv (s_k s) S -> k_inv ks' S ->
  same_tokens (k_ledger s) (ledger (k_mem ks')) -> fair a s (set_sk s ks').
Proof. intros Hk Hk' Hs. apply fair_same; [done|]. intros o. by apply (k_same_usage (s_k s) ks' S S). Qed.

Lemma fair_quota a s s' o : fair a s s' -> within_quota s o -> within_quota s' o.
Proof.
  intros (Hq & Hother & Hown) Hw. destruct (decide (o = as_owner a)) as [->|Hne].
  - destruct Hown as [Hle|]; [|done]. unfold within_quota, quota_of in *. rewrite Hq. lia.
  - unfold within_quota, quota_of in *. by rewrite Hq, Hother.
Qed.

Section Calls.
Context `{Bt : Boot}.

Section Step.
Context (a : XAspace) (f : ExcFrame) (s : SysState) (S : list XAspace).
Context (Hr : reachable (s_k s) S) (Ha : a ∈ S) (Hf : regs_ok f).

Definition step_ok (r : ExcFrame * SysState) : Prop :=
  reachable (s_k r.2) S /\ fair a s r.2 /\ exists x y, r.1 = set_rax (set_rdx f x) y.

Lemma set_rdx_same : set_rdx f (f_rdx f) = f.
Proof. by destruct f. Qed.

Lemma step_rax y s' : reachable (s_k s') S -> fair a s s' -> step_ok (set_rax f y, s').
Proof. intros H1 H2. split_and!; [done|done|]. exists (f_rdx f), y. cbn [fst]. by rewrite set_rdx_same. Qed.

Lemma step_refl y : step_ok (set_rax f y, s).
Proof. apply step_rax; [done|]. by apply fair_same. Qed.

Lemma sys_alloc_step : step_ok (sys_alloc a f s).
Proof.
  apply reachable_inv in Hr as Hk. pose proof (sys_alloc_spec a f s S Hk Ha Hf) as Hs.
  assert (reachable (s_k (sys_alloc a f s).2) S /\ exists x y, (sys_alloc a f s).1 = set_rax (set_rdx f x) y) as [H1 H2].
  { unfold sys_alloc. cbv zeta. destruct (_ || _); [split; [done|by eexists _, _]|].
    destruct (tst _); [split; [done|by eexists _, _]|]. destruct (quota_of _ _) as [mf mt], (xtok_owner_usage _ _) as [uf ut].
    destruct (_ >=? _); [split; [done|by eexists _, _]|]. destruct (_ || _); [split; [done|by eexists _, _]|].
    destruct (ki_space _ _ Hk a Ha) as [_ Ho]. destruct Hf as (Hn & _).
    pose proof (ks_alloc (s_k s) S (as_owner a) (f_rdi f) (u32 (f_rsi f)) ltac:(lia) ltac:(lia)) as Hst.
    destruct (xtok_alloc_ram _ _ _ _) as [tok st']. cbn [snd] in Hst. pose proof (reachable_step _ _ _ _ Hr Hst) as Hr'.
    destruct (tok =? XTOKEN_INVALID); (split; [exact Hr'|by eexists _, _]). }
  destruct (sys_alloc a f s) as [f' s']. split_and!; [done| |done]. destruct Hs as [Hq [[e He]|(_ & Hl & _)]].
  - split_and!; [done| |right; apply He]. intros o Ho. cbn [snd]. rewrite (al_usage _ _ _ _ _ _ He).
    destruct (usage s o). destruct (Z.eqb_spec (as_owner a) o); [congruence|done].
  - apply fair_same; [done|]. intros o. unfold usage. cbn [snd]. by rewrite Hl.
Qed.

Lemma sys_map_step : step_ok (sys_map a f s).
Proof.
  apply reachable_inv in Hr as Hk. destruct Hf as (Hn & _ & Hd). unfold sys_map.
  destruct (f_rdx f >? 0xFFFFFFFF) eqn:E; [apply step_refl|]. assert (0 <= f_rdx f < 2 ^ 32) as Hp by lia.
  rewrite u32_small by done. pose proof (xas_map_tokens (s_k s) S a (f_rsi f) (f_rdi f) (f_rdx f) Hk Ha Hn Hp) as Ht.
  destruct (xas_map _ _ _ _ _) as [rc ks'] eqn:Em. cbn [snd] in Ht.
  pose proof (reachable_step _ _ _ _ Hr (ks_map _ S _ _ _ _ _ _ Ha Hn Hp Em)) as Hr'.
  apply step_rax; [exact Hr'|]. apply (fair_tokens a s ks' S); [done|by apply reachable_inv|done].
Qed.

Lemma sys_unmap_step : step_ok (sys_unmap a f s).
Proof.
  apply reachable_inv in Hr as Hk. unfold sys_unmap. pose proof (xas_unmap_tokens (s_k s) S a (f_rdi f) Hk) as Ht.
  destruct (xas_unmap _ _ _) as [rc ks'] eqn:Em. cbn [snd] in Ht.
  pose proof (reachable_step _ _ _ _ Hr (ks_unmap _ S _ _ _ _ Ha Em)) as Hr'.
  apply step_rax; [exact Hr'|]. apply (fair_tokens a s ks' S); [done|by apply reachable_inv|done].
Qed.

Lemma release_fair st' rc : release_impl (f_rdi f) (REL_CHECK_RIGHT .| REL_CHECK_OWNER) (as_owner a) (k_mem (s_k s)) = (rc, st') ->
  fair a s (set_sk s (set_kmem (s_k s) st')).
Proof.
  intros E. apply reachable_inv in Hr as Hk. pose proof (k_mem_inv _ _ Hk) as Hi. destruct Hf as (Hn & _).
  pose proof (release_impl_spec (f_rdi f) (REL_CHECK_RIGHT .| REL_CHECK_OWNER) (as_owner a) _ Hi Hn) as H.
  assert (forall rc0, release_impl (f_rdi f) (REL_CHECK_RIGHT .| REL_CHECK_OWNER) (as_owner a) (k_mem (s_k s)) = (rc0, k_mem (s_k s)) ->
    fair a s (set_sk s (set_kmem (s_k s) st'))) as Hno.
  { intros rc0 E'. rewrite E' in E. assert (st' = k_mem (s_k s)) as -> by congruence. by apply fair_same. }
  destruct (info _ _) as [e|] eqn:He; [|by eapply Hno].
  destruct (_ && negb (owner_id e =? as_owner a)) eqn:Eo; [by eapply Hno|].
  destruct (_ && (rights e .& XTOK_RIGHT_RELEASE =? 0)); [by eapply Hno|]. destruct (negb (map_count e =? 0)); [by eapply Hno|].
  destruct H as (st2 & E2 & Hrel & Hi2). rewrite E in E2. assert (st2 = st') as -> by congruence.
  assert (owner_id e = as_owner a) as Hoe by (apply andb_false_iff in Eo as [?|Eo]; [done|]; by apply negb_false_iff, Z.eqb_eq in Eo).
  pose proof (fun o => released_usage _ _ _ _ o Hi Hi2 Hn He Hrel) as Hus.
  change (forall o, usage (set_sk s (set_kmem (s_k s) st')) o = let '(uf, ut) := usage s o in if owner_id e =? o then (uf - n_frames e, ut - 1) else (uf, ut)) in Hus.
  assert (0 < n_frames e) by (destruct (info_entry _ _ _ (mi_ledger _ Hi) He) as [Heo Hl]; destruct (eo_live e Heo Hl); lia).
  split_and!; [done| |].
  - intros o Ho. rewrite Hus. destruct (usage s o). destruct (Z.eqb_spec (owner_id e) o); [congruence|done].
  - left. rewrite Hus. destruct (usage s (as_owner a)). rewrite Hoe, Z.eqb_refl. cbn. lia.
Qed.

Lemma sys_free_step : step_ok (sys_free a f s).
Proof.
  destruct Hf as (Hn & _). unfold sys_free.
  pose proof (reachable_step _ _ _ _ Hr (ks_release_owned (s_k s) S (f_rdi f) (as_owner a) Hn)) as Hr'.
  unfold xtok_release_owned in *. destruct (release_impl _ _ _ _) as [rc st'] eqn:E. cbn [snd] in Hr'.
  pose proof (release_fair st' rc E) as Hfa.
  destruct (rc =? 0); [by apply step_rax|]. destruct (rc =? XTOK_REL_EBUSY); [by apply step_rax|].
  destruct (rc =? XTOK_REL_ERIGHTS); by apply step_rax.
Qed.

Lemma xsys_step : step_ok (xsys_resource a f s).
Proof.
  unfold xsys_resource. destruct (_ =? XSYS_ALLOC); [apply sys_alloc_step|]. destruct (_ =? XSYS_MAP); [apply sys_map_step|].
  destruct (_ =? XSYS_UNMAP); [apply sys_unmap_step|]. destruct (_ =? XSYS_FREE); [apply sys_free_step|].
  destruct (_ =? XSYS_INFO); [|apply step_refl]. unfold sys_info. destruct (quota_of _ _), (xtok_owner_usage _ _).
  repeat (destruct (_ =? _); [apply step_refl|]). apply step_refl.
Qed.
End Step.

(** * Teardown of an owner *)

(** Everything [tok] is gone from the state; other tokens keep their meaning. *)
Definition tokens_without (T : list Z) (l l' : Ledger) : Prop :=
  forall t, 0 <= t < 2 ^ 64 ->
    (t ∈ T -> info l' t = None) /\
    (t ∉ T -> exists c, info l' t = (fun e => set_map_count e c) <$> info l t).

Lemma reap_one_spec p ks S tok e :
  reachable ks S -> 0 <= tok < 2 ^ 64 -> info (ledger (k_mem ks)) tok = Some e ->
  exists ks', reap_one (p, ks) tok = (u32 (p + 1), ks') /\ reachable ks' S /\
    tokens_without [tok] (ledger (k_mem ks)) (ledger (k_mem ks')) /\
    forall o, (xtok_owner_usage o (ledger (k_mem ks'))).2 =
      (xtok_owner_usage o (ledger (k_mem ks))).2 - (if owner_id e =? o then 1 else 0).
Proof.
  intros Hr Ht Hi. apply reachable_inv in Hr as Hk. unfold reap_one.
  pose proof (reachable_step _ _ _ _ Hr (ks_revoke ks S tok)) as Hr1. apply reachable_inv in Hr1 as Hk1.
  unfold xas_revoke_token in *.
  destruct (drop_all_spec _ (rec_tok_live tok) ks S Hk) as (_ & _ & _ & _ & Hsm).
  pose proof (drop_all_none _ (rec_tok_live tok) ks S Hk) as H0.
  pose proof (fun o => k_same_usage ks (drop_all (rec_tok tok) ks).2 S S o Hk Hk1 Hsm) as Hu1.
  generalize dependent ((drop_all (rec_tok tok) ks).2). intros ks1 Hr1 Hk1 Hsm H0 Hu1.
  destruct (Hsm tok Ht) as [c Hc]. rewrite Hi in Hc. cbn in Hc.
  pose proof (ki_count _ _ Hk1 tok _ Ht Hc) as Ec. rewrite H0 in Ec. cbn [map_count set_map_count] in Ec. subst c.
  pose proof (k_mem_inv _ _ Hk1) as Hm1.
  pose proof (release_impl_spec tok 0 0 (k_mem ks1) Hm1 Ht) as H. rewrite Hc in H. cbn in H.
  destruct H as (st' & H & Hrel & Hm2). unfold xtok_reclaim. rewrite H.
  pose proof (reachable_step _ _ _ _ Hr1 (ks_reclaim ks1 S tok Ht)) as Hr2. unfold xtok_reclaim in Hr2. rewrite H in Hr2.
  eexists. split_and!; [reflexivity|exact Hr2| |].
  - pose proof Hrel as (_ & _ & _ & _ & Hinfo). intros t Ht'. cbn. rewrite Hinfo by done. split.
    + intros ->%list_elem_of_singleton. by rewrite decide_True.
    + intros Hn. rewrite decide_False by (intros ->; by apply Hn, list_elem_of_singleton). by apply Hsm.
  - intros o. cbn. rewrite (released_usage _ _ _ _ o Hm1 Hm2 Ht Hc Hrel), Hu1. cbn [owner_id set_map_count].
    destruct (xtok_owner_usage o (ledger (k_mem ks))). destruct (owner_id e =? o); cbn; lia.
Qed.

Lemma tokens_without_app T T' l1 l2 l3 :
  tokens_without T l1 l2 -> tokens_without T' l2 l3 -> tokens_without (T ++ T') l1 l3.
Proof.
  intros H1 H2 t Ht. destruct (H1 t Ht) as [A1 B1], (H2 t Ht) as [A2 B2].
  assert (t ∉ T' -> exists c, info l3 t = (fun e => set_map_count e c) <$> info l2 t) as B2' by done.
  split.
  - intros Hin. destruct (decide (t ∈ T')) as [|Hn]; [auto|]. destruct (B2' Hn) as [c ->].
    apply elem_of_app in Hin as [Hin|]; [|done]. by rewrite A1.
  - intros [Hn Hn']%not_elem_of_app. destruct (B1 Hn) as [c1 E1], (B2 Hn') as [c2 E2]. exists c2.
    rewrite E2, E1. by destruct (info l1 t).
Qed.

(** One round over a list of different tokens of [owner]. *)
Lemma reap_round T : forall p ks S owner, reachable ks S -> NoDup T -> 0 <= p -> p + Z.of_nat (length T) < 2 ^ 32 ->
  (forall t, t ∈ T -> 0 <= t < 2 ^ 64 /\ exists e, info (ledger (k_mem ks)) t = Some e /\ owner_id e = owner) ->
  exists ks', fold_left reap_one T (p, ks) = (p + Z.of_nat (length T), ks') /\ reachable ks' S /\
    tokens_without T (ledger (k_mem ks)) (ledger (k_mem ks')) /\
    forall o, (xtok_owner_usage o (ledger (k_mem ks'))).2 =
      (xtok_owner_usage o (ledger (k_mem ks))).2 - (if owner =? o then Z.of_nat (length T) else 0).
Proof.
  induction T as [|tok T IH]; intros p ks S owner Hr Hnd Hp Hlt Hown.
  { exists ks. cbn. split_and!; [f_equal; lia|done| |intros o; destruct (_ =? _); lia].
    intros t Ht. split; [by intros ?%elem_of_nil|]. intros _. by apply same_tokens_refl. }
  apply NoDup_cons in Hnd as [Hni Hnd]. cbn [length fold_left] in *.
  destruct (Hown tok) as (Ht & e & He & Ho); [by left|].
  destruct (reap_one_spec p ks S tok e Hr Ht He) as (ks1 & -> & Hr1 & Hw1 & Hu1). rewrite u32_small by lia.
  destruct (IH (p + 1) ks1 S owner Hr1 Hnd) as (ks2 & -> & Hr2 & Hw2 & Hu2); [lia|lia| |].
  { intros t Hin. destruct (Hown t) as (Ht' & e' & He' & Ho'); [by right|]. split; [done|].
    destruct (Hw1 t Ht') as [_ B]. destruct B as [c E]; [intros ->%list_elem_of_singleton; done|].
    rewrite E, He'. by eexists. }
  exists ks2. split_and!; [f_equal; lia|done|exact (tokens_without_app [tok] T _ _ _ Hw1 Hw2)|].
  intros o. rewrite Hu2, Hu1, Ho. destruct (owner =? o); lia.
Qed.

Lemma NoDup_owner_list tbl slot owner :
  Forall entry_ok tbl -> 0 <= slot -> NoDup (owner_list tbl slot owner).
Proof.
  intros Hok. revert slot. induction Hok as [|e tbl He Hok IH]; intros slot Hs; cbn [owner_list]; [constructor|].
  destruct (owned owner e); [|apply IH; lia]. cbn [app]. apply NoDup_cons. split; [|apply IH; lia].
  intros (i & e' & Hi & _ & E)%owner_list_elem. pose proof (eo_gen e He). rewrite Forall_lookup in Hok.
  pose proof (eo_gen e' (Hok i e' Hi)). rewrite !pack_token_add in E by lia. lia.
Qed.

(** What the first scan of a round returns. *)
Lemma reap_list ks S owner : reachable ks S ->
  let T := xtok_owner_tokens owner 64 (ledger (k_mem ks)) in
  let n := (xtok_owner_usage owner (ledger (k_mem ks))).2 in
  NoDup T /\ Z.of_nat (length T) = n `min` 64 /\ 0 <= n <= 4096 /\
  (forall t, t ∈ T -> 0 <= t < 2 ^ 64 /\ exists e, info (ledger (k_mem ks)) t = Some e /\ owner_id e = owner).
Proof.
  intros Hr T n. apply reachable_inv in Hr as Hk. pose proof (k_mem_inv _ _ Hk) as Hm. pose proof (mi_ledger _ Hm) as Hl.
  pose proof (usage_nonneg owner _ Hm) as [_ Hn]. subst T n. unfold xtok_owner_tokens. rewrite owner_scan_take by done.
  pose proof (NoDup_owner_list _ 0 owner (lw_entry _ Hl) ltac:(done)) as Hnd.
  rewrite usage_sums in * by done. cbn [snd] in *. rewrite <- (owner_list_length _ 0) in *. split_and!.
  - eapply sublist_NoDup; [done|apply sublist_take].
  - rewrite length_take. lia.
  - lia.
  - lia.
  - intros t Hin. apply elem_of_take in Hin as (i & Hi & _).
    assert (t ∈ owner_list (g_table (ledger (k_mem ks))) 0 owner) as Hel by (apply list_elem_of_lookup; eauto).
    assert (0 <= t < 2 ^ 64) as Ht.
    { pose proof Hel as (j & e & Hj & _ & ->)%owner_list_elem. apply lookup_lt_Some in Hj as Hlt.
      rewrite (lw_len _ Hl) in Hlt. pose proof (eo_gen _ (entry_of _ _ _ Hl Hj)).
      pose proof (pack_token_range (0 + Z.of_nat j) (generation e)). lia. }
    split; [done|]. by apply owned_iff_info.
Qed.

Lemma reap_loop_spec owner fuel : forall total ks S, reachable ks S ->
  let n := (xtok_owner_usage owner (ledger (k_mem ks))).2 in
  n <= 64 * Z.of_nat fuel -> 0 <= total -> total + n < 2 ^ 32 ->
  exists T ks', reap_loop (Datatypes.S fuel) owner total ks = Some (total + n, ks') /\ reachable ks' S /\
    tokens_without T (ledger (k_mem ks)) (ledger (k_mem ks')) /\
    (forall t, t ∈ T -> 0 <= t < 2 ^ 64 /\ exists e, info (ledger (k_mem ks)) t = Some e /\ owner_id e = owner) /\
    forall o, (xtok_owner_usage o (ledger (k_mem ks'))).2 =
      if owner =? o then 0 else (xtok_owner_usage o (ledger (k_mem ks))).2.
Proof.
  induction fuel as [|fuel IH]; intros total ks S Hr n Hfuel Htot Hlt;
    destruct (reap_list ks S owner Hr) as (Hnd & Hlen & Hn & Hown); fold n in Hlen, Hn;
    cbn [reap_loop]; set (T := xtok_owner_tokens _ _ _) in *; change (Z.of_nat 0) with 0 in *.
  all: destruct (Z.eqb_spec (Z.of_nat (length T)) 0) as [E0|E0].
  1, 3: exists [], ks; (split_and!; [do 2 f_equal; lia|done| |by intros t ?%elem_of_nil|]);
    [intros t Ht; split; [by intros ?%elem_of_nil|intros _; by apply same_tokens_refl]|];
    intros o; destruct (Z.eqb_spec owner o) as [<-|]; [fold n; lia|done].
  - lia.
  - destruct (reap_round T 0 ks S owner Hr Hnd) as (ks1 & -> & Hr1 & Hw1 & Hu1); [lia|lia|done|].
    rewrite Z.add_0_l. destruct (Z.eqb_spec (Z.of_nat (length T)) 0); [lia|].
    pose proof (Hu1 owner) as Hu. rewrite Z.eqb_refl in Hu. fold n in Hu. rewrite u32_small by lia.
    destruct (IH (total + Z.of_nat (length T)) ks1 S Hr1) as (T2 & ks2 & E2 & Hr2 & Hw2 & Hown2 & Hu2); [lia|lia|lia|].
    cbn [reap_loop] in E2. exists (T ++ T2), ks2. split_and!.
    + rewrite E2. do 2 f_equal. lia.
    + done.
    + by eapply tokens_without_app.
    + intros t [Hin|Hin]%elem_of_app; [by apply Hown|]. destruct (Hown2 t Hin) as (Ht & e & He & Ho). split; [done|].
      destruct (decide (t ∈ T)) as [|Hn']; [by apply Hown|]. destruct (Hw1 t Ht) as [_ B]. destruct (B Hn') as [c E].
      rewrite He in E. destruct (info (ledger (k_mem ks)) t) as [x|]; [|done]. cbn in E. exists x. split; [done|].
      injection E as ->. done.
    + intros o. rewrite Hu2, Hu1. destruct (owner =? o); lia.
Qed.

Lemma frames_sum_none o tbl : countb (owned o) tbl = 0 -> frames_sum o tbl = 0.
Proof.
  induction tbl as [|e tbl IH]; cbn [countb frames_sum]; [done|]. pose proof (countb_bound (owned o) tbl).
  destruct (owned o e); [lia|]. intros H'. rewrite IH; lia.
Qed.

Lemma usage_none o st : mem_inv st -> (xtok_owner_usage o (ledger st)).2 = 0 ->
  xtok_owner_usage o (ledger st) = (0, 0) /\ forall t e, info (ledger st) t = Some e -> owner_id e <> o.
Proof.
  intros Hm. rewrite usage_sums by done. cbn [snd]. intros H0. split; [by rewrite H0, frames_sum_none|].
  intros t e Hi Ho. apply info_Some in Hi as (_ & _ & He & Hl & _).
  assert (countb (owned o) (g_table (ledger st)) <> 0) as Hn; [|done]. intros _.
  pose proof (countb_insert (owned o) _ _ e (dead_entry 1) He) as Hc. unfold owned at 3 in Hc.
  rewrite Hl, Ho, Z.eqb_refl in Hc. cbn in Hc.
  pose proof (countb_bound (owned o) (<[Z.to_nat (token_slot t):=dead_entry 1]> (g_table (ledger st)))). lia.
Qed.

(** Tokens the caller may not know about: dead, or another owner's. *)
Definition not_mine (a : XAspace) (s : SysState) (t : Z) : Prop :=
  0 <= t < 2 ^ 64 /\ forall e, info (k_ledger s) t = Some e -> owner_id e <> as_owner a.

Definition set_rdi (f : ExcFrame) (v : Z) : ExcFrame :=
  mkFrame (f_r15 f) (f_r14 f) (f_r13 f) (f_r12 f) (f_r11 f) (f_r10 f) (f_r9 f) (f_r8 f)
    (f_rbp f) v (f_rsi f) (f_rdx f) (f_rcx f) (f_rbx f) (f_rax f)
    (f_vector f) (f_error f) (f_rip f) (f_cs f) (f_rflags f) (f_rsp f) (f_ss f).

Lemma acquire_not_mine a s S t need : k_inv (s_k s) S -> not_mine a s t ->
  exists rc x, xtok_map_acquire t (as_owner a) need (k_ledger s) = (rc, x, k_ledger s) /\
    rc <> XTOK_MAP_OK /\ map_xas_err (map_err rc) = XERR_BADTOKEN.
Proof.
  intros Hk [Ht Hnm]. unfold xtok_map_acquire. destruct (lookup_live (k_ledger s) t) as [[sl e]|] eqn:E.
  2: { exists XTOK_MAP_ESTALE, (0, 0). done. }
  assert (info (k_ledger s) t = Some e) as Hi by (unfold info; by rewrite E).
  destruct (info_entry _ _ _ (mi_ledger _ (k_mem_inv _ _ Hk)) Hi) as [Heo Hl]. destruct (eo_live e Heo Hl) as [Hkd _].
  rewrite Hkd. cbn [negb Z.eqb XTOK_KIND_RAM]. destruct (Z.eqb_spec (owner_id e) (as_owner a)) as [Eo|_]; [by destruct (Hnm e Hi)|].
  exists XTOK_MAP_EOWNER, (0, 0). done.
Qed.

(** Mapping such a token fails the same way whichever it is. *)
Definition map_foreign_rc (a : XAspace) (virt perms : Z) (ks : KState) : Z :=
  map_xas_err (xas_map (Some a) virt XTOKEN_INVALID perms ks).1.

Lemma map_not_mine a s S t virt perms : k_inv (s_k s) S -> not_mine a s t ->
  map_xas_err (xas_map (Some a) virt t perms (s_k s)).1 = map_foreign_rc a virt perms (s_k s) /\
  (xas_map (Some a) virt t perms (s_k s)).2 = s_k s.
Proof.
  intros Hk Ht. assert (not_mine a s XTOKEN_INVALID) as H0 by (split; [done|]; by intros e [? _]%info_Some).
  destruct (acquire_not_mine a s S t (need_rights perms) Hk Ht) as (r1 & x1 & E1 & N1 & M1).
  destruct (acquire_not_mine a s S _ (need_rights perms) Hk H0) as (r2 & x2 & E2 & N2 & M2).
  unfold map_foreign_rc, xas_map, k_ledger in *. destruct (negb (as_live a)); [done|]. destruct (_ || _); [done|].
  destruct (_ && _); [done|]. destruct (negb _); [done|]. destruct (_ || _); [done|]. unfold xas_map_locked.
  destruct (_ >=? _); [done|]. rewrite E1, E2. destruct x1, x2. apply Z.eqb_neq in N1, N2. rewrite N1, N2. cbn.
  by rewrite M1, M2.
Qed.

(** * Properties *)

(** System calls made one after the other, by any programs. *)
Definition run_calls (calls : list (XAspace * ExcFrame)) (s : SysState) : SysState :=
  fold_left (fun s c => (xsys_resource c.1 c.2 s).2) calls s.

(** C13: Quotas hold for ever. Whatever sequence of system calls programs
    make, with whatever register contents, an owner whose usage was within
    its quota stays within it, in frames and in tokens; and the memory system
    stays in a reachable (so isolated) state. *)
Theorem xsys_quota_respected calls s S o :
  reachable (s_k s) S -> Forall (fun c => c.1 ∈ S /\ regs_ok c.2) calls -> within_quota s o ->
  within_quota (run_calls calls s) o /\ reachable (s_k (run_calls calls s)) S.
Proof.
  intros Hr Hc. revert s Hr. induction Hc as [|[a f] calls [Ha Hf] _ IH]; intros s Hr Hw; [done|].
  destruct (xsys_step a f s S Hr Ha Hf) as (Hr' & Hfa & _). apply IH; [done|]. by apply (fair_quota a s).
Qed.

(** A system call is confined to its caller: it changes no register of
    the frame but [rax] and [rdx], no quota, and the usage of no other owner;
    the caller's own usage shrinks or stays within its quota. *)
Theorem xsys_resource_confined a f s S :
  reachable (s_k s) S -> a ∈ S -> regs_ok f ->
  let '(f', s') := xsys_resource a f s in
  reachable (s_k s') S /\ fair a s s' /\ exists x y, f' = set_rax (set_rdx f x) y.
Proof. intros Hr Ha Hf. pose proof (xsys_step a f s S Hr Ha Hf) as H. by destruct (xsys_resource a f s). Qed.

(** [XSYS_ALLOC] on every branch. Zero frames or no rights is
    [XERR_INVAL]; a right outside read, write, execute, map and release (so
    DMA above all) is [XERR_PERM]; over quota or out of memory is
    [XERR_NOMEM]; each leaves every token as it was and returns no token.
    Otherwise [rdx] is a token that did not exist before, for exactly the
    frames and rights asked for, owned by the caller, unmapped and cleared to
    zero; no other token changes, the caller's usage grows by exactly that and
    is within its quota. *)
Theorem sys_alloc_correct a f s S :
  reachable (s_k s) S -> a ∈ S -> regs_ok f ->
  let '(f', s') := sys_alloc a f s in
  g_quota s' = g_quota s /\
  ((exists e, allocated a f f' s s' e) \/
   (f_rdx f' = 0 /\ k_ledger s' = k_ledger s /\
    f_rax f' = u64 (if (f_rdi f =? 0) || (f_rsi f =? 0) then XERR_INVAL
                    else if negb (f_rsi f .& XSYS_USER_RIGHTS =? f_rsi f) then XERR_PERM else XERR_NOMEM))).
Proof. intros Hr. apply reachable_inv in Hr. by apply sys_alloc_spec. Qed.

(** A program cannot probe which tokens are live. With any two tokens
    that are not its own, whether another owner's or not live at all,
    [XSYS_MAP] and [XSYS_FREE] return the same code and change nothing; for
    [XSYS_FREE] the code is [XERR_BADTOKEN]. *)
Theorem sys_foreign_token_hidden a f s S t1 t2 :
  reachable (s_k s) S -> not_mine a s t1 -> not_mine a s t2 -> f_rax f = XSYS_MAP \/ f_rax f = XSYS_FREE ->
  let r1 := xsys_resource a (set_rdi f t1) s in
  let r2 := xsys_resource a (set_rdi f t2) s in
  f_rax r1.1 = f_rax r2.1 /\ r1.2 = s /\ r2.2 = s /\
  (f_rax f = XSYS_FREE -> f_rax r1.1 = u64 XERR_BADTOKEN).
Proof.
  intros Hr H1 H2 Hcall. apply reachable_inv in Hr as Hk.
  assert (set_sk s (s_k s) = s) as Hs by (by destruct s).
  assert (forall t, not_mine a s t -> xtok_release_owned t (as_owner a) (k_mem (s_k s)) = (XTOK_REL_ESTALE, k_mem (s_k s))) as Hrel.
  { intros t [Ht Hnm]. pose proof (release_impl_spec t (REL_CHECK_RIGHT .| REL_CHECK_OWNER) (as_owner a) _ (k_mem_inv _ _ Hk) Ht) as H.
    unfold xtok_release_owned. destruct (info _ _) as [e|] eqn:E; [|done].
    destruct (Z.eqb_spec (owner_id e) (as_owner a)) as [Eo|]; [by destruct (Hnm e eq_refl)|exact H]. }
  unfold xsys_resource. cbn [set_rdi f_rax]. destruct Hcall as [-> | ->]; cbn [Z.eqb XSYS_MAP XSYS_FREE XSYS_ALLOC XSYS_UNMAP Pos.eqb].
  - unfold sys_map. cbn [set_rdi f_rdx f_rdi f_rsi]. destruct (_ >? _); [done|].
    destruct (map_not_mine a s S t1 (f_rsi f) (u32 (f_rdx f)) Hk H1) as [A1 B1].
    destruct (map_not_mine a s S t2 (f_rsi f) (u32 (f_rdx f)) Hk H2) as [A2 B2].
    destruct (xas_map (Some a) (f_rsi f) t1 _ _), (xas_map (Some a) (f_rsi f) t2 _ _). cbn [fst snd] in *. subst.
    cbn [ret set_rax f_rax]. rewrite A1, A2, Hs. split_and!; done.
  - unfold sys_free. cbn [set_rdi f_rdi]. rewrite (Hrel t1 H1), (Hrel t2 H2), set_kmem_same, Hs. done.
Qed.

Lemma reap_spec fuel a ks S :
  reachable ks S -> a ∈ S -> (65 <= fuel)%nat ->
  exists ks', xproc_reap fuel (Some a) ks =
      Some ((xtok_owner_usage (as_owner a) (ledger (k_mem ks))).2, Some (mkAs (as_root a) (as_owner a) false), ks') /\
    reachable ks' (without a S) /\
    (forall t e, info (ledger (k_mem ks')) t = Some e -> owner_id e <> as_owner a) /\
    xtok_owner_usage (as_owner a) (ledger (k_mem ks')) = (0, 0) /\
    (forall t e, 0 <= t < 2 ^ 64 -> info (ledger (k_mem ks)) t = Some e -> owner_id e <> as_owner a ->
       exists c, info (ledger (k_mem ks')) t = Some (set_map_count e c)) /\
    (forall t x, 0 <= t < 2 ^ 64 -> info (ledger (k_mem ks')) t = Some x -> exists e c, info (ledger (k_mem ks)) t = Some e /\ x = set_map_count e c).
Proof.
  intros Hr Ha Hfuel. apply reachable_inv in Hr as Hk. destruct fuel as [|fuel]; [lia|].
  pose proof (usage_nonneg (as_owner a) _ (k_mem_inv _ _ Hk)) as [_ Hn].
  destruct (reap_loop_spec (as_owner a) fuel 0 ks S Hr) as (T & ks1 & E1 & Hr1 & Hw & Hown & Hu); [lia|lia|lia|].
  unfold xproc_reap. destruct (ki_space _ _ Hk a Ha) as [-> _]. cbn [negb]. rewrite E1, Z.add_0_l.
  apply reachable_inv in Hr1 as Hk1. destruct (xas_destroy_spec ks1 S a Hk1 Ha) as [Ed [Hk2 _ Hsm _]].
  pose proof (reachable_step _ _ _ _ Hr1 (ks_destroy ks1 S a Ha)) as Hr2.
  destruct (xas_destroy (Some a) ks1) as [a' ks2]. cbn [fst snd] in *. subst a'. exists ks2.
  specialize (Hu (as_owner a)). rewrite Z.eqb_refl in Hu.
  rewrite <- (k_same_usage ks1 ks2 S (without a S) (as_owner a) Hk1 Hk2 Hsm) in Hu.
  destruct (usage_none (as_owner a) _ (k_mem_inv _ _ Hk2) Hu) as [H0 Hno]. split_and!; [done|done|done|done| |].
  - intros t e Ht He Ho. destruct (Hw t Ht) as [_ B]. destruct B as [c1 Ec1].
    { intros Hin. destruct (Hown t Hin) as (_ & x & Hx & Hox). congruence. }
    destruct (Hsm t Ht) as [c2 Ec2]. exists c2. by rewrite Ec2, Ec1, He.
  - intros t x Ht Hx. destruct (Hsm t Ht) as [c2 Ec2]. rewrite Hx in Ec2. destruct (Hw t Ht) as [A B].
    destruct (decide (t ∈ T)) as [Hin|Hin]; [by rewrite (A Hin) in Ec2|]. destruct (B Hin) as [c1 Ec1]. rewrite Ec1 in Ec2.
    destruct (info (ledger (k_mem ks)) t) as [e|]; [|done]. exists e, c2. split; [done|]. by injection Ec2 as ->.
Qed.

(** C12: Teardown terminates and leaves nothing behind. From any reachable
    state, 65 rounds are enough; [xproc_reap] returns the number of tokens the
    owner held, the space is dead and gone, no token of the owner is live any
    more and its usage is zero; every other owner's tokens are still live
    and unchanged but for their map counts, and the state is reachable again. *)
Theorem xproc_reap_correct fuel a ks S :
  reachable ks S -> a ∈ S -> (65 <= fuel)%nat ->
  exists ks', xproc_reap fuel (Some a) ks =
      Some ((xtok_owner_usage (as_owner a) (ledger (k_mem ks))).2, Some (mkAs (as_root a) (as_owner a) false), ks') /\
    reachable ks' (without a S) /\
    (forall t e, info (ledger (k_mem ks')) t = Some e -> owner_id e <> as_owner a) /\
    xtok_owner_usage (as_owner a) (ledger (k_mem ks')) = (0, 0) /\
    (forall t e, 0 <= t < 2 ^ 64 -> info (ledger (k_mem ks)) t = Some e -> owner_id e <> as_owner a ->
       exists c, info (ledger (k_mem ks')) t = Some (set_map_count e c)).
Proof.
  intros Hr Ha Hfuel. destruct (reap_spec fuel a ks S Hr Ha Hfuel) as (ks' & H1 & H2 & H3 & H4 & H5 & _). by exists ks'.
Qed.

End Calls.

(** * Witnesses *)

#[local] Existing Instance demo_boot_state.

Definition demo_sys : SysState := mkSys demo_ks3 (replicate 64 (mkQuota 0 0 false)).

(** A frame that asks for call [rax] with the arguments given. *)
Definition demo_call (rax rdi rsi rdx : Z) : ExcFrame :=
  mkFrame 0 0 0 0 0 0 0 0 0 rdi rsi rdx 0 0 rax 128 0 0 0x23 0x202 0 0x1B.

Lemma demo_regs : regs_ok (demo_call XSYS_ALLOC 3 0x2B 0).
Proof. split_and!; done. Qed.

Lemma xsys_quota_respected_witness :
  within_quota demo_sys 7 /\
  within_quota (run_calls [(demo_as, demo_call XSYS_ALLOC 3 0x2B 0); (demo_as, demo_call XSYS_ALLOC 3000 0x2B 0)] demo_sys) 7.
Proof.
  assert (within_quota demo_sys 7) as Hw by (split; vm_compute; discriminate). split; [exact Hw|].
  refine (proj1 (xsys_quota_respected _ demo_sys [demo_as] 7 demo_reach3 _ Hw)).
  repeat constructor; done.
Defined.

Lemma xsys_resource_confined_witness :
  reachable (s_k (xsys_resource demo_as (demo_call XSYS_ALLOC 3 0x2B 0) demo_sys).2) [demo_as].
Proof.
  pose proof (xsys_resource_confined demo_as (demo_call XSYS_ALLOC 3 0x2B 0) demo_sys [demo_as] demo_reach3 demo_in demo_regs) as H.
  revert H. destruct (xsys_resource demo_as (demo_call XSYS_ALLOC 3 0x2B 0) demo_sys) as [f' s']. exact (fun H => proj1 H).
Defined.

Lemma sys_alloc_correct_witness :
  f_rax (sys_alloc demo_as (demo_call XSYS_ALLOC 3 0x2B 0) demo_sys).1 = 0 /\
  exists e, allocated demo_as (demo_call XSYS_ALLOC 3 0x2B 0)
    (sys_alloc demo_as (demo_call XSYS_ALLOC 3 0x2B 0) demo_sys).1 demo_sys
    (sys_alloc demo_as (demo_call XSYS_ALLOC 3 0x2B 0) demo_sys).2 e.
Proof.
  assert (f_rax (sys_alloc demo_as (demo_call XSYS_ALLOC 3 0x2B 0) demo_sys).1 = 0) as H0 by (vm_compute; reflexivity).
  split; [exact H0|].
  pose proof (sys_alloc_correct demo_as (demo_call XSYS_ALLOC 3 0x2B 0) demo_sys [demo_as] demo_reach3 demo_in demo_regs) as H.
  revert H0 H. destruct (sys_alloc demo_as (demo_call XSYS_ALLOC 3 0x2B 0) demo_sys) as [f' s']. cbn [fst snd].
  intros H0 [_ [He|(_ & _ & Hx)]]; [exact He|].
  exfalso. rewrite H0 in Hx. discriminate Hx.
Defined.

Lemma sys_foreign_token_hidden_witness :
  f_rax (xsys_resource (mkAs 0 9 true) (demo_call XSYS_FREE demo_tok1 0 0) demo_sys).1 =
  f_rax (xsys_resource (mkAs 0 9 true) (demo_call XSYS_FREE 12345 0 0) demo_sys).1.
Proof.
  refine (proj1 (sys_foreign_token_hidden (mkAs 0 9 true) (demo_call XSYS_FREE 0 0 0) demo_sys [demo_as] demo_tok1 12345
    demo_reach3 _ _ (or_intror eq_refl))).
  - split; [exact demo_tok1_range|]. intros e He. assert (owner_id <$> info (k_ledger demo_sys) demo_tok1 = Some 7) as E by (vm_compute; reflexivity).
    rewrite He in E. injection E as ->. discriminate.
  - split; [done|]. intros e He. assert (info (k_ledger demo_sys) 12345 = None) as E by (vm_compute; reflexivity).
    rewrite He in E. discriminate E.
Defined.

Lemma xproc_reap_correct_witness :
  exists ks', xproc_reap 65 (Some demo_as) demo_ks3 = Some (1, Some (mkAs (as_root demo_as) 7 false), ks') /\
    xtok_owner_usage 7 (ledger (k_mem ks')) = (0, 0).
Proof.
  assert ((xtok_owner_usage 7 (ledger (k_mem demo_ks3))).2 = 1) as E by (vm_compute; reflexivity).
  destruct (xproc_reap_correct 65 demo_as demo_ks3 [demo_as] demo_reach3 demo_in (le_n 65)) as (ks' & E1 & _ & _ & E2 & _).
  change (as_owner demo_as) with 7 in *. rewrite E in E1. exists ks'. exact (conj E1 E2).
Defined.
