(* ===== verification/Frames.v ===== *)
(** Frame accounting: in every reachable state the frames in use are those in
    use at boot, those of live tokens and those of the tables of live address
    spaces, and no frame is two of these. So no call of [physical.c],
    [token.c] or [paging.c], failed or not, loses a frame. *)

From S2P Require Import Prelude.
From S2P Require Import Physical.
From S2P Require Import Ledger.
From S2P Require Import Paging.
From S2P Require Import PageTree.
From S2P Require Import Aspace.
From S2P Require Import Sys.

#[local] Ltac Zify.zify_post_hook ::= Z.div_mod_to_equations.

(** A frame of a live token. *)
Definition tok_frame (l : Ledger) (f : Z) : Prop :=
  exists t e, 0 <= t < 2 ^ 64 /\ info l t = Some e /\ in_frames e f.

Definition owned_frame (R : list Z) (st : MemState) (f : Z) : Prop :=
  tok_frame (ledger st) f \/ tab_frame R (mem st) f.

(** The frames in use are those in use in [P0] and the owned ones, apart. *)
Record accounted (P0 : PhysBitmap) (R : list Z) (st : MemState) : Prop := {
  ac_bits : forall f, 0 <= f -> bit_test (phys st) f = false <-> bit_test P0 f = false \/ owned_frame R st f;
  ac_boot : forall f, 0 <= f -> bit_test P0 f = false -> ~ owned_frame R st f;
  ac_total : total_frames (phys st) = total_frames P0
}.

(** ** Single steps *)

(** A step that takes the frames [A] and gives back the frames [D]. *)
Lemma accounted_step P0 R R' st st' (A D : Z -> Prop) :
  accounted P0 R st -> total_frames (phys st') = total_frames (phys st) ->
  (forall f, 0 <= f -> A f -> bit_test (phys st) f = true) ->
  (forall f, 0 <= f -> D f -> owned_frame R st f) ->
  (forall f, 0 <= f -> bit_test (phys st') f = false <-> (bit_test (phys st) f = false /\ ~ D f) \/ A f) ->
  (forall f, 0 <= f -> owned_frame R' st' f <-> (owned_frame R st f /\ ~ D f) \/ A f) ->
  accounted P0 R' st'.
Proof.
  intros [Hb H0 Ht] Ht' HA HD Hb' Ho'. split; [..|congruence]; intros f Hf;
    specialize (Hb f Hf); specialize (H0 f Hf); specialize (HA f Hf); specialize (HD f Hf); specialize (Hb' f Hf); specialize (Ho' f Hf).
  - rewrite Hb', Ho'. destruct Hb as [Hb1 Hb2]. split; [tauto|]. intros [Hp|Hr]; [left|tauto].
    split; [tauto|]. intros Hd. by apply H0; auto.
  - intros Hp Ho. apply Ho' in Ho as [[Ho _]|Ha]; [by apply H0|]. specialize (HA Ha). rewrite (proj2 Hb (or_introl Hp)) in HA. done.
Qed.

Lemma tok_frame_same l l' f : same_tokens l l' -> tok_frame l' f <-> tok_frame l f.
Proof.
  intros Hs. split; intros (t & e & Ht & He & Hf); destruct (Hs t Ht) as [c Hc].
  - rewrite He in Hc. destruct (info l t) as [x|] eqn:E; [|done]. injection Hc as ->. exists t, x. done.
  - rewrite He in Hc. eexists t, _. done.
Qed.

Lemma tab_frame_kept R st st' f : pt_wf st R -> tables_kept R st st' -> tab_frame R (mem st') f <-> tab_frame R (mem st) f.
Proof.
  intros Hw Hk. split; intros (r & q & t & Hr & Hq & Ht & Hf); exists r, q, t; (split_and!; [done|done| |done]).
  - by rewrite <- (kept_node R st st').
  - by rewrite (kept_node R st st').
Qed.

(** Tables may be added, in frames that were free. *)
Record grows (R : list Z) (st st' : MemState) : Prop := {
  gr_bits : forall f, 0 <= f -> bit_test (phys st') f = false <-> bit_test (phys st) f = false \/ tab_frame R (mem st') f;
  gr_old : forall f, 0 <= f -> tab_frame R (mem st) f -> tab_frame R (mem st') f;
  gr_new : forall f, 0 <= f -> tab_frame R (mem st') f -> tab_frame R (mem st) f \/ bit_test (phys st) f = true;
  gr_total : total_frames (phys st') = total_frames (phys st)
}.

Lemma tab_used R st f : pt_wf st R -> tab_frame R (mem st) f -> bit_test (phys st) f = false.
Proof. intros Hw (r & q & t & Hr & Hq & Ht & <-). by apply (tk_used _ _ (pw_node _ _ Hw r q t Hr Hq Ht)). Qed.

Lemma frame_grows R st st' : pt_wf st' R -> pt_frame R st st' -> grows R st st'.
Proof.
  intros Hw Hf. split; [| | |apply Hf].
  - intros f H0. split; [|intros [H|H]; [by apply (pf_used _ _ _ Hf)|by apply (tab_used R)]].
    intros H. destruct (bit_test (phys st) f) eqn:E; [right|by left]. by apply (pf_back _ _ _ Hf).
  - intros f _ (r & q & t & Hr & Hq & Ht & E). exists r, q, t. split_and!; [done|done|by apply (pf_node _ _ _ Hf)|done].
  - intros f _ (r & q & t & Hr & Hq & Ht & <-). destruct (pf_new _ _ _ Hf r q t Hr Hq Ht) as [H|[_ H]]; [left|by right].
    by exists r, q, t.
Qed.

(** Only frames and words matter. *)
Lemma grows_same R st st' st1 st1' :
  grows R st1 st1' -> phys st = phys st1 -> mem st = mem st1 -> phys st' = phys st1' -> mem st' = mem st1' -> grows R st st'.
Proof. intros [H1 H2 H3 H4] E1 E2 E3 E4. split; by rewrite ?E1, ?E2, ?E3, ?E4. Qed.

Lemma grows_kept R st st' : pt_wf st R -> tables_kept R st st' -> total_frames (phys st') = total_frames (phys st) ->
  (forall f, 0 <= f -> bit_test (phys st') f = bit_test (phys st) f) -> grows R st st'.
Proof.
  intros Hw Hk Et E. split; [| | |done]; intros f Hf; rewrite ?E, (tab_frame_kept R st st') by done; [|done|by left].
  split; [by left|]. intros [H|H]; [done|by apply (tab_used R)].
Qed.

Lemma grows_trans R st1 st2 st3 : grows R st1 st2 -> grows R st2 st3 -> grows R st1 st3.
Proof.
  intros [A1 A2 A3 A4] [B1 B2 B3 B4]. split; [| | |congruence]; intros f Hf.
  - rewrite B1, A1 by done. specialize (B2 f Hf). tauto.
  - auto.
  - intros H. destruct (B3 f Hf H) as [H2|H2]; [by apply A3|]. right. destruct (bit_test (phys st1) f) eqn:E; [done|].
    rewrite (proj2 (A1 f Hf)) in H2 by (by left). done.
Qed.

Lemma accounted_grows P0 R st st' :
  accounted P0 R st -> grows R st st' -> same_tokens (ledger st) (ledger st') -> accounted P0 R st'.
Proof.
  intros Ha Hg Hs. apply (accounted_step P0 R R st st' (fun f => tab_frame R (mem st') f /\ bit_test (phys st) f = true) (fun _ => False)).
  - done.
  - apply Hg.
  - by intros f _ [_ ?].
  - done.
  - intros f Hf. rewrite (gr_bits _ _ _ Hg) by done. destruct (bit_test (phys st) f) eqn:E; naive_solver.
  - intros f Hf. unfold owned_frame. rewrite (tok_frame_same _ _ _ Hs).
    pose proof (gr_old _ _ _ Hg f Hf). pose proof (gr_new _ _ _ Hg f Hf). tauto.
Qed.

(** ** The ledger's steps *)

Lemma ram_frames g owner s n rts f : in_frames (ram_entry g owner (s * 4096) n rts) f <-> s <= f < s + n.
Proof. unfold in_frames. cbn [ram_entry e_phys n_frames]. by rewrite Z.div_mul by done. Qed.

Lemma accounted_grant P0 R ok owner n rts st tok st' :
  pt_wf st R -> 0 < n -> grant_result ok owner n rts st (tok, st') -> mem_inv st' -> accounted P0 R st -> accounted P0 R st'.
Proof.
  intros Hw Hn Hg Hi Ha. pose proof (grant_kept _ _ _ _ _ _ _ R Hw Hn Hg Hi) as Hk.
  destruct Hg as [(_ & s & g & Hs & _ & _ & Hrun & Hset & Ht & (i & e & _ & _ & _ & Etok & Hrng & _ & Hno & Hinfo) & _)|(_ & (Et & _ & _ & Hb) & Hl & _)].
  2: { apply (accounted_grows P0 R st); [done|by apply grows_kept|]. rewrite Hl. apply same_tokens_refl. }
  apply (accounted_step P0 R R st st' (fun f => s <= f < s + n) (fun _ => False)); try done.
  - intros f _. apply Hrun.
  - intros f Hf. rewrite Hset by done. case_decide; tauto.
  - intros f Hf. unfold owned_frame. rewrite (tab_frame_kept R st st') by done.
    enough (tok_frame (ledger st') f <-> tok_frame (ledger st) f \/ s <= f < s + n) as -> by tauto. split.
    + intros (t & x & Ht' & Hx & Hin). rewrite Hinfo in Hx by done. case_decide; [|left; by exists t, x].
      injection Hx as <-. right. by apply ram_frames in Hin.
    + intros [(t & x & Ht' & Hx & Hin)|Hin].
      * exists t, x. split_and!; [lia|lia| |done]. rewrite Hinfo by done. rewrite decide_False; [done|congruence].
      * exists tok, (ram_entry (generation e) owner (s * 4096) n rts). split_and!; [lia|lia| |by apply ram_frames].
        by rewrite Hinfo, decide_True by lia.
Qed.

Lemma accounted_released P0 R st st' tok e :
  pt_wf st R -> 0 <= tok < 2 ^ 64 -> info (ledger st) tok = Some e -> released st st' tok e -> mem_inv st' ->
  accounted P0 R st -> accounted P0 R st'.
Proof.
  intros Hw Ht He Hrel Hi Ha. pose proof (released_kept _ _ _ _ R Hw He Hrel Hi) as Hk.
  pose proof Hrel as (Hset & Et & _ & _ & Hinfo).
  apply (accounted_step P0 R R st st' (fun _ => False) (in_frames e)); try done.
  - intros f _ Hf. left. by exists tok, e.
  - intros f Hf. rewrite Hset by done. unfold in_frames. case_decide; naive_solver.
  - intros f Hf. unfold owned_frame. rewrite (tab_frame_kept R st st') by done.
    assert (tab_frame R (mem st) f -> ~ in_frames e f) as Htab.
    { intros (r & q & t & Hr & Hq & Htt & <-). pose proof He as (_ & _ & Hs & Hl & _)%info_Some.
      exact (tk_free _ _ (pw_node _ _ Hw r q t Hr Hq Htt) _ e Hs Hl). }
    enough (tok_frame (ledger st') f <-> tok_frame (ledger st) f /\ ~ in_frames e f) as -> by tauto. split.
    + intros (t & x & Ht' & Hx & Hin). rewrite Hinfo in Hx by done. case_decide as D; [done|]. split; [by exists t, x|].
      intros Hf'. apply D. by apply (info_disjoint st t tok x e f (pw_mem _ _ Hw)).
    + intros [(t & x & Ht' & Hx & Hin) Hn]. exists t, x. split_and!; [lia|lia| |done]. rewrite Hinfo by done.
      rewrite decide_False; [done|]. intros ->. rewrite Hx in He. by simplify_eq.
Qed.

Lemma accounted_release P0 R tok flags owner st : pt_wf st R -> 0 <= tok < 2 ^ 64 ->
  accounted P0 R st -> accounted P0 R (release_impl tok flags owner st).2.
Proof.
  intros Hw Ht Ha. pose proof (release_impl_spec tok flags owner st (pw_mem _ _ Hw) Ht) as Hs.
  destruct (info (ledger st) tok) as [e|] eqn:He; [|by rewrite Hs]. destruct (_ && _); [by rewrite Hs|].
  destruct (_ && _); [by rewrite Hs|]. destruct (negb _); [by rewrite Hs|]. destruct Hs as (st' & -> & Hr & Hi).
  by apply (accounted_released P0 R st st' tok e).
Qed.

(** ** The steps of [paging.c] *)

Lemma pt_rel_grows R st st' P : pt_rel R st st' P -> grows R st st'.
Proof. intros [Hw Hf _]. by apply frame_grows. Qed.

Lemma grows_refl R st : pt_wf st R -> grows R st st.
Proof. intros H. by apply frame_grows, pt_frame_refl. Qed.

Lemma drop_grows ks S i : k_inv ks S -> (forall rc, g_maps ks !! i = Some rc -> r_live rc = true) ->
  grows (roots S) (k_mem ks) (k_mem (drop_record i ks)).
Proof.
  intros Hk Hl. unfold drop_record. destruct (g_maps ks !! i) as [rc|] eqn:E; [|by apply grows_refl, Hk].
  destruct (ki_rec _ _ Hk i rc E (Hl _ eq_refl)) as (e & p & Hok).
  pose proof (unmap_pages_spec (roots S) (k_mem ks) (as_pml4 rc) (r_virt rc) (r_pages rc) (ki_pt _ _ Hk)
    (drop_root ks S Hk i rc E (Hl _ eq_refl)) (ro_range _ _ _ _ _ Hok)) as Hu.
  by apply (grows_same _ _ _ (k_mem ks) _ (pt_rel_grows _ _ _ _ Hu)).
Qed.

Lemma drop_all_grows P (HPl : forall rc, P rc = true -> r_live rc = true) ks S : k_inv ks S ->
  grows (roots S) (k_mem ks) (k_mem (drop_all P ks).2).
Proof.
  intros Hk. unfold drop_all.
  enough (k_inv (for_range 0 XAS_MAX_MAPS (drop_where P) (0, ks)).2 S /\
    grows (roots S) (k_mem ks) (k_mem (for_range 0 XAS_MAX_MAPS (drop_where P) (0, ks)).2)) as [_ ?] by done.
  apply (for_range_inv (fun _ acc => k_inv acc.2 S /\ grows (roots S) (k_mem ks) (k_mem acc.2))); [done| |].
  - split; [done|]. by apply grows_refl, Hk.
  - intros k [n ks1] _ [Hk1 Hg]. unfold drop_where. cbn [snd] in *. rewrite Z.add_0_l.
    destruct (g_maps ks1 !! Z.to_nat k) as [rc|] eqn:E; [|done]. destruct (P rc) eqn:EP; [|done]. cbn [snd].
    split; [by apply (drop_record_inv ks1 S Hk1 _ rc); auto|]. eapply grows_trans; [exact Hg|].
    apply drop_grows; [done|]. intros x Hx. rewrite E in Hx. simplify_eq. auto.
Qed.

Lemma leaf_present perms : Z.testbit (leaf_bits perms) 0 = true.
Proof. unfold leaf_bits. by destruct (tst (perms .& XPERM_W)), (tst (perms .& XPERM_X)). Qed.

Lemma map_grows ks S a virt tok perms : k_inv ks S -> a ∈ S -> 0 <= tok < 2 ^ 64 -> 0 <= perms < 2 ^ 32 ->
  grows (roots S) (k_mem ks) (k_mem (xas_map (Some a) virt tok perms ks).2).
Proof.
  intros Hk Ha Htok Hpr. pose proof (grows_refl (roots S) _ (ki_pt _ _ Hk)) as Hid. unfold xas_map.
  destruct (ki_space _ _ Hk a Ha) as [-> _]. cbn [negb].
  destruct (_ || _) eqn:Ep; [done|]. destruct (_ && _) eqn:Ewx; [done|]. destruct (negb _) eqn:Eal; [done|].
  destruct (_ || _) eqn:Er in |- *; [done|]. unfold xas_map_locked. destruct (countb _ _ >=? _); [done|].
  destruct (xtok_map_acquire tok (as_owner a) (need_rights perms) (ledger (k_mem ks))) as [[rc [ph n]] l] eqn:Hacq.
  destruct (Z.eqb_spec rc XTOK_MAP_OK) as [->|Hne]; cbn [negb]; [|done].
  apply acquire_ok in Hacq as (e & Hi & -> & -> & -> & Ho & Hri & Hmax).
  destruct (_ || _) eqn:En in |- *; [by apply (grows_same _ _ _ _ _ Hid)|].
  destruct (find_dead (g_maps ks) 0) as [i|]; [|by apply (grows_same _ _ _ _ _ Hid)].
  set (st0 := set_ledger _ _). pose proof (ml_wf ks S Hk tok Htok e Hi Hmax) as Hw0. fold st0 in Hw0.
  assert (user_range virt (n_frames e)) as Hrg.
  { apply orb_false_iff in Er as [E1 E2], En as [E3 E4]. apply negb_false_iff, Z.eqb_eq in Eal.
    change (XERET_FRAME_SIZE - 1) with (2 ^ 12 - 1) in Eal. rewrite land_pow2_mod in Eal by lia. change XERET_FRAME_SIZE with 4096 in E4.
    rewrite Z.geb_leb in E2. rewrite Z.gtb_ltb in E4. destruct (eo_live e) as (_ & _ & _ & Hn); try apply (info_entry _ _ _ (ml_lw ks S Hk) Hi).
    unfold user_range, XAS_USER_BASE, XAS_USER_TOP in *. lia. }
  pose proof (map_loop_spec (roots S) st0 (as_root a) virt (n_frames e) (e_phys e) (leaf_bits perms)
    (list_elem_of_fmap_2 _ _ _ Ha) Hrg (ml_frames ks S Hk tok Htok e Hi) (leaf_present perms) (Z.to_nat (n_frames e)) 0 st0) as Hml.
  destruct (map_loop _ _ _ _ _ _ st0) as [r st1]. assert (grows (roots S) st0 st1) as Hg.
  { destruct Hml as [(_ & H & _)|[_ H]]; try exact (pt_rel_grows _ _ _ _ H); [lia| | |].
    - unfold user_range in Hrg. lia.
    - eapply pt_rel_eq; [by apply pt_rel_refl|]. intros. unfold pmap_fill. by rewrite decide_False by lia.
    - intros va _ Hin. lia. }
  destruct (negb (r =? XAS_OK)); by apply (grows_same _ _ _ _ _ Hg).
Qed.

Lemma accounted_create P0 ks S owner rc a ks' : k_inv ks S -> 0 <= owner < 2 ^ 32 -> xas_create owner ks = (rc, a, ks') ->
  accounted P0 (roots S) (k_mem ks) ->
  accounted P0 (roots (match a with Some a => a :: S | None => S end)) (k_mem ks').
Proof.
  intros Hk Ho E Hac. pose proof (ki_pt _ _ Hk) as Hpt. unfold xas_create in E.
  destruct (_ || _); [by simplify_eq|].
  pose proof (alloc_zero_table_spec (k_mem ks) (pw_mem _ _ Hpt)) as Ha.
  destruct (alloc_zero_table (k_mem ks)) as [c st1]. destruct Ha as [[-> ->]|[Hc0 Hc]].
  { cbn [Z.eqb] in E. by simplify_eq. }
  destruct (Z.eqb_spec c 0); [done|]. cbn [set_kmem g_pml4_phys k_mem] in E. destruct (existsb _ _) in E; simplify_eq; cbn [set_kmem k_mem].
  - destruct (free_fresh _ _ _ (pw_mem _ _ Hpt) Hc) as (_ & Ht & Hb).
    apply (accounted_grows P0 _ (k_mem ks)); [done| |cbn [ledger]; rewrite (ft_ledger _ _ _ Hc); apply same_tokens_refl].
    by apply grows_kept; [|exact (undo_kept ks S c st1 Hk Hc)| |].
  - destruct (create_copy ks st1 c Hc) as (H1 & H2 & H3 & H4). set (st2 := for_range _ _ _ _) in *.
    assert (mem_inv st2) as Hi2. { destruct (ft_inv _ _ _ Hc) as [I1 I2 I3]. split; rewrite ?H1, ?H2; done. }
    pose proof (cr_kept (roots S) (k_mem ks) st1 st2 c Hpt Hc H1 H2 H3 Hi2) as Hkept.
    apply (accounted_step P0 (roots S) _ (k_mem ks) st2 (fun f => f = c / 4096) (fun _ => False)); try done.
    + rewrite H1. apply Hc.
    + intros f _ ->. apply Hc.
    + intros f Hf. rewrite H1, (ft_set _ _ _ Hc) by done. case_decide; [split; [right; lia|done]|].
      split; [by left; split; [|intros []]|]. intros [[? _]|E]; [done|lia].
    + intros f Hf. unfold owned_frame. rewrite H2, (ft_ledger _ _ _ Hc). cbn [roots fmap list_fmap as_root]. fold (roots S).
      enough (tab_frame (c :: roots S) (mem st2) f <-> tab_frame (roots S) (mem (k_mem ks)) f \/ f = c / 4096) as -> by tauto.
      rewrite <- (tab_frame_kept (roots S) (k_mem ks) st2) by done. split.
      * intros (r & q & t & [->|Hr]%elem_of_cons & Hq & Ht & <-); [right|left; by exists r, q, t].
        rewrite (cr_new st2 c H4) in Ht by done. case_decide; by simplify_eq.
      * intros [(r & q & t & Hr & Hq & Ht & <-)| ->]; [exists r, q, t; by rewrite elem_of_cons; auto|].
        exists c, [], c. split_and!; [by left|apply upath_nil|done|done].
Qed.

Lemma tab_frame_without ks S a f : k_inv ks S -> a ∈ S ->
  tab_frame (roots (without a S)) (mem (k_mem ks)) f <->
  tab_frame (roots S) (mem (k_mem ks)) f /\ ~ root_frames (mem (k_mem ks)) (as_root a) f.
Proof.
  intros Hk Ha. pose proof (ki_pt _ _ Hk) as Hpt. assert (as_root a ∈ roots S) as Hra by (by apply list_elem_of_fmap_2).
  rewrite (root_frames_node (k_mem ks)). split.
  - intros (r & q & t & [Hr Hne]%roots_without & Hq & Ht & <-). split; [by exists r, q, t|].
    intros (q' & t' & Hq' & Ht' & E). pose proof (tk_align _ _ (pw_node _ _ Hpt _ _ _ Hr Hq Ht)).
    pose proof (tk_align _ _ (pw_node _ _ Hpt _ _ _ Hra Hq' Ht')). assert (t' = t) as -> by lia.
    by destruct (pw_inj _ _ Hpt r (as_root a) q q' t).
  - intros [(r & q & t & Hr & Hq & Ht & <-) Hno]. exists r, q, t. split_and!; [|done|done|done].
    apply roots_without. split; [done|]. intros ->. apply Hno. by exists q, t.
Qed.

Lemma accounted_destroy P0 ks S a : k_inv ks S -> a ∈ S -> accounted P0 (roots S) (k_mem ks) ->
  accounted P0 (roots (without a S)) (k_mem (xas_destroy (Some a) ks).2).
Proof.
  intros Hk Ha Hac. unfold xas_destroy. destruct (ki_space _ _ Hk a Ha) as [-> _]. cbn [negb snd].
  pose proof (drop_all_grows _ (rec_in_live (as_root a)) ks S Hk) as Hg.
  destruct (drop_all_spec _ (rec_in_live (as_root a)) ks S Hk) as (Hk1 & _ & _ & _ & Hs).
  generalize dependent ((drop_all (rec_in (as_root a)) ks).2). intros ks1 Hg Hk1 Hs.
  pose proof (accounted_grows _ _ _ _ Hac Hg Hs) as H1. cbn [set_kmem k_mem].
  assert (as_root a ∈ roots S) as Hra by (by apply list_elem_of_fmap_2).
  pose proof (free_space_spec _ _ (ki_pt _ _ Hk1) _ Hra) as Hf. generalize dependent (free_frame (as_root a) (free_user_half (as_root a) (k_mem ks1))).
  intros st' [Fm Fl Ft _ Fb].
  apply (accounted_step P0 (roots S) _ (k_mem ks1) st' (fun _ => False) (root_frames (mem (k_mem ks1)) (as_root a))); try done.
  - intros f _ (q & t & Hq & Ht & ->)%(root_frames_node (k_mem ks1)). right. by exists (as_root a), q, t.
  - intros f Hf. rewrite <- !not_true_iff_false, Fb by done. tauto.
  - intros f Hf. unfold owned_frame. rewrite Fl, Fm, (tab_frame_without ks1 S a f Hk1 Ha).
    enough (tok_frame (ledger (k_mem ks1)) f -> ~ root_frames (mem (k_mem ks1)) (as_root a) f) by tauto.
    intros (t & e & Ht & (_ & _ & He & Hl & _)%info_Some & Hin) (q & x & Hq & Hx & ->)%(root_frames_node (k_mem ks1)).
    exact (tk_free _ _ (pw_node _ _ (ki_pt _ _ Hk1) _ q x Hra Hq Hx) _ e He Hl Hin).
Qed.

Lemma kstep_accounted P0 s s' : kstep s s' -> k_inv s.1 s.2 ->
  accounted P0 (roots s.2) (k_mem s.1) -> accounted P0 (roots s'.2) (k_mem s'.1).
Proof.
  destruct 1 as [ks S owner n rts Ho Hn|ks S owner rts Ho|ks S tok Ht|ks S tok owner Ht|ks S tok Ht
    |ks S owner rc a ks' Ho Hc|ks S a virt tok perms rc ks' Ha Ht Hp Hm|ks S a virt rc ks' Ha Hu|ks S tok|ks S a Ha|ks S tok e x v Hi Hx];
    cbn [fst snd set_kmem k_mem]; intros Hk Hac; pose proof (ki_pt _ _ Hk) as Hpt.
  - destruct (decide (n = 0)) as [->|]; [done|].
    destruct (xtok_alloc_ram_spec owner n rts (k_mem ks) (pw_mem _ _ Hpt) Ho) as [Hg Hi]; [lia|].
    destruct (xtok_alloc_ram _ _ _ _) as [tok st']. eapply accounted_grant; [exact Hpt| |exact Hg|done|done]. lia.
  - destruct (xtok_alloc_ram_huge_spec owner rts (k_mem ks) (pw_mem _ _ Hpt) Ho) as [Hg Hi].
    destruct (xtok_alloc_ram_huge _ _ _) as [tok st']. by eapply accounted_grant; [exact Hpt| |exact Hg|..].
  - pose proof (accounted_release P0 (roots S) tok REL_CHECK_RIGHT 0 (k_mem ks) Hpt Ht Hac) as H. unfold xtok_release.
    by destruct (release_impl _ _ _ _).
  - by apply accounted_release.
  - by apply accounted_release.
  - by apply (accounted_create P0 ks S owner rc).
  - pose proof (map_grows ks S a virt tok perms Hk Ha Ht Hp) as Hg.
    pose proof (xas_map_tokens ks S a virt tok perms Hk Ha Ht Hp) as Hs. rewrite Hm in Hg, Hs.
    by apply (accounted_grows P0 _ (k_mem ks)).
  - pose proof (xas_unmap_tokens ks S a virt Hk) as Hs. rewrite Hu in Hs. apply (accounted_grows P0 _ (k_mem ks)); [done| |done].
    unfold xas_unmap in Hu. destruct (negb _) in Hu; [simplify_eq; by apply grows_refl|].
    destruct (find_rec _ _ _) as [i|] eqn:E in Hu; simplify_eq; [|by apply grows_refl].
    apply drop_grows; [done|]. intros rc Hrc. apply find_rec_spec in E as (j & rc' & -> & Hj & Hr). cbn in Hrc. rewrite Hj in Hrc. simplify_eq.
    unfold rec_at in Hr. by apply andb_true_iff in Hr as [[? _]%andb_true_iff _].
  - apply (accounted_grows P0 _ (k_mem ks)); [done|by apply drop_all_grows; [apply rec_tok_live|]|].
    by apply (drop_all_spec _ (rec_tok_live tok) ks S Hk).
  - by apply accounted_destroy.
  - pose proof (write_kept ks S tok e x v Hk Hi Hx) as Hw.
    apply (accounted_grows P0 _ (k_mem ks)); [done|by apply grows_kept|apply same_tokens_refl].
Qed.

(** * Counting *)

(** The frames of all live tokens. *)
Fixpoint live_sum (tbl : list XTokenEntry) : Z :=
  match tbl with
  | [] => 0
  | e :: tbl => (if live e then n_frames e else 0) + live_sum tbl
  end.

Definition live_frame (tbl : list XTokenEntry) (f : Z) : bool := existsb (fun e => live e && bool_decide (in_frames e f)) tbl.

Lemma live_frame_spec tbl f : live_frame tbl f = true <-> exists i e, tbl !! i = Some e /\ live e = true /\ in_frames e f.
Proof.
  unfold live_frame. rewrite existsb_exists. split.
  - intros (e & Hin%list_elem_of_In & [Hl Hf%bool_decide_eq_true_1]%andb_true_iff). apply list_elem_of_lookup in Hin as [i Hi]. eauto.
  - intros (i & e & Hi & Hl & Hf). exists e. split; [by eapply list_elem_of_In, list_elem_of_lookup_2|].
    rewrite Hl. by apply bool_decide_eq_true_2.
Qed.

Lemma live_sum_count p tbl : own_ok p tbl -> Forall entry_ok tbl ->
  live_sum tbl = countb (live_frame tbl) (seqZ 0 (total_frames p)).
Proof.
  intros Ho Hok. induction Hok as [|e tbl He Hok IH]; [symmetry; by apply countb_zero|].
  cbn [live_sum]. rewrite (IH (own_ok_tail _ _ _ Ho)). destruct (live e) eqn:Hl.
  2: { apply countb_ext. intros f _. cbn. by rewrite Hl. }
  destruct (eo_live e He Hl) as (_ & Hph & _ & Hn). pose proof (oo_range _ _ Ho 0%nat e eq_refl Hl) as Hr.
  rewrite Z.add_comm. symmetry.
  apply (countb_seqZ_range _ _ 0 _ (e_phys e / 4096) (n_frames e)); [lia|lia|lia| |].
  - intros f Hf. split.
    + apply not_true_iff_false. intros (j & e' & Hj & Hl' & Hf')%live_frame_spec.
      by pose proof (oo_disj _ _ Ho 0%nat (Datatypes.S j) e e' f eq_refl Hj Hl Hl' Hf Hf').
    + cbn. rewrite Hl. by rewrite bool_decide_eq_true_2.
  - intros f Hf Hn'. cbn. rewrite Hl, bool_decide_eq_false_2; [done|]. unfold in_frames. lia.
Qed.

Lemma countb_sum {A} (P Q R : A -> bool) l : (forall x, x ∈ l -> P x = Q x || R x) -> (forall x, x ∈ l -> Q x && R x = false) ->
  countb P l = countb Q l + countb R l.
Proof.
  induction l as [|x l IH]; intros H1 H2; cbn [countb]; [done|].
  rewrite IH by (intros; (apply H1 || apply H2); by right). pose proof (H1 x ltac:(by left)) as E1. pose proof (H2 x ltac:(by left)) as E2.
  rewrite E1. destruct (Q x), (R x); (done || cbn; lia).
Qed.

Lemma tok_frame_live st f : mem_inv st -> tok_frame (ledger st) f <-> live_frame (g_table (ledger st)) f = true.
Proof.
  intros Hm. rewrite live_frame_spec. split.
  - intros (t & e & _ & (_ & _ & He & Hl & _)%info_Some & Hf). eauto.
  - intros (i & e & He & Hl & Hf). apply lookup_lt_Some in He as Hlt. rewrite (lw_len _ (mi_ledger _ Hm)) in Hlt.
    pose proof (eo_gen _ (entry_of _ _ _ (mi_ledger _ Hm) He)) as Hg.
    exists (pack_token (Z.of_nat i) (generation e)), e. pose proof (pack_token_range (Z.of_nat i) (generation e)).
    split_and!; [lia|lia| |done]. apply info_pack; [by apply Hm|lia|by rewrite Nat2Z.id|done].
Qed.

Section Accounts.
Context `{Bt : Boot}.

Lemma reachable_accounted ks S : reachable ks S -> accounted (phys (k_mem boot_state)) (roots S) (k_mem ks).
Proof.
  intros [Hb Hr].
  assert (accounted (phys (k_mem boot_state)) (roots []) (k_mem boot_state)) as H0.
  { assert (forall f, ~ owned_frame [] (k_mem boot_state) f) as Hno.
    { intros f [(t & e & _ & (_ & _ & He & Hl & _)%info_Some & _)|(r & q & t & ?%elem_of_nil & _)]; [|done].
      rewrite (kb_ledger _ Hb) in He. cbn [xtok_init g_table] in He. apply lookup_replicate in He as [-> _]. done. }
    split; [|by intros f _ _|done]. intros f _. split; [by left|]. by intros [?|?%Hno]. }
  apply boot_k_inv in Hb. remember (boot_state, []) as s eqn:Es. remember (ks, S) as s' eqn:Es'.
  assert (k_inv s.1 s.2) as Hk by (by subst). assert (accounted (phys (k_mem boot_state)) (roots s.2) (k_mem s.1)) as Ha by (by subst).
  assert (accounted (phys (k_mem boot_state)) (roots s'.2) (k_mem s'.1)) as H; [|by subst]. clear Es Es' Hb H0.
  induction Hr as [s|s1 s2 s3 Hst _ IH]; [done|]. apply IH; [by apply (kstep_inv s1)|by apply (kstep_accounted _ s1)].
Qed.

(** With no address space alive, the free frames are those free at boot less
    the frames of the live tokens. *)
Lemma free_count ks : reachable ks [] ->
  phys_free_count (phys (k_mem ks)) + live_sum (g_table (ledger (k_mem ks))) = phys_free_count (phys (k_mem boot_state)).
Proof.
  intros Hr. pose proof (reachable_accounted ks [] Hr) as [Hb H0 Ht]. apply reachable_inv in Hr as Hk.
  pose proof (k_mem_inv _ _ Hk) as Hm. destruct Hr as [Hboot _]. unfold phys_free_count.
  rewrite (wf_free _ (mi_phys _ Hm)), (wf_free _ (kb_phys _ Hboot)), Ht.
  rewrite (live_sum_count (phys (k_mem ks))), Ht by apply Hm. symmetry.
  assert (forall f, owned_frame [] (k_mem ks) f <-> live_frame (g_table (ledger (k_mem ks))) f = true) as Ho.
  { intros f. unfold owned_frame. rewrite tok_frame_live by done. split; [|by left].
    intros [?|(r & q & t & ?%elem_of_nil & _)]; done. }
  apply countb_sum; intros f Hf%elem_of_seqZ; specialize (Hb f ltac:(lia)); specialize (H0 f ltac:(lia)); rewrite Ho in Hb, H0.
  - destruct (bit_test (phys (k_mem boot_state)) f), (bit_test (phys (k_mem ks)) f), (live_frame _ f); try done; exfalso; naive_solver.
  - destruct (bit_test (phys (k_mem ks)) f), (live_frame _ f); try done. exfalso. naive_solver.
Qed.

End Accounts.

(** * Witness *)

#[local] Existing Instance demo_boot_state.

