(* ===== verification/Trap.v ===== *)
(** Traps: the descriptor tables of [gdt.c] and [idt.c], the entry and exit
    assembly of [isr_common], and the dispatch of [exception_handler].

    The assembly is a list of instructions run by [exec] on a machine state
    (registers, control registers and words of memory); [cpu_trap] is what
    the processor itself does when it delivers an interrupt in 64-bit mode. *)

From stdpp Require Import strings.
From S2P Require Import Prelude.
From S2P Require Import Physical.
From S2P Require Import Ledger.
From S2P Require Import Paging.
From S2P Require Import PageTree.
From S2P Require Import Aspace.
From S2P Require Import Sys.

#[local] Ltac Zify.zify_post_hook ::= Z.div_mod_to_equations.

(** * The machine *)

Inductive Reg := RAX | RBX | RCX | RDX | RSI | RDI | RBP | RSP
  | R8 | R9 | R10 | R11 | R12 | R13 | R14 | R15.

#[export] Instance Reg_eq_dec : EqDecision Reg.
Proof. solve_decision. Defined.

(** The two variables the assembly of [proc.c] names. *)
Inductive Global := g_xproc_resume_rsp | g_xproc_kernel_cr3.

#[export] Instance Global_eq_dec : EqDecision Global.
Proof. solve_decision. Defined.

Record Machine := mkMachine {
  m_reg : Reg -> Z;
  m_rip : Z; m_rflags : Z; m_cs : Z; m_ss : Z; m_cr3 : Z;
  m_global : Global -> Z;
  m_mem : gmap Z Z
}.

Definition word (m : Machine) (a : Z) : Z := mem_word (m_mem m) a.

Definition set_reg (m : Machine) (r : Reg) (v : Z) : Machine :=
  mkMachine (upd (m_reg m) r v) (m_rip m) (m_rflags m) (m_cs m) (m_ss m) (m_cr3 m) (m_global m) (m_mem m).
Definition store (m : Machine) (a v : Z) : Machine :=
  mkMachine (m_reg m) (m_rip m) (m_rflags m) (m_cs m) (m_ss m) (m_cr3 m) (m_global m) (<[a := v]> (m_mem m)).
Definition set_global (m : Machine) (g : Global) (v : Z) : Machine :=
  mkMachine (m_reg m) (m_rip m) (m_rflags m) (m_cs m) (m_ss m) (m_cr3 m) (upd (m_global m) g v) (m_mem m).
Definition set_cr3 (m : Machine) (v : Z) : Machine :=
  mkMachine (m_reg m) (m_rip m) (m_rflags m) (m_cs m) (m_ss m) v (m_global m) (m_mem m).

Inductive Instr :=
  | PUSH (r : Reg) | PUSHI (v : Z) | PUSHM (off : Z) (b : Reg) | POP (r : Reg)
  | MOV (src dst : Reg) | LOAD (off : Z) (b dst : Reg)
  | STOREG (src : Reg) (g : Global) | LOADG (g : Global) (dst : Reg) | MOVCR3 (src : Reg)
  | ADDQ (v : Z) (r : Reg) | SUBQ (v : Z) (r : Reg) | ANDQ (v : Z) (r : Reg)
  | IRETQ | RET.

Definition push (v : Z) (m : Machine) : Machine :=
  let sp := u64 (m_reg m RSP - 8) in set_reg (store m sp v) RSP sp.

Definition pop (r : Reg) (m : Machine) : Machine :=
  let sp := m_reg m RSP in set_reg (set_reg m RSP (u64 (sp + 8))) r (word m sp).

Definition exec (m : Machine) (i : Instr) : Machine :=
  match i with
  | PUSH r => push (m_reg m r) m
  | PUSHI v => push v m
  | PUSHM off b => push (word m (u64 (m_reg m b + off))) m
  | POP r => pop r m
  | MOV src dst => set_reg m dst (m_reg m src)
  | LOAD off b dst => set_reg m dst (word m (u64 (m_reg m b + off)))
  | STOREG src g => set_global m g (m_reg m src)
  | LOADG g dst => set_reg m dst (m_global m g)
  | MOVCR3 src => set_cr3 m (m_reg m src)
  | ADDQ v r => set_reg m r (u64 (m_reg m r + v))
  | SUBQ v r => set_reg m r (u64 (m_reg m r - v))
  | ANDQ v r => set_reg m r (m_reg m r .& u64 v)
  | IRETQ =>
    let sp := m_reg m RSP in
    mkMachine (upd (m_reg m) RSP (word m (sp + 24))) (word m sp) (word m (sp + 16)) (word m (sp + 8))
      (word m (sp + 32)) (m_cr3 m) (m_global m) (m_mem m)
  | RET =>
    let sp := m_reg m RSP in
    mkMachine (upd (m_reg m) RSP (u64 (sp + 8))) (word m sp) (m_rflags m) (m_cs m) (m_ss m) (m_cr3 m)
      (m_global m) (m_mem m)
  end.

Definition run (code : list Instr) (m : Machine) : Machine := fold_left exec code m.

Fixpoint push_all (vs : list Z) (m : Machine) : Machine :=
  match vs with [] => m | v :: vs => push_all vs (push v m) end.

(** The words the processor pushes, in order. *)
Definition hw_words (m : Machine) (err : option Z) : list Z :=
  [m_ss m; m_reg m RSP; m_rflags m; m_cs m; m_rip m] ++ match err with Some e => [e] | None => [] end.

(** Delivery of an interrupt on the stack [stk] (RSP0 of the TSS from ring 3,
    an IST stack, or the current stack): SS, RSP, RFLAGS, CS, RIP and, for some
    vectors, an error code are pushed; interrupts are off in the handler. *)
Definition cpu_trap (stk : Z) (err : option Z) (kernel_cs : Z) (m : Machine) : Machine :=
  let m' := push_all (hw_words m err) (set_reg m RSP stk) in
  mkMachine (m_reg m') (m_rip m') (Z.ldiff (m_rflags m') 0x200) kernel_cs (m_ss m') (m_cr3 m') (m_global m') (m_mem m').

(** * Entry and exit code *)

Definition pushes_error (vec : Z) : bool :=
  (vec =? 8) || (vec =? 10) || (vec =? 11) || (vec =? 12) || (vec =? 13) || (vec =? 14) ||
  (vec =? 17) || (vec =? 21) || (vec =? 29) || (vec =? 30).

Definition isr_stub (vec : Z) : list Instr :=
  (if pushes_error vec then [] else [PUSHI 0]) ++ [PUSHI vec].

Definition isr_syscall : list Instr := [PUSHI 0; PUSHI 0x80].

Definition isr_irq (ivec : Z) : list Instr := [PUSHI 0; PUSHI ivec].

(** [isr_common] up to the call of [exception_handler], and after it. *)
Definition isr_common_in : list Instr :=
  [PUSH RAX; PUSH RBX; PUSH RCX; PUSH RDX; PUSH RSI; PUSH RDI; PUSH RBP; PUSH R8;
   PUSH R9; PUSH R10; PUSH R11; PUSH R12; PUSH R13; PUSH R14; PUSH R15;
   MOV RSP RCX; MOV RSP RBP; ANDQ (-16) RSP; SUBQ 32 RSP].

Definition isr_common_out : list Instr :=
  [MOV RBP RSP;
   POP R15; POP R14; POP R13; POP R12; POP R11; POP R10; POP R9; POP R8;
   POP RBP; POP RDI; POP RSI; POP RDX; POP RCX; POP RBX; POP RAX;
   ADDQ 16 RSP; IRETQ].

(** The stub of a vector, as the gates route it. *)
Definition isr_entry (vec : Z) : list Instr :=
  (if vec <? 32 then isr_stub vec else if vec =? 0x80 then isr_syscall else isr_irq vec) ++ isr_common_in.

(** The frame structure at an address. *)
Definition frame_at (m : Machine) (p : Z) : ExcFrame :=
  mkFrame (word m p) (word m (p + 8)) (word m (p + 16)) (word m (p + 24)) (word m (p + 32)) (word m (p + 40))
    (word m (p + 48)) (word m (p + 56)) (word m (p + 64)) (word m (p + 72)) (word m (p + 80)) (word m (p + 88))
    (word m (p + 96)) (word m (p + 104)) (word m (p + 112)) (word m (p + 120)) (word m (p + 128))
    (word m (p + 136)) (word m (p + 144)) (word m (p + 152)) (word m (p + 160)) (word m (p + 168)).

(** The frame that describes the interrupted state [m]. *)
Definition frame_of (vec err : Z) (m : Machine) : ExcFrame :=
  mkFrame (m_reg m R15) (m_reg m R14) (m_reg m R13) (m_reg m R12) (m_reg m R11) (m_reg m R10) (m_reg m R9)
    (m_reg m R8) (m_reg m RBP) (m_reg m RDI) (m_reg m RSI) (m_reg m RDX) (m_reg m RCX) (m_reg m RBX)
    (m_reg m RAX) vec err (m_rip m) (m_cs m) (m_rflags m) (m_reg m RSP) (m_ss m).

(** * Running the entry and exit code *)

Fixpoint pop_all (rs : list Reg) (m : Machine) : Machine :=
  match rs with [] => m | r :: rs => pop_all rs (pop r m) end.

Lemma push_all_app vs ws m : push_all (vs ++ ws) m = push_all ws (push_all vs m).
Proof. revert m. induction vs as [|v vs IH]; intros m; [done|]. apply IH. Qed.

Lemma word_store m a v b : word (store m a v) b = if decide (a = b) then v else word m b.
Proof. apply mem_word_insert. Qed.

(** What a sequence of pushes leaves: the stack pointer, the words pushed,
    and everything at or above the old stack pointer. *)
Lemma push_all_spec vs m : 8 * Z.of_nat (length vs) <= m_reg m RSP < 2 ^ 64 ->
  m_reg (push_all vs m) RSP = m_reg m RSP - 8 * Z.of_nat (length vs) /\
  (forall r, r <> RSP -> m_reg (push_all vs m) r = m_reg m r) /\
  (forall i v, vs !! i = Some v -> word (push_all vs m) (m_reg m RSP - 8 * (Z.of_nat i + 1)) = v) /\
  (forall a, m_reg m RSP <= a \/ a < m_reg m RSP - 8 * Z.of_nat (length vs) -> word (push_all vs m) a = word m a).
Proof.
  revert m. induction vs as [|v vs IH]; intros m Hsp; cbn [length push_all] in *.
  { split_and!; [lia|done|done|done]. }
  assert (m_reg (push v m) RSP = m_reg m RSP - 8) as Esp.
  { unfold push, set_reg, upd. cbn. rewrite decide_True by done. apply u64_small. lia. }
  destruct (IH (push v m)) as (H1 & H2 & H3 & H4); [lia|]. rewrite Esp in *.
  assert (forall a, word (push v m) a = if decide (m_reg m RSP - 8 = a) then v else word m a) as Hw.
  { intros a. unfold push. rewrite u64_small by lia. apply word_store. }
  split_and!.
  - lia.
  - intros r Hr. rewrite H2 by done. unfold push, set_reg, upd. cbn. by rewrite decide_False.
  - intros [|i] w Hi; cbn in Hi.
    + simplify_eq. rewrite H4, Hw, decide_True by lia. done.
    + rewrite <- (H3 i w Hi). f_equal. lia.
  - intros a Ha. rewrite H4, Hw, decide_False by lia. done.
Qed.

(** What a sequence of pops into different registers leaves. *)
Lemma pop_all_spec rs m :
  NoDup rs -> RSP ∉ rs -> 0 <= m_reg m RSP -> m_reg m RSP + 8 * Z.of_nat (length rs) < 2 ^ 64 ->
  m_reg (pop_all rs m) RSP = m_reg m RSP + 8 * Z.of_nat (length rs) /\
  (forall r, r ∉ rs -> r <> RSP -> m_reg (pop_all rs m) r = m_reg m r) /\
  (forall i r, rs !! i = Some r -> m_reg (pop_all rs m) r = word m (m_reg m RSP + 8 * Z.of_nat i)) /\
  m_mem (pop_all rs m) = m_mem m /\ m_cr3 (pop_all rs m) = m_cr3 m /\ m_global (pop_all rs m) = m_global m.
Proof.
  revert m. induction rs as [|r rs IH]; intros m Hnd Hni H0 Hsp; cbn [length pop_all] in *.
  { split_and!; [lia|done|done|done|done|done]. }
  apply NoDup_cons in Hnd as [Hr Hnd]. apply not_elem_of_cons in Hni as [Hne Hni].
  assert (m_reg (pop r m) RSP = m_reg m RSP + 8) as Esp.
  { unfold pop, set_reg, upd. cbn. rewrite decide_False, decide_True by done. apply u64_small. lia. }
  assert (m_reg (pop r m) r = word m (m_reg m RSP)) as Er.
  { unfold pop, set_reg, upd. cbn. by rewrite decide_True. }
  assert (forall x, x <> r -> x <> RSP -> m_reg (pop r m) x = m_reg m x) as Ex.
  { intros x ??. unfold pop, set_reg, upd. cbn. by rewrite !decide_False. }
  destruct (IH (pop r m)) as (H1 & H2 & H3 & H4 & H5 & H6); [done|done|lia|lia|]. rewrite Esp in *.
  split_and!; [lia| | |done|done|done].
  - intros x [??]%not_elem_of_cons ?. rewrite H2, Ex by done. done.
  - intros [|i] x Hi; cbn in Hi.
    + simplify_eq. rewrite H2, Er by done. f_equal. lia.
    + rewrite (H3 i x Hi). unfold word. cbn. f_equal. lia.
Qed.

Definition saved_regs : list Reg :=
  [RAX; RBX; RCX; RDX; RSI; RDI; RBP; R8; R9; R10; R11; R12; R13; R14; R15].

Lemma push_reg v m r : r <> RSP -> m_reg (push v m) r = m_reg m r.
Proof. intros Hr. unfold push, set_reg, upd. cbn [m_reg]. by rewrite decide_False. Qed.

Lemma run_pushes rs code m : RSP ∉ rs ->
  run ((PUSH <$> rs) ++ code) m = run code (push_all (m_reg m <$> rs) m).
Proof.
  revert m. induction rs as [|r rs IH]; intros m; [done|]. intros [Hr Hn]%not_elem_of_cons.
  change (run ((PUSH <$> r :: rs) ++ code) m) with (run ((PUSH <$> rs) ++ code) (push (m_reg m r) m)).
  rewrite IH by done. cbn [fmap list_fmap push_all]. do 2 f_equal. apply list_fmap_ext. intros i x Hx.
  apply push_reg. intros ->. apply Hn. by eapply list_elem_of_lookup_2.
Qed.

Lemma run_pops rs code m : run ((POP <$> rs) ++ code) m = run code (pop_all rs m).
Proof. revert m. induction rs as [|r rs IH]; intros m; [done|]. apply IH. Qed.

Lemma common_in_split : isr_common_in = (PUSH <$> saved_regs) ++ [MOV RSP RCX; MOV RSP RBP; ANDQ (-16) RSP; SUBQ 32 RSP].
Proof. reflexivity. Qed.

Lemma common_out_split : isr_common_out = MOV RBP RSP :: (POP <$> reverse saved_regs) ++ [ADDQ 16 RSP; IRETQ].
Proof. reflexivity. Qed.

Lemma push_all_cong vs m m' : m_reg m = m_reg m' -> m_mem m = m_mem m' ->
  m_reg (push_all vs m) = m_reg (push_all vs m') /\ m_mem (push_all vs m) = m_mem (push_all vs m').
Proof.
  revert m m'. induction vs as [|v vs IH]; intros m m' Hr Hm; [done|]. cbn [push_all].
  apply IH; unfold push, set_reg, store; cbn [m_reg m_mem]; by rewrite ?Hr, ?Hm.
Qed.

(** All words of a frame, in the order they are pushed. *)
Definition frame_words (vec err : Z) (m : Machine) : list Z :=
  [m_ss m; m_reg m RSP; m_rflags m; m_cs m; m_rip m; err; vec] ++ (m_reg m <$> saved_regs).

(** The vectors for which the processor pushes an error code. *)
Definition err_ok (vec : Z) (err : option Z) : Prop :=
  is_Some err <-> vec < 32 /\ pushes_error vec = true.

Lemma isr_entry_split vec err m : err_ok vec err ->
  exists vs, isr_entry vec = (PUSHI <$> vs) ++ isr_common_in /\
    hw_words m err ++ vs = [m_ss m; m_reg m RSP; m_rflags m; m_cs m; m_rip m; default 0 err; vec].
Proof.
  intros He. unfold isr_entry, isr_stub, hw_words.
  destruct (Z.ltb_spec vec 32) as [Hv|Hv]; [destruct (pushes_error vec) eqn:Hp|].
  - destruct err as [e|]; [|by destruct (proj2 He) as [? [=]]]. by exists [vec].
  - destruct err as [e|]; [destruct (proj1 He) as [_ H]; [done|congruence]|]. by exists [0; vec].
  - destruct err as [e|]; [destruct (proj1 He) as [H _]; [done|lia]|].
    destruct (Z.eqb_spec vec 0x80) as [->|]; [by exists [0; 0x80]|by exists [0; vec]].
Qed.

Lemma run_pushis vs code m : run ((PUSHI <$> vs) ++ code) m = run code (push_all vs m).
Proof. revert m. induction vs as [|v vs IH]; intros m; [done|]. apply IH. Qed.

Lemma run_common_in m :
  let m' := push_all (m_reg m <$> saved_regs) m in
  let m2 := run isr_common_in m in
  m_reg m2 RCX = m_reg m' RSP /\ m_reg m2 RBP = m_reg m' RSP /\ m_mem m2 = m_mem m'.
Proof.
  cbv zeta. rewrite common_in_split, run_pushes by (by apply (bool_decide_unpack _)).
  generalize (push_all (m_reg m <$> saved_regs) m). intros m'. done.
Qed.

(** Entry is the pushing of the 22 words of the frame. *)
Lemma run_entry stk vec err kcs m : err_ok vec err -> 176 <= stk < 2 ^ 64 ->
  let m' := push_all (frame_words vec (default 0 err) m) (set_reg m RSP stk) in
  let m2 := run (isr_entry vec) (cpu_trap stk err kcs m) in
  m_reg m2 RCX = m_reg m' RSP /\ m_reg m2 RBP = m_reg m' RSP /\ m_mem m2 = m_mem m'.
Proof.
  intros He Hstk. cbv zeta. destruct (isr_entry_split vec err m He) as (vs & -> & Ew).
  rewrite run_pushis. unfold frame_words. change (?a :: ?b :: ?c :: ?d :: ?e :: ?f :: ?g :: [] ++ ?l) with ([a; b; c; d; e; f; g] ++ l).
  rewrite <- Ew, !push_all_app.
  destruct (push_all_cong vs (cpu_trap stk err kcs m) (push_all (hw_words m err) (set_reg m RSP stk)) eq_refl eq_refl) as [Er Em].
  set (m1 := push_all vs (cpu_trap _ _ _ _)) in *. set (m1' := push_all vs (push_all _ _)) in *.
  destruct (run_common_in m1) as (-> & -> & ->). 
  assert (m_reg m <$> saved_regs = m_reg m1 <$> saved_regs) as ->.
  { apply list_fmap_ext. intros i r Hr. assert (r <> RSP) as Hn.
    { intros ->. apply (bool_decide_unpack (RSP ∉ saved_regs)); [done|]. by eapply list_elem_of_lookup_2. }
    rewrite Er. unfold m1'. rewrite <- push_all_app, Ew.
    destruct (push_all_spec [m_ss m; m_reg m RSP; m_rflags m; m_cs m; m_rip m; default 0 err; vec] (set_reg m RSP stk)) as (_ & -> & _).
    - change (m_reg (set_reg m RSP stk) RSP) with stk. cbn [length]. lia.
    - unfold set_reg, upd. cbn [m_reg]. by rewrite decide_False.
    - done. }
  destruct (push_all_cong (m_reg m1 <$> saved_regs) m1 m1' Er Em) as [-> ->]. done.
Qed.

(** The frame the handler sees is the interrupted state. *)
Lemma entry_frame stk vec err kcs m : err_ok vec err -> 176 <= stk < 2 ^ 64 ->
  let m2 := run (isr_entry vec) (cpu_trap stk err kcs m) in
  m_reg m2 RCX = stk - 176 /\ m_reg m2 RBP = stk - 176 /\
  frame_at m2 (stk - 176) = frame_of vec (default 0 err) m /\
  forall a, stk <= a -> word m2 a = word m a.
Proof.
  intros He Hstk. cbv zeta. destruct (run_entry stk vec err kcs m He Hstk) as (Hc & Hb & Hm).
  destruct (push_all_spec (frame_words vec (default 0 err) m) (set_reg m RSP stk)) as (Hsp & _ & Hw & Ha).
  { change (m_reg (set_reg m RSP stk) RSP) with stk. cbn [length frame_words app fmap list_fmap saved_regs]. lia. }
  set (m' := push_all _ _) in *. set (m2 := run _ _) in *.
  change (m_reg (set_reg m RSP stk) RSP) with stk in *.
  change (Z.of_nat (length (frame_words vec (default 0 err) m))) with 22 in *.
  assert (forall a, word m2 a = word m' a) as Hww by (intros a; unfold word; by rewrite Hm).
  assert (forall k v, frame_words vec (default 0 err) m !! Z.to_nat (21 - k) = Some v -> 0 <= k <= 21 ->
    word m2 (stk - 176 + 8 * k) = v) as Hk.
  { intros k v Hv Hk. rewrite Hww, <- (Hw _ _ Hv). f_equal. lia. }
  split_and!; [lia|lia| |intros a Hge; rewrite Hww; apply Ha; by left].
  unfold frame_at, frame_of. f_equal.
  1: rewrite <- (Z.add_0_r (stk - 176)); apply (Hk 0); [done|lia].
  all: match goal with |- word _ (_ + ?o) = _ => apply (Hk (o / 8)); [done|lia] end.
Qed.

(** The exit code resumes exactly the state the frame describes. *)
Lemma exit_frame m p : 0 <= p -> p + 176 < 2 ^ 64 -> m_reg m RBP = p ->
  let u := run isr_common_out m in
  frame_of (f_vector (frame_at m p)) (f_error (frame_at m p)) u = frame_at m p /\
  m_cr3 u = m_cr3 m /\ m_mem u = m_mem m.
Proof.
  intros H0 Hp Hb. cbv zeta. rewrite common_out_split.
  change (run (MOV RBP RSP :: ?c) m) with (run c (set_reg m RSP (m_reg m RBP))). rewrite run_pops, Hb.
  destruct (pop_all_spec (reverse saved_regs) (set_reg m RSP p)) as (Hsp & _ & Hr & Hm & Hc & _);
    [by apply (bool_decide_unpack _)|by apply (bool_decide_unpack _)|done|change (p + 8 * 15 < 2 ^ 64); lia|].
  set (m' := pop_all _ _) in *. change (m_reg (set_reg m RSP p) RSP) with p in *.
  change (Z.of_nat (length (reverse saved_regs))) with 15 in *.
  change (m_mem (set_reg m RSP p)) with (m_mem m) in *.
  assert (forall a, word m' a = word m a) as Hw by (intros a; unfold word; by rewrite Hm).
  assert (u64 (p + 8 * 15 + 16) = p + 136) as Esp by (rewrite u64_small; lia).
  cbn [run fold_left exec]. rewrite Hsp, Esp. set (u := mkMachine _ _ _ _ _ _ _ _).
  assert (forall i r, reverse saved_regs !! i = Some r -> m_reg u r = word m (p + 8 * Z.of_nat i)) as Hu.
  { intros i r Hi. change (word m ?a) with (word (set_reg m RSP p) a). rewrite <- (Hr i r Hi). unfold u, set_reg, upd. cbn [m_reg].
    assert (r <> RSP) as Hn; [|by rewrite !decide_False].
    intros ->. apply (bool_decide_unpack (RSP ∉ reverse saved_regs)); [done|]. by eapply list_elem_of_lookup_2. }
  assert (forall r v, m_reg (set_reg m' r v) r = v) as Hs by (intros r v; unfold set_reg, upd; cbn [m_reg]; by rewrite decide_True).
  assert (forall a, word (set_reg m' RSP (p + 136)) a = word m a) as Hw' by exact Hw.
  split_and!; [|exact Hc|exact Hm]. unfold frame_of, frame_at. cbn [f_vector f_error]. f_equal.
  1-14: match goal with |- m_reg _ ?r = word _ (_ + ?o) => exact (Hu (Z.to_nat (o / 8)) r eq_refl) end.
  all: unfold u; cbn [m_rip m_cs m_rflags m_ss m_reg]; unfold upd; rewrite ?decide_True by done.
  all: rewrite Hw', Hs; f_equal; lia.
Qed.

(** * Gates *)

Record IdtEntry := mkGate {
  off_lo : Z; selector : Z; ist : Z; attr : Z; off_mid : Z; off_hi : Z; ie_zero : Z
}.

(** An interrupt gate of attribute [at'] for the code at [addr]. *)
Definition set_gate (cs addr at' : Z) : IdtEntry :=
  mkGate (u16 (addr .& 0xFFFF)) (u16 cs) 0 at' (u16 ((addr .>> 16) .& 0xFFFF)) (u32 (addr .>> 32)) 0.

Section Gates.
Variables isr_stub_base isr_stub_syscall isr_irq_base : Z.

Definition idt_init (cs : Z) (idt : list IdtEntry) : list IdtEntry :=
  for_range 0 32 (fun i idt => <[Z.to_nat i := set_gate cs (u64 (isr_stub_base + 16 * i)) 0x8E]> idt) idt.

Definition set_ist (e : IdtEntry) (v : Z) : IdtEntry :=
  mkGate (off_lo e) (selector e) v (attr e) (off_mid e) (off_hi e) (ie_zero e).

Definition idt_install_user_gates (cs : Z) (idt : list IdtEntry) : list IdtEntry :=
  let idt := <[Z.to_nat 0x80 := set_gate cs isr_stub_syscall 0xEE]> idt in
  alter (fun e => set_ist e 1) 8%nat idt.

Definition idt_install_irq_gates (cs : Z) (idt : list IdtEntry) : list IdtEntry :=
  for_range 32 224 (fun v idt =>
    if v =? 0x80 then idt
    else <[Z.to_nat v := set_gate cs (u64 (isr_irq_base + 16 * (v - 32))) 0x8E]> idt) idt.

(** The table [xproc_init] leaves. *)
Definition xproc_idt (cs : Z) (idt : list IdtEntry) : list IdtEntry :=
  idt_install_irq_gates cs (idt_install_user_gates cs (idt_init cs idt)).

(** Where the linker put the stub of a vector. *)
Definition stub_addr (v : Z) : Z :=
  if v <? 32 then isr_stub_base + 16 * v else
  if v =? 0x80 then isr_stub_syscall else isr_irq_base + 16 * (v - 32).
End Gates.

(** How the processor reads a gate. *)
Definition gate_target (e : IdtEntry) : Z := off_lo e .| (off_mid e .<< 16) .| (off_hi e .<< 32).
Definition gate_dpl (e : IdtEntry) : Z := (attr e .>> 5) .& 3.
Definition gate_present (e : IdtEntry) : bool := Z.testbit (attr e) 7.
Definition gate_type (e : IdtEntry) : Z := attr e .& 0xF.

(** A loop that fills (or skips) one entry of a table per round. *)
Lemma for_range_fill {A} (g : Z -> option A) (f : Z -> list A -> list A) lo n l :
  (forall i l, f i l = match g i with Some e => <[Z.to_nat i := e]> l | None => l end) ->
  0 <= lo -> 0 <= n -> lo + n <= Z.of_nat (length l) ->
  length (for_range lo n f l) = length l /\
  forall v, 0 <= v -> for_range lo n f l !! Z.to_nat v =
    if decide (lo <= v < lo + n) then match g v with Some e => Some e | None => l !! Z.to_nat v end else l !! Z.to_nat v.
Proof.
  intros Hf Hlo Hn Hlen. revert lo Hlo l Hlen. revert n Hn. apply (natlike_ind (fun n => forall lo, 0 <= lo -> forall l, lo + n <= Z.of_nat (length l) ->
    length (for_range lo n f l) = length l /\ forall v, 0 <= v -> for_range lo n f l !! Z.to_nat v =
    if decide (lo <= v < lo + n) then match g v with Some e => Some e | None => l !! Z.to_nat v end else l !! Z.to_nat v)).
  { intros lo Hlo l Hlen. rewrite for_range_0 by lia. split; [done|]. intros v Hv. rewrite decide_False by lia. done. }
  intros n Hn IH lo Hlo l Hlen. rewrite for_range_cons by lia. replace (Z.succ n - 1) with n by lia.
  assert (length (f lo l) = length l) as El by (rewrite Hf; destruct (g lo); [apply length_insert|done]).
  destruct (IH (lo + 1) ltac:(lia) (f lo l)) as [H1 H2]; [lia|]. split; [lia|]. intros v Hv. rewrite H2, Hf by done.
  destruct (decide (v = lo)) as [->|Hne].
  - rewrite decide_False, decide_True by lia. destruct (g lo); [|done]. apply list_lookup_insert_eq. lia.
  - assert (match g lo with Some e => <[Z.to_nat lo:=e]> l | None => l end !! Z.to_nat v = l !! Z.to_nat v) as ->
      by (destruct (g lo); [apply list_lookup_insert_ne; lia|done]).
    destruct (decide (lo + 1 <= v < lo + 1 + n)), (decide (lo <= v < lo + Z.succ n)); (done || lia).
Qed.

Lemma set_gate_target cs addr at' : 0 <= addr < 2 ^ 64 -> gate_target (set_gate cs addr at') = addr.
Proof.
  intros Ha. unfold gate_target, set_gate. cbn [off_lo off_mid off_hi].
  change 0xFFFF with (2 ^ 16 - 1). rewrite !land_pow2_mod, !Z.shiftr_div_pow2 by lia.
  rewrite (u16_small (addr mod 2 ^ 16)), (u16_small ((addr / 2 ^ 16) mod 2 ^ 16)), u32_small by lia.
  rewrite (lor_shift_add _ _ 16), (lor_shift_add _ _ 32) by lia. lia.
Qed.

(** The gate every vector must have. *)
Record gate_ok (cs target : Z) (v : Z) (e : IdtEntry) : Prop := {
  go_target : gate_target e = target;
  go_selector : selector e = cs;
  go_present : gate_present e = true;
  go_type : gate_type e = 0xE;
  go_dpl : gate_dpl e = if v =? 0x80 then 3 else 0;
  go_ist : ist e = if v =? 8 then 1 else 0
}.

(** The stubs lie inside the address space. *)
Definition linked (sb ss ib : Z) : Prop :=
  0 <= sb /\ sb + 16 * 32 <= 2 ^ 64 /\ 0 <= ss < 2 ^ 64 /\ 0 <= ib /\ ib + 16 * 224 <= 2 ^ 64.

Lemma xproc_idt_lookup sb ss ib cs idt v : length idt = 256%nat -> linked sb ss ib -> 0 <= v < 256 ->
  xproc_idt sb ss ib cs idt !! Z.to_nat v =
    Some (let g := set_gate cs (stub_addr sb ss ib v) (if v =? 0x80 then 0xEE else 0x8E) in
          if v =? 8 then set_ist g 1 else g).
Proof.
  intros Hlen (Hs1 & Hs2 & Hs3 & Hs4 & Hs5) Hv. unfold xproc_idt, idt_install_irq_gates, idt_install_user_gates, idt_init.
  destruct (for_range_fill (fun i => Some (set_gate cs (u64 (sb + 16 * i)) 0x8E))
    (fun i idt => <[Z.to_nat i := set_gate cs (u64 (sb + 16 * i)) 0x8E]> idt) 0 32 idt) as [L1 H1]; [done|lia|lia|lia|].
  set (t1 := for_range 0 32 _ idt) in *.
  assert (length (alter (fun e => set_ist e 1) 8%nat (<[Z.to_nat 128 := set_gate cs ss 0xEE]> t1)) = 256%nat) as L2
    by (rewrite length_alter, length_insert; lia).
  assert (forall x, 0 <= x -> alter (fun e => set_ist e 1) 8%nat (<[Z.to_nat 128 := set_gate cs ss 0xEE]> t1) !! Z.to_nat x =
    if x =? 128 then Some (set_gate cs ss 0xEE) else if x =? 8 then (fun e => set_ist e 1) <$> t1 !! 8%nat else t1 !! Z.to_nat x) as H2.
  { intros x Hx. destruct (Z.eqb_spec x 128) as [->|]; [|destruct (Z.eqb_spec x 8) as [->|]].
    - rewrite list_lookup_alter_ne by lia. apply list_lookup_insert_eq. lia.
    - change (Z.to_nat 8) with 8%nat. rewrite list_lookup_alter_eq, list_lookup_insert_ne by lia. done.
    - rewrite list_lookup_alter_ne, list_lookup_insert_ne by lia. done. }
  set (t2 := alter _ _ _) in *.
  destruct (for_range_fill (fun v => if v =? 128 then None else Some (set_gate cs (u64 (ib + 16 * (v - 32))) 0x8E))
    (fun v idt => if v =? 128 then idt else <[Z.to_nat v := set_gate cs (u64 (ib + 16 * (v - 32))) 0x8E]> idt) 32 224 t2) as [L3 H3];
    [by intros i l; destruct (i =? 128)|lia|lia|lia|].
  rewrite H3, H2 by lia. unfold stub_addr. destruct (Z.eqb_spec v 128) as [->|Hne].
  { done. }
  destruct (Z.ltb_spec v 32).
  - rewrite decide_False by lia. destruct (Z.eqb_spec v 8) as [->|].
    + change (t1 !! 8%nat) with (t1 !! Z.to_nat 8). rewrite (H1 8), decide_True by lia. cbn. rewrite u64_small by lia. done.
    + rewrite H1, decide_True, u64_small by lia. done.
  - rewrite decide_True by lia. destruct (Z.eqb_spec v 8); [lia|]. rewrite u64_small by lia. done.
Qed.

(** * Segments and the task state *)

Record Tss := mkTss {
  t_r0 : Z; t_rsp0 : Z; t_rsp1 : Z; t_rsp2 : Z; t_r1 : Z; t_ist : list Z; t_r2 : Z; t_r3 : Z; t_iopb : Z
}.

(** Its size as a packed structure. *)
Definition sizeof_Tss : Z := 4 + 3 * 8 + 8 + 7 * 8 + 8 + 2 + 2.

Record GdtState := mkGdt { g_tss : Tss; g_gdt : list Z; gdt_g_ready : bool }.

Section Gdt.
Variables tss_addr k_stack df_stack : Z.

Definition tss_low : Z :=
  let limit := sizeof_Tss - 1 in
  (limit .& 0xFFFF) .| ((tss_addr .& 0xFFFFFF) .<< 16) .| (0x89 .<< 40) .|
  (((limit .>> 16) .& 0xF) .<< 48) .| (((tss_addr .>> 24) .& 0xFF) .<< 56).

Definition gdt_init (s : GdtState) : GdtState :=
  if gdt_g_ready s then s else
  let t := g_tss s in
  mkGdt (mkTss (t_r0 t) (u64 (k_stack + 16384)) (t_rsp1 t) (t_rsp2 t) (t_r1 t)
           (<[0%nat := u64 (df_stack + 8192)]> (t_ist t)) (t_r2 t) (t_r3 t) (u16 sizeof_Tss))
    [0; 0x00AF9A000000FFFF; 0x00CF92000000FFFF; 0x00CFF2000000FFFF; 0x00AFFA000000FFFF;
     u64 tss_low; tss_addr .>> 32]
    true.
End Gdt.

Definition gdt_ready (s : GdtState) : bool := gdt_g_ready s.

(** How the processor reads a descriptor. *)
Definition seg_dpl (d : Z) : Z := (d .>> 45) .& 3.
Definition seg_present (d : Z) : bool := Z.testbit d 47.
Definition seg_code64 (d : Z) : bool := Z.testbit d 43 && Z.testbit d 44 && Z.testbit d 53.
Definition seg_rw_data (d : Z) : bool := negb (Z.testbit d 43) && Z.testbit d 44 && Z.testbit d 41.
Definition sys_type (d : Z) : Z := (d .>> 40) .& 0x1F.
Definition sys_limit (d : Z) : Z := (d .& 0xFFFF) .| (((d .>> 48) .& 0xF) .<< 16).
Definition sys_base (lo hi : Z) : Z :=
  ((lo .>> 16) .& 0xFFFFFF) .| (((lo .>> 56) .& 0xFF) .<< 24) .| (hi .<< 32).

Lemma tss_low_sum tss : 0 <= tss < 2 ^ 64 ->
  tss_low tss = 103 + (tss mod 2 ^ 24) * 2 ^ 16 + 0x89 * 2 ^ 40 + ((tss / 2 ^ 24) mod 2 ^ 8) * 2 ^ 56.
Proof.
  intros Ht. unfold tss_low. change (sizeof_Tss - 1) with 103. cbv zeta.
  change (103 .& 0xFFFF) with 103. change ((103 .>> 16) .& 0xF .<< 48) with 0. rewrite Z.lor_0_r.
  change 0xFFFFFF with (2 ^ 24 - 1). change 0xFF with (2 ^ 8 - 1). rewrite !land_pow2_mod, Z.shiftr_div_pow2 by lia.
  rewrite (lor_shift_add _ _ 16), (lor_shift_add _ _ 40), (lor_shift_add _ _ 56) by lia. lia.
Qed.

(** * Dispatch *)

(** What a handler does: return to the interrupted code with a frame, abandon
    it with a status ([xproc_leave_asm]), or print a report and stop. *)
Inductive Outcome := Return (f : ExcFrame) | Leave (status : Z) | Halt (report : list string).

Definition exc_names : list string :=
  ["#DE divide error"; "#DB debug"; "NMI"; "#BP breakpoint"; "#OF overflow"; "#BR bound range";
   "#UD invalid opcode"; "#NM device not available"; "#DF double fault"; "coprocessor overrun";
   "#TS invalid TSS"; "#NP segment not present"; "#SS stack fault"; "#GP general protection";
   "#PF page fault"; "reserved (15)"; "#MF x87 fp error"; "#AC alignment check"; "#MC machine check";
   "#XM simd fp error"; "#VE virtualization"; "#CP control protection"; "reserved (22)"; "reserved (23)";
   "reserved (24)"; "reserved (25)"; "reserved (26)"; "reserved (27)"; "#HV hypervisor injection";
   "#VC vmm communication"; "#SX security"; "reserved (31)"]%string.

Definition nl : string := String (Ascii.ascii_of_nat 10) EmptyString.

Definition digits : string := "0123456789ABCDEF"%string.

Definition report_hex (v : Z) : string :=
  ("0x" +:+ String.string_of_list_ascii
    (omap (fun i => String.get (Z.to_nat ((v .>> (60 - 4 * i)) .& 0xF)) digits) (seqZ 0 16)))%string.

Definition report_reg (name : string) (v : Z) : list string := [name; "="; report_hex v; "  "]%string.

Definition report_fault (f : ExcFrame) (cr2 : Z) : list string :=
  if f_vector f =? 14 then
    report_reg "CR2" cr2 ++
    [(nl +:+ "  #PF: ")%string;
     (if tst (f_error f .& 1) then "protection-violation " else "page-not-present ")%string;
     (if tst (f_error f .& 2) then "write " else "read ")%string;
     (if tst (f_error f .& 4) then "user " else "supervisor ")%string] ++
    (if tst (f_error f .& 8) then ["reserved-bit-set "%string] else []) ++
    (if tst (f_error f .& 16) then ["instruction-fetch "%string] else []) ++ [nl]
  else [].

(** The text of the crash report. *)
Definition crash_report (f : ExcFrame) (cr2 cr3 : Z) : list string :=
  [(nl +:+ "*** CPU EXCEPTION: ")%string;
   (if f_vector f <? 32 then default "unknown"%string (exc_names !! Z.to_nat (f_vector f)) else "unknown"%string);
   (" ***" +:+ nl)%string] ++
  report_reg "VEC" (f_vector f) ++ report_reg "ERR" (f_error f) ++ [nl] ++
  report_reg "RIP" (f_rip f) ++ report_reg "CS" (f_cs f) ++ [nl] ++
  report_reg "RFLAGS" (f_rflags f) ++ report_reg "RSP" (f_rsp f) ++ [nl] ++
  report_fault f cr2 ++
  report_reg "RAX" (f_rax f) ++ report_reg "RBX" (f_rbx f) ++ [nl] ++
  report_reg "RCX" (f_rcx f) ++ report_reg "RDX" (f_rdx f) ++ [nl] ++
  report_reg "RSI" (f_rsi f) ++ report_reg "RDI" (f_rdi f) ++ [nl] ++
  report_reg "RBP" (f_rbp f) ++ report_reg "CR3" cr3 ++ [(nl +:+ "System halted." +:+ nl)%string].

Section Handler.
Context {St : Type}.

Definition IdtHook : Type := ExcFrame -> Z -> St -> Outcome * St.

Definition exception_handler (g_hook g_irq_hook : option IdtHook) (cr2 cr3 : Z) (f : ExcFrame) (s : St) : Outcome * St :=
  if (f_vector f >=? 32) && negb (f_vector f =? 0x80) then
    match g_irq_hook with Some h => h f cr2 s | None => (Return f, s) end
  else match g_hook with
  | Some h =>
    if (f_vector f =? 0x80) || (f_cs f .& 3 =? 3) then h f cr2 s else (Halt (crash_report f cr2 cr3), s)
  | None => (Halt (crash_report f cr2 cr3), s)
  end.
End Handler.

(** * Properties *)


(** After [xproc_init] every one of the 256 vectors has a present
    interrupt gate into the kernel code segment at its own stub; only vector
    0x80 can be raised by ring 3 with [int n], and only the double fault runs
    on its own stack. *)
Theorem idt_gates_correct sb ss ib cs idt v :
  length idt = 256%nat -> linked sb ss ib -> 0 <= cs < 2 ^ 16 -> 0 <= v < 256 ->
  exists e, xproc_idt sb ss ib cs idt !! Z.to_nat v = Some e /\ gate_ok cs (stub_addr sb ss ib v) v e.
Proof.
  intros Hlen Hl Hcs Hv. eexists. split; [by apply xproc_idt_lookup|].
  assert (0 <= stub_addr sb ss ib v < 2 ^ 64) as Ha.
  { destruct Hl as (?&?&?&?&?). unfold stub_addr. destruct (Z.ltb_spec v 32); [lia|]. destruct (Z.eqb_spec v 0x80); lia. }
  assert (forall at', gate_target (set_gate cs (stub_addr sb ss ib v) at') = stub_addr sb ss ib v) as Ht by (intros; by apply set_gate_target).
  assert (u16 cs = cs) as Hc by (by apply u16_small). cbv zeta.
  destruct (Z.eqb_spec v 8) as [->|H8]; [|destruct (Z.eqb_spec v 0x80) as [->|H80]].
  - split; [exact (Ht _)|exact Hc|done|done|done|done].
  - split; [exact (Ht _)|exact Hc|done|done|done|done].
  - split; [exact (Ht _)|exact Hc|done|done| |]; cbn; [destruct (Z.eqb_spec v 128)|destruct (Z.eqb_spec v 8)]; (done || lia).
Qed.

(** The first [gdt_init] builds the tables the rest of the kernel relies
    on: selectors 0x08 and 0x10 are the ring-0 code and data segments, 0x1B and
    0x23 the ring-3 data and code segments; the descriptor pair at 0x28 is an
    available 64-bit task state of the right base and limit, with the stacks
    for ring 0 and the double fault and no I/O bitmap. A second call changes
    nothing. *)
Theorem gdt_init_correct tss ks dfs s :
  gdt_g_ready s = false -> 0 <= tss < 2 ^ 64 -> 0 <= ks < 2 ^ 64 - 16384 -> 0 <= dfs < 2 ^ 64 - 8192 ->
  length (t_ist (g_tss s)) = 7%nat ->
  let s' := gdt_init tss ks dfs s in
  let d sel := default 0 (g_gdt s' !! Z.to_nat (sel .>> 3)) in
  seg_code64 (d 0x08) = true /\ seg_dpl (d 0x08) = 0 /\ seg_rw_data (d 0x10) = true /\ seg_dpl (d 0x10) = 0 /\
  seg_rw_data (d 0x1B) = true /\ seg_dpl (d 0x1B) = 3 /\ seg_code64 (d 0x23) = true /\ seg_dpl (d 0x23) = 3 /\
  sys_type (d 0x28) = 9 /\ seg_present (d 0x28) = true /\ sys_limit (d 0x28) = sizeof_Tss - 1 /\
  sys_base (d 0x28) (d 0x30) = tss /\
  t_rsp0 (g_tss s') = ks + 16384 /\ t_ist (g_tss s') !! 0%nat = Some (dfs + 8192) /\
  sys_limit (d 0x28) < t_iopb (g_tss s') /\ gdt_init tss ks dfs s' = s'.
Proof.
  destruct s as [t g []]; [done|]. intros _ Ht Hk Hd Hi. cbv zeta. unfold gdt_init.
  cbn [g_gdt g_tss t_rsp0 t_ist t_iopb gdt_g_ready] in *. rewrite (tss_low_sum tss Ht).
  set (lo := u64 _).
  assert (lo = 103 + (tss mod 2 ^ 24) * 2 ^ 16 + 0x89 * 2 ^ 40 + ((tss / 2 ^ 24) mod 2 ^ 8) * 2 ^ 56) as Elo by (apply u64_small; lia).
  change (default 0 (_ !! Z.to_nat (0x28 .>> 3))) with lo. change (default 0 (_ !! Z.to_nat (0x30 .>> 3))) with (tss .>> 32).
  clearbody lo. rewrite list_lookup_insert_eq by lia.
  assert (sys_limit lo = 103) as ->.
  { unfold sys_limit. change 0xFFFF with (2 ^ 16 - 1). change 0xF with (2 ^ 4 - 1).
    rewrite !land_pow2_mod, Z.shiftr_div_pow2, (lor_shift_add _ _ 16) by lia. lia. }
  assert (sys_type lo = 9) as ->.
  { unfold sys_type. change 0x1F with (2 ^ 5 - 1). rewrite land_pow2_mod, Z.shiftr_div_pow2 by lia. lia. }
  assert (sys_base lo (tss .>> 32) = tss) as ->.
  { unfold sys_base. change 0xFFFFFF with (2 ^ 24 - 1). change 0xFF with (2 ^ 8 - 1).
    rewrite !land_pow2_mod, !Z.shiftr_div_pow2, (lor_shift_add _ _ 24), (lor_shift_add _ _ 32) by lia. lia. }
  assert (seg_present lo = true) as ->.
  { unfold seg_present. apply Z.testbit_true; lia. }
  rewrite !u64_small by lia. split_and!; done.
Qed.

(** * Witnesses *)

(** A program interrupted in ring 3 by a page fault. *)
Definition demo_machine : Machine :=
  mkMachine (fun r => if decide (r = RSP) then 0x9000 else if decide (r = RAX) then 7 else 1) 0x400000 0x202 0x23 0x1B 4096 (fun _ => 0) ∅.


Lemma idt_gates_correct_witness :
  exists e, xproc_idt 0x100000 0x101000 0x102000 8 (replicate 256 (mkGate 0 0 0 0 0 0 0)) !! 64%nat = Some e /\
    gate_ok 8 (0x102000 + 16 * 32) 64 e.
Proof.
  refine (idt_gates_correct 0x100000 0x101000 0x102000 8 (replicate 256 (mkGate 0 0 0 0 0 0 0)) 64 eq_refl _ _ _);
    [unfold linked; lia|lia|lia].
Defined.

Lemma gdt_init_correct_witness :
  sys_base (u64 (tss_low 0x123456789ABC)) (0x123456789ABC .>> 32) = 0x123456789ABC.
Proof.
  pose proof (gdt_init_correct 0x123456789ABC 0x200000 0x300000
    (mkGdt (mkTss 0 0 0 0 0 (replicate 7 0) 0 0 0) [] false) eq_refl ltac:(lia) ltac:(lia) ltac:(lia) eq_refl) as H.
  cbv zeta in H. destruct H as (_ & _ & _ & _ & _ & _ & _ & _ & _ & _ & _ & H & _). exact H.
Defined.
