(* ===== verification/Proc.v ===== *)
(** Running a program: model of [source/arch/amd64/kernel/xeret/proc.c] over
    the timer of [lapic.c] and the system calls of [sys.c].

    The run of a program is a list of traps with arbitrary frames: between
    two traps ring 3 may do anything to its own registers. The pointers
    [g_res], [g_ctx] and [g_as] hold the objects they point to while a run is
    in progress. *)

From S2P Require Import Prelude.
From S2P Require Import Physical.
From S2P Require Import Ledger.
From S2P Require Import Paging.
From S2P Require Import PageTree.
From S2P Require Import Aspace.
From S2P Require Import Sys.
From S2P Require Import Trap.

#[local] Ltac Zify.zify_post_hook ::= Z.div_mod_to_equations.

(** * The local APIC *)

Definition LAPIC_TIMER_VEC : Z := 0x40.
Definition LAPIC_SPURIOUS_VEC : Z := 0xFF.
Definition IA32_APIC_BASE : Z := 0x1B.
Definition APIC_BASE_X2 : Z := 1 .<< 10.
Definition APIC_BASE_EN : Z := 1 .<< 11.
Definition REG_EOI : Z := 0x0B0.
Definition REG_SVR : Z := 0x0F0.
Definition REG_LVT_TIMER : Z := 0x320.
Definition REG_TIMER_INIT : Z := 0x380.
Definition REG_TIMER_CUR : Z := 0x390.
Definition REG_TIMER_DIV : Z := 0x3E0.
Definition LVT_MASKED : Z := 1 .<< 16.
Definition DIV_BY_16 : Z := 0x3.
Definition PIT_10MS_COUNT : Z := 11932.

(** A write to the device, oldest last in the log. *)
Inductive IoWrite := Outb (port v : Z) | Mmio (addr v : Z) | Wrmsr (msr v : Z).

Record Lapic := mkLapic {
  g_ready : bool; g_x2 : bool; g_mmio : Z; g_ticks_per_ms : Z; io_log : list IoWrite
}.

Definition emit (l : Lapic) (w : IoWrite) : Lapic :=
  mkLapic (g_ready l) (g_x2 l) (g_mmio l) (g_ticks_per_ms l) (w :: io_log l).

Definition lwrite (reg v : Z) (l : Lapic) : Lapic :=
  if g_x2 l then emit l (Wrmsr (0x800 + (reg .>> 4)) v)
  else emit l (Mmio (g_mmio l + 4 * (reg .>> 2)) v).

Definition outb (port v : Z) (l : Lapic) : Lapic := emit l (Outb port v).

Definition pic_mask_all (l : Lapic) : Lapic :=
  fold_left (fun l w => outb w.1 w.2 l)
    [(0x20, 0x11); (0xA0, 0x11); (0x21, 0x20); (0xA1, 0x28); (0x21, 0x04); (0xA1, 0x02);
     (0x21, 0x01); (0xA1, 0x01); (0x21, 0xFF); (0xA1, 0xFF)] l.

(** What the hardware answers during initialisation: EDX of [cpuid] 1, the
    APIC base register, port 0x61, whether OUT2 went high within the bounded
    poll, and the timer's current count after it. *)
Record HwIn := mkHw { hw_edx : Z; hw_apic_base : Z; hw_in61 : Z; hw_done : bool; hw_cur : Z }.

(** The ticks per millisecond, or [None] for -1. *)
Definition calibrate (hw : HwIn) (l : Lapic) : option Z * Lapic :=
  let l := outb 0x61 (u8 (Z.ldiff (hw_in61 hw) 0x02 .| 0x01)) l in
  let l := outb 0x43 0xB0 l in
  let l := lwrite REG_TIMER_DIV DIV_BY_16 l in
  let l := lwrite REG_LVT_TIMER (LVT_MASKED .| LAPIC_TIMER_VEC) l in
  let l := outb 0x42 (u8 (PIT_10MS_COUNT .& 0xFF)) l in
  let l := outb 0x42 (u8 (PIT_10MS_COUNT .>> 8)) l in
  let l := lwrite REG_TIMER_INIT 0xFFFFFFFF l in
  let cur := hw_cur hw in
  let l := lwrite REG_TIMER_INIT 0 l in
  if negb (hw_done hw) then (None, l) else
  let elapsed := u32 (0xFFFFFFFF - cur) in
  if (elapsed <? 1000) || (elapsed >? 0xFFFF0000) then (None, l) else
  (Some (elapsed / 10), l).

Definition lapic_timer_init (hw : HwIn) (l : Lapic) : Z * Lapic :=
  if negb (tst (hw_edx hw .& (1 .<< 9))) then (-1, l) else
  let base := hw_apic_base hw in
  let '(base, l) :=
    if negb (tst (base .& APIC_BASE_EN))
    then (base .| APIC_BASE_EN, emit l (Wrmsr IA32_APIC_BASE (base .| APIC_BASE_EN))) else (base, l) in
  let x2 := tst (base .& APIC_BASE_X2) in
  let l := mkLapic (g_ready l) x2 (g_mmio l) (g_ticks_per_ms l) (io_log l) in
  let addr := base .& 0xFFFFF000 in
  if negb x2 && ((addr <? 0xFEC00000) || (addr >=? 0x100000000)) then (-1, l) else
  let l := if x2 then l else mkLapic (g_ready l) x2 addr (g_ticks_per_ms l) (io_log l) in
  let l := pic_mask_all l in
  let l := lwrite REG_SVR (0x100 .| LAPIC_SPURIOUS_VEC) l in
  match calibrate hw l with
  | (None, l) => (-1, l)
  | (Some t, l) => (0, mkLapic true (g_x2 l) (g_mmio l) t (io_log l))
  end.

Definition lapic_ticks_per_ms (l : Lapic) : Z := g_ticks_per_ms l.
Definition lapic_x2apic (l : Lapic) : bool := g_x2 l.

Definition lapic_timer_arm (ticks : Z) (l : Lapic) : Lapic :=
  if negb (g_ready l) then l else
  lwrite REG_TIMER_INIT ticks (lwrite REG_LVT_TIMER LAPIC_TIMER_VEC (lwrite REG_TIMER_DIV DIV_BY_16 l)).

Definition lapic_timer_stop (l : Lapic) : Lapic :=
  if negb (g_ready l) then l else
  lwrite REG_LVT_TIMER (LVT_MASKED .| LAPIC_TIMER_VEC) (lwrite REG_TIMER_INIT 0 l).

Definition lapic_eoi (l : Lapic) : Lapic :=
  if negb (g_ready l) then l else lwrite REG_EOI 0 l.

(** * Contexts and results *)

Definition XPROC_EXIT : Z := 0.
Definition XPROC_FAULT : Z := 1.
Definition XPROC_PREEMPT : Z := 2.
Definition XPROC_YIELD : Z := 3.
Definition XPROC_LOG_MAX : Z := 8.
Definition RFLAGS_IF : Z := 0x200.
Definition RFLAGS_USER_KEEP : Z := 0xCD5.

Record XContext := mkCtx {
  c_rax : Z; c_rbx : Z; c_rcx : Z; c_rdx : Z; c_rsi : Z; c_rdi : Z; c_rbp : Z;
  c_r8 : Z; c_r9 : Z; c_r10 : Z; c_r11 : Z; c_r12 : Z; c_r13 : Z; c_r14 : Z; c_r15 : Z;
  c_rip : Z; c_rsp : Z; c_rflags : Z
}.

Record XProcResult := mkRes {
  reason : Z; exit_code : Z; x_vector : Z; x_error : Z; x_rip : Z; x_cr2 : Z; log : list Z; log_n : Z
}.

Definition zero_result : XProcResult := mkRes 0 0 0 0 0 0 (replicate (Z.to_nat XPROC_LOG_MAX) 0) 0.

Definition save_ctx (f : ExcFrame) : XContext :=
  mkCtx (f_rax f) (f_rbx f) (f_rcx f) (f_rdx f) (f_rsi f) (f_rdi f) (f_rbp f)
    (f_r8 f) (f_r9 f) (f_r10 f) (f_r11 f) (f_r12 f) (f_r13 f) (f_r14 f) (f_r15 f)
    (f_rip f) (f_rsp f) (f_rflags f).

Definition xctx_init (entry user_rsp : Z) : XContext :=
  mkCtx 0 0 0 0 0 0 0 0 0 0 0 0 0 0 0 entry user_rsp 0x2.

(** * The process layer *)

Record ProcState := mkProc {
  p_sys : SysState;
  p_lapic : Lapic;
  g_res : option XProcResult;
  g_ctx : option XContext;
  g_as : option XAspace;
  g_quantum_ticks : Z;
  g_irq_unexpected : Z;
  g_irq_last : Z;
  g_kernel_cr3 : Z
}.

Definition set_p_sys (s : ProcState) (x : SysState) : ProcState :=
  mkProc x (p_lapic s) (g_res s) (g_ctx s) (g_as s) (g_quantum_ticks s) (g_irq_unexpected s) (g_irq_last s) (g_kernel_cr3 s).
Definition set_p_lapic (s : ProcState) (x : Lapic) : ProcState :=
  mkProc (p_sys s) x (g_res s) (g_ctx s) (g_as s) (g_quantum_ticks s) (g_irq_unexpected s) (g_irq_last s) (g_kernel_cr3 s).
Definition set_g_res (s : ProcState) (x : XProcResult) : ProcState :=
  mkProc (p_sys s) (p_lapic s) (Some x) (g_ctx s) (g_as s) (g_quantum_ticks s) (g_irq_unexpected s) (g_irq_last s) (g_kernel_cr3 s).
Definition set_g_ctx (s : ProcState) (x : XContext) : ProcState :=
  mkProc (p_sys s) (p_lapic s) (g_res s) (Some x) (g_as s) (g_quantum_ticks s) (g_irq_unexpected s) (g_irq_last s) (g_kernel_cr3 s).
Definition count_irq (s : ProcState) (v : Z) : ProcState :=
  mkProc (p_sys s) (p_lapic s) (g_res s) (g_ctx s) (g_as s) (g_quantum_ticks s) (u64 (g_irq_unexpected s + 1)) v (g_kernel_cr3 s).

Definition set_exit (r : XProcResult) (code rip : Z) : XProcResult :=
  mkRes XPROC_EXIT code (x_vector r) (x_error r) rip (x_cr2 r) (log r) (log_n r).
Definition set_stop (r : XProcResult) (why rip : Z) : XProcResult :=
  mkRes why (exit_code r) (x_vector r) (x_error r) rip (x_cr2 r) (log r) (log_n r).
Definition set_fault (r : XProcResult) (vec err rip cr2 : Z) : XProcResult :=
  mkRes XPROC_FAULT (exit_code r) vec err rip cr2 (log r) (log_n r).
Definition add_log (r : XProcResult) (v : Z) : XProcResult :=
  if log_n r <? XPROC_LOG_MAX
  then mkRes (reason r) (exit_code r) (x_vector r) (x_error r) (x_rip r) (x_cr2 r)
         (<[Z.to_nat (log_n r) := v]> (log r)) (u32 (log_n r + 1))
  else r.

Definition user_hook (f : ExcFrame) (cr2 : Z) (s : ProcState) : Outcome * ProcState :=
  match g_res s with
  | None => (Halt [], s)
  | Some r =>
    if f_vector f =? 0x80 then
      if f_rax f =? XSYS_EXIT then
        (Leave XPROC_EXIT, set_g_res s (set_exit r (f_rdi f) (f_rip f)))
      else if f_rax f =? XSYS_LOG then
        (Return (set_rax f 0), set_g_res s (add_log r (f_rdi f)))
      else if f_rax f =? XSYS_YIELD then
        (Leave XPROC_YIELD, set_g_res (set_g_ctx s (save_ctx (set_rax f 0))) (set_stop r XPROC_YIELD (f_rip f)))
      else match g_as s with
      | Some a =>
        if (f_rax f >=? XSYS_ALLOC) && (f_rax f <=? XSYS_INFO) then
          let '(f', sys) := xsys_resource a f (p_sys s) in (Return f', set_p_sys s sys)
        else (Return (set_rax f (u64 XERR_NOSYS)), s)
      | None => (Return (set_rax f (u64 XERR_NOSYS)), s)
      end
    else
      (Leave XPROC_FAULT, set_g_res s (set_fault r (f_vector f) (f_error f) (f_rip f) cr2))
  end.

Definition irq_hook (f : ExcFrame) (cr2 : Z) (s : ProcState) : Outcome * ProcState :=
  if f_vector f =? LAPIC_TIMER_VEC then
    let s := set_p_lapic s (lapic_eoi (p_lapic s)) in
    match g_res s, g_ctx s with
    | Some r, Some _ =>
      if f_cs f .& 3 =? 3 then
        (Leave XPROC_PREEMPT, set_g_res (set_g_ctx s (save_ctx f)) (set_stop r XPROC_PREEMPT (f_rip f)))
      else (Return f, s)
    | _, _ => (Return f, s)
    end
  else if f_vector f =? LAPIC_SPURIOUS_VEC then (Return f, s)
  else
    let s := count_irq s (f_vector f) in
    (Return f, set_p_lapic s (lapic_eoi (p_lapic s))).

Definition xproc_set_quantum_ms (ms : Z) (s : ProcState) : Z * ProcState :=
  let set q := mkProc (p_sys s) (p_lapic s) (g_res s) (g_ctx s) (g_as s) q (g_irq_unexpected s) (g_irq_last s) (g_kernel_cr3 s) in
  if ms =? 0 then (0, set 0) else
  let per_ms := lapic_ticks_per_ms (p_lapic s) in
  if per_ms =? 0 then (-1, s) else
  let t := u64 (ms * per_ms) in
  if t >? 0xFFFFFFFF then (-1, s) else (0, set (u32 t)).

(** A trap: the frame the entry code built, with CR2 and CR3. *)
Record Event := mkEvent { ev_frame : ExcFrame; ev_cr2 : Z; ev_cr3 : Z }.

Definition on_trap (e : Event) (s : ProcState) : Outcome * ProcState :=
  exception_handler (Some user_hook) (Some irq_hook) (ev_cr2 e) (ev_cr3 e) (ev_frame e) s.

(** What the traps of a run lead to: the program is still running, a handler
    left it with a status, or the machine stopped. *)
Inductive RunEnd := Running (s : ProcState) | Left (status : Z) (s : ProcState) | Stopped (s : ProcState).

Fixpoint run_user (evs : list Event) (s : ProcState) : RunEnd :=
  match evs with
  | [] => Running s
  | e :: evs =>
    match on_trap e s with
    | (Return _, s') => run_user evs s'
    | (Leave st, s') => Left st s'
    | (Halt _, s') => Stopped s'
    end
  end.

Definition armed (s : ProcState) : bool := negb (g_quantum_ticks s =? 0).

Definition user_rflags (armed : bool) (rflags : Z) : Z :=
  (rflags .& RFLAGS_USER_KEEP) .| 0x2 .| (if armed then RFLAGS_IF else 0).

Definition set_rflags (c : XContext) (v : Z) : XContext :=
  mkCtx (c_rax c) (c_rbx c) (c_rcx c) (c_rdx c) (c_rsi c) (c_rdi c) (c_rbp c)
    (c_r8 c) (c_r9 c) (c_r10 c) (c_r11 c) (c_r12 c) (c_r13 c) (c_r14 c) (c_r15 c)
    (c_rip c) (c_rsp c) v.

(** [xproc_run_ctx] up to [xproc_enter_asm]; [stale] are the interrupts that
    were pending when the window with interrupts on was opened. *)
Definition run_begin (a : XAspace) (ctx : XContext) (stale : list Event) (s : ProcState) : ProcState :=
  let ctx := set_rflags ctx (user_rflags (armed s) (c_rflags ctx)) in
  let s1 := mkProc (p_sys s) (p_lapic s) (Some zero_result) (Some ctx) (Some a) (g_quantum_ticks s)
              (g_irq_unexpected s) (g_irq_last s) (xpt_pml4_phys (s_k (p_sys s))) in
  if armed s then
    let s2 := set_p_lapic s1 (lapic_timer_stop (p_lapic s1)) in
    let s3 := fold_left (fun s e => (on_trap e s).2) stale s2 in
    set_p_lapic s3 (lapic_timer_arm (g_quantum_ticks s3) (p_lapic s3))
  else s1.

(** And after it. *)
Definition run_finish (armed : bool) (s : ProcState) : ProcState :=
  mkProc (p_sys s) (if armed then lapic_timer_stop (p_lapic s) else p_lapic s) None None None (g_quantum_ticks s)
    (g_irq_unexpected s) (g_irq_last s) (g_kernel_cr3 s).

(** A finished call: the status, [*ctx], [*res] and the state. *)
Inductive RunCall := Refused (rc : Z) | Ended (rc : Z) (ctx : option XContext) (res : option XProcResult) (s : ProcState)
  | NotEnded (s : ProcState).

Definition xproc_run_ctx (a : option XAspace) (ctx : option XContext) (has_res : bool)
    (stale evs : list Event) (s : ProcState) : RunCall :=
  match a, ctx with
  | Some a, Some ctx =>
    if negb (as_live a) || negb has_res then Refused (-1) else
    match run_user evs (run_begin a ctx stale s) with
    | Left st s' => Ended st (g_ctx s') (g_res s') (run_finish (armed s) s')
    | Running s' | Stopped s' => NotEnded s'
    end
  | _, _ => Refused (-1)
  end.

Definition xproc_run (a : option XAspace) (entry user_rsp : Z) (has_res : bool) (stale evs : list Event) (s : ProcState) : RunCall :=
  xproc_run_ctx a (Some (xctx_init entry user_rsp)) has_res stale evs s.

Definition xproc_unexpected_irqs (s : ProcState) : Z := g_irq_unexpected s.
Definition xproc_last_unexpected_vector (s : ProcState) : Z := g_irq_last s.

(** * The context switch *)

Definition xproc_enter_asm : list Instr :=
  [PUSH RBX; PUSH RBP; PUSH RDI; PUSH RSI; PUSH R12; PUSH R13; PUSH R14; PUSH R15;
   STOREG RSP g_xproc_resume_rsp; MOVCR3 RCX;
   PUSHI 0x1B; PUSHM 128 RDX; PUSHM 136 RDX; PUSHI 0x23; PUSHM 120 RDX;
   LOAD 8 RDX RBX; LOAD 16 RDX RCX; LOAD 32 RDX RSI; LOAD 40 RDX RDI; LOAD 48 RDX RBP;
   LOAD 56 RDX R8; LOAD 64 RDX R9; LOAD 72 RDX R10; LOAD 80 RDX R11; LOAD 88 RDX R12;
   LOAD 96 RDX R13; LOAD 104 RDX R14; LOAD 112 RDX R15; LOAD 0 RDX RAX; LOAD 24 RDX RDX;
   IRETQ].

Definition xproc_leave_asm : list Instr :=
  [LOADG g_xproc_resume_rsp RSP; LOADG g_xproc_kernel_cr3 RAX; MOVCR3 RAX; MOV RCX RAX;
   POP R15; POP R14; POP R13; POP R12; POP RSI; POP RDI; POP RBP; POP RBX; RET].

(** The fields of the structure at an address, in declaration order. *)
Definition ctx_at (m : Machine) (p : Z) : XContext :=
  mkCtx (word m p) (word m (p + 8)) (word m (p + 16)) (word m (p + 24)) (word m (p + 32)) (word m (p + 40))
    (word m (p + 48)) (word m (p + 56)) (word m (p + 64)) (word m (p + 72)) (word m (p + 80)) (word m (p + 88))
    (word m (p + 96)) (word m (p + 104)) (word m (p + 112)) (word m (p + 120)) (word m (p + 128)) (word m (p + 136)).

(** The user-visible state of a machine as a context. *)
Definition ctx_of (m : Machine) : XContext :=
  mkCtx (m_reg m RAX) (m_reg m RBX) (m_reg m RCX) (m_reg m RDX) (m_reg m RSI) (m_reg m RDI) (m_reg m RBP)
    (m_reg m R8) (m_reg m R9) (m_reg m R10) (m_reg m R11) (m_reg m R12) (m_reg m R13) (m_reg m R14) (m_reg m R15)
    (m_rip m) (m_reg m RSP) (m_rflags m).

(** ** Entering *)

Definition callee_saved : list Reg := [RBX; RBP; RDI; RSI; R12; R13; R14; R15].

(** The loads of the entry code, in order; [rdx] comes last. *)
Definition ctx_loads : list (Z * Reg) :=
  [(8, RBX); (16, RCX); (32, RSI); (40, RDI); (48, RBP); (56, R8); (64, R9); (72, R10); (80, R11); (88, R12);
   (96, R13); (104, R14); (112, R15); (0, RAX)].

Definition load_all (ls : list (Z * Reg)) (m : Machine) : Machine :=
  fold_left (fun m x => exec m (LOAD x.1 RDX x.2)) ls m.

Lemma load_all_spec ls m : NoDup ls.*2 -> RDX ∉ ls.*2 ->
  (forall o r, (o, r) ∈ ls -> m_reg (load_all ls m) r = word m (u64 (m_reg m RDX + o))) /\
  (forall r, r ∉ ls.*2 -> m_reg (load_all ls m) r = m_reg m r) /\
  m_mem (load_all ls m) = m_mem m /\ m_cr3 (load_all ls m) = m_cr3 m /\ m_global (load_all ls m) = m_global m.
Proof.
  revert m. induction ls as [|[o r] ls IH]; intros m Hnd Hni; cbn [load_all fold_left fst snd fmap list_fmap] in *.
  { split_and!; try done. by intros o r ?%elem_of_nil. }
  apply NoDup_cons in Hnd as [Hr Hnd]. apply not_elem_of_cons in Hni as [Hne Hni].
  destruct (IH (exec m (LOAD o RDX r)) Hnd Hni) as (H1 & H2 & H3 & H4 & H5). unfold load_all in *.
  set (m1 := exec m (LOAD o RDX r)) in *.
  assert (m_reg m1 r = word m (u64 (m_reg m RDX + o))) as Er by (unfold m1; cbn; unfold upd; by rewrite decide_True).
  assert (forall x, x <> r -> m_reg m1 x = m_reg m x) as Ex by (intros x Hx; unfold m1; cbn; unfold upd; by rewrite decide_False).
  split_and!; [| |exact H3|exact H4|exact H5].
  - intros o' r' [[= -> ->]|Hin]%elem_of_cons; [by rewrite H2, Er|].
    rewrite (H1 _ _ Hin), Ex by done. done.
  - intros x [Hx Hxs]%not_elem_of_cons. by rewrite H2, Ex.
Qed.

(** The context lies clear of the words the entry code pushes. *)
Definition ctx_clear (sp cp : Z) : Prop :=
  0 <= cp /\ cp + 144 <= 2 ^ 64 /\ (sp <= cp \/ cp + 144 <= sp - 104).

Lemma enter_split : xproc_enter_asm =
  (PUSH <$> callee_saved) ++ [STOREG RSP g_xproc_resume_rsp; MOVCR3 RCX] ++
  [PUSHI 0x1B; PUSHM 128 RDX; PUSHM 136 RDX; PUSHI 0x23; PUSHM 120 RDX] ++
  ((fun x => LOAD x.1 RDX x.2) <$> ctx_loads) ++ [LOAD 24 RDX RDX; IRETQ].
Proof. reflexivity. Qed.

Lemma run_app c1 c2 m : run (c1 ++ c2) m = run c2 (run c1 m).
Proof. apply fold_left_app. Qed.

Lemma run_loads ls m : run ((fun x => LOAD x.1 RDX x.2) <$> ls) m = load_all ls m.
Proof. revert m. induction ls as [|x ls IH]; intros m; [done|]. apply IH. Qed.

(** The return frame is pushed from the context. *)
Lemma run_iret_frame m cp : m_reg m RDX = cp -> 40 <= m_reg m RSP < 2 ^ 64 ->
  0 <= cp -> cp + 144 <= 2 ^ 64 -> (m_reg m RSP <= cp \/ cp + 144 <= m_reg m RSP - 40) ->
  run [PUSHI 0x1B; PUSHM 128 RDX; PUSHM 136 RDX; PUSHI 0x23; PUSHM 120 RDX] m =
  push_all [0x1B; word m (cp + 128); word m (cp + 136); 0x23; word m (cp + 120)] m.
Proof.
  intros Hd Hsp H0 H1 Hc.
  assert (forall vs o, Z.of_nat (length vs) <= 5 -> 0 <= o <= 136 ->
    word (push_all vs m) (u64 (m_reg (push_all vs m) RDX + o)) = word m (cp + o)) as Hw.
  { intros vs o Hl Ho. destruct (push_all_spec vs m) as (_ & Hr & _ & Ha); [lia|]. rewrite Hr, Hd by done.
    rewrite u64_small by lia. apply Ha. lia. }
  change (run [PUSHI 0x1B; PUSHM 128 RDX; PUSHM 136 RDX; PUSHI 0x23; PUSHM 120 RDX] m) with
    (let m1 := push_all [0x1B] m in let m2 := push (word m1 (u64 (m_reg m1 RDX + 128))) m1 in
     let m3 := push (word m2 (u64 (m_reg m2 RDX + 136))) m2 in let m4 := push 0x23 m3 in
     push (word m4 (u64 (m_reg m4 RDX + 120))) m4).
  cbv zeta. rewrite (Hw [0x1B] 128) by (cbn; lia).
  change (push ?v (push_all [0x1B] m)) with (push_all [0x1B; v] m). rewrite (Hw [0x1B; _] 136) by (cbn; lia).
  change (push 0x23 (push ?v (push_all [0x1B; ?w] m))) with (push_all [0x1B; w; v; 0x23] m).
  rewrite (Hw [0x1B; _; _; 0x23] 120) by (cbn; lia). reflexivity.
Qed.

(** The kernel stack while a program runs: the saved registers, then the
    return address of the caller. *)
Definition kernel_saved (m h : Machine) : Prop :=
  let sp := m_reg m RSP in
  (forall i r, reverse callee_saved !! i = Some r -> word h (sp - 64 + 8 * Z.of_nat i) = m_reg m r) /\
  word h sp = word m sp.

Lemma push_all_rest vs m : m_cr3 (push_all vs m) = m_cr3 m /\ m_global (push_all vs m) = m_global m.
Proof. revert m. induction vs as [|v vs IH]; intros m; [done|]. cbn [push_all]. destruct (IH (push v m)) as [-> ->]. done. Qed.

Section Enter.
Context (m : Machine) (sp cp : Z) (Esp : m_reg m RSP = sp) (Ecp : m_reg m RDX = cp).
Context (Hsp : 104 <= sp < 2 ^ 64) (Hcp : ctx_clear sp cp).

(** After the registers are saved. *)
Record saved_state (m1 : Machine) : Prop := {
  sv_rsp : m_reg m1 RSP = sp - 64;
  sv_reg : forall r, r <> RSP -> m_reg m1 r = m_reg m r;
  sv_stk : forall i r, reverse callee_saved !! i = Some r -> word m1 (sp - 64 + 8 * Z.of_nat i) = m_reg m r;
  sv_mem : forall a, sp <= a \/ a < sp - 64 -> word m1 a = word m a
}.

Lemma enter_m1 : saved_state (push_all (m_reg m <$> callee_saved) m).
Proof.
  destruct (push_all_spec (m_reg m <$> callee_saved) m) as (H1 & H2 & H3 & H4);
    [rewrite length_fmap, Esp; change (length callee_saved) with 8%nat; lia|].
  rewrite length_fmap, Esp in *. change (Z.of_nat (length callee_saved)) with 8 in *.
  split; [lia|done| |intros a Ha; apply H4; lia].
  intros i r Hi. apply lookup_lt_Some in Hi as Hlt. rewrite length_reverse in Hlt. change (length callee_saved) with 8%nat in Hlt.
  rewrite reverse_lookup in Hi by done. change (length callee_saved) with 8%nat in Hi.
  rewrite <- (H3 (8 - S i)%nat (m_reg m r)); [f_equal; lia|]. rewrite list_lookup_fmap, Hi. done.
Qed.

(** The words of the return frame. *)
Definition iret_words : list Z := [0x1B; word m (cp + 128); word m (cp + 136); 0x23; word m (cp + 120)].

Lemma enter_m3 : exists m1, saved_state m1 /\ m_global m1 = m_global m /\
  run ((PUSH <$> callee_saved) ++ [STOREG RSP g_xproc_resume_rsp; MOVCR3 RCX] ++
    [PUSHI 0x1B; PUSHM 128 RDX; PUSHM 136 RDX; PUSHI 0x23; PUSHM 120 RDX]) m =
  push_all iret_words (set_cr3 (set_global m1 g_xproc_resume_rsp (sp - 64)) (m_reg m RCX)).
Proof.
  rewrite run_pushes by (by apply (bool_decide_unpack _)).
  pose proof enter_m1 as H. pose proof (push_all_rest (m_reg m <$> callee_saved) m) as [_ Hg].
  generalize dependent (push_all (m_reg m <$> callee_saved) m). intros m1 H Hg. exists m1. split_and!; [done|done|].
  destruct H as [H1 H2 _ H4]. destruct Hcp as (Hc0 & Hc1 & Hc2). rewrite run_app.
  change (run [STOREG RSP g_xproc_resume_rsp; MOVCR3 RCX] m1) with (set_cr3 (set_global m1 g_xproc_resume_rsp (m_reg m1 RSP)) (m_reg m1 RCX)).
  rewrite H1, (H2 RCX) by done. set (m2 := set_cr3 _ _).
  assert (forall a, word m2 a = word m1 a) as Hw by reflexivity.
  assert (m_reg m2 RSP = sp - 64) as E2 by exact H1.
  rewrite (run_iret_frame m2 cp); [|rewrite <- Ecp; exact (H2 RDX ltac:(done))|lia|done|done|lia].
  rewrite !Hw, !H4 by lia. reflexivity.
Qed.

(** The state when the return frame is pushed and the registers are loaded. *)
Lemma enter_m4 : exists m4,
  run (((PUSH <$> callee_saved) ++ [STOREG RSP g_xproc_resume_rsp; MOVCR3 RCX] ++
    [PUSHI 0x1B; PUSHM 128 RDX; PUSHM 136 RDX; PUSHI 0x23; PUSHM 120 RDX]) ++
    ((fun x => LOAD x.1 RDX x.2) <$> ctx_loads)) m = m4 /\
  (forall o r, (o, r) ∈ ctx_loads -> 0 <= o <= 136 -> m_reg m4 r = word m (cp + o)) /\
  m_reg m4 RDX = cp /\ word m4 (cp + 24) = word m (cp + 24) /\ m_reg m4 RSP = sp - 104 /\
  (forall i v, iret_words !! i = Some v -> word m4 (sp - 104 + 8 * (4 - Z.of_nat i)) = v) /\
  m_cr3 m4 = m_reg m RCX /\ m_global m4 = upd (m_global m) g_xproc_resume_rsp (sp - 64) /\ kernel_saved m m4.
Proof.
  rewrite run_app, run_loads. destruct enter_m3 as (m1 & [H1 H2 H3 H4] & Hg1 & ->). destruct Hcp as (Hc0 & Hc1 & Hc2).
  set (m2 := set_cr3 _ _). assert (m_reg m2 RSP = sp - 64) as E2 by exact H1.
  assert (forall a, word m2 a = word m1 a) as Hw2 by reflexivity.
  assert (m_reg m2 RDX = cp) as D2 by (rewrite <- Ecp; exact (H2 RDX ltac:(done))).
  destruct (push_all_spec iret_words m2) as (P1 & P2 & P3 & P4); [rewrite E2; change (length iret_words) with 5%nat; lia|].
  destruct (push_all_rest iret_words m2) as [Q1 Q2]. rewrite E2 in *. change (Z.of_nat (length iret_words)) with 5 in *.
  specialize (P2 RDX) as P2d. generalize dependent (push_all iret_words m2). intros m3 P1 P2 P3 P4 Q1 Q2 P2d.
  assert (forall o, 0 <= o <= 136 -> word m3 (cp + o) = word m (cp + o)) as Hw.
  { intros o Ho. rewrite P4, Hw2 by lia. apply H4. lia. }
  destruct (load_all_spec ctx_loads m3) as (L1 & L2 & L3 & L4 & L5);
    [by apply (bool_decide_unpack _)|by apply (bool_decide_unpack _)|]. rewrite P2d, D2 in L1 by done.
  pose proof (L2 RDX ltac:(by apply (bool_decide_unpack _))) as L2d. pose proof (L2 RSP ltac:(by apply (bool_decide_unpack _))) as L2s.
  generalize dependent (load_all ctx_loads m3). intros m4 L1 L2 L3 L4 L5 L2d L2s.
  assert (forall a, word m4 a = word m3 a) as Hw4 by (intros a; unfold word; by rewrite L3).
  exists m4. split_and!.
  - done.
  - intros o r Hin Ho. rewrite (L1 o r Hin), u64_small by lia. by apply Hw.
  - by rewrite L2d, P2d, D2.
  - rewrite Hw4. apply Hw. lia.
  - lia.
  - intros i v Hi. rewrite Hw4, <- (P3 i v Hi). f_equal. lia.
  - by rewrite L4, Q1.
  - rewrite L5, Q2. unfold m2, set_cr3, set_global. cbn [m_global]. by rewrite Hg1.
  - split; rewrite Esp.
    + intros i r Hi. rewrite Hw4, P4, Hw2 by lia. by apply H3.
    + rewrite Hw4, P4, Hw2 by lia. apply H4. lia.
Qed.

Lemma enter_state :
  let u := run xproc_enter_asm m in
  ctx_of u = ctx_at m cp /\ m_cs u = 0x23 /\ m_ss u = 0x1B /\ m_cr3 u = m_reg m RCX /\
  m_global u = upd (m_global m) g_xproc_resume_rsp (sp - 64) /\ kernel_saved m u.
Proof.
  cbv zeta. rewrite enter_split, !app_assoc, run_app, <- !app_assoc.
  destruct enter_m4 as (m4 & E4 & Hl & Hd4 & Hd & Hs4 & Hst & Hc & Hg & Hk). rewrite <- !app_assoc in E4. rewrite E4.
  clear E4. destruct Hcp as (Hc0 & Hc1 & Hc2). cbn [run fold_left exec].
  rewrite Hd4, u64_small, Hd by lia. set (m5 := set_reg m4 RDX _).
  assert (m_reg m5 RSP = sp - 104) as Hs5 by exact Hs4. assert (forall a, word m5 a = word m4 a) as Hw5 by reflexivity.
  rewrite Hs5, !Hw5. pose proof (Hst 0%nat _ eq_refl) as E0. pose proof (Hst 1%nat _ eq_refl) as E1.
  pose proof (Hst 2%nat _ eq_refl) as E2. pose proof (Hst 3%nat _ eq_refl) as E3. pose proof (Hst 4%nat _ eq_refl) as E4.
  change (Z.of_nat 0) with 0 in E0. change (Z.of_nat 1) with 1 in E1. change (Z.of_nat 2) with 2 in E2.
  change (Z.of_nat 3) with 3 in E3. change (Z.of_nat 4) with 4 in E4. change (4 - 4) with 0 in E4. rewrite Z.mul_0_r, Z.add_0_r in E4.
  change (8 * (4 - 0)) with 32 in E0. change (8 * (4 - 1)) with 24 in E1. change (8 * (4 - 2)) with 16 in E2. change (8 * (4 - 3)) with 8 in E3.
  rewrite E0, E1, E2, E3, E4. split_and!; [|done|done|exact Hc|exact Hg|exact Hk].
  assert (m_reg m4 RAX = word m cp) as Ea by (rewrite (Hl 0 RAX); [f_equal; lia|by apply (bool_decide_unpack _)|lia]).
  unfold ctx_of, ctx_at. cbn [m_reg m_rip m_rflags].
  assert (forall r, r <> RSP -> r <> RDX -> upd (m_reg m5) RSP (word m (cp + 128)) r = m_reg m4 r) as Hr.
  { intros r ??. unfold m5, set_reg, upd. cbn [m_reg]. by rewrite !decide_False. }
  assert (upd (m_reg m5) RSP (word m (cp + 128)) RDX = word m (cp + 24)) as Hrd by reflexivity.
  assert (upd (m_reg m5) RSP (word m (cp + 128)) RSP = word m (cp + 128)) as Hrs by reflexivity.
  rewrite Hrd, Hrs, (Hr RAX), (Hr RBX), (Hr RCX), (Hr RSI), (Hr RDI), (Hr RBP), (Hr R8), (Hr R9), (Hr R10), (Hr R11),
    (Hr R12), (Hr R13), (Hr R14), (Hr R15), Ea by done.
  rewrite (Hl 8 RBX), (Hl 16 RCX), (Hl 32 RSI), (Hl 40 RDI), (Hl 48 RBP), (Hl 56 R8), (Hl 64 R9), (Hl 72 R10), (Hl 80 R11),
    (Hl 88 R12), (Hl 96 R13), (Hl 104 R14), (Hl 112 R15) by (by apply (bool_decide_unpack _) || lia). done.
Qed.
End Enter.

(** ** Leaving *)

Lemma leave_state m h sp :
  m_reg m RSP = sp -> 64 <= sp -> sp + 8 < 2 ^ 64 ->
  m_global h g_xproc_resume_rsp = sp - 64 -> kernel_saved m h ->
  let v := run xproc_leave_asm h in
  (forall r, r ∈ callee_saved -> m_reg v r = m_reg m r) /\ m_reg v RSP = sp + 8 /\ m_rip v = word m sp /\
  m_reg v RAX = m_reg h RCX /\ m_cr3 v = m_global h g_xproc_kernel_cr3.
Proof.
  intros Hsp H0 H1 Hg [Hk Hr]. rewrite Hsp in *. cbv zeta.
  change xproc_leave_asm with ([LOADG g_xproc_resume_rsp RSP; LOADG g_xproc_kernel_cr3 RAX; MOVCR3 RAX; MOV RCX RAX] ++
    (POP <$> reverse callee_saved) ++ [RET]). rewrite run_app.
  set (h1 := run [LOADG _ _; _; _; _] h).
  assert (m_reg h1 RSP = sp - 64) as E1 by exact Hg. assert (m_reg h1 RAX = m_reg h RCX) as Ea by reflexivity.
  assert (m_cr3 h1 = m_global h g_xproc_kernel_cr3) as Ec by reflexivity.
  assert (forall a, word h1 a = word h a) as Hw by reflexivity. clearbody h1. rewrite run_pops.
  destruct (pop_all_spec (reverse callee_saved) h1) as (P1 & P2 & P3 & P4 & P5 & _);
    [by apply (bool_decide_unpack _)|by apply (bool_decide_unpack _)|lia|rewrite length_reverse; change (length callee_saved) with 8%nat; lia|].
  rewrite length_reverse in *. change (Z.of_nat (length callee_saved)) with 8 in *. rewrite E1 in *.
  pose proof (P2 RAX ltac:(by apply (bool_decide_unpack _)) ltac:(done)) as P2a.
  generalize dependent (pop_all (reverse callee_saved) h1). intros h2 P1 P2 P3 P4 P5 P2a.
  assert (forall a, word h2 a = word h a) as Hw2 by (intros a; unfold word; rewrite P4; apply Hw).
  cbn [run fold_left exec m_reg m_rip m_cr3]. split_and!.
  - intros r Hin. unfold upd. rewrite decide_False by (intros ->; revert Hin; by apply (bool_decide_unpack (RSP ∉ callee_saved))).
    apply elem_of_reverse, list_elem_of_lookup in Hin as [i Hi]. rewrite (P3 i r Hi), Hw. by apply Hk.
  - unfold upd. rewrite decide_True by done. rewrite u64_small; lia.
  - rewrite Hw2, <- Hr. f_equal. lia.
  - unfold upd. rewrite decide_False by done. by rewrite P2a.
  - by rewrite P5.
Qed.

(** * What a run does *)

Definition user_event (e : Event) : Prop :=
  f_cs (ev_frame e) .& 3 = 3 /\ regs_ok (ev_frame e) /\ 0 <= f_vector (ev_frame e).

(** The status with which a trap ends the run, if it does. *)
Definition ends (e : Event) : option Z :=
  let f := ev_frame e in
  if f_vector f =? 0x80 then
    if f_rax f =? XSYS_EXIT then Some XPROC_EXIT else if f_rax f =? XSYS_YIELD then Some XPROC_YIELD else None
  else if f_vector f >=? 32 then
    if f_vector f =? LAPIC_TIMER_VEC then Some XPROC_PREEMPT else None
  else Some XPROC_FAULT.

(** The value a trap asks the kernel to record. *)
Definition logged (e : Event) : option Z :=
  let f := ev_frame e in
  if (f_vector f =? 0x80) && (f_rax f =? XSYS_LOG) then Some (f_rdi f) else None.

(** The first eight values, padded with zeros. *)
Definition log_of (vs : list Z) : list Z := take 8 (vs ++ replicate 8 0).

Definition res_with (vs : list Z) (why code vec err rip cr2 : Z) : XProcResult :=
  mkRes why code vec err rip cr2 (log_of vs) (Z.of_nat (length vs) `min` 8).

Lemma log_of_snoc vs v : (length vs < 8)%nat -> <[length vs := v]> (log_of vs) = log_of (vs ++ [v]).
Proof.
  intros Hl. unfold log_of. rewrite <- app_assoc. cbn [app].
  rewrite !take_app, !(take_ge vs) by lia. rewrite insert_app_r_alt, Nat.sub_diag by lia. f_equal.
  destruct (8 - length vs)%nat as [|k] eqn:E; [lia|]. rewrite !take_replicate. cbn [take].
  rewrite take_replicate. replace (S k `min` 8)%nat with (S k) by lia. replace (k `min` 8)%nat with k by lia. done.
Qed.

Lemma log_of_full vs v : (8 <= length vs)%nat -> log_of (vs ++ [v]) = log_of vs.
Proof. intros Hl. unfold log_of. rewrite <- app_assoc, !take_app_le by lia. done. Qed.

Lemma add_log_of vs v : add_log (res_with vs 0 0 0 0 0 0) v = res_with (vs ++ [v]) 0 0 0 0 0 0.
Proof.
  unfold add_log, res_with. cbn [log_n log reason exit_code x_vector x_error x_rip x_cr2].
  rewrite length_app. cbn [length]. change XPROC_LOG_MAX with 8. destruct (Z.ltb_spec (Z.of_nat (length vs) `min` 8) 8).
  - rewrite u32_small by lia. f_equal; [|lia]. rewrite <- log_of_snoc by lia. f_equal. lia.
  - rewrite log_of_full by lia. f_equal. lia.
Qed.

Section Runs.
Context `{Bt : Boot}.

(** A run in progress that has recorded [vs]; [q] held at its start. *)
Record in_run (q : SysState) (a : XAspace) (ctx : XContext) (vs : list Z) (S : list XAspace) (s : ProcState) : Prop := {
  ir_res : g_res s = Some (res_with vs 0 0 0 0 0 0);
  ir_ctx : g_ctx s = Some ctx;
  ir_as : g_as s = Some a;
  ir_reach : reachable (s_k (p_sys s)) S;
  ir_quota : forall o, within_quota q o -> within_quota (p_sys s) o
}.

(** [*res] and [*ctx] when trap [e] ends the run with status [st]. *)
Definition final_res (st : Z) (e : Event) (vs : list Z) : XProcResult :=
  let f := ev_frame e in
  if st =? XPROC_EXIT then res_with vs XPROC_EXIT (f_rdi f) 0 0 (f_rip f) 0 else
  if st =? XPROC_FAULT then res_with vs XPROC_FAULT 0 (f_vector f) (f_error f) (f_rip f) (ev_cr2 e)
  else res_with vs st 0 0 0 (f_rip f) 0.

Definition final_ctx (st : Z) (e : Event) (ctx : XContext) : XContext :=
  if st =? XPROC_YIELD then save_ctx (set_rax (ev_frame e) 0) else
  if st =? XPROC_PREEMPT then save_ctx (ev_frame e) else ctx.

Lemma in_run_lapic q a ctx vs S s l : in_run q a ctx vs S s -> in_run q a ctx vs S (set_p_lapic s l).
Proof. by intros [? ? ? ? ?]. Qed.

Lemma user_hook_spec q a ctx vs S s e :
  in_run q a ctx vs S s -> a ∈ S -> user_event e ->
  f_vector (ev_frame e) = 0x80 \/ f_vector (ev_frame e) < 32 ->
  match ends e with
  | Some st => exists s', user_hook (ev_frame e) (ev_cr2 e) s = (Leave st, s') /\ p_sys s' = p_sys s /\
      g_res s' = Some (final_res st e vs) /\ g_ctx s' = Some (final_ctx st e ctx)
  | None => exists f' s', user_hook (ev_frame e) (ev_cr2 e) s = (Return f', s') /\
      in_run q a ctx (vs ++ option_list (logged e)) S s'
  end.
Proof.
  intros Hin Ha (Hcs & Hf & Hv0) Hv. pose proof Hin as [Hr Hc Hs Hk Hq].
  unfold ends, logged, user_hook. rewrite Hr, Hs. destruct e as [f cr2 cr3]. cbn [ev_frame ev_cr2] in *.
  destruct (Z.eqb_spec (f_vector f) 0x80) as [Ev|Ev]; cbn [andb].
  2: { rewrite Z.geb_leb. destruct (Z.leb_spec 32 (f_vector f)); [lia|]. eexists. split_and!; [done|done|done|exact Hc]. }
  destruct (Z.eqb_spec (f_rax f) XSYS_EXIT) as [E1|E1]; [eexists; split_and!; [done|done|done|exact Hc]|].
  destruct (Z.eqb_spec (f_rax f) XSYS_LOG) as [E2|E2].
  { destruct (Z.eqb_spec (f_rax f) XSYS_YIELD) as [E3|_]; [rewrite E3 in E2; done|]. rewrite add_log_of.
    eexists _, _. split; [done|]. by split. }
  destruct (Z.eqb_spec (f_rax f) XSYS_YIELD) as [E3|E3]; [eexists; split_and!; done|]. cbn [option_list app]. rewrite app_nil_r.
  destruct (_ && _); [|eexists _, _; split; [done|exact Hin]].
  destruct (xsys_step a f (p_sys s) S Hk Ha Hf) as (Hk' & Hfa & _). destruct (xsys_resource a f (p_sys s)) as [f' sys'].
  eexists _, _. split; [done|]. split; [exact Hr|exact Hc|exact Hs|exact Hk'|].
  intros o Ho. apply (fair_quota a (p_sys s)); [exact Hfa|auto].
Qed.

Lemma irq_hook_spec q a ctx vs S s e :
  in_run q a ctx vs S s -> user_event e -> 32 <= f_vector (ev_frame e) -> f_vector (ev_frame e) <> 0x80 ->
  match ends e with
  | Some st => exists s', irq_hook (ev_frame e) (ev_cr2 e) s = (Leave st, s') /\ p_sys s' = p_sys s /\
      g_res s' = Some (final_res st e vs) /\ g_ctx s' = Some (final_ctx st e ctx)
  | None => exists f' s', irq_hook (ev_frame e) (ev_cr2 e) s = (Return f', s') /\
      in_run q a ctx (vs ++ option_list (logged e)) S s'
  end.
Proof.
  intros Hin (Hcs & _ & _) Hv Hne. pose proof Hin as [Hr Hc Hs Hk Hq]. unfold ends, logged, irq_hook.
  destruct e as [f cr2 cr3]. cbn [ev_frame ev_cr2] in *. destruct (Z.eqb_spec (f_vector f) 0x80); [done|]. cbn [andb option_list].
  rewrite Z.geb_leb. destruct (Z.leb_spec 32 (f_vector f)); [|lia]. rewrite app_nil_r.
  destruct (Z.eqb_spec (f_vector f) LAPIC_TIMER_VEC) as [Et|Et].
  - cbn [set_p_lapic g_res g_ctx]. rewrite Hr, Hc, Hcs. cbn [Z.eqb Pos.eqb]. eexists. split_and!; done.
  - destruct (_ =? LAPIC_SPURIOUS_VEC); [eexists _, _; split; [done|exact Hin]|].
    eexists _, _. split; [done|]. by apply in_run_lapic.
Qed.

Lemma on_trap_spec q a ctx vs S s e :
  in_run q a ctx vs S s -> a ∈ S -> user_event e ->
  match ends e with
  | Some st => exists s', on_trap e s = (Leave st, s') /\ p_sys s' = p_sys s /\
      g_res s' = Some (final_res st e vs) /\ g_ctx s' = Some (final_ctx st e ctx)
  | None => exists f' s', on_trap e s = (Return f', s') /\ in_run q a ctx (vs ++ option_list (logged e)) S s'
  end.
Proof.
  intros Hin Ha He. pose proof He as (Hcs & _ & Hv0). unfold on_trap, exception_handler. rewrite Z.geb_leb.
  destruct (Z.leb_spec 32 (f_vector (ev_frame e))) as [Hv|Hv]; [destruct (Z.eqb_spec (f_vector (ev_frame e)) 0x80) as [E|E]|]; cbn [andb negb].
  - rewrite orb_true_l. apply (user_hook_spec q a ctx vs S s e); auto.
  - by apply irq_hook_spec.
  - rewrite Hcs, orb_true_r. apply (user_hook_spec q a ctx vs S s e); auto.
Qed.

Lemma run_user_spec q a ctx S evs : forall vs s, in_run q a ctx vs S s -> a ∈ S -> Forall user_event evs ->
  match run_user evs s with
  | Left st s' => exists pre e post, evs = pre ++ e :: post /\ Forall (fun e => ends e = None) pre /\ ends e = Some st /\
      g_res s' = Some (final_res st e (vs ++ omap logged pre)) /\ g_ctx s' = Some (final_ctx st e ctx) /\
      reachable (s_k (p_sys s')) S /\ (forall o, within_quota q o -> within_quota (p_sys s') o)
  | Running s' => Forall (fun e => ends e = None) evs /\ in_run q a ctx (vs ++ omap logged evs) S s'
  | Stopped _ => False
  end.
Proof.
  induction evs as [|e evs IH]; intros vs s Hin Ha Hev; cbn [run_user].
  { split; [done|]. cbn. by rewrite app_nil_r. }
  apply Forall_cons in Hev as [He Hev]. pose proof (on_trap_spec q a ctx vs S s e Hin Ha He) as H.
  destruct (ends e) as [st|] eqn:Ee.
  - destruct H as (s' & -> & Hsys & Hr & Hc). exists [], e, evs. rewrite Hsys. cbn. rewrite app_nil_r.
    split_and!; [done|done|done|done|done|apply Hin|apply Hin].
  - destruct H as (f' & s' & -> & Hin'). specialize (IH _ s' Hin' Ha Hev).
    assert (forall es, vs ++ omap logged (e :: es) = (vs ++ option_list (logged e)) ++ omap logged es) as Eo.
    { intros es. cbn. by destruct (logged e); rewrite <- app_assoc. }
    destruct (run_user evs s') as [s2|st s2|s2].
    + destruct IH as [H1 H2]. rewrite Eo. split; [by constructor|done].
    + destruct IH as (pre & e' & post & -> & H1 & H2 & H3). exists (e :: pre), e', post. rewrite Eo.
      split_and!; [done|by constructor|done|apply H3..].
    + done.
Qed.

(** An interrupt taken in ring 0, in the window before the run. *)
Definition stale_event (e : Event) : Prop :=
  f_cs (ev_frame e) .& 3 <> 3 /\ 32 <= f_vector (ev_frame e) /\ f_vector (ev_frame e) <> 0x80.

Lemma stale_run q a ctx vs S s evs : in_run q a ctx vs S s -> Forall stale_event evs ->
  in_run q a ctx vs S (fold_left (fun s e => (on_trap e s).2) evs s).
Proof.
  intros Hin Hev. revert s Hin. induction Hev as [|e evs (Hcs & Hv & Hne) _ IH]; intros s Hin; [done|].
  apply IH. unfold on_trap, exception_handler. rewrite Z.geb_leb. destruct (Z.leb_spec 32 (f_vector (ev_frame e))); [|lia].
  destruct (Z.eqb_spec (f_vector (ev_frame e)) 0x80); [done|]. cbn [andb negb]. unfold irq_hook.
  apply Z.eqb_neq in Hcs. rewrite Hcs. destruct (_ =? LAPIC_TIMER_VEC).
  - cbn [set_p_lapic g_res g_ctx]. rewrite (ir_res _ _ _ _ _ _ Hin), (ir_ctx _ _ _ _ _ _ Hin). cbn [snd].
    exact (in_run_lapic _ _ _ _ _ _ (lapic_eoi (p_lapic s)) Hin).
  - destruct (_ =? LAPIC_SPURIOUS_VEC); [done|]. by destruct Hin; split.
Qed.

Lemma run_begin_spec a ctx stale s S : reachable (s_k (p_sys s)) S -> Forall stale_event stale ->
  in_run (p_sys s) a (set_rflags ctx (user_rflags (armed s) (c_rflags ctx))) [] S (run_begin a ctx stale s).
Proof.
  intros Hr Hst. unfold run_begin. cbv zeta.
  assert (forall l c, in_run (p_sys s) a (set_rflags ctx (user_rflags (armed s) (c_rflags ctx))) [] S
    (mkProc (p_sys s) l (Some zero_result) (Some (set_rflags ctx (user_rflags (armed s) (c_rflags ctx)))) (Some a)
       (g_quantum_ticks s) (g_irq_unexpected s) (g_irq_last s) c)) as H by (intros; by split).
  destruct (armed s); [|apply H]. apply in_run_lapic, stale_run; [|done]. apply H.
Qed.

Lemma user_rflags_bits ar rf i : 0 <= i ->
  Z.testbit (user_rflags ar rf) i =
    (Z.testbit rf i && bool_decide (i ∈ [0; 2; 4; 6; 7; 10; 11])) || (i =? 1) || (ar && (i =? 9)).
Proof.
  intros Hi. unfold user_rflags. rewrite !Z.lor_spec, Z.land_spec.
  assert (Z.testbit RFLAGS_USER_KEEP i = bool_decide (i ∈ [0; 2; 4; 6; 7; 10; 11])) as ->.
  { destruct (Z.lt_ge_cases i 12); [|rewrite (testbit_high RFLAGS_USER_KEEP 12) by (done || lia); symmetry; apply bool_decide_eq_false_2; set_solver by lia].
    assert (i ∈ seqZ 0 12) as Hin by (apply elem_of_seqZ; lia). clear Hi H. revert i Hin.
    apply Forall_forall. vm_compute. repeat constructor. }
  change 0x2 with (1 .<< 1). rewrite testbit_pow2 by lia. destruct ar; [|by rewrite Z.bits_0, andb_false_l].
  change RFLAGS_IF with (1 .<< 9). by rewrite testbit_pow2 by lia.
Qed.

(** * Properties *)

(** A whole call of [xproc_run_ctx]. *)
Lemma run_ctx_spec a ctx stale evs s S :
  reachable (s_k (p_sys s)) S -> a ∈ S -> Forall stale_event stale -> Forall user_event evs ->
  match xproc_run_ctx (Some a) (Some ctx) true stale evs s with
  | Ended rc ctx' res' s' =>
    exists pre e post, evs = pre ++ e :: post /\ Forall (fun e => ends e = None) pre /\ ends e = Some rc /\
      res' = Some (final_res rc e (omap logged pre)) /\
      ctx' = Some (final_ctx rc e (set_rflags ctx (user_rflags (armed s) (c_rflags ctx)))) /\
      g_res s' = None /\ g_ctx s' = None /\ g_as s' = None /\
      (armed s = true -> exists l, p_lapic s' = lapic_timer_stop l) /\
      reachable (s_k (p_sys s')) S /\ (forall o, within_quota (p_sys s) o -> within_quota (p_sys s') o)
  | NotEnded s' => Forall (fun e => ends e = None) evs /\ reachable (s_k (p_sys s')) S
  | Refused _ => False
  end.
Proof.
  intros Hr Ha Hst Hev. unfold xproc_run_ctx. apply reachable_inv in Hr as Hk. destruct (ki_space _ _ Hk a Ha) as [-> _]. cbn [negb orb].
  pose proof (run_begin_spec a ctx stale s S Hr Hst) as Hin.
  pose proof (run_user_spec _ _ _ S evs [] _ Hin Ha Hev) as H. destruct (run_user evs _) as [s2|st s2|s2]; [|..|done].
  - destruct H as [H1 H2]. split; [done|apply H2].
  - destruct H as (pre & e & post & H1 & H2 & H3 & H4 & H5 & H6 & H7). exists pre, e, post.
    split_and!; try done. cbn. intros ->. by eexists.
Qed.


(** The context switch. [xproc_enter_asm] puts exactly the context into
    the processor, in ring 3 and in the address space given, and leaves the
    kernel's callee-saved registers on its stack. From any later state in
    which that part of the kernel stack and the two variables are intact,
    [xproc_leave_asm] returns to the caller of [xproc_enter_asm]: every
    callee-saved register and the stack pointer as at the call, the status in
    [rax], the kernel's page tables in CR3. *)
Theorem xproc_switch_correct m h sp cp :
  m_reg m RSP = sp -> m_reg m RDX = cp -> 104 <= sp -> sp + 8 < 2 ^ 64 -> ctx_clear sp cp ->
  let u := run xproc_enter_asm m in
  m_global h = m_global u -> (forall x, sp - 64 <= x < sp + 8 -> word h x = word u x) ->
  let v := run xproc_leave_asm h in
  (ctx_of u = ctx_at m cp /\ m_cs u = 0x23 /\ m_ss u = 0x1B /\ m_cr3 u = m_reg m RCX) /\
  (forall r, r ∈ callee_saved -> m_reg v r = m_reg m r) /\ m_reg v RSP = sp + 8 /\ m_rip v = word m sp /\
  m_reg v RAX = m_reg h RCX /\ m_cr3 v = m_global m g_xproc_kernel_cr3.
Proof.
  intros Hsp Hcp H0 H1 Hcl u Hg Hw v.
  destruct (enter_state m sp cp Hsp Hcp ltac:(lia) Hcl) as (E1 & E2 & E3 & E4 & E5 & K1 & K2). fold u in E1, E2, E3, E4, E5, K1, K2.
  rewrite Hsp in K1, K2.
  destruct (leave_state m h sp Hsp ltac:(lia) H1) as (L1 & L2 & L3 & L4 & L5).
  - by rewrite Hg, E5.
  - split; rewrite Hsp.
    + intros i r Hi. apply lookup_lt_Some in Hi as Hlt. change (length (reverse callee_saved)) with 8%nat in Hlt.
      rewrite Hw by lia. by apply K1.
    + rewrite Hw by lia. exact K2.
  - split_and!; try done. fold v in L5. by rewrite L5, Hg, E5.
Qed.

(** A preempted program resumes where it was. If the context in memory is
    the one a preemption by frame [f] leaves once the next run has sanitised
    it, the entry code gives the processor every register of [f], its [rip]
    and its [rsp], in ring 3; of the flags the program keeps the arithmetic
    ones only, and interrupts are on exactly when a quantum is armed. *)
Theorem xproc_resume_exact m sp cp f ar :
  m_reg m RSP = sp -> m_reg m RDX = cp -> 104 <= sp < 2 ^ 64 -> ctx_clear sp cp ->
  ctx_at m cp = set_rflags (save_ctx f) (user_rflags ar (f_rflags f)) ->
  let u := run xproc_enter_asm m in
  frame_of (f_vector f) (f_error f) u =
    mkFrame (f_r15 f) (f_r14 f) (f_r13 f) (f_r12 f) (f_r11 f) (f_r10 f) (f_r9 f) (f_r8 f) (f_rbp f) (f_rdi f) (f_rsi f)
      (f_rdx f) (f_rcx f) (f_rbx f) (f_rax f) (f_vector f) (f_error f) (f_rip f) 0x23 (m_rflags u) (f_rsp f) 0x1B /\
  forall i, 0 <= i -> Z.testbit (m_rflags u) i =
    (Z.testbit (f_rflags f) i && bool_decide (i ∈ [0; 2; 4; 6; 7; 10; 11])) || (i =? 1) || (ar && (i =? 9)).
Proof.
  intros Hsp Hcp H0 Hcl Hctx u. destruct (enter_state m sp cp Hsp Hcp H0 Hcl) as (E1 & E2 & E3 & _). fold u in E1, E2, E3.
  rewrite Hctx in E1. clearbody u. unfold ctx_of, set_rflags, save_ctx in E1. cbn in E1.
  injection E1 as ? ? ? ? ? ? ? ? ? ? ? ? ? ? ? ? ? Hfl. split; [unfold frame_of; f_equal; assumption|].
  intros i Hi. rewrite Hfl. by apply user_rflags_bits.
Qed.

End Runs.

(** * Witnesses *)

#[local] Existing Instance demo_boot_state.

Definition demo_lapic : Lapic := mkLapic true false 0xFEE00000 1000 [].
Definition demo_proc : ProcState := mkProc demo_sys demo_lapic None None None 5000 0 0 0.

Definition demo_trap (vec rax rdi : Z) : Event :=
  mkEvent (mkFrame 0 0 0 0 0 0 0 0 0 rdi 0 0 0 0 rax vec 0 0x8000000000 0x23 0x246 0x8000010000 0x1B) 0 0.

(** A program that logs, allocates, and is preempted. *)
Definition demo_run : list Event := [demo_trap 0x80 XSYS_LOG 42; demo_trap 0x80 XSYS_ALLOC 2; demo_trap 0x40 9 0].


(** The kernel calls [xproc_enter_asm] with the context at 0x5000. *)
Definition demo_kernel (f : ExcFrame) : Machine :=
  mkMachine (fun r => if decide (r = RSP) then 0x9000 else if decide (r = RDX) then 0x5000 else if decide (r = RCX) then 0x3000 else 1)
    0x100000 2 8 0x10 4096 (fun _ => 4096)
    (<[0x5000 + 120 := f_rip f]> (<[0x5000 + 128 := f_rsp f]> (<[0x5000 + 136 := 0x246]> (<[0x5000 := f_rax f]> ∅)))).

Lemma xproc_switch_correct_witness :
  let u := run xproc_enter_asm (demo_kernel (ev_frame (demo_trap 0x40 9 0))) in
  m_rip u = 0x8000000000 /\ m_reg (run xproc_leave_asm u) RSP = 0x9008.
Proof.
  destruct (xproc_switch_correct (demo_kernel (ev_frame (demo_trap 0x40 9 0))) (run xproc_enter_asm (demo_kernel (ev_frame (demo_trap 0x40 9 0))))
    0x9000 0x5000 eq_refl eq_refl ltac:(lia) ltac:(lia) ltac:(unfold ctx_clear; lia) eq_refl (fun _ _ => eq_refl)) as ((H & _) & _ & H2 & _).
  cbv zeta. revert H H2. generalize (run xproc_enter_asm (demo_kernel (ev_frame (demo_trap 0x40 9 0)))). intros u H H2.
  split; [|exact H2]. change (m_rip u) with (c_rip (ctx_of u)). rewrite H. vm_compute. reflexivity.
Defined.

Lemma xproc_resume_exact_witness :
  let u := run xproc_enter_asm (demo_kernel (ev_frame (demo_trap 0x40 9 0))) in
  m_cs u = 0x23 /\ m_reg u RAX = 9 /\ Z.testbit (m_rflags u) 9 = true.
Proof.
  destruct (xproc_resume_exact (demo_kernel (ev_frame (demo_trap 0x40 9 0))) 0x9000 0x5000 (ev_frame (demo_trap 0x40 9 0)) true
    eq_refl eq_refl ltac:(lia) ltac:(unfold ctx_clear; lia) ltac:(vm_compute; reflexivity)) as [H1 H2].
  cbv zeta. revert H1 H2. generalize (run xproc_enter_asm (demo_kernel (ev_frame (demo_trap 0x40 9 0)))). intros u H1 H2.
  split; [exact (f_equal f_cs H1)|]. split; [exact (f_equal f_rax H1)|]. exact (H2 9 ltac:(lia)).
Defined.
