(* ===== verification/Load.v ===== *)
(** The portable loader: model of [source/core/exb/load.c] over the backend
    contract of [xload_backend.h].

    [LoaderBackend] is the set of functions an architecture provides,
    [LoaderLaws] what the contract promises of them, in terms of an abstract
    view: which tokens are live, what their bytes are, what is mapped in the
    address space and how often each token is mapped. The theorems about the
    loader are proved from the laws alone. *)

From S2P Require Import Prelude.
From S2P Require Import Bytes.
From S2P Require Import Ledger.
From S2P Require Import Exb.

(** * The backend *)

Definition XLOAD_OK : Z := 0.
Definition XLOAD_E_ARG : Z := -1.
Definition XLOAD_E_IMAGE : Z := -2.
Definition XLOAD_E_QUOTA : Z := -3.
Definition XLOAD_E_NOMEM : Z := -4.
Definition XLOAD_E_MAP : Z := -5.
Definition XLB_PAGE : Z := 4096.
Definition XLB_USER_TOP : Z := 0x0000800000000000.
Definition XLB_PERM_R : Z := 1.
Definition XLB_PERM_W : Z := 2.
Definition XLB_PERM_X : Z := 4.

(** The functions of the contract; [xlb_poke] is a byte store through the
    pointer that [xlb_kernel_ptr] returned. *)
Class LoaderBackend (St AS : Type) := {
  xlb_quota_ok : Z -> Z -> Z -> St -> bool;
  xlb_alloc : Z -> Z -> Z -> St -> option Z * St;
  xlb_kernel_ptr : Z -> St -> Z;
  xlb_poke : Z -> Z -> St -> St;
  xlb_release : Z -> St -> St;
  xlb_map : AS -> Z -> Z -> Z -> St -> Z * St;
  xlb_unmap : AS -> Z -> St -> Z * St
}.

(** * The loader *)

Record XLoadResult := mkLoad { l_entry : Z; l_stack_top : Z; l_stack_bytes : Z; l_tokens_granted : Z }.

Definition seg_rights (flags : Z) : Z :=
  let r := XTOK_RIGHT_READ .| XTOK_RIGHT_MAP .| XTOK_RIGHT_RELEASE in
  let r := if tst (flags .& EXB_SEG_W) then r .| XTOK_RIGHT_WRITE else r in
  if tst (flags .& EXB_SEG_X) then r .| XTOK_RIGHT_EXECUTE else r.

Definition seg_perms (flags : Z) : Z :=
  let p := XLB_PERM_R in
  let p := if tst (flags .& EXB_SEG_W) then p .| XLB_PERM_W else p in
  if tst (flags .& EXB_SEG_X) then p .| XLB_PERM_X else p.

Section Loader.
Context {St AS : Type} `{LoaderBackend St AS}.

(** Tokens and addresses taken so far, oldest first. *)
Record Txn := mkTxn { t_as : AS; t_tok : list Z; t_va : list Z }.

Definition add_tok (t : Txn) (tok : Z) : Txn := mkTxn (t_as t) (t_tok t ++ [tok]) (t_va t).
Definition add_va (t : Txn) (va : Z) : Txn := mkTxn (t_as t) (t_tok t) (t_va t ++ [va]).

Definition rollback (t : Txn) (s : St) : St :=
  let s := fold_left (fun s va => (xlb_unmap (t_as t) va s).2) (reverse (t_va t)) s in
  fold_left (fun s tok => xlb_release tok s) (reverse (t_tok t)) s.

(** Copies bytes [b], [b+1], ... ([k] of them); [None] for a read outside the
    image. *)
Fixpoint copy_loop (img : list Z) (off dst : Z) (k : nat) (b : Z) (s : St) : option St :=
  match k with
  | O => Some s
  | S k =>
    match rd img (u32 (off + b)) with
    | None => None
    | Some v => copy_loop img off dst k (b + 1) (xlb_poke (dst + b) v s)
    end
  end.

(** One round of the segment loop: the status, the transaction, the state. *)
Definition load_seg (owner : Z) (img : list Z) (sg : ExbSeg) (t : Txn) (s : St) : option (Z * Txn * St) :=
  match xlb_alloc owner (pages sg) (seg_rights (flags sg)) s with
  | (None, s) => Some (XLOAD_E_NOMEM, t, rollback t s)
  | (Some tok, s) =>
    let t := add_tok t tok in
    match copy_loop img (file_off sg) (xlb_kernel_ptr tok s) (Z.to_nat (file_size sg)) 0 s with
    | None => None
    | Some s =>
      let '(rc, s) := xlb_map (t_as t) (vaddr sg) tok (seg_perms (flags sg)) s in
      if negb (rc =? 0) then Some (XLOAD_E_MAP, t, rollback t s)
      else Some (XLOAD_OK, add_va t (vaddr sg), s)
    end
  end.

Fixpoint load_segs (owner : Z) (img : list Z) (segs : list ExbSeg) (t : Txn) (s : St) : option (Z * Txn * St) :=
  match segs with
  | [] => Some (XLOAD_OK, t, s)
  | sg :: segs =>
    match load_seg owner img sg t s with
    | Some (rc, t, s) => if rc =? XLOAD_OK then load_segs owner img segs t s else Some (rc, t, s)
    | None => None
    end
  end.

Definition stack_rights : Z := XTOK_RIGHT_READ .| XTOK_RIGHT_WRITE .| XTOK_RIGHT_MAP .| XTOK_RIGHT_RELEASE.

Definition load_stack (owner stack_pages stack_base : Z) (t : Txn) (s : St) : Z * St :=
  match xlb_alloc owner stack_pages stack_rights s with
  | (None, s) => (XLOAD_E_NOMEM, rollback t s)
  | (Some tok, s) =>
    let t := add_tok t tok in
    let '(rc, s) := xlb_map (t_as t) stack_base tok (XLB_PERM_R .| XLB_PERM_W) s in
    if negb (rc =? 0) then (XLOAD_E_MAP, rollback t s) else (XLOAD_OK, s)
  end.

(** [info0] is what the uninitialised local [info] holds; [None] is a read
    outside the image. *)
Definition xload_exb (a : option AS) (owner : Z) (image : option (list Z)) (size : Z) (has_out : bool)
    (info0 : ExbInfo) (s : St) : option (Z * option XLoadResult * St) :=
  match a, image with
  | Some a, Some img =>
    if negb has_out || (size =? 0) then Some (XLOAD_E_ARG, None, s) else
    if owner =? XTOK_OWNER_KERNEL then Some (XLOAD_E_ARG, None, s) else
    match exb_parse image size info0 with
    | None => None
    | Some (code, info) =>
      if negb (code =? EXB_OK) then Some (XLOAD_E_IMAGE, None, s) else
      let stack_pages := stack_bytes info / XLB_PAGE in
      let frames := image_pages info + stack_pages in
      let tokens := u32 (seg_count info + 1) in
      if negb (xlb_quota_ok owner frames tokens s) then Some (XLOAD_E_QUOTA, None, s) else
      match load_segs owner img (take (Z.to_nat (seg_count info)) (seg info)) (mkTxn a [] []) s with
      | None => None
      | Some (rc, t, s) =>
        if negb (rc =? XLOAD_OK) then Some (rc, None, s) else
        let stack_top := XLB_USER_TOP - XLB_PAGE in
        let stack_base := stack_top - stack_bytes info in
        let '(rc, s) := load_stack owner stack_pages stack_base t s in
        if negb (rc =? XLOAD_OK) then Some (rc, None, s)
        else Some (XLOAD_OK, Some (mkLoad (entry info) stack_top (stack_bytes info) (extra_tokens info)), s)
      end
    end
  | _, _ => Some (XLOAD_E_ARG, None, s)
  end.
End Loader.

(** * The abstract view *)

Record TokView := mkTV { tv_owner : Z; tv_frames : Z; tv_rights : Z }.

Record View := mkView {
  vw_tok : Z -> option TokView;
  vw_byte : Z -> Z -> Z;
  vw_map : Z -> option (Z * Z);
  vw_pins : Z -> Z
}.

(** Two views are the same when every observation is. *)
#[export] Instance View_equiv : Equiv View := fun v w =>
  (forall t, vw_tok v t = vw_tok w t) /\ (forall t o, vw_byte v t o = vw_byte w t o) /\
  (forall va, vw_map v va = vw_map w va) /\ (forall t, vw_pins v t = vw_pins w t).

#[export] Instance View_equivalence : Equivalence (≡@{View}).
Proof.
  split.
  - intros v. by repeat split.
  - intros v w (H1 & H2 & H3 & H4). by repeat split; intros; rewrite ?H1, ?H2, ?H3, ?H4.
  - intros u v w (H1 & H2 & H3 & H4) (K1 & K2 & K3 & K4).
    by repeat split; intros; rewrite ?H1, ?H2, ?H3, ?H4, ?K1, ?K2, ?K3, ?K4.
Qed.

Definition v_alloc (t : Z) (tv : TokView) (v : View) : View :=
  mkView (upd (vw_tok v) t (Some tv)) (upd (vw_byte v) t (fun _ => 0)) (vw_map v) (upd (vw_pins v) t 0).
Definition v_poke (t o b : Z) (v : View) : View :=
  mkView (vw_tok v) (upd (vw_byte v) t (upd (vw_byte v t) o b)) (vw_map v) (vw_pins v).
Definition v_fill (t : Z) (c : Z -> Z) (v : View) : View :=
  mkView (vw_tok v) (upd (vw_byte v) t c) (vw_map v) (vw_pins v).
Definition v_map (va t p : Z) (v : View) : View :=
  mkView (vw_tok v) (vw_byte v) (upd (vw_map v) va (Some (t, p))) (upd (vw_pins v) t (vw_pins v t + 1)).
Definition v_unmap (va : Z) (v : View) : View :=
  match vw_map v va with
  | Some (t, _) => mkView (vw_tok v) (vw_byte v) (upd (vw_map v) va None) (upd (vw_pins v) t (vw_pins v t - 1))
  | None => v
  end.
Definition v_release (t : Z) (v : View) : View :=
  mkView (upd (vw_tok v) t None) (upd (vw_byte v) t (fun _ => 0)) (vw_map v) (upd (vw_pins v) t 0).

(** Pointwise case analysis on updates. *)
Ltac vsolve :=
  repeat split; intros; cbn [vw_tok vw_byte vw_map vw_pins v_alloc v_poke v_fill v_map v_release] in *; unfold upd;
  repeat case_decide; simplify_eq; try done; try congruence; try lia; auto.

#[export] Instance v_alloc_proper t tv : Proper ((≡) ==> (≡)) (v_alloc t tv).
Proof. intros v w (H1 & H2 & H3 & H4). vsolve. Qed.
#[export] Instance v_poke_proper t o b : Proper ((≡) ==> (≡)) (v_poke t o b).
Proof. intros v w (H1 & H2 & H3 & H4). vsolve. Qed.
#[export] Instance v_fill_proper t c : Proper ((≡) ==> (≡)) (v_fill t c).
Proof. intros v w (H1 & H2 & H3 & H4). vsolve. Qed.
#[export] Instance v_map_proper va t p : Proper ((≡) ==> (≡)) (v_map va t p).
Proof. intros v w (H1 & H2 & H3 & H4). vsolve. all: by rewrite H4. Qed.
#[export] Instance v_release_proper t : Proper ((≡) ==> (≡)) (v_release t).
Proof. intros v w (H1 & H2 & H3 & H4). vsolve. Qed.
#[export] Instance v_unmap_proper va : Proper ((≡) ==> (≡)) (v_unmap va).
Proof.
  intros v w (H1 & H2 & H3 & H4). unfold v_unmap. rewrite H3. destruct (vw_map w va) as [[t p]|]; [|by repeat split].
  vsolve. all: by rewrite H4.
Qed.

(** A dead token has no bytes and no mappings. *)
Definition view_wf (v : View) : Prop :=
  forall t, vw_tok v t = None -> (forall o, vw_byte v t o = 0) /\ vw_pins v t = 0.

(** * The contract *)

(** The laws of [xload_backend.h]: allocated frames are zero; mapping is all
    or nothing; a token that is not mapped can be released. *)
Class LoaderLaws {St AS : Type} `{LoaderBackend St AS} (a : AS) := {
  lb_inv : St -> Prop;
  lb_view : St -> View;
  lb_wf s : lb_inv s -> view_wf (lb_view s);
  lb_alloc s o n r : lb_inv s -> 0 <= o < 2 ^ 32 -> 0 < n < 2 ^ 32 ->
    match xlb_alloc o n r s with
    | (Some t, s') => lb_inv s' /\ vw_tok (lb_view s) t = None /\ lb_view s' ≡ v_alloc t (mkTV o n r) (lb_view s)
    | (None, s') => lb_inv s' /\ lb_view s' ≡ lb_view s
    end;
  lb_poke s t tv o b : lb_inv s -> vw_tok (lb_view s) t = Some tv -> 0 <= o < 4096 * tv_frames tv -> 0 <= b < 256 ->
    let s' := xlb_poke (xlb_kernel_ptr t s + o) b s in
    lb_inv s' /\ lb_view s' ≡ v_poke t o b (lb_view s) /\ xlb_kernel_ptr t s' = xlb_kernel_ptr t s;
  lb_map s va t tv p : lb_inv s -> vw_tok (lb_view s) t = Some tv -> 0 < p < 8 -> Z.testbit p 0 = true ->
    let '(rc, s') := xlb_map a va t p s in
    lb_inv s' /\ ((rc = 0 /\ vw_map (lb_view s) va = None /\ lb_view s' ≡ v_map va t p (lb_view s)) \/
                  (rc < 0 /\ lb_view s' ≡ lb_view s));
  lb_unmap s va t p : lb_inv s -> vw_map (lb_view s) va = Some (t, p) ->
    let s' := (xlb_unmap a va s).2 in lb_inv s' /\ lb_view s' ≡ v_unmap va (lb_view s);
  lb_release s t tv : lb_inv s -> vw_tok (lb_view s) t = Some tv -> vw_pins (lb_view s) t = 0 ->
    let s' := xlb_release t s in lb_inv s' /\ lb_view s' ≡ v_release t (lb_view s)
}.

(** * What a load does to the view *)

(** A loaded piece: its token, what the token is, its contents, and where
    and how it is mapped. *)
Record Piece := mkPiece { pc_tok : Z; pc_tv : TokView; pc_bytes : Z -> Z; pc_va : Z; pc_perms : Z }.

Definition v_take (p : Piece) (v : View) : View := v_fill (pc_tok p) (pc_bytes p) (v_alloc (pc_tok p) (pc_tv p) v).
Definition v_piece (p : Piece) (v : View) : View := v_map (pc_va p) (pc_tok p) (pc_perms p) (v_take p v).
Definition v_takes (ps : list Piece) (v : View) : View := fold_left (fun v p => v_take p v) ps v.
Definition v_pieces (ps : list Piece) (v : View) : View := fold_left (fun v p => v_piece p v) ps v.

#[export] Instance v_take_proper p : Proper ((≡) ==> (≡)) (v_take p).
Proof. intros v w E. unfold v_take. by rewrite E. Qed.
#[export] Instance v_piece_proper p : Proper ((≡) ==> (≡)) (v_piece p).
Proof. intros v w E. unfold v_piece. by rewrite E. Qed.
#[export] Instance v_takes_proper ps : Proper ((≡) ==> (≡)) (v_takes ps).
Proof. induction ps as [|p ps IH]; intros v w E; [done|]. cbn. apply IH. by rewrite E. Qed.
#[export] Instance v_pieces_proper ps : Proper ((≡) ==> (≡)) (v_pieces ps).
Proof. induction ps as [|p ps IH]; intros v w E; [done|]. cbn. apply IH. by rewrite E. Qed.

(** Each piece took a token that was dead and an address that was free. *)
Fixpoint fresh_pieces (ps : list Piece) (v : View) : Prop :=
  match ps with
  | [] => True
  | p :: ps => vw_tok v (pc_tok p) = None /\ vw_map v (pc_va p) = None /\ fresh_pieces ps (v_piece p v)
  end.

Fixpoint fresh_takes (ps : list Piece) (v : View) : Prop :=
  match ps with
  | [] => True
  | p :: ps => vw_tok v (pc_tok p) = None /\ fresh_takes ps (v_take p v)
  end.

Lemma v_pieces_snoc ps p v : v_pieces (ps ++ [p]) v = v_piece p (v_pieces ps v).
Proof. apply fold_left_app. Qed.

Lemma v_takes_snoc ps p v : v_takes (ps ++ [p]) v = v_take p (v_takes ps v).
Proof. apply fold_left_app. Qed.

Lemma fresh_pieces_snoc ps p v : fresh_pieces (ps ++ [p]) v <->
  fresh_pieces ps v /\ vw_tok (v_pieces ps v) (pc_tok p) = None /\ vw_map (v_pieces ps v) (pc_va p) = None.
Proof.
  revert v. induction ps as [|q ps IH]; intros v; cbn [app fresh_pieces]; [|rewrite IH; cbn; tauto].
  cbn. tauto.
Qed.

Lemma fresh_takes_snoc ps p v : fresh_takes (ps ++ [p]) v <->
  fresh_takes ps v /\ vw_tok (v_takes ps v) (pc_tok p) = None.
Proof.
  revert v. induction ps as [|q ps IH]; intros v; cbn [app fresh_takes]; [|rewrite IH; cbn; tauto].
  cbn. tauto.
Qed.

Lemma fresh_takes_ext ps v w : (forall t, vw_tok v t = vw_tok w t) -> fresh_takes ps v -> fresh_takes ps w.
Proof.
  revert v w. induction ps as [|p ps IH]; intros v w E; cbn; [done|]. intros [H1 H2]. split; [by rewrite <- E|].
  apply (IH (v_take p v)); [|done]. intros t. cbn. unfold upd. case_decide; [done|apply E].
Qed.

Lemma fresh_takes_notin ps v t tv : fresh_takes ps v -> vw_tok v t = Some tv -> t ∉ pc_tok <$> ps.
Proof.
  revert v tv. induction ps as [|p ps IH]; intros v tv; cbn; [intros _ _; apply not_elem_of_nil|].
  intros [H1 H2] Ht. apply not_elem_of_cons. split; [intros ->; congruence|].
  apply (IH (v_take p v) tv); [done|]. cbn. rewrite upd_ne by (intros ->; congruence). done.
Qed.

Lemma take_wf p v : view_wf v -> view_wf (v_take p v).
Proof.
  intros Hw t. cbn. unfold upd. case_decide; [done|]. apply Hw.
Qed.

Lemma takes_wf ps v : view_wf v -> view_wf (v_takes ps v).
Proof. revert v. induction ps as [|p ps IH]; intros v Hw; [done|]. by apply IH, take_wf. Qed.

Lemma unmap_take va t p q v : vw_map v va = Some (t, p) -> t <> pc_tok q -> v_unmap va (v_take q v) ≡ v_take q (v_unmap va v).
Proof.
  intros Hm Hne. unfold v_unmap, v_take. change (vw_map (v_fill _ _ (v_alloc _ _ v)) va) with (vw_map v va). rewrite Hm.
  vsolve.
Qed.

Lemma unmap_takes va t p ps v : vw_map v va = Some (t, p) -> t ∉ pc_tok <$> ps ->
  v_unmap va (v_takes ps v) ≡ v_takes ps (v_unmap va v).
Proof.
  revert v. induction ps as [|q ps IH]; intros v Hm; [done|]. intros [Hne Hni]%not_elem_of_cons. cbn [v_takes fold_left].
  change (v_unmap va (v_takes ps (v_take q v)) ≡ v_takes ps (v_take q (v_unmap va v))).
  rewrite IH by done. by rewrite (unmap_take va t p q v).
Qed.

Lemma unmap_piece p v : vw_map v (pc_va p) = None -> v_unmap (pc_va p) (v_piece p v) ≡ v_take p v.
Proof.
  intros Hm. unfold v_unmap, v_piece. cbn [vw_map v_map]. rewrite upd_eq. unfold v_take. destruct p as [t tv c va pp]. cbn in *. vsolve.
Qed.

Lemma release_take p v : view_wf v -> vw_tok v (pc_tok p) = None -> v_release (pc_tok p) (v_take p v) ≡ v.
Proof.
  intros Hw Ht. destruct (Hw _ Ht) as [Hb Hp]. unfold v_take. destruct p as [t tv c va pp]. cbn in *. vsolve.
Qed.

Section Rollback.
Context {St AS : Type} `{HB : LoaderBackend St AS} (a : AS) `{!LoaderLaws a}.

(** A transaction in progress: [pre] is loaded and mapped, [post] taken but
    not mapped. *)
Definition in_txn (v0 : View) (pre post : list Piece) (s : St) : Prop :=
  lb_inv s /\ lb_view s ≡ v_takes post (v_pieces pre v0) /\
  fresh_pieces pre v0 /\ fresh_takes post (v_pieces pre v0).

Lemma unmap_txn_step v0 pre p post s : in_txn v0 (pre ++ [p]) post s ->
  in_txn v0 pre (p :: post) (xlb_unmap a (pc_va p) s).2.
Proof.
  intros (Hi & Hv & Hf & Hp). rewrite v_pieces_snoc in *. apply fresh_pieces_snoc in Hf as (Hf & Ht & Hm).
  set (w := v_pieces pre v0) in *.
  assert (pc_tok p ∉ pc_tok <$> post) as Hni.
  { apply (fresh_takes_notin _ (v_piece p w) _ (pc_tv p)); [done|]. cbn. apply upd_eq. }
  assert (vw_map (v_piece p w) (pc_va p) = Some (pc_tok p, pc_perms p)) as Hmp by (cbn; apply upd_eq).
  assert (vw_map (lb_view s) (pc_va p) = Some (pc_tok p, pc_perms p)) as Hms.
  { destruct Hv as (_ & _ & -> & _). clear - Hmp. generalize dependent (v_piece p w). induction post as [|q post IH]; intros v Hv; [done|].
    apply (IH (v_take q v)). exact Hv. }
  destruct (lb_unmap s (pc_va p) _ _ Hi Hms) as [Hi' Hv']. split_and!; [done| |done|].
  - rewrite Hv', Hv, (unmap_takes _ _ _ _ _ Hmp Hni), unmap_piece by done. done.
  - cbn. split; [done|]. by apply (fresh_takes_ext _ (v_piece p w)).
Qed.

Lemma unmap_all v0 pre : forall post s, in_txn v0 pre post s ->
  in_txn v0 [] (pre ++ post) (fold_left (fun s va => (xlb_unmap a va s).2) (reverse (pc_va <$> pre)) s).
Proof.
  induction pre as [|p pre IH] using rev_ind; intros post s Hs; [done|].
  rewrite fmap_app, reverse_app. cbn [fmap list_fmap reverse app]. rewrite <- app_assoc. cbn [app].
  change (reverse [pc_va p]) with [pc_va p]. cbn [app fold_left]. apply IH. by apply unmap_txn_step.
Qed.

Lemma release_step v0 ps p s : view_wf v0 -> in_txn v0 [] (ps ++ [p]) s -> in_txn v0 [] ps (xlb_release (pc_tok p) s).
Proof.
  intros Hw (Hi & Hv & _ & Hf). cbn [v_pieces fold_left] in *. rewrite v_takes_snoc in Hv. apply fresh_takes_snoc in Hf as [Hf Ht].
  pose proof (takes_wf ps v0 Hw) as Hw'.
  assert (vw_tok (lb_view s) (pc_tok p) = Some (pc_tv p)) as Hts by (destruct Hv as (-> & _); cbn; apply upd_eq).
  assert (vw_pins (lb_view s) (pc_tok p) = 0) as Hps by (destruct Hv as (_ & _ & _ & ->); cbn; apply upd_eq).
  destruct (lb_release s _ _ Hi Hts Hps) as [Hi' Hv']. split_and!; [done| |done|done].
  rewrite Hv', Hv. cbn. by apply release_take.
Qed.

Lemma release_all v0 ps : forall s, view_wf v0 -> in_txn v0 [] ps s ->
  in_txn v0 [] [] (fold_left (fun s t => xlb_release t s) (reverse (pc_tok <$> ps)) s).
Proof.
  induction ps as [|p ps IH] using rev_ind; intros s Hw Hs; [done|].
  rewrite fmap_app, reverse_app. cbn [fmap list_fmap]. change (reverse [pc_tok p]) with [pc_tok p]. cbn [app fold_left].
  apply IH; [done|]. by apply release_step.
Qed.

(** Rolling back restores the view, whatever was taken. *)
Lemma rollback_spec v0 pre post s : view_wf v0 -> in_txn v0 pre post s ->
  let s' := rollback (mkTxn a (pc_tok <$> pre ++ post) (pc_va <$> pre)) s in lb_inv s' /\ lb_view s' ≡ v0.
Proof.
  intros Hw Hs. unfold rollback. cbn [t_as t_tok t_va].
  destruct (release_all v0 (pre ++ post) _ Hw (unmap_all v0 pre post s Hs)) as (H1 & H2 & _). done.
Qed.
End Rollback.

(** ** Loaded pieces stay loaded *)

Definition piece_in (p : Piece) (v : View) : Prop :=
  vw_tok v (pc_tok p) = Some (pc_tv p) /\ vw_map v (pc_va p) = Some (pc_tok p, pc_perms p) /\
  forall o, vw_byte v (pc_tok p) o = pc_bytes p o.

Lemma piece_in_self p v : piece_in p (v_piece p v).
Proof. repeat split; intros; cbn; by rewrite ?upd_eq. Qed.

Lemma piece_in_step p q v : piece_in p v -> vw_tok v (pc_tok q) = None -> vw_map v (pc_va q) = None -> piece_in p (v_piece q v).
Proof.
  intros (H1 & H2 & H3) Ht Hm. assert (pc_tok p <> pc_tok q) by congruence. assert (pc_va p <> pc_va q) by congruence.
  repeat split; intros; cbn; by rewrite ?upd_ne.
Qed.

Lemma piece_in_pieces ps p v : piece_in p v -> fresh_pieces ps v -> piece_in p (v_pieces ps v).
Proof.
  revert v. induction ps as [|q ps IH]; intros v Hp; [done|]. intros (H1 & H2 & H3). apply IH; [|done]. by apply piece_in_step.
Qed.

Lemma pieces_loaded ps v p : fresh_pieces ps v -> p ∈ ps -> piece_in p (v_pieces ps v).
Proof.
  revert v. induction ps as [|q ps IH]; intros v; [by intros _ ?%elem_of_nil|]. intros (H1 & H2 & H3) [->|Hin]%elem_of_cons.
  - exact (piece_in_pieces ps q (v_piece q v) (piece_in_self q v) H3).
  - by apply IH.
Qed.

(** ** The segment loop *)

(** A segment as a piece: its file bytes, then zeros. *)
Definition seg_bytes (img : list Z) (off n : Z) (o : Z) : Z :=
  if (0 <=? o) && (o <? n) then nthZ img (off + o) else 0.

Lemma seg_bytes_next img off b o : 0 <= b ->
  upd (seg_bytes img off b) b (nthZ img (off + b)) o = seg_bytes img off (b + 1) o.
Proof. intros Hb. unfold upd, seg_bytes. case_decide; [subst o|]; zcase; done. Qed.

Lemma seg_bytes_0 img off o : seg_bytes img off 0 o = 0.
Proof. unfold seg_bytes. zcase; done. Qed.

Lemma poke_fill t b x c c' w : (forall o, upd c b x o = c' o) -> v_poke t b x (v_fill t c w) ≡ v_fill t c' w.
Proof. intros Hc. vsolve. all: unfold upd in Hc; rewrite <- Hc; rewrite ?decide_True by done; by rewrite ?decide_False by done. Qed.

Lemma fill_alloc t tv c w : (forall o, c o = 0) -> v_alloc t tv w ≡ v_fill t c (v_alloc t tv w).
Proof. intros Hc. vsolve. Qed.

Definition seg_piece (owner : Z) (img : list Z) (sg : ExbSeg) (tok : Z) : Piece :=
  mkPiece tok (mkTV owner (pages sg) (seg_rights (flags sg))) (seg_bytes img (file_off sg) (file_size sg))
    (vaddr sg) (seg_perms (flags sg)).

Definition stack_piece (owner pages va tok : Z) : Piece :=
  mkPiece tok (mkTV owner pages stack_rights) (fun _ => 0) va (XLB_PERM_R .| XLB_PERM_W).

Lemma seg_perms_ok f : 0 <= f < 8 -> 0 < seg_perms f < 8 /\ Z.testbit (seg_perms f) 0 = true.
Proof.
  intros Hf. assert (f = 0 \/ f = 1 \/ f = 2 \/ f = 3 \/ f = 4 \/ f = 5 \/ f = 6 \/ f = 7) as H by lia.
  destruct H as [-> | [-> | [-> | [-> | [-> | [-> | [-> | -> ]]]]]]]; vm_compute; done.
Qed.

Section Load.
Context {St AS : Type} `{HB : LoaderBackend St AS} (a : AS) `{!LoaderLaws a}.
Context (owner : Z) (img : list Z) (Hown : 0 <= owner < 2 ^ 32) (Hb : bytes_ok img) (Hlen : lenZ img < 2 ^ 32).

Lemma copy_spec off dst tok tv w k : forall b s, lb_inv s -> lb_view s ≡ v_fill tok (seg_bytes img off b) w ->
  vw_tok w tok = Some tv -> 0 <= b -> b + Z.of_nat k <= 4096 * tv_frames tv ->
  0 <= off -> (k <> 0%nat -> off + b + Z.of_nat k <= lenZ img) -> xlb_kernel_ptr tok s = dst ->
  exists s', copy_loop img off dst k b s = Some s' /\ lb_inv s' /\
    lb_view s' ≡ v_fill tok (seg_bytes img off (b + Z.of_nat k)) w.
Proof.
  induction k as [|k IH]; intros b s Hi Hv Ht Hb0 Hk Ho Hend Hd; cbn [copy_loop].
  { exists s. rewrite Z.add_0_r. done. }
  specialize (Hend ltac:(done)). rewrite u32_small, rd_in by lia.
  assert (vw_tok (lb_view s) tok = Some tv) as Hts by (destruct Hv as (-> & _); done).
  assert (0 <= nthZ img (off + b) < 256) as Hx by (by apply nthZ_range).
  destruct (lb_poke s tok tv b (nthZ img (off + b)) Hi Hts ltac:(lia) Hx) as (Hi' & Hv' & Hd'). rewrite Hd in *.
  destruct (IH (b + 1) (xlb_poke (dst + b) (nthZ img (off + b)) s) Hi') as (s' & E & Hi2 & Hv2); [|done|lia|lia|done|lia|done|].
  - rewrite Hv', Hv. apply poke_fill. intros o. by apply seg_bytes_next.
  - exists s'. split_and!; [done|done|]. rewrite Hv2. by replace (b + 1 + Z.of_nat k) with (b + Z.of_nat (S k)) by lia.
Qed.

Definition txn_of (ps : list Piece) : Txn := mkTxn a (pc_tok <$> ps) (pc_va <$> ps).

Lemma add_piece_txn ps p : add_va (add_tok (txn_of ps) (pc_tok p)) (pc_va p) = txn_of (ps ++ [p]).
Proof. unfold txn_of, add_va, add_tok. cbn. by rewrite !fmap_app. Qed.

(** Taking a token and filling it. *)
Lemma take_spec v0 pre s p s1 : view_wf v0 ->
  in_txn a v0 pre [] s -> lb_inv s1 -> vw_tok (lb_view s) (pc_tok p) = None ->
  lb_view s1 ≡ v_fill (pc_tok p) (pc_bytes p) (v_alloc (pc_tok p) (pc_tv p) (lb_view s)) -> in_txn a v0 pre [p] s1.
Proof.
  intros Hw (Hi & Hv & Hf & _) Hi1 Ht Hv1. cbn in Hv. split_and!; [done| |done|].
  - rewrite Hv1, Hv. done.
  - cbn. split; [|done]. destruct Hv as (<- & _). done.
Qed.

(** Mapping it, or rolling everything back. *)
Lemma map_spec v0 pre p s : view_wf v0 -> in_txn a v0 pre [p] s -> 0 < pc_perms p < 8 -> Z.testbit (pc_perms p) 0 = true ->
  let '(rc, s') := xlb_map a (pc_va p) (pc_tok p) (pc_perms p) s in
  (rc = 0 /\ in_txn a v0 (pre ++ [p]) [] s') \/
  (rc < 0 /\ let s2 := rollback (mkTxn a (pc_tok <$> pre ++ [p]) (pc_va <$> pre)) s' in lb_inv s2 /\ lb_view s2 ≡ v0).
Proof.
  intros Hw (Hi & Hv & Hf & Hp) Hpm Hp0. cbn in Hv, Hp. destruct Hp as [Hdead _].
  assert (vw_tok (lb_view s) (pc_tok p) = Some (pc_tv p)) as Ht by (destruct Hv as (-> & _); cbn; apply upd_eq).
  pose proof (lb_map s (pc_va p) _ _ (pc_perms p) Hi Ht Hpm Hp0) as Hm.
  destruct (xlb_map a _ _ _ s) as [rc s']. destruct Hm as [Hi' [(-> & Hn & Hv')|[Hrc Hv']]].
  - left. split; [done|]. split_and!; [done| | |done].
    + rewrite Hv', Hv. cbn. by rewrite v_pieces_snoc.
    + apply fresh_pieces_snoc. split_and!; [done|done|]. destruct Hv as (_ & _ & E & _). by rewrite <- Hn, E.
  - right. split; [done|]. apply (rollback_spec a v0 pre [p]); [done|]. split_and!; [done| |done|done].
    rewrite Hv', Hv. done.
Qed.

Lemma load_seg_spec v0 pre s sg : view_wf v0 -> in_txn a v0 pre [] s -> seg_ok img sg ->
  exists rc t' s', load_seg owner img sg (txn_of pre) s = Some (rc, t', s') /\
    ((rc = XLOAD_OK /\ exists tok, let p := seg_piece owner img sg tok in t' = txn_of (pre ++ [p]) /\ in_txn a v0 (pre ++ [p]) [] s') \/
     (XLOAD_E_MAP <= rc < 0 /\ lb_inv s' /\ lb_view s' ≡ v0)).
Proof.
  intros Hw Hs Hok. pose proof Hs as (Hi & Hv & Hf & _). unfold load_seg.
  pose proof (lb_alloc s owner (pages sg) (seg_rights (flags sg)) Hi Hown ltac:(pose proof (so_pages _ _ Hok); lia)) as Ha.
  destruct (xlb_alloc owner (pages sg) (seg_rights (flags sg)) s) as [[tok|] s1].
  2: { eexists _, _, _. split; [done|]. right. split; [done|]. destruct Ha as [Hi1 Hv1].
       unfold txn_of. pose proof (rollback_spec a v0 pre [] s1 Hw) as Hr. rewrite app_nil_r in Hr. apply Hr.
       split_and!; [done|by rewrite Hv1, Hv|done|done]. }
  destruct Ha as (Hi1 & Hdead & Hv1). set (p := seg_piece owner img sg tok).
  destruct (copy_spec (file_off sg) (xlb_kernel_ptr tok s1) tok (pc_tv p) (v_alloc tok (pc_tv p) (lb_view s))
    (Z.to_nat (file_size sg)) 0 s1 Hi1) as (s2 & -> & Hi2 & Hv2).
  - rewrite Hv1. apply fill_alloc, seg_bytes_0.
  - cbn. apply upd_eq.
  - done.
  - cbn. pose proof (so_fsz _ _ Hok). pose proof (so_mem _ _ Hok). lia.
  - destruct (Z.eq_dec (file_size sg) 0) as [E|]; [rewrite (so_nofile _ _ Hok E); done|].
    pose proof (so_fsz _ _ Hok). destruct (so_file _ _ Hok); lia.
  - intros Hn. pose proof (so_fsz _ _ Hok). destruct (so_file _ _ Hok); lia.
  - done.
  - rewrite Z.add_0_l, Z2Nat.id in Hv2 by apply (so_fsz _ _ Hok).
    pose proof (take_spec v0 pre s p s2 Hw Hs Hi2 Hdead Hv2) as Hs2.
    destruct (seg_perms_ok (flags sg) (so_flags _ _ Hok)) as [Hp1 Hp2].
    pose proof (map_spec v0 pre p s2 Hw Hs2 Hp1 Hp2) as Hm. cbn [t_as add_tok txn_of]. cbn [pc_va pc_tok pc_perms p seg_piece] in Hm.
    destruct (xlb_map a (vaddr sg) tok (seg_perms (flags sg)) s2) as [rc s3]. destruct Hm as [[-> Hs3]|[Hrc Hr]].
    + cbn [Z.eqb negb]. eexists _, _, _. split; [done|]. left. split; [done|]. exists tok. split; [apply (add_piece_txn pre p)|done].
    + destruct (Z.eqb_spec rc 0); [lia|]. cbn [negb]. eexists _, _, _. split; [done|]. right. split; [done|].
      unfold txn_of, add_tok. cbn [t_as t_tok t_va]. rewrite fmap_app in Hr. exact Hr.
Qed.

Lemma load_segs_spec v0 segs : forall pre s, view_wf v0 -> in_txn a v0 pre [] s -> Forall (seg_ok img) segs ->
  exists rc t' s', load_segs owner img segs (txn_of pre) s = Some (rc, t', s') /\
    ((rc = XLOAD_OK /\ exists ps, t' = txn_of (pre ++ ps) /\ in_txn a v0 (pre ++ ps) [] s' /\
        Forall2 (fun sg p => exists tok, p = seg_piece owner img sg tok) segs ps) \/
     (XLOAD_E_MAP <= rc < 0 /\ lb_inv s' /\ lb_view s' ≡ v0)).
Proof.
  induction segs as [|sg segs IH]; intros pre s Hw Hs Hok; cbn [load_segs].
  { eexists _, _, _. split; [done|]. left. split; [done|]. exists []. rewrite app_nil_r. split_and!; [done|done|constructor]. }
  apply Forall_cons in Hok as [Hsg Hok].
  destruct (load_seg_spec v0 pre s sg Hw Hs Hsg) as (rc & t' & s' & -> & [(-> & tok & -> & Hs')|(Hrc & Hr)]).
  - cbn [Z.eqb XLOAD_OK]. destruct (IH _ s' Hw Hs' Hok) as (rc2 & t2 & s2 & E & H). exists rc2, t2, s2. split; [done|].
    destruct H as [(-> & ps & -> & H2 & H3)|H]; [left|by right]. split; [done|]. exists (seg_piece owner img sg tok :: ps).
    rewrite <- app_assoc in H2. rewrite <- app_assoc. split_and!; [done|done|]. constructor; [by exists tok|done].
  - destruct (Z.eqb_spec rc XLOAD_OK); [unfold XLOAD_OK in *; lia|]. eexists _, _, _. split; [done|]. by right.
Qed.

Lemma load_stack_spec v0 pre s n va : view_wf v0 -> in_txn a v0 pre [] s -> 0 < n < 2 ^ 32 ->
  let '(rc, s') := load_stack owner n va (txn_of pre) s in
  (rc = XLOAD_OK /\ exists tok, in_txn a v0 (pre ++ [stack_piece owner n va tok]) [] s') \/
  (XLOAD_E_MAP <= rc < 0 /\ lb_inv s' /\ lb_view s' ≡ v0).
Proof.
  intros Hw Hs Hn. pose proof Hs as (Hi & Hv & Hf & _). unfold load_stack.
  pose proof (lb_alloc s owner n stack_rights Hi Hown Hn) as Ha.
  destruct (xlb_alloc owner n stack_rights s) as [[tok|] s1].
  2: { right. split; [done|]. destruct Ha as [Hi1 Hv1].
       unfold txn_of. pose proof (rollback_spec a v0 pre [] s1 Hw) as Hr. rewrite app_nil_r in Hr. apply Hr.
       split_and!; [done|by rewrite Hv1, Hv|done|done]. }
  destruct Ha as (Hi1 & Hdead & Hv1). set (p := stack_piece owner n va tok).
  assert (in_txn a v0 pre [p] s1) as Hs1.
  { apply (take_spec v0 pre s); [done|done|done|done|]. rewrite Hv1. by apply fill_alloc. }
  pose proof (map_spec v0 pre p s1 Hw Hs1 ltac:(done) ltac:(done)) as Hm. cbn [t_as add_tok txn_of].
  cbn [pc_va pc_tok pc_perms p stack_piece] in Hm.
  destruct (xlb_map a va tok (XLB_PERM_R .| XLB_PERM_W) s1) as [rc s3]. destruct Hm as [[-> Hs3]|[Hrc Hr]].
  - left. split; [done|]. by exists tok.
  - destruct (Z.eqb_spec rc 0); [lia|]. right. split; [done|]. unfold txn_of, add_tok. cbn [t_as t_tok t_va]. rewrite fmap_app in Hr. exact Hr.
Qed.

(** What a successful load leaves: the pieces of the image and the stack, all
    in tokens and at addresses that were free, and nothing else. *)
Record loaded (v v' : View) (info : ExbInfo) (out : XLoadResult) (ps : list Piece) (stk : Piece) : Prop := {
  ld_valid : exb_valid img info;
  ld_out : out = mkLoad (entry info) (XLB_USER_TOP - XLB_PAGE) (stack_bytes info) (extra_tokens info);
  ld_segs : Forall2 (fun sg p => exists tok, p = seg_piece owner img sg tok)
              (seg_entries img (get32 img 32) (seg_count info)) ps;
  ld_stack : exists tok, stk = stack_piece owner (stack_bytes info / 4096) (XLB_USER_TOP - XLB_PAGE - stack_bytes info) tok;
  ld_fresh : fresh_pieces (ps ++ [stk]) v;
  ld_view : v' ≡ v_pieces (ps ++ [stk]) v;
  ld_in : forall p, p ∈ ps ++ [stk] -> piece_in p v'
}.

Lemma piece_in_equiv p v w : v ≡ w -> piece_in p w -> piece_in p v.
Proof. intros (E1 & E2 & E3 & _) (H1 & H2 & H3). split_and!; [by rewrite E1|by rewrite E3|intros o; by rewrite E2]. Qed.

Lemma xload_spec info0 s : lb_inv s -> length (seg info0) = 8%nat ->
  exists rc out s', xload_exb (Some a) owner (Some img) (lenZ img) true info0 s = Some (rc, out, s') /\ lb_inv s' /\
    ((rc = XLOAD_OK /\ exists info o ps stk, out = Some o /\ loaded (lb_view s) (lb_view s') info o ps stk) \/
     (XLOAD_E_MAP <= rc < 0 /\ out = None /\ lb_view s' ≡ lb_view s)).
Proof.
  intros Hi Hl. unfold xload_exb. cbn [negb orb].
  destruct (lenZ img =? 0); [eexists _, _, _; split_and!; [done|done|by right]|].
  destruct (owner =? XTOK_OWNER_KERNEL); [eexists _, _, _; split_and!; [done|done|by right]|].
  destruct (parse_of_wp img info0 (fun _ => exb_valid img)) as (code & info & -> & Hp); [by apply wp_parse|].
  destruct Hp as [[-> Hval]|[Hc _]].
  2: { rewrite (proj2 (Z.eqb_neq code EXB_OK)) by (unfold EXB_OK; lia). eexists _, _, _; split_and!; [done|done|by right]. }
  cbn [Z.eqb EXB_OK negb]. destruct (xlb_quota_ok _ _ _ s); cbn [negb]; [|eexists _, _, _; split_and!; [done|done|by right]].
  rewrite (ev_segs _ _ Hval). pose proof (lb_wf s Hi) as Hw.
  assert (in_txn a (lb_view s) [] [] s) as Hs by (by split_and!).
  destruct (load_segs_spec (lb_view s) _ [] s Hw Hs (ev_seg_ok _ _ Hval)) as (rc & t' & s1 & E & Hsegs).
  change (txn_of []) with (mkTxn a [] []) in E. rewrite E.
  destruct Hsegs as [(-> & ps & -> & Hs1 & Hps)|(Hrc & Hi1 & Hv1)].
  2: { rewrite (proj2 (Z.eqb_neq rc XLOAD_OK)) by (unfold XLOAD_OK; lia). eexists _, _, _; split_and!; [done|done|by right]. }
  cbn [Z.eqb XLOAD_OK negb app] in *. pose proof (ev_stack _ _ Hval) as [Hst1 Hst2].
  pose proof (load_stack_spec (lb_view s) ps s1 (stack_bytes info / XLB_PAGE) (XLB_USER_TOP - XLB_PAGE - stack_bytes info) Hw Hs1) as Hstk.
  destruct (load_stack _ _ _ _ s1) as [rc s2]. destruct Hstk as [(-> & tok & Hi2 & Hv2 & Hf2 & _)|(Hrc & Hi2 & Hv2)].
  { change XLB_PAGE with 4096. split; [apply Z.div_str_pos; lia|apply Z.div_lt_upper_bound; lia]. }
  2: { rewrite (proj2 (Z.eqb_neq rc XLOAD_OK)) by (unfold XLOAD_OK; lia). eexists _, _, _; split_and!; [done|done|by right]. }
  cbn [Z.eqb negb]. eexists _, _, _. split_and!; [done|done|]. left. split; [done|].
  eexists info, _, ps, _. split; [done|]. split; [done|done|done|by exists tok|done|done|].
  intros p Hp. apply (piece_in_equiv _ _ _ Hv2). by apply pieces_loaded.
Qed.
End Load.
