(* ===== verification/Blk.v ===== *)
(** Block devices: model of [source/core/blk/blk.c] and [blk.h], the driver
    contract as a class, and [source/core/blk/ramdisk.c] as an instance.

    A driver's context is a value of a type [D] that every operation takes
    and returns; [BlkOps] is the table of function pointers. *)

From S2P Require Import Prelude.
From S2P Require Import Bytes.

(** * The interface *)

Definition BLK_OK : Z := 0.
Definition BLK_E_ARG : Z := -1.
Definition BLK_E_RANGE : Z := -2.
Definition BLK_E_IO : Z := -3.
Definition BLK_E_TIMEOUT : Z := -4.

(** [None] is a null function pointer. A read takes the buffer's old bytes and
    returns its new ones. *)
Record BlkOps (D : Type) := mkOps {
  op_read : option (D -> Z -> Z -> list Z -> Z * list Z * D);
  op_write : option (D -> Z -> Z -> list Z -> Z * D);
  op_flush : option (D -> Z * D)
}.
Arguments mkOps {D}.
Arguments op_read {D}.
Arguments op_write {D}.
Arguments op_flush {D}.

Record BlkDev (D : Type) := mkDev { ops : option (BlkOps D); sector_size : Z; sector_count : Z }.
Arguments mkDev {D}.
Arguments ops {D}.
Arguments sector_size {D}.
Arguments sector_count {D}.

Section Dispatch.
Context {D : Type}.
Implicit Types (d : option (BlkDev D)) (buf : option (list Z)) (s : D).

Definition check (d : option (BlkDev D)) (lba count : Z) (buf : option (list Z)) : Z :=
  match d, buf with
  | Some d, Some _ =>
    if negb (bool_decide (is_Some (ops d))) || (count =? 0) then BLK_E_ARG else
    if sector_count d <? lba then BLK_E_RANGE else
    if sector_count d - lba <? count then BLK_E_RANGE else BLK_OK
  | _, _ => BLK_E_ARG
  end.

(** The driver's entry for an operation. *)
Definition driver {A} (op : BlkOps D -> option A) (d : option (BlkDev D)) : option A :=
  match d with
  | Some d => match ops d with Some o => op o | None => None end
  | None => None
  end.

Definition blk_read (d : option (BlkDev D)) (lba count : Z) (buf : option (list Z)) (s : D) : Z * option (list Z) * D :=
  let rc := check d lba count buf in
  if negb (rc =? BLK_OK) then (rc, buf, s) else
  match driver op_read d, buf with
  | Some read, Some b => let '(rc, b, s) := read s lba count b in (rc, Some b, s)
  | _, _ => (BLK_E_IO, buf, s)
  end.

Definition blk_write (d : option (BlkDev D)) (lba count : Z) (buf : option (list Z)) (s : D) : Z * D :=
  let rc := check d lba count buf in
  if negb (rc =? BLK_OK) then (rc, s) else
  match driver op_write d, buf with
  | Some write, Some b => write s lba count b
  | _, _ => (BLK_E_IO, s)
  end.

Definition blk_flush (d : option (BlkDev D)) (s : D) : Z * D :=
  match d with
  | None => (BLK_E_ARG, s)
  | Some dv =>
    match ops dv with
    | None => (BLK_E_ARG, s)
    | Some o => match op_flush o with None => (BLK_OK, s) | Some flush => flush s end
    end
  end.

Definition blk_sector_size (d : option (BlkDev D)) : Z := match d with Some d => sector_size d | None => 0 end.
Definition blk_sector_count (d : option (BlkDev D)) : Z := match d with Some d => sector_count d | None => 0 end.
End Dispatch.

(** * The driver contract

    [bd_byte s a] is byte [a] of the medium. A failed read leaves the medium
    alone; a failed write may leave anything in the sectors it was given, and
    nothing elsewhere. *)
Class BlockDevice {D : Type} (d : BlkDev D) := {
  bd_ok : D -> Prop;
  bd_byte : D -> Z -> Z;
  bd_geometry : 0 < sector_size d < 2 ^ 32 /\ 0 <= sector_count d /\ sector_count d * sector_size d < 2 ^ 64;
  bd_byte_range s a : bd_ok s -> 0 <= bd_byte s a < 256;
  bd_read s lba n buf : bd_ok s -> 0 <= lba -> 0 < n -> lba + n <= sector_count d -> lenZ buf = n * sector_size d ->
    bytes_ok buf ->
    let '(rc, buf', s') := match driver op_read (Some d) with Some read => read s lba n buf | None => (BLK_E_IO, buf, s) end in
    bd_ok s' /\ length buf' = length buf /\ bytes_ok buf' /\ (forall a, 0 <= a -> bd_byte s' a = bd_byte s a) /\
    (rc = BLK_OK -> forall o, 0 <= o < n * sector_size d -> nthZ buf' o = bd_byte s (lba * sector_size d + o));
  bd_write s lba n buf : bd_ok s -> 0 <= lba -> 0 < n -> lba + n <= sector_count d -> lenZ buf = n * sector_size d ->
    bytes_ok buf ->
    let '(rc, s') := match driver op_write (Some d) with Some write => write s lba n buf | None => (BLK_E_IO, s) end in
    bd_ok s' /\
    (forall a, 0 <= a -> ~ (lba * sector_size d <= a < (lba + n) * sector_size d) -> bd_byte s' a = bd_byte s a) /\
    (rc = BLK_OK -> forall o, 0 <= o < n * sector_size d -> bd_byte s' (lba * sector_size d + o) = nthZ buf o)
}.

(** A device that stops at most once: until then every request in range
    succeeds, the write during which it stops may leave anything in its own
    sectors, and from then on writes fail and the medium does not change. *)
Class FailStop {D : Type} (d : BlkDev D) `{!BlockDevice d} := {
  bd_dead : D -> bool;
  fs_read s lba n buf : bd_ok s ->
    let '(rc, _, s') := match driver op_read (Some d) with Some read => read s lba n buf | None => (BLK_E_IO, buf, s) end in
    bd_ok s' /\ bd_dead s' = bd_dead s /\ (forall a, 0 <= a -> bd_byte s' a = bd_byte s a) /\
    (0 <= lba -> 0 < n -> lba + n <= sector_count d -> rc = BLK_OK);
  fs_write s lba n buf : bd_ok s ->
    let '(rc, s') := match driver op_write (Some d) with Some write => write s lba n buf | None => (BLK_E_IO, s) end in
    if bd_dead s then bd_ok s' /\ bd_dead s' = true /\ rc <> BLK_OK /\ (forall a, 0 <= a -> bd_byte s' a = bd_byte s a)
    else bd_dead s' = true \/ bd_dead s' = false /\ (0 <= lba -> 0 < n -> lba + n <= sector_count d -> rc = BLK_OK)
}.

Section Requests.
Context {D : Type} (d : BlkDev D) `{!BlockDevice d}.

Lemma driver_ops {A} (op : BlkOps D -> option A) x : driver op (Some d) = Some x -> is_Some (ops d).
Proof. unfold driver. cbn. destruct (ops d); [eauto|done]. Qed.

Lemma check_ok lba n b : check (Some d) lba n (Some b) = BLK_OK ->
  is_Some (ops d) /\ n <> 0 /\ lba + n <= sector_count d.
Proof.
  unfold check. case_bool_decide; cbn [negb orb]; [|done]. zcase; intros; try done. split_and!; [done|lia|lia].
Qed.

Lemma check_rc lba n b : 0 < n -> is_Some (ops d) -> lba + n <= sector_count d -> check (Some d) lba n (Some b) = BLK_OK.
Proof.
  intros Hn Ho Hr. unfold check. rewrite bool_decide_eq_true_2 by done. cbn [negb orb]. zcase; done.
Qed.

(** What a request does, whatever its arguments. *)
Lemma blk_read_spec s lba n b : bd_ok s -> 0 <= lba -> 0 <= n -> lenZ b = n * sector_size d -> bytes_ok b ->
  exists rc b' s', blk_read (Some d) lba n (Some b) s = (rc, Some b', s') /\
  bd_ok s' /\ length b' = length b /\ bytes_ok b' /\ (forall a, 0 <= a -> bd_byte s' a = bd_byte s a) /\
  (rc = BLK_OK -> forall o, 0 <= o < n * sector_size d -> nthZ b' o = bd_byte s (lba * sector_size d + o)).
Proof.
  intros Hs Hl Hn Hb Hok. unfold blk_read. destruct (check (Some d) lba n (Some b) =? BLK_OK) eqn:E; cbn [negb].
  2: { eexists _, _, _. split_and!; try done. unbool. intros Hc. by rewrite Hc in E. }
  unbool. apply check_ok in E as (_ & Hn0 & Hr).
  pose proof (bd_read s lba n b Hs Hl ltac:(lia) Hr Hb Hok) as H.
  destruct (driver op_read (Some d)) as [read|].
  - destruct (read s lba n b) as [[rc b'] s']. eexists _, _, _. split; [done|]. exact H.
  - eexists _, _, _. split; [done|]. exact H.
Qed.

Lemma blk_write_spec s lba n b : bd_ok s -> 0 <= lba -> 0 <= n -> lenZ b = n * sector_size d -> bytes_ok b ->
  exists rc s', blk_write (Some d) lba n (Some b) s = (rc, s') /\ bd_ok s' /\
  (forall a, 0 <= a -> ~ (lba * sector_size d <= a < (lba + n) * sector_size d) -> bd_byte s' a = bd_byte s a) /\
  (rc = BLK_OK -> forall o, 0 <= o < n * sector_size d -> bd_byte s' (lba * sector_size d + o) = nthZ b o).
Proof.
  intros Hs Hl Hn Hb Hok. unfold blk_write. destruct (check (Some d) lba n (Some b) =? BLK_OK) eqn:E; cbn [negb].
  2: { eexists _, _. split_and!; try done. unbool. intros Hc. by rewrite Hc in E. }
  unbool. apply check_ok in E as (_ & Hn0 & Hr).
  pose proof (bd_write s lba n b Hs Hl ltac:(lia) Hr Hb Hok) as H.
  destruct (driver op_write (Some d)) as [write|].
  - destruct (write s lba n b) as [rc s']. eexists _, _. split; [done|]. exact H.
  - eexists _, _. split; [done|]. exact H.
Qed.

Context `{!FailStop d}.

Lemma fs_has_ops s : bd_ok s -> 0 < sector_count d -> is_Some (ops d).
Proof.
  intros Hs Hc. pose proof (fs_read s 0 1 [] Hs) as H. unfold driver in H. destruct (ops d); [eauto|].
  destruct H as (_ & _ & _ & H). by specialize (H ltac:(lia) ltac:(lia) ltac:(lia)).
Qed.

(** Reads never disturb anything, whatever they ask for. *)
Lemma blk_read_frozen s lba n b : bd_ok s -> exists rc b' s', blk_read (Some d) lba n (Some b) s = (rc, Some b', s') /\
  bd_ok s' /\ bd_dead s' = bd_dead s /\ (forall a, 0 <= a -> bd_byte s' a = bd_byte s a).
Proof.
  intros Hs. unfold blk_read. destruct (negb _); [by eexists _, _, _|].
  pose proof (fs_read s lba n b Hs) as H. destruct (driver op_read (Some d)) as [read|].
  - destruct (read s lba n b) as [[rc b'] s']. destruct H as (H1 & H2 & H3 & _). by eexists _, _, _.
  - by eexists _, _, _.
Qed.

Lemma blk_read_live s lba n b : bd_ok s -> 0 <= lba -> 0 < n -> lba + n <= sector_count d ->
  (blk_read (Some d) lba n (Some b) s).1.1 = BLK_OK.
Proof.
  intros Hs Hl Hn Hr. unfold blk_read. rewrite check_rc; [|done|apply (fs_has_ops s Hs); lia|done]. cbn [Z.eqb BLK_OK negb].
  pose proof (fs_read s lba n b Hs) as H. destruct (driver op_read (Some d)) as [read|].
  - destruct (read s lba n b) as [[rc b'] s']. destruct H as (_ & _ & _ & H). by apply H.
  - destruct H as (_ & _ & _ & H). by apply H.
Qed.

Lemma blk_write_frozen s lba n b : bd_ok s -> bd_dead s = true -> exists rc s', blk_write (Some d) lba n (Some b) s = (rc, s') /\
  rc <> BLK_OK /\ bd_ok s' /\ bd_dead s' = true /\ (forall a, 0 <= a -> bd_byte s' a = bd_byte s a).
Proof.
  intros Hs Hd. unfold blk_write. destruct (check _ _ _ _ =? BLK_OK) eqn:E; cbn [negb].
  - pose proof (fs_write s lba n b Hs) as H. rewrite Hd in H. destruct (driver op_write (Some d)) as [write|].
    + destruct (write s lba n b) as [rc s']. destruct H as (H1 & H2 & H3 & H4). by eexists _, _.
    + by eexists _, _.
  - unbool. by eexists _, _.
Qed.

(** A live device serves a write in range, or dies in it. *)
Lemma blk_write_live s lba n b : bd_ok s -> bd_dead s = false ->
  let '(rc, s') := blk_write (Some d) lba n (Some b) s in
  bd_dead s' = true \/ bd_dead s' = false /\ (0 <= lba -> 0 < n -> lba + n <= sector_count d -> rc = BLK_OK).
Proof.
  intros Hs Hd. unfold blk_write. destruct (check _ _ _ _ =? BLK_OK) eqn:E; cbn [negb].
  - pose proof (fs_write s lba n b Hs) as H. rewrite Hd in H. destruct (driver op_write (Some d)) as [write|]; [|exact H].
    destruct (write s lba n b) as [rc s']. exact H.
  - unbool. right. split; [done|]. intros Hl Hn Hr. apply check_rc; [done|apply (fs_has_ops s Hs); lia|done].
Qed.
End Requests.

(** * The RAM disk *)

(** Memory the caller provides, as the bytes from [mem]; a missing cell is 0. *)
Record RamDisk := mkRam { mem : gmap Z Z; rd_sector_size : Z; rd_sector_count : Z }.

Definition ram (r : RamDisk) (a : Z) : Z := default 0 (mem r !! a).

Definition rd_read (r : RamDisk) (lba n : Z) (buf : list Z) : Z * list Z * RamDisk :=
  let bytes := u64 (n * rd_sector_size r) in
  let src := u64 (lba * rd_sector_size r) in
  (BLK_OK, for_range 0 bytes (fun i dst => setZ dst i (ram r (src + i))) buf, r).

Definition rd_write (r : RamDisk) (lba n : Z) (buf : list Z) : Z * RamDisk :=
  let bytes := u64 (n * rd_sector_size r) in
  let dst := u64 (lba * rd_sector_size r) in
  (BLK_OK, mkRam (for_range 0 bytes (fun i m => <[dst + i := nthZ buf i]> m) (mem r)) (rd_sector_size r) (rd_sector_count r)).

Definition rd_flush (r : RamDisk) : Z * RamDisk := (BLK_OK, r).

Definition rd_ops : BlkOps RamDisk := mkOps (Some rd_read) (Some rd_write) (Some rd_flush).

(** [old] is what the caller's memory holds; [None] is a null pointer. *)
Definition ramdisk_init (has_r : bool) (old : option (gmap Z Z)) (bytes sector_size : Z) : Z * option RamDisk :=
  match old with
  | None => (BLK_E_ARG, None)
  | Some old =>
    if negb has_r then (BLK_E_ARG, None) else
    if (sector_size <? 512) || (4096 <? sector_size) || negb (sector_size .& (sector_size - 1) =? 0) then (BLK_E_ARG, None) else
    if (bytes =? 0) || negb (bytes mod sector_size =? 0) then (BLK_E_ARG, None) else
    (BLK_OK, Some (mkRam (for_range 0 bytes (fun i m => <[i := 0]> m) old) sector_size (bytes / sector_size)))
  end.

Definition ramdisk_device (r : option RamDisk) : option (BlkDev RamDisk) :=
  match r with
  | Some r => Some (mkDev (Some rd_ops) (rd_sector_size r) (rd_sector_count r))
  | None => None
  end.

(** The buffer after a copy loop. *)
Lemma fill_buf (f : Z -> Z) buf n : 0 <= n <= lenZ buf ->
  let buf' := for_range 0 n (fun i dst => setZ dst i (f i)) buf in
  length buf' = length buf /\ (forall o, 0 <= o -> nthZ buf' o = if o <? n then f o else nthZ buf o).
Proof.
  intros Hn. cbn zeta.
  apply (for_range_inv (fun k b => length b = length buf /\ (forall o, 0 <= o -> nthZ b o = if o <? k then f o else nthZ buf o))).
  - lia.
  - split; [done|]. intros o Ho. destruct (Z.ltb_spec o 0); [lia|done].
  - intros k b Hk [Hl Hb]. rewrite Z.add_0_l. split; [by rewrite length_setZ|]. intros o Ho.
    rewrite nthZ_setZ by lia. rewrite Hb by done. zcase; by subst.
Qed.

Lemma ram_store (f : Z -> Z) m dst n a : 0 <= n ->
  default 0 (for_range 0 n (fun i (m : gmap Z Z) => <[dst + i := f i]> m) m !! a) =
  if decide (dst <= a < dst + n) then f (a - dst) else default 0 (m !! a).
Proof.
  intros Hn.
  refine (for_range_inv (fun (k : Z) (m' : gmap Z Z) =>
    default 0 (m' !! a) = if decide (dst <= a < dst + k) then f (a - dst) else default 0 (m !! a)) 0 n _ m Hn _ _).
  - by rewrite decide_False by lia.
  - intros k m' Hk IH. rewrite Z.add_0_l, lookup_insert. destruct (decide (dst + k = a)) as [E|E].
    + rewrite decide_True by lia. cbn. f_equal. lia.
    + rewrite IH. destruct (decide (dst <= a < dst + k)); [rewrite decide_True by lia|rewrite decide_False by lia]; done.
Qed.

Definition rd_dev (ss cnt : Z) : BlkDev RamDisk := mkDev (Some rd_ops) ss cnt.

(** The geometry [ramdisk_init] accepts. *)
Class RamGeometry (ss cnt : Z) := ram_geometry : 512 <= ss <= 4096 /\ 0 < cnt /\ cnt * ss < 2 ^ 64.

#[export] Program Instance rd_block_device ss cnt `{G : !RamGeometry ss cnt} : BlockDevice (rd_dev ss cnt) := {|
  bd_ok r := rd_sector_size r = ss /\ (forall a, 0 <= ram r a < 256);
  bd_byte := ram
|}.
Next Obligation. intros ss cnt (H1 & H2 & H3). cbn. lia. Qed.
Next Obligation. intros ss cnt _ s a [_ H]. apply H. Qed.
Next Obligation.
  intros ss cnt (G1 & G2 & G3) s lba n buf [Hss Hb] Hl Hn Hr Hlen Hok. cbn in *. unfold rd_read. rewrite Hss.
  assert (n * ss < 2 ^ 64 /\ lba * ss < 2 ^ 64) as [] by nia.
  rewrite !u64_small by nia.
  destruct (fill_buf (fun i => ram s (lba * ss + i)) buf (n * ss) ltac:(lia)) as [F1 F2].
  split_and!; [done|done|done| |done|].
  - apply bytes_ok_nth. intros o Ho. rewrite F2 by lia. destruct (o <? n * ss); [apply Hb|by apply nthZ_range].
  - intros _ o Ho. rewrite F2 by lia. zcase.
Qed.
Next Obligation.
  intros ss cnt (G1 & G2 & G3) s lba n buf [Hss Hb] Hl Hn Hr Hlen Hok. cbn in *. unfold rd_write. rewrite Hss.
  assert (n * ss < 2 ^ 64 /\ lba * ss < 2 ^ 64) as [] by nia. rewrite !u64_small by nia.
  pose proof (fun a => ram_store (nthZ buf) (mem s) (lba * ss) (n * ss) a ltac:(nia)) as F.
  cbn [rd_sector_size]. unfold ram in *. cbn [mem]. split_and!.
  - done.
  - intros a. rewrite F. case_decide; [by apply nthZ_range|apply Hb].
  - intros a Ha Hout. rewrite F, decide_False by lia. done.
  - intros _ o Ho. rewrite F, decide_True by lia. f_equal. lia.
Qed.

#[export] Program Instance rd_failstop ss cnt `{G : !RamGeometry ss cnt} : FailStop (rd_dev ss cnt) := {| bd_dead _ := false |}.
Next Obligation. intros ss cnt G s lba n buf Hs. cbn in *. done. Qed.
Next Obligation. intros ss cnt G s lba n buf Hs. cbn in *. by right. Qed.
