(* ===== verification/Dev.v ===== *)
(** The device registry, [core/dev/dev.c]: block devices by name. *)

From S2P Require Import Prelude.
From S2P Require Import Bytes.

Definition DEV_MAX : Z := 8.
Definition DEV_NAME_MAX : Z := 8.
(** "|dev|" *)
Definition DEV_PREFIX : list Z := [124; 100; 101; 118; 124].
Definition DEV_OK : Z := 0.
Definition DEV_EEXIST : Z := -1.
Definition DEV_EFULL : Z := -2.
Definition DEV_EINVAL : Z := -3.

Section Registry.
Context {A : Type}.

(** A slot: the name and the pointer to the device, [None] when it is null. *)
Record DevSlot := mkSlot { d_name : list Z; d_dev : option A }.
Implicit Types (l : list DevSlot) (name path : list Z).

(** The comparison loop; a C string ends where its list does. *)
Fixpoint dev_str_eq (a b : list Z) : bool :=
  match a with
  | [] => 0 =? nthZ b 0
  | c :: a => if negb (c =? 0) && (c =? nthZ b 0) then dev_str_eq a (tail b) else c =? nthZ b 0
  end.

Definition dev_name_ok name : bool := (0 <? lenZ name) && (lenZ name <=? DEV_NAME_MAX).

(** The scan: the first free slot, or [None] when a device has the name. *)
Fixpoint register_scan l name (i : nat) (free_slot : option nat) : option (option nat) :=
  match l with
  | [] => Some free_slot
  | s :: l =>
    match d_dev s with
    | None => register_scan l name (S i) (match free_slot with None => Some i | Some _ => free_slot end)
    | Some _ => if dev_str_eq (d_name s) name then None else register_scan l name (S i) free_slot
    end
  end.

Definition dev_register l (name : option (list Z)) (d : option A) : Z * list DevSlot :=
  match d, name with
  | Some d, Some name =>
    if negb (dev_name_ok name) then (DEV_EINVAL, l) else
    match register_scan l name 0 None with
    | None => (DEV_EEXIST, l)
    | Some None => (DEV_EFULL, l)
    | Some (Some i) => (DEV_OK, <[i := mkSlot name (Some d)]> l)
    end
  | _, _ => (DEV_EINVAL, l)
  end.

(** What is left of the path after the prefix. *)
Fixpoint after_prefix (pre p : list Z) : option (list Z) :=
  match pre with
  | [] => Some p
  | c :: pre => if nthZ p 0 =? c then after_prefix pre (tail p) else None
  end.

Fixpoint lookup_scan l name : option A :=
  match l with
  | [] => None
  | s :: l =>
    match d_dev s with
    | Some d => if dev_str_eq (d_name s) name then Some d else lookup_scan l name
    | None => lookup_scan l name
    end
  end.

Definition dev_lookup l path : option A :=
  match after_prefix DEV_PREFIX path with None => None | Some p => lookup_scan l p end.

(** The count and the calls of the callback. *)
Definition dev_list l : Z * list (list Z * A) :=
  let calls := omap (fun s => match d_dev s with Some d => Some (d_name s, d) | None => None end) l in (lenZ calls, calls).

(** * Refinement of a finite map *)

Definition nul_free (n : list Z) : Prop := Forall (fun c => c <> 0) n.

Lemma dev_str_eq_spec a : forall b, nul_free a -> nul_free b -> dev_str_eq a b = true <-> a = b.
Proof.
  induction a as [|c a IH]; intros b Ha Hb; cbn [dev_str_eq].
  - destruct b as [|x b]; [done|]. apply Forall_cons in Hb as [Hx _]. change (nthZ (x :: b) 0) with x. rewrite Z.eqb_eq. split; [congruence|done].
  - apply Forall_cons in Ha as [Hc Ha]. rewrite (proj2 (Z.eqb_neq c 0) Hc). cbn [negb andb].
    destruct b as [|x b]; [change (nthZ [] 0) with 0; rewrite (proj2 (Z.eqb_neq c 0) Hc); done|]. apply Forall_cons in Hb as [Hx Hb].
    change (nthZ (x :: b) 0) with x. cbn [tail].
    destruct (Z.eqb_spec c x) as [->|Hne]; [|split; [done|congruence]]. rewrite IH by done. split; [by intros ->|by intros [= ->]].
Qed.

(** Eight slots; names in use are well formed and used once. *)
Record reg_ok l : Prop := {
  ro_len : length l = 8%nat;
  ro_name : forall i s d, l !! i = Some s -> d_dev s = Some d -> nul_free (d_name s) /\ dev_name_ok (d_name s) = true;
  ro_uniq : forall i j s t d e, l !! i = Some s -> l !! j = Some t -> d_dev s = Some d -> d_dev t = Some e -> d_name s = d_name t -> i = j
}.

(** The device [d] is registered as [name]. *)
Definition registered l name (d : A) : Prop := exists i s, l !! i = Some s /\ d_dev s = Some d /\ d_name s = name.

Lemma lookup_scan_spec l name d : reg_ok l -> nul_free name -> lookup_scan l name = Some d <-> registered l name d.
Proof.
  intros R Hn. assert (forall l' k, (forall i s, l' !! i = Some s -> l !! (k + i)%nat = Some s) ->
    lookup_scan l' name = Some d <-> exists i s, l' !! i = Some s /\ d_dev s = Some d /\ d_name s = name) as H; [|apply (H l 0%nat); done].
  induction l' as [|s l' IH]; intros k Hk; cbn [lookup_scan]; [split; [done|intros (i & s & H & _); done]|].
  assert (forall i t, l' !! i = Some t -> l !! (S k + i)%nat = Some t) as Hk' by (intros i t Hi; replace (S k + i)%nat with (k + S i)%nat by lia; by apply Hk).
  specialize (IH (S k) Hk'). pose proof (Hk 0%nat s eq_refl) as H0.
  destruct (d_dev s) as [e|] eqn:Ed.
  - pose proof (ro_name l R _ s e H0 Ed) as [Hs _]. destruct (dev_str_eq (d_name s) name) eqn:E.
    + apply dev_str_eq_spec in E; [|done|done]. split; [intros [= <-]; by exists 0%nat, s|]. intros (i & t & Hi & Ht & En).
      assert (k + 0 = k + i)%nat as Eq by (apply (ro_uniq l R _ _ s t e d); [done|by apply Hk|done|done|congruence]).
      assert (i = 0)%nat as -> by lia. cbn in Hi. congruence.
    + rewrite IH. split; [intros (i & t & H); by exists (S i), t|]. intros ([|i] & t & Hi & Ht & En); [|by exists i, t].
      cbn in Hi. injection Hi as <-. exfalso. rewrite <- not_true_iff_false, dev_str_eq_spec in E; done.
  - rewrite IH. split; [intros (i & t & H); by exists (S i), t|]. intros ([|i] & t & Hi & Ht & En); [cbn in Hi; congruence|by exists i, t].
Qed.

Lemma register_scan_spec name : nul_free name -> forall l i free, (forall s d, s ∈ l -> d_dev s = Some d -> nul_free (d_name s)) ->
  match register_scan l name i free with
  | None => exists d, exists s, s ∈ l /\ d_dev s = Some d /\ d_name s = name
  | Some r => (forall s d, s ∈ l -> d_dev s = Some d -> d_name s <> name) /\
      match free with
      | Some j => r = Some j
      | None => match r with
                | Some j => exists k s, j = (i + k)%nat /\ l !! k = Some s /\ d_dev s = None
                | None => forall s, s ∈ l -> exists d, d_dev s = Some d
                end
      end
  end.
Proof.
  intros Hn. induction l as [|s l IH]; intros i free Hok; cbn [register_scan].
  { split; [intros s d Hs; by apply not_elem_of_nil in Hs|]. destruct free; [done|]. intros s Hs. by apply not_elem_of_nil in Hs. }
  assert (forall t d, t ∈ l -> d_dev t = Some d -> nul_free (d_name t)) as Hok' by (intros t d Ht; apply Hok; by right).
  destruct (d_dev s) as [d|] eqn:Ed.
  - destruct (dev_str_eq (d_name s) name) eqn:E.
    + apply dev_str_eq_spec in E; [|by apply (Hok s d); [left|]|done]. exists d, s. split_and!; [left|done|done].
    + specialize (IH (S i) free Hok'). destruct (register_scan l name (S i) free) as [r|].
      * destruct IH as [H1 H2]. split.
        -- intros t e [->|Ht]%elem_of_cons He; [|by apply (H1 t e)]. intros En. rewrite <- not_true_iff_false, dev_str_eq_spec in E; [done|by apply (Hok s d); [left|]|done].
        -- destruct free; [done|]. destruct r as [j|].
           ++ destruct H2 as (k & t & -> & Hk & Ht). exists (S k), t. split_and!; [lia|done|done].
           ++ intros t [->|Ht]%elem_of_cons; [by exists d|by apply H2].
      * destruct IH as (e & t & Ht & H). exists e, t. split; [by right|done].
  - specialize (IH (S i) (match free with None => Some i | Some _ => free end) Hok').
    destruct (register_scan l name (S i) _) as [r|].
    + destruct IH as [H1 H2]. split; [intros t e [->|Ht]%elem_of_cons He; [congruence|by apply (H1 t e)]|]. destruct free; [done|]. rewrite H2.
      exists 0%nat, s. split_and!; [lia|done|done].
    + destruct IH as (e & t & Ht & H). exists e, t. split; [by right|done].
Qed.

Lemma after_prefix_spec pre : forall p, nul_free pre -> nul_free p -> forall q, after_prefix pre p = Some q <-> p = pre ++ q.
Proof.
  induction pre as [|c pre IH]; intros p Hp Hn q; cbn [after_prefix]; [split; [by intros [= ->]|by intros ->]|].
  apply Forall_cons in Hp as [Hc Hp]. destruct p as [|x p]; [change (nthZ [] 0) with 0; destruct (Z.eqb_spec 0 c); [congruence|done]|]. apply Forall_cons in Hn as [_ Hn].
  change (nthZ (x :: p) 0) with x. cbn [tail app]. destruct (Z.eqb_spec x c) as [->|Hne]; [|split; [done|congruence]]. rewrite IH by done. split; [by intros ->|by intros [= ->]].
Qed.

(** the registry is a map from names to devices. Registering answers
    invalid, exists or full exactly when the name or device is, and changes
    nothing then; otherwise the name denotes the device and every other name
    what it did. The path of a device finds exactly what its name denotes, and
    listing calls back once for each. *)
Theorem dev_registry_correct l name d : reg_ok l -> nul_free name ->
  (let '(rc, l') := dev_register l (Some name) (Some d) in
   reg_ok l' /\
   (rc = DEV_OK /\ dev_name_ok name = true /\ (forall e, ~ registered l name e) /\
      (forall n e, registered l' n e <-> registered l n e \/ (n = name /\ e = d)) \/
    l' = l /\ (rc = DEV_EINVAL /\ dev_name_ok name = false \/ rc = DEV_EEXIST /\ (exists e, registered l name e) \/
      rc = DEV_EFULL /\ (forall i s, l !! i = Some s -> exists e, d_dev s = Some e)))) /\
  (forall e, dev_lookup l (DEV_PREFIX ++ name) = Some e <-> registered l name e) /\
  (let '(n, calls) := dev_list l in n = lenZ calls /\ forall m e, (m, e) ∈ calls <-> registered l m e).
Proof.
  intros R Hn. split_and!.
  - unfold dev_register. destruct (dev_name_ok name) eqn:Ek; cbn [negb]; [|split; [done|right; split; [done|by left]]].
    pose proof (register_scan_spec name Hn l 0%nat None) as H.
    assert (forall s e, s ∈ l -> d_dev s = Some e -> nul_free (d_name s)) as Hok.
    { intros s e (i & Hi)%list_elem_of_lookup_1 He. by apply (ro_name l R i s e). }
    specialize (H Hok). destruct (register_scan l name 0 None) as [[j|]|].
    + destruct H as (H1 & k & s & -> & Hk & Hs). cbn [Nat.add]. assert (k < length l)%nat as Hlt by (by eapply lookup_lt_Some).
      assert (forall i t, <[k := mkSlot name (Some d)]> l !! i = Some t -> (i = k /\ t = mkSlot name (Some d)) \/ (i <> k /\ l !! i = Some t)) as Hlk.
      { intros i t [(-> & -> & _)|[? ?]]%list_lookup_insert_Some; [by left|by right]. }
      assert (forall i t e, l !! i = Some t -> d_dev t = Some e -> d_name t <> name) as Hne.
      { intros i t e Hi He. apply (H1 t e); [by eapply list_elem_of_lookup_2|done]. }
      split; [split|].
      * rewrite length_insert. apply R.
      * intros i t e Hi He. destruct (Hlk i t Hi) as [[-> ->]|[_ Hi']]; [done|by apply (ro_name l R i t e)].
      * intros i j t u e e' Hi Hj Ht Hu En. destruct (Hlk i t Hi) as [[-> ->]|[Ni Hi']], (Hlk j u Hj) as [[-> ->]|[Nj Hj']]; [done| | |].
        -- cbn in En. by destruct (Hne j u e' Hj' Hu).
        -- cbn in En. by destruct (Hne i t e Hi' Ht).
        -- by apply (ro_uniq l R i j t u e e').
      * left. split_and!; [done|done|intros e (i & t & Hi & He & En); by apply (Hne i t e)|]. intros n e. split.
        -- intros (i & t & Hi & He & En). destruct (Hlk i t Hi) as [[-> ->]|[_ Hi']]; [right; cbn in He, En; by simplify_eq|left; by exists i, t].
        -- intros [(i & t & Hi & He & En)|[-> ->]].
           ++ exists i, t. split_and!; [|done|done]. rewrite list_lookup_insert_ne; [done|]. intros ->. congruence.
           ++ exists k, (mkSlot name (Some d)). split_and!; [by apply list_lookup_insert_eq|done|done].
    + split; [done|]. right. split; [done|]. do 2 right. split; [done|]. intros i s Hi. apply H. by eapply list_elem_of_lookup_2.
    + split; [done|]. right. split; [done|]. right; left. split; [done|]. destruct H as (e & s & (i & Hi)%list_elem_of_lookup_1 & He & En). exists e. by exists i, s.
  - intros e. unfold dev_lookup. assert (after_prefix DEV_PREFIX (DEV_PREFIX ++ name) = Some name) as ->; [|by apply lookup_scan_spec].
    apply after_prefix_spec; [repeat constructor; lia| |done]. apply Forall_app. split; [repeat constructor; lia|done].
  - cbn. split; [done|]. intros m e. rewrite list_elem_of_omap. split.
    + intros (s & (i & Hi)%list_elem_of_lookup_1 & E). destruct (d_dev s) eqn:Ed; [|done]. injection E as <- <-. by exists i, s.
    + intros (i & s & Hi & He & En). exists s. split; [by eapply list_elem_of_lookup_2|]. by rewrite He, En.
Qed.
End Registry.
Arguments DevSlot : clear implicits.

(** "rd0" in an empty registry. *)
Lemma dev_registry_correct_witness : let l := replicate 8 (mkSlot [] None) in
  (dev_register l (Some [114; 100; 48]) (Some 7)).1 = DEV_OK /\ forall e, ~ registered l [114; 100; 48] e.
Proof.
  intros l. assert (forall i s, l !! i = Some s -> d_dev s = None) as Hl by (intros i s Hi; by apply lookup_replicate in Hi as [-> _]).
  assert (reg_ok (A := Z) l) as R.
  { split; [reflexivity| |]; intros i; intros; match goal with H : l !! _ = Some _, E : d_dev _ = Some _ |- _ => rewrite (Hl _ _ H) in E; discriminate E end. }
  destruct (dev_registry_correct l [114; 100; 48] 7 R) as (H & _ & _); [repeat constructor; discriminate|]. split; [reflexivity|].
  intros e (i & s & Hi & He & _). rewrite (Hl i s Hi) in He. discriminate He.
Defined.
