(* ===== verification/Nvme.v ===== *)
(** The NVMe driver ([drivers/storage/nvme/nvme.c]) and the choice of the system
    disk ([storage.c]). The controller and the memory it shares with the driver
    are a parameter, with the behaviour the NVMe base specification gives them
    as an interface; the driver then satisfies the contract of block devices. *)

From S2P Require Import Prelude.
From S2P Require Import Bytes.
From S2P Require Import Physical.
From S2P Require Import Pci.
From S2P Require Import Ledger.
From S2P Require Import Paging.
From S2P Require Import Blk.

Definition QD : Z := 64.
Definition SQE_BYTES : Z := 64.
Definition CQE_BYTES : Z := 16.
Definition BOUNCE_BYTES : Z := 4096.
Definition SPIN_LIMIT : Z := 50000000.
Definition REG_CAP : Z := 0x00.
Definition REG_CC : Z := 0x14.
Definition REG_CSTS : Z := 0x1C.
Definition REG_AQA : Z := 0x24.
Definition REG_ASQ : Z := 0x28.
Definition REG_ACQ : Z := 0x30.
Definition REG_DBL : Z := 0x1000.
Definition OP_FLUSH : Z := 0x00.
Definition OP_WRITE : Z := 0x01.
Definition OP_READ : Z := 0x02.
Definition ADM_CREATE_SQ : Z := 0x01.
Definition ADM_CREATE_CQ : Z := 0x05.
Definition ADM_IDENTIFY : Z := 0x06.

Record Queue := mkQ { sq : Z; cq : Z; sq_phys : Z; cq_phys : Z; qid : Z; tail : Z; head : Z; phase : Z; next_cid : Z }.

Record NvmeCtx := mkCtx { regs : Z; dstrd : Z; admin : Queue; io : Queue; dma : Z; dma_phys : Z; n_sector_count : Z; n_sector_size : Z; sec_per_xfer : Z }.
Implicit Types (q : Queue) (c : NvmeCtx).

Definition set_io c q : NvmeCtx := mkCtx (regs c) (dstrd c) (admin c) q (dma c) (dma_phys c) (n_sector_count c) (n_sector_size c) (sec_per_xfer c).
Definition set_admin c q : NvmeCtx := mkCtx (regs c) (dstrd c) q (io c) (dma c) (dma_phys c) (n_sector_count c) (n_sector_size c) (sec_per_xfer c).
Definition set_regs c r : NvmeCtx := mkCtx r (dstrd c) (admin c) (io c) (dma c) (dma_phys c) (n_sector_count c) (n_sector_size c) (sec_per_xfer c).
Definition set_dstrd c d : NvmeCtx := mkCtx (regs c) d (admin c) (io c) (dma c) (dma_phys c) (n_sector_count c) (n_sector_size c) (sec_per_xfer c).
Definition set_dma c p v : NvmeCtx := mkCtx (regs c) (dstrd c) (admin c) (io c) v p (n_sector_count c) (n_sector_size c) (sec_per_xfer c).
Definition set_geometry c n s x : NvmeCtx := mkCtx (regs c) (dstrd c) (admin c) (io c) (dma c) (dma_phys c) n s x.
Definition set_cid q i : Queue := mkQ (sq q) (cq q) (sq_phys q) (cq_phys q) (qid q) (tail q) (head q) (phase q) i.
Definition q_set_tail q t : Queue := mkQ (sq q) (cq q) (sq_phys q) (cq_phys q) (qid q) t (head q) (phase q) (next_cid q).
Definition q_set_head q h p : Queue := mkQ (sq q) (cq q) (sq_phys q) (cq_phys q) (qid q) (tail q) h p (next_cid q).

(** The hardware as the driver reaches it: 32-bit registers, and memory in
    bytes or aligned words that the controller may change at any access. *)
Class Bus (E : Type) := {
  io_rd : E -> Z -> Z * E; io_wr : E -> Z -> Z -> E;
  dma_ld : E -> Z -> Z * E; dma_ld32 : E -> Z -> Z * E; dma_st : E -> Z -> Z -> E }.

(** * Decoding *)

Definition nvme_nsze_from_identify (id : list Z) : Z := get32 id 0 .| (get32 id 4 .<< 32).

Definition nvme_lbads_from_identify (id : list Z) : Z :=
  let flbas := nthZ id 26 .& 0x0F in
  let lbads := nthZ id (128 + 4 * flbas + 2) in
  if (lbads <? 9) || (12 <? lbads) then 0 else lbads.

Definition nvme_cqe_is_new (dw3 expect_phase : Z) : bool := (dw3 .>> 16) .& 1 =? expect_phase .& 1.
Definition nvme_cqe_status (dw3 : Z) : Z := (dw3 .>> 17) .& 0x7FFF.

(** Fields of a command, by double word. *)
Definition dw_put32 (cmd : list Z) (dw v : Z) : list Z := Bytes.put32 cmd (dw * 4) v.
Definition dw_put64 (cmd : list Z) (dw v : Z) : list Z := dw_put32 (dw_put32 cmd dw (u32 v)) (dw + 1) (u32 (v .>> 32)).
Definition blank_cmd : list Z := replicate 64 0.

Section Driver.
Context {E : Type} `{B : Bus E}.
Implicit Types (e : E).

Definition rd32 c (off : Z) e : Z * E := io_rd e (regs c + off).
Definition wr32 c (off v : Z) e : E := io_wr e (regs c + off) v.
Definition rd64 c (off : Z) e : Z * E :=
  let '(lo, e) := rd32 c off e in let '(hi, e) := rd32 c (off + 4) e in (lo .| (hi .<< 32), e).
Definition wr64 c (off v : Z) e : E := wr32 c (off + 4) (u32 (v .>> 32)) (wr32 c off (u32 v) e).

Definition sq_doorbell c (qid : Z) : Z := u32 (REG_DBL + u32 (u32 (2 * qid) * u32 (4 .<< dstrd c))).
Definition cq_doorbell c (qid : Z) : Z := u32 (REG_DBL + u32 (u32 (2 * qid + 1) * u32 (4 .<< dstrd c))).

(** The polling loop: the new completion's third double word, if any came. *)
Fixpoint poll_cqe (spins : nat) (a phase : Z) e : option Z * E :=
  match spins with
  | O => (None, e)
  | S spins =>
    let '(w3, e) := dma_ld32 e a in
    if nvme_cqe_is_new w3 phase then (Some w3, e) else poll_cqe spins a phase e
  end.

(** Status, double word 3 (0 if none), queue. *)
Definition queue_exec c q (cmd : list Z) (db_sq db_cq : Z) e : Z * Z * Queue * E :=
  let slot := sq q + tail q * SQE_BYTES in
  let e := for_range 0 SQE_BYTES (fun i e => dma_st e (slot + i) (nthZ cmd i)) e in
  let q := q_set_tail q (u32 (tail q + 1) mod QD) in
  let e := wr32 c db_sq (tail q) e in
  let cqe := cq q + head q * CQE_BYTES in
  match poll_cqe (Z.to_nat SPIN_LIMIT) (cqe + 12) (phase q) e with
  | (Some w3, e) =>
    let h := u32 (head q + 1) mod QD in
    let q := q_set_head q h (if h =? 0 then phase q .^ 1 else phase q) in
    (BLK_OK, w3, q, wr32 c db_cq h e)
  | (None, e) => (BLK_E_TIMEOUT, 0, q, e)
  end.

Definition put_cid (cmd : list Z) (cid : Z) : list Z := setZ (setZ cmd 2 (u8 cid)) 3 (u8 (cid .>> 8)).

Definition admin_exec (cmd : list Z) c e : Z * Z * NvmeCtx * E :=
  let cid := next_cid (admin c) in
  let c := set_admin c (set_cid (admin c) (u16 (cid + 1))) in
  let '(rc, dw3, q, e) := queue_exec c (admin c) (put_cid cmd cid) (sq_doorbell c 0) (cq_doorbell c 0) e in
  (rc, dw3, set_admin c q, e).

Definition io_exec (cmd : list Z) c e : Z * Z * NvmeCtx * E :=
  let cid := next_cid (io c) in
  let c := set_io c (set_cid (io c) (u16 (cid + 1))) in
  let '(rc, dw3, q, e) := queue_exec c (io c) (put_cid cmd cid) (sq_doorbell c (qid (io c))) (cq_doorbell c (qid (io c))) e in
  (rc, dw3, set_io c q, e).

(** * Bring-up *)

Fixpoint wait_loop (spins : nat) (want : Z) c e : Z * E :=
  match spins with
  | O => (BLK_E_TIMEOUT, e)
  | S spins => let '(v, e) := rd32 c REG_CSTS e in if v .& 1 =? want then (BLK_OK, e) else wait_loop spins want c e
  end.
Definition wait_rdy (want : Z) c e : Z * E := wait_loop (Z.to_nat SPIN_LIMIT) want c e.

(** Status, the frame (the identity map makes its address the pointer), the
    frames left. *)
Definition alloc_zeroed (ks : KState) e : Z * Z * KState * E :=
  let '(p, ph) := phys_alloc_frames 1 (phys (k_mem ks)) in
  let ks := set_kmem ks (mkMem ph (Ledger.mem (k_mem ks)) (ledger (k_mem ks))) in
  if p =? 0 then (BLK_E_IO, 0, ks, e) else
  (BLK_OK, p, ks, for_range 0 XERET_FRAME_SIZE (fun i e => dma_st e (p + i) 0) e).

Definition queue_alloc q (id : Z) (ks : KState) e : Z * Queue * KState * E :=
  let q := mkQ (sq q) (cq q) (sq_phys q) (cq_phys q) id 0 0 1 1 in
  let '(rc, p, ks, e) := alloc_zeroed ks e in
  if negb (rc =? BLK_OK) then (BLK_E_IO, q, ks, e) else
  let q := mkQ p (cq q) p (cq_phys q) id 0 0 1 1 in
  let '(rc, p', ks, e) := alloc_zeroed ks e in
  if negb (rc =? BLK_OK) then (BLK_E_IO, q, ks, e) else
  (BLK_OK, mkQ p p' p p' id 0 0 1 1, ks, e).

(** Copies from the shared page to a buffer and back. *)
Definition copy_out (dst : list Z) (off src n : Z) e : list Z * E :=
  for_range 0 n (fun i '(dst, e) => let '(v, e) := dma_ld e (src + i) in (setZ dst (off + i) v, e)) (dst, e).
Definition copy_in (dst : Z) (src : list Z) (off n : Z) e : E := for_range 0 n (fun i e => dma_st e (dst + i) (nthZ src (off + i))) e.

Definition identify_namespace c e : Z * NvmeCtx * E :=
  let cmd := setZ blank_cmd 0 ADM_IDENTIFY in
  let cmd := dw_put32 cmd 1 1 in
  let cmd := dw_put64 cmd 6 (dma_phys c) in
  let cmd := dw_put32 cmd 10 0 in
  let '(rc, dw3, c, e) := admin_exec cmd c e in
  if negb (rc =? BLK_OK) then (BLK_E_TIMEOUT, c, e) else
  if negb (nvme_cqe_status dw3 =? 0) then (BLK_E_IO, c, e) else
  let '(id, e) := copy_out (replicate 4096 0) 0 (dma c) BOUNCE_BYTES e in
  let nsze := nvme_nsze_from_identify id in
  let lbads := nvme_lbads_from_identify id in
  if (nsze =? 0) || (lbads =? 0) then (BLK_E_IO, c, e) else
  let size := u32 (1 .<< lbads) in
  (BLK_OK, set_geometry c nsze size (BOUNCE_BYTES / size), e).

Definition create_io_queues c e : Z * NvmeCtx * E :=
  let cmd := setZ blank_cmd 0 ADM_CREATE_CQ in
  let cmd := dw_put32 cmd 10 (((QD - 1) .<< 16) .| qid (io c)) in
  let cmd := dw_put32 cmd 11 1 in
  let cmd := dw_put64 cmd 6 (cq_phys (io c)) in
  let '(rc, dw3, c, e) := admin_exec cmd c e in
  if negb (rc =? BLK_OK) then (BLK_E_TIMEOUT, c, e) else
  if negb (nvme_cqe_status dw3 =? 0) then (BLK_E_IO, c, e) else
  let cmd := setZ blank_cmd 0 ADM_CREATE_SQ in
  let cmd := dw_put32 cmd 10 (((QD - 1) .<< 16) .| qid (io c)) in
  let cmd := dw_put32 cmd 11 (1 .| u32 (qid (io c) .<< 16)) in
  let cmd := dw_put64 cmd 6 (sq_phys (io c)) in
  let '(rc, dw3, c, e) := admin_exec cmd c e in
  if negb (rc =? BLK_OK) then (BLK_E_TIMEOUT, c, e) else
  if negb (nvme_cqe_status dw3 =? 0) then (BLK_E_IO, c, e) else
  (BLK_OK, c, e).

(** * Block operations *)

Definition rw_cmd c (opcode lba nlb : Z) : list Z :=
  let cmd := setZ blank_cmd 0 opcode in
  let cmd := dw_put32 cmd 1 1 in
  let cmd := dw_put64 cmd 6 (dma_phys c) in
  let cmd := dw_put32 cmd 10 (u32 lba) in
  let cmd := dw_put32 cmd 11 (u32 (lba .>> 32)) in
  dw_put32 cmd 12 (u32 (nlb - 1)).

Definition io_rw (opcode lba nlb : Z) c e : Z * NvmeCtx * E :=
  let '(rc, dw3, c, e) := io_exec (rw_cmd c opcode lba nlb) c e in
  if negb (rc =? BLK_OK) then (BLK_E_TIMEOUT, c, e) else
  ((if nvme_cqe_status dw3 =? 0 then BLK_OK else BLK_E_IO), c, e).

(** The driver's context and the hardware. *)
Record Nvme := mkNvme { ctx : NvmeCtx; env : E }.
Implicit Types (n : Nvme).

(** The loops: [off] is how far the buffer pointer has moved. A round moves at
    least one sector, so [count] rounds are enough. *)
Fixpoint sector_read_loop (fuel : nat) (lba count : Z) (dst : list Z) (off : Z) n : Z * list Z * Nvme :=
  match fuel with
  | O => (BLK_OK, dst, n)
  | S fuel =>
    if negb (0 <? count) then (BLK_OK, dst, n) else
    let nlb := if count <? sec_per_xfer (ctx n) then count else sec_per_xfer (ctx n) in
    let '(rc, c, e) := io_rw OP_READ lba nlb (ctx n) (env n) in
    if negb (rc =? BLK_OK) then (rc, dst, mkNvme c e) else
    let bytes := u32 (nlb * n_sector_size c) in
    let '(dst, e) := copy_out dst off (dma c) bytes e in
    sector_read_loop fuel (u64 (lba + nlb)) (count - nlb) dst (off + bytes) (mkNvme c e)
  end.

Fixpoint sector_write_loop (fuel : nat) (lba count : Z) (src : list Z) (off : Z) n : Z * Nvme :=
  match fuel with
  | O => (BLK_OK, n)
  | S fuel =>
    if negb (0 <? count) then (BLK_OK, n) else
    let nlb := if count <? sec_per_xfer (ctx n) then count else sec_per_xfer (ctx n) in
    let bytes := u32 (nlb * n_sector_size (ctx n)) in
    let e := copy_in (dma (ctx n)) src off bytes (env n) in
    let '(rc, c, e) := io_rw OP_WRITE lba nlb (ctx n) e in
    if negb (rc =? BLK_OK) then (rc, mkNvme c e) else
    sector_write_loop fuel (u64 (lba + nlb)) (count - nlb) src (off + bytes) (mkNvme c e)
  end.

Definition nvme_read n (lba count : Z) (buf : list Z) : Z * list Z * Nvme := sector_read_loop (Z.to_nat count) lba count buf 0 n.
Definition nvme_write n (lba count : Z) (buf : list Z) : Z * Nvme := sector_write_loop (Z.to_nat count) lba count buf 0 n.

Definition nvme_flush n : Z * Nvme :=
  let cmd := dw_put32 (setZ blank_cmd 0 OP_FLUSH) 1 1 in
  let '(rc, dw3, c, e) := io_exec cmd (ctx n) (env n) in
  if negb (rc =? BLK_OK) then (BLK_E_TIMEOUT, mkNvme c e) else
  ((if nvme_cqe_status dw3 =? 0 then BLK_OK else BLK_E_IO), mkNvme c e).

Definition g_nvme_ops : BlkOps Nvme := mkOps (Some nvme_read) (Some nvme_write) (Some nvme_flush).

(** * Entry points *)

(** Everything [nvme_init] works on. *)
Record NvmeMachine {Cfg : Type} := mkNvmeMachine { nv : Nvme; m_ks : KState; m_pci : Pci (Cfg := Cfg) }.
Arguments NvmeMachine : clear implicits.

(** Status, and the sector size and count of the device when it is [BLK_OK]. *)
Definition nvme_init {Cfg : Type} `{ConfigSpace Cfg} (d : option PciDev) (has_out : bool) (m : NvmeMachine Cfg) : Z * option (BlkDev Nvme) * NvmeMachine Cfg :=
  match d with
  | None => (BLK_E_ARG, None, m)
  | Some d =>
    if negb has_out then (BLK_E_ARG, None, m) else
    if negb (class_code d =? 0x01) || negb (subclass d =? 0x08) then (BLK_E_ARG, None, m) else
    if (nthZ (bar d) 0 =? 0) || (nthZ (bar_size d) 0 =? 0) then (BLK_E_ARG, None, m) else
    let '(r, pci) := pci_enable (m_pci m) (Some d) in
    if negb (r =? 0) then (BLK_E_IO, None, mkNvmeMachine _ (nv m) (m_ks m) pci) else
    let '(r, va, ks) := xpt_map_uncached (nthZ (bar d) 0) (nthZ (bar_size d) 0) (m_ks m) in
    if negb (r =? 0) then (BLK_E_IO, None, mkNvmeMachine _ (nv m) ks pci) else
    let c := set_regs (ctx (nv m)) va in
    let e := env (nv m) in
    let '(cap, e) := rd64 c REG_CAP e in
    let c := set_dstrd c ((cap .>> 32) .& 0xF) in
    let e := wr32 c REG_CC 0 e in
    let '(rc, e) := wait_rdy 0 c e in
    if negb (rc =? BLK_OK) then (BLK_E_TIMEOUT, None, mkNvmeMachine _ (mkNvme c e) ks pci) else
    let '(rc, q, ks, e) := queue_alloc (admin c) 0 ks e in
    let c := set_admin c q in
    if negb (rc =? BLK_OK) then (BLK_E_IO, None, mkNvmeMachine _ (mkNvme c e) ks pci) else
    let '(rc, q, ks, e) := queue_alloc (io c) 1 ks e in
    let c := set_io c q in
    if negb (rc =? BLK_OK) then (BLK_E_IO, None, mkNvmeMachine _ (mkNvme c e) ks pci) else
    let '(rc, p, ks, e) := alloc_zeroed ks e in
    if negb (rc =? BLK_OK) then (BLK_E_IO, None, mkNvmeMachine _ (mkNvme c e) ks pci) else
    let c := set_dma c p p in
    let e := wr32 c REG_AQA (((QD - 1) .<< 16) .| (QD - 1)) e in
    let e := wr64 c REG_ASQ (sq_phys (admin c)) e in
    let e := wr64 c REG_ACQ (cq_phys (admin c)) e in
    let e := wr32 c REG_CC ((1 .| (6 .<< 16)) .| (4 .<< 20)) e in
    let '(rc, e) := wait_rdy 1 c e in
    if negb (rc =? BLK_OK) then (BLK_E_TIMEOUT, None, mkNvmeMachine _ (mkNvme c e) ks pci) else
    let '(rc, c, e) := identify_namespace c e in
    if negb (rc =? BLK_OK) then (rc, None, mkNvmeMachine _ (mkNvme c e) ks pci) else
    let '(rc, c, e) := create_io_queues c e in
    if negb (rc =? BLK_OK) then (rc, None, mkNvmeMachine _ (mkNvme c e) ks pci) else
    (BLK_OK, Some (Blk.mkDev (Some g_nvme_ops) (n_sector_size c) (n_sector_count c)), mkNvmeMachine _ (mkNvme c e) ks pci)
  end.

(** The last loop of [nvme_controller_serial]: trailing blanks removed. *)
Fixpoint trim (k : nat) (out : list Z) : list Z :=
  match k with
  | O => out
  | S k => if (0 <? lenZ out) && (nthZ out (lenZ out - 1) =? 32) then trim k (take (length out - 1) out) else out
  end.

Definition nvme_controller_serial (has_out : bool) (max : Z) (n : Nvme) : Z * list Z * Nvme :=
  if negb has_out || (max <? 21) then (BLK_E_ARG, [], n) else
  if dma (ctx n) =? 0 then (BLK_E_IO, [], n) else
  let cmd := setZ blank_cmd 0 ADM_IDENTIFY in
  let cmd := dw_put32 cmd 10 1 in
  let cmd := dw_put64 cmd 6 (dma_phys (ctx n)) in
  let '(rc, dw3, c, e) := admin_exec cmd (ctx n) (env n) in
  if negb (rc =? BLK_OK) then (BLK_E_TIMEOUT, [], mkNvme c e) else
  if negb (nvme_cqe_status dw3 =? 0) then (BLK_E_IO, [], mkNvme c e) else
  let '(ctl, e) := copy_out (replicate 4096 0) 0 (dma c) BOUNCE_BYTES e in
  (BLK_OK, trim 20 ((fun i => nthZ ctl (4 + i)) <$> seqZ 0 20), mkNvme c e).

(** ** [storage.c] *)

Definition STORAGE_OK : Z := 0.
Definition STORAGE_ENODEV : Z := -10.
(** "xasmos" *)
Definition TEST_SERIAL : list Z := [120; 97; 115; 109; 111; 115].

(** The comparison of C strings: a list ends in a NUL. *)
Fixpoint same_str (a b : list Z) : bool :=
  match a with
  | [] => 0 =? nthZ b 0
  | x :: a => if negb (x =? 0) && (x =? nthZ b 0) then same_str a (List.tl b) else x =? nthZ b 0
  end.

Record Storage {Cfg : Type} := mkStorage { g_dev : option (BlkDev Nvme); g_open : bool; g_test : bool; s_m : NvmeMachine Cfg }.
Arguments Storage : clear implicits.

(** [None]: the bus scan does not end, which never happens. *)
Definition storage_open {Cfg : Type} `{ConfigSpace Cfg} (st : Storage Cfg) : option (Z * Storage Cfg) :=
  if g_open st then Some (STORAGE_OK, st) else
  '(_, pci) ← pci_scan (m_pci (s_m st));
  let m := mkNvmeMachine _ (nv (s_m st)) (m_ks (s_m st)) pci in
  match pci_find pci 0x01 0x08 PCI_ANY_PROGIF 0 with
  | None => Some (STORAGE_ENODEV, mkStorage _ (g_dev st) (g_open st) (g_test st) m)
  | Some d =>
    let '(rc, dv, m) := nvme_init (Some d) true m in
    if negb (rc =? BLK_OK) then Some (rc, mkStorage _ (g_dev st) (g_open st) (g_test st) m) else
    let '(rs, serial, n) := nvme_controller_serial true 24 (nv m) in
    let test := (rs =? BLK_OK) && same_str serial TEST_SERIAL in
    Some (STORAGE_OK, mkStorage _ dv true test (mkNvmeMachine _ n (m_ks m) (m_pci m)))
  end.

Definition storage_device {Cfg : Type} (st : Storage Cfg) : option (BlkDev Nvme) := if g_open st then g_dev st else None.
Definition storage_is_test_disk {Cfg : Type} (st : Storage Cfg) : bool := g_open st && g_test st.
End Driver.

(** * The controller

    What a driver can rely on, after the NVMe base specification (submission
    and completion queues, phase tag, doorbells, PRP lists of one page), for
    one I/O queue pair. The view of the hardware: memory, the medium, the
    controller's side of the queue pair, the command being executed and how
    many polls it unmoved takes, [None] when it will never complete. *)

Record Port := mkPort { c_sq : Z; c_cq : Z; c_sqdb : Z; c_cqdb : Z; c_head : Z; c_tail : Z; c_phase : Z }.

Class View (E : Type) := {
  v_mem : E -> Z -> Z; v_med : E -> Z -> Z; v_port : E -> Port; v_cmd : E -> option (list Z); v_left : E -> option nat }.

Definition cmd_op (cmd : list Z) : Z := nthZ cmd 0.
Definition cmd_prp (cmd : list Z) : Z := get64 cmd 24.
Definition cmd_lba (cmd : list Z) : Z := get64 cmd 40.
Definition cmd_nlb (cmd : list Z) : Z := (get32 cmd 48 .& 0xFFFF) + 1.
Definition is_rw (cmd : list Z) : bool := (cmd_op cmd =? OP_READ) || (cmd_op cmd =? OP_WRITE).

Section Views.
Context {E : Type} `{V : View E}.
Implicit Types (e : E).

Definition mem_bytes e (a n : Z) : list Z := v_mem e <$> seqZ a n.
Definition mem32 e (a : Z) : Z := get32 (mem_bytes e a 4) 0.
Definition entry_addr (p : Port) (k : Z) : Z := c_cq p + k * CQE_BYTES.
Definition quiet e : Prop := v_cmd e = None \/ v_left e = None.

Definition unmoved e e' : Prop :=
  (forall a, v_mem e' a = v_mem e a) /\ (forall a, v_med e' a = v_med e a) /\ v_port e' = v_port e /\ v_cmd e' = v_cmd e /\ v_left e' = v_left e.

(** The medium outside the sectors a command writes. *)
Definition med_kept (ss : Z) (cmd : list Z) e e' : Prop :=
  forall a, cmd_op cmd <> OP_WRITE \/ ~ (cmd_lba cmd * ss <= a < (cmd_lba cmd + cmd_nlb cmd) * ss) -> v_med e' a = v_med e a.

(** Memory outside the page a command fills. *)
Definition page_kept (cmd : list Z) e e' : Prop :=
  forall a, cmd_op cmd <> OP_READ \/ ~ (cmd_prp cmd <= a < cmd_prp cmd + 4096) -> v_mem e' a = v_mem e a.

(** What a completed command has done to memory and medium. *)
Record effect (ss cnt : Z) (cmd : list Z) (status : Z) e e' : Prop := {
  ef_med : med_kept ss cmd e e';
  ef_mem : forall a, ~ (entry_addr (v_port e) (c_tail (v_port e)) <= a < entry_addr (v_port e) (c_tail (v_port e)) + CQE_BYTES) ->
    cmd_op cmd <> OP_READ \/ ~ (cmd_prp cmd <= a < cmd_prp cmd + 4096) -> v_mem e' a = v_mem e a;
  ef_data : status = 0 -> cmd_prp cmd mod 4096 = 0 -> cmd_lba cmd + cmd_nlb cmd <= cnt -> cmd_nlb cmd * ss <= 4096 ->
    forall o, 0 <= o < cmd_nlb cmd * ss ->
    (cmd_op cmd = OP_READ -> v_mem e' (cmd_prp cmd + o) = v_med e (cmd_lba cmd * ss + o)) /\
    (cmd_op cmd = OP_WRITE -> v_med e' (cmd_lba cmd * ss + o) = v_mem e (cmd_prp cmd + o)) }.
End Views.

Definition port_rung (p : Port) (t : Z) : Port := mkPort (c_sq p) (c_cq p) (c_sqdb p) (c_cqdb p) t (c_tail p) (c_phase p).
Definition port_posted (p : Port) : Port :=
  let t := (c_tail p + 1) mod QD in mkPort (c_sq p) (c_cq p) (c_sqdb p) (c_cqdb p) (c_head p) t (if t =? 0 then 1 - c_phase p else c_phase p).

(** [ss] and [cnt]: the sector size and count of the namespace. *)
Class Controller (E : Type) `{B : Bus E} `{V : View E} (ss cnt : Z) : Prop := {
  ctl_mem_range : forall e a, 0 <= v_mem e a < 256;
  ctl_med_range : forall e a, 0 <= v_med e a < 256;
  (* memory is memory while no command runs, and when none will complete *)
  ctl_ld : forall e a, quiet e -> (dma_ld e a).1 = v_mem e a /\ unmoved e (dma_ld e a).2;
  ctl_st : forall e a v, quiet e -> 0 <= v < 256 -> let e' := dma_st e a v in
    (forall x, v_mem e' x = if x =? a then v else v_mem e x) /\ (forall x, v_med e' x = v_med e x) /\
    v_port e' = v_port e /\ v_cmd e' = v_cmd e /\ v_left e' = v_left e;
  (* the tail doorbell starts the command of the slot; it completes within the driver's wait, or never *)
  ctl_ring : forall e, v_cmd e = None -> let p := v_port e in let t := (c_head p + 1) mod QD in let e' := io_wr e (c_sqdb p) t in
    let cmd := mem_bytes e (c_sq p + c_head p * SQE_BYTES) SQE_BYTES in
    v_cmd e' = Some cmd /\ v_port e' = port_rung p t /\
    ((exists k, v_left e' = Some k /\ Z.of_nat k < SPIN_LIMIT /\ (forall a, v_mem e' a = v_mem e a) /\ forall a, v_med e' a = v_med e a) \/
     (v_left e' = None /\ page_kept cmd e e' /\ med_kept ss cmd e e'));
  (* a poll of the next completion entry *)
  ctl_wait : forall e cmd k, v_cmd e = Some cmd -> v_left e = Some (S k) -> let a := entry_addr (v_port e) (c_tail (v_port e)) + 12 in
    let '(w, e') := dma_ld32 e a in
    w = mem32 e a /\ (forall a, v_mem e' a = v_mem e a) /\ (forall a, v_med e' a = v_med e a) /\ v_port e' = v_port e /\ v_cmd e' = Some cmd /\ v_left e' = Some k;
  ctl_post : forall e cmd, v_cmd e = Some cmd -> v_left e = Some O -> let a := entry_addr (v_port e) (c_tail (v_port e)) + 12 in
    let '(w, e') := dma_ld32 e a in
    nvme_cqe_is_new w (c_phase (v_port e)) = true /\ mem32 e' a = w /\ v_cmd e' = None /\ v_port e' = port_posted (v_port e) /\
    effect ss cnt cmd (nvme_cqe_status w) e e';
  (* the head doorbell *)
  ctl_ack : forall e v, v_cmd e = None -> unmoved e (io_wr e (c_cqdb (v_port e)) v);
  (* a command that never completes *)
  ctl_lost : forall e cmd, v_cmd e = Some cmd -> v_left e = None ->
    (forall a, (dma_ld32 e a).1 = mem32 e a /\ unmoved e (dma_ld32 e a).2) /\ (forall a v, unmoved e (io_wr e a v)) }.

(** * The driver on such a controller *)

Section Correct.
Context {E : Type} `{B : Bus E} `{V : View E} (ss cnt : Z) {C : Controller E ss cnt}.
Implicit Types (e : E) (n : Nvme (E := E)).

Lemma unmoved_refl e : unmoved e e.
Proof. done. Qed.

Lemma mem_bytes_nth e a k i : 0 <= i < k -> nthZ (mem_bytes e a k) i = v_mem e (a + i).
Proof. apply nthZ_map_seqZ. Qed.

Lemma mem32_ext e e' a : (forall x, a <= x < a + 4 -> v_mem e' x = v_mem e x) -> mem32 e' a = mem32 e a.
Proof. intros H. unfold mem32. apply get32_ext. intros j Hj. rewrite !mem_bytes_nth by lia. apply H. lia. Qed.

(** Bytes stored while no command runs. *)
Lemma store_bytes (f : Z -> Z) e a k : quiet e -> 0 <= k -> (forall i, 0 <= i < k -> 0 <= f i < 256) ->
  let e' := for_range 0 k (fun i e => dma_st e (a + i) (f i)) e in
  (forall x, v_mem e' x = if (a <=? x) && (x <? a + k) then f (x - a) else v_mem e x) /\ (forall x, v_med e' x = v_med e x) /\
  v_port e' = v_port e /\ v_cmd e' = v_cmd e /\ v_left e' = v_left e.
Proof.
  intros Hq Hk Hf. cbv zeta. apply (for_range_inv (fun j e' => (forall x, v_mem e' x = if (a <=? x) && (x <? a + j) then f (x - a) else v_mem e x) /\
    (forall x, v_med e' x = v_med e x) /\ v_port e' = v_port e /\ v_cmd e' = v_cmd e /\ v_left e' = v_left e)); [done| |].
  - split; [|done]. intros x. zcase; done.
  - intros j e' Hj (H1 & H2 & H3 & H4 & H5). rewrite Z.add_0_l.
    destruct (ctl_st e' (a + j) (f j)) as (S1 & S2 & S3 & S4 & S5); [unfold quiet in *; by rewrite H4, H5|by apply Hf|].
    split_and!; [|intros x; by rewrite S2|congruence..]. intros x. rewrite S1, H1. destruct (Z.eqb_spec x (a + j)) as [->|]; [|zcase; done].
    zcase; try done. f_equal. lia.
Qed.

(** Bytes loaded while no command runs. *)
Lemma load_bytes (dst : list Z) off e a k : quiet e -> 0 <= k -> 0 <= off -> off + k <= lenZ dst ->
  let '(dst', e') := copy_out dst off a k e in
  length dst' = length dst /\ unmoved e e' /\ forall i, 0 <= i -> nthZ dst' i = if (off <=? i) && (i <? off + k) then v_mem e (a + (i - off)) else nthZ dst i.
Proof.
  intros Hq Hk Ho Hl. unfold copy_out.
  refine (for_range_inv (fun j (x : list Z * E) => let '(dst', e') := x in length dst' = length dst /\ unmoved e e' /\
    forall i, 0 <= i -> nthZ dst' i = if (off <=? i) && (i <? off + j) then v_mem e (a + (i - off)) else nthZ dst i) 0 k _ (dst, e) Hk _ _).
  - split; [done|]. split; [done|]. intros i Hi. zcase; done.
  - intros j [dst' e'] Hj (H1 & (S1 & S2 & S3 & S4 & S5) & H3). rewrite Z.add_0_l. destruct (ctl_ld e' (a + j)) as [L1 (L2 & L3 & L4 & L5 & L6)]; [unfold quiet in *; by rewrite S4, S5|].
    destruct (dma_ld e' (a + j)) as [v e2]. cbn [fst snd] in *. subst v. split; [by rewrite length_setZ|]. split.
    { split_and!; [intros x; by rewrite L2|intros x; by rewrite L3|congruence..]. }
    intros i Hi. rewrite nthZ_setZ by lia. rewrite H3 by done. rewrite S1. destruct (Z.eqb_spec i (off + j)) as [->|]; [|zcase; done]. zcase. f_equal. lia.
Qed.

(** Waiting for the completion of the command that runs. *)
Lemma poll_running spins : forall e cmd k, v_cmd e = Some cmd -> v_left e = Some k -> (k < spins)%nat ->
  nvme_cqe_is_new (mem32 e (entry_addr (v_port e) (c_tail (v_port e)) + 12)) (c_phase (v_port e)) = false ->
  exists w e0 e', poll_cqe spins (entry_addr (v_port e) (c_tail (v_port e)) + 12) (c_phase (v_port e)) e = (Some w, e') /\
    (forall a, v_mem e0 a = v_mem e a) /\ (forall a, v_med e0 a = v_med e a) /\ v_port e0 = v_port e /\
    nvme_cqe_is_new w (c_phase (v_port e)) = true /\ mem32 e' (entry_addr (v_port e) (c_tail (v_port e)) + 12) = w /\ v_cmd e' = None /\ v_port e' = port_posted (v_port e) /\
    effect ss cnt cmd (nvme_cqe_status w) e0 e'.
Proof.
  induction spins as [|spins IH]; intros e cmd k Hc Hl Hk Hold; [lia|]. cbn [poll_cqe]. destruct k as [|k].
  - pose proof (ctl_post e cmd Hc Hl) as H. cbv zeta in H. destruct (dma_ld32 e _) as [w e']. destruct H as (H1 & H2 & H3 & H4 & H5). rewrite H1.
    exists w, e, e'. done.
  - pose proof (ctl_wait e cmd k Hc Hl) as H. cbv zeta in H. destruct (dma_ld32 e _) as [w e']. destruct H as (-> & H2 & H3 & H4 & H5 & H6). rewrite Hold.
    destruct (IH e' cmd k H5 H6 ltac:(lia)) as (w & e0 & e2 & P1 & P2 & P3 & P4 & P5).
    { rewrite H4. rewrite <- Hold. f_equal. apply mem32_ext. intros; apply H2. }
    rewrite H4 in *. exists w, e0, e2. split; [done|]. split; [intros a; by rewrite P2|]. split; [intros a; by rewrite P3|]. done.
Qed.

Lemma poll_lost spins : forall e cmd a p, v_cmd e = Some cmd -> v_left e = None -> nvme_cqe_is_new (mem32 e a) p = false ->
  exists e', poll_cqe spins a p e = (None, e') /\ unmoved e e'.
Proof.
  induction spins as [|spins IH]; intros e cmd a p Hc Hl Hold; cbn [poll_cqe]; [by exists e|].
  destruct (ctl_lost e cmd Hc Hl) as [Hld _]. destruct (Hld a) as [H1 (S1 & S2 & S3 & S4 & S5)]. destruct (dma_ld32 e a) as [w e1]. cbn [fst snd] in *. subst w. rewrite Hold.
  destruct (IH e1 cmd a p) as (e' & -> & (T1 & T2 & T3 & T4 & T5)); [by rewrite S4|by rewrite S5|rewrite <- Hold; f_equal; apply mem32_ext; intros; apply S1|].
  exists e'. split; [done|]. split_and!; [intros x; by rewrite T1|intros x; by rewrite T2|congruence..].
Qed.

(** ** The state of the driver *)

Definition page_apart (a b : Z) : Prop := a + 4096 <= b \/ b + 4096 <= a.

(** The driver and the controller agree on the queue pair. *)
Record wired c e : Prop := {
  wi_size : n_sector_size c = ss; wi_xfer : sec_per_xfer c = 4096 / ss;
  wi_sq : c_sq (v_port e) = sq (io c); wi_cq : c_cq (v_port e) = cq (io c);
  wi_sqdb : c_sqdb (v_port e) = regs c + sq_doorbell c (qid (io c)); wi_cqdb : c_cqdb (v_port e) = regs c + cq_doorbell c (qid (io c));
  wi_dma : dma_phys c = dma c /\ dma c mod 4096 = 0 /\ 0 <= dma c < 2 ^ 64;
  wi_apart : page_apart (sq (io c)) (cq (io c)) /\ page_apart (sq (io c)) (dma c) /\ page_apart (cq (io c)) (dma c);
  wi_idx : 0 <= tail (io c) < QD /\ 0 <= head (io c) < QD /\ (phase (io c) = 0 \/ phase (io c) = 1) }.

Definition dw3_at q e (k : Z) : Z := mem32 e (cq q + k * CQE_BYTES + 12).

(** Idle: the entries before the head are of the current lap, the others of
    the lap before. *)
Record idle c e : Prop := {
  id_wired : wired c e; id_cmd : v_cmd e = None; id_head : c_head (v_port e) = tail (io c); id_tail : c_tail (v_port e) = head (io c);
  id_phase : c_phase (v_port e) = phase (io c);
  id_entries : forall k, 0 <= k < QD -> nvme_cqe_is_new (dw3_at (io c) e k) (phase (io c)) = (k <? head (io c)) }.

(** Dead: a command was lost. *)
Record dead c e : Prop := {
  de_wired : wired c e; de_cmd : exists cmd, v_cmd e = Some cmd /\ v_left e = None;
  de_entry : nvme_cqe_is_new (dw3_at (io c) e (head (io c))) (phase (io c)) = false }.

Definition same_fixed c c' : Prop := regs c' = regs c /\ dstrd c' = dstrd c /\ dma c' = dma c /\ dma_phys c' = dma_phys c /\
  n_sector_size c' = n_sector_size c /\ n_sector_count c' = n_sector_count c /\ sec_per_xfer c' = sec_per_xfer c.

Lemma phase_bit w p : p = 0 \/ p = 1 -> nvme_cqe_is_new w (1 - p) = negb (nvme_cqe_is_new w p).
Proof.
  intros Hp. unfold nvme_cqe_is_new. rewrite land_1_testbit. destruct (Z.testbit _ 0), Hp as [-> | ->]; done.
Qed.

Lemma phase_flip p : p = 0 \/ p = 1 -> p .^ 1 = 1 - p.
Proof. intros [-> | ->]; done. Qed.

Lemma index_step h : 0 <= h < QD -> u32 (h + 1) mod QD = (h + 1) mod QD /\ 0 <= (h + 1) mod QD < QD.
Proof. intros Hh. unfold QD in *. rewrite u32_small by lia. split; [done|]. apply Z.mod_pos_bound. lia. Qed.

(** The identifier changes no field the controller acts on. *)
Lemma put_cid_fields cmd cid : length cmd = 64%nat -> let cmd' := put_cid cmd cid in
  length cmd' = 64%nat /\ cmd_op cmd' = cmd_op cmd /\ cmd_prp cmd' = cmd_prp cmd /\ cmd_lba cmd' = cmd_lba cmd /\ cmd_nlb cmd' = cmd_nlb cmd.
Proof.
  intros Hl. cbv zeta. unfold put_cid. assert (forall i, 0 <= i -> i <> 2 -> i <> 3 -> nthZ (setZ (setZ cmd 2 (u8 cid)) 3 (u8 (cid .>> 8))) i = nthZ cmd i) as H by (intros i H0 H2 H3; by rewrite !nthZ_setZ_ne by lia).
  split; [by rewrite !length_setZ|]. unfold cmd_op, cmd_prp, cmd_lba, cmd_nlb. rewrite H by lia. split; [done|].
  split; [apply get64_ext; intros; apply H; lia|]. split; [apply get64_ext; intros; apply H; lia|]. do 2 f_equal. apply get32_ext. intros. apply H; lia.
Qed.

Lemma put_cid_ok cmd cid : bytes_ok cmd -> bytes_ok (put_cid cmd cid).
Proof. intros H. unfold put_cid. apply bytes_ok_setZ; [|apply u8_range]. apply bytes_ok_setZ; [done|apply u8_range]. Qed.

(** The transfer of a completed command, as the driver sees it: [d] is the
    data page. *)
Record moved cmd (status d : Z) e e' : Prop := {
  mv_med : med_kept ss cmd e e';
  mv_page : cmd_op cmd <> OP_READ -> forall o, 0 <= o < 4096 -> v_mem e' (d + o) = v_mem e (d + o);
  mv_data : status = 0 -> cmd_lba cmd + cmd_nlb cmd <= cnt -> cmd_nlb cmd * ss <= 4096 -> forall o, 0 <= o < cmd_nlb cmd * ss ->
    (cmd_op cmd = OP_READ -> v_mem e' (d + o) = v_med e (cmd_lba cmd * ss + o)) /\
    (cmd_op cmd = OP_WRITE -> v_med e' (cmd_lba cmd * ss + o) = v_mem e (d + o)) }.

(** ** One command *)

(** The command stored in its slot. *)
Lemma slot_stored c e cmd : wired c e -> quiet e -> length cmd = 64%nat -> bytes_ok cmd ->
  let e1 := for_range 0 SQE_BYTES (fun i e => dma_st e (sq (io c) + tail (io c) * SQE_BYTES + i) (nthZ cmd i)) e in
  (forall x, ~ (sq (io c) <= x < sq (io c) + 4096) -> v_mem e1 x = v_mem e x) /\ (forall x, v_med e1 x = v_med e x) /\
  v_port e1 = v_port e /\ v_cmd e1 = v_cmd e /\ v_left e1 = v_left e /\ mem_bytes e1 (sq (io c) + tail (io c) * SQE_BYTES) SQE_BYTES = cmd.
Proof.
  intros W Hq Hl Hok. cbv zeta. destruct (wi_idx _ _ W) as (Ht & _ & _). unfold QD in Ht.
  destruct (store_bytes (nthZ cmd) e (sq (io c) + tail (io c) * SQE_BYTES) SQE_BYTES Hq) as (S1 & S2 & S3 & S4 & S5); [done|intros; by apply nthZ_range|].
  unfold SQE_BYTES in *. split_and!; [|exact S2|exact S3|exact S4|exact S5|].
  - intros x Hx. rewrite S1. zcase.
  - apply nthZ_ext; [unfold mem_bytes; rewrite length_fmap, length_seqZ, Hl; done|]. intros i Hi. unfold mem_bytes in Hi. rewrite length_map_seqZ in Hi by lia.
    rewrite mem_bytes_nth by lia. rewrite S1. zcase. f_equal. lia.
Qed.

Lemma wired_keep c c' e e' : wired c e -> same_fixed c c' -> sq (io c') = sq (io c) -> cq (io c') = cq (io c) -> qid (io c') = qid (io c) ->
  c_sq (v_port e') = c_sq (v_port e) -> c_cq (v_port e') = c_cq (v_port e) -> c_sqdb (v_port e') = c_sqdb (v_port e) -> c_cqdb (v_port e') = c_cqdb (v_port e) ->
  0 <= tail (io c') < QD /\ 0 <= head (io c') < QD /\ (phase (io c') = 0 \/ phase (io c') = 1) -> wired c' e'.
Proof.
  intros [W1 W2 W3 W4 W5 W6 W7 W8 W9] (F1 & F2 & F3 & F4 & F5 & F6 & F7) Q1 Q2 Q3 P1 P2 P3 P4 Hidx.
  split; rewrite ?F1, ?F3, ?F4, ?F5, ?F7, ?Q1, ?Q2, ?Q3, ?P1, ?P2, ?P3, ?P4; try done; unfold sq_doorbell, cq_doorbell in *; by rewrite F2.
Qed.

Lemma entry_inside c e k x : wired c e -> 0 <= k < QD -> cq (io c) + k * CQE_BYTES + 12 <= x < cq (io c) + k * CQE_BYTES + 16 -> cq (io c) <= x < cq (io c) + 4096.
Proof. intros _ Hk Hx. unfold QD, CQE_BYTES in *. lia. Qed.

(** Entries are as before when the completion page is. *)
Lemma dw3_keep c e e' k : wired c e -> 0 <= k < QD -> (forall x, cq (io c) <= x < cq (io c) + 4096 -> v_mem e' x = v_mem e x) -> dw3_at (io c) e' k = dw3_at (io c) e k.
Proof. intros W Hk H. apply mem32_ext. intros x Hx. apply H. apply (entry_inside c e k); [done|done|lia]. Qed.

(** The queue after a completion. *)
Lemma idle_posted c c' e e' i : wired c e -> wired c' e' -> v_cmd e' = None -> io c' = q_set_head (q_set_tail (set_cid (io c) i) ((tail (io c) + 1) mod QD)) ((head (io c) + 1) mod QD) (if (head (io c) + 1) mod QD =? 0 then 1 - phase (io c) else phase (io c)) ->
  c_head (v_port e') = (tail (io c) + 1) mod QD -> c_tail (v_port e') = (head (io c) + 1) mod QD -> c_phase (v_port e') = (if (head (io c) + 1) mod QD =? 0 then 1 - phase (io c) else phase (io c)) ->
  (forall k, 0 <= k < QD -> nvme_cqe_is_new (dw3_at (io c) e k) (phase (io c)) = (k <? head (io c))) ->
  (forall k, 0 <= k < QD -> k <> head (io c) -> dw3_at (io c) e' k = dw3_at (io c) e k) -> nvme_cqe_is_new (dw3_at (io c) e' (head (io c))) (phase (io c)) = true ->
  idle c' e'.
Proof.
  intros W W' Hc Hio Hh Ht Hp He Hk Hn. split; [done|done| | | |]; rewrite Hio; unfold set_cid; cbn [q_set_head q_set_tail tail head phase cq]; try done.
  destruct (wi_idx _ _ W) as (_ & Hhead & Hph). intros k Hk0. unfold dw3_at in *. cbn [cq].
  assert (nvme_cqe_is_new (mem32 e' (cq (io c) + k * CQE_BYTES + 12)) (phase (io c)) = (k <? head (io c) + 1)) as Hall.
  { destruct (decide (k = head (io c))) as [->|Hne]; [rewrite Hn; symmetry; apply Z.ltb_lt; lia|]. rewrite Hk, He by done. zcase. }
  change (cq (q_set_head (q_set_tail (mkQ (sq (io c)) (cq (io c)) _ _ _ _ _ _ _) _) _ _)) with (cq (io c)). unfold QD in *. destruct (decide (head (io c) = 63)) as [E63|E63].
  - rewrite E63 in *. change ((63 + 1) mod 64) with 0. cbn [Z.eqb]. rewrite phase_bit by done. rewrite Hall. zcase.
  - rewrite Z.mod_small by lia. destruct (Z.eqb_spec (head (io c) + 1) 0); [lia|]. exact Hall.
Qed.

Lemma io_exec_idle cmd c e : idle c e -> length cmd = 64%nat -> bytes_ok cmd -> (cmd_op cmd = OP_READ -> cmd_prp cmd = dma c) -> (cmd_op cmd = OP_WRITE -> cmd_prp cmd = dma c) ->
  exists rc w c' e', io_exec cmd c e = (rc, w, c', e') /\ same_fixed c c' /\
  ((rc = BLK_OK /\ idle c' e' /\ moved cmd (nvme_cqe_status w) (dma c) e e') \/ (rc = BLK_E_TIMEOUT /\ dead c' e' /\ med_kept ss cmd e e')).
Proof.
  intros I Hl Hok Hr Hw. destruct I as [W Hcmd Hhead Htail Hphase Hent]. destruct (wi_idx _ _ W) as (Ti & Hi & Ph). destruct (wi_dma _ _ W) as (Hd1 & Hd2 & Hd3). destruct (wi_apart _ _ W) as (Ap1 & Ap2 & Ap3).
  unfold io_exec, queue_exec. cbv zeta. cbn [io set_io set_cid sq cq tail head phase qid regs]. set (cid := next_cid (io c)).
  destruct (put_cid_fields cmd cid Hl) as (Fl & Fo & Fp & Fa & Fn). pose proof (put_cid_ok cmd cid Hok) as Fok. set (cmd' := put_cid cmd cid) in *.
  destruct (slot_stored c e cmd' W (or_introl Hcmd) Fl Fok) as (S1 & S2 & S3 & S4 & S5 & S6). set (e1 := for_range 0 SQE_BYTES _ e) in *.
  destruct (index_step _ Ti) as [-> Hti]. set (t := (tail (io c) + 1) mod QD) in *. unfold wr32. cbn [regs io set_io q_set_tail sq cq tail head phase qid next_cid sq_phys cq_phys].
  change (sq_doorbell (set_io c _)) with (sq_doorbell c). change (cq_doorbell (set_io c _)) with (cq_doorbell c). rewrite <- (wi_sqdb _ _ W), <- S3.
  assert (v_cmd e1 = None) as S4' by (by rewrite S4). pose proof (ctl_ring e1 S4') as R. cbv zeta in R. rewrite S3, Hhead, (wi_sq _ _ W), S6 in R. fold t in R. rewrite S3.
  set (e2 := io_wr e1 (c_sqdb (v_port e)) t) in *. destruct R as (R1 & R2 & R3).
  assert (forall x, cq (io c) <= x < cq (io c) + 4096 -> v_mem e1 x = v_mem e x) as M1 by (intros x Hx; apply S1; unfold page_apart in *; lia).
  assert (entry_addr (v_port e2) (c_tail (v_port e2)) + 12 = cq (io c) + head (io c) * CQE_BYTES + 12) as Hadr by (rewrite R2; cbn; unfold entry_addr; cbn; by rewrite (wi_cq _ _ W), Htail).
  assert (c_phase (v_port e2) = phase (io c)) as Hph2 by (rewrite R2; cbn; done).
  destruct R3 as [(k & L1 & L2 & L3 & L4)|(L1 & L2 & L3)].
  - assert (nvme_cqe_is_new (mem32 e2 (entry_addr (v_port e2) (c_tail (v_port e2)) + 12)) (c_phase (v_port e2)) = false) as Hold.
    { rewrite Hadr, Hph2. transitivity (nvme_cqe_is_new (dw3_at (io c) e (head (io c))) (phase (io c))); [|rewrite Hent by done; apply Z.ltb_irrefl].
      f_equal. apply mem32_ext. intros x Hx. rewrite L3. apply M1. apply (entry_inside c e (head (io c))); [done..|lia]. }
    destruct (poll_running (Z.to_nat SPIN_LIMIT) e2 cmd' k R1 L1 ltac:(lia) Hold) as (w & e0 & e3 & P1 & P2 & P3 & P4 & P5 & P6 & P7 & P8 & P9).
    rewrite Hadr in P1, P6. rewrite Hph2 in P1, P5. unfold set_cid. cbn [cq head phase]. rewrite P1. destruct (index_step _ Hi) as [-> Hhi]. rewrite phase_flip by done.
    pose proof (ctl_ack e3 ((head (io c) + 1) mod QD) P7) as (A1 & A2 & A3 & A4 & A5). cbn [regs set_io].
    assert (regs c + cq_doorbell c (qid (io c)) = c_cqdb (v_port e3)) as -> by (rewrite P8, R2; cbn; symmetry; apply W).
    set (e4 := io_wr e3 _ _) in *. eexists BLK_OK, w, _, e4. split; [reflexivity|]. split; [done|]. left. split; [done|].
    assert (forall x, ~ (entry_addr (v_port e0) (c_tail (v_port e0)) <= x < entry_addr (v_port e0) (c_tail (v_port e0)) + CQE_BYTES) -> cmd_op cmd <> OP_READ \/ ~ (dma c <= x < dma c + 4096) -> v_mem e4 x = v_mem e1 x) as M4.
    { intros x Hx Hx'. rewrite A1, (ef_mem _ _ _ _ _ _ P9); [by rewrite P2, L3|done|]. rewrite Fo, Fp. destruct Hx' as [|Hx']; [by left|]. destruct (decide (cmd_op cmd = OP_READ)); [right; by rewrite Hr|by left]. }
    assert (entry_addr (v_port e0) (c_tail (v_port e0)) = cq (io c) + head (io c) * CQE_BYTES) as Hea by (rewrite P4; lia).
    rewrite Hea in M4. assert (Hr16 : 0 <= head (io c) * CQE_BYTES /\ head (io c) * CQE_BYTES + CQE_BYTES <= 4096) by (unfold QD, CQE_BYTES in *; lia).
    split.
    + eapply (idle_posted c _ e); [done| | | | | | |exact Hent| |].
      * eapply wired_keep; [exact W|done|done|done|done| | | | |]; rewrite ?A3, ?P8, ?R2; try done.
        cbn [io set_io q_set_head q_set_tail set_cid tail head phase]. split; [done|]. split; [done|]. destruct (_ =? 0); [|done]. destruct Ph as [-> | ->]; [right|left]; done.
      * by rewrite A4.
      * done.
      * by rewrite A3, P8, R2.
      * rewrite A3, P8, R2. cbn. by rewrite Htail.
      * rewrite A3, P8, R2. cbn. by rewrite Htail, Hphase.
      * intros j Hj Hne. apply mem32_ext. intros x Hx. rewrite M4; [apply M1; apply (entry_inside c e j); [done..|lia]|unfold CQE_BYTES in *; lia|].
        right. pose proof (entry_inside c e j x W Hj ltac:(unfold CQE_BYTES in *; lia)). unfold page_apart in *. lia.
      * unfold dw3_at. replace (mem32 e4 (cq (io c) + head (io c) * CQE_BYTES + 12)) with (mem32 e3 (cq (io c) + head (io c) * CQE_BYTES + 12)) by (symmetry; apply mem32_ext; intros; apply A1). by rewrite P6.
    + split.
      * intros a Ha. rewrite A2, (ef_med _ _ _ _ _ _ P9), P3, L4, S2; [done|]. by rewrite Fo, Fa, Fn.
      * intros Hnr o Ho. rewrite M4; [apply S1; unfold page_apart in *; lia|unfold page_apart in *; lia|by left].
      * intros Hst Hr1 Hr2 o Ho. pose proof (ef_data _ _ _ _ _ _ P9 Hst) as D. rewrite Fo, Fp, Fa, Fn in D. split; intros Hop.
        -- rewrite Hr in D by done. destruct (D Hd2 Hr1 Hr2 o Ho) as [D1 _]. by rewrite A1, D1, P3, L4, S2.
        -- rewrite Hw in D by done. destruct (D Hd2 Hr1 Hr2 o Ho) as [_ D1]. rewrite A2, D1, P2, L3 by done. apply S1. unfold page_apart in *. lia.
  - assert (nvme_cqe_is_new (mem32 e2 (cq (io c) + head (io c) * CQE_BYTES + 12)) (phase (io c)) = false) as Hold.
    { transitivity (nvme_cqe_is_new (dw3_at (io c) e (head (io c))) (phase (io c))); [|rewrite Hent by done; apply Z.ltb_irrefl].
      f_equal. apply mem32_ext. intros x Hx. pose proof (entry_inside c e _ x W Hi ltac:(unfold CQE_BYTES in *; lia)). rewrite L2; [by apply M1|].
      rewrite Fo, Fp. destruct (decide (cmd_op cmd = OP_READ)) as [Er|]; [right; rewrite Hr by done; unfold page_apart in *; lia|by left]. }
    unfold set_cid. cbn [cq head phase]. destruct (poll_lost (Z.to_nat SPIN_LIMIT) e2 cmd' _ (phase (io c)) R1 L1 Hold) as (e3 & -> & (T1 & T2 & T3 & T4 & T5)).
    eexists BLK_E_TIMEOUT, 0, _, e3. split; [reflexivity|]. split; [done|]. right. split; [done|]. split.
    + split.
      * eapply wired_keep; [exact W|done|done|done|done| | | | |]; rewrite ?T3, ?R2; done.
      * exists cmd'. by rewrite T4, T5.
      * cbn [io set_io q_set_tail set_cid head phase]. rewrite <- Hold. f_equal. apply mem32_ext. intros; apply T1.
    + intros a Ha. rewrite T2, L3, S2; [done|]. by rewrite Fo, Fa, Fn.
Qed.

Lemma io_exec_dead cmd c e : dead c e -> length cmd = 64%nat -> bytes_ok cmd ->
  exists w c' e', io_exec cmd c e = (BLK_E_TIMEOUT, w, c', e') /\ same_fixed c c' /\ dead c' e' /\ forall a, v_med e' a = v_med e a.
Proof.
  intros [W (cm & Hc & Hlf) He] Hl Hok. destruct (wi_idx _ _ W) as (Ti & Hi & Ph). destruct (wi_apart _ _ W) as (Ap1 & _ & _).
  unfold io_exec, queue_exec. cbv zeta. cbn [io set_io set_cid sq cq tail head phase qid regs]. set (cid := next_cid (io c)).
  destruct (put_cid_fields cmd cid Hl) as (Fl & _). pose proof (put_cid_ok cmd cid Hok) as Fok. set (cmd' := put_cid cmd cid) in *.
  destruct (slot_stored c e cmd' W (or_intror Hlf) Fl Fok) as (S1 & S2 & S3 & S4 & S5 & _). set (e1 := for_range 0 SQE_BYTES _ e) in *.
  destruct (index_step _ Ti) as [-> Hti]. unfold wr32, set_cid. cbn [regs io set_io q_set_tail sq cq tail head phase qid next_cid sq_phys cq_phys].
  destruct (ctl_lost e1 cm ltac:(by rewrite S4) ltac:(by rewrite S5)) as [_ Hwr]. destruct (Hwr (regs c + sq_doorbell (set_io c (mkQ (sq (io c)) (cq (io c)) (sq_phys (io c)) (cq_phys (io c)) (qid (io c)) (tail (io c)) (head (io c)) (phase (io c)) (u16 (cid + 1)))) (qid (io c))) ((tail (io c) + 1) mod QD)) as (R1 & R2 & R3 & R4 & R5).
  set (e2 := io_wr e1 _ _) in *.
  assert (forall x, cq (io c) <= x < cq (io c) + 4096 -> v_mem e2 x = v_mem e x) as M by (intros x Hx; rewrite R1; apply S1; unfold page_apart in *; lia).
  destruct (poll_lost (Z.to_nat SPIN_LIMIT) e2 cm (cq (io c) + head (io c) * CQE_BYTES + 12) (phase (io c))) as (e3 & -> & (T1 & T2 & T3 & T4 & T5)); [by rewrite R4, S4|by rewrite R5, S5| |].
  { rewrite <- He. f_equal. apply mem32_ext. intros x Hx. apply M. apply (entry_inside c e (head (io c))); [done..|lia]. }
  eexists 0, _, e3. split; [reflexivity|]. split; [done|]. split; [|intros a; by rewrite T2, R2, S2]. split.
  - eapply wired_keep; [exact W|done|done|done|done| | | | |]; rewrite ?T3, ?R3, ?S3; done.
  - exists cm. by rewrite T4, T5, R4, R5, S4, S5.
  - cbn [io set_io q_set_tail head phase]. rewrite <- He. f_equal. apply mem32_ext. intros x Hx. cbn [cq head] in Hx. rewrite T1. apply M. apply (entry_inside c e (head (io c))); [done..|lia].
Qed.

(** ** Sectors *)

Lemma rw_cmd_fields c op lba k : 0 <= op < 256 -> 0 <= dma_phys c < 2 ^ 64 -> 0 <= lba < 2 ^ 64 -> 1 <= k <= 65536 -> let cmd := rw_cmd c op lba k in
  length cmd = 64%nat /\ bytes_ok cmd /\ cmd_op cmd = op /\ cmd_prp cmd = dma_phys c /\ cmd_lba cmd = lba /\ cmd_nlb cmd = k.
Proof.
  intros Hop Hd Hl Hk. cbv zeta.
  change (rw_cmd c op lba k) with (Bytes.put32 (put64 (put64 (Bytes.put32 (setZ blank_cmd 0 op) 4 1) 24 (dma_phys c)) 40 lba) 48 (u32 (k - 1))).
  rewrite (u32_small (k - 1)) by lia. assert (bytes_ok (setZ blank_cmd 0 op)) as Hb by (apply bytes_ok_setZ; [apply bytes_ok_zeros|done]).
  assert (length (setZ blank_cmd 0 op) = 64%nat) as Hl0 by (rewrite length_setZ; done).
  assert (nthZ (setZ blank_cmd 0 op) 0 = op) as H0 by (by rewrite nthZ_setZ_eq by (cbn; lia)). generalize dependent (setZ blank_cmd 0 op). intros cmd Hb Hl0 H0.
  split; [flen; done|]. split; [fok|]. unfold cmd_op, cmd_prp, cmd_lba, cmd_nlb. fields. do 3 (split; [done|]).
  change 0xFFFF with (Z.ones 16). rewrite Z.land_ones, Z.mod_small by lia. lia.
Qed.

(** The device is ready: idle, or lost for good. *)
Definition ready c e : Prop := idle c e \/ dead c e.

Lemma ready_wired c e : ready c e -> wired c e.
Proof. by intros [[] | []]. Qed.

Lemma ready_quiet c e : ready c e -> quiet e.
Proof. intros [[_ H _ _ _ _] | [_ (cmd & _ & H) _]]; [by left|by right]. Qed.

Lemma ready_store c e f a k : ready c e -> 0 <= k -> dma c <= a -> a + k <= dma c + 4096 -> (forall i, 0 <= i < k -> 0 <= f i < 256) ->
  let e' := for_range 0 k (fun i e => dma_st e (a + i) (f i)) e in
  ready c e' /\ (forall x, v_mem e' x = if (a <=? x) && (x <? a + k) then f (x - a) else v_mem e x) /\ forall x, v_med e' x = v_med e x.
Proof.
  intros R Hk Ha Hb Hf. cbv zeta. destruct (store_bytes f e a k (ready_quiet _ _ R) Hk Hf) as (S1 & S2 & S3 & S4 & S5). split; [|done].
  pose proof (ready_wired _ _ R) as W. destruct (wi_apart _ _ W) as (_ & _ & Ap). set (e' := for_range _ _ _ e) in *.
  assert (wired c e') as W' by (eapply wired_keep; [exact W|done..| | | | |apply W]; by rewrite S3).
  assert (forall j, 0 <= j < QD -> dw3_at (io c) e' j = dw3_at (io c) e j) as Hd.
  { intros j Hj. apply (dw3_keep c); [done|done|]. intros x Hx. rewrite S1. unfold page_apart in Ap. zcase. }
  destruct R as [[_ H1 H2 H3 H4 H5] | [_ (cmd & H1 & H2) H3]].
  - left. split; rewrite ?S3; try done; [by rewrite S4|]. intros j Hj. by rewrite Hd, H5.
  - right. split; [done|exists cmd; by rewrite S4, S5|]. rewrite Hd; [done|apply W].
Qed.

Lemma ready_still c e e' : ready c e -> unmoved e e' -> ready c e'.
Proof.
  intros R (S1 & S2 & S3 & S4 & S5). pose proof (ready_wired _ _ R) as W.
  assert (wired c e') as W' by (eapply wired_keep; [exact W|done..| | | | |apply W]; by rewrite S3).
  assert (forall j, dw3_at (io c) e' j = dw3_at (io c) e j) as Hd by (intros j; apply mem32_ext; intros; apply S1).
  destruct R as [[_ H1 H2 H3 H4 H5] | [_ (cmd & H1 & H2) H3]].
  - left. split; rewrite ?S3; try done; [by rewrite S4|]. intros j Hj. by rewrite Hd, H5.
  - right. split; [done|exists cmd; by rewrite S4, S5|]. by rewrite Hd.
Qed.

(** One transfer through the data page. *)
Lemma io_rw_spec c e op lba k : ready c e -> op = OP_READ \/ op = OP_WRITE -> 0 <= lba < 2 ^ 64 -> 1 <= k <= 65536 -> k * ss <= 4096 -> lba + k <= cnt ->
  exists rc c' e', io_rw op lba k c e = (rc, c', e') /\ same_fixed c c' /\ ready c' e' /\
  (forall a, op <> OP_WRITE \/ ~ (lba * ss <= a < (lba + k) * ss) -> v_med e' a = v_med e a) /\
  (rc = BLK_OK -> forall o, 0 <= o < k * ss ->
    (op = OP_READ -> v_mem e' (dma c + o) = v_med e (lba * ss + o)) /\ (op = OP_WRITE -> v_med e' (lba * ss + o) = v_mem e (dma c + o))).
Proof.
  intros R Hop Hl Hk Hs Hr. pose proof (ready_wired _ _ R) as W. destruct (wi_dma _ _ W) as (Hd1 & _ & Hd3). unfold io_rw.
  destruct (rw_cmd_fields c op lba k) as (F1 & F2 & F3 & F4 & F5 & F6); [destruct Hop; subst; done|by rewrite Hd1|done|done|]. rewrite Hd1 in F4.
  destruct R as [I|D].
  - destruct (io_exec_idle (rw_cmd c op lba k) c e I F1 F2 ltac:(done) ltac:(done)) as (rc & w & c' & e' & -> & Hfix & [(-> & I' & [M1 M2 M3]) | (-> & D' & M1)]); cbn [Z.eqb negb BLK_OK BLK_E_TIMEOUT].
    + eexists _, c', e'. split; [reflexivity|]. split; [done|]. split; [by left|]. split.
      * intros a Ha. apply M1. by rewrite F3, F5, F6.
      * intros Hrc o Ho. rewrite F3, F5, F6 in M3. apply M3; [|done..]. destruct (Z.eqb_spec (nvme_cqe_status w) 0); [done|]. discriminate Hrc.
    + eexists _, c', e'. split; [reflexivity|]. split; [done|]. split; [by right|]. split; [|done]. intros a Ha. apply M1. by rewrite F3, F5, F6.
  - destruct (io_exec_dead (rw_cmd c op lba k) c e D F1 F2) as (w & c' & e' & -> & Hfix & D' & M). cbn [Z.eqb negb BLK_OK BLK_E_TIMEOUT].
    eexists _, c', e'. split; [reflexivity|]. split; [done|]. split; [by right|]. split; [|done]. intros a _. apply M.
Qed.

(** ** Requests *)

Class NvmeGeometry : Prop := nvme_geometry : 512 <= ss <= 4096 /\ 0 <= cnt /\ cnt * ss < 2 ^ 64.
Context {G : NvmeGeometry}.

Lemma xfer_bounds : 1 <= 4096 / ss <= 8 /\ 4096 / ss * ss <= 4096.
Proof.
  destruct G as (Hs & _ & _). pose proof (Z.mul_div_le 4096 ss ltac:(lia)). split; [|lia]. split.
  - apply Z.div_le_lower_bound; lia.
  - apply Z.div_le_upper_bound; lia.
Qed.

(** The size of a round: at least one sector, at most a page. *)
Lemma round_size c e count : wired c e -> 0 < count -> let nlb := if count <? sec_per_xfer c then count else sec_per_xfer c in
  1 <= nlb <= count /\ nlb <= 8 /\ nlb * ss <= 4096 /\ u32 (nlb * n_sector_size c) = nlb * ss.
Proof.
  intros W Hc. cbv zeta. rewrite (wi_xfer _ _ W), (wi_size _ _ W). destruct xfer_bounds as [Hx1 Hx2]. destruct G as (Hs & _ & _).
  assert (forall k, 1 <= k <= 4096 / ss -> k * ss <= 4096) as Hk by (intros k Hk; nia).
  destruct (Z.ltb_spec count (4096 / ss)); (split; [lia|]; split; [lia|]; split; [apply Hk; lia|]; rewrite u32_small; [done|]);
    (split; [nia|]; eapply Z.le_lt_trans; [apply Hk; lia|lia]).
Qed.

Lemma fixed_trans c1 c2 c3 : same_fixed c1 c2 -> same_fixed c2 c3 -> same_fixed c1 c3.
Proof. unfold same_fixed. intuition congruence. Qed.

Lemma sector_read_loop_spec fuel : forall lba count dst off n, ready (ctx n) (env n) -> 0 <= lba -> 0 <= count <= Z.of_nat fuel -> lba + count <= cnt ->
  0 <= off -> off + count * ss <= lenZ dst -> bytes_ok dst ->
  let '(rc, dst', n') := sector_read_loop fuel lba count dst off n in
  ready (ctx n') (env n') /\ length dst' = length dst /\ bytes_ok dst' /\ (forall a, v_med (env n') a = v_med (env n) a) /\
  (forall i, 0 <= i < off -> nthZ dst' i = nthZ dst i) /\
  (rc = BLK_OK -> forall o, 0 <= o < count * ss -> nthZ dst' (off + o) = v_med (env n) (lba * ss + o)).
Proof.
  induction fuel as [|fuel IH]; intros lba count dst off n R Hl Hc Hr Ho Hb Hok; cbn [sector_read_loop].
  { assert (count = 0) as -> by lia. split_and!; try done. intros _ o Ho'. lia. }
  destruct (Z.ltb_spec 0 count); cbn [negb]; [|assert (count = 0) as -> by lia; split_and!; try done; intros _ o Ho'; lia].
  pose proof (ready_wired _ _ R) as W. destruct (round_size _ _ count W ltac:(lia)) as (N1 & N2 & N3 & N4). set (k := if count <? sec_per_xfer (ctx n) then count else sec_per_xfer (ctx n)) in *.
  destruct G as (Hs & Hcnt & H64). assert (cnt < 2 ^ 64) by nia.
  destruct (io_rw_spec (ctx n) (env n) OP_READ lba k R) as (rc & c' & e' & -> & Hfix & R' & M1 & M2); [by left|lia|lia|done|lia|].
  assert (forall a, v_med e' a = v_med (env n) a) as Hmed by (intros a; apply M1; by left).
  destruct (Z.eqb_spec rc BLK_OK) as [->|Hrc]; cbn [negb]; [|split_and!; done].
  destruct Hfix as (F1 & F2 & F3 & F4 & F5 & F6 & F7). rewrite F5, N4, F3.
  assert (k * ss <= count * ss) by nia. assert (0 <= k * ss) by nia.
  pose proof (load_bytes dst off e' (dma (ctx n)) (k * ss) (ready_quiet _ _ R') ltac:(lia) Ho ltac:(lia)) as L.
  destruct (copy_out dst off (dma (ctx n)) (k * ss) e') as [dst1 e1]. destruct L as (L1 & L2 & L3).
  assert (bytes_ok dst1) as Hok1.
  { apply bytes_ok_nth. intros i Hi. rewrite L3 by lia. destruct (_ && _); [apply (ctl_mem_range (ss := ss) (cnt := cnt))|by apply nthZ_range]. }
  rewrite u64_small by lia.
  specialize (IH (lba + k) (count - k) dst1 (off + k * ss) (mkNvme c' e1) (ready_still _ _ _ R' L2) ltac:(lia) ltac:(lia) ltac:(lia) ltac:(lia)).
  destruct (sector_read_loop fuel (lba + k) (count - k) dst1 (off + k * ss) (mkNvme c' e1)) as [[rc dst2] n2]. cbn [ctx env] in IH.
  destruct IH as (I1 & I2 & I3 & I4 & I5 & I6); [rewrite L1; nia|done|].
  assert (forall a, v_med e1 a = v_med (env n) a) as Hmed1 by (intros a; rewrite (proj1 (proj2 L2)); apply Hmed).
  split_and!; [done|congruence|done|intros a; by rewrite I4| |].
  - intros i Hi. rewrite I5, L3 by lia. zcase; done.
  - intros Hrc o Ho'. destruct (Z.lt_ge_cases o (k * ss)) as [Hlt|Hge].
    + rewrite I5, L3 by lia. replace ((off <=? off + o) && (off + o <? off + k * ss)) with true by (symmetry; zcase). replace (off + o - off) with o by lia.
      destruct (M2 eq_refl o ltac:(lia)) as [-> _]; done.
    + specialize (I6 Hrc (o - k * ss)). replace (off + k * ss + (o - k * ss)) with (off + o) in I6 by lia. rewrite I6 by nia. rewrite Hmed1. f_equal. ring.
Qed.

Lemma sector_write_loop_spec fuel : forall lba count src off n, ready (ctx n) (env n) -> 0 <= lba -> 0 <= count <= Z.of_nat fuel -> lba + count <= cnt ->
  0 <= off -> bytes_ok src ->
  let '(rc, n') := sector_write_loop fuel lba count src off n in
  ready (ctx n') (env n') /\ (forall a, ~ (lba * ss <= a < (lba + count) * ss) -> v_med (env n') a = v_med (env n) a) /\
  (rc = BLK_OK -> forall o, 0 <= o < count * ss -> v_med (env n') (lba * ss + o) = nthZ src (off + o)).
Proof.
  induction fuel as [|fuel IH]; intros lba count src off n R Hl Hc Hr Ho Hok; cbn [sector_write_loop].
  { assert (count = 0) as -> by lia. split_and!; try done. intros _ o Ho'. lia. }
  destruct (Z.ltb_spec 0 count); cbn [negb]; [|assert (count = 0) as -> by lia; split_and!; try done; intros _ o Ho'; lia].
  pose proof (ready_wired _ _ R) as W. destruct (round_size _ _ count W ltac:(lia)) as (N1 & N2 & N3 & N4). rewrite N4. set (k := if count <? sec_per_xfer (ctx n) then count else sec_per_xfer (ctx n)) in *.
  destruct G as (Hs & Hcnt & H64). assert (cnt < 2 ^ 64) by nia. assert (0 <= k * ss) by nia.
  destruct (ready_store (ctx n) (env n) (fun i => nthZ src (off + i)) (dma (ctx n)) (k * ss) R) as (R1 & S1 & S2); [lia..|intros; by apply nthZ_range|].
  unfold copy_in. set (e1 := for_range 0 (k * ss) _ (env n)) in *.
  destruct (io_rw_spec (ctx n) e1 OP_WRITE lba k R1) as (rc & c' & e' & -> & Hfix & R' & M1 & M2); [by right|lia|lia|done|lia|].
  assert (forall a, ~ (lba * ss <= a < (lba + k) * ss) -> v_med e' a = v_med (env n) a) as Hmed by (intros a Ha; rewrite M1 by (by right); apply S2).
  destruct (Z.eqb_spec rc BLK_OK) as [->|Hrc]; cbn [negb].
  2: { split; [done|]. split; [|done]. intros a Ha. apply Hmed. nia. }
  rewrite u64_small by lia.
  specialize (IH (lba + k) (count - k) src (off + k * ss) (mkNvme c' e') R' ltac:(lia) ltac:(lia) ltac:(lia) ltac:(lia) Hok).
  destruct (sector_write_loop fuel (lba + k) (count - k) src (off + k * ss) (mkNvme c' e')) as [rc n2]. cbn [ctx env] in IH. destruct IH as (I1 & I2 & I3).
  split; [done|]. split.
  - intros a Ha. rewrite I2 by nia. apply Hmed. nia.
  - intros Hrc o Ho'. destruct (Z.lt_ge_cases o (k * ss)) as [Hlt|Hge].
    + rewrite I2 by nia. destruct (M2 eq_refl o ltac:(lia)) as [_ ->]; [|done]. rewrite S1. replace ((dma (ctx n) <=? dma (ctx n) + o) && (dma (ctx n) + o <? dma (ctx n) + k * ss)) with true by (symmetry; zcase). do 2 f_equal. lia.
    + specialize (I3 Hrc (o - k * ss)). replace ((lba + k) * ss + (o - k * ss)) with (lba * ss + o) in I3 by ring. rewrite I3 by nia. f_equal. lia.
Qed.

Definition nvme_dev : BlkDev (Nvme (E := E)) := Blk.mkDev (Some g_nvme_ops) ss cnt.

#[export] Program Instance nvme_block_device : BlockDevice nvme_dev := {| bd_ok n := ready (ctx n) (env n); bd_byte n := v_med (env n) |}.
Next Obligation. destruct G as (H1 & H2 & H3). cbn. lia. Qed.
Next Obligation. intros n a _. apply (ctl_med_range (ss := ss) (cnt := cnt)). Qed.
Next Obligation.
  intros n lba k buf R Hl Hk Hr Hlen Hok. cbn in *. unfold nvme_read.
  pose proof (sector_read_loop_spec (Z.to_nat k) lba k buf 0 n R Hl ltac:(lia) Hr ltac:(lia) ltac:(lia) Hok) as H.
  destruct (sector_read_loop _ _ _ _ _ n) as [[rc dst] n']. destruct H as (H1 & H2 & H3 & H4 & _ & H6). split_and!; [done|done|done|intros; apply H4|exact H6].
Qed.
Next Obligation.
  intros n lba k buf R Hl Hk Hr Hlen Hok. cbn in *. unfold nvme_write.
  pose proof (sector_write_loop_spec (Z.to_nat k) lba k buf 0 n R Hl ltac:(lia) Hr ltac:(lia) Hok) as H.
  destruct (sector_write_loop _ _ _ _ _ n) as [rc n']. destruct H as (H1 & H2 & H3). split_and!; [done|intros a _; apply H2|exact H3].
Qed.
End Correct.


(** * Bring-up *)

Section Init.
Context {E : Type} `{B : Bus E} {Cfg : Type} `{CS : ConfigSpace Cfg}.

(** The arguments [nvme_init] accepts. *)
Definition init_args (d : option PciDev) (has_out : bool) : bool :=
  match d with
  | None => false
  | Some d => has_out && (class_code d =? 0x01) && (subclass d =? 0x08) && negb (nthZ (bar d) 0 =? 0) && negb (nthZ (bar_size d) 0 =? 0)
  end.

Lemma lbads_size id : nvme_lbads_from_identify id <> 0 ->
  let size := u32 (1 .<< nvme_lbads_from_identify id) in (size = 512 \/ size = 1024 \/ size = 2048 \/ size = 4096) /\ BOUNCE_BYTES / size * size = BOUNCE_BYTES.
Proof.
  unfold nvme_lbads_from_identify. set (l := nthZ id _). cbv zeta. destruct (Z.ltb_spec l 9); cbn [orb]; [done|]. destruct (Z.ltb_spec 12 l); [done|]. intros _.
  assert (l = 9 \/ l = 10 \/ l = 11 \/ l = 12) as [-> | [-> | [-> | ->]]] by lia; (split; [|done]); vm_compute; tauto.
Qed.

Definition geometry_ok (c : NvmeCtx) : Prop :=
  (n_sector_size c = 512 \/ n_sector_size c = 1024 \/ n_sector_size c = 2048 \/ n_sector_size c = 4096) /\
  n_sector_count c <> 0 /\ sec_per_xfer c = BOUNCE_BYTES / n_sector_size c /\ 1 <= sec_per_xfer c.

Lemma admin_fixed cmd c (e : E) : let '(rc, dw3, c', e') := admin_exec cmd c e in
  (rc = BLK_OK \/ rc = BLK_E_TIMEOUT) /\ same_fixed c c' /\ io c' = io c.
Proof.
  unfold admin_exec, queue_exec. cbv zeta. destruct (poll_cqe _ _ _ _) as [[w|] e']; (split; [auto|done]).
Qed.

Lemma identify_geometry c (e : E) : let '(rc, c', e') := identify_namespace c e in
  (rc = BLK_OK \/ rc = BLK_E_IO \/ rc = BLK_E_TIMEOUT) /\ (rc = BLK_OK -> geometry_ok c').
Proof.
  unfold identify_namespace. cbv zeta. pose proof (admin_fixed (dw_put32 (dw_put64 (dw_put32 (setZ blank_cmd 0 ADM_IDENTIFY) 1 1) 6 (dma_phys c)) 10 0) c e) as A.
  destruct (admin_exec _ c e) as [[[rc dw3] c1] e1]. destruct A as ([-> | ->] & _); cbn [Z.eqb negb BLK_OK BLK_E_TIMEOUT]; [|split; [auto|done]].
  destruct (nvme_cqe_status dw3 =? 0); cbn [negb]; [|split; [auto|done]]. destruct (copy_out _ _ _ _ _) as [id e2].
  destruct (Z.eqb_spec (nvme_nsze_from_identify id) 0); cbn [orb]; [split; [auto|done]|].
  destruct (Z.eqb_spec (nvme_lbads_from_identify id) 0) as [|Hl]; [split; [auto|done]|]. split; [auto|]. intros _.
  destruct (lbads_size id Hl) as [Hs Hx]. unfold geometry_ok, set_geometry. cbn [n_sector_size n_sector_count sec_per_xfer]. split_and!; try done.
  destruct Hs as [-> | [-> | [-> | ->]]]; vm_compute; congruence.
Qed.

Lemma create_queues_fixed c (e : E) : let '(rc, c', e') := create_io_queues c e in
  (rc = BLK_OK \/ rc = BLK_E_IO \/ rc = BLK_E_TIMEOUT) /\ same_fixed c c'.
Proof.
  unfold create_io_queues. cbv zeta. match goal with |- context [admin_exec ?cmd c e] => pose proof (admin_fixed cmd c e) as A; destruct (admin_exec cmd c e) as [[[rc dw3] c1] e1] end.
  destruct A as ([-> | ->] & F1 & _); cbn [Z.eqb negb BLK_OK BLK_E_TIMEOUT]; [|auto]. destruct (nvme_cqe_status dw3 =? 0); cbn [negb]; [|auto].
  match goal with |- context [admin_exec ?cmd c1 e1] => pose proof (admin_fixed cmd c1 e1) as A; destruct (admin_exec cmd c1 e1) as [[[rc dw3'] c2] e2] end.
  destruct A as ([-> | ->] & F2 & _); cbn [Z.eqb negb BLK_OK BLK_E_TIMEOUT]; [|split; [auto|by eapply fixed_trans]]. destruct (nvme_cqe_status dw3' =? 0); cbn [negb]; (split; [auto|by eapply fixed_trans]).
Qed.

Lemma wait_codes k want c (e : E) : (wait_loop k want c e).1 = BLK_OK \/ (wait_loop k want c e).1 = BLK_E_TIMEOUT.
Proof. revert e. induction k as [|k IH]; intros e; cbn [wait_loop]; [auto|]. destruct (rd32 c REG_CSTS e) as [v e']. destruct (_ =? want); [auto|apply IH]. Qed.

Lemma nvme_init_any (d : option PciDev) (has_out : bool) (m : @NvmeMachine E Cfg) :
  let '(rc, dv, m') := nvme_init d has_out m in
  (rc = BLK_OK \/ rc = BLK_E_ARG \/ rc = BLK_E_IO \/ rc = BLK_E_TIMEOUT) /\
  (rc = BLK_E_ARG <-> init_args d has_out = false) /\ (rc = BLK_E_ARG -> m' = m) /\
  (rc = BLK_OK -> geometry_ok (ctx (nv m')) /\ dv = Some (Blk.mkDev (Some g_nvme_ops) (n_sector_size (ctx (nv m'))) (n_sector_count (ctx (nv m'))))) /\
  (rc <> BLK_OK -> dv = None).
Proof.
  unfold nvme_init, init_args. destruct d as [d|]; [|split_and!; auto; done].
  destruct has_out; cbn [negb andb]; [|split_and!; auto; done].
  destruct (class_code d =? 1); cbn [negb orb andb]; [|split_and!; auto; done]. destruct (subclass d =? 8); cbn [negb orb andb]; [|split_and!; auto; done].
  destruct (nthZ (bar d) 0 =? 0); cbn [negb orb andb]; [split_and!; auto; done|]. destruct (nthZ (bar_size d) 0 =? 0); cbn [negb orb andb]; [split_and!; auto; done|].
  assert (forall rc n ks pci, rc = BLK_E_IO \/ rc = BLK_E_TIMEOUT -> (rc = BLK_OK \/ rc = BLK_E_ARG \/ rc = BLK_E_IO \/ rc = BLK_E_TIMEOUT) /\ (rc = BLK_E_ARG <-> true = false) /\ (rc = BLK_E_ARG -> mkNvmeMachine Cfg n ks pci = m) /\
    (rc = BLK_OK -> geometry_ok (ctx (nv (mkNvmeMachine Cfg n ks pci))) /\ (None : option (BlkDev (Nvme (E := E)))) = Some (Blk.mkDev (Some g_nvme_ops) (n_sector_size (ctx (nv (mkNvmeMachine Cfg n ks pci)))) (n_sector_count (ctx (nv (mkNvmeMachine Cfg n ks pci)))))) /\
    (rc <> BLK_OK -> (None : option (BlkDev (Nvme (E := E)))) = None)) as Fail.
  { intros rc n ks pci [-> | ->]; split_and!; auto; done. }
  destruct (pci_enable _ _) as [r pci]. destruct (r =? 0); cbn [negb]; [|apply Fail; auto].
  destruct (xpt_map_uncached _ _ _) as [[r2 va] ks]. destruct (r2 =? 0); cbn [negb]; [|apply Fail; auto].
  cbv zeta. destruct (rd64 _ _ _) as [cap e1]. destruct (wait_rdy _ _ _) as [rw1 e2]. destruct (rw1 =? BLK_OK); cbn [negb]; [|apply Fail; auto].
  destruct (queue_alloc _ _ _ _) as [[[r3 q3] ks3] e3]. destruct (r3 =? BLK_OK); cbn [negb]; [|apply Fail; auto].
  destruct (queue_alloc _ _ _ _) as [[[r4 q4] ks4] e4]. destruct (r4 =? BLK_OK); cbn [negb]; [|apply Fail; auto].
  destruct (alloc_zeroed _ _) as [[[r5 p5] ks5] e5]. destruct (r5 =? BLK_OK); cbn [negb]; [|apply Fail; auto].
  destruct (wait_rdy _ _ _) as [rw2 e6]. destruct (rw2 =? BLK_OK); cbn [negb]; [|apply Fail; auto].
  match goal with |- context [identify_namespace ?c ?e] => pose proof (identify_geometry c e) as Gm; destruct (identify_namespace c e) as [[r7 c7] e7] end.
  destruct Gm as ([-> | [-> | ->]] & Gm); cbn [Z.eqb negb BLK_OK BLK_E_TIMEOUT BLK_E_IO]; [|apply Fail; auto..].
  pose proof (create_queues_fixed c7 e7) as Q. destruct (create_io_queues c7 e7) as [[r8 c8] e8].
  destruct Q as ([-> | [-> | ->]] & (F1 & F2 & F3 & F4 & F5 & F6 & F7)); cbn [Z.eqb negb BLK_OK BLK_E_TIMEOUT BLK_E_IO]; [|apply Fail; auto..].
  split_and!; auto; try done. intros _. cbn [nv ctx]. unfold geometry_ok in *. rewrite F5, F6, F7. split; [by apply Gm|]. reflexivity.
Qed.

End Init.

(** ** The choice of the disk *)

Lemma same_str_spec a b : Forall (fun x => x <> 0) b -> same_str a b = true -> a = b \/ exists r, a = b ++ 0 :: r.
Proof.
  revert b. induction a as [|x a IH]; intros b Hb; cbn [same_str].
  - destruct b as [|y b]; [by left|]. intros H. apply Forall_cons in Hb as [Hy _]. change (nthZ (y :: b) 0) with y in H. lia.
  - destruct b as [|y b].
    + change (nthZ [] 0) with 0. destruct (Z.eqb_spec x 0) as [->|]; cbn [negb andb]; [|done]. intros _. right. by exists a.
    + change (nthZ (y :: b) 0) with y. cbn [List.tl]. apply Forall_cons in Hb as [Hy Hb]. destruct (Z.eqb_spec x 0) as [->|]; cbn [negb andb]; [intros H; lia|].
      destruct (Z.eqb_spec x y) as [->|]; [|done]. intros H. destruct (IH b Hb H) as [->|(r & ->)]; [by left|right; by exists r].
Qed.

(** Opening the disk: once open nothing changes; otherwise a device with a sane
    geometry is there exactly when the answer is [STORAGE_OK], the answer
    [STORAGE_ENODEV] means the scan found no NVMe controller, and a test disk
    has the serial number of one. *)
Lemma storage_open_spec {E : Type} `{B : Bus E} {Cfg : Type} `{CS : ConfigSpace Cfg} {CL : ConfigLaws Cfg} (st : @Storage E Cfg) :
  exists rc st', storage_open st = Some (rc, st') /\
  (g_open st = true -> rc = STORAGE_OK /\ st' = st) /\
  (g_open st = false ->
    (rc = STORAGE_OK -> exists dv, storage_device st' = Some dv /\ (sector_size dv = 512 \/ sector_size dv = 1024 \/ sector_size dv = 2048 \/ sector_size dv = 4096) /\ sector_count dv <> 0) /\
    (rc <> STORAGE_OK -> storage_device st' = None) /\
    (rc = STORAGE_ENODEV -> Forall (fun d => ~ (class_code d = 0x01 /\ subclass d = 0x08)) (g_devs (m_pci (s_m st'))))).
Proof.
  unfold storage_open. destruct (g_open st) eqn:Eo; [exists STORAGE_OK, st; done|].
  destruct (pci_scan_table (m_pci (s_m st))) as (r & pci & -> & _). cbn [mbind option_bind].
  rewrite pci_find_spec. destruct (_ !! _) as [d|] eqn:Ef.
  2: { eexists _, _. split; [reflexivity|]. split; [done|]. intros _. split; [done|]. split; [intros _; done|]. intros _. cbn [s_m m_pci].
       apply Forall_forall. intros d Hd [H1 H2]. apply lookup_ge_None in Ef. assert (d ∈ filter (fun d => matches 1 8 255 d = true) (g_devs pci)) as Hin.
       { apply list_elem_of_filter. split; [|done]. unfold matches. rewrite H1, H2. done. }
       change (PCI_ANY_PROGIF) with 255 in Ef. destruct (filter (fun d0 => matches 1 8 255 d0 = true) (g_devs pci)); [by apply elem_of_nil in Hin|]. cbn in Ef. lia. }
  pose proof (nvme_init_any (Some d) true (mkNvmeMachine Cfg (nv (s_m st)) (m_ks (s_m st)) pci)) as N.
  destruct (nvme_init (Some d) true _) as [[rc dv] m]. destruct N as (N1 & N2 & _ & N4 & N5). destruct (Z.eqb_spec rc BLK_OK) as [->|Hrc]; cbn [negb].
  - destruct (nvme_controller_serial true 24 (nv m)) as [[rs serial] n]. eexists _, _. split; [reflexivity|]. split; [done|]. intros _. destruct (N4 eq_refl) as [(G1 & G2 & _) ->].
    split; [|split; done]. intros _. unfold storage_device. cbn. by eexists.
  - eexists _, _. split; [reflexivity|]. split; [done|]. intros _. split; [by intros ->|]. split; [intros _; done|]. intros ->. destruct N1 as [|[|[|]]]; discriminate.
Qed.

(** * A controller *)

(** One that completes a command at the first poll, and refuses the transfers
    it has no obligation to serve. *)
Record Sim := mkSim { s_mem : Z -> Z; s_med : Z -> Z; s_head : Z; s_tail : Z; s_phase : Z; s_cmd : option (list Z); s_left : option nat }.

Definition sim_sqdb : Z := 0xF0001008.
Definition sim_cqdb : Z := 0xF000100C.
Definition sim_ss : Z := 512.
Definition sim_cnt : Z := 8.

#[local] Instance sim_view : View Sim := {|
  v_mem s a := u8 (s_mem s a); v_med s a := u8 (s_med s a);
  v_port s := mkPort 0x10000 0x11000 sim_sqdb sim_cqdb (s_head s) (s_tail s) (s_phase s); v_cmd := s_cmd; v_left := s_left |}.

Definition sim_entry (s : Sim) : Z := 0x11000 + s_tail s * CQE_BYTES.

(** What the controller accepts: an aligned page apart from the entry, sectors
    of the namespace, no more than the page. *)
Definition sim_accepts (s : Sim) (cmd : list Z) : bool :=
  (cmd_lba cmd + cmd_nlb cmd <=? sim_cnt) && (cmd_nlb cmd * sim_ss <=? 4096) &&
  ((cmd_prp cmd + 4096 <=? sim_entry s) || (sim_entry s + CQE_BYTES <=? cmd_prp cmd)).

Definition sim_transfer (s : Sim) (cmd : list Z) : (Z -> Z) * (Z -> Z) :=
  let len := cmd_nlb cmd * sim_ss in
  if cmd_op cmd =? OP_READ then
    ((fun a => if (cmd_prp cmd <=? a) && (a <? cmd_prp cmd + len) then s_med s (cmd_lba cmd * sim_ss + (a - cmd_prp cmd)) else s_mem s a), s_med s)
  else if cmd_op cmd =? OP_WRITE then
    (s_mem s, (fun a => if (cmd_lba cmd * sim_ss <=? a) && (a <? cmd_lba cmd * sim_ss + len) then s_mem s (cmd_prp cmd + (a - cmd_lba cmd * sim_ss)) else s_med s a))
  else (s_mem s, s_med s).

(** The third double word, and the entry in memory. *)
Definition sim_dw3 (s : Sim) (ok : bool) : Z := ((if ok then 0 else 1) .<< 17) .| ((s_phase s .& 1) .<< 16).

Definition sim_post (s : Sim) (cmd : list Z) : Z * Sim :=
  let ok := sim_accepts s cmd in
  let w := sim_dw3 s ok in
  let '(m, d) := if ok then sim_transfer s cmd else (s_mem s, s_med s) in
  let a := sim_entry s + 12 in
  let m := upd (upd (upd (upd m a (u8 w)) (a + 1) (u8 (w .>> 8))) (a + 2) (u8 (w .>> 16))) (a + 3) (u8 (w .>> 24)) in
  let t := (s_tail s + 1) mod QD in
  (w, mkSim m d (s_head s) t (if t =? 0 then 1 - s_phase s else s_phase s) None None).

#[local] Instance sim_bus : Bus Sim := {|
  io_rd s _ := (0, s);
  io_wr s a v := match s_cmd s with
    | None => if a =? sim_sqdb then mkSim (s_mem s) (s_med s) v (s_tail s) (s_phase s) (Some (mem_bytes s (0x10000 + s_head s * SQE_BYTES) SQE_BYTES)) (Some O) else s
    | Some _ => s end;
  dma_ld s a := (u8 (s_mem s a), s);
  dma_ld32 s a := match s_cmd s, s_left s with
    | Some cmd, Some O => if a =? sim_entry s + 12 then sim_post s cmd else (mem32 s a, s)
    | Some cmd, Some (S k) => (mem32 s a, mkSim (s_mem s) (s_med s) (s_head s) (s_tail s) (s_phase s) (Some cmd) (Some k))
    | _, _ => (mem32 s a, s) end;
  dma_st s a v := mkSim (upd (s_mem s) a v) (s_med s) (s_head s) (s_tail s) (s_phase s) (s_cmd s) (s_left s) |}.

Lemma dw3_fields (p : Z) (ok : bool) : let w := ((if ok then 0 else 1) .<< 17) .| ((p .& 1) .<< 16) in
  nvme_cqe_is_new w p = true /\ nvme_cqe_status w = (if ok then 0 else 1) /\ 0 <= w < 2 ^ 32.
Proof.
  cbv zeta. unfold nvme_cqe_is_new. rewrite (land_1_testbit p). destruct ok, (Z.testbit p 0); vm_compute; split_and!; congruence.
Qed.

Lemma stored_word m a w : 0 <= w < 2 ^ 32 ->
  get32 ((fun x => u8 (upd (upd (upd (upd m a (u8 w)) (a + 1) (u8 (w .>> 8))) (a + 2) (u8 (w .>> 16))) (a + 3) (u8 (w .>> 24)) x)) <$> seqZ a 4) 0 = w.
Proof.
  intros Hw. transitivity (get32 (Bytes.put32 (replicate 4 0) 0 w) 0); [|apply get32_put32; [apply bytes_ok_zeros|lia|cbn; lia|done]]. apply get32_ext. intros j Hj. rewrite nthZ_map_seqZ by lia.
  rewrite nthZ_put32 by (cbn; lia). replace ((0 <=? j) && (j <? 0 + 4)) with true by (symmetry; zcase).
  assert (forall x, u8 (u8 x) = u8 x) as Hu by (intros x; apply u8_small, u8_range).
  assert (j = 0 \/ j = 1 \/ j = 2 \/ j = 3) as [-> | [-> | [-> | ->]]] by lia; unfold upd; repeat (case_decide; [try lia|]); try lia; rewrite ?Hu; rewrite ?Z.shiftr_0_r; done.
Qed.

Lemma sim_posts s cmd : s_cmd s = Some cmd -> s_left s = Some O ->
  let '(w, s') := sim_post s cmd in
  nvme_cqe_is_new w (s_phase s) = true /\ mem32 s' (sim_entry s + 12) = w /\ v_cmd s' = None /\ v_port s' = port_posted (v_port s) /\
  effect sim_ss sim_cnt cmd (nvme_cqe_status w) s s'.
Proof.
  intros Hc Hl. unfold sim_post. destruct (dw3_fields (s_phase s) (sim_accepts s cmd)) as (W1 & W2 & W3). fold (sim_dw3 s (sim_accepts s cmd)) in *.
  set (w := sim_dw3 s (sim_accepts s cmd)) in *.
  assert (forall m x, ~ (sim_entry s <= x < sim_entry s + CQE_BYTES) -> upd (upd (upd (upd m (sim_entry s + 12) (u8 w)) (sim_entry s + 12 + 1) (u8 (w .>> 8))) (sim_entry s + 12 + 2) (u8 (w .>> 16))) (sim_entry s + 12 + 3) (u8 (w .>> 24)) x = m x) as Hout.
  { intros m x Hx. unfold CQE_BYTES in *. rewrite !upd_ne by lia. done. }
  assert (entry_addr (v_port s) (c_tail (v_port s)) = sim_entry s) as Hea by done.
  destruct (sim_accepts s cmd) eqn:Ea.
  - unfold sim_accepts in Ea. rewrite !andb_true_iff, orb_true_iff in Ea. destruct Ea as [[A1 A2] A3]. unbool.
    destruct (sim_transfer s cmd) as [m d] eqn:Et. unfold sim_transfer in Et. split; [done|]. split; [by apply stored_word|]. split; [done|]. split; [done|]. rewrite W2. split.
    + intros a Ha. cbn. f_equal. destruct (Z.eqb_spec (cmd_op cmd) OP_READ) as [Eo|Eo]; [by injection Et as <- <-|].
      destruct (Z.eqb_spec (cmd_op cmd) OP_WRITE) as [Ew|Ew]; injection Et as <- <-; [|done]. destruct Ha as [|Ha]; [done|]. zcase; nia.
    + intros a Ha Ha'. rewrite Hea in Ha. cbn. f_equal. rewrite Hout by done. destruct (Z.eqb_spec (cmd_op cmd) OP_READ) as [Eo|Eo].
      * injection Et as <- <-. destruct Ha' as [|Ha']; [done|]. zcase; done.
      * destruct (cmd_op cmd =? OP_WRITE); by injection Et as <- <-.
    + intros _ _ _ _ o Ho. split; intros Eo; rewrite Eo in Et; cbn in Et; injection Et as <- <-; cbn; f_equal.
      * rewrite Hout by (unfold sim_ss in *; lia). replace ((cmd_prp cmd <=? cmd_prp cmd + o) && (cmd_prp cmd + o <? cmd_prp cmd + cmd_nlb cmd * sim_ss)) with true by (symmetry; zcase). f_equal. lia.
      * replace ((cmd_lba cmd * sim_ss <=? cmd_lba cmd * sim_ss + o) && (cmd_lba cmd * sim_ss + o <? cmd_lba cmd * sim_ss + cmd_nlb cmd * sim_ss)) with true by (symmetry; zcase). f_equal. lia.
  - split; [done|]. split; [by apply stored_word|]. split; [done|]. split; [done|]. rewrite W2. split.
    + intros a _. done.
    + intros a Ha _. rewrite Hea in Ha. cbn. f_equal. by rewrite Hout.
    + done.
Qed.

#[local] Instance sim_controller : Controller Sim sim_ss sim_cnt.
Proof.
  split.
  - intros s a. apply u8_range.
  - intros s a. apply u8_range.
  - intros s a _. split; [done|apply unmoved_refl].
  - intros s a v _ Hv. cbv zeta. split; [|done]. intros x. cbn. unfold upd. destruct (Z.eqb_spec x a) as [->|]; [rewrite decide_True by done; by apply u8_small|by rewrite decide_False].
  - intros s Hc. cbv zeta. cbn in Hc |- *. rewrite Hc. cbn. split; [done|]. split; [done|]. left. exists O. split; [done|]. split; [done|]. done.
  - intros s cmd k Hc Hl. cbv zeta. cbn in Hc, Hl |- *. rewrite Hc, Hl. split_and!; done.
  - intros s cmd Hc Hl. cbv zeta. cbn in Hc, Hl |- *. rewrite Hc, Hl. change (entry_addr _ _ + 12) with (sim_entry s + 12). rewrite Z.eqb_refl. by apply sim_posts.
  - intros s v Hc. cbn in Hc |- *. rewrite Hc. apply unmoved_refl.
  - intros s cmd Hc Hl. cbn in Hc, Hl |- *. rewrite Hc, Hl. split; [intros a; split; [done|apply unmoved_refl]|intros a v; apply unmoved_refl].
Qed.

(** The state after bring-up. *)
Definition sim_queue : Queue := mkQ 0x10000 0x11000 0x10000 0x11000 1 0 0 1 1.
Definition sim_ctx : NvmeCtx := mkCtx 0xF0000000 0 sim_queue sim_queue 0x12000 0x12000 sim_cnt sim_ss 8.
Definition sim_nvme : Nvme := mkNvme sim_ctx (mkSim (fun _ => 0) (fun a => a) 0 0 1 None None).

Lemma sim_ready : ready sim_ss (ctx sim_nvme) (env sim_nvme).
Proof.
  left. split; try reflexivity.
  - split; try reflexivity; try (vm_compute; tauto).
    + split; [reflexivity|]. split; [reflexivity|]. vm_compute. split; congruence.
    + split_and!; vm_compute; (left + right); congruence.
    + split_and!; vm_compute; try congruence; by right.
  - intros k Hk. unfold dw3_at. replace (mem32 _ _) with 0 by (vm_compute; reflexivity). cbn [head sim_nvme sim_ctx io sim_queue ctx]. symmetry. apply Z.ltb_ge. lia.
Qed.

#[local] Instance sim_geometry : NvmeGeometry sim_ss sim_cnt.
Proof. unfold NvmeGeometry, sim_ss, sim_cnt. lia. Qed.

