(* ===== verification/ExfsDefs.v ===== *)
(** Constants of [source/core/exfs/exfs.h] and [gmap.h], bit strings in byte
    buffers, and the volume's 4 KiB blocks over the sectors of a device. *)

From S2P Require Import Prelude.
From S2P Require Import Bytes.
From S2P Require Import Blk.

Definition EXFS_BLOCK : Z := 4096.
Definition EXFS_MAX_BLOCKS : Z := 1 .<< 24.
Definition EXFS_INODES : Z := 128.
Definition EXFS_NAME_MAX : Z := 95.
Definition EXFS_INL : Z := 8.
Definition EXFS_IND_EXT : Z := 254.
Definition EXFS_MAX_EXT : Z := 2048.
Definition EXFS_MAX_CHAIN : Z := 16.
Definition EXFS_ITAB_BLOCKS : Z := 8.
Definition EXFS_ITAB_AREA0 : Z := 2.
Definition EXFS_ITAB_AREA1 : Z := EXFS_ITAB_AREA0 + EXFS_ITAB_BLOCKS.
Definition EXFS_DATA_START : Z := EXFS_ITAB_AREA1 + EXFS_ITAB_BLOCKS.
Definition EXFS_DEFER_MAX : Z := 8192.
Definition EXFS_POOL_EXT : Z := 16384.

Definition EXFS_OK : Z := 0.
Definition EXFS_ENOENT : Z := -1.
Definition EXFS_ENOSPC : Z := -2.
Definition EXFS_EIO : Z := -3.
Definition EXFS_ENOFS : Z := -4.
Definition EXFS_EEXIST : Z := -5.
Definition EXFS_EINVAL : Z := -6.
Definition EXFS_EBROKEN : Z := -7.
Definition EXFS_ENOMEM : Z := -8.
Definition EXFS_EISDIR : Z := -9.
Definition EXFS_ENOTEMPTY : Z := -10.
Definition EXFS_TYPE_FILE : Z := 0.
Definition EXFS_TYPE_DIR : Z := 1.

Definition GMAP_MAX_GROUPS : Z := 512.
Definition GMAP_CACHE : Z := 8.
Definition GMAP_GROUP_MAX : Z := 32768.
Definition GMAP_GROUP_MIN : Z := 64.
Definition GMAP_OK : Z := 0.
Definition GMAP_EIO : Z := -1.
Definition GMAP_ENOSPC : Z := -2.
Definition GMAP_EUSED : Z := -3.

(** * Blocks of a device *)

Section Blocks.
Context {D : Type} (d : BlkDev D) `{!BlockDevice d}.

(** The 4096 bytes of block [b]. *)
Definition block (s : D) (b : Z) : list Z := (fun o => bd_byte s (b * EXFS_BLOCK + o)) <$> seqZ 0 EXFS_BLOCK.

Lemma length_block s b : length (block s b) = 4096%nat.
Proof. unfold block. by rewrite length_fmap, length_seqZ. Qed.

Lemma block_nth s b o : 0 <= o < 4096 -> nthZ (block s b) o = bd_byte s (b * 4096 + o).
Proof. intros. unfold block. by rewrite nthZ_map_seqZ. Qed.

Lemma block_bytes_ok s b : bd_ok s -> bytes_ok (block s b).
Proof.
  intros Hs. apply bytes_ok_nth. rewrite length_block. intros o Ho. rewrite block_nth by lia. by apply bd_byte_range.
Qed.

Lemma block_same s s' b : 0 <= b -> (forall a, b * 4096 <= a < b * 4096 + 4096 -> bd_byte s' a = bd_byte s a) -> block s' b = block s b.
Proof.
  intros Hb H. apply nthZ_ext; rewrite !length_block; [done|]. intros i Hi. rewrite !block_nth by lia. apply H. lia.
Qed.

Lemma block_eq s b page : length page = 4096%nat -> (forall o, 0 <= o < 4096 -> bd_byte s (b * 4096 + o) = nthZ page o) ->
  block s b = page.
Proof.
  intros Hl H. apply nthZ_ext; rewrite length_block; [done|]. intros i Hi. rewrite block_nth by lia. apply H. lia.
Qed.

(** Sectors per block, for a sector size that divides it. *)
Definition spb_of (spb : Z) : Prop := 0 < spb /\ spb * sector_size d = 4096.

(** One block through the request layer. *)
Lemma block_read_spec s b spb buf : bd_ok s -> spb_of spb -> 0 <= b < 2 ^ 48 -> length buf = 4096%nat -> bytes_ok buf ->
  exists rc buf' s', blk_read (Some d) (u64 (b * spb)) spb (Some buf) s = (rc, Some buf', s') /\ bd_ok s' /\
    length buf' = 4096%nat /\ bytes_ok buf' /\ (forall b, 0 <= b -> block s' b = block s b) /\ (rc = BLK_OK -> buf' = block s b).
Proof.
  intros Hs [Hp Hsp] Hb Hl Hok. pose proof bd_geometry as (G1 & G2 & G3).
  assert (spb <= 4096) by nia. rewrite u64_small by nia.
  destruct (blk_read_spec d s (b * spb) spb buf) as (rc & b' & s' & -> & Hs' & Hl' & Hok' & Hsame & Hrd); [done|nia|lia|lia|done|].
  exists rc, b', s'. split_and!; [done|done|lia|done| |].
  - intros b0 Hb0. apply block_same; [done|]. intros a Ha. apply Hsame. lia.
  - intros Hrc. symmetry. apply block_eq; [lia|]. intros o Ho. rewrite Hrd by (done || lia).
    rewrite <- Z.mul_assoc, Hsp. done.
Qed.

Lemma block_write_spec s b spb buf : bd_ok s -> spb_of spb -> 0 <= b < 2 ^ 48 -> length buf = 4096%nat -> bytes_ok buf ->
  exists rc s', blk_write (Some d) (u64 (b * spb)) spb (Some buf) s = (rc, s') /\ bd_ok s' /\
    (forall b', 0 <= b' -> b' <> b -> block s' b' = block s b') /\ (rc = BLK_OK -> block s' b = buf).
Proof.
  intros Hs [Hp Hsp] Hb Hl Hok. pose proof bd_geometry as (G1 & G2 & G3).
  assert (spb <= 4096) by nia. rewrite u64_small by nia.
  destruct (blk_write_spec d s (b * spb) spb buf) as (rc & s' & -> & Hs' & Hsame & Hwr); [done|nia|lia|lia|done|].
  exists rc, s'. split_and!; [done|done| |].
  - intros b0 Hb0 Hne. apply block_same; [done|]. intros a Ha. apply Hsame; [lia|]. nia.
  - intros Hrc. apply block_eq; [done|]. intros o Ho. rewrite <- (Hwr Hrc) by lia.
    f_equal. rewrite <- Hsp. lia.
Qed.

Context `{!FailStop d}.

(** The medium is the same. *)
Definition same_disk (s s' : D) : Prop := forall b, 0 <= b -> block s' b = block s b.

Lemma same_bytes s s' : (forall a, 0 <= a -> bd_byte s' a = bd_byte s a) -> same_disk s s'.
Proof. intros H b Hb. apply block_same; [done|]. intros a Ha. apply H. lia. Qed.

(** A request on a device that has stopped. *)
Definition frozen (s s' : D) : Prop := bd_ok s' /\ bd_dead s' = true /\ same_disk s s'.

Lemma block_write_frozen s b spb buf : bd_ok s -> bd_dead s = true ->
  exists rc s', blk_write (Some d) (u64 (b * spb)) spb (Some buf) s = (rc, s') /\ rc <> BLK_OK /\ frozen s s'.
Proof.
  intros Hs Hd. destruct (blk_write_frozen d s (u64 (b * spb)) spb buf Hs Hd) as (rc & s' & -> & Hrc & Hs' & Hd' & Hsame).
  eexists _, _. split; [done|]. unfold frozen; split_and!; [done|done|done|]. by apply same_bytes.
Qed.

Lemma block_read_frozen s b spb buf : bd_ok s ->
  exists rc buf' s', blk_read (Some d) (u64 (b * spb)) spb (Some buf) s = (rc, Some buf', s') /\
    bd_ok s' /\ bd_dead s' = bd_dead s /\ same_disk s s'.
Proof.
  intros Hs. destruct (blk_read_frozen d s (u64 (b * spb)) spb buf Hs) as (rc & b' & s' & -> & Hs' & Hd' & Hsame).
  eexists _, _, _. split; [done|]. split_and!; [done|done|]. by apply same_bytes.
Qed.

(** Blocks of the device. *)
Definition on_dev (b : Z) : Prop := 0 <= b < 2 ^ 48 /\ (b + 1) * 4096 <= sector_count d * sector_size d.

Lemma block_write_live s b spb buf : bd_ok s -> bd_dead s = false -> spb_of spb -> on_dev b -> length buf = 4096%nat -> bytes_ok buf ->
  exists rc s', blk_write (Some d) (u64 (b * spb)) spb (Some buf) s = (rc, s') /\ bd_ok s' /\
    (forall b', 0 <= b' -> b' <> b -> block s' b' = block s b') /\
    (bd_dead s' = false -> rc = BLK_OK) /\ (rc = BLK_OK -> block s' b = buf).
Proof.
  intros Hs Hd Hsp [Hb Hr] Hl Hok. destruct (block_write_spec s b spb buf Hs Hsp Hb Hl Hok) as (rc & s' & E & Hs' & Hsame & Hw).
  exists rc, s'. split_and!; [done|done|done| |done]. intros Hd'.
  pose proof (blk_write_live d s (u64 (b * spb)) spb buf Hs Hd) as H. rewrite E in H. destruct H as [H|[_ H]]; [congruence|].
  destruct Hsp as [Hp Hsp]. pose proof bd_geometry as (G1 & G2 & G3). assert (spb <= 4096) by nia.
  rewrite u64_small in H by nia. apply H; nia.
Qed.

Lemma block_read_live s b spb buf : bd_ok s -> spb_of spb -> on_dev b -> length buf = 4096%nat -> bytes_ok buf ->
  exists s', blk_read (Some d) (u64 (b * spb)) spb (Some buf) s = (BLK_OK, Some (block s b), s') /\ bd_ok s' /\
    bd_dead s' = bd_dead s /\ same_disk s s'.
Proof.
  intros Hs Hsp [Hb Hr] Hl Hok. destruct (block_read_spec s b spb buf Hs Hsp Hb Hl Hok) as (rc & b' & s' & E & Hs' & _ & _ & Hsame & Hw).
  destruct (block_read_frozen s b spb buf Hs) as (rc1 & b1 & s1 & E1 & _ & Hd & _). rewrite E in E1. simplify_eq.
  assert (rc1 = BLK_OK) as Hrc.
  { destruct Hsp as [Hp Hsp]. pose proof bd_geometry as (G1 & G2 & G3). assert (spb <= 4096) by nia.
    pose proof (blk_read_live d s (u64 (b * spb)) spb buf Hs) as Hv. rewrite E in Hv. rewrite u64_small in Hv by nia. apply Hv; nia. }
  exists s1. rewrite <- (Hw Hrc), <- Hrc. by split_and!.
Qed.
End Blocks.
