(* ===== verification/Sb.v ===== *)
(** The EXFS superblock: model of [source/core/exfs/sb.c] and [sb.h]. *)

From S2P Require Import Prelude.
From S2P Require Import Bytes.
From S2P Require Import Blk.
From S2P Require Import ExfsDefs.

Definition SB_VERSION : Z := 3.
Definition SB_MAX_GROUPS : Z := GMAP_MAX_GROUPS.
Definition SB_CHECK_OFF : Z := 4088.
Definition SB_OK : Z := 0.
Definition SB_EBAD : Z := -1.
Definition SB_ECHECK : Z := -2.
Definition SB_EFIELD : Z := -3.

Record SbFields := mkSb {
  sb_gen : Z; sb_itab : Z; sb_nitab : Z; sb_ninodes : Z; sb_total : Z; sb_ngroups : Z;
  sb_slot : list Z;
  sb_free : list Z
}.

(** "XASMFS2" and a zero byte. *)
Definition MAGIC : list Z := [88; 65; 83; 77; 70; 83; 50; 0].

Definition fnv_step (h b : Z) : Z := u64 ((h .^ b) * 1099511628211).

Definition fnv64 (p : list Z) (n : Z) : Z :=
  for_range 0 n (fun i h => fnv_step h (nthZ p i)) 14695981039346656037.

Definition fields_ok (f : SbFields) : bool :=
  if (sb_ngroups f =? 0) || (SB_MAX_GROUPS <? sb_ngroups f) then false else
  if negb (sb_itab f =? EXFS_ITAB_AREA0) && negb (sb_itab f =? EXFS_ITAB_AREA1) then false else
  if negb (sb_nitab f =? EXFS_ITAB_BLOCKS) then false else
  if negb (sb_ninodes f =? EXFS_INODES) then false else
  if (sb_total f <? EXFS_DATA_START + 16) || (EXFS_MAX_BLOCKS <? sb_total f) then false else
  if negb (sb_itab f =? (if tst (sb_gen f .& 1) then EXFS_ITAB_AREA1 else EXFS_ITAB_AREA0)) then false else
  forallb (fun g => negb (1 <? nthZ (sb_slot f) g)) (seqZ 0 (sb_ngroups f)) &&
  forallb (fun g => negb (negb (nthZ (sb_slot f) g =? 0) || negb (nthZ (sb_free f) g =? 0)))
    (seqZ (sb_ngroups f) (SB_MAX_GROUPS - sb_ngroups f)).

(** The body of the loop over the groups. *)
Definition put_group (f : SbFields) (g : Z) (page : list Z) : list Z :=
  put32 (setZ page (64 + g) (nthZ (sb_slot f) g)) (576 + g * 4) (nthZ (sb_free f) g).

(** The stores of the header fields. *)
Definition sb_head (p : list Z) (f : SbFields) : list Z :=
  put32 (put64 (put32 (put32 (put64 (put64 (put32 p 8 SB_VERSION) 16 (sb_gen f)) 24 (sb_itab f)) 32 (sb_nitab f))
    36 (sb_ninodes f)) 40 (sb_total f)) 48 (sb_ngroups f).

Definition sb_encode (page : list Z) (f : SbFields) : Z * list Z :=
  if negb (fields_ok f) then (SB_EFIELD, page) else
  let page := for_range 0 EXFS_BLOCK (fun i p => setZ p i 0) page in
  let page := for_range 0 8 (fun i p => setZ p i (nthZ MAGIC i)) page in
  let page := sb_head page f in
  let page := for_range 0 SB_MAX_GROUPS (put_group f) page in
  (SB_OK, put64 page SB_CHECK_OFF (fnv64 page SB_CHECK_OFF)).

Definition sb_decode (page : list Z) (f : SbFields) : Z * SbFields :=
  if negb (forallb (fun i => nthZ page i =? nthZ MAGIC i) (seqZ 0 8)) then (SB_EBAD, f) else
  if negb (get32 page 8 =? SB_VERSION) then (SB_EBAD, f) else
  if negb (get64 page SB_CHECK_OFF =? fnv64 page SB_CHECK_OFF) then (SB_ECHECK, f) else
  let f := mkSb (get64 page 16) (get64 page 24) (get32 page 32) (get32 page 36) (get64 page 40) (get32 page 48)
    ((fun g => nthZ page (64 + g)) <$> seqZ 0 SB_MAX_GROUPS)
    ((fun g => get32 page (576 + g * 4)) <$> seqZ 0 SB_MAX_GROUPS) in
  ((if fields_ok f then SB_OK else SB_EFIELD), f).

(** * The C type of the fields *)

Record sb_typed (f : SbFields) : Prop := {
  st_gen : 0 <= sb_gen f < 2 ^ 64;
  st_itab : 0 <= sb_itab f < 2 ^ 64;
  st_nitab : 0 <= sb_nitab f < 2 ^ 32;
  st_ninodes : 0 <= sb_ninodes f < 2 ^ 32;
  st_total : 0 <= sb_total f < 2 ^ 64;
  st_ngroups : 0 <= sb_ngroups f < 2 ^ 32;
  st_slot_len : length (sb_slot f) = 512%nat;
  st_free_len : length (sb_free f) = 512%nat;
  st_slot : forall g, 0 <= g < 512 -> 0 <= nthZ (sb_slot f) g < 256;
  st_free : forall g, 0 <= g < 512 -> 0 <= nthZ (sb_free f) g < 2 ^ 32
}.

(** * The checksum *)

Lemma fnv_snoc p n : 0 <= n -> fnv64 p (n + 1) = fnv_step (fnv64 p n) (nthZ p n).
Proof.
  intros Hn. unfold fnv64, for_range. rewrite seqZ_app by lia. rewrite fold_left_app.
  rewrite (seqZ_cons (0 + n) 1), seqZ_nil by lia. cbn [fold_left]. by rewrite Z.add_0_l.
Qed.

Lemma fnv_ext p q n : (forall i, 0 <= i < n -> nthZ p i = nthZ q i) -> fnv64 p n = fnv64 q n.
Proof.
  intros H. destruct (Z.leb_spec n 0); [unfold fnv64; by rewrite !for_range_0 by lia|].
  revert H. pattern n. apply natlike_ind; [done| |lia]. clear n H0. intros n Hn IH H.
  replace (Z.succ n) with (n + 1) by lia. rewrite !fnv_snoc, IH, H by (done || lia || (intros; apply H; lia)). done.
Qed.

Lemma fnv_range p n : 0 <= n -> 0 <= fnv64 p n < 2 ^ 64.
Proof.
  intros Hn. destruct (Z.eq_dec n 0) as [->|]; [unfold fnv64; rewrite for_range_0 by lia; done|].
  replace n with (n - 1 + 1) by lia. rewrite fnv_snoc by lia. apply u64_range.
Qed.

(** The multiplier is odd, so it has an inverse modulo 2^64. *)
Lemma fnv_mul_inj x y : 0 <= x < 2 ^ 64 -> 0 <= y < 2 ^ 64 ->
  u64 (x * 1099511628211) = u64 (y * 1099511628211) -> x = y.
Proof.
  intros Hx Hy H. unfold u64 in H.
  assert (forall z, 0 <= z < 2 ^ 64 -> z = ((z * 1099511628211) mod 2 ^ 64 * 14886173955864302971) mod 2 ^ 64) as Hi.
  { intros z Hz. rewrite Z.mul_mod_idemp_l, <- Z.mul_assoc, <- Z.mul_mod_idemp_r by done.
    replace ((1099511628211 * 14886173955864302971) mod 2 ^ 64) with 1 by reflexivity.
    rewrite Z.mul_1_r. by rewrite Z.mod_small. }
  rewrite (Hi x Hx), (Hi y Hy), H. done.
Qed.

Lemma lxor_cancel_l a b c : a .^ b = a .^ c -> b = c.
Proof.
  intros H. rewrite <- (Z.lxor_0_l b), <- (Z.lxor_0_l c), <- (Z.lxor_nilpotent a), !Z.lxor_assoc. by rewrite H.
Qed.

Lemma fnv_step_inj h b h' b' : 0 <= h < 2 ^ 64 -> 0 <= h' < 2 ^ 64 -> 0 <= b < 256 -> 0 <= b' < 256 ->
  fnv_step h b = fnv_step h' b' -> h .^ b = h' .^ b'.
Proof. intros Hh Hh' Hb Hb'. apply fnv_mul_inj; apply lxor_bound; lia. Qed.

(** Two buffers that differ in one byte have different checksums. *)
Lemma fnv_one_byte p q n k : bytes_ok p -> bytes_ok q -> 0 <= k < n -> nthZ p k <> nthZ q k ->
  (forall i, 0 <= i < n -> i <> k -> nthZ p i = nthZ q i) -> fnv64 p n <> fnv64 q n.
Proof.
  intros Hp Hq Hk Hne Hsame. assert (forall m, 0 <= m -> k + 1 + m <= n -> fnv64 p (k + 1 + m) <> fnv64 q (k + 1 + m)) as H.
  { intros m Hm. pattern m. apply natlike_ind; [| |done]; clear m Hm.
    - intros _. rewrite Z.add_0_r, !fnv_snoc by lia. intros E.
      apply fnv_step_inj in E; [|apply fnv_range; lia|apply fnv_range; lia|by apply nthZ_range|by apply nthZ_range].
      rewrite (fnv_ext p q k) in E by (intros; apply Hsame; lia). by apply lxor_cancel_l in E.
    - intros m Hm IH Hle E. replace (k + 1 + Z.succ m) with (k + 1 + m + 1) in E by lia. rewrite !fnv_snoc in E by lia.
      apply fnv_step_inj in E; [|apply fnv_range; lia|apply fnv_range; lia|by apply nthZ_range|by apply nthZ_range].
      rewrite (Hsame (k + 1 + m)) in E by lia. rewrite !(Z.lxor_comm _ (nthZ q _)) in E. apply lxor_cancel_l in E.
      apply IH; [lia|done]. }
  specialize (H (n - k - 1) ltac:(lia) ltac:(lia)). by replace (k + 1 + (n - k - 1)) with n in H by lia.
Qed.

(** * Encoding *)

(** A loop that stores a byte per index. *)
Lemma setZ_loop (f : Z -> Z) p n : 0 <= n <= lenZ p -> bytes_ok p -> (forall i, 0 <= i < n -> 0 <= f i < 256) ->
  let p' := for_range 0 n (fun i p => setZ p i (f i)) p in
  length p' = length p /\ bytes_ok p' /\ (forall o, 0 <= o -> nthZ p' o = if o <? n then f o else nthZ p o).
Proof.
  intros Hn Hok Hf. cbn zeta.
  refine (for_range_inv (fun k b => length b = length p /\ bytes_ok b /\
    (forall o, 0 <= o -> nthZ b o = if o <? k then f o else nthZ p o)) 0 n _ p ltac:(lia) _ _).
  - split_and!; [done|done|]. intros o Ho. by zcase.
  - intros k b Hk (Hl & Hb & Ho). rewrite Z.add_0_l. split_and!; [by rewrite length_setZ|apply bytes_ok_setZ; auto|].
    intros o Ho'. rewrite nthZ_setZ by lia. rewrite Ho by done. zcase; by subst.
Qed.

(** The group loop: slots are bytes from 64, free counts words from 576. *)
Lemma put_groups f p : sb_typed f -> length p = 4096%nat -> bytes_ok p ->
  let p' := for_range 0 512 (put_group f) p in
  length p' = 4096%nat /\ bytes_ok p' /\
  (forall g, 0 <= g < 512 -> nthZ p' (64 + g) = nthZ (sb_slot f) g) /\
  (forall g, 0 <= g < 512 -> get32 p' (576 + g * 4) = nthZ (sb_free f) g) /\
  (forall o, 0 <= o -> ~ (64 <= o < 2624) -> nthZ p' o = nthZ p o).
Proof.
  intros Hf Hl Hok. cbn zeta.
  refine (for_range_inv (fun k b => length b = 4096%nat /\ bytes_ok b /\
    (forall g, 0 <= g < k -> nthZ b (64 + g) = nthZ (sb_slot f) g) /\
    (forall g, 0 <= g < k -> get32 b (576 + g * 4) = nthZ (sb_free f) g) /\
    (forall o, 0 <= o -> ~ (64 <= o < 2624) -> nthZ b o = nthZ p o)) 0 512 _ p ltac:(lia) _ _).
  { split_and!; [done|done|lia|lia|done]. }
  intros k b Hk (Hbl & Hb & H1 & H2 & H3). rewrite Z.add_0_l. unfold put_group.
  set (q := setZ b (64 + k) (nthZ (sb_slot f) k)).
  assert (length q = 4096%nat) as Hql by (unfold q; by rewrite length_setZ).
  assert (bytes_ok q) as Hq by (apply bytes_ok_setZ; [done|apply (st_slot f Hf); lia]).
  assert (forall o, 0 <= o -> nthZ q o = if o =? 64 + k then nthZ (sb_slot f) k else nthZ b o) as Hqn.
  { intros o Ho. unfold q. rewrite nthZ_setZ by lia. done. }
  split_and!.
  - by rewrite length_put32.
  - by apply bytes_ok_put32.
  - intros g Hg. rewrite nthZ_put32_ne, Hqn by (unfold field_apart; lia). zcase; [f_equal; lia|apply H1; lia].
  - intros g Hg. destruct (Z.eq_dec g k) as [->|]; [apply get32_put32; [done|lia|lia|apply (st_free f Hf); lia]|].
    rewrite get32_put32_ne by (unfold field_apart; lia). rewrite <- H2 by lia. apply get32_ext. intros j Hj. rewrite Hqn by lia. by zcase.
  - intros o Ho Hout. rewrite nthZ_put32_ne, Hqn by (unfold field_apart; lia). zcase; by apply H3.
Qed.

(** What an encoded page holds. *)
Record encodes (f : SbFields) (page : list Z) : Prop := {
  en_len : length page = 4096%nat;
  en_bytes : bytes_ok page;
  en_magic : forall i, 0 <= i < 8 -> nthZ page i = nthZ MAGIC i;
  en_version : get32 page 8 = SB_VERSION;
  en_check : get64 page 4088 = fnv64 page 4088;
  en_fields : sb_gen f = get64 page 16 /\ sb_itab f = get64 page 24 /\ sb_nitab f = get32 page 32 /\
    sb_ninodes f = get32 page 36 /\ sb_total f = get64 page 40 /\ sb_ngroups f = get32 page 48;
  en_slot : forall g, 0 <= g < 512 -> nthZ page (64 + g) = nthZ (sb_slot f) g;
  en_free : forall g, 0 <= g < 512 -> get32 page (576 + g * 4) = nthZ (sb_free f) g
}.

Lemma sb_encode_encodes page f : sb_typed f -> fields_ok f = true -> length page = 4096%nat -> bytes_ok page ->
  exists page', sb_encode page f = (SB_OK, page') /\ encodes f page'.
Proof.
  intros Hf Hok Hl Hb. unfold sb_encode. rewrite Hok. cbn [negb].
  destruct (setZ_loop (fun _ => 0) page EXFS_BLOCK) as (L1 & B1 & N1); [change EXFS_BLOCK with 4096; lia|done|lia|].
  set (p1 := for_range 0 EXFS_BLOCK (fun i p => setZ p i 0) page) in *. clearbody p1.
  destruct (setZ_loop (nthZ MAGIC) p1 8) as (L2 & B2 & N2);
    [lia|done|intros; apply nthZ_range; repeat constructor; lia|].
  set (p2 := for_range 0 8 (fun i p => setZ p i (nthZ MAGIC i)) p1) in *. clearbody p2.
  assert (length (sb_head p2 f) = 4096%nat) as L3 by (unfold sb_head; flen; lia).
  assert (bytes_ok (sb_head p2 f)) as B3 by (unfold sb_head; fok).
  destruct (put_groups f (sb_head p2 f) Hf L3 B3) as (L4 & B4 & S4 & F4 & O4).
  change SB_MAX_GROUPS with 512. set (p4 := for_range 0 512 (put_group f) (sb_head p2 f)) in *. clearbody p4.
  pose proof (fnv_range p4 SB_CHECK_OFF ltac:(done)) as Hr. eexists. split; [done|]. change SB_CHECK_OFF with 4088 in *.
  pose proof (st_gen f Hf). pose proof (st_itab f Hf). pose proof (st_nitab f Hf).
  pose proof (st_ninodes f Hf). pose proof (st_total f Hf). pose proof (st_ngroups f Hf).
  set (c := fnv64 p4 4088) in *. assert (c = fnv64 p4 4088) as Hc by reflexivity. clearbody c.
  assert (forall o, 0 <= o < 4088 -> nthZ (put64 p4 4088 c) o = nthZ p4 o) as Hlow
    by (intros; rewrite nthZ_put64_ne by (unfold field_apart; lia); done).
  assert (forall o, 0 <= o <= 60 -> get32 (put64 p4 4088 c) o = get32 (sb_head p2 f) o) as H32.
  { intros o Ho. apply get32_ext. intros j Hj. rewrite Hlow by lia. apply O4; lia. }
  assert (forall o, 0 <= o <= 56 -> get64 (put64 p4 4088 c) o = get64 (sb_head p2 f) o) as H64.
  { intros o Ho. apply get64_ext. intros j Hj. rewrite Hlow by lia. apply O4; lia. }
  split.
  - by rewrite length_put64.
  - by apply bytes_ok_put64.
  - intros i Hi. rewrite Hlow, O4 by lia. unfold sb_head. fields. rewrite N2 by lia. by zcase.
  - rewrite H32 by lia. unfold sb_head. change SB_VERSION with 3. fields. reflexivity.
  - fields. transitivity (fnv64 p4 4088); [exact Hc|]. apply fnv_ext. intros i Hi. rewrite Hlow by lia. reflexivity.
  - rewrite !H32, !H64 by lia. unfold sb_head. split_and!; fields; done.
  - intros g Hg. rewrite Hlow by lia. by apply S4.
  - intros g Hg. rewrite <- F4 by done. apply get32_ext. intros j Hj. apply Hlow. lia.
Qed.

Lemma decode_encodes f f0 page : sb_typed f -> fields_ok f = true -> encodes f page -> sb_decode page f0 = (SB_OK, f).
Proof.
  intros Hf Hok He. unfold sb_decode. rewrite (proj2 (forallb_forall _ _)).
  2: { intros i Hi%list_elem_of_In%elem_of_seqZ. rewrite (en_magic _ _ He) by lia. apply Z.eqb_refl. }
  change SB_CHECK_OFF with 4088. rewrite (en_version _ _ He), (en_check _ _ He), !Z.eqb_refl. cbn [negb].
  destruct (en_fields _ _ He) as (<- & <- & <- & <- & <- & <-).
  replace (mkSb _ _ _ _ _ _ _ _) with f; [by rewrite Hok|]. destruct f. cbn [sb_gen sb_itab sb_nitab sb_ninodes sb_total sb_ngroups].
  change SB_MAX_GROUPS with 512. f_equal; apply nthZ_ext; rewrite ?length_fmap, ?length_seqZ;
    [apply (st_slot_len _ Hf)| |apply (st_free_len _ Hf)|]; intros i Hi.
  - cbn in Hi; pose proof (st_slot_len _ Hf) as Hls; cbn in Hls. rewrite nthZ_map_seqZ, Z.add_0_l by lia. symmetry. apply (en_slot _ _ He). lia.
  - cbn in Hi; pose proof (st_free_len _ Hf) as Hls; cbn in Hls. rewrite nthZ_map_seqZ, Z.add_0_l by lia. symmetry. apply (en_free _ _ He). lia.
Qed.

(** * Corruption *)

(** The bytes of a field are determined by its value. *)
Lemma get32_byte p o j : bytes_ok p -> 0 <= j < 4 -> nthZ p (o + j) = u8 (get32 p o .>> (8 * j)).
Proof.
  intros Hp Hj. apply Z.bits_inj'. intros i Hi. rewrite testbit_u8 by lia.
  pose proof (nthZ_range p (o + j) Hp). destruct (Z.ltb_spec i 8) as [Hc|Hc]; cbn [andb].
  2: { apply (testbit_high _ 8); lia. }
  rewrite Z.shiftr_spec, testbit_get32 by (done || lia). destruct (Z.ltb_spec (i + 8 * j) 32); [|lia].
  replace (i + 8 * j) with (i + j * 8) by lia. rewrite Z.div_add, Z.mod_add, Z.div_small, Z.mod_small by lia. done.
Qed.

Lemma get64_byte p q o k : bytes_ok p -> bytes_ok q -> o <= k < o + 8 -> get64 p o = get64 q o -> nthZ p k = nthZ q k.
Proof.
  intros Hp Hq Hk H. unfold get64 in H. pose proof (get32_range p o Hp). pose proof (get32_range q o Hq).
  rewrite !lor_shift_add in H by lia. change (2 ^ 32) with 4294967296 in *.
  assert (get32 p o = get32 q o /\ get32 p (o + 4) = get32 q (o + 4)) as [E1 E2] by lia.
  destruct (Z.ltb_spec k (o + 4)).
  - replace k with (o + (k - o)) by lia. rewrite !get32_byte by (done || lia). by rewrite E1.
  - replace k with ((o + 4) + (k - o - 4)) by lia. rewrite !get32_byte by (done || lia). by rewrite E2.
Qed.

Lemma sum_changed p q k : bytes_ok p -> bytes_ok q -> 0 <= k < 4096 -> nthZ p k <> nthZ q k ->
  (forall i, 0 <= i < 4096 -> i <> k -> nthZ p i = nthZ q i) ->
  get64 p 4088 = fnv64 p 4088 -> get64 q 4088 <> fnv64 q 4088.
Proof.
  intros Hp Hq Hk Hne Hsame Hc E. destruct (Z.ltb_spec k 4088).
  - apply (fnv_one_byte p q 4088 k); [done|done|lia|done|intros; apply Hsame; lia|].
    rewrite <- Hc, <- E. apply get64_ext. intros. apply Hsame; lia.
  - apply Hne. apply (get64_byte p q 4088); [done|done|lia|]. rewrite Hc, E. apply fnv_ext. intros. apply Hsame; lia.
Qed.

Lemma decode_bad q f0 : get64 q 4088 <> fnv64 q 4088 ->
  sb_decode q f0 = (SB_EBAD, f0) \/ sb_decode q f0 = (SB_ECHECK, f0).
Proof.
  intros H. unfold sb_decode. change SB_CHECK_OFF with 4088.
  destruct (negb (forallb _ _)); [by left|]. destruct (negb (get32 q 8 =? SB_VERSION)); [by left|].
  rewrite (proj2 (Z.eqb_neq _ _) H). by right.
Qed.

(** What a decode accepts: fields of their C types that pass [fields_ok]. *)
Lemma decode_typed page f0 f : bytes_ok page -> sb_decode page f0 = (SB_OK, f) -> sb_typed f /\ fields_ok f = true.
Proof.
  intros Hb. unfold sb_decode.
  destruct (negb (forallb _ _)); [done|]. destruct (negb (get32 page 8 =? _)); [done|]. destruct (negb (get64 page _ =? _)); [done|].
  remember (mkSb _ _ _ _ _ _ _ _) as f1 eqn:Ef. destruct (fields_ok f1) eqn:E; [|done]. intros [= <-]. split; [|done].
  rewrite Ef. change SB_MAX_GROUPS with 512.
  split; cbn [sb_gen sb_itab sb_nitab sb_ninodes sb_total sb_ngroups sb_slot sb_free].
  1-6: first [by apply get64_range|by apply get32_range].
  1-2: by rewrite length_fmap, length_seqZ.
  - intros g Hg. rewrite nthZ_map_seqZ by lia. by apply nthZ_range.
  - intros g Hg. rewrite nthZ_map_seqZ by lia. by apply get32_range.
Qed.

(** C21: a superblock whose fields pass the check encodes, and decoding the
    page gives back exactly those fields; whatever page decodes carries fields
    of their C types that pass the same check. *)
Theorem sb_roundtrip f f0 page : sb_typed f -> fields_ok f = true -> length page = 4096%nat -> bytes_ok page ->
  exists page', sb_encode page f = (SB_OK, page') /\ length page' = 4096%nat /\ bytes_ok page' /\
    sb_decode page' f0 = (SB_OK, f) /\
    (forall q f', bytes_ok q -> sb_decode q f0 = (SB_OK, f') -> sb_typed f' /\ fields_ok f' = true).
Proof.
  intros Hf Hok Hl Hb. destruct (sb_encode_encodes page f Hf Hok Hl Hb) as (p & E & He). exists p.
  split_and!; [done|apply (en_len _ _ He)|apply (en_bytes _ _ He)|by apply decode_encodes|].
  intros q f' Hq. by apply decode_typed.
Qed.

(** C22: the checksum catches every single-byte corruption: a page that
    differs from an encoded superblock in one byte, wherever it is, is
    rejected and the caller's fields are left alone. *)
Theorem sb_corruption_detected f f0 page page' q k : sb_typed f -> length page = 4096%nat -> bytes_ok page ->
  sb_encode page f = (SB_OK, page') -> bytes_ok q -> 0 <= k < 4096 -> nthZ q k <> nthZ page' k ->
  (forall i, 0 <= i < 4096 -> i <> k -> nthZ q i = nthZ page' i) ->
  sb_decode q f0 = (SB_EBAD, f0) \/ sb_decode q f0 = (SB_ECHECK, f0).
Proof.
  intros Hf Hl Hb E Hq Hk Hne Hsame. assert (fields_ok f = true) as Hok.
  { unfold sb_encode in E. by destruct (fields_ok f). }
  destruct (sb_encode_encodes page f Hf Hok Hl Hb) as (p & E' & He). rewrite E in E'. injection E' as ->.
  apply decode_bad. apply (sum_changed p q k); [apply (en_bytes _ _ He)|done|done|congruence| |apply (en_check _ _ He)].
  intros i Hi Hik. symmetry. by apply Hsame.
Qed.

(** * Witnesses *)

(** The superblock of a freshly formatted 34-block volume. *)
Definition demo_sb : SbFields := mkSb 1 10 8 128 34 1 (replicate 512 0) (14 :: replicate 511 0).

Lemma demo_sb_typed : sb_typed demo_sb.
Proof.
  split; cbn [demo_sb sb_gen sb_itab sb_nitab sb_ninodes sb_total sb_ngroups sb_slot sb_free]; try lia; try reflexivity.
  - intros g Hg. rewrite nthZ_replicate. lia.
  - intros g Hg. unfold nthZ. destruct (Z.to_nat g) as [|i]; [cbn; lia|]. cbn [lookup list_lookup].
    destruct (replicate 511 0 !! i) eqn:Ei; [|cbn; lia]. apply lookup_replicate in Ei as [-> _]. cbn. lia.
Qed.

Lemma sb_roundtrip_witness : exists page', sb_encode (replicate 4096 0) demo_sb = (SB_OK, page') /\
  sb_decode page' demo_sb = (SB_OK, demo_sb).
Proof.
  destruct (sb_roundtrip demo_sb demo_sb (replicate 4096 0)) as (p & E & _ & _ & Hd & _).
  - apply demo_sb_typed.
  - vm_compute. reflexivity.
  - apply length_replicate.
  - apply bytes_ok_zeros.
  - exists p. split; [exact E|exact Hd].
Defined.

Lemma sb_corruption_detected_witness : exists page' v, sb_encode (replicate 4096 0) demo_sb = (SB_OK, page') /\
  v <> nthZ page' 16 /\
  (sb_decode (setZ page' 16 v) demo_sb = (SB_EBAD, demo_sb) \/ sb_decode (setZ page' 16 v) demo_sb = (SB_ECHECK, demo_sb)).
Proof.
  destruct (sb_encode_encodes (replicate 4096 0) demo_sb) as (p & E & He);
    [apply demo_sb_typed|vm_compute; reflexivity|apply length_replicate|apply bytes_ok_zeros|].
  pose proof (en_len _ _ He) as Hl. pose proof (en_bytes _ _ He) as Hb. set (v := if nthZ p 16 =? 0 then 1 else 0).
  assert (v <> nthZ p 16 /\ 0 <= v < 256) as [Hv Hvr] by (unfold v; destruct (Z.eqb_spec (nthZ p 16) 0); lia). clearbody v.
  exists p, v. split; [exact E|split; [exact Hv|]].
  apply (sb_corruption_detected demo_sb demo_sb (replicate 4096 0) p (setZ p 16 v) 16).
  - apply demo_sb_typed.
  - apply length_replicate.
  - apply bytes_ok_zeros.
  - exact E.
  - apply bytes_ok_setZ; [exact Hb|exact Hvr].
  - lia.
  - rewrite nthZ_setZ_eq by lia. exact Hv.
  - intros i Hi Hne. apply nthZ_setZ_ne; lia.
Defined.
