(* ===== verification/Gmap.v ===== *)
(** The EXFS group map: model of [source/core/exfs/gmap.c] and [gmap.h].

    The map is a bitmap per group, kept on disk in two slots and cached in
    eight entries. [used] is the abstraction: which blocks are in use, read
    through the cache, the pending slot or the committed slot. *)

From S2P Require Import Prelude.
From S2P Require Import Bytes.
From S2P Require Import Blk.
From S2P Require Import ExfsDefs.

(** * State *)

Record GMapEntry := mkEntry { e_bits : list Z; e_g : Z; e_valid : bool; e_dirty : bool; e_stamp : Z }.

Record GMap (D : Type) := mkGMap {
  m_dev : option (BlkDev D);
  m_spb : Z;
  m_total : Z;
  m_gb : Z;
  m_ngroups : Z;
  m_slot : list Z;
  m_written : list Z;
  m_free : list Z;
  m_cache : list GMapEntry;
  m_clock : Z
}.
Arguments mkGMap {D}.
Arguments m_dev {D}.
Arguments m_spb {D}.
Arguments m_total {D}.
Arguments m_gb {D}.
Arguments m_ngroups {D}.
Arguments m_slot {D}.
Arguments m_written {D}.
Arguments m_free {D}.
Arguments m_cache {D}.
Arguments m_clock {D}.

(** * Bits *)

Definition bit_of (b : list Z) (i : Z) : bool := tst ((nthZ b (i .>> 3) .>> (i .& 7)) .& 1).

Definition bit_put (b : list Z) (i : Z) (v : bool) : list Z :=
  if v then setZ b (i .>> 3) (u8 (nthZ b (i .>> 3) .| (1 .<< (i .& 7))))
  else setZ b (i .>> 3) (u8 (nthZ b (i .>> 3) .& Z.lnot (1 .<< (i .& 7)))).

Section Ops.
Context {D : Type}.
Implicit Types (m : GMap D) (s : D).

(** Assignments to the fields of [*m]. *)
Definition set_slot m x : GMap D :=
  mkGMap (m_dev m) (m_spb m) (m_total m) (m_gb m) (m_ngroups m) x (m_written m) (m_free m) (m_cache m) (m_clock m).
Definition set_written m x : GMap D :=
  mkGMap (m_dev m) (m_spb m) (m_total m) (m_gb m) (m_ngroups m) (m_slot m) x (m_free m) (m_cache m) (m_clock m).
Definition set_free m x : GMap D :=
  mkGMap (m_dev m) (m_spb m) (m_total m) (m_gb m) (m_ngroups m) (m_slot m) (m_written m) x (m_cache m) (m_clock m).
Definition set_cache m x : GMap D :=
  mkGMap (m_dev m) (m_spb m) (m_total m) (m_gb m) (m_ngroups m) (m_slot m) (m_written m) (m_free m) x (m_clock m).
Definition set_clock m x : GMap D :=
  mkGMap (m_dev m) (m_spb m) (m_total m) (m_gb m) (m_ngroups m) (m_slot m) (m_written m) (m_free m) (m_cache m) x.

Definition no_entry : GMapEntry := mkEntry [] 0 false false 0.
Definition entry m (i : nat) : GMapEntry := default no_entry (m_cache m !! i).
Definition put_entry m (i : nat) (e : GMapEntry) : GMap D := set_cache m (<[i := e]> (m_cache m)).

Definition invalid (e : GMapEntry) : GMapEntry := mkEntry (e_bits e) (e_g e) false (e_dirty e) (e_stamp e).
Definition clean (e : GMapEntry) : GMapEntry := mkEntry (e_bits e) (e_g e) (e_valid e) false (e_stamp e).
Definition touch (e : GMapEntry) (clk : Z) : GMapEntry := mkEntry (e_bits e) (e_g e) (e_valid e) (e_dirty e) clk.
Definition edit (e : GMapEntry) (bits : list Z) : GMapEntry := mkEntry bits (e_g e) (e_valid e) true (e_stamp e).

(** * Geometry and I/O *)

Definition slot_block m (g sl : Z) : Z := (if g =? 0 then EXFS_DATA_START else u64 (g * m_gb m)) + sl.

Definition valid_bits m (g : Z) : Z :=
  let lo := u64 (g * m_gb m) in
  let n := u64 (m_total m - lo) in
  if n <? m_gb m then u32 n else m_gb m.

Definition gwrite m (g sl : Z) (bits : list Z) s : Z * D :=
  let blk := slot_block m g sl in
  let '(rc, s) := blk_write (m_dev m) (u64 (blk * m_spb m)) (m_spb m) (Some bits) s in
  ((if rc =? BLK_OK then GMAP_OK else GMAP_EIO), s).

Definition gread m (g sl : Z) (bits : list Z) s : Z * list Z * D :=
  let blk := slot_block m g sl in
  let '(rc, b, s) := blk_read (m_dev m) (u64 (blk * m_spb m)) (m_spb m) (Some bits) s in
  ((if rc =? BLK_OK then GMAP_OK else GMAP_EIO), default bits b, s).

(** The number of free blocks and the bitmap. *)
Definition fresh_bits m (g : Z) (bits : list Z) : Z * list Z :=
  let bits := for_range 0 EXFS_BLOCK (fun i b => setZ b i 0) bits in
  let reserved := if g =? 0 then EXFS_DATA_START + 2 else 2 in
  let valid := valid_bits m g in
  let bits := for_range 0 reserved (fun i b => bit_put b i true) bits in
  for_range 0 (m_gb m) (fun i '(free, b) =>
    if valid <=? i then (free, bit_put b i true)
    else if negb (bit_of b i) then (free + 1, b) else (free, b)) (0, bits).

Definition invalidate_cache m : GMap D := set_cache m (invalid <$> m_cache m).

Definition gmap_init m (d : option (BlkDev D)) (total group_blocks : Z) : Z * GMap D :=
  match d with
  | None => (GMAP_EIO, m)
  | Some dv =>
    if (group_blocks <? GMAP_GROUP_MIN) || (GMAP_GROUP_MAX <? group_blocks) then (GMAP_EIO, m) else
    if tst (group_blocks .& (group_blocks - 1)) then (GMAP_EIO, m) else
    let ng := u64 (total + group_blocks - 1) / group_blocks in
    if (ng =? 0) || (GMAP_MAX_GROUPS <? ng) then (GMAP_EIO, m) else
    let ss := blk_sector_size d in
    if (ss =? 0) || negb (EXFS_BLOCK mod ss =? 0) then (GMAP_EIO, m) else
    let zeros := replicate (Z.to_nat GMAP_MAX_GROUPS) 0 in
    (GMAP_OK, mkGMap d (EXFS_BLOCK / ss) total group_blocks (u32 ng) zeros zeros zeros (invalid <$> m_cache m) 0)
  end.

(** One group of the format loop. *)
Fixpoint format_loop (k : nat) (g : Z) m (bits : list Z) s : Z * GMap D * D :=
  match k with
  | O => (GMAP_OK, invalidate_cache m, s)
  | S k =>
    let '(fr, bits) := fresh_bits m g bits in
    let m := set_free m (setZ (m_free m) g fr) in
    let '(rc, s) := gwrite m g 0 bits s in
    if negb (rc =? GMAP_OK) then (GMAP_EIO, m, s) else
    let m := set_slot m (setZ (m_slot m) g 0) in
    let m := set_written m (setZ (m_written m) g 0) in
    format_loop k (g + 1) m bits s
  end.

(** [bits0] is what the static buffer holds. *)
Definition gmap_format m (bits0 : list Z) s : Z * GMap D * D := format_loop (Z.to_nat (m_ngroups m)) 0 m bits0 s.

Definition gmap_import m (slot free : list Z) : GMap D :=
  let m := for_range 0 (m_ngroups m) (fun g m =>
    let m := set_slot m (setZ (m_slot m) g (if tst (nthZ slot g) then 1 else 0)) in
    let m := set_written m (setZ (m_written m) g 0) in
    set_free m (setZ (m_free m) g (nthZ free g))) m in
  invalidate_cache m.

(** * The cache *)

Definition flush_one m (i : nat) s : Z * GMap D * D :=
  let e := entry m i in
  let sl := u8 (1 - nthZ (m_slot m) (e_g e)) in
  let '(rc, s) := gwrite m (e_g e) sl (e_bits e) s in
  if negb (rc =? GMAP_OK) then (GMAP_EIO, m, s) else
  let m := set_written m (setZ (m_written m) (e_g e) 1) in
  (GMAP_OK, put_entry m i (clean e), s).

Fixpoint cached (c : list GMapEntry) (g : Z) (i : nat) : option nat :=
  match c with
  | [] => None
  | e :: c => if e_valid e && (e_g e =? g) then Some i else cached c g (S i)
  end.

(** The entry to replace: the first invalid one, else the oldest. [v] is the
    candidate so far and its stamp. *)
Fixpoint victim (c : list GMapEntry) (i : nat) (v : option (nat * Z)) : option nat :=
  match c with
  | [] => match v with Some (j, _) => Some j | None => None end
  | e :: c =>
    if negb (e_valid e) then Some i else
    match v with
    | None => victim c (S i) (Some (i, e_stamp e))
    | Some (j, st) => if e_stamp e <? st then victim c (S i) (Some (i, e_stamp e)) else victim c (S i) v
    end
  end.

(** The slot that holds the newest copy of a group. *)
Definition cur_slot m (g : Z) : Z :=
  if tst (nthZ (m_written m) g) then u8 (1 - nthZ (m_slot m) g) else nthZ (m_slot m) g.

Definition load_into m (i : nat) (g : Z) s : option nat * GMap D * D :=
  let '(rc, bits, s) := gread m g (cur_slot m g) (e_bits (entry m i)) s in
  let e := entry m i in
  if negb (rc =? GMAP_OK) then (None, put_entry m i (mkEntry bits (e_g e) false (e_dirty e) (e_stamp e)), s) else
  let clk := u32 (m_clock m + 1) in
  (Some i, put_entry (set_clock m clk) i (mkEntry bits g true false clk), s).

(** The index of the entry of group [g], [None] on an I/O error. *)
Definition load m (g : Z) s : option nat * GMap D * D :=
  match cached (m_cache m) g 0 with
  | Some i =>
    let clk := u32 (m_clock m + 1) in
    (Some i, put_entry (set_clock m clk) i (touch (entry m i) clk), s)
  | None =>
    match victim (m_cache m) 0 None with
    | None => (None, m, s)
    | Some i =>
      if e_valid (entry m i) && e_dirty (entry m i) then
        let '(rc, m, s) := flush_one m i s in
        if negb (rc =? GMAP_OK) then (None, put_entry m i (invalid (entry m i)), s) else load_into m i g s
      else load_into m i g s
    end
  end.

Fixpoint flush_loop (k : nat) (i : nat) m s : Z * GMap D * D :=
  match k with
  | O => (GMAP_OK, m, s)
  | S k =>
    if e_valid (entry m i) && e_dirty (entry m i) then
      let '(rc, m, s) := flush_one m i s in
      if negb (rc =? GMAP_OK) then (GMAP_EIO, m, s) else flush_loop k (S i) m s
    else flush_loop k (S i) m s
  end.

Definition gmap_flush m s : Z * GMap D * D := flush_loop (Z.to_nat GMAP_CACHE) 0 m s.

(** The caller's tables after the export. *)
Definition gmap_export m (slot free : list Z) : list Z * list Z :=
  for_range 0 (m_ngroups m) (fun g '(slot, free) => (setZ slot g (cur_slot m g), setZ free g (nthZ (m_free m) g))) (slot, free).

Definition gmap_commit m : GMap D :=
  for_range 0 (m_ngroups m) (fun g m =>
    let m := if tst (nthZ (m_written m) g) then set_slot m (setZ (m_slot m) g (u8 (1 - nthZ (m_slot m) g))) else m in
    set_written m (setZ (m_written m) g 0)) m.

(** * Taking and releasing blocks *)

Fixpoint skip_used (fuel : nat) (bits : list Z) (valid i : Z) : Z :=
  match fuel with
  | O => i
  | S fuel => if (i <? valid) && bit_of bits i then skip_used fuel bits valid (i + 1) else i
  end.

Fixpoint take_run (fuel : nat) (bits : list Z) (valid need i j : Z) : list Z * Z :=
  match fuel with
  | O => (bits, j)
  | S fuel =>
    if (j <? valid) && (j - i <? need) && negb (bit_of bits j) then take_run fuel (bit_put bits j true) valid need i (j + 1)
    else (bits, j)
  end.

Fixpoint take_loop (fuel : nat) (k g0 off0 need : Z) m s : Z * Z * Z * GMap D * D :=
  match fuel with
  | O => (GMAP_ENOSPC, 0, 0, m, s)
  | S fuel =>
    let g := (g0 + k) mod m_ngroups m in
    if nthZ (m_free m) g =? 0 then take_loop fuel (k + 1) g0 off0 need m s else
    let from := if k =? 0 then off0 else 0 in
    let '(r, m, s) := load m g s in
    match r with
    | None => (GMAP_EIO, 0, 0, m, s)
    | Some x =>
      let valid := valid_bits m g in
      let i := skip_used (Z.to_nat (valid - from)) (e_bits (entry m x)) valid from in
      if i =? valid then take_loop fuel (k + 1) g0 off0 need m s else
      let '(bits, j) := take_run (Z.to_nat (valid - i)) (e_bits (entry m x)) valid need i i in
      let m := put_entry m x (edit (entry m x) bits) in
      let m := set_free m (setZ (m_free m) g (u32 (nthZ (m_free m) g - (j - i)))) in
      (GMAP_OK, u64 (g * m_gb m) + i, j - i, m, s)
    end
  end.

(** The status, [*start], [*len] (0 where they are not assigned). *)
Definition gmap_take m (hint need : Z) s : Z * Z * Z * GMap D * D :=
  if need =? 0 then (GMAP_ENOSPC, 0, 0, m, s) else
  let g0 := u32 (hint / m_gb m) in
  let off0 := u32 (hint mod m_gb m) in
  if m_ngroups m <=? g0 then take_loop (S (Z.to_nat (m_ngroups m))) 0 0 0 need m s
  else take_loop (S (Z.to_nat (m_ngroups m))) 0 g0 off0 need m s.

Fixpoint release_loop (k : nat) (b : Z) m s : Z * GMap D * D :=
  match k with
  | O => (GMAP_OK, m, s)
  | S k =>
    let g := u32 (b / m_gb m) in
    let i := u32 (b mod m_gb m) in
    let '(r, m, s) := load m g s in
    match r with
    | None => (GMAP_EIO, m, s)
    | Some x =>
      if negb (bit_of (e_bits (entry m x)) i) then (GMAP_EUSED, m, s) else
      let m := put_entry m x (edit (entry m x) (bit_put (e_bits (entry m x)) i false)) in
      let m := set_free m (setZ (m_free m) g (u32 (nthZ (m_free m) g + 1))) in
      release_loop k (b + 1) m s
    end
  end.

Definition gmap_release m (start len : Z) s : Z * GMap D * D :=
  release_loop (Z.to_nat (u64 (start + len) - start)) start m s.

Definition gmap_is_used m (block : Z) s : Z * GMap D * D :=
  let g := u32 (block / m_gb m) in
  let i := u32 (block mod m_gb m) in
  let '(r, m, s) := load m g s in
  match r with
  | None => (GMAP_EIO, m, s)
  | Some x => (Z.b2z (bit_of (e_bits (entry m x)) i), m, s)
  end.

Definition gmap_free_total m : Z := for_range 0 (m_ngroups m) (fun g n => u64 (n + nthZ (m_free m) g)) 0.
End Ops.

(** * Lemmas on bits *)

Lemma bit_of_testbit b i : bit_of b i = Z.testbit (nthZ b (i / 8)) (i mod 8).
Proof.
  unfold bit_of, tst. rewrite land_7, (shiftr_div i 3) by lia. change (2 ^ 3) with 8.
  rewrite land_1_testbit, Z.shiftr_spec, Z.add_0_l by lia. by destruct (Z.testbit _ _).
Qed.

Lemma length_bit_put b i v : length (bit_put b i v) = length b.
Proof. unfold bit_put. destruct v; apply length_setZ. Qed.

Lemma bytes_ok_bit_put b i v : bytes_ok b -> bytes_ok (bit_put b i v).
Proof. intros H. unfold bit_put. destruct v; apply bytes_ok_setZ; auto using u8_range. Qed.

Lemma bit_of_put b i j v : 0 <= i < 8 * lenZ b -> 0 <= j -> bit_of (bit_put b i v) j = if j =? i then v else bit_of b j.
Proof.
  intros Hi Hj. rewrite !bit_of_testbit.
  pose proof (Z.div_mod i 8 ltac:(lia)) as Ei. pose proof (Z.div_mod j 8 ltac:(lia)) as Ej.
  pose proof (Z.mod_pos_bound i 8 ltac:(lia)) as Bi. pose proof (Z.mod_pos_bound j 8 ltac:(lia)) as Bj.
  assert (nthZ (bit_put b i v) (j / 8) = if j / 8 =? i / 8
    then u8 (if v then nthZ b (i / 8) .| (1 .<< (i mod 8)) else nthZ b (i / 8) .& Z.lnot (1 .<< (i mod 8))) else nthZ b (j / 8)) as ->.
  { unfold bit_put. rewrite land_7, (shiftr_div i 3) by lia. change (2 ^ 3) with 8.
    destruct v; apply nthZ_setZ; lia. }
  destruct (Z.eqb_spec (j / 8) (i / 8)) as [E|E].
  - rewrite testbit_u8 by lia. destruct (Z.ltb_spec (j mod 8) 8); [|lia]. cbn [andb].
    destruct v; rewrite ?Z.lor_spec, ?Z.land_spec, ?Z.lnot_spec, testbit_pow2, E by lia; zcase; cbn [negb];
      rewrite ?orb_true_r, ?orb_false_r, ?andb_true_r, ?andb_false_r; done.
  - destruct (Z.eqb_spec j i); [subst; done|done].
Qed.

(** Predicates over the entries of the cache. *)
Lemma cached_Some c g k i : cached c g k = Some i ->
  exists e, (k <= i)%nat /\ c !! (i - k)%nat = Some e /\ e_valid e = true /\ e_g e = g.
Proof.
  revert k. induction c as [|e c IH]; intros k; cbn [cached]; [done|].
  destruct (e_valid e && (e_g e =? g)) eqn:E.
  - intros [= ->]. unbool. exists e. rewrite Nat.sub_diag. done.
  - intros (e' & Hk & Hl & Hv & Hg)%IH. exists e'. split_and!; [lia| |done|done].
    by replace (i - k)%nat with (S (i - S k))%nat by lia.
Qed.

Lemma cached_None c g k : cached c g k = None -> forall i e, c !! i = Some e -> e_valid e = true -> e_g e <> g.
Proof.
  revert k. induction c as [|e c IH]; intros k; cbn [cached]; [done|].
  destruct (e_valid e && (e_g e =? g)) eqn:E; [done|]. intros Hn [|i] e' He Hv; cbn in He.
  - simplify_eq. rewrite Hv in E. cbn in E. unbool. done.
  - eapply IH; eauto.
Qed.

Lemma victim_lt c k v i : victim c k v = Some i -> (forall j st, v = Some (j, st) -> (j < k)%nat) -> (i < k + length c)%nat.
Proof.
  revert k v. induction c as [|e c IH]; intros k v; cbn [victim length].
  - destruct v as [[j st]|]; [|done]. intros [= ->] H. specialize (H _ _ eq_refl). lia.
  - destruct (negb (e_valid e)); [intros [= ->]; lia|]. destruct v as [[j st]|].
    + destruct (e_stamp e <? st).
      * intros H%IH _; [lia|]. intros ? ? [= -> _]. lia.
      * intros H Hv. apply IH in H; [lia|]. intros ? ? [= -> _]. specialize (Hv _ _ eq_refl). lia.
    + intros H%IH _; [lia|]. intros ? ? [= -> _]. lia.
Qed.

Lemma victim_Some c k v : (v <> None \/ c <> []) -> is_Some (victim c k v).
Proof.
  revert k v. induction c as [|e c IH]; intros k v Hv; cbn [victim].
  - destruct v as [[j st]|]; [eauto|]. by destruct Hv.
  - destruct (negb (e_valid e)); [eauto|]. destruct v as [[j st]|]; [destruct (_ <? _)|]; apply IH; by left.
Qed.
