(* ===== verification/GmapOk.v ===== *)
(** The group map implements a set of used blocks: the invariant of
    [Gmap.v]'s state, and what each operation does to the abstraction on a
    device that may stop at any write. *)

From S2P Require Import Prelude.
From S2P Require Import Bytes.
From S2P Require Import Blk.
From S2P Require Import ExfsDefs.
From S2P Require Import Gmap.

(** * The invariant *)

Section Correct.
Context {D : Type} (d : BlkDev D) `{!BlockDevice d} `{!FailStop d}.
Implicit Types (m : GMap D) (s : D).

(** Blocks at the start of a group that the map never hands out. *)
Definition reserved (g : Z) : Z := if g =? 0 then 20 else 2.

(** Every block a group's tables and slots may touch is on the device. *)
Record gm_geo m : Prop := {
  gg_dev : m_dev m = Some d;
  gg_spb : spb_of d (m_spb m);
  gg_total : 34 <= m_total m <= 2 ^ 24;
  gg_gb : 64 <= m_gb m <= 32768;
  gg_ng : 0 < m_ngroups m <= 512 /\ (m_ngroups m - 1) * m_gb m < m_total m <= m_ngroups m * m_gb m;
  gg_fit : m_total m * 4096 <= sector_count d * sector_size d;
  gg_slen : length (m_slot m) = 512%nat;
  gg_wlen : length (m_written m) = 512%nat;
  gg_flen : length (m_free m) = 512%nat;
  gg_clen : length (m_cache m) = 8%nat;
  gg_slot : forall g, 0 <= g < m_ngroups m -> nthZ (m_slot m) g = 0 \/ nthZ (m_slot m) g = 1
}.

(** The newest bitmap of a group. *)
Definition cur m s (g : Z) : list Z :=
  match cached (m_cache m) g 0 with
  | Some i => e_bits (entry m i)
  | None => block d s (slot_block m g (cur_slot m g))
  end.

Definition group m (g : Z) : Prop := 0 <= g < m_ngroups m.

Record gm_ok m s : Prop := {
  go_geo : gm_geo m;
  go_ent : forall i e, m_cache m !! i = Some e -> length (e_bits e) = 4096%nat /\ bytes_ok (e_bits e);
  go_val : forall i e, m_cache m !! i = Some e -> e_valid e = true -> group m (e_g e);
  go_clean : forall i e, m_cache m !! i = Some e -> e_valid e = true -> e_dirty e = false ->
    e_bits e = block d s (slot_block m (e_g e) (cur_slot m (e_g e)));
  go_uniq : forall i j e e', m_cache m !! i = Some e -> m_cache m !! j = Some e' ->
    e_valid e = true -> e_valid e' = true -> e_g e = e_g e' -> i = j;
  go_room : forall i e, m_cache m !! i = Some e -> e_valid e = true -> e_dirty e = true -> 2 < valid_bits m (e_g e);
  go_room' : forall g, group m g -> nthZ (m_written m) g <> 0 \/ nthZ (m_slot m) g = 1 -> 2 < valid_bits m g;
  go_res : forall g i, group m g -> 0 <= i < reserved g -> bit_of (cur m s g) i = true;
  go_free : forall g, group m g ->
    nthZ (m_free m) g = countb (fun i => negb (bit_of (cur m s g) i)) (seqZ 0 (valid_bits m g))
}.

(** The abstraction: which blocks of the volume are in use. *)
Definition used m s (b : Z) : bool := bit_of (cur m s (b / m_gb m)) (b mod m_gb m).

(** Everything but the cache, the pending marks and the counts is the same. *)
Definition gm_like m m' : Prop :=
  m_dev m' = m_dev m /\ m_spb m' = m_spb m /\ m_total m' = m_total m /\ m_gb m' = m_gb m /\
  m_ngroups m' = m_ngroups m /\ m_slot m' = m_slot m.

(** Only pending slots were written. *)
Definition pending m (b : Z) : Prop := exists g, group m g /\ b = slot_block m g (1 - nthZ (m_slot m) g).
Definition gm_frame m s s' : Prop := forall b, 0 <= b -> ~ pending m b -> block d s' b = block d s b.

Lemma gm_like_refl m : gm_like m m.
Proof. by repeat split. Qed.

Lemma gm_like_trans m1 m2 m3 : gm_like m1 m2 -> gm_like m2 m3 -> gm_like m1 m3.
Proof. intros (A1&A2&A3&A4&A5&A6) (B1&B2&B3&B4&B5&B6). repeat split; congruence. Qed.

Lemma pending_like m m' b : gm_like m m' -> pending m' b <-> pending m b.
Proof.
  intros (A1&A2&A3&A4&A5&A6). unfold pending, group, slot_block. by rewrite A4, A5, A6.
Qed.

Lemma frame_same m s s' : same_disk d s s' -> gm_frame m s s'.
Proof. intros H b Hb _. by apply H. Qed.

Lemma frame_trans m m' s1 s2 s3 : gm_like m m' -> gm_frame m s1 s2 -> gm_frame m' s2 s3 -> gm_frame m s1 s3.
Proof. intros Hl H1 H2 b Hb Hp. rewrite (H2 b Hb) by (by rewrite (pending_like m m')). by apply H1. Qed.

(** ** Geometry *)

Lemma u8_flip x : x = 0 \/ x = 1 -> u8 (1 - x) = 1 - x.
Proof. by intros [-> | ->]. Qed.

Lemma valid_bits_eq m g : gm_geo m -> group m g -> valid_bits m g = Z.min (m_gb m) (m_total m - g * m_gb m).
Proof.
  intros G [Hg1 Hg2]. destruct (gg_ng m G) as [Hn [Hn1 Hn2]]. pose proof (gg_gb m G). pose proof (gg_total m G).
  unfold valid_bits. assert (g * m_gb m < m_total m) by nia. assert (0 <= g * m_gb m) by nia.
  rewrite (u64_small (g * m_gb m)), (u64_small (m_total m - _)) by lia. zcase. rewrite u32_small by lia. lia.
Qed.

Lemma valid_bits_range m g : gm_geo m -> group m g -> 0 < valid_bits m g <= m_gb m.
Proof.
  intros G Hg. rewrite valid_bits_eq by done. destruct Hg. destruct (gg_ng m G) as [Hn [Hn1 Hn2]]. pose proof (gg_gb m G). nia.
Qed.

Lemma slot_block_eq m g sl : gm_geo m -> group m g -> slot_block m g sl = (if g =? 0 then 18 else g * m_gb m) + sl.
Proof.
  intros G [Hg1 Hg2]. unfold slot_block. zcase; [done|]. destruct (gg_ng m G) as [Hn [Hn1 Hn2]]. pose proof (gg_gb m G).
  rewrite u64_small by nia. done.
Qed.

Lemma slot_block_inj m g sl g' sl' : gm_geo m -> group m g -> group m g' -> 0 <= sl <= 1 -> 0 <= sl' <= 1 ->
  slot_block m g sl = slot_block m g' sl' -> g = g' /\ sl = sl'.
Proof.
  intros G Hg Hg' Hs Hs'. rewrite !slot_block_eq by done. pose proof (gg_gb m G). destruct Hg, Hg'.
  assert (g = g' \/ g + 1 <= g' \/ g' + 1 <= g) as [-> | [Hl | Hl]] by lia; zcase; nia.
Qed.

(** A slot of a group is a reserved block of that group. *)
Lemma slot_block_on m g sl : gm_geo m -> group m g -> 0 <= sl <= 1 -> sl = 0 \/ 2 < valid_bits m g ->
  on_dev d (slot_block m g sl) /\ 18 <= slot_block m g sl < m_total m.
Proof.
  intros G Hg Hs Hr. rewrite valid_bits_eq in Hr by done. pose proof (gg_gb m G). pose proof (gg_total m G). pose proof (gg_fit m G).
  destruct (gg_ng m G) as [Hn [Hn1 Hn2]]. pose proof Hg as [Hg1 Hg2].
  assert (18 <= slot_block m g sl < m_total m) as Hb by (rewrite slot_block_eq by done; zcase; nia).
  split; [|done]. split; [lia|]. nia.
Qed.

Lemma cur_slot_01 m g : gm_geo m -> group m g -> 0 <= cur_slot m g <= 1 /\
  (cur_slot m g = if tst (nthZ (m_written m) g) then 1 - nthZ (m_slot m) g else nthZ (m_slot m) g).
Proof.
  intros G Hg. unfold cur_slot. pose proof (gg_slot m G g Hg) as Hs. rewrite u8_flip by done. destruct (tst _); lia.
Qed.

Lemma cur_slot_room m s g : gm_ok m s -> group m g -> cur_slot m g = 0 \/ 2 < valid_bits m g.
Proof.
  intros Hm Hg. pose proof (go_geo _ _ Hm) as G. destruct (cur_slot_01 m g G Hg) as [_ ->]. unfold tst.
  destruct (Z.eqb_spec (nthZ (m_written m) g) 0) as [E|E]; cbn [negb].
  - destruct (gg_slot m G g Hg) as [? | E1]; [by left|]. right. apply (go_room' _ _ Hm); [done|by right].
  - right. apply (go_room' _ _ Hm); [done|by left].
Qed.

(** ** The current bitmap *)

Lemma entry_lookup m i e : m_cache m !! i = Some e -> entry m i = e.
Proof. intros H. unfold entry. by rewrite H. Qed.

Lemma cur_entry m s i e : gm_ok m s -> m_cache m !! i = Some e -> e_valid e = true -> cur m s (e_g e) = e_bits e.
Proof.
  intros Hm He Hv. unfold cur. destruct (cached (m_cache m) (e_g e) 0) as [j|] eqn:E.
  - apply cached_Some in E as (e' & _ & He' & Hv' & Hg). rewrite Nat.sub_0_r in He'.
    rewrite (go_uniq _ _ Hm i j e e' He He' Hv Hv' (eq_sym Hg)) in He. by rewrite (entry_lookup m j e He).
  - by destruct (cached_None _ _ _ E i e He Hv).
Qed.

Lemma cur_miss m s g : (forall i e, m_cache m !! i = Some e -> e_valid e = true -> e_g e <> g) ->
  cur m s g = block d s (slot_block m g (cur_slot m g)).
Proof.
  intros H. unfold cur. destruct (cached (m_cache m) g 0) as [j|] eqn:E; [|done].
  apply cached_Some in E as (e' & _ & He' & Hv' & Hg). by destruct (H _ _ He' Hv').
Qed.

(** Where a group's bitmap comes from. *)
Lemma cur_cases m s g : gm_ok m s ->
  (exists i e, m_cache m !! i = Some e /\ e_valid e = true /\ e_g e = g) \/
  (forall i e, m_cache m !! i = Some e -> e_valid e = true -> e_g e <> g).
Proof.
  intros Hm. destruct (cached (m_cache m) g 0) as [j|] eqn:E.
  - left. apply cached_Some in E as (e' & _ & He' & Hv' & Hg). rewrite Nat.sub_0_r in He'. eauto.
  - right. by apply (cached_None _ _ 0%nat).
Qed.

Lemma cur_ok m s g : gm_ok m s -> bd_ok s -> length (cur m s g) = 4096%nat /\ bytes_ok (cur m s g).
Proof.
  intros Hm Hs. destruct (cur_cases m s g Hm) as [(i & e & He & Hv & <-)|H].
  - rewrite (cur_entry m s i e) by done. by apply (go_ent _ _ Hm i).
  - rewrite cur_miss by done. split; [apply length_block|by apply block_bytes_ok].
Qed.

(** A change that keeps every group's bitmap keeps the invariant. *)
Lemma gm_ok_keep m s m' s' : gm_ok m s -> gm_geo m' -> gm_like m m' -> m_free m' = m_free m ->
  (forall g, group m g -> cur m' s' g = cur m s g) ->
  (forall i e, m_cache m' !! i = Some e -> length (e_bits e) = 4096%nat /\ bytes_ok (e_bits e)) ->
  (forall i e, m_cache m' !! i = Some e -> e_valid e = true -> group m (e_g e) /\
    (e_dirty e = false -> e_bits e = block d s' (slot_block m' (e_g e) (cur_slot m' (e_g e)))) /\
    (e_dirty e = true -> 2 < valid_bits m (e_g e))) ->
  (forall i j e e', m_cache m' !! i = Some e -> m_cache m' !! j = Some e' ->
    e_valid e = true -> e_valid e' = true -> e_g e = e_g e' -> i = j) ->
  (forall g, group m g -> nthZ (m_written m') g <> 0 -> 2 < valid_bits m g) ->
  gm_ok m' s'.
Proof.
  intros Hm G' (A1&A2&A3&A4&A5&A6) Hf Hcur H1 H2 H3 H4.
  assert (forall g, group m' g -> group m g) as Hg by (unfold group; rewrite A5; done).
  assert (forall g, valid_bits m' g = valid_bits m g) as Hvb by (intros; unfold valid_bits; by rewrite A3, A4).
  split.
  - done.
  - done.
  - intros i e He Hv. unfold group. rewrite A5. by apply (H2 i e).
  - intros i e He Hv. by apply (H2 i e).
  - done.
  - intros i e He Hv Hd. rewrite Hvb. by apply (H2 i e He Hv).
  - intros g Hg' Hw. rewrite Hvb. destruct Hw as [Hw|Hw]; [by apply H4; [apply Hg|]|].
    apply (go_room' _ _ Hm); [by apply Hg|]. rewrite <- A6. by right.
  - intros g i Hg'%Hg Hi. rewrite Hcur by done. by apply (go_res _ _ Hm).
  - intros g Hg'%Hg. rewrite Hf, Hvb, (go_free _ _ Hm g Hg'). by rewrite Hcur.
Qed.

Lemma geo_put_entry m i e : gm_geo m -> gm_geo (put_entry m i e).
Proof. intros G. destruct G. split; cbn; try done. by rewrite length_insert. Qed.

Lemma geo_clock m c : gm_geo m -> gm_geo (set_clock m c).
Proof. intros G. destruct G. by split. Qed.

Lemma geo_written m g v : gm_geo m -> gm_geo (set_written m (setZ (m_written m) g v)).
Proof. intros G. destruct G. split; cbn; try done. by rewrite length_setZ. Qed.

Lemma geo_free m g v : gm_geo m -> gm_geo (set_free m (setZ (m_free m) g v)).
Proof. intros G. destruct G. split; cbn; try done. by rewrite length_setZ. Qed.

(** Replacing an entry that is not the only copy of its group by the current
    bitmap of a group that is not cached. *)
Lemma swap_ok m s i e g clk : gm_ok m s -> bd_ok s -> m_cache m !! i = Some e -> (e_valid e && e_dirty e) = false -> group m g ->
  (forall j e, m_cache m !! j = Some e -> e_valid e = true -> e_g e <> g) ->
  let m' := put_entry (set_clock m clk) i (mkEntry (cur m s g) g true false clk) in
  gm_ok m' s /\ (forall g', group m g' -> cur m' s g' = cur m s g') /\
  m_cache m' !! i = Some (mkEntry (cur m s g) g true false clk).
Proof.
  intros Hm Hs He Hvd Hg Hmiss m'. set (e' := mkEntry (cur m s g) g true false clk) in *.
  pose proof (lookup_lt_Some _ _ _ He) as Hi.
  assert (m_cache m' !! i = Some e') as Hi' by (apply list_lookup_insert_eq; done).
  assert (gm_geo m') as G' by (apply geo_put_entry, geo_clock, (go_geo _ _ Hm)).
  assert (forall j x, m_cache m' !! j = Some x -> (j = i /\ x = e') \/ (j <> i /\ m_cache m !! j = Some x)) as Hlk.
  { intros j x Hx. cbn in Hx. apply list_lookup_insert_Some in Hx as [(<- & <- & _)|(Hne & Hx)]; [by left|right; done]. }
  assert (forall j k x y, m_cache m' !! j = Some x -> m_cache m' !! k = Some y ->
    e_valid x = true -> e_valid y = true -> e_g x = e_g y -> j = k) as Hu.
  { intros j k x y [[-> ->]|[Hj Hx]]%Hlk [[-> ->]|[Hk Hy]]%Hlk Hvx Hvy Hgg; [done| | |].
    - by destruct (Hmiss _ _ Hy Hvy).
    - by destruct (Hmiss _ _ Hx Hvx).
    - by apply (go_uniq _ _ Hm j k x y). }
  assert (forall g', group m g' -> cur m' s g' = cur m s g') as Hcur.
  { intros g' Hg'. unfold cur at 1. destruct (cached (m_cache m') g' 0) as [j|] eqn:E.
    - apply cached_Some in E as (x & _ & Hx & Hvx & <-). rewrite Nat.sub_0_r in Hx. rewrite (entry_lookup m' j x Hx).
      apply Hlk in Hx as [[-> ->]|[Hj Hx]]; [done|]. by rewrite (cur_entry m s j x).
    - pose proof (cached_None _ _ _ E) as Hn. change (slot_block m' g' (cur_slot m' g')) with (slot_block m g' (cur_slot m g')).
      destruct (cur_cases m s g' Hm) as [(j & x & Hx & Hvx & <-)|Hall]; [|by rewrite cur_miss].
      rewrite (cur_entry m s j x) by done. destruct (decide (j = i)) as [->|Hj].
      + rewrite He in Hx. simplify_eq. rewrite Hvx in Hvd. cbn in Hvd. symmetry. by apply (go_clean _ _ Hm i).
      + destruct (Hn j x); [cbn; by rewrite list_lookup_insert_ne|done|done]. }
  split; [|done]. apply (gm_ok_keep m s); [done|done|by repeat split|done|done| | |done|].
  - intros j x [[-> ->]|[Hj Hx]]%Hlk; [by apply cur_ok|by apply (go_ent _ _ Hm j)].
  - intros j x [[-> ->]|[Hj Hx]]%Hlk Hvx.
    + split_and!; [done| |done]. intros _. cbn. by rewrite cur_miss.
    + split_and!; [by apply (go_val _ _ Hm j)|by apply (go_clean _ _ Hm j)|by apply (go_room _ _ Hm j)].
  - intros g' Hg' Hw. apply (go_room' _ _ Hm); [done|by left].
Qed.

(** ** One block of the map *)

Lemma gwrite_frozen m g sl bits s : m_dev m = Some d -> bd_ok s -> bd_dead s = true ->
  exists s', gwrite m g sl bits s = (GMAP_EIO, s') /\ frozen d s s'.
Proof.
  intros Hd Hs Hx. unfold gwrite. rewrite Hd.
  destruct (block_write_frozen d s (slot_block m g sl) (m_spb m) bits Hs Hx) as (rc & s' & -> & Hrc & Hf).
  rewrite (proj2 (Z.eqb_neq _ _) Hrc). eauto.
Qed.

Lemma gread_frozen m g sl bits s : m_dev m = Some d -> bd_ok s ->
  exists rc bits' s', gread m g sl bits s = (rc, bits', s') /\ bd_ok s' /\ bd_dead s' = bd_dead s /\ same_disk d s s'.
Proof.
  intros Hd Hs. unfold gread. rewrite Hd.
  destruct (block_read_frozen d s (slot_block m g sl) (m_spb m) bits Hs) as (rc & b & s' & -> & H). eauto.
Qed.

Lemma gwrite_live m g sl bits s : gm_geo m -> group m g -> 0 <= sl <= 1 -> sl = 0 \/ 2 < valid_bits m g ->
  bd_ok s -> bd_dead s = false -> length bits = 4096%nat -> bytes_ok bits ->
  exists rc s', gwrite m g sl bits s = (rc, s') /\ bd_ok s' /\
    (forall b, 0 <= b -> b <> slot_block m g sl -> block d s' b = block d s b) /\
    (bd_dead s' = false -> rc = GMAP_OK) /\ (rc = GMAP_OK -> block d s' (slot_block m g sl) = bits).
Proof.
  intros G Hg Hsl Hr Hs Hx Hl Hb. unfold gwrite. rewrite (gg_dev m G).
  destruct (slot_block_on m g sl G Hg Hsl Hr) as [Hon _].
  destruct (block_write_live d s _ (m_spb m) bits Hs Hx (gg_spb m G) Hon Hl Hb) as (rc & s' & -> & Hs' & Hsame & Hlive & Hw).
  eexists _, _. split_and!; [done|done|done| |].
  - intros H. by rewrite (Hlive H).
  - destruct (Z.eqb_spec rc BLK_OK); [auto|done].
Qed.

Lemma gread_live m g sl bits s : gm_geo m -> group m g -> 0 <= sl <= 1 -> sl = 0 \/ 2 < valid_bits m g ->
  bd_ok s -> length bits = 4096%nat -> bytes_ok bits ->
  exists s', gread m g sl bits s = (GMAP_OK, block d s (slot_block m g sl), s') /\ bd_ok s' /\ bd_dead s' = bd_dead s /\ same_disk d s s'.
Proof.
  intros G Hg Hsl Hr Hs Hl Hb. unfold gread. rewrite (gg_dev m G).
  destruct (slot_block_on m g sl G Hg Hsl Hr) as [Hon _].
  destruct (block_read_live d s _ (m_spb m) bits Hs (gg_spb m G) Hon Hl Hb) as (s' & -> & H). eauto.
Qed.

(** ** Writing a group to its pending slot *)

Lemma flush_one_frozen m i s : m_dev m = Some d -> bd_ok s -> bd_dead s = true ->
  exists s', flush_one m i s = (GMAP_EIO, m, s') /\ frozen d s s'.
Proof.
  intros Hd Hs Hx. unfold flush_one.
  destruct (gwrite_frozen m (e_g (entry m i)) (u8 (1 - nthZ (m_slot m) (e_g (entry m i)))) (e_bits (entry m i)) s Hd Hs Hx)
    as (s' & -> & Hf). eauto.
Qed.

Lemma cur_slot_written m g g' : gm_geo m -> group m g -> group m g' ->
  cur_slot (set_written m (setZ (m_written m) g 1)) g' = if g' =? g then 1 - nthZ (m_slot m) g else cur_slot m g'.
Proof.
  intros G Hg Hg'. unfold cur_slot. cbn [m_written m_slot set_written]. destruct Hg, Hg'. destruct (gg_ng m G) as [Hn _].
  rewrite nthZ_setZ by (rewrite ?(gg_wlen m G); lia). destruct (Z.eqb_spec g' g) as [->|]; [|done]. cbn [tst Z.eqb negb].
  rewrite u8_flip by (by apply (gg_slot m G)). done.
Qed.

Lemma flush_one_spec m i e s : gm_ok m s -> bd_ok s -> bd_dead s = false ->
  m_cache m !! i = Some e -> e_valid e = true -> e_dirty e = true ->
  exists rc m' s', flush_one m i s = (rc, m', s') /\ bd_ok s' /\ gm_like m m' /\ gm_frame m s s' /\
    (bd_dead s' = false -> rc = GMAP_OK /\ gm_ok m' s' /\ m_cache m' = <[i := clean e]> (m_cache m) /\ m_free m' = m_free m /\
      (forall g, group m g -> cur m' s' g = cur m s g)).
Proof.
  intros Hm Hs Hx He Hv Hdy. pose proof (go_geo _ _ Hm) as G. pose proof (go_val _ _ Hm i e He Hv) as Hg.
  pose proof (go_room _ _ Hm i e He Hv Hdy) as Hr. destruct (go_ent _ _ Hm i e He) as [Hl Hb].
  pose proof (gg_slot m G _ Hg) as Hsl. unfold flush_one. rewrite (entry_lookup m i e He), u8_flip by done.
  destruct (gwrite_live m (e_g e) (1 - nthZ (m_slot m) (e_g e)) (e_bits e) s G Hg ltac:(lia) ltac:(by right) Hs Hx Hl Hb)
    as (rc & s' & -> & Hs' & Hsame & Hlive & Hw).
  assert (gm_frame m s s') as Hfr.
  { intros b Hb0 Hp. apply Hsame; [done|]. intros ->. apply Hp. by exists (e_g e). }
  destruct (Z.eqb_spec rc GMAP_OK) as [->|Hrc]; cbn [negb].
  2: { eexists _, _, _. split_and!; [done|done|by repeat split|done|]. intros H%Hlive. done. }
  specialize (Hw eq_refl). pose proof (geo_written m (e_g e) 1 G) as G1. set (m1 := set_written m _) in *.
  eexists _, _, _. split_and!; [done|done|by repeat split|done|]. intros _. set (m' := put_entry m1 i (clean e)).
  pose proof (lookup_lt_Some _ _ _ He) as Hi.
  assert (forall j x, m_cache m' !! j = Some x -> (j = i /\ x = clean e) \/ (j <> i /\ m_cache m !! j = Some x)) as Hlk.
  { intros j x Hxx. cbn in Hxx. apply list_lookup_insert_Some in Hxx as [(<- & <- & _)|(Hne & Hxx)]; [by left|by right]. }
  assert (forall g', group m g' -> g' <> e_g e ->
    block d s' (slot_block m' g' (cur_slot m' g')) = block d s (slot_block m g' (cur_slot m g'))) as Hoth.
  { intros g' Hg' Hne. change (cur_slot m' g') with (cur_slot m1 g'). unfold m1. rewrite cur_slot_written by done.
    rewrite (proj2 (Z.eqb_neq _ _) Hne). change (slot_block m') with (slot_block m).
    destruct (cur_slot_01 m g' G Hg') as [H01 _]. apply Hsame.
    - pose proof (slot_block_on m g' (cur_slot m g') G Hg' H01 (cur_slot_room m s g' Hm Hg')). lia.
    - intros E. apply slot_block_inj in E as [-> _]; [done|done|done|done|lia|lia]. }
  assert (block d s' (slot_block m' (e_g e) (cur_slot m' (e_g e))) = e_bits e) as Hown.
  { change (cur_slot m' (e_g e)) with (cur_slot m1 (e_g e)). unfold m1. rewrite cur_slot_written, Z.eqb_refl by done. exact Hw. }
  assert (m_cache m' !! i = Some (clean e)) as Hi' by (apply list_lookup_insert_eq; done).
  assert (forall g', group m g' -> cur m' s' g' = cur m s g') as Hcur.
  { intros g' Hg'. unfold cur at 1. destruct (cached (m_cache m') g' 0) as [j|] eqn:E.
    - apply cached_Some in E as (x & _ & Hxx & Hvx & <-). rewrite Nat.sub_0_r in Hxx. rewrite (entry_lookup m' j x Hxx).
      apply Hlk in Hxx as [[-> ->]|[Hj Hxx]]; symmetry; [exact (cur_entry m s i e Hm He Hv)|by apply (cur_entry m s j x)].
    - pose proof (cached_None _ _ _ E) as Hn. rewrite Hoth; [|done|by intros ->; apply (Hn i (clean e))].
      rewrite cur_miss; [done|]. intros j x Hxx Hvx. destruct (decide (j = i)) as [->|Hj].
      + rewrite He in Hxx. simplify_eq. by apply (Hn i (clean x)).
      + apply (Hn j x); [cbn; by rewrite list_lookup_insert_ne|done]. }
  split_and!; [done| |done|done|done].
  apply (gm_ok_keep m s); [done|by apply geo_put_entry|by repeat split|done|done| | | |].
  - intros j x [[-> ->]|[Hj Hxx]]%Hlk; [done|by apply (go_ent _ _ Hm j)].
  - intros j x [[-> ->]|[Hj Hxx]]%Hlk Hvx; [split_and!; [done|by cbn|done]|].
    pose proof (go_val _ _ Hm j x Hxx Hvx) as Hgx. split_and!; [done| |by apply (go_room _ _ Hm j)].
    intros Hdx. rewrite Hoth; [by apply (go_clean _ _ Hm j)|done|]. intros Eg. apply Hj. by apply (go_uniq _ _ Hm j i x e).
  - intros j k x y [[-> ->]|[Hj Hxx]]%Hlk [[-> ->]|[Hk Hyy]]%Hlk Hvx Hvy Hgg; [done| | |].
    + destruct Hk. by apply (go_uniq _ _ Hm k i y e).
    + destruct Hj. by apply (go_uniq _ _ Hm j i x e).
    + by apply (go_uniq _ _ Hm j k x y).
  - intros g' Hg' Hw'. destruct Hg' as [? ?]. destruct Hg as [? ?]. destruct (gg_ng m G) as [Hn _].
    cbn [m' m1 m_written put_entry set_cache set_written] in Hw'. rewrite nthZ_setZ in Hw' by (rewrite ?(gg_wlen m G); lia).
    destruct (Z.eqb_spec g' (e_g e)) as [->|]; [done|]. apply (go_room' _ _ Hm); [done|by left].
Qed.

(** ** Loading a group *)

Lemma slot_block_pos m g sl : gm_geo m -> group m g -> 0 <= sl -> 0 <= slot_block m g sl.
Proof. intros G Hg Hs. rewrite slot_block_eq by done. pose proof (gg_gb m G). destruct Hg. zcase; nia. Qed.

Lemma gm_ok_disk m s s' : gm_ok m s -> same_disk d s s' -> gm_ok m s' /\ (forall g, group m g -> cur m s' g = cur m s g).
Proof.
  intros Hm Hsame. pose proof (go_geo _ _ Hm) as G.
  assert (forall g, group m g -> block d s' (slot_block m g (cur_slot m g)) = block d s (slot_block m g (cur_slot m g))) as Hbl.
  { intros g Hg. apply Hsame, slot_block_pos; [done|done|]. apply (cur_slot_01 m g G Hg). }
  assert (forall g, group m g -> cur m s' g = cur m s g) as Hcur.
  { intros g Hg. unfold cur. destruct (cached _ _ _); [done|by apply Hbl]. }
  split; [|done]. apply (gm_ok_keep m s); [done|done|apply gm_like_refl|done|done|apply (go_ent _ _ Hm)| |apply (go_uniq _ _ Hm)|].
  - intros i e He Hv. pose proof (go_val _ _ Hm i e He Hv). split_and!; [done| |by apply (go_room _ _ Hm i)].
    intros Hd. rewrite Hbl by done. by apply (go_clean _ _ Hm i).
  - intros g Hg Hw. apply (go_room' _ _ Hm); [done|by left].
Qed.

Lemma touch_ok m s i e clk : gm_ok m s -> m_cache m !! i = Some e ->
  let m' := put_entry (set_clock m clk) i (touch e clk) in
  gm_ok m' s /\ (forall g, group m g -> cur m' s g = cur m s g) /\ m_cache m' !! i = Some (touch e clk).
Proof.
  intros Hm He m'. pose proof (lookup_lt_Some _ _ _ He) as Hi.
  assert (m_cache m' !! i = Some (touch e clk)) as Hi' by (apply list_lookup_insert_eq; done).
  assert (forall j x, m_cache m' !! j = Some x -> exists y, m_cache m !! j = Some y /\
    e_bits x = e_bits y /\ e_g x = e_g y /\ e_valid x = e_valid y /\ e_dirty x = e_dirty y) as Hlk.
  { intros j x Hx. cbn in Hx. apply list_lookup_insert_Some in Hx as [(<- & <- & _)|(Hne & Hx)]; eauto 10. }
  assert (forall j y, m_cache m !! j = Some y -> exists x, m_cache m' !! j = Some x /\ e_valid x = e_valid y /\ e_g x = e_g y) as Hlk'.
  { intros j y Hy. destruct (decide (j = i)) as [->|Hne]; [rewrite He in Hy; simplify_eq; eauto|].
    exists y. cbn. by rewrite list_lookup_insert_ne. }
  assert (forall g, group m g -> cur m' s g = cur m s g) as Hcur.
  { intros g Hg. unfold cur at 1. destruct (cached (m_cache m') g 0) as [j|] eqn:E.
    - apply cached_Some in E as (x & _ & Hx & Hvx & <-). rewrite Nat.sub_0_r in Hx. rewrite (entry_lookup m' j x Hx).
      destruct (Hlk j x Hx) as (y & Hy & -> & -> & Ev & _). symmetry. apply (cur_entry m s j y); congruence.
    - rewrite cur_miss; [done|]. intros j y Hy Hvy Hgy. destruct (Hlk' j y Hy) as (x & Hx & Ev & Eg).
      apply (cached_None _ _ _ E j x Hx); congruence. }
  split; [|done]. apply (gm_ok_keep m s); [done|apply geo_put_entry, geo_clock, (go_geo _ _ Hm)|by repeat split|done|done| | | |].
  - intros j x (y & Hy & -> & _)%Hlk. by apply (go_ent _ _ Hm j).
  - intros j x (y & Hy & -> & -> & -> & ->)%Hlk Hv. split_and!; [by apply (go_val _ _ Hm j)|by apply (go_clean _ _ Hm j)|by apply (go_room _ _ Hm j)].
  - intros j k x y (x' & Hx' & _ & -> & -> & _)%Hlk (y' & Hy' & _ & -> & -> & _)%Hlk. by apply (go_uniq _ _ Hm).
  - intros g Hg Hw. apply (go_room' _ _ Hm); [done|by left].
Qed.

(** The entry of group [g] holds its bitmap, and no bitmap changed. *)
Definition group_loaded m s (g : Z) (r : option nat) m' s' : Prop :=
  exists i e, r = Some i /\ m_cache m' !! i = Some e /\ e_valid e = true /\ e_g e = g /\ e_bits e = cur m s g /\
    gm_ok m' s' /\ m_free m' = m_free m /\ (forall g', group m g' -> cur m' s' g' = cur m s g').

Lemma load_into_spec m i e g s : gm_ok m s -> bd_ok s -> m_cache m !! i = Some e -> (e_valid e && e_dirty e) = false -> group m g ->
  (forall j e, m_cache m !! j = Some e -> e_valid e = true -> e_g e <> g) ->
  exists r m' s', load_into m i g s = (r, m', s') /\ bd_ok s' /\ bd_dead s' = bd_dead s /\ gm_like m m' /\ same_disk d s s' /\
    group_loaded m s g r m' s'.
Proof.
  intros Hm Hs He Hvd Hg Hmiss. pose proof (go_geo _ _ Hm) as G. unfold load_into. rewrite (entry_lookup m i e He).
  destruct (cur_slot_01 m g G Hg) as [H01 _]. destruct (go_ent _ _ Hm i e He) as [Hl Hb].
  destruct (gread_live m g (cur_slot m g) (e_bits e) s G Hg H01 (cur_slot_room m s g Hm Hg) Hs Hl Hb) as (s' & -> & Hs' & Hd' & Hsame).
  cbn [Z.eqb GMAP_OK negb]. eexists _, _, _. split_and!; [done|done|done|by repeat split|done|].
  destruct (gm_ok_disk m s s' Hm Hsame) as [Hm' Hcur'].
  assert (block d s (slot_block m g (cur_slot m g)) = cur m s' g) as -> by (rewrite Hcur', cur_miss by done; done).
  destruct (swap_ok m s' i e g (u32 (m_clock m + 1)) Hm' Hs' He Hvd Hg Hmiss) as (H1 & H2 & H3).
  eexists _, _. split_and!; [done|exact H3|done|done| |exact H1|done|].
  - cbn. by apply Hcur'.
  - intros g' Hg'. rewrite H2 by done. by apply Hcur'.
Qed.

Lemma load_spec m g s : gm_ok m s -> bd_ok s -> bd_dead s = false -> group m g ->
  exists r m' s', load m g s = (r, m', s') /\ bd_ok s' /\ gm_like m m' /\ gm_frame m s s' /\
    (bd_dead s' = false -> group_loaded m s g r m' s').
Proof.
  intros Hm Hs Hx Hg. unfold load. destruct (cached (m_cache m) g 0) as [i|] eqn:E.
  { apply cached_Some in E as (e & _ & He & Hv & <-). rewrite Nat.sub_0_r in He. rewrite (entry_lookup m i e He).
    destruct (touch_ok m s i e (u32 (m_clock m + 1)) Hm He) as (H1 & H2 & H3).
    eexists _, _, _. split_and!; [done|done|by repeat split|by apply frame_same|]. intros _.
    eexists _, _. split_and!; [done|exact H3|done|done| |exact H1|done|exact H2]. cbn. symmetry. by apply (cur_entry m s i). }
  pose proof (cached_None _ _ _ E) as Hmiss. pose proof (go_geo _ _ Hm) as G.
  destruct (victim_Some (m_cache m) 0 None) as [i Hi]. { right. intros En. pose proof (gg_clen m G) as Hc. by rewrite En in Hc. }
  rewrite Hi. assert (i < 8)%nat as Hlt. { pose proof (victim_lt _ _ _ _ Hi ltac:(done)) as H. rewrite (gg_clen m G) in H. lia. }
  destruct (lookup_lt_is_Some_2 (m_cache m) i ltac:(rewrite (gg_clen m G); lia)) as [e He]. rewrite (entry_lookup m i e He).
  destruct (e_valid e && e_dirty e) eqn:Evd.
  2: { destruct (load_into_spec m i e g s Hm Hs He Evd Hg Hmiss) as (r & m' & s' & -> & H1 & H2 & H3 & H4 & H5).
       eexists _, _, _. split_and!; [done|done|done|by apply frame_same|done]. }
  unbool. destruct (flush_one_spec m i e s Hm Hs Hx He) as (rc & m1 & s1 & -> & Hs1 & Hl1 & Hf1 & Hlive); [done|done|].
  destruct (bd_dead s1) eqn:Hx1.
  - destruct (negb (rc =? GMAP_OK)).
    + eexists _, _, _. split_and!; [done|done| |done|congruence]. destruct Hl1 as (?&?&?&?&?&?). by repeat split.
    + unfold load_into. destruct (gread_frozen m1 g (cur_slot m1 g) (e_bits (entry m1 i)) s1) as (rc2 & b2 & s2 & -> & Hs2 & Hd2 & Hsame2);
        [destruct Hl1 as (-> & _); apply (gg_dev m G)|done|].
      assert (gm_frame m s s2) as Hf2 by (apply (frame_trans m m1 s s1 s2); [done|done|by apply frame_same]).
      destruct (negb (rc2 =? GMAP_OK)); eexists _, _, _; (split_and!; [done|done| |done|congruence]);
        destruct Hl1 as (?&?&?&?&?&?); by repeat split.
  - destruct (Hlive eq_refl) as (-> & Hm1 & Hc1 & Hfr1 & Hcur1). cbn [Z.eqb GMAP_OK negb].
    assert (m_cache m1 !! i = Some (clean e)) as He1 by (rewrite Hc1; apply list_lookup_insert_eq; by apply lookup_lt_Some in He).
    assert (forall j x, m_cache m1 !! j = Some x -> e_valid x = true -> e_g x <> g) as Hmiss1.
    { intros j x Hxx Hv. rewrite Hc1 in Hxx. apply list_lookup_insert_Some in Hxx as [(<- & <- & _)|(_ & Hxx)];
        [by apply (Hmiss i e)|by apply (Hmiss j x)]. }
    assert (group m1 g) as Hg1 by (unfold group; destruct Hl1 as (_&_&_&_&->&_); done).
    destruct (load_into_spec m1 i (clean e) g s1 Hm1 Hs1 He1) as (r & m2 & s2 & -> & Hs2 & Hd2 & Hl2 & Hsame2 & Hld);
      [by rewrite andb_false_r|done|done|].
    eexists _, _, _. split_and!; [done|done|by apply (gm_like_trans m m1)|apply (frame_trans m m1 s s1 s2); [done|done|by apply frame_same]|].
    intros _. destruct Hld as (k & x & -> & Hk & Hvx & Hgx & Hbx & Hm2 & Hfr2 & Hcur2).
    eexists _, _. split_and!; [done|done|done|done| |done|congruence|].
    + rewrite Hbx. by apply Hcur1.
    + intros g' Hg'. rewrite Hcur2; [by apply Hcur1|]. unfold group. destruct Hl1 as (_&_&_&_&->&_). done.
Qed.

Lemma load_frozen m g s : m_dev m = Some d -> bd_ok s -> bd_dead s = true ->
  exists r m' s', load m g s = (r, m', s') /\ gm_like m m' /\ frozen d s s'.
Proof.
  intros Hd Hs Hx. assert (frozen d s s) as Hf0 by done. unfold load.
  destruct (cached (m_cache m) g 0); [eexists _, _, _; split_and!; [done|by repeat split|done]|].
  destruct (victim (m_cache m) 0 None) as [i|]; [|eexists _, _, _; split_and!; [done|by repeat split|done]].
  destruct (e_valid (entry m i) && e_dirty (entry m i)).
  - destruct (flush_one_frozen m i s Hd Hs Hx) as (s' & -> & Hf). cbn [Z.eqb GMAP_EIO GMAP_OK negb].
    eexists _, _, _; split_and!; [done|by repeat split|done].
  - unfold load_into. destruct (gread_frozen m g (cur_slot m g) (e_bits (entry m i)) s Hd Hs) as (rc & b & s' & -> & Hs' & Hx' & Hsame).
    destruct (negb (rc =? GMAP_OK)); eexists _, _, _; (split_and!; [done|by repeat split|]); split_and!; congruence || done.
Qed.

Lemma frozen_trans s1 s2 s3 : frozen d s1 s2 -> frozen d s2 s3 -> frozen d s1 s3.
Proof. intros (_ & _ & H1) (A & B & H2). split_and!; [done|done|]. intros b Hb. by rewrite H2, H1. Qed.

(** ** Editing a loaded bitmap *)

Definition free_in (bits : list Z) (n : Z) : Z := countb (fun i => negb (bit_of bits i)) (seqZ 0 n).

Lemma edit_ok m s i e bits : gm_ok m s -> m_cache m !! i = Some e -> e_valid e = true ->
  length bits = 4096%nat -> bytes_ok bits -> 2 < valid_bits m (e_g e) ->
  (forall k, 0 <= k < reserved (e_g e) -> bit_of bits k = true) ->
  let m1 := put_entry m i (edit e bits) in
  let m' := set_free m1 (setZ (m_free m) (e_g e) (free_in bits (valid_bits m (e_g e)))) in
  gm_ok m' s /\ gm_like m m' /\ (forall g, group m g -> cur m' s g = if g =? e_g e then bits else cur m s g).
Proof.
  intros Hm He Hv Hl Hb Hr Hres m1 m'. pose proof (go_geo _ _ Hm) as G. pose proof (go_val _ _ Hm i e He Hv) as Hge.
  pose proof (lookup_lt_Some _ _ _ He) as Hi.
  assert (m_cache m' !! i = Some (edit e bits)) as Hi' by (apply list_lookup_insert_eq; done).
  assert (forall j x, m_cache m' !! j = Some x -> (j = i /\ x = edit e bits) \/ (j <> i /\ m_cache m !! j = Some x)) as Hlk.
  { intros j x Hx. cbn in Hx. apply list_lookup_insert_Some in Hx as [(<- & <- & _)|(Hne & Hx)]; [by left|by right]. }
  assert (forall j x, m_cache m !! j = Some x -> e_valid x = true -> j <> i -> e_g x <> e_g e) as Hne.
  { intros j x Hx Hvx Hj Eg. apply Hj. by apply (go_uniq _ _ Hm j i x e). }
  assert (forall g, group m g -> cur m' s g = if g =? e_g e then bits else cur m s g) as Hcur.
  { intros g Hg. unfold cur at 1. destruct (cached (m_cache m') g 0) as [j|] eqn:E.
    - apply cached_Some in E as (x & _ & Hx & Hvx & <-). rewrite Nat.sub_0_r in Hx. rewrite (entry_lookup m' j x Hx).
      apply Hlk in Hx as [[-> ->]|[Hj Hx]]; cbn [e_g edit e_bits]; [by rewrite Z.eqb_refl|].
      rewrite (proj2 (Z.eqb_neq _ _) (Hne j x Hx Hvx Hj)). symmetry. by apply (cur_entry m s j).
    - pose proof (cached_None _ _ _ E) as Hn. destruct (Z.eqb_spec g (e_g e)) as [->|Hgne]; [by destruct (Hn i _ Hi')|].
      rewrite cur_miss; [done|]. intros j x Hx Hvx. destruct (decide (j = i)) as [->|Hj]; [by simplify_eq|].
      apply (Hn j x); [cbn; by rewrite list_lookup_insert_ne|done]. }
  split; [|split; [by repeat split|done]]. destruct (gg_ng m G) as [Hng _]. destruct Hge as [Hge1 Hge2]. split.
  - exact (geo_free m1 _ _ (geo_put_entry m i _ G)).
  - intros j x [[-> ->]|[Hj Hx]]%Hlk; [done|by apply (go_ent _ _ Hm j)].
  - intros j x [[-> ->]|[Hj Hx]]%Hlk Hvx; [exact (go_val _ _ Hm i e He Hv)|by apply (go_val _ _ Hm j)].
  - intros j x [[-> ->]|[Hj Hx]]%Hlk Hvx; [done|by apply (go_clean _ _ Hm j)].
  - intros j k x y [[-> ->]|[Hj Hx]]%Hlk [[-> ->]|[Hk Hy]]%Hlk Hvx Hvy Hgg; [done| | |].
    + by destruct (Hne k y Hy Hvy Hk).
    + by destruct (Hne j x Hx Hvx Hj).
    + by apply (go_uniq _ _ Hm j k x y).
  - intros j x [[-> ->]|[Hj Hx]]%Hlk Hvx; [done|by apply (go_room _ _ Hm j)].
  - apply (go_room' _ _ Hm).
  - intros g k Hg Hk. rewrite Hcur by done. destruct (Z.eqb_spec g (e_g e)) as [->|]; [by apply Hres|by apply (go_res _ _ Hm)].
  - intros g [Hg1 Hg2]. cbn in Hg2. rewrite Hcur by done. cbn [m' m_free set_free].
    rewrite nthZ_setZ by (rewrite ?(gg_flen m G); lia). change (valid_bits m' g) with (valid_bits m g).
    destruct (Z.eqb_spec g (e_g e)) as [->|]; [done|]. by apply (go_free _ _ Hm).
Qed.

(** ** Blocks *)

(** The blocks the map hands out: those of the volume that are not reserved. *)
Definition data_block m (b : Z) : Prop := 0 <= b < m_total m /\ reserved (b / m_gb m) <= b mod m_gb m.

Lemma block_group m b : gm_geo m -> 0 <= b < m_total m -> group m (b / m_gb m) /\ 0 <= b mod m_gb m < valid_bits m (b / m_gb m).
Proof.
  intros G Hb. pose proof (gg_gb m G). destruct (gg_ng m G) as [Hn [Hn1 Hn2]].
  pose proof (Z.div_mod b (m_gb m) ltac:(lia)). pose proof (Z.mod_pos_bound b (m_gb m) ltac:(lia)).
  assert (group m (b / m_gb m)) as Hg by (split; [apply Z.div_pos; lia|apply Z.div_lt_upper_bound; lia]).
  split; [done|]. rewrite valid_bits_eq by done. lia.
Qed.

Lemma group_block m g i : gm_geo m -> group m g -> 0 <= i < valid_bits m g ->
  (g * m_gb m + i) / m_gb m = g /\ (g * m_gb m + i) mod m_gb m = i /\ 0 <= g * m_gb m + i < m_total m.
Proof.
  intros G Hg Hi. rewrite valid_bits_eq in Hi by done. pose proof (gg_gb m G). destruct Hg.
  rewrite Z.add_comm, Z.div_add, Z.mod_add, Z.div_small, Z.mod_small by lia. split_and!; [done|done|nia|lia].
Qed.

Lemma free_data m s b : gm_ok m s -> 0 <= b < m_total m -> used m s b = false -> data_block m b.
Proof.
  intros Hm Hb Hu. split; [done|]. destruct (block_group m b (go_geo _ _ Hm) Hb) as [Hg Hi].
  destruct (Z.leb_spec (reserved (b / m_gb m)) (b mod m_gb m)); [done|].
  unfold used in Hu. by rewrite (go_res _ _ Hm) in Hu by (done || lia).
Qed.

Lemma data_not_slot m b g sl : gm_geo m -> group m g -> 0 <= sl <= 1 -> data_block m b -> b <> slot_block m g sl.
Proof.
  intros G Hg Hs [Hb Hr] ->. rewrite slot_block_eq in Hr by done. pose proof (gg_gb m G). revert Hr. unfold reserved.
  destruct (Z.eqb_spec g 0) as [->|Hg0].
  - rewrite Z.div_small, Z.mod_small by lia. cbn. lia.
  - rewrite (Z.add_comm (g * m_gb m)), Z.div_add, Z.mod_add, Z.div_small, Z.mod_small by lia.
    rewrite Z.add_0_l, (proj2 (Z.eqb_neq _ _) Hg0). lia.
Qed.

Lemma data_block_ge m b : gm_geo m -> data_block m b -> 20 <= b < m_total m.
Proof.
  intros G [Hb Hr]. split; [|lia]. pose proof (gg_gb m G). destruct (Z.ltb_spec b 64); [|lia].
  rewrite Z.div_small, Z.mod_small in Hr by lia. exact Hr.
Qed.

Lemma data_not_pending m b : gm_geo m -> data_block m b -> ~ pending m b.
Proof.
  intros G Hb (g & Hg & E). pose proof (gg_slot m G g Hg). by apply (data_not_slot m b g (1 - nthZ (m_slot m) g)) in Hb; [|done|done|lia].
Qed.

Lemma used_like m m' s s' b : gm_geo m -> m_gb m' = m_gb m -> (forall g, group m g -> cur m' s' g = cur m s g) -> 0 <= b < m_total m ->
  used m' s' b = used m s b.
Proof. intros G E H Hb. unfold used. rewrite E, H; [done|]. by apply block_group. Qed.

(** ** Taking blocks *)

Lemma skip_used_spec fuel bits valid i : 0 <= i <= valid -> valid - i <= Z.of_nat fuel ->
  let r := skip_used fuel bits valid i in
  i <= r <= valid /\ (forall k, i <= k < r -> bit_of bits k = true) /\ (r < valid -> bit_of bits r = false).
Proof.
  revert i. induction fuel as [|fuel IH]; intros i Hi Hf; cbn [skip_used].
  { split_and!; [lia|lia|lia|lia]. }
  destruct (Z.ltb_spec i valid) as [Hc|Hc]; cbn [andb]; [|split_and!; lia].
  destruct (bit_of bits i) eqn:E; [|by split_and!; [lia|lia|lia|]].
  destruct (IH (i + 1) ltac:(lia) ltac:(lia)) as (H1 & H2 & H3). split_and!; [lia|lia| |done].
  intros k Hk. destruct (Z.eq_dec k i) as [->|]; [done|]. apply H2. lia.
Qed.

Lemma take_run_spec fuel valid need i : forall bits j, 0 <= i <= j -> j <= valid -> valid <= 32768 -> length bits = 4096%nat -> bytes_ok bits ->
  j - i <= need -> let '(bits', j') := take_run fuel bits valid need i j in
  j <= j' <= valid /\ j' - i <= need /\ length bits' = 4096%nat /\ bytes_ok bits' /\
  (forall k, j <= k < j' -> bit_of bits k = false) /\
  (forall k, 0 <= k -> bit_of bits' k = if (j <=? k) && (k <? j') then true else bit_of bits k) /\
  (j < valid -> 0 < need - (j - i) -> bit_of bits j = false -> (0 < fuel)%nat -> j < j').
Proof.
  induction fuel as [|fuel IH]; intros bits j Hj Hv Hvm Hl Hb Hn; cbn [take_run].
  { split_and!; try lia; try done. intros k Hk. by zcase. }
  destruct ((j <? valid) && (j - i <? need) && negb (bit_of bits j)) eqn:E.
  2: { split_and!; try lia; try done; [intros k Hk; by zcase|]. intros H1 H2 H3 _. rewrite H3 in E. cbn in E. revert E. zcase; done. }
  unbool. specialize (IH (bit_put bits j true) (j + 1) ltac:(lia) ltac:(lia) Hvm
    ltac:(by rewrite length_bit_put) ltac:(by apply bytes_ok_bit_put) ltac:(lia)).
  destruct (take_run fuel _ valid need i (j + 1)) as [bits' j']. destruct IH as (I1 & I2 & I3 & I4 & I5 & I6 & _).
  assert (forall k, 0 <= k -> bit_of (bit_put bits j true) k = if k =? j then true else bit_of bits k) as Hp.
  { intros k Hk. apply bit_of_put; lia. }
  split_and!; [lia|lia|lia|done|done| | |lia].
  - intros k Hk. destruct (Z.eq_dec k j) as [->|]; [done|]. specialize (I5 k ltac:(lia)). rewrite Hp in I5 by lia. by zcase_in I5.
  - intros k Hk. rewrite I6, Hp by lia. zcase; done.
Qed.

Definition full m s (g : Z) : Prop := forall i, 0 <= i < valid_bits m g -> bit_of (cur m s g) i = true.

Lemma free_zero_full m s g : gm_ok m s -> group m g -> nthZ (m_free m) g = 0 -> full m s g.
Proof.
  intros Hm Hg Hz i Hi. rewrite (go_free _ _ Hm g Hg) in Hz. pose proof (proj1 (countb_zero _ _) Hz i) as H.
  specialize (H ltac:(apply elem_of_seqZ; lia)). by apply negb_false_iff in H.
Qed.

(** What taking the run [start, start + len) does. *)
Definition took m s (start len : Z) m' s' : Prop :=
  0 < len /\ 0 <= start /\ start + len <= m_total m /\ gm_ok m' s' /\
  (forall b, start <= b < start + len -> used m s b = false) /\
  (forall b, 0 <= b < m_total m -> used m' s' b = if (start <=? b) && (b <? start + len) then true else used m s b).

(** Marking a run of free bits of a loaded group. *)
Lemma take_bits m s x e bits i j : gm_ok m s -> bd_ok s -> m_cache m !! x = Some e -> e_valid e = true ->
  0 <= i < j -> j <= valid_bits m (e_g e) -> length bits = 4096%nat -> bytes_ok bits ->
  (forall k, i <= k < j -> bit_of (e_bits e) k = false) ->
  (forall k, 0 <= k -> bit_of bits k = if (i <=? k) && (k <? j) then true else bit_of (e_bits e) k) ->
  let m1 := put_entry m x (edit e bits) in
  let m' := set_free m1 (setZ (m_free m) (e_g e) (u32 (nthZ (m_free m) (e_g e) - (j - i)))) in
  took m s (e_g e * m_gb m + i) (j - i) m' s /\ gm_like m m'.
Proof.
  intros Hm Hs He Hv Hij Hj Hl Hb Hfree Hbits m1 m'. pose proof (go_geo _ _ Hm) as G. pose proof (go_val _ _ Hm x e He Hv) as Hg.
  pose proof (cur_entry m s x e Hm He Hv) as Hcur.
  assert (reserved (e_g e) <= i) as Hri.
  { destruct (Z.leb_spec (reserved (e_g e)) i); [done|]. pose proof (go_res _ _ Hm (e_g e) i Hg ltac:(lia)) as Hr.
    rewrite Hcur, Hfree in Hr by lia. done. }
  assert (2 <= reserved (e_g e)) as Hr2 by (unfold reserved; destruct (_ =? _); lia).
  assert (u32 (nthZ (m_free m) (e_g e) - (j - i)) = free_in bits (valid_bits m (e_g e))) as Hcnt.
  { rewrite (go_free _ _ Hm _ Hg), Hcur.
    rewrite (countb_seqZ_range (fun k => negb (bit_of bits k)) (fun k => negb (bit_of (e_bits e) k)) 0 _ i (j - i)); [|lia|lia|lia| |].
    - replace (_ + (j - i) - (j - i)) with (free_in bits (valid_bits m (e_g e))) by (unfold free_in; lia).
      apply u32_small. unfold free_in. pose proof (valid_bits_range m _ G Hg). pose proof (gg_gb m G).
      pose proof (countb_seqZ_le (fun k => negb (bit_of bits k)) 0 (valid_bits m (e_g e))). lia.
    - intros k Hk. rewrite Hbits, Hfree by lia. by zcase.
    - intros k Hk0 Hk. rewrite Hbits by lia. zcase; done. }
  unfold m', m1. rewrite Hcnt.
  destruct (edit_ok m s x e bits Hm He Hv Hl Hb ltac:(lia)) as (Hm' & Hlike & Hcur').
  { intros k Hk. rewrite Hbits by lia. rewrite <- Hcur, (go_res _ _ Hm) by done. by destruct (_ && _). }
  split; [|done]. assert (0 <= e_g e * m_gb m) by (destruct Hg; pose proof (gg_gb m G); nia).
  destruct (group_block m (e_g e) (j - 1) G Hg ltac:(lia)) as (_ & _ & Hend).
  assert (forall b, e_g e * m_gb m + i <= b < e_g e * m_gb m + j -> b / m_gb m = e_g e /\ i <= b mod m_gb m < j) as Hin.
  { intros b Hbb. destruct (group_block m (e_g e) (b - e_g e * m_gb m) G Hg ltac:(lia)) as (H1 & H2 & _).
    replace (e_g e * m_gb m + (b - e_g e * m_gb m)) with b in * by lia. lia. }
  split_and!; [lia|lia|lia|exact Hm'| |].
  - intros b Hbb. destruct (Hin b ltac:(lia)) as [E1 E2]. unfold used. rewrite E1, Hcur. by apply Hfree.
  - intros b Hbb. destruct (block_group m b G Hbb) as [Hgb Hib]. unfold used. cbn [m_gb set_free put_entry set_cache].
    rewrite Hcur' by done. destruct (Z.eqb_spec (b / m_gb m) (e_g e)) as [E|E].
    + rewrite Hbits, <- Hcur, <- E by lia. pose proof (gg_gb m G). pose proof (Z.div_mod b (m_gb m) ltac:(lia)) as Hdm. rewrite E in Hdm.
      zcase; done.
    + destruct (Z.leb_spec (e_g e * m_gb m + i) b); cbn [andb]; [|done].
      destruct (Z.ltb_spec b (e_g e * m_gb m + i + (j - i))); [|done]. destruct E. by apply Hin; lia.
Qed.

Lemma group_like m m' g : gm_like m m' -> group m' g <-> group m g.
Proof. intros (_&_&_&_&E&_). unfold group. by rewrite E. Qed.

Lemma valid_like m m' g : gm_like m m' -> valid_bits m' g = valid_bits m g.
Proof. intros (_&_&E1&E2&_&_). unfold valid_bits. by rewrite E1, E2. Qed.

Lemma took_from m s m1 s1 start len m' s' : gm_geo m -> gm_like m m1 -> (forall g, group m g -> cur m1 s1 g = cur m s g) ->
  took m1 s1 start len m' s' -> took m s start len m' s'.
Proof.
  intros G Hl Hc (H1 & H2 & H3 & H4 & H5 & H6). pose proof Hl as (_&_&Et&Eg&_&_). rewrite Et in *.
  assert (forall b, 0 <= b < m_total m -> used m1 s1 b = used m s b) as Hu by (intros; by apply used_like).
  split_and!; [done|done|done|done| |].
  - intros b Hb. rewrite <- Hu by lia. by apply H5.
  - intros b Hb. rewrite H6, Hu by done. done.
Qed.

(** What [gmap_take] returns, for a device that is still up. *)
Definition take_post m s need (rc start len : Z) m' s' : Prop :=
  (rc = GMAP_OK /\ len <= need /\ took m s start len m' s') \/
  (rc = GMAP_ENOSPC /\ gm_ok m' s' /\ m_free m' = m_free m /\ forall g, group m g -> cur m' s' g = cur m s g).

Lemma take_loop_frozen fuel g0 off0 need : forall k m s, m_dev m = Some d -> bd_ok s -> bd_dead s = true ->
  let '(rc, start, len, m', s') := take_loop fuel k g0 off0 need m s in gm_like m m' /\ frozen d s s'.
Proof.
  induction fuel as [|fuel IH]; intros k m s Hd Hs Hx; cbn [take_loop]; [split; [apply gm_like_refl|done]|].
  destruct (_ =? 0); [by apply IH|].
  destruct (load_frozen m ((g0 + k) mod m_ngroups m) s Hd Hs Hx) as (r & m1 & s1 & -> & Hl1 & Hf1).
  destruct r as [x|]; [|done]. destruct (_ =? valid_bits m1 _).
  - pose proof Hf1 as (Hs1 & Hx1 & _). specialize (IH (k + 1) m1 s1 ltac:(destruct Hl1 as (-> & _); done) Hs1 Hx1).
    destruct (take_loop fuel (k + 1) g0 off0 need m1 s1) as [[[[rc st] ln] m'] s']. destruct IH as [H1 H2].
    split; [by apply (gm_like_trans m m1)|by apply (frozen_trans s s1)].
  - destruct (take_run _ _ _ _ _ _) as [bits j]. split; [|done]. destruct Hl1 as (?&?&?&?&?&?). by repeat split.
Qed.

Lemma take_loop_spec fuel g0 off0 need : forall k m s, gm_ok m s -> bd_ok s -> bd_dead s = false -> 0 < need -> 0 <= g0 -> 0 <= k ->
  (k = 0 -> 0 <= off0 <= valid_bits m (g0 mod m_ngroups m)) ->
  let '(rc, start, len, m', s') := take_loop fuel k g0 off0 need m s in
  bd_ok s' /\ gm_like m m' /\ gm_frame m s s' /\
  (bd_dead s' = false -> take_post m s need rc start len m' s' /\
    (rc = GMAP_ENOSPC -> forall j, Z.max k 1 <= j < k + Z.of_nat fuel -> full m s ((g0 + j) mod m_ngroups m))).
Proof.
  induction fuel as [|fuel IH]; intros k m s Hm Hs Hx Hn Hg0 Hk Hoff; cbn [take_loop].
  { split_and!; [done|apply gm_like_refl|by apply frame_same|]. intros _. split; [by right|]. intros _ j Hj. lia. }
  pose proof (go_geo _ _ Hm) as G. destruct (gg_ng m G) as [Hng _]. set (g := (g0 + k) mod m_ngroups m).
  assert (group m g) as Hg by (split; apply Z.mod_pos_bound; lia).
  destruct (Z.eqb_spec (nthZ (m_free m) g) 0) as [Hz|Hz].
  { specialize (IH (k + 1) m s Hm Hs Hx Hn Hg0 ltac:(lia) ltac:(lia)). destruct (take_loop fuel (k + 1) _ _ _ m s) as [[[[rc st] ln] m'] s'].
    destruct IH as (H1 & H2 & H3 & H4). split_and!; [done|done|done|]. intros Hx'. destruct (H4 Hx') as [H5 H6]. split; [done|].
    intros Hrc j Hj. destruct (Z.eq_dec j k) as [->|]; [by apply free_zero_full|]. apply H6; [done|lia]. }
  destruct (load_spec m g s Hm Hs Hx Hg) as (r & m1 & s1 & -> & Hs1 & Hl1 & Hf1 & Hlive).
  destruct (bd_dead s1) eqn:Hx1.
  { destruct r as [x|]; [|split_and!; [done|done|done|congruence]].
    destruct (_ =? valid_bits m1 g).
    - pose proof (take_loop_frozen fuel g0 off0 need (k + 1) m1 s1 ltac:(destruct Hl1 as (-> & _); apply (gg_dev m G)) Hs1 Hx1) as Hfz.
      destruct (take_loop fuel (k + 1) g0 off0 need m1 s1) as [[[[rc st] ln] m'] s']. destruct Hfz as [H1 (H2 & H3 & H4)].
      split_and!; [done|by apply (gm_like_trans m m1)|apply (frame_trans m m1 s s1); [done|done|by apply frame_same]|congruence].
    - destruct (take_run _ _ _ _ _ _) as [bits j]. split_and!; [done| |done|cbn; congruence]. destruct Hl1 as (?&?&?&?&?&?). by repeat split. }
  destruct (Hlive eq_refl) as (x & e & -> & He & Hv & Heg & Heb & Hm1 & Hfr1 & Hcur1). rewrite (entry_lookup m1 x e He).
  rewrite (valid_like m m1 g Hl1), Heb. pose proof (valid_bits_range m g G Hg) as Hvr. pose proof (gg_gb m G).
  set (from := if k =? 0 then off0 else 0). assert (0 <= from <= valid_bits m g) as Hfrom.
  { unfold from. destruct (Z.eqb_spec k 0) as [->|]; [|lia]. unfold g. rewrite Z.add_0_r. by apply Hoff. }
  destruct (skip_used_spec (Z.to_nat (valid_bits m g - from)) (cur m s g) (valid_bits m g) from Hfrom ltac:(lia)) as (S1 & S2 & S3).
  set (i := skip_used _ _ _ _) in *. destruct (Z.eqb_spec i (valid_bits m g)) as [Ei|Ei].
  { assert (forall g, valid_bits m1 g = valid_bits m g) as Hvl by (intros; by apply valid_like).
    specialize (IH (k + 1) m1 s1 Hm1 Hs1 Hx1 Hn Hg0 ltac:(lia) ltac:(lia)).
    destruct (take_loop fuel (k + 1) _ _ _ m1 s1) as [[[[rc st] ln] m'] s']. destruct IH as (H1 & H2 & H3 & H4).
    split_and!; [done|by apply (gm_like_trans m m1)|by apply (frame_trans m m1 s s1)|]. intros Hx'. destruct (H4 Hx') as [H5 H6]. split.
    - destruct H5 as [(-> & Hle & Ht)|(-> & Hok & Hfr & Hc)]; [left|right].
      + split_and!; [done|done|]. by apply (took_from m s m1 s1).
      + split_and!; [done|done|congruence|]. intros g' Hg'. rewrite Hc by (by apply (group_like m m1)). by apply Hcur1.
    - intros Hrc j Hj. pose proof Hl1 as (_&_&_&_&En&_). rewrite En in H6. destruct (Z.eq_dec j k) as [->|].
      + intros b Hb. apply S2. unfold from. destruct (Z.eqb_spec k 0); [lia|]. fold g in Hb. lia.
      + intros b Hb. rewrite <- Hcur1 by (split; apply Z.mod_pos_bound; lia). apply H6; [done|lia|]. by rewrite Hvl. }
  destruct (cur_ok m s g Hm Hs) as [Hcl Hcb].
  pose proof (take_run_spec (Z.to_nat (valid_bits m g - i)) (valid_bits m g) need i (cur m s g) i ltac:(lia) ltac:(lia) ltac:(lia) Hcl Hcb ltac:(lia)) as Ht.
  destruct (take_run _ _ _ _ _ _) as [bits j]. destruct Ht as (T1 & T2 & T3 & T4 & T5 & T6 & T7).
  specialize (T7 ltac:(lia) ltac:(lia) (S3 ltac:(lia)) ltac:(lia)).
  assert (took m1 s1 (e_g e * m_gb m1 + i) (j - i)
    (set_free (put_entry m1 x (edit e bits)) (setZ (m_free m1) (e_g e) (u32 (nthZ (m_free m1) (e_g e) - (j - i))))) s1 /\
    gm_like m1 (set_free (put_entry m1 x (edit e bits)) (setZ (m_free m1) (e_g e) (u32 (nthZ (m_free m1) (e_g e) - (j - i)))))) as [Htk Hlk].
  { apply take_bits; [done|done|done|done|lia|rewrite Heg, (valid_like m m1 g Hl1); lia|done|done|by rewrite Heb|by rewrite Heb]. }
  rewrite Heg in Htk, Hlk. change (m_gb (set_free _ _)) with (m_gb m1). change (m_free (put_entry m1 x _)) with (m_free m1).
  split_and!; [done|by apply (gm_like_trans m m1)|done|]. intros _. split; [|done]. left. split_and!; [done|lia|].
  rewrite u64_small by (destruct Htk as (_ & _ & Hend & _), Hl1 as (_&_&Et&Eg&_&_), Hg as [Hg _]; rewrite Et, Eg in *; pose proof (gg_total m G); nia).
  by apply (took_from m s m1 s1).
Qed.

(** The whole call. *)
Lemma gmap_take_spec m hint need s : gm_ok m s -> bd_ok s -> bd_dead s = false -> 0 < need -> 0 <= hint <= m_total m ->
  let '(rc, start, len, m', s') := gmap_take m hint need s in
  bd_ok s' /\ gm_like m m' /\ gm_frame m s s' /\
  (bd_dead s' = false -> take_post m s need rc start len m' s' /\ (rc = GMAP_ENOSPC -> forall b, 0 <= b < m_total m -> used m s b = true)).
Proof.
  intros Hm Hs Hx Hn Hh. pose proof (go_geo _ _ Hm) as G. pose proof (gg_gb m G). pose proof (gg_total m G). destruct (gg_ng m G) as [Hng [Hn1 Hn2]].
  assert (0 <= hint / m_gb m) by (apply Z.div_pos; lia).
  assert (hint / m_gb m <= m_ngroups m) by (apply Z.div_le_upper_bound; lia).
  pose proof (Z.mod_pos_bound hint (m_gb m) ltac:(lia)). pose proof (Z.div_mod hint (m_gb m) ltac:(lia)).
  unfold gmap_take. rewrite (proj2 (Z.eqb_neq need 0)) by lia. rewrite !u32_small by lia.
  assert (forall g0 off0, 0 <= g0 < m_ngroups m -> 0 <= off0 <= valid_bits m g0 ->
    let '(rc, start, len, m', s') := take_loop (S (Z.to_nat (m_ngroups m))) 0 g0 off0 need m s in
    bd_ok s' /\ gm_like m m' /\ gm_frame m s s' /\
    (bd_dead s' = false -> take_post m s need rc start len m' s' /\ (rc = GMAP_ENOSPC -> forall b, 0 <= b < m_total m -> used m s b = true))) as Hall.
  { intros g0 off0 Hg0 Ho. pose proof (take_loop_spec (S (Z.to_nat (m_ngroups m))) g0 off0 need 0 m s Hm Hs Hx Hn ltac:(lia) ltac:(lia)) as Ht.
    destruct (take_loop _ 0 g0 off0 need m s) as [[[[rc st] ln] m'] s']. destruct Ht as (H1' & H2' & H3' & H4').
    { intros _. by rewrite Z.mod_small. }
    split_and!; [done|done|done|]. intros Hx'. destruct (H4' Hx') as [H5 H6]. split; [done|]. intros Hrc b Hb.
    destruct (block_group m b G Hb) as [Hg Hi]. set (g := b / m_gb m) in *. destruct Hg as [Hga Hgb].
    pose proof (Z.mod_pos_bound (g - g0 - 1) (m_ngroups m) ltac:(lia)) as Hmod.
    specialize (H6 Hrc ((g - g0 - 1) mod m_ngroups m + 1) ltac:(lia)).
    replace ((g0 + ((g - g0 - 1) mod m_ngroups m + 1)) mod m_ngroups m) with g in H6; [by apply H6|].
    replace (g0 + ((g - g0 - 1) mod m_ngroups m + 1)) with (g0 + 1 + (g - g0 - 1) mod m_ngroups m) by lia.
    rewrite Z.add_mod_idemp_r by lia. replace (g0 + 1 + (g - g0 - 1)) with g by lia. by rewrite Z.mod_small. }
  destruct (Z.leb_spec (m_ngroups m) (hint / m_gb m)) as [Hc|Hc].
  - apply Hall; [lia|]. pose proof (valid_bits_range m 0 G ltac:(split; lia)). lia.
  - apply Hall; [lia|]. rewrite valid_bits_eq by (done || split; lia). lia.
Qed.

Lemma gmap_take_frozen m hint need s : m_dev m = Some d -> bd_ok s -> bd_dead s = true ->
  let '(rc, start, len, m', s') := gmap_take m hint need s in gm_like m m' /\ frozen d s s'.
Proof.
  intros Hd Hs Hx. unfold gmap_take. destruct (need =? 0); [split; [apply gm_like_refl|done]|].
  destruct (_ <=? _); by apply take_loop_frozen.
Qed.

(** ** Releasing blocks *)

(** Clearing one used bit of a loaded group. *)
Lemma clear_bit m s x e b : gm_ok m s -> bd_ok s -> m_cache m !! x = Some e -> e_valid e = true ->
  data_block m b -> b / m_gb m = e_g e -> used m s b = true ->
  let i := b mod m_gb m in
  let m1 := put_entry m x (edit e (bit_put (e_bits e) i false)) in
  let m' := set_free m1 (setZ (m_free m) (e_g e) (u32 (nthZ (m_free m) (e_g e) + 1))) in
  gm_ok m' s /\ gm_like m m' /\ (forall c, 0 <= c < m_total m -> used m' s c = if c =? b then false else used m s c).
Proof.
  intros Hm Hs He Hv Hdb Hbg Hu i m1 m'. pose proof Hdb as [Hb Hres]. pose proof (go_geo _ _ Hm) as G. pose proof (go_val _ _ Hm x e He Hv) as Hg.
  pose proof (cur_entry m s x e Hm He Hv) as Hcur. destruct (block_group m b G Hb) as [_ Hi]. fold i in Hi, Hres. rewrite Hbg in *.
  destruct (go_ent _ _ Hm x e He) as [Hl Hbo]. pose proof (valid_bits_range m _ G Hg) as Hvr. pose proof (gg_gb m G) as Hgb.
  assert (forall k, 0 <= k -> bit_of (bit_put (e_bits e) i false) k = if k =? i then false else bit_of (e_bits e) k) as Hp.
  { intros k Hk. apply bit_of_put; lia. }
  assert (2 <= reserved (e_g e)) as Hr2 by (unfold reserved; destruct (_ =? _); lia).
  assert (bit_of (e_bits e) i = true) as Hbit by (unfold used in Hu; by rewrite Hbg, Hcur in Hu).
  assert (u32 (nthZ (m_free m) (e_g e) + 1) = free_in (bit_put (e_bits e) i false) (valid_bits m (e_g e))) as Hcnt.
  { rewrite (go_free _ _ Hm _ Hg), Hcur. unfold free_in.
    rewrite (countb_seqZ_range (fun k => negb (bit_of (e_bits e) k)) (fun k => negb (bit_of (bit_put (e_bits e) i false) k)) 0 _ i 1); [|lia|lia|lia| |].
    - apply u32_small. pose proof (countb_seqZ_le (fun k => negb (bit_of (e_bits e) k)) 0 (valid_bits m (e_g e))). lia.
    - intros k Hk. replace k with i by lia. by rewrite Hp, Z.eqb_refl, Hbit by lia.
    - intros k Hk1 Hk. rewrite Hp by lia. by zcase. }
  unfold m', m1. rewrite Hcnt.
  destruct (edit_ok m s x e (bit_put (e_bits e) i false) Hm He Hv) as (Hm' & Hlike & Hcur');
    [by rewrite length_bit_put|by apply bytes_ok_bit_put|lia| |].
  { intros k Hk. rewrite Hp by lia. rewrite <- Hcur, (go_res _ _ Hm) by done. zcase; done. }
  split_and!; [done|done|]. intros c Hc. destruct (block_group m c G Hc) as [Hgc Hic]. unfold used. cbn [m_gb set_free put_entry set_cache].
  rewrite Hcur' by done. destruct (Z.eqb_spec (c / m_gb m) (e_g e)) as [E|E].
  - rewrite Hp, <- Hcur, <- E by lia. pose proof (Z.div_mod b (m_gb m) ltac:(lia)). pose proof (Z.div_mod c (m_gb m) ltac:(lia)).
    fold i in H. rewrite Hbg, <- E in H. zcase; done.
  - destruct (Z.eqb_spec c b) as [->|]; [by destruct E|done].
Qed.

Lemma data_like m m' b : gm_like m m' -> data_block m' b <-> data_block m b.
Proof. intros (_&_&E1&E2&_&_). unfold data_block. by rewrite E1, E2. Qed.

Lemma release_loop_frozen k : forall b m s, m_dev m = Some d -> bd_ok s -> bd_dead s = true ->
  let '(rc, m', s') := release_loop k b m s in gm_like m m' /\ frozen d s s'.
Proof.
  induction k as [|k IH]; intros b m s Hd Hs Hx; cbn [release_loop]; [split; [apply gm_like_refl|done]|].
  destruct (load_frozen m (u32 (b / m_gb m)) s Hd Hs Hx) as (r & m1 & s1 & -> & Hl1 & Hf1).
  destruct r as [x|]; [|done]. destruct (negb _); [done|]. set (m2 := set_free _ _).
  assert (gm_like m m2) as Hl2 by (destruct Hl1 as (?&?&?&?&?&?); by repeat split). pose proof Hf1 as (Hs1 & Hx1 & _).
  specialize (IH (b + 1) m2 s1 ltac:(destruct Hl2 as (-> & _); done) Hs1 Hx1).
  destruct (release_loop k (b + 1) m2 s1) as [[rc m'] s']. destruct IH as [H1 H2].
  split; [by apply (gm_like_trans m m2)|by apply (frozen_trans s s1)].
Qed.

Lemma release_loop_spec k : forall b m s, gm_ok m s -> bd_ok s -> bd_dead s = false ->
  (forall c, b <= c < b + Z.of_nat k -> data_block m c /\ used m s c = true) ->
  let '(rc, m', s') := release_loop k b m s in
  bd_ok s' /\ gm_like m m' /\ gm_frame m s s' /\
  (bd_dead s' = false -> rc = GMAP_OK /\ gm_ok m' s' /\
    forall c, 0 <= c < m_total m -> used m' s' c = if (b <=? c) && (c <? b + Z.of_nat k) then false else used m s c).
Proof.
  induction k as [|k IH]; intros b m s Hm Hs Hx Hdat; cbn [release_loop].
  { split_and!; [done|apply gm_like_refl|by apply frame_same|]. intros _. split_and!; [done|done|]. intros c Hc. by zcase. }
  pose proof (go_geo _ _ Hm) as G. pose proof (gg_gb m G). pose proof (gg_total m G). destruct (Hdat b ltac:(lia)) as [Hdb Hu]. pose proof Hdb as [Hb _].
  destruct (block_group m b G Hb) as [Hg Hi]. pose proof (valid_bits_range m _ G Hg). destruct (gg_ng m G) as [Hng _].
  rewrite !u32_small by (destruct Hg; lia).
  destruct (load_spec m (b / m_gb m) s Hm Hs Hx Hg) as (r & m1 & s1 & -> & Hs1 & Hl1 & Hf1 & Hlive).
  destruct (bd_dead s1) eqn:Hx1.
  { destruct r as [x|]; [|split_and!; [done|done|done|congruence]]. destruct (negb _); [split_and!; [done|done|done|congruence]|].
    set (m2 := set_free _ _). assert (gm_like m m2) as Hl2 by (destruct Hl1 as (?&?&?&?&?&?); by repeat split).
    pose proof (release_loop_frozen k (b + 1) m2 s1 ltac:(destruct Hl2 as (-> & _); apply (gg_dev m G)) Hs1 Hx1) as Hfz.
    destruct (release_loop k (b + 1) m2 s1) as [[rc m'] s']. destruct Hfz as [K1 (K2 & K3 & K4)].
    split_and!; [done|by apply (gm_like_trans m m2)|apply (frame_trans m m1 s s1); [done|done|by apply frame_same]|congruence]. }
  destruct (Hlive eq_refl) as (x & e & -> & He & Hv & Heg & Heb & Hm1 & Hfr1 & Hcur1). rewrite (entry_lookup m1 x e He).
  pose proof Hl1 as (_&_&Et&Egb&_&_).
  assert (forall c, 0 <= c < m_total m -> used m1 s1 c = used m s c) as Hu1 by (intros; by apply used_like).
  assert (bit_of (e_bits e) (b mod m_gb m) = true) as -> by (rewrite Heb; exact Hu). cbn [negb].
  destruct (clear_bit m1 s1 x e b Hm1 Hs1 He Hv) as (Hm2 & Hl2 & Hu2);
    [by apply (data_like m m1)|by rewrite Egb, Heg|by rewrite Hu1|]. rewrite Egb, Heg in *.
  change (m_free (put_entry m1 x _)) with (m_free m1). set (m2 := set_free (put_entry m1 x _) _) in *.
  assert (gm_like m m2) as Hlm2 by (by apply (gm_like_trans m m1)). rewrite Et in Hu2.
  assert (forall c, b + 1 <= c < b + 1 + Z.of_nat k -> data_block m2 c /\ used m2 s1 c = true) as Hdat2.
  { intros c Hc. destruct (Hdat c ltac:(lia)) as [Hdc Huc]. split; [by apply (data_like m m2)|].
    rewrite Hu2, Hu1 by apply Hdc. zcase. done. }
  specialize (IH (b + 1) m2 s1 Hm2 Hs1 Hx1 Hdat2). destruct (release_loop k (b + 1) m2 s1) as [[rc m'] s'].
  destruct IH as (K1 & K2 & K3 & K4).
  split_and!; [done|by apply (gm_like_trans m m2)|apply (frame_trans m m2 s s1 s'); done|]. intros Hx'.
  destruct (K4 Hx') as (-> & Hok & Hu'). split_and!; [done|done|]. intros c Hc. pose proof Hlm2 as (_&_&Et2&_). rewrite Et2 in Hu'.
  rewrite Hu', Hu2, Hu1 by done. zcase; done.
Qed.

Lemma gmap_release_spec m start len s : gm_ok m s -> bd_ok s -> bd_dead s = false -> 0 <= start -> 0 <= len -> start + len <= m_total m ->
  (forall c, start <= c < start + len -> data_block m c /\ used m s c = true) ->
  let '(rc, m', s') := gmap_release m start len s in
  bd_ok s' /\ gm_like m m' /\ gm_frame m s s' /\
  (bd_dead s' = false -> rc = GMAP_OK /\ gm_ok m' s' /\
    forall c, 0 <= c < m_total m -> used m' s' c = if (start <=? c) && (c <? start + len) then false else used m s c).
Proof.
  intros Hm Hs Hx Hst Hl Hend Hdat. unfold gmap_release. pose proof (gg_total m (go_geo _ _ Hm)). rewrite u64_small by lia.
  pose proof (release_loop_spec (Z.to_nat (start + len - start)) start m s Hm Hs Hx) as Hr.
  rewrite Z2Nat.id in Hr by lia. replace (start + (start + len - start)) with (start + len) in Hr by lia. by apply Hr.
Qed.

Lemma gmap_release_frozen m start len s : m_dev m = Some d -> bd_ok s -> bd_dead s = true ->
  let '(rc, m', s') := gmap_release m start len s in gm_like m m' /\ frozen d s s'.
Proof. intros. by apply release_loop_frozen. Qed.

(** ** Flushing and committing *)

Definition all_clean m : Prop := forall i e, m_cache m !! i = Some e -> e_valid e = true -> e_dirty e = false.

Lemma flush_loop_frozen k : forall i m s, m_dev m = Some d -> bd_ok s -> bd_dead s = true ->
  let '(rc, m', s') := flush_loop k i m s in gm_like m m' /\ frozen d s s'.
Proof.
  induction k as [|k IH]; intros i m s Hd Hs Hx; cbn [flush_loop]; [split; [apply gm_like_refl|done]|].
  destruct (_ && _); [|by apply IH]. destruct (flush_one_frozen m i s Hd Hs Hx) as (s' & -> & Hf). split; [apply gm_like_refl|done].
Qed.

Lemma flush_loop_spec k : forall i m s, gm_ok m s -> bd_ok s -> bd_dead s = false -> (i + k = 8)%nat ->
  (forall j e, (j < i)%nat -> m_cache m !! j = Some e -> e_valid e = true -> e_dirty e = false) ->
  let '(rc, m', s') := flush_loop k i m s in
  bd_ok s' /\ gm_like m m' /\ gm_frame m s s' /\
  (bd_dead s' = false -> rc = GMAP_OK /\ gm_ok m' s' /\ all_clean m' /\ m_free m' = m_free m /\
    forall g, group m g -> cur m' s' g = cur m s g).
Proof.
  induction k as [|k IH]; intros i m s Hm Hs Hx Hik Hcl; cbn [flush_loop].
  { split_and!; [done|apply gm_like_refl|by apply frame_same|]. intros _. split_and!; try done.
    intros j e He. apply (Hcl j e); [|done]. pose proof (lookup_lt_Some _ _ _ He) as Hj. rewrite (gg_clen m (go_geo _ _ Hm)) in Hj. lia. }
  pose proof (go_geo _ _ Hm) as G. destruct (lookup_lt_is_Some_2 (m_cache m) i ltac:(rewrite (gg_clen m G); lia)) as [e He].
  rewrite (entry_lookup m i e He). destruct (e_valid e && e_dirty e) eqn:E.
  2: { apply IH; [done|done|done|lia|]. intros j x Hj Hxx Hv. destruct (Nat.eq_dec j i) as [->|]; [|apply (Hcl j x); [lia|done|done]].
       rewrite He in Hxx. simplify_eq. by rewrite Hv in E. }
  unbool. destruct (flush_one_spec m i e s Hm Hs Hx He) as (rc & m1 & s1 & -> & Hs1 & Hl1 & Hf1 & Hlive); [done|done|].
  destruct (bd_dead s1) eqn:Hx1.
  { destruct (negb _); [split_and!; [done|done|done|congruence]|].
    pose proof (flush_loop_frozen k (S i) m1 s1 ltac:(destruct Hl1 as (-> & _); apply (gg_dev m G)) Hs1 Hx1) as Hfz.
    destruct (flush_loop k (S i) m1 s1) as [[rc' m'] s']. destruct Hfz as [K1 (K2 & K3 & K4)].
    split_and!; [done|by apply (gm_like_trans m m1)|apply (frame_trans m m1 s s1); [done|done|by apply frame_same]|congruence]. }
  destruct (Hlive eq_refl) as (-> & Hm1 & Hc1 & Hfr1 & Hcur1). cbn [Z.eqb GMAP_OK negb].
  specialize (IH (S i) m1 s1 Hm1 Hs1 Hx1 ltac:(lia)). destruct (flush_loop k (S i) m1 s1) as [[rc' m'] s'].
  destruct IH as (K1 & K2 & K3 & K4).
  { intros j x Hj Hxx Hv. rewrite Hc1 in Hxx. apply list_lookup_insert_Some in Hxx as [(<- & <- & _)|(Hne & Hxx)]; [done|].
    apply (Hcl j x); [lia|done|done]. }
  split_and!; [done|by apply (gm_like_trans m m1)|by apply (frame_trans m m1 s s1)|]. intros Hx'.
  destruct (K4 Hx') as (-> & A1 & A2 & A3 & A4). split_and!; [done|done|done|congruence|].
  intros g Hg. rewrite A4 by (by apply (group_like m m1)). by apply Hcur1.
Qed.

Lemma clean_cur m s g : gm_ok m s -> all_clean m -> cur m s g = block d s (slot_block m g (cur_slot m g)).
Proof.
  intros Hm Hc. destruct (cur_cases m s g Hm) as [(i & e & He & Hv & <-)|H]; [|by apply cur_miss].
  rewrite (cur_entry m s i e Hm He Hv). apply (go_clean _ _ Hm i); [done|done|by apply (Hc i)].
Qed.

Lemma gmap_commit_fields m : gm_geo m -> let m' := gmap_commit m in
  m_dev m' = m_dev m /\ m_spb m' = m_spb m /\ m_total m' = m_total m /\ m_gb m' = m_gb m /\ m_ngroups m' = m_ngroups m /\
  m_free m' = m_free m /\ m_cache m' = m_cache m /\ length (m_slot m') = 512%nat /\ length (m_written m') = 512%nat /\
  (forall g, 0 <= g -> nthZ (m_slot m') g = if g <? m_ngroups m then cur_slot m g else nthZ (m_slot m) g) /\
  (forall g, 0 <= g -> nthZ (m_written m') g = if g <? m_ngroups m then 0 else nthZ (m_written m) g).
Proof.
  intros G. destruct (gg_ng m G) as [Hng _]. cbn zeta. unfold gmap_commit.
  refine (for_range_inv (fun k m' =>
    m_dev m' = m_dev m /\ m_spb m' = m_spb m /\ m_total m' = m_total m /\ m_gb m' = m_gb m /\ m_ngroups m' = m_ngroups m /\
    m_free m' = m_free m /\ m_cache m' = m_cache m /\ length (m_slot m') = 512%nat /\ length (m_written m') = 512%nat /\
    (forall g, 0 <= g -> nthZ (m_slot m') g = if g <? k then cur_slot m g else nthZ (m_slot m) g) /\
    (forall g, 0 <= g -> nthZ (m_written m') g = if g <? k then 0 else nthZ (m_written m) g)) 0 (m_ngroups m) _ m ltac:(lia) _ _).
  - split_and!; try done; [apply (gg_slen m G)|apply (gg_wlen m G)| |]; intros g Hg; by zcase.
  - intros k m' Hk (E1 & E2 & E3 & E4 & E5 & E6 & E7 & L1 & L2 & H1 & H2). rewrite Z.add_0_l.
    assert (nthZ (m_written m') k = nthZ (m_written m) k) as Ew by (rewrite H2 by lia; by zcase).
    assert (nthZ (m_slot m') k = nthZ (m_slot m) k) as Es by (rewrite H1 by lia; by zcase).
    rewrite Ew, Es. destruct (tst (nthZ (m_written m) k)) eqn:Et; cbn [m_dev m_spb m_total m_gb m_ngroups m_free m_cache m_slot m_written set_written set_slot];
      rewrite ?length_setZ; (split_and!; try done); intros g Hg.
    + rewrite nthZ_setZ, H1 by lia. unfold cur_slot at 1. zcase; subst; try done. unfold cur_slot. by rewrite Et.
    + rewrite nthZ_setZ, H2 by lia. zcase; done.
    + rewrite H1 by lia. zcase; try done. replace g with k by lia. unfold cur_slot. by rewrite Et.
    + rewrite nthZ_setZ, H2 by lia. zcase; done.
Qed.

(** Committing after a flush: every group's newest copy is its committed one. *)
Lemma gmap_commit_ok m s : gm_ok m s -> all_clean m -> let m' := gmap_commit m in
  gm_ok m' s /\ all_clean m' /\ (forall g, group m g -> cur m' s g = cur m s g /\ nthZ (m_slot m') g = cur_slot m g /\ nthZ (m_written m') g = 0) /\
  m_free m' = m_free m /\ m_dev m' = m_dev m /\ m_spb m' = m_spb m /\ m_total m' = m_total m /\ m_gb m' = m_gb m /\ m_ngroups m' = m_ngroups m.
Proof.
  intros Hm Hc m'. pose proof (go_geo _ _ Hm) as G. destruct (gmap_commit_fields m G) as (E1 & E2 & E3 & E4 & E5 & E6 & E7 & L1 & L2 & H1 & H2).
  fold m' in E1, E2, E3, E4, E5, E6, E7, L1, L2, H1, H2. clearbody m'.
  assert (forall g, group m g -> nthZ (m_slot m') g = cur_slot m g /\ nthZ (m_written m') g = 0 /\ cur_slot m' g = cur_slot m g) as Hgs.
  { intros g [Hg1 Hg2]. pose proof (H1 g Hg1) as A1. pose proof (H2 g Hg1) as A2. destruct (Z.ltb_spec g (m_ngroups m)); [|lia].
    unfold cur_slot at 2. by rewrite A1, A2. }
  assert (forall g, group m' g -> group m g) as Hgr by (unfold group; by rewrite E5).
  assert (forall g sl, slot_block m' g sl = slot_block m g sl) as Hsb by (intros; unfold slot_block; by rewrite E4).
  assert (forall g, valid_bits m' g = valid_bits m g) as Hvb by (intros; unfold valid_bits; by rewrite E3, E4).
  assert (forall g, group m g -> cur m' s g = cur m s g) as Hcur.
  { intros g Hg. unfold cur. rewrite E7. destruct (cached _ _ _) as [i|]; [unfold entry; by rewrite E7|].
    rewrite Hsb. by destruct (Hgs g Hg) as (_ & _ & ->). }
  split_and!; try done.
  - split.
    + split; rewrite ?E1, ?E2, ?E3, ?E4, ?E5, ?E6, ?E7; try apply G; try done.
      intros g Hg. destruct (Hgs g Hg) as (-> & _). pose proof (cur_slot_01 m g G Hg). lia.
    + rewrite E7. apply (go_ent _ _ Hm).
    + rewrite E7. unfold group. rewrite E5. apply (go_val _ _ Hm).
    + rewrite E7. intros i e He Hv Hd. rewrite Hsb. pose proof (go_val _ _ Hm i e He Hv) as Hg. destruct (Hgs _ Hg) as (_ & _ & ->).
      by apply (go_clean _ _ Hm i).
    + rewrite E7. apply (go_uniq _ _ Hm).
    + rewrite E7. intros i e He Hv Hd. rewrite (Hc i e He Hv) in Hd. done.
    + intros g Hg%Hgr [Hw|Hw]; destruct (Hgs g Hg) as (Es & Ew & _); rewrite Hvb; [by rewrite Ew in Hw|].
      rewrite Es in Hw. destruct (cur_slot_room m s g Hm Hg); [lia|done].
    + intros g i Hg%Hgr Hi. rewrite Hcur by done. by apply (go_res _ _ Hm).
    + intros g Hg%Hgr. rewrite E6, Hvb, Hcur by done. by apply (go_free _ _ Hm).
  - unfold all_clean. by rewrite E7.
  - intros g Hg. destruct (Hgs g Hg) as (-> & -> & _). split_and!; [by apply Hcur|done|done].
Qed.

(** The tables the superblock must hold. *)
Lemma gmap_export_spec m slot free : gm_geo m -> length slot = 512%nat -> length free = 512%nat ->
  let '(slot', free') := gmap_export m slot free in
  length slot' = 512%nat /\ length free' = 512%nat /\
  (forall g, 0 <= g -> nthZ slot' g = if g <? m_ngroups m then cur_slot m g else nthZ slot g) /\
  (forall g, 0 <= g -> nthZ free' g = if g <? m_ngroups m then nthZ (m_free m) g else nthZ free g).
Proof.
  intros G Ls Lf. destruct (gg_ng m G) as [Hng _]. unfold gmap_export.
  refine (for_range_inv (fun k '(slot', free') => length slot' = 512%nat /\ length free' = 512%nat /\
    (forall g, 0 <= g -> nthZ slot' g = if g <? k then cur_slot m g else nthZ slot g) /\
    (forall g, 0 <= g -> nthZ free' g = if g <? k then nthZ (m_free m) g else nthZ free g)) 0 (m_ngroups m) _ (slot, free) ltac:(lia) _ _).
  - split_and!; try done; intros g Hg; by zcase.
  - intros k [sl fr] Hk (L1 & L2 & H1 & H2). rewrite Z.add_0_l. split_and!; [by rewrite length_setZ|by rewrite length_setZ| |]; intros g Hg.
    + rewrite nthZ_setZ, H1 by lia. zcase; subst; done.
    + rewrite nthZ_setZ, H2 by lia. zcase; subst; done.
Qed.

(** ** Counting and querying *)

Lemma countb_fmap {A B} (P : B -> bool) (f : A -> B) l : countb P (f <$> l) = countb (fun x => P (f x)) l.
Proof. induction l as [|x l IH]; cbn; [done|]. by rewrite <- IH. Qed.

Lemma countb_shift (P : Z -> bool) lo n : countb P (seqZ lo n) = countb (fun i => P (lo + i)) (seqZ 0 n).
Proof. rewrite <- (countb_fmap P (Z.add lo)), fmap_add_seqZ, Z.add_0_r. done. Qed.

(** The free count is the number of free blocks of the volume. *)
Lemma gmap_free_total_spec m s : gm_ok m s -> gmap_free_total m = countb (fun b => negb (used m s b)) (seqZ 0 (m_total m)).
Proof.
  intros Hm. pose proof (go_geo _ _ Hm) as G. destruct (gg_ng m G) as [Hng [Hn1 Hn2]]. pose proof (gg_gb m G) as Hgb. pose proof (gg_total m G) as Ht.
  replace (m_total m) with (Z.min (m_total m) (m_ngroups m * m_gb m)) by lia. unfold gmap_free_total.
  refine (for_range_inv (fun k n => n = countb (fun b => negb (used m s b)) (seqZ 0 (Z.min (m_total m) (k * m_gb m)))) 0 (m_ngroups m) _ 0 ltac:(lia) _ _).
  - rewrite Z.mul_0_l, Z.min_r by lia. done.
  - intros k n Hk ->. rewrite Z.add_0_l. assert (group m k) as Hg by done. assert (k * m_gb m < m_total m) by nia.
    rewrite (go_free _ _ Hm k Hg), Z.min_r by lia. pose proof (valid_bits_range m k G Hg) as Hvr.
    replace (Z.min (m_total m) ((k + 1) * m_gb m)) with (k * m_gb m + valid_bits m k) by (rewrite valid_bits_eq by done; lia).
    rewrite countb_seqZ_split by nia. rewrite Z.add_0_l.
    rewrite (countb_shift _ (k * m_gb m)). rewrite (countb_seqZ_ext (fun i => negb (used m s (k * m_gb m + i))) (fun i => negb (bit_of (cur m s k) i))).
    + apply u64_small. pose proof (countb_seqZ_le (fun b => negb (used m s b)) 0 (k * m_gb m) ltac:(nia)).
      pose proof (countb_seqZ_le (fun i => negb (bit_of (cur m s k) i)) 0 (valid_bits m k) ltac:(lia)). lia.
    + intros i Hi. unfold used. destruct (group_block m k i G Hg ltac:(lia)) as (-> & -> & _). done.
Qed.

Lemma gmap_is_used_spec m b s : gm_ok m s -> bd_ok s -> bd_dead s = false -> 0 <= b < m_total m ->
  let '(rc, m', s') := gmap_is_used m b s in
  bd_ok s' /\ gm_like m m' /\ gm_frame m s s' /\
  (bd_dead s' = false -> rc = Z.b2z (used m s b) /\ gm_ok m' s' /\ forall c, 0 <= c < m_total m -> used m' s' c = used m s c).
Proof.
  intros Hm Hs Hx Hb. pose proof (go_geo _ _ Hm) as G. pose proof (gg_gb m G). pose proof (gg_total m G). destruct (gg_ng m G) as [Hng _].
  destruct (block_group m b G Hb) as [Hg Hi]. pose proof (valid_bits_range m _ G Hg). unfold gmap_is_used. rewrite !u32_small by (destruct Hg; lia).
  destruct (load_spec m (b / m_gb m) s Hm Hs Hx Hg) as (r & m1 & s1 & -> & Hs1 & Hl1 & Hf1 & Hlive).
  destruct r as [x|]; (split_and!; [done|done|done|]); intros Hx1; destruct (Hlive Hx1) as (y & e & Er & He & Hv & Heg & Heb & Hm1 & Hfr1 & Hcur1); [|done].
  injection Er as ->. rewrite (entry_lookup m1 y e He), Heb. split_and!; [done|done|]. intros c Hc. apply used_like; [done|apply Hl1|done|done].
Qed.

(** ** A fresh map *)

(** The bitmap of an empty group. *)
Definition fresh_group m (g : Z) (bits : list Z) : Prop :=
  length bits = 4096%nat /\ bytes_ok bits /\
  (forall k, 0 <= k < m_gb m -> bit_of bits k = (k <? reserved g) || (valid_bits m g <=? k)).

Lemma fresh_bits_spec m g bits : gm_geo m -> group m g -> length bits = 4096%nat -> bytes_ok bits ->
  let '(fr, b) := fresh_bits m g bits in fresh_group m g b /\ fr = free_in b (valid_bits m g).
Proof.
  intros G Hg Hl Hb. pose proof (gg_gb m G) as Hgb. pose proof (valid_bits_range m g G Hg) as Hvr. unfold fresh_bits.
  destruct (fill_buf (fun _ => 0) bits EXFS_BLOCK) as [L1 N1]; [change EXFS_BLOCK with 4096; lia|].
  set (b1 := for_range 0 EXFS_BLOCK (fun i b => setZ b i 0) bits) in *. clearbody b1. change EXFS_BLOCK with 4096 in N1.
  assert (forall k, 0 <= k < 32768 -> bit_of b1 k = false) as Hz.
  { intros k Hk. rewrite bit_of_testbit, N1 by (apply Z.div_pos; lia).
    rewrite (proj2 (Z.ltb_lt _ _)) by (apply Z.div_lt_upper_bound; lia). apply Z.bits_0. }
  assert (bytes_ok b1) as B1 by (apply bytes_ok_nth; intros o Ho; rewrite N1 by lia; zcase; lia).
  set (r := if g =? 0 then EXFS_DATA_START + 2 else 2). assert (r = reserved g) as Hr by done. assert (0 < r <= 20) as Hr0 by (rewrite Hr; unfold reserved; destruct (_ =? _); lia).
  assert (length (for_range 0 r (fun i b => bit_put b i true) b1) = 4096%nat /\ bytes_ok (for_range 0 r (fun i b => bit_put b i true) b1) /\
    forall k, 0 <= k < 32768 -> bit_of (for_range 0 r (fun i b => bit_put b i true) b1) k = (k <? r)) as (L2 & B2 & N2).
  { refine (for_range_inv (fun n b => length b = 4096%nat /\ bytes_ok b /\ forall k, 0 <= k < 32768 -> bit_of b k = (k <? n)) 0 r _ b1 ltac:(lia) _ _).
    - split_and!; [lia|done|]. intros k Hk. rewrite Hz by done. by zcase.
    - intros n b Hn (A1 & A2 & A3). rewrite Z.add_0_l. split_and!; [by rewrite length_bit_put|by apply bytes_ok_bit_put|].
      intros k Hk. rewrite bit_of_put, A3 by lia. by zcase. }
  set (b2 := for_range 0 r _ b1) in *. clearbody b2. rewrite Hr in *. clear Hr. set (v := valid_bits m g) in *.
  assert (forall i, 0 <= i -> let '(fr, b) := for_range 0 i (fun i '(free, b) =>
    if v <=? i then (free, bit_put b i true) else if negb (bit_of b i) then (free + 1, b) else (free, b)) (0, b2) in
    i <= m_gb m -> length b = 4096%nat /\ bytes_ok b /\ fr = countb (fun k => negb (bit_of b2 k)) (seqZ 0 (Z.min i v)) /\
    (forall k, 0 <= k < 32768 -> bit_of b k = (k <? reserved g) || ((v <=? k) && (k <? i)))) as Hloop.
  { intros i Hi. refine (for_range_inv (fun i '(fr, b) => i <= m_gb m -> length b = 4096%nat /\ bytes_ok b /\
      fr = countb (fun k => negb (bit_of b2 k)) (seqZ 0 (Z.min i v)) /\
      (forall k, 0 <= k < 32768 -> bit_of b k = (k <? reserved g) || ((v <=? k) && (k <? i)))) 0 i _ (0, b2) Hi _ _).
    - intros _. split_and!; [done|done|by rewrite Z.min_l by lia|]. intros k Hk. rewrite N2 by done. by zcase.
    - intros n [fr b] Hn IH. rewrite Z.add_0_l. cbn beta iota.
      destruct (Z.leb_spec v n) as [Hc|Hc].
      + intros Hle. destruct (IH ltac:(lia)) as (A1 & A2 & -> & A4). split_and!; [by rewrite length_bit_put|by apply bytes_ok_bit_put|by rewrite !Z.min_r by lia|].
        intros k Hk. rewrite bit_of_put, A4 by lia. by zcase.
      + destruct (Z.leb_spec (n + 1) (m_gb m)); [|by destruct (negb (bit_of b n)); intros; lia].
        destruct (IH ltac:(lia)) as (A1 & A2 & -> & A4). assert (bit_of b n = bit_of b2 n) as E by (rewrite A4, N2 by lia; by zcase).
        assert (countb (fun k => negb (bit_of b2 k)) (seqZ 0 (Z.min (n + 1) v)) =
          countb (fun k => negb (bit_of b2 k)) (seqZ 0 (Z.min n v)) + if negb (bit_of b2 n) then 1 else 0) as Ec.
        { rewrite !Z.min_l, countb_seqZ_split, countb_seqZ_one by lia. done. }
        rewrite E. destruct (negb (bit_of b2 n)); intros _; (split_and!; [done|done|lia|]); intros k Hk; rewrite A4 by done; by zcase. }
  specialize (Hloop (m_gb m) ltac:(lia)). destruct (for_range 0 (m_gb m) _ (0, b2)) as [fr b]. destruct (Hloop ltac:(lia)) as (A1 & A2 & -> & A4).
  split; [split_and!; [done|done|]|].
  - intros k Hk. rewrite A4 by lia. fold v. by zcase.
  - rewrite Z.min_r by lia. unfold free_in. apply countb_seqZ_ext. intros k Hk. rewrite A4, N2 by lia. by zcase.
Qed.

(** The buffers of the cache, which is static storage. *)
Definition cache_ok (c : list GMapEntry) : Prop :=
  length c = 8%nat /\ forall i e, c !! i = Some e -> length (e_bits e) = 4096%nat /\ bytes_ok (e_bits e).

Lemma cache_ok_invalid c : cache_ok c -> cache_ok (invalid <$> c) /\ (forall i e, (invalid <$> c) !! i = Some e -> e_valid e = false).
Proof.
  intros [Hl Hc]. split; [split; [by rewrite length_fmap|]|]; intros i e He; rewrite list_lookup_fmap in He;
    destruct (c !! i) as [x|] eqn:Ex; cbn in He; simplify_eq; [exact (Hc i x Ex)|done].
Qed.

(** A map with an empty cache and nothing pending is as good as the bitmaps in
    its committed slots. *)
Lemma gm_ok_disk_map m s : gm_geo m -> cache_ok (m_cache m) -> (forall i e, m_cache m !! i = Some e -> e_valid e = false) ->
  (forall g, group m g -> nthZ (m_written m) g = 0) ->
  (forall g, group m g -> nthZ (m_slot m) g = 1 -> 2 < valid_bits m g) ->
  (forall g, group m g -> let bits := block d s (slot_block m g (nthZ (m_slot m) g)) in
    (forall i, 0 <= i < reserved g -> bit_of bits i = true) /\ nthZ (m_free m) g = free_in bits (valid_bits m g)) ->
  gm_ok m s /\ all_clean m /\ (forall g, group m g -> cur m s g = block d s (slot_block m g (nthZ (m_slot m) g))).
Proof.
  intros G [_ Hc] Hinv Hw Hr Hb.
  assert (forall g, group m g -> cur_slot m g = nthZ (m_slot m) g) as Hcs by (intros g Hg; unfold cur_slot; by rewrite Hw).
  assert (forall g, group m g -> cur m s g = block d s (slot_block m g (nthZ (m_slot m) g))) as Hcur.
  { intros g Hg. rewrite cur_miss, Hcs; [done|done|]. intros i e He Hv. by rewrite (Hinv i e He) in Hv. }
  split_and!; [split|..]; try done; try (intros i e He Hv; by rewrite (Hinv i e He) in Hv).
  - intros i j e e' He He' Hv. by rewrite (Hinv i e He) in Hv.
  - intros g Hg [H|H]; [by rewrite Hw in H|by apply Hr].
  - intros g i Hg Hi. rewrite Hcur by done. by apply Hb.
  - intros g Hg. rewrite Hcur by done. by apply Hb.
Qed.

Lemma gmap_init_ok m total : cache_ok (m_cache m) -> 34 <= total <= 2 ^ 24 -> total * 4096 <= sector_count d * sector_size d ->
  4096 mod sector_size d = 0 ->
  exists m', gmap_init m (Some d) total 32768 = (GMAP_OK, m') /\ gm_geo m' /\ m_total m' = total /\ m_gb m' = 32768 /\
    cache_ok (m_cache m') /\ (forall i e, m_cache m' !! i = Some e -> e_valid e = false) /\
    (forall g, nthZ (m_slot m') g = 0 /\ nthZ (m_written m') g = 0 /\ nthZ (m_free m') g = 0).
Proof.
  intros Hc Ht Hfit Hdiv. unfold gmap_init. change (32768 <? GMAP_GROUP_MIN) with false. change (GMAP_GROUP_MAX <? 32768) with false.
  cbn [orb]. change (tst (32768 .& (32768 - 1))) with false. cbn [blk_sector_size]. pose proof bd_geometry as (G1 & G2 & G3).
  rewrite u64_small by lia. set (ng := (total + 32768 - 1) / 32768).
  assert ((ng - 1) * 32768 < total <= ng * 32768 /\ 0 < ng <= 512) as [Hng Hng'].
  { unfold ng. pose proof (Z.div_mod (total + 32768 - 1) 32768 ltac:(lia)). pose proof (Z.mod_pos_bound (total + 32768 - 1) 32768 ltac:(lia)). lia. }
  rewrite (proj2 (Z.eqb_neq ng 0)) by lia. change GMAP_MAX_GROUPS with 512 at 1. rewrite (proj2 (Z.ltb_ge 512 ng)) by lia. cbn [orb].
  rewrite (proj2 (Z.eqb_neq (sector_size d) 0)) by lia. change EXFS_BLOCK with 4096. rewrite Hdiv, Z.eqb_refl. cbn [orb negb].
  rewrite u32_small by lia. eexists. split; [done|]. pose proof (cache_ok_invalid (m_cache m) Hc) as [Hc' Hinv].
  split_and!; [split| | | | |]; cbn [m_dev m_spb m_total m_gb m_ngroups m_slot m_written m_free m_cache]; try done; try lia.
  - split; [apply Z.div_str_pos; split; [lia|apply Z.divide_pos_le; [lia|by apply Z.mod_divide; lia]]|].
    rewrite Z.mul_comm. symmetry. apply Z_div_exact_full_2; [lia|done].
  - apply Hc'.
  - intros g _. left. apply nthZ_replicate.
  - intros g. split_and!; apply nthZ_replicate.
Qed.

(** ** Formatting *)

Definition format_written m (g : Z) s : Prop :=
  forall g', 0 <= g' < g -> fresh_group m g' (block d s (slot_block m g' 0)) /\
    nthZ (m_free m) g' = free_in (block d s (slot_block m g' 0)) (valid_bits m g').

Lemma format_loop_frozen k : forall g m bits s, m_dev m = Some d -> bd_ok s -> bd_dead s = true ->
  let '(rc, m', s') := format_loop k g m bits s in m_dev m' = Some d /\ frozen d s s'.
Proof.
  induction k as [|k IH]; intros g m bits s Hd Hs Hx; cbn [format_loop]; [done|]. destruct (fresh_bits m g bits) as [fr b].
  destruct (gwrite_frozen (set_free m (setZ (m_free m) g fr)) g 0 b s Hd Hs Hx) as (s' & -> & Hf). done.
Qed.

(** Nothing is handed out yet, everything that is not reserved is free. *)
Definition blank m s : Prop := gm_ok m s /\ all_clean m /\ (forall b, 0 <= b < m_total m -> used m s b = true <-> ~ data_block m b) /\
  (forall g, group m g -> nthZ (m_slot m) g = 0 /\ nthZ (m_written m) g = 0).

Lemma format_loop_spec k : forall g m bits s, gm_geo m -> cache_ok (m_cache m) -> bd_ok s -> bd_dead s = false -> 0 <= g ->
  g + Z.of_nat k = m_ngroups m -> length bits = 4096%nat -> bytes_ok bits -> (forall g, nthZ (m_slot m) g = 0 /\ nthZ (m_written m) g = 0) ->
  format_written m g s ->
  let '(rc, m', s') := format_loop k g m bits s in
  bd_ok s' /\ (forall b, 0 <= b -> (forall g, group m g -> b <> slot_block m g 0) -> block d s' b = block d s b) /\
  (bd_dead s' = false -> rc = GMAP_OK /\ blank m' s' /\ m_total m' = m_total m /\ m_gb m' = m_gb m /\ m_ngroups m' = m_ngroups m).
Proof.
  induction k as [|k IH]; intros g m bits s G Hc Hs Hx Hg0 Hk Hl Hb H0 Hw; cbn [format_loop].
  { split_and!; [done|done|]. intros _. split_and!; try done. unfold invalidate_cache.
    destruct (cache_ok_invalid _ Hc) as [Hc' Hinv]. set (m' := set_cache m (invalid <$> m_cache m)).
    assert (gm_geo m') as G' by (destruct G; split; try done; apply Hc').
    assert (forall g', group m g' -> fresh_group m g' (block d s (slot_block m g' (nthZ (m_slot m') g'))) /\
      nthZ (m_free m') g' = free_in (block d s (slot_block m g' (nthZ (m_slot m') g'))) (valid_bits m g')) as Hfr.
    { intros g' [Ha Hb']. cbn [m' m_slot set_cache m_free]. destruct (H0 g') as [-> _]. apply Hw. lia. }
    destruct (gm_ok_disk_map m' s G' Hc' Hinv) as (H1 & H2 & H3).
    - intros g' _. apply H0.
    - intros g' _. cbn [m' m_slot set_cache]. destruct (H0 g') as [-> _]. lia.
    - intros g' Hg'. destruct (Hfr g' Hg') as [(_ & _ & Hbits) Hfree]. split; [|exact Hfree]. intros i Hi. pose proof (gg_gb m G).
      assert (reserved g' <= 20) by (unfold reserved; destruct (_ =? _); lia).
      change (slot_block m') with (slot_block m). rewrite Hbits by lia. by zcase.
    - split_and!; [done|done| |intros; apply H0]. intros b Hbb. cbn [m' m_total set_cache] in Hbb. destruct (block_group m b G Hbb) as [Hg Hi].
      unfold used. change (m_gb m') with (m_gb m). rewrite (H3 _ Hg). change (slot_block m') with (slot_block m).
      destruct (Hfr _ Hg) as [(_ & _ & ->) _]; [|pose proof (valid_bits_range m _ G Hg); lia]. unfold data_block.
      change (m_gb m') with (m_gb m). change (m_total m') with (m_total m).
      rewrite (proj2 (Z.leb_gt _ _)) by lia. rewrite orb_false_r, Z.ltb_lt. lia. }
  assert (group m g) as Hg by (split; lia). pose proof (fresh_bits_spec m g bits G Hg Hl Hb) as Hf. destruct (fresh_bits m g bits) as [fr b].
  destruct Hf as [Hfg Hfr]. pose proof Hfg as (Hbl & Hbb & _). pose proof (geo_free m g fr G) as G1. set (m1 := set_free m _) in *.
  destruct (gwrite_live m1 g 0 b s G1 Hg ltac:(lia) ltac:(by left) Hs Hx Hbl Hbb) as (rc & s1 & -> & Hs1 & Hsame & Hlive & Hwr).
  change (slot_block m1) with (slot_block m) in *.
  assert (forall b0, 0 <= b0 -> (forall g, group m g -> b0 <> slot_block m g 0) -> block d s1 b0 = block d s b0) as Hfr1.
  { intros b0 Hb0 Hne. apply Hsame; [done|]. by apply Hne. }
  destruct (Z.eqb_spec rc GMAP_OK) as [->|Hrc]; cbn [negb].
  2: { split_and!; [done|done|]. intros H%Hlive. done. }
  specialize (Hwr eq_refl). set (m2 := set_written _ _).
  destruct (bd_dead s1) eqn:Hx1.
  { pose proof (format_loop_frozen k (g + 1) m2 b s1 (gg_dev m G) Hs1 Hx1) as Hfz.
    destruct (format_loop k (g + 1) m2 b s1) as [[rc' m'] s']. destruct Hfz as (_ & K2 & K3 & K4).
    split_and!; [done| |congruence]. intros b0 Hb0 Hne. rewrite K4 by done. by apply Hfr1. }
  destruct (gg_ng m G) as [Hng _].
  assert (forall g', nthZ (setZ (m_slot m) g 0) g' = 0 /\ nthZ (setZ (m_written m) g 0) g' = 0) as H0'.
  { intros g'. unfold nthZ, setZ. split; (destruct (decide (Z.to_nat g = Z.to_nat g')) as [<-|Hne];
      [rewrite list_lookup_insert_eq; [done|]|rewrite list_lookup_insert_ne by done; apply H0]);
      rewrite ?(gg_slen m G), ?(gg_wlen m G); lia. }
  assert (gm_geo m2) as G2.
  { destruct G1. split; try done; cbn [m2 m_slot m_written set_written set_slot m_ngroups m1 set_free]; rewrite ?length_setZ; try done.
    intros g' _. left. apply H0'. }
  assert (format_written m2 (g + 1) s1) as Hw2.
  { intros g' Hg'. change (valid_bits m2 g') with (valid_bits m g'). change (slot_block m2) with (slot_block m).
    change (fresh_group m2) with (fresh_group m). change (m_free m2) with (setZ (m_free m) g fr).
    rewrite nthZ_setZ by (rewrite ?(gg_flen m G); lia). destruct (Z.eqb_spec g' g) as [->|Hne]; [by rewrite Hwr|].
    rewrite Hsame; [apply Hw; lia|apply slot_block_pos; [done|split; lia|lia]|].
    intros E. apply slot_block_inj in E as [? _]; [done|done|split; lia|done|lia|lia]. }
  specialize (IH (g + 1) m2 b s1 G2 Hc Hs1 Hx1 ltac:(lia) ltac:(cbn; lia) Hbl Hbb H0' Hw2).
  destruct (format_loop k (g + 1) m2 b s1) as [[rc' m'] s']. destruct IH as (K1 & K2 & K3). split_and!; [done| |done].
  intros b0 Hb0 Hne. rewrite K2 by done. by apply Hfr1.
Qed.

(** ** Adopting the tables of a superblock *)

Lemma gmap_import_fields m slot free : gm_geo m -> let m' := gmap_import m slot free in
  m_dev m' = m_dev m /\ m_spb m' = m_spb m /\ m_total m' = m_total m /\ m_gb m' = m_gb m /\ m_ngroups m' = m_ngroups m /\
  m_cache m' = invalid <$> m_cache m /\ length (m_slot m') = 512%nat /\ length (m_written m') = 512%nat /\ length (m_free m') = 512%nat /\
  (forall g, group m g -> nthZ (m_slot m') g = (if tst (nthZ slot g) then 1 else 0) /\ nthZ (m_written m') g = 0 /\ nthZ (m_free m') g = nthZ free g).
Proof.
  intros G. destruct (gg_ng m G) as [Hng _]. cbn zeta. unfold gmap_import.
  set (f := fun g m => _). set (m1 := for_range 0 (m_ngroups m) f m).
  assert (m_dev m1 = m_dev m /\ m_spb m1 = m_spb m /\ m_total m1 = m_total m /\ m_gb m1 = m_gb m /\ m_ngroups m1 = m_ngroups m /\
    m_cache m1 = m_cache m /\ length (m_slot m1) = 512%nat /\ length (m_written m1) = 512%nat /\ length (m_free m1) = 512%nat /\
    (forall g, 0 <= g < m_ngroups m -> nthZ (m_slot m1) g = (if tst (nthZ slot g) then 1 else 0) /\ nthZ (m_written m1) g = 0 /\ nthZ (m_free m1) g = nthZ free g))
    as (E1 & E2 & E3 & E4 & E5 & E6 & L1 & L2 & L3 & H).
  { unfold m1. refine (for_range_inv (fun k m1 =>
      m_dev m1 = m_dev m /\ m_spb m1 = m_spb m /\ m_total m1 = m_total m /\ m_gb m1 = m_gb m /\ m_ngroups m1 = m_ngroups m /\
      m_cache m1 = m_cache m /\ length (m_slot m1) = 512%nat /\ length (m_written m1) = 512%nat /\ length (m_free m1) = 512%nat /\
      (forall g, 0 <= g < k -> nthZ (m_slot m1) g = (if tst (nthZ slot g) then 1 else 0) /\ nthZ (m_written m1) g = 0 /\ nthZ (m_free m1) g = nthZ free g))
      0 (m_ngroups m) f m ltac:(lia) _ _).
    - split_and!; try done; [apply (gg_slen m G)|apply (gg_wlen m G)|apply (gg_flen m G)|lia].
    - intros k mk Hk (E1 & E2 & E3 & E4 & E5 & E6 & L1 & L2 & L3 & H). rewrite Z.add_0_l. unfold f.
      cbn [m_dev m_spb m_total m_gb m_ngroups m_cache m_slot m_written m_free set_slot set_written set_free]. rewrite !length_setZ.
      split_and!; try done. intros g Hg. rewrite !nthZ_setZ by lia. destruct (Z.eqb_spec g k) as [->|]; [done|]. apply H. lia. }
  clearbody m1. cbn [invalidate_cache set_cache m_dev m_spb m_total m_gb m_ngroups m_cache m_slot m_written m_free]. rewrite E6. split_and!; done.
Qed.

(** A committed slot is never a pending one. *)
Lemma slot_not_pending m g : gm_geo m -> group m g -> ~ pending m (slot_block m g (nthZ (m_slot m) g)).
Proof.
  intros G Hg (g' & Hg' & E). pose proof (gg_slot m G g Hg). pose proof (gg_slot m G g' Hg').
  apply slot_block_inj in E as [-> E]; [lia|done|done|done|lia|lia].
Qed.

(** ** The map as a set of blocks *)

Inductive gop := GTake (hint need : Z) | GRelease (start len : Z) | GQuery (b : Z) | GFlush.

Definition gexec (op : gop) m s : Z * Z * Z * GMap D * D :=
  match op with
  | GTake hint need => gmap_take m hint need s
  | GRelease start len => let '(rc, m, s) := gmap_release m start len s in (rc, 0, 0, m, s)
  | GQuery b => let '(rc, m, s) := gmap_is_used m b s in (rc, 0, 0, m, s)
  | GFlush => let '(rc, m, s) := gmap_flush m s in (rc, 0, 0, m, s)
  end.

(** The calls a client may make when [U] is the set of blocks in use. *)
Definition legal m (U : Z -> bool) (op : gop) : Prop :=
  match op with
  | GTake hint need => 0 < need /\ 0 <= hint <= m_total m
  | GRelease start len => 0 <= start /\ 0 <= len /\ start + len <= m_total m /\
      (forall b, start <= b < start + len -> data_block m b /\ U b = true)
  | GQuery b => 0 <= b < m_total m
  | GFlush => True
  end.

Definition in_run (start len b : Z) : bool := (start <=? b) && (b <? start + len).

(** The specification: what a call answers and the set afterwards. *)
Definition set_spec m (U : Z -> bool) (op : gop) (rc start len : Z) (U' : Z -> bool) : Prop :=
  match op with
  | GTake _ need =>
    (rc = GMAP_OK /\ 0 < len <= need /\
      (forall b, start <= b < start + len -> data_block m b /\ U b = false) /\
      (forall b, 0 <= b < m_total m -> U' b = in_run start len b || U b)) \/
    (rc = GMAP_ENOSPC /\ (forall b, 0 <= b < m_total m -> U b = true /\ U' b = true))
  | GRelease st ln => rc = GMAP_OK /\ (forall b, 0 <= b < m_total m -> U' b = negb (in_run st ln b) && U b)
  | GQuery b => rc = Z.b2z (U b) /\ (forall b, 0 <= b < m_total m -> U' b = U b)
  | GFlush => rc = GMAP_OK /\ (forall b, 0 <= b < m_total m -> U' b = U b)
  end.

(** The device while a call runs: nothing but pending slots is written. *)
Definition only_pending m s s' : Prop :=
  (forall b, 0 <= b -> ~ pending m b -> block d s' b = block d s b) /\
  (forall g, group m g -> block d s' (slot_block m g (nthZ (m_slot m) g)) = block d s (slot_block m g (nthZ (m_slot m) g))).

Lemma frame_only_pending m s s' : gm_geo m -> gm_frame m s s' -> only_pending m s s'.
Proof.
  intros G H. split; [exact H|]. intros g Hg. apply H; [|by apply slot_not_pending].
  apply slot_block_pos; [done|done|]. destruct (gg_slot m G g Hg); lia.
Qed.

End Correct.

(** * Witness: a freshly formatted 34-block map on a RAM disk *)

#[export] Instance demo_geometry : RamGeometry 4096 34.
Proof. unfold RamGeometry. lia. Qed.

Definition demo_dev : BlkDev RamDisk := rd_dev 4096 34.
Definition demo_ram : RamDisk := mkRam ∅ 4096 34.
Definition demo_cache : list GMapEntry := replicate 8 (mkEntry (replicate 4096 0) 0 false false 0).
Definition demo_gm : GMap RamDisk := mkGMap None 0 0 0 0 [] [] [] demo_cache 0.

Lemma demo_cache_ok : cache_ok demo_cache.
Proof.
  split; [apply length_replicate|]. intros i e He. apply lookup_replicate in He as [-> _].
  split; [apply length_replicate|apply bytes_ok_zeros].
Qed.

Lemma demo_ram_ok : bd_ok demo_ram.
Proof. split; [done|]. intros a. unfold ram. cbn. rewrite lookup_empty. cbn. lia. Qed.

Lemma demo_formatted : exists m s, blank demo_dev m s /\ bd_ok s /\ m_total m = 34.
Proof.
  destruct (gmap_init_ok demo_dev demo_gm 34 demo_cache_ok) as (m & E & G & Ht & Hgb & Hc & Hi & Hz); [lia|cbn; lia|done|].
  pose proof (format_loop_spec demo_dev (Z.to_nat (m_ngroups m)) 0 m (replicate 4096 0) demo_ram G Hc demo_ram_ok eq_refl ltac:(lia)) as H.
  destruct (format_loop _ 0 m (replicate 4096 0) demo_ram) as [[rc m'] s']. destruct H as (H1 & _ & H3).
  - destruct (gg_ng demo_dev m G). lia.
  - apply length_replicate.
  - apply bytes_ok_zeros.
  - intros g. destruct (Hz g) as (? & ? & _). done.
  - intros g' Hg'. lia.
  - destruct (H3 eq_refl) as (_ & Hb & Ht' & _). exists m', s'. split_and!; [done|done|]. by rewrite Ht'.
Qed.

