(* ===== verification/Exfs.v ===== *)
(** EXFS: model of [source/core/exfs/exfs.c] and [exfs.h].

    The static structure [V] is the record [Vol]; every operation takes and
    returns it with the state of the device. The scratch buffers of [V]
    ([page], [itab], [fresh], [stage]) never carry a value from one call to
    the next and are local values here. A C string argument is the list of its
    characters without the terminator; reading past the list gives 0, as the
    terminator does. A file's name is the 96-byte buffer. *)

From S2P Require Import Prelude.
From S2P Require Import Bytes.
From S2P Require Import Blk.
From S2P Require Import ExfsDefs.
From S2P Require Import Gmap.
From S2P Require Import Sb.

Definition INODE_BYTES : Z := 256.
Definition POOL_MIN_CAP : Z := 8.

Record ExfsExtent := mkExt { x_start : Z; x_len : Z }.

Record ExfsFile := mkFile {
  f_used : bool; f_type : Z; f_size : Z; f_name : list Z;
  f_n : Z; f_ext_off : Z; f_ext_cap : Z;
  f_nchain : Z; f_chain : list Z; f_dirty : bool
}.

Record Vol (D : Type) := mkVol {
  v_dev : option (BlkDev D); v_spb : Z; v_total : Z; v_gen : Z; v_itab_start : Z;
  v_mounted : bool; v_broken : bool; v_dirty : bool;
  v_gm : GMap D; v_hint : Z;
  v_files : list ExfsFile;
  v_pool : Z -> ExfsExtent;
  v_pool_used : list Z;
  v_defer : list ExfsExtent
}.
Arguments mkVol {D}.
Arguments v_dev {D}.
Arguments v_spb {D}.
Arguments v_total {D}.
Arguments v_gen {D}.
Arguments v_itab_start {D}.
Arguments v_mounted {D}.
Arguments v_broken {D}.
Arguments v_dirty {D}.
Arguments v_gm {D}.
Arguments v_hint {D}.
Arguments v_files {D}.
Arguments v_pool {D}.
Arguments v_pool_used {D}.
Arguments v_defer {D}.

Definition itab_area (gen : Z) : Z := if tst (gen .& 1) then EXFS_ITAB_AREA1 else EXFS_ITAB_AREA0.

(** * C strings *)

(** The comparison loop of [find]. *)
Fixpoint str_eq (a b : list Z) : bool :=
  match a with
  | [] => 0 =? nthZ b 0
  | c :: a => if negb (c =? 0) && (c =? nthZ b 0) then str_eq a (tail b) else c =? nthZ b 0
  end.

Definition bar : Z := 124.

Definition name_ok (name : list Z) : bool :=
  if negb (nthZ name 0 =? bar) then false else
  let n := lenZ name in
  if (n <? 2) || (EXFS_NAME_MAX <? n) then false else
  if nthZ name (n - 1) =? bar then false else
  forallb (fun i => negb ((nthZ name i =? bar) && (nthZ name (i - 1) =? bar))) (seqZ 1 (n - 1)).

Definition is_root (name : list Z) : bool := (nthZ name 0 =? bar) && (nthZ name 1 =? 0).

(** The index of the last bar, -1 if there is none. *)
Definition last_bar (name : list Z) : Z :=
  for_range 0 (lenZ name) (fun i last => if nthZ name i =? bar then i else last) (-1).

Fixpoint starts_with (s p : list Z) : bool :=
  match p with
  | [] => true
  | c :: p => if negb (nthZ s 0 =? c) then false else starts_with (tail s) p
  end.

Section Volume.
Context {D : Type}.
Implicit Types (V : Vol D) (s : D) (f : ExfsFile).

(** Assignments to the fields of [V]. *)
Definition set_gm V x : Vol D :=
  mkVol (v_dev V) (v_spb V) (v_total V) (v_gen V) (v_itab_start V) (v_mounted V) (v_broken V) (v_dirty V) x (v_hint V)
    (v_files V) (v_pool V) (v_pool_used V) (v_defer V).
Definition set_hint V x : Vol D :=
  mkVol (v_dev V) (v_spb V) (v_total V) (v_gen V) (v_itab_start V) (v_mounted V) (v_broken V) (v_dirty V) (v_gm V) x
    (v_files V) (v_pool V) (v_pool_used V) (v_defer V).
Definition set_files V x : Vol D :=
  mkVol (v_dev V) (v_spb V) (v_total V) (v_gen V) (v_itab_start V) (v_mounted V) (v_broken V) (v_dirty V) (v_gm V) (v_hint V)
    x (v_pool V) (v_pool_used V) (v_defer V).
Definition set_pool V x : Vol D :=
  mkVol (v_dev V) (v_spb V) (v_total V) (v_gen V) (v_itab_start V) (v_mounted V) (v_broken V) (v_dirty V) (v_gm V) (v_hint V)
    (v_files V) x (v_pool_used V) (v_defer V).
Definition set_pool_used V x : Vol D :=
  mkVol (v_dev V) (v_spb V) (v_total V) (v_gen V) (v_itab_start V) (v_mounted V) (v_broken V) (v_dirty V) (v_gm V) (v_hint V)
    (v_files V) (v_pool V) x (v_defer V).
Definition set_defer V x : Vol D :=
  mkVol (v_dev V) (v_spb V) (v_total V) (v_gen V) (v_itab_start V) (v_mounted V) (v_broken V) (v_dirty V) (v_gm V) (v_hint V)
    (v_files V) (v_pool V) (v_pool_used V) x.
Definition set_dirty V x : Vol D :=
  mkVol (v_dev V) (v_spb V) (v_total V) (v_gen V) (v_itab_start V) (v_mounted V) (v_broken V) x (v_gm V) (v_hint V)
    (v_files V) (v_pool V) (v_pool_used V) (v_defer V).
Definition set_mounted V x : Vol D :=
  mkVol (v_dev V) (v_spb V) (v_total V) (v_gen V) (v_itab_start V) x (v_broken V) (v_dirty V) (v_gm V) (v_hint V)
    (v_files V) (v_pool V) (v_pool_used V) (v_defer V).
Definition mark_broken V : Vol D :=
  mkVol (v_dev V) (v_spb V) (v_total V) (v_gen V) (v_itab_start V) (v_mounted V) true (v_dirty V) (v_gm V) (v_hint V)
    (v_files V) (v_pool V) (v_pool_used V) (v_defer V).
Definition set_gen V gen area : Vol D :=
  mkVol (v_dev V) (v_spb V) (v_total V) gen area (v_mounted V) (v_broken V) (v_dirty V) (v_gm V) (v_hint V)
    (v_files V) (v_pool V) (v_pool_used V) (v_defer V).
Definition set_dev V d spb total : Vol D :=
  mkVol d spb total (v_gen V) (v_itab_start V) (v_mounted V) (v_broken V) (v_dirty V) (v_gm V) (v_hint V)
    (v_files V) (v_pool V) (v_pool_used V) (v_defer V).

Definition no_file : ExfsFile := mkFile false 0 0 [] 0 0 0 0 [] false.
Definition file V (i : nat) : ExfsFile := default no_file (v_files V !! i).
Definition put_file V (i : nat) f : Vol D := set_files V (<[i := f]> (v_files V)).

Definition ndefer V : Z := lenZ (v_defer V).

(** The extent list of a file: [FEXT(f)[0 .. f->n - 1]]. *)
Definition fext V f : list ExfsExtent := (fun k => v_pool V (f_ext_off f + k)) <$> seqZ 0 (f_n f).

(** * Block I/O *)

Definition blk_put V (b : Z) (buf : list Z) s : Z * D :=
  let '(rc, s) := blk_write (v_dev V) (u64 (b * v_spb V)) (v_spb V) (Some buf) s in
  ((if rc =? BLK_OK then EXFS_OK else EXFS_EIO), s).

Definition blk_got V (b : Z) (buf : list Z) s : Z * list Z * D :=
  let '(rc, p, s) := blk_read (v_dev V) (u64 (b * v_spb V)) (v_spb V) (Some buf) s in
  ((if rc =? BLK_OK then EXFS_OK else EXFS_EIO), default buf p, s).

Definition geometry V (d : option (BlkDev D)) : Z * Vol D :=
  let ss := blk_sector_size d in
  if (ss =? 0) || negb (EXFS_BLOCK mod ss =? 0) then (EXFS_ENOFS, V) else
  let total := u64 (blk_sector_count d * ss) / EXFS_BLOCK in
  let V := set_dev V d (EXFS_BLOCK / ss) total in
  if (total <? EXFS_DATA_START + 16) || (EXFS_MAX_BLOCKS <? total) then (EXFS_ENOFS, V) else (EXFS_OK, V).

(** * Free space *)

(** The length taken (0: none), the extent. *)
Definition take_extent V (need : Z) s : Z * ExfsExtent * Vol D * D :=
  let '(rc, start, len, gm, s) := gmap_take (v_gm V) (v_hint V) need s in
  let V := set_gm V gm in
  if negb (rc =? GMAP_OK) then (0, mkExt 0 0, V, s) else
  (u32 len, mkExt start (u32 len), set_hint V (u64 (start + len)), s).

Fixpoint release_fresh V (fresh : list ExfsExtent) s : Vol D * D :=
  match fresh with
  | [] => (V, s)
  | e :: fresh =>
    let '(_, gm, s) := gmap_release (v_gm V) (x_start e) (x_len e) s in
    release_fresh (set_gm V gm) fresh s
  end.

(** * The extent pool *)

Definition pool_is_used V (i : Z) : bool := bit_of (v_pool_used V) i.

Definition pool_mark V (off cap : Z) (on : bool) : Vol D :=
  set_pool_used V (for_range 0 cap (fun i b => bit_put b (u32 (off + i)) on) (v_pool_used V)).

Fixpoint pool_scan (fuel : nat) V (cap i run : Z) : option Z :=
  match fuel with
  | O => None
  | S fuel =>
    if pool_is_used V i then pool_scan fuel V cap (i + 1) 0 else
    if run + 1 =? cap then Some (i + 1 - cap) else pool_scan fuel V cap (i + 1) (run + 1)
  end.

Definition pool_find V (cap : Z) : option Z := pool_scan (Z.to_nat EXFS_POOL_EXT) V cap 0 0.

(** Insertion into the sorted prefix, which is kept last element first. *)
Fixpoint order_insert V (x : nat) (rev_order : list nat) : list nat :=
  match rev_order with
  | [] => [x]
  | y :: r => if f_ext_off (file V x) <? f_ext_off (file V y) then y :: order_insert V x r else x :: rev_order
  end.

Definition has_slice f : bool := f_used f && (0 <? f_ext_cap f).

Definition compact_order V : list nat :=
  let order := filter (fun i => has_slice (file V i) = true) (seq 0 (Z.to_nat EXFS_INODES)) in
  reverse (fold_left (fun rev_order x => order_insert V x rev_order) order []).

(** Moves one file's slice down to the cursor. *)
Definition compact_one V (i : nat) (cursor : Z) : Vol D * Z :=
  let f := file V i in
  let V :=
    if negb (f_ext_off f =? cursor) then
      let V := set_pool V (for_range 0 (f_n f) (fun k p => upd p (cursor + k) (p (f_ext_off f + k))) (v_pool V)) in
      put_file V i (mkFile (f_used f) (f_type f) (f_size f) (f_name f) (f_n f) cursor (f_ext_cap f) (f_nchain f) (f_chain f) (f_dirty f))
    else V in
  let f := file V i in
  (pool_mark V (f_ext_off f) (f_ext_cap f) true, cursor + f_ext_cap f).

Definition pool_clear V : Vol D := set_pool_used V (replicate (Z.to_nat (EXFS_POOL_EXT / 8)) 0).

Definition pool_compact V : Vol D :=
  (fold_left (fun '(V, cursor) i => compact_one V i cursor) (compact_order V) (pool_clear V, 0)).1.

Fixpoint slice_loop (fuel : nat) (c n : Z) : Z :=
  match fuel with
  | O => c
  | S fuel => if c <? n then slice_loop fuel (u32 (c .<< 1)) n else c
  end.

Definition slice_cap_for (n : Z) : Z := slice_loop 32 POOL_MIN_CAP n.

(** The status, [*off], [*cap]. *)
Definition pool_reserve V (n : Z) : Z * Z * Z * Vol D :=
  if n =? 0 then (EXFS_OK, 0, 0, V) else
  let cap := slice_cap_for n in
  match pool_find V cap with
  | Some off => (EXFS_OK, off, cap, pool_mark V off cap true)
  | None =>
    let V := pool_compact V in
    match pool_find V cap with
    | Some off => (EXFS_OK, off, cap, pool_mark V off cap true)
    | None => (EXFS_ENOMEM, 0, cap, V)
    end
  end.

Definition pool_release V (off cap : Z) : Vol D := pool_mark V off cap false.

(** Stores a list of extents into a slice. *)
Definition pool_store V (off : Z) (l : list ExfsExtent) : Vol D :=
  set_pool V (for_range 0 (lenZ l) (fun i p => upd p (off + i) (default (mkExt 0 0) (l !! Z.to_nat i))) (v_pool V)).

(** * The inode table *)

Definition put_ext (r : list Z) (o : Z) (e : ExfsExtent) : list Z := put32 (put64 r o (x_start e)) (o + 8) (x_len e).

Definition put_exts (r : list Z) (o : Z) (l : list ExfsExtent) : list Z :=
  for_range 0 (lenZ l) (fun i r => put_ext r (o + i * 16) (default (mkExt 0 0) (l !! Z.to_nat i))) r.

Definition inode_encode V f : list Z :=
  let r := replicate (Z.to_nat INODE_BYTES) 0 in
  let r := put32 r 0 (if f_used f then 1 else 0) in
  let r := put32 r 4 (f_type f) in
  let r := put64 r 8 (f_size f) in
  let r := for_range 0 (EXFS_NAME_MAX + 1) (fun i r => setZ r (16 + i) (u8 (nthZ (f_name f) i))) r in
  let r := put64 r 112 (if f_nchain f =? 0 then 0 else nthZ (f_chain f) 0) in
  let ninl := if f_n f <? EXFS_INL then f_n f else EXFS_INL in
  let r := put32 r 120 ninl in
  put_exts r 128 (take (Z.to_nat ninl) (fext V f)).

Definition get_ext (r : list Z) (o : Z) : ExfsExtent := mkExt (get64 r o) (get32 r (o + 8)).
Definition get_exts (r : list Z) (o cnt : Z) : list ExfsExtent := (fun i => get_ext r (o + i * 16)) <$> seqZ 0 cnt.

(** The chain loop: the status, the staged extents, the chain so far. *)
Fixpoint chain_loop (fuel : nat) V (blk : Z) (stage : list ExfsExtent) (chain : list Z) (nchain : Z) s
    : Z * list ExfsExtent * list Z * Z * D :=
  if blk =? 0 then (EXFS_OK, stage, chain, nchain, s) else
  if EXFS_MAX_CHAIN <=? nchain then (EXFS_ENOFS, stage, chain, nchain, s) else
  let '(rc, page, s) := blk_got V blk (replicate (Z.to_nat EXFS_BLOCK) 0) s in
  if negb (rc =? EXFS_OK) then (EXFS_EIO, stage, chain, nchain, s) else
  let next := get64 page 0 in
  let cnt := get32 page 8 in
  if (EXFS_IND_EXT <? cnt) || (EXFS_MAX_EXT <? u32 (lenZ stage + cnt)) then (EXFS_ENOFS, stage, chain, nchain, s) else
  match fuel with
  | O => (EXFS_ENOFS, stage, chain, nchain, s)
  | S fuel => chain_loop fuel V next (stage ++ get_exts page 16 cnt) (setZ chain nchain blk) (nchain + 1) s
  end.

(** The status, the file, its extents (in [V.stage]). *)
Definition inode_decode V (r : list Z) f s : Z * ExfsFile * list ExfsExtent * D :=
  let used := negb (get32 r 0 =? 0) in
  let name := setZ ((fun i => nthZ r (16 + i)) <$> seqZ 0 (EXFS_NAME_MAX + 1)) EXFS_NAME_MAX 0 in
  let mk n nchain chain := mkFile used (get32 r 4) (get64 r 8) name n 0 0 nchain chain false in
  if negb used then (EXFS_OK, mk 0 0 (f_chain f), [], s) else
  let ninl := get32 r 120 in
  if EXFS_INL <? ninl then (EXFS_ENOFS, mk 0 0 (f_chain f), [], s) else
  let '(rc, stage, chain, nchain, s) :=
    chain_loop (S (Z.to_nat EXFS_MAX_CHAIN)) V (get64 r 112) (get_exts r 128 ninl) (f_chain f) 0 s in
  (rc, mk (lenZ stage) nchain chain, stage, s).

(** * Deferred release *)

Definition defer_push V (start len : Z) : Z * Vol D :=
  if EXFS_DEFER_MAX <=? ndefer V then (EXFS_ENOMEM, V) else (EXFS_OK, set_defer V (v_defer V ++ [mkExt start len])).

(** The list pushed entry by entry, results ignored. *)
Definition defer_all V (l : list ExfsExtent) : Vol D := fold_left (fun V e => (defer_push V (x_start e) (x_len e)).2) l V.

Definition chain_exts f : list ExfsExtent := (fun b => mkExt b 1) <$> take (Z.to_nat (f_nchain f)) (f_chain f).

Definition defer_file V (i : nat) : Z * Vol D :=
  let f := file V i in
  let need := f_n f + f_nchain f in
  if EXFS_DEFER_MAX <? ndefer V + need then (EXFS_ENOMEM, V) else
  let V := defer_all V (fext V f) in
  let V := defer_all V (chain_exts f) in
  let V := pool_release V (f_ext_off f) (f_ext_cap f) in
  (EXFS_OK, put_file V i (mkFile (f_used f) (f_type f) (f_size f) (f_name f) 0 0 0 0 (f_chain f) (f_dirty f))).

Fixpoint apply_deferred_loop (l : list ExfsExtent) V s : Z * Vol D * D :=
  match l with
  | [] => (EXFS_OK, set_defer V [], s)
  | e :: l =>
    let '(rc, gm, s) := gmap_release (v_gm V) (x_start e) (x_len e) s in
    let V := set_gm V gm in
    if negb (rc =? GMAP_OK) then (EXFS_EIO, V, s) else apply_deferred_loop l V s
  end.

Definition apply_deferred V s : Z * Vol D * D := apply_deferred_loop (v_defer V) V s.

(** * Lookup *)

Fixpoint find_in (l : list ExfsFile) (name : list Z) (i : nat) : option nat :=
  match l with
  | [] => None
  | f :: l => if f_used f && str_eq (f_name f) name then Some i else find_in l name (S i)
  end.

Definition find V (name : list Z) : option nat := find_in (v_files V) name 0.

Definition parent_ok V (name : list Z) : bool :=
  let last := last_bar name in
  if last =? 0 then true else
  match find V (take (Z.to_nat last) name) with
  | Some p => f_type (file V p) =? EXFS_TYPE_DIR
  | None => false
  end.

(** The name buffer after the copy loop and the terminator. *)
Definition copy_name (old name : list Z) : list Z :=
  setZ (for_range 0 (lenZ name) (fun k b => setZ b k (nthZ name k)) old) (lenZ name) 0.

Fixpoint make_in (l : list ExfsFile) (name : list Z) (type : Z) : option (list ExfsFile) :=
  match l with
  | [] => None
  | f :: l =>
    if f_used f then match make_in l name type with Some l => Some (f :: l) | None => None end
    else Some (mkFile true type 0 (copy_name (f_name f) name) 0 0 0 0 (f_chain f) true :: l)
  end.

Definition make_node V (name : list Z) (type : Z) : Z * Vol D :=
  match make_in (v_files V) name type with
  | Some l => (EXFS_OK, set_dirty (set_files V l) true)
  | None => (EXFS_ENOSPC, V)
  end.

(** [g] is below [dir] in the tree. *)
Definition is_child (dir : list Z) (g : ExfsFile) : bool :=
  f_used g && (nthZ (f_name g) (lenZ dir) =? bar) && forallb (fun k => nthZ (f_name g) k =? nthZ dir k) (seqZ 0 (lenZ dir)).

Definition has_children V (dir : list Z) : bool := existsb (is_child dir) (v_files V).

(** * Commit *)

(** Chain blocks a file of [n] extents needs. *)
Definition nind_of (n : Z) : Z := (n - EXFS_INL + EXFS_IND_EXT - 1) / EXFS_IND_EXT.

(** Step 0: the blocks the commit needs, or the error. *)
Fixpoint commit_need (l : list ExfsFile) (need : Z) : Z + Z :=
  match l with
  | [] => inr need
  | f :: l =>
    if negb (f_used f) || negb (f_dirty f) || (f_n f <=? EXFS_INL) then commit_need l need else
    let nind := nind_of (f_n f) in
    if EXFS_MAX_CHAIN <? nind then inl EXFS_ENOMEM else commit_need l (need + nind)
  end.

Definition set_chain f (nchain : Z) (chain : list Z) : ExfsFile :=
  mkFile (f_used f) (f_type f) (f_size f) (f_name f) (f_n f) (f_ext_off f) (f_ext_cap f) nchain chain (f_dirty f).

(** Blocks for the chain of file [i]: [k] more from index [j]; [false] when one
    could not be taken. *)
Fixpoint chain_take (k : nat) (j : Z) (i : nat) V s : bool * Vol D * D :=
  match k with
  | O => (true, V, s)
  | S k =>
    let '(l, e, V, s) := take_extent V 1 s in
    if negb (l =? 1) then (false, V, s) else
    let f := file V i in
    chain_take k (j + 1) i (put_file V i (set_chain f (f_nchain f) (setZ (f_chain f) j (x_start e)))) s
  end.

(** One block of the chain. *)
Definition chain_page V f (nind k : Z) : list Z :=
  let first := EXFS_INL + k * EXFS_IND_EXT in
  let cnt := f_n f - first in
  let cnt := if EXFS_IND_EXT <? cnt then EXFS_IND_EXT else cnt in
  let page := replicate (Z.to_nat EXFS_BLOCK) 0 in
  let page := put64 page 0 (if k + 1 <? nind then nthZ (f_chain f) (k + 1) else 0) in
  let page := put32 page 8 cnt in
  put_exts page 16 (take (Z.to_nat cnt) (drop (Z.to_nat first) (fext V f))).

Fixpoint chain_write (n : nat) (k nind : Z) V f s : bool * D :=
  match n with
  | O => (true, s)
  | S n =>
    let '(rc, s) := blk_put V (nthZ (f_chain f) k) (chain_page V f nind k) s in
    if negb (rc =? EXFS_OK) then (false, s) else chain_write n (k + 1) nind V f s
  end.

(** Step 1 for file [i]. *)
Definition commit_chain V (i : nat) s : Z * Vol D * D :=
  let f := file V i in
  if negb (f_used f) || negb (f_dirty f) then (EXFS_OK, V, s) else
  let nind := if EXFS_INL <? f_n f then nind_of (f_n f) else 0 in
  let '(ok, V, s) := chain_take (Z.to_nat nind) 0 i V s in
  if negb ok then (EXFS_ENOSPC, mark_broken V, s) else
  let V := put_file V i (set_chain (file V i) nind (f_chain (file V i))) in
  let '(ok, s) := chain_write (Z.to_nat nind) 0 nind V (file V i) s in
  if negb ok then (EXFS_EIO, mark_broken V, s) else (EXFS_OK, V, s).

Fixpoint commit_chains (k : nat) (i : nat) V s : Z * Vol D * D :=
  match k with
  | O => (EXFS_OK, V, s)
  | S k =>
    let '(rc, V, s) := commit_chain V i s in
    if negb (rc =? EXFS_OK) then (rc, V, s) else commit_chains k (S i) V s
  end.

(** The inode table, 128 records of 256 bytes. *)
Definition itab_image V : list Z := concat (inode_encode V <$> v_files V).

Fixpoint put_blocks (k : nat) (b : Z) (img : list Z) V s : Z * D :=
  match k with
  | O => (EXFS_OK, s)
  | S k =>
    let '(rc, s) := blk_put V b (take (Z.to_nat EXFS_BLOCK) img) s in
    if negb (rc =? EXFS_OK) then (EXFS_EIO, s) else put_blocks k (b + 1) (drop (Z.to_nat EXFS_BLOCK) img) V s
  end.

(** The superblock of generation [gen]. *)
Definition sb_fields V (gen : Z) : SbFields :=
  let zeros := replicate (Z.to_nat SB_MAX_GROUPS) 0 in
  let '(slot, free) := gmap_export (v_gm V) zeros zeros in
  mkSb gen (itab_area gen) EXFS_ITAB_BLOCKS EXFS_INODES (v_total V) (m_ngroups (v_gm V)) slot free.

Definition clean_file f : ExfsFile :=
  mkFile (f_used f) (f_type f) (f_size f) (f_name f) (f_n f) (f_ext_off f) (f_ext_cap f) (f_nchain f) (f_chain f) false.

(** Steps 5 and 6. *)
Definition commit_super V (gen : Z) s : Z * Vol D * D :=
  let '(rc, page) := sb_encode (replicate (Z.to_nat EXFS_BLOCK) 0) (sb_fields V gen) in
  if negb (rc =? SB_OK) then (EXFS_EIO, mark_broken V, s) else
  let '(rc, s) := blk_put V (gen .& 1) page s in
  if negb (rc =? EXFS_OK) then (EXFS_EIO, mark_broken V, s) else
  let V := set_gm V (gmap_commit (v_gm V)) in
  let V := set_gen V gen (itab_area gen) in
  let V := set_files V (clean_file <$> v_files V) in
  (EXFS_OK, set_dirty V false, s).

(** Steps 2 to 6. *)
Definition commit_map V s : Z * Vol D * D :=
  let '(rc, V, s) := apply_deferred V s in
  if negb (rc =? EXFS_OK) then (EXFS_EIO, mark_broken V, s) else
  let '(rc, gm, s) := gmap_flush (v_gm V) s in
  let V := set_gm V gm in
  if negb (rc =? GMAP_OK) then (EXFS_EIO, mark_broken V, s) else
  let gen := u64 (v_gen V + 1) in
  let '(rc, s) := put_blocks (Z.to_nat EXFS_ITAB_BLOCKS) (itab_area gen) (itab_image V) V s in
  if negb (rc =? EXFS_OK) then (EXFS_EIO, mark_broken V, s) else commit_super V gen s.

Definition exfs_commit V s : Z * Vol D * D :=
  if negb (v_mounted V) then (EXFS_ENOFS, V, s) else
  if v_broken V then (EXFS_EBROKEN, V, s) else
  if negb (v_dirty V) then (EXFS_OK, V, s) else
  match commit_need (v_files V) 0 with
  | inl rc => (rc, V, s)
  | inr need =>
    if gmap_free_total (v_gm V) <? need then (EXFS_ENOSPC, V, s) else
    let '(rc, V, s) := commit_chains (Z.to_nat EXFS_INODES) 0 V s in
    if negb (rc =? EXFS_OK) then (rc, V, s) else commit_map V s
  end.

(** * The volume's life cycle *)

Definition blank_file f : ExfsFile :=
  mkFile false (f_type f) (f_size f) (f_name f) (f_n f) 0 0 (f_nchain f) (f_chain f) (f_dirty f).

(** "|user", "|root", "|bin", "|boot". *)
Definition root_dirs : list (list Z) := [[124; 117; 115; 101; 114]; [124; 114; 111; 111; 116]; [124; 98; 105; 110]; [124; 98; 111; 111; 116]].

Definition format_volume V : Vol D :=
  let V := set_files V (blank_file <$> v_files V) in
  let V := pool_clear V in
  mkVol (v_dev V) (v_spb V) (v_total V) 0 0 true false true (v_gm V) EXFS_DATA_START (v_files V) (v_pool V) (v_pool_used V) [].

Definition exfs_format V (d : option (BlkDev D)) s : Z * Vol D * D :=
  match d with
  | None => (EXFS_ENOFS, V, s)
  | Some _ =>
    let '(rc, V) := geometry V d in
    if negb (rc =? EXFS_OK) then (EXFS_ENOFS, V, s) else
    let '(rc, gm) := gmap_init (v_gm V) d (v_total V) GMAP_GROUP_MAX in
    let V := set_gm V gm in
    if negb (rc =? GMAP_OK) then (EXFS_ENOFS, V, s) else
    let '(rc, gm, s) := gmap_format (v_gm V) (replicate (Z.to_nat EXFS_BLOCK) 0) s in
    let V := set_gm V gm in
    if negb (rc =? GMAP_OK) then (EXFS_EIO, V, s) else
    let V := fold_left (fun V n => (make_node V n EXFS_TYPE_DIR).2) root_dirs (format_volume V) in
    exfs_commit V s
  end.

(** The newest valid superblock of blocks [b], [b + 1], ... *)
Fixpoint best_super (k : nat) (b : Z) (best : option SbFields) V s : option SbFields * D :=
  match k with
  | O => (best, s)
  | S k =>
    let '(rc, page, s) := blk_got V b (replicate (Z.to_nat EXFS_BLOCK) 0) s in
    if negb (rc =? EXFS_OK) then best_super k (b + 1) best V s else
    let '(rc, f) := sb_decode page (mkSb 0 0 0 0 0 0 [] []) in
    if negb (rc =? SB_OK) then best_super k (b + 1) best V s else
    match best with
    | Some old => if sb_gen old <? sb_gen f then best_super k (b + 1) (Some f) V s else best_super k (b + 1) best V s
    | None => best_super k (b + 1) (Some f) V s
    end
  end.

Fixpoint got_blocks (k : nat) (b : Z) (img : list Z) V s : Z * list Z * D :=
  match k with
  | O => (EXFS_OK, img, s)
  | S k =>
    let '(rc, page, s) := blk_got V b (replicate (Z.to_nat EXFS_BLOCK) 0) s in
    if negb (rc =? EXFS_OK) then (EXFS_EIO, img, s) else got_blocks k (b + 1) (img ++ page) V s
  end.

(** The checks on one file's blocks. *)
Definition chain_in V f : bool :=
  forallb (fun b => negb ((b <? EXFS_DATA_START) || (v_total V <=? b))) (take (Z.to_nat (f_nchain f)) (f_chain f)).
Definition ext_in V (e : ExfsExtent) : bool :=
  negb (x_len e =? 0) && negb (x_start e <? EXFS_DATA_START) && negb (v_total V <? u64 (x_start e + x_len e)).

Definition set_slice f (n off cap : Z) : ExfsFile :=
  mkFile (f_used f) (f_type f) (f_size f) (f_name f) n off cap (f_nchain f) (f_chain f) (f_dirty f).

Fixpoint mount_files (k : nat) (i : nat) (itab : list Z) V s : Z * Vol D * D :=
  match k with
  | O => (EXFS_OK, V, s)
  | S k =>
    let '(rc, f, stage, s) := inode_decode V (take (Z.to_nat INODE_BYTES) (drop (i * Z.to_nat INODE_BYTES) itab)) (file V i) s in
    let V := put_file V i f in
    if negb (rc =? EXFS_OK) then (EXFS_ENOFS, V, s) else
    if negb (f_used f) then mount_files k (S i) itab V s else
    let '(rc, roff, rcap, V) := pool_reserve V (f_n f) in
    if negb (rc =? EXFS_OK) then (EXFS_ENOMEM, V, s) else
    let V := pool_store V roff stage in
    let V := put_file V i (set_slice f (f_n f) roff rcap) in
    if negb (chain_in V f) then (EXFS_ENOFS, V, s) else
    if negb (forallb (ext_in V) stage) then (EXFS_ENOFS, V, s) else
    mount_files k (S i) itab V s
  end.

Definition no_slice f : ExfsFile := set_slice f (f_n f) 0 0.

Definition exfs_mount V (d : option (BlkDev D)) s : Z * Vol D * D :=
  let V := set_mounted V false in
  match d with
  | None => (EXFS_ENOFS, V, s)
  | Some _ =>
    let '(rc, V) := geometry V d in
    if negb (rc =? EXFS_OK) then (EXFS_ENOFS, V, s) else
    let '(rc, gm) := gmap_init (v_gm V) d (v_total V) GMAP_GROUP_MAX in
    let V := set_gm V gm in
    if negb (rc =? GMAP_OK) then (EXFS_ENOFS, V, s) else
    let '(best, s) := best_super 2 0 None V s in
    match best with
    | None => (EXFS_ENOFS, V, s)
    | Some best =>
      if negb (sb_total best =? v_total V) || negb (sb_ngroups best =? m_ngroups (v_gm V)) then (EXFS_ENOFS, V, s) else
      let '(rc, itab, s) := got_blocks (Z.to_nat EXFS_ITAB_BLOCKS) (sb_itab best) [] V s in
      if negb (rc =? EXFS_OK) then (EXFS_EIO, V, s) else
      let V := set_gm V (gmap_import (v_gm V) (sb_slot best) (sb_free best)) in
      let V := set_files (pool_clear V) (no_slice <$> v_files V) in
      let '(rc, V, s) := mount_files (Z.to_nat EXFS_INODES) 0 itab V s in
      if negb (rc =? EXFS_OK) then (rc, V, s) else
      (EXFS_OK, mkVol (v_dev V) (v_spb V) (v_total V) (sb_gen best) (sb_itab best) true false false (v_gm V) EXFS_DATA_START
        (v_files V) (v_pool V) (v_pool_used V) [], s)
    end
  end.

Definition exfs_unmount V s : Z * Vol D * D :=
  if negb (v_mounted V) then (EXFS_ENOFS, V, s) else
  let '(rc, V, s) := exfs_commit V s in
  if negb (rc =? EXFS_OK) then (rc, V, s) else (EXFS_OK, set_mounted V false, s).

Definition exfs_is_mounted V : bool := v_mounted V && negb (v_broken V).

Definition exfs_is_used V (block : Z) s : Z * Vol D * D :=
  if negb (v_mounted V) then (EXFS_ENOFS, V, s) else
  let '(rc, gm, s) := gmap_is_used (v_gm V) block s in (rc, set_gm V gm, s).

(** * Names *)

Definition exfs_new (type : Z) V (name : list Z) : Z * Vol D :=
  if negb (v_mounted V) then (EXFS_ENOFS, V) else
  if v_broken V then (EXFS_EBROKEN, V) else
  if negb (name_ok name) then (EXFS_EINVAL, V) else
  match find V name with
  | Some _ => (EXFS_EEXIST, V)
  | None => if negb (parent_ok V name) then (EXFS_ENOENT, V) else make_node V name type
  end.

Definition exfs_create : Vol D -> list Z -> Z * Vol D := exfs_new EXFS_TYPE_FILE.
Definition exfs_mkdir : Vol D -> list Z -> Z * Vol D := exfs_new EXFS_TYPE_DIR.

Definition unused_file f : ExfsFile :=
  mkFile false (f_type f) (f_size f) (f_name f) (f_n f) (f_ext_off f) (f_ext_cap f) (f_nchain f) (f_chain f) true.

Definition exfs_delete V (name : list Z) : Z * Vol D :=
  if negb (v_mounted V) then (EXFS_ENOFS, V) else
  if v_broken V then (EXFS_EBROKEN, V) else
  match find V name with
  | None => (EXFS_ENOENT, V)
  | Some i =>
    if (f_type (file V i) =? EXFS_TYPE_DIR) && has_children V name then (EXFS_ENOTEMPTY, V) else
    let '(rc, V) := defer_file V i in
    if negb (rc =? EXFS_OK) then (rc, V) else
    (EXFS_OK, set_dirty (put_file V i (unused_file (file V i))) true)
  end.

Definition exfs_stat V (name : list Z) : Z :=
  if is_root name then EXFS_TYPE_DIR else
  match find V name with Some i => f_type (file V i) | None => EXFS_ENOENT end.

Definition exfs_size V (name : list Z) : Z :=
  if negb (v_mounted V) then EXFS_ENOFS else
  match find V name with
  | None => EXFS_ENOENT
  | Some i => if negb (f_type (file V i) =? EXFS_TYPE_FILE) then EXFS_EISDIR else f_size (file V i)
  end.

(** The part of a C string from an index on. *)
Fixpoint cstr (l : list Z) : list Z :=
  match l with
  | [] => []
  | c :: l => if c =? 0 then [] else c :: cstr l
  end.

(** What the callback is given for file [g], if anything. *)
Definition list_one (pre : list Z) (g : ExfsFile) : option (list Z * Z) :=
  if negb (f_used g) || negb (starts_with (f_name g) pre) then None else
  let rest := cstr (drop (length pre) (f_name g)) in
  if bool_decide (rest = []) then None else
  if existsb (fun c => c =? bar) rest then None else Some (rest, f_type g).

(** The count (or the error) and the calls of the callback, in order. *)
Definition exfs_list V (dir : list Z) : Z * list (list Z * Z) :=
  if negb (v_mounted V) then (EXFS_ENOFS, []) else
  let go pre := let l := omap (list_one pre) (v_files V) in (lenZ l, l) in
  if is_root dir then go [bar] else
  match find V dir with
  | None => (EXFS_ENOENT, [])
  | Some i => if negb (f_type (file V i) =? EXFS_TYPE_DIR) then (EXFS_EINVAL, []) else go (dir ++ [bar])
  end.

(** * Content *)

(** The list being built, newest run first. *)
Definition stage_add (start len : Z) (stage : list ExfsExtent) : option (list ExfsExtent) :=
  let push := if EXFS_MAX_EXT <=? lenZ stage then None else Some (mkExt start (u32 len) :: stage) in
  match stage with
  | last :: stage' =>
    if (u64 (x_start last + x_len last) =? start) && (x_len last + len <=? 0xFFFFFFFF)
    then Some (mkExt (x_start last) (u32 (x_len last + u32 len)) :: stage') else push
  | [] => push
  end.

(** The loop of [walk_old] over the extents [l], the first of which starts at
    logical block [lpos]; [act] is what the mode does with a run. *)
Fixpoint walk_old {S} (act : Z -> Z -> S -> option S) (l : list ExfsExtent) (lpos lo hi : Z) (st : S) : option S :=
  match l with
  | [] => Some st
  | e :: l =>
    if negb (lpos <? hi) then Some st else
    let elen := x_len e in
    let a := if lo <? lpos then lpos else lo in
    let b := if lpos + elen <? hi then lpos + elen else hi in
    if a <? b then
      match act (u64 (x_start e + (a - lpos))) (b - a) st with
      | None => None
      | Some st => walk_old act l (lpos + elen) lo hi st
      end
    else walk_old act l (lpos + elen) lo hi st
  end.

Definition defer_act (start n : Z) V : option (Vol D) :=
  let '(rc, V) := defer_push V start (u32 n) in if rc =? EXFS_OK then Some V else None.

Fixpoint old_phys (l : list ExfsExtent) (lpos lb : Z) : option Z :=
  match l with
  | [] => None
  | e :: l => if lb <? lpos + x_len e then Some (u64 (x_start e + (lb - lpos))) else old_phys l (lpos + x_len e) lb
  end.

(** Takes extents until [need] blocks are there; the fresh list, newest first,
    or the error. *)
Fixpoint take_all (fuel : nat) (got need : Z) (fresh : list ExfsExtent) V s : (Z + list ExfsExtent) * Vol D * D :=
  if negb (got <? need) then (inr fresh, V, s) else
  let fail rc V s := let '(V, s) := release_fresh V (reverse fresh) s in (inl rc, V, s) in
  match fuel with
  | O => (inl EXFS_ENOMEM, V, s)
  | S fuel =>
    if lenZ fresh =? EXFS_MAX_EXT then fail EXFS_ENOMEM V s else
    let '(l, e, V, s) := take_extent V (need - got) s in
    if l =? 0 then fail EXFS_ENOSPC V s else take_all fuel (got + l) need (e :: fresh) V s
  end.

Definition take_fresh V (need : Z) s : (Z + list ExfsExtent) * Vol D * D :=
  let '(r, V, s) := take_all (S (S (Z.to_nat EXFS_MAX_EXT))) 0 need [] V s in
  ((match r with inl rc => inl rc | inr l => inr (reverse l) end), V, s).

(** The page for the next [n] bytes of the caller's buffer. *)
Definition data_page (src : list Z) (pos n : Z) : list Z := (fun j => if j <? n then nthZ src (pos + j) else 0) <$> seqZ 0 EXFS_BLOCK.

(** Writes the data into [k] blocks from [b]; the position and the bytes left, or [None]. *)
Fixpoint write_run (k : nat) (b : Z) (src : list Z) (pos rest : Z) V s : option (Z * Z) * D :=
  match k with
  | O => (Some (pos, rest), s)
  | S k =>
    let n := if rest <? EXFS_BLOCK then rest else EXFS_BLOCK in
    let '(rc, s) := blk_put V b (data_page src pos n) s in
    if negb (rc =? EXFS_OK) then (None, s) else write_run k (b + 1) src (pos + n) (rest - n) V s
  end.

Fixpoint write_runs (l : list ExfsExtent) (src : list Z) (pos rest : Z) V s : bool * D :=
  match l with
  | [] => (true, s)
  | e :: l =>
    let '(r, s) := write_run (Z.to_nat (x_len e)) (x_start e) src pos rest V s in
    match r with None => (false, s) | Some (pos, rest) => write_runs l src pos rest V s end
  end.

(** The file after its new extents are in place. *)
Definition set_content f (n off cap size : Z) : ExfsFile :=
  mkFile (f_used f) (f_type f) size (f_name f) n off cap (f_nchain f) (f_chain f) true.

Definition exfs_write V (name buf : list Z) (len : Z) s : Z * Vol D * D :=
  if negb (v_mounted V) then (EXFS_ENOFS, V, s) else
  if v_broken V then (EXFS_EBROKEN, V, s) else
  match find V name with
  | None => (EXFS_ENOENT, V, s)
  | Some i =>
    if negb (f_type (file V i) =? EXFS_TYPE_FILE) then (EXFS_EISDIR, V, s) else
    let need := u64 (len + EXFS_BLOCK - 1) / EXFS_BLOCK in
    match take_fresh V need s with
    | (inl rc, V, s) => (rc, V, s)
    | (inr fresh, V, s) =>
      let fail rc V s := let '(V, s) := release_fresh V fresh s in (rc, V, s) in
      if EXFS_DEFER_MAX <? ndefer V + f_n (file V i) + f_nchain (file V i) then fail EXFS_ENOMEM V s else
      let '(rc, roff, rcap, V) := pool_reserve V (lenZ fresh) in
      if negb (rc =? EXFS_OK) then fail EXFS_ENOMEM V s else
      let '(ok, s) := write_runs fresh buf 0 len V s in
      if negb ok then fail EXFS_EIO (pool_release V roff rcap) s else
      let V := (defer_file V i).2 in
      let V := pool_store V roff fresh in
      (EXFS_OK, set_dirty (put_file V i (set_content (file V i) (lenZ fresh) roff rcap len)) true, s)
    end
  end.

(** The runs of a list of extents as single blocks, in order. *)
Definition ext_blocks (l : list ExfsExtent) : list Z := concat ((fun e => seqZ (x_start e) (x_len e)) <$> l).

(** The page of logical block [lb], [None] on a failed read. *)
Definition merge_page V (old : list ExfsExtent) (size oldb off len : Z) (buf : list Z) (lb : Z) s : option (list Z) * D :=
  let fin := off + len in
  let bs := lb * EXFS_BLOCK in
  let be := bs + EXFS_BLOCK in
  let whole := (off <=? bs) && (be <=? fin) in
  let zeros := replicate (Z.to_nat EXFS_BLOCK) 0 in
  let lay page := (fun j => if ((if bs <? off then off else bs) <=? bs + j) && (bs + j <? (if fin <? be then fin else be))
    then nthZ buf (bs + j - off) else nthZ page j) <$> seqZ 0 EXFS_BLOCK in
  if negb whole && (lb <? oldb) then
    match old_phys old 0 lb with
    | None => (None, s)
    | Some op =>
      let '(rc, page, s) := blk_got V op zeros s in
      if negb (rc =? EXFS_OK) then (None, s) else
      let zero_from := if bs <? size then size - bs else 0 in
      (Some (lay ((fun j => if zero_from <=? j then 0 else nthZ page j) <$> seqZ 0 EXFS_BLOCK)), s)
    end
  else (Some (lay zeros), s).

(** The data loop: logical blocks [lb], [lb + 1], ... into the fresh blocks. *)
Fixpoint merge_loop (blocks : list Z) V (old : list ExfsExtent) (size oldb off len : Z) (buf : list Z) (lb : Z) s : bool * D :=
  match blocks with
  | [] => (true, s)
  | b :: blocks =>
    let '(page, s) := merge_page V old size oldb off len buf lb s in
    match page with
    | None => (false, s)
    | Some page =>
      let '(rc, s) := blk_put V b page s in
      if negb (rc =? EXFS_OK) then (false, s) else merge_loop blocks V old size oldb off len buf (lb + 1) s
    end
  end.

(** The new extent list, newest run first. *)
Definition stage_all (fresh : list ExfsExtent) (st : list ExfsExtent) : option (list ExfsExtent) :=
  fold_left (fun st e => match st with None => None | Some st => stage_add (x_start e) (x_len e) st end) fresh (Some st).

Definition new_list (old fresh : list ExfsExtent) (W0 L1 oldb : Z) : option (list ExfsExtent) :=
  match walk_old stage_add old 0 0 W0 [] with
  | None => None
  | Some st =>
    match stage_all fresh st with
    | None => None
    | Some st => match walk_old stage_add old 0 (L1 + 1) oldb st with None => None | Some st => Some (reverse st) end
    end
  end.

Definition total_len (l : list ExfsExtent) : Z := fold_left (fun n e => u64 (n + x_len e)) l 0.

Definition exfs_write_at V (name : list Z) (off : Z) (buf : list Z) (len : Z) s : Z * Vol D * D :=
  if negb (v_mounted V) then (EXFS_ENOFS, V, s) else
  if v_broken V then (EXFS_EBROKEN, V, s) else
  match find V name with
  | None => (EXFS_ENOENT, V, s)
  | Some i =>
    if negb (f_type (file V i) =? EXFS_TYPE_FILE) then (EXFS_EISDIR, V, s) else
    if len =? 0 then (EXFS_OK, V, s) else
    if u64 (off + len) <? off then (EXFS_EINVAL, V, s) else
    let oldb := total_len (fext V (file V i)) in
    let L0 := off / EXFS_BLOCK in
    let L1 := u64 (off + len - 1) / EXFS_BLOCK in
    let W0 := if L0 <? oldb then L0 else oldb in
    let nfresh := L1 - W0 + 1 in
    if gmap_free_total (v_gm V) <? nfresh then (EXFS_ENOSPC, V, s) else
    if EXFS_DEFER_MAX <? ndefer V + f_n (file V i) + f_nchain (file V i) + 1 then (EXFS_ENOMEM, V, s) else
    match take_fresh V nfresh s with
    | (inl rc, V, s) => (rc, V, s)
    | (inr fresh, V, s) =>
      let fail rc V s := let '(V, s) := release_fresh V fresh s in (rc, V, s) in
      match new_list (fext V (file V i)) fresh W0 L1 oldb with
      | None => fail EXFS_ENOMEM V s
      | Some stage =>
        let '(rc, roff, rcap, V) := pool_reserve V (lenZ stage) in
        if negb (rc =? EXFS_OK) then fail EXFS_ENOMEM V s else
        let f := file V i in
        let old := fext V f in
        let '(ok, s) := merge_loop (take (Z.to_nat nfresh) (ext_blocks fresh)) V old (f_size f) oldb off len buf W0 s in
        if negb ok then fail EXFS_EIO (pool_release V roff rcap) s else
        let V := default V (walk_old defer_act old 0 W0 (if L1 + 1 <? oldb then L1 + 1 else oldb) V) in
        let V := defer_all V (chain_exts f) in
        let V := pool_release V (f_ext_off f) (f_ext_cap f) in
        let V := pool_store V roff stage in
        let size := if f_size f <? u64 (off + len) then u64 (off + len) else f_size f in
        (EXFS_OK, set_dirty (put_file V i
          (mkFile (f_used f) (f_type f) size (f_name f) (lenZ stage) roff rcap 0 (f_chain f) true)) true, s)
      end
    end
  end.

(** The extent and the block in it where logical block [lb] is; [base] is the
    logical block of the first one. *)
Fixpoint seek (l : list ExfsExtent) (base lb : Z) : list ExfsExtent * Z :=
  match l with
  | [] => ([], lb - base)
  | e :: l' => if base + x_len e <=? lb then seek l' (base + x_len e) lb else (l, lb - base)
  end.

(** The read loop from block [k] of the first extent of [l]. *)
Fixpoint read_loop (fuel : nat) (l : list ExfsExtent) (k inblk want : Z) (dst : list Z) V s : Z * list Z * D :=
  if negb (lenZ dst <? want) then (lenZ dst, dst, s) else
  match l, fuel with
  | e :: l', S fuel =>
    let '(rc, page, s) := blk_got V (u64 (x_start e + k)) (replicate (Z.to_nat EXFS_BLOCK) 0) s in
    if negb (rc =? EXFS_OK) then (EXFS_EIO, dst, s) else
    let avail := EXFS_BLOCK - inblk in
    let n := if want - lenZ dst <? avail then want - lenZ dst else avail in
    let dst := dst ++ take (Z.to_nat n) (drop (Z.to_nat inblk) page) in
    if k + 1 =? x_len e then read_loop fuel l' 0 0 want dst V s else read_loop fuel l (k + 1) 0 want dst V s
  | _, _ => (EXFS_EIO, dst, s)
  end.

(** The result and the bytes stored from the start of the caller's buffer. *)
Definition exfs_read_at V (name : list Z) (off cap : Z) s : Z * list Z * D :=
  if negb (v_mounted V) then (EXFS_ENOFS, [], s) else
  match find V name with
  | None => (EXFS_ENOENT, [], s)
  | Some i =>
    let f := file V i in
    if negb (f_type f =? EXFS_TYPE_FILE) then (EXFS_EISDIR, [], s) else
    if f_size f <=? off then (0, [], s) else
    let want := if f_size f - off <? cap then f_size f - off else cap in
    let '(l, k) := seek (fext V f) 0 (off / EXFS_BLOCK) in
    match l with
    | [] => (EXFS_EIO, [], s)
    | _ => read_loop (Z.to_nat (want / EXFS_BLOCK + 2)) l k (off mod EXFS_BLOCK) want [] V s
    end
  end.

Definition exfs_read V (name : list Z) (cap : Z) s : Z * list Z * D := exfs_read_at V name 0 cap s.

(** * Read-only views *)

Definition exfs_extents V f : option (list ExfsExtent) := if f_n f =? 0 then None else Some (fext V f).
Definition exfs_lookup V (name : list Z) : option ExfsFile := file V <$> find V name.
Definition exfs_file V (i : Z) : option ExfsFile := if i <? EXFS_INODES then Some (file V (Z.to_nat i)) else None.
Definition exfs_total_blocks V : Z := v_total V.
Definition exfs_free_blocks V : Z := gmap_free_total (v_gm V).
Definition exfs_generation V : Z := v_gen V.
Definition exfs_itab_start V : Z := v_itab_start V.
End Volume.
