(* ===== verification/ExfsNames.v ===== *)
(** The name space of EXFS: names, the directory tree, and what creating,
    deleting and listing do to it. Nothing here depends on the device. *)

From S2P Require Import Prelude.
From S2P Require Import Bytes.
From S2P Require Import Blk.
From S2P Require Import ExfsDefs.
From S2P Require Import Gmap.
From S2P Require Import Sb.
From S2P Require Import Exfs.

(** * C strings *)

Definition no_nul (l : list Z) : Prop := Forall (fun c => c <> 0) l.

Lemma nthZ_cons_0 c l : nthZ (c :: l) 0 = c.
Proof. done. Qed.

Lemma nthZ_cons_S c l k : 0 <= k -> nthZ (c :: l) (k + 1) = nthZ l k.
Proof. intros Hk. unfold nthZ. replace (Z.to_nat (k + 1)) with (S (Z.to_nat k)) by lia. done. Qed.

Lemma nthZ_over l k : lenZ l <= k -> nthZ l k = 0.
Proof. intros Hk. unfold nthZ. rewrite lookup_ge_None_2 by lia. done. Qed.

Lemma nthZ_app_l l1 l2 k : 0 <= k < lenZ l1 -> nthZ (l1 ++ l2) k = nthZ l1 k.
Proof. intros Hk. unfold nthZ. rewrite lookup_app_l by lia. done. Qed.

Lemma nthZ_app_r l1 l2 k : lenZ l1 <= k -> nthZ (l1 ++ l2) k = nthZ l2 (k - lenZ l1).
Proof. intros Hk. unfold nthZ. rewrite lookup_app_r by lia. do 2 f_equal. lia. Qed.

Lemma nthZ_tail l k : 0 <= k -> nthZ (tail l) k = nthZ l (k + 1).
Proof. intros Hk. destruct l; [by unfold nthZ; rewrite !lookup_nil|]. by rewrite nthZ_cons_S. Qed.

Lemma no_nul_nth l k : no_nul l -> 0 <= k < lenZ l -> nthZ l k <> 0.
Proof.
  intros H Hk. destruct (lookup_lt_is_Some_2 l (Z.to_nat k) ltac:(lia)) as [x Hx]. unfold nthZ. rewrite Hx. by apply (Forall_lookup_1 _ _ _ _ H Hx).
Qed.

Lemma cstr_no_nul l : no_nul (cstr l).
Proof. induction l as [|c l IH]; cbn [cstr]; [constructor|]. destruct (Z.eqb_spec c 0); [constructor|by constructor]. Qed.

Lemma cstr_length l : (length (cstr l) <= length l)%nat.
Proof. induction l as [|c l IH]; cbn [cstr]; [done|]. destruct (c =? 0); cbn; lia. Qed.

(** A buffer that starts with the string [p]. *)
Lemma cstr_prefix p l : no_nul p -> (forall k, 0 <= k < lenZ p -> nthZ l k = nthZ p k) -> cstr l = p ++ cstr (drop (length p) l).
Proof.
  revert l. induction p as [|c p IH]; intros l Hp H; [by rewrite drop_0|]. inversion Hp as [|? ? Hc Hp']; subst.
  pose proof (H 0 ltac:(cbn; lia)) as H0. rewrite nthZ_cons_0 in H0. destruct l as [|x l]; [by cbn in H0|]. rewrite nthZ_cons_0 in H0. subst x.
  cbn [cstr app length drop]. rewrite (proj2 (Z.eqb_neq _ _) Hc). f_equal. apply IH; [done|]. intros k Hk.
  specialize (H (k + 1) ltac:(cbn [length]; lia)). by rewrite !nthZ_cons_S in H by lia.
Qed.

Lemma cstr_nth l k : 0 <= k < lenZ (cstr l) -> nthZ l k = nthZ (cstr l) k.
Proof.
  revert k. induction l as [|c l IH]; intros k; cbn [cstr]; [done|]. destruct (c =? 0); [cbn; lia|]. cbn [length]. intros Hk.
  destruct (Z.eq_dec k 0) as [->|]; [done|]. replace k with (k - 1 + 1) by lia. rewrite !nthZ_cons_S by lia. apply IH. lia.
Qed.

Lemma str_eq_spec a b : no_nul b -> str_eq a b = true <-> cstr a = b.
Proof.
  revert b. induction a as [|c a IH]; intros b Hb; cbn [str_eq cstr].
  - destruct b as [|x b]; [done|]. inversion Hb; subst. rewrite nthZ_cons_0. split; [|done]. intros E. unbool. congruence.
  - destruct b as [|x b].
    + change (nthZ [] 0) with 0. destruct (Z.eqb_spec c 0) as [->|Hc]; cbn [negb andb]; [done|]. by split.
    + inversion Hb as [|? ? Hx Hb']; subst. rewrite nthZ_cons_0. cbn [tail].
      destruct (Z.eqb_spec c 0) as [->|Hc]; cbn [negb andb].
      * destruct (Z.eqb_spec 0 x); [congruence|]. done.
      * destruct (Z.eqb_spec c x) as [->|Hcx]; [rewrite IH by done; split; congruence|]. split; [done|congruence].
Qed.

Lemma copy_name_spec old name : length old = 96%nat -> no_nul name -> lenZ name <= 95 ->
  length (copy_name old name) = 96%nat /\ cstr (copy_name old name) = name.
Proof.
  intros Ho Hn Hl. unfold copy_name.
  destruct (fill_buf (nthZ name) old (lenZ name) ltac:(lia)) as [F1 F2].
  set (b := for_range 0 (lenZ name) (fun k b => setZ b k (nthZ name k)) old) in *. clearbody b.
  split; [by rewrite length_setZ, F1|]. rewrite (cstr_prefix name).
  - replace (cstr (drop (length name) _)) with (@nil Z); [by rewrite app_nil_r|].
    unfold setZ. rewrite Nat2Z.id. rewrite drop_insert_ge, Nat.sub_diag by done.
    destruct (drop (length name) b) as [|x r] eqn:E; [|done].
    pose proof (f_equal length E) as El. rewrite length_drop, F1, Ho in El. cbn in El. lia.
  - done.
  - intros k Hk. rewrite nthZ_setZ_ne, F2 by lia. by zcase.
Qed.

(** * Bars *)

Lemma last_bar_spec n : (last_bar n = -1 /\ forall k, 0 <= k < lenZ n -> nthZ n k <> bar) \/
  (0 <= last_bar n < lenZ n /\ nthZ n (last_bar n) = bar /\ forall k, last_bar n < k < lenZ n -> nthZ n k <> bar).
Proof.
  unfold last_bar. refine (for_range_inv (fun i last => (last = -1 /\ forall k, 0 <= k < i -> nthZ n k <> bar) \/
    (0 <= last < i /\ nthZ n last = bar /\ forall k, last < k < i -> nthZ n k <> bar)) 0 (lenZ n) _ (-1) ltac:(lia) _ _).
  - left. split; [done|lia].
  - intros i last Hi IH. rewrite Z.add_0_l. destruct (Z.eqb_spec (nthZ n i) bar) as [E|E].
    + right. split_and!; [lia|lia|done|lia].
    + destruct IH as [[-> H]|(H1 & H2 & H3)]; [left|right].
      * split; [done|]. intros k Hk. destruct (Z.eq_dec k i) as [->|]; [done|]. apply H. lia.
      * split_and!; [lia|lia|done|]. intros k Hk. destruct (Z.eq_dec k i) as [->|]; [done|]. apply H3. lia.
Qed.

Lemma name_ok_facts n : name_ok n = true -> nthZ n 0 = bar /\ 2 <= lenZ n <= 95 /\ nthZ n (lenZ n - 1) <> bar /\ 0 <= last_bar n < lenZ n - 1.
Proof.
  unfold name_ok. destruct (Z.eqb_spec (nthZ n 0) bar) as [E0|]; cbn [negb]; [|done].
  destruct ((lenZ n <? 2) || (EXFS_NAME_MAX <? lenZ n)) eqn:El; [done|]. unfold EXFS_NAME_MAX in El. unbool.
  destruct (Z.eqb_spec (nthZ n (lenZ n - 1)) bar) as [|E1]; [done|]. intros _. split_and!; try lia; try done.
  - destruct (last_bar_spec n) as [[_ Hnb]|(? & _)]; [|lia]. destruct (Hnb 0 ltac:(lia) E0).
  - destruct (last_bar_spec n) as [[-> _]|(B1 & B2 & _)]; [lia|].
    destruct (Z.eq_dec (last_bar n) (lenZ n - 1)) as [E|]; [|lia]. rewrite E in B2. done.
Qed.

(** * The tree *)

Section Names.
Context {D : Type}.
Implicit Types (V : Vol D) (s : D) (f g : ExfsFile).

Definition cname f : list Z := cstr (f_name f).

(** What the tree depends on. *)
Definition ident f : bool * Z * list Z := (f_used f, f_type f, f_name f).
Definition same_names V V' : Prop := ident <$> v_files V' = ident <$> v_files V.

(** A node of the tree. *)
Definition node V (n : list Z) (t : Z) : Prop :=
  exists i f, v_files V !! i = Some f /\ f_used f = true /\ cname f = n /\ f_type f = t.

(** The type of the tree: 128 slots; every name in use is well formed, used
    once, of a known type, and its parent is the root or a directory. *)
Record ns_ok V : Prop := {
  ns_len : length (v_files V) = 128%nat;
  ns_buf : forall i f, v_files V !! i = Some f -> length (f_name f) = 96%nat;
  ns_name : forall i f, v_files V !! i = Some f -> f_used f = true -> name_ok (cname f) = true;
  ns_type : forall i f, v_files V !! i = Some f -> f_used f = true -> f_type f = EXFS_TYPE_FILE \/ f_type f = EXFS_TYPE_DIR;
  ns_uniq : forall i j f g, v_files V !! i = Some f -> v_files V !! j = Some g -> f_used f = true -> f_used g = true ->
    cname f = cname g -> i = j;
  ns_parent : forall i f, v_files V !! i = Some f -> f_used f = true ->
    last_bar (cname f) = 0 \/ node V (take (Z.to_nat (last_bar (cname f))) (cname f)) EXFS_TYPE_DIR
}.

Lemma same_lookup V V' i f : same_names V V' -> v_files V' !! i = Some f ->
  exists g, v_files V !! i = Some g /\ f_used f = f_used g /\ f_type f = f_type g /\ f_name f = f_name g.
Proof.
  intros H Hf. assert ((ident <$> v_files V') !! i = Some (ident f)) as E by (by rewrite list_lookup_fmap, Hf).
  rewrite H, list_lookup_fmap in E. destruct (v_files V !! i) as [g|]; [|done]. cbn in E. injection E as E1 E2 E3. eauto.
Qed.

Lemma same_names_sym V V' : same_names V V' -> same_names V' V.
Proof. unfold same_names. congruence. Qed.
Lemma same_names_refl V : same_names V V.
Proof. done. Qed.
Lemma same_names_trans V1 V2 V3 : same_names V1 V2 -> same_names V2 V3 -> same_names V1 V3.
Proof. unfold same_names. congruence. Qed.

Lemma same_node V V' n t : same_names V V' -> node V' n t <-> node V n t.
Proof.
  intros H. split; intros (i & f & Hf & Hu & Hn & Ht).
  - destruct (same_lookup V V' i f H Hf) as (g & Hg & E1 & E2 & E3). exists i, g. unfold cname in *. by rewrite <- E1, <- E2, <- E3.
  - destruct (same_lookup V' V i f (same_names_sym _ _ H) Hf) as (g & Hg & E1 & E2 & E3). exists i, g. unfold cname in *. by rewrite <- E1, <- E2, <- E3.
Qed.

Lemma same_ns_ok V V' : same_names V V' -> ns_ok V -> ns_ok V'.
Proof.
  intros H N. pose proof (fun i f => same_lookup V V' i f H) as L. split.
  - pose proof (f_equal length H) as E. rewrite !length_fmap in E. rewrite E. apply (ns_len V N).
  - intros i f (g & Hg & E1 & E2 & E3)%L. rewrite E3. by apply (ns_buf V N i).
  - intros i f (g & Hg & E1 & E2 & E3)%L Hu. unfold cname. rewrite E3. apply (ns_name V N i); congruence.
  - intros i f (g & Hg & E1 & E2 & E3)%L Hu. rewrite E2. apply (ns_type V N i); congruence.
  - intros i j f f' (g & Hg & E1 & E2 & E3)%L (g' & Hg' & F1 & F2 & F3)%L Hu Hu' Hc.
    apply (ns_uniq V N i j g g'); [done|done|congruence|congruence|]. unfold cname in *. congruence.
  - intros i f (g & Hg & E1 & E2 & E3)%L Hu. unfold cname. rewrite E3. destruct (ns_parent V N i g Hg) as [H0|H0]; [congruence|by left|right].
    by apply (same_node V V').
Qed.

(** ** Finding *)

Lemma find_in_spec l name k : no_nul name ->
  match find_in l name k with
  | Some i => exists f, (k <= i)%nat /\ l !! (i - k)%nat = Some f /\ f_used f = true /\ cname f = name
  | None => forall i f, l !! i = Some f -> f_used f = true -> cname f <> name
  end.
Proof.
  intros Hn. revert k. induction l as [|f l IH]; intros k; cbn [find_in]; [done|].
  destruct (f_used f) eqn:Eu; cbn [andb].
  - destruct (str_eq (f_name f) name) eqn:Es.
    + exists f. rewrite Nat.sub_diag. apply str_eq_spec in Es; [|done]. done.
    + specialize (IH (S k)). destruct (find_in l name (S k)) as [i|].
      * destruct IH as (x & Hk & Hx & ?). exists x. split; [lia|]. by replace (i - k)%nat with (S (i - S k))%nat by lia.
      * intros [|i] x Hx Hu; cbn in Hx; [|by apply (IH i)]. simplify_eq. intros E. apply str_eq_spec in E; [congruence|done].
  - specialize (IH (S k)). destruct (find_in l name (S k)) as [i|].
    + destruct IH as (x & Hk & Hx & ?). exists x. split; [lia|]. by replace (i - k)%nat with (S (i - S k))%nat by lia.
    + intros [|i] x Hx Hu; cbn in Hx; [simplify_eq; congruence|by apply (IH i)].
Qed.

Lemma file_lookup V i f : v_files V !! i = Some f -> file V i = f.
Proof. intros H. unfold file. by rewrite H. Qed.

Lemma find_Some V name i : no_nul name -> find V name = Some i ->
  v_files V !! i = Some (file V i) /\ f_used (file V i) = true /\ cname (file V i) = name.
Proof.
  intros Hn H. pose proof (find_in_spec (v_files V) name 0 Hn) as S. unfold find in H. rewrite H in S.
  destruct S as (f & _ & Hf & Hu & Hc). rewrite Nat.sub_0_r in Hf. by rewrite (file_lookup V i f Hf).
Qed.

Lemma find_None V name : no_nul name -> find V name = None -> forall t, ~ node V name t.
Proof.
  intros Hn H t (i & f & Hf & Hu & Hc & _). pose proof (find_in_spec (v_files V) name 0 Hn) as S. unfold find in H. rewrite H in S.
  by apply (S i f).
Qed.

Lemma find_node V name t : ns_ok V -> no_nul name -> node V name t -> exists i, find V name = Some i /\ f_type (file V i) = t.
Proof.
  intros N Hn Hnode. destruct (find V name) as [i|] eqn:E; [|by destruct (find_None V name Hn E t)].
  exists i. split; [done|]. destruct (find_Some V name i Hn E) as (Hf & Hu & Hc). destruct Hnode as (j & g & Hg & Hug & Hcg & <-).
  pose proof (ns_uniq V N i j (file V i) g Hf Hg Hu Hug ltac:(congruence)) as <-. congruence.
Qed.

(** ** Making a node *)

Lemma make_in_spec l name t :
  match make_in l name t with
  | Some l' => exists i f, l !! i = Some f /\ f_used f = false /\ l' = <[i := mkFile true t 0 (copy_name (f_name f) name) 0 0 0 0 (f_chain f) true]> l
  | None => Forall (fun f => f_used f = true) l
  end.
Proof.
  induction l as [|f l IH]; cbn [make_in]; [done|]. destruct (f_used f) eqn:E.
  - destruct (make_in l name t) as [l'|].
    + destruct IH as (i & g & Hg & Hu & ->). by exists (S i), g.
    + by constructor.
  - by exists O, f.
Qed.

(** The tree with one more node. *)
Definition tree_add V V' (name : list Z) (t : Z) : Prop := forall n u, node V' n u <-> node V n u \/ (n = name /\ u = t).
Definition tree_del V V' (name : list Z) : Prop := forall n u, node V' n u <-> node V n u /\ n <> name.

(** A directory the name may go into. *)
Definition has_parent V (name : list Z) : Prop :=
  last_bar name = 0 \/ node V (take (Z.to_nat (last_bar name)) name) EXFS_TYPE_DIR.

Lemma no_nul_take k l : no_nul l -> no_nul (take k l).
Proof. apply Forall_take. Qed.

Lemma parent_ok_spec V name : ns_ok V -> no_nul name -> parent_ok V name = true <-> has_parent V name.
Proof.
  intros N Hn. unfold parent_ok, has_parent. destruct (Z.eqb_spec (last_bar name) 0) as [E|E]; [by split; [left|]|].
  pose proof (no_nul_take (Z.to_nat (last_bar name)) name Hn) as Hn'.
  destruct (find V (take (Z.to_nat (last_bar name)) name)) as [i|] eqn:Ef.
  - destruct (find_Some V _ i Hn' Ef) as (Hf & Hu & Hc). rewrite Z.eqb_eq. split.
    + intros Ht. right. by exists i, (file V i).
    + intros [?|H]; [done|]. destruct (find_node V _ _ N Hn' H) as (j & Ej & Ht). congruence.
  - split; [done|]. intros [?|H]; [done|]. by destruct (find_None V _ Hn' Ef EXFS_TYPE_DIR).
Qed.

Lemma make_node_spec V name t : ns_ok V -> no_nul name -> name_ok name = true -> (t = EXFS_TYPE_FILE \/ t = EXFS_TYPE_DIR) ->
  (forall u, ~ node V name u) -> has_parent V name ->
  let '(rc, V') := make_node V name t in
  ns_ok V' /\ ((rc = EXFS_OK /\ tree_add V V' name t) \/ (rc = EXFS_ENOSPC /\ V' = V /\ Forall (fun f => f_used f = true) (v_files V))).
Proof.
  intros N Hn Hok Ht Hnew Hpar. unfold make_node. pose proof (make_in_spec (v_files V) name t) as H.
  destruct (make_in (v_files V) name t) as [l'|]; [|by split; [|right]].
  destruct H as (i & f & Hf & Hu & ->). pose proof (ns_buf V N i f Hf) as Hb. destruct (name_ok_facts name Hok) as (_ & Hl & _).
  destruct (copy_name_spec (f_name f) name Hb Hn ltac:(lia)) as [Hcl Hcn].
  set (f' := mkFile true t 0 (copy_name (f_name f) name) 0 0 0 0 (f_chain f) true) in *.
  set (V' := set_dirty (set_files V (<[i := f']> (v_files V))) true).
  assert (forall j g, v_files V' !! j = Some g -> (j = i /\ g = f') \/ (j <> i /\ v_files V !! j = Some g)) as Hlk.
  { intros j g Hg. cbn in Hg. apply list_lookup_insert_Some in Hg as [(<- & <- & _)|(? & ?)]; [by left|by right]. }
  assert (v_files V' !! i = Some f') as Hi by (apply list_lookup_insert_eq; by apply lookup_lt_Some in Hf).
  assert (tree_add V V' name t) as Hadd.
  { intros n u. split.
    - intros (j & g & [[-> ->]|[Hj Hg]]%Hlk & Hug & <- & <-); [right; by split|]. left. by exists j, g.
    - intros [(j & g & Hg & Hug & Hc & Htg)|[-> ->]]; [|by exists i, f'].
      exists j, g. split; [|done]. cbn. rewrite list_lookup_insert_ne; [done|]. intros <-. congruence. }
  split; [|by left]. assert (cname f' = name) as Hc' by done. split.
  - cbn. rewrite length_insert. apply (ns_len V N).
  - intros j g [[-> ->]|[Hj Hg]]%Hlk; [done|by apply (ns_buf V N j)].
  - intros j g [[-> ->]|[Hj Hg]]%Hlk Hug; [by rewrite Hc'|by apply (ns_name V N j)].
  - intros j g [[-> ->]|[Hj Hg]]%Hlk Hug; [done|by apply (ns_type V N j)].
  - intros j k g h [[-> ->]|[Hj Hg]]%Hlk [[-> ->]|[Hk Hh]]%Hlk Hug Huh Hc; [done| | |by apply (ns_uniq V N j k g h)].
    + destruct (Hnew (f_type h)). exists k, h. split_and!; [done|done|congruence|done].
    + destruct (Hnew (f_type g)). exists j, g. split_and!; [done|done|congruence|done].
  - intros j g [[-> ->]|[Hj Hg]]%Hlk Hug.
    + rewrite Hc'. destruct Hpar as [?|Hp]; [by left|right]. apply Hadd. by left.
    + destruct (ns_parent V N j g Hg Hug) as [?|Hp]; [by left|right]. apply Hadd. by left.
Qed.

(** ** Children *)

Lemma is_child_spec dir g : no_nul dir -> is_child dir g = true <-> f_used g = true /\ exists rest, cname g = dir ++ bar :: rest.
Proof.
  intros Hd. unfold is_child. rewrite !andb_true_iff, Z.eqb_eq, forallb_forall. split.
  - intros [[Hu Hb] Hk]. split; [done|]. exists (cstr (drop (length (dir ++ [bar])) (f_name g))).
    change (bar :: ?r) with ([bar] ++ r). rewrite app_assoc. apply cstr_prefix; [apply Forall_app; split; [done|by constructor]|].
    intros k Hk'. rewrite length_app in Hk'. cbn in Hk'. destruct (Z.eq_dec k (lenZ dir)) as [->|].
    + rewrite nthZ_app_r, Z.sub_diag by lia. done.
    + rewrite nthZ_app_l by lia. apply Z.eqb_eq, Hk, list_elem_of_In, elem_of_seqZ. lia.
  - intros [Hu [rest Hc]]. assert (lenZ dir < lenZ (cname g)) as Hl by (rewrite Hc, length_app; cbn; lia).
    assert (forall k, 0 <= k <= lenZ dir -> nthZ (f_name g) k = nthZ (dir ++ bar :: rest) k) as Hn.
    { intros k Hk. unfold cname in *. rewrite cstr_nth, Hc by lia. done. }
    split_and!; [done| |].
    + rewrite Hn, nthZ_app_r, Z.sub_diag by lia. done.
    + intros k Hk%list_elem_of_In%elem_of_seqZ. rewrite Hn, nthZ_app_l by lia. apply Z.eqb_refl.
Qed.

(** [n] is somewhere below [dir]. *)
Definition below (dir n : list Z) : Prop := exists rest, n = dir ++ bar :: rest.

Lemma has_children_spec V dir : no_nul dir -> has_children V dir = true <-> exists n t, node V n t /\ below dir n.
Proof.
  intros Hd. unfold has_children. rewrite existsb_exists. split.
  - intros (g & Hg%list_elem_of_In%list_elem_of_lookup & Hc). apply is_child_spec in Hc as [Hu [rest Hc]]; [|done]. destruct Hg as [i Hg].
    exists (cname g), (f_type g). split; [by exists i, g|by exists rest].
  - intros (n & t & (i & g & Hg & Hu & <- & _) & [rest Hr]). exists g. split; [by apply list_elem_of_In, (list_elem_of_lookup_2 _ i)|].
    apply is_child_spec; [done|]. split; [done|by exists rest].
Qed.

(** ** Operations that leave the tree alone *)

Lemma same_put V i f : ident f = ident (file V i) -> same_names V (put_file V i f).
Proof.
  intros H. unfold same_names, put_file. cbn [v_files set_files]. rewrite list_fmap_insert, H.
  destruct (v_files V !! i) as [g|] eqn:E.
  - apply list_insert_id. by rewrite list_lookup_fmap, E, (file_lookup V i g E).
  - apply list_insert_ge. rewrite length_fmap. by apply lookup_ge_None.
Qed.

Lemma defer_all_files V l : v_files (defer_all V l) = v_files V.
Proof.
  revert V. induction l as [|e l IH]; intros V; [done|]. cbn [defer_all fold_left]. change (v_files (defer_all (defer_push V (x_start e) (x_len e)).2 l) = v_files V).
  rewrite IH. unfold defer_push. by destruct (_ <=? _).
Qed.

Lemma file_same V V' i : v_files V' = v_files V -> file V' i = file V i.
Proof. intros H. unfold file. by rewrite H. Qed.

Lemma defer_file_same V i : same_names V (defer_file V i).2.
Proof.
  unfold defer_file. destruct (_ <? _); [done|]. cbn [snd]. set (V1 := pool_release _ _ _).
  assert (v_files V1 = v_files V) as E by (unfold V1, pool_release, pool_mark; cbn [v_files set_pool_used]; by rewrite !defer_all_files).
  apply (same_names_trans _ V1); [by unfold same_names; rewrite E|]. apply same_put. by rewrite (file_same V V1 i E).
Qed.

Lemma compact_one_same V i c : same_names V (compact_one V i c).1.
Proof.
  unfold compact_one. set (V1 := if negb _ then _ else V). assert (same_names V V1) as H1; [|exact H1].
  unfold V1. destruct (negb _); [|done]. set (V2 := set_pool V _). apply (same_names_trans _ V2); [done|]. by apply same_put.
Qed.

Lemma pool_compact_same V : same_names V (pool_compact V).
Proof.
  unfold pool_compact. assert (forall l W c, same_names V W -> same_names V (fold_left (fun '(V, cursor) i => compact_one V i cursor) l (W, c)).1) as H.
  { induction l as [|i l IH]; intros W c HW; [done|]. cbn [fold_left]. pose proof (compact_one_same W i c) as H1.
    destruct (compact_one W i c) as [W' c']. apply IH. by apply (same_names_trans _ W). }
  by apply H.
Qed.

Lemma pool_reserve_same V n : same_names V (pool_reserve V n).2.
Proof.
  unfold pool_reserve. destruct (n =? 0); [done|]. destruct (pool_find V _); [done|].
  destruct (pool_find (pool_compact V) _); apply pool_compact_same.
Qed.

Lemma take_extent_files V need s : v_files (take_extent V need s).1.2 = v_files V.
Proof. unfold take_extent. destruct (gmap_take _ _ _ _) as [[[[rc st] ln] gm] s']. by destruct (negb _). Qed.

Lemma release_fresh_files l : forall V s, v_files (release_fresh V l s).1 = v_files V.
Proof.
  induction l as [|e l IH]; intros V s; [done|]. cbn [release_fresh]. destruct (gmap_release _ _ _ _) as [[rc gm] s']. by rewrite IH.
Qed.

Lemma take_all_files fuel need : forall got l V s, v_files (take_all fuel got need l V s).1.2 = v_files V.
Proof.
  induction fuel as [|fuel IH]; intros got l V s; cbn [take_all]; (destruct (negb _); [done|]); [done|].
  destruct (_ =? EXFS_MAX_EXT).
  - pose proof (release_fresh_files (reverse l) V s) as H. by destruct (release_fresh V (reverse l) s).
  - pose proof (take_extent_files V (need - got) s) as H. destruct (take_extent V (need - got) s) as [[[ln e] V1] s1]. cbn in H.
    destruct (ln =? 0); [|by rewrite IH]. pose proof (release_fresh_files (reverse l) V1 s1) as H2. destruct (release_fresh V1 (reverse l) s1). cbn in *. congruence.
Qed.

Lemma take_fresh_files V need s : v_files (take_fresh V need s).1.2 = v_files V.
Proof.
  unfold take_fresh. pose proof (take_all_files (S (S (Z.to_nat EXFS_MAX_EXT))) need 0 [] V s) as H.
  destruct (take_all _ _ _ _ _ _) as [[r V'] s']. exact H.
Qed.

Lemma files_same V V' : v_files V' = v_files V -> same_names V V'.
Proof. unfold same_names. by intros ->. Qed.

Lemma exfs_write_same V name buf len s : same_names V (exfs_write V name buf len s).1.2.
Proof.
  unfold exfs_write. destruct (negb _); [done|]. destruct (v_broken V); [done|]. destruct (find V name) as [i|]; [|done].
  destruct (negb _); [done|]. pose proof (take_fresh_files V (u64 (len + EXFS_BLOCK - 1) / EXFS_BLOCK) s) as H1.
  destruct (take_fresh V _ s) as [[[rc|fresh] V1] s1]; cbn in H1; [by apply files_same|]. apply files_same in H1.
  assert (forall W t, same_names V W -> same_names V (release_fresh W fresh t).1) as Hrel.
  { intros W t HW. apply (same_names_trans _ W); [done|]. apply files_same, release_fresh_files. }
  destruct (_ <? _). { specialize (Hrel V1 s1 H1). by destruct (release_fresh V1 fresh s1). }
  pose proof (pool_reserve_same V1 (lenZ fresh)) as H2. destruct (pool_reserve V1 (lenZ fresh)) as [[[rc roff] rcap] V2]. cbn in H2.
  pose proof (same_names_trans _ _ _ H1 H2) as H12.
  destruct (negb _). { specialize (Hrel V2 s1 H12). by destruct (release_fresh V2 fresh s1). }
  destruct (write_runs _ _ _ _ _ _) as [ok s2]. destruct (negb ok).
  { specialize (Hrel (pool_release V2 roff rcap) s2 H12). by destruct (release_fresh _ fresh s2). }
  cbn [fst snd]. apply (same_names_trans _ V2); [done|]. apply (same_names_trans _ (defer_file V2 i).2); [apply defer_file_same|].
  set (V3 := pool_store _ _ _). change (same_names V3 (put_file V3 i (set_content (file V3 i) (lenZ fresh) roff rcap len))). by apply same_put.
Qed.

Lemma walk_defer_files l : forall lpos lo hi V, v_files (default V (walk_old defer_act l lpos lo hi V)) = v_files V.
Proof.
  assert (forall l lpos lo hi V W, walk_old defer_act l lpos lo hi V = Some W -> v_files W = v_files V) as H.
  { clear l. induction l as [|e l IH]; intros lpos lo hi V W; cbn [walk_old]; [by intros [= ->]|].
    destruct (negb _); [by intros [= ->]|]. match goal with |- (if ?c then _ else _) = _ -> _ => destruct c end; [|by apply IH].
    unfold defer_act at 1, defer_push. destruct (_ <=? _); cbn [Z.eqb EXFS_ENOMEM EXFS_OK]; [done|]. intros E. by rewrite (IH _ _ _ _ _ E). }
  intros lpos lo hi V. destruct (walk_old _ _ _ _ _ _) eqn:E; [by apply (H _ _ _ _ _ _ E)|done].
Qed.

Lemma exfs_write_at_same V name off buf len s : same_names V (exfs_write_at V name off buf len s).1.2.
Proof.
  unfold exfs_write_at. destruct (negb _); [done|]. destruct (v_broken V); [done|]. destruct (find V name) as [i|]; [|done].
  destruct (negb _); [done|]. destruct (len =? 0); [done|]. destruct (u64 (off + len) <? off); [done|].
  set (oldb := total_len _). set (W0 := if _ <? oldb then _ else oldb). set (nfresh := _ - W0 + 1). set (L1 := u64 _ / _).
  destruct (_ <? nfresh); [done|]. destruct (EXFS_DEFER_MAX <? _); [done|]. pose proof (take_fresh_files V nfresh s) as H1.
  destruct (take_fresh V nfresh s) as [[[rc|fresh] V1] s1]; cbn in H1; [by apply files_same|]. apply files_same in H1.
  assert (forall W t, same_names V W -> same_names V (release_fresh W fresh t).1) as Hrel.
  { intros W t HW. apply (same_names_trans _ W); [done|]. apply files_same, release_fresh_files. }
  destruct (new_list _ _ _ _ _) as [stage|]. 2: { specialize (Hrel V1 s1 H1). by destruct (release_fresh V1 fresh s1). }
  pose proof (pool_reserve_same V1 (lenZ stage)) as H2. destruct (pool_reserve V1 (lenZ stage)) as [[[rc roff] rcap] V2]. cbn in H2.
  pose proof (same_names_trans _ _ _ H1 H2) as H12.
  destruct (negb _). { specialize (Hrel V2 s1 H12). by destruct (release_fresh V2 fresh s1). }
  destruct (merge_loop _ _ _ _ _ _ _ _ _ _) as [ok s2]. destruct (negb ok).
  { specialize (Hrel (pool_release V2 roff rcap) s2 H12). by destruct (release_fresh _ fresh s2). }
  cbn [fst snd]. apply (same_names_trans _ V2); [done|]. set (V3 := pool_store _ _ _).
  assert (v_files V3 = v_files V2) as E.
  { unfold V3, pool_store, pool_release, pool_mark. cbn [v_files set_pool set_pool_used]. by rewrite defer_all_files, walk_defer_files. }
  apply (same_names_trans _ V3); [by apply files_same|]. refine (same_put V3 i _ _). by rewrite (file_same V2 V3 i E).
Qed.

(** The commit changes chains and marks only. *)
Lemma chain_take_same i : forall k j V s, same_names V (chain_take k j i V s).1.2.
Proof.
  induction k as [|k IH]; intros j V s; [done|]. cbn [chain_take]. pose proof (take_extent_files V 1 s) as H.
  destruct (take_extent V 1 s) as [[[l e] V1] s1]. cbn in H. apply files_same in H. destruct (negb _); [done|].
  apply (same_names_trans _ V1); [done|]. eapply same_names_trans; [|apply IH]. by apply same_put.
Qed.

Lemma commit_chain_same V i s : same_names V (commit_chain V i s).1.2.
Proof.
  unfold commit_chain. destruct (_ || _); [done|]. set (nind := if EXFS_INL <? _ then _ else 0).
  pose proof (chain_take_same i (Z.to_nat nind) 0 V s) as H. destruct (chain_take _ _ _ _ _) as [[ok V1] s1]. cbn in H. destruct (negb ok); [done|].
  set (V2 := put_file V1 i _). assert (same_names V V2) as H2 by (apply (same_names_trans _ V1); [done|]; by apply same_put).
  destruct (chain_write _ _ _ _ _ _) as [ok2 s2]. by destruct (negb ok2).
Qed.

Lemma commit_chains_same : forall k i V s, same_names V (commit_chains k i V s).1.2.
Proof.
  induction k as [|k IH]; intros i V s; [done|]. cbn [commit_chains]. pose proof (commit_chain_same V i s) as H.
  destruct (commit_chain V i s) as [[rc V1] s1]. cbn in H. destruct (negb _); [done|]. eapply same_names_trans; [done|apply IH].
Qed.

Lemma apply_deferred_files : forall l V s, v_files (apply_deferred_loop l V s).1.2 = v_files V.
Proof.
  induction l as [|e l IH]; intros V s; [done|]. cbn [apply_deferred_loop]. destruct (gmap_release _ _ _ _) as [[rc gm] s1].
  destruct (negb _); [done|]. by rewrite IH.
Qed.

Lemma commit_super_same V gen s : same_names V (commit_super V gen s).1.2.
Proof.
  unfold commit_super. destruct (sb_encode _ _) as [rc page]. destruct (negb _); [done|]. destruct (blk_put _ _ _ _) as [rc2 s2]. destruct (negb _); [done|].
  unfold same_names. cbn [fst snd v_files set_dirty set_files set_gen set_gm]. rewrite <- list_fmap_compose. by apply list_fmap_ext.
Qed.

Lemma commit_map_same V s : same_names V (commit_map V s).1.2.
Proof.
  unfold commit_map. pose proof (apply_deferred_files (v_defer V) V s) as H. unfold apply_deferred.
  destruct (apply_deferred_loop _ _ _) as [[rc V1] s1]. cbn in H. apply files_same in H. destruct (negb _); [done|].
  destruct (gmap_flush _ _) as [[rc2 gm] s2]. destruct (negb _); [done|]. destruct (put_blocks _ _ _ _ _) as [rc3 s3]. destruct (negb _); [done|].
  apply (same_names_trans _ (set_gm V1 gm)); [done|apply commit_super_same].
Qed.

Lemma exfs_commit_same V s : same_names V (exfs_commit V s).1.2.
Proof.
  unfold exfs_commit. destruct (negb _); [done|]. destruct (v_broken V); [done|]. destruct (negb _); [done|].
  destruct (commit_need _ _); [done|]. destruct (_ <? _); [done|]. pose proof (commit_chains_same (Z.to_nat EXFS_INODES) 0 V s) as H.
  destruct (commit_chains _ _ _ _) as [[rc V1] s1]. cbn in H. destruct (negb _); [done|]. apply (same_names_trans _ V1); [done|apply commit_map_same].
Qed.

(** ** Creating and deleting *)

(** The volume accepts changes. *)
Definition active V : Prop := v_mounted V = true /\ v_broken V = false.

(** What creating answers, cause by cause. *)
Definition create_post V (name : list Z) (t rc : Z) V' : Prop :=
  (rc = EXFS_OK /\ active V /\ name_ok name = true /\ (forall u, ~ node V name u) /\ has_parent V name /\ tree_add V V' name t) \/
  (V' = V /\
    ((rc = EXFS_ENOFS /\ v_mounted V = false) \/ (rc = EXFS_EBROKEN /\ v_broken V = true) \/
     (rc = EXFS_EINVAL /\ name_ok name = false) \/ (rc = EXFS_EEXIST /\ exists u, node V name u) \/
     (rc = EXFS_ENOENT /\ ~ has_parent V name) \/ (rc = EXFS_ENOSPC /\ Forall (fun f => f_used f = true) (v_files V)))).

Lemma exfs_new_spec V name t : ns_ok V -> no_nul name -> (t = EXFS_TYPE_FILE \/ t = EXFS_TYPE_DIR) ->
  let '(rc, V') := exfs_new t V name in ns_ok V' /\ create_post V name t rc V'.
Proof.
  intros N Hn Ht. unfold exfs_new, create_post, active. destruct (v_mounted V) eqn:Em; cbn [negb]; [|by split; [|right; split; [|left]]].
  destruct (v_broken V) eqn:Eb; [split; [done|]; right; split; [done|]; right; by left|].
  destruct (name_ok name) eqn:Ek; cbn [negb]; [|split; [done|]; right; split; [done|]; do 2 right; by left].
  destruct (find V name) as [i|] eqn:Ef.
  { split; [done|]. right. split; [done|]. do 3 right. left. split; [done|]. destruct (find_Some V name i Hn Ef) as (Hf & Hu & Hc).
    exists (f_type (file V i)). by exists i, (file V i). }
  pose proof (find_None V name Hn Ef) as Hnew. destruct (parent_ok V name) eqn:Ep; cbn [negb].
  - apply parent_ok_spec in Ep; [|done|done]. pose proof (make_node_spec V name t N Hn Ek Ht Hnew Ep) as H.
    destruct (make_node V name t) as [rc V']. destruct H as [H1 [[-> H2]|(-> & -> & H2)]]; (split; [done|]).
    + left. by split_and!.
    + right. split; [done|]. do 5 right. done.
  - split; [done|]. right. split; [done|]. do 4 right. left. split; [done|]. intros H. apply parent_ok_spec in H; [congruence|done|done].
Qed.

Definition delete_post V (name : list Z) (rc : Z) V' : Prop :=
  (rc = EXFS_OK /\ active V /\ (exists u, node V name u) /\ tree_del V V' name /\
    (node V name EXFS_TYPE_DIR -> forall n u, node V n u -> ~ below name n)) \/
  (V' = V /\
    ((rc = EXFS_ENOFS /\ v_mounted V = false) \/ (rc = EXFS_EBROKEN /\ v_broken V = true) \/
     (rc = EXFS_ENOENT /\ forall u, ~ node V name u) \/
     (rc = EXFS_ENOTEMPTY /\ node V name EXFS_TYPE_DIR /\ exists n u, node V n u /\ below name n) \/
     (rc = EXFS_ENOMEM /\ exists i, find V name = Some i /\ EXFS_DEFER_MAX < ndefer V + f_n (file V i) + f_nchain (file V i)))).

(** The name of a node whose parent is [dir] is below [dir]. *)
Lemma parent_below n dir : name_ok n = true -> take (Z.to_nat (last_bar n)) n = dir -> below dir n.
Proof.
  intros Hk Hd. destruct (name_ok_facts n Hk) as (_ & Hl & _ & Hb). destruct (last_bar_spec n) as [[E _]|(H1 & H2 & _)]; [lia|].
  exists (drop (S (Z.to_nat (last_bar n))) n). rewrite <- Hd. rewrite <- (take_drop (Z.to_nat (last_bar n)) n) at 1. f_equal.
  apply drop_S. destruct (lookup_lt_is_Some_2 n (Z.to_nat (last_bar n)) ltac:(lia)) as [x Hx]. unfold nthZ in H2. rewrite Hx in H2. cbn in H2. by rewrite <- H2.
Qed.

Lemma exfs_delete_spec V name : ns_ok V -> no_nul name ->
  let '(rc, V') := exfs_delete V name in ns_ok V' /\ delete_post V name rc V'.
Proof.
  intros N Hn. unfold exfs_delete, delete_post, active. destruct (v_mounted V) eqn:Em; cbn [negb]; [|by split; [|right; split; [|left]]].
  destruct (v_broken V) eqn:Eb; [split; [done|]; right; split; [done|]; right; by left|].
  destruct (find V name) as [i|] eqn:Ef.
  2: { split; [done|]. right. split; [done|]. do 2 right. left. split; [done|]. by apply find_None. }
  destruct (find_Some V name i Hn Ef) as (Hf & Hu & Hc). pose proof (has_children_spec V name Hn) as Hch.
  assert (node V name (f_type (file V i))) as Hnode by (by exists i, (file V i)).
  destruct ((f_type (file V i) =? EXFS_TYPE_DIR) && has_children V name) eqn:Ed.
  { unbool. split; [done|]. right. split; [done|]. do 3 right. left. split_and!; [done|congruence|by apply Hch]. }
  pose proof (defer_file_same V i) as Hsm. destruct (defer_file V i) as [rc V1] eqn:Edf. cbn in Hsm.
  assert ((rc = EXFS_OK) \/ (rc = EXFS_ENOMEM /\ V1 = V /\ EXFS_DEFER_MAX < ndefer V + f_n (file V i) + f_nchain (file V i))) as Hrc.
  { unfold defer_file in Edf. destruct (Z.ltb_spec EXFS_DEFER_MAX (ndefer V + (f_n (file V i) + f_nchain (file V i)))); simplify_eq; [|by left].
    right. split_and!; [done|done|lia]. }
  destruct Hrc as [->|(-> & -> & Hm)]; cbn [Z.eqb EXFS_OK EXFS_ENOMEM negb].
  2: { split; [done|]. right. split; [done|]. do 4 right. split; [done|]. by exists i. }
  pose proof (same_ns_ok V V1 Hsm N) as N1. destruct (same_lookup V1 V i (file V i)) as (f1 & Hf1 & E1 & E2 & E3); [by apply same_names_sym|done|].
  rewrite (file_lookup V1 i f1 Hf1). set (V' := set_dirty (put_file V1 i (unused_file f1)) true).
  assert (forall j g, v_files V' !! j = Some g -> (j = i /\ g = unused_file f1) \/ (j <> i /\ v_files V1 !! j = Some g)) as Hlk.
  { intros j g Hg. cbn in Hg. apply list_lookup_insert_Some in Hg as [(<- & <- & _)|(? & ?)]; [by left|by right]. }
  assert (cname f1 = name) as Hc1 by (unfold cname in *; congruence). assert (f_used f1 = true) as Hu1 by congruence.
  assert (tree_del V V' name) as Hdel.
  { intros n u. rewrite <- (same_node V V1 n u Hsm). split.
    - intros (j & g & [[-> ->]|[Hj Hg]]%Hlk & Hug & <- & <-); [done|]. split; [by exists j, g|].
      intros E. apply Hj. apply (ns_uniq V1 N1 j i g f1); congruence.
    - intros [(j & g & Hg & Hug & Hcg & Htg) Hne]. exists j, g. split; [|done]. cbn. rewrite list_lookup_insert_ne; [done|].
      intros <-. apply Hne. congruence. }
  assert (node V name EXFS_TYPE_DIR -> forall n u, node V n u -> ~ below name n) as Hempty.
  { intros Hdir n u Hnu Hbl. destruct (find_node V name _ N Hn Hdir) as (k & Ek & Ht). rewrite Ef in Ek. injection Ek as <-.
    rewrite Ht, Z.eqb_refl in Ed. cbn in Ed. assert (has_children V name = true) as E by (apply Hch; by exists n, u). congruence. }
  split; [|left; split_and!; [done|done|done|by exists (f_type (file V i))|done|done]]. split.
  - cbn. rewrite length_insert. apply (ns_len V1 N1).
  - intros j g [[-> ->]|[Hj Hg]]%Hlk; [by apply (ns_buf V1 N1 i f1)|by apply (ns_buf V1 N1 j)].
  - intros j g [[-> ->]|[Hj Hg]]%Hlk Hug; [done|by apply (ns_name V1 N1 j)].
  - intros j g [[-> ->]|[Hj Hg]]%Hlk Hug; [done|by apply (ns_type V1 N1 j)].
  - intros j k g h [[-> ->]|[Hj Hg]]%Hlk [[-> ->]|[Hk Hh]]%Hlk Hug Huh Hcc; [done|done|done|by apply (ns_uniq V1 N1 j k g h)].
  - intros j g [[-> ->]|[Hj Hg]]%Hlk Hug; [done|]. destruct (ns_parent V1 N1 j g Hg Hug) as [?|Hp]; [by left|right].
    apply Hdel. split; [by apply (same_node V V1)|]. intros E. pose proof (proj1 (same_node V V1 _ _ Hsm) Hp) as Hp'. rewrite E in Hp'.
    apply (Hempty Hp' (cname g) (f_type g)); [apply (same_node V V1 _ _ Hsm); by exists j, g|].
    apply parent_below; [by apply (ns_name V1 N1 j)|done].
Qed.

(** ** Listing *)

Lemma starts_with_spec p : forall l, starts_with l p = true <-> (forall k, 0 <= k < lenZ p -> nthZ l k = nthZ p k).
Proof.
  induction p as [|c p IH]; intros l; cbn [starts_with]; [split; [cbn; lia|done]|].
  destruct (Z.eqb_spec (nthZ l 0) c) as [E|E]; cbn [negb].
  - rewrite IH. split; intros H k Hk.
    + destruct (Z.eq_dec k 0) as [->|]; [done|]. replace k with (k - 1 + 1) by lia. rewrite nthZ_cons_S, <- nthZ_tail by lia. apply H. cbn [length] in Hk. lia.
    + specialize (H (k + 1) ltac:(cbn [length]; lia)). rewrite nthZ_tail by lia. by rewrite nthZ_cons_S in H by lia.
  - split; [done|]. intros H. specialize (H 0 ltac:(cbn; lia)). by rewrite nthZ_cons_0 in H.
Qed.

Definition plain (rest : list Z) : Prop := rest <> [] /\ bar ∉ rest.

Lemma list_one_spec pre g rest t : no_nul pre ->
  list_one pre g = Some (rest, t) <-> f_used g = true /\ cname g = pre ++ rest /\ f_type g = t /\ plain rest.
Proof.
  intros Hp. unfold list_one, plain. destruct (f_used g) eqn:Eu; cbn [negb orb]; [|split; [done|by intros [? _]]].
  pose proof (starts_with_spec pre (f_name g)) as Hs. destruct (starts_with (f_name g) pre) eqn:Es; cbn [negb].
  - assert (cname g = pre ++ cstr (drop (length pre) (f_name g))) as Hc by (apply cstr_prefix; [done|by apply Hs]).
    set (r := cstr (drop (length pre) (f_name g))) in *. rewrite Hc.
    assert (existsb (fun c => c =? bar) r = true <-> bar ∈ r) as Hb.
    { rewrite existsb_exists. split.
      - intros (x & Hx%list_elem_of_In & ->%Z.eqb_eq). done.
      - intros Hx. exists bar. split; [by apply list_elem_of_In|done]. }
    case_bool_decide as E0.
    { split; [done|]. intros (_ & E%app_inv_head & _ & Hne & _). congruence. }
    destruct (existsb (fun c => c =? bar) r) eqn:E1.
    { split; [done|]. intros (_ & E%app_inv_head & _ & _ & Hnb). subst rest. destruct Hnb. by apply Hb. }
    split.
    + intros [= <- <-]. split_and!; [done|done|done|done|]. intros Hin. apply Hb in Hin. done.
    + intros (_ & E%app_inv_head & <- & _). by subst rest.
  - split; [done|]. intros (_ & Hc & _). enough (false = true) by done. apply Hs. intros k Hk. unfold cname in Hc.
    rewrite cstr_nth, Hc by (rewrite Hc, length_app; lia). by rewrite nthZ_app_l.
Qed.

Lemma NoDup_omap_index {A B} (f : A -> option B) l :
  (forall i j x y r, l !! i = Some x -> l !! j = Some y -> f x = Some r -> f y = Some r -> i = j) -> NoDup (omap f l).
Proof.
  induction l as [|x l IH]; intros H; [constructor|]. cbn.
  assert (NoDup (omap f l)) as Hl.
  { apply IH. intros i j a b r Ha Hb Hfa Hfb. by injection (H (S i) (S j) a b r Ha Hb Hfa Hfb). }
  destruct (f x) as [r|] eqn:E; [|done]. constructor; [|done]. intros (y & Hy & Hfy)%list_elem_of_omap.
  apply list_elem_of_lookup in Hy as [j Hj]. discriminate (H O (S j) x y r eq_refl Hj E Hfy).
Qed.

(** The prefix of the names in a directory. *)
Definition prefix_of (dir : list Z) : list Z := if is_root dir then [bar] else dir ++ [bar].

Lemma exfs_list_spec V dir : ns_ok V -> no_nul dir -> v_mounted V = true -> is_root dir = true \/ node V dir EXFS_TYPE_DIR ->
  let '(n, calls) := exfs_list V dir in
  n = lenZ calls /\ NoDup calls /\ (forall rest t, (rest, t) ∈ calls <-> plain rest /\ node V (prefix_of dir ++ rest) t).
Proof.
  intros N Hd Hm Hdir. unfold exfs_list. rewrite Hm. cbn [negb].
  assert (forall pre, no_nul pre -> NoDup (omap (list_one pre) (v_files V)) /\
    (forall rest t, (rest, t) ∈ omap (list_one pre) (v_files V) <-> plain rest /\ node V (pre ++ rest) t)) as Hgo.
  { intros pre Hp. split.
    - apply NoDup_omap_index. intros i j f g [r t] Hf Hg (Hu1 & Hc1 & _)%list_one_spec (Hu2 & Hc2 & _)%list_one_spec; [|done|done].
      apply (ns_uniq V N i j f g); [done|done|done|done|congruence].
    - intros rest t. rewrite list_elem_of_omap. split.
      + intros (g & [i Hi]%list_elem_of_lookup & (Hu & Hc & Ht & Hpl)%list_one_spec); [|done]. split; [done|]. by exists i, g.
      + intros [Hpl (i & g & Hg & Hu & Hc & Ht)]. exists g. split; [by apply (list_elem_of_lookup_2 _ i)|]. by apply list_one_spec. }
  unfold prefix_of. destruct (is_root dir) eqn:Er.
  - destruct (Hgo [bar]); [by repeat constructor|]. by split_and!.
  - destruct Hdir as [?|Hdir]; [done|]. destruct (find_node V dir _ N Hd Hdir) as (i & -> & Ht). rewrite Ht, Z.eqb_refl. cbn [negb].
    destruct (Hgo (dir ++ [bar])); [apply Forall_app; split; [done|by constructor]|]. by split_and!.
Qed.

(** ** Formatting *)

(** The static storage: 128 records with 96-byte names. *)
Definition slots_ok V : Prop := length (v_files V) = 128%nat /\ forall i f, v_files V !! i = Some f -> length (f_name f) = 96%nat.

Lemma ns_slots V : ns_ok V -> slots_ok V.
Proof. intros N. split; [apply (ns_len V N)|apply (ns_buf V N)]. Qed.

Lemma unused_ns_ok V : slots_ok V -> (forall i f, v_files V !! i = Some f -> f_used f = false) -> ns_ok V.
Proof.
  intros [Hl Hb] Hu. split; try done; intros i; intros; exfalso.
  - rewrite (Hu i f) in *; done.
  - rewrite (Hu i f) in *; done.
  - rewrite (Hu i f) in *; done.
  - rewrite (Hu i f) in *; done.
Qed.

Lemma root_dirs_ok l V : ns_ok V -> NoDup l -> Forall (fun n => no_nul n /\ name_ok n = true /\ last_bar n = 0) l ->
  (forall n u, n ∈ l -> ~ node V n u) -> ns_ok (fold_left (fun V n => (make_node V n EXFS_TYPE_DIR).2) l V).
Proof.
  revert V. induction l as [|n l IH]; intros V N Hnd Hl Hnew; [done|]. inversion Hnd as [|? ? Hni Hnd']; subst. inversion Hl as [|? ? (H1 & H2 & H3) Hl']; subst.
  cbn [fold_left]. pose proof (make_node_spec V n EXFS_TYPE_DIR N H1 H2 ltac:(by right) ltac:(intros u; apply Hnew; set_solver) ltac:(by left)) as H.
  destruct (make_node V n EXFS_TYPE_DIR) as [rc V']. cbn [snd]. destruct H as [N' H]. apply IH; [done|done|done|].
  intros m u Hm Hnode. destruct H as [[_ Hadd]|(_ & -> & _)]; [|by apply (Hnew m u); [set_solver|]].
  apply Hadd in Hnode as [Hnode|[-> _]]; [by apply (Hnew m u); [set_solver|]|done].
Qed.

Lemma format_names V : slots_ok V -> ns_ok (fold_left (fun V n => (make_node V n EXFS_TYPE_DIR).2) root_dirs (format_volume V)).
Proof.
  intros [Hl Hb]. assert (forall i f, v_files (format_volume V) !! i = Some f -> exists g, v_files V !! i = Some g /\ f = blank_file g) as Hlk.
  { intros i f Hf. cbn in Hf. rewrite list_lookup_fmap in Hf. destruct (v_files V !! i) as [g|]; [|done]. cbn in Hf. simplify_eq. eauto. }
  assert (forall i f, v_files (format_volume V) !! i = Some f -> f_used f = false) as Hu by (intros i f (g & _ & ->)%Hlk; done).
  apply root_dirs_ok.
  - apply unused_ns_ok; [|done]. split; [cbn; by rewrite length_fmap|]. intros i f (g & Hg & ->)%Hlk. exact (Hb i g Hg).
  - repeat constructor; set_solver.
  - repeat constructor; done.
  - intros n u _ (i & f & Hf & Huf & _). by rewrite (Hu i f Hf) in Huf.
Qed.

Lemma geometry_files V d : v_files (geometry V d).2 = v_files V.
Proof. unfold geometry. destruct (_ || _); [done|]. by destruct (_ || _). Qed.

Lemma exfs_format_names V d s : ns_ok V -> ns_ok (exfs_format V d s).1.2.
Proof.
  intros N. unfold exfs_format. destruct d as [dv|]; [|done]. pose proof (geometry_files V (Some dv)) as H. destruct (geometry V (Some dv)) as [rc V1]. cbn in H.
  apply files_same in H. pose proof (same_ns_ok V V1 H N) as N1. destruct (negb _); [done|]. destruct (gmap_init _ _ _ _) as [rc2 gm].
  destruct (negb _); [by apply (same_ns_ok V1)|]. destruct (gmap_format _ _ _) as [[rc3 gm'] s']. destruct (negb _); [by apply (same_ns_ok V1)|].
  eapply same_ns_ok; [apply exfs_commit_same|]. apply format_names, ns_slots. by apply (same_ns_ok V1).
Qed.

(** ** Every history *)

Inductive fstep : Vol D * D -> Vol D * D -> Prop :=
  | fs_format V d s rc V' s' : exfs_format V d s = (rc, V', s') -> fstep (V, s) (V', s')
  | fs_create V n s rc V' : no_nul n -> exfs_create V n = (rc, V') -> fstep (V, s) (V', s)
  | fs_mkdir V n s rc V' : no_nul n -> exfs_mkdir V n = (rc, V') -> fstep (V, s) (V', s)
  | fs_delete V n s rc V' : no_nul n -> exfs_delete V n = (rc, V') -> fstep (V, s) (V', s)
  | fs_write V n buf len s rc V' s' : exfs_write V n buf len s = (rc, V', s') -> fstep (V, s) (V', s')
  | fs_write_at V n off buf len s rc V' s' : exfs_write_at V n off buf len s = (rc, V', s') -> fstep (V, s) (V', s')
  | fs_commit V s rc V' s' : exfs_commit V s = (rc, V', s') -> fstep (V, s) (V', s')
  | fs_unmount V s rc V' s' : exfs_unmount V s = (rc, V', s') -> fstep (V, s) (V', s')
  | fs_is_used V b s rc V' s' : exfs_is_used V b s = (rc, V', s') -> fstep (V, s) (V', s')
  | fs_read V n off cap s rc buf s' : exfs_read_at V n off cap s = (rc, buf, s') -> fstep (V, s) (V, s').

Lemma fstep_ns_ok a b : fstep a b -> ns_ok a.1 -> ns_ok b.1.
Proof.
  intros H N. destruct H as [V d s rc V' s' E|V n s rc V' Hn E|V n s rc V' Hn E|V n s rc V' Hn E|V n buf len s rc V' s' E|
    V n off buf len s rc V' s' E|V s rc V' s' E|V s rc V' s' E|V b s rc V' s' E|]; cbn [fst] in *; [..|done].
  - pose proof (exfs_format_names V d s N) as H. by rewrite E in H.
  - pose proof (exfs_new_spec V n EXFS_TYPE_FILE N Hn ltac:(by left)) as H. unfold exfs_create in E. rewrite E in H. apply H.
  - pose proof (exfs_new_spec V n EXFS_TYPE_DIR N Hn ltac:(by right)) as H. unfold exfs_mkdir in E. rewrite E in H. apply H.
  - pose proof (exfs_delete_spec V n N Hn) as H. rewrite E in H. apply H.
  - pose proof (exfs_write_same V n buf len s) as H. rewrite E in H. by apply (same_ns_ok V).
  - pose proof (exfs_write_at_same V n off buf len s) as H. rewrite E in H. by apply (same_ns_ok V).
  - pose proof (exfs_commit_same V s) as H. rewrite E in H. by apply (same_ns_ok V).
  - unfold exfs_unmount in E. destruct (negb (v_mounted V)); [by simplify_eq|]. pose proof (exfs_commit_same V s) as H.
    destruct (exfs_commit V s) as [[rc1 V1] s1]. cbn in H. destruct (negb _); simplify_eq; by apply (same_ns_ok V).
  - unfold exfs_is_used in E. destruct (negb (v_mounted V)); [by simplify_eq|]. destruct (gmap_is_used _ _ _) as [[rc1 gm] s1]. simplify_eq.
    by apply (same_ns_ok V).
Qed.


End Names.

(** * Witnesses *)

Definition demo_file : ExfsFile := mkFile false 0 0 (replicate 96 0) 0 0 0 0 (replicate 16 0) false.
Definition demo_vol : Vol unit :=
  mkVol None 0 0 0 0 true false false (mkGMap None 0 0 0 0 [] [] [] [] 0) 0 (replicate 128 demo_file) (fun _ => mkExt 0 0) (replicate 2048 0) [].

Lemma demo_slots : slots_ok demo_vol /\ (forall i f, v_files demo_vol !! i = Some f -> f_used f = false).
Proof.
  split; [split; [apply length_replicate|]|]; intros i f Hf; cbn [demo_vol v_files] in Hf; apply lookup_replicate in Hf as [-> _]; [apply length_replicate|done].
Qed.


