(* ===== verification/ExfsPool.v ===== *)
(** The extent pool of EXFS: slices of files stay apart, and reserving a slice,
    compaction included, keeps the extent list of every file. *)

From stdpp Require Import sorting.
From S2P Require Import Prelude.
From S2P Require Import Bytes.
From S2P Require Import ExfsDefs.
From S2P Require Import Gmap.
From S2P Require Import Exfs.
From S2P Require Import ExfsNames.

Section Pool.
Context {D : Type}.
Implicit Types (V : Vol D) (f : ExfsFile).

(** * Invariant *)

(** Pool index [k] belongs to the slice of [f]. *)
Definition in_slice f (k : Z) : Prop := f_ext_off f <= k < f_ext_off f + f_ext_cap f.

(** Every file in use has a slice of its own, marked in the bitmap, that holds
    its extents. *)
Record pool_ok V : Prop := {
  po_len : length (v_pool_used V) = 2048%nat;
  po_files : length (v_files V) = 128%nat;
  po_slice : forall i f, v_files V !! i = Some f -> f_used f = true ->
    0 <= f_n f <= f_ext_cap f /\ 0 <= f_ext_off f /\ f_ext_off f + f_ext_cap f <= 16384;
  po_bits : forall i f k, v_files V !! i = Some f -> f_used f = true -> in_slice f k -> pool_is_used V k = true;
  po_disj : forall i j f g k, v_files V !! i = Some f -> v_files V !! j = Some g ->
    f_used f = true -> f_used g = true -> in_slice f k -> in_slice g k -> i = j
}.

(** * Marking and searching *)

Lemma mark_bits U off cap on : length U = 2048%nat -> 0 <= off -> 0 <= cap -> off + cap <= 16384 ->
  let U' := for_range 0 cap (fun i b => bit_put b (u32 (off + i)) on) U in
  length U' = 2048%nat /\ forall k, 0 <= k -> bit_of U' k = if (off <=? k) && (k <? off + cap) then on else bit_of U k.
Proof.
  intros Hl Ho Hc Hend.
  refine (for_range_inv (fun j U' => length U' = 2048%nat /\
    forall k, 0 <= k -> bit_of U' k = if (off <=? k) && (k <? off + j) then on else bit_of U k) 0 cap _ U ltac:(lia) _ _).
  - split; [done|]. intros k Hk. by zcase.
  - intros j b Hj [Hlb Hb]. rewrite u32_small by lia. split; [by rewrite length_bit_put|]. intros k Hk.
    rewrite bit_of_put by lia. rewrite Hb by done. by zcase.
Qed.

Lemma pool_mark_spec V off cap on : length (v_pool_used V) = 2048%nat -> 0 <= off -> 0 <= cap -> off + cap <= 16384 ->
  exists U, pool_mark V off cap on = set_pool_used V U /\ length U = 2048%nat /\
    forall k, 0 <= k -> bit_of U k = if (off <=? k) && (k <? off + cap) then on else pool_is_used V k.
Proof.
  intros Hl Ho Hc Hend. destruct (mark_bits (v_pool_used V) off cap on Hl Ho Hc Hend) as [H1 H2]. eexists. split; [done|]. done.
Qed.

Lemma pool_scan_spec V cap : 0 < cap -> forall fuel i run, 0 <= run <= i -> run < cap ->
  (forall k, i - run <= k < i -> pool_is_used V k = false) ->
  match pool_scan fuel V cap i run with
  | Some off => 0 <= off /\ off + cap <= i + Z.of_nat fuel /\ forall k, off <= k < off + cap -> pool_is_used V k = false
  | None => True
  end.
Proof.
  intros Hc. induction fuel as [|fuel IH]; intros i run Hr Hrc Hrun; cbn [pool_scan]; [done|].
  assert (i + Z.of_nat (S fuel) = i + 1 + Z.of_nat fuel) as -> by lia. destruct (pool_is_used V i) eqn:E.
  { apply IH; [lia|lia|]. intros k Hk. lia. }
  assert (forall k, i - run <= k < i + 1 -> pool_is_used V k = false) as Hrun'.
  { intros k Hk. destruct (Z.eq_dec k i) as [->|]; [done|]. apply Hrun. lia. }
  zcase.
  - split_and!; [lia|lia|]. intros k Hk. apply Hrun'. lia.
  - apply IH; [lia|lia|]. intros k Hk. apply Hrun'. lia.
Qed.

Lemma pool_find_spec V cap : 0 < cap -> match pool_find V cap with
  | Some off => 0 <= off /\ off + cap <= 16384 /\ forall k, off <= k < off + cap -> pool_is_used V k = false
  | None => True
  end.
Proof.
  intros Hc. pose proof (pool_scan_spec V cap Hc (Z.to_nat EXFS_POOL_EXT) 0 0 ltac:(lia) Hc ltac:(lia)) as H. unfold pool_find.
  destruct (pool_scan _ _ _ _ _); [|done]. change (Z.of_nat (Z.to_nat EXFS_POOL_EXT)) with 16384 in H. done.
Qed.

Lemma slice_loop_spec n : 0 < n <= 2048 -> forall fuel c, 0 < c <= 2048 -> n <= c * 2 ^ Z.of_nat fuel -> c <= 8 \/ c < 2 * n ->
  n <= slice_loop fuel c n <= 4096.
Proof.
  intros Hn. induction fuel as [|fuel IH]; intros c Hc Hp Hb; cbn [slice_loop]; [cbn in Hp; lia|].
  destruct (Z.ltb_spec c n); [|lia]. rewrite shiftl_mul, u32_small by lia. change (2 ^ 1) with 2.
  destruct (decide (c * 2 <= 2048)).
  - apply IH; [lia| |lia]. rewrite Nat2Z.inj_succ, Z.pow_succ_r in Hp by lia. lia.
  - destruct fuel as [|fuel]; cbn [slice_loop]; [cbn in Hp; lia|]. destruct (Z.ltb_spec (c * 2) n); lia.
Qed.

Lemma slice_cap_spec n : 0 < n <= 2048 -> n <= slice_cap_for n <= 4096.
Proof. intros Hn. apply slice_loop_spec; [done|done| |by left]. change (POOL_MIN_CAP * 2 ^ Z.of_nat 32) with (8 * 2 ^ 32). lia. Qed.

(** * The order of compaction *)

Definition off_le V (x y : nat) : Prop := f_ext_off (file V x) <= f_ext_off (file V y).

Lemma order_insert_perm V x l : order_insert V x l ≡ₚ x :: l.
Proof. induction l as [|y l IH]; cbn; [done|]. destruct (_ <? _); [|done]. rewrite IH. apply Permutation_swap. Qed.

Lemma order_insert_sorted V x l : StronglySorted (flip (off_le V)) l -> StronglySorted (flip (off_le V)) (order_insert V x l).
Proof.
  induction l as [|y l IH]; cbn [order_insert]; intros Hs; [repeat constructor|]. pose proof Hs as [Hy Hl]%StronglySorted_cons.
  unfold off_le, flip in *. destruct (Z.ltb_spec (f_ext_off (file V x)) (f_ext_off (file V y))).
  - apply StronglySorted_cons. split; [|by apply IH]. apply Forall_forall. intros z Hz. rewrite order_insert_perm in Hz.
    apply elem_of_cons in Hz as [->|Hz]; [lia|]. by apply (proj1 (Forall_forall _ _) Hy).
  - apply StronglySorted_cons. split; [|done]. constructor; [done|]. eapply Forall_impl; [exact Hy|]. intros z Hz. cbn in Hz. lia.
Qed.

Lemma order_fold V l : forall acc, StronglySorted (flip (off_le V)) acc ->
  let r := fold_left (fun rev_order x => order_insert V x rev_order) l acc in
  StronglySorted (flip (off_le V)) r /\ r ≡ₚ l ++ acc.
Proof.
  induction l as [|x l IH]; intros acc Ha; [done|]. cbn [fold_left]. destruct (IH (order_insert V x acc)) as [H1 H2]; [by apply order_insert_sorted|].
  split; [done|]. rewrite H2, order_insert_perm. cbn. by rewrite Permutation_middle.
Qed.

Lemma sorted_reverse V l : StronglySorted (flip (off_le V)) l -> StronglySorted (off_le V) (reverse l).
Proof.
  induction l as [|x l IH]; [constructor|]. intros [Hx Hl]%StronglySorted_cons. rewrite reverse_cons. apply StronglySorted_app. split_and!.
  - intros y z Hy ->%list_elem_of_singleton. rewrite elem_of_reverse in Hy. by apply (proj1 (Forall_forall _ _) Hx).
  - by apply IH.
  - repeat constructor.
Qed.

Lemma compact_order_spec V : StronglySorted (off_le V) (compact_order V) /\ NoDup (compact_order V) /\
  forall i, i ∈ compact_order V <-> (i < 128)%nat /\ has_slice (file V i) = true.
Proof.
  unfold compact_order. set (l := filter _ _). destruct (order_fold V l [] ltac:(constructor)) as [H1 H2]. rewrite app_nil_r in H2.
  split_and!; [by apply sorted_reverse| |].
  - rewrite reverse_Permutation, H2. apply NoDup_filter, NoDup_seq.
  - intros i. rewrite elem_of_reverse, H2. unfold l. rewrite list_elem_of_filter, elem_of_seq. change (Z.to_nat EXFS_INODES) with 128%nat. split; intros [? ?]; split; (done || lia).
Qed.

(** * Compaction *)

(** A file with its slice at another place. *)
Definition moved f (o : Z) : ExfsFile := set_slice f (f_n f) o (f_ext_cap f).

Lemma moved_id f : moved f (f_ext_off f) = f.
Proof. by destruct f. Qed.

(** The volume with other files, pool and bitmap. *)
Definition with_pool V F P U : Vol D := set_pool_used (set_pool (set_files V F) P) U.

(** The volume [V'] is [V] with slices moved: nothing but the places differs,
    and the extents of every file in use are the same. *)
Definition relocated V V' : Prop :=
  exists F P U, V' = with_pool V F P U /\ length F = length (v_files V) /\
    forall i f, v_files V !! i = Some f -> exists o, F !! i = Some (moved f o) /\ (f_used f = true -> fext V' (moved f o) = fext V f).

(** The copy loop of a move, downwards. *)
Lemma move_down (P : Z -> ExfsExtent) (n src dst : Z) : 0 <= n -> dst < src ->
  let P' := for_range 0 n (fun k p => upd p (dst + k) (p (src + k))) P in
  (forall k, 0 <= k < n -> P' (dst + k) = P (src + k)) /\ (forall x, ~ (dst <= x < dst + n) -> P' x = P x).
Proof.
  intros Hn Hlt.
  refine (let H := for_range_inv (fun j P' => (forall k, 0 <= k < j -> P' (dst + k) = P (src + k)) /\ (forall x, ~ (dst <= x < dst + j) -> P' x = P x))
    0 n (fun k p => upd p (dst + k) (p (src + k))) P Hn _ _ in H).
  - split; [lia|done].
  - intros j p Hj [H1 H2]. rewrite Z.add_0_l. split.
    + intros k Hk. destruct (Z.eq_dec k j) as [->|].
      * rewrite upd_eq. apply H2. lia.
      * rewrite upd_ne by lia. apply H1. lia.
    + intros x Hx. rewrite upd_ne by lia. apply H2. lia.
Qed.

(** The state of the compaction after the files [dn] are done. *)
Record compacting V (dn : list nat) (todo : list nat) (F : list ExfsFile) (P : Z -> ExfsExtent) (U : list Z) (cur : Z) : Prop := {
  cp_cur : 0 <= cur <= 16384;
  cp_len : length U = 2048%nat;
  cp_bits : forall k, 0 <= k -> bit_of U k = (k <? cur);
  cp_files : length F = 128%nat;
  cp_same : forall i, i ∉ dn -> F !! i = v_files V !! i;
  cp_done : forall i f, i ∈ dn -> v_files V !! i = Some f -> exists o, F !! i = Some (moved f o) /\
    0 <= o /\ o + f_ext_cap f <= cur /\ (forall k, 0 <= k < f_n f -> P (o + k) = v_pool V (f_ext_off f + k));
  cp_disj : forall i j f g k, i ∈ dn -> j ∈ dn -> F !! i = Some f -> F !! j = Some g -> in_slice f k -> in_slice g k -> i = j;
  cp_todo : forall j f k, j ∈ todo -> v_files V !! j = Some f -> cur <= f_ext_off f /\ (in_slice f k -> P k = v_pool V k)
}.

Lemma has_slice_spec V i : has_slice (file V i) = true -> exists f, v_files V !! i = Some f /\ f_used f = true /\ 0 < f_ext_cap f.
Proof.
  unfold has_slice, file. destruct (v_files V !! i) as [f|]; cbn; [|done]. intros [Hu Hc]%andb_true_iff. exists f. split_and!; [done|done|lia].
Qed.

(** A file that starts no lower starts past the end. *)
Lemma slice_next V i j f : pool_ok V -> has_slice (file V i) = true -> has_slice (file V j) = true -> i <> j -> off_le V i j ->
  v_files V !! i = Some f -> f_ext_off f + f_ext_cap f <= f_ext_off (file V j).
Proof.
  intros Hok (f' & Hf' & Hu & Hc)%has_slice_spec (g & Hg & Hug & Hcg)%has_slice_spec Hne Hle Hf. assert (f' = f) as -> by congruence. unfold off_le in Hle.
  rewrite (file_lookup V i f Hf), (file_lookup V j g Hg) in *. destruct (decide (f_ext_off f + f_ext_cap f <= f_ext_off g)); [done|].
  exfalso. apply Hne, (po_disj V Hok i j f g (f_ext_off g)); unfold in_slice; (done || lia).
Qed.

(** The move of one file, if it has to be moved. *)
Lemma compact_move V F P U i f cur : F !! i = Some f -> 0 <= f_n f -> cur <= f_ext_off f ->
  exists P', (if negb (f_ext_off f =? cur) then put_file (set_pool (with_pool V F P U)
      (for_range 0 (f_n f) (fun k p => upd p (cur + k) (p (f_ext_off f + k))) P)) i (moved f cur) else with_pool V F P U) =
      with_pool V (<[i := moved f cur]> F) P' U /\ (forall k, 0 <= k < f_n f -> P' (cur + k) = P (f_ext_off f + k)) /\
      (forall x, ~ (cur <= x < cur + f_n f) -> P' x = P x).
Proof.
  intros HFi Hn Hc. destruct (Z.eqb_spec (f_ext_off f) cur) as [Ec|Ec]; cbn [negb].
  - exists P. rewrite <- Ec, moved_id, list_insert_id by done. done.
  - destruct (move_down P (f_n f) (f_ext_off f) cur ltac:(lia) ltac:(lia)) as [H1 H2]. by eexists.
Qed.

Lemma compact_step V dn i todo F P U cur : pool_ok V -> NoDup (dn ++ i :: todo) ->
  (forall j, j ∈ dn ++ i :: todo -> has_slice (file V j) = true) -> (forall j, j ∈ todo -> off_le V i j) ->
  compacting V dn (i :: todo) F P U cur ->
  exists F' P' U' cur', compact_one (with_pool V F P U) i cur = (with_pool V F' P' U', cur') /\ compacting V (dn ++ [i]) todo F' P' U' cur'.
Proof.
  intros Hok Hnd Hsl Hle [Hcur Hlen Hbits HF Hsame Hdone Hdisj Htodo].
  apply NoDup_app in Hnd as (_ & Hdn & [Hit _]%NoDup_cons). assert (i ∉ dn) as Hid by (intros H; apply (Hdn i H); left).
  pose proof (Hsl i ltac:(set_solver)) as Hsi. destruct (has_slice_spec V i Hsi) as (f & Hf & Hu & Hc).
  destruct (Htodo i f 0 ltac:(left) Hf) as [Hoff _]. destruct (po_slice V Hok i f Hf Hu) as (Hn & Ho & Hend).
  assert (F !! i = Some f) as HFi by (by rewrite Hsame).
  destruct (compact_move V F P U i f cur HFi ltac:(lia) Hoff) as (P' & E & HP1 & HP2).
  unfold compact_one. assert (file (with_pool V F P U) i = f) as Hfi by (by apply file_lookup). rewrite Hfi.
  change (mkFile (f_used f) (f_type f) (f_size f) (f_name f) (f_n f) cur (f_ext_cap f) (f_nchain f) (f_chain f) (f_dirty f)) with (moved f cur).
  change (v_pool (with_pool V F P U)) with P. rewrite E. set (F' := <[i := moved f cur]> F).
  assert (F' !! i = Some (moved f cur)) as HFi' by (apply list_lookup_insert_eq; eauto using lookup_lt_Some).
  assert (forall j, j ∈ dn -> F' !! j = F !! j) as HFj by (intros j Hj; apply list_lookup_insert_ne; set_solver).
  assert (file (with_pool V F' P' U) i = moved f cur) as -> by (by apply file_lookup). cbn [moved set_slice f_ext_off f_ext_cap].
  destruct (mark_bits U cur (f_ext_cap f) true Hlen ltac:(lia) ltac:(lia) ltac:(lia)) as [Hl2 Hb2].
  assert (forall j g, j ∈ dn -> F !! j = Some g -> f_ext_off g + f_ext_cap g <= cur) as Hlow.
  { intros j g Hj Hg. destruct (has_slice_spec V j) as (g0 & Hg0 & _); [apply Hsl; set_solver|].
    destruct (Hdone j g0 Hj Hg0) as (o & HFo & _ & Hoc & _). rewrite Hg in HFo. injection HFo as ->. done. }
  eexists F', P', _, _. split; [done|]. split; [lia|done| | | | | |].
  - intros k Hk. rewrite Hb2, Hbits by done. zcase; done.
  - unfold F'. by rewrite length_insert.
  - intros j Hj. unfold F'. rewrite list_lookup_insert_ne by set_solver. apply Hsame. set_solver.
  - intros j g [Hj| ->%list_elem_of_singleton]%elem_of_app Hg.
    + destruct (Hdone j g Hj Hg) as (o & HFo & Ho1 & Ho2 & HPj). exists o. rewrite HFj by done.
      split_and!; [done|done|lia|]. intros k Hk. rewrite HP2; [by apply HPj|].
      destruct (has_slice_spec V j) as (g' & Hg' & Hug & _); [apply Hsl; set_solver|]. destruct (po_slice V Hok j g' Hg' Hug) as (Hn' & _).
      assert (g' = g) as -> by congruence. lia.
    + assert (g = f) as -> by congruence. exists cur. split_and!; [done|lia|lia|]. intros k Hk. rewrite HP1 by done.
      apply (Htodo i f); [left|done|unfold in_slice; lia].
  - intros j1 j2 g1 g2 k [H1| ->%list_elem_of_singleton]%elem_of_app [H2| ->%list_elem_of_singleton]%elem_of_app Hg1 Hg2 Hk1 Hk2; [| | |done];
      unfold in_slice in *.
    + rewrite HFj in Hg1, Hg2 by done. by apply (Hdisj j1 j2 g1 g2 k).
    + rewrite HFj in Hg1 by done. pose proof (Hlow j1 g1 H1 Hg1). rewrite HFi' in Hg2. injection Hg2 as <-. cbn in Hk2. lia.
    + rewrite HFj in Hg2 by done. pose proof (Hlow j2 g2 H2 Hg2). rewrite HFi' in Hg1. injection Hg1 as <-. cbn in Hk1. lia.
  - intros j g k Hj Hg. pose proof (slice_next V i j f Hok Hsi (Hsl j ltac:(apply elem_of_app; right; by right)) ltac:(by intros ->) (Hle j Hj) Hf) as Hnext.
    rewrite (file_lookup V j g Hg) in Hnext. split; [lia|]. intros Hk. rewrite HP2 by (unfold in_slice in Hk; lia).
    apply (Htodo j g k); [by right|done|done].
Qed.

Lemma compact_fold V : pool_ok V -> forall todo dn F P U cur, compact_order V = dn ++ todo -> compacting V dn todo F P U cur ->
  exists F' P' U' cur', fold_left (fun '(V, cursor) i => compact_one V i cursor) todo (with_pool V F P U, cur) = (with_pool V F' P' U', cur') /\
    compacting V (compact_order V) [] F' P' U' cur'.
Proof.
  intros Hok. destruct (compact_order_spec V) as (Hsort & Hnd & Hin).
  induction todo as [|i todo IH]; intros dn F P U cur E Hc; cbn [fold_left].
  { rewrite app_nil_r in E. rewrite E. by exists F, P, U, cur. }
  destruct (compact_step V dn i todo F P U cur) as (F1 & P1 & U1 & c1 & -> & H1); [done| | | |done|].
  - by rewrite <- E.
  - intros j Hj. rewrite <- E in Hj. by apply Hin.
  - intros j Hj. rewrite E in Hsort. apply StronglySorted_app in Hsort as (_ & _ & [Hf _]%StronglySorted_cons). by apply (proj1 (Forall_forall _ _) Hf).
  - apply (IH (dn ++ [i])); [|done]. rewrite E, <- app_assoc. done.
Qed.

Lemma fext_moved V F P U f o : (forall k, 0 <= k < f_n f -> P (o + k) = v_pool V (f_ext_off f + k)) -> fext (with_pool V F P U) (moved f o) = fext V f.
Proof. intros H. unfold fext. apply list_fmap_ext. intros i k Hk%lookup_seqZ. cbn. rewrite H; [done|lia]. Qed.

(** Compaction moves slices down and changes no extent list. *)
Lemma pool_compact_spec V : pool_ok V -> pool_ok (pool_compact V) /\ relocated V (pool_compact V).
Proof.
  intros Hok. destruct (compact_order_spec V) as (Hsort & Hnd & Hin). unfold pool_compact.
  assert (pool_clear V = with_pool V (v_files V) (v_pool V) (replicate 2048 0)) as -> by (by destruct V).
  destruct (compact_fold V Hok (compact_order V) [] (v_files V) (v_pool V) (replicate 2048 0) 0 eq_refl) as (F & P & U & cur & -> & Hc).
  { split; [lia|apply length_replicate| |apply Hok|done| | |].
    - intros k Hk. rewrite bit_of_testbit, nthZ_replicate, Z.bits_0. by zcase.
    - by intros i f ?%not_elem_of_nil.
    - by intros i j f g k ?%not_elem_of_nil.
    - intros j f k (_ & (f' & Hf' & Hu & _)%has_slice_spec)%Hin Hf. split; [|done]. assert (f' = f) as -> by congruence. apply (po_slice V Hok j f Hf Hu). }
  cbn [fst]. destruct Hc as [Hcur Hlen Hbits HF Hsame Hdone Hdisj _].
  assert (forall i f, v_files V !! i = Some f -> exists o, F !! i = Some (moved f o) /\ (f_used f = true ->
    fext (with_pool V F P U) (moved f o) = fext V f /\ ((i ∈ compact_order V /\ 0 <= o /\ o + f_ext_cap f <= cur) \/ f_ext_cap f = 0 /\ o = f_ext_off f))) as Hall.
  { intros i f Hf. destruct (decide (i ∈ compact_order V)) as [Hi|Hi].
    - destruct (Hdone i f Hi Hf) as (o & H1 & H2 & H3 & H4). exists o. split; [done|]. intros Hu. split; [by apply fext_moved|by left].
    - exists (f_ext_off f). rewrite moved_id, Hsame by done. split; [done|]. intros Hu.
      destruct (po_slice V Hok i f Hf Hu) as (Hn & _). assert (f_ext_cap f = 0) as Hc0.
      { destruct (Z.eq_dec (f_ext_cap f) 0); [done|]. destruct Hi. apply Hin. split; [rewrite <- (po_files V Hok); by eapply lookup_lt_Some|].
        rewrite (file_lookup V i f Hf). unfold has_slice. rewrite Hu. cbn. lia. }
      split; [|by right]. unfold fext. by replace (f_n f) with 0 by lia. }
  assert (forall i g, F !! i = Some g -> f_used g = true -> exists f o, v_files V !! i = Some f /\ g = moved f o /\ f_used f = true /\
    ((i ∈ compact_order V /\ 0 <= o /\ o + f_ext_cap f <= cur) \/ f_ext_cap f = 0 /\ o = f_ext_off f)) as Hback.
  { intros i g Hg Hu. destruct (lookup_lt_is_Some_2 (v_files V) i) as [f Hf]; [rewrite (po_files V Hok), <- HF; by eapply lookup_lt_Some|].
    destruct (Hall i f Hf) as (o & Ho & Hx). assert (g = moved f o) as -> by congruence. exists f, o. split_and!; [done|done|done|by apply Hx]. }
  split; [split; [done|done| | |]|].
  - intros i g Hg Hu. destruct (Hback i g Hg Hu) as (f & o & Hf & -> & Hu' & Hx). destruct (po_slice V Hok i f Hf Hu') as (Hn & Ho & He). cbn.
    destruct Hx as [(_ & ? & ?)|[Hz ->]]; lia.
  - intros i g k Hg Hu Hk. destruct (Hback i g Hg Hu) as (f & o & Hf & -> & Hu' & Hx). unfold in_slice in Hk. cbn in Hk. unfold pool_is_used. cbn.
    rewrite Hbits; destruct Hx as [(_ & ? & ?)|[Hz ->]]; lia.
  - intros i j g1 g2 k Hg1 Hg2 Hu1 Hu2 Hk1 Hk2. destruct (Hback i g1 Hg1 Hu1) as (f1 & o1 & _ & E1 & _ & [(Hi & _)|[Hz _]]);
      [|subst g1; unfold in_slice in Hk1; cbn in Hk1; lia].
    destruct (Hback j g2 Hg2 Hu2) as (f2 & o2 & _ & E2 & _ & [(Hj & _)|[Hz _]]); [|subst g2; unfold in_slice in Hk2; cbn in Hk2; lia].
    by apply (Hdisj i j g1 g2 k).
  - exists F, P, U. split_and!; [done|by rewrite (po_files V Hok)|]. intros i f Hf. destruct (Hall i f Hf) as (o & Ho & Hx). exists o. split; [done|]. intros Hu. by apply Hx.
Qed.

(** * Reserving, releasing and filling a slice *)

Lemma relocated_refl V : relocated V V.
Proof.
  exists (v_files V), (v_pool V), (v_pool_used V). split_and!; [by destruct V|done|]. intros i f Hf. exists (f_ext_off f). by rewrite moved_id.
Qed.

Lemma relocated_mark V V' U : relocated V V' -> relocated V (set_pool_used V' U).
Proof. intros (F & P & U0 & -> & HF & H). exists F, P, U. by split_and!. Qed.

(** A slice that no file has. *)
Record spare V (off cap : Z) : Prop := {
  sp_range : 0 <= off /\ 0 <= cap /\ off + cap <= 16384;
  sp_bits : forall k, off <= k < off + cap -> pool_is_used V k = true;
  sp_free : forall i f k, v_files V !! i = Some f -> f_used f = true -> in_slice f k -> ~ (off <= k < off + cap)
}.

Lemma mark_spare V off cap : pool_ok V -> 0 <= off -> 0 < cap -> off + cap <= 16384 ->
  (forall k, off <= k < off + cap -> pool_is_used V k = false) ->
  exists U, pool_mark V off cap true = set_pool_used V U /\ pool_ok (set_pool_used V U) /\ spare (set_pool_used V U) off cap.
Proof.
  intros Hok Ho Hc He Hf. destruct (pool_mark_spec V off cap true (po_len V Hok) Ho ltac:(lia) He) as (U & -> & Hl & Hb).
  assert (forall i f k, v_files V !! i = Some f -> f_used f = true -> in_slice f k -> 0 <= k) as Hk0.
  { intros i f k Hi Hu Hk. destruct (po_slice V Hok i f Hi Hu). unfold in_slice in Hk. lia. }
  exists U. split; [done|]. split; [split; [done|apply Hok|apply Hok| |apply Hok]|split; [lia| |]].
  - intros i f k Hi Hu Hk. unfold pool_is_used. cbn. rewrite Hb by eauto. destruct (_ && _); [done|]. by apply (po_bits V Hok i f).
  - intros k Hk. unfold pool_is_used. cbn. rewrite Hb by lia. by zcase.
  - intros i f k Hi Hu Hk Hr. pose proof (po_bits V Hok i f k Hi Hu Hk) as Hb1. by rewrite (Hf k Hr) in Hb1.
Qed.

(** A slice of [cap] for [n] extents: room for them, and no less than mounting
    the volume again will reserve. *)
Definition fits (n cap : Z) : Prop := n <= cap /\ (n = 0 \/ slice_cap_for n <= cap).

Lemma pool_reserve_spec V n : pool_ok V -> 0 <= n <= 2048 ->
  let '(rc, off, cap, V') := pool_reserve V n in
  relocated V V' /\ pool_ok V' /\ ((rc = EXFS_OK /\ fits n cap /\ spare V' off cap) \/ rc = EXFS_ENOMEM).
Proof.
  intros Hok Hn. unfold pool_reserve. destruct (Z.eqb_spec n 0) as [->|Hn0].
  { split_and!; [apply relocated_refl|done|]. left. split_and!; [done|by split; [|left]|]. split; [lia|lia|]. intros i f k _ _ _. lia. }
  pose proof (slice_cap_spec n ltac:(lia)) as Hcap. assert (fits n (slice_cap_for n)) as Hfit by (split; [lia|by right]).
  set (cap := slice_cap_for n) in *. clearbody cap.
  pose proof (pool_find_spec V cap ltac:(lia)) as Hf. destruct (pool_find V cap) as [off|].
  { destruct Hf as (H1 & H2 & H3). destruct (mark_spare V off cap Hok H1 ltac:(lia) H2 H3) as (U & -> & Hok' & Hsp).
    split_and!; [apply relocated_mark, relocated_refl|done|]. left. split_and!; (done || lia). }
  destruct (pool_compact_spec V Hok) as [Hok1 Hr1]. pose proof (pool_find_spec (pool_compact V) cap ltac:(lia)) as Hf1.
  destruct (pool_find (pool_compact V) cap) as [off|]; [|split_and!; [done|done|by right]].
  destruct Hf1 as (H1 & H2 & H3). destruct (mark_spare _ off cap Hok1 H1 ltac:(lia) H2 H3) as (U & -> & Hok' & Hsp).
  split_and!; [by apply relocated_mark|done|]. left. split_and!; (done || lia).
Qed.

(** Giving a slice back that no file has. *)
Lemma pool_release_spec V off cap : pool_ok V -> 0 <= off -> 0 <= cap -> off + cap <= 16384 ->
  (forall i f k, v_files V !! i = Some f -> f_used f = true -> in_slice f k -> ~ (off <= k < off + cap)) ->
  exists U, pool_release V off cap = set_pool_used V U /\ pool_ok (set_pool_used V U) /\
    (forall k, 0 <= k -> bit_of U k = if (off <=? k) && (k <? off + cap) then false else pool_is_used V k).
Proof.
  intros Hok Ho Hc He Hf. destruct (pool_mark_spec V off cap false (po_len V Hok) Ho Hc He) as (U & E & Hl & Hb). exists U. split; [done|].
  split; [|done]. split; [done|apply Hok|apply Hok| |apply Hok]. intros i f k Hi Hu Hk. unfold pool_is_used. cbn.
  destruct (po_slice V Hok i f Hi Hu) as (_ & H0 & _). pose proof Hk as Hk'. unfold in_slice in Hk'. rewrite Hb by lia.
  pose proof (Hf i f k Hi Hu Hk). zcase; by apply (po_bits V Hok i f).
Qed.

Lemma pool_store_spec V off l : exists P, pool_store V off l = set_pool V P /\
  (forall k, 0 <= k < lenZ l -> P (off + k) = default (mkExt 0 0) (l !! Z.to_nat k)) /\
  (forall x, ~ (off <= x < off + lenZ l) -> P x = v_pool V x).
Proof.
  eexists. split; [done|].
  refine (let H := for_range_inv (fun j P => (forall k, 0 <= k < j -> P (off + k) = default (mkExt 0 0) (l !! Z.to_nat k)) /\
    (forall x, ~ (off <= x < off + j) -> P x = v_pool V x)) 0 (lenZ l)
    (fun i p => upd p (off + i) (default (mkExt 0 0) (l !! Z.to_nat i))) (v_pool V) ltac:(lia) _ _ in H).
  - split; [lia|done].
  - intros j p Hj [H1 H2]. rewrite Z.add_0_l. split.
    + intros k Hk. destruct (Z.eq_dec k j) as [->|]; [by rewrite upd_eq|]. rewrite upd_ne by lia. apply H1. lia.
    + intros x Hx. rewrite upd_ne by lia. apply H2. lia.
Qed.

(** The list a slice holds after it was filled. *)
Lemma store_fext (P : Z -> ExfsExtent) off l : (forall k, 0 <= k < lenZ l -> P (off + k) = default (mkExt 0 0) (l !! Z.to_nat k)) ->
  (fun k => P (off + k)) <$> seqZ 0 (lenZ l) = l.
Proof.
  intros H. apply list_eq. intros i. rewrite list_lookup_fmap. destruct (decide (i < length l)%nat) as [Hi|Hi].
  - rewrite lookup_seqZ_lt by lia. cbn [fmap option_fmap option_map]. rewrite Z.add_0_l, H by lia. rewrite Nat2Z.id. destruct (lookup_lt_is_Some_2 l i Hi) as [x Hx]. by rewrite Hx.
  - rewrite lookup_seqZ_ge by lia. cbn. symmetry. apply lookup_ge_None_2. lia.
Qed.
End Pool.
