(* ===== verification/ExfsData.v ===== *)
(** The content of EXFS files: the invariant of a mounted volume (which blocks
    belong to whom), what taking, releasing and writing blocks does on a device
    that may stop at any write, and reading. *)

From S2P Require Import Prelude.
From S2P Require Import Bytes.
From S2P Require Import Blk.
From S2P Require Import ExfsDefs.
From S2P Require Import Gmap.
From S2P Require Import GmapOk.
From S2P Require Import Sb.
From S2P Require Import Exfs.
From S2P Require Import ExfsNames.
From S2P Require Import ExfsPool.

(** * Extents as blocks *)

Lemma elem_of_ext_blocks l b : b ∈ ext_blocks l <-> exists e, e ∈ l /\ x_start e <= b < x_start e + x_len e.
Proof.
  unfold ext_blocks. rewrite list_elem_of_In, in_concat. setoid_rewrite in_map_iff. split.
  - intros (x & (e & <- & He) & Hb). exists e. rewrite list_elem_of_In. split; [done|]. apply list_elem_of_In, elem_of_seqZ in Hb. lia.
  - intros (e & He & Hb). eexists. split; [exists e; split; [done|by apply list_elem_of_In]|]. apply list_elem_of_In, elem_of_seqZ. lia.
Qed.

Lemma ext_blocks_cons e l : ext_blocks (e :: l) = seqZ (x_start e) (x_len e) ++ ext_blocks l.
Proof. done. Qed.

Lemma ext_blocks_app l1 l2 : ext_blocks (l1 ++ l2) = ext_blocks l1 ++ ext_blocks l2.
Proof. unfold ext_blocks. by rewrite fmap_app, concat_app. Qed.

Definition ext_ok (e : ExfsExtent) : Prop := 0 < x_len e < 2 ^ 32.

Section Data.
Context {D : Type} (d : BlkDev D) `{!BlockDevice d} `{!FailStop d}.
Implicit Types (V : Vol D) (s : D) (f : ExfsFile).

(** * Writing outside the map *)

(** A change that leaves the slots of the map alone. *)
Lemma gm_ok_slots m s s' : gm_ok d m s -> (forall g sl, group m g -> 0 <= sl <= 1 -> block d s' (slot_block m g sl) = block d s (slot_block m g sl)) ->
  gm_ok d m s' /\ forall g, group m g -> cur d m s' g = cur d m s g.
Proof.
  intros Hm Hs. pose proof (go_geo _ _ _ Hm) as G.
  assert (forall g, group m g -> block d s' (slot_block m g (cur_slot m g)) = block d s (slot_block m g (cur_slot m g))) as Hb.
  { intros g Hg. apply Hs; [done|]. by apply (cur_slot_01 d m g G Hg). }
  assert (forall g, group m g -> cur d m s' g = cur d m s g) as Hc.
  { intros g Hg. unfold cur. destruct (cached _ _ _); [done|]. by apply Hb. }
  split; [|done]. destruct Hm as [_ H1 H2 H3 H4 H5 H6 H7 H8]. split; try done.
  - intros i e He Hv Hd. rewrite Hb by eauto. eauto.
  - intros g i Hg Hi. rewrite Hc by done. eauto.
  - intros g Hg. rewrite Hc by done. eauto.
Qed.

(** * The allocation state during an operation *)

(** The volume's map and hint, replaced. *)
Definition with_map V (gm : GMap D) (h : Z) : Vol D := set_hint (set_gm V gm) h.

Lemma with_map_id V : with_map V (v_gm V) (v_hint V) = V.
Proof. by destruct V. Qed.

Record alloc_ok V s : Prop := {
  ao_dev : v_dev V = Some d;
  ao_spb : spb_of d (v_spb V);
  ao_gm : gm_ok d (v_gm V) s;
  ao_total : m_total (v_gm V) = v_total V;
  ao_hint : 0 <= v_hint V <= v_total V
}.

Definition free_block V s (b : Z) : Prop := data_block (v_gm V) b /\ used d (v_gm V) s b = false.

(** Only pending slots and blocks that were free are written. *)
Definition safe V s s' : Prop := forall b, 0 <= b -> ~ pending (v_gm V) b -> ~ free_block V s b -> block d s' b = block d s b.

Definition on_device V : Prop := v_dev V = Some d /\ m_dev (v_gm V) = Some d.

(** From [V] and [s] the operation has come to [V'] and [s'] and holds the
    blocks [X]: they were free, and the rest is as it was. *)
Record holds V s V' s' (X : list Z) : Prop := {
  ho_vol : exists gm h, V' = with_map V gm h /\ gm_like (v_gm V) gm;
  ho_ok : alloc_ok V' s';
  ho_nodup : NoDup X;
  ho_free : forall b, b ∈ X -> free_block V s b;
  ho_used : forall b, 0 <= b < v_total V -> used d (v_gm V') s' b = bool_decide (b ∈ X) || used d (v_gm V) s b;
  ho_safe : safe V s s'
}.

Lemma holds_refl V s : alloc_ok V s -> holds V s V s [].
Proof.
  intros Hv. split; [|done|constructor| |done|done].
  - exists (v_gm V), (v_hint V). split; [by rewrite with_map_id|apply gm_like_refl].
  - by intros b ?%not_elem_of_nil.
Qed.

Lemma safe_refl V s : safe V s s.
Proof. done. Qed.

Lemma safe_same V s s1 s2 : safe V s s1 -> same_disk d s1 s2 -> safe V s s2.
Proof. intros H1 H2 b Hb Hp Hf. rewrite (H2 b Hb). by apply H1. Qed.

Section Holds.
Context V s V' s' X (H : holds V s V' s' X).

Lemma holds_like : gm_like (v_gm V) (v_gm V').
Proof. destruct (ho_vol _ _ _ _ _ H) as (gm & h & -> & Hl). done. Qed.

Lemma holds_dev : v_dev V' = Some d /\ v_spb V' = v_spb V /\ v_total V' = v_total V.
Proof. destruct (ho_vol _ _ _ _ _ H) as (gm & h & E & Hl). pose proof (ao_dev _ _ (ho_ok _ _ _ _ _ H)). by rewrite E in *. Qed.

Lemma holds_on_device : on_device V'.
Proof. split; [apply H|]. apply (gg_dev _ _ (go_geo _ _ _ (ao_gm _ _ (ho_ok _ _ _ _ _ H)))). Qed.

Lemma holds_data b : b ∈ X -> data_block (v_gm V') b /\ used d (v_gm V') s' b = true /\ on_dev d b /\ 0 <= b < v_total V.
Proof.
  intros Hb. destruct (ho_free _ _ _ _ _ H b Hb) as [Hdb _]. pose proof (ho_ok _ _ _ _ _ H) as Hv. pose proof (go_geo _ _ _ (ao_gm _ _ Hv)) as G.
  assert (data_block (v_gm V') b) as Hdb' by (by apply (data_like _ _ b holds_like)).
  pose proof (data_block_ge d _ b G Hdb') as Hr. rewrite (ao_total _ _ Hv) in Hr. destruct holds_dev as (_ & _ & Et). rewrite Et in Hr.
  split_and!; [done| | |lia|lia].
  - rewrite (ho_used _ _ _ _ _ H) by lia. by rewrite bool_decide_eq_true_2.
  - pose proof (gg_fit _ _ G). pose proof (gg_total _ _ G). rewrite (ao_total _ _ Hv), Et in *. split; [lia|]. lia.
Qed.

(** Writing into a held block. *)
Lemma holds_write s2 b0 : bd_ok s' -> b0 ∈ X -> (forall b, 0 <= b -> b <> b0 -> block d s2 b = block d s' b) -> holds V s V' s2 X.
Proof.
  intros Hs Hb0 Hw. pose proof (ho_ok _ _ _ _ _ H) as Hv. pose proof (ao_gm _ _ Hv) as Hm. pose proof (go_geo _ _ _ Hm) as G.
  destruct (holds_data b0 Hb0) as (Hdb & _ & _ & Hr).
  destruct (gm_ok_slots (v_gm V') s' s2 Hm) as [Hm2 Hc2].
  { intros g sl Hg Hsl. apply Hw; [by apply (slot_block_pos d); [..|lia]|]. intros E. by destruct (data_not_slot d _ b0 g sl G Hg Hsl Hdb). }
  pose proof (ho_vol _ _ _ _ _ H) as Hvol. destruct holds_dev as (_ & _ & Et). split; [apply H| |apply H|apply H| |].
  - destruct Hv. by split.
  - intros b Hb. rewrite (used_like d (v_gm V') (v_gm V') s' s2 b); [by apply H|done|done|done|]. rewrite (ao_total _ _ Hv). lia.
  - intros b Hb Hp Hf. rewrite Hw; [by apply H|done|]. intros ->. by apply Hf, (ho_free _ _ _ _ _ H).
Qed.

(** A call of the map: the blocks held afterwards are [Y]. *)
Lemma holds_next gm h s2 Y : gm_like (v_gm V') gm -> gm_ok d gm s2 -> 0 <= h <= v_total V -> NoDup Y ->
  (forall b, b ∈ Y -> free_block V s b) ->
  (forall b, 0 <= b < v_total V -> used d gm s2 b = bool_decide (b ∈ Y) || used d (v_gm V) s b) ->
  (forall b, 0 <= b -> ~ pending (v_gm V') b -> block d s2 b = block d s' b) ->
  holds V s (with_map V' gm h) s2 Y.
Proof.
  intros Hl Hm Hh Hnd Hfr Hus Hfrm. destruct (ho_vol _ _ _ _ _ H) as (gm1 & h1 & EV & Hl1). pose proof (ho_ok _ _ _ _ _ H) as Hv.
  destruct holds_dev as (Ed & Es & Et). split; [| |done|done|done|].
  - exists gm, h. split; [by rewrite EV|]. by apply (gm_like_trans _ (v_gm V')); [apply holds_like|].
  - split; cbn; [done|apply (ao_spb _ _ Hv)|done| |lia]. destruct Hl as (_ & _ & -> & _). apply (ao_total _ _ Hv).
  - intros b Hb Hp Hf. rewrite Hfrm; [by apply H|done|]. by rewrite (pending_like (v_gm V) (v_gm V') b holds_like).
Qed.
End Holds.

(** * Taking *)

Lemma bool_decide_app (b : Z) l1 l2 : bool_decide (b ∈ (l1 ++ l2)) = bool_decide (b ∈ l1) || bool_decide (b ∈ l2).
Proof. repeat case_bool_decide; set_solver. Qed.

Lemma bool_decide_run a n b : bool_decide (b ∈ seqZ a n) = (a <=? b) && (b <? a + n).
Proof.
  destruct (decide (b ∈ seqZ a n)) as [H|H]; [rewrite bool_decide_eq_true_2 by done|rewrite bool_decide_eq_false_2 by done];
    rewrite elem_of_seqZ in H; by zcase.
Qed.

Lemma take_extent_frozen V need s : on_device V -> bd_ok s -> bd_dead s = true ->
  let '(_, _, V', s') := take_extent V need s in on_device V' /\ frozen d s s'.
Proof.
  intros [H1 H2] Hs Hx. unfold take_extent. pose proof (gmap_take_frozen d (v_gm V) (v_hint V) need s H2 Hs Hx) as H.
  destruct (gmap_take _ _ _ s) as [[[[rc st] ln] gm] s1]. destruct H as [(Hd & _) Hf]. unfold on_device.
  destruct (negb _); cbn; split; (done || (split; congruence)).
Qed.

Lemma take_extent_spec V s V1 s1 X need : holds V s V1 s1 X -> bd_ok s1 -> bd_dead s1 = false -> 0 < need ->
  let '(l, e, V2, s2) := take_extent V1 need s1 in
  bd_ok s2 /\ on_device V2 /\ (forall b, 0 <= b -> ~ pending (v_gm V) b -> block d s2 b = block d s1 b) /\
  (bd_dead s2 = false ->
    (l = 0 /\ holds V s V2 s2 X /\ (forall b, 0 <= b < v_total V -> used d (v_gm V1) s1 b = true)) \/
    (0 < l <= need /\ l = x_len e /\ ext_ok e /\ holds V s V2 s2 (X ++ seqZ (x_start e) (x_len e)))).
Proof.
  intros H Hs Hx Hn. pose proof (ho_ok _ _ _ _ _ H) as Hv. pose proof (ao_gm _ _ Hv) as Hm. pose proof (go_geo _ _ _ Hm) as G.
  destruct (holds_dev _ _ _ _ _ H) as (Ed & Es & Et). pose proof (gg_total _ _ G) as Htot. pose proof (ao_total _ _ Hv) as Em. rewrite Et in Em.
  pose proof (gmap_take_spec d (v_gm V1) (v_hint V1) need s1 Hm Hs Hx Hn) as Ht. rewrite Em in *. pose proof (ao_hint _ _ Hv) as Hh. rewrite Et in Hh.
  specialize (Ht Hh). unfold take_extent.
  destruct (gmap_take (v_gm V1) (v_hint V1) need s1) as [[[[rc st] ln] gm] s2]. destruct Ht as (Hs2 & Hl & Hfr & Hlive).
  assert (on_device (with_map V1 gm 0)) as [Hd1 Hd2] by (split; [done|]; destruct Hl as (E & _); cbn; rewrite E; apply (gg_dev _ _ G)).
  assert (forall b, 0 <= b -> ~ pending (v_gm V) b -> block d s2 b = block d s1 b) as Hfr'.
  { intros b Hb Hp. apply Hfr; [done|]. by rewrite (pending_like (v_gm V) (v_gm V1) b (holds_like _ _ _ _ _ H)). }
  destruct (Z.eqb_spec rc GMAP_OK) as [->|Hrc]; cbn [negb]; (split_and!; [done|by split|done|]); intros Hd; destruct (Hlive Hd) as [Hpost Hfull].
  - destruct Hpost as [(_ & Hle & Htk)|[? _]]; [|done]. destruct Htk as (Hlen & Hst & Hend & Hm2 & Hun & Hus). rewrite Em in *.
    rewrite u32_small, u64_small by lia. right. cbn [x_len x_start]. unfold ext_ok. cbn [x_len]. split_and!; [lia|lia|done|lia|lia|].
    assert (forall b, st <= b < st + ln -> (b ∉ X) /\ used d (v_gm V) s b = false) as Hfresh.
    { intros b Hb. pose proof (Hun b Hb) as Hu. rewrite (ho_used _ _ _ _ _ H) in Hu by lia. apply orb_false_iff in Hu as [Hx1 Hx2].
      split; [by apply bool_decide_eq_false_1 in Hx1|done]. }
    apply (holds_next _ _ _ _ _ H gm (st + ln)); [done|done|lia| | | |done].
    + apply NoDup_app. split_and!; [apply H| |apply NoDup_seqZ]. intros b Hb ?%elem_of_seqZ. by destruct (Hfresh b ltac:(lia)).
    + intros b [Hb|[Hb1 Hb2]%elem_of_seqZ]%elem_of_app; [by apply (ho_free _ _ _ _ _ H)|]. destruct (Hfresh b ltac:(lia)) as [_ Hu].
      split; [|done]. apply (data_like (v_gm V) (v_gm V1) b (holds_like _ _ _ _ _ H)). apply (free_data d _ s1 b Hm); [|by apply Hun; lia]. lia.
    + intros b Hb. rewrite Hus by lia. rewrite (ho_used _ _ _ _ _ H) by done. rewrite bool_decide_app, bool_decide_run.
      destruct (_ && _); [by rewrite orb_true_r|]. by rewrite orb_false_r.
  - destruct Hpost as [(? & _)|(-> & Hm2 & _ & Hc)]; [done|]. left. split_and!; [done| |].
    + change (set_gm V1 gm) with (with_map V1 gm (v_hint V1)). apply (holds_next _ _ _ _ _ H gm (v_hint V1)); [done|done|lia|apply H|apply H| |done].
      intros b Hb. rewrite <- (ho_used _ _ _ _ _ H) by done. apply used_like; [done|apply Hl|done|]. lia.
    + intros b Hb. apply Hfull; [done|]. lia.
Qed.

(** * Giving back *)

Lemma release_fresh_frozen l : forall V s, on_device V -> bd_ok s -> bd_dead s = true ->
  let '(V', s') := release_fresh V l s in on_device V' /\ frozen d s s'.
Proof.
  induction l as [|e l IH]; intros V s Hd Hs Hx; cbn [release_fresh]; [done|].
  pose proof (gmap_release_frozen d (v_gm V) (x_start e) (x_len e) s (proj2 Hd) Hs Hx) as H.
  destruct (gmap_release _ _ _ s) as [[rc gm] s1]. destruct H as [(Hg & _) Hf]. pose proof Hf as (Hs1 & Hx1 & _).
  specialize (IH (set_gm V gm) s1 ltac:(split; [apply Hd|cbn; rewrite Hg; apply Hd]) Hs1 Hx1).
  destruct (release_fresh _ l s1) as [V' s']. destruct IH as [H1 H2]. split; [done|]. by apply (frozen_trans d s s1).
Qed.

(** Giving back one run of the held blocks. *)
Lemma release_run V s V1 s1 A e B : holds V s V1 s1 (A ++ seqZ (x_start e) (x_len e) ++ B) -> ext_ok e -> bd_ok s1 -> bd_dead s1 = false ->
  let '(rc, gm, s2) := gmap_release (v_gm V1) (x_start e) (x_len e) s1 in
  bd_ok s2 /\ on_device (set_gm V1 gm) /\ safe V s s2 /\
  (bd_dead s2 = false -> rc = GMAP_OK /\ holds V s (set_gm V1 gm) s2 (A ++ B)).
Proof.
  intros H He Hs Hx. pose proof (ho_ok _ _ _ _ _ H) as Hv. pose proof (ao_gm _ _ Hv) as Hm. pose proof (go_geo _ _ _ Hm) as G.
  destruct (holds_dev _ _ _ _ _ H) as (Ed & Es & Et). unfold ext_ok in He. pose proof (ho_nodup _ _ _ _ _ H) as Hnd.
  assert (forall b, x_start e <= b < x_start e + x_len e -> b ∈ A ++ seqZ (x_start e) (x_len e) ++ B) as Hin.
  { intros b Hb. apply elem_of_app. right. apply elem_of_app. left. apply elem_of_seqZ. lia. }
  assert (0 <= x_start e /\ x_start e + x_len e <= v_total V) as [Hst Hend].
  { destruct (holds_data _ _ _ _ _ H _ (Hin (x_start e) ltac:(lia))) as (_ & _ & _ & ?).
    destruct (holds_data _ _ _ _ _ H _ (Hin (x_start e + x_len e - 1) ltac:(lia))) as (_ & _ & _ & ?). lia. }
  pose proof (ao_total _ _ Hv) as Em. rewrite Et in Em.
  pose proof (gmap_release_spec d (v_gm V1) (x_start e) (x_len e) s1 Hm Hs Hx Hst ltac:(lia) ltac:(lia)) as Hr.
  destruct (gmap_release _ _ _ s1) as [[rc gm] s2]. destruct Hr as (Hs2 & Hl & Hfr & Hlive).
  { intros c Hc. destruct (holds_data _ _ _ _ _ H _ (Hin c Hc)) as (H1 & H2 & _). done. }
  split_and!; [done|split; [done|]; destruct Hl as (E & _); cbn; rewrite E; apply (gg_dev _ _ G)| |].
  { intros b Hb Hp Hf. rewrite Hfr; [by apply (ho_safe _ _ _ _ _ H)|done|]. by rewrite (pending_like (v_gm V) (v_gm V1) b (holds_like _ _ _ _ _ H)). }
  intros Hd. destruct (Hlive Hd) as (-> & Hm2 & Hus). split; [done|].
  apply NoDup_app in Hnd as (N1 & N2 & (N3 & N4 & N5)%NoDup_app).
  change (set_gm V1 gm) with (with_map V1 gm (v_hint V1)). pose proof (ao_hint _ _ Hv) as Hh. rewrite Et in Hh.
  apply (holds_next _ _ _ _ _ H gm (v_hint V1)); [done|done|done| | | |done].
  - apply NoDup_app. split_and!; [done| |done]. intros b Hb Hb'. apply (N2 b Hb), elem_of_app. by right.
  - intros b Hb. apply (ho_free _ _ _ _ _ H). rewrite !elem_of_app in *. tauto.
  - intros b Hb. rewrite Hus by lia. rewrite (ho_used _ _ _ _ _ H) by done. rewrite !bool_decide_app, bool_decide_run.
    destruct (_ && _) eqn:E; cbn [orb]; [|done]. assert (b ∈ seqZ (x_start e) (x_len e)) as Hbs by (apply elem_of_seqZ; unbool; lia).
    rewrite !bool_decide_eq_false_2; [|by apply N4|intros HA; apply (N2 b HA), elem_of_app; by left]. cbn [orb].
    destruct (ho_free _ _ _ _ _ H b) as [_ ->]; [rewrite !elem_of_app; tauto|done].
Qed.

Lemma release_fresh_spec V s l : forall V1 s1 A, holds V s V1 s1 (A ++ ext_blocks l) -> Forall ext_ok l -> bd_ok s1 -> bd_dead s1 = false ->
  let '(V2, s2) := release_fresh V1 l s1 in
  bd_ok s2 /\ on_device V2 /\ safe V s s2 /\ (bd_dead s2 = false -> holds V s V2 s2 A).
Proof.
  induction l as [|e l IH]; intros V1 s1 A H Hl Hs Hx; cbn [release_fresh].
  { rewrite app_nil_r in H. split_and!; [done|by eapply holds_on_device|apply H|done]. }
  apply Forall_cons in Hl as [He Hl]. rewrite ext_blocks_cons in H. pose proof (release_run V s V1 s1 A e (ext_blocks l) H He Hs Hx) as Hr.
  destruct (gmap_release _ _ _ s1) as [[rc gm] s2]. destruct Hr as (Hs2 & Hd2 & Hsafe & Hlive). destruct (bd_dead s2) eqn:E.
  - pose proof (release_fresh_frozen l (set_gm V1 gm) s2 Hd2 Hs2 E) as Hf. destruct (release_fresh _ l s2) as [V3 s3].
    destruct Hf as [H1 (H2 & H3 & H4)]. split_and!; [done|done|by apply (safe_same V s s2)|congruence].
  - destruct (Hlive eq_refl) as [_ H2]. by apply IH.
Qed.

Lemma holds_perm V s V1 s1 X Y : X ≡ₚ Y -> holds V s V1 s1 X -> holds V s V1 s1 Y.
Proof.
  intros E [H1 H2 H3 H4 H5 H6]. split; try done; [by rewrite <- E|intros b; rewrite <- E; apply H4|].
  intros b Hb. rewrite H5 by done. f_equal. apply bool_decide_ext. by rewrite E.
Qed.

(** * Taking as many blocks as needed *)

Lemma length_ext_blocks_cons e l : ext_ok e -> lenZ (ext_blocks (e :: l)) = x_len e + lenZ (ext_blocks l).
Proof. intros He. unfold ext_ok in He. rewrite ext_blocks_cons, length_app, length_seqZ. lia. Qed.

Lemma ext_blocks_bound l : Forall ext_ok l -> lenZ (ext_blocks l) <= 2 ^ 32 * lenZ l.
Proof.
  induction l as [|e l IH]; intros Hl; [done|]. apply Forall_cons in Hl as [He Hl]. rewrite length_ext_blocks_cons by done.
  specialize (IH Hl). unfold ext_ok in He. cbn [length]. lia.
Qed.

Lemma ext_blocks_snoc l e : ext_blocks (l ++ [e]) = ext_blocks l ++ seqZ (x_start e) (x_len e).
Proof. rewrite ext_blocks_app. f_equal. apply app_nil_r. Qed.

Lemma take_all_frozen fuel need : forall got fresh V s, on_device V -> bd_ok s -> bd_dead s = true ->
  let '(_, V', s') := take_all fuel got need fresh V s in on_device V' /\ frozen d s s'.
Proof.
  assert (forall rc l V s, on_device V -> bd_ok s -> bd_dead s = true ->
    let '(_, V', s') := (let '(V, s) := release_fresh V l s in (@inl Z (list ExfsExtent) rc, V, s)) in on_device V' /\ frozen d s s') as Hfail.
  { intros rc l V s Hd Hs Hx. pose proof (release_fresh_frozen l V s Hd Hs Hx) as H. by destruct (release_fresh V l s). }
  induction fuel as [|fuel IH]; intros got fresh V s Hd Hs Hx; cbn [take_all]; (destruct (negb _); [done|]); [done|].
  destruct (_ =? EXFS_MAX_EXT); [by apply Hfail|]. pose proof (take_extent_frozen V (need - got) s Hd Hs Hx) as H.
  destruct (take_extent V (need - got) s) as [[[l e] V1] s1]. destruct H as [Hd1 Hf]. pose proof Hf as (Hs1 & Hx1 & _).
  destruct (l =? 0); [specialize (Hfail EXFS_ENOSPC (reverse fresh) V1 s1 Hd1 Hs1 Hx1)|specialize (IH (got + l) (e :: fresh) V1 s1 Hd1 Hs1 Hx1)].
  - destruct (release_fresh V1 _ s1) as [V2 s2]. destruct Hfail as [H1 H2]. split; [done|]. by apply (frozen_trans d s s1).
  - destruct (take_all fuel _ need _ V1 s1) as [[r V2] s2]. destruct IH as [H1 H2]. split; [done|]. by apply (frozen_trans d s s1).
Qed.

(** What taking [need] blocks answers. *)
Definition taken V s need (r : Z + list ExfsExtent) V' s' : Prop :=
  match r with
  | inr l => holds V s V' s' (ext_blocks (reverse l)) /\ lenZ (ext_blocks (reverse l)) = need /\ Forall ext_ok l /\ lenZ l <= 2048
  | inl rc => holds V s V' s' [] /\ (rc = EXFS_ENOMEM \/ rc = EXFS_ENOSPC /\
      exists X, lenZ X < need /\ forall b, 0 <= b < v_total V -> used d (v_gm V) s b = false -> b ∈ X)
  end.

Lemma take_all_spec V s need : forall fuel got fresh V1 s1, holds V s V1 s1 (ext_blocks (reverse fresh)) ->
  lenZ (ext_blocks (reverse fresh)) = got -> got <= need -> Forall ext_ok fresh -> lenZ fresh <= 2048 -> 2050 <= Z.of_nat fuel + lenZ fresh ->
  bd_ok s1 -> bd_dead s1 = false ->
  let '(r, V2, s2) := take_all fuel got need fresh V1 s1 in
  bd_ok s2 /\ on_device V2 /\ safe V s s2 /\ (bd_dead s2 = false -> taken V s need r V2 s2).
Proof.
  assert (forall rc fresh V1 s1, holds V s V1 s1 (ext_blocks (reverse fresh)) -> Forall ext_ok fresh -> bd_ok s1 -> bd_dead s1 = false ->
    (rc = EXFS_ENOMEM \/ rc = EXFS_ENOSPC /\ exists X, lenZ X < need /\ forall b, 0 <= b < v_total V -> used d (v_gm V) s b = false -> b ∈ X) ->
    let '(r, V2, s2) := (let '(V, s) := release_fresh V1 (reverse fresh) s1 in (@inl Z (list ExfsExtent) rc, V, s)) in
    bd_ok s2 /\ on_device V2 /\ safe V s s2 /\ (bd_dead s2 = false -> taken V s need r V2 s2)) as Hfail.
  { intros rc fresh V1 s1 H Hf Hs Hx Hrc. pose proof (release_fresh_spec V s (reverse fresh) V1 s1 [] H) as Hr. 
    destruct (release_fresh V1 _ s1) as [V2 s2]. destruct Hr as (H1 & H2 & H3 & H4); [by apply Forall_reverse|done|done|].
    split_and!; [done|done|done|]. intros Hd. split; [by apply H4|done]. }
  induction fuel as [|fuel IH]; intros got fresh V1 s1 H Hg Hle Hf Hl Hfu Hs Hx; cbn [take_all].
  { lia. }
  destruct (Z.ltb_spec got need); cbn [negb].
  2: { split_and!; [done|by eapply holds_on_device|apply H|]. intros _. split_and!; [done|lia|done|done]. }
  change EXFS_MAX_EXT with 2048. destruct (Z.eqb_spec (lenZ fresh) 2048); [apply Hfail; try done; by left|].
  pose proof (take_extent_spec V s V1 s1 _ (need - got) H Hs Hx ltac:(lia)) as Ht.
  destruct (take_extent V1 (need - got) s1) as [[[l e] V2] s2]. destruct Ht as (Hs2 & Hd2 & Hfr & Hlive).
  assert (safe V s s2) as Hsafe. { intros b Hb Hp Hnf. rewrite Hfr by done. by apply (ho_safe _ _ _ _ _ H). }
  destruct (bd_dead s2) eqn:Ed.
  { destruct (l =? 0).
    - pose proof (release_fresh_frozen (reverse fresh) V2 s2 Hd2 Hs2 Ed) as Hz. destruct (release_fresh V2 _ s2) as [V3 s3].
      destruct Hz as [K1 (K2 & K3 & K4)]. split_and!; [done|done|by apply (safe_same V s s2)|congruence].
    - pose proof (take_all_frozen fuel need (got + l) (e :: fresh) V2 s2 Hd2 Hs2 Ed) as Hz. destruct (take_all _ _ _ _ V2 s2) as [[r V3] s3].
      destruct Hz as [K1 (K2 & K3 & K4)]. split_and!; [done|done|by apply (safe_same V s s2)|congruence]. }
  destruct (Hlive eq_refl) as [(-> & H2 & Hfull)|(Hl2 & -> & He & H2)].
  - cbn [Z.eqb]. apply Hfail; try done. right. split; [done|]. exists (ext_blocks (reverse fresh)). split; [lia|].
    intros b Hb Hu. pose proof (Hfull b Hb) as Hf2. rewrite (ho_used _ _ _ _ _ H), Hu, orb_false_r in Hf2 by done. by apply bool_decide_eq_true_1 in Hf2.
  - rewrite (proj2 (Z.eqb_neq (x_len e) 0)) by lia. apply IH; try done.
    + by rewrite reverse_cons, ext_blocks_snoc.
    + rewrite reverse_cons, ext_blocks_snoc, length_app, length_seqZ. lia.
    + lia.
    + by constructor.
    + cbn. lia.
    + cbn [length]. lia.
Qed.

Lemma take_fresh_spec V need s : alloc_ok V s -> bd_ok s -> bd_dead s = false -> 0 <= need ->
  let '(r, V', s') := take_fresh V need s in
  bd_ok s' /\ on_device V' /\ safe V s s' /\ (bd_dead s' = false -> 
    match r with
    | inr l => holds V s V' s' (ext_blocks l) /\ lenZ (ext_blocks l) = need /\ Forall ext_ok l /\ lenZ l <= 2048
    | inl rc => holds V s V' s' [] /\ (rc = EXFS_ENOMEM \/ rc = EXFS_ENOSPC /\
        exists X, lenZ X < need /\ forall b, 0 <= b < v_total V -> used d (v_gm V) s b = false -> b ∈ X)
    end).
Proof.
  intros Hv Hs Hx Hn. unfold take_fresh.
  pose proof (take_all_spec V s need (S (S (Z.to_nat EXFS_MAX_EXT))) 0 [] V s (holds_refl V s Hv) eq_refl Hn ltac:(constructor) ltac:(done)) as H.
  change (Z.of_nat (S (S (Z.to_nat EXFS_MAX_EXT)))) with 2050 in H. specialize (H ltac:(done) Hs Hx).
  destruct (take_all _ 0 need [] V s) as [[r V1] s1]. destruct H as (H1 & H2 & H3 & H4). split_and!; [done|done|done|]. intros Hd.
  specialize (H4 Hd). unfold taken in H4. destruct r as [rc|l]; [done|]. destruct H4 as (K1 & K2 & K3 & K4). split_and!; [done|done|by apply Forall_reverse|].
  by rewrite length_reverse.
Qed.

(** * Writing blocks *)

Lemma blk_put_frozen V b buf s : v_dev V = Some d -> bd_ok s -> bd_dead s = true ->
  exists rc s', blk_put V b buf s = (rc, s') /\ rc <> EXFS_OK /\ frozen d s s'.
Proof.
  intros Hd Hs Hx. unfold blk_put. rewrite Hd. destruct (block_write_frozen d s b (v_spb V) buf Hs Hx) as (rc & s' & -> & Hrc & Hf).
  eexists _, _. split; [done|]. rewrite (proj2 (Z.eqb_neq rc BLK_OK) Hrc). done.
Qed.

Lemma blk_put_live V b buf s : v_dev V = Some d -> spb_of d (v_spb V) -> on_dev d b -> length buf = 4096%nat -> bytes_ok buf ->
  bd_ok s -> bd_dead s = false ->
  exists rc s', blk_put V b buf s = (rc, s') /\ bd_ok s' /\ (forall b', 0 <= b' -> b' <> b -> block d s' b' = block d s b') /\
    (bd_dead s' = false -> rc = EXFS_OK) /\ (rc = EXFS_OK -> block d s' b = buf).
Proof.
  intros Hd Hp Hb Hl Hok Hs Hx. unfold blk_put. rewrite Hd.
  destruct (block_write_live d s b (v_spb V) buf Hs Hx Hp Hb Hl Hok) as (rc & s' & -> & Hs' & Hfr & Hlv & Hw).
  eexists _, _. split; [done|]. split_and!; [done|done| |].
  - intros H. by rewrite (Hlv H).
  - destruct (Z.eqb_spec rc BLK_OK); [by intros _; apply Hw|done].
Qed.

(** [write_runs] as one loop over the blocks of the extents. *)
Fixpoint write_list (bl : list Z) (src : list Z) (pos rest : Z) V s : bool * D :=
  match bl with
  | [] => (true, s)
  | b :: bl =>
    let n := if rest <? EXFS_BLOCK then rest else EXFS_BLOCK in
    let '(rc, s) := blk_put V b (data_page src pos n) s in
    if negb (rc =? EXFS_OK) then (false, s) else write_list bl src (pos + n) (rest - n) V s
  end.

Lemma write_runs_list l src V : forall pos rest s, write_runs l src pos rest V s = write_list (ext_blocks l) src pos rest V s.
Proof.
  induction l as [|e l IH]; intros pos rest s; [done|]. cbn [write_runs]. rewrite ext_blocks_cons.
  assert (seqZ (x_start e) (x_len e) = seqZ (x_start e) (Z.of_nat (Z.to_nat (x_len e)))) as ->.
  { destruct (decide (0 <= x_len e)); [by rewrite Z2Nat.id|]. rewrite !seqZ_nil by lia. done. }
  generalize (x_start e). induction (Z.to_nat (x_len e)) as [|k IHk] in pos, rest, s |- *; intros b; [cbn; apply IH|].
  cbn [write_run]. rewrite seqZ_cons by lia. cbn [app write_list]. destruct (blk_put V b _ s) as [rc s1]. destruct (negb _); [done|].
  rewrite IHk. do 3 f_equal. lia.
Qed.

(** Block [j] of [rest] bytes of the buffer from [pos] on. *)
Definition page_at (src : list Z) (pos rest j : Z) : list Z :=
  (fun o => if 4096 * j + o <? rest then nthZ src (pos + 4096 * j + o) else 0) <$> seqZ 0 4096.

Lemma length_page_at src pos rest j : length (page_at src pos rest j) = 4096%nat.
Proof. unfold page_at. by rewrite length_fmap, length_seqZ. Qed.

Lemma nthZ_page_at src pos rest j o : 0 <= o < 4096 -> nthZ (page_at src pos rest j) o = if 4096 * j + o <? rest then nthZ src (pos + 4096 * j + o) else 0.
Proof. intros Ho. unfold page_at. by rewrite nthZ_map_seqZ. Qed.

Lemma page_at_ok src pos rest j : bytes_ok src -> bytes_ok (page_at src pos rest j).
Proof.
  intros Hs. apply bytes_ok_nth. rewrite length_page_at. intros o Ho. rewrite nthZ_page_at by lia. destruct (_ <? _); [by apply nthZ_range|lia].
Qed.

Lemma data_page_first src pos rest : data_page src pos (if rest <? EXFS_BLOCK then rest else EXFS_BLOCK) = page_at src pos rest 0.
Proof.
  unfold data_page, page_at. change EXFS_BLOCK with 4096. apply list_fmap_ext. intros i o [-> Ho]%lookup_seqZ.
  destruct (Z.ltb_spec rest 4096); zcase; try done; f_equal; lia.
Qed.

Lemma page_at_next src pos rest j : 0 <= rest -> 0 <= j -> let n := if rest <? EXFS_BLOCK then rest else EXFS_BLOCK in
  page_at src (pos + n) (rest - n) j = page_at src pos rest (j + 1).
Proof.
  intros Hr Hj. unfold page_at. apply list_fmap_ext. intros i o [-> Ho]%lookup_seqZ. change EXFS_BLOCK with 4096. cbn zeta.
  destruct (Z.ltb_spec rest 4096); zcase; try done; f_equal; lia.
Qed.

Lemma write_list_frozen bl src V : forall pos rest s, v_dev V = Some d -> bd_ok s -> bd_dead s = true ->
  let '(_, s') := write_list bl src pos rest V s in frozen d s s'.
Proof.
  destruct bl as [|b bl]; intros pos rest s Hd Hs Hx; cbn [write_list]; [done|].
  destruct (blk_put_frozen V b (data_page src pos (if rest <? EXFS_BLOCK then rest else EXFS_BLOCK)) s Hd Hs Hx) as (rc & s' & -> & Hrc & Hf).
  rewrite (proj2 (Z.eqb_neq rc EXFS_OK) Hrc). done.
Qed.

Lemma write_list_spec V s V1 src X : bytes_ok src -> forall bl pos rest s1, holds V s V1 s1 X -> NoDup bl -> (forall b, b ∈ bl -> b ∈ X) -> 0 <= rest ->
  bd_ok s1 -> bd_dead s1 = false ->
  let '(ok, s2) := write_list bl src pos rest V1 s1 in
  bd_ok s2 /\ safe V s s2 /\
  (bd_dead s2 = false -> ok = true /\ holds V s V1 s2 X /\ (forall b, 0 <= b -> b ∉ bl -> block d s2 b = block d s1 b) /\
    forall j b, bl !! j = Some b -> block d s2 b = page_at src pos rest (Z.of_nat j)).
Proof.
  intros Hsrc. induction bl as [|b0 bl IH]; intros pos rest s1 H Hnd Hin Hr Hs Hx; cbn [write_list].
  { split_and!; [done|apply H|]. by intros _. }
  rewrite data_page_first. apply NoDup_cons in Hnd as [Hb0 Hnd]. destruct (holds_dev _ _ _ _ _ H) as (Hd & _ & _).
  destruct (holds_data _ _ _ _ _ H b0 (Hin b0 ltac:(left))) as (_ & _ & Hon & Hrng).
  destruct (blk_put_live V1 b0 (page_at src pos rest 0) s1 Hd (ao_spb _ _ (ho_ok _ _ _ _ _ H)) Hon (length_page_at _ _ _ _) (page_at_ok _ _ _ _ Hsrc) Hs Hx)
    as (rc & s2 & -> & Hs2 & Hfr & Hlv & Hw).
  pose proof (holds_write _ _ _ _ _ H s2 b0 Hs (Hin b0 ltac:(left)) Hfr) as H2.
  destruct (bd_dead s2) eqn:Ed.
  { destruct (negb _); [split_and!; [done|apply H2|congruence]|].
    pose proof (write_list_frozen bl src V1 (pos + (if rest <? EXFS_BLOCK then rest else EXFS_BLOCK)) (rest - (if rest <? EXFS_BLOCK then rest else EXFS_BLOCK)) s2 Hd Hs2 Ed) as Hf.
    destruct (write_list bl src _ _ V1 s2) as [ok s3]. destruct Hf as (F1 & F2 & F3). split_and!; [done| |congruence].
    apply (safe_same V s s2); [apply H2|done]. }
  rewrite (Hlv eq_refl), Z.eqb_refl. cbn [negb]. set (n := if rest <? EXFS_BLOCK then rest else EXFS_BLOCK).
  assert (0 <= rest - n) as Hrn by (unfold n; change EXFS_BLOCK with 4096; zcase).
  specialize (IH (pos + n) (rest - n) s2 H2 Hnd ltac:(intros b Hb; apply Hin; by right) Hrn Hs2 Ed).
  destruct (write_list bl src (pos + n) (rest - n) V1 s2) as [ok s3]. destruct IH as (I1 & I2 & I3). split_and!; [done|done|].
  intros Ed3. destruct (I3 Ed3) as (-> & I4 & I5 & I6). split_and!; [done|done| |].
  - intros b Hb [Hne Hni]%not_elem_of_cons. rewrite I5 by done. by apply Hfr.
  - intros [|j] b Hj; cbn in Hj.
    + simplify_eq. rewrite I5; [|lia|done]. by rewrite (Hw (Hlv eq_refl)).
    + rewrite (I6 j b Hj). unfold n. rewrite page_at_next by lia. f_equal. lia.
Qed.
End Data.
