(* ===== verification/ExfsFiles.v ===== *)
(** Files of a mounted volume: the invariant that ties the extent lists, the
    deferred list and the allocation map together, reading, and replacing the
    content of a file. *)

From S2P Require Import Prelude.
From S2P Require Import Bytes.
From S2P Require Import Blk.
From S2P Require Import ExfsDefs.
From S2P Require Import Gmap.
From S2P Require Import GmapOk.
From S2P Require Import Sb.
From S2P Require Import Exfs.
From S2P Require Import ExfsNames.
From S2P Require Import ExfsPool.
From S2P Require Import ExfsData.

Section Files.
Context {D : Type} (d : BlkDev D) `{!BlockDevice d} `{!FailStop d}.
Implicit Types (V : Vol D) (s : D) (f : ExfsFile).

(** * Bytes of blocks *)

Definition fbytes s (bl : list Z) : list Z := concat (block d s <$> bl).

Lemma length_fbytes s bl : lenZ (fbytes s bl) = 4096 * lenZ bl.
Proof.
  unfold fbytes. induction bl as [|b bl IH]; [done|]. cbn [fmap list_fmap concat]. rewrite length_app, length_block. cbn [length]. lia.
Qed.

Lemma nthZ_app l1 l2 k : 0 <= k -> nthZ (l1 ++ l2) k = if k <? lenZ l1 then nthZ l1 k else nthZ l2 (k - lenZ l1).
Proof. intros Hk. destruct (Z.ltb_spec k (lenZ l1)); [apply nthZ_app_l; lia|by apply nthZ_app_r]. Qed.

Lemma nthZ_fbytes s bl : forall k, 0 <= k < 4096 * lenZ bl -> nthZ (fbytes s bl) k = nthZ (block d s (nthZ bl (k / 4096))) (k mod 4096).
Proof.
  unfold fbytes. induction bl as [|b bl IH]; intros k Hk; [cbn in Hk; lia|]. cbn [fmap list_fmap concat]. cbn [length] in Hk.
  rewrite nthZ_app, length_block by lia. destruct (Z.ltb_spec k (Z.of_nat 4096)).
  - rewrite Z.div_small, Z.mod_small by lia. done.
  - rewrite IH by lia. replace k with ((k - 4096) + 1 * 4096) at 3 4 by lia. rewrite Z.div_add, Z_mod_plus_full by lia.
    rewrite nthZ_cons_S by (apply Z.div_pos; lia). done.
Qed.

Lemma fbytes_same s s' bl : (forall b, b ∈ bl -> block d s' b = block d s b) -> fbytes s' bl = fbytes s bl.
Proof. intros H. unfold fbytes. f_equal. apply list_fmap_ext. intros i b Hb. apply H. by eapply list_elem_of_lookup_2. Qed.

(** * Invariant *)

Definition data_blocks V f : list Z := ext_blocks (fext V f).
Definition chain_blocks f : list Z := take (Z.to_nat (f_nchain f)) (f_chain f).
Definition file_blocks V f : list Z := data_blocks V f ++ chain_blocks f.
Definition defer_blocks V : list Z := ext_blocks (v_defer V).

Definition in_use V (i : nat) f : Prop := v_files V !! i = Some f /\ f_used f = true.

(** A block that a file or the deferred list holds. *)
Definition owned V (b : Z) : Prop := (exists i f, in_use V i f /\ b ∈ file_blocks V f) \/ b ∈ defer_blocks V.

(** The file: its extents, its chain, its size; the rest of the last block is zero. *)
Record file_ok V s f : Prop := {
  fk_n : 0 <= f_n f <= 2048;
  fk_ext : Forall ext_ok (fext V f);
  fk_chain : 0 <= f_nchain f <= 16 /\ length (f_chain f) = 16%nat;
  fk_size : 0 <= f_size f /\ f_size f <= 4096 * lenZ (data_blocks V f) < f_size f + 4096;
  fk_tail : forall k, f_size f <= k < 4096 * lenZ (data_blocks V f) -> nthZ (fbytes s (data_blocks V f)) k = 0;
  fk_nodup : NoDup (file_blocks V f)
}.

Record fs_ok V s : Prop := {
  fo_alloc : alloc_ok d V s;
  fo_pool : pool_ok V;
  fo_slots : forall i f, v_files V !! i = Some f -> length (f_chain f) = 16%nat;
  fo_file : forall i f, in_use V i f -> file_ok V s f;
  fo_apart : forall i j f g b, in_use V i f -> in_use V j g -> b ∈ file_blocks V f -> b ∈ file_blocks V g -> i = j;
  fo_defer : Forall ext_ok (v_defer V) /\ NoDup (defer_blocks V);
  fo_dapart : forall i f b, in_use V i f -> b ∈ file_blocks V f -> b ∉ defer_blocks V;
  fo_used : forall b, owned V b -> data_block (v_gm V) b /\ used d (v_gm V) s b = true
}.

(** The content of a file. *)
Definition content V s f : list Z := take (Z.to_nat (f_size f)) (fbytes s (data_blocks V f)).

(** The file [name] holds the bytes [c]. *)
Definition stores V s (name c : list Z) : Prop :=
  exists i f, in_use V i f /\ cname f = name /\ f_type f = EXFS_TYPE_FILE /\ content V s f = c.

Lemma length_content V s f : file_ok V s f -> lenZ (content V s f) = f_size f.
Proof. intros H. pose proof (fk_size _ _ _ H). unfold content. rewrite length_take. pose proof (length_fbytes s (data_blocks V f)). lia. Qed.

Lemma nthZ_take_lt l n k : 0 <= k < n -> nthZ (take (Z.to_nat n) l) k = nthZ l k.
Proof. intros Hk. unfold nthZ. by rewrite lookup_take_lt by lia. Qed.

Lemma nthZ_content V s f k : 0 <= k < f_size f -> nthZ (content V s f) k = nthZ (fbytes s (data_blocks V f)) k.
Proof. intros Hk. by apply nthZ_take_lt. Qed.

(** * Reading *)

Definition seek_post (l : list ExfsExtent) (n : Z) (r : list ExfsExtent * Z) : Prop :=
  let '(l', k) := r in exists e l2, l' = e :: l2 /\ Forall ext_ok l' /\ 0 <= k < x_len e /\ (forall x, x ∈ l' -> x ∈ l) /\
    drop (Z.to_nat n) (ext_blocks l) = drop (Z.to_nat k) (ext_blocks l').

Lemma seek_spec l : forall base lb, Forall ext_ok l -> base <= lb -> lb - base < lenZ (ext_blocks l) -> seek_post l (lb - base) (seek l base lb).
Proof.
  induction l as [|e l IH]; intros base lb Hl Hb Hlt; [cbn in Hlt; lia|]. pose proof Hl as [He Hl']%Forall_cons. cbn [seek].
  rewrite length_ext_blocks_cons in Hlt by done. destruct (Z.leb_spec (base + x_len e) lb).
  - specialize (IH (base + x_len e) lb Hl' ltac:(lia) ltac:(lia)). destruct (seek l _ lb) as [l' k]. destruct IH as (e' & l2 & -> & H1 & H2 & H3 & H4).
    exists e', l2. split_and!; [done|done|lia|lia|intros x Hx; right; by apply H3|]. rewrite <- H4, ext_blocks_cons.
    unfold ext_ok in He. rewrite drop_app_ge by (rewrite length_seqZ; lia). rewrite length_seqZ. f_equal. lia.
  - exists e, l. split_and!; (done || lia).
Qed.

Lemma drop_take_ext {A} (n m : nat) (l : list A) : drop n (take m l) = take (m - n) (drop n l).
Proof.
  destruct (decide (n <= m)%nat).
  - rewrite take_drop_commute. do 2 f_equal. lia.
  - rewrite drop_ge by (rewrite length_take; lia). by replace (m - n)%nat with 0%nat by lia.
Qed.

Lemma drop_app_page {A} (i m : nat) (page rest : list A) : (i <= length page)%nat ->
  take m (drop i (page ++ rest)) = take (Nat.min m (length page - i)) (drop i page) ++ take (m - (length page - i)) rest.
Proof.
  intros Hi. rewrite drop_app_le by done. rewrite take_app, length_drop. f_equal. destruct (decide (m <= length page - i)%nat).
  - by rewrite Nat.min_l.
  - rewrite Nat.min_r by lia. rewrite !take_ge; [done|rewrite length_drop; lia|rewrite length_drop; lia].
Qed.

Lemma blk_got_live V b buf s : v_dev V = Some d -> spb_of d (v_spb V) -> on_dev d b -> length buf = 4096%nat -> bytes_ok buf -> bd_ok s ->
  exists s', blk_got V b buf s = (EXFS_OK, block d s b, s') /\ bd_ok s' /\ bd_dead s' = bd_dead s /\ same_disk d s s'.
Proof.
  intros Hd Hp Hb Hl Hok Hs. unfold blk_got. rewrite Hd.
  destruct (block_read_live d s b (v_spb V) buf Hs Hp Hb Hl Hok) as (s' & -> & H1 & H2 & H3). by exists s'.
Qed.

Lemma fbytes_drop s bl : forall j, fbytes s (drop j bl) = drop (4096 * j) (fbytes s bl).
Proof.
  induction bl as [|b bl IH]; intros j; [rewrite drop_nil; change (fbytes s []) with (@nil Z); by rewrite drop_nil|].
  destruct j as [|j]; [by rewrite Nat.mul_0_r|].
  cbn [drop]. rewrite IH. unfold fbytes. cbn [fmap list_fmap concat]. rewrite drop_app_ge by (rewrite length_block; lia). rewrite length_block. f_equal. lia.
Qed.

Section Read.
Context V (Hd : v_dev V = Some d) (Hp : spb_of d (v_spb V)) (want : Z).

Lemma read_loop_spec : forall fuel l k inblk dst s, Forall ext_ok l -> (forall b, b ∈ ext_blocks l -> on_dev d b) ->
  match l with e :: _ => 0 <= k < x_len e | [] => k = 0 end -> 0 <= inblk < 4096 -> lenZ dst <= want ->
  want - lenZ dst <= 4096 * lenZ (drop (Z.to_nat k) (ext_blocks l)) - inblk -> want - lenZ dst + inblk <= 4096 * Z.of_nat fuel -> bd_ok s ->
  exists s', read_loop fuel l k inblk want dst V s =
      (want, dst ++ take (Z.to_nat (want - lenZ dst)) (drop (Z.to_nat inblk) (fbytes s (drop (Z.to_nat k) (ext_blocks l)))), s') /\
    bd_ok s' /\ bd_dead s' = bd_dead s /\ same_disk d s s'.
Proof.
  induction fuel as [|fuel IH]; intros l k inblk dst s Hl Hon Hk Hi Hle Hroom Hfuel Hs.
  { assert (lenZ dst = want) as E by lia. exists s. unfold read_loop. rewrite E, Z.ltb_irrefl, Z.sub_diag. cbn [negb Z.to_nat take]. rewrite app_nil_r. done. }
  cbn [read_loop]. destruct (Z.ltb_spec (lenZ dst) want) as [Hlt|Hge]; cbn [negb].
  2: { assert (lenZ dst = want) as E by lia. exists s. rewrite E, Z.sub_diag. cbn [Z.to_nat take]. rewrite app_nil_r. done. }
  destruct l as [|e l]; [subst k; change (drop _ _) with (@nil Z) in Hroom; cbn [length] in Hroom; lia|].
  pose proof Hl as [He Hl']%Forall_cons. unfold ext_ok in He.
  assert (drop (Z.to_nat k) (ext_blocks (e :: l)) = (x_start e + k) :: drop (Z.to_nat (k + 1)) (ext_blocks (e :: l))) as Edrop.
  { replace (Z.to_nat (k + 1)) with (S (Z.to_nat k)) by lia. apply drop_S. rewrite ext_blocks_cons, lookup_app_l by (rewrite length_seqZ; lia).
    rewrite lookup_seqZ_lt by lia. f_equal. lia. }
  assert (on_dev d (x_start e + k)) as Hb.
  { apply Hon. apply elem_of_ext_blocks. exists e. split; [left|lia]. }
  rewrite u64_small by (destruct Hb; lia).
  destruct (blk_got_live V (x_start e + k) (replicate (Z.to_nat EXFS_BLOCK) 0) s Hd Hp Hb) as (s1 & -> & Hs1 & Hx1 & Hsame);
    [apply length_replicate|apply bytes_ok_zeros|done|]. rewrite Z.eqb_refl. cbn [negb]. rewrite Edrop in *. set (rest := drop (Z.to_nat (k + 1)) _) in *.
  change EXFS_BLOCK with 4096. set (n := if want - lenZ dst <? 4096 - inblk then want - lenZ dst else 4096 - inblk).
  assert (n = Z.min (want - lenZ dst) (4096 - inblk)) as En by (unfold n; zcase). clearbody n.
  set (dst1 := dst ++ take (Z.to_nat n) (drop (Z.to_nat inblk) (block d s (x_start e + k)))).
  assert (lenZ dst1 = lenZ dst + n) as Ed1 by (unfold dst1; rewrite length_app, length_take, length_drop, length_block; lia).
  assert (dst ++ take (Z.to_nat (want - lenZ dst)) (drop (Z.to_nat inblk) (fbytes s ((x_start e + k) :: rest))) =
    dst1 ++ take (Z.to_nat (want - lenZ dst1)) (fbytes s rest)) as ->.
  { rewrite Ed1. unfold fbytes. cbn [fmap list_fmap concat]. rewrite drop_app_page by (rewrite length_block; lia). rewrite length_block.
    unfold dst1. rewrite <- app_assoc. repeat f_equal; lia. }
  cbn [length] in Hroom.
  assert (fbytes s rest = fbytes s1 rest) as ->.
  { symmetry. apply fbytes_same. intros b' Hb'. apply Hsame. assert (on_dev d b') as [? _]; [|lia]. apply Hon. 
    assert (b' ∈ drop (Z.to_nat k) (ext_blocks (e :: l))) as Hin by (rewrite Edrop; by right). by apply subseteq_drop in Hin. }
  assert (Z.to_nat (k + 1) <= length (ext_blocks (e :: l)))%nat as Hk1 by (rewrite ext_blocks_cons, length_app, length_seqZ; lia).
  destruct (Z.eqb_spec (k + 1) (x_len e)) as [Ek|Ek].
  - assert (rest = drop (Z.to_nat 0) (ext_blocks l)) as Er.
    { unfold rest. rewrite Ek, ext_blocks_cons. rewrite drop_app_length'; [done|]. rewrite length_seqZ. done. }
    destruct (IH l 0 0 dst1 s1) as (s2 & E2 & H2 & H3 & H4); [done| |destruct l as [|e' l]; [done|]; apply Forall_cons in Hl' as [He' _]; unfold ext_ok in He'; lia|lia|lia| | |done|].
    + intros b' Hb'. apply Hon. rewrite ext_blocks_cons. apply elem_of_app. by right.
    + rewrite <- Er. destruct (decide (n = want - lenZ dst)); lia.
    + lia.
    + exists s2. rewrite E2, <- Er. split_and!; [done|done|congruence|]. intros b' Hb'. by rewrite H4, Hsame.
  - destruct (IH (e :: l) (k + 1) 0 dst1 s1) as (s2 & E2 & H2 & H3 & H4); [done|done|lia|lia|lia| |lia|done|].
    + fold rest. destruct (decide (n = want - lenZ dst)); lia.
    + exists s2. rewrite E2. split_and!; [done|done|congruence|]. intros b' Hb'. by rewrite H4, Hsame.
Qed.
End Read.

(** Owned blocks are in use, on the device, and no slot of the map. *)
Lemma owned_block V s b : fs_ok V s -> owned V b -> on_dev d b /\ 20 <= b < v_total V /\ ~ pending (v_gm V) b /\ ~ free_block d V s b.
Proof.
  intros Hf Hb. destruct (fo_used _ _ Hf b Hb) as [Hdb Hu]. pose proof (fo_alloc _ _ Hf) as Ha. pose proof (go_geo _ _ _ (ao_gm _ _ _ Ha)) as G.
  pose proof (data_block_ge d _ b G Hdb) as Hr. rewrite (ao_total _ _ _ Ha) in Hr. pose proof (gg_fit _ _ G). pose proof (gg_total _ _ G).
  rewrite (ao_total _ _ _ Ha) in *. split_and!; [split; lia|lia|lia|by apply (data_not_pending d)|]. intros [_ Hn]. congruence.
Qed.

Lemma data_owned V i f b : in_use V i f -> b ∈ data_blocks V f -> owned V b.
Proof. intros Hi Hb. left. exists i, f. split; [done|]. apply elem_of_app. by left. Qed.

Lemma find_in_use V name i : no_nul name -> find V name = Some i -> exists f, in_use V i f /\ cname f = name /\ file V i = f.
Proof.
  intros Hn Hf. destruct (find_Some V name i Hn Hf) as (H1 & H2 & H3). exists (file V i). by split_and!.
Qed.

Lemma in_use_unique V i f i' f' : ns_ok V -> in_use V i f -> in_use V i' f' -> cname f = cname f' -> i = i' /\ f = f'.
Proof.
  intros N [H1 U1] [H2 U2] E. assert (i = i') as -> by (by apply (ns_uniq V N i i' f f')). split; [done|congruence].
Qed.

(** The file of a name, when the name is one of a file. *)
Lemma stores_find V s name c : ns_ok V -> no_nul name -> stores V s name c -> exists i f, find V name = Some i /\ in_use V i f /\ file V i = f /\
  f_type f = EXFS_TYPE_FILE /\ content V s f = c.
Proof.
  intros N Hn (i & f & Hi & Hc & Ht & He). destruct (find_node V name EXFS_TYPE_FILE N Hn) as (j & Hj & Htj).
  { exists i, f. destruct Hi. by split_and!. }
  destruct (find_in_use V name j Hn Hj) as (g & Hg & Hcg & Eg). destruct (in_use_unique V i f j g N Hi Hg ltac:(congruence)) as [-> ->].
  by exists j, g.
Qed.

Lemma read_at_spec V s name c off cap : ns_ok V -> fs_ok V s -> bd_ok s -> no_nul name -> v_mounted V = true -> stores V s name c ->
  0 <= off -> 0 <= cap ->
  exists s', exfs_read_at V name off cap s = (lenZ (take (Z.to_nat cap) (drop (Z.to_nat off) c)), take (Z.to_nat cap) (drop (Z.to_nat off) c), s') /\
    bd_ok s' /\ bd_dead s' = bd_dead s /\ same_disk d s s'.
Proof.
  intros N Hf Hs Hn Hm Hst Ho Hc. destruct (stores_find V s name c N Hn Hst) as (i & f & Hfind & Hi & Ef & Ht & <-).
  pose proof (fo_file _ _ Hf i f Hi) as Hok. pose proof (fk_size _ _ _ Hok) as Hsz. pose proof (fo_alloc _ _ Hf) as Ha.
  unfold exfs_read_at. rewrite Hm, Hfind, Ef, Ht. cbn [negb Z.eqb EXFS_TYPE_FILE].
  pose proof (length_content V s f Hok) as Hlc.
  destruct (Z.leb_spec (f_size f) off).
  { exists s. rewrite drop_ge by lia. rewrite take_nil. done. }
  set (want := if f_size f - off <? cap then f_size f - off else cap). assert (want = Z.min (f_size f - off) cap) as Ew by (unfold want; zcase). clearbody want.
  change EXFS_BLOCK with 4096. assert (0 <= off / 4096) by (apply Z.div_pos; lia). pose proof (Z.mod_pos_bound off 4096 ltac:(lia)).
  pose proof (Z.div_mod off 4096 ltac:(lia)) as Hdm. pose proof (fk_ext _ _ _ Hok) as Hx.
  pose proof (seek_spec (fext V f) 0 (off / 4096) Hx ltac:(lia)) as Hsk. fold (data_blocks V f) in Hsk. rewrite Z.sub_0_r in Hsk. specialize (Hsk ltac:(lia)).
  destruct (seek (fext V f) 0 (off / 4096)) as [l k]. destruct Hsk as (e & l2 & -> & Hl & Hk & Hsub & Hdrop). fold (data_blocks V f) in Hdrop.
  destruct (read_loop_spec V (ao_dev _ _ _ Ha) (ao_spb _ _ _ Ha) want (Z.to_nat (want / 4096 + 2)) (e :: l2) k (off mod 4096) [] s) as (s' & E & R1 & R2 & R3); try done.
  - intros b (x & Hx1 & Hx2)%elem_of_ext_blocks. apply (owned_block V s b Hf). apply (data_owned V i f b Hi). apply elem_of_ext_blocks.
    exists x. split; [by apply Hsub|done].
  - cbn [length]. lia.
  - rewrite <- Hdrop, length_drop. cbn [length]. lia.
  - cbn [length]. pose proof (Z.div_mod want 4096 ltac:(lia)). pose proof (Z.mod_pos_bound want 4096 ltac:(lia)).
    assert (0 <= want / 4096) by (apply Z.div_pos; lia). lia.
  - exists s'. rewrite E. cbn [app length]. rewrite Z.sub_0_r, <- Hdrop.
    assert (take (Z.to_nat want) (drop (Z.to_nat (off mod 4096)) (fbytes s (drop (Z.to_nat (off / 4096)) (data_blocks V f)))) =
      take (Z.to_nat cap) (drop (Z.to_nat off) (content V s f))) as ->; [|split; [|done]; do 2 f_equal; rewrite length_take, length_drop; lia].
    rewrite fbytes_drop, drop_drop. unfold content. rewrite drop_take_ext, take_take. f_equal; [lia|]. f_equal. lia.
Qed.
End Files.
