(* ===== verification/ExfsWrite.v ===== *)
(** Replacing the content of an EXFS file: [exfs_write] on every branch, on a
    device that may stop at any write. *)

From S2P Require Import Prelude.
From S2P Require Import Bytes.
From S2P Require Import Blk.
From S2P Require Import ExfsDefs.
From S2P Require Import Gmap.
From S2P Require Import GmapOk.
From S2P Require Import Sb.
From S2P Require Import Exfs.
From S2P Require Import ExfsNames.
From S2P Require Import ExfsPool.
From S2P Require Import ExfsData.
From S2P Require Import ExfsFiles.

Section Write.
Context {D : Type} (d : BlkDev D) `{!BlockDevice d} `{!FailStop d}.
Implicit Types (V : Vol D) (s : D) (f g : ExfsFile).

(** * The invariant along an operation *)

(** Every file of [V] holds in [V'] what it held. *)
Definition same_content V s V' s' : Prop :=
  forall i f, in_use V i f -> exists f', in_use V' i f' /\ ident f' = ident f /\ content d V' s' f' = content d V s f.

Lemma file_ok_same V V' s s' f f' : file_ok d V s f -> fext V' f' = fext V f -> f_n f' = f_n f -> f_size f' = f_size f ->
  f_nchain f' = f_nchain f -> f_chain f' = f_chain f -> (forall b, b ∈ data_blocks V f -> block d s' b = block d s b) ->
  file_ok d V' s' f' /\ file_blocks V' f' = file_blocks V f /\ content d V' s' f' = content d V s f.
Proof.
  intros [H1 H2 H3 H4 H5 H6] Ex En Es Ec Ech Hb. assert (data_blocks V' f' = data_blocks V f) as Ed by (unfold data_blocks; by rewrite Ex).
  assert (file_blocks V' f' = file_blocks V f) as Efb by (unfold file_blocks, chain_blocks; by rewrite Ed, Ec, Ech).
  pose proof (fbytes_same d s s' (data_blocks V f) Hb) as Eb. split_and!; [|done|unfold content; by rewrite Ed, Es, Eb].
  split; rewrite ?Ex, ?En, ?Es, ?Ec, ?Ech, ?Ed, ?Eb, ?Efb; done.
Qed.

(** Holding fresh blocks keeps the invariant. *)
Lemma fs_ok_holds V s V1 s1 X : fs_ok d V s -> holds d V s V1 s1 X ->
  fs_ok d V1 s1 /\ (forall i f, in_use V i f -> content d V1 s1 f = content d V s f) /\ (forall b, b ∈ X -> ~ owned V1 b).
Proof.
  intros Hf H. destruct (ho_vol _ _ _ _ _ _ H) as (gm & h & -> & Hl).
  assert (forall i f, in_use V i f -> file_ok d (with_map V gm h) s1 f /\ file_blocks (with_map V gm h) f = file_blocks V f /\
    content d (with_map V gm h) s1 f = content d V s f) as Hfile.
  { intros i f Hi. apply file_ok_same; try done; [by apply (fo_file _ _ _ Hf i)|]. intros b Hb.
    destruct (owned_block d V s b Hf (data_owned V i f b Hi Hb)) as (_ & ? & Hp & Hnf). apply (ho_safe _ _ _ _ _ _ H); [lia|done|done]. }
  split_and!.
  - split; [apply H|destruct (fo_pool _ _ _ Hf); by split|apply (fo_slots _ _ _ Hf)|by intros i f Hi; apply (Hfile i)|apply (fo_apart _ _ _ Hf)|apply (fo_defer _ _ _ Hf)|apply (fo_dapart _ _ _ Hf)|].
    intros b Hb. destruct (fo_used _ _ _ Hf b Hb) as [Hdb Hu]. split; [by apply (data_like (v_gm V) gm)|].
    destruct (owned_block d V s b Hf Hb) as (_ & ? & _). rewrite (ho_used _ _ _ _ _ _ H) by lia. rewrite Hu. apply orb_true_r.
  - intros i f Hi. by apply (Hfile i).
  - intros b Hb Ho. destruct (owned_block d V s b Hf Ho) as (_ & _ & _ & Hnf). by apply Hnf, (ho_free _ _ _ _ _ _ H).
Qed.

(** So does moving slices in the pool. *)
Lemma fs_ok_relocated V V' s : fs_ok d V s -> pool_ok V' -> relocated V V' ->
  fs_ok d V' s /\ (forall i f, in_use V i f -> exists o, in_use V' i (moved f o) /\ content d V' s (moved f o) = content d V s f /\
    fext V' (moved f o) = fext V f) /\ (forall b, owned V' b <-> owned V b) /\ v_defer V' = v_defer V.
Proof.
  intros Hf Hp (F & P & U & -> & HF & Hmv).
  assert (forall i f, in_use V i f -> exists o, in_use (with_pool V F P U) i (moved f o) /\ file_ok d (with_pool V F P U) s (moved f o) /\
    file_blocks (with_pool V F P U) (moved f o) = file_blocks V f /\ content d (with_pool V F P U) s (moved f o) = content d V s f /\
    fext (with_pool V F P U) (moved f o) = fext V f) as Hfw.
  { intros i f [Hi Hu]. destruct (Hmv i f Hi) as (o & Ho & Hx). exists o. split; [done|].
    destruct (file_ok_same V (with_pool V F P U) s s f (moved f o)) as (K1 & K2 & K3); try done; [by apply (fo_file _ _ _ Hf i)|by apply Hx|].
    split_and!; try done. by apply Hx. }
  assert (forall i g, in_use (with_pool V F P U) i g -> exists f, in_use V i f /\ file_ok d (with_pool V F P U) s g /\
    file_blocks (with_pool V F P U) g = file_blocks V f) as Hbk.
  { intros i g [Hi Hu]. cbn in Hi. destruct (lookup_lt_is_Some_2 (v_files V) i) as [f Hfi]; [rewrite <- HF; by eapply lookup_lt_Some|].
    destruct (Hmv i f Hfi) as (o & Ho & _). assert (g = moved f o) as -> by congruence. assert (in_use V i f) as Hif by done.
    destruct (Hfw i f Hif) as (o' & [Ho' _] & K1 & K2 & _). cbn in Ho'. assert (moved f o' = moved f o) as E by congruence. rewrite E in K1, K2. by exists f. }
  assert (forall b, owned (with_pool V F P U) b <-> owned V b) as Hown.
  { intros b. unfold owned. split; (intros [(i & g & Hi & Hb)|Hb]; [left|by right]).
    - destruct (Hbk i g Hi) as (f & K1 & _ & E). exists i, f. by rewrite <- E.
    - destruct (Hfw i g Hi) as (o & K1 & _ & E & _). exists i, (moved g o). by rewrite E. }
  split_and!; [|intros i f Hi; destruct (Hfw i f Hi) as (o & K1 & K2 & K3 & K4 & K5); by exists o|done|done]. split; try apply Hf; try done.
  - by destruct (fo_alloc _ _ _ Hf).
  - intros i g Hi. cbn in Hi. destruct (lookup_lt_is_Some_2 (v_files V) i) as [f Hfi]; [rewrite <- HF; by eapply lookup_lt_Some|].
    destruct (Hmv i f Hfi) as (o & Ho & _). assert (g = moved f o) as -> by congruence. by apply (fo_slots _ _ _ Hf i f).
  - intros i g Hi. by destruct (Hbk i g Hi) as (f & _ & K & _).
  - intros i j g1 g2 b Hi Hj H1 H2. destruct (Hbk i g1 Hi) as (f1 & K1 & _ & E1), (Hbk j g2 Hj) as (f2 & K2 & _ & E2). rewrite E1 in H1. rewrite E2 in H2.
    by apply (fo_apart _ _ _ Hf i j f1 f2 b).
  - intros i g b Hi Hb. destruct (Hbk i g Hi) as (f & K1 & _ & E). rewrite E in Hb. by apply (fo_dapart _ _ _ Hf i f b).
  - intros b Hb. apply (fo_used _ _ _ Hf). by apply Hown.
Qed.

(** * One file replaced *)

(** The volume with file [i], the pool, its bitmap and the deferred list replaced. *)
Definition with_file V (i : nat) g (P : Z -> ExfsExtent) (U : list Z) (DL : list ExfsExtent) : Vol D :=
  set_dirty (put_file (set_defer (set_pool_used (set_pool V P) U) DL) i g) true.

Lemma in_use_with V i g P U DL j h : (i < length (v_files V))%nat -> in_use (with_file V i g P U DL) j h <->
  (j = i /\ h = g /\ f_used g = true) \/ (j <> i /\ in_use V j h).
Proof.
  intros Hi. unfold in_use. cbn. rewrite list_lookup_insert_Some. split.
  - intros [[(-> & -> & _)|[Hne Hj]] Hu]; [by left|right; by split_and!].
  - intros [(-> & -> & Hu)|(Hne & Hj & Hu)]; (split; [|done]); [by left|right; by split].
Qed.

(** The pool after a file gave its slice back and got a spare one. *)
Lemma pool_ok_replace V i f g P U DL : pool_ok V -> in_use V i f -> spare V (f_ext_off g) (f_ext_cap g) -> 0 <= f_n g <= f_ext_cap g ->
  length U = 2048%nat -> (forall k, 0 <= k -> bit_of U k = if (f_ext_off f <=? k) && (k <? f_ext_off f + f_ext_cap f) then false else pool_is_used V k) ->
  pool_ok (with_file V i g P U DL).
Proof.
  intros Hok Hi [Sr Sb Sf] Hn Hl Hb. pose proof Hi as [Hif Huf]. assert (i < length (v_files V))%nat as Hlen by (by eapply lookup_lt_Some).
  destruct (po_slice V Hok i f Hif Huf) as (_ & Hof & _).
  pose proof (fun j h Hj Hu => proj1 (in_use_with V i g P U DL j h Hlen) (conj Hj Hu)) as Hc. split.
  - done.
  - cbn. rewrite length_insert. apply Hok.
  - intros j h Hj Hu. destruct (Hc j h Hj Hu) as [(-> & -> & _)|(_ & Hj' & _)]; [lia|by apply (po_slice V Hok j h)].
  - intros j h k Hj Hu Hk. unfold pool_is_used. cbn. unfold in_slice in Hk. destruct (Hc j h Hj Hu) as [(-> & -> & _)|(Hne & Hj' & _)].
    + rewrite Hb by lia. destruct (_ && _) eqn:E; [|apply Sb; lia]. exfalso. apply (Sf i f k Hif Huf); unfold in_slice; unbool; lia.
    + destruct (po_slice V Hok j h Hj' Hu) as (_ & ? & _). rewrite Hb by lia. destruct (_ && _) eqn:E; [|by apply (po_bits V Hok j h)].
      exfalso. apply Hne. apply (po_disj V Hok j i h f k); try done. unfold in_slice. unbool. lia.
  - intros j1 j2 h1 h2 k H1 H2 U1 U2 K1 K2. unfold in_slice in *.
    destruct (Hc j1 h1 H1 U1) as [(-> & -> & _)|(N1 & H1' & _)], (Hc j2 h2 H2 U2) as [(-> & -> & _)|(N2 & H2' & _)]; [done| | |].
    + by destruct (Sf j2 h2 k H2' U2 K2).
    + by destruct (Sf j1 h1 k H1' U1 K1).
    + by apply (po_disj V Hok j1 j2 h1 h2 k).
Qed.

(** The blocks of the new file are fresh or its own, and those it had are kept
    or deferred. *)
Record rehomed V f g (X : list Z) V' : Prop := {
  rh_new : forall b, b ∈ file_blocks V' g -> b ∈ X \/ b ∈ file_blocks V f;
  rh_old : forall b, b ∈ file_blocks V f -> b ∈ file_blocks V' g \/ b ∈ defer_blocks V';
  rh_defer : forall b, b ∈ defer_blocks V' <-> b ∈ defer_blocks V \/ (b ∈ file_blocks V f /\ b ∉ file_blocks V' g);
  rh_ext : Forall ext_ok (v_defer V') /\ NoDup (defer_blocks V')
}.

Lemma fs_ok_replace V s i f g P U DL X : fs_ok d V s -> in_use V i f -> f_used g = true ->
  let V' := with_file V i g P U DL in
  pool_ok V' -> (forall j h, in_use V j h -> j <> i -> fext V' h = fext V h) -> file_ok d V' s g -> rehomed V f g X V' ->
  (forall b, b ∈ X -> data_block (v_gm V) b /\ used d (v_gm V) s b = true /\ ~ owned V b) ->
  fs_ok d V' s /\ (forall b, owned V b -> owned V' b) /\ (forall j h, in_use V j h -> j <> i -> in_use V' j h /\ content d V' s h = content d V s h).
Proof.
  intros Hf Hi Hu V' Hp Hext Hg [R1 R2 R3 R4] HX. pose proof Hi as [Hif Huf]. assert (i < length (v_files V))%nat as Hlen by (by eapply lookup_lt_Some).
  assert (forall j h, in_use V' j h -> (j = i /\ h = g) \/ (j <> i /\ in_use V j h)) as Hc.
  { intros j h [(-> & -> & _)|H]%in_use_with; [by left|by right|done]. }
  assert (forall j h, in_use V j h -> j <> i -> in_use V' j h) as Hc' by (intros j h Hj Hne; apply in_use_with; [done|by right]).
  assert (forall j h, in_use V j h -> j <> i -> file_ok d V' s h /\ file_blocks V' h = file_blocks V h /\ content d V' s h = content d V s h) as Hkeep.
  { intros j h Hj Hne. apply file_ok_same; try done; [by apply (fo_file _ _ _ Hf j)|by apply (Hext j)]. }
  assert (in_use V' i g) as Hi' by (apply in_use_with; [done|by left]).
  assert (forall j h b, in_use V j h -> j <> i -> b ∈ file_blocks V h -> b ∉ file_blocks V' g) as Hsep.
  { intros j h b Hj Hne Hb Hb'. destruct (R1 b Hb') as [Hx|Hx].
    - destruct (HX b Hx) as (_ & _ & Hno). apply Hno. left. by exists j, h.
    - apply Hne. by apply (fo_apart _ _ _ Hf j i h f b). }
  assert (forall b, owned V' b -> b ∈ X \/ owned V b) as Hback.
  { intros b [(j & h & Hj & Hb)|Hb].
    - destruct (Hc j h Hj) as [[-> ->]|[Hne Hj']].
      + destruct (R1 b Hb); [by left|right; left; by exists i, f].
      + right. left. exists j, h. split; [done|]. by rewrite <- (proj1 (proj2 (Hkeep j h Hj' Hne))).
    - right. apply R3 in Hb as [Hb|[Hb _]]; [by right|left; by exists i, f]. }
  split_and!; [split| |].
  - by destruct (fo_alloc _ _ _ Hf).
  - done.
  - intros j h Hj. cbn in Hj. apply list_lookup_insert_Some in Hj as [(_ & <- & _)|[_ Hj]]; [apply (fk_chain _ _ _ _ Hg)|by apply (fo_slots _ _ _ Hf j)].
  - intros j h Hj. destruct (Hc j h Hj) as [[-> ->]|[Hne Hj']]; [done|by apply (Hkeep j)].
  - intros j1 j2 h1 h2 b H1 H2 B1 B2. destruct (Hc j1 h1 H1) as [[-> ->]|[N1 K1]], (Hc j2 h2 H2) as [[-> ->]|[N2 K2]]; [done| | |].
    + rewrite (proj1 (proj2 (Hkeep j2 h2 K2 N2))) in B2. by destruct (Hsep j2 h2 b K2 N2 B2).
    + rewrite (proj1 (proj2 (Hkeep j1 h1 K1 N1))) in B1. by destruct (Hsep j1 h1 b K1 N1 B1).
    + rewrite (proj1 (proj2 (Hkeep j1 h1 K1 N1))) in B1. rewrite (proj1 (proj2 (Hkeep j2 h2 K2 N2))) in B2. by apply (fo_apart _ _ _ Hf j1 j2 h1 h2 b).
  - done.
  - intros j h b Hj Hb Hdf. destruct (Hc j h Hj) as [[-> ->]|[Hne Hj']].
    + apply R3 in Hdf as [Hdf|[_ Hn]]; [|done]. destruct (R1 b Hb) as [Hx|Hx].
      * destruct (HX b Hx) as (_ & _ & Hno). apply Hno. by right.
      * by apply (fo_dapart _ _ _ Hf i f b).
    + rewrite (proj1 (proj2 (Hkeep j h Hj' Hne))) in Hb. apply R3 in Hdf as [Hdf|[Hx _]].
      * by apply (fo_dapart _ _ _ Hf j h b).
      * apply Hne. by apply (fo_apart _ _ _ Hf j i h f b).
  - intros b Hb. change (v_gm V') with (v_gm V). destruct (Hback b Hb) as [Hx|Ho]; [|by apply (fo_used _ _ _ Hf)]. by destruct (HX b Hx) as (? & ? & _).
  - intros b [(j & h & Hj & Hb)|Hb].
    + destruct (decide (j = i)) as [->|Hne].
      * assert (h = f) as -> by (destruct Hj; congruence). destruct (R2 b Hb); [left; by exists i, g|by right].
      * left. exists j, h. split; [by apply Hc'|]. by rewrite (proj1 (proj2 (Hkeep j h Hj Hne))).
    + right. apply R3. by left.
  - intros j h Hj Hne. split; [by apply Hc'|]. by apply (Hkeep j).
Qed.

(** * Deferring *)

Lemma defer_all_fit l : forall V, lenZ (v_defer V) + lenZ l <= 8192 -> defer_all V l = set_defer V (v_defer V ++ l).
Proof.
  induction l as [|e l IH]; intros V Hl; cbn [defer_all fold_left]; [rewrite app_nil_r; by destruct V|].
  unfold defer_push, ndefer. change EXFS_DEFER_MAX with 8192. cbn [length] in Hl. rewrite (proj2 (Z.leb_gt 8192 _)) by lia. cbn [snd].
  change (fold_left _ l ?W) with (defer_all W l). rewrite IH by (cbn [set_defer v_defer]; rewrite length_app; cbn [length]; lia).
  cbn [set_defer v_defer]. rewrite <- app_assoc. by destruct V, e.
Qed.

Lemma length_fext V f : 0 <= f_n f -> lenZ (fext V f) = f_n f.
Proof. intros H. unfold fext. rewrite length_fmap, length_seqZ. lia. Qed.

Lemma chain_exts_blocks f : ext_blocks (chain_exts f) = chain_blocks f.
Proof.
  unfold chain_exts, chain_blocks, ext_blocks. induction (take _ (f_chain f)) as [|b l IH]; [done|]. cbn [fmap list_fmap concat x_start x_len].
  rewrite IH. rewrite seqZ_cons, seqZ_nil by lia. done.
Qed.

Lemma chain_exts_ok f : Forall ext_ok (chain_exts f).
Proof. apply Forall_forall. intros e (b & -> & _)%list_elem_of_fmap. unfold ext_ok. cbn. lia. Qed.

Lemma length_chain_exts f : 0 <= f_nchain f <= 16 -> length (f_chain f) = 16%nat -> lenZ (chain_exts f) = f_nchain f.
Proof. intros H1 H2. unfold chain_exts. rewrite length_fmap, length_take. lia. Qed.

(** The blocks of a file as they go on the deferred list. *)
Definition deferred V f : list ExfsExtent := v_defer V ++ fext V f ++ chain_exts f.

Lemma deferred_blocks V f : ext_blocks (deferred V f) = defer_blocks V ++ file_blocks V f.
Proof. unfold deferred. by rewrite !ext_blocks_app, chain_exts_blocks. Qed.

Lemma deferred_ok V s i f : fs_ok d V s -> in_use V i f -> Forall ext_ok (deferred V f) /\ NoDup (ext_blocks (deferred V f)).
Proof.
  intros Hf Hi. pose proof (fo_file _ _ _ Hf i f Hi) as Hk. destruct (fo_defer _ _ _ Hf) as [H1 H2]. split.
  - unfold deferred. rewrite !Forall_app. split_and!; [done|apply Hk|apply chain_exts_ok].
  - rewrite deferred_blocks. apply NoDup_app. split_and!; [done| |apply Hk]. intros b Hb Hb'. by apply (fo_dapart _ _ _ Hf i f b).
Qed.

Lemma defer_file_eq V s i f : fs_ok d V s -> in_use V i f -> ndefer V + f_n f + f_nchain f <= 8192 ->
  defer_file V i = (EXFS_OK, put_file (pool_release (set_defer V (deferred V f)) (f_ext_off f) (f_ext_cap f)) i
    (mkFile (f_used f) (f_type f) (f_size f) (f_name f) 0 0 0 0 (f_chain f) (f_dirty f))).
Proof.
  intros Hf Hi Hr. pose proof (fo_file _ _ _ Hf i f Hi) as Hk. destruct (fk_chain _ _ _ _ Hk) as [Hc1 Hc2]. pose proof (fk_n _ _ _ _ Hk) as Hn.
  unfold defer_file. rewrite (file_lookup V i f (proj1 Hi)). change EXFS_DEFER_MAX with 8192.
  rewrite (proj2 (Z.ltb_ge 8192 _)) by lia. unfold ndefer in Hr.
  pose proof (length_fext V f ltac:(lia)). pose proof (length_chain_exts f Hc1 Hc2).
  rewrite (defer_all_fit (fext V f)) by lia. rewrite defer_all_fit by (cbn [set_defer v_defer]; rewrite length_app; lia).
  cbn [set_defer v_defer]. rewrite <- app_assoc. done.
Qed.

(** * Failing *)

Lemma release_fresh_pool F P U l : forall V s, release_fresh (with_pool V F P U) l s =
  let '(V1, s1) := release_fresh V l s in (with_pool V1 F P U, s1).
Proof.
  induction l as [|e l IH]; intros V s; [done|]. cbn [release_fresh]. change (v_gm (with_pool V F P U)) with (v_gm V).
  destruct (gmap_release _ _ _ s) as [[rc gm] s1]. change (set_gm (with_pool V F P U) gm) with (with_pool (set_gm V gm) F P U). apply IH.
Qed.

Lemma write_list_vol V V' bl src : v_dev V' = v_dev V -> v_spb V' = v_spb V -> forall pos rest s, write_list bl src pos rest V' s = write_list bl src pos rest V s.
Proof.
  intros E1 E2. induction bl as [|b bl IH]; intros pos rest s; [done|]. cbn [write_list]. unfold blk_put. rewrite E1, E2.
  destruct (blk_write _ _ _ _ s) as [rc s1]. destruct (negb _); [done|]. apply IH.
Qed.

(** The files of [V'] come from [V]: each has the record it had, its place in the
    pool aside, and the same extents, or it is marked for the next commit and
    has no chain yet. *)
Definition descends V V' : Prop := forall i g, in_use V' i g ->
  (exists f o, in_use V i f /\ g = moved f o /\ fext V' g = fext V f) \/
  (f_dirty g = true /\ f_nchain g = 0 /\ fits (f_n g) (f_ext_cap g)).

Lemma descends_refl V : descends V V.
Proof. intros i g Hi. left. exists g, (f_ext_off g). by rewrite moved_id. Qed.

Lemma descends_map V gm h : descends V (with_map V gm h).
Proof. exact (descends_refl V). Qed.

Lemma descends_trans V1 V2 V3 : descends V1 V2 -> descends V2 V3 -> descends V1 V3.
Proof.
  intros H1 H2 i g Hg. destruct (H2 i g Hg) as [(f & o & Hf & -> & E)|?]; [|by right].
  destruct (H1 i f Hf) as [(f0 & o0 & Hf0 & -> & E0)|?]; [left|by right]. exists f0, o. split_and!; [done|done|congruence].
Qed.

Lemma descends_relocated V V' : relocated V V' -> descends V V'.
Proof.
  intros (F & P & U & -> & HF & Hm) i g [Hi Hu]. cbn in Hi. destruct (lookup_lt_is_Some_2 (v_files V) i) as [f Hf]; [rewrite <- HF; by eapply lookup_lt_Some|].
  destruct (Hm i f Hf) as (o & Ho & Hx). assert (g = moved f o) as -> by congruence. left. exists f, o. split_and!; [done|done|by apply Hx].
Qed.

(** What no operation on files changes: the marks of the volume, its size, and
    the slots of the map; and where its files come from. *)
Definition steady V V' : Prop :=
  v_mounted V' = v_mounted V /\ v_broken V' = v_broken V /\ v_total V' = v_total V /\ gm_like (v_gm V) (v_gm V') /\
  (v_dev V' = v_dev V /\ v_spb V' = v_spb V /\ v_gen V' = v_gen V /\ (v_dirty V = true -> v_dirty V' = true)) /\ descends V V'.

Lemma steady_refl V : steady V V.
Proof. split_and!; (done || apply descends_refl). Qed.

Lemma steady_trans V1 V2 V3 : steady V1 V2 -> steady V2 V3 -> steady V1 V3.
Proof.
  intros (A1 & A2 & A3 & A4 & (A5 & A6 & A7 & A9) & A8) (B1 & B2 & B3 & B4 & (B5 & B6 & B7 & B9) & B8). split_and!; try congruence.
  - by apply (gm_like_trans _ (v_gm V2)).
  - auto.
  - by apply (descends_trans _ V2).
Qed.

(** The outcome of a refused change: everything is as it was. *)
Definition untouched V s V' s' : Prop :=
  fs_ok d V' s' /\ same_content V s V' s' /\ (forall b, owned V' b <-> owned V b) /\
  (forall b, 0 <= b < v_total V -> used d (v_gm V') s' b = used d (v_gm V) s b) /\ steady V V'.

Lemma untouched_holds V s V' s' : fs_ok d V s -> holds d V s V' s' [] -> untouched V s V' s'.
Proof.
  intros Hf H. destruct (fs_ok_holds V s V' s' [] Hf H) as (H1 & H2 & _). destruct (ho_vol _ _ _ _ _ _ H) as (gm & h & -> & Hgl). split_and!; [done| |done| |].
  - intros i f Hi. exists f. split_and!; [done|done|by apply (H2 i)].
  - intros b Hb. rewrite (ho_used _ _ _ _ _ _ H) by done. done.
  - split_and!; (done || apply descends_map).
Qed.

(** Fresh blocks given back after slices were moved. *)
Lemma untouched_release V s V1 s1 V2 fresh : fs_ok d V s -> holds d V s V1 s1 (ext_blocks fresh) -> Forall ext_ok fresh -> bd_ok s1 -> bd_dead s1 = false ->
  pool_ok V2 -> relocated V1 V2 ->
  let '(V3, s3) := release_fresh V2 fresh s1 in bd_ok s3 /\ safe d V s s3 /\ (bd_dead s3 = false -> untouched V s V3 s3).
Proof.
  intros Hf H Hx Hs Hd Hp Hr. pose proof Hr as (F & P & U & E & HF & Hm). rewrite E, release_fresh_pool.
  pose proof (release_fresh_spec d V s fresh V1 s1 [] H Hx Hs Hd) as Hrel. destruct (release_fresh V1 fresh s1) as [V3 s3].
  destruct Hrel as (H1 & H2 & H3 & H4). split_and!; [done|done|]. intros Hd3. specialize (H4 Hd3).
  destruct (untouched_holds V s V3 s3 Hf H4) as (K1 & K2 & K3 & K4 & K5).
  destruct (ho_vol _ _ _ _ _ _ H) as (gm1 & h1 & E1 & _), (ho_vol _ _ _ _ _ _ H4) as (gm3 & h3 & E3 & _).
  assert (pool_ok (with_pool V3 F P U)) as Hp3 by (rewrite E in Hp; destruct Hp; by split).
  assert (relocated V3 (with_pool V3 F P U)) as Hr3.
  { exists F, P, U. split_and!; [done|by rewrite E3; rewrite E1 in HF|]. rewrite E3. rewrite E1, E in Hm. rewrite E1 in Hm. exact Hm. }
  destruct (fs_ok_relocated V3 _ s3 K1 Hp3 Hr3) as (L1 & L2 & L3 & L4). split_and!; [done| | | |].
  - intros i f Hi. destruct (K2 i f Hi) as (f' & Hi' & Eid & Ec). destruct (L2 i f' Hi') as (o & M1 & M2 & _). exists (moved f' o).
    split_and!; [done|by rewrite <- Eid|congruence].
  - intros b. by rewrite L3, K3.
  - intros b Hb. by apply K4.
  - apply (steady_trans _ V3); [done|]. split_and!; (done || by apply descends_relocated).
Qed.

(** * Succeeding *)

(** The slice is marked, the old one given back, the extents stored. *)
Lemma reslice V s i f off cap l : fs_ok d V s -> in_use V i f -> spare V off cap -> lenZ l <= cap ->
  exists P U, length U = 2048%nat /\
    (forall k, 0 <= k -> bit_of U k = if (f_ext_off f <=? k) && (k <? f_ext_off f + f_ext_cap f) then false else pool_is_used V k) /\
    (forall DL, pool_store (pool_release (set_defer V DL) (f_ext_off f) (f_ext_cap f)) off l = set_defer (set_pool_used (set_pool V P) U) DL) /\
    (fun k => P (off + k)) <$> seqZ 0 (lenZ l) = l /\
    (forall x, ~ (off <= x < off + cap) -> P x = v_pool V x).
Proof.
  intros Hf Hi Hsp Hl. pose proof Hi as [Hif Hu]. pose proof (fo_pool _ _ _ Hf) as Hp. destruct (po_slice V Hp i f Hif Hu) as (Hn & Ho & He).
  destruct (mark_bits (v_pool_used V) (f_ext_off f) (f_ext_cap f) false (po_len V Hp) Ho ltac:(lia) He) as [HU1 HU2].
  destruct (pool_store_spec V off l) as (P & EP & HP1 & HP2). exists P. eexists. split_and!; [exact HU1|exact HU2| |by apply store_fext|].
  - intros DL. unfold pool_release, pool_mark. unfold pool_store in *. cbn [set_defer v_pool_used set_pool_used v_pool].
    apply (f_equal v_pool) in EP. cbn in EP. by rewrite EP.
  - intros x Hx. apply HP2. lia.
Qed.

(** Everything about the written file. *)
Record written V s i (name c : list Z) V' s' : Prop := {
  wr_ok : fs_ok d V' s';
  wr_owned : forall b, owned V b -> owned V' b;
  wr_steady : steady V V';
  wr_file : exists f, in_use V' i f /\ cname f = name /\ f_type f = EXFS_TYPE_FILE /\ content d V' s' f = c;
  wr_rest : forall j f, in_use V j f -> j <> i -> exists f', in_use V' j f' /\ ident f' = ident f /\ content d V' s' f' = content d V s f
}.

Lemma fbytes_pages s bl src pos rest : (forall j b, bl !! j = Some b -> block d s b = page_at src pos rest (Z.of_nat j)) ->
  forall k, 0 <= k < 4096 * lenZ bl -> nthZ (fbytes d s bl) k = if k <? rest then nthZ src (pos + k) else 0.
Proof.
  intros H k Hk. rewrite nthZ_fbytes by done. assert (0 <= k / 4096 < lenZ bl) as Hq by (split; [apply Z.div_pos; lia|apply Z.div_lt_upper_bound; lia]).
  destruct (lookup_lt_is_Some_2 bl (Z.to_nat (k / 4096))) as [b Hb]; [lia|]. assert (nthZ bl (k / 4096) = b) as -> by (unfold nthZ; by rewrite Hb).
  rewrite (H _ b Hb), nthZ_page_at by (apply Z.mod_pos_bound; lia). rewrite Z2Nat.id by lia. rewrite <- Z.add_assoc, <- Z.div_mod by lia. done.
Qed.

(** The operation at its last step: fresh blocks held and written, a slice
    reserved; file [i] is replaced by [g], whose list is in that slice. *)
Section Replace.
Context V s V1 s2 V2 i f (X : list Z) (Hf : fs_ok d V s) (H : holds d V s V1 s2 X) (Hp : pool_ok V2) (Hr : relocated V1 V2) (Hi : in_use V i f).

Lemma rp_moved : exists o, in_use V2 i (moved f o) /\ fs_ok d V2 s2 /\ fext V2 (moved f o) = fext V f /\ v_defer V2 = v_defer V /\
  content d V2 s2 (moved f o) = content d V s f /\ (forall b, owned V2 b <-> owned V b) /\ (forall b, b ∈ X -> ~ owned V2 b).
Proof.
  destruct (fs_ok_holds V s V1 s2 _ Hf H) as (F1 & C1 & X1). destruct (fs_ok_relocated V1 V2 s2 F1 Hp Hr) as (F2 & C2 & O2 & D2).
  destruct (ho_vol _ _ _ _ _ _ H) as (gm & h & E1 & _). assert (in_use V1 i f) as Hi1 by (by rewrite E1).
  destruct (C2 i f Hi1) as (o & Hi2 & Cf2 & Xf2). exists o. split_and!; [done|done| | | | |].
  - rewrite Xf2. by rewrite E1.
  - rewrite D2. by rewrite E1.
  - rewrite Cf2. by apply (C1 i).
  - intros b. rewrite O2. by rewrite E1.
  - intros b Hb Ho. by apply (X1 b Hb), O2.
Qed.

Lemma rp_written o g P U DL c : in_use V2 i (moved f o) -> spare V2 (f_ext_off g) (f_ext_cap g) -> 0 <= f_n g <= f_ext_cap g ->
  length U = 2048%nat -> (forall k, 0 <= k -> bit_of U k = if (o <=? k) && (k <? o + f_ext_cap f) then false else pool_is_used V2 k) ->
  (forall x, ~ (f_ext_off g <= x < f_ext_off g + f_ext_cap g) -> P x = v_pool V2 x) ->
  let V' := with_file V2 i g P U DL in
  file_ok d V' s2 g -> rehomed V2 (moved f o) g X V' -> f_type f = EXFS_TYPE_FILE -> ident g = ident f -> content d V' s2 g = c ->
  f_dirty g = true -> f_nchain g = 0 -> fits (f_n g) (f_ext_cap g) -> written V s i (cname f) c V' s2.
Proof.
  intros Hi2 Hsp Hn HU1 HU2 HPo V' Hg Hrh Ht Eid Ec Hdg Hcg Hfg. assert (f_used g = true) as Hug by (injection Eid as -> _ _; apply Hi).
  destruct (fs_ok_holds V s V1 s2 _ Hf H) as (F1 & C1 & X1). destruct (fs_ok_relocated V1 V2 s2 F1 Hp Hr) as (F2 & C2 & O2 & D2).
  destruct (ho_vol _ _ _ _ _ _ H) as (gm & h & E1 & Hgl). pose proof Hr as (F & PP & UU & EV2 & _).
  assert (forall j h, in_use V2 j h -> j <> i -> fext V' h = fext V2 h) as Hfx.
  { intros j h' [Hj Hu] Hne. unfold fext. apply list_fmap_ext. intros k x [-> Hk]%lookup_seqZ. cbn. apply HPo. intros Hin.
    destruct (po_slice V2 Hp j h' Hj Hu) as (Hn' & _). apply (sp_free V2 _ _ Hsp j h' _ Hj Hu) in Hin; [done|unfold in_slice; lia]. }
  destruct (fs_ok_replace V2 s2 i (moved f o) g P U DL X F2 Hi2 Hug) as (R1 & R2 & R3); fold V'; [| |done|done| |].
  - by apply (pool_ok_replace V2 i (moved f o)).
  - exact Hfx.
  - intros b Hb. destruct (holds_data d V s V1 s2 _ H b Hb) as (K1 & K2 & _). rewrite EV2. split_and!; [done|done|].
    rewrite <- EV2. intros Ho. by apply (X1 b Hb), O2.
  - split; [done| | | |].
    + intros b Hb. apply R2, O2. rewrite E1. exact Hb.
    + assert (descends V V') as Hde; [|unfold V' in *; rewrite EV2, E1 in *; by split_and!]. apply (descends_trans V V2).
      { apply (descends_trans V V1); [rewrite E1; apply descends_map|by apply descends_relocated]. }
      intros j h' Hj. assert (i < length (v_files V2))%nat as Hlt by (destruct Hi2 as [E _]; by eapply lookup_lt_Some).
      apply (in_use_with V2 i g P U DL j h' Hlt) in Hj as [(-> & -> & _)|[Hne Hj]]; [by right|left].
      exists h', (f_ext_off h'). rewrite moved_id. split_and!; [done|done|by apply (Hfx j)].
    + exists g. injection Eid as Eu Et En. split_and!; [|unfold cname; by rewrite En|congruence|done].
      split; [|done]. cbn. apply list_lookup_insert_eq. destruct Hi2 as [E _]. by eapply lookup_lt_Some.
    + intros j h' Hj Hne. assert (in_use V1 j h') as Hj1 by (by rewrite E1). destruct (C2 j h' Hj1) as (o' & M1 & M2 & _).
      destruct (R3 j _ M1 Hne) as [N1 N2]. exists (moved h' o'). split_and!; [done|done|]. rewrite <- (C1 j h' Hj), <- M2. exact N2.
Qed.
End Replace.

(** The stores of the last step, in one. *)
Lemma last_stores V s i f g f0 off l P U : fs_ok d V s -> in_use V i f ->
  (forall DL, pool_store (pool_release (set_defer V DL) (f_ext_off f) (f_ext_cap f)) off l = set_defer (set_pool_used (set_pool V P) U) DL) ->
  forall DL, let W := pool_store (put_file (pool_release (set_defer V DL) (f_ext_off f) (f_ext_cap f)) i f0) off l in
  file W i = f0 /\ set_dirty (put_file W i g) true = with_file V i g P U DL.
Proof.
  intros Hf Hi Est DL W. unfold W. clear W.
  change (pool_store (put_file ?W i f0) off l) with (put_file (pool_store W off l) i f0). rewrite Est. split.
  - apply file_lookup. cbn. apply list_lookup_insert_eq. destruct Hi as [E _]. by eapply lookup_lt_Some.
  - unfold with_file, put_file. cbn. by rewrite list_insert_insert_eq.
Qed.

Lemma write_done V s V1 V2 s2 i f fresh off cap buf need : fs_ok d V s -> holds d V s V1 s2 (ext_blocks fresh) ->
  Forall ext_ok fresh -> lenZ fresh <= 2048 -> lenZ (ext_blocks fresh) = need -> lenZ buf <= 4096 * need < lenZ buf + 4096 ->
  pool_ok V2 -> relocated V1 V2 -> spare V2 off cap -> fits (lenZ fresh) cap -> in_use V i f -> f_type f = EXFS_TYPE_FILE ->
  ndefer V + f_n f + f_nchain f <= 8192 -> (forall j b, ext_blocks fresh !! j = Some b -> block d s2 b = page_at buf 0 (lenZ buf) (Z.of_nat j)) ->
  let V4 := pool_store (defer_file V2 i).2 off fresh in
  written V s i (cname f) buf (set_dirty (put_file V4 i (set_content (file V4 i) (lenZ fresh) off cap (lenZ buf))) true) s2.
Proof.
  intros Hf H Hx Hl Hneed Hlen Hp Hr Hsp Hcap Hi Ht Hdf Hdata.
  destruct (rp_moved V s V1 s2 V2 i f _ Hf H Hp Hr Hi) as (o & Hi2 & F2 & Xf2 & D2 & _ & O2 & X2). set (f2 := moved f o) in *.
  assert (ndefer V2 = ndefer V) as Nd by (unfold ndefer; by rewrite D2).
  pose proof (defer_file_eq V2 s2 i f2 F2 Hi2 ltac:(rewrite Nd; exact Hdf)) as Edf. rewrite Edf. cbn [snd]. clear Edf.
  destruct (reslice V2 s2 i f2 off cap fresh F2 Hi2 Hsp (proj1 Hcap)) as (P & U & HU1 & HU2 & Est & HPf & HPo).
  set (f0 := mkFile _ _ _ _ 0 0 0 0 _ _). set (g := set_content f0 (lenZ fresh) off cap (lenZ buf)).
  destruct (last_stores V2 s2 i f2 g f0 off fresh P U F2 Hi2 Est (deferred V2 f2)) as [Ef0 Eall].
  rewrite Ef0. fold g. rewrite Eall. set (V' := with_file V2 i g P U (deferred V2 f2)).
  assert (fext V' g = fresh) as Xg by exact HPf. assert (data_blocks V' g = ext_blocks fresh) as Dg by (unfold data_blocks; by rewrite Xg).
  assert (file_blocks V' g = ext_blocks fresh) as Bg by (unfold file_blocks; rewrite Dg; apply app_nil_r).
  pose proof (fbytes_pages s2 (ext_blocks fresh) buf 0 (lenZ buf) Hdata) as Hby. pose proof (fo_file _ _ _ Hf i f Hi) as Hkf.
  pose proof (length_fbytes d s2 (ext_blocks fresh)) as Hlb.
  apply (rp_written V s V1 s2 V2 i f (ext_blocks fresh) Hf H Hp Hr Hi o); fold V'; try done.
  - cbn. destruct Hcap. lia.
  - split; rewrite ?Dg, ?Xg, ?Bg; cbn [g set_content f_n f_nchain f_chain f_size f0]; [lia|done| |lia| |apply H].
    + split; [lia|]. apply (fk_chain _ _ _ _ Hkf).
    + intros k Hk. rewrite Hby by lia. by rewrite (proj2 (Z.ltb_ge k (lenZ buf))) by lia.
  - split; [intros b Hb; rewrite Bg in Hb; by left| | |by apply (deferred_ok V2 s2 i f2)].
    + intros b Hb. right. change (defer_blocks V') with (ext_blocks (deferred V2 f2)). rewrite deferred_blocks. apply elem_of_app. by right.
    + intros b. change (defer_blocks V') with (ext_blocks (deferred V2 f2)). rewrite deferred_blocks, elem_of_app.
      rewrite Bg. split; [|tauto]. intros [Hb|Hb]; [by left|]. right. split; [done|]. intros Hb'. apply (X2 b Hb'). left. by exists i, f2.
  - unfold content. rewrite Dg. apply nthZ_ext; cbn [g set_content f_size]; rewrite length_take; [lia|].
    intros k Hk. rewrite nthZ_take_lt by lia. rewrite Hby by lia. by rewrite (proj2 (Z.ltb_lt k (lenZ buf))) by lia.
Qed.

(** * [exfs_write] *)

Lemma same_names_in_use V V' i f' : same_names V V' -> in_use V' i f' -> exists f, in_use V i f /\ ident f' = ident f.
Proof.
  intros Hn [Hi Hu]. destruct (same_lookup V V' i f' Hn Hi) as (f & Hf & E1 & E2 & E3). exists f. split; [split; [done|congruence]|].
  unfold ident. congruence.
Qed.

(** Files with the same content hold it under the same name. *)
Lemma stores_same V s V' s' (Q : nat -> Prop) n c : same_names V V' ->
  (forall i f, in_use V i f -> Q i -> exists f', in_use V' i f' /\ ident f' = ident f /\ content d V' s' f' = content d V s f) ->
  (forall i f, in_use V i f -> cname f = n -> Q i) -> stores d V s n c <-> stores d V' s' n c.
Proof.
  intros Hn Hc HQ. split.
  - intros (i & f & Hi & En & Et & Ec). destruct (Hc i f Hi (HQ i f Hi En)) as (f' & Hi' & Eid & Ec'). injection Eid as Eu Et' En'.
    exists i, f'. split_and!; [done|unfold cname; by rewrite En'|congruence|congruence].
  - intros (i & f' & Hi' & En & Et & Ec). destruct (same_names_in_use V V' i f' Hn Hi') as (f & Hi & Eid). injection Eid as Eu Et' En'.
    assert (cname f = n) as En2 by (unfold cname; by rewrite <- En'). destruct (Hc i f Hi (HQ i f Hi En2)) as (f2 & Hi2 & _ & Ec2).
    assert (f2 = f') as -> by (destruct Hi', Hi2; congruence). exists i, f. split_and!; [done|done|congruence|congruence].
Qed.

(** Fewer than [need] blocks were free. *)
Definition few_free V s (need : Z) : Prop :=
  exists X, lenZ X < need /\ forall b, 0 <= b < v_total V -> used d (v_gm V) s b = false -> b ∈ X.

(** Nothing but places in the pool and the cache differs. *)
Definition kept V s V' s' : Prop :=
  (forall n c, stores d V s n c <-> stores d V' s' n c) /\ (forall b, 0 <= b < v_total V -> used d (v_gm V') s' b = used d (v_gm V) s b).

(** What a write of [need] blocks answers, on a device that works. *)
Definition write_post V s (name : list Z) (need : Z) (c : list Z) rc V' s' : Prop :=
  (rc = EXFS_OK /\ active V /\ node V name EXFS_TYPE_FILE /\ stores d V' s' name c /\
    (forall n c', n <> name -> stores d V s n c' <-> stores d V' s' n c')) \/
  (kept V s V' s' /\
    (rc = EXFS_ENOFS /\ v_mounted V = false \/ rc = EXFS_EBROKEN /\ v_broken V = true \/ rc = EXFS_ENOENT /\ (forall t, ~ node V name t) \/
     rc = EXFS_EISDIR /\ node V name EXFS_TYPE_DIR \/ rc = EXFS_ENOSPC /\ few_free V s need \/ rc = EXFS_ENOMEM)).

Lemma kept_refl V s : kept V s V s.
Proof. done. Qed.

Lemma untouched_kept V s V' s' : same_names V V' -> untouched V s V' s' -> kept V s V' s'.
Proof.
  intros Hn (H1 & H2 & H3 & H4 & _). split; [|done]. intros n c. apply (stores_same V s V' s' (fun _ => True)); [done| |done]. intros i f Hi _. by apply H2.
Qed.

Lemma written_post V s i name c V' s' need f : ns_ok V -> in_use V i f -> cname f = name -> f_type f = EXFS_TYPE_FILE -> active V ->
  same_names V V' -> written V s i name c V' s' -> write_post V s name need c EXFS_OK V' s'.
Proof.
  intros N Hi En Ht Ha Hn [W1 W2 _ W3 W4]. left. split_and!; [done|done| | |].
  - exists i, f. destruct Hi. by split_and!.
  - destruct W3 as (g & G1 & G2 & G3 & G4). by exists i, g.
  - intros n c' Hne. apply (stores_same V s V' s' (fun j => j <> i)); [done|done|]. intros j g Hj Eg ->.
    assert (g = f) as -> by (destruct Hi, Hj; congruence). congruence.
Qed.

(** The state a call leaves. *)
Definition call_post V s V' s' (Q : Prop) : Prop :=
  bd_ok s' /\ safe d V s s' /\ (bd_dead s' = false -> fs_ok d V' s' /\ (forall b, owned V b -> owned V' b) /\ steady V V' /\ Q).

Lemma call_same V s (Q : Prop) : fs_ok d V s -> bd_ok s -> Q -> call_post V s V s Q.
Proof. intros Hf Hs HQ. pose proof (steady_refl V). by split_and!. Qed.

(** The part of [exfs_write] after the blocks were taken. *)
Definition write_tail V (i : nat) (fresh : list ExfsExtent) (buf : list Z) (len : Z) s : Z * Vol D * D :=
  let fail rc V s := let '(V, s) := release_fresh V fresh s in (rc, V, s) in
  if EXFS_DEFER_MAX <? ndefer V + f_n (file V i) + f_nchain (file V i) then fail EXFS_ENOMEM V s else
  let '(rc, roff, rcap, V) := pool_reserve V (lenZ fresh) in
  if negb (rc =? EXFS_OK) then fail EXFS_ENOMEM V s else
  let '(ok, s) := write_runs fresh buf 0 len V s in
  if negb ok then fail EXFS_EIO (pool_release V roff rcap) s else
  let V := (defer_file V i).2 in
  let V := pool_store V roff fresh in
  (EXFS_OK, set_dirty (put_file V i (set_content (file V i) (lenZ fresh) roff rcap len)) true, s).

Lemma reserve_device V n : on_device d V -> on_device d (pool_reserve V n).2.
Proof.
  assert (forall V, on_device d V -> on_device d (pool_compact V)) as Hc.
  { intros W [H1 H2]. unfold pool_compact. assert (forall l W c, v_dev W = Some d -> m_dev (v_gm W) = Some d ->
      on_device d (fold_left (fun '(V, cursor) i => compact_one V i cursor) l (W, c)).1) as Hl; [|by apply Hl].
    clear. induction l as [|i l IH]; intros W c H1 H2; [done|]. cbn [fold_left]. unfold compact_one at 2. apply IH; by destruct (negb _). }
  intros Hd. unfold pool_reserve. destruct (n =? 0); [done|]. destruct (pool_find V _); [done|]. specialize (Hc V Hd). by destruct (pool_find (pool_compact V) _).
Qed.

Lemma write_tail_frozen V i fresh buf len s : on_device d V -> bd_ok s -> bd_dead s = true -> let '(_, _, s') := write_tail V i fresh buf len s in frozen d s s'.
Proof.
  intros Hd Hs Hx. unfold write_tail. destruct (_ <? _).
  { pose proof (release_fresh_frozen d fresh V s Hd Hs Hx) as H. destruct (release_fresh V fresh s). apply H. }
  pose proof (reserve_device V (lenZ fresh) Hd) as Hd1. destruct (pool_reserve V (lenZ fresh)) as [[[rc off] cap] V1]. cbn [snd] in Hd1.
  destruct (negb _).
  { pose proof (release_fresh_frozen d fresh V1 s Hd1 Hs Hx) as H. destruct (release_fresh V1 fresh s). apply H. }
  rewrite write_runs_list. pose proof (write_list_frozen d (ext_blocks fresh) buf V1 0 len s (proj1 Hd1) Hs Hx) as Hw.
  destruct (write_list _ _ _ _ V1 s) as [ok s1]. pose proof Hw as (Hs1 & Hx1 & _). destruct (negb ok); [|done].
  pose proof (release_fresh_frozen d fresh (pool_release V1 off cap) s1 Hd1 Hs1 Hx1) as H. destruct (release_fresh _ fresh s1). apply (frozen_trans d s s1); [done|apply H].
Qed.

Lemma write_tail_spec V s V1 s1 i f fresh buf need : fs_ok d V s -> bytes_ok buf -> in_use V i f -> f_type f = EXFS_TYPE_FILE ->
  holds d V s V1 s1 (ext_blocks fresh) -> lenZ (ext_blocks fresh) = need -> Forall ext_ok fresh -> lenZ fresh <= 2048 ->
  lenZ buf <= 4096 * need < lenZ buf + 4096 -> bd_ok s1 -> bd_dead s1 = false ->
  let '(rc, V', s') := write_tail V1 i fresh buf (lenZ buf) s1 in
  bd_ok s' /\ safe d V s s' /\ (bd_dead s' = false ->
    (rc = EXFS_OK /\ written V s i (cname f) buf V' s') \/ (rc = EXFS_ENOMEM /\ untouched V s V' s')).
Proof.
  intros Hf Hb Hi Ht H Hneed Hx Hl Hlen Hs Hd. destruct (ho_vol _ _ _ _ _ _ H) as (gm & h & E1 & _).
  assert (file V1 i = f) as Ef1 by (apply file_lookup; rewrite E1; apply Hi).
  assert (pool_ok V1) as Hp1 by (rewrite E1; destruct (fo_pool _ _ _ Hf); by split).
  assert (ndefer V1 = ndefer V) as Nd by (by rewrite E1).
  unfold write_tail. rewrite Ef1, Nd. change EXFS_DEFER_MAX with 8192. destruct (Z.ltb_spec 8192 (ndefer V + f_n f + f_nchain f)).
  { pose proof (untouched_release V s V1 s1 V1 fresh Hf H Hx Hs Hd Hp1 (relocated_refl V1)) as Hu. destruct (release_fresh V1 fresh s1) as [V3 s3].
    destruct Hu as (U1 & U2 & U3). split_and!; [done|done|]. intros Hd3. right. split; [done|by apply U3]. }
  pose proof (pool_reserve_spec V1 (lenZ fresh) Hp1 ltac:(lia)) as Hres.
  pose proof (reserve_device V1 (lenZ fresh) (holds_on_device _ _ _ _ _ _ H)) as Hdv.
  destruct (pool_reserve V1 (lenZ fresh)) as [[[rc off] cap] V2]. destruct Hres as (Hr & Hp2 & Hrc). cbn [snd] in Hdv.
  destruct (Z.eqb_spec rc EXFS_OK) as [->|Hne]; cbn [negb].
  2: { pose proof (untouched_release V s V1 s1 V2 fresh Hf H Hx Hs Hd Hp2 Hr) as Hu. destruct (release_fresh V2 fresh s1) as [V3 s3].
       destruct Hu as (U1 & U2 & U3). split_and!; [done|done|]. intros Hd3. right. split; [done|by apply U3]. }
  destruct Hrc as [(_ & Hcap & Hsp)|?]; [|done]. rewrite write_runs_list. pose proof Hr as (F & P & U & E2 & _).
  rewrite (write_list_vol V1 V2) by (by rewrite E2).
  pose proof (write_list_spec d V s V1 buf (ext_blocks fresh) Hb (ext_blocks fresh) 0 (lenZ buf) s1 H (ho_nodup _ _ _ _ _ _ H) ltac:(done) ltac:(lia) Hs Hd) as Hw.
  destruct (write_list (ext_blocks fresh) buf 0 (lenZ buf) V1 s1) as [ok s2]. destruct Hw as (Hs2 & Hsafe & Hlive).
  destruct (bd_dead s2) eqn:Ed2.
  - destruct (negb ok); [|split_and!; [done|done|congruence]].
    pose proof (release_fresh_frozen d fresh (pool_release V2 off cap) s2 Hdv Hs2 Ed2) as Hz. destruct (release_fresh _ fresh s2) as [V3 s3].
    destruct Hz as [_ (Z1 & Z2 & Z3)]. split_and!; [done|by apply (safe_same d V s s2)|congruence].
  - destruct (Hlive eq_refl) as (-> & H2 & _ & Hpages). cbn [negb]. split_and!; [done|done|]. intros _. left. split; [done|].
    by apply (write_done V s V1 V2 s2 i f fresh off cap buf need).
Qed.

Lemma exfs_write_spec V s name buf : ns_ok V -> fs_ok d V s -> bd_ok s -> bd_dead s = false -> no_nul name -> bytes_ok buf ->
  lenZ buf <= 2 ^ 64 - 4096 ->
  let '(rc, V', s') := exfs_write V name buf (lenZ buf) s in
  call_post V s V' s' (same_names V V' /\ write_post V s name ((lenZ buf + 4095) / 4096) buf rc V' s').
Proof.
  intros N Hf Hs Hx Hn Hb Hlen. pose proof (exfs_write_same V name buf (lenZ buf) s) as Hsame. revert Hsame. unfold exfs_write.
  pose proof (same_names_refl V) as Hsn.
  destruct (v_mounted V) eqn:Em; cbn [negb]; [|intros _; apply call_same; [done|done|split; [done|right; split; [done|by left]]]].
  destruct (v_broken V) eqn:Eb; [intros _; apply call_same; [done|done|split; [done|right; split; [done|right; by left]]]|].
  destruct (find V name) as [i|] eqn:Ef.
  2: { intros _. apply call_same; [done|done|]. split; [done|]. right. split; [done|]. do 2 right. left. split; [done|]. by apply find_None. }
  destruct (find_in_use V name i Hn Ef) as (f & Hi & Ecn & Efi). rewrite Efi.
  destruct (Z.eqb_spec (f_type f) EXFS_TYPE_FILE) as [Ht|Ht]; cbn [negb].
  2: { intros _. apply call_same; [done|done|]. split; [done|]. right. split; [done|]. do 3 right. left. split; [done|]. destruct Hi as [Hi1 Hi2].
       exists i, f. split_and!; [done|done|done|]. by destruct (ns_type V N i f Hi1 Hi2). }
  change EXFS_BLOCK with 4096. rewrite u64_small by lia. replace (lenZ buf + 4096 - 1) with (lenZ buf + 4095) by lia.
  set (need := (lenZ buf + 4095) / 4096). pose proof (Z.div_mod (lenZ buf + 4095) 4096 ltac:(lia)) as Hdm.
  pose proof (Z.mod_pos_bound (lenZ buf + 4095) 4096 ltac:(lia)) as Hmb. fold need in Hdm.
  assert (0 <= need) as Hn0 by (apply Z.div_pos; lia). clearbody need.
  pose proof (take_fresh_spec d V need s (fo_alloc _ _ _ Hf) Hs Hx Hn0) as Htf. pose proof (take_fresh_files V need s) as Hfl.
  destruct (take_fresh V need s) as [[r V1] s1]. destruct Htf as (Hs1 & Hd1 & Hsafe1 & Hlive). cbn [fst snd] in Hfl.
  destruct r as [rc|fresh].
  { cbn [fst snd]. intros Hsn1. split_and!; [done|done|]. intros Hx1. destruct (Hlive Hx1) as [H Hrc]. pose proof (untouched_holds V s V1 s1 Hf H) as Hu.
    split_and!; [apply Hu|intros b; apply Hu|apply Hu|done|]. right. split; [by apply untouched_kept|]. do 4 right. destruct Hrc as [-> | [-> Hff]]; [by right|left]. done. }
  cbn zeta. change (match write_tail V1 i fresh buf (lenZ buf) s1 with x => same_names V x.1.2 -> (let '(rc, V', s') := x in
    call_post V s V' s' (same_names V V' /\ write_post V s name need buf rc V' s')) end).
  destruct (bd_dead s1) eqn:Ed1.
  - pose proof (write_tail_frozen V1 i fresh buf (lenZ buf) s1 Hd1 Hs1 Ed1) as Hz. destruct (write_tail _ _ _ _ _ s1) as [[rc V'] s'].
    destruct Hz as (Z1 & Z2 & Z3). intros _. split_and!; [done|by apply (safe_same d V s s1)|congruence].
  - destruct (Hlive eq_refl) as (H & Hneed & Hxo & Hl).
    pose proof (write_tail_spec V s V1 s1 i f fresh buf need Hf Hb Hi Ht H Hneed Hxo Hl ltac:(lia) Hs1 Ed1) as Hw.
    destruct (write_tail V1 i fresh buf (lenZ buf) s1) as [[rc V'] s']. destruct Hw as (W1 & W2 & W3). cbn [fst snd]. intros Hsn1.
    split_and!; [done|done|]. intros Hd'. destruct (W3 Hd') as [[-> Hw]|[-> Hu]].
    + split_and!; [apply Hw|apply Hw|apply Hw|done|]. rewrite Ecn in Hw. by apply (written_post V s i name buf V' s' need f).
    + split_and!; [apply Hu|intros b; apply Hu|apply Hu|done|]. right. split; [by apply untouched_kept|]. by do 5 right.
Qed.
End Write.
