(* ===== verification/ExfsWriteAt.v ===== *)
(** Writing into the middle of an EXFS file: [exfs_write_at] on every branch.
    The blocks the write touches are replaced by fresh ones; the list of the
    others is kept. *)

From S2P Require Import Prelude.
From S2P Require Import Bytes.
From S2P Require Import Blk.
From S2P Require Import ExfsDefs.
From S2P Require Import Gmap.
From S2P Require Import GmapOk.
From S2P Require Import Sb.
From S2P Require Import Exfs.
From S2P Require Import ExfsNames.
From S2P Require Import ExfsPool.
From S2P Require Import ExfsData.
From S2P Require Import ExfsFiles.
From S2P Require Import ExfsWrite.

(** * Runs of a list of extents *)

(** An extent inside a volume. *)
Definition ext_small (e : ExfsExtent) : Prop := 0 < x_len e /\ 0 <= x_start e /\ x_start e + x_len e < 2 ^ 32.

(** The parts of the extents between logical blocks [lo] and [hi]. *)
Fixpoint runs (l : list ExfsExtent) (lpos lo hi : Z) : list ExfsExtent :=
  match l with
  | [] => []
  | e :: l =>
    if negb (lpos <? hi) then [] else
    let a := if lo <? lpos then lpos else lo in
    let b := if lpos + x_len e <? hi then lpos + x_len e else hi in
    if a <? b then mkExt (u64 (x_start e + (a - lpos))) (b - a) :: runs l (lpos + x_len e) lo hi
    else runs l (lpos + x_len e) lo hi
  end.

Definition fold_runs {S} (act : Z -> Z -> S -> option S) (l : list ExfsExtent) (st : option S) : option S :=
  fold_left (fun st e => match st with None => None | Some st => act (x_start e) (x_len e) st end) l st.

Lemma fold_runs_None {S} (act : Z -> Z -> S -> option S) l : fold_runs act l None = None.
Proof. by induction l. Qed.

Lemma walk_old_runs {S} (act : Z -> Z -> S -> option S) l : forall lpos lo hi st, walk_old act l lpos lo hi st = fold_runs act (runs l lpos lo hi) (Some st).
Proof.
  induction l as [|e l IH]; intros lpos lo hi st; [done|]. cbn [walk_old runs]. destruct (negb _); [done|].
  set (a := if lo <? lpos then lpos else lo). set (b := if lpos + x_len e <? hi then lpos + x_len e else hi). cbv zeta. destruct (a <? b); [|apply IH]. cbn [fold_runs fold_left x_start x_len].
  destruct (act _ _ st) as [st'|]; [apply IH|]. change (None = fold_runs act (runs l (lpos + x_len e) lo hi) None). by rewrite fold_runs_None.
Qed.

Lemma take_drop_seqZ a n (i j : Z) : 0 <= i -> i <= j -> j <= n -> drop (Z.to_nat i) (take (Z.to_nat j) (seqZ a n)) = seqZ (a + i) (j - i).
Proof.
  intros Hi Hij Hj. replace n with (i + ((j - i) + (n - j))) by lia. rewrite !seqZ_app by lia.
  rewrite (app_assoc (seqZ a i)), take_app_length' by (rewrite length_app, !length_seqZ; lia).
  rewrite drop_app_length' by (rewrite length_seqZ; lia). done.
Qed.

Lemma runs_spec l : forall lpos lo hi, Forall ext_small l -> lo <= hi ->
  Forall ext_small (runs l lpos lo hi) /\ lenZ (runs l lpos lo hi) <= lenZ l /\
  ext_blocks (runs l lpos lo hi) = drop (Z.to_nat (lo - lpos)) (take (Z.to_nat (hi - lpos)) (ext_blocks l)).
Proof.
  induction l as [|e l IH]; intros lpos lo hi Hl Hlo; cbn [runs].
  { split_and!; [constructor|done|]. change (ext_blocks []) with (@nil Z). rewrite take_nil. symmetry. apply drop_nil. }
  apply Forall_cons in Hl as [(E1 & E2 & E3) Hl]. destruct (Z.ltb_spec lpos hi); cbn [negb].
  2: { split_and!; [constructor|cbn; lia|]. replace (Z.to_nat (hi - lpos)) with 0%nat by lia. rewrite take_0. symmetry. apply drop_nil. }
  destruct (IH (lpos + x_len e) lo hi Hl Hlo) as (I1 & I2 & I3). rewrite ext_blocks_cons.
  set (a := if lo <? lpos then lpos else lo). set (b := if lpos + x_len e <? hi then lpos + x_len e else hi).
  assert (a = Z.max lo lpos) as Ea by (unfold a; zcase). assert (b = Z.min (lpos + x_len e) hi) as Eb by (unfold b; zcase). clearbody a b.
  rewrite take_app, length_seqZ, drop_app, length_take, length_seqZ.
  destruct (Z.ltb_spec a b) as [Hab|Hab].
  - rewrite u64_small by lia. split_and!; [constructor; [cbn; split_and!; cbn; lia|done]|cbn [length]; lia|].
    rewrite ext_blocks_cons. cbn [x_start x_len]. f_equal.
    + replace (Z.to_nat (lo - lpos)) with (Z.to_nat (a - lpos)) by lia.
      destruct (decide (hi - lpos <= x_len e)).
      * rewrite take_drop_seqZ by lia. f_equal. lia.
      * rewrite take_ge by (rewrite length_seqZ; lia). rewrite <- (take_ge (seqZ (x_start e) (x_len e)) (Z.to_nat (x_len e))) by (rewrite length_seqZ; lia).
        rewrite take_drop_seqZ by lia. f_equal. lia.
    + rewrite I3. f_equal; [lia|]. f_equal. lia.
  - split_and!; [done|cbn [length]; lia|]. rewrite I3. rewrite (drop_ge (take _ (seqZ _ _))) by (rewrite length_take, length_seqZ; lia). cbn [app]. f_equal; [lia|]. f_equal. lia.
Qed.

(** * The staged list *)

Lemma stage_add_spec start len st st' : Forall ext_small st -> 0 < len -> 0 <= start -> start + len < 2 ^ 32 -> lenZ st <= 2048 ->
  stage_add start len st = Some st' ->
  Forall ext_small st' /\ lenZ st' <= 2048 /\ ext_blocks (reverse st') = ext_blocks (reverse st) ++ seqZ start len.
Proof.
  intros Hs Hl H0 Hend Hlen. unfold stage_add. change EXFS_MAX_EXT with 2048.
  assert ((if 2048 <=? lenZ st then None else Some (mkExt start (u32 len) :: st)) = Some st' ->
    Forall ext_small st' /\ lenZ st' <= 2048 /\ ext_blocks (reverse st') = ext_blocks (reverse st) ++ seqZ start len) as Hpush.
  { destruct (Z.leb_spec 2048 (lenZ st)); [done|]. intros [= <-]. rewrite u32_small by lia. split_and!.
    - constructor; [split_and!; cbn; lia|done].
    - cbn [length]. lia.
    - by rewrite reverse_cons, ext_blocks_snoc. }
  destruct st as [|last st0]; [done|]. destruct (_ && _) eqn:E; [|done]. intros [= <-]. unbool.
  apply Forall_cons in Hs as [(L1 & L2 & L3) Hs]. rewrite u64_small in * by lia. rewrite !u32_small by (rewrite ?u32_small; lia). split_and!.
  - constructor; [split_and!; cbn; lia|done].
  - done.
  - rewrite !reverse_cons, !ext_blocks_snoc, <- app_assoc. f_equal. cbn [x_start x_len]. rewrite seqZ_app by lia. do 2 f_equal. lia.
Qed.

Lemma fold_stage l : forall st st', Forall ext_small st -> Forall ext_small l -> lenZ st <= 2048 -> fold_runs stage_add l (Some st) = Some st' ->
  Forall ext_small st' /\ lenZ st' <= 2048 /\ ext_blocks (reverse st') = ext_blocks (reverse st) ++ ext_blocks l.
Proof.
  induction l as [|e l IH]; intros st st' Hs Hl Hn; cbn [fold_runs fold_left].
  { intros [= <-]. split_and!; [done|done|]. change (ext_blocks []) with (@nil Z). by rewrite app_nil_r. }
  apply Forall_cons in Hl as [(E1 & E2 & E3) Hl]. destruct (stage_add (x_start e) (x_len e) st) as [st1|] eqn:Ea.
  2: { change (fold_left _ l None) with (fold_runs stage_add l None). by rewrite fold_runs_None. }
  intros H. destruct (stage_add_spec _ _ _ _ Hs E1 E2 E3 Hn Ea) as (S1 & S2 & S3). destruct (IH st1 st' S1 Hl S2 H) as (I1 & I2 & I3).
  split_and!; [done|done|]. by rewrite I3, S3, <- app_assoc.
Qed.

(** The list after the write: the old blocks before [W0], the fresh ones, the
    old blocks after [L1]. *)
Lemma new_list_spec old fresh W0 L1 oldb stage : Forall ext_small old -> Forall ext_small fresh -> 0 <= W0 -> 0 <= L1 -> oldb = lenZ (ext_blocks old) ->
  new_list old fresh W0 L1 oldb = Some stage ->
  Forall ext_small stage /\ lenZ stage <= 2048 /\
  ext_blocks stage = take (Z.to_nat W0) (ext_blocks old) ++ ext_blocks fresh ++ drop (Z.to_nat (L1 + 1)) (ext_blocks old).
Proof.
  intros Ho Hf HW HL Eb. unfold new_list, stage_all. rewrite walk_old_runs. change (fold_left _ fresh (Some ?st)) with (fold_runs stage_add fresh (Some st)).
  destruct (runs_spec old 0 0 W0 Ho HW) as (R1 & _ & R2). rewrite !Z.sub_0_r in R2. cbn [Z.to_nat drop] in R2.
  destruct (fold_runs stage_add (runs old 0 0 W0) (Some [])) as [st1|] eqn:E1; [|done].
  destruct (fold_stage _ _ _ ltac:(constructor) R1 ltac:(done) E1) as (S1 & S2 & S3). cbn [reverse rev_append app] in S3.
  destruct (fold_runs stage_add fresh (Some st1)) as [st2|] eqn:E2; [|done].
  destruct (fold_stage _ _ _ S1 Hf S2 E2) as (T1 & T2 & T3). rewrite walk_old_runs.
  destruct (fold_runs stage_add (runs old 0 (L1 + 1) oldb) (Some st2)) as [st3|] eqn:E3; [|done]. intros [= <-].
  destruct (decide (L1 + 1 <= oldb)).
  - destruct (runs_spec old 0 (L1 + 1) oldb Ho ltac:(done)) as (Q1 & _ & Q2). destruct (fold_stage _ _ _ T1 Q1 T2 E3) as (U1 & U2 & U3).
    split_and!; [by apply Forall_reverse|by rewrite length_reverse|]. rewrite U3, T3, S3, R2, Q2, !Z.sub_0_r, <- app_assoc.
    rewrite (take_ge (ext_blocks old) (Z.to_nat oldb)) by lia. done.
  - assert (runs old 0 (L1 + 1) oldb = []) as En.
    { assert (forall l lpos, Forall ext_small l -> oldb < L1 + 1 -> runs l lpos (L1 + 1) oldb = []) as Hr; [|by apply Hr; [|lia]].
      clear. induction l as [|e l IH]; intros lpos Hl Hlt; [done|]. cbn [runs]. apply Forall_cons in Hl as [_ Hl].
      destruct (Z.ltb_spec lpos oldb); cbn [negb]; [|done]. rewrite (proj2 (Z.ltb_ge _ _)); [by apply IH|]. zcase. }
    rewrite En in E3. injection E3 as <-. split_and!; [by apply Forall_reverse|by rewrite length_reverse|].
    rewrite T3, S3, R2. rewrite (drop_ge (ext_blocks old)) by lia. by rewrite app_nil_r.
Qed.

Section WriteAt.
Context {D : Type} (d : BlkDev D) `{!BlockDevice d} `{!FailStop d}.
Implicit Types (V : Vol D) (s : D) (f g : ExfsFile).

(** * The extents of a file *)

Lemma blocks_small V s l : alloc_ok d V s -> Forall ext_ok l -> (forall b, b ∈ ext_blocks l -> 0 <= b < v_total V) -> Forall ext_small l.
Proof.
  intros Ha Hl Hb. apply Forall_forall. intros e He. pose proof (proj1 (Forall_forall _ _) Hl e He) as Hx. unfold ext_ok in Hx.
  assert (forall b, x_start e <= b < x_start e + x_len e -> 0 <= b < v_total V) as Hr by (intros b Hb'; apply Hb, elem_of_ext_blocks; by exists e).
  pose proof (Hr (x_start e) ltac:(lia)). pose proof (Hr (x_start e + x_len e - 1) ltac:(lia)).
  pose proof (gg_total _ _ (go_geo _ _ _ (ao_gm _ _ _ Ha))) as Ht. rewrite (ao_total _ _ _ Ha) in Ht. unfold ext_small. lia.
Qed.

Lemma fext_small V s i f : fs_ok d V s -> in_use V i f -> Forall ext_small (fext V f).
Proof.
  intros Hf Hi. pose proof (fo_file _ _ _ Hf i f Hi) as Hk. apply (blocks_small V s); [apply Hf|apply Hk|]. intros b Hb.
  destruct (owned_block d V s b Hf (data_owned V i f b Hi Hb)) as (_ & ? & _). lia.
Qed.

Lemma total_len_spec l : Forall ext_small l -> lenZ l <= 2048 -> total_len l = lenZ (ext_blocks l).
Proof.
  intros Hl Hn. unfold total_len. assert (forall l a, Forall ext_small l -> 0 <= a -> a + 2 ^ 32 * lenZ l <= 2 ^ 63 ->
    fold_left (fun n e => u64 (n + x_len e)) l a = a + lenZ (ext_blocks l)) as H; [|rewrite H by (done || lia); lia].
  clear. induction l as [|e l IH]; intros a Hl Ha Hb; cbn [fold_left]; [cbn; lia|]. cbn [length] in Hb.
  apply Forall_cons in Hl as [(E1 & E2 & E3) Hl]. rewrite u64_small by lia. rewrite IH by (done || lia).
  rewrite length_ext_blocks_cons by (unfold ext_ok; lia). lia.
Qed.

Lemma old_phys_spec l : forall lpos lb, Forall ext_small l -> lpos <= lb < lpos + lenZ (ext_blocks l) ->
  old_phys l lpos lb = Some (nthZ (ext_blocks l) (lb - lpos)).
Proof.
  induction l as [|e l IH]; intros lpos lb Hl Hb; [cbn in Hb; lia|]. apply Forall_cons in Hl as [(E1 & E2 & E3) Hl].
  rewrite length_ext_blocks_cons in Hb by (unfold ext_ok; lia). cbn [old_phys]. rewrite ext_blocks_cons, nthZ_app, length_seqZ by lia.
  destruct (Z.ltb_spec lb (lpos + x_len e)).
  - rewrite (proj2 (Z.ltb_lt _ _)) by lia. f_equal. rewrite u64_small by lia. unfold nthZ. rewrite lookup_seqZ_lt by lia. cbn. lia.
  - rewrite (proj2 (Z.ltb_ge _ _)) by lia. rewrite IH by (done || lia). do 2 f_equal. lia.
Qed.

(** * Bytes put into a sequence *)

Lemma nthZ_drop l n k : 0 <= n -> 0 <= k -> nthZ (drop (Z.to_nat n) l) k = nthZ l (n + k).
Proof. intros Hn Hk. unfold nthZ. rewrite lookup_drop. do 2 f_equal. lia. Qed.

(** The bytes [c] with [buf] at [off]; a gap before [off] reads as zero. *)
Definition patched (c : list Z) (off : Z) (buf : list Z) : list Z :=
  if bool_decide (buf = []) then c else
  take (Z.to_nat off) c ++ replicate (Z.to_nat (off - lenZ c)) 0 ++ buf ++ drop (Z.to_nat (off + lenZ buf)) c.

Lemma length_patched c off buf : 0 <= off -> 0 < lenZ buf -> lenZ (patched c off buf) = Z.max (lenZ c) (off + lenZ buf).
Proof.
  intros Ho Hb. unfold patched. rewrite bool_decide_eq_false_2 by (by intros ->). rewrite !length_app, length_take, length_replicate, length_drop. lia.
Qed.

Lemma nthZ_patched c off buf k : 0 <= off -> 0 < lenZ buf -> 0 <= k ->
  nthZ (patched c off buf) k = if (off <=? k) && (k <? off + lenZ buf) then nthZ buf (k - off) else nthZ c k.
Proof.
  intros Ho Hb Hk. unfold patched. rewrite bool_decide_eq_false_2 by (by intros ->).
  rewrite nthZ_app, length_take by done. destruct (Z.ltb_spec k (Z.of_nat (Z.to_nat off `min` length c))).
  { rewrite (proj2 (Z.leb_gt off k)) by lia. cbn [andb]. apply nthZ_take_lt. lia. }
  rewrite nthZ_app, length_replicate by lia. destruct (Z.ltb_spec (k - Z.of_nat (Z.to_nat off `min` length c)) (Z.of_nat (Z.to_nat (off - lenZ c)))).
  { rewrite (proj2 (Z.leb_gt off k)) by lia. cbn [andb]. rewrite nthZ_replicate. symmetry. apply nthZ_over. lia. }
  rewrite nthZ_app by lia. rewrite (proj2 (Z.leb_le off k)) by lia. cbn [andb].
  destruct (Z.ltb_spec k (off + lenZ buf)).
  - rewrite (proj2 (Z.ltb_lt _ _)) by lia. f_equal. lia.
  - rewrite (proj2 (Z.ltb_ge _ _)) by lia. rewrite nthZ_drop by lia. f_equal. lia.
Qed.

(** * Merging *)

(** Byte [p] of the file after [buf] is written at [off]. *)
Definition at_byte s (B : list Z) (size off : Z) (buf : list Z) (p : Z) : Z :=
  if (off <=? p) && (p <? off + lenZ buf) then nthZ buf (p - off) else if p <? size then nthZ (fbytes d s B) p else 0.

Definition at_block s B size off buf (lb : Z) : list Z := (fun j => at_byte s B size off buf (4096 * lb + j)) <$> seqZ 0 4096.

Lemma length_at_block s B size off buf lb : length (at_block s B size off buf lb) = 4096%nat.
Proof. unfold at_block. by rewrite length_fmap, length_seqZ. Qed.

Lemma fbytes_ok s B : bd_ok s -> bytes_ok (fbytes d s B).
Proof.
  intros Hs. unfold fbytes, bytes_ok. apply Forall_concat, Forall_fmap, Forall_forall. intros b _. by apply block_bytes_ok.
Qed.

Lemma at_block_ok s B size off buf lb : bd_ok s -> bytes_ok buf -> bytes_ok (at_block s B size off buf lb).
Proof.
  intros Hs Hb. apply bytes_ok_nth. rewrite length_at_block. intros o Ho. unfold at_block. rewrite nthZ_map_seqZ by lia. unfold at_byte.
  destruct (_ && _); [by apply nthZ_range|]. destruct (_ <? _); [apply nthZ_range; by apply fbytes_ok|lia].
Qed.

Lemma blk_got_frozen V b buf s : v_dev V = Some d -> bd_ok s -> exists rc p s', blk_got V b buf s = (rc, p, s') /\ bd_ok s' /\ bd_dead s' = bd_dead s /\ same_disk d s s'.
Proof.
  intros Hd Hs. unfold blk_got. rewrite Hd. destruct (block_read_frozen d s b (v_spb V) buf Hs) as (rc & p & s' & -> & H). eauto.
Qed.

Lemma merge_loop_frozen bl V1 old size oldb off len buf lb s : v_dev V1 = Some d -> bd_ok s -> bd_dead s = true ->
  let '(_, s') := merge_loop bl V1 old size oldb off len buf lb s in frozen d s s'.
Proof.
  intros Hd Hs Hx. destruct bl as [|b bl]; cbn [merge_loop]; [done|].
  assert (exists p s1, merge_page V1 old size oldb off len buf lb s = (p, s1) /\ frozen d s s1) as (p & s1 & -> & Hz).
  { unfold merge_page. destruct (negb _ && _); [|by eexists _, _]. destruct (old_phys old 0 lb) as [op|]; [|by eexists _, _].
    destruct (blk_got_frozen V1 op (replicate (Z.to_nat EXFS_BLOCK) 0) s Hd Hs) as (rc & q & s1 & -> & H1 & H2 & H3).
    destruct (negb _); eexists _, _; (split; [done|]); split_and!; (done || congruence). }
  pose proof Hz as (Hs1 & Hx1 & _). destruct p as [p|]; [|done].
  destruct (blk_put_frozen d V1 b p s1 Hd Hs1 Hx1) as (rc & s2 & -> & Hrc & Hz2). rewrite (proj2 (Z.eqb_neq rc EXFS_OK) Hrc). cbn [negb].
  by apply (frozen_trans d s s1).
Qed.

Section Merge.
Context V s i f (off : Z) (buf : list Z) (Hf : fs_ok d V s) (Hs0 : bd_ok s) (Hi : in_use V i f) (Hoff : 0 <= off) (Hbuf : bytes_ok buf).
Abbreviation B := (data_blocks V f).
Abbreviation page lb := (at_block s B (f_size f) off buf lb).

Lemma merge_page_spec V1 s1 X lb : holds d V s V1 s1 X -> bd_ok s1 -> 0 <= lb ->
  exists s2, merge_page V1 (fext V f) (f_size f) (lenZ B) off (lenZ buf) buf lb s1 = (Some (page lb), s2) /\
    bd_ok s2 /\ bd_dead s2 = bd_dead s1 /\ same_disk d s1 s2.
Proof.
  intros H Hs Hlb. unfold merge_page. change EXFS_BLOCK with 4096. pose proof (fk_size _ _ _ _ (fo_file _ _ _ Hf i f Hi)) as Hsz.
  assert (forall p : list Z, ((off <=? lb * 4096) && (lb * 4096 + 4096 <=? off + lenZ buf) = true \/
      forall j, 0 <= j < 4096 -> nthZ p j = if 4096 * lb + j <? f_size f then nthZ (fbytes d s B) (4096 * lb + j) else 0) ->
    (fun j => if ((if lb * 4096 <? off then off else lb * 4096) <=? lb * 4096 + j) &&
      (lb * 4096 + j <? (if off + lenZ buf <? lb * 4096 + 4096 then off + lenZ buf else lb * 4096 + 4096))
      then nthZ buf (lb * 4096 + j - off) else nthZ p j) <$> seqZ 0 4096 = page lb) as Hlay.
  { intros p Hp. unfold at_block. apply list_fmap_ext. intros k j [-> Hk]%lookup_seqZ. unfold at_byte. rewrite Z.add_0_l.
    replace (((if lb * 4096 <? off then off else lb * 4096) <=? lb * 4096 + Z.of_nat k) &&
      (lb * 4096 + Z.of_nat k <? (if off + lenZ buf <? lb * 4096 + 4096 then off + lenZ buf else lb * 4096 + 4096)))
      with ((off <=? 4096 * lb + Z.of_nat k) && (4096 * lb + Z.of_nat k <? off + lenZ buf)).
    - destruct ((off <=? 4096 * lb + Z.of_nat k) && _) eqn:E; [f_equal; lia|]. destruct Hp as [Hw|Hp]; [exfalso; lia|]. apply Hp. lia.
    - destruct (Z.ltb_spec (lb * 4096) off), (Z.ltb_spec (off + lenZ buf) (lb * 4096 + 4096)); lia. }
  destruct (negb _ && _) eqn:Ew.
  - apply andb_prop in Ew as [_ Hlt]. apply Z.ltb_lt in Hlt. rewrite old_phys_spec; [|by apply (fext_small V s i)|done]. rewrite Z.sub_0_r. fold B.
    set (op := nthZ B lb). assert (op ∈ B) as Hop.
    { unfold op, nthZ. destruct (lookup_lt_is_Some_2 B (Z.to_nat lb)) as [b Hb]; [lia|]. rewrite Hb. by eapply list_elem_of_lookup_2. }
    destruct (owned_block d V s op Hf (data_owned V i f op Hi Hop)) as (Hon & Hr & Hnp & Hnf).
    destruct (holds_dev d _ _ _ _ _ H) as (Hd & _ & _).
    destruct (blk_got_live d V1 op (replicate (Z.to_nat 4096) 0) s1 Hd (ao_spb _ _ _ (ho_ok _ _ _ _ _ _ H)) Hon) as (s2 & -> & Hs2 & Hx2 & Hsame);
      [apply length_replicate|apply bytes_ok_zeros|done|]. cbn [negb Z.eqb EXFS_OK]. exists s2. split; [|done]. do 2 f_equal. apply Hlay.
    right. intros j Hj. rewrite nthZ_map_seqZ by lia. rewrite Z.add_0_l, (ho_safe _ _ _ _ _ _ H op) by (done || lia).
    rewrite nthZ_fbytes by lia. replace (4096 * lb + j) with (j + lb * 4096) by lia. rewrite Z.div_add, Z_mod_plus_full, Z.div_small, Z.mod_small by lia.
    rewrite Z.add_0_l. fold op. destruct (Z.ltb_spec (lb * 4096) (f_size f)); zcase; done.
  - exists s1. split; [|done]. do 2 f_equal. apply Hlay.
    destruct (_ && (_ <=? off + lenZ buf)); [by left|right]. cbn [negb andb] in Ew. apply Z.ltb_ge in Ew. intros j Hj.
    rewrite nthZ_replicate. by rewrite (proj2 (Z.ltb_ge _ _)) by lia.
Qed.

Lemma merge_loop_spec V1 X : forall bl lb s1, holds d V s V1 s1 X -> NoDup bl -> (forall b, b ∈ bl -> b ∈ X) -> 0 <= lb -> bd_ok s1 -> bd_dead s1 = false ->
  let '(ok, s2) := merge_loop bl V1 (fext V f) (f_size f) (lenZ B) off (lenZ buf) buf lb s1 in
  bd_ok s2 /\ safe d V s s2 /\
  (bd_dead s2 = false -> ok = true /\ holds d V s V1 s2 X /\ (forall b, 0 <= b -> b ∉ bl -> block d s2 b = block d s1 b) /\
    forall j b, bl !! j = Some b -> block d s2 b = page (lb + Z.of_nat j)).
Proof.
  induction bl as [|b0 bl IH]; intros lb s1 H Hnd Hin Hlb Hs Hx; cbn [merge_loop].
  { split_and!; [done|apply H|]. by intros _. }
  destruct (merge_page_spec V1 s1 X lb H Hs Hlb) as (sr & -> & Hsr & Hxr & Hsame). rewrite Hx in Hxr.
  assert (holds d V s V1 sr X) as Hr by (apply (holds_write d _ _ _ _ _ H sr b0 Hs (Hin b0 ltac:(left))); intros b' Hb' _; by apply Hsame).
  apply NoDup_cons in Hnd as [Hb0 Hnd]. destruct (holds_dev d _ _ _ _ _ Hr) as (Hd & _ & _).
  destruct (holds_data d _ _ _ _ _ Hr b0 (Hin b0 ltac:(left))) as (_ & _ & Hon & Hrng).
  destruct (blk_put_live d V1 b0 (page lb) sr Hd (ao_spb _ _ _ (ho_ok _ _ _ _ _ _ Hr)) Hon (length_at_block _ _ _ _ _ _) (at_block_ok _ _ _ _ _ _ Hs0 Hbuf) Hsr Hxr)
    as (rc & s2 & -> & Hs2 & Hfr & Hlv & Hw).
  pose proof (holds_write d _ _ _ _ _ Hr s2 b0 Hsr (Hin b0 ltac:(left)) Hfr) as H2.
  destruct (bd_dead s2) eqn:Ed.
  { destruct (negb _); [split_and!; [done|apply H2|congruence]|].
    pose proof (merge_loop_frozen bl V1 (fext V f) (f_size f) (lenZ B) off (lenZ buf) buf (lb + 1) s2 Hd Hs2 Ed) as Hz.
    destruct (merge_loop bl V1 _ _ _ _ _ _ _ s2) as [ok s3]. destruct Hz as (F1 & F2 & F3). split_and!; [done| |congruence].
    apply (safe_same d V s s2); [apply H2|done]. }
  rewrite (Hlv eq_refl), Z.eqb_refl. cbn [negb].
  specialize (IH (lb + 1) s2 H2 Hnd ltac:(intros b Hb; apply Hin; by right) ltac:(lia) Hs2 Ed).
  destruct (merge_loop bl V1 _ _ _ _ _ _ (lb + 1) s2) as [ok s3]. destruct IH as (I1 & I2 & I3). split_and!; [done|done|].
  intros Ed3. destruct (I3 Ed3) as (-> & I4 & I5 & I6). split_and!; [done|done| |].
  - intros b Hb [Hne Hni]%not_elem_of_cons. rewrite I5, Hfr by done. by apply Hsame.
  - intros [|j] b Hj; cbn in Hj.
    + injection Hj as ->. rewrite I5; [|lia|done]. rewrite (Hw (Hlv eq_refl)). f_equal. lia.
    + rewrite (I6 j b Hj). f_equal. lia.
Qed.

(** The bytes of the new list of blocks. *)
Lemma new_bytes s2 X W0 L1 : W0 = Z.min (off / 4096) (lenZ B) -> L1 = (off + lenZ buf - 1) / 4096 -> 0 < lenZ buf -> lenZ X = L1 - W0 + 1 ->
  (forall b, b ∈ B -> block d s2 b = block d s b) -> (forall j b, X !! j = Some b -> block d s2 b = page (W0 + Z.of_nat j)) ->
  let Bn := take (Z.to_nat W0) B ++ X ++ drop (Z.to_nat (L1 + 1)) B in
  lenZ Bn = Z.max (L1 + 1) (lenZ B) /\ forall k, 0 <= k < 4096 * lenZ Bn -> nthZ (fbytes d s2 Bn) k = at_byte s B (f_size f) off buf k.
Proof.
  intros EW EL Hlen HX Hold Hnew Bn. pose proof (fo_file _ _ _ Hf i f Hi) as Hk.
  pose proof (Z.div_mod off 4096 ltac:(lia)). pose proof (Z.mod_pos_bound off 4096 ltac:(lia)).
  pose proof (Z.div_mod (off + lenZ buf - 1) 4096 ltac:(lia)). pose proof (Z.mod_pos_bound (off + lenZ buf - 1) 4096 ltac:(lia)). rewrite <- EL in *.
  assert (0 <= off / 4096) by (apply Z.div_pos; lia).
  assert (lenZ Bn = Z.max (L1 + 1) (lenZ B)) as Hn by (unfold Bn; rewrite !length_app, length_take, length_drop; lia).
  split; [done|]. intros k Hk'. rewrite nthZ_fbytes by done.
  pose proof (Z.div_mod k 4096 ltac:(lia)) as Hkm. pose proof (Z.mod_pos_bound k 4096 ltac:(lia)) as Hkb. set (q := k / 4096) in *. set (r := k mod 4096) in *. clearbody q r.
  assert (q < W0 \/ L1 + 1 <= q -> q < lenZ B -> nthZ (block d s2 (nthZ B q)) r = at_byte s B (f_size f) off buf k) as Hkeep.
  { intros Hq HqB. rewrite Hold by (unfold nthZ; destruct (lookup_lt_is_Some_2 B (Z.to_nat q)) as [b Hb]; [lia|]; rewrite Hb; by eapply list_elem_of_lookup_2).
    assert (nthZ (fbytes d s B) k = nthZ (block d s (nthZ B q)) r) as <-.
    { rewrite nthZ_fbytes by lia. replace k with (r + q * 4096) by lia. by rewrite Z.div_add, Z_mod_plus_full, Z.div_small, Z.mod_small by lia. }
    unfold at_byte. destruct (_ && _) eqn:E; [exfalso; lia|]. destruct (Z.ltb_spec k (f_size f)); [done|]. apply (fk_tail _ _ _ _ Hk). lia. }
  unfold Bn. rewrite nthZ_app, length_take by lia. destruct (Z.ltb_spec q (Z.of_nat (Z.to_nat W0 `min` length B))).
  { rewrite nthZ_take_lt by lia. apply Hkeep; lia. }
  rewrite nthZ_app by lia. destruct (Z.ltb_spec (q - Z.of_nat (Z.to_nat W0 `min` length B)) (lenZ X)) as [Hq|Hq].
  - destruct (lookup_lt_is_Some_2 X (Z.to_nat (q - W0))) as [b Hb]; [lia|]. unfold nthZ at 2.
    replace (q - Z.of_nat (Z.to_nat W0 `min` length B)) with (q - W0) by lia. rewrite Hb. cbn [default from_option id]. rewrite (Hnew _ _ Hb). unfold at_block. rewrite nthZ_map_seqZ by lia.
    f_equal. lia.
  - rewrite nthZ_drop by lia. replace (L1 + 1 + _) with q by lia. apply Hkeep; lia.
Qed.
End Merge.

(** * The last step *)

Lemma fold_defer l : forall V, Forall ext_small l -> lenZ (v_defer V) + lenZ l <= 8192 ->
  fold_runs defer_act l (Some V) = Some (set_defer V (v_defer V ++ l)).
Proof.
  induction l as [|e l IH]; intros V Hs Hl; cbn [fold_runs fold_left]; [rewrite app_nil_r; by destruct V|].
  apply Forall_cons in Hs as [(E1 & E2 & E3) Hs]. cbn [length] in Hl. unfold defer_act at 2. rewrite u32_small by lia.
  unfold defer_push, ndefer. change EXFS_DEFER_MAX with 8192. rewrite (proj2 (Z.leb_gt 8192 _)) by lia. rewrite Z.eqb_refl.
  change (fold_left _ l ?W) with (fold_runs defer_act l W). rewrite IH; [|done|cbn [set_defer v_defer]; rewrite length_app; cbn [length]; lia].
  cbn [set_defer v_defer]. rewrite <- app_assoc. by destruct V, e.
Qed.

(** Blocks in three parts, the middle one replaced. *)
Lemma rehome_lists (A M C Ch X Df : list Z) : NoDup ((A ++ M ++ C) ++ Ch) -> NoDup Df -> NoDup X ->
  (forall b, b ∈ X -> b ∉ (A ++ M ++ C) ++ Ch) -> (forall b, b ∈ (A ++ M ++ C) ++ Ch -> b ∉ Df) ->
  NoDup (A ++ X ++ C) /\ NoDup (Df ++ M ++ Ch) /\
  (forall b, b ∈ Df ++ M ++ Ch <-> b ∈ Df \/ (b ∈ (A ++ M ++ C) ++ Ch /\ b ∉ A ++ X ++ C)).
Proof.
  rewrite !NoDup_app. intros ((HA & HA' & HM & HM' & HC) & HCh' & HCh) HDf HX HXo HDo.
  split_and!; try done.
  - intros b Hb. rewrite elem_of_app. intros [Hx|Hx]; [apply (HXo b Hx); rewrite !elem_of_app; tauto|apply (HA' b Hb); rewrite elem_of_app; tauto].
  - intros b Hb Hc. apply (HXo b Hb). rewrite !elem_of_app. tauto.
  - intros b Hb Hc. apply (HDo b); [|done]. rewrite !elem_of_app in *. tauto.
  - intros b Hb. apply HCh'. rewrite !elem_of_app. tauto.
  - intros b. rewrite !elem_of_app. specialize (HA' b). specialize (HM' b). specialize (HCh' b). specialize (HXo b). rewrite !elem_of_app in *. tauto.
Qed.

Lemma three_parts (B : list Z) (W M L : Z) : 0 <= W -> W <= M -> M = Z.min L (lenZ B) ->
  B = take (Z.to_nat W) B ++ drop (Z.to_nat W) (take (Z.to_nat M) B) ++ drop (Z.to_nat L) B.
Proof.
  intros H0 H1 EM. assert (drop (Z.to_nat L) B = drop (Z.to_nat M) B) as ->.
  { destruct (decide (L <= lenZ B)); [f_equal; lia|]. rewrite !drop_ge by lia. done. }
  rewrite app_assoc. assert (take (Z.to_nat W) B = take (Z.to_nat W) (take (Z.to_nat M) B)) as ->; [rewrite take_take; f_equal; lia|].
  by rewrite !take_drop.
Qed.

(** Deferring, the new slice and the new record. *)
Definition at_last V (i : nat) (roff rcap : Z) (stage : list ExfsExtent) (W0 M fin : Z) : Vol D :=
  let f := file V i in
  let V := default V (walk_old defer_act (fext V f) 0 W0 M V) in
  let V := defer_all V (chain_exts f) in
  let V := pool_release V (f_ext_off f) (f_ext_cap f) in
  let V := pool_store V roff stage in
  let size := if f_size f <? fin then fin else f_size f in
  set_dirty (put_file V i (mkFile (f_used f) (f_type f) size (f_name f) (lenZ stage) roff rcap 0 (f_chain f) true)) true.

Lemma at_last_eq V s i f roff rcap stage W0 M fin : fs_ok d V s -> in_use V i f -> spare V roff rcap -> lenZ stage <= rcap -> W0 <= M ->
  ndefer V + f_n f + f_nchain f <= 8192 ->
  exists P U, length U = 2048%nat /\
    (forall k, 0 <= k -> bit_of U k = if (f_ext_off f <=? k) && (k <? f_ext_off f + f_ext_cap f) then false else pool_is_used V k) /\
    (fun k => P (roff + k)) <$> seqZ 0 (lenZ stage) = stage /\
    (forall x, ~ (roff <= x < roff + rcap) -> P x = v_pool V x) /\
    at_last V i roff rcap stage W0 M fin = with_file V i
      (mkFile (f_used f) (f_type f) (if f_size f <? fin then fin else f_size f) (f_name f) (lenZ stage) roff rcap 0 (f_chain f) true) P U
      (v_defer V ++ runs (fext V f) 0 W0 M ++ chain_exts f).
Proof.
  intros Hf Hi Hsp Hcap HW Hdf. destruct (reslice d V s i f roff rcap stage Hf Hi Hsp Hcap) as (P & U & HU1 & HU2 & Est & HPf & HPo).
  exists P, U. split_and!; try done. unfold at_last. rewrite (file_lookup V i f (proj1 Hi)). cbv zeta.
  pose proof (fo_file _ _ _ Hf i f Hi) as Hk. destruct (fk_chain _ _ _ _ Hk) as [Hc1 Hc2]. pose proof (fk_n _ _ _ _ Hk) as Hn.
  pose proof (length_fext V f ltac:(lia)) as Hlx. pose proof (length_chain_exts f Hc1 Hc2) as Hlc. unfold ndefer in Hdf.
  destruct (runs_spec (fext V f) 0 W0 M (fext_small V s i f Hf Hi) HW) as (R1 & R2 & _).
  rewrite walk_old_runs, fold_defer by (done || lia). cbn [default from_option id].
  rewrite defer_all_fit by (cbn [set_defer v_defer]; rewrite length_app; lia). cbn [set_defer v_defer]. rewrite <- app_assoc.
  change (set_defer (set_defer V _) ?DL) with (set_defer V DL). by rewrite Est.
Qed.

(** The write at its last step: fresh blocks held and merged, a slice reserved. *)
Lemma write_at_done V s V1 V2 s2 i f fresh stage roff rcap off buf W0 L1 : fs_ok d V s -> bd_ok s -> holds d V s V1 s2 (ext_blocks fresh) ->
  pool_ok V2 -> relocated V1 V2 -> spare V2 roff rcap -> fits (lenZ stage) rcap -> in_use V i f -> f_type f = EXFS_TYPE_FILE ->
  ndefer V + f_n f + f_nchain f <= 8192 -> 0 <= off -> 0 < lenZ buf ->
  W0 = Z.min (off / 4096) (lenZ (data_blocks V f)) -> L1 = (off + lenZ buf - 1) / 4096 -> lenZ (ext_blocks fresh) = L1 - W0 + 1 ->
  Forall ext_small stage -> lenZ stage <= 2048 ->
  ext_blocks stage = take (Z.to_nat W0) (data_blocks V f) ++ ext_blocks fresh ++ drop (Z.to_nat (L1 + 1)) (data_blocks V f) ->
  (forall j b, ext_blocks fresh !! j = Some b -> block d s2 b = at_block s (data_blocks V f) (f_size f) off buf (W0 + Z.of_nat j)) ->
  written d V s i (cname f) (patched (content d V s f) off buf)
    (at_last V2 i roff rcap stage W0 (Z.min (L1 + 1) (lenZ (data_blocks V f))) (off + lenZ buf)) s2.
Proof.
  intros Hf Hbs H Hp Hr Hsp Hcap Hi Ht Hdf Hoff Hlen EW EL HX Hst Hsl Ebl Hdata.
  destruct (rp_moved d V s V1 s2 V2 i f _ Hf H Hp Hr Hi) as (o & Hi2 & F2 & Xf2 & D2 & _ & O2 & X2). set (f2 := moved f o) in *.
  set (B := data_blocks V f) in *. set (M := Z.min (L1 + 1) (lenZ B)).
  assert (0 <= off / 4096) by (apply Z.div_pos; lia). assert (off / 4096 <= L1) by (rewrite EL; apply Z.div_le_mono; lia).
  assert (W0 <= M) as HWM by (unfold M; lia). assert (ndefer V2 = ndefer V) as Nd by (unfold ndefer; by rewrite D2).
  destruct (at_last_eq V2 s2 i f2 roff rcap stage W0 M (off + lenZ buf) F2 Hi2 Hsp (proj1 Hcap) HWM ltac:(rewrite Nd; exact Hdf)) as (P & U & HU1 & HU2 & HPf & HPo & ->).
  set (g := mkFile _ _ _ _ _ _ _ _ _ _). set (DL := _ ++ _ ++ _). set (V' := with_file V2 i g P U DL).
  assert (fext V' g = stage) as Xg by exact HPf. set (Bn := take (Z.to_nat W0) B ++ ext_blocks fresh ++ drop (Z.to_nat (L1 + 1)) B) in *.
  assert (data_blocks V' g = Bn) as Dg by (unfold data_blocks; by rewrite Xg).
  assert (file_blocks V' g = Bn) as Bg by (unfold file_blocks; rewrite Dg; apply app_nil_r).
  assert (data_blocks V2 f2 = B) as D2B by (unfold data_blocks; by rewrite Xf2).
  pose proof (three_parts B W0 M (L1 + 1) ltac:(lia) HWM eq_refl) as E3. set (Mid := drop (Z.to_nat W0) (take (Z.to_nat M) B)) in *.
  destruct (runs_spec (fext V2 f2) 0 W0 M (fext_small V2 s2 i f2 F2 Hi2) HWM) as (R1 & _ & R2). rewrite !Z.sub_0_r in R2. fold (data_blocks V2 f2) in R2. rewrite D2B in R2. fold Mid in R2.
  assert (defer_blocks V' = defer_blocks V2 ++ Mid ++ chain_blocks f2) as Edf.
  { change (defer_blocks V') with (ext_blocks DL). unfold DL. rewrite !ext_blocks_app, chain_exts_blocks, R2. done. }
  pose proof (fo_file _ _ _ Hf i f Hi) as Hkf. pose proof (fo_file _ _ _ F2 i f2 Hi2) as Hk2. destruct (fo_defer _ _ _ F2) as [Hd1 Hd2].
  assert (file_blocks V2 f2 = (take (Z.to_nat W0) B ++ Mid ++ drop (Z.to_nat (L1 + 1)) B) ++ chain_blocks f2) as E2 by (unfold file_blocks; rewrite D2B; by rewrite <- E3).
  destruct (rehome_lists (take (Z.to_nat W0) B) Mid (drop (Z.to_nat (L1 + 1)) B) (chain_blocks f2) (ext_blocks fresh) (defer_blocks V2)) as (N1 & N2 & N3);
    [rewrite <- E2; apply Hk2|done|apply H| | |].
  { rewrite <- E2. intros b Hb Hb'. apply (X2 b Hb). left. by exists i, f2. }
  { rewrite <- E2. intros b Hb. by apply (fo_dapart _ _ _ F2 i f2 b). }
  rewrite <- E2, <- Edf in N3. rewrite <- Edf in N2. fold Bn in N1, N3.
  destruct (new_bytes V s i f off buf Hf Hi Hoff s2 (ext_blocks fresh) W0 L1 EW EL Hlen HX) as [Hbn Hby]; [|done|].
  { intros b Hb. destruct (owned_block d V s b Hf (data_owned V i f b Hi Hb)) as (_ & ? & Hnp & Hnf). apply (ho_safe _ _ _ _ _ _ H); [lia|done|done]. }
  fold B Bn in Hbn, Hby. pose proof (fk_size _ _ _ _ Hkf) as Hsz. fold B in Hsz.
  pose proof (Z.div_mod (off + lenZ buf - 1) 4096 ltac:(lia)). pose proof (Z.mod_pos_bound (off + lenZ buf - 1) 4096 ltac:(lia)). rewrite <- EL in *.
  assert (f_size g = Z.max (f_size f) (off + lenZ buf)) as Esz by (change (f_size g) with (if f_size f <? off + lenZ buf then off + lenZ buf else f_size f); zcase).
  assert (forall k, 0 <= k < f_size g -> nthZ (fbytes d s2 Bn) k = nthZ (patched (content d V s f) off buf) k) as Hpt.
  { intros k Hk. rewrite Hby by lia. rewrite nthZ_patched by lia. unfold at_byte. destruct (_ && _); [done|].
    destruct (Z.ltb_spec k (f_size f)); [by rewrite nthZ_content by lia|]. symmetry. apply nthZ_over. rewrite (length_content d V s f Hkf). lia. }
  apply (rp_written d V s V1 s2 V2 i f (ext_blocks fresh) Hf H Hp Hr Hi o); fold V'; fold f2; try done.
  - cbn. destruct Hcap. lia.
  - split; rewrite ?Dg, ?Xg, ?Bg, ?Esz; cbn [g f_n f_nchain f_chain]; [lia| | |lia| |done].
    + eapply Forall_impl; [exact Hst|]. intros e (? & ? & ?). unfold ext_ok. lia.
    + split; [lia|]. apply (fk_chain _ _ _ _ Hkf).
    + intros k Hk. rewrite Hby by lia. unfold at_byte. destruct (_ && _) eqn:E; [exfalso; lia|]. by rewrite (proj2 (Z.ltb_ge k (f_size f))) by lia.
  - split; rewrite ?Bg.
    + intros b Hb. unfold Bn in Hb. rewrite !elem_of_app in Hb. destruct Hb as [Hb|[Hb|Hb]]; [right|by left|right]; rewrite E2, !elem_of_app; tauto.
    + intros b Hb. destruct (decide (b ∈ Bn)); [by left|right]. apply N3. by right.
    + done.
    + split; [|done]. change (v_defer V') with DL. unfold DL. rewrite !Forall_app. split_and!; [done| |apply chain_exts_ok].
      eapply Forall_impl; [exact R1|]. intros e (? & ? & ?). unfold ext_ok. lia.
  - unfold content at 1. rewrite Dg. pose proof (length_fbytes d s2 Bn) as Hlb. pose proof (length_patched (content d V s f) off buf Hoff Hlen) as Hlp.
    rewrite (length_content d V s f Hkf) in Hlp. apply nthZ_ext; rewrite length_take; [lia|]. intros k Hk. rewrite nthZ_take_lt by lia. apply Hpt. lia.
Qed.

(** * [exfs_write_at] *)

(** The part of [exfs_write_at] after the blocks were taken. *)
Definition write_at_tail V (i : nat) (fresh : list ExfsExtent) (off : Z) (buf : list Z) (len oldb W0 L1 : Z) s : Z * Vol D * D :=
  let fail rc V s := let '(V, s) := release_fresh V fresh s in (rc, V, s) in
  match new_list (fext V (file V i)) fresh W0 L1 oldb with
  | None => fail EXFS_ENOMEM V s
  | Some stage =>
    let '(rc, roff, rcap, V) := pool_reserve V (lenZ stage) in
    if negb (rc =? EXFS_OK) then fail EXFS_ENOMEM V s else
    let '(ok, s) := merge_loop (take (Z.to_nat (L1 - W0 + 1)) (ext_blocks fresh)) V (fext V (file V i)) (f_size (file V i)) oldb off len buf W0 s in
    if negb ok then fail EXFS_EIO (pool_release V roff rcap) s else
    (EXFS_OK, at_last V i roff rcap stage W0 (if L1 + 1 <? oldb then L1 + 1 else oldb) (u64 (off + len)), s)
  end.

Lemma write_at_tail_frozen V i fresh off buf len oldb W0 L1 s : on_device d V -> bd_ok s -> bd_dead s = true ->
  let '(_, _, s') := write_at_tail V i fresh off buf len oldb W0 L1 s in frozen d s s'.
Proof.
  intros Hd Hs Hx. unfold write_at_tail. destruct (new_list _ _ _ _ _) as [stage|].
  2: { pose proof (release_fresh_frozen d fresh V s Hd Hs Hx) as H. destruct (release_fresh V fresh s). apply H. }
  pose proof (reserve_device d V (lenZ stage) Hd) as Hd1. destruct (pool_reserve V (lenZ stage)) as [[[rc ro] cap] V1]. cbn [snd] in Hd1.
  destruct (negb _).
  { pose proof (release_fresh_frozen d fresh V1 s Hd1 Hs Hx) as H. destruct (release_fresh V1 fresh s). apply H. }
  pose proof (merge_loop_frozen (take (Z.to_nat (L1 - W0 + 1)) (ext_blocks fresh)) V1 (fext V1 (file V1 i)) (f_size (file V1 i)) oldb off len buf W0 s (proj1 Hd1) Hs Hx) as Hw.
  destruct (merge_loop _ V1 _ _ _ _ _ _ _ s) as [ok s1]. pose proof Hw as (Hs1 & Hx1 & _). destruct (negb ok); [|done].
  pose proof (release_fresh_frozen d fresh (pool_release V1 ro cap) s1 Hd1 Hs1 Hx1) as H. destruct (release_fresh _ fresh s1). apply (frozen_trans d s s1); [done|apply H].
Qed.

Lemma merge_loop_vol V V' old size oldb off len buf : v_dev V' = v_dev V -> v_spb V' = v_spb V -> forall bl lb s,
  merge_loop bl V' old size oldb off len buf lb s = merge_loop bl V old size oldb off len buf lb s.
Proof.
  intros E1 E2. induction bl as [|b bl IH]; intros lb s; [done|]. cbn [merge_loop].
  assert (merge_page V' old size oldb off len buf lb s = merge_page V old size oldb off len buf lb s) as ->.
  { unfold merge_page, blk_got. by rewrite E1, E2. }
  destruct (merge_page V _ _ _ _ _ _ _ s) as [[page|] s1]; [|done]. unfold blk_put. rewrite E1, E2.
  destruct (blk_write _ _ _ _ s1) as [rc s2]. destruct (negb _); [done|]. apply IH.
Qed.

Lemma write_at_tail_spec V s V1 s1 i f fresh off buf W0 L1 : fs_ok d V s -> bd_ok s -> bytes_ok buf -> in_use V i f -> f_type f = EXFS_TYPE_FILE ->
  holds d V s V1 s1 (ext_blocks fresh) -> Forall ext_ok fresh -> ndefer V + f_n f + f_nchain f <= 8192 ->
  0 <= off -> 0 < lenZ buf -> off + lenZ buf < 2 ^ 64 ->
  W0 = Z.min (off / 4096) (lenZ (data_blocks V f)) -> L1 = (off + lenZ buf - 1) / 4096 -> lenZ (ext_blocks fresh) = L1 - W0 + 1 ->
  bd_ok s1 -> bd_dead s1 = false ->
  let '(rc, V', s') := write_at_tail V1 i fresh off buf (lenZ buf) (lenZ (data_blocks V f)) W0 L1 s1 in
  bd_ok s' /\ safe d V s s' /\ (bd_dead s' = false ->
    (rc = EXFS_OK /\ written d V s i (cname f) (patched (content d V s f) off buf) V' s') \/ (rc = EXFS_ENOMEM /\ untouched d V s V' s')).
Proof.
  intros Hf Hbs Hb Hi Ht H Hx Hdf Hoff Hlen Hfin EW EL HX Hs Hd. destruct (ho_vol _ _ _ _ _ _ H) as (gm & h & E1 & _).
  assert (file V1 i = f) as Ef1 by (apply file_lookup; rewrite E1; apply Hi).
  assert (pool_ok V1) as Hp1 by (rewrite E1; destruct (fo_pool _ _ _ Hf); by split).
  assert (fext V1 f = fext V f) as Ex1 by (by rewrite E1).
  assert (0 <= off / 4096) by (apply Z.div_pos; lia). assert (off / 4096 <= L1) by (rewrite EL; apply Z.div_le_mono; lia).
  assert (Forall ext_small fresh) as Hsm.
  { apply (blocks_small V s); [apply Hf|done|]. intros b Hb'. apply (holds_data d V s V1 s1 _ H b Hb'). }
  assert (forall V2, pool_ok V2 -> relocated V1 V2 -> let '(V3, s3) := release_fresh V2 fresh s1 in bd_ok s3 /\ safe d V s s3 /\
    (bd_dead s3 = false -> (EXFS_ENOMEM = EXFS_OK /\ written d V s i (cname f) (patched (content d V s f) off buf) V3 s3) \/ (EXFS_ENOMEM = EXFS_ENOMEM /\ untouched d V s V3 s3))) as Hfail.
  { intros V2 Hp2 Hr. pose proof (untouched_release d V s V1 s1 V2 fresh Hf H Hx Hs Hd Hp2 Hr) as Hu. destruct (release_fresh V2 fresh s1) as [V3 s3].
    destruct Hu as (U1 & U2 & U3). split_and!; [done|done|]. intros Hd3. right. split; [done|by apply U3]. }
  unfold write_at_tail. rewrite Ef1, Ex1. destruct (new_list _ fresh W0 L1 _) as [stage|] eqn:En.
  2: { specialize (Hfail V1 Hp1 (relocated_refl V1)). by destruct (release_fresh V1 fresh s1). }
  destruct (new_list_spec (fext V f) fresh W0 L1 _ stage (fext_small V s i f Hf Hi) Hsm ltac:(lia) ltac:(lia) eq_refl En) as (S1 & S2 & S3).
  pose proof (pool_reserve_spec V1 (lenZ stage) Hp1 ltac:(lia)) as Hres.
  pose proof (reserve_device d V1 (lenZ stage) (holds_on_device _ _ _ _ _ _ H)) as Hdv.
  destruct (pool_reserve V1 (lenZ stage)) as [[[rc ro] cap] V2]. destruct Hres as (Hr & Hp2 & Hrc). cbn [snd] in Hdv.
  destruct (Z.eqb_spec rc EXFS_OK) as [->|Hne]; cbn [negb].
  2: { specialize (Hfail V2 Hp2 Hr). by destruct (release_fresh V2 fresh s1). }
  destruct Hrc as [(_ & Hcap & Hsp)|?]; [|done]. pose proof Hr as (F & P & U & E2 & _).
  destruct (rp_moved d V s V1 s1 V2 i f _ Hf H Hp2 Hr Hi) as (o & Hi2 & _ & Xf2 & _).
  rewrite (file_lookup V2 i _ (proj1 Hi2)), Xf2. change (f_size (moved f o)) with (f_size f). rewrite <- HX, Nat2Z.id, firstn_all.
  rewrite (merge_loop_vol V1 V2) by (by rewrite E2).
  pose proof (merge_loop_spec V s i f off buf Hf Hbs Hi Hb V1 (ext_blocks fresh) (ext_blocks fresh) W0 s1 H (ho_nodup _ _ _ _ _ _ H) ltac:(done) ltac:(lia) Hs Hd) as Hw.
  destruct (merge_loop (ext_blocks fresh) V1 _ _ _ _ _ _ W0 s1) as [ok s2]. destruct Hw as (Hs2 & Hsafe & Hlive).
  destruct (bd_dead s2) eqn:Ed2.
  - destruct (negb ok); [|split_and!; [done|done|congruence]].
    pose proof (release_fresh_frozen d fresh (pool_release V2 ro cap) s2 Hdv Hs2 Ed2) as Hz. destruct (release_fresh _ fresh s2) as [V3 s3].
    destruct Hz as [_ (Z1 & Z2 & Z3)]. split_and!; [done|by apply (safe_same d V s s2)|congruence].
  - destruct (Hlive eq_refl) as (-> & H2 & _ & Hpages). cbn [negb]. split_and!; [done|done|]. intros _. left. split; [done|].
    rewrite u64_small by lia. assert ((if L1 + 1 <? lenZ (data_blocks V f) then L1 + 1 else lenZ (data_blocks V f)) = Z.min (L1 + 1) (lenZ (data_blocks V f))) as -> by zcase.
    by apply (write_at_done V s V1 V2 s2 i f fresh).
Qed.

Lemma countb_filter {A} (Q : A -> bool) (l : list A) : exists l', lenZ l' = countb Q l /\ forall x, x ∈ l -> Q x = true -> x ∈ l'.
Proof.
  induction l as [|x l (l' & E & H)]; [exists []; split; [done|]; intros y Hy; by apply not_elem_of_nil in Hy|]. cbn [countb].
  destruct (Q x) eqn:Eq.
  - exists (x :: l'). split; [cbn [length]; lia|]. intros y [->|Hy]%elem_of_cons Hq; [by left|right; by apply H].
  - exists l'. split; [lia|]. intros y [->|Hy]%elem_of_cons Hq; [congruence|by apply H].
Qed.

Lemma free_total_few V s need : alloc_ok d V s -> gmap_free_total (v_gm V) < need -> few_free d V s need.
Proof.
  intros Ha. rewrite (gmap_free_total_spec d (v_gm V) s (ao_gm _ _ _ Ha)), (ao_total _ _ _ Ha). intros Hlt.
  destruct (countb_filter (fun b => negb (used d (v_gm V) s b)) (seqZ 0 (v_total V))) as (X & E & HX). exists X. split; [lia|].
  intros b Hb Hu. apply HX; [apply elem_of_seqZ; lia|by rewrite Hu].
Qed.

(** The fresh blocks a write of [len] bytes at [off] needs in a file of [size] bytes. *)
Definition at_need (size off len : Z) : Z := (off + len - 1) / 4096 - Z.min (off / 4096) ((size + 4095) / 4096) + 1.

(** What the call answers, on a device that works. *)
Definition write_at_post V s (name : list Z) (off : Z) (buf : list Z) rc V' s' : Prop :=
  (rc = EXFS_OK /\ active V /\ (exists c, stores d V s name c /\ stores d V' s' name (patched c off buf)) /\
    (forall n c', n <> name -> stores d V s n c' <-> stores d V' s' n c')) \/
  (kept d V s V' s' /\
    (rc = EXFS_ENOFS /\ v_mounted V = false \/ rc = EXFS_EBROKEN /\ v_broken V = true \/ rc = EXFS_ENOENT /\ (forall t, ~ node V name t) \/
     rc = EXFS_EISDIR /\ node V name EXFS_TYPE_DIR \/ rc = EXFS_EINVAL /\ 2 ^ 64 <= off + lenZ buf \/
     rc = EXFS_ENOSPC /\ (exists c, stores d V s name c /\ few_free d V s (at_need (lenZ c) off (lenZ buf))) \/ rc = EXFS_ENOMEM)).

Lemma written_at_post V s i name off buf V' s' f : ns_ok V -> in_use V i f -> cname f = name -> f_type f = EXFS_TYPE_FILE -> active V ->
  same_names V V' -> written d V s i name (patched (content d V s f) off buf) V' s' -> write_at_post V s name off buf EXFS_OK V' s'.
Proof.
  intros N Hi En Ht Ha Hn Hw. destruct (written_post d V s i name _ V' s' 0 f N Hi En Ht Ha Hn Hw) as [(_ & _ & _ & H1 & H2)|[_ H]].
  - left. split_and!; [done|done| |done]. exists (content d V s f). split; [|done]. by exists i, f.
  - exfalso. destruct H as [[? _]|[[? _]|[[? _]|[[? _]|[[? _]|?]]]]]; done.
Qed.

Lemma exfs_write_at_spec V s name off buf : ns_ok V -> fs_ok d V s -> bd_ok s -> bd_dead s = false -> no_nul name -> bytes_ok buf ->
  0 <= off < 2 ^ 64 -> lenZ buf < 2 ^ 64 ->
  let '(rc, V', s') := exfs_write_at V name off buf (lenZ buf) s in
  call_post d V s V' s' (same_names V V' /\ write_at_post V s name off buf rc V' s').
Proof.
  intros N Hf Hs Hx Hn Hb Hoff Hlen. pose proof (exfs_write_at_same V name off buf (lenZ buf) s) as Hsame. revert Hsame. unfold exfs_write_at.
  pose proof (same_names_refl V) as Hsn. pose proof (kept_refl d V s) as Hk.
  destruct (v_mounted V) eqn:Em; cbn [negb]; [|intros _; apply call_same; [done|done|split; [done|right; split; [done|by left]]]].
  destruct (v_broken V) eqn:Eb; [intros _; apply call_same; [done|done|split; [done|right; split; [done|right; by left]]]|].
  destruct (find V name) as [i|] eqn:Ef.
  2: { intros _. apply call_same; [done|done|]. split; [done|]. right. split; [done|]. do 2 right. left. split; [done|]. by apply find_None. }
  destruct (find_in_use V name i Hn Ef) as (f & Hi & Ecn & Efi). rewrite Efi.
  destruct (Z.eqb_spec (f_type f) EXFS_TYPE_FILE) as [Ht|Ht]; cbn [negb].
  2: { intros _. apply call_same; [done|done|]. split; [done|]. right. split; [done|]. do 3 right. left. split; [done|]. destruct Hi as [Hi1 Hi2].
       exists i, f. split_and!; [done|done|done|]. by destruct (ns_type V N i f Hi1 Hi2). }
  assert (stores d V s name (content d V s f)) as Hst by (by exists i, f).
  destruct (Z.eqb_spec (lenZ buf) 0) as [E0|E0].
  { destruct buf; [|cbn [length] in E0; lia]. intros _. apply call_same; [done|done|]. split; [done|]. left. split_and!; [done|done| |done]. by exists (content d V s f). }
  destruct (Z.ltb_spec (u64 (off + lenZ buf)) off) as [Ho|Ho].
  { intros _. apply call_same; [done|done|]. split; [done|]. right. split; [done|]. do 4 right. left. split; [done|].
    destruct (decide (off + lenZ buf < 2 ^ 64)); [rewrite u64_small in Ho by lia; lia|lia]. }
  assert (off + lenZ buf < 2 ^ 64) as Hfin.
  { destruct (decide (off + lenZ buf < 2 ^ 64)); [done|]. exfalso. unfold u64 in Ho. rewrite <- (Z_mod_plus_full _ (-1)), Z.mod_small in Ho by lia. lia. }
  rewrite (u64_small (off + lenZ buf - 1)) by lia. change EXFS_BLOCK with 4096. pose proof (fo_file _ _ _ Hf i f Hi) as Hkf. pose proof (fk_size _ _ _ _ Hkf) as Hsz.
  pose proof (length_fext V f ltac:(pose proof (fk_n _ _ _ _ Hkf); lia)) as Hlx. pose proof (fk_n _ _ _ _ Hkf).
  rewrite (total_len_spec (fext V f)) by (lia || by apply (fext_small V s i)). fold (data_blocks V f).
  set (oldb := lenZ (data_blocks V f)). set (L1 := (off + lenZ buf - 1) / 4096).
  assert ((if off / 4096 <? oldb then off / 4096 else oldb) = Z.min (off / 4096) oldb) as -> by zcase. set (W0 := Z.min (off / 4096) oldb).
  assert (off / 4096 <= L1) by (apply Z.div_le_mono; lia). cbv zeta.
  assert (at_need (lenZ (content d V s f)) off (lenZ buf) = L1 - W0 + 1) as Hneed.
  { unfold at_need. rewrite (length_content d V s f Hkf). unfold W0. do 2 f_equal. f_equal.
    symmetry. apply (Z.div_unique _ _ _ (f_size f + 4095 - 4096 * oldb)); unfold oldb; lia. }
  destruct (Z.ltb_spec (gmap_free_total (v_gm V)) (L1 - W0 + 1)) as [Hfree|_].
  { intros _. apply call_same; [done|done|]. split; [done|]. right. split; [done|]. do 5 right. left. split; [done|]. exists (content d V s f). split; [done|].
    rewrite Hneed. apply free_total_few; [apply Hf|done]. }
  change EXFS_DEFER_MAX with 8192. destruct (Z.ltb_spec 8192 (ndefer V + f_n f + f_nchain f + 1)).
  { intros _. apply call_same; [done|done|]. split; [done|]. right. split; [done|]. by do 6 right. }
  pose proof (take_fresh_spec d V (L1 - W0 + 1) s (fo_alloc _ _ _ Hf) Hs Hx ltac:(lia)) as Htf.
  destruct (take_fresh V (L1 - W0 + 1) s) as [[r V1] s1]. destruct Htf as (Hs1 & Hd1 & Hsafe1 & Hlive). destruct r as [rc|fresh].
  { cbn [fst snd]. intros Hsn1. split_and!; [done|done|]. intros Hx1. destruct (Hlive Hx1) as [H' Hrc]. pose proof (untouched_holds d V s V1 s1 Hf H') as Hu.
    split_and!; [apply Hu|intros b; apply Hu|apply Hu|done|]. right. split; [by apply untouched_kept|]. do 5 right. destruct Hrc as [-> | [-> Hff]]; [by right|left].
    split; [done|]. exists (content d V s f). split; [done|]. by rewrite Hneed. }
  change (match write_at_tail V1 i fresh off buf (lenZ buf) oldb W0 L1 s1 with x => same_names V x.1.2 -> (let '(rc, V', s') := x in
    call_post d V s V' s' (same_names V V' /\ write_at_post V s name off buf rc V' s')) end).
  destruct (bd_dead s1) eqn:Ed1.
  - pose proof (write_at_tail_frozen V1 i fresh off buf (lenZ buf) oldb W0 L1 s1 Hd1 Hs1 Ed1) as Hz. destruct (write_at_tail _ _ _ _ _ _ _ _ _ s1) as [[rc V'] s'].
    destruct Hz as (Z1 & Z2 & Z3). intros _. split_and!; [done|by apply (safe_same d V s s1)|congruence].
  - destruct (Hlive eq_refl) as (H' & Hcnt & Hxo & _).
    pose proof (write_at_tail_spec V s V1 s1 i f fresh off buf W0 L1 Hf Hs Hb Hi Ht H' Hxo ltac:(lia) ltac:(lia) ltac:(lia) Hfin eq_refl eq_refl Hcnt Hs1 Ed1) as Hw.
    fold oldb in Hw. destruct (write_at_tail _ _ _ _ _ _ _ _ _ s1) as [[rc V'] s']. destruct Hw as (W1 & W2 & W3). cbn [fst snd]. intros Hsn1.
    split_and!; [done|done|]. intros Hd'. destruct (W3 Hd') as [[-> Hw]|[-> Hu]].
    + split_and!; [apply Hw|apply Hw|apply Hw|done|]. rewrite Ecn in Hw. by apply (written_at_post V s i name off buf V' s' f).
    + split_and!; [apply Hu|intros b; apply Hu|apply Hu|done|]. right. split; [by apply untouched_kept|]. by do 6 right.
Qed.
End WriteAt.
