(* ===== verification/ExfsTree.v ===== *)
(** The file system as a tree of byte strings: every operation on a mounted
    volume refines the operation on a finite map from names to nodes. *)

From S2P Require Import Prelude.
From S2P Require Import Bytes.
From S2P Require Import Blk.
From S2P Require Import ExfsDefs.
From S2P Require Import Gmap.
From S2P Require Import GmapOk.
From S2P Require Import Sb.
From S2P Require Import Exfs.
From S2P Require Import ExfsNames.
From S2P Require Import ExfsPool.
From S2P Require Import ExfsData.
From S2P Require Import ExfsFiles.
From S2P Require Import ExfsWrite.
From S2P Require Import ExfsWriteAt.

(** * Specification *)

(** A node of the abstract tree: a directory, or a file and its bytes. *)
Inductive tnode := TDir | TFile (c : list Z).

(** The tree: full names to nodes. *)
Abbreviation Tree := (gmap (list Z) tnode).

Inductive fop :=
  | FCreate (n : list Z) | FMkdir (n : list Z) | FDelete (n : list Z)
  | FWrite (n buf : list Z) | FWriteAt (n : list Z) (off : Z) (buf : list Z)
  | FRead (n : list Z) (off cap : Z) | FStat (n : list Z) | FSize (n : list Z).

(** The directory a name goes into exists. *)
Definition tparent (T : Tree) (n : list Z) : Prop := last_bar n = 0 \/ T !! take (Z.to_nat (last_bar n)) n = Some TDir.

Definition tnew (T : Tree) (n : list Z) (x : tnode) (rc : Z) (T' : Tree) : Prop :=
  (rc = EXFS_OK /\ name_ok n = true /\ T !! n = None /\ tparent T n /\ T' = <[n := x]> T) \/
  (T' = T /\ (rc = EXFS_EINVAL /\ name_ok n = false \/ rc = EXFS_EEXIST /\ is_Some (T !! n) \/ rc = EXFS_ENOENT /\ ~ tparent T n \/ rc = EXFS_ENOSPC)).

(** A change of the file [n] by [chg], or the reason why not. *)
Definition tchange (T : Tree) (n : list Z) (chg : list Z -> list Z) (rc : Z) (T' : Tree) : Prop :=
  (rc = EXFS_OK /\ exists c, T !! n = Some (TFile c) /\ T' = <[n := TFile (chg c)]> T) \/
  (T' = T /\ (rc = EXFS_ENOENT /\ T !! n = None \/ rc = EXFS_EISDIR /\ T !! n = Some TDir \/ rc = EXFS_ENOSPC \/ rc = EXFS_ENOMEM)).

(** One operation on the tree: its answer, the bytes it reads, the tree after it. *)
Definition tree_spec (op : fop) (T : Tree) (rc : Z) (out : list Z) (T' : Tree) : Prop :=
  match op with
  | FCreate n => out = [] /\ tnew T n (TFile []) rc T'
  | FMkdir n => out = [] /\ tnew T n TDir rc T'
  | FDelete n => out = [] /\
    ((rc = EXFS_OK /\ is_Some (T !! n) /\ (T !! n = Some TDir -> forall m, is_Some (T !! m) -> ~ below n m) /\ T' = delete n T) \/
     (T' = T /\ (rc = EXFS_ENOENT /\ T !! n = None \/ rc = EXFS_ENOTEMPTY /\ T !! n = Some TDir /\ (exists m, is_Some (T !! m) /\ below n m) \/ rc = EXFS_ENOMEM)))
  | FWrite n buf => out = [] /\ tchange T n (fun _ => buf) rc T'
  | FWriteAt n off buf => out = [] /\
    ((rc = EXFS_EINVAL /\ T' = T /\ 2 ^ 64 <= off + lenZ buf) \/ tchange T n (fun c => patched c off buf) rc T')
  | FRead n off cap => T' = T /\
    match T !! n with
    | Some (TFile c) => out = take (Z.to_nat cap) (drop (Z.to_nat off) c) /\ rc = lenZ out
    | Some TDir => out = [] /\ rc = EXFS_EISDIR
    | None => out = [] /\ rc = EXFS_ENOENT
    end
  | FStat n => T' = T /\ out = [] /\
    rc = (if is_root n then EXFS_TYPE_DIR else match T !! n with Some (TFile _) => EXFS_TYPE_FILE | Some TDir => EXFS_TYPE_DIR | None => EXFS_ENOENT end)
  | FSize n => T' = T /\ out = [] /\ rc = match T !! n with Some (TFile c) => lenZ c | Some TDir => EXFS_EISDIR | None => EXFS_ENOENT end
  end.

(** Arguments a caller can pass: C strings, bytes, 64-bit numbers. A buffer ends
    before the last block of the address space. *)
Definition flegal (op : fop) : Prop :=
  match op with
  | FCreate n | FMkdir n | FDelete n | FStat n | FSize n => no_nul n
  | FWrite n buf => no_nul n /\ bytes_ok buf /\ lenZ buf <= 2 ^ 64 - 4096
  | FWriteAt n off buf => no_nul n /\ bytes_ok buf /\ 0 <= off < 2 ^ 64 /\ lenZ buf < 2 ^ 64
  | FRead n off cap => no_nul n /\ 0 <= off < 2 ^ 64 /\ 0 <= cap < 2 ^ 64
  end.

(** The call of the implementation. *)
Definition fexec {D} (op : fop) (V : Vol D) (s : D) : Z * list Z * Vol D * D :=
  match op with
  | FCreate n => let '(rc, V) := exfs_create V n in (rc, [], V, s)
  | FMkdir n => let '(rc, V) := exfs_mkdir V n in (rc, [], V, s)
  | FDelete n => let '(rc, V) := exfs_delete V n in (rc, [], V, s)
  | FWrite n buf => let '(rc, V, s) := exfs_write V n buf (lenZ buf) s in (rc, [], V, s)
  | FWriteAt n off buf => let '(rc, V, s) := exfs_write_at V n off buf (lenZ buf) s in (rc, [], V, s)
  | FRead n off cap => let '(rc, out, s) := exfs_read_at V n off cap s in (rc, out, V, s)
  | FStat n => (exfs_stat V n, [], V, s)
  | FSize n => (exfs_size V n, [], V, s)
  end.

Section Tree.
Context {D : Type} (d : BlkDev D) `{!BlockDevice d} `{!FailStop d}.
Implicit Types (V : Vol D) (s : D) (f g : ExfsFile).

(** * Creating *)

(** A new node has no extent, no chain and no byte. *)
Lemma file_ok_new V s f : f_n f = 0 -> f_nchain f = 0 -> f_size f = 0 -> length (f_chain f) = 16%nat ->
  file_ok d V s f /\ file_blocks V f = [] /\ content d V s f = [].
Proof.
  intros En Ec Es El. assert (fext V f = []) as Ex by (unfold fext; by rewrite En).
  assert (data_blocks V f = []) as Ed by (unfold data_blocks; by rewrite Ex).
  assert (file_blocks V f = []) as Ef by (unfold file_blocks, chain_blocks; by rewrite Ed, Ec).
  split_and!; [|done|unfold content; by rewrite Es]. split; rewrite ?En, ?Ec, ?Es, ?Ex, ?Ed, ?Ef; try done; try (cbn; lia); constructor.
Qed.

Lemma fs_ok_new V s i f name t : fs_ok d V s -> v_files V !! i = Some f -> f_used f = false ->
  let g := mkFile true t 0 name 0 0 0 0 (f_chain f) true in
  let V' := set_dirty (set_files V (<[i := g]> (v_files V))) true in
  fs_ok d V' s /\ (forall b, owned V' b <-> owned V b) /\ in_use V' i g /\ content d V' s g = [] /\
  (forall j h, in_use V j h -> in_use V' j h /\ j <> i /\ content d V' s h = content d V s h) /\
  (forall j h, in_use V' j h -> (j = i /\ h = g) \/ in_use V j h).
Proof.
  intros Hf Hi Hu g V'. pose proof (fo_pool _ _ _ Hf) as Hp.
  assert (i < length (v_files V))%nat as Hlt by (by eapply lookup_lt_Some).
  assert (forall j h, v_files V' !! j = Some h -> (j = i /\ h = g) \/ (j <> i /\ v_files V !! j = Some h)) as Hlk.
  { intros j h Hj. cbn in Hj. apply list_lookup_insert_Some in Hj as [(<- & <- & _)|[Hne Hj]]; [by left|right]. split; [congruence|done]. }
  assert (forall j h, in_use V' j h -> (j = i /\ h = g) \/ in_use V j h) as Hbk.
  { intros j h [Hj Hjh]. destruct (Hlk j h Hj) as [?|[_ ?]]; [by left|by right]. }
  assert (forall j h, in_use V j h -> in_use V' j h /\ j <> i) as Hfw.
  { intros j h [Hj Hjh]. assert (j <> i) as Hne by (intros ->; congruence). split; [split; [|done]|done]. cbn. by rewrite list_lookup_insert_ne. }
  assert (in_use V' i g) as Hg by (split; [cbn; by apply list_lookup_insert_eq|done]).
  destruct (file_ok_new V' s g eq_refl eq_refl eq_refl (fo_slots _ _ _ Hf i f Hi)) as (G1 & G2 & G3).
  assert (forall k, ~ in_slice g k) as Hsl by (intros k [H1 H2]; cbn in H1, H2; lia).
  assert (forall b, owned V' b <-> owned V b) as Hown.
  { intros b. split; (intros [(j & h & Hj & Hb)|Hb]; [left|by right]).
    - destruct (Hbk j h Hj) as [[-> ->]|Hj']; [rewrite G2 in Hb; by apply not_elem_of_nil in Hb|by exists j, h].
    - exists j, h. split; [by apply Hfw|done]. }
  split_and!; try done; [|intros j h Hj; destruct (Hfw j h Hj); done]. split; try apply Hf.
  - by destruct (fo_alloc _ _ _ Hf).
  - split; [apply Hp|cbn; rewrite length_insert; apply Hp| | |].
    + intros j h Hj Hjh. destruct (Hlk j h Hj) as [[-> ->]|[_ Hj']]; [cbn; lia|by apply (po_slice V Hp j h)].
    + intros j h k Hj Hjh Hk. destruct (Hlk j h Hj) as [[-> ->]|[_ Hj']]; [by apply Hsl in Hk|by apply (po_bits V Hp j h)].
    + intros j1 j2 h1 h2 k H1 H2 U1 U2 K1 K2. destruct (Hlk j1 h1 H1) as [[-> ->]|[_ H1']]; [by apply Hsl in K1|].
      destruct (Hlk j2 h2 H2) as [[-> ->]|[_ H2']]; [by apply Hsl in K2|]. by apply (po_disj V Hp j1 j2 h1 h2 k).
  - intros j h Hj. destruct (Hlk j h Hj) as [[-> ->]|[_ Hj']]; [apply (fo_slots _ _ _ Hf i f Hi)|by apply (fo_slots _ _ _ Hf j)].
  - intros j h Hj. destruct (Hbk j h Hj) as [[-> ->]|Hj']; [done|]. destruct (fo_file _ _ _ Hf j h Hj'). by split.
  - intros j1 j2 h1 h2 b H1 H2 B1 B2. destruct (Hbk j1 h1 H1) as [[-> ->]|H1']; [rewrite G2 in B1; by apply not_elem_of_nil in B1|].
    destruct (Hbk j2 h2 H2) as [[-> ->]|H2']; [rewrite G2 in B2; by apply not_elem_of_nil in B2|]. by apply (fo_apart _ _ _ Hf j1 j2 h1 h2 b).
  - intros j h b Hj Hb. destruct (Hbk j h Hj) as [[-> ->]|Hj']; [rewrite G2 in Hb; by apply not_elem_of_nil in Hb|]. by apply (fo_dapart _ _ _ Hf j h b).
  - intros b Hb. apply Hown in Hb. by apply (fo_used _ _ _ Hf).
Qed.

(** * Deleting *)

Lemma fs_ok_gone V s i f U : fs_ok d V s -> in_use V i f -> length U = 2048%nat ->
  (forall k, 0 <= k -> bit_of U k = if (f_ext_off f <=? k) && (k <? f_ext_off f + f_ext_cap f) then false else pool_is_used V k) ->
  forall g, f_used g = false -> length (f_chain g) = 16%nat ->
  let V' := set_dirty (put_file (set_pool_used (set_defer V (deferred V f)) U) i g) true in
  fs_ok d V' s /\ (forall b, owned V' b <-> owned V b) /\
  (forall j h, in_use V' j h <-> j <> i /\ in_use V j h) /\ (forall j h, in_use V j h -> content d V' s h = content d V s h).
Proof.
  intros Hf Hi HU1 HU2 g Hg Hgc V'. pose proof (fo_pool _ _ _ Hf) as Hp. pose proof Hi as [Hif Huf].
  assert (i < length (v_files V))%nat as Hlt by (by eapply lookup_lt_Some).
  assert (forall j h, in_use V' j h <-> j <> i /\ in_use V j h) as Hlk.
  { intros j h. unfold in_use. cbn. rewrite list_lookup_insert_Some. split.
    - intros [[(-> & -> & _)|[Hne Hj]] Hu]; [congruence|]. by split_and!.
    - intros (Hne & Hj & Hu). split; [right|done]. by split. }
  assert (defer_blocks V' = defer_blocks V ++ file_blocks V f) as Edf by apply deferred_blocks.
  assert (forall b, owned V' b <-> owned V b) as Hown.
  { intros b. unfold owned. rewrite Edf, elem_of_app. split.
    - intros [(j & h & [_ Hj]%Hlk & Hb)|[Hb|Hb]]; [left; by exists j, h|by right|left; by exists i, f].
    - intros [(j & h & Hj & Hb)|Hb]; [|right; by left]. destruct (decide (j = i)) as [->|Hne].
      + right. right. assert (h = f) as -> by (destruct Hj; congruence). done.
      + left. exists j, h. split; [by apply Hlk|done]. }
  split_and!; try done. split.
  - by destruct (fo_alloc _ _ _ Hf).
  - split; [done|cbn; rewrite length_insert; apply Hp| | |].
    + intros j h Hj Hjh. destruct (proj1 (Hlk j h) (conj Hj Hjh)) as [_ [Hj' _]]. by apply (po_slice V Hp j h).
    + intros j h k Hj Hjh Hk. destruct (proj1 (Hlk j h) (conj Hj Hjh)) as [Hne [Hj' _]]. destruct (po_slice V Hp j h Hj' Hjh) as (_ & ? & _).
      unfold pool_is_used. cbn. rewrite HU2 by (unfold in_slice in Hk; lia). destruct (_ && _) eqn:E; [|by apply (po_bits V Hp j h)].
      exfalso. apply Hne. apply (po_disj V Hp j i h f k); try done. unfold in_slice. unbool. lia.
    + intros j1 j2 h1 h2 k H1 H2 U1 U2. destruct (proj1 (Hlk j1 h1) (conj H1 U1)) as [_ [H1' _]], (proj1 (Hlk j2 h2) (conj H2 U2)) as [_ [H2' _]].
      by apply (po_disj V Hp).
  - intros j h Hj. cbn in Hj. apply list_lookup_insert_Some in Hj as [(_ & <- & _)|[_ Hj]]; [done|by apply (fo_slots _ _ _ Hf j)].
  - intros j h [_ Hj]%Hlk. destruct (fo_file _ _ _ Hf j h Hj). by split.
  - intros j1 j2 h1 h2 b [_ H1]%Hlk [_ H2]%Hlk. by apply (fo_apart _ _ _ Hf).
  - by apply (deferred_ok d V s i f).
  - intros j h b [Hne Hj]%Hlk Hb. rewrite Edf, elem_of_app. intros [Hx|Hx]; [by apply (fo_dapart _ _ _ Hf j h b)|].
    apply Hne. by apply (fo_apart _ _ _ Hf j i h f b).
  - intros b Hb. apply Hown in Hb. by apply (fo_used _ _ _ Hf).
Qed.

(** * One call on names *)

(** What creating and deleting do to the content: the files that stay keep
    theirs, a new one is empty, and every block that was owned still is. *)
Lemma exfs_new_content V s name t : ns_ok V -> fs_ok d V s -> no_nul name -> (t = EXFS_TYPE_FILE \/ t = EXFS_TYPE_DIR) ->
  let '(rc, V') := exfs_new t V name in
  fs_ok d V' s /\ steady V V' /\ (forall b, owned V' b <-> owned V b) /\
  (rc = EXFS_OK -> forall n c, stores d V' s n c <-> stores d V s n c \/ (n = name /\ t = EXFS_TYPE_FILE /\ c = [])) /\ (rc <> EXFS_OK -> V' = V).
Proof.
  intros N Hf Hn Ht. pose proof (steady_refl V) as Hrf. unfold exfs_new. destruct (negb (v_mounted V)); [done|]. destruct (v_broken V); [done|]. destruct (name_ok name) eqn:Ek; cbn [negb]; [|done].
  destruct (find V name); [done|]. destruct (negb _); [done|]. unfold make_node. pose proof (make_in_spec (v_files V) name t) as H.
  destruct (make_in (v_files V) name t) as [l'|]; [|done]. destruct H as (i & f & Hi & Hu & ->). destruct (name_ok_facts name Ek) as (_ & Hl & _).
  destruct (copy_name_spec (f_name f) name (ns_buf V N i f Hi) Hn ltac:(lia)) as [_ Hcn].
  destruct (fs_ok_new V s i f (copy_name (f_name f) name) t Hf Hi Hu) as (K1 & K2 & K3 & K4 & K5 & K6).
  set (g := mkFile true t 0 _ 0 0 0 0 _ true) in *. set (V' := set_dirty _ true) in *.
  assert (descends V V') as Hde.
  { intros j h Hj. destruct (K6 j h Hj) as [[-> ->]|Hj']; [right; by split; [|split; [|split; [|left]]]|left]. exists h, (f_ext_off h). by rewrite moved_id. }
  assert (steady V V') by (by split_and!). split_and!; try done. intros _ n c. split.
  - intros (j & h & Hj & En & Et & Ec). destruct (K6 j h Hj) as [[-> ->]|Hj'].
    + right. split_and!; [by rewrite <- En|done|congruence].
    + left. by exists j, h.
  - intros [(j & h & Hj & En & Et & Ec)|(-> & -> & ->)].
    + exists j, h. destruct (K5 j h Hj) as (L1 & _ & L2). split_and!; (done || congruence).
    + by exists i, g.
Qed.

Lemma exfs_delete_content V s name : ns_ok V -> fs_ok d V s -> no_nul name ->
  let '(rc, V') := exfs_delete V name in
  fs_ok d V' s /\ steady V V' /\ (forall b, owned V' b <-> owned V b) /\
  (rc = EXFS_OK -> forall n c, stores d V' s n c <-> stores d V s n c /\ n <> name) /\ (rc <> EXFS_OK -> V' = V).
Proof.
  intros N Hf Hn. pose proof (steady_refl V) as Hrf. unfold exfs_delete. destruct (negb (v_mounted V)); [done|]. destruct (v_broken V); [done|].
  destruct (find V name) as [i|] eqn:Ef; [|done]. destruct (find_in_use V name i Hn Ef) as (f & Hi & Ecn & Efi). destruct (_ && _); [done|].
  destruct (Z.ltb_spec EXFS_DEFER_MAX (ndefer V + f_n f + f_nchain f)) as [Hbig|Hfit].
  { unfold defer_file. rewrite Efi. rewrite (proj2 (Z.ltb_lt EXFS_DEFER_MAX _)) by lia. done. }
  rewrite (defer_file_eq d V s i f Hf Hi Hfit). rewrite Z.eqb_refl. cbn [negb].
  pose proof Hi as [Hif Hu]. pose proof (fo_pool _ _ _ Hf) as Hp. destruct (po_slice V Hp i f Hif Hu) as (Hpn & Ho & He).
  destruct (mark_bits (v_pool_used V) (f_ext_off f) (f_ext_cap f) false (po_len V Hp) Ho ltac:(lia) He) as [HU1 HU2].
  unfold pool_release, pool_mark. set (U := for_range _ _ _ _) in *. set (f0 := mkFile _ _ _ _ 0 0 0 0 _ _). set (W := put_file _ i f0).
  assert (file W i = f0) as -> by (apply file_lookup; cbn; apply list_lookup_insert_eq; by eapply lookup_lt_Some).
  assert (put_file W i (unused_file f0) = put_file (set_pool_used (set_defer V (deferred V f)) U) i (unused_file f0)) as ->
    by (unfold W, put_file; cbn; by rewrite list_insert_insert_eq).
  destruct (fs_ok_gone V s i f U Hf Hi HU1 HU2 (unused_file f0) eq_refl (fo_slots _ _ _ Hf i f Hif)) as (K1 & K2 & K3 & K4). set (V' := set_dirty _ true) in *.
  assert (descends V V') as Hde by (intros j h [_ Hj]%K3; left; exists h, (f_ext_off h); by rewrite moved_id).
  assert (steady V V') by (by split_and!). split_and!; try done. intros _ n c. split.
  - intros (j & h & [Hne Hj]%K3 & En & Et & Ec). split; [by exists j, h|].
    intros ->. apply Hne. by apply (in_use_unique V j h i f N Hj Hi); congruence.
  - intros [(j & h & Hj & En & Et & Ec) Hne]. exists j, h. split_and!; try done. apply K3. split; [|done].
    intros ->. apply Hne. assert (h = f) as -> by (destruct Hj; congruence). congruence.
Qed.

(** * Abstraction *)

Record tree_of V s (T : Tree) : Prop := {
  to_file : forall n c, T !! n = Some (TFile c) <-> stores d V s n c;
  to_dir : forall n, T !! n = Some TDir <-> node V n EXFS_TYPE_DIR
}.

Lemma node_stores V s n : node V n EXFS_TYPE_FILE <-> exists c, stores d V s n c.
Proof.
  split.
  - intros (i & f & H1 & H2 & H3 & H4). exists (content d V s f). by exists i, f.
  - intros (c & i & f & [H1 H2] & H3 & H4 & _). by exists i, f.
Qed.

Lemma node_fun V n t u : ns_ok V -> node V n t -> node V n u -> t = u.
Proof.
  intros N (i & f & H1 & H2 & H3 & H4) (j & g & K1 & K2 & K3 & K4). assert (i = j) as -> by (apply (ns_uniq V N i j f g); congruence). congruence.
Qed.

Lemma stores_fun V s n c c' : ns_ok V -> stores d V s n c -> stores d V s n c' -> c = c'.
Proof.
  intros N (i & f & Hi & H3 & H4 & <-) (j & g & Hj & K3 & K4 & <-). destruct (in_use_unique V i f j g N Hi Hj) as [-> ->]; [congruence|done].
Qed.

Lemma tree_node V s T n : ns_ok V -> tree_of V s T -> (exists u, node V n u) <-> is_Some (T !! n).
Proof.
  intros N [Tf Td]. split.
  - intros (u & Hu). assert (u = EXFS_TYPE_FILE \/ u = EXFS_TYPE_DIR) as [-> | ->].
    { destruct Hu as (i & f & H1 & H2 & H3 & <-). by apply (ns_type V N i f). }
    + apply (node_stores V s) in Hu as [c Hc]. exists (TFile c). by apply Tf.
    + exists TDir. by apply Td.
  - intros [[|c] Hx]; [exists EXFS_TYPE_DIR; by apply Td|]. exists EXFS_TYPE_FILE. apply (node_stores V s). exists c. by apply Tf.
Qed.

Lemma tree_none V s T n : ns_ok V -> tree_of V s T -> (forall u, ~ node V n u) <-> T !! n = None.
Proof.
  intros N HT. rewrite eq_None_not_Some, <- (tree_node V s T n N HT). split; [intros H (u & Hu); by apply (H u)|intros H u Hu; apply H; by exists u].
Qed.

Lemma tree_parent V s T n : tree_of V s T -> has_parent V n <-> tparent T n.
Proof. intros [_ Td]. unfold has_parent, tparent. by rewrite Td. Qed.

Lemma tree_kept V s V' s' T : same_names V V' -> (forall n c, stores d V s n c <-> stores d V' s' n c) -> tree_of V s T -> tree_of V' s' T.
Proof. intros Hn Hst [Tf Td]. split; [intros n c; rewrite <- Hst; apply Tf|intros n; rewrite (same_node V V') by done; apply Td]. Qed.

(** The tree after the file [n] was changed. *)
Lemma tree_changed V s V' s' T n c c' : ns_ok V -> same_names V V' -> tree_of V s T -> stores d V s n c -> stores d V' s' n c' ->
  (forall m x, m <> n -> stores d V s m x <-> stores d V' s' m x) -> tree_of V' s' (<[n := TFile c']> T).
Proof.
  intros N Hn [Tf Td] Hc Hc' Hrest. pose proof (same_ns_ok V V' Hn N) as N'. split.
  - intros m x. destruct (decide (m = n)) as [->|Hne].
    + rewrite lookup_insert_eq. split; [by intros [= <-]|]. intros Hx. do 2 f_equal. by apply (stores_fun V' s' n).
    + rewrite lookup_insert_ne by done. rewrite <- Hrest by done. apply Tf.
  - intros m. rewrite (same_node V V') by done. destruct (decide (m = n)) as [->|Hne]; [|rewrite lookup_insert_ne by done; apply Td].
    rewrite lookup_insert_eq. split; [done|]. intros Hd. assert (EXFS_TYPE_DIR = EXFS_TYPE_FILE); [|done]. apply (node_fun V n); [done|done|].
    apply (node_stores V s). by exists c.
Qed.

(** * Simulation *)

(** A mounted volume on a device that works, and the tree it holds. *)
Record sim V s (T : Tree) : Prop := {
  sm_ns : ns_ok V;
  sm_fs : fs_ok d V s;
  sm_dev : bd_ok s /\ bd_dead s = false;
  sm_active : active V;
  sm_tree : tree_of V s T
}.

(** What a call may do to the device, the blocks in use and the tree. *)
Definition fpost V s T (op : fop) (r : Z * list Z * Vol D * D) : Prop :=
  let '(rc, out, V', s') := r in
  safe d V s s' /\ (bd_dead s' = false -> exists T', tree_spec op T rc out T' /\ sim V' s' T' /\ steady V V' /\ forall b, owned V b -> owned V' b).

Lemma steady_active V V' : steady V V' -> active V -> active V'.
Proof. intros (A1 & A2 & _) [H1 H2]. split; congruence. Qed.

Section Step.
Context V s T (S : sim V s T).
Let N := sm_ns _ _ _ S.
Let Hf := sm_fs _ _ _ S.
Let HT := sm_tree _ _ _ S.

(** A call that leaves the volume as it was. *)
Lemma step_still op rc out s' : bd_ok s' -> bd_dead s' = false -> same_disk d s s' -> tree_spec op T rc out T -> fpost V s T op (rc, out, V, s').
Proof.
  intros Hs Hd Hsame Hsp. destruct (sm_dev _ _ _ S) as [Hs0 Hd0]. split.
  - by apply (safe_same d V s s).
  - intros _. exists T. split_and!; [done| |apply steady_refl|done].
    assert (holds d V s V s' []) as H.
    { pose proof (holds_refl d V s (fo_alloc _ _ _ Hf)) as [H1 H2 H3 H4 H5 H6]. destruct H2 as [A1 A2 A3 A4 A5].
      destruct (gm_ok_disk d (v_gm V) s s' A3 Hsame) as [B1 B2]. split; try done.
      - intros b Hb. cbn. unfold used. rewrite B2; [done|]. apply (block_group d); [apply A3|]. rewrite A4. done.
      - by apply (safe_same d V s s). }
    destruct (fs_ok_holds d V s V s' [] Hf H) as (K1 & K2 & _).
    split; [done|done|done|apply S|]. apply (tree_kept V s); [apply same_names_refl| |done]. intros n c.
    split; intros (i & f & Hi & H1 & H2 & <-); exists i, f; split_and!; try done; [by apply (K2 i)|]. symmetry. by apply (K2 i).
Qed.

Lemma step_new t n x : no_nul n -> (t = EXFS_TYPE_FILE /\ x = TFile [] \/ t = EXFS_TYPE_DIR /\ x = TDir) ->
  let '(rc, V') := exfs_new t V n in
  exists T', tnew T n x rc T' /\ sim V' s T' /\ steady V V' /\ forall b, owned V b -> owned V' b.
Proof.
  intros Hn Hx. assert (t = EXFS_TYPE_FILE \/ t = EXFS_TYPE_DIR) as Ht by tauto. pose proof (sm_active _ _ _ S) as [Am Ab].
  pose proof (exfs_new_spec V n t N Hn Ht) as H1. pose proof (exfs_new_content V s n t N Hf Hn Ht) as H2.
  destruct (exfs_new t V n) as [rc V']. destruct H1 as [N' Hp], H2 as (F' & Hst & Hown & Hok & Hno).
  destruct Hp as [(-> & _ & Hk & Hnew & Hpar & Hadd)|(-> & Hc)].
  - specialize (Hok eq_refl). exists (<[n := x]> T). split_and!; [|split|done|intros b; by rewrite Hown]; try done.
    + left. split_and!; try done; [by apply (tree_none V s)|by apply (tree_parent V s)].
    + apply S.
    + by apply (steady_active V), S.
    + destruct HT as [Tf Td]. pose proof (proj1 (tree_none V s T n N HT) Hnew) as Hnone. split.
      * intros m c. rewrite Hok. destruct (decide (m = n)) as [->|Hne].
        -- rewrite lookup_insert_eq, <- Tf. rewrite Hnone. destruct Hx as [[-> ->]|[-> ->]].
           ++ split; [intros [= <-]; by right|]. by intros [?|(_ & _ & ->)].
           ++ split; [done|]. by intros [?|(_ & ? & _)].
        -- rewrite lookup_insert_ne by done. rewrite Tf. split; [by left|]. by intros [?|(? & _)].
      * intros m. rewrite (Hadd m). destruct (decide (m = n)) as [->|Hne].
        -- rewrite lookup_insert_eq, <- Td, Hnone. destruct Hx as [[-> ->]|[-> ->]]; [|split; [by right|done]]. split; [done|]. by intros [?|[_ ?]].
        -- rewrite lookup_insert_ne by done. rewrite Td. split; [by left|]. by intros [?|[? _]].
  - exists T. split_and!; [right; split; [done|]|done|apply steady_refl|done].
    destruct Hc as [[_ ?]|[[_ ?]|[[-> ?]|[[-> ?]|[[-> ?]|[-> _]]]]]]; [congruence|congruence|by left| | |by do 3 right].
    + right; left. split; [done|]. by apply (tree_node V s).
    + do 2 right; left. split; [done|]. by rewrite <- (tree_parent V s).
Qed.

Lemma step_delete n : no_nul n -> let '(rc, V') := exfs_delete V n in
  exists T', tree_spec (FDelete n) T rc [] T' /\ sim V' s T' /\ steady V V' /\ forall b, owned V b -> owned V' b.
Proof.
  intros Hn. pose proof (sm_active _ _ _ S) as [Am Ab]. pose proof (exfs_delete_spec V n N Hn) as H1. pose proof (exfs_delete_content V s n N Hf Hn) as H2.
  destruct (exfs_delete V n) as [rc V']. destruct H1 as [N' Hp], H2 as (F' & Hst & Hown & Hok & Hno).
  destruct Hp as [(-> & _ & Hnode & Hdel & Hleaf)|(-> & Hc)].
  - specialize (Hok eq_refl). exists (delete n T). split_and!; [|split|done|intros b; by rewrite Hown]; try done.
    + split; [done|]. left. split_and!; [done|by apply (tree_node V s)| |done]. intros Hd m Hm. apply (tree_node V s) in Hm as [u Hu]; [|done|done].
      apply (Hleaf (proj1 (to_dir _ _ _ HT n) Hd) m u Hu).
    + apply S.
    + by apply (steady_active V), S.
    + destruct HT as [Tf Td]. split.
      * intros m c. rewrite Hok, lookup_delete_Some, Tf. split; (intros [? ?]; split; congruence).
      * intros m. rewrite (Hdel m), lookup_delete_Some, Td. split; (intros [? ?]; split; congruence).
  - exists T. split_and!; [split; [done|]; right; split; [done|]|done|apply steady_refl|done].
    destruct Hc as [[_ ?]|[[_ ?]|[[-> ?]|[(-> & Hd & m & u & Hm & Hb)|[-> _]]]]]; [congruence|congruence| | |by do 2 right].
    + left. split; [done|]. by apply (tree_none V s).
    + right; left. split_and!; [done|by apply (to_dir _ _ _ HT)|]. exists m. split; [|done]. apply (tree_node V s T m N HT). by exists u.
Qed.

(** A call that kept every file. *)
Lemma sim_kept V' s' : bd_ok s' -> bd_dead s' = false -> fs_ok d V' s' -> steady V V' -> same_names V V' ->
  (forall n c, stores d V s n c <-> stores d V' s' n c) -> sim V' s' T.
Proof.
  intros Hs Hd F' Hst Hsn Hk. split; [by apply (same_ns_ok V)|done|done|apply (steady_active V); [done|apply S]|by apply (tree_kept V s)].
Qed.

Lemma sim_changed V' s' n c c' : bd_ok s' -> bd_dead s' = false -> fs_ok d V' s' -> steady V V' -> same_names V V' -> stores d V s n c -> stores d V' s' n c' ->
  (forall m x, m <> n -> stores d V s m x <-> stores d V' s' m x) -> sim V' s' (<[n := TFile c']> T).
Proof.
  intros Hs Hd F' Hst Hsn Hc Hc' Hr. split; [by apply (same_ns_ok V)|done|done|apply (steady_active V); [done|apply S]|by apply (tree_changed V s V' s' T n c)].
Qed.

Lemma step_write n buf : no_nul n -> bytes_ok buf -> lenZ buf <= 2 ^ 64 - 4096 -> fpost V s T (FWrite n buf) (fexec (FWrite n buf) V s).
Proof.
  intros Hn Hb Hl. pose proof (sm_active _ _ _ S) as [Am Ab]. destruct (sm_dev _ _ _ S) as [Hs Hd].
  pose proof (exfs_write_spec d V s n buf N Hf Hs Hd Hn Hb Hl) as H. cbn [fexec]. destruct (exfs_write V n buf (lenZ buf) s) as [[rc V'] s'].
  destruct H as (Hs' & Hsafe & Hlive). split; [done|]. intros Hd'. destruct (Hlive Hd') as (F' & Hown & Hst & Hsn & Hp).
  destruct Hp as [(-> & _ & Hnode & Hnew & Hrest)|([Hk _] & Hc)].
  - apply (node_stores V s) in Hnode as [c Hc]. exists (<[n := TFile buf]> T). split_and!; [|by apply (sim_changed V' s' n c)|done|done].
    split; [done|]. left. split; [done|]. exists c. split; [|done]. by apply (to_file _ _ _ HT).
  - exists T. split_and!; [split; [done|]; right; split; [done|]|by apply sim_kept|done|done].
    destruct Hc as [[_ ?]|[[_ ?]|[[-> ?]|[[-> ?]|[[-> _]| ->]]]]]; [congruence|congruence| | |by do 2 right; left|by do 3 right].
    + left. split; [done|]. by apply (tree_none V s).
    + right; left. split; [done|]. by apply (to_dir _ _ _ HT).
Qed.

Lemma step_write_at n off buf : no_nul n -> bytes_ok buf -> 0 <= off < 2 ^ 64 -> lenZ buf < 2 ^ 64 ->
  fpost V s T (FWriteAt n off buf) (fexec (FWriteAt n off buf) V s).
Proof.
  intros Hn Hb Ho Hl. pose proof (sm_active _ _ _ S) as [Am Ab]. destruct (sm_dev _ _ _ S) as [Hs Hd].
  pose proof (exfs_write_at_spec d V s n off buf N Hf Hs Hd Hn Hb Ho Hl) as H. cbn [fexec]. destruct (exfs_write_at V n off buf (lenZ buf) s) as [[rc V'] s'].
  destruct H as (Hs' & Hsafe & Hlive). split; [done|]. intros Hd'. destruct (Hlive Hd') as (F' & Hown & Hst & Hsn & Hp).
  destruct Hp as [(-> & _ & (c & Hc & Hnew) & Hrest)|([Hk _] & Hc)].
  - exists (<[n := TFile (patched c off buf)]> T). split_and!; [|by apply (sim_changed V' s' n c)|done|done].
    split; [done|]. right. left. split; [done|]. exists c. split; [|done]. by apply (to_file _ _ _ HT).
  - exists T. split_and!; [split; [done|]|by apply sim_kept|done|done].
    destruct Hc as [[_ ?]|[[_ ?]|[[-> ?]|[[-> ?]|[[-> ?]|[[-> _]| ->]]]]]]; [congruence|congruence| | |by left|right|right]; [right|right|by right; split; [|do 2 right; left]|by right; split; [|do 3 right]].
    + right. split; [done|]. left. split; [done|]. by apply (tree_none V s).
    + right. split; [done|]. right; left. split; [done|]. by apply (to_dir _ _ _ HT).
Qed.

(** The node a name finds. *)
Lemma find_tree n : no_nul n -> match T !! n with
  | Some (TFile c) => exists i, find V n = Some i /\ f_type (file V i) = EXFS_TYPE_FILE /\ f_size (file V i) = lenZ c /\ stores d V s n c
  | Some TDir => exists i, find V n = Some i /\ f_type (file V i) = EXFS_TYPE_DIR
  | None => find V n = None
  end.
Proof.
  intros Hn. destruct (T !! n) as [[|c]|] eqn:E.
  - apply (to_dir _ _ _ HT) in E. by apply find_node.
  - apply (to_file _ _ _ HT) in E. destruct (stores_find d V s n c N Hn E) as (i & f & H1 & H2 & <- & H4 & <-). exists i. split_and!; try done.
    symmetry. apply length_content. by apply (fo_file _ _ _ Hf i).
  - pose proof (proj2 (tree_none V s T n N HT) E) as Hno. destruct (find V n) as [i|] eqn:Ef; [|done]. destruct (find_in_use V n i Hn Ef) as (f & [H1 H2] & H3 & _).
    exfalso. apply (Hno (f_type f)). by exists i, f.
Qed.

Lemma step_read n off cap : no_nul n -> 0 <= off < 2 ^ 64 -> 0 <= cap < 2 ^ 64 -> fpost V s T (FRead n off cap) (fexec (FRead n off cap) V s).
Proof.
  intros Hn Ho Hc. pose proof (sm_active _ _ _ S) as [Am _]. destruct (sm_dev _ _ _ S) as [Hs Hd]. pose proof (find_tree n Hn) as Hft. cbn [fexec].
  destruct (T !! n) as [[|c]|] eqn:E.
  - destruct Hft as (i & Ei & Et). unfold exfs_read_at. rewrite Am, Ei, Et. apply step_still; [done|done|done|]. split; [done|]. by rewrite E.
  - destruct Hft as (i & _ & _ & _ & Hst). destruct (read_at_spec d V s n c off cap N Hf Hs Hn Am Hst) as (s' & -> & R1 & R2 & R3); [lia|lia|].
    apply step_still; [done|congruence|done|]. split; [done|]. by rewrite E.
  - unfold exfs_read_at. rewrite Am, Hft. apply step_still; [done|done|done|]. split; [done|]. by rewrite E.
Qed.

Lemma step_ask n : no_nul n -> fpost V s T (FStat n) (fexec (FStat n) V s) /\ fpost V s T (FSize n) (fexec (FSize n) V s).
Proof.
  intros Hn. pose proof (sm_active _ _ _ S) as [Am _]. destruct (sm_dev _ _ _ S) as [Hs Hd]. pose proof (find_tree n Hn) as Hft. cbn [fexec].
  split; apply step_still; try done; (split; [done|split; [done|]]); unfold exfs_stat, exfs_size; rewrite ?Am; cbn [negb].
  - destruct (is_root n); [done|]. destruct (T !! n) as [[|c]|]; [destruct Hft as (i & -> & ->)|destruct Hft as (i & -> & -> & _)|rewrite Hft]; done.
  - destruct (T !! n) as [[|c]|]; [destruct Hft as (i & -> & ->)|destruct Hft as (i & -> & -> & -> & _)|rewrite Hft]; done.
Qed.

Lemma step_any op : flegal op -> fpost V s T op (fexec op V s).
Proof.
  destruct op as [n|n|n|n buf|n off buf|n off cap|n|n]; cbn [flegal].
  - intros Hn. pose proof (step_new EXFS_TYPE_FILE n (TFile []) Hn ltac:(by left)) as H. cbn [fexec]. unfold exfs_create.
    destruct (exfs_new _ V n) as [rc V']. destruct H as (T' & H1 & H2). split; [done|]. intros _. by exists T'.
  - intros Hn. pose proof (step_new EXFS_TYPE_DIR n TDir Hn ltac:(by right)) as H. cbn [fexec]. unfold exfs_mkdir.
    destruct (exfs_new _ V n) as [rc V']. destruct H as (T' & H1 & H2). split; [done|]. intros _. by exists T'.
  - intros Hn. pose proof (step_delete n Hn) as H. cbn [fexec]. destruct (exfs_delete V n) as [rc V']. destruct H as (T' & H1 & H2).
    split; [done|]. intros _. by exists T'.
  - intros (H1 & H2 & H3). by apply step_write.
  - intros (H1 & H2 & H3 & H4). by apply step_write_at.
  - intros (H1 & H2 & H3). by apply step_read.
  - intros Hn. by apply step_ask.
  - intros Hn. by apply step_ask.
Qed.
End Step.

(** * Histories *)

(** Calls one after the other, with their answers, on a device that works. *)
Inductive history : Vol D * D -> list (fop * Z * list Z) -> Vol D * D -> Prop :=
  | hist_nil V s : history (V, s) [] (V, s)
  | hist_cons V s op rc out V1 s1 tr c : flegal op -> fexec op V s = (rc, out, V1, s1) -> bd_dead s1 = false ->
      history (V1, s1) tr c -> history (V, s) ((op, rc, out) :: tr) c.

Inductive tree_history : Tree -> list (fop * Z * list Z) -> Tree -> Prop :=
  | th_nil T : tree_history T [] T
  | th_cons T op rc out T1 tr T' : tree_spec op T rc out T1 -> tree_history T1 tr T' -> tree_history T ((op, rc, out) :: tr) T'.

Lemma history_sim a tr b : history a tr b -> forall T, sim a.1 a.2 T ->
  exists T', tree_history T tr T' /\ sim b.1 b.2 T' /\ steady a.1 b.1 /\ (forall x, owned a.1 x -> owned b.1 x).
Proof.
  induction 1 as [V s|V s op rc out V1 s1 tr c Hl E Hd H IH]; cbn [fst snd] in *; intros T HS.
  { exists T. split_and!; [constructor|done|apply steady_refl|done]. }
  pose proof (step_any V s T HS op Hl) as Hp. rewrite E in Hp. destruct Hp as [_ Hp]. destruct (Hp Hd) as (T1 & K1 & K2 & K3 & K4).
  destruct (IH T1 K2) as (T' & L1 & L2 & L3 & L4). exists T'. split_and!; [by apply (th_cons _ _ _ _ T1)|done|by apply (steady_trans _ V1)|].
  intros x Hx. by apply L4, K4.
Qed.

(** The blocks the last commit refers to: superblocks and inode tables, the
    current slots of the map, and everything the files and the deferred list own. *)
Definition committed V (b : Z) : Prop :=
  0 <= b < 18 \/ owned V b \/ exists g : Z, group (v_gm V) g /\ b = slot_block (v_gm V) g (nthZ (m_slot (v_gm V)) g).

Lemma committed_closed V s b : fs_ok d V s -> committed V b -> 0 <= b /\ ~ pending (v_gm V) b /\ ~ free_block d V s b.
Proof.
  intros Hf Hb. pose proof (go_geo _ _ _ (ao_gm _ _ _ (fo_alloc _ _ _ Hf))) as G. destruct Hb as [Hb|[Hb|(g & Hg & ->)]].
  - split_and!; [lia| |intros [Hd _]; pose proof (data_block_ge d _ b G Hd); lia].
    intros (g & Hg & ->). pose proof (gg_slot _ _ G g Hg). pose proof (gg_gb _ _ G). rewrite (slot_block_eq d) in Hb by done. destruct Hg.
    destruct (Z.eqb_spec g 0); [lia|]. nia.
  - destruct (owned_block d V s b Hf Hb) as (_ & ? & ? & ?). split_and!; [lia|done|done].
  - pose proof (gg_slot _ _ G g Hg) as Hsl. split_and!.
    + apply (slot_block_pos d); [done|done|lia].
    + intros (g' & Hg' & E). pose proof (gg_slot _ _ G g' Hg'). apply (slot_block_inj d) in E as [-> E]; [lia|done|done|done|lia|lia].
    + intros [Hd _]. by apply (data_not_slot d (v_gm V) _ g (nthZ (m_slot (v_gm V)) g)) in Hd; [|done|done|lia].
Qed.

Lemma committed_steady V V' b : steady V V' -> (forall x, owned V x -> owned V' x) -> committed V b -> committed V' b.
Proof.
  intros (_ & _ & _ & (A1 & A2 & A3 & A4 & A5 & A6) & _) Hown [Hb|[Hb|(g & Hg & ->)]]; [by left|right; left; by apply Hown|right; right].
  exists g. unfold group, slot_block in *. by rewrite A4, A5, A6.
Qed.

Lemma history_blocks a tr b : history a tr b -> forall T x, sim a.1 a.2 T -> committed a.1 x -> block d b.2 x = block d a.2 x.
Proof.
  induction 1 as [V s|V s op rc out V1 s1 tr c Hl E Hd H IH]; cbn [fst snd] in *; intros T x HS Hx; [done|].
  pose proof (step_any V s T HS op Hl) as Hp. rewrite E in Hp. destruct Hp as [Hsafe Hp]. destruct (Hp Hd) as (T1 & K1 & K2 & K3 & K4).
  rewrite (IH T1 x K2 (committed_steady V V1 x K3 K4 Hx)). destruct (committed_closed V s x (sm_fs _ _ _ HS) Hx) as (H1 & H2 & H3). by apply Hsafe.
Qed.

(** C5: a mounted volume refines a tree of byte strings. Any sequence of
    creations, deletions, replacements, writes into the middle or past the end,
    reads and queries, with any names and buffers, answers what the same
    operations on a finite map from names to byte strings answer, and leaves
    the volume holding exactly the tree after them, all invariants included:
    the extents of the files are apart and in use, sizes and zero tails right. *)
Theorem exfs_refines_tree V s T tr V' s' : sim V s T -> history (V, s) tr (V', s') -> exists T', tree_history T tr T' /\ sim V' s' T'.
Proof. intros HS H. destruct (history_sim _ _ _ H T HS) as (T' & H1 & H2 & _). by exists T'. Qed.

(** copy on write. Until the next commit no call writes a block that the
    last commit refers to, neither a superblock, an inode table, a current slot
    of the map, nor a block of a file or of the deferred list as they were at
    the start, also not the call during which the device stops. *)
Theorem exfs_copy_on_write V s T tr V1 s1 op : sim V s T -> history (V, s) tr (V1, s1) -> flegal op ->
  let '(_, _, _, s2) := fexec op V1 s1 in forall b, committed V b -> block d s2 b = block d s b.
Proof.
  intros HS H Hl. destruct (history_sim _ _ _ H T HS) as (T1 & _ & HS1 & Hst & Hown). cbn [fst snd] in *.
  pose proof (step_any V1 s1 T1 HS1 op Hl) as Hp. destruct (fexec op V1 s1) as [[[rc out] V2] s2]. destruct Hp as [Hsafe _]. intros b Hb.
  pose proof (history_blocks _ _ _ H T b HS Hb) as Hb1. cbn [snd] in Hb1. rewrite <- Hb1. destruct (committed_closed V1 s1 b (sm_fs _ _ _ HS1) (committed_steady V V1 b Hst Hown Hb)) as (H1 & H2 & H3).
  by apply Hsafe.
Qed.

End Tree.

(** * Witnesses: an empty volume of 34 blocks on a RAM disk *)

Definition demo_mounted (m : GMap RamDisk) : Vol RamDisk :=
  mkVol (Some demo_dev) 1 34 1 10 true false false m 18 (replicate 128 demo_file) (fun _ => mkExt 0 0) (replicate 2048 0) [].

Lemma demo_sim : exists m s, sim demo_dev (demo_mounted m) s ∅.
Proof.
  destruct demo_formatted as (m & s & (Hm & _) & Hs & Ht). exists m, s.
  assert (forall i f, v_files (demo_mounted m) !! i = Some f -> f = demo_file) as Hu by (intros i f Hf; by apply lookup_replicate in Hf as [-> _]).
  assert (forall i f, ~ in_use (demo_mounted m) i f) as Hno by (intros i f [Hi Hif]; by rewrite (Hu i f Hi) in Hif).
  assert (ns_ok (demo_mounted m)) as N.
  { apply unused_ns_ok; [split; [apply length_replicate|]|]; intros i f Hf; rewrite (Hu i f Hf); [apply length_replicate|done]. }
  assert (forall i f, v_files (demo_mounted m) !! i = Some f -> f_used f = true -> False) as Hno' by (intros i f Hi Hif; by apply (Hno i f)).
  split; [done| |by split|done|].
  - split.
    + split; [done|by split|done|done|cbn; lia].
    + split; [apply length_replicate|apply length_replicate| | |]; intros i; intros; exfalso; eauto.
    + intros i f Hf. rewrite (Hu i f Hf). apply length_replicate.
    + intros i f Hi. by apply Hno in Hi.
    + intros i j f g b Hi. by apply Hno in Hi.
    + split; constructor.
    + intros i f b Hi. by apply Hno in Hi.
    + intros b [(i & f & Hi & _)|Hb]; [by apply Hno in Hi|by apply not_elem_of_nil in Hb].
  - split.
    + intros n c. rewrite lookup_empty. split; [done|]. intros (i & f & Hi & _). by apply Hno in Hi.
    + intros n. rewrite lookup_empty. split; [done|]. intros (i & f & Hi & Hif & _). destruct (Hno' i f Hi Hif).
Qed.

(** "|a" created, then three bytes written to it. *)
Definition demo_name : list Z := [124; 97].

Lemma demo_create m s : fexec (FCreate demo_name) (demo_mounted m) s = (EXFS_OK, [], (exfs_create (demo_mounted m) demo_name).2, s).
Proof. reflexivity. Qed.

Lemma demo_legal : flegal (FCreate demo_name) /\ flegal (FWrite demo_name [1; 2; 3]).
Proof. cbn [flegal]. split_and!; repeat constructor; cbn; lia. Qed.

Lemma demo_history m s : let '(rc, out, V', s') := fexec (FWrite demo_name [1; 2; 3]) (exfs_create (demo_mounted m) demo_name).2 s in
  history demo_dev (demo_mounted m, s) [(FCreate demo_name, EXFS_OK, []); (FWrite demo_name [1; 2; 3], rc, out)] (V', s').
Proof.
  destruct (fexec (FWrite demo_name [1; 2; 3]) _ s) as [[[rc out] V'] s'] eqn:E.
  eapply hist_cons; [apply demo_legal|apply demo_create|done|]. eapply hist_cons; [apply demo_legal|exact E|done|constructor].
Qed.

Lemma exfs_refines_tree_witness : exists m s rc out V' s' T', sim demo_dev (demo_mounted m) s ∅ /\
  tree_history ∅ [(FCreate demo_name, EXFS_OK, []); (FWrite demo_name [1; 2; 3], rc, out)] T' /\ sim demo_dev V' s' T'.
Proof.
  destruct demo_sim as (m & s & HS). pose proof (demo_history m s) as H.
  destruct (fexec (FWrite demo_name [1; 2; 3]) _ s) as [[[rc out] V'] s'].
  destruct (exfs_refines_tree demo_dev (demo_mounted m) s ∅ _ V' s' HS H) as (T' & H1 & H2).
  exists m, s, rc, out, V', s', T'. split; [exact HS|]. split; [exact H1|exact H2].
Defined.

Lemma exfs_copy_on_write_witness : exists m s, sim demo_dev (demo_mounted m) s ∅ /\
  let '(_, _, _, s2) := fexec (FWrite demo_name [1; 2; 3]) (exfs_create (demo_mounted m) demo_name).2 s in
  forall b, 0 <= b < 18 -> block demo_dev s2 b = block demo_dev s b.
Proof.
  destruct demo_sim as (m & s & HS).
  assert (history demo_dev (demo_mounted m, s) [(FCreate demo_name, EXFS_OK, [])] ((exfs_create (demo_mounted m) demo_name).2, s)) as H.
  { eapply hist_cons; [apply demo_legal|apply demo_create|done|constructor]. }
  pose proof (exfs_copy_on_write demo_dev (demo_mounted m) s ∅ _ _ _ (FWrite demo_name [1; 2; 3]) HS H (proj2 demo_legal)) as Hc.
  exists m, s. split; [exact HS|]. destruct (fexec (FWrite demo_name [1; 2; 3]) _ s) as [[[rc out] V'] s']. intros b Hb. apply Hc. left. exact Hb.
Defined.

