(* ===== verification/ExfsImage.v ===== *)
(** The EXFS disk format: what the inode records and the chain blocks of a
    volume say, and that decoding what was encoded gives it back. *)

From S2P Require Import Prelude.
From S2P Require Import Bytes.
From S2P Require Import Blk.
From S2P Require Import ExfsDefs.
From S2P Require Import Gmap.
From S2P Require Import GmapOk.
From S2P Require Import Sb.
From S2P Require Import Exfs.
From S2P Require Import ExfsNames.
From S2P Require Import ExfsPool.
From S2P Require Import ExfsData.
From S2P Require Import ExfsFiles.
From S2P Require Import ExfsWrite.
From S2P Require Import ExfsWriteAt.

(** * Extents in a page *)

(** The C type of an extent. *)
Definition ext_typed (e : ExfsExtent) : Prop := 0 <= x_start e < 2 ^ 64 /\ 0 <= x_len e < 2 ^ 32.

Lemma nthZ_put64_far p o v j : 0 <= o -> o + 8 <= lenZ p -> 0 <= j -> field_apart o 8 j 1 -> nthZ (put64 p o v) j = nthZ p j.
Proof.
  intros Ho Hl Hj Hf. unfold field_apart in Hf. unfold put64. rewrite nthZ_put32_ne by (rewrite ?length_put32; unfold field_apart; lia).
  apply nthZ_put32_ne; unfold field_apart; lia.
Qed.

Lemma put_ext_spec r o e : bytes_ok r -> 0 <= o -> o + 16 <= lenZ r ->
  length (put_ext r o e) = length r /\ bytes_ok (put_ext r o e) /\ (ext_typed e -> get_ext (put_ext r o e) o = e) /\
  (forall j, 0 <= j -> field_apart o 16 j 1 -> nthZ (put_ext r o e) j = nthZ r j).
Proof.
  intros Hr Ho Hl. unfold put_ext. pose proof (length_put64 r o (x_start e)) as Hl1. split_and!.
  - by rewrite length_put32.
  - by apply bytes_ok_put32, bytes_ok_put64.
  - intros [Hs Hn]. unfold get_ext. rewrite get64_put32_ne, get64_put64, get32_put32 by (unfold field_apart; try apply bytes_ok_put64; (done || lia)). by destruct e.
  - intros j Hj Hf. unfold field_apart in Hf. rewrite nthZ_put32_ne by (unfold field_apart; lia). apply nthZ_put64_far; unfold field_apart; lia.
Qed.

Lemma get_ext_same p q o : (forall j, o <= j < o + 12 -> nthZ p j = nthZ q j) -> get_ext p o = get_ext q o.
Proof. intros H. unfold get_ext. f_equal; [apply get64_ext|apply get32_ext]; intros j Hj; apply H; lia. Qed.

Lemma length_get_exts p o n : 0 <= n -> lenZ (get_exts p o n) = n.
Proof. intros Hn. unfold get_exts. rewrite length_fmap, length_seqZ. lia. Qed.

Lemma put_exts_spec r o l : bytes_ok r -> 0 <= o -> o + 16 * lenZ l <= lenZ r ->
  length (put_exts r o l) = length r /\ bytes_ok (put_exts r o l) /\ (Forall ext_typed l -> get_exts (put_exts r o l) o (lenZ l) = l) /\
  (forall j, 0 <= j -> field_apart o (16 * lenZ l) j 1 -> nthZ (put_exts r o l) j = nthZ r j).
Proof.
  intros Hr Ho Hl. unfold put_exts. set (step := fun i r => put_ext r (o + i * 16) (default (mkExt 0 0) (l !! Z.to_nat i))).
  assert (forall n, 0 <= n <= lenZ l -> let r' := for_range 0 n step r in length r' = length r /\ bytes_ok r' /\
    (forall j, 0 <= j -> field_apart o (16 * n) j 1 -> nthZ r' j = nthZ r j) /\
    (forall i e, 0 <= i < n -> l !! Z.to_nat i = Some e -> ext_typed e -> get_ext r' (o + i * 16) = e)) as H.
  { intros n Hn. apply (for_range_inv (fun n r' => length r' = length r /\ bytes_ok r' /\
      (forall j, 0 <= j -> field_apart o (16 * n) j 1 -> nthZ r' j = nthZ r j) /\
      (forall i e, 0 <= i < n -> l !! Z.to_nat i = Some e -> ext_typed e -> get_ext r' (o + i * 16) = e))); [lia|by split_and!; (done || lia)|].
    intros k r' Hk (L & B & F & G). rewrite Z.add_0_l. unfold step. set (e := default _ _).
    destruct (put_ext_spec r' (o + k * 16) e B ltac:(lia) ltac:(lia)) as (P1 & P2 & P3 & P4). split_and!; [congruence|done| |].
    - intros j Hj Hf. unfold field_apart in *. rewrite P4 by lia. apply F; lia.
    - intros i e' Hi El He. destruct (decide (i = k)) as [->|Hne].
      + assert (e = e') as <- by (unfold e; by rewrite El). by apply P3.
      + rewrite <- (G i e') by (done || lia). apply get_ext_same. intros j Hj. apply P4; unfold field_apart; lia. }
  destruct (H (lenZ l) ltac:(lia)) as (H1 & H2 & H3 & H4). split_and!; try done. intros Ht.
  apply (list_eq_same_length _ _ (length l)); [done|pose proof (length_get_exts (for_range 0 (lenZ l) step r) o (lenZ l) ltac:(lia)); lia|].
  intros i x y Hi Hx Hy. unfold get_exts in Hx. rewrite list_lookup_fmap_Some in Hx. destruct Hx as (k & -> & [-> Hk]%lookup_seqZ).
  apply H4; [lia|by rewrite Z.add_0_l, Nat2Z.id|]. rewrite Forall_lookup in Ht. by apply (Ht i).
Qed.

(** Strings that agree up to the terminator. *)
Lemma cstr_same l : forall l', (forall k, 0 <= k <= lenZ (cstr l) -> nthZ l' k = nthZ l k) -> cstr l' = cstr l.
Proof.
  assert (forall l', nthZ l' 0 = 0 -> cstr l' = []) as H0.
  { intros [|c l'] H; [done|]. rewrite nthZ_cons_0 in H. subst. done. }
  induction l as [|c l IH]; intros l' H; [apply H0; by apply H|]. cbn [cstr] in *. destruct (Z.eqb_spec c 0) as [->|Hc].
  - apply H0. rewrite H by (cbn; lia). done.
  - pose proof (H 0 ltac:(cbn; lia)) as Hh. rewrite (nthZ_cons_0 c) in Hh. destruct l' as [|c' l']; [by rewrite nthZ_over in Hh by (cbn; lia)|].
    rewrite nthZ_cons_0 in Hh. subst c'. cbn [cstr]. rewrite (proj2 (Z.eqb_neq c 0)) by done. f_equal. apply IH. intros k Hk.
    specialize (H (k + 1) ltac:(cbn [length]; lia)). by rewrite !nthZ_cons_S in H by lia.
Qed.

Lemma cstr_end l : nthZ l (lenZ (cstr l)) = 0.
Proof.
  induction l as [|c l IH]; [done|]. cbn [cstr]. destruct (Z.eqb_spec c 0) as [->|]; [done|]. cbn [length].
  replace (Z.of_nat (S (length (cstr l)))) with (lenZ (cstr l) + 1) by lia. rewrite nthZ_cons_S by lia. done.
Qed.

(** * Chain blocks *)

(** The first block of a chain, 0 if there is none. *)
Definition chain_head (C : list Z) : Z := match C with [] => 0 | c :: _ => c end.

Section Image.
Context {D : Type} (d : BlkDev D) `{!BlockDevice d} `{!FailStop d}.
Implicit Types (V : Vol D) (s : D) (f g : ExfsFile).

(** On the disk, the blocks [C] form a chain from [blk] that holds the extents [E]. *)
Fixpoint chain_at s (blk : Z) (C : list Z) (E : list ExfsExtent) : Prop :=
  match C with
  | [] => blk = 0 /\ E = []
  | c :: C => blk = c /\ c <> 0 /\ let page := block d s c in let cnt := get32 page 8 in
    0 <= cnt <= 254 /\ cnt <= lenZ E /\ get_exts page 16 cnt = take (Z.to_nat cnt) E /\ chain_at s (get64 page 0) C (drop (Z.to_nat cnt) E)
  end.

Lemma chain_at_head s blk C E : chain_at s blk C E -> blk = chain_head C.
Proof. destruct C; cbn; tauto. Qed.

Lemma chain_at_same s s' C : forall blk E, (forall b, b ∈ C -> block d s' b = block d s b) -> chain_at s blk C E -> chain_at s' blk C E.
Proof.
  induction C as [|c C IH]; intros blk E Hb; cbn [chain_at]; [done|]. rewrite Hb by left. intros (H1 & H2 & H3 & H4 & H5 & H6). split_and!; try (done || apply H3).
  apply IH; [|done]. intros b ?. apply Hb. by right.
Qed.

(** Following a chain. *)
Lemma chain_loop_spec V C : v_dev V = Some d -> spb_of d (v_spb V) -> (forall b, b ∈ C -> on_dev d b) ->
  forall fuel blk E stage chain nchain s, bd_ok s -> chain_at s blk C E -> 0 <= nchain -> nchain + lenZ C <= 16 -> (length C < fuel)%nat ->
    lenZ stage + lenZ E <= 2048 -> length chain = 16%nat ->
    exists chain' s', chain_loop fuel V blk stage chain nchain s = (EXFS_OK, stage ++ E, chain', nchain + lenZ C, s') /\
      length chain' = 16%nat /\ take (Z.to_nat (nchain + lenZ C)) chain' = take (Z.to_nat nchain) chain ++ C /\
      bd_ok s' /\ bd_dead s' = bd_dead s /\ same_disk d s s'.
Proof.
  intros Hd Hp. induction C as [|c C IH]; intros Hdev fuel blk E stage chain nchain s Hs Hat Hn Hlen Hf Hst Hch.
  { destruct Hat as [-> ->]. exists chain, s. destruct fuel; [cbn [length] in Hf; lia|]. cbn [chain_loop length]. rewrite !app_nil_r, Z.add_0_r. by split_and!. }
  destruct Hat as (-> & Hc0 & Hcnt & HcE & Hx & Hat). cbn [length] in *. destruct fuel as [|fuel]; [lia|]. cbn [chain_loop].
  rewrite (proj2 (Z.eqb_neq c 0)) by done. change EXFS_MAX_CHAIN with 16. rewrite (proj2 (Z.leb_gt 16 nchain)) by lia.
  destruct (blk_got_live d V c (replicate (Z.to_nat EXFS_BLOCK) 0) s Hd Hp (Hdev c ltac:(left)) ltac:(apply length_replicate) ltac:(apply bytes_ok_zeros) Hs)
    as (s1 & -> & Hs1 & Hd1 & Hsame). rewrite Z.eqb_refl. cbn [negb]. set (page := block d s c) in *. set (cnt := get32 page 8) in *.
  change EXFS_IND_EXT with 254. change EXFS_MAX_EXT with 2048. rewrite (u32_small (lenZ stage + cnt)) by lia.
  rewrite (proj2 (Z.ltb_ge 254 cnt)), (proj2 (Z.ltb_ge 2048 (lenZ stage + cnt))) by lia. cbn [orb]. rewrite Hx.
  destruct (IH (fun b H => Hdev b ltac:(by right)) fuel (get64 page 0) (drop (Z.to_nat cnt) E) (stage ++ take (Z.to_nat cnt) E) (setZ chain nchain c) (nchain + 1) s1)
    as (chain' & s' & -> & L & Ht & Hs' & Hd' & Hsame'); try done.
  - apply (chain_at_same s); [|done]. intros b Hb. apply Hsame. destruct (Hdev b ltac:(by right)). lia.
  - lia.
  - lia.
  - lia.
  - rewrite length_app, length_take, length_drop. lia.
  - by rewrite length_setZ.
  - exists chain', s'. rewrite <- app_assoc, take_drop. replace (nchain + 1 + lenZ C) with (nchain + Z.of_nat (S (length C))) in * by lia. split_and!; try done.
    + rewrite Ht. replace (Z.to_nat (nchain + 1)) with (S (Z.to_nat nchain)) by lia. rewrite (take_S_r (setZ chain nchain c) _ c).
      2: { unfold setZ. apply list_lookup_insert_eq. lia. }
      unfold setZ. rewrite take_insert_ge by lia. by rewrite <- app_assoc.
    + congruence.
    + intros b Hb. rewrite Hsame' by done. by apply Hsame.
Qed.

(** ** Writing a chain *)

Lemma chain_page_spec V f nind k : 0 <= k -> 0 <= f_n f -> Forall ext_typed (fext V f) -> 8 + 254 * k < f_n f ->
  let cnt := Z.min 254 (f_n f - (8 + 254 * k)) in let page := chain_page V f nind k in
  length page = 4096%nat /\ bytes_ok page /\ get32 page 8 = cnt /\
  ((k + 1 < nind -> 0 <= nthZ (f_chain f) (k + 1) < 2 ^ 64) -> get64 page 0 = (if k + 1 <? nind then nthZ (f_chain f) (k + 1) else 0)) /\
  get_exts page 16 cnt = take (Z.to_nat cnt) (drop (Z.to_nat (8 + 254 * k)) (fext V f)).
Proof.
  intros Hk Hn Ht Hlt cnt page. unfold page, chain_page. change EXFS_INL with 8. change EXFS_IND_EXT with 254.
  replace (8 + k * 254) with (8 + 254 * k) by lia. assert ((if 254 <? f_n f - (8 + 254 * k) then 254 else f_n f - (8 + 254 * k)) = cnt) as -> by (unfold cnt; zcase).
  set (nx := if k + 1 <? nind then _ else 0). set (l := take _ (drop _ (fext V f))).
  assert (lenZ l = cnt) as Hl by (unfold l; rewrite length_take, length_drop; pose proof (length_fext V f Hn); lia).
  set (p0 := replicate (Z.to_nat EXFS_BLOCK) 0). assert (length p0 = 4096%nat) as L0 by apply length_replicate.
  assert (bytes_ok (put32 (put64 p0 0 nx) 8 cnt)) as B by (apply bytes_ok_put32, bytes_ok_put64, bytes_ok_zeros).
  destruct (put_exts_spec (put32 (put64 p0 0 nx) 8 cnt) 16 l B ltac:(lia)) as (P1 & P2 & P3 & P4); [rewrite length_put32, length_put64; lia|].
  split_and!; [by rewrite P1, length_put32, length_put64|done| | |].
  - rewrite (get32_ext _ (put32 (put64 p0 0 nx) 8 cnt)); [|intros j Hj; apply P4; unfold field_apart; lia].
    apply get32_put32; rewrite ?length_put64; try lia. apply bytes_ok_put64, bytes_ok_zeros.
  - intros Hr. rewrite (get64_ext _ (put32 (put64 p0 0 nx) 8 cnt)); [|intros j Hj; apply P4; unfold field_apart; lia].
    rewrite get64_put32_ne by (rewrite ?length_put64; unfold field_apart; lia). apply get64_put64; try lia; [apply bytes_ok_zeros|]. unfold nx. destruct (Z.ltb_spec (k + 1) nind); lia.
  - rewrite Hl in P3. apply P3. apply Forall_take, Forall_drop, Ht.
Qed.

(** The pages of a file, written to the blocks of its chain, form the chain of
    the extents that the record has no room for. *)
Lemma chain_pages_at V s f nind : 8 < f_n f -> nind = nind_of (f_n f) -> Forall ext_typed (fext V f) -> nind <= lenZ (f_chain f) ->
  (forall k, 0 <= k < nind -> 0 < nthZ (f_chain f) k < 2 ^ 64 /\ block d s (nthZ (f_chain f) k) = chain_page V f nind k) ->
  chain_at s (nthZ (f_chain f) 0) (take (Z.to_nat nind) (f_chain f)) (drop 8 (fext V f)).
Proof.
  intros Hn Hnind Ht Hl Hpg. pose proof (length_fext V f ltac:(lia)) as Hfx.
  assert (254 * (nind - 1) < f_n f - 8 <= 254 * nind) as Hq.
  { rewrite Hnind. unfold nind_of. change EXFS_INL with 8. change EXFS_IND_EXT with 254. pose proof (Z.div_mod (f_n f - 8 + 254 - 1) 254 ltac:(lia)).
    pose proof (Z.mod_pos_bound (f_n f - 8 + 254 - 1) 254 ltac:(lia)). lia. }
  assert (forall m k, 0 <= k -> k + Z.of_nat m = nind -> (0 < m)%nat ->
    chain_at s (nthZ (f_chain f) k) (take m (drop (Z.to_nat k) (f_chain f))) (drop (Z.to_nat (8 + 254 * k)) (fext V f))) as H.
  2: { specialize (H (Z.to_nat nind) 0 ltac:(lia) ltac:(lia) ltac:(lia)). by rewrite Z.mul_0_r in H. }
  induction m as [|m IH]; intros k Hk Hm Hm0; [lia|]. destruct (lookup_lt_is_Some_2 (f_chain f) (Z.to_nat k)) as [c Hc]; [lia|].
  assert (nthZ (f_chain f) k = c) as Ec by (unfold nthZ; by rewrite Hc). rewrite (drop_S _ c) by done. cbn [take chain_at].
  destruct (Hpg k ltac:(lia)) as [Hr Hb]. rewrite Ec in Hr, Hb. rewrite Hb. clear Hb.
  destruct (chain_page_spec V f nind k Hk ltac:(lia) Ht ltac:(lia)) as (_ & _ & -> & P4 & P5). rewrite P5. set (cnt := Z.min 254 _) in *.
  split_and!; try (done || lia); [rewrite length_drop; lia|].
  rewrite P4 by (intros Hlt; destruct (Hpg (k + 1) ltac:(lia)); lia). rewrite drop_drop.
  destruct (Z.ltb_spec (k + 1) nind) as [Hlt|Hge].
  - replace (Z.to_nat (8 + 254 * k) + Z.to_nat cnt)%nat with (Z.to_nat (8 + 254 * (k + 1))) by lia.
    replace (S (Z.to_nat k)) with (Z.to_nat (k + 1)) by lia. apply IH; lia.
  - assert (m = 0%nat) as -> by lia. split; [done|]. apply drop_ge. lia.
Qed.

(** * Inode records *)

(** The copy of the name. *)
Lemma put_name_spec r (name : list Z) : length r = 256%nat -> bytes_ok r ->
  let r' := for_range 0 (EXFS_NAME_MAX + 1) (fun i r => setZ r (16 + i) (u8 (nthZ name i))) r in
  length r' = 256%nat /\ bytes_ok r' /\ (forall i, 0 <= i < 96 -> nthZ r' (16 + i) = u8 (nthZ name i)) /\
  (forall j, 0 <= j -> field_apart 16 96 j 1 -> nthZ r' j = nthZ r j).
Proof.
  intros Hl Hr. change (EXFS_NAME_MAX + 1) with 96.
  apply (for_range_inv (fun n r' => length r' = 256%nat /\ bytes_ok r' /\ (forall i, 0 <= i < n -> nthZ r' (16 + i) = u8 (nthZ name i)) /\
    (forall j, 0 <= j -> field_apart 16 n j 1 -> nthZ r' j = nthZ r j))); [lia|split_and!; (done || lia)|].
  intros k r' Hk (L & B & F & G). rewrite Z.add_0_l. split_and!.
  - by rewrite length_setZ.
  - apply bytes_ok_setZ; [done|apply u8_range].
  - intros i Hi. rewrite nthZ_setZ by lia. destruct (Z.eqb_spec (16 + i) (16 + k)) as [E|E]; [by replace i with k by lia|]. apply F. lia.
  - intros j Hj Hf. unfold field_apart in *. rewrite nthZ_setZ_ne by lia. apply G; lia.
Qed.

Lemma inode_encode_spec V f : let r := inode_encode V f in
  length r = 256%nat /\ bytes_ok r /\ get32 r 0 = (if f_used f then 1 else 0) /\
  (forall i, 0 <= i < 96 -> nthZ r (16 + i) = u8 (nthZ (f_name f) i)) /\
  (0 <= f_type f < 2 ^ 32 -> get32 r 4 = f_type f) /\ (0 <= f_size f < 2 ^ 64 -> get64 r 8 = f_size f) /\
  ((f_nchain f <> 0 -> 0 <= nthZ (f_chain f) 0 < 2 ^ 64) -> get64 r 112 = (if f_nchain f =? 0 then 0 else nthZ (f_chain f) 0)) /\
  (0 <= f_n f < 2 ^ 32 -> Forall ext_typed (fext V f) -> get32 r 120 = Z.min 8 (f_n f) /\
    get_exts r 128 (Z.min 8 (f_n f)) = take (Z.to_nat (Z.min 8 (f_n f))) (fext V f)).
Proof.
  unfold inode_encode. change EXFS_INL with 8. set (nl := if f_n f <? 8 then f_n f else 8). set (hd := if f_nchain f =? 0 then 0 else nthZ (f_chain f) 0).
  set (u := if f_used f then 1 else 0). set (r0 := replicate (Z.to_nat INODE_BYTES) 0).
  assert (length r0 = 256%nat) as L0 by apply length_replicate. assert (bytes_ok r0) as B0 by apply bytes_ok_zeros. clearbody r0.
  set (r3 := put64 (put32 (put32 r0 0 u) 4 (f_type f)) 8 (f_size f)).
  assert (length r3 = 256%nat) as L3 by (unfold r3; rewrite length_put64, !length_put32; done).
  assert (bytes_ok r3) as B3 by (unfold r3; by repeat first [apply bytes_ok_put64 | apply bytes_ok_put32]).
  destruct (put_name_spec r3 (f_name f) L3 B3) as (L4 & B4 & N4 & F4). set (r4 := for_range 0 (EXFS_NAME_MAX + 1) _ r3) in *.
  set (r6 := put32 (put64 r4 112 hd) 120 nl). assert (length r6 = 256%nat) as L6 by (unfold r6; by rewrite length_put32, length_put64).
  assert (bytes_ok r6) as B6 by (unfold r6; by apply bytes_ok_put32, bytes_ok_put64).
  assert (forall j, 0 <= j < 112 -> nthZ r6 j = nthZ r4 j) as F6.
  { intros j Hj. unfold r6. rewrite nthZ_put32_ne by (rewrite ?length_put64; unfold field_apart; lia). apply nthZ_put64_far; unfold field_apart; lia. }
  set (l := take (Z.to_nat nl) (fext V f)). assert (lenZ l <= 8) as Hl by (unfold l; rewrite length_take; unfold nl; destruct (Z.ltb_spec (f_n f) 8); lia).
  destruct (put_exts_spec r6 128 l B6 ltac:(lia) ltac:(lia)) as (L7 & B7 & X7 & F7). set (r7 := put_exts r6 128 l) in *.
  assert (forall j, 0 <= j < 112 -> nthZ r7 j = nthZ r4 j) as F. { intros j Hj. rewrite <- F6 by done. apply F7; unfold field_apart; lia. }
  assert (forall o, 0 <= o -> o + 4 <= 16 -> get32 r7 o = get32 r3 o) as G.
  { intros o Ho Ho'. apply get32_ext. intros j Hj. rewrite F by lia. apply F4; unfold field_apart; lia. }
  split_and!.
  - congruence.
  - done.
  - rewrite G by lia. unfold r3. rewrite (get32_ext _ (put32 (put32 r0 0 u) 4 (f_type f))).
    2: { intros j Hj. apply nthZ_put64_far; rewrite ?length_put32; unfold field_apart; lia. }
    rewrite get32_put32_ne by (rewrite ?length_put32; unfold field_apart; lia). apply get32_put32; try (done || lia). unfold u. by destruct (f_used f).
  - intros i Hi. rewrite F by lia. by apply N4.
  - intros Ht. rewrite G by lia. unfold r3. rewrite (get32_ext _ (put32 (put32 r0 0 u) 4 (f_type f))).
    2: { intros j Hj. apply nthZ_put64_far; rewrite ?length_put32; unfold field_apart; lia. }
    apply get32_put32; rewrite ?length_put32; (lia || by apply bytes_ok_put32).
  - intros Ht. rewrite (get64_ext _ r3). 2: { intros j Hj. rewrite F by lia. apply F4; unfold field_apart; lia. }
    apply get64_put64; rewrite ?length_put32; (lia || by repeat apply bytes_ok_put32).
  - intros Ht. rewrite (get64_ext _ r6); [|intros j Hj; apply F7; unfold field_apart; lia]. unfold r6.
    rewrite get64_put32_ne by (rewrite ?length_put64; unfold field_apart; lia). apply get64_put64; try (done || lia). unfold hd. zcase.
  - intros Hn Ht. assert (nl = Z.min 8 (f_n f)) as En by (unfold nl; zcase). rewrite <- En. pose proof (length_fext V f ltac:(lia)).
    assert (lenZ l = nl) as El by (unfold l; rewrite length_take; lia). split.
    + rewrite (get32_ext _ r6); [|intros j Hj; apply F7; unfold field_apart; lia]. apply get32_put32; rewrite ?length_put64; (lia || by apply bytes_ok_put64).
    + rewrite <- El at 1. apply X7. unfold l. by apply Forall_take.
Qed.

(** ** What a record says *)

(** The name in a record, as it is read. *)
Definition record_name (r : list Z) : list Z := setZ ((fun i => nthZ r (16 + i)) <$> seqZ 0 (EXFS_NAME_MAX + 1)) EXFS_NAME_MAX 0.

(** The record [r] on the disk of [s] is that of [f], with the extents [E]. *)
Definition inode_on s (r : list Z) f (E : list ExfsExtent) : Prop :=
  if f_used f then
    get32 r 0 <> 0 /\ get32 r 4 = f_type f /\ get64 r 8 = f_size f /\ cstr (record_name r) = cname f /\
    get32 r 120 = Z.min 8 (lenZ E) /\ get_exts r 128 (Z.min 8 (lenZ E)) = take 8 E /\
    chain_at s (get64 r 112) (chain_blocks f) (drop 8 E)
  else get32 r 0 = 0.

Lemma inode_on_same s s' r f E : (f_used f = true -> forall b, b ∈ chain_blocks f -> block d s' b = block d s b) -> inode_on s r f E -> inode_on s' r f E.
Proof.
  intros Hb. unfold inode_on. destruct (f_used f); [specialize (Hb eq_refl)|done]. intros (H1 & H2 & H3 & H4 & H5 & H6 & H7). split_and!; try done. by apply (chain_at_same s).
Qed.

(** The record of a file. *)
Lemma inode_encode_on V s f : f_used f = true -> length (f_name f) = 96%nat -> lenZ (cname f) <= 95 -> bytes_ok (cname f) ->
  0 <= f_type f < 2 ^ 32 -> 0 <= f_size f < 2 ^ 64 -> 0 <= f_n f <= 2048 -> Forall ext_typed (fext V f) -> 0 <= chain_head (chain_blocks f) < 2 ^ 64 ->
  0 <= f_nchain f <= 16 -> length (f_chain f) = 16%nat -> chain_at s (chain_head (chain_blocks f)) (chain_blocks f) (drop 8 (fext V f)) ->
  inode_on s (inode_encode V f) f (fext V f).
Proof.
  intros Hu Hln Hlc Hbn Ht Hs Hn Hx Hh Hc1 Hc2 Hat. destruct (inode_encode_spec V f) as (L & B & R0 & RN & R4 & R8 & R112 & RX). set (r := inode_encode V f) in *.
  pose proof (length_fext V f ltac:(lia)) as Hlx. unfold inode_on. rewrite Hu in *. rewrite Hlx. destruct (RX ltac:(lia) Hx) as [R120 R128].
  assert (chain_head (chain_blocks f) = if f_nchain f =? 0 then 0 else nthZ (f_chain f) 0) as Hhd.
  { unfold chain_blocks. destruct (Z.eqb_spec (f_nchain f) 0) as [->|]; [done|]. destruct (f_chain f) as [|c C]; [done|].
    by replace (Z.to_nat (f_nchain f)) with (S (Z.to_nat (f_nchain f - 1))) by lia. }
  split_and!; [by rewrite R0|by apply R4|by apply R8| |done| |].
  - apply cstr_same. unfold cname in *. intros k Hk. unfold record_name. change (EXFS_NAME_MAX + 1) with 96. change EXFS_NAME_MAX with 95.
    rewrite nthZ_setZ by (rewrite ?length_fmap, ?length_seqZ; lia). destruct (Z.eqb_spec k 95) as [->|Hk95].
    + assert (95 = lenZ (cstr (f_name f))) as E by lia. rewrite E. by rewrite cstr_end.
    + rewrite nthZ_map_seqZ, Z.add_0_l, RN by lia. destruct (decide (k = lenZ (cstr (f_name f)))) as [->|Hne]; [by rewrite cstr_end|].
      apply u8_small. rewrite cstr_nth by lia. by apply nthZ_range.
  - rewrite R128. by destruct (Z.min_spec 8 (f_n f)) as [[_ ->]|[? ->]]; [|rewrite !take_ge by lia].
  - rewrite R112; [by rewrite <- Hhd|]. rewrite Hhd in Hh. intros E. by rewrite (proj2 (Z.eqb_neq _ _) E) in Hh.
Qed.

(** The file that decoding gives: the one of the record, its slice not reserved yet. *)
Record decoded g (E : list ExfsExtent) f' (stage : list ExfsExtent) : Prop := {
  dc_used : f_used f' = f_used g;
  dc_dirty : f_dirty f' = false;
  dc_name : length (f_name f') = 96%nat;
  dc_chain : length (f_chain f') = 16%nat;
  dc_same : f_used g = true -> f_type f' = f_type g /\ f_size f' = f_size g /\ cname f' = cname g /\
    f_n f' = lenZ E /\ f_nchain f' = lenZ (chain_blocks g) /\ chain_blocks f' = chain_blocks g /\ stage = E
}.

Lemma length_record_name r : length (record_name r) = 96%nat.
Proof. unfold record_name. by rewrite length_setZ, length_fmap, length_seqZ. Qed.

Lemma inode_decode_spec V r f s g E : v_dev V = Some d -> spb_of d (v_spb V) -> bd_ok s -> inode_on s r g E ->
  (f_used g = true -> forall b, b ∈ chain_blocks g -> on_dev d b) ->
  (f_used g = true -> lenZ E <= 2048 /\ lenZ (chain_blocks g) <= 16) -> length (f_chain f) = 16%nat ->
  exists f' stage s', inode_decode V r f s = (EXFS_OK, f', stage, s') /\ decoded g E f' stage /\
    bd_ok s' /\ bd_dead s' = bd_dead s /\ same_disk d s s'.
Proof.
  intros Hd Hp Hs Hon Hdev Hl Hch. unfold inode_decode. fold (record_name r). pose proof (length_record_name r) as Hrn. unfold inode_on in Hon. destruct (f_used g) eqn:Hu.
  - destruct Hon as (Hu0 & Ht & Hz & Hn & Hni & Hx & Hat). destruct (Hl eq_refl) as [HlE HlC]. rewrite (proj2 (Z.eqb_neq (get32 r 0) 0)) by done. cbn [negb].
    rewrite Hni. change EXFS_INL with 8. rewrite (proj2 (Z.ltb_ge 8 _)) by lia. rewrite Hx, Ht, Hz.
    destruct (chain_loop_spec V (chain_blocks g) Hd Hp (Hdev eq_refl) (S (Z.to_nat EXFS_MAX_CHAIN)) (get64 r 112) (drop 8 E) (take 8 E) (f_chain f) 0 s)
      as (chain' & s' & -> & L & Htk & Hs' & Hd' & Hsame); try done.
    { change (Z.to_nat EXFS_MAX_CHAIN) with 16%nat. lia. }
    { rewrite length_take, length_drop. lia. }
    rewrite take_drop, Z.add_0_l in *. eexists _, _, _. split; [done|]. split; [|done]. split; cbn [f_used f_dirty f_name f_chain]; done.
  - rewrite Hon. cbn [Z.eqb negb]. eexists _, _, s. split; [done|]. split; [|by split_and!]. split; cbn [f_used f_dirty f_name f_chain]; try done. congruence.
Qed.
End Image.
