(* ===== verification/ExfsMount.v ===== *)
(** Mounting an EXFS volume: from the disk of a committed volume, whatever
    the static storage holds, [exfs_mount] gets the same tree back. *)

From S2P Require Import Prelude.
From S2P Require Import Bytes.
From S2P Require Import Blk.
From S2P Require Import ExfsDefs.
From S2P Require Import Gmap.
From S2P Require Import GmapOk.
From S2P Require Import Sb.
From S2P Require Import Exfs.
From S2P Require Import ExfsNames.
From S2P Require Import ExfsPool.
From S2P Require Import ExfsData.
From S2P Require Import ExfsFiles.
From S2P Require Import ExfsWrite.
From S2P Require Import ExfsWriteAt.
From S2P Require Import ExfsTree.
From S2P Require Import ExfsImage.

(** * Slices in order *)

(** The slice that mounting reserves for a file, and for a list of them. *)
Definition cap0 (f : ExfsFile) : Z := if negb (f_used f) || (f_n f =? 0) then 0 else slice_cap_for (f_n f).
Fixpoint caps (l : list ExfsFile) : Z := match l with [] => 0 | f :: l => cap0 f + caps l end.

Lemma caps_snoc l i f : l !! i = Some f -> caps (take (S i) l) = caps (take i l) + cap0 f.
Proof.
  revert i. induction l as [|g l IH]; intros [|i] Hi; try done; cbn [take caps].
  - injection Hi as ->. rewrite take_0. cbn [caps]. lia.
  - rewrite (IH i Hi). lia.
Qed.

Section Slices.
Context {D : Type}.
Implicit Types (V : Vol D).

(** A bitmap that is used up to [cur]. *)
Definition filled V (cur : Z) : Prop := length (v_pool_used V) = 2048%nat /\ forall k, 0 <= k -> pool_is_used V k = (k <? cur).

Lemma pool_scan_filled V cap cur : filled V cur -> 0 < cap -> forall fuel i run, 0 <= i ->
  (i <= cur /\ run = 0) \/ (cur <= i /\ run = i - cur /\ run < cap) -> cur + cap - i <= Z.of_nat fuel -> pool_scan fuel V cap i run = Some cur.
Proof.
  intros [_ Hb] Hc. induction fuel as [|fuel IH]; intros i run Hi Hr Hf; [lia|]. cbn [pool_scan]. rewrite Hb by lia.
  destruct (Z.ltb_spec i cur) as [Hlt|Hge]; [apply IH; lia|]. assert (run = i - cur) as -> by lia.
  destruct (Z.eqb_spec (i - cur + 1) cap); [f_equal; lia|]. apply IH; lia.
Qed.

(** A reservation then takes the next indices. *)
Lemma pool_reserve_filled V n cur : filled V cur -> 0 <= cur -> 0 < n <= 2048 -> cur + slice_cap_for n <= 16384 ->
  exists U, pool_reserve V n = (EXFS_OK, cur, slice_cap_for n, set_pool_used V U) /\ filled (set_pool_used V U) (cur + slice_cap_for n).
Proof.
  intros Hfl Hcur Hn Hroom. unfold pool_reserve. rewrite (proj2 (Z.eqb_neq n 0)) by lia. pose proof (slice_cap_spec n Hn) as Hcap.
  set (cap := slice_cap_for n) in *. clearbody cap. unfold pool_find. rewrite (pool_scan_filled V _ cur Hfl) by (change (Z.of_nat (Z.to_nat EXFS_POOL_EXT)) with 16384; lia).
  destruct (pool_mark_spec V cur cap true (proj1 Hfl) Hcur ltac:(lia) Hroom) as (U & -> & HU & Hb). exists U. split; [done|].
  split; [done|]. intros k Hk. unfold pool_is_used. cbn. rewrite Hb by done. rewrite (proj2 Hfl) by done. zcase.
Qed.

(** The indices of the files' slices. *)
Definition slices (l : list ExfsFile) : list Z := concat ((fun f => if f_used f then seqZ (f_ext_off f) (f_ext_cap f) else []) <$> l).

Lemma elem_of_slices l k : k ∈ slices l <-> exists i f, l !! i = Some f /\ f_used f = true /\ in_slice f k.
Proof.
  unfold slices. rewrite list_elem_of_In, in_concat. setoid_rewrite <- list_elem_of_In. setoid_rewrite list_elem_of_fmap. split.
  - intros (x & (f & -> & [i Hi]%list_elem_of_lookup) & Hk). exists i, f. destruct (f_used f); [|by apply elem_of_nil in Hk].
    apply elem_of_seqZ in Hk. by split_and!.
  - intros (i & f & Hi & Hu & Hk). eexists. split; [exists f; split; [done|by eapply list_elem_of_lookup_2]|]. rewrite Hu. by apply elem_of_seqZ.
Qed.

Lemma NoDup_slices l : (forall i j f g k, l !! i = Some f -> l !! j = Some g -> f_used f = true -> f_used g = true -> in_slice f k -> in_slice g k -> i = j) ->
  NoDup (slices l).
Proof.
  induction l as [|f l IH]; intros H; [constructor|]. unfold slices. cbn [fmap list_fmap concat]. apply NoDup_app. split_and!.
  - destruct (f_used f); [apply NoDup_seqZ|constructor].
  - intros k Hk Hk'. fold (slices l) in Hk'. apply elem_of_slices in Hk' as (j & g & Hj & Hu & Hg). destruct (f_used f) eqn:Hf; [|by apply elem_of_nil in Hk].
    apply elem_of_seqZ in Hk. specialize (H 0%nat (S j) f g k eq_refl Hj Hf Hu Hk Hg). done.
  - apply IH. intros i j f' g' k Hi Hj Hf Hg Hk Hk'. by injection (H (S i) (S j) f' g' k Hi Hj Hf Hg Hk Hk').
Qed.

Lemma caps_slices l : (forall i f, l !! i = Some f -> f_used f = true -> 0 <= f_ext_cap f /\ cap0 f <= f_ext_cap f) -> caps l <= lenZ (slices l).
Proof.
  induction l as [|f l IH]; intros H; [done|]. unfold slices. cbn [caps fmap list_fmap concat]. fold (slices l). rewrite length_app.
  specialize (IH (fun i => H (S i))). specialize (H 0%nat f eq_refl). unfold cap0 in *. destruct (f_used f); cbn [negb orb] in *.
  - destruct H as [H1 H2]; [done|]. rewrite length_seqZ. lia.
  - cbn. lia.
Qed.

Lemma cap0_nonneg f : (f_used f = true -> 0 <= f_n f <= 2048) -> 0 <= cap0 f.
Proof.
  intros H. unfold cap0. destruct (f_used f); cbn [negb orb]; [|done]. destruct (Z.eqb_spec (f_n f) 0); [done|].
  pose proof (slice_cap_spec (f_n f) ltac:(specialize (H eq_refl); lia)). lia.
Qed.

(** All slices fit when mounting hands them out anew. *)
Lemma caps_pool V : pool_ok V -> (forall i f, in_use V i f -> fits (f_n f) (f_ext_cap f)) -> caps (v_files V) <= 16384.
Proof.
  intros Hp Hf. transitivity (lenZ (slices (v_files V))).
  - apply caps_slices. intros i f Hi Hu. destruct (po_slice V Hp i f Hi Hu) as (H1 & H2 & H3). destruct (Hf i f) as [H4 H5]; [done|].
    unfold cap0. rewrite Hu. cbn [negb orb]. split; [lia|]. destruct (Z.eqb_spec (f_n f) 0); lia.
  - assert (slices (v_files V) ⊆+ seqZ 0 16384) as Hs.
    { apply NoDup_submseteq; [apply NoDup_slices, Hp|]. intros k (i & f & Hi & Hu & Hk)%elem_of_slices. apply elem_of_seqZ.
      destruct (po_slice V Hp i f Hi Hu). unfold in_slice in Hk. lia. }
    apply submseteq_length in Hs. rewrite length_seqZ in Hs. lia.
Qed.

Lemma caps_take l i : (forall i f, l !! i = Some f -> 0 <= cap0 f) -> 0 <= caps (take i l) <= caps l.
Proof.
  revert i. induction l as [|f l IH]; intros [|i] H; cbn [take caps]; try lia.
  - specialize (IH 0%nat (fun j => H (S j))). specialize (H 0%nat f eq_refl). rewrite take_0 in IH. cbn in IH. lia.
  - specialize (IH i (fun j => H (S j))). specialize (H 0%nat f eq_refl). lia.
Qed.

Lemma caps_mono l i j : (forall i f, l !! i = Some f -> 0 <= cap0 f) -> (i <= j)%nat -> caps (take i l) <= caps (take j l).
Proof.
  intros H Hij. replace (take i l) with (take i (take j l)) by (by rewrite take_take, Nat.min_l). apply caps_take.
  intros k f Hk. apply (H k). by apply lookup_take_Some in Hk as [Hk _].
Qed.
End Slices.

(** * A committed volume on disk *)

Definition zero_sb : SbFields := mkSb 0 0 0 0 0 0 [] [].

Section Saved.
Context {D : Type} (d : BlkDev D) `{!BlockDevice d} `{!FailStop d}.
Implicit Types (V W : Vol D) (s : D) (f : ExfsFile) (T : Tree).

Definition super_at s (b : Z) (x : SbFields) : Prop := sb_decode (block d s b) zero_sb = (SB_OK, x).

(** Block [b] holds no superblock of generation [gen] or later. *)
Definition older s (b gen : Z) : Prop := forall x, super_at s b x -> sb_gen x < gen.

Definition itab_blocks (gen : Z) : list Z := seqZ (itab_area gen) 8.
Definition itab_record s (gen : Z) (i : nat) : list Z := take 256 (drop (i * 256) (fbytes d s (itab_blocks gen))).

(** The disk holds what the volume says: a superblock of its generation and none
    that is newer, the bitmaps of its map, the records and chains of its files;
    and the volume has nothing that the disk does not have. *)
Record saved V s : Prop := {
  sv_ns : ns_ok V;
  sv_fs : fs_ok d V s;
  sv_size : v_total V = sector_count d * sector_size d / 4096 /\ m_gb (v_gm V) = 32768;
  sv_gen : 0 <= v_gen V < 2 ^ 64;
  sv_map : all_clean (v_gm V) /\ forall g, group (v_gm V) g -> nthZ (m_written (v_gm V)) g = 0;
  sv_defer : v_defer V = [];
  sv_clean : forall i f, in_use V i f -> f_dirty f = false /\ fits (f_n f) (f_ext_cap f);
  sv_super : super_at s (v_gen V .& 1) (sb_fields V (v_gen V));
  sv_other : older s (1 - (v_gen V .& 1)) (v_gen V);
  sv_itab : forall i f, v_files V !! i = Some f -> inode_on d s (itab_record s (v_gen V) i) f (fext V f)
}.

(** The blocks this takes. *)
Definition vital V (b : Z) : Prop :=
  b = v_gen V .& 1 \/ b ∈ itab_blocks (v_gen V) \/ owned V b \/
  exists g : Z, group (v_gm V) g /\ b = slot_block (v_gm V) g (nthZ (m_slot (v_gm V)) g).

Lemma land_1 g : g .& 1 = 0 \/ g .& 1 = 1.
Proof. replace (g .& 1) with (g mod 2) by (change 1 with (Z.ones 1); rewrite Z.land_ones by lia; done). pose proof (Z.mod_pos_bound g 2). lia. Qed.

Lemma itab_area_cases gen : itab_area gen = 2 \/ itab_area gen = 10.
Proof. unfold itab_area. destruct (tst _); [by right|by left]. Qed.

Lemma vital_committed V b : vital V b -> committed V b.
Proof.
  intros [->|[Hb|[Hb|Hb]]]; [left|left|right; by left|right; by right].
  - destruct (land_1 (v_gen V)); lia.
  - apply elem_of_seqZ in Hb. destruct (itab_area_cases (v_gen V)); lia.
Qed.

(** ** The same disk, or another one that agrees on what matters *)

(** A map with nothing pending depends on its committed slots only. *)
Lemma gm_ok_committed m s s1 : gm_ok d m s -> all_clean m -> (forall g, group m g -> nthZ (m_written m) g = 0) ->
  (forall g, group m g -> block d s1 (slot_block m g (nthZ (m_slot m) g)) = block d s (slot_block m g (nthZ (m_slot m) g))) ->
  gm_ok d m s1 /\ forall g, group m g -> cur d m s1 g = cur d m s g.
Proof.
  intros H Hc Hw Hs. assert (forall g, group m g -> cur_slot m g = nthZ (m_slot m) g) as Ec by (intros g Hg; unfold cur_slot; by rewrite Hw).
  assert (forall g, group m g -> cur d m s1 g = cur d m s g) as Hcur.
  { intros g Hg. unfold cur. destruct (cached (m_cache m) g 0); [done|]. rewrite Ec by done. by apply Hs. }
  split; [|done]. apply (gm_ok_keep d m s m s1 H (go_geo _ _ _ H) (gm_like_refl m) eq_refl Hcur (go_ent _ _ _ H)).
  - intros i e Hi Hv. pose proof (go_val _ _ _ H i e Hi Hv) as Hg. split_and!; [done| |].
    + intros He. rewrite Ec, Hs, <- Ec by done. by apply (go_clean _ _ _ H i).
    + intros He. by apply (go_room _ _ _ H i).
  - apply H.
  - intros g Hg Hn. apply (go_room' _ _ _ H g Hg). by left.
Qed.

Lemma older_same s s1 b gen : block d s1 b = block d s b -> older s b gen -> older s1 b gen.
Proof. intros E H x Hx. apply H. unfold super_at in *. by rewrite <- E. Qed.

Lemma saved_same V s s1 : saved V s -> (forall b, vital V b -> block d s1 b = block d s b) -> older s1 (1 - (v_gen V .& 1)) (v_gen V) ->
  saved V s1 /\ forall T, tree_of d V s T -> tree_of d V s1 T.
Proof.
  intros H Hb Ho. pose proof (sv_fs _ _ H) as Hf. pose proof (fo_alloc _ _ _ Hf) as [A1 A2 A3 A4 A5].
  destruct (sv_map _ _ H) as [M1 M2]. destruct (gm_ok_committed (v_gm V) s s1 A3 M1 M2) as [G1 G2]; [intros g Hg; apply Hb; right; right; right; by exists g|].
  assert (forall i f, in_use V i f -> forall b, b ∈ file_blocks V f -> block d s1 b = block d s b) as Hfb.
  { intros i f Hi b Hin. apply Hb. right; right; left. left. by exists i, f. }
  assert (forall i f, in_use V i f -> file_ok d V s1 f /\ content d V s1 f = content d V s f) as Hk.
  { intros i f Hi. destruct (file_ok_same d V V s s1 f f (fo_file _ _ _ Hf i f Hi)) as (K1 & _ & K2); try done.
    intros b Hin. apply (Hfb i f Hi). apply elem_of_app. by left. }
  split; [split; [exact (sv_ns _ _ H)| |exact (sv_size _ _ H)|exact (sv_gen _ _ H)|done|exact (sv_defer _ _ H)|exact (sv_clean _ _ H)| | |]|].
  - destruct Hf as [F1 F2 F3 F4 F5 F6 F7 F8]. split; try done.
    + intros i f Hi. by apply (Hk i).
    + intros b Hbo. destruct (F8 b Hbo) as [U1 U2]. split; [done|]. rewrite <- U2.
      apply used_like; [apply A3|done|done|]. apply U1.
  - unfold super_at. rewrite Hb by by left. exact (sv_super _ _ H).
  - done.
  - intros i f Hi. assert (itab_record s1 (v_gen V) i = itab_record s (v_gen V) i) as ->.
    { unfold itab_record. rewrite (fbytes_same d s s1); [done|]. intros b Hin. apply Hb. right. by left. }
    apply (inode_on_same d s s1); [|by apply (sv_itab _ _ H)]. intros Hu b Hin. apply (Hfb i f); [done|]. apply elem_of_app. by right.
  - intros T HT. assert (forall n c, stores d V s1 n c <-> stores d V s n c) as Hst.
    { intros n c. split; intros (i & f & Hi & E1 & E2 & E3); exists i, f; (split_and!; [done|done|done|]); destruct (Hk i f Hi); congruence. }
    split; [|apply HT]. intros n c. rewrite Hst. apply HT.
Qed.

(** * Mounting *)

(** ** Geometry and superblocks *)

Lemma geometry_saved V s W : saved V s -> geometry W (Some d) = (EXFS_OK, set_dev W (Some d) (v_spb V) (v_total V)) /\ 4096 mod sector_size d = 0 /\
  34 <= v_total V <= 2 ^ 24 /\ v_total V * 4096 <= sector_count d * sector_size d.
Proof.
  intros H. destruct (fo_alloc _ _ _ (sv_fs _ _ H)) as [A1 [A2 A2'] A3 A4 A5]. destruct (go_geo _ _ _ A3) as [_ _ G3 _ _ G6 _ _ _ _ _]. rewrite A4 in G3, G6.
  destruct (sv_size _ _ H) as [S1 _]. pose proof bd_geometry as (B1 & B2 & B3).
  assert (4096 mod sector_size d = 0) as Hm by (rewrite <- A2'; apply Z_mod_mult).
  assert (4096 / sector_size d = v_spb V) as Hq by (rewrite <- A2'; apply Z.div_mul; lia).
  split_and!; [|done|lia|lia|lia]. unfold geometry. cbn [blk_sector_size blk_sector_count]. change EXFS_BLOCK with 4096. rewrite Hm, (proj2 (Z.eqb_neq (sector_size d) 0)) by lia.
  cbn [Z.eqb negb orb]. rewrite u64_small by nia. rewrite <- S1, Hq. change (EXFS_DATA_START + 16) with 34. change EXFS_MAX_BLOCKS with 16777216.
  rewrite (proj2 (Z.ltb_ge (v_total V) 34)), (proj2 (Z.ltb_ge 16777216 (v_total V))) by lia. done.
Qed.

Lemma low_on_dev V s b : saved V s -> 0 <= b < v_total V -> on_dev d b.
Proof. intros H Hb. destruct (geometry_saved V s V H) as (_ & _ & H1 & H2). split; lia. Qed.

(** Of the two superblocks the newer one is chosen. *)
Lemma best_super_spec W s x b : v_dev W = Some d -> spb_of d (v_spb W) -> bd_ok s -> on_dev d 0 -> on_dev d 1 -> (b = 0 \/ b = 1) ->
  super_at s b x -> older s (1 - b) (sb_gen x) ->
  exists s', best_super 2 0 None W s = (Some x, s') /\ bd_ok s' /\ bd_dead s' = bd_dead s /\ same_disk d s s'.
Proof.
  intros Hd Hp Hs H0 H1 Hb Hx Ho. cbn [best_super].
  destruct (blk_got_live d W 0 (replicate (Z.to_nat EXFS_BLOCK) 0) s Hd Hp H0 ltac:(apply length_replicate) ltac:(apply bytes_ok_zeros) Hs)
    as (s1 & -> & Hs1 & Hd1 & Hsame1). rewrite Z.eqb_refl. cbn [negb].
  destruct (blk_got_live d W (0 + 1) (replicate (Z.to_nat EXFS_BLOCK) 0) s1 Hd Hp H1 ltac:(apply length_replicate) ltac:(apply bytes_ok_zeros) Hs1)
    as (s2 & -> & Hs2 & Hd2 & Hsame2). rewrite Z.eqb_refl. cbn [negb]. rewrite (Hsame1 (0 + 1)) by lia. change (0 + 1) with 1.
  fold zero_sb. destruct (sb_decode (block d s 0) zero_sb) as [rc0 x0] eqn:E0. destruct (sb_decode (block d s 1) zero_sb) as [rc1 x1] eqn:E1.
  assert (same_disk d s s2) as Hsame by (intros c Hc; rewrite Hsame2 by done; by apply Hsame1).
  exists s2. split; [|split_and!; [done|congruence|done]]. destruct Hb as [-> | ->]; unfold super_at, older, super_at in *.
  - rewrite E0 in Hx. injection Hx as -> ->. change (1 - 0) with 1 in Ho. rewrite E1 in Ho. cbn [negb Z.eqb]. rewrite Z.eqb_refl. cbn [negb].
    destruct (Z.eqb_spec rc1 SB_OK) as [->|]; [|done]. cbn [negb]. specialize (Ho x1 eq_refl). by rewrite (proj2 (Z.ltb_ge _ _)) by lia.
  - rewrite E1 in Hx. injection Hx as -> ->. change (1 - 1) with 0 in Ho. rewrite E0 in Ho. rewrite Z.eqb_refl. cbn [negb].
    destruct (Z.eqb_spec rc0 SB_OK) as [->|]; [|done]. cbn [negb]. specialize (Ho x0 eq_refl). by rewrite (proj2 (Z.ltb_lt _ _)) by lia.
Qed.

Lemma got_blocks_spec W n : v_dev W = Some d -> spb_of d (v_spb W) -> forall b img s, bd_ok s -> (forall k, b <= k < b + Z.of_nat n -> on_dev d k) ->
  exists s', got_blocks n b img W s = (EXFS_OK, img ++ fbytes d s (seqZ b (Z.of_nat n)), s') /\ bd_ok s' /\ bd_dead s' = bd_dead s /\ same_disk d s s'.
Proof.
  intros Hd Hp. induction n as [|n IH]; intros b img s Hs Hb.
  { exists s. cbn [got_blocks]. split_and!; try done. unfold fbytes. cbn. by rewrite app_nil_r. }
  cbn [got_blocks]. destruct (blk_got_live d W b (replicate (Z.to_nat EXFS_BLOCK) 0) s Hd Hp ltac:(apply Hb; lia) ltac:(apply length_replicate) ltac:(apply bytes_ok_zeros) Hs)
    as (s1 & -> & Hs1 & Hd1 & Hsame1). rewrite Z.eqb_refl. cbn [negb].
  destruct (IH (b + 1) (img ++ block d s b) s1 Hs1 ltac:(intros k Hk; apply Hb; lia)) as (s' & -> & Hs' & Hd' & Hsame).
  exists s'. split_and!; [|done|congruence|intros c Hc; rewrite Hsame by done; by apply Hsame1].
  rewrite (seqZ_cons b) by lia. unfold fbytes. cbn [fmap list_fmap concat]. rewrite <- app_assoc.
  replace (Z.pred (Z.of_nat (S n))) with (Z.of_nat n) by lia. replace (Z.succ b) with (b + 1) by lia. do 4 f_equal.
  fold (fbytes d s1 (seqZ (b + 1) (Z.of_nat n))). apply (fbytes_same d s s1). intros c Hc%elem_of_seqZ. apply Hsame1. destruct (Hb c ltac:(lia)). lia.
Qed.

(** ** The files *)

(** [f'] is in [W] what [f] is in [V], its place in the pool aside. *)
Record twin V f W (f' : ExfsFile) : Prop := {
  tw_used : f_used f' = f_used f;
  tw_dirty : f_dirty f' = false;
  tw_name : length (f_name f') = 96%nat;
  tw_chain : length (f_chain f') = 16%nat;
  tw_same : f_used f = true -> f_type f' = f_type f /\ f_size f' = f_size f /\ cname f' = cname f /\ f_n f' = f_n f /\
    f_nchain f' = f_nchain f /\ chain_blocks f' = chain_blocks f /\ fext W f' = fext V f
}.

(** The slice a file gets: the next indices of the pool. *)
Definition placed V (i : nat) f (off cap : Z) : Prop :=
  cap = cap0 f /\ (f_n f <> 0 -> off = caps (take i (v_files V))) /\ (f_n f = 0 -> off = 0).

(** The first [i] files of [V] are loaded. *)
Record loading V W (i : nat) (F : list ExfsFile) (P : Z -> ExfsExtent) (U : list Z) : Prop := {
  ld_len : length F = 128%nat;
  ld_chain : forall j f, F !! j = Some f -> length (f_chain f) = 16%nat;
  ld_fill : filled (with_pool W F P U) (caps (take i (v_files V)));
  ld_done : forall j f, (j < i)%nat -> v_files V !! j = Some f -> exists f', F !! j = Some f' /\ twin V f (with_pool W F P U) f' /\
    (f_used f = true -> placed V j f (f_ext_off f') (f_ext_cap f'))
}.

Section Loading.
Context V s W (H : saved V s) (HWd : v_dev W = Some d) (HWp : v_spb W = v_spb V) (HWt : v_total W = v_total V).
Let Hf : fs_ok d V s := sv_fs _ _ H.

Lemma sv_file i f : in_use V i f -> file_ok d V s f.
Proof. apply (fo_file _ _ _ Hf). Qed.

Lemma sv_cap0 i f : v_files V !! i = Some f -> 0 <= cap0 f.
Proof. intros Hi. apply cap0_nonneg. intros Hu. apply (fk_n d V s f). by apply (sv_file i). Qed.

Lemma sv_caps i : 0 <= caps (take i (v_files V)) <= 16384.
Proof.
  pose proof (caps_take (v_files V) i sv_cap0). pose proof (caps_pool V (fo_pool _ _ _ Hf) (fun i f Hi => proj2 (sv_clean _ _ H i f Hi))). lia.
Qed.

Lemma sv_spb : spb_of d (v_spb W).
Proof. rewrite HWp. apply (fo_alloc _ _ _ Hf). Qed.

(** Blocks of files pass the checks. *)
Lemma sv_block i f b : in_use V i f -> b ∈ file_blocks V f -> on_dev d b /\ 20 <= b < v_total V.
Proof. intros Hi Hb. destruct (owned_block d V s b Hf) as (A & B & _); [left; by exists i, f|done]. Qed.

Lemma sv_total_bound : 34 <= v_total V <= 2 ^ 24.
Proof. by destruct (geometry_saved V s V H) as (_ & _ & ? & _). Qed.

Lemma chain_in_ok i f g : in_use V i f -> chain_blocks g = chain_blocks f -> forall W', v_total W' = v_total V -> chain_in W' g = true.
Proof.
  intros Hi E W' HW. unfold chain_in. fold (chain_blocks g). rewrite E, HW. apply forallb_forall. intros b Hb%list_elem_of_In. change EXFS_DATA_START with 18.
  destruct (sv_block i f b Hi) as [_ Hr]; [apply elem_of_app; by right|]. rewrite (proj2 (Z.ltb_ge b 18)), (proj2 (Z.leb_gt (v_total V) b)) by lia. done.
Qed.

Lemma ext_in_ok i f : in_use V i f -> forall W', v_total W' = v_total V -> forallb (ext_in W') (fext V f) = true.
Proof.
  intros Hi W' HW. apply forallb_forall. intros e He%list_elem_of_In. pose proof (fk_ext _ _ _ _ (sv_file i f Hi)) as Hx. rewrite Forall_forall in Hx. destruct (Hx e He) as [X1 X2].
  assert (forall b, x_start e <= b < x_start e + x_len e -> 20 <= b < v_total V) as Hb.
  { intros b Hb. apply (sv_block i f b Hi). apply elem_of_app. left. apply elem_of_ext_blocks. by exists e. }
  pose proof (Hb (x_start e) ltac:(lia)). pose proof (Hb (x_start e + x_len e - 1) ltac:(lia)). pose proof sv_total_bound.
  unfold ext_in. rewrite HW, u64_small by lia. change EXFS_DATA_START with 18.
  rewrite (proj2 (Z.eqb_neq _ 0)), (proj2 (Z.ltb_ge (x_start e) 18)), (proj2 (Z.ltb_ge (v_total V) _)) by lia. done.
Qed.

(** The reservation for file [i]. *)
Lemma reserve_next i f W' : v_files V !! i = Some f -> f_used f = true -> filled W' (caps (take i (v_files V))) ->
  exists off U, pool_reserve W' (f_n f) = (EXFS_OK, off, cap0 f, set_pool_used W' U) /\ filled (set_pool_used W' U) (caps (take (S i) (v_files V))) /\ placed V i f off (cap0 f).
Proof.
  intros Hi Hu Hfl. pose proof (caps_snoc _ _ _ Hi) as Ec. pose proof (sv_caps (S i)) as Hb. pose proof (sv_caps i). pose proof (fk_n _ _ _ _ (sv_file i f ltac:(done))) as Hn.
  rewrite Ec in *. assert (cap0 f = if f_n f =? 0 then 0 else slice_cap_for (f_n f)) as E0 by (unfold cap0; by rewrite Hu). destruct (Z.eqb_spec (f_n f) 0) as [E|E].
  - rewrite E, E0 in *. exists 0, (v_pool_used W'). unfold pool_reserve. cbn [Z.eqb]. assert (set_pool_used W' (v_pool_used W') = W') as -> by by destruct W'.
    rewrite Z.add_0_r. split_and!; try done.
  - destruct (pool_reserve_filled W' (f_n f) (caps (take i (v_files V))) Hfl ltac:(lia) ltac:(lia) ltac:(lia)) as (U & -> & Hfl').
    exists (caps (take i (v_files V))), U. rewrite E0. by split_and!.
Qed.

Lemma twin_fext W1 W2 f f' : twin V f W1 f' -> fext W2 f' = fext W1 f' -> twin V f W2 f'.
Proof. intros [T1 T2 T3 T4 T5] E. split; try done. intros Hu. rewrite E. by apply T5. Qed.

(** Storing a list at [off] leaves the files loaded before alone. *)
Lemma store_apart i f j g P P' (off : Z) g' F U F' U' : v_files V !! i = Some f -> f_used f = true -> (j < i)%nat -> v_files V !! j = Some g -> f_used g = true ->
  placed V i f off (cap0 f) -> placed V j g (f_ext_off g') (f_ext_cap g') -> f_n g' = f_n g ->
  (forall x, ~ (off <= x < off + f_n f) -> P' x = P x) -> fext (with_pool W F' P' U') g' = fext (with_pool W F P U) g'.
Proof.
  intros Hi Hu Hj Hg Hug (_ & H1 & H2) (_ & G1 & G2) En HP. unfold fext. apply list_fmap_ext. intros k x [-> Hk]%lookup_seqZ. cbn. apply HP. rewrite En in Hk.
  pose proof (fk_n _ _ _ _ (sv_file j g ltac:(done))) as Hn. destruct (Z.eq_dec (f_n f) 0) as [E|E]; [lia|]. rewrite H1, G1 by lia.
  pose proof (caps_mono (v_files V) (S j) i (sv_cap0) ltac:(lia)) as Hm. rewrite (caps_snoc _ _ _ Hg) in Hm.
  assert (f_n g <= cap0 g); [|lia]. unfold cap0. rewrite Hug. cbn [negb orb]. destruct (Z.eqb_spec (f_n g) 0); [lia|].
  pose proof (slice_cap_spec (f_n g) ltac:(lia)). lia.
Qed.

(** One file. *)
Lemma mount_one i f F P U itab s1 : v_files V !! i = Some f -> bd_ok s1 -> loading V W i F P U ->
  inode_on d s1 (take (Z.to_nat INODE_BYTES) (drop (i * Z.to_nat INODE_BYTES) itab)) f (fext V f) ->
  exists F' P' U' s', (forall k, mount_files (S k) i itab (with_pool W F P U) s1 = mount_files k (S i) itab (with_pool W F' P' U') s') /\
    loading V W (S i) F' P' U' /\ bd_ok s' /\ bd_dead s' = bd_dead s1 /\ same_disk d s1 s'.
Proof.
  intros Hi Hs Hld Hon. pose proof Hld as [L1 L2 L3 L4]. assert (i < length F)%nat as HiF by (rewrite L1, <- (ns_len _ (sv_ns _ _ H)); by eapply lookup_lt_Some).
  destruct (lookup_lt_is_Some_2 F i HiF) as [f0 Hf0]. assert (file (with_pool W F P U) i = f0) as Ef0 by by apply file_lookup.
  assert (f_used f = true -> file_ok d V s f) as Hk by (intros Hu; by apply (sv_file i)).
  destruct (inode_decode_spec d (with_pool W F P U) (take (Z.to_nat INODE_BYTES) (drop (i * Z.to_nat INODE_BYTES) itab)) f0 s1 f (fext V f) HWd (sv_spb) Hs Hon)
    as (f1 & stage & s' & Edec & [C1 C2 C3 C4 C5] & Hs' & Hd' & Hsame); [| |by apply (L2 i)|].
  { intros Hu b Hb. apply (sv_block i f); [done|]. apply elem_of_app. by right. }
  { intros Hu. destruct (Hk Hu) as [K1 _ [K2 K3] _ _ _]. rewrite length_fext by lia. unfold chain_blocks. rewrite length_take. lia. }
  destruct (f_used f) eqn:Hu.
  2: { exists (<[i := f1]> F), P, U, s'. split.
    { intros k. cbn [mount_files]. rewrite Ef0, Edec, Z.eqb_refl. cbn [negb]. rewrite C1. done. }
    split; [split|by split_and!].
    - by rewrite length_insert.
    - intros j g Hj. destruct (decide (j = i)) as [->|Hne]; [rewrite list_lookup_insert_eq in Hj by done; congruence|].
      rewrite list_lookup_insert_ne in Hj by done. by apply (L2 j).
    - rewrite (caps_snoc _ _ _ Hi). unfold cap0. rewrite Hu. cbn [negb orb]. rewrite Z.add_0_r. exact L3.
    - intros j g Hj Hg. destruct (decide (j = i)) as [->|Hne].
      + assert (g = f) as -> by congruence. exists f1. rewrite list_lookup_insert_eq by done. split; [done|]. split; [|congruence]. split; congruence.
      + destruct (L4 j g ltac:(lia) Hg) as (g' & G1 & G2 & G3). exists g'. rewrite list_lookup_insert_ne by done. split_and!; [done| |done].
        by apply (twin_fext (with_pool W F P U)). }
  destruct (C5 eq_refl) as (E1 & E2 & E3 & E4 & E5 & E6 & ->). destruct (Hk eq_refl) as [K1 _ [K2 K3] _ _ _]. rewrite length_fext in E4 by lia.
  destruct (reserve_next i f (put_file (with_pool W F P U) i f1) Hi Hu L3) as (off & U' & Er & Hfl & Hpl).
  destruct (pool_store_spec (set_pool_used (put_file (with_pool W F P U) i f1) U') off (fext V f)) as (P' & Est & HP1 & HP2).
  set (f2 := set_slice f1 (f_n f1) off (cap0 f)). exists (<[i := f2]> F), P', U', s'.
  pose proof (length_fext V f ltac:(lia)) as Hlx. rewrite Hlx in HP2.
  assert (fext (with_pool W (<[i := f2]> F) P' U') f2 = fext V f) as Hx.
  { unfold fext at 1. cbn. rewrite E4, <- Hlx. by apply store_fext. }
  split.
  { intros k. cbn [mount_files]. rewrite Ef0, Edec, Z.eqb_refl. cbn [negb]. rewrite C1. cbn [negb]. rewrite E4, Er, Z.eqb_refl. cbn [negb]. rewrite Est.
    rewrite <- E4. fold f2. rewrite (chain_in_ok i f f1) by done. rewrite (ext_in_ok i f) by done. cbn [negb].
    unfold put_file, with_pool. cbn. by rewrite list_insert_insert_eq. }
  split; [split|by split_and!].
  - by rewrite length_insert.
  - intros j g Hj. destruct (decide (j = i)) as [->|Hne]; [rewrite list_lookup_insert_eq in Hj by done; by injection Hj as <-|].
    rewrite list_lookup_insert_ne in Hj by done. by apply (L2 j).
  - exact Hfl.
  - intros j g Hj Hg. destruct (decide (j = i)) as [->|Hne].
    + assert (g = f) as -> by congruence. exists f2. rewrite list_lookup_insert_eq by done. split_and!; [done| |done]. split; rewrite ?Hu; try done.
      intros _. split_and!; try done. change (f_nchain f2) with (f_nchain f1). rewrite E5. unfold chain_blocks. rewrite length_take. lia.
    + destruct (L4 j g ltac:(lia) Hg) as (g' & G1 & G2 & G3). exists g'. rewrite list_lookup_insert_ne by done. split_and!; [done| |done].
      destruct (f_used g) eqn:Hug; [|destruct G2; split; congruence]. apply (twin_fext (with_pool W F P U)); [done|].
      destruct (tw_same _ _ _ _ G2 Hug) as (_ & _ & _ & En & _).
      apply (store_apart i f j g P P' off g'); try done; [lia|by apply G3].
Qed.

Lemma mount_files_spec itab : forall k i F P U s1, (i + k = 128)%nat -> bd_ok s1 -> loading V W i F P U -> same_disk d s s1 ->
  (forall i f, v_files V !! i = Some f -> take (Z.to_nat INODE_BYTES) (drop (i * Z.to_nat INODE_BYTES) itab) = itab_record s (v_gen V) i) ->
  exists F' P' U' s', mount_files k i itab (with_pool W F P U) s1 = (EXFS_OK, with_pool W F' P' U', s') /\
    loading V W 128 F' P' U' /\ bd_ok s' /\ bd_dead s' = bd_dead s1 /\ same_disk d s1 s'.
Proof.
  induction k as [|k IH]; intros i F P U s1 Hik Hs Hld Hsame Hit.
  { assert (i = 128%nat) as -> by lia. exists F, P, U, s1. by split_and!. }
  destruct (lookup_lt_is_Some_2 (v_files V) i) as [f Hi]; [rewrite (ns_len _ (sv_ns _ _ H)); lia|].
  destruct (mount_one i f F P U itab s1 Hi Hs Hld) as (F1 & P1 & U1 & s2 & E & Hld' & Hs2 & Hd2 & Hsame2).
  { rewrite (Hit i f Hi). apply (inode_on_same d s); [|by apply (sv_itab _ _ H)]. intros Hu b Hb. apply Hsame.
    destruct (sv_block i f b ltac:(done)); [apply elem_of_app; by right|lia]. }
  rewrite E. destruct (IH (S i) F1 P1 U1 s2 ltac:(lia) Hs2 Hld' ltac:(intros b Hb; rewrite Hsame2 by done; by apply Hsame) Hit) as (F' & P' & U' & s' & -> & X1 & X2 & X3 & X4).
  exists F', P', U', s'. split_and!; try done; [congruence|]. intros b Hb. rewrite X4 by done. by apply Hsame2.
Qed.
End Loading.

(** ** The map *)

(** [m'] is a map with nothing pending, that says what [m] says. *)
Record same_map (m m' : GMap D) s : Prop := {
  mp_ok : gm_ok d m' s;
  mp_clean : all_clean m' /\ forall g, group m' g -> nthZ (m_written m') g = 0;
  mp_size : m_total m' = m_total m /\ m_gb m' = m_gb m /\ m_ngroups m' = m_ngroups m;
  mp_tables : forall g, group m g -> nthZ (m_slot m') g = nthZ (m_slot m) g /\ nthZ (m_free m') g = nthZ (m_free m) g;
  mp_cur : forall g, group m g -> cur d m' s g = cur d m s g
}.

Lemma same_map_used m m' s b : gm_ok d m s -> same_map m m' s -> 0 <= b < m_total m -> used d m' s b = used d m s b.
Proof.
  intros Hm [_ _ (_ & S2 & _) _ Hc] Hb. apply used_like; [apply Hm|done|done|done].
Qed.

(** What a superblock says of the map. *)
Lemma sb_fields_tables V gen : gm_geo d (v_gm V) ->
  let x := sb_fields V gen in sb_gen x = gen /\ sb_itab x = itab_area gen /\ sb_total x = v_total V /\ sb_ngroups x = m_ngroups (v_gm V) /\
  (length (sb_slot x) = 512%nat /\ length (sb_free x) = 512%nat) /\
  (forall g, 0 <= g -> nthZ (sb_slot x) g = if g <? m_ngroups (v_gm V) then cur_slot (v_gm V) g else 0) /\
  (forall g, 0 <= g -> nthZ (sb_free x) g = if g <? m_ngroups (v_gm V) then nthZ (m_free (v_gm V)) g else 0) /\
  sb_nitab x = 8 /\ sb_ninodes x = 128.
Proof.
  intros G. unfold sb_fields. pose proof (gmap_export_spec d (v_gm V) (replicate (Z.to_nat SB_MAX_GROUPS) 0) (replicate (Z.to_nat SB_MAX_GROUPS) 0)
    G (length_replicate _ _) (length_replicate _ _)) as He. destruct (gmap_export _ _ _) as [sl fr]. destruct He as (L1 & L2 & H1 & H2). cbn.
  split_and!; try done; intros g Hg; rewrite ?H1, ?H2, nthZ_replicate by done; done.
Qed.

Lemma sb_fields_eq V V' gen : gm_geo d (v_gm V) -> gm_geo d (v_gm V') -> m_ngroups (v_gm V') = m_ngroups (v_gm V) -> v_total V' = v_total V ->
  (forall g, group (v_gm V) g -> cur_slot (v_gm V') g = cur_slot (v_gm V) g /\ nthZ (m_free (v_gm V')) g = nthZ (m_free (v_gm V)) g) ->
  sb_fields V' gen = sb_fields V gen.
Proof.
  intros G G' Hng Ht Hs. destruct (sb_fields_tables V gen G) as (A1 & A2 & A3 & A4 & (A5 & A6) & A7 & A8 & A9 & A10).
  destruct (sb_fields_tables V' gen G') as (B1 & B2 & B3 & B4 & (B5 & B6) & B7 & B8 & B9 & B10). rewrite Hng in *.
  assert (sb_slot (sb_fields V' gen) = sb_slot (sb_fields V gen)) as Es.
  { apply nthZ_ext; [congruence|]. intros g Hg. rewrite A7, B7 by lia. destruct (Z.ltb_spec g (m_ngroups (v_gm V))); [|done]. apply Hs. split; lia. }
  assert (sb_free (sb_fields V' gen) = sb_free (sb_fields V gen)) as Ef.
  { apply nthZ_ext; [congruence|]. intros g Hg. rewrite A8, B8 by lia. destruct (Z.ltb_spec g (m_ngroups (v_gm V))); [|done]. apply Hs. split; lia. }
  destruct (sb_fields V' gen), (sb_fields V gen). cbn in *. congruence.
Qed.

Lemma cur_slot_committed (m : GMap D) g : nthZ (m_written m) g = 0 -> cur_slot m g = nthZ (m_slot m) g.
Proof. intros E. unfold cur_slot. by rewrite E. Qed.

Lemma sb_fields_ext V V' s gen : gm_ok d (v_gm V) s -> (forall g, group (v_gm V) g -> nthZ (m_written (v_gm V)) g = 0) ->
  same_map (v_gm V) (v_gm V') s -> v_total V' = v_total V -> sb_fields V' gen = sb_fields V gen.
Proof.
  intros Hm Hw M Ht. destruct (mp_size _ _ _ M) as (_ & _ & Hng). destruct (mp_clean _ _ _ M) as [_ Hw']. apply sb_fields_eq; [apply Hm|apply M|done|done|].
  intros g Hg. rewrite !cur_slot_committed; [by apply (mp_tables _ _ _ M)|by apply Hw|]. apply Hw'. unfold group in *. by rewrite Hng.
Qed.

Lemma ngroups_same m m' : gm_geo d m -> gm_geo d m' -> m_total m' = m_total m -> m_gb m' = m_gb m -> m_ngroups m' = m_ngroups m.
Proof.
  intros G G' Et Eg. destruct (gg_ng _ _ G) as [N1 N2], (gg_ng _ _ G') as [N3 N4]. pose proof (gg_gb _ _ G). rewrite Et, Eg in *. nia.
Qed.

Lemma import_same V s m0 : saved V s -> cache_ok (m_cache m0) ->
  exists m1, gmap_init m0 (Some d) (v_total V) GMAP_GROUP_MAX = (GMAP_OK, m1) /\ m_ngroups m1 = m_ngroups (v_gm V) /\
    let x := sb_fields V (v_gen V) in same_map (v_gm V) (gmap_import m1 (sb_slot x) (sb_free x)) s.
Proof.
  intros H Hc. destruct (geometry_saved V s V H) as (_ & Hm & Ht & Hfit). destruct (fo_alloc _ _ _ (sv_fs _ _ H)) as [_ _ Hg Et _].
  destruct (sv_size _ _ H) as [_ Egb]. destruct (sv_map _ _ H) as [Mc Mw].
  destruct (gmap_init_ok d m0 (v_total V) Hc Ht Hfit Hm) as (m1 & Ei & G1 & T1 & B1 & C1 & I1 & _). change GMAP_GROUP_MAX with 32768. exists m1. split; [exact Ei|].
  assert (m_ngroups m1 = m_ngroups (v_gm V)) as En by (apply (ngroups_same (v_gm V) m1); [apply Hg|done|congruence|congruence]). split; [done|].
  destruct (sb_fields_tables V (v_gen V) (go_geo _ _ _ Hg)) as (_ & _ & _ & _ & (S5 & S6) & S7 & S8 & _). intros x. fold x in S5, S6, S7, S8.
  destruct (gmap_import_fields d m1 (sb_slot x) (sb_free x) G1) as (F1 & F2 & F3 & F4 & F5 & F6 & F7 & F8 & F9 & F10). set (m2 := gmap_import m1 _ _) in *.
  assert (forall g, group m1 g -> nthZ (m_slot m2) g = nthZ (m_slot (v_gm V)) g /\ nthZ (m_written m2) g = 0 /\ nthZ (m_free m2) g = nthZ (m_free (v_gm V)) g) as Htab.
  { intros g Hgg. destruct (F10 g Hgg) as (-> & -> & ->). destruct Hgg. rewrite S7, S8, <- En, (proj2 (Z.ltb_lt g (m_ngroups m1))) by lia. rewrite cur_slot_committed by (apply Mw; split; lia).
    split_and!; try done. destruct (gg_slot _ _ (go_geo _ _ _ Hg) g ltac:(lia)) as [-> | ->]; done. }
  assert (forall g sl, slot_block m2 g sl = slot_block (v_gm V) g sl) as Esb by (intros g sl; unfold slot_block; by rewrite F4, B1, Egb).
  assert (forall g, valid_bits m2 g = valid_bits (v_gm V) g) as Evb by (intros g; unfold valid_bits; rewrite F4, B1, Egb, F3, T1; by rewrite Et).
  assert (forall g, group (v_gm V) g -> cur d (v_gm V) s g = block d s (slot_block (v_gm V) g (nthZ (m_slot (v_gm V)) g))) as Ecur.
  { intros g Hgg. rewrite (clean_cur d _ s g Hg Mc). unfold cur_slot. by rewrite Mw. }
  assert (forall g, group m2 g <-> group (v_gm V) g) as Egr by (intros g; unfold group; by rewrite F5, En).
  assert (forall g, group m1 g <-> group (v_gm V) g) as Egr1 by (intros g; unfold group; by rewrite En).
  destruct (cache_ok_invalid _ C1) as [C2 C3].
  destruct (gm_ok_disk_map d m2 s) as (K1 & K2 & K3).
  - pose proof (gg_slot _ _ (go_geo _ _ _ Hg)) as Gsl. destruct G1. split; rewrite ?F1, ?F2, ?F3, ?F4, ?F5, ?F6; try done; [by rewrite length_fmap|]. intros g Hgg. destruct (Htab g Hgg) as (-> & _).
    apply Gsl. by rewrite <- En.
  - by rewrite F6.
  - rewrite F6. exact C3.
  - intros g Hgg%Egr%Egr1. by apply Htab.
  - intros g Hgg%Egr Hs1. rewrite Evb. apply (go_room' _ _ _ Hg g Hgg). right. by rewrite <- (proj1 (Htab g (proj2 (Egr1 g) Hgg))).
  - intros g Hgg%Egr. destruct (Htab g (proj2 (Egr1 g) Hgg)) as (-> & _ & ->). rewrite Esb, Evb. cbv zeta. rewrite <- (Ecur g Hgg). split.
    + intros i Hi. by apply (go_res _ _ _ Hg).
    + by apply (go_free _ _ _ Hg).
  - split; [done| | | |].
    + split; [done|]. intros g Hgg%Egr%Egr1. by apply Htab.
    + split_and!; congruence.
    + intros g Hgg%Egr1. destruct (Htab g Hgg) as (-> & _ & ->). done.
    + intros g Hgg. rewrite K3 by by apply Egr. destruct (Htab g (proj2 (Egr1 g) Hgg)) as (-> & _). by rewrite Esb, Ecur.
Qed.

(** ** The mounted volume *)

(** The volume that [exfs_mount] makes of the loaded one. *)
Definition mounted_vol V W F P U : Vol D :=
  mkVol (v_dev W) (v_spb W) (v_total W) (v_gen V) (itab_area (v_gen V)) true false false (v_gm W) EXFS_DATA_START F P U [].

Section Mounted.
Context V s W (H : saved V s) (HWd : v_dev W = Some d) (HWp : v_spb W = v_spb V) (HWt : v_total W = v_total V) (HWm : same_map (v_gm V) (v_gm W) s).
Context F P U (L : loading V W 128 F P U).
Abbreviation M := (mounted_vol V W F P U).

Lemma ld_file i f' : F !! i = Some f' -> exists f, v_files V !! i = Some f /\ twin V f M f' /\ (f_used f = true -> placed V i f (f_ext_off f') (f_ext_cap f')).
Proof.
  intros Hi. pose proof (lookup_lt_Some _ _ _ Hi) as Hlt. rewrite (ld_len _ _ _ _ _ _ L) in Hlt.
  destruct (lookup_lt_is_Some_2 (v_files V) i) as [f Hf]; [by rewrite (ns_len _ (sv_ns _ _ H))|].
  destruct (ld_done _ _ _ _ _ _ L i f Hlt Hf) as (f1 & E & T & Hp). assert (f1 = f') as -> by congruence. exists f. split_and!; [done| |done]. destruct T. by split.
Qed.

Lemma ld_use i f : in_use V i f -> exists f', in_use M i f' /\ twin V f M f' /\ placed V i f (f_ext_off f') (f_ext_cap f').
Proof.
  intros [Hi Hu]. pose proof (lookup_lt_Some _ _ _ Hi) as Hlt. rewrite (ns_len _ (sv_ns _ _ H)) in Hlt.
  destruct (ld_done _ _ _ _ _ _ L i f Hlt Hi) as (f' & E & T & Hp). exists f'. split_and!; [|destruct T; by split|by apply Hp].
  split; [done|]. by rewrite (tw_used _ _ _ _ T).
Qed.

Lemma ld_used i f' : in_use M i f' -> exists f, in_use V i f /\ twin V f M f' /\ placed V i f (f_ext_off f') (f_ext_cap f').
Proof.
  intros [Hi Hu]. destruct (ld_file i f' Hi) as (f & Hf & T & Hp). rewrite (tw_used _ _ _ _ T) in Hu. exists f. split_and!; [done|done|by apply Hp].
Qed.

Lemma ld_blocks f f' : twin V f M f' -> f_used f = true -> file_blocks M f' = file_blocks V f /\ data_blocks M f' = data_blocks V f.
Proof. intros T Hu. destruct (tw_same _ _ _ _ T Hu) as (_ & _ & _ & _ & _ & E1 & E2). unfold file_blocks, data_blocks. by rewrite E1, E2. Qed.

Lemma ld_node n t : node M n t <-> node V n t.
Proof.
  split.
  - intros (i & f' & Hi & Hu & En & Et). destruct (ld_used i f' ltac:(done)) as (f & Hf & T & _). destruct (tw_same _ _ _ _ T (proj2 Hf)) as (E1 & _ & E3 & _).
    exists i, f. destruct Hf. split_and!; congruence.
  - intros (i & f & Hi & Hu & En & Et). destruct (ld_use i f ltac:(done)) as (f' & Hf & T & _). destruct (tw_same _ _ _ _ T Hu) as (E1 & _ & E3 & _).
    exists i, f'. destruct Hf. split_and!; congruence.
Qed.

Lemma ld_ns : ns_ok M.
Proof.
  pose proof (sv_ns _ _ H) as N. split.
  - exact (ld_len _ _ _ _ _ _ L).
  - intros i f' Hi. destruct (ld_file i f' Hi) as (f & _ & T & _). apply T.
  - intros i f' Hi Hu. destruct (ld_used i f' ltac:(done)) as (f & [Hf Hfu] & T & _). destruct (tw_same _ _ _ _ T Hfu) as (_ & _ & -> & _). by apply (ns_name _ N i).
  - intros i f' Hi Hu. destruct (ld_used i f' ltac:(done)) as (f & [Hf Hfu] & T & _). destruct (tw_same _ _ _ _ T Hfu) as (-> & _). by apply (ns_type _ N i).
  - intros i j f' g' Hi Hj Hu Hv E. destruct (ld_used i f' ltac:(done)) as (f & [Hf Hfu] & T & _), (ld_used j g' ltac:(done)) as (g & [Hg Hgu] & T' & _).
    destruct (tw_same _ _ _ _ T Hfu) as (_ & _ & E1 & _), (tw_same _ _ _ _ T' Hgu) as (_ & _ & E2 & _). apply (ns_uniq _ N i j f g); congruence.
  - intros i f' Hi Hu. destruct (ld_used i f' ltac:(done)) as (f & [Hf Hfu] & T & _). destruct (tw_same _ _ _ _ T Hfu) as (_ & _ & -> & _).
    rewrite ld_node. by apply (ns_parent _ N i).
Qed.

(** Slices lie one after the other. *)
Lemma placed_below i f off cap : v_files V !! i = Some f -> placed V i f off cap -> 0 <= off /\ 0 <= cap /\ (0 < cap -> caps (take i (v_files V)) <= off) /\ off + cap <= caps (take (S i) (v_files V)).
Proof.
  intros Hi (-> & P1 & P2). pose proof (caps_snoc _ _ _ Hi) as E. pose proof (sv_caps V s H i). pose proof (sv_cap0 V s H i f Hi).
  destruct (Z.eq_dec (f_n f) 0) as [E0|E0]; [|rewrite P1 by done; lia]. rewrite P2 by done.
  assert (cap0 f = 0); [|lia]. unfold cap0. rewrite E0. by rewrite orb_true_r.
Qed.

Lemma ld_pool : pool_ok M.
Proof.
  assert (forall i, caps (take i (v_files V)) <= caps (take 128 (v_files V))) as Hc.
  { intros i. destruct (decide (i <= 128)%nat); [by apply caps_mono; [apply (sv_cap0 V s H)|]|]. rewrite !take_ge by (rewrite (ns_len _ (sv_ns _ _ H)); lia). done. }
  destruct (ld_fill _ _ _ _ _ _ L) as [U1 U2]. split.
  - done.
  - exact (ld_len _ _ _ _ _ _ L).
  - intros i f' Hi Hu. destruct (ld_used i f' ltac:(done)) as (f & Hf & T & Hp). destruct (tw_same _ _ _ _ T (proj2 Hf)) as (_ & _ & _ & -> & _).
    destruct (placed_below i f _ _ (proj1 Hf) Hp) as (B1 & B2 & _ & B4). pose proof (sv_caps V s H (S i)). destruct Hp as (Ecap & _). pose proof (fk_n _ _ _ _ (sv_file V s H i f Hf)).
    assert (f_n f <= cap0 f); [|lia]. unfold cap0. rewrite (proj2 Hf). cbn [negb orb]. destruct (Z.eqb_spec (f_n f) 0); [lia|]. pose proof (slice_cap_spec (f_n f) ltac:(lia)). lia.
  - intros i f' k Hi Hu Hk. destruct (ld_used i f' ltac:(done)) as (f & Hf & T & Hp). destruct (placed_below i f _ _ (proj1 Hf) Hp) as (B1 & B2 & _ & B4).
    unfold in_slice in Hk. change (pool_is_used M k) with (pool_is_used (with_pool W F P U) k). rewrite U2 by lia. specialize (Hc (S i)). apply Z.ltb_lt. lia.
  - assert (forall i j f g k, (i < j)%nat -> in_use M i f -> in_use M j g -> in_slice f k -> in_slice g k -> False) as Hlt.
    { intros i j f' g' k Hij Hi Hj Hk Hk'. destruct (ld_used i f' Hi) as (f & Hf & _ & Hp), (ld_used j g' Hj) as (g & Hg & _ & Hp').
      destruct (placed_below i f _ _ (proj1 Hf) Hp) as (_ & _ & _ & B4), (placed_below j g _ _ (proj1 Hg) Hp') as (_ & _ & C3 & _). unfold in_slice in *.
      pose proof (caps_mono (v_files V) (S i) j (sv_cap0 V s H) ltac:(lia)). lia. }
    intros i j f g k Hi Hj Hu Hv Hk Hk'. destruct (lt_eq_lt_dec i j) as [[Hij|?]|Hij]; [exfalso|done|exfalso]; [by apply (Hlt i j f g k)|by apply (Hlt j i g f k)].
Qed.

Lemma ld_fs : fs_ok d M s.
Proof.
  pose proof (sv_fs _ _ H) as [A1 A2 A3 A4 A5 A6 A7 A8]. pose proof (sv_total_bound V s H) as Hb. pose proof A1 as [B1 B2 B3 B4 B5].
  assert (forall i f', in_use M i f' -> exists f, in_use V i f /\ file_blocks M f' = file_blocks V f) as Hbl.
  { intros i f' Hi. destruct (ld_used i f' Hi) as (f & Hf & T & _). exists f. split; [done|]. by apply ld_blocks, Hf. }
  destruct HWm as [M1 M2 (M3 & M4 & M5) M6 M7].
  split.
  - split; cbn; [done|by rewrite HWp|done|congruence|]. change EXFS_DATA_START with 18. rewrite HWt. lia.
  - exact ld_pool.
  - intros i f' Hi. destruct (ld_file i f' Hi) as (f & _ & T & _). apply T.
  - intros i f' Hi. destruct (ld_used i f' Hi) as (f & Hf & T & _). destruct (A4 i f Hf) as [K1 K2 K3 K4 K5 K6]. destruct (ld_blocks f f' T (proj2 Hf)) as [E1 E2].
    destruct (tw_same _ _ _ _ T (proj2 Hf)) as (_ & Es & _ & En & Ec & _ & Ex). split; rewrite ?E1, ?E2, ?Es, ?En, ?Ec, ?Ex; try done. split; [apply K3|apply T].
  - intros i j f' g' b Hi Hj Hbi Hbj. destruct (Hbl i f' Hi) as (f & Hf & E), (Hbl j g' Hj) as (g & Hg & E'). apply (A5 i j f g b); congruence.
  - cbn. split; constructor.
  - intros i f' b _ _ Hd. by apply elem_of_nil in Hd.
  - intros b [(i & f' & Hi & Hin)|Hd]; [|by apply elem_of_nil in Hd]. destruct (Hbl i f' Hi) as (f & Hf & E). rewrite E in Hin.
    destruct (A8 b) as [D1 D2]; [left; by exists i, f|]. split.
    + unfold data_block in *. cbn. by rewrite M3, M4.
    + rewrite <- D2. apply (same_map_used (v_gm V)); [done|by split|apply D1].
Qed.

Lemma ld_tree T : tree_of d V s T -> tree_of d M s T.
Proof.
  intros [T1 T2]. split.
  - intros n c. rewrite T1. split.
    + intros (i & f & Hi & En & Et & Ec). destruct (ld_use i f Hi) as (f' & Hf & Tw & _). destruct (tw_same _ _ _ _ Tw (proj2 Hi)) as (E1 & E2 & E3 & _ & _ & _ & _).
      destruct (ld_blocks f f' Tw (proj2 Hi)) as [_ Eb]. exists i, f'. split_and!; [done|congruence|congruence|]. unfold content in *. by rewrite Eb, E2.
    + intros (i & f' & Hi & En & Et & Ec). destruct (ld_used i f' Hi) as (f & Hf & Tw & _). destruct (tw_same _ _ _ _ Tw (proj2 Hf)) as (E1 & E2 & E3 & _ & _ & _ & _).
      destruct (ld_blocks f f' Tw (proj2 Hf)) as [_ Eb]. exists i, f. split_and!; [done|congruence|congruence|]. unfold content in *. by rewrite <- Eb, <- E2.
  - intros n. rewrite T2. symmetry. apply ld_node.
Qed.

Lemma ld_saved : saved M s.
Proof.
  pose proof (sv_fs _ _ H) as Hfs. destruct (sv_map _ _ H) as [Mc Mw]. split.
  - exact ld_ns.
  - exact ld_fs.
  - destruct (sv_size _ _ H) as [E1 E2]. destruct (mp_size _ _ _ HWm) as (_ & E3 & _). cbn. split; congruence.
  - exact (sv_gen _ _ H).
  - exact (mp_clean _ _ _ HWm).
  - done.
  - intros i f' Hi. destruct (ld_used i f' Hi) as (f & Hf & T & (-> & _)). split; [apply T|]. destruct (tw_same _ _ _ _ T (proj2 Hf)) as (_ & _ & _ & -> & _).
    pose proof (fk_n _ _ _ _ (sv_file V s H i f Hf)). unfold cap0. rewrite (proj2 Hf). cbn [negb orb]. destruct (Z.eqb_spec (f_n f) 0) as [E|E]; [split; [lia|by left]|].
    pose proof (slice_cap_spec (f_n f) ltac:(lia)). split; [lia|by right].
  - change (v_gen M) with (v_gen V). rewrite (sb_fields_ext V M s); [exact (sv_super _ _ H)|apply Hfs|done|exact HWm|exact HWt].
  - exact (sv_other _ _ H).
  - intros i f' Hi. destruct (ld_file i f' Hi) as (f & Hf & T & _). pose proof (sv_itab _ _ H i f Hf) as Hon. change (v_gen M) with (v_gen V).
    unfold inode_on in *. rewrite (tw_used _ _ _ _ T). destruct (f_used f) eqn:Hu; [|done].
    destruct (tw_same _ _ _ _ T Hu) as (-> & -> & -> & _ & _ & -> & ->). done.
Qed.
End Mounted.

(** ** [exfs_mount] *)

(** The static storage of the file system, whatever it holds: the names, the
    chain arrays and the buffers of the cache have their sizes. *)
Definition static W : Prop :=
  length (v_files W) = 128%nat /\ (forall i f, v_files W !! i = Some f -> length (f_chain f) = 16%nat /\ length (f_name f) = 96%nat) /\ cache_ok (m_cache (v_gm W)).

Lemma cut_records (l : list Z) (i : nat) : take (Z.to_nat INODE_BYTES) (drop (i * Z.to_nat INODE_BYTES) l) = take 256 (drop (i * 256) l).
Proof. change (Z.to_nat INODE_BYTES) with 256%nat. done. Qed.

(** Nothing loaded yet. *)
Lemma loading_start V s W W' P : saved V s -> static W -> loading V W' 0 (no_slice <$> v_files W) P (replicate (Z.to_nat (EXFS_POOL_EXT / 8)) 0).
Proof.
  intros H (S1 & S2 & _). split.
  - by rewrite length_fmap.
  - intros j f (f0 & -> & Hj)%list_lookup_fmap_Some. exact (proj1 (S2 j f0 Hj)).
  - split; [exact (length_replicate _ _)|]. intros k Hk. rewrite take_0. cbn [caps]. rewrite (proj2 (Z.ltb_ge k 0)) by lia.
    unfold pool_is_used, with_pool. cbn [v_pool_used set_pool_used]. rewrite bit_of_testbit, nthZ_replicate. apply Z.testbit_0_l.
  - intros j f Hj. lia.
Qed.

Lemma mount_saved V s W : saved V s -> bd_ok s -> static W ->
  exists V' s', exfs_mount W (Some d) s = (EXFS_OK, V', s') /\ saved V' s' /\ bd_ok s' /\ bd_dead s' = bd_dead s /\ same_disk d s s' /\
    active V' /\ v_dirty V' = false /\ v_gen V' = v_gen V /\ forall T, tree_of d V s T -> tree_of d V' s' T.
Proof.
  intros H Hs Hst. unfold exfs_mount. set (W1 := set_mounted W false). destruct (geometry_saved V s W1 H) as (-> & _). rewrite Z.eqb_refl. cbn [negb].
  set (W2 := set_dev W1 (Some d) (v_spb V) (v_total V)). destruct (import_same V s (v_gm W2) H) as (m1 & Ei & En & Hm); [apply Hst|].
  change (v_total W2) with (v_total V). rewrite Ei, Z.eqb_refl. cbn [negb]. set (W3 := set_gm W2 m1).
  destruct (fo_alloc _ _ _ (sv_fs _ _ H)) as [A1 A2 A3 A4 A5]. destruct (sb_fields_tables V (v_gen V) (go_geo _ _ _ A3)) as (X1 & X2 & X3 & X4 & _).
  pose proof (sv_total_bound V s H) as Hb. set (x := sb_fields V (v_gen V)) in *.
  destruct (best_super_spec W3 s x (v_gen V .& 1)) as (s1 & -> & Hs1 & Hd1 & Hsame1); try done;
    [apply (low_on_dev V s); [done|lia]|apply (low_on_dev V s); [done|lia]|apply land_1|exact (sv_super _ _ H)|rewrite X1; exact (sv_other _ _ H)|].
  rewrite X3, X4. change (v_total W3) with (v_total V). change (m_ngroups (v_gm W3)) with (m_ngroups m1). rewrite En, !Z.eqb_refl. cbn [negb orb]. rewrite X2.
  destruct (got_blocks_spec W3 8 eq_refl A2 (itab_area (v_gen V)) [] s1 Hs1) as (s2 & E2 & Hs2 & Hd2 & Hsame2).
  { intros k Hk. apply (low_on_dev V s); [done|]. destruct (itab_area_cases (v_gen V)); lia. }
  change (Z.to_nat EXFS_ITAB_BLOCKS) with 8%nat. rewrite E2, Z.eqb_refl. cbn [negb app]. clear E2.
  set (W4 := set_gm W3 _). assert (same_disk d s s2) as Hs02 by (intros b Hbb; rewrite Hsame2 by done; by apply Hsame1).
  change (set_files (pool_clear W4) (no_slice <$> v_files W4)) with
    (with_pool W4 (no_slice <$> v_files W) (v_pool W) (replicate (Z.to_nat (EXFS_POOL_EXT / 8)) 0)).
  destruct (mount_files_spec V s W4 H eq_refl eq_refl eq_refl (fbytes d s1 (seqZ (itab_area (v_gen V)) (Z.of_nat 8))) 128 0 _ _ _ s2 eq_refl Hs2
    (loading_start V s W W4 (v_pool W) H Hst) Hs02) as (F & P & U & s' & E & HL & Hs' & Hd' & Hsame).
  { intros i f _. rewrite cut_records. unfold itab_record, itab_blocks. rewrite (fbytes_same d s s1); [done|].
    intros b Hbb%elem_of_seqZ. apply Hsame1. destruct (itab_area_cases (v_gen V)); lia. }
  change (Z.to_nat EXFS_INODES) with 128%nat. change (v_pool W4) with (v_pool W) in E. rewrite E, Z.eqb_refl. cbn [negb]. rewrite X1. clear E.
  change (mkVol _ _ _ _ _ _ _ _ _ _ _ _ _ _) with (mounted_vol V W4 F P U).
  assert (same_disk d s s') as Hss by (intros b Hbb; rewrite Hsame by done; by apply Hs02).
  pose proof (ld_saved V s W4 H eq_refl eq_refl eq_refl Hm F P U HL) as Hsv.
  destruct (saved_same (mounted_vol V W4 F P U) s s' Hsv) as [Hsv' Htree].
  { intros b Hv%vital_committed. apply Hss. by destruct (committed_closed d _ s b (sv_fs _ _ Hsv) Hv). }
  { apply (older_same s); [|exact (sv_other _ _ Hsv)]. apply Hss. change (v_gen (mounted_vol V W4 F P U)) with (v_gen V). destruct (land_1 (v_gen V)); lia. }
  exists (mounted_vol V W4 F P U), s'. split_and!; try done; [congruence|]. intros T HT. apply Htree. by eapply ld_tree.
Qed.
End Saved.
