(* ===== verification/ExfsCommit.v ===== *)
(** Committing an EXFS volume: the chains, the deferred blocks, the bitmaps and
    the inode table go to blocks the last commit does not use, and the
    superblock, written last, switches to them. *)

From S2P Require Import Prelude.
From S2P Require Import Bytes.
From S2P Require Import Blk.
From S2P Require Import ExfsDefs.
From S2P Require Import Gmap.
From S2P Require Import GmapOk.
From S2P Require Import Sb.
From S2P Require Import Exfs.
From S2P Require Import ExfsNames.
From S2P Require Import ExfsPool.
From S2P Require Import ExfsData.
From S2P Require Import ExfsFiles.
From S2P Require Import ExfsWrite.
From S2P Require Import ExfsWriteAt.
From S2P Require Import ExfsTree.
From S2P Require Import ExfsImage.
From S2P Require Import ExfsMount.

(** * Counting *)

Lemma countb_minus {A} `{EqDecision A} (P : A -> bool) (X l : list A) : NoDup X -> NoDup l -> (forall x, x ∈ X -> x ∈ l /\ P x = true) ->
  countb (fun x => negb (bool_decide (x ∈ X)) && P x) l = countb P l - lenZ X.
Proof.
  induction X as [|x X IH]; intros HX Hl Hin.
  - cbn [length]. rewrite Z.sub_0_r. apply countb_ext. intros y _. by rewrite bool_decide_eq_false_2 by apply not_elem_of_nil.
  - apply NoDup_cons in HX as [Hx HX]. specialize (IH HX Hl (fun y Hy => Hin y ltac:(by right))). destruct (Hin x ltac:(left)) as [Hxl Hxp].
    apply list_elem_of_split in Hxl as (l1 & l2 & ->). apply NoDup_app in Hl as (N1 & N2 & N3). apply NoDup_cons in N3 as [N3 N4].
    rewrite !countb_app in *. cbn [countb] in *. rewrite Hxp in *. rewrite (bool_decide_eq_false_2 (x ∈ X)) in IH by done. rewrite (bool_decide_eq_true_2 (x ∈ x :: X)) by left. cbn [negb andb length] in *.
    assert (forall l', x ∉ l' -> countb (fun y => negb (bool_decide (y ∈ x :: X)) && P y) l' = countb (fun y => negb (bool_decide (y ∈ X)) && P y) l') as E.
    { intros l' Hn. apply countb_ext. intros y Hy. f_equal. f_equal. apply bool_decide_ext. rewrite elem_of_cons. split; [intros [->|?]; done|by right]. }
    rewrite (E l1), (E l2); [lia|done|]. intros Hx1. apply (N2 x Hx1). by left.
Qed.

(** * The chain of one file *)

(** The blocks of a chain stored from index [j] on. *)
Fixpoint store_chain (C : list Z) (j : Z) (bl : list Z) : list Z :=
  match bl with
  | [] => C
  | b :: bl => store_chain (setZ C j b) (j + 1) bl
  end.

Lemma store_chain_spec bl : forall C j, 0 <= j -> j + lenZ bl <= lenZ C -> length (store_chain C j bl) = length C /\
  take (length bl) (drop (Z.to_nat j) (store_chain C j bl)) = bl /\ take (Z.to_nat j) (store_chain C j bl) = take (Z.to_nat j) C.
Proof.
  induction bl as [|b bl IH]; intros C j Hj Hl; cbn [store_chain length] in *; [by rewrite take_0|].
  destruct (IH (setZ C j b) (j + 1) ltac:(lia)) as (L & H1 & H2); [rewrite length_setZ; lia|]. rewrite length_setZ in L.
  replace (Z.to_nat (j + 1)) with (S (Z.to_nat j)) in * by lia. set (C' := store_chain _ _ bl) in *.
  assert (C' !! Z.to_nat j = Some b) as Hb.
  { rewrite <- (lookup_take_lt C' (S (Z.to_nat j))) by lia. rewrite H2, lookup_take_lt by lia. unfold setZ. apply list_lookup_insert_eq. lia. }
  split_and!; [done| |].
  - rewrite (drop_S _ b) by done. cbn [take]. by rewrite H1.
  - assert (forall l : list Z, take (Z.to_nat j) l = take (Z.to_nat j) (take (S (Z.to_nat j)) l)) as E by (intros l; rewrite take_take; f_equal; lia).
    rewrite (E C'), H2, <- E. unfold setZ. by rewrite take_insert_ge by lia.
Qed.

Section Commit.
Context {D : Type} (d : BlkDev D) `{!BlockDevice d} `{!FailStop d}.
Implicit Types (V W : Vol D) (s : D) (f : ExfsFile) (T : Tree).

(** Taking [k] single blocks. *)
Fixpoint take_ones (k : nat) V s : bool * list Z * Vol D * D :=
  match k with
  | O => (true, [], V, s)
  | S k =>
    let '(l, e, V, s) := take_extent V 1 s in
    if negb (l =? 1) then (false, [], V, s) else
    let '(ok, bl, V, s) := take_ones k V s in (ok, x_start e :: bl, V, s)
  end.

Lemma take_extent_put V i g n s : take_extent (put_file V i g) n s = let '(l, e, V1, s1) := take_extent V n s in (l, e, put_file V1 i g, s1).
Proof. unfold take_extent. cbn. destruct (gmap_take _ _ _ _) as [[[[rc st] ln] gm] s1]. by destruct (negb _). Qed.

Lemma take_ones_put i g : forall k V s, take_ones k (put_file V i g) s = let '(ok, bl, V1, s1) := take_ones k V s in (ok, bl, put_file V1 i g, s1).
Proof.
  induction k as [|k IH]; intros V s; cbn [take_ones]; [done|]. rewrite take_extent_put. destruct (take_extent V 1 s) as [[[l e] V1] s1].
  destruct (negb _); [done|]. rewrite IH. by destruct (take_ones k V1 s1) as [[[ok bl] V2] s2].
Qed.

Lemma put_put V i f g : put_file (put_file V i f) i g = put_file V i g.
Proof. unfold put_file. cbn. by rewrite list_insert_insert_eq. Qed.

(** [chain_take] is that, and the blocks go into the file's chain. *)
Lemma chain_take_ones i : forall k j V s f, v_files V !! i = Some f ->
  chain_take k j i V s = let '(ok, bl, V1, s1) := take_ones k V s in (ok, put_file V1 i (set_chain f (f_nchain f) (store_chain (f_chain f) j bl)), s1).
Proof.
  induction k as [|k IH]; intros j V s f Hi; cbn [chain_take take_ones].
  { unfold put_file. cbn [store_chain]. assert (set_chain f (f_nchain f) (f_chain f) = f) as -> by by destruct f. rewrite list_insert_id by done. by destruct V. }
  pose proof (take_extent_files V 1 s) as Hfl. destruct (take_extent V 1 s) as [[[l e] V1] s1]. cbn in Hfl. assert (v_files V1 !! i = Some f) as Hi1 by by rewrite Hfl.
  destruct (negb (l =? 1)).
  { cbn [store_chain]. unfold put_file. assert (set_chain f (f_nchain f) (f_chain f) = f) as -> by by destruct f. rewrite list_insert_id by done. by destruct V1. }
  rewrite (file_lookup V1 i f Hi1). set (g := set_chain f (f_nchain f) (setZ (f_chain f) j (x_start e))).
  rewrite (IH (j + 1) (put_file V1 i g) s1 g). 2: { cbn. apply list_lookup_insert_eq. by eapply lookup_lt_Some. }
  rewrite take_ones_put. destruct (take_ones k V1 s1) as [[[ok bl] V2] s2]. by rewrite put_put.
Qed.

(** ** Taking *)

Lemma take_ones_frozen k : forall V s, on_device d V -> bd_ok s -> bd_dead s = true -> let '(_, _, V', s') := take_ones k V s in on_device d V' /\ frozen d s s'.
Proof.
  induction k as [|k IH]; intros V s Hd Hs Hx; cbn [take_ones]; [done|]. pose proof (take_extent_frozen d V 1 s Hd Hs Hx) as H.
  destruct (take_extent V 1 s) as [[[l e] V1] s1]. destruct H as [Hd1 Hf]. pose proof Hf as (Hs1 & Hx1 & _). destruct (negb _); [done|].
  pose proof (IH V1 s1 Hd1 Hs1 Hx1) as H. destruct (take_ones k V1 s1) as [[[ok bl] V2] s2]. destruct H as [? Hf2]. split; [done|]. by apply (frozen_trans d s s1).
Qed.

(** The number of free blocks while blocks are held. *)
Lemma holds_free V s V1 s1 X : alloc_ok d V s -> holds d V s V1 s1 X -> gmap_free_total (v_gm V1) = gmap_free_total (v_gm V) - lenZ X.
Proof.
  intros Hv H. pose proof (ho_ok _ _ _ _ _ _ H) as Hv1. rewrite (gmap_free_total_spec d _ s1 (ao_gm _ _ _ Hv1)), (gmap_free_total_spec d _ s (ao_gm _ _ _ Hv)).
  rewrite (ao_total _ _ _ Hv1), (ao_total _ _ _ Hv). destruct (holds_dev _ _ _ _ _ _ H) as (_ & _ & ->).
  rewrite <- (countb_minus (fun b => negb (used d (v_gm V) s b)) X); [|apply H|apply NoDup_seqZ|].
  - apply countb_ext. intros b Hb%elem_of_seqZ. rewrite (ho_used _ _ _ _ _ _ H) by lia. apply negb_orb.
  - intros b Hb. destruct (ho_free _ _ _ _ _ _ H b Hb) as [(Hr & _) ->]. rewrite (ao_total _ _ _ Hv) in Hr. split; [|done]. apply elem_of_seqZ. lia.
Qed.

Lemma take_ones_spec V s : alloc_ok d V s -> forall k V1 s1 X, holds d V s V1 s1 X -> lenZ X + Z.of_nat k <= gmap_free_total (v_gm V) ->
  bd_ok s1 -> bd_dead s1 = false ->
  let '(ok, bl, V2, s2) := take_ones k V1 s1 in
  bd_ok s2 /\ on_device d V2 /\ safe d V s s2 /\ (bd_dead s2 = false -> ok = true /\ length bl = k /\ holds d V s V2 s2 (X ++ bl)).
Proof.
  intros Hv. induction k as [|k IH]; intros V1 s1 X H Hk Hs Hx; cbn [take_ones].
  { split_and!; [done|by eapply holds_on_device|apply H|]. intros _. by rewrite app_nil_r. }
  pose proof (take_extent_spec d V s V1 s1 X 1 H Hs Hx ltac:(lia)) as Ht. destruct (take_extent V1 1 s1) as [[[l e] V2] s2].
  destruct Ht as (Hs2 & Hd2 & Hfr & Hlive). assert (safe d V s s2) as Hsafe by (intros b Hb Hp Hnf; rewrite Hfr by done; by apply (ho_safe _ _ _ _ _ _ H)).
  destruct (bd_dead s2) eqn:Ed.
  { destruct (negb _); [split_and!; [done|done|done|congruence]|]. pose proof (take_ones_frozen k V2 s2 Hd2 Hs2 Ed) as Hz. destruct (take_ones k V2 s2) as [[[ok bl] V3] s3].
    destruct Hz as [K1 (K2 & K3 & K4)]. split_and!; [done|done|by apply (safe_same d V s s2)|congruence]. }
  destruct (Hlive eq_refl) as [(-> & H2 & Hfull)|(Hl2 & El & He & H2)].
  - exfalso. pose proof (holds_free V s V1 s1 X Hv H) as E. rewrite (gmap_free_total_spec d _ s1 (ao_gm _ _ _ (ho_ok _ _ _ _ _ _ H))) in E.
    assert (countb (fun b => negb (used d (v_gm V1) s1 b)) (seqZ 0 (m_total (v_gm V1))) = 0) as E0; [|lia].
    apply countb_zero. intros b Hb%elem_of_seqZ. rewrite (ao_total _ _ _ (ho_ok _ _ _ _ _ _ H)) in Hb. destruct (holds_dev _ _ _ _ _ _ H) as (_ & _ & Et). by rewrite Hfull by lia.
  - assert (l = 1) as -> by lia. cbn [Z.eqb negb]. rewrite <- El in H2. rewrite seqZ_cons, seqZ_nil in H2 by lia.
    specialize (IH V2 s2 (X ++ [x_start e]) H2 ltac:(rewrite length_app; cbn [length]; lia) Hs2 Ed).
    destruct (take_ones k V2 s2) as [[[ok bl] V3] s3]. destruct IH as (I1 & I2 & I3 & I4). split_and!; try done. intros E. destruct (I4 E) as (-> & <- & I5).
    rewrite <- app_assoc in I5. by split_and!.
Qed.

(** ** Writing *)

Lemma chain_write_frozen W f nind : v_dev W = Some d -> forall n k s, bd_ok s -> bd_dead s = true -> let '(_, s') := chain_write n k nind W f s in frozen d s s'.
Proof.
  intros Hd [|n] k s Hs Hx; cbn [chain_write]; [done|]. destruct (blk_put_frozen d W (nthZ (f_chain f) k) (chain_page W f nind k) s Hd Hs Hx) as (rc & s1 & -> & Hrc & Hf).
  by rewrite (proj2 (Z.eqb_neq rc EXFS_OK)).
Qed.

Lemma chain_write_spec V s V1 X W f nind : v_dev W = v_dev V1 -> v_spb W = v_spb V1 -> forall n k s1, holds d V s V1 s1 X -> 0 <= k ->
  (forall j, k <= j < k + Z.of_nat n -> nthZ (f_chain f) j ∈ X /\ length (chain_page W f nind j) = 4096%nat /\ bytes_ok (chain_page W f nind j)) ->
  (forall j j', k <= j < k + Z.of_nat n -> k <= j' < k + Z.of_nat n -> nthZ (f_chain f) j = nthZ (f_chain f) j' -> j = j') -> bd_ok s1 -> bd_dead s1 = false ->
  let '(ok, s2) := chain_write n k nind W f s1 in
  bd_ok s2 /\ safe d V s s2 /\ (bd_dead s2 = false -> ok = true /\ holds d V s V1 s2 X /\
    (forall b, 0 <= b -> (forall j, k <= j < k + Z.of_nat n -> b <> nthZ (f_chain f) j) -> block d s2 b = block d s1 b) /\
    forall j, k <= j < k + Z.of_nat n -> block d s2 (nthZ (f_chain f) j) = chain_page W f nind j).
Proof.
  intros Ed Ep. induction n as [|n IH]; intros k s1 H Hk Hin Hinj Hs Hx; cbn [chain_write].
  { split_and!; [done|apply H|]. intros _. split_and!; try done. lia. }
  destruct (holds_dev _ _ _ _ _ _ H) as (Hd & _ & _). rewrite (ao_dev _ _ _ (ho_ok _ _ _ _ _ _ H)) in Ed. destruct (Hin k ltac:(lia)) as (Hb0 & Hpl & Hpb).
  destruct (holds_data _ _ _ _ _ _ H _ Hb0) as (_ & _ & Hon & Hrng). set (b0 := nthZ (f_chain f) k) in *.
  destruct (blk_put_live d W b0 (chain_page W f nind k) s1 Ed ltac:(rewrite Ep; apply (ho_ok _ _ _ _ _ _ H)) Hon Hpl Hpb Hs Hx) as (rc & s2 & -> & Hs2 & Hfr & Hlv & Hw).
  pose proof (holds_write _ _ _ _ _ _ H s2 b0 Hs Hb0 Hfr) as H2. destruct (bd_dead s2) eqn:Ex2.
  { destruct (negb _); [split_and!; [done|apply H2|congruence]|]. pose proof (chain_write_frozen W f nind Ed n (k + 1) s2 Hs2 Ex2) as Hf.
    destruct (chain_write n (k + 1) nind W f s2) as [ok s3]. destruct Hf as (F1 & F2 & F3). split_and!; [done| |congruence]. apply (safe_same d V s s2); [apply H2|done]. }
  rewrite (Hlv eq_refl), Z.eqb_refl. cbn [negb].
  specialize (IH (k + 1) s2 H2 ltac:(lia) ltac:(intros; apply Hin; lia) ltac:(intros; apply Hinj; (done || lia)) Hs2 Ex2).
  destruct (chain_write n (k + 1) nind W f s2) as [ok s3]. destruct IH as (I1 & I2 & I3). split_and!; [done|done|]. intros E3. destruct (I3 E3) as (-> & I4 & I5 & I6). split_and!; [done|done| |].
  - intros b Hb Hne. rewrite I5 by (try done; intros; apply Hne; lia). apply Hfr; [done|]. apply Hne. lia.
  - intros j Hj. destruct (Z.eq_dec j k) as [->|Hjk]; [|apply I6; lia]. fold b0. rewrite I5; [by apply Hw, Hlv|lia|].
    intros j Hj' E. assert (k = j); [|lia]. apply Hinj; (lia || exact E).
Qed.

(** ** Step 1 for one file *)

(** The extents that the record has no room for are in the chain on the disk. *)
Definition on_disk V s f : Prop := chain_at d s (chain_head (chain_blocks f)) (chain_blocks f) (drop 8 (fext V f)).

(** [g] is [f] but for the chain. *)
Definition rechained f (g : ExfsFile) : Prop := g = set_chain f (f_nchain g) (f_chain g).

Definition chain_need f : Z := if f_used f && f_dirty f && (8 <? f_n f) then nind_of (f_n f) else 0.

Lemma nind_bounds n : 8 < n <= 2048 -> 0 < nind_of n <= 16 /\ 254 * (nind_of n - 1) < n - 8 <= 254 * nind_of n.
Proof.
  intros Hn. unfold nind_of. change EXFS_INL with 8. change EXFS_IND_EXT with 254. pose proof (Z.div_mod (n - 8 + 254 - 1) 254 ltac:(lia)).
  pose proof (Z.mod_pos_bound (n - 8 + 254 - 1) 254 ltac:(lia)). lia.
Qed.

Lemma fext_typed V s i f : fs_ok d V s -> in_use V i f -> Forall ext_typed (fext V f).
Proof.
  intros Hf Hi. pose proof (fk_ext _ _ _ _ (fo_file _ _ _ Hf i f Hi)) as Hx. rewrite !Forall_forall in *. intros e He. destruct (Hx e He) as [X1 X2].
  destruct (owned_block d V s (x_start e) Hf) as (_ & H & _).
  - apply (data_owned V i f); [done|]. apply elem_of_ext_blocks. exists e. split; [done|]. lia.
  - pose proof (gg_total _ _ (go_geo _ _ _ (ao_gm _ _ _ (fo_alloc _ _ _ Hf)))) as Ht. rewrite (ao_total _ _ _ (fo_alloc _ _ _ Hf)) in Ht. unfold ext_typed. lia.
Qed.

Lemma pool_ok_put V i f g : pool_ok V -> in_use V i f -> f_used g = true -> f_n g = f_n f -> f_ext_off g = f_ext_off f -> f_ext_cap g = f_ext_cap f -> pool_ok (put_file V i g).
Proof.
  intros [P1 P2 P3 P4 P5] [Hi Hu] Eu En Eo Ec.
  assert (forall j h, v_files (put_file V i g) !! j = Some h -> f_used h = true -> exists h', v_files V !! j = Some h' /\ f_used h' = true /\
    f_n h = f_n h' /\ f_ext_off h = f_ext_off h' /\ f_ext_cap h = f_ext_cap h') as Hb.
  { intros j h Hj Huh. apply list_lookup_insert_Some in Hj as [(<- & <- & _)|[_ Hj]]; [by exists f|by exists h]. }
  split.
  - done.
  - cbn. by rewrite length_insert.
  - intros j h Hj Huh. destruct (Hb j h Hj Huh) as (h' & Hj' & Hu' & -> & -> & ->). by apply (P3 j).
  - intros j h k Hj Huh Hk. destruct (Hb j h Hj Huh) as (h' & Hj' & Hu' & _ & E1 & E2). apply (P4 j h' k Hj' Hu'). unfold in_slice in *. by rewrite <- E1, <- E2.
  - intros j1 j2 h1 h2 k H1 H2 U1 U2 K1 K2. destruct (Hb j1 h1 H1 U1) as (h1' & A1 & A2 & _ & A3 & A4), (Hb j2 h2 H2 U2) as (h2' & B1 & B2 & _ & B3 & B4).
    apply (P5 j1 j2 h1' h2' k); try done; unfold in_slice in *; congruence.
Qed.

(** File [i] with the chain it got. *)
Definition chained V s (i : nat) f V' s' : Prop :=
  exists gm h g, V' = put_file (with_map V gm h) i g /\ gm_like (v_gm V) gm /\ rechained f g /\ fs_ok d V' s' /\ on_disk V' s' g /\
    (forall b, owned V b -> owned V' b) /\ (forall j k, in_use V j k -> j <> i -> content d V' s' k = content d V s k) /\ content d V' s' g = content d V s f /\
    (forall b, 0 <= b < v_total V -> used d (v_gm V) s b = true -> used d gm s' b = true) /\
    gmap_free_total gm = gmap_free_total (v_gm V) - chain_need f.

Lemma dirty_id V : v_dirty V = true -> set_dirty V true = V.
Proof. intros E. destruct V. cbn in *. by subst. Qed.

(** Chain blocks taken and written. *)
Lemma chained_done V s V1 s2 i f C bl : fs_ok d V s -> v_dirty V = true -> in_use V i f -> f_dirty f = true -> f_nchain f = 0 ->
  holds d V s V1 s2 bl -> lenZ bl = chain_need f -> length C = 16%nat -> take (length bl) C = bl ->
  let g := set_chain f (chain_need f) C in
  (forall j, 0 <= j < chain_need f -> block d s2 (nthZ C j) = chain_page (put_file V1 i g) g (chain_need f) j) ->
  chained V s i f (put_file V1 i g) s2.
Proof.
  intros Hf Hdv Hi Hdf Hn0 H Hbl HC Htk g Hpg. pose proof (fo_file _ _ _ Hf i f Hi) as Hk. pose proof Hk as [K1 K2 K3 K4 K5 K6].
  destruct (fs_ok_holds d V s V1 s2 bl Hf H) as (F1 & C1 & X1). destruct (ho_vol _ _ _ _ _ _ H) as (gm & h & E1 & Hgl).
  assert (in_use V1 i f) as Hi1 by by rewrite E1. assert (i < length (v_files V1))%nat as Hlt by (destruct Hi1; by eapply lookup_lt_Some).
  set (V' := put_file V1 i g). assert (with_file V1 i g (v_pool V1) (v_pool_used V1) (v_defer V1) = V') as EV.
  { change (with_file V1 i g (v_pool V1) (v_pool_used V1) (v_defer V1)) with (set_dirty V' true). apply dirty_id. change (v_dirty V1 = true). by rewrite E1. }
  assert (v_pool V1 = v_pool V) as Ep by by rewrite E1. assert (fext V' g = fext V f) as Hx by (unfold fext; cbn; by rewrite Ep). assert (fext V1 f = fext V f) as Hx1 by by rewrite E1.
  assert (chain_blocks f = []) as Hc0 by (unfold chain_blocks; by rewrite Hn0). assert (0 <= chain_need f <= 16) as Hnd.
  { unfold chain_need. destruct (_ && _) eqn:Eb; [|lia]. apply andb_true_iff in Eb as [_ Eb%Z.ltb_lt]. destruct (nind_bounds (f_n f)); lia. }
  assert (chain_blocks g = bl) as Hcg. { unfold chain_blocks. cbn. rewrite <- Hbl, Nat2Z.id. exact Htk. }
  assert (data_blocks V' g = data_blocks V f) as Hdb by (unfold data_blocks; by rewrite Hx).
  assert (file_blocks V' g = data_blocks V f ++ bl) as Hfb by (unfold file_blocks; by rewrite Hdb, Hcg).
  assert (file_blocks V1 f = data_blocks V f) as Hfb1 by (unfold file_blocks, data_blocks; rewrite Hx1, Hc0; apply app_nil_r).
  assert (forall b, b ∈ data_blocks V f -> block d s2 b = block d s b) as Hsb.
  { intros b Hb. destruct (owned_block d V s b Hf (data_owned V i f b Hi Hb)) as (_ & Hr & Hp & Hfr). apply (ho_safe _ _ _ _ _ _ H); [lia|done|done]. }
  destruct (fs_ok_replace d V1 s2 i f g (v_pool V1) (v_pool_used V1) (v_defer V1) bl F1 Hi1 (proj2 Hi)) as (R1 & R2 & R3); rewrite ?EV.
  - apply (pool_ok_put V1 i f); [apply F1|done|apply Hi|done|done|done].
  - intros j k _ _. done.
  - split; rewrite ?Hx, ?Hdb, ?Hfb; try done.
    + intros k Hkk. rewrite (fbytes_same d s s2) by done. by apply K5.
    + apply NoDup_app. split_and!; [|intros b Hb Hb'|apply H].
      * unfold file_blocks in K6. rewrite Hc0, app_nil_r in K6. exact K6.
      * apply (X1 b Hb'). left. exists i, f. by rewrite Hfb1.
  - split; rewrite ?Hfb, ?Hfb1.
    + intros b [?|?]%elem_of_app; [by right|by left].
    + intros b Hb. left. apply elem_of_app. by left.
    + intros b. split; [by left|]. intros [?|[Hb Hb']]; [done|]. destruct Hb'. apply elem_of_app. by left.
    + exact (fo_defer _ _ _ F1).
  - intros b Hb. destruct (holds_data d V s V1 s2 bl H b Hb) as (? & ? & _). split_and!; [done|done|by apply X1].
  - rewrite EV in R1, R2, R3. exists gm, h, g. split_and!.
    + unfold V'. by rewrite E1.
    + done.
    + done.
    + exact R1.
    + unfold on_disk. rewrite Hcg, Hx. unfold chain_need in *. destruct (f_used f && f_dirty f && (8 <? f_n f)) eqn:Eb.
      * apply andb_true_iff in Eb as [_ Eb%Z.ltb_lt]. destruct (nind_bounds (f_n f) ltac:(lia)) as [Hn1 _].
        assert (forall j, 0 <= j < nind_of (f_n f) -> nthZ C j ∈ bl) as Hin.
        { intros j Hj. rewrite <- Htk. unfold nthZ. rewrite <- (lookup_take_lt C (length bl)) by lia. rewrite Htk.
          destruct (lookup_lt_is_Some_2 bl (Z.to_nat j) ltac:(lia)) as [b Hb]. rewrite Hb. by eapply list_elem_of_lookup_2. }
        pose proof (chain_pages_at d V' s2 g (nind_of (f_n f)) Eb eq_refl) as Hp. rewrite Hx in Hp. change (f_chain g) with C in Hp.
        replace (take (Z.to_nat (nind_of (f_n f))) C) with bl in Hp by (rewrite <- Hbl, Nat2Z.id; done).
        replace (nthZ C 0) with (chain_head bl) in Hp. 2: { rewrite <- Htk at 1. destruct bl as [|b bl]; [cbn [length] in Hbl; lia|]. destruct C as [|c C]; [done|]. done. }
        apply Hp; [by apply (fext_typed V s i)|lia|]. intros k Hkk. split; [|by apply Hpg].
        destruct (holds_data d V s V1 s2 bl H (nthZ C k) (Hin k Hkk)) as (Hd1 & _ & [? _] & _).
        pose proof (data_block_ge d _ _ (go_geo _ _ _ (ao_gm _ _ _ (ho_ok _ _ _ _ _ _ H))) Hd1). lia.
      * destruct bl; [|cbn [length] in Hbl; lia]. cbn [chain_head chain_at]. split; [done|]. apply drop_ge. rewrite (proj2 Hi), Hdf in Eb. cbn [andb] in Eb. apply Z.ltb_ge in Eb.
        pose proof (length_fext V f ltac:(lia)). lia.
    + intros b Hb. apply R2. by rewrite E1.
    + intros j k Hj Hne. assert (in_use V1 j k) as Hj1 by by rewrite E1. destruct (R3 j k Hj1 Hne) as [_ ->]. by apply (C1 j k).
    + unfold content. rewrite Hdb. f_equal. by apply fbytes_same.
    + intros b Hb Hu. replace gm with (v_gm V1) by by rewrite E1. rewrite (ho_used _ _ _ _ _ _ H), Hu by done. apply orb_true_r.
    + rewrite <- Hbl. replace gm with (v_gm V1) by by rewrite E1. apply (holds_free V s V1 s2); [apply Hf|done].
Qed.

Lemma commit_chain_frozen V i s : on_device d V -> bd_ok s -> bd_dead s = true -> let '(_, V', s') := commit_chain V i s in on_device d V' /\ frozen d s s'.
Proof.
  intros Hd Hs Hx. unfold commit_chain. destruct (_ || _); [done|]. set (nind := if _ <? _ then _ else 0).
  destruct (v_files V !! i) as [f|] eqn:Hi.
  - rewrite (chain_take_ones i _ 0 V s f Hi). pose proof (take_ones_frozen (Z.to_nat nind) V s Hd Hs Hx) as H.
    destruct (take_ones (Z.to_nat nind) V s) as [[[ok bl] V1] s1]. destruct H as [Hd1 Hf1]. destruct (negb ok); [done|].
    set (W := put_file _ i (set_chain (file _ i) nind _)). pose proof Hf1 as (Hs1 & Hx1 & _).
    pose proof (chain_write_frozen W (file W i) nind (proj1 Hd1) (Z.to_nat nind) 0 s1 Hs1 Hx1) as H. destruct (chain_write _ _ _ _ _ s1) as [ok2 s2].
    destruct (negb ok2); (split; [done|]); by apply (frozen_trans d s s1).
  - assert (nind = 0) as En. { unfold nind, file. rewrite Hi. done. } rewrite En. cbn [chain_take chain_write Z.to_nat negb]. split; [done|]. done.
Qed.

Lemma commit_chain_spec V s i f : fs_ok d V s -> v_dirty V = true -> bd_ok s -> bd_dead s = false -> in_use V i f -> f_dirty f = true -> f_nchain f = 0 ->
  chain_need f <= gmap_free_total (v_gm V) ->
  let '(rc, V', s') := commit_chain V i s in
  bd_ok s' /\ on_device d V' /\ safe d V s s' /\ (bd_dead s' = false -> rc = EXFS_OK /\ chained V s i f V' s').
Proof.
  intros Hf Hdv Hs Hx Hi Hdf Hn0 Hroom. pose proof (fo_file _ _ _ Hf i f Hi) as [K1 K2 [K3 K3'] _ _ _].
  unfold commit_chain. rewrite (file_lookup V i f (proj1 Hi)), (proj2 Hi), Hdf. cbn [negb orb]. change EXFS_INL with 8.
  assert ((if 8 <? f_n f then nind_of (f_n f) else 0) = chain_need f) as -> by (unfold chain_need; rewrite (proj2 Hi), Hdf; done).
  assert (0 <= chain_need f <= 16 /\ forall k, k < chain_need f -> 8 + 254 * k < f_n f) as [Hnd Hfull].
  { unfold chain_need. rewrite (proj2 Hi), Hdf. cbn [andb]. destruct (Z.ltb_spec 8 (f_n f)).
    - destruct (nind_bounds (f_n f)); [lia|]. split; [lia|]. intros k Hk. lia.
    - split; [lia|]. intros k Hk. lia. }
  set (nind := chain_need f) in *.
  rewrite (chain_take_ones i _ 0 V s f (proj1 Hi)).
  pose proof (take_ones_spec V s (fo_alloc _ _ _ Hf) (Z.to_nat nind) V s [] (holds_refl d V s (fo_alloc _ _ _ Hf)) ltac:(cbn [length]; lia) Hs Hx) as H.
  destruct (take_ones (Z.to_nat nind) V s) as [[[ok bl] V1] s1]. destruct H as (Hs1 & Hd1 & Hsafe1 & Hlive1). destruct (bd_dead s1) eqn:Ex1.
  { destruct (negb ok); [split_and!; [done|done|done|congruence]|].
    set (W := put_file _ i (set_chain (file _ i) nind _)).
    pose proof (chain_write_frozen W (file W i) nind (proj1 Hd1) (Z.to_nat nind) 0 s1 Hs1 Ex1) as H. destruct (chain_write _ _ _ _ _ s1) as [ok2 s2].
    destruct H as (F1 & F2 & F3). destruct (negb ok2); (split_and!; [done|done|by apply (safe_same d V s s1)|congruence]). }
  destruct (Hlive1 eq_refl) as (-> & Hbl & H1). cbn [negb app] in *. clear Hlive1.
  destruct (store_chain_spec bl (f_chain f) 0 ltac:(lia) ltac:(lia)) as (HC & Htk & _). rewrite drop_0 in Htk. set (C := store_chain (f_chain f) 0 bl) in *.
  assert (v_files V1 !! i = Some f) as Hi1 by (destruct (ho_vol _ _ _ _ _ _ H1) as (gm & h & -> & _); apply Hi).
  assert (i < length (v_files V1))%nat as Hlt by by eapply lookup_lt_Some. set (g := set_chain f nind C).
  assert (put_file (put_file V1 i (set_chain f (f_nchain f) C)) i (set_chain (file (put_file V1 i (set_chain f (f_nchain f) C)) i) nind
    (f_chain (file (put_file V1 i (set_chain f (f_nchain f) C)) i))) = put_file V1 i g) as ->.
  { rewrite put_put. rewrite (file_lookup _ i (set_chain f (f_nchain f) C)) by (cbn; by apply list_lookup_insert_eq). done. }
  set (W := put_file V1 i g). assert (file W i = g) as -> by (apply file_lookup; cbn; by apply list_lookup_insert_eq).
  assert (fext W g = fext V f) as Hx1 by (destruct (ho_vol _ _ _ _ _ _ H1) as (gm & h & E & _); unfold W; by rewrite E).
  assert (forall j, 0 <= j < nind -> C !! Z.to_nat j = bl !! Z.to_nat j) as HCb.
  { intros j Hj. rewrite <- (lookup_take_lt C (length bl)) by lia. by rewrite Htk. }
  pose proof (ho_nodup _ _ _ _ _ _ H1) as Hnd1.
  pose proof (chain_write_spec V s V1 bl W g nind eq_refl eq_refl (Z.to_nat nind) 0 s1 H1 ltac:(lia)) as Hw. rewrite Z.add_0_l, Z2Nat.id in Hw by lia. change (f_chain g) with C in Hw.
  assert (forall j, 0 <= j < nind -> exists b, bl !! Z.to_nat j = Some b /\ nthZ C j = b) as Hnth.
  { intros j Hj. destruct (lookup_lt_is_Some_2 bl (Z.to_nat j) ltac:(lia)) as [b Hb]. exists b. split; [done|]. unfold nthZ. by rewrite HCb, Hb. }
  specialize (Hw ltac:(intros j Hj; destruct (Hnth j Hj) as (b & Hb & ->); split; [by eapply list_elem_of_lookup_2|];
    destruct (chain_page_spec W g nind j ltac:(lia) (proj1 K1) ltac:(rewrite Hx1; by apply (fext_typed V s i)) (Hfull j ltac:(lia))) as (P1 & P2 & _); done)).
  specialize (Hw ltac:(intros j j' Hj Hj' E; destruct (Hnth j Hj) as (b & Hb & E1), (Hnth j' Hj') as (b' & Hb' & E2);
    pose proof (NoDup_lookup bl (Z.to_nat j) (Z.to_nat j') b Hnd1 Hb ltac:(congruence)); lia) Hs1 Ex1).
  destruct (chain_write _ _ _ _ _ s1) as [ok2 s2]. destruct Hw as (Hs2 & Hsafe2 & Hlive2). destruct (bd_dead s2) eqn:Ex2.
  { destruct (negb ok2); (split_and!; [done|done|done|congruence]). }
  destruct (Hlive2 eq_refl) as (-> & H2 & _ & Hpg). cbn [negb]. split_and!; [done|done|done|]. intros _. split; [done|].
  apply (chained_done V s V1 s2 i f C bl); try done; [fold nind; lia|congruence].
Qed.

(** ** Steps 0 and 1 *)

Fixpoint chain_needs (l : list ExfsFile) : Z := match l with [] => 0 | f :: l => chain_need f + chain_needs l end.

Lemma commit_need_spec l : forall need, (forall i f, l !! i = Some f -> f_used f = true -> f_n f <= 2048) -> commit_need l need = inr (need + chain_needs l).
Proof.
  induction l as [|f l IH]; intros need H; cbn [commit_need chain_needs]; [by rewrite Z.add_0_r|]. specialize (IH need (fun i => H (S i))) as IH0.
  unfold chain_need. change EXFS_INL with 8. destruct (f_used f) eqn:Hu; cbn [negb orb andb]; [|done].
  destruct (f_dirty f); cbn [negb orb andb]; [|done]. destruct (Z.leb_spec (f_n f) 8), (Z.ltb_spec 8 (f_n f)); try lia; [done|].
  pose proof (H 0%nat f eq_refl Hu). destruct (nind_bounds (f_n f)); [lia|]. change EXFS_MAX_CHAIN with 16. rewrite (proj2 (Z.ltb_ge 16 _)) by lia.
  rewrite (IH _ (fun i => H (S i))). f_equal. lia.
Qed.

(** A volume whose next commit can go through: changed files have no chain,
    the chains of the others are on the disk. *)
Record ready V s : Prop := {
  rd_fs : fs_ok d V s;
  rd_dirty : v_dirty V = true;
  rd_chain : forall i f, in_use V i f -> if f_dirty f then f_nchain f = 0 else on_disk V s f
}.

(** The first [i] files have their chains. *)
Record committing V0 s0 (i : nat) V s : Prop := {
  cm_fs : fs_ok d V s;
  cm_vol : exists gm h F, V = set_files (with_map V0 gm h) F /\ gm_like (v_gm V0) gm /\ length F = length (v_files V0);
  cm_files : forall j f, v_files V0 !! j = Some f -> exists g, v_files V !! j = Some g /\ rechained f g /\ ((i <= j)%nat -> g = f);
  cm_content : forall j f g, in_use V0 j f -> v_files V !! j = Some g -> content d V s g = content d V0 s0 f;
  cm_chain : forall j g, in_use V j g -> f_dirty g = false \/ (j < i)%nat -> on_disk V s g;
  cm_owned : forall b, owned V0 b -> owned V b;
  cm_used : forall b, 0 <= b < v_total V0 -> used d (v_gm V0) s0 b = true -> used d (v_gm V) s b = true;
  cm_safe : safe d V0 s0 s;
  cm_free : chain_needs (drop i (v_files V0)) <= gmap_free_total (v_gm V)
}.

Lemma committing_start V s : ready V s -> chain_needs (v_files V) <= gmap_free_total (v_gm V) -> committing V s 0 V s.
Proof.
  intros [R1 R2 R3] Hn. split; try done.
  - exists (v_gm V), (v_hint V), (v_files V). split_and!; [by destruct V|apply gm_like_refl|done].
  - intros j f Hj. exists f. split_and!; [done| |done]. by destruct f.
  - intros j f g [Hj _] Hg. by assert (g = f) as -> by congruence.
  - intros j g Hj [Hd|Hd]; [|lia]. specialize (R3 j g Hj). by rewrite Hd in R3.
Qed.

Lemma safe_trans V0 s0 V s s' : alloc_ok d V0 s0 -> gm_like (v_gm V0) (v_gm V) -> (forall b, 0 <= b < v_total V0 -> used d (v_gm V0) s0 b = true -> used d (v_gm V) s b = true) ->
  safe d V0 s0 s -> safe d V s s' -> safe d V0 s0 s'.
Proof.
  intros Hv Hl Hu H1 H2 b Hb Hp Hfr. rewrite H2; [by apply H1|done|by rewrite (pending_like (v_gm V0))|].
  intros [Hd Hf]. apply Hfr. assert (data_block (v_gm V0) b) as Hd0 by by apply (data_like _ _ b Hl). split; [done|].
  destruct (used d (v_gm V0) s0 b) eqn:E; [|done]. rewrite Hu in Hf; [done| |done]. destruct Hd0 as [Hr _]. by rewrite (ao_total _ _ _ Hv) in Hr.
Qed.

Lemma on_disk_same V s V' s' f : fext V' f = fext V f -> (forall b, b ∈ chain_blocks f -> block d s' b = block d s b) -> on_disk V s f -> on_disk V' s' f.
Proof. intros E Hb H. unfold on_disk. rewrite E. by apply (chain_at_same d s). Qed.

Lemma owned_safe V s s' b : fs_ok d V s -> safe d V s s' -> owned V b -> block d s' b = block d s b.
Proof. intros Hf Hs Hb. destruct (owned_block d V s b Hf Hb) as (_ & Hr & Hp & Hfr). apply Hs; [lia|done|done]. Qed.

(** A file that is not used or not changed. *)
Lemma committing_skip V0 s0 i V s f : committing V0 s0 i V s -> v_files V0 !! i = Some f -> f_used f && f_dirty f = false -> committing V0 s0 (S i) V s.
Proof.
  intros [C1 C2 C3 C4 C5 C6 C7 C8 C9] Hi Hb. split; try done.
  - intros j g Hj. destruct (C3 j g Hj) as (g' & G1 & G2 & G3). exists g'. split_and!; [done|done|]. intros Hle. apply G3. lia.
  - intros j g Hj Hor. apply (C5 j); [done|]. destruct Hor as [?|Hor]; [by left|]. destruct (decide (j = i)) as [->|]; [left|right; lia].
    destruct (C3 i f Hi) as (g' & G1 & _ & G3). destruct Hj as [Hj Hu]. assert (g = f) as -> by (rewrite <- (G3 ltac:(lia)); congruence).
    rewrite Hu in Hb. exact Hb.
  - rewrite (drop_S _ f) in C9 by done. cbn [chain_needs] in C9. assert (chain_need f = 0) as E by (unfold chain_need; by rewrite Hb). lia.
Qed.

Lemma committing_step V0 s0 i V s f V' s' : ready V0 s0 -> committing V0 s0 i V s -> in_use V0 i f -> f_dirty f = true -> safe d V s s' -> chained V s i f V' s' -> committing V0 s0 (S i) V' s'.
Proof.
  intros [R1 R2 R3] C Hi Hdf Hs (gm & h & g & EV & Hgl & Hrc & Hf & Hod & Hown & Hct & Hcg & Hus & Hfree). pose proof C as [C1 (gm0 & h0 & F & E0 & Hl0 & HF) C3 C4 C5 C6 C7 C8 C9].
  destruct (C3 i f (proj1 Hi)) as (f1 & Hf1 & _ & Ef). rewrite (Ef ltac:(lia)) in Hf1. clear f1 Ef. assert (i < length (v_files V))%nat as Hlt by by eapply lookup_lt_Some.
  assert (v_files V' = <[i := g]> (v_files V)) as EF by by rewrite EV. assert (v_pool V' = v_pool V) as EP by by rewrite EV.
  assert (forall k, fext V' k = fext V k) as Ex by (intros k; unfold fext; by rewrite EP).
  assert (v_total V = v_total V0) as Et by by rewrite E0.
  split.
  - done.
  - exists gm, h, (<[i := g]> F). rewrite EV, E0. split_and!; [done| |by rewrite length_insert]. apply (gm_like_trans _ gm0); [done|]. by rewrite E0 in Hgl.
  - intros j k Hj. rewrite EF. destruct (decide (j = i)) as [->|Hne].
    + assert (k = f) as -> by (destruct Hi; congruence). exists g. rewrite list_lookup_insert_eq by done. split_and!; [done|done|lia].
    + rewrite list_lookup_insert_ne by done. destruct (C3 j k Hj) as (k' & K1 & K2 & K3). exists k'. split_and!; [done|done|]. intros. apply K3. lia.
  - intros j k k' Hj Hk'. rewrite EF in Hk'. destruct (decide (j = i)) as [->|Hne].
    + rewrite list_lookup_insert_eq in Hk' by done. injection Hk' as <-. assert (k = f) as -> by (destruct Hi, Hj; congruence). rewrite Hcg. by apply (C4 i f f).
    + rewrite list_lookup_insert_ne in Hk' by done. rewrite (Hct j k'); [by apply (C4 j)| |done]. split; [done|].
      destruct (C3 j k (proj1 Hj)) as (k2 & K1 & K2 & _). assert (k2 = k') as -> by congruence. rewrite K2. apply Hj.
  - intros j k [Hj Hu] Hor. rewrite EF in Hj. destruct (decide (j = i)) as [->|Hne].
    + rewrite list_lookup_insert_eq in Hj by done. by injection Hj as <-.
    + rewrite list_lookup_insert_ne in Hj by done. apply (on_disk_same V s); [apply Ex| |apply (C5 j); [done|]; destruct Hor; [by left|right; lia]].
      intros b Hb. apply (owned_safe V s s' b C1 Hs). left. exists j, k. split; [done|]. apply elem_of_app. by right.
  - intros b Hb. by apply Hown, C6.
  - intros b Hb Hu. rewrite EV. apply Hus; [by rewrite Et|by apply C7].
  - apply (safe_trans V0 s0 V s); [apply R1|by rewrite E0|done|done|done].
  - rewrite (drop_S _ f) in C9 by apply Hi. cbn [chain_needs] in C9. rewrite EV. change (v_gm (put_file (with_map V gm h) i g)) with gm. lia.
Qed.

Lemma commit_chains_frozen k : forall i V s, on_device d V -> bd_ok s -> bd_dead s = true -> let '(_, V', s') := commit_chains k i V s in on_device d V' /\ frozen d s s'.
Proof.
  induction k as [|k IH]; intros i V s Hd Hs Hx; cbn [commit_chains]; [done|]. pose proof (commit_chain_frozen V i s Hd Hs Hx) as H.
  destruct (commit_chain V i s) as [[rc V1] s1]. destruct H as [Hd1 Hf1]. destruct (negb _); [done|]. pose proof Hf1 as (Hs1 & Hx1 & _).
  pose proof (IH (S i) V1 s1 Hd1 Hs1 Hx1) as H. destruct (commit_chains k (S i) V1 s1) as [[rc2 V2] s2]. destruct H. split; [done|]. by apply (frozen_trans d s s1).
Qed.

Lemma commit_chains_spec V0 s0 : ready V0 s0 -> forall k i V s, committing V0 s0 i V s -> (i + k = length (v_files V0))%nat -> bd_ok s -> bd_dead s = false ->
  let '(rc, V', s') := commit_chains k i V s in
  bd_ok s' /\ on_device d V' /\ safe d V0 s0 s' /\ (bd_dead s' = false -> rc = EXFS_OK /\ committing V0 s0 (i + k) V' s').
Proof.
  intros R. induction k as [|k IH]; intros i V s C Hk Hs Hx; cbn [commit_chains].
  { rewrite Nat.add_0_r. split_and!; [done| |apply C|done]. pose proof (fo_alloc _ _ _ (cm_fs _ _ _ _ _ C)) as A. split; [apply A|]. apply (gg_dev _ _ (go_geo _ _ _ (ao_gm _ _ _ A))). }
  pose proof C as [C1 (gm0 & h0 & F & E0 & Hl0 & HF) C3 C4 C5 C6 C7 C8 C9]. rewrite <- Nat.add_succ_comm.
  destruct (lookup_lt_is_Some_2 (v_files V0) i ltac:(lia)) as [f Hf]. destruct (C3 i f Hf) as (f1 & Hf1 & _ & Ef). rewrite (Ef ltac:(lia)) in Hf1. clear f1 Ef.
  destruct (f_used f && f_dirty f) eqn:Hb.
  - apply andb_true_iff in Hb as [Hu Hdf]. assert (in_use V i f) as Hi by done.
    assert (chain_need f <= gmap_free_total (v_gm V)) as Hroom.
    { rewrite (drop_S _ f) in C9 by done. cbn [chain_needs] in C9. assert (forall l, 0 <= chain_needs l) as Hp; [|specialize (Hp (drop (S i) (v_files V0))); lia].
      induction l as [|g l IHl]; cbn [chain_needs]; [done|]. assert (0 <= chain_need g); [|lia]. unfold chain_need. destruct (_ && _) eqn:E; [|done].
      apply andb_true_iff in E as [_ E%Z.ltb_lt]. unfold nind_of. change EXFS_INL with 8. change EXFS_IND_EXT with 254. apply Z.div_pos; lia. }
    pose proof (rd_chain _ _ R i f ltac:(done)) as Hn0. rewrite Hdf in Hn0.
    pose proof (commit_chain_spec V s i f C1 ltac:(rewrite E0; apply R) Hs Hx Hi Hdf Hn0 Hroom) as H. destruct (commit_chain V i s) as [[rc V1] s1].
    destruct H as (Hs1 & Hd1 & Hsafe1 & Hlive). assert (safe d V0 s0 s1) as Hsafe by (apply (safe_trans V0 s0 V s); [apply R|by rewrite E0|done|done|done]).
    destruct (bd_dead s1) eqn:Ex.
    { destruct (negb _); [split_and!; [done|done|done|congruence]|]. pose proof (commit_chains_frozen k (S i) V1 s1 Hd1 Hs1 Ex) as H.
      destruct (commit_chains k (S i) V1 s1) as [[rc2 V2] s2]. destruct H as [? (F1 & F2 & F3)]. split_and!; [done|done|by apply (safe_same d V0 s0 s1)|congruence]. }
    destruct (Hlive eq_refl) as (-> & Hch). rewrite Z.eqb_refl. cbn [negb]. apply IH; [|lia|done|done]. by apply (committing_step V0 s0 i V s f).
  - unfold commit_chain. rewrite (file_lookup V i f Hf1). rewrite <- negb_andb, Hb. cbn [negb Z.eqb]. apply IH; [|lia|done|done]. by apply (committing_skip V0 s0 i V s f).
Qed.
End Commit.
