(* ===== verification/ExfsSuper.v ===== *)
(** The second half of a commit: deferred blocks released, the bitmaps flushed,
    the inode table written, and the superblock that makes it all current. *)

From S2P Require Import Prelude.
From S2P Require Import Bytes.
From S2P Require Import Blk.
From S2P Require Import ExfsDefs.
From S2P Require Import Gmap.
From S2P Require Import GmapOk.
From S2P Require Import Sb.
From S2P Require Import Exfs.
From S2P Require Import ExfsNames.
From S2P Require Import ExfsPool.
From S2P Require Import ExfsData.
From S2P Require Import ExfsFiles.
From S2P Require Import ExfsWrite.
From S2P Require Import ExfsWriteAt.
From S2P Require Import ExfsTree.
From S2P Require Import ExfsImage.
From S2P Require Import ExfsMount.
From S2P Require Import ExfsCommit.

(** The checksum does its work: a write of one block during which the device
    stops leaves the old bytes, the new ones, or bytes that do not decode as a
    superblock. *)
Class TornDetected {D : Type} (d : BlkDev D) `{!BlockDevice d} := torn_detected s lba n buf b :
  bd_ok s -> 0 <= lba -> 0 < n -> lba + n <= sector_count d -> n * sector_size d = 4096 -> length buf = 4096%nat -> bytes_ok buf ->
  lba * sector_size d = b * 4096 ->
  let s' := match driver op_write (Some d) with Some write => (write s lba n buf).2 | None => s end in
  block d s' b = block d s b \/ block d s' b = buf \/ forall f, (sb_decode (block d s' b) f).1 <> SB_OK.

#[export] Instance rd_torn ss cnt `{G : !RamGeometry ss cnt} : TornDetected (rd_dev ss cnt).
Proof.
  intros s lba n buf b Hs Hl Hn Hr H4 Hlen Hb Hlb s'. right. left. pose proof (bd_write s lba n buf Hs Hl Hn Hr ltac:(lia) Hb) as H.
  unfold s'. cbn [driver ops rd_dev rd_ops op_write] in *. destruct (rd_write s lba n buf) as [rc s1] eqn:E. destruct H as (_ & _ & H).
  assert (rc = BLK_OK) as -> by (unfold rd_write in E; congruence). apply block_eq; [done|]. intros o Ho. rewrite <- (H eq_refl) by lia. cbn [snd]. f_equal. lia.
Qed.

Section Super.
Context {D : Type} (d : BlkDev D) `{!BlockDevice d} `{!FailStop d}.
Implicit Types (V W : Vol D) (s : D) (f : ExfsFile) (T : Tree).

(** * Step 2: the deferred blocks *)

Lemma apply_loop_frozen l : forall V s, on_device d V -> bd_ok s -> bd_dead s = true ->
  let '(_, V', s') := apply_deferred_loop l V s in on_device d V' /\ frozen d s s'.
Proof.
  induction l as [|e l IH]; intros V s Hd Hs Hx; cbn [apply_deferred_loop]; [done|].
  pose proof (gmap_release_frozen d (v_gm V) (x_start e) (x_len e) s (proj2 Hd) Hs Hx) as H.
  destruct (gmap_release _ _ _ s) as [[rc gm] s1]. destruct H as [(Hg & _) Hf]. pose proof Hf as (Hs1 & Hx1 & _).
  assert (on_device d (set_gm V gm)) as Hd1 by (split; [apply Hd|]; cbn; rewrite Hg; apply Hd). destruct (negb _); [done|].
  pose proof (IH (set_gm V gm) s1 Hd1 Hs1 Hx1) as H. destruct (apply_deferred_loop l _ s1) as [[rc2 V2] s2]. destruct H. split; [done|]. by apply (frozen_trans d s s1).
Qed.

(** The map once the blocks of [l] are free again. *)
Definition freed (m : GMap D) s (l : list ExfsExtent) (m' : GMap D) s' : Prop :=
  gm_like m m' /\ gm_ok d m' s' /\ forall b, 0 <= b < m_total m -> used d m' s' b = negb (bool_decide (b ∈ ext_blocks l)) && used d m s b.

Lemma apply_loop_spec l : forall V s, v_dev V = Some d -> gm_ok d (v_gm V) s -> Forall ext_ok l -> NoDup (ext_blocks l) ->
  (forall b, b ∈ ext_blocks l -> data_block (v_gm V) b /\ used d (v_gm V) s b = true) -> bd_ok s -> bd_dead s = false ->
  let '(rc, V', s') := apply_deferred_loop l V s in
  bd_ok s' /\ on_device d V' /\ gm_frame d (v_gm V) s s' /\
  (bd_dead s' = false -> rc = EXFS_OK /\ exists gm, V' = set_defer (set_gm V gm) [] /\ freed (v_gm V) s l gm s').
Proof.
  induction l as [|e l IH]; intros V s Hd Hm Hx Hnd Hb Hs Ha; cbn [apply_deferred_loop].
  { split_and!; [done|split; [done|apply Hm]|done|]. intros _. split; [done|]. exists (v_gm V). split; [by destruct V|]. split_and!; [apply gm_like_refl|done|].
    intros b _. by rewrite bool_decide_eq_false_2 by apply not_elem_of_nil. }
  apply Forall_cons in Hx as [[He1 He2] Hx]. rewrite ext_blocks_cons in *. apply NoDup_app in Hnd as (_ & N2 & N3).
  assert (forall b, x_start e <= b < x_start e + x_len e -> data_block (v_gm V) b /\ used d (v_gm V) s b = true) as Hrun.
  { intros b Hr. apply Hb, elem_of_app. left. apply elem_of_seqZ. lia. }
  pose proof (data_block_ge d _ _ (go_geo _ _ _ Hm) (proj1 (Hrun (x_start e) ltac:(lia)))) as Hr1.
  pose proof (data_block_ge d _ _ (go_geo _ _ _ Hm) (proj1 (Hrun (x_start e + x_len e - 1) ltac:(lia)))) as Hr2.
  pose proof (gmap_release_spec d (v_gm V) (x_start e) (x_len e) s Hm Hs Ha ltac:(lia) ltac:(lia) ltac:(lia) Hrun) as H.
  destruct (gmap_release _ _ _ s) as [[rc gm] s1]. destruct H as (Hs1 & Hl1 & Hfr1 & Hlive).
  assert (on_device d (set_gm V gm)) as Hd1 by (split; [done|]; destruct Hl1 as (E & _); cbn; rewrite E; apply Hm).
  destruct (bd_dead s1) eqn:Ex.
  { destruct (negb _); [split_and!; [done|done|done|congruence]|]. pose proof (apply_loop_frozen l (set_gm V gm) s1 Hd1 Hs1 Ex) as H.
    destruct (apply_deferred_loop l _ s1) as [[rc2 V2] s2]. destruct H as [? (F1 & F2 & F3)]. split_and!; [done|done| |congruence].
    apply (frame_trans d (v_gm V) gm s s1); [done|done|]. by apply frame_same. }
  destruct (Hlive eq_refl) as (-> & Hm1 & Hu1). rewrite Z.eqb_refl. cbn [negb].
  specialize (IH (set_gm V gm) s1 Hd Hm1 Hx N3). destruct (apply_deferred_loop l _ s1) as [[rc2 V2] s2]. destruct IH as (I1 & I2 & I3 & I4); [|done|done|].
  { intros b Hin. destruct (Hb b ltac:(apply elem_of_app; by right)) as [B1 B2]. split; [by apply (data_like (v_gm V))|]. cbn. rewrite Hu1 by apply B1.
    assert (~ (x_start e <= b < x_start e + x_len e)) as Hn by (intros Hr; apply (N2 b); [apply elem_of_seqZ; lia|done]).
    destruct (_ && _) eqn:E; [|done]. apply andb_true_iff in E as [E1%Z.leb_le E2%Z.ltb_lt]. lia. }
  split_and!; [done|done|by apply (frame_trans d (v_gm V) gm s s1)|]. intros E2. destruct (I4 E2) as (-> & gm2 & -> & G1 & G2 & G3). split; [done|]. exists gm2.
  split; [done|]. split_and!; [by apply (gm_like_trans _ gm)|done|]. intros b Hbr. rewrite G3 by (cbn; destruct Hl1 as (_ & _ & -> & _); lia). cbn [set_gm v_gm].
  rewrite Hu1 by lia. rewrite ext_blocks_cons, bool_decide_app, bool_decide_run. destruct (bool_decide (b ∈ ext_blocks l)); [by rewrite orb_true_r|]. rewrite orb_false_r.
  by destruct ((x_start e <=? b) && (b <? x_start e + x_len e)).
Qed.

(** * Step 4: the inode table *)

Lemma put_blocks_frozen V k b img s : v_dev V = Some d -> bd_ok s -> bd_dead s = true -> let '(_, s') := put_blocks k b img V s in frozen d s s'.
Proof.
  intros Hd Hs Hx. destruct k as [|k]; cbn [put_blocks]; [done|].
  destruct (blk_put_frozen d V b (take (Z.to_nat EXFS_BLOCK) img) s Hd Hs Hx) as (rc & s1 & -> & Hrc & Hf). by rewrite (proj2 (Z.eqb_neq rc EXFS_OK)).
Qed.

Lemma put_blocks_spec V : v_dev V = Some d -> spb_of d (v_spb V) -> forall k b img s, (forall c, b <= c < b + Z.of_nat k -> on_dev d c) ->
  length img = (k * 4096)%nat -> bytes_ok img -> bd_ok s -> bd_dead s = false ->
  let '(rc, s') := put_blocks k b img V s in
  bd_ok s' /\ (forall c, 0 <= c -> ~ (b <= c < b + Z.of_nat k) -> block d s' c = block d s c) /\
  (bd_dead s' = false -> rc = EXFS_OK /\ fbytes d s' (seqZ b (Z.of_nat k)) = img).
Proof.
  intros Hd Hp. induction k as [|k IH]; intros b img s Hon Hl Hb Hs Hx; cbn [put_blocks].
  { split_and!; [done|done|]. intros _. split; [done|]. by destruct img. }
  destruct (blk_put_live d V b (take (Z.to_nat EXFS_BLOCK) img) s Hd Hp (Hon b ltac:(lia))) as (rc & s1 & -> & Hs1 & Hfr & Hlv & Hw); try done.
  { rewrite length_take. change (Z.to_nat EXFS_BLOCK) with 4096%nat. lia. }
  { by apply Forall_take. }
  destruct (bd_dead s1) eqn:Ex.
  { destruct (negb _); [split_and!; [done|intros c Hc Hn; apply Hfr; lia|congruence]|].
    pose proof (put_blocks_frozen V k (b + 1) (drop (Z.to_nat EXFS_BLOCK) img) s1 Hd Hs1 Ex) as H. destruct (put_blocks k _ _ V s1) as [rc2 s2].
    destruct H as (F1 & F2 & F3). split_and!; [done|intros c Hc Hn; rewrite F3 by done; apply Hfr; lia|congruence]. }
  rewrite (Hlv eq_refl), Z.eqb_refl. cbn [negb]. specialize (IH (b + 1) (drop (Z.to_nat EXFS_BLOCK) img) s1 ltac:(intros; apply Hon; lia)).
  destruct (put_blocks k _ _ V s1) as [rc2 s2]. destruct IH as (I1 & I2 & I3); [|by apply Forall_drop|done|done|].
  { rewrite length_drop. change (Z.to_nat EXFS_BLOCK) with 4096%nat. lia. }
  split_and!; [done|intros c Hc Hn; rewrite I2 by lia; apply Hfr; lia|]. intros E. destruct (I3 E) as [-> I4]. split; [done|].
  rewrite (seqZ_cons b) by lia. unfold fbytes. cbn [fmap list_fmap concat]. replace (Z.pred (Z.of_nat (S k))) with (Z.of_nat k) by lia.
  replace (Z.succ b) with (b + 1) by lia. fold (fbytes d s2 (seqZ (b + 1) (Z.of_nat k))). rewrite I4. destruct (Hon b ltac:(lia)) as [Hb0 _]. rewrite I2 by lia.
  rewrite (Hw (Hlv eq_refl)). apply take_drop.
Qed.

(** The record of each file is in the table. *)
Lemma itab_image_spec V : length (v_files V) = 128%nat -> length (itab_image V) = (8 * 4096)%nat /\ bytes_ok (itab_image V) /\
  forall i f, v_files V !! i = Some f -> take 256 (drop (i * 256) (itab_image V)) = inode_encode V f.
Proof.
  intros Hl. unfold itab_image. assert (forall l, length (concat (inode_encode V <$> l)) = (256 * length l)%nat /\ bytes_ok (concat (inode_encode V <$> l)) /\
    forall i f, l !! i = Some f -> take 256 (drop (i * 256) (concat (inode_encode V <$> l))) = inode_encode V f) as H.
  { induction l as [|f l (I1 & I2 & I3)]; cbn [fmap list_fmap concat length]; [split_and!; [done|constructor|done]|].
    destruct (inode_encode_spec V f) as (L & B & _). fold (inode_encode V <$> l). split_and!.
    - rewrite length_app. lia.
    - by apply Forall_app.
    - intros [|i] g Hi.
      + injection Hi as ->. rewrite drop_0, <- L. apply take_app_length.
      + rewrite drop_app_ge by lia. rewrite L. replace (S i * 256 - 256)%nat with (i * 256)%nat by lia. by apply I3. }
  destruct (H (v_files V)) as (H1 & H2 & H3). split_and!; [lia|done|done].
Qed.

(** * Step 5: the superblock *)

(** The fields of the superblock pass the check and have their C types. *)
Lemma sb_fields_ok V s gen : fs_ok d V s -> 0 <= gen < 2 ^ 64 -> sb_typed (sb_fields V gen) /\ fields_ok (sb_fields V gen) = true.
Proof.
  intros Hf Hgen. pose proof (ao_gm _ _ _ (fo_alloc _ _ _ Hf)) as Hm. pose proof (go_geo _ _ _ Hm) as G. pose proof (gg_total _ _ G) as Ht. rewrite (ao_total _ _ _ (fo_alloc _ _ _ Hf)) in Ht.
  destruct (gg_ng _ _ G) as [Hng _]. destruct (sb_fields_tables d V gen G) as (E1 & E2 & E3 & E4 & (E5 & E6) & E7 & E8 & E9 & E10). set (x := sb_fields V gen) in *.
  assert (forall g, 0 <= g -> 0 <= nthZ (sb_slot x) g <= 1) as Hsl.
  { intros g Hg. rewrite E7 by done. destruct (Z.ltb_spec g (m_ngroups (v_gm V))); [|lia]. by destruct (cur_slot_01 d (v_gm V) g G ltac:(split; lia)). }
  assert (forall g, m_ngroups (v_gm V) <= g -> nthZ (sb_slot x) g = 0 /\ nthZ (sb_free x) g = 0) as Hz.
  { intros g Hg. rewrite E7, E8 by lia. by rewrite (proj2 (Z.ltb_ge g _)). }
  assert (0 <= itab_area gen < 2 ^ 64) as Hia by (destruct (itab_area_cases gen); lia).
  split.
  - split; rewrite ?E1, ?E2, ?E3, ?E4, ?E9, ?E10; try (done || lia).
    + intros g Hg. specialize (Hsl g ltac:(lia)). lia.
    + intros g Hg. rewrite E8 by lia. destruct (Z.ltb_spec g (m_ngroups (v_gm V))); [|lia]. rewrite (go_free _ _ _ Hm) by (split; lia).
      pose proof (valid_bits_range d _ g G ltac:(split; lia)). pose proof (gg_gb _ _ G).
      pose proof (countb_seqZ_le (fun i => negb (bit_of (cur d (v_gm V) s g) i)) 0 (valid_bits (v_gm V) g) ltac:(lia)). lia.
  - unfold fields_ok. rewrite E1, E2, E3, E4, E9, E10. change SB_MAX_GROUPS with 512. change (EXFS_DATA_START + 16) with 34. change EXFS_MAX_BLOCKS with 16777216.
    change EXFS_ITAB_AREA0 with 2. change EXFS_ITAB_AREA1 with 10. change EXFS_ITAB_BLOCKS with 8. change EXFS_INODES with 128.
    rewrite (proj2 (Z.eqb_neq _ 0)), (proj2 (Z.ltb_ge 512 _)), (proj2 (Z.ltb_ge _ 34)), (proj2 (Z.ltb_ge 16777216 _)) by lia. cbn [orb Z.eqb negb].
    unfold itab_area. change EXFS_ITAB_AREA0 with 2. change EXFS_ITAB_AREA1 with 10. rewrite Z.eqb_refl. cbn [negb].
    assert (negb ((if tst (gen .& 1) then 10 else 2) =? 2) && negb ((if tst (gen .& 1) then 10 else 2) =? 10) = false) as -> by by destruct (tst _).
    apply andb_true_iff. split; apply forallb_forall; intros g Hg%list_elem_of_In%elem_of_seqZ.
    + specialize (Hsl g ltac:(lia)). by rewrite (proj2 (Z.ltb_ge 1 _)) by lia.
    + destruct (Hz g ltac:(lia)) as [-> ->]. done.
Qed.

(** * Step 6: the volume after the commit *)

Definition commit_vol V (gen : Z) : Vol D :=
  set_dirty (set_files (set_gen (set_gm V (gmap_commit (v_gm V))) gen (itab_area gen)) (clean_file <$> v_files V)) false.

Section Committed.
Context V (gen : Z).
Abbreviation M := (commit_vol V gen).

Lemma cv_file i f : in_use M i f <-> exists g, in_use V i g /\ f = clean_file g.
Proof.
  unfold in_use. cbn. rewrite list_lookup_fmap_Some. split.
  - intros [(g & -> & Hg) Hu]. by exists g.
  - intros (g & [Hg Hu] & ->). split; [by exists g|done].
Qed.

Lemma cv_owned b : owned M b <-> owned V b.
Proof.
  split; (intros [(i & f & Hi & Hb)|Hb]; [left|by right]).
  - apply cv_file in Hi as (g & Hg & ->). by exists i, g.
  - exists i, (clean_file f). split; [|done]. apply cv_file. by exists f.
Qed.

Lemma cv_same : same_names V M.
Proof. unfold same_names. cbn. rewrite <- list_fmap_compose. by apply list_fmap_ext. Qed.

Lemma cv_pool : pool_ok V -> pool_ok M.
Proof.
  intros [P1 P2 P3 P4 P5]. assert (forall i f, v_files M !! i = Some f -> exists g, v_files V !! i = Some g /\ f = clean_file g) as Hb.
  { intros i f (g & -> & Hg)%list_lookup_fmap_Some. by exists g. }
  split.
  - done.
  - cbn. by rewrite length_fmap.
  - intros i f Hi Hu. destruct (Hb i f Hi) as (g & Hg & ->). by apply (P3 i g).
  - intros i f k Hi Hu Hk. destruct (Hb i f Hi) as (g & Hg & ->). by apply (P4 i g).
  - intros i j f f' k Hi Hj Hu Hu' Hk Hk'. destruct (Hb i f Hi) as (g & Hg & ->), (Hb j f' Hj) as (g' & Hg' & ->). by apply (P5 i j g g' k).
Qed.

(** Writes below the data area do not touch the volume. *)
Lemma cv_fs s s' : fs_ok d V s -> all_clean (v_gm V) -> (forall b, 18 <= b -> block d s' b = block d s b) ->
  fs_ok d M s' /\ (all_clean (v_gm M) /\ forall g, group (v_gm M) g -> nthZ (m_written (v_gm M)) g = 0) /\
  (forall i g, in_use V i g -> content d M s' (clean_file g) = content d V s g).
Proof.
  intros Hf Hc Hb. pose proof Hf as [[A1 A2 A3 A4 A5] A6 A7 A8 A9 A10 A11 A12]. pose proof (go_geo _ _ _ A3) as G.
  assert (gm_ok d (v_gm V) s' /\ forall g, group (v_gm V) g -> cur d (v_gm V) s' g = cur d (v_gm V) s g) as [G1 G2].
  { apply gm_ok_slots; [done|]. intros g sl Hg Hsl. apply Hb. rewrite (slot_block_eq d (v_gm V) g sl G Hg). pose proof (gg_gb _ _ G). destruct Hg. destruct (Z.eqb_spec g 0); [lia|nia]. }
  destruct (gmap_commit_ok d (v_gm V) s' G1 Hc) as (C1 & C2 & C3 & _ & C4 & C5 & C6 & C7 & C8).
  assert (forall i g, in_use V i g -> file_ok d M s' (clean_file g) /\ content d M s' (clean_file g) = content d V s g) as Hk.
  { intros i g Hi. destruct (file_ok_same d V M s s' g (clean_file g) (A8 i g Hi)) as (K1 & _ & K3); try done.
    intros b Hin. apply Hb. destruct (owned_block d V s b Hf (data_owned V i g b Hi Hin)) as (_ & ? & _). lia. }
  split_and!; [split| | |].
  - split; try done. cbn. congruence.
  - by apply cv_pool.
  - intros i f (g & -> & Hg)%list_lookup_fmap_Some. by apply (A7 i g).
  - intros i f (g & Hg & ->)%cv_file. by apply (Hk i).
  - intros i j f f' b (g & Hg & ->)%cv_file (g' & Hg' & ->)%cv_file. by apply (A9 i j g g').
  - done.
  - intros i f b (g & Hg & ->)%cv_file. by apply (A11 i g).
  - intros b Ho%cv_owned. destruct (A12 b Ho) as [D1 D2]. split.
    + unfold data_block in *. cbn. by rewrite C6, C7.
    + rewrite <- D2. cbn [v_gm commit_vol set_dirty set_files set_gen set_gm]. apply used_like; [done|done| |apply D1]. intros g Hg. rewrite <- G2 by done. by apply C3.
  - done.
  - intros g Hg. apply C3. unfold group in *. cbn in Hg. by rewrite C8 in Hg.
  - intros i g Hi. by apply (Hk i).
Qed.
End Committed.

(** Everything of generation [gen] is on the disk but its superblock. *)
Record prepared V s (gen : Z) : Prop := {
  pp_ns : ns_ok V;
  pp_fs : fs_ok d V s;
  pp_size : v_total V = sector_count d * sector_size d / 4096 /\ m_gb (v_gm V) = 32768;
  pp_gen : 0 <= gen < 2 ^ 64;
  pp_map : all_clean (v_gm V);
  pp_defer : v_defer V = [];
  pp_files : forall i f, in_use V i f -> bytes_ok (cname f) /\ on_disk d V s f /\ fits (f_n f) (f_ext_cap f);
  pp_other : older d s (1 - (gen .& 1)) gen;
  pp_itab : forall i f, v_files V !! i = Some f -> itab_record d s gen i = inode_encode V f
}.

Lemma prepared_saved V s gen s' : prepared V s gen -> (forall b, 0 <= b -> b <> gen .& 1 -> block d s' b = block d s b) -> super_at d s' (gen .& 1) (sb_fields V gen) ->
  saved d (commit_vol V gen) s' /\ forall T, tree_of d V s T -> tree_of d (commit_vol V gen) s' T.
Proof.
  intros [P1 P2 P3 P4 P5 P6 P7 P8 P9] Hb Hsup. pose proof (land_1 gen) as L.
  assert (forall b, 18 <= b -> block d s' b = block d s b) as Hb18 by (intros b ?; apply Hb; lia).
  destruct (cv_fs V gen s s' P2 P5 Hb18) as (F1 & [F2 F3] & F4). pose proof (ao_gm _ _ _ (fo_alloc _ _ _ P2)) as Hm. pose proof (go_geo _ _ _ Hm) as G.
  destruct (gmap_commit_fields d (v_gm V) G) as (_ & _ & _ & C4 & C5 & C6 & _ & _ & _ & C10 & C11).
  split; [split|].
  - apply (same_ns_ok V); [apply cv_same|done].
  - done.
  - cbn. by rewrite C4.
  - done.
  - done.
  - done.
  - intros i f (g & Hg & ->)%cv_file. split; [done|]. by apply (P7 i g).
  - change (v_gen (commit_vol V gen)) with gen. rewrite (sb_fields_eq d V); [exact Hsup|done|apply F1|done|done|].
    intros g Hg. cbn [v_gm commit_vol set_dirty set_files set_gen set_gm]. rewrite C6. destruct Hg. split; [|done].
    rewrite cur_slot_committed by (rewrite C11, (proj2 (Z.ltb_lt _ _)) by lia; done). by rewrite C10, (proj2 (Z.ltb_lt _ _)) by lia.
  - apply (older_same d s); [apply Hb; cbn; lia|done].
  - intros i f (g & -> & Hg)%list_lookup_fmap_Some. change (v_gen (commit_vol V gen)) with gen.
    assert (itab_record d s' gen i = inode_encode V g) as ->.
    { rewrite <- (P9 i g Hg). unfold itab_record. rewrite (fbytes_same d s s'); [done|]. intros b Hin%elem_of_seqZ. apply Hb; destruct (itab_area_cases gen); lia. }
    change (fext (commit_vol V gen) (clean_file g)) with (fext V g). apply (inode_on_same d s); [|].
    + intros Hu b Hin. apply Hb18. destruct (owned_block d V s b P2) as (_ & ? & _); [|lia]. left. exists i, g. split; [done|]. apply elem_of_app. by right.
    + destruct (f_used g) eqn:Hu.
      2: { unfold inode_on. change (f_used (clean_file g)) with (f_used g). rewrite Hu. destruct (inode_encode_spec V g) as (_ & _ & -> & _). by rewrite Hu. }
      destruct (P7 i g ltac:(done)) as (N1 & N2 & _). destruct (fo_file _ _ _ P2 i g ltac:(done)) as [K1 K2 [K3 K3'] [K4 K4'] _ _].
      change (inode_on d s (inode_encode V g) g (fext V g)).
      destruct (name_ok_facts _ (ns_name _ P1 i g Hg Hu)) as (_ & ? & _).
      apply inode_encode_on; try done; [by apply (ns_buf _ P1 i)|lia| | |by apply (fext_typed d V s i)|].
      * destruct (ns_type _ P1 i g Hg Hu) as [-> | ->]; done.
      * pose proof (ext_blocks_bound _ K2) as Hxb. rewrite length_fext in Hxb by lia. unfold data_blocks in *. lia.
      * destruct (chain_blocks g) as [|c C] eqn:Ec; cbn [chain_head]; [lia|]. destruct (owned_block d V s c P2) as ([? _] & _ & _).
        { left. exists i, g. split; [done|]. apply elem_of_app. right. rewrite Ec. by left. }
        lia.
  - intros T [T1 T2]. split.
    + intros n c. rewrite T1. split.
      * intros (i & f & Hi & E1 & E2 & E3). exists i, (clean_file f). split_and!; [apply cv_file; by exists f|done|done|]. by rewrite (F4 i f).
      * intros (i & f & (g & Hg & ->)%cv_file & E1 & E2 & E3). exists i, g. split_and!; try done. by rewrite <- (F4 i g).
    + intros n. rewrite T2. symmetry. apply (same_node V), cv_same.
Qed.

(** ** Writing the superblock *)

Definition unreadable s (b : Z) : Prop := forall x, ~ super_at d s b x.

Lemma blk_put_torn `{!TornDetected d} V b page s : v_dev V = Some d -> spb_of d (v_spb V) -> on_dev d b -> length page = 4096%nat -> bytes_ok page -> bd_ok s ->
  let '(_, s') := blk_put V b page s in block d s' b = block d s b \/ block d s' b = page \/ unreadable s' b.
Proof.
  intros Hd [Hp1 Hp2] [Hb1 Hb2] Hl Hbo Hs. pose proof bd_geometry as (G1 & G2 & G3). unfold blk_put, blk_write. rewrite Hd.
  assert (v_spb V <= 4096) as Hle by nia. rewrite u64_small by nia. destruct (negb _) eqn:Ec; [by left|]. apply negb_false_iff, Z.eqb_eq in Ec.
  pose proof (torn_detected s (b * v_spb V) (v_spb V) page b Hs ltac:(nia) ltac:(lia) ltac:(nia) ltac:(lia) Hl Hbo ltac:(nia)) as H. cbv zeta in H.
  destruct (driver op_write (Some d)) as [write|]; [|by left]. destruct (write _ _ _ _) as [rc s']. cbn [snd] in H.
  destruct H as [H|[H|H]]; [by left|by right; left|right; right]. intros x Hx. apply (H zero_sb). unfold super_at in Hx. by rewrite Hx.
Qed.

Lemma commit_super_frozen V gen s : on_device d V -> bd_ok s -> bd_dead s = true -> let '(_, _, s') := commit_super V gen s in frozen d s s'.
Proof.
  intros Hd Hs Hx. unfold commit_super. destruct (sb_encode _ _) as [rc page]. destruct (negb _); [done|].
  destruct (blk_put_frozen d V (gen .& 1) page s (proj1 Hd) Hs Hx) as (rc2 & s1 & -> & Hrc & Hf). by rewrite (proj2 (Z.eqb_neq rc2 EXFS_OK)).
Qed.

(** What has become of generation [gen] on the disk: it is there, or its
    superblock is as before or unreadable. *)
Definition published V s (gen : Z) s' : Prop :=
  block d s' (gen .& 1) = block d s (gen .& 1) \/ unreadable s' (gen .& 1) \/
  exists V', saved d V' s' /\ v_gen V' = gen /\ forall T, tree_of d V s T -> tree_of d V' s' T.

(** The commit has gone through. *)
Definition committed_to V s (gen : Z) V' s' : Prop :=
  saved d V' s' /\ v_gen V' = gen /\ v_dirty V' = false /\ v_mounted V' = v_mounted V /\ v_broken V' = v_broken V /\
  forall T, tree_of d V s T -> tree_of d V' s' T.

Lemma commit_super_spec `{!TornDetected d} V s gen : prepared V s gen -> bd_ok s -> bd_dead s = false ->
  let '(rc, V', s') := commit_super V gen s in
  bd_ok s' /\ (forall b, 0 <= b -> b <> gen .& 1 -> block d s' b = block d s b) /\ published V s gen s' /\
  (bd_dead s' = false -> rc = EXFS_OK /\ committed_to V s gen V' s').
Proof.
  intros P Hs Hx. pose proof (pp_fs _ _ _ P) as Hf. pose proof (fo_alloc _ _ _ Hf) as [A1 A2 A3 A4 A5]. pose proof (gg_total _ _ (go_geo _ _ _ A3)) as Ht.
  pose proof (gg_fit _ _ (go_geo _ _ _ A3)) as Hfit. destruct (sb_fields_ok V s gen Hf (pp_gen _ _ _ P)) as [Hty Hok]. unfold commit_super.
  destruct (sb_encode_encodes (replicate (Z.to_nat EXFS_BLOCK) 0) (sb_fields V gen) Hty Hok (length_replicate _ _) (bytes_ok_zeros _)) as (page & -> & Henc).
  rewrite Z.eqb_refl. cbn [negb]. pose proof (land_1 gen) as L. assert (on_dev d (gen .& 1)) as Hon by (split; lia).
  pose proof (blk_put_torn V (gen .& 1) page s A1 A2 Hon (en_len _ _ Henc) (en_bytes _ _ Henc) Hs) as Htorn.
  destruct (blk_put_live d V (gen .& 1) page s A1 A2 Hon (en_len _ _ Henc) (en_bytes _ _ Henc) Hs Hx) as (rc & s' & E & Hs' & Hfr & Hlv & Hw). rewrite E in *.
  assert (block d s' (gen .& 1) = page -> saved d (commit_vol V gen) s' /\ forall T, tree_of d V s T -> tree_of d (commit_vol V gen) s' T) as Hnew.
  { intros Hp. apply prepared_saved; [done|done|]. unfold super_at. rewrite Hp. by apply decode_encodes. }
  assert (published V s gen s') as Hpub.
  { destruct Htorn as [H|[H|H]]; [by left|right; right|by right; left]. exists (commit_vol V gen). destruct (Hnew H). by split_and!. }
  destruct (Z.eqb_spec rc EXFS_OK) as [->|Hrc]; cbn [negb]; split_and!; try done.
  - intros _. split; [done|]. destruct (Hnew (Hw eq_refl)). by split_and!.
  - intros Ea. by rewrite Hlv in Hrc.
Qed.

(** * Steps 2 to 6 *)

(** The map replaced and blocks given up, on a disk that has the same files. *)
Lemma fs_ok_regm V s gm DL s' : fs_ok d V s -> gm_like (v_gm V) gm -> gm_ok d gm s' -> (DL = v_defer V \/ DL = []) ->
  let V' := set_defer (set_gm V gm) DL in
  (forall b, owned V' b -> used d gm s' b = true) -> (forall b, owned V b -> block d s' b = block d s b) ->
  fs_ok d V' s' /\ (forall i f, in_use V i f -> content d V' s' f = content d V s f).
Proof.
  intros [[A1 A2 A3 A4 A5] F2 F3 F4 F5 F6 F7 F8] Hl Hm HDL V' Hu Hb. pose proof Hl as (L1 & L2 & L3 & L4 & L5 & L6).
  assert (forall b, b ∈ defer_blocks V' -> b ∈ defer_blocks V) as Hdb by (intros b; destruct HDL as [-> | ->]; [done|intros H; by apply elem_of_nil in H]).
  assert (forall b, owned V' b -> owned V b) as Hown by (intros b [?|?]; [by left|right; by apply Hdb]).
  assert (forall i f, in_use V i f -> file_ok d V' s' f /\ content d V' s' f = content d V s f) as Hk.
  { intros i f Hi. destruct (file_ok_same d V V' s s' f f (F4 i f Hi)) as (K1 & _ & K3); try done. intros b Hin. apply Hb. by apply (data_owned V i f). }
  split; [split|by intros i f Hi; apply (Hk i)]; try done.
  - split; try done. cbn. congruence.
  - by destruct F2.
  - intros i f Hi. by apply (Hk i f).
  - cbn. destruct HDL as [-> | ->]; [done|]. split; constructor.
  - intros i f b Hi Hin Hd. by apply (F7 i f b Hi Hin), Hdb.
  - intros b Ho. split; [|by apply Hu]. destruct (F8 b (Hown b Ho)) as [Hd _]. by apply (data_like (v_gm V)).
Qed.

(** A volume with its chains on the disk, ready for generation [gen]. *)
Record lined V s (gen : Z) : Prop := {
  ln_ns : ns_ok V;
  ln_fs : fs_ok d V s;
  ln_size : v_total V = sector_count d * sector_size d / 4096 /\ m_gb (v_gm V) = 32768;
  ln_gen : v_gen V + 1 = gen /\ 0 < gen < 2 ^ 64;
  ln_files : forall i f, in_use V i f -> bytes_ok (cname f) /\ on_disk d V s f /\ fits (f_n f) (f_ext_cap f);
  ln_other : older d s (v_gen V .& 1) gen
}.

Lemma land_1_succ g : 1 - ((g + 1) .& 1) = g .& 1.
Proof.
  assert (forall x, x .& 1 = x mod 2) as E by (intros x; change 1 with (Z.ones 1); rewrite Z.land_ones by lia; done). rewrite !E.
  pose proof (Z.div_mod g 2 ltac:(lia)). pose proof (Z.mod_pos_bound g 2 ltac:(lia)). pose proof (Z.div_mod (g + 1) 2 ltac:(lia)). pose proof (Z.mod_pos_bound (g + 1) 2 ltac:(lia)). lia.
Qed.

(** The blocks the second half of a commit writes. *)
Definition touched V (gen b : Z) : Prop := pending (v_gm V) b \/ b ∈ itab_blocks gen \/ b = gen .& 1.

Lemma touched_not_owned V s gen b : fs_ok d V s -> owned V b -> ~ touched V gen b /\ 18 <= b.
Proof.
  intros Hf Ho. destruct (owned_block d V s b Hf Ho) as (_ & Hr & Hp & _). split; [|lia]. intros [?|[Hi%elem_of_seqZ| ->]]; [done| |].
  - destruct (itab_area_cases gen); lia.
  - destruct (land_1 gen); lia.
Qed.

(** The inode table written and the superblock after it. *)
Definition commit_table V s : Z * Vol D * D :=
  let gen := u64 (v_gen V + 1) in
  let '(rc, s) := put_blocks (Z.to_nat EXFS_ITAB_BLOCKS) (itab_area gen) (itab_image V) V s in
  if negb (rc =? EXFS_OK) then (EXFS_EIO, mark_broken V, s) else commit_super V gen s.

Lemma commit_table_frozen V s : on_device d V -> bd_ok s -> bd_dead s = true -> let '(_, _, s') := commit_table V s in frozen d s s'.
Proof.
  intros Hd Hs Hx. unfold commit_table. set (gen := u64 _). pose proof (put_blocks_frozen V (Z.to_nat EXFS_ITAB_BLOCKS) (itab_area gen) (itab_image V) s (proj1 Hd) Hs Hx) as H.
  destruct (put_blocks _ _ _ V s) as [rc s1]. destruct (negb _); [done|]. pose proof H as (Hs1 & Hx1 & _). pose proof (commit_super_frozen V gen s1 Hd Hs1 Hx1) as H2.
  destruct (commit_super V gen s1) as [[rc2 V2] s2]. by apply (frozen_trans d s s1).
Qed.

Lemma commit_table_spec `{!TornDetected d} V s gen : lined V s gen -> all_clean (v_gm V) -> v_defer V = [] -> bd_ok s -> bd_dead s = false ->
  let '(rc, V', s') := commit_table V s in
  bd_ok s' /\ (forall b, 0 <= b -> b ∉ itab_blocks gen -> b <> gen .& 1 -> block d s' b = block d s b) /\ published V s gen s' /\
  (bd_dead s' = false -> rc = EXFS_OK /\ committed_to V s gen V' s').
Proof.
  intros [L1 L2 L3 [L4 L5] L6 L7] Hc Hd0 Hs Hx. unfold commit_table. rewrite L4, u64_small by lia. pose proof (fo_alloc _ _ _ L2) as [A1 A2 A3 A4 A5].
  pose proof (gg_total _ _ (go_geo _ _ _ A3)) as Ht. pose proof (gg_fit _ _ (go_geo _ _ _ A3)) as Hfit. pose proof (itab_area_cases gen) as Hia.
  destruct (itab_image_spec V (ns_len _ L1)) as (I1 & I2 & I3). change (Z.to_nat EXFS_ITAB_BLOCKS) with 8%nat.
  pose proof (put_blocks_spec V A1 A2 8 (itab_area gen) (itab_image V) s ltac:(intros c Hcc; split; lia) I1 I2 Hs Hx) as H.
  destruct (put_blocks 8 _ _ V s) as [rc s1]. destruct H as (Hs1 & Hfr1 & Hlive1). change (Z.of_nat 8) with 8 in *.
  assert (forall b, 0 <= b -> b ∉ itab_blocks gen -> block d s1 b = block d s b) as Hfr by (intros b Hb Hn; apply Hfr1; [done|]; intros Hr; apply Hn, elem_of_seqZ; lia).
  assert (gen .& 1 ∉ itab_blocks gen) as Hsb by (intros Hin%elem_of_seqZ; destruct (land_1 gen); lia).
  assert (block d s1 (gen .& 1) = block d s (gen .& 1)) as Hsup by (apply Hfr; [destruct (land_1 gen); lia|done]).
  destruct (bd_dead s1) eqn:Ex.
  { destruct (negb _); [split_and!; [done|by intros; apply Hfr|by left|congruence]|].
    pose proof (commit_super_frozen V gen s1 ltac:(split; [done|apply (go_geo _ _ _ A3)]) Hs1 Ex) as H. destruct (commit_super V gen s1) as [[rc2 V2] s2]. destruct H as (F1 & F2 & F3).
    split_and!; [done|intros; rewrite F3 by done; by apply Hfr| |congruence]. left. rewrite F3; [done|]. destruct (land_1 gen); lia. }
  destruct (Hlive1 eq_refl) as (-> & Himg). rewrite Z.eqb_refl. cbn [negb].
  assert (forall b, owned V b -> block d s1 b = block d s b) as Hob.
  { intros b Ho. destruct (touched_not_owned V s gen b L2 Ho) as [Hn ?]. apply Hfr; [lia|]. intros ?. apply Hn. right. by left. }
  destruct (gm_ok_slots d (v_gm V) s s1 A3) as [G1 G2].
  { intros g sl Hg Hsl. apply Hfr; [by apply (slot_block_pos d); [apply A3|done|lia]|]. rewrite (slot_block_eq d (v_gm V) g sl (go_geo _ _ _ A3) Hg). intros Hin%elem_of_seqZ.
    pose proof (gg_gb _ _ (go_geo _ _ _ A3)). destruct Hg. destruct (Z.eqb_spec g 0); [lia|nia]. }
  destruct (fs_ok_regm V s (v_gm V) (v_defer V) s1 L2 (gm_like_refl _) G1 ltac:(by left)) as [F1 F2]; [|done|].
  { intros b Ho. assert (owned V b) as Ho' by by destruct V. destruct (fo_used _ _ _ L2 b Ho') as [U1 U2]. rewrite <- U2. apply used_like; [apply A3|done|done|apply U1]. }
  assert (set_defer (set_gm V (v_gm V)) (v_defer V) = V) as EV by by destruct V. rewrite EV in F1, F2.
  assert (prepared V s1 gen) as P.
  { split; [exact L1|exact F1|exact L3|lia|exact Hc|exact Hd0| | |].
    - intros i f Hi. destruct (L6 i f Hi) as (N1 & N2 & N3). split_and!; [done| |done]. apply (on_disk_same d V s); [done| |done]. intros b Hb. apply Hob. left. exists i, f. split; [done|]. apply elem_of_app. by right.
    - rewrite <- L4, land_1_succ, L4. apply (older_same d s); [|done]. apply Hfr; [destruct (land_1 (v_gen V)); lia|]. intros Hin%elem_of_seqZ. destruct (land_1 (v_gen V)); lia.
    - intros i f Hi. unfold itab_record, itab_blocks. rewrite Himg. by apply I3. }
  assert (forall T, tree_of d V s T -> tree_of d V s1 T) as HT.
  { intros T [T1 T2]. split; [|done]. intros n c. rewrite T1. split; intros (i & f & Hi & E1 & E2 & E3); exists i, f; (split_and!; [done|done|done|]); rewrite <- E3; [by apply (F2 i)|symmetry; by apply (F2 i)]. }
  pose proof (commit_super_spec V s1 gen P Hs1 Ex) as H. destruct (commit_super V gen s1) as [[rc2 V2] s2]. destruct H as (K1 & K2 & K3 & K4). split_and!.
  - done.
  - intros b Hb Hn1 Hn2. rewrite K2 by done. by apply Hfr.
  - destruct K3 as [K3|[K3|(V' & S1 & S2 & S3)]]; [left; congruence|right; by left|right; right]. exists V'. split_and!; [done|done|]. intros T HT0. by apply S3, HT.
  - intros Ea. destruct (K4 Ea) as (-> & C1 & C2 & C3 & C4 & C5 & C6). split; [done|]. do 5 (split; [assumption|]). intros T HT0. by apply C6, HT.
Qed.

(** The flush and what follows it. *)
Definition commit_flush V s : Z * Vol D * D :=
  let '(rc, gm, s) := gmap_flush (v_gm V) s in
  let V := set_gm V gm in
  if negb (rc =? GMAP_OK) then (EXFS_EIO, mark_broken V, s) else commit_table V s.

Lemma commit_flush_frozen V s : on_device d V -> bd_ok s -> bd_dead s = true -> let '(_, _, s') := commit_flush V s in frozen d s s'.
Proof.
  intros [Hd Hg] Hs Hx. unfold commit_flush. pose proof (flush_loop_frozen d 8 0 (v_gm V) s Hg Hs Hx) as H. unfold gmap_flush. change (Z.to_nat GMAP_CACHE) with 8%nat.
  destruct (flush_loop 8 0 _ s) as [[rc gm] s1]. destruct H as [(Hl & _) Hf]. destruct (negb _); [done|]. pose proof Hf as (Hs1 & Hx1 & _).
  pose proof (commit_table_frozen (set_gm V gm) s1 ltac:(split; [done|cbn; congruence]) Hs1 Hx1) as H2.
  destruct (commit_table _ s1) as [[rc2 V2] s2]. by apply (frozen_trans d s s1).
Qed.

Lemma commit_map_eq V s : commit_map V s = let '(rc, V, s) := apply_deferred V s in if negb (rc =? EXFS_OK) then (EXFS_EIO, mark_broken V, s) else commit_flush V s.
Proof. unfold commit_map, commit_flush, commit_table. done. Qed.

Lemma commit_map_frozen V s : on_device d V -> bd_ok s -> bd_dead s = true -> let '(_, _, s') := commit_map V s in frozen d s s'.
Proof.
  intros Hd Hs Hx. rewrite commit_map_eq. unfold apply_deferred. pose proof (apply_loop_frozen (v_defer V) V s Hd Hs Hx) as H.
  destruct (apply_deferred_loop _ V s) as [[rc V1] s1]. destruct H as [Hd1 Hf]. pose proof Hf as (Hs1 & Hx1 & _). destruct (negb _); [done|].
  pose proof (commit_flush_frozen V1 s1 Hd1 Hs1 Hx1) as H. destruct (commit_flush V1 s1) as [[rc2 V2] s2]. by apply (frozen_trans d s s1).
Qed.

(** A stage of the commit: the map replaced, blocks given up, pending slots written. *)
Lemma lined_next V s gen gm DL s' : lined V s gen -> gm_like (v_gm V) gm -> gm_ok d gm s' -> (DL = v_defer V \/ DL = []) ->
  let V' := set_defer (set_gm V gm) DL in
  (forall b, owned V' b -> used d gm s' b = true) -> gm_frame d (v_gm V) s s' ->
  lined V' s' gen /\ forall T, tree_of d V s T -> tree_of d V' s' T.
Proof.
  intros [L1 L2 L3 L4 L6 L7] Hl Hm HDL V' Hu Hfr. pose proof (fo_alloc _ _ _ L2) as [A1 A2 A3 A4 A5].
  assert (forall b, owned V b -> block d s' b = block d s b) as Hob.
  { intros b Ho. destruct (owned_block d V s b L2 Ho) as (_ & ? & Hp & _). apply Hfr; [lia|done]. }
  destruct (fs_ok_regm V s gm DL s' L2 Hl Hm HDL Hu Hob) as [F1 F2]. split; [split|].
  - by destruct L1.
  - exact F1.
  - destruct L3 as [L3 L3']. split; [exact L3|]. destruct Hl as (_ & _ & _ & E & _). cbn. congruence.
  - exact L4.
  - intros i f Hi. destruct (L6 i f Hi) as (N1 & N2 & N3). split; [done|]. split; [|done]. apply (on_disk_same d V s); [done| |done]. intros b Hb. apply Hob. left. exists i, f. split; [done|].
    apply elem_of_app. by right.
  - apply (older_same d s); [|exact L7]. apply Hfr; [destruct (land_1 (v_gen V)); cbn; lia|]. intros (g & Hg & E). rewrite (slot_block_eq d (v_gm V) g _ (go_geo _ _ _ A3) Hg) in E.
    pose proof (gg_gb _ _ (go_geo _ _ _ A3)). change (v_gen V') with (v_gen V) in E. destruct (gg_slot _ _ (go_geo _ _ _ A3) g Hg), (land_1 (v_gen V)), Hg; destruct (Z.eqb_spec g 0); nia.
  - intros T [T1 T2]. split; [|exact T2]. intros n c. rewrite T1. split; intros (i & f & Hi & E1 & E2 & E3); exists i, f; (split_and!; [done|done|done|]); rewrite <- E3; [by apply (F2 i)|symmetry; by apply (F2 i)].
Qed.

(** What a commit writes beyond the chains, and where it gets. *)
Definition finished V s gen (r : Z * Vol D * D) : Prop :=
  let '(rc, V', s') := r in
  bd_ok s' /\ (forall b, 0 <= b -> ~ touched V gen b -> block d s' b = block d s b) /\ published V s gen s' /\
  (bd_dead s' = false -> rc = EXFS_OK /\ committed_to V s gen V' s').

Lemma published_from V s V1 s1 gen s' : block d s1 (gen .& 1) = block d s (gen .& 1) -> (forall T, tree_of d V s T -> tree_of d V1 s1 T) ->
  published V1 s1 gen s' -> published V s gen s'.
Proof.
  intros Hb HT [H|[H|(V' & S1 & S2 & S3)]]; [left; congruence|right; by left|right; right]. exists V'. split_and!; [done|done|]. intros T HT0. by apply S3, HT.
Qed.

Lemma super_not_pending V s gen : fs_ok d V s -> ~ pending (v_gm V) (gen .& 1).
Proof.
  intros Hf (g & Hg & E). pose proof (go_geo _ _ _ (ao_gm _ _ _ (fo_alloc _ _ _ Hf))) as G. rewrite (slot_block_eq d (v_gm V) g _ G Hg) in E.
  pose proof (gg_gb _ _ G). destruct (gg_slot _ _ G g Hg), (land_1 gen), Hg; destruct (Z.eqb_spec g 0); nia.
Qed.

(** Stages compose. *)
Lemma finished_after V s V1 s1 gen r : fs_ok d V s -> gm_like (v_gm V) (v_gm V1) -> gm_frame d (v_gm V) s s1 -> v_mounted V1 = v_mounted V -> v_broken V1 = v_broken V ->
  (forall T, tree_of d V s T -> tree_of d V1 s1 T) -> finished V1 s1 gen r -> finished V s gen r.
Proof.
  intros Hf Hl Hfr Em Eb HT. destruct r as [[rc V'] s']. intros (F1 & F2 & F3 & F4). split_and!.
  - done.
  - intros b Hb Hn. rewrite F2; [apply Hfr; [done|]|done|]; intros H; apply Hn; [by left|]. destruct H as [H|H]; [left|by right]. by apply (pending_like (v_gm V)) in H.
  - apply (published_from V s V1 s1); [|done|done]. apply Hfr; [destruct (land_1 gen); lia|by apply (super_not_pending V s)].
  - intros Ea. destruct (F4 Ea) as (-> & C1 & C2 & C3 & C4 & C5 & C6). split; [done|]. split; [done|]. split; [done|]. split; [done|]. split; [congruence|]. split; [congruence|].
    intros T HT0. by apply C6, HT.
Qed.

Lemma commit_flush_spec `{!TornDetected d} V s gen : lined V s gen -> v_defer V = [] -> bd_ok s -> bd_dead s = false -> finished V s gen (commit_flush V s).
Proof.
  intros HL Hd0 Hs Hx. pose proof (ln_fs _ _ _ HL) as Hf. pose proof (fo_alloc _ _ _ Hf) as [A1 A2 A3 A4 A5]. unfold commit_flush.
  pose proof (flush_loop_spec d 8 0 (v_gm V) s A3 Hs Hx eq_refl ltac:(lia)) as H. unfold gmap_flush. change (Z.to_nat GMAP_CACHE) with 8%nat.
  destruct (flush_loop 8 0 _ s) as [[rc gm] s1]. destruct H as (Hs1 & Hl & Hfr & Hlive).
  assert (published V s gen s1 /\ forall b, 0 <= b -> ~ touched V gen b -> block d s1 b = block d s b) as [Hp1 Hf1].
  { split; [left; apply Hfr; [destruct (land_1 gen); lia|by apply (super_not_pending V s)]|]. intros b Hb Hn. apply Hfr; [done|]. intros ?. apply Hn. by left. }
  assert (on_device d (set_gm V gm)) as Hd1 by (split; [done|]; destruct Hl as (E & _); cbn; rewrite E; apply A3).
  destruct (bd_dead s1) eqn:Ex.
  { destruct (negb _); [split_and!; [done|done|done|congruence]|]. pose proof (commit_table_frozen (set_gm V gm) s1 Hd1 Hs1 Ex) as H.
    destruct (commit_table _ s1) as [[rc2 V2] s2]. destruct H as (F1 & F2 & F3). split_and!; [done|intros; rewrite F3 by done; by apply Hf1| |congruence].
    left. destruct Hp1 as [E|Hp1]; [rewrite F3; [apply Hfr|]|]; try (destruct (land_1 gen); lia); [by apply (super_not_pending V s)|].
    rewrite F3 by (destruct (land_1 gen); lia). apply Hfr; [destruct (land_1 gen); lia|by apply (super_not_pending V s)]. }
  destruct (Hlive eq_refl) as (-> & Hm & Hc & _ & Hcur). rewrite Z.eqb_refl. cbn [negb].
  destruct (lined_next V s gen gm (v_defer V) s1 HL Hl Hm ltac:(by left)) as [HL1 HT1]; [|done|].
  { intros b Ho. assert (owned V b) as Ho' by by destruct V. destruct (fo_used _ _ _ Hf b Ho') as [U1 U2]. rewrite <- U2. apply used_like; [apply A3|apply Hl|done|apply U1]. }
  assert (set_defer (set_gm V gm) (v_defer V) = set_gm V gm) as EV by by destruct V. rewrite EV in *.
  pose proof (commit_table_spec (set_gm V gm) s1 gen HL1 Hc Hd0 Hs1 Ex) as H.
  apply (finished_after V s (set_gm V gm) s1); try done. destruct (commit_table _ s1) as [[rc2 V2] s2]. destruct H as (K1 & K2 & K3 & K4). split_and!; try done.
  intros b Hb Hn. apply K2; [done| |]; intros ?; apply Hn; [right; by left|right; by right].
Qed.

Lemma commit_map_spec `{!TornDetected d} V s gen : lined V s gen -> bd_ok s -> bd_dead s = false -> finished V s gen (commit_map V s).
Proof.
  intros HL Hs Hx. pose proof (ln_fs _ _ _ HL) as Hf. pose proof (fo_alloc _ _ _ Hf) as [A1 A2 A3 A4 A5]. rewrite commit_map_eq. unfold apply_deferred.
  destruct (fo_defer _ _ _ Hf) as [D1 D2].
  pose proof (apply_loop_spec (v_defer V) V s A1 A3 D1 D2 ltac:(intros b Hb; apply (fo_used _ _ _ Hf); by right) Hs Hx) as H.
  destruct (apply_deferred_loop _ V s) as [[rc V1] s1]. destruct H as (Hs1 & Hd1 & Hfr & Hlive).
  assert (block d s1 (gen .& 1) = block d s (gen .& 1)) as Hsup by (apply Hfr; [destruct (land_1 gen); lia|by apply (super_not_pending V s)]).
  assert (forall b, 0 <= b -> ~ touched V gen b -> block d s1 b = block d s b) as Hf1 by (intros b Hb Hn; apply Hfr; [done|]; intros ?; apply Hn; by left).
  destruct (bd_dead s1) eqn:Ex.
  { destruct (negb _); [split_and!; [done|done|by left|congruence]|]. pose proof (commit_flush_frozen V1 s1 Hd1 Hs1 Ex) as H.
    destruct (commit_flush V1 s1) as [[rc2 V2] s2]. destruct H as (F1 & F2 & F3). split_and!; [done|intros; rewrite F3 by done; by apply Hf1| |congruence].
    left. rewrite F3; [done|destruct (land_1 gen); lia]. }
  destruct (Hlive eq_refl) as (-> & gm & -> & Hl & Hm & Hu). rewrite Z.eqb_refl. cbn [negb].
  destruct (lined_next V s gen gm [] s1 HL Hl Hm ltac:(by right)) as [HL1 HT1]; [|done|].
  { intros b [(i & f & Hi & Hb)|Hb]; [|by apply elem_of_nil in Hb]. assert (owned V b) as Ho by (left; by exists i, f). destruct (fo_used _ _ _ Hf b Ho) as [[U1 _] U2].
    rewrite Hu, U2 by done. rewrite bool_decide_eq_false_2; [done|]. by apply (fo_dapart _ _ _ Hf i f). }
  apply (finished_after V s (set_defer (set_gm V gm) []) s1); try done. by apply commit_flush_spec.
Qed.
End Super.
