(* ===== verification/ExfsPublish.v ===== *)
(** One whole commit of EXFS: from a volume that can go to the next generation
    to the disk on which it is published, or on which the last one still is. *)

From S2P Require Import Prelude.
From S2P Require Import Bytes.
From S2P Require Import Blk.
From S2P Require Import ExfsDefs.
From S2P Require Import Gmap.
From S2P Require Import GmapOk.
From S2P Require Import Sb.
From S2P Require Import Exfs.
From S2P Require Import ExfsNames.
From S2P Require Import ExfsPool.
From S2P Require Import ExfsData.
From S2P Require Import ExfsFiles.
From S2P Require Import ExfsWrite.
From S2P Require Import ExfsWriteAt.
From S2P Require Import ExfsTree.
From S2P Require Import ExfsImage.
From S2P Require Import ExfsMount.
From S2P Require Import ExfsCommit.
From S2P Require Import ExfsSuper.

Section Commit.
Context {D : Type} (d : BlkDev D) `{!BlockDevice d} `{!FailStop d} `{!TornDetected d}.
Implicit Types (V W : Vol D) (s : D) (f : ExfsFile) (T : Tree).

(** The names of a tree are bytes, as in a C string. *)
Definition byte_tree T : Prop := forall n, is_Some (T !! n) -> bytes_ok n.

(** * One commit *)

(** A volume that can go to generation [gen]. *)
Record committable V s (gen : Z) : Prop := {
  ct_ready : ready d V s;
  ct_ns : ns_ok V;
  ct_size : v_total V = sector_count d * sector_size d / 4096 /\ m_gb (v_gm V) = 32768;
  ct_gen : v_gen V + 1 = gen /\ 0 < gen < 2 ^ 64;
  ct_files : forall i f, in_use V i f -> bytes_ok (cname f) /\ fits (f_n f) (f_ext_cap f);
  ct_other : older d s (v_gen V .& 1) gen
}.

(** With its chains written it has everything but the map and the records. *)
Lemma committing_lined V s gen V1 s1 : committable V s gen -> committing d V s 128 V1 s1 -> same_names V V1 ->
  lined d V1 s1 gen /\ (forall T, tree_of d V s T -> tree_of d V1 s1 T).
Proof.
  intros [R N Hsz Hg Hfl Ho] C Hsn. pose proof C as [C1 (gm & h & F & E & Hl & HF) C3 C4 C5 C6 C7 C8 C9].
  assert (forall j g, in_use V1 j g -> exists f, in_use V j f /\ rechained f g) as Hback.
  { intros j g [Hj Hu]. destruct (lookup_lt_is_Some_2 (v_files V) j) as [f Hf].
    { rewrite (ns_len _ N). rewrite <- (ns_len _ (same_ns_ok V V1 Hsn N)). by eapply lookup_lt_Some. }
    destruct (C3 j f Hf) as (g' & Hg' & Hrc & _). assert (g' = g) as -> by congruence. exists f. split; [|done]. split; [done|]. rewrite Hrc in Hu. exact Hu. }
  split; [split|].
  - by apply (same_ns_ok V).
  - done.
  - rewrite E. destruct Hl as (_ & _ & _ & El & _). cbn. rewrite El. exact Hsz.
  - rewrite E. exact Hg.
  - intros j g Hj. destruct (Hback j g Hj) as (f & Hf & Hrc). destruct (Hfl j f Hf) as [N1 N2]. split_and!.
    + rewrite Hrc. exact N1.
    + apply (C5 j); [done|]. right. destruct Hj as [Hj _]. rewrite <- (ns_len _ (same_ns_ok V V1 Hsn N)). by eapply lookup_lt_Some.
    + rewrite Hrc. exact N2.
  - replace (v_gen V1) with (v_gen V) by by rewrite E. apply (older_same d s); [|done]. pose proof (land_1 (v_gen V)) as L.
    destruct (committed_closed d V s (v_gen V .& 1) (rd_fs _ _ _ R) ltac:(left; lia)) as (? & ? & ?). by apply C8.
  - intros T HT. apply (tree_kept d V s V1 s1 T Hsn); [|done]. intros n c. apply (stores_same d V s V1 s1 (fun _ => True) n c Hsn); [|done].
    intros j f Hj _. destruct (C3 j f (proj1 Hj)) as (g & Hg' & Hrc & _). exists g. split; [|split; [rewrite Hrc; done|by apply (C4 j)]].
    split; [done|]. rewrite Hrc. apply Hj.
Qed.

(** What is on the disk after a commit, or after what it got to. *)
Definition commit_done V s gen (r : Z * Vol D * D) : Prop :=
  let '(rc, V', s') := r in
  bd_ok s' /\ (forall b, 0 <= b -> ~ free_block d V s b -> ~ touched V gen b -> block d s' b = block d s b) /\ published d V s gen s' /\
  (bd_dead s' = false -> (rc = EXFS_OK /\ committed_to d V s gen V' s') \/
    (rc = EXFS_ENOSPC /\ V' = V /\ s' = s /\ gmap_free_total (v_gm V) < chain_needs (v_files V))).

Lemma exfs_commit_frozen V s : on_device d V -> bd_ok s -> bd_dead s = true -> let '(_, _, s') := exfs_commit V s in frozen d s s'.
Proof.
  intros Hd Hs Hx. unfold exfs_commit. destruct (negb _); [done|]. destruct (v_broken V); [done|]. destruct (negb _); [done|].
  destruct (commit_need _ 0); [done|]. destruct (_ <? _); [done|]. pose proof (commit_chains_frozen d (Z.to_nat EXFS_INODES) 0 V s Hd Hs Hx) as H.
  destruct (commit_chains _ 0 V s) as [[rc1 V1] s1]. destruct H as [Hd1 Hf1]. pose proof Hf1 as (Hs1 & Hx1 & _). destruct (negb _); [done|].
  pose proof (commit_map_frozen d V1 s1 Hd1 Hs1 Hx1) as H. destruct (commit_map V1 s1) as [[rc2 V2] s2]. by apply (frozen_trans d s s1).
Qed.

Lemma exfs_commit_spec V s gen : committable V s gen -> active V -> bd_ok s -> bd_dead s = false -> commit_done V s gen (exfs_commit V s).
Proof.
  intros H [Hmo Hbr] Hs Hx. pose proof (ct_ready _ _ _ H) as R. pose proof (rd_fs _ _ _ R) as Hf. pose proof (ns_len _ (ct_ns _ _ _ H)) as Hlen.
  pose proof (fo_alloc _ _ _ Hf) as [A1 A2 A3 A4 A5]. unfold exfs_commit. rewrite Hmo, Hbr, (rd_dirty _ _ _ R). cbn [negb].
  rewrite commit_need_spec. 2: { intros i f Hi Hu. apply (fk_n d V s f). by apply (fo_file _ _ _ Hf i). }
  rewrite Z.add_0_l. destruct (Z.ltb_spec (gmap_free_total (v_gm V)) (chain_needs (v_files V))) as [Hlt|Hge].
  { split_and!; [done|done|by left|]. intros _. right. by split_and!. }
  pose proof (commit_chains_spec d V s R 128 0 V s (committing_start d V s R ltac:(lia)) ltac:(lia) Hs Hx) as Hc. pose proof (commit_chains_same 128 0 V s) as Hsn.
  change (Z.to_nat EXFS_INODES) with 128%nat. destruct (commit_chains 128 0 V s) as [[rc V1] s1]. cbn [fst snd] in Hsn. destruct Hc as (Hs1 & Hd1 & Hsafe & Hlive).
  pose proof (land_1 gen) as L.
  assert (block d s1 (gen .& 1) = block d s (gen .& 1)) as Hsup.
  { destruct (committed_closed d V s (gen .& 1) Hf ltac:(left; lia)) as (? & ? & ?). by apply Hsafe. }
  assert (forall b, 0 <= b -> ~ free_block d V s b -> ~ touched V gen b -> block d s1 b = block d s b) as Hfr.
  { intros b Hb Hnf Hnt. apply Hsafe; [done| |done]. intros ?. apply Hnt. by left. }
  destruct (bd_dead s1) eqn:Ex.
  { destruct (negb _); [split_and!; [done|done|by left|congruence]|].
    pose proof (commit_map_frozen d V1 s1 Hd1 Hs1 Ex) as Ha. destruct (commit_map V1 s1) as [[rc2 V2] s2]. destruct Ha as (F1 & F2 & F3).
    split_and!; [done|intros; rewrite F3 by done; by apply Hfr|left; rewrite F3 by lia; done|congruence]. }
  destruct (Hlive eq_refl) as (-> & C). rewrite Z.eqb_refl. cbn [negb Nat.add] in *.
  destruct (committing_lined V s gen V1 s1 H C Hsn) as [HL HT]. pose proof (commit_map_spec d V1 s1 gen HL Hs1 Ex) as Hm. destruct (commit_map V1 s1) as [[rc V'] s'].
  destruct Hm as (M1 & M2 & M3 & M4). pose proof C as [_ (gm & h & F & E & Hl & _) _ _ _ _ _ _ _]. split_and!.
  - done.
  - intros b Hb Hnf Hnt. rewrite M2; [by apply Hfr|done|]. intros Ht. apply Hnt. destruct Ht as [Ht|Ht]; [left|by right].
    rewrite E in Ht. by apply (pending_like (v_gm V) gm b Hl) in Ht.
  - by apply (published_from d V s V1 s1).
  - intros Ea. destruct (M4 Ea) as (-> & K1 & K2 & K3 & K4 & K5 & K6). left. split; [done|]. split; [done|]. split; [done|]. split; [done|].
    split; [by rewrite K4, E|]. split; [by rewrite K5, E|]. intros T HT0. by apply K6, HT.
Qed.
End Commit.
