(* ===== verification/ExfsFormat.v ===== *)
(** Making a volume: what [exfs_format] puts on a disk. *)

From S2P Require Import Prelude.
From S2P Require Import Bytes.
From S2P Require Import Blk.
From S2P Require Import ExfsDefs.
From S2P Require Import Gmap.
From S2P Require Import GmapOk.
From S2P Require Import Sb.
From S2P Require Import Exfs.
From S2P Require Import ExfsNames.
From S2P Require Import ExfsPool.
From S2P Require Import ExfsData.
From S2P Require Import ExfsFiles.
From S2P Require Import ExfsWrite.
From S2P Require Import ExfsTree.
From S2P Require Import ExfsMount.
From S2P Require Import ExfsCommit.
From S2P Require Import ExfsSuper.
From S2P Require Import ExfsPublish.

(** The tree of a new volume. *)
Definition root_tree : Tree := fold_left (fun T n => <[n := TDir]> T) root_dirs ∅.

Section Format.
Context {D : Type} (d : BlkDev D) `{!BlockDevice d} `{!FailStop d} `{!TornDetected d}.
Implicit Types (V W : Vol D) (s : D) (f : ExfsFile) (T : Tree).

(** * The first directories *)

(** Making directories from an empty volume: [k] slots are taken, no file has
    an extent. *)
Record growing V0 V s T (k : Z) : Prop := {
  gr_sim : sim d V s T;
  gr_steady : steady V0 V;
  gr_count : countb f_used (v_files V) = k;
  gr_empty : forall i f, in_use V i f -> f_n f = 0
}.

Lemma make_node_dir V0 V s T k n : growing V0 V s T k -> k < 128 -> name_ok n = true -> no_nul n -> last_bar n = 0 -> T !! n = None ->
  let '(_, V') := make_node V n EXFS_TYPE_DIR in growing V0 V' s (<[n := TDir]> T) (k + 1) /\ v_dirty V' = true.
Proof.
  intros [G1 G2 G3 G4] Hk Hok Hn Hb HT. pose proof (step_new d V s T G1 EXFS_TYPE_DIR n TDir Hn ltac:(by right)) as H.
  assert (exfs_new EXFS_TYPE_DIR V n = make_node V n EXFS_TYPE_DIR) as E.
  { unfold exfs_new. destruct (sm_active _ _ _ _ G1) as [-> ->]. cbn [negb]. rewrite Hok. cbn [negb]. pose proof (find_tree d V s T G1 n Hn) as Hf. rewrite HT in Hf. rewrite Hf.
    unfold parent_ok. by rewrite Hb. }
  rewrite E in H. clear E. unfold make_node in *. pose proof (make_in_spec (v_files V) n EXFS_TYPE_DIR) as Hm. destruct (make_in (v_files V) n EXFS_TYPE_DIR) as [l|].
  - destruct H as (T' & Ht & HS & Hst & _). destruct Ht as [(_ & _ & _ & _ & ->)|[_ Hc]].
    2: { exfalso. unfold EXFS_OK, EXFS_EINVAL, EXFS_EEXIST, EXFS_ENOENT, EXFS_ENOSPC in Hc. destruct Hc as [[? _]|[[? _]|[[? _]|?]]]; done. }
    split; [|done]. destruct Hm as (i & f & Hi & Hu & El). split.
    + done.
    + by apply (steady_trans V0 V).
    + change (v_files (set_dirty (set_files V l) true)) with l. rewrite El, (countb_insert f_used (v_files V) i f) by done. rewrite Hu. cbn [f_used]. lia.
    + intros j g [Hj Hg]. change (v_files (set_dirty (set_files V l) true)) with l in Hj. rewrite El in Hj. apply list_lookup_insert_Some in Hj as [(_ & <- & _)|[_ Hj]]; [done|by apply (G4 j)].
  - exfalso. pose proof (ns_len _ (sm_ns _ _ _ _ G1)) as Hlen. assert (countb f_used (v_files V) = lenZ (v_files V)); [|lia]. revert Hm. clear.
    induction (v_files V) as [|f l IH]; intros H; [done|]. apply Forall_cons in H as [Hf H]. cbn [countb length]. rewrite Hf, IH by done. lia.
Qed.

Lemma make_root V s : growing V V s ∅ 0 -> let V' := fold_left (fun V n => (make_node V n EXFS_TYPE_DIR).2) root_dirs V in
  growing V V' s root_tree 4 /\ v_dirty V' = true.
Proof.
  intros G. assert (forall V1 T k n, growing V V1 s T k -> k < 128 -> (name_ok n && (last_bar n =? 0) && forallb (fun c => negb (c =? 0)) n) = true -> T !! n = None ->
    growing V (make_node V1 n EXFS_TYPE_DIR).2 s (<[n := TDir]> T) (k + 1) /\ v_dirty (make_node V1 n EXFS_TYPE_DIR).2 = true) as Hstep.
  { intros V1 T k n G1 Hk Hn HT. apply andb_true_iff in Hn as [[Hn1 Hn2%Z.eqb_eq]%andb_true_iff Hn3]. pose proof (make_node_dir V V1 s T k n G1 Hk Hn1) as H.
    destruct (make_node V1 n EXFS_TYPE_DIR) as [rc V2]. apply H; [|done|done]. unfold no_nul. apply Forall_forall. intros c Hc. rewrite forallb_forall in Hn3.
    apply list_elem_of_In, Hn3, negb_true_iff, Z.eqb_neq in Hc. done. }
  cbn [root_dirs fold_left root_tree]. unfold root_tree. cbn [root_dirs fold_left].
  destruct (Hstep V ∅ 0 [124; 117; 115; 101; 114] G ltac:(lia) eq_refl eq_refl) as [G1 _].
  destruct (Hstep _ _ _ [124; 114; 111; 111; 116] G1 ltac:(lia) eq_refl) as [G2 _]; [by rewrite lookup_insert_ne|].
  destruct (Hstep _ _ _ [124; 98; 105; 110] G2 ltac:(lia) eq_refl) as [G3 _]; [by rewrite !lookup_insert_ne|].
  destruct (Hstep _ _ _ [124; 98; 111; 111; 116] G3 ltac:(lia) eq_refl) as [G4 G5]; [by rewrite !lookup_insert_ne|]. done.
Qed.

(** * Formatting *)

(** The number of blocks of the device, and the devices that take a volume. *)
Definition dev_blocks : Z := sector_count d * sector_size d / 4096.
Definition formattable : Prop := 4096 mod sector_size d = 0 /\ 34 <= dev_blocks <= 2 ^ 24.

Lemma geometry_spec W : (formattable -> geometry W (Some d) = (EXFS_OK, set_dev W (Some d) (4096 / sector_size d) dev_blocks)) /\
  (~ formattable -> (geometry W (Some d)).1 = EXFS_ENOFS).
Proof.
  pose proof bd_geometry as (B1 & B2 & B3). unfold formattable, geometry. cbn [blk_sector_size blk_sector_count]. change EXFS_BLOCK with 4096.
  rewrite (proj2 (Z.eqb_neq (sector_size d) 0)) by lia. rewrite u64_small by nia. fold dev_blocks. change (EXFS_DATA_START + 16) with 34. change EXFS_MAX_BLOCKS with 16777216. cbn [orb].
  destruct (Z.eqb_spec (4096 mod sector_size d) 0) as [->|Hm]; cbn [negb]; [|by split; [intros [? _]|]].
  destruct (Z.ltb_spec dev_blocks 34), (Z.ltb_spec 16777216 dev_blocks); cbn [orb]; (split; [intros [_ ?]; (done || lia)|intros Hn; try done]). destruct Hn. lia.
Qed.

(** The device stays the volume's. *)
Lemma make_node_device V n t : on_device d V -> on_device d (make_node V n t).2.
Proof. unfold make_node. intros H. by destruct (make_in _ n t). Qed.

Lemma format_loop_device k : forall g m bits s, m_dev (format_loop k g m bits s).1.2 = m_dev m.
Proof.
  induction k as [|k IH]; intros g m bits s; cbn [format_loop]; [done|]. destruct (fresh_bits m g bits) as [fr b].
  destruct (gwrite _ g 0 b s) as [rc s']. destruct (negb _); [done|]. by rewrite IH.
Qed.

(** A volume without files on a blank map. *)
Lemma empty_volume W m s : static W -> blank d m s -> m_total m = dev_blocks -> m_gb m = 32768 -> formattable -> bd_ok s -> bd_dead s = false ->
  let V := format_volume (set_gm (set_dev W (Some d) (4096 / sector_size d) dev_blocks) m) in growing V V s ∅ 0.
Proof.
  intros (S1 & S2 & S3) (B1 & B2 & B3 & B4) Ht Hgb [F1 F2] Hs Hx V. pose proof bd_geometry as (G1 & G2 & G3).
  assert (forall i f, v_files V !! i = Some f -> f_used f = false /\ length (f_chain f) = 16%nat /\ length (f_name f) = 96%nat) as Hfl.
  { intros i f (g & -> & Hg)%list_lookup_fmap_Some. by destruct (S2 i g Hg). }
  assert (forall i f, ~ in_use V i f) as Hno by (intros i f [Hi Hu]; destruct (Hfl i f Hi); congruence).
  assert (forall b, ~ owned V b) as Hown by (intros b [(i & f & Hi & _)|Hb]; [by apply (Hno i f)|by apply elem_of_nil in Hb]).
  assert (length (v_files V) = 128%nat) as Hlen by by (cbn; rewrite !length_fmap).
  split; [split| | |].
  - split; try done; try (intros i f Hi Hu; by destruct (Hno i f)).
    + intros i f Hi. by apply (Hfl i).
    + intros i j f g Hi Hj Hu. by destruct (Hno i f).
  - split; try done; try (intros i f Hi; by destruct (Hno i f)).
    + split; try done.
      * split; cbn; [apply Z.div_str_pos; split; [lia|]; apply Z.divide_pos_le; [lia|]; by apply Z.mod_divide; [lia|]|].
        rewrite Z.mul_comm. symmetry. apply Z.div_exact; [lia|done].
      * cbn. change EXFS_DATA_START with 18. lia.
    + split; try done; try (intros i f Hi Hu; by destruct (Hno i f)); try (intros i f k Hi Hu; by destruct (Hno i f)). intros i j f g k Hi Hj Hu. by destruct (Hno i f).
    + intros i f Hi. by apply (Hfl i).
    + intros i j f g b Hi. by destruct (Hno i f).
    + cbn. split; constructor.
    + intros i f b Hi. by destruct (Hno i f).
    + intros b Hb. by destruct (Hown b).
  - done.
  - done.
  - split; [intros n c|intros n]; rewrite lookup_empty; (split; [done|]).
    + intros (i & f & Hi & _). by destruct (Hno i f).
    + intros (i & f & Hi & Hu & _). by destruct (Hno i f).
  - apply steady_refl.
  - apply countb_zero. intros f [i Hi]%list_elem_of_lookup. by apply (Hfl i).
  - intros i f Hi. by destruct (Hno i f).
Qed.

Lemma no_needs l : (forall i f, l !! i = Some f -> f_used f = true -> f_n f = 0) -> chain_needs l = 0.
Proof.
  induction l as [|f l IH]; intros H; cbn [chain_needs]; [done|]. rewrite IH by (intros i; apply (H (S i))). specialize (H 0%nat f eq_refl). unfold chain_need.
  destruct (f_used f); [|done]. rewrite H by done. by rewrite andb_false_r.
Qed.

Lemma root_names : byte_tree root_tree.
Proof.
  intros n [x Hn]. unfold root_tree in Hn. cbn [root_dirs fold_left] in Hn. rewrite !lookup_insert_Some, lookup_empty in Hn.
  assert (forall l, forallb (fun c => (0 <=? c) && (c <? 256)) l = true -> bytes_ok l) as Hb.
  { intros l Hl. apply Forall_forall. intros c Hc. rewrite forallb_forall in Hl. apply list_elem_of_In, Hl, andb_true_iff in Hc as [?%Z.leb_le ?%Z.ltb_lt]. lia. }
  destruct Hn as [[<- _]|[_ [[<- _]|[_ [[<- _]|[_ [[<- _]|[_ Hn]]]]]]]]; [by apply Hb..|done].
Qed.

(** The new volume is ready for its first commit. *)
Lemma root_committable V0 V s : growing V0 V s root_tree 4 -> (forall i f, ~ in_use V0 i f) -> v_dirty V = true -> v_gen V0 = 0 -> v_total V0 = dev_blocks -> m_gb (v_gm V0) = 32768 ->
  older d s 0 1 -> committable d V s 1.
Proof.
  intros [G1 (_ & _ & Et & (_ & _ & _ & Eb & _) & (_ & _ & Eg & _) & Hde) _ _] Hno Hd Hg0 Ht Hgb Ho.
  assert (forall i f, in_use V i f -> f_dirty f = true /\ f_nchain f = 0 /\ fits (f_n f) (f_ext_cap f)) as Hf.
  { intros i f Hi. destruct (Hde i f Hi) as [(f0 & _ & Hf0 & _)|?]; [by destruct (Hno i f0)|done]. }
  split.
  - split; [apply G1|done|]. intros i f Hi. by destruct (Hf i f Hi) as (-> & -> & _).
  - apply G1.
  - rewrite Et, Eb. done.
  - rewrite Eg, Hg0. lia.
  - intros i f Hi. destruct (Hf i f Hi) as (_ & _ & ?). split; [|done]. apply root_names.
    apply (tree_node d V s root_tree (cname f) (sm_ns _ _ _ _ G1) (sm_tree _ _ _ _ G1)). exists (f_type f). destruct Hi. by exists i, f.
  - rewrite Eg, Hg0. done.
Qed.

(** A format that is not interrupted, on a device it can number. *)
Lemma format_spec W s : static W -> bd_ok s -> bd_dead s = false -> formattable -> older d s 0 1 ->
  let '(rc, V', s') := exfs_format W (Some d) s in
  bd_ok s' /\ (bd_dead s' = false -> rc = EXFS_OK /\ saved d V' s' /\ sim d V' s' root_tree /\ v_gen V' = 1).
Proof.
  intros HW Hs Hx Hf Ho. unfold exfs_format. rewrite (proj1 (geometry_spec W) Hf), Z.eqb_refl. cbn [negb]. set (V1 := set_dev W _ _ _).
  pose proof Hf as [F1 F2]. pose proof bd_geometry as (G1 & G2 & G3).
  destruct (gmap_init_ok d (v_gm V1) dev_blocks (proj2 (proj2 HW)) F2) as (m & Ei & Gm & Tm & Bm & Cm & _ & Zm); [|done|].
  { unfold dev_blocks. pose proof (Z.mul_div_le (sector_count d * sector_size d) 4096 ltac:(lia)). lia. }
  change (v_total V1) with dev_blocks. change GMAP_GROUP_MAX with 32768. rewrite Ei, Z.eqb_refl. cbn [negb]. set (V2 := set_gm V1 m). change (v_gm V2) with m.
  pose proof (format_loop_spec d (Z.to_nat (m_ngroups m)) 0 m (replicate (Z.to_nat EXFS_BLOCK) 0) s Gm Cm Hs Hx ltac:(lia)) as H.
  unfold gmap_format. destruct (gg_ng _ _ Gm) as [Hng _]. rewrite Z2Nat.id in H by lia. specialize (H eq_refl (length_replicate _ _) (bytes_ok_zeros _)).
  pose proof (format_loop_device (Z.to_nat (m_ngroups m)) 0 m (replicate (Z.to_nat EXFS_BLOCK) 0) s) as Hdev. rewrite (gg_dev _ _ Gm) in Hdev.
  destruct (format_loop _ 0 m _ s) as [[rc m2] s2]. cbn [fst snd] in Hdev. destruct H as (Hs2 & Hfr & Hlive).
  { intros g. by destruct (Zm g) as (? & ? & _). }
  { intros g Hg. lia. }
  destruct (bd_dead s2) eqn:Ex2.
  { destruct (negb _); [split; [done|congruence]|]. set (V3 := format_volume _). assert (on_device d (fold_left (fun V n => (make_node V n EXFS_TYPE_DIR).2) root_dirs V3)) as Hd4.
    { cbn [root_dirs fold_left]. do 4 apply make_node_device. by split. }
    pose proof (exfs_commit_frozen d _ s2 Hd4 Hs2 Ex2) as H. destruct (exfs_commit _ s2) as [[rc' V'] s']. destruct H as (? & H & _). split; [done|congruence]. }
  destruct (Hlive eq_refl) as (-> & Hbl & Et & Eb & En). rewrite Z.eqb_refl. cbn [negb].
  change (set_gm V2 m2) with (set_gm V1 m2). pose proof (empty_volume W m2 s2 HW Hbl ltac:(congruence) ltac:(congruence) Hf Hs2 Ex2) as Gr. cbv zeta in Gr. fold V1 in Gr.
  set (V3 := format_volume (set_gm V1 m2)) in *. destruct (make_root V3 s2 Gr) as [Gr4 Hd]. cbv zeta in Gr4, Hd. set (V4 := fold_left _ root_dirs V3) in *.
  assert (older d s2 0 1) as Ho2.
  { apply (older_same d s); [|done]. apply Hfr; [lia|]. intros g Hg. rewrite (slot_block_eq d m g 0 Gm Hg). pose proof (gg_gb _ _ Gm). destruct Hg. destruct (Z.eqb_spec g 0); nia. }
  assert (forall i f, ~ in_use V3 i f) as Hno by (intros i f [(g & -> & Hg)%list_lookup_fmap_Some Hu]; done).
  pose proof (root_committable V3 V4 s2 Gr4 Hno Hd eq_refl eq_refl ltac:(cbn; congruence) Ho2) as Hct.
  pose proof (exfs_commit_spec d V4 s2 1 Hct (sm_active _ _ _ _ (gr_sim _ _ _ _ _ Gr4)) Hs2 Ex2) as H. destruct (exfs_commit V4 s2) as [[rc V'] s']. destruct H as (Hs' & _ & _ & Hl).
  split; [done|]. intros Ea. destruct (Hl Ea) as [(-> & C1 & C2 & C3 & C4 & C5 & C6)|(_ & _ & _ & Hlt)].
  - destruct (gr_sim _ _ _ _ _ Gr4) as [_ _ _ [A1 A2] A3]. split_and!; [done|done| |done]. split; [apply C1|apply C1|done|split; congruence|by apply C6].
  - rewrite no_needs in Hlt. 2: { intros i f Hi Hu. by apply (gr_empty _ _ _ _ _ Gr4 i f). }
    pose proof (gmap_free_total_spec d _ s2 (ao_gm _ _ _ (fo_alloc _ _ _ (rd_fs _ _ _ (ct_ready _ _ _ _ Hct))))) as E. rewrite E in Hlt.
    pose proof (countb_bound (fun b => negb (used d (v_gm V4) s2 b)) (seqZ 0 (m_total (v_gm V4)))). lia.
Qed.

(** C17: formatting. A device whose blocks the format cannot number (sectors
    that do not divide a block, fewer than 34 or more than 2^24 blocks) is
    refused and not written. On any other, whatever it and the memory held, a
    format that is not interrupted succeeds and leaves a committed volume of
    generation 1 with the four directories and all invariants, provided block 0
    holds no superblock of an older volume. *)
Theorem exfs_format_correct W s : static W -> bd_ok s -> bd_dead s = false ->
  (~ formattable -> exists V', exfs_format W (Some d) s = (EXFS_ENOFS, V', s)) /\
  (formattable -> older d s 0 1 -> let '(rc, V', s') := exfs_format W (Some d) s in
    bd_dead s' = false -> rc = EXFS_OK /\ saved d V' s' /\ sim d V' s' root_tree /\ v_gen V' = 1).
Proof.
  intros HW Hs Hx. split.
  - intros Hn. unfold exfs_format. pose proof (proj2 (geometry_spec W) Hn) as Hg. destruct (geometry W (Some d)) as [rc V]. cbn in Hg. subst rc. by exists V.
  - intros Hf Ho. pose proof (format_spec W s HW Hs Hx Hf Ho) as H. destruct (exfs_format W (Some d) s) as [[rc V'] s']. apply H.
Qed.
End Format.

(** * Witness: the RAM disk of 34 blocks *)

(** Static storage as the loader clears it. *)
Definition demo_static {D} : Vol D :=
  mkVol None 0 0 0 0 false false false (mkGMap None 0 0 0 0 [] [] [] demo_cache 0) 0 (replicate 128 demo_file) (fun _ => mkExt 0 0) (replicate 2048 0) [].

Lemma demo_static_ok D : static (@demo_static D).
Proof.
  split; [apply length_replicate|]. split; [|apply demo_cache_ok]. intros i f Hf. apply lookup_replicate in Hf as [-> _].
  split; apply length_replicate.
Qed.

Lemma demo_formattable : formattable demo_dev.
Proof. unfold formattable, dev_blocks. vm_compute. repeat split; discriminate. Qed.

Lemma demo_older : older demo_dev demo_ram 0 1.
Proof.
  assert ((sb_decode (block demo_dev demo_ram 0) zero_sb).1 = SB_EBAD) as H by (vm_compute; reflexivity).
  intros x Hx. unfold super_at in Hx. rewrite Hx in H. discriminate H.
Qed.

Lemma exfs_format_correct_witness : let '(rc, V', s') := exfs_format demo_static (Some demo_dev) demo_ram in
  rc = EXFS_OK /\ saved demo_dev V' s' /\ sim demo_dev V' s' root_tree /\ v_gen V' = 1.
Proof.
  pose proof (proj2 (exfs_format_correct demo_dev demo_static demo_ram (demo_static_ok _) demo_ram_ok eq_refl) demo_formattable demo_older) as H.
  destruct (exfs_format demo_static (Some demo_dev) demo_ram) as [[rc V'] s']. exact (H eq_refl).
Defined.
