(* ===== verification/ExfsCrash.v ===== *)
(** Crash safety of EXFS: whenever the power fails, mounting the volume again
    gives the tree of the last commit, or, during a commit, the one being
    committed. *)

From S2P Require Import Prelude.
From S2P Require Import Bytes.
From S2P Require Import Blk.
From S2P Require Import ExfsDefs.
From S2P Require Import Gmap.
From S2P Require Import GmapOk.
From S2P Require Import Sb.
From S2P Require Import Exfs.
From S2P Require Import ExfsNames.
From S2P Require Import ExfsPool.
From S2P Require Import ExfsData.
From S2P Require Import ExfsFiles.
From S2P Require Import ExfsWrite.
From S2P Require Import ExfsWriteAt.
From S2P Require Import ExfsTree.
From S2P Require Import ExfsImage.
From S2P Require Import ExfsMount.
From S2P Require Import ExfsCommit.
From S2P Require Import ExfsSuper.
From S2P Require Import ExfsPublish.
From S2P Require Import ExfsFormat.

(** * Specification *)

(** A call: an operation on files, or a commit. *)
Inductive ccall := CFile (op : fop) | CCommit.

(** One call on the last committed tree and the current one. *)
Definition crash_spec (c : ccall) (C T : Tree) (rc : Z) (out : list Z) (C' T' : Tree) : Prop :=
  match c with
  | CFile op => tree_spec op T rc out T' /\ C' = C
  | CCommit => out = [] /\ T' = T /\ (rc = EXFS_OK /\ C' = T \/ rc = EXFS_ENOSPC /\ C' = C)
  end.

Inductive crash_history : Tree -> Tree -> list (ccall * Z * list Z) -> Tree -> Tree -> Prop :=
  | ch_nil C T : crash_history C T [] C T
  | ch_cons C T c rc out C1 T1 tr C' T' : crash_spec c C T rc out C1 T1 -> crash_history C1 T1 tr C' T' -> crash_history C T ((c, rc, out) :: tr) C' T'.

(** Arguments a caller can pass; the names of new nodes are bytes. *)
Definition clegal (c : ccall) : Prop :=
  match c with
  | CFile op => flegal op /\ match op with FCreate n | FMkdir n => bytes_ok n | _ => True end
  | CCommit => True
  end.

Definition cexec {D} (c : ccall) (V : Vol D) (s : D) : Z * list Z * Vol D * D :=
  match c with
  | CFile op => fexec op V s
  | CCommit => let '(rc, V, s) := exfs_commit V s in (rc, [], V, s)
  end.

(** Calls one after the other on a device that works. *)
Inductive session {D} (d : BlkDev D) `{!BlockDevice d} `{!FailStop d} : Vol D * D -> list (ccall * Z * list Z) -> Vol D * D -> Prop :=
  | ses_nil V s : session d (V, s) [] (V, s)
  | ses_cons V s c rc out V1 s1 tr b : clegal c -> cexec c V s = (rc, out, V1, s1) -> bd_dead s1 = false ->
      session d (V1, s1) tr b -> session d (V, s) ((c, rc, out) :: tr) b.

Section Crash.
Context {D : Type} (d : BlkDev D) `{!BlockDevice d} `{!FailStop d} `{!TornDetected d}.
Implicit Types (V W : Vol D) (s : D) (f : ExfsFile) (T : Tree).

(** * Between commits *)

(** [V] was made from the committed volume [V0], which the disk still holds. *)
Record working V0 V s (T0 T : Tree) : Prop := {
  wk_saved : saved d V0 s;
  wk_tree : tree_of d V0 s T0;
  wk_sim : sim d V s T;
  wk_steady : steady V0 V;
  wk_owned : forall b, owned V0 b -> owned V b;
  wk_names : byte_tree T;
  wk_clean : v_dirty V = false -> T = T0
}.

(** Writing what the last commit does not use keeps it. *)
Lemma saved_kept V0 V s s' T0 T : working V0 V s T0 T -> (forall b, 0 <= b -> committed V b -> ~ pending (v_gm V) b -> ~ free_block d V s b -> block d s' b = block d s b) ->
  saved d V0 s' /\ tree_of d V0 s' T0.
Proof.
  intros [H1 H2 H3 H4 H5 _ _] Hb. assert (forall b, committed V0 b -> block d s' b = block d s b) as Hc.
  { intros b Hcb. pose proof (committed_steady V0 V b H4 H5 Hcb) as Hcb'. destruct (committed_closed d V s b (sm_fs _ _ _ _ H3) Hcb') as (? & ? & ?). by apply Hb. }
  destruct (saved_same d V0 s s' H1) as [K1 K2].
  - intros b Hv. by apply Hc, vital_committed.
  - apply (older_same d s); [|exact (sv_other _ _ _ H1)]. apply Hc. left. destruct (land_1 (v_gen V0)); lia.
  - split; [done|by apply K2].
Qed.

(** The generation the volume is of, and what its superblock says. *)
Lemma working_gen V0 V s T0 T : working V0 V s T0 T -> v_gen V = v_gen V0 /\ older d s (v_gen V .& 1) (v_gen V + 1).
Proof.
  intros [H1 _ _ (_ & _ & _ & _ & (_ & _ & E & _) & _) _ _ _]. split; [done|]. rewrite E. intros x Hx. pose proof (sv_super _ _ _ H1) as Hs. unfold super_at in *.
  assert (x = sb_fields V0 (v_gen V0)) as -> by congruence. destruct (sb_fields_tables d V0 (v_gen V0)) as (-> & _); [|lia].
  apply (go_geo _ _ _ (ao_gm _ _ _ (fo_alloc _ _ _ (sv_fs _ _ _ H1)))).
Qed.

(** Where a file of [V] comes from. *)
Lemma working_file V0 V s T0 T i f : working V0 V s T0 T -> in_use V i f ->
  fits (f_n f) (f_ext_cap f) /\ if f_dirty f then f_nchain f = 0 else on_disk d V s f.
Proof.
  intros [H1 _ _ (_ & _ & _ & _ & _ & Hde) _ _ _] Hi. destruct (Hde i f Hi) as [(f0 & o & Hf0 & -> & Ex)|(-> & Hn & Hfit)]; [|done].
  destruct (sv_clean _ _ _ H1 i f0 Hf0) as [Hc Hfit]. split; [done|]. change (f_dirty (moved f0 o)) with (f_dirty f0). rewrite Hc.
  pose proof (sv_itab _ _ _ H1 i f0 (proj1 Hf0)) as Hon. unfold inode_on in Hon. rewrite (proj2 Hf0) in Hon. destruct Hon as (_ & _ & _ & _ & _ & _ & Hat).
  unfold on_disk. rewrite Ex. change (chain_blocks (moved f0 o)) with (chain_blocks f0). by rewrite <- (chain_at_head d s _ _ _ Hat).
Qed.

Lemma working_committable V0 V s T0 T : working V0 V s T0 T -> v_dirty V = true -> v_gen V0 + 1 < 2 ^ 64 -> committable d V s (v_gen V0 + 1).
Proof.
  intros Hw Hd Hg. destruct (working_gen V0 V s T0 T Hw) as [Eg Ho]. pose proof (sv_gen _ _ _ (wk_saved _ _ _ _ _ Hw)) as Hg0.
  pose proof (wk_steady _ _ _ _ _ Hw) as (_ & _ & Et & (_ & _ & _ & Eb & _) & _ & _). split.
  - split; [apply Hw|done|]. intros i f Hi. by destruct (working_file V0 V s T0 T i f Hw Hi).
  - apply Hw.
  - rewrite Et, Eb. apply (sv_size _ _ _ (wk_saved _ _ _ _ _ Hw)).
  - lia.
  - intros i f Hi. split; [|by destruct (working_file V0 V s T0 T i f Hw Hi)]. apply (wk_names _ _ _ _ _ Hw).
    apply (tree_node d V s T (cname f) (sm_ns _ _ _ _ (wk_sim _ _ _ _ _ Hw)) (sm_tree _ _ _ _ (wk_sim _ _ _ _ _ Hw))). exists (f_type f). destruct Hi. by exists i, f.
  - by rewrite <- Eg.
Qed.

(** A committed volume is where work starts. *)
Lemma working_start V s T : saved d V s -> sim d V s T -> byte_tree T -> working V V s T T.
Proof. intros H1 H2 H3. split; try done; [apply H2|apply steady_refl]. Qed.

(** ** Marks *)

Lemma tree_unique V s T T' : tree_of d V s T -> tree_of d V s T' -> T = T'.
Proof.
  intros [F1 D1] [F2 D2]. apply map_eq. intros n. destruct (T !! n) as [[|c]|] eqn:E.
  - symmetry. by apply D2, D1.
  - symmetry. by apply F2, F1.
  - destruct (T' !! n) as [[|c]|] eqn:E'; [|by rewrite (proj2 (F1 n c) (proj1 (F2 n c) E')) in E|done]. by rewrite (proj2 (D1 n) (proj1 (D2 n) E')) in E.
Qed.

Lemma new_marks t V n : let '(rc, V') := exfs_new t V n in rc = EXFS_OK -> v_dirty V' = true.
Proof.
  unfold exfs_new. destruct (negb _); [done|]. destruct (v_broken V); [done|]. destruct (negb _); [done|]. destruct (find V n); [done|]. destruct (negb _); [done|].
  unfold make_node. by destruct (make_in _ _ _).
Qed.

Lemma delete_marks V n : let '(rc, V') := exfs_delete V n in rc = EXFS_OK -> v_dirty V' = true.
Proof.
  unfold exfs_delete. destruct (negb _); [done|]. destruct (v_broken V); [done|]. destruct (find V n) as [i|]; [|done]. destruct (_ && _); [done|].
  destruct (defer_file V i) as [rc V1]. destruct (Z.eqb_spec rc EXFS_OK); cbn [negb]; [done|by intros].
Qed.

Lemma take_all_fails fuel need : forall got fresh V s, match (take_all fuel got need fresh V s).1.1 with inl rc => rc <> EXFS_OK | inr _ => True end.
Proof.
  induction fuel as [|fuel IH]; intros got fresh V s; cbn [take_all]; destruct (negb _); try done. destruct (_ =? EXFS_MAX_EXT); [by destruct (release_fresh _ _ _)|].
  destruct (take_extent _ _ _) as [[[l e] V1] s1]. destruct (l =? 0); [by destruct (release_fresh _ _ _)|apply IH].
Qed.

Lemma take_fresh_fails V need s : match (take_fresh V need s).1.1 with inl rc => rc <> EXFS_OK | inr _ => True end.
Proof. unfold take_fresh. pose proof (take_all_fails (S (S (Z.to_nat EXFS_MAX_EXT))) need 0 [] V s) as H. by destruct (take_all _ _ _ _ _ _) as [[[rc|l] V1] s1]. Qed.

Lemma write_marks V n buf len s : let '(rc, V', _) := exfs_write V n buf len s in rc = EXFS_OK -> v_dirty V' = true.
Proof.
  unfold exfs_write. destruct (negb _); [done|]. destruct (v_broken V); [done|]. destruct (find V n) as [i|]; [|done]. destruct (negb _); [done|].
  pose proof (take_fresh_fails V (u64 (len + EXFS_BLOCK - 1) / EXFS_BLOCK) s) as H. destruct (take_fresh V _ s) as [[[rc|fresh] V1] s1]; [done|]. clear H.
  destruct (_ <? _); [by destruct (release_fresh _ _ _)|]. destruct (pool_reserve V1 _) as [[[rc off] cap] V2]. destruct (negb _); [by destruct (release_fresh _ _ _)|].
  destruct (write_runs _ _ _ _ _ _) as [ok s2]. destruct (negb ok); [by destruct (release_fresh _ _ _)|done].
Qed.

Lemma write_at_marks V n off buf len s : len <> 0 -> let '(rc, V', _) := exfs_write_at V n off buf len s in rc = EXFS_OK -> v_dirty V' = true.
Proof.
  intros Hl. unfold exfs_write_at. destruct (negb _); [done|]. destruct (v_broken V); [done|]. destruct (find V n) as [i|]; [|done]. destruct (negb _); [done|].
  rewrite (proj2 (Z.eqb_neq len 0)) by done. destruct (_ <? off); [done|]. destruct (gmap_free_total _ <? _); [done|]. destruct (EXFS_DEFER_MAX <? _); [done|].
  match goal with |- context [take_fresh V ?k s] => pose proof (take_fresh_fails V k s) as H; destruct (take_fresh V k s) as [[[rc|fresh] V1] s1]; [done|]; clear H end.
  destruct (new_list _ _ _ _ _) as [st|]; [|by destruct (release_fresh _ _ _)]. destruct (pool_reserve V1 _) as [[[rc off2] cap] V2]. destruct (negb _); [by destruct (release_fresh _ _ _)|].
  destruct (merge_loop _ _ _ _ _ _ _ _ _ _) as [ok s2]. destruct (negb ok); [by destruct (release_fresh _ _ _)|done].
Qed.

(** A call that leaves the volume unmarked changes nothing. *)
Lemma op_marks V s T op rc out V' s' T' : sim d V s T -> flegal op -> fexec op V s = (rc, out, V', s') -> tree_spec op T rc out T' -> sim d V' s' T' -> v_dirty V' = false -> T' = T.
Proof.
  intros HS Hl E Ht HS' Hd. destruct op as [n|n|n|n buf|n off buf|n off cap|n|n]; cbn [fexec tree_spec] in *.
  - pose proof (new_marks EXFS_TYPE_FILE V n) as H. change (exfs_create V n) with (exfs_new EXFS_TYPE_FILE V n) in E. destruct (exfs_new _ V n) as [rc1 V1]. injection E as -> <- -> ->.
    destruct Ht as [_ [(-> & _)|[-> _]]]; [|done]. by rewrite H in Hd.
  - pose proof (new_marks EXFS_TYPE_DIR V n) as H. change (exfs_mkdir V n) with (exfs_new EXFS_TYPE_DIR V n) in E. destruct (exfs_new _ V n) as [rc1 V1]. injection E as -> <- -> ->.
    destruct Ht as [_ [(-> & _)|[-> _]]]; [|done]. by rewrite H in Hd.
  - pose proof (delete_marks V n) as H. destruct (exfs_delete V n) as [rc1 V1]. injection E as -> <- -> ->. destruct Ht as [_ [(-> & _)|[-> _]]]; [|done]. by rewrite H in Hd.
  - pose proof (write_marks V n buf (lenZ buf) s) as H. destruct (exfs_write V n buf _ s) as [[rc1 V1] s1]. injection E as -> <- -> ->.
    destruct Ht as [_ [(-> & _)|[-> _]]]; [|done]. by rewrite H in Hd.
  - destruct Ht as [_ [(_ & -> & _)|[(-> & c & Hc & ->)|[-> _]]]]; try done. destruct (decide (buf = [])) as [->|Hne].
    + unfold patched. rewrite bool_decide_eq_true_2 by done. by apply insert_id.
    + pose proof (write_at_marks V n off buf (lenZ buf) s ltac:(destruct buf; [done|cbn [length]; lia])) as H. destruct (exfs_write_at V n off buf _ s) as [[rc1 V1] s1]. injection E as -> <- -> ->.
      by rewrite H in Hd.
  - apply Ht.
  - apply Ht.
  - apply Ht.
Qed.

(** * Calls *)

Lemma byte_tree_step op T rc out T' : tree_spec op T rc out T' -> clegal (CFile op) -> byte_tree T -> byte_tree T'.
Proof.
  intros Ht [_ Hl] Hb. assert (forall n x, bytes_ok n -> byte_tree (<[n := x]> T)) as Hi.
  { intros n x Hn m [y Hm]. destruct (decide (m = n)) as [->|Hne]; [done|]. rewrite lookup_insert_ne in Hm by done. by apply Hb. }
  assert (forall n x c, T !! n = Some c -> byte_tree (<[n := x]> T)) as Hc by (intros n x c Hn; apply Hi, Hb; by exists c).
  destruct op; cbn [tree_spec] in Ht.
  - destruct Ht as [_ [(_ & _ & _ & _ & ->)|[-> _]]]; [by apply Hi|done].
  - destruct Ht as [_ [(_ & _ & _ & _ & ->)|[-> _]]]; [by apply Hi|done].
  - destruct Ht as [_ [(_ & _ & _ & ->)|[-> _]]]; [|done]. intros m [y [_ Hm]%lookup_delete_Some]. apply Hb. by exists y.
  - destruct Ht as [_ [(_ & c & E & ->)|[-> _]]]; [by apply (Hc _ _ (TFile c))|done].
  - destruct Ht as [_ [(_ & -> & _)|[(_ & c & E & ->)|[-> _]]]]; [done|by apply (Hc _ _ (TFile c))|done].
  - by destruct Ht as [-> _].
  - by destruct Ht as [-> _].
  - by destruct Ht as [-> _].
Qed.

(** What the disk holds after a call, also one during which the device stopped. *)
Definition recoverable (c : ccall) s (C T : Tree) : Prop := exists V0, saved d V0 s /\ (tree_of d V0 s C \/ (c = CCommit /\ tree_of d V0 s T)).

Lemma file_call V0 V s C T op rc out V' s' : working V0 V s C T -> clegal (CFile op) -> fexec op V s = (rc, out, V', s') ->
  recoverable (CFile op) s' C T /\ (bd_dead s' = false -> exists T', tree_spec op T rc out T' /\ working V0 V' s' C T').
Proof.
  intros Hw [Hl Hby] E. pose proof (wk_sim _ _ _ _ _ Hw) as HS. pose proof (step_any d V s T HS op Hl) as Hp. rewrite E in Hp. destruct Hp as [Hsafe Hlive].
  destruct (saved_kept V0 V s s' C T Hw) as [K1 K2]; [intros b Hb _ Hp Hf; by apply Hsafe|]. split; [exists V0; split; [done|by left]|].
  intros Ha. destruct (Hlive Ha) as (T' & Ht & HS' & Hst & Ho). exists T'. split; [done|]. destruct Hw as [W1 W2 W3 W4 W5 W6 W7]. split; try done.
  - by apply (steady_trans V0 V).
  - intros b Hb. by apply Ho, W5.
  - by apply (byte_tree_step op T rc out).
  - intros Hd. rewrite (op_marks V s T op rc out V' s' T' HS Hl E Ht HS' Hd). apply W7. destruct Hst as (_ & _ & _ & _ & (_ & _ & _ & Hm) & _).
    destruct (v_dirty V); [|done]. by rewrite Hm in Hd.
Qed.

Lemma itab_apart g : forall b, b ∈ itab_blocks g -> b ∉ itab_blocks (g + 1).
Proof.
  intros b H1%elem_of_seqZ H2%elem_of_seqZ. pose proof (land_1_succ g) as E. unfold itab_area in *. destruct (land_1 g) as [E1|E1]; rewrite E1 in *.
  - assert ((g + 1) .& 1 = 1) as E2 by lia. rewrite E2 in H2. cbn in H1, H2. unfold EXFS_ITAB_AREA1, EXFS_ITAB_AREA0, EXFS_ITAB_BLOCKS in *. lia.
  - assert ((g + 1) .& 1 = 0) as E2 by lia. rewrite E2 in H2. cbn in H1, H2. unfold EXFS_ITAB_AREA1, EXFS_ITAB_AREA0, EXFS_ITAB_BLOCKS in *. lia.
Qed.

(** What the last commit needs is not among the blocks the next one writes. *)
Lemma vital_untouched V0 V s C T b : working V0 V s C T -> vital V0 b -> ~ touched V (v_gen V0 + 1) b /\ 0 <= b /\ ~ free_block d V s b.
Proof.
  intros Hw Hv. pose proof (wk_saved _ _ _ _ _ Hw) as H0. pose proof (sm_fs _ _ _ _ (wk_sim _ _ _ _ _ Hw)) as Hf.
  destruct (committed_closed d V s b Hf) as (K1 & K2 & K3); [by apply (committed_steady V0 V b (wk_steady _ _ _ _ _ Hw) (wk_owned _ _ _ _ _ Hw)), vital_committed|].
  split; [|done]. intros [?|Ht]; [done|]. pose proof (land_1_succ (v_gen V0)) as L1. pose proof (land_1 (v_gen V0)) as L2.
  assert (b ∈ itab_blocks (v_gen V0 + 1) -> 2 <= b < 18) as Hit by (intros Hin%elem_of_seqZ; destruct (itab_area_cases (v_gen V0 + 1)); lia).
  destruct Hv as [->|[Hv|[Hv|(g & Hg & Eb)]]].
  - destruct Ht as [Ht%Hit|Ht]; lia.
  - pose proof Hv as Hr%elem_of_seqZ. destruct Ht as [Ht|Ht]; [by apply (itab_apart (v_gen V0) b)|]. destruct (itab_area_cases (v_gen V0)); lia.
  - destruct (owned_block d V0 s b (sv_fs _ _ _ H0) Hv) as (_ & Hr & _). destruct Ht as [Ht%Hit|Ht]; lia.
  - pose proof (go_geo _ _ _ (ao_gm _ _ _ (fo_alloc _ _ _ (sv_fs _ _ _ H0)))) as G. rewrite (slot_block_eq d (v_gm V0) g _ G Hg) in Eb. pose proof (gg_gb _ _ G).
    assert (18 <= b) by (destruct (gg_slot _ _ G g Hg), Hg; destruct (Z.eqb_spec g 0); nia). destruct Ht as [Ht%Hit|Ht]; lia.
Qed.

Lemma commit_call V0 V s C T rc V' s' : working V0 V s C T -> v_gen V0 + 1 < 2 ^ 64 -> exfs_commit V s = (rc, V', s') ->
  recoverable CCommit s' C T /\ bd_ok s' /\ (bd_dead s' = false -> exists C' V0', crash_spec CCommit C T rc [] C' T /\ working V0' V' s' C' T /\ v_gen V0' <= v_gen V0 + 1).
Proof.
  intros Hw Hg E. pose proof (wk_sim _ _ _ _ _ Hw) as [N Hf [Hs Hx] Hact HT]. pose proof (wk_saved _ _ _ _ _ Hw) as H0. destruct (v_dirty V) eqn:Hd.
  2: { unfold exfs_commit in E. destruct Hact as [Hm Hb]. rewrite Hm, Hb, Hd in E. cbn [negb] in E. injection E as <- <- <-. pose proof (wk_clean _ _ _ _ _ Hw Hd) as ->.
    split; [exists V0; split; [done|left; apply Hw]|]. split; [done|]. intros _. exists C, V0. split; [split; [done|split; [done|by left]]|]. split; [done|lia]. }
  pose proof (exfs_commit_spec d V s (v_gen V0 + 1) (working_committable V0 V s C T Hw Hd Hg) Hact Hs Hx) as H. rewrite E in H. destruct H as (Hs' & Hfr & Hpub & Hlive).
  pose proof (land_1_succ (v_gen V0)) as L1. pose proof (land_1 (v_gen V0)) as L2. assert (1 - (v_gen V0 .& 1) = (v_gen V0 + 1) .& 1) as L3 by lia.
  assert (older d s' ((v_gen V0 + 1) .& 1) (v_gen V0) -> saved d V0 s' /\ tree_of d V0 s' C) as Hold.
  { intros Ho. destruct (saved_same d V0 s s' H0) as [K1 K2].
    - intros b Hv. destruct (vital_untouched V0 V s C T b Hw Hv) as (? & ? & ?). by apply Hfr.
    - by rewrite L3.
    - split; [done|]. apply K2, Hw. }
  split.
  - destruct Hpub as [Hp|[Hp|(V3 & S1 & S2 & S3)]].
    + exists V0. destruct Hold as [K1 K2]; [|split; [done|by left]]. apply (older_same d s); [done|]. rewrite <- L3. exact (sv_other _ _ _ H0).
    + exists V0. destruct Hold as [K1 K2]; [|split; [done|by left]]. intros x Hx'. by destruct (Hp x).
    + exists V3. split; [done|]. right. split; [done|by apply S3].
  - split; [done|]. intros Ha. destruct (Hlive Ha) as [(-> & S1 & S2 & S3 & S4 & S5 & S6)|(-> & -> & -> & _)].
    + exists T, V'. split; [split; [done|split; [done|by left]]|]. split; [|lia]. apply working_start; [done| |apply Hw]. destruct Hact as [A1 A2].
      split; [apply S1|apply S1|done|split; congruence|by apply S6].
    + exists C, V0. split; [split; [done|split; [done|by right]]|]. split; [done|lia].
Qed.

(** Mounting what the disk holds. *)
Lemma mount_recovers V0 s T W : saved d V0 s -> tree_of d V0 s T -> bd_ok s -> bd_dead s = false -> static W ->
  exists V' s', exfs_mount W (Some d) s = (EXFS_OK, V', s') /\ saved d V' s' /\ sim d V' s' T /\ v_gen V' = v_gen V0 /\ same_disk d s s'.
Proof.
  intros H0 HT Hs Hx HW. destruct (mount_saved d V0 s W H0 Hs HW) as (V' & s' & E & K1 & K2 & K3 & K4 & K5 & _ & K7 & K8). exists V', s'. split_and!; try done.
  split; [apply K1|apply K1|split; [done|congruence]|done|by apply K8].
Qed.

(** The same disk, after the power was cut. *)
Lemma saved_power V s s' T : saved d V s -> tree_of d V s T -> same_disk d s s' -> saved d V s' /\ tree_of d V s' T.
Proof.
  intros H HT Hsame. assert (forall b, committed V b -> block d s' b = block d s b) as Hb.
  { intros b Hc. apply Hsame. by destruct (committed_closed d V s b (sv_fs _ _ _ H) Hc). }
  destruct (saved_same d V s s' H) as [K1 K2].
  - intros b Hv. by apply Hb, vital_committed.
  - apply (older_same d s); [|exact (sv_other _ _ _ H)]. apply Hb. left. destruct (land_1 (v_gen V)); lia.
  - split; [done|by apply K2].
Qed.

(** * Sessions *)

Lemma session_working a tr b : session d a tr b -> forall V0 C T, working V0 a.1 a.2 C T -> v_gen V0 + lenZ tr < 2 ^ 64 ->
  exists V1 C' T', crash_history C T tr C' T' /\ working V1 b.1 b.2 C' T' /\ v_gen V1 <= v_gen V0 + lenZ tr.
Proof.
  induction 1 as [V s|V s c rc out V1 s1 tr b Hl E Ha H IH]; cbn [fst snd length] in *; intros V0 C T Hw Hg.
  { exists V0, C, T. split_and!; [constructor|done|lia]. }
  destruct c as [op|]; cbn [cexec] in E.
  - destruct (file_call V0 V s C T op rc out V1 s1 Hw Hl E) as [_ Hlive]. destruct (Hlive Ha) as (T1 & Ht & Hw1).
    destruct (IH V0 C T1 Hw1 ltac:(lia)) as (V2 & C' & T' & K1 & K2 & K3). exists V2, C', T'. split_and!; [|done|lia]. by apply (ch_cons C T (CFile op) rc out C T1).
  - destruct (exfs_commit V s) as [[rc1 V2] s2] eqn:Ec. injection E as <- <- <- <-. destruct (commit_call V0 V s C T rc1 V2 s2 Hw ltac:(lia) Ec) as (_ & _ & Hlive).
    destruct (Hlive Ha) as (C1 & V0' & Ht & Hw1 & Hg1). destruct (IH V0' C1 T Hw1 ltac:(lia)) as (V3 & C' & T' & K1 & K2 & K3). exists V3, C', T'.
    split_and!; [|done|lia]. by apply (ch_cons C T CCommit rc1 [] C1 T).
Qed.

(** C3: crash safety. Start from a committed volume and run any sequence of
    file operations and commits; the answers are those of the same operations on
    a finite tree, of which a commit makes the current one durable. If then the
    power fails during the next call, at whichever write of it, or after it, the
    next [exfs_mount], whatever memory holds by then, succeeds, writes nothing,
    and gives a volume that satisfies all invariants and holds exactly the last
    committed tree; only while a commit runs it may be the tree being committed. *)
Theorem exfs_crash_safe V s T tr V1 s1 c : saved d V s -> sim d V s T -> byte_tree T -> session d (V, s) tr (V1, s1) -> clegal c -> v_gen V + lenZ tr + 1 < 2 ^ 64 ->
  exists C T1, crash_history T T tr C T1 /\ sim d V1 s1 T1 /\
    let '(_, _, _, s2) := cexec c V1 s1 in
    forall s3 W, same_disk d s2 s3 -> bd_ok s3 -> bd_dead s3 = false -> static W ->
    exists V3 s4 T3, exfs_mount W (Some d) s3 = (EXFS_OK, V3, s4) /\ same_disk d s3 s4 /\ saved d V3 s4 /\ sim d V3 s4 T3 /\ (T3 = C \/ (c = CCommit /\ T3 = T1)).
Proof.
  intros H HS Hb Hses Hl Hg. destruct (session_working _ _ _ Hses V T T (working_start V s T H HS Hb) ltac:(lia)) as (V0 & C & T1 & K1 & K2 & K3). cbn [fst snd] in *.
  exists C, T1. split; [done|]. split; [apply K2|]. destruct (cexec c V1 s1) as [[[rc out] V2] s2] eqn:E.
  assert (recoverable c s2 C T1) as (V4 & R1 & R2).
  { destruct c as [op|]; cbn [cexec] in E; [by destruct (file_call V0 V1 s1 C T1 op rc out V2 s2 K2 Hl E)|].
    destruct (exfs_commit V1 s1) as [[rc1 V5] s5] eqn:Ec. injection E as <- <- <- <-. by destruct (commit_call V0 V1 s1 C T1 rc1 V5 s5 K2 ltac:(lia) Ec). }
  intros s3 W Hsame Hs3 Hx3 HW. assert (exists T3, tree_of d V4 s2 T3 /\ (T3 = C \/ c = CCommit /\ T3 = T1)) as (T3 & HT3 & Hor) by (destruct R2 as [R2|[Hc R2]]; [exists C|exists T1]; (split; [done|by (left + right)])).
  destruct (saved_power V4 s2 s3 T3 R1 HT3 Hsame) as [P1 P2]. destruct (mount_recovers V4 s3 T3 W P1 P2 Hs3 Hx3 HW) as (V3 & s4 & M1 & M2 & M3 & _ & M5).
  exists V3, s4, T3. by split_and!.
Qed.
(** * Leaving a volume *)

(** C4: unmount and mount. After any sequence of calls on a committed volume,
    an unmount on a device that works either commits and leaves the volume
    unmounted, and then [exfs_mount], from whatever memory holds, gives the very
    tree the calls had made; or it reports that the chains do not fit, and the
    volume stays mounted with that tree. *)
Theorem exfs_remount V s T tr V1 s1 : saved d V s -> sim d V s T -> byte_tree T -> session d (V, s) tr (V1, s1) -> v_gen V + lenZ tr + 1 < 2 ^ 64 ->
  exists C T1, crash_history T T tr C T1 /\ sim d V1 s1 T1 /\
    let '(rc, V2, s2) := exfs_unmount V1 s1 in
    bd_dead s2 = false ->
    (rc = EXFS_OK /\ v_mounted V2 = false /\ forall W, static W ->
      exists V3 s3, exfs_mount W (Some d) s2 = (EXFS_OK, V3, s3) /\ same_disk d s2 s3 /\ saved d V3 s3 /\ sim d V3 s3 T1) \/
    (rc = EXFS_ENOSPC /\ v_mounted V2 = true /\ sim d V2 s2 T1).
Proof.
  intros H HS Hb Hses Hg. destruct (session_working _ _ _ Hses V T T (working_start V s T H HS Hb) ltac:(lia)) as (V0 & C & T1 & K1 & K2 & K3). cbn [fst snd] in *.
  exists C, T1. split; [done|]. split; [apply K2|]. unfold exfs_unmount. rewrite (proj1 (sm_active _ _ _ _ (wk_sim _ _ _ _ _ K2))). cbn [negb].
  destruct (exfs_commit V1 s1) as [[rc V2] s2] eqn:E. pose proof (proj2 (proj2 (commit_call V0 V1 s1 C T1 rc V2 s2 K2 ltac:(lia) E))) as Hl.
  assert (bd_dead s2 = false -> (rc = EXFS_OK /\ forall W, static W ->
      exists V3 s3, exfs_mount W (Some d) s2 = (EXFS_OK, V3, s3) /\ same_disk d s2 s3 /\ saved d V3 s3 /\ sim d V3 s3 T1) \/ (rc = EXFS_ENOSPC /\ v_mounted V2 = true /\ sim d V2 s2 T1)) as Hr.
  { intros Ha. destruct (Hl Ha) as (C' & V0' & (_ & _ & Hor) & [W1 W2 W3 _ _ _ _] & _). destruct Hor as [[-> ->]|[-> ->]]; [left|right].
    - split; [done|]. intros W HW. destruct (sm_dev _ _ _ _ W3) as [Hs2 _]. destruct (mount_recovers V0' s2 T1 W W1 W2 Hs2 Ha HW) as (V3 & s3 & ? & ? & ? & _ & ?).
      by exists V3, s3.
    - split; [done|]. split; [apply W3|done]. }
  destruct (Z.eqb_spec rc EXFS_OK) as [->|Hne]; cbn [negb]; intros Ha; destruct (Hr Ha) as [[Hrc Hm]|(Hrc & Hm & Hs)].
  - left. by split_and!.
  - discriminate Hrc.
  - by destruct Hne.
  - right. by split_and!.
Qed.
End Crash.

(** * Witnesses: a RAM disk that stops *)

(** A RAM disk with a fuse: with [Some k] left the [k]-th write from now is lost
    and nothing is written any more; with [None] it never stops. *)
Record Fused := mkFused { fz_ram : RamDisk; fz_left : option nat }.

Definition fz_read (z : Fused) (lba n : Z) (buf : list Z) : Z * list Z * Fused :=
  let '(rc, b, r) := rd_read (fz_ram z) lba n buf in (rc, b, mkFused r (fz_left z)).

Definition fz_write (z : Fused) (lba n : Z) (buf : list Z) : Z * Fused :=
  match fz_left z with
  | None => let '(rc, r) := rd_write (fz_ram z) lba n buf in (rc, mkFused r None)
  | Some (S (S k)) => let '(rc, r) := rd_write (fz_ram z) lba n buf in (rc, mkFused r (Some (S k)))
  | Some _ => (BLK_E_IO, mkFused (fz_ram z) (Some 0%nat))
  end.

Definition fz_dev : BlkDev Fused := mkDev (Some (mkOps (Some fz_read) (Some fz_write) None)) 4096 34.

(** The contract, for devices in a set [P] of fuses that writing does not leave. *)
Section Fuse.
Context (P : option nat -> Prop) (HP : forall k, P (Some k) -> P (Some (Nat.pred k)) /\ P (Some 0%nat)).

#[local] Program Instance fz_block_device : BlockDevice fz_dev := {|
  bd_ok z := bd_ok (d := demo_dev) (fz_ram z) /\ P (fz_left z);
  bd_byte z := bd_byte (d := demo_dev) (fz_ram z)
|}.
Next Obligation. apply (bd_geometry (d := demo_dev)). Qed.
Next Obligation. intros z a [Hz _]. by apply (bd_byte_range (d := demo_dev)). Qed.
Next Obligation.
  intros z lba n buf [Hz Hp] Hl Hn Hr Hlen Hok. pose proof (bd_read (d := demo_dev) (fz_ram z) lba n buf Hz Hl Hn Hr Hlen Hok) as H.
  cbn [driver ops fz_dev demo_dev rd_dev rd_ops op_read] in *. unfold fz_read. destruct (rd_read (fz_ram z) lba n buf) as [[rc b] r]. destruct H as (? & ? & ? & ? & ?). by split_and!.
Qed.
Next Obligation.
  intros z lba n buf [Hz Hp] Hl Hn Hr Hlen Hok. pose proof (bd_write (d := demo_dev) (fz_ram z) lba n buf Hz Hl Hn Hr Hlen Hok) as H.
  cbn [driver ops fz_dev demo_dev rd_dev rd_ops op_write] in *. unfold fz_write. destruct (rd_write (fz_ram z) lba n buf) as [rc r]. destruct H as (? & ? & ?).
  assert (forall x, x = fz_left z \/ x = Nat.pred <$> fz_left z \/ (exists k, fz_left z = Some k) /\ x = Some 0%nat -> P x) as HP'.
  { intros x. destruct (fz_left z) as [k|]; [destruct (HP k Hp)|]; (intros [->|[->|[[? ?] ->]]]; done). }
  destruct (fz_left z) as [[|[|k]]|]; cbn [fz_ram fz_left]; (split; [split; [done|apply HP'; eauto]|split; done]).
Qed.

#[local] Program Instance fz_failstop : FailStop fz_dev := {| bd_dead z := bool_decide (fz_left z = Some 0%nat) |}.
Next Obligation. intros z lba n buf [Hz Hp]. by split_and!. Qed.
Next Obligation.
  intros z lba n buf [Hz Hp]. cbn [driver ops fz_dev op_write]. unfold fz_write. destruct (fz_left z) as [[|[|k]]|] eqn:E; try destruct (rd_write _ _ _ _) as [rc r] eqn:Ew; cbn [fz_left].
  - rewrite !bool_decide_eq_true_2 by done. split; [by split|done].
  - rewrite bool_decide_eq_false_2 by done. by left.
  - rewrite !bool_decide_eq_false_2 by done. right. unfold rd_write in Ew. by injection Ew as <- _.
  - rewrite !bool_decide_eq_false_2 by done. right. unfold rd_write in Ew. by injection Ew as <- _.
Qed.

Lemma fz_block z b : block fz_dev z b = block demo_dev (fz_ram z) b.
Proof. reflexivity. Qed.

#[local] Instance fz_torn : TornDetected fz_dev.
Proof.
  intros z lba n buf b [Hz Hp] Hl Hn Hr H4 Hlen Hb Hlb. pose proof (torn_detected (d := demo_dev) (fz_ram z) lba n buf b Hz Hl Hn Hr H4 Hlen Hb Hlb) as H.
  cbv zeta in *. cbn [driver ops fz_dev demo_dev rd_dev rd_ops op_write] in *. unfold fz_write. destruct (rd_write (fz_ram z) lba n buf) as [rc r].
  rewrite !fz_block. destruct (fz_left z) as [[|[|k]]|]; cbn [snd fz_ram] in *; [by left|by left|exact H|exact H].
Qed.

(** The volume that [exfs_format] makes. *)
Lemma fz_volume : P None -> let '(rc, V, z) := exfs_format demo_static (Some fz_dev) (mkFused demo_ram None) in
  (bd_ok z /\ (bd_dead z = false -> rc = EXFS_OK /\ saved fz_dev V z /\ sim fz_dev V z root_tree /\ v_gen V = 1)).
Proof.
  intros Hp. apply (format_spec fz_dev demo_static (mkFused demo_ram None)); [apply demo_static_ok|by split; [apply demo_ram_ok|]|done|apply demo_formattable|].
  intros x Hx. by apply (demo_older x).
Qed.

(** The same medium with another fuse. *)
Lemma fz_again V z k : P k -> k <> Some 0%nat -> saved fz_dev V z -> sim fz_dev V z root_tree ->
  let z' := mkFused (fz_ram z) k in saved fz_dev V z' /\ sim fz_dev V z' root_tree.
Proof.
  intros Hp Hk Hv [A1 A2 [A3 _] A4 A5] z'. destruct (saved_power fz_dev V z z' root_tree Hv A5) as [B1 B2]; [done|]. split; [done|].
  split; [done|apply B1|split; [split; [apply A3|done]|by apply bool_decide_eq_false_2]|done|done].
Qed.
End Fuse.

#[local] Instance fz_any : BlockDevice fz_dev := fz_block_device (fun _ => True) (fun _ _ => conj I I).
#[local] Instance fz_any_stop : FailStop fz_dev := fz_failstop (fun _ => True) (fun _ _ => conj I I).
#[local] Instance fz_any_torn : TornDetected fz_dev := fz_torn (fun _ => True) (fun _ _ => conj I I).

(** A new volume on a disk that will stop after [k] writes. *)
Lemma demo_saved k : k <> Some 0%nat -> exists V z, fz_left z = k /\ saved fz_dev V z /\ sim fz_dev V z root_tree /\ v_gen V = 1.
Proof.
  intros Hk. assert (forall k, (fun x => x = @None nat) (Some k) -> (fun x => x = @None nat) (Some (Nat.pred k)) /\ (fun x => x = @None nat) (Some 0%nat)) as HP by done.
  pose proof (fz_volume (fun x => x = None) HP eq_refl) as H1. pose proof (fz_volume (fun _ => True) (fun _ _ => conj I I) I) as H2.
  destruct (exfs_format demo_static (Some fz_dev) _) as [[rc V] z]. destruct H1 as [[_ Hz] _]. destruct H2 as [_ H2].
  destruct (H2 ltac:(cbn; by rewrite Hz)) as (_ & S1 & S2 & S3). destruct (fz_again (fun _ => True) (fun _ _ => conj I I) V z k I Hk S1 S2) as [T1 T2].
  by exists V, (mkFused (fz_ram z) k).
Qed.

Lemma demo_session V z : bd_dead z = false ->
  let '(rc, V1) := exfs_create V demo_name in session fz_dev (V, z) [(CFile (FCreate demo_name), rc, [])] (V1, z).
Proof.
  intros Hz. destruct (exfs_create V demo_name) as [rc V1] eqn:E. eapply (ses_cons _ V z (CFile (FCreate demo_name)) rc [] V1 z); [|cbn; by rewrite E|done|constructor].
  split; [apply demo_legal|]. unfold demo_name. repeat constructor; lia.
Qed.

Lemma demo_commit V z V1 rc : saved fz_dev V z -> sim fz_dev V z root_tree -> v_gen V = 1 -> session fz_dev (V, z) [(CFile (FCreate demo_name), rc, [])] (V1, z) ->
  let '(_, _, _, z2) := cexec CCommit V1 z in bd_ok (d := fz_dev) z2.
Proof.
  intros H1 H2 H3 Hses. destruct (session_working fz_dev _ _ _ Hses V root_tree root_tree (working_start fz_dev V z root_tree H1 H2 root_names) ltac:(rewrite H3; cbn; lia)) as (V0 & C & T & _ & K & L).
  cbn [fst snd length cexec] in *. destruct (exfs_commit V1 z) as [[rc2 V2] z2] eqn:E. by destruct (commit_call fz_dev V0 V1 z C T rc2 V2 z2 K ltac:(lia) E) as (_ & ? & _).
Qed.

(** A file is created, and the disk stops at the third write of the commit. *)
Lemma exfs_crash_safe_witness : exists V z, saved fz_dev V z /\ let '(rc, V1) := exfs_create V demo_name in
  exists C T1, crash_history root_tree root_tree [(CFile (FCreate demo_name), rc, [])] C T1 /\
  let '(_, _, _, z2) := cexec CCommit V1 z in
  exists V3 z4 T3, exfs_mount demo_static (Some fz_dev) (mkFused (fz_ram z2) None) = (EXFS_OK, V3, z4) /\ sim fz_dev V3 z4 T3 /\ (T3 = C \/ T3 = T1).
Proof.
  destruct (demo_saved (Some 3%nat) ltac:(done)) as (V & z & Hk & H1 & H2 & H3). exists V, z. split; [exact H1|]. destruct (sm_dev _ _ _ _ H2) as [_ Hz].
  pose proof (demo_session V z Hz) as Hses. destruct (exfs_create V demo_name) as [rc V1].
  destruct (exfs_crash_safe fz_dev V z root_tree _ V1 z CCommit H1 H2 root_names Hses I ltac:(rewrite H3; cbn; lia)) as (C & T1 & K1 & K2 & K3).
  exists C, T1. split; [exact K1|]. pose proof (demo_commit V z V1 rc H1 H2 H3 Hses) as Hok. destruct (cexec CCommit V1 z) as [[[rc2 out] V2] z2].
  destruct (K3 (mkFused (fz_ram z2) None) demo_static) as (V3 & z4 & T3 & M1 & _ & _ & M4 & M5); [intros b Hb; reflexivity| |reflexivity|apply demo_static_ok|].
  - exact Hok.
  - exists V3, z4, T3. split; [exact M1|]. split; [exact M4|]. destruct M5 as [M5|[_ M5]]; [left; exact M5|right; exact M5].
Defined.

(** The same on a disk that does not stop. *)
Lemma exfs_remount_witness : exists V z, saved fz_dev V z /\ let '(rc, V1) := exfs_create V demo_name in
  exists C T1, crash_history root_tree root_tree [(CFile (FCreate demo_name), rc, [])] C T1 /\
  let '(rc2, V2, z2) := exfs_unmount V1 z in
  bd_dead (d := fz_dev) z2 = false -> rc2 = EXFS_OK /\ (exists V3 z3, exfs_mount demo_static (Some fz_dev) z2 = (EXFS_OK, V3, z3) /\ sim fz_dev V3 z3 T1) \/
    rc2 = EXFS_ENOSPC /\ sim fz_dev V2 z2 T1.
Proof.
  destruct (demo_saved None ltac:(done)) as (V & z & Hk & H1 & H2 & H3). exists V, z. split; [exact H1|]. destruct (sm_dev _ _ _ _ H2) as [_ Hz].
  pose proof (demo_session V z Hz) as Hses. destruct (exfs_create V demo_name) as [rc V1].
  destruct (exfs_remount fz_dev V z root_tree _ V1 z H1 H2 root_names Hses ltac:(rewrite H3; cbn; lia)) as (C & T1 & K1 & K2 & K3).
  exists C, T1. split; [exact K1|]. destruct (exfs_unmount V1 z) as [[rc2 V2] z2]. intros Ha. destruct (K3 Ha) as [(M1 & _ & M3)|(M1 & _ & M3)].
  - left. split; [exact M1|]. destruct (M3 demo_static (demo_static_ok _)) as (V3 & z3 & N1 & _ & _ & N4). exists V3, z3. split; [exact N1|exact N4].
  - right. split; [exact M1|exact M3].
Defined.
