(* ===== verification/LoadAmd64.v ===== *)
(** The loader on the kernel: model of
    [source/arch/amd64/kernel/xeret/load_amd64.c].

    The backend is an instance of the contract of [xload_backend.h] over the
    quotas, the token ledger and the address spaces; its laws are discharged
    from the invariant of the memory system, so that what is proved of the
    portable loader holds of the kernel. *)

From S2P Require Import Prelude.
From S2P Require Import Bytes.
From S2P Require Import Physical.
From S2P Require Import Ledger.
From S2P Require Import Paging.
From S2P Require Import PageTree.
From S2P Require Import Aspace.
From S2P Require Import Exb.
From S2P Require Import Sys.
From S2P Require Import Load.

#[local] Ltac Zify.zify_post_hook ::= Z.div_mod_to_equations.

(** * Backend *)

Definition amd64_quota_ok (owner frames tokens : Z) (s : SysState) : bool :=
  let '(max_frames, max_tokens) := xproc_quota_get owner s in
  let '(used_frames, used_tokens) := xtok_owner_usage owner (k_ledger s) in
  if (used_frames >? max_frames) || (used_tokens >? max_tokens) then false else
  if frames >? max_frames - used_frames then false else
  if tokens >? max_tokens - used_tokens then false else true.

Definition amd64_alloc (owner frames rts : Z) (s : SysState) : option Z * SysState :=
  let '(t, st) := xtok_alloc_ram owner frames rts (k_mem (s_k s)) in
  let s := set_sk s (set_kmem (s_k s) st) in
  if t =? XTOKEN_INVALID then (None, s) else (Some t, s).

Definition amd64_kernel_ptr (token : Z) (s : SysState) : Z :=
  match xtok_ram_info token (k_ledger s) with
  | Some (ph, _) => ph
  | None => 0
  end.

Definition amd64_release (token : Z) (s : SysState) : SysState :=
  set_sk s (set_kmem (s_k s) (xtok_reclaim token (k_mem (s_k s))).2).

Definition amd64_map (a : XAspace) (vaddr token perms : Z) (s : SysState) : Z * SysState :=
  let '(rc, ks) := xas_map (Some a) vaddr token perms (s_k s) in
  (if rc =? XAS_OK then 0 else XLOAD_E_MAP, set_sk s ks).

Definition amd64_unmap (a : XAspace) (vaddr : Z) (s : SysState) : Z * SysState :=
  let '(rc, ks) := xas_unmap (Some a) vaddr (s_k s) in
  (if rc =? XAS_OK then 0 else -1, set_sk s ks).

(** Physical memory is kept in 64-bit words; a byte store through the
    identity map replaces one byte of a word. *)
Definition get_byte (m : gmap Z Z) (x : Z) : Z := mem_word m (x - x mod 8) / 2 ^ (8 * (x mod 8)) mod 256.

Definition store_byte (m : gmap Z Z) (x b : Z) : gmap Z Z :=
  let w := mem_word m (x - x mod 8) in
  <[x - x mod 8 := w + (b - get_byte m x) * 2 ^ (8 * (x mod 8))]> m.

Definition amd64_poke (x b : Z) (s : SysState) : SysState :=
  set_sk s (set_kmem (s_k s) (set_mem (k_mem (s_k s)) (store_byte (mem (k_mem (s_k s))) x b))).

#[export] Instance amd64_backend : LoaderBackend SysState XAspace := {|
  xlb_quota_ok := amd64_quota_ok;
  xlb_alloc := amd64_alloc;
  xlb_kernel_ptr := amd64_kernel_ptr;
  xlb_poke := amd64_poke;
  xlb_release := amd64_release;
  xlb_map := amd64_map;
  xlb_unmap := amd64_unmap
|}.

(** * Bytes and words *)

Lemma byte_set w b k j : 0 <= b < 256 -> 0 <= k -> 0 <= j ->
  (w + (b - w / 2 ^ (8 * k) mod 256) * 2 ^ (8 * k)) / 2 ^ (8 * j) mod 256 = if decide (j = k) then b else w / 2 ^ (8 * j) mod 256.
Proof.
  intros Hb Hk Hj. assert (forall n, 0 <= n -> 0 < 2 ^ n) as Hpos by (intros; lia).
  case_decide as D; [subst j; rewrite Z.div_add by (specialize (Hpos (8 * k)); lia); lia|].
  destruct (decide (j < k)).
  - set (c := b - _). clearbody c. replace (8 * k) with (8 * (k - j - 1) + 8 + 8 * j) by lia. rewrite !Z.pow_add_r, !Z.mul_assoc, Z.div_add by (specialize (Hpos (8 * j)); lia).
    change (2 ^ 8) with 256. by rewrite Z_mod_plus_full.
  - replace (8 * j) with (8 * k + (8 + 8 * (j - k - 1))) by lia. rewrite (Z.pow_add_r 2 (8 * k)), (Z.pow_add_r 2 8) by lia.
    rewrite <- !Z.div_div by (pose proof (Hpos (8 * k)); pose proof (Hpos (8 * (j - k - 1))); nia).
    rewrite Z.div_add by (specialize (Hpos (8 * k)); lia). change (2 ^ 8) with 256. do 2 f_equal. lia.
Qed.

Lemma get_store_byte m x b y : 0 <= b < 256 -> get_byte (store_byte m x b) y = if decide (y = x) then b else get_byte m y.
Proof.
  intros Hb. unfold get_byte at 1, store_byte. rewrite mem_word_insert. case_decide as D.
  - unfold get_byte. rewrite <- D, byte_set by lia. repeat case_decide; (done || lia).
  - rewrite decide_False by (intros ->; lia). done.
Qed.

(** * The view *)

(** The entry of a token, for the 64-bit values that denote one. *)
Definition tok_entry (ks : KState) (t : Z) : option XTokenEntry :=
  if decide (0 <= t < 2 ^ 64) then info (ledger (k_mem ks)) t else None.

(** The permission bits a leaf entry grants. *)
Definition pte_perms (pte : Z) : Z :=
  XPERM_R .| (if Z.testbit pte 1 then XPERM_W else 0) .| (if Z.testbit pte 63 then 0 else XPERM_X).

(** What the loader can observe of the kernel: the live tokens with their
    bytes and pins, and the mappings of the space, with the permissions the
    page tables grant. *)
Definition kview (a : XAspace) (s : SysState) : View :=
  let ks := s_k s in
  mkView
    (fun t => (fun e => mkTV (owner_id e) (n_frames e) (rights e)) <$> tok_entry ks t)
    (fun t o => match tok_entry ks t with
      | Some e => if decide (0 <= o < 4096 * n_frames e) then get_byte (mem (k_mem ks)) (e_phys e + o) else 0
      | None => 0
      end)
    (fun va => match find_rec (rec_at (as_root a) va) (g_maps ks) 0 with
      | Some i => match g_maps ks !! i with
        | Some rc => (fun pte => (r_tok rc, pte_perms pte)) <$> pte_of (mem (k_mem ks)) (as_root a) va
        | None => None
        end
      | None => None
      end)
    (fun t => match tok_entry ks t with Some e => map_count e | None => 0 end).

(** A record of the space at an address, and no other. *)
Definition rec_here (ks : KState) (a : XAspace) (va : Z) (i : nat) (rc : MapRec) : Prop :=
  g_maps ks !! i = Some rc /\ r_live rc = true /\ as_pml4 rc = as_root a /\ r_virt rc = va.

Section View.
Context (ks : KState) (S : list XAspace) (Hk : k_inv ks S) (a : XAspace) (Ha : a ∈ S).

Lemma here_root : as_root a ∈ roots S.
Proof. by apply list_elem_of_fmap_2. Qed.

Lemma here_ok va i rc : rec_here ks a va i rc -> exists e p, rec_ok ks S rc e p /\ user_va va /\ rec_covers rc va /\
  pte_of (mem (k_mem ks)) (as_root a) va = Some (e_phys e .| leaf_bits p).
Proof.
  intros (Hi & Hl & Hr & Hv). destruct (ki_rec _ _ Hk i rc Hi Hl) as (e & p & Hok). exists e, p. split; [done|].
  pose proof (ro_range _ _ _ _ _ Hok) as Hrg. pose proof (info_entry _ _ _ (mi_ledger _ (pw_mem _ _ (ki_pt _ _ Hk))) (ro_info _ _ _ _ _ Hok)) as [Heo Hle].
  destruct (eo_live e Heo Hle) as (_ & _ & _ & Hn). pose proof (ro_pages _ _ _ _ _ Hok) as Hp.
  assert (user_va va) as Hu by (unfold user_range, user_va in *; lia).
  assert (rec_covers rc va) as Hc by (unfold rec_covers; lia).
  split_and!; [done|done|]. rewrite <- Hr, (ro_pte _ _ _ _ _ Hok va Hu Hc). do 2 f_equal. lia.
Qed.

Lemma here_unique va i rc j rc' : rec_here ks a va i rc -> rec_here ks a va j rc' -> i = j /\ rc = rc'.
Proof.
  intros H H'. destruct (here_ok _ _ _ H) as (_ & _ & _ & _ & Hc & _), (here_ok _ _ _ H') as (_ & _ & _ & _ & Hc' & _).
  destruct H as (Hi & Hl & Hr & Hv), H' as (Hi' & Hl' & Hr' & Hv').
  assert (i = j) as -> by (apply (ki_disj _ _ Hk i j rc rc' va); congruence). split; [done|congruence].
Qed.

Lemma find_here va : match find_rec (rec_at (as_root a) va) (g_maps ks) 0 with
  | Some i => exists rc, rec_here ks a va i rc
  | None => forall i rc, ~ rec_here ks a va i rc
  end.
Proof.
  destruct (find_rec _ _ _) as [i|] eqn:E.
  - apply find_rec_spec in E as (j & rc & -> & Hj & Hp). exists rc. unfold rec_at in Hp.
    apply andb_true_iff in Hp as [[Hl Hr]%andb_true_iff Hv]. split_and!; [done|done|lia|lia].
  - intros i rc (Hi & Hl & Hr & Hv). enough (find_rec (rec_at (as_root a) va) (g_maps ks) 0 <> None) by done.
    assert (rec_at (as_root a) va rc = true) as Hp by (unfold rec_at; by rewrite Hl, Hr, Hv, !Z.eqb_refl). clear - Hi Hp. revert i Hi. generalize 0%nat.
    induction (g_maps ks) as [|r l IH]; intros k i; [done|]. cbn [find_rec]. destruct (rec_at _ _ r) eqn:Er; [done|].
    destruct i as [|i]; cbn; [congruence|]. apply IH.
Qed.

Lemma view_map va t p : vw_map (kview a (mkSys ks [])) va = Some (t, p) <->
  exists i rc pte, rec_here ks a va i rc /\ t = r_tok rc /\ pte_of (mem (k_mem ks)) (as_root a) va = Some pte /\ p = pte_perms pte.
Proof.
  cbn [kview vw_map s_k]. pose proof (find_here va) as Hf. destruct (find_rec _ _ _) as [i|].
  - destruct Hf as [rc Hh]. rewrite (proj1 Hh). rewrite fmap_Some. split.
    + intros (pte & Hp & [= -> ->]). by exists i, rc, pte.
    + intros (j & rc' & pte & Hh' & -> & Hp & ->). destruct (here_unique _ _ _ _ _ Hh Hh') as [_ ->]. by exists pte.
  - split; [done|]. intros (i & rc & pte & Hh & _). by destruct (Hf i rc).
Qed.
End View.

(** * The laws *)

Section Laws.
Context `{Bt : Boot} (Sp : list XAspace).

Definition amd64_inv (a : XAspace) (s : SysState) : Prop := reachable (s_k s) Sp /\ a ∈ Sp.

Lemma inv_k a s : amd64_inv a s -> k_inv (s_k s) Sp /\ a ∈ Sp.
Proof. intros [Hr Ha]. split; [by apply reachable_inv|done]. Qed.

Lemma tok_entry_Some ks t e : tok_entry ks t = Some e <-> 0 <= t < 2 ^ 64 /\ info (ledger (k_mem ks)) t = Some e.
Proof. unfold tok_entry. case_decide; naive_solver. Qed.

Lemma entry_frames ks S t e : k_inv ks S -> tok_entry ks t = Some e -> 0 < e_phys e /\ e_phys e mod 4096 = 0 /\ 0 < n_frames e.
Proof.
  intros Hk [_ Hi]%tok_entry_Some. pose proof (info_entry _ _ _ (mi_ledger _ (pw_mem _ _ (ki_pt _ _ Hk))) Hi) as [Heo Hl].
  destruct (eo_live e Heo Hl) as (_ & ? & ? & ?). lia.
Qed.

(** The view of the bytes depends only on the words of live tokens. *)
Lemma bytes_kept ks S st' t e o : k_inv ks S -> words_kept (k_mem ks) st' -> tok_entry ks t = Some e -> 0 <= o < 4096 * n_frames e ->
  get_byte (mem st') (e_phys e + o) = get_byte (mem (k_mem ks)) (e_phys e + o).
Proof.
  intros Hk Hw He Ho. destruct (entry_frames _ _ _ _ Hk He) as (Hp & Hal & Hn). apply tok_entry_Some in He as [Ht Hi].
  unfold get_byte. rewrite (Hw t e); [done|done|done|]. unfold in_frames. lia.
Qed.

(** Tokens with the same meaning up to pins, and the same words: the view
    differs only in the pins and the mappings. *)
Lemma view_tokens a ks ks' S q q' : k_inv ks S -> words_kept (k_mem ks) (k_mem ks') ->
  (forall t, 0 <= t < 2 ^ 64 -> exists c, info (ledger (k_mem ks')) t = (fun e => set_map_count e c) <$> info (ledger (k_mem ks)) t) ->
  (forall t, vw_tok (kview a (mkSys ks' q')) t = vw_tok (kview a (mkSys ks q)) t) /\
  (forall t o, vw_byte (kview a (mkSys ks' q')) t o = vw_byte (kview a (mkSys ks q)) t o).
Proof.
  intros Hk Hw Hs. assert (forall t, exists c, tok_entry ks' t = (fun e => set_map_count e c) <$> tok_entry ks t) as He.
  { intros t. unfold tok_entry. case_decide; [by apply Hs|by exists 0]. }
  split; intros t; [|intros o]; cbn [kview vw_tok vw_byte s_k]; destruct (He t) as [c ->]; destruct (tok_entry ks t) as [e|] eqn:E; try done.
  cbn [fmap option_fmap option_map set_map_count n_frames e_phys]. case_decide; [|done]. by apply (bytes_kept ks S _ t).
Qed.

(** The same records and page map: the same mappings. *)
Lemma view_maps a ks ks' S q q' : k_inv ks S -> a ∈ S -> g_maps ks' = g_maps ks ->
  (forall va, user_va va -> pte_of (mem (k_mem ks')) (as_root a) va = pte_of (mem (k_mem ks)) (as_root a) va) ->
  forall va, vw_map (kview a (mkSys ks' q')) va = vw_map (kview a (mkSys ks q)) va.
Proof.
  intros Hk Ha Em Hp va. cbn [kview vw_map s_k]. rewrite Em. pose proof (find_here ks a va) as Hf.
  destruct (find_rec _ _ _) as [i|]; [|done]. destruct Hf as [rc Hh]. destruct (here_ok ks S Hk a va i rc Hh) as (_ & _ & _ & Hu & _).
  destruct (g_maps ks !! i); [|done]. by rewrite Hp.
Qed.

Lemma set_map_count_id (o : option XTokenEntry) : exists c, o = (fun e => set_map_count e c) <$> o.
Proof. destruct o as [e|]; [|by exists 0]. exists (map_count e). cbn. by rewrite set_map_count_same. Qed.

Lemma view_unchanged a s ks' S : k_inv (s_k s) S -> a ∈ S -> unchanged (s_k s) ks' S -> kview a (set_sk s ks') ≡ kview a s.
Proof.
  intros Hk Ha [Em El Hp Hw]. destruct s as [ks q]. cbn [s_k set_sk g_quota] in *.
  destruct (view_tokens a ks ks' S q q Hk Hw) as [H1 H2]; [intros t _; rewrite El; apply set_map_count_id|].
  split_and!; [done|done| |].
  - apply (view_maps a ks ks' S); [done|done|done|]. intros va Hu. apply Hp; [by apply here_root|done].
  - intros t. cbn [kview vw_pins s_k set_sk]. unfold tok_entry. by rewrite El.
Qed.

(** A frame belongs to one live token. *)
Lemma amd64_poke_law a s t tv o b : amd64_inv a s -> vw_tok (kview a s) t = Some tv -> 0 <= o < 4096 * tv_frames tv -> 0 <= b < 256 ->
  let s' := amd64_poke (amd64_kernel_ptr t s + o) b s in
  amd64_inv a s' /\ kview a s' ≡ v_poke t o b (kview a s) /\ amd64_kernel_ptr t s' = amd64_kernel_ptr t s.
Proof.
  intros (Hr & Ha) Hv Ho Hb. pose proof (reachable_inv _ _ Hr) as Hk. cbn [kview vw_tok] in Hv.
  apply fmap_Some in Hv as (e & He & ->). cbn [tv_frames] in Ho. destruct (entry_frames _ _ _ _ Hk He) as (Hp & Hal & Hn).
  pose proof (proj1 (tok_entry_Some _ _ _) He) as [Ht Hi]. set (x := amd64_kernel_ptr t s + o).
  assert (x = e_phys e + o) as Ex.
  { unfold x, amd64_kernel_ptr, xtok_ram_info. pose proof (proj1 (info_lookup _ _ _) Hi) as Hl. unfold k_ledger. rewrite Hl.
    pose proof (info_entry _ _ _ (mi_ledger _ (pw_mem _ _ (ki_pt _ _ Hk))) Hi) as [Heo Hle]. destruct (eo_live e Heo Hle) as (-> & _). done. }
  assert (in_frames e ((x - x mod 8) / 4096)) as Hx by (unfold in_frames; lia).
  cbn zeta. split_and!.
  - split; [|done]. apply (reachable_step _ _ _ _ Hr). by apply (ks_write _ _ t e).
  - split_and!; [done| | |done].
    + intros t' o'. cbn [kview vw_byte v_poke s_k amd64_poke set_sk set_kmem k_mem].
      change (tok_entry (set_kmem (s_k s) _) t') with (tok_entry (s_k s) t'). cbn [set_kmem k_mem set_mem mem]. unfold upd.
      destruct (decide (t' = t)) as [->|Hne].
      * rewrite He. case_decide; [|by rewrite decide_False by lia]. rewrite get_store_byte by done.
        destruct (decide (o' = o)); [rewrite decide_True by lia; done|rewrite decide_False by lia; done].
      * destruct (tok_entry (s_k s) t') as [e'|] eqn:He'; [|done]. case_decide; [|done]. rewrite get_store_byte, decide_False; [done| |done].
        intros Hxx. destruct (entry_frames _ _ _ _ Hk He') as (Hp' & Hal' & Hn'). apply tok_entry_Some in He' as [Ht' Hi'].
        apply Hne. apply (info_disjoint (k_mem (s_k s)) t' t e' e (x / 4096)); try done; [apply (pw_mem _ _ (ki_pt _ _ Hk))| |]; unfold in_frames; lia.
    + intros va. destruct s as [ks q]. apply (view_maps a ks _ Sp); [done|done|done|]. intros va' Hu.
      refine (kept_pte (roots Sp) _ _ _ _ (ki_pt _ _ Hk) _ (here_root Sp a Ha) Hu). by apply (write_kept ks Sp t e).
  - done.
Qed.

(** Granting a token leaves the words of the others alone. *)
Lemma grant_words ok owner n rts st tok st' : mem_inv st -> grant_result ok owner n rts st (tok, st') -> words_kept st st'.
Proof.
  intros Hm Hg t e x Ht Hi Hx. pose proof (info_entry _ _ _ (mi_ledger _ Hm) Hi) as [Heo Hl]. destruct (eo_live e Heo Hl) as (_ & Hp & _ & _).
  apply info_Some in Hi as (_ & _ & He & _). pose proof (oo_used _ _ (mi_own _ Hm) _ e _ He Hl Hx) as Hu.
  destruct Hg as [(_ & s & g & Hs & _ & _ & Hrun & _ & _ & _ & _ & Hw)|(_ & _ & _ & Hw & _)].
  - rewrite Hw, decide_False; [done|]. intros [Hxs _]. rewrite (Hrun (x / 4096)) in Hu by lia. done.
  - destruct (decide (mem_word (mem st') x = mem_word (mem st) x)) as [|Hne]; [done|]. apply Hw in Hne. congruence.
Qed.

Lemma amd64_alloc_law a s o n r : amd64_inv a s -> 0 <= o < 2 ^ 32 -> 0 < n < 2 ^ 32 ->
  match amd64_alloc o n r s with
  | (Some t, s') => amd64_inv a s' /\ vw_tok (kview a s) t = None /\ kview a s' ≡ v_alloc t (mkTV o n r) (kview a s)
  | (None, s') => amd64_inv a s' /\ kview a s' ≡ kview a s
  end.
Proof.
  intros (Hr & Ha) Ho Hn. pose proof (reachable_inv _ _ Hr) as Hk. destruct s as [ks q]. cbn [s_k] in *. unfold amd64_alloc. cbn [s_k].
  pose proof (pw_mem _ _ (ki_pt _ _ Hk)) as Hm. pose proof (xtok_alloc_ram_spec o n r (k_mem ks) Hm Ho ltac:(lia)) as [Hg Hm'].
  pose proof (ks_alloc ks Sp o n r Ho ltac:(lia)) as Hst. destruct (xtok_alloc_ram o n r (k_mem ks)) as [tok st'] eqn:E. cbn [snd] in *.
  assert (amd64_inv a (mkSys (set_kmem ks st') q)) as Hi' by (split; [by apply (reachable_step _ _ _ _ Hr)|done]).
  pose proof (grant_words _ _ _ _ _ _ _ Hm Hg) as Hw. pose proof (grant_kept _ o n r _ _ _ _ (ki_pt _ _ Hk) ltac:(lia) Hg Hm') as Hkt.
  assert (forall va, vw_map (kview a (mkSys (set_kmem ks st') q)) va = vw_map (kview a (mkSys ks q)) va) as Hmap.
  { apply (view_maps a ks (set_kmem ks st') Sp q q Hk Ha eq_refl). intros va Hu. exact (kept_pte _ _ _ _ _ (ki_pt _ _ Hk) Hkt (here_root Sp a Ha) Hu). }
  cbn [set_sk g_quota]. destruct (Z.eqb_spec tok XTOKEN_INVALID) as [->|Hne].
  - destruct Hg as [[? _]|(_ & _ & El & _)]; [done|]. split; [done|].
    destruct (view_tokens a ks (set_kmem ks st') Sp q q Hk Hw) as [H1 H2]; [intros t _; cbn [set_kmem k_mem]; rewrite El; apply set_map_count_id|].
    split_and!; [done|done|done|]. intros t. cbn [kview vw_pins]. unfold tok_entry. cbn [set_sk s_k set_kmem k_mem]. by rewrite El.
  - destruct Hg as [(_ & f & g & Hf & _ & _ & _ & _ & _ & (i & e & _ & _ & _ & _ & Ht0 & _ & Hno & Hinfo) & Hit & Hz)|[? _]]; [|done].
    assert (0 <= tok < 2 ^ 64) as Ht by lia.
    assert (forall t, tok_entry (set_kmem ks st') t = if decide (t = tok) then Some (ram_entry g o (f * 4096) n r) else tok_entry ks t) as He.
    { intros t. unfold tok_entry. cbn [set_kmem k_mem]. destruct (decide (t = tok)) as [->|Hne']; [by rewrite decide_True|].
      case_decide; [|done]. by rewrite Hinfo, decide_False. }
    split_and!; [done| |].
    + cbn [kview vw_tok s_k]. unfold tok_entry. by rewrite decide_True, Hno.
    + split_and!; [| |done|]; intros t; [|intros b|]; cbn [kview vw_tok vw_byte vw_pins v_alloc s_k]; rewrite He; unfold upd; case_decide as D; try done.
      * cbn [ram_entry n_frames e_phys set_kmem k_mem]. case_decide; [|done]. unfold get_byte. set (x := f * 4096 + b).
        assert (f * 4096 <= x - x mod 8 < (f + n) * 4096) by lia. rewrite Hz, decide_True by lia. done.
      * destruct (tok_entry ks t) as [e'|] eqn:Et; [|done]. case_decide; [|done]. by apply (bytes_kept ks Sp _ t).
Qed.

(** The bits of a leaf entry give back the permissions it was made from. *)
Lemma pte_perms_leaf ph p : frame_addr ph -> perms_ok p -> Z.testbit p 0 = true -> pte_perms (ph .| leaf_bits p) = p.
Proof.
  intros Hf Hp H0. pose proof (leaf_bits_spec p Hp) as (_ & H1 & _ & H63 & _). destruct Hp as [Hp _]. unfold pte_perms.
  rewrite entry_bit_low, H1 by (done || lia). rewrite Z.lor_spec, H63.
  assert (Z.testbit ph 63 = false) as -> by (destruct Hf as [[? ?] _]; apply (testbit_high ph 52); lia). cbn [orb].
  assert (p = 1 \/ p = 2 \/ p = 3 \/ p = 4 \/ p = 5 \/ p = 6 \/ p = 7) as Hc by lia.
  destruct Hc as [-> | [-> | [-> | [-> | [-> | [-> | -> ]]]]]]; done.
Qed.

Lemma entry_frame_addr ks S t e : k_inv ks S -> tok_entry ks t = Some e -> frame_addr (e_phys e).
Proof.
  intros Hk He. destruct (entry_frames _ _ _ _ Hk He) as (Hp & Hal & Hn). pose proof (pw_mem _ _ (ki_pt _ _ Hk)) as [Hph _ Ho].
  apply tok_entry_Some in He as [_ Hi]. apply info_Some in Hi as (_ & _ & He & Hl & _). pose proof (oo_range _ _ Ho _ _ He Hl).
  pose proof (frames_bound _ (e_phys e / 4096) (n_frames e) Hph ltac:(lia) ltac:(lia) ltac:(lia)). split; [lia|done].
Qed.

(** ** One more mapping *)

Section Mapped.
Context (ks ks' : KState) (S : list XAspace) (Hk : k_inv ks S) (Hk' : k_inv ks' S) (a : XAspace) (Ha : a ∈ S).
Context (va t p : Z) (e : XTokenEntry) (i : nat) (Hm : mapped ks ks' S a va t p e i).
Context (Ht : 0 <= t < 2 ^ 64) (Hp : perms_ok p) (Hp0 : Z.testbit p 0 = true).

Lemma mp_entry : tok_entry ks t = Some e.
Proof. apply tok_entry_Some. split; [done|]. apply Hm. Qed.

Lemma mp_here va' j rc : rec_here ks' a va' j rc <->
  (va' = va /\ j = i /\ rc = mkRec (as_root a) (as_owner a) va t (n_frames e) true) \/ rec_here ks a va' j rc.
Proof.
  destruct (mp_slot _ _ _ _ _ _ _ _ _ Hm) as (rc0 & Hi & Hd). unfold rec_here.
  rewrite (mp_maps _ _ _ _ _ _ _ _ _ Hm), list_lookup_insert_Some. split.
  - intros ([(<- & <- & _)|[Hne Hj]] & Hl & Hr & Hv); [left; cbn in Hv; done|by right].
  - intros [(-> & -> & ->)|(Hj & Hl & Hr & Hv)].
    + split; [|done]. left. split_and!; [done|done|by eapply lookup_lt_Some].
    + split; [|done]. right. split; [congruence|done].
Qed.

Lemma mp_va : user_va va.
Proof.
  destruct (entry_frames _ _ _ _ Hk mp_entry) as (_ & _ & Hn). pose proof (mp_range _ _ _ _ _ _ _ _ _ Hm).
  unfold user_range, user_va in *; lia.
Qed.

Lemma mp_new : pte_of (mem (k_mem ks')) (as_root a) va = Some (e_phys e .| leaf_bits p).
Proof.
  destruct (entry_frames _ _ _ _ Hk mp_entry) as (_ & _ & Hn).
  rewrite (mp_pte _ _ _ _ _ _ _ _ _ Hm) by (by (apply here_root) || apply mp_va). unfold pmap_fill.
  rewrite decide_True by lia. do 2 f_equal. lia.
Qed.

(** Addresses with a record are outside the new range. *)
Lemma mp_kept va' j rc : rec_here ks a va' j rc -> va' <> va /\
  pte_of (mem (k_mem ks')) (as_root a) va' = pte_of (mem (k_mem ks)) (as_root a) va'.
Proof.
  intros H'. destruct (here_ok ks S Hk a va' j rc H') as (e' & p2 & _ & Hu' & _ & Hpte).
  destruct (entry_frames _ _ _ _ Hk mp_entry) as (_ & _ & Hn).
  assert (~ (va / 4096 <= va' / 4096 < va / 4096 + n_frames e)) as Hout.
  { intros Hin. rewrite (mp_old _ _ _ _ _ _ _ _ _ Hm va' Hu' Hin) in Hpte. done. }
  split; [intros ->; lia|]. rewrite (mp_pte _ _ _ _ _ _ _ _ _ Hm) by (by (apply here_root) || done). unfold pmap_fill.
  rewrite decide_False; [done|tauto].
Qed.

Lemma mp_free q : vw_map (kview a (mkSys ks q)) va = None.
Proof.
  cbn [kview vw_map s_k]. pose proof (find_here ks a va) as Hf. destruct (find_rec _ _ _); [|done]. destruct Hf as [rc Hf].
  by destruct (mp_kept _ _ _ Hf).
Qed.

Lemma mp_view_map va' : vw_map (kview a (mkSys ks' [])) va' = upd (vw_map (kview a (mkSys ks []))) va (Some (t, p)) va'.
Proof.
  unfold upd. apply option_eq. intros [t' p']. rewrite (view_map ks' S Hk' a). destruct (decide (va' = va)) as [->|D].
  - assert (pte_perms (e_phys e .| leaf_bits p) = p) as Hpp by (apply pte_perms_leaf; [exact (entry_frame_addr ks S t e Hk mp_entry)|done|done]).
    split.
    + intros (j & rc & pte & H' & -> & Hpte & ->). apply mp_here in H' as [(_ & -> & ->)|H']; [|by destruct (mp_kept _ _ _ H')].
      rewrite mp_new in Hpte. injection Hpte as <-. cbn [r_tok]. by rewrite Hpp.
    + intros [= <- <-]. eexists i, _, _. split; [apply mp_here; by left|]. split; [done|]. by rewrite mp_new, Hpp.
  - rewrite (view_map ks S Hk a). split; intros (j & rc & pte & H' & -> & Hpte & ->); exists j, rc, pte.
    + apply mp_here in H' as [(-> & _)|H']; [done|]. split_and!; try done. by rewrite <- (proj2 (mp_kept _ _ _ H')).
    + split_and!; try done; [apply mp_here; by right|]. by rewrite (proj2 (mp_kept _ _ _ H')).
Qed.

Lemma mp_view q : kview a (mkSys ks' q) ≡ v_map va t p (kview a (mkSys ks q)).
Proof.
  pose proof (mp_info _ _ _ _ _ _ _ _ _ Hm) as Hi. pose proof (mp_led _ _ _ _ _ _ _ _ _ Hm) as Hled.
  destruct (view_tokens a ks ks' S q q Hk (mp_words _ _ _ _ _ _ _ _ _ Hm)) as [H1 H2].
  { intros t' Ht'. rewrite Hled by done. case_decide; [subst; rewrite Hi; by eexists|apply set_map_count_id]. }
  split_and!; [done|done|apply mp_view_map|].
  intros t'. cbn [kview v_map vw_pins s_k]. unfold upd, tok_entry. destruct (decide (t' = t)) as [->|D].
  - rewrite decide_True, Hled, decide_True by done. by rewrite decide_True, Hi.
  - case_decide; [|done]. by rewrite Hled, decide_False.
Qed.
End Mapped.

Lemma amd64_map_law a s va t tv p : amd64_inv a s -> vw_tok (kview a s) t = Some tv -> 0 < p < 8 -> Z.testbit p 0 = true ->
  let '(rc, s') := amd64_map a va t p s in
  amd64_inv a s' /\ ((rc = 0 /\ vw_map (kview a s) va = None /\ kview a s' ≡ v_map va t p (kview a s)) \/
                      (rc < 0 /\ kview a s' ≡ kview a s)).
Proof.
  intros (Hr & Ha) Hv Hp Hp0. pose proof (reachable_inv _ _ Hr) as Hk. destruct s as [ks q]. cbn [s_k] in *.
  cbn [kview vw_tok s_k] in Hv. apply fmap_Some in Hv as (e & He & ->). pose proof (proj1 (tok_entry_Some _ _ _) He) as [Ht Hi].
  unfold amd64_map. cbn [s_k]. pose proof (xas_map_spec ks Sp a va t p Hk Ha Ht ltac:(lia)) as Hx.
  destruct (xas_map (Some a) va t p ks) as [rc ks'] eqn:E. cbn [set_sk g_quota].
  assert (reachable ks' Sp) as Hr' by (apply (reachable_step _ _ _ _ Hr), (ks_map _ _ a va t p rc); (done || lia)).
  split; [by split|]. destruct Hx as [Hk' [(-> & Hpok & _ & e0 & i & Hm)|[Hneg Hu]]].
  - rewrite Z.eqb_refl. left. split_and!; [done|by eapply mp_free|by eapply mp_view].
  - right. destruct (Z.eqb_spec rc XAS_OK) as [->|]; [done|]. split; [done|]. by apply (view_unchanged a (mkSys ks q) ks' Sp).
Qed.

(** ** One mapping fewer *)

Lemma drop_view_map ks S a va i rc : k_inv ks S -> a ∈ S -> rec_here ks a va i rc -> forall va',
  vw_map (kview a (mkSys (drop_record i ks) [])) va' = upd (vw_map (kview a (mkSys ks []))) va None va'.
Proof.
  intros Hk Ha Hh va'. pose proof Hh as (Hi & Hl & Hroot & Hva). destruct (drop_mem ks S Hk i rc Hi Hl) as (e & He & Ht & _ & Hpt & _).
  pose proof (drop_record_inv ks S Hk i rc Hi Hl) as Hk'.
  assert (forall va' j rc', rec_here (drop_record i ks) a va' j rc' <-> rec_here ks a va' j rc' /\ j <> i) as Hd.
  { intros va2 j rc'. unfold rec_here. rewrite (drop_maps ks i rc Hi), list_lookup_insert_Some. split.
    - by intros ([(<- & <- & _)|[Hne Hj]] & Hl' & Hr & Hv).
    - intros [(Hj & Hl' & Hr & Hv) Hne]. split; [|done]. right. by split. }
  apply option_eq. intros [t' p']. rewrite (view_map _ S Hk' a). unfold upd. destruct (decide (va' = va)) as [->|D].
  - split; [|done]. intros (j & rc' & pte & H' & _). apply Hd in H' as [H' Hne]. by destruct (here_unique ks S Hk a va _ _ _ _ H' Hh).
  - rewrite (view_map ks S Hk a).
    assert (forall j rc', rec_here ks a va' j rc' -> j <> i ->
      pte_of (mem (k_mem (drop_record i ks))) (as_root a) va' = pte_of (mem (k_mem ks)) (as_root a) va') as Hsame.
    { intros j rc' H' Hne. destruct (here_ok ks S Hk a va' j rc' H') as (_ & _ & _ & Hu & Hc & _). rewrite Hpt by (by (apply here_root) || done).
      rewrite decide_False; [done|]. intros [_ Hc']. apply Hne. destruct H' as (Hj & Hl' & Hr' & _).
      apply (ki_disj _ _ Hk j i rc' rc va'); congruence. }
    split; intros (j & rc' & pte & H' & -> & Hpte & ->); exists j, rc', pte.
    + apply Hd in H' as [H' Hne]. split_and!; try done. by rewrite <- (Hsame j rc').
    + assert (j <> i) as Hne. { intros ->. destruct H' as (Hj & _ & _ & Hv'). congruence. }
      split_and!; try done; [by apply Hd|]. by rewrite (Hsame j rc').
Qed.

Lemma amd64_unmap_law a s va t p : amd64_inv a s -> vw_map (kview a s) va = Some (t, p) ->
  let s' := (amd64_unmap a va s).2 in amd64_inv a s' /\ kview a s' ≡ v_unmap va (kview a s).
Proof.
  intros (Hr & Ha) Hv. pose proof (reachable_inv _ _ Hr) as Hk. destruct s as [ks q]. cbn [s_k] in *.
  change (kview a (mkSys ks q)) with (kview a (mkSys ks [])) in *. unfold v_unmap. rewrite Hv. pose proof Hv as Hv'.
  apply (view_map ks Sp Hk a) in Hv as (i & rc & pte & Hh & -> & Hpte & ->).
  unfold amd64_unmap. cbn [s_k]. destruct (xas_unmap (Some a) va ks) as [r ks'] eqn:E. cbn [set_sk g_quota snd].
  assert (reachable ks' Sp) as Hr' by (by apply (reachable_step _ _ _ _ Hr), (ks_unmap _ _ a va r)).
  split; [by split|]. pose proof (reachable_inv _ _ Hr') as Hk'.
  assert (ks' = drop_record i ks) as ->.
  { unfold xas_unmap in E. destruct (ki_space _ _ Hk a Ha) as [Hl _]. rewrite Hl in E. cbn [negb] in E. pose proof (find_here ks a va) as Hf.
    destruct (find_rec _ _ _) as [j|]; [|by destruct (Hf i rc)]. destruct Hf as [rc' Hf].
    destruct (here_unique ks Sp Hk a va _ _ _ _ Hf Hh) as [-> _]. congruence. }
  pose proof Hh as (Hi & Hl & Hroot & Hva). destruct (drop_mem ks Sp Hk i rc Hi Hl) as (e & He & Ht & _ & Hpt & Hled & Hw).
  destruct (view_tokens a ks (drop_record i ks) Sp [] [] Hk Hw) as [H1 H2].
  { intros t' Ht'. rewrite Hled by done. case_decide; [subst; rewrite He; by eexists|apply set_map_count_id]. }
  split_and!; [exact H1|exact H2| |].
  - apply (drop_view_map ks Sp a va i rc Hk Ha Hh).
  - intros t'. cbn [kview vw_pins s_k]. unfold upd, tok_entry. destruct (decide (t' = r_tok rc)) as [->|D].
    + rewrite decide_True, Hled, decide_True by done. by rewrite decide_True, He.
    + case_decide; [|done]. by rewrite Hled, decide_False.
Qed.

Lemma amd64_release_law a s t tv : amd64_inv a s -> vw_tok (kview a s) t = Some tv -> vw_pins (kview a s) t = 0 ->
  let s' := amd64_release t s in amd64_inv a s' /\ kview a s' ≡ v_release t (kview a s).
Proof.
  intros (Hr & Ha) Hv Hz. pose proof (reachable_inv _ _ Hr) as Hk. destruct s as [ks q]. cbn [s_k] in *.
  cbn [kview vw_tok vw_pins s_k] in Hv, Hz. apply fmap_Some in Hv as (e & He & ->). rewrite He in Hz.
  pose proof (proj1 (tok_entry_Some _ _ _) He) as [Ht Hi]. pose proof (pw_mem _ _ (ki_pt _ _ Hk)) as Hm.
  pose proof (release_impl_spec t 0 0 (k_mem ks) Hm Ht) as Hs. rewrite Hi, Hz in Hs. cbn [andb negb Z.eqb tst Z.land] in Hs.
  destruct Hs as (st' & E & Hrel & Hm'). unfold amd64_release, xtok_reclaim. cbn [s_k set_sk g_quota]. rewrite E. cbn [snd]. cbn zeta.
  split.
  - split; [|done]. apply (reachable_step _ _ _ _ Hr). pose proof (ks_reclaim ks Sp t Ht) as H. unfold xtok_reclaim in H. by rewrite E in H.
  - pose proof Hrel as (_ & _ & Em & _ & Hinfo).
    assert (forall t', tok_entry (set_kmem ks st') t' = if decide (t' = t) then None else tok_entry ks t') as He'.
    { intros t'. unfold tok_entry. cbn [set_kmem k_mem]. destruct (decide (t' = t)) as [->|]; [by rewrite decide_True, Hinfo, decide_True|].
      case_decide; [|done]. by rewrite Hinfo, decide_False. }
    split_and!; [| |apply (view_maps a ks (set_kmem ks st') Sp q q Hk Ha eq_refl)|].
    + intros t'. cbn [kview vw_tok v_release s_k]. rewrite He'. unfold upd. by case_decide.
    + intros t' o. cbn [kview vw_byte v_release s_k]. rewrite He'. cbn [set_sk s_k set_kmem k_mem]. unfold upd.
      destruct (decide (t' = t)); [done|]. by rewrite Em.
    + intros va Hu. exact (kept_pte _ _ _ _ _ (ki_pt _ _ Hk) (released_kept _ _ _ _ _ (ki_pt _ _ Hk) Hi Hrel Hm') (here_root Sp a Ha) Hu).
    + intros t'. cbn [kview vw_pins v_release s_k]. rewrite He'. unfold upd. by case_decide.
Qed.

(** The kernel keeps the contract of the loader. *)
#[export] Instance amd64_laws a : LoaderLaws a.
Proof.
  refine {| lb_inv := amd64_inv a; lb_view := kview a |}.
  - intros s _ t Ht. cbn [kview vw_tok] in Ht. apply fmap_None in Ht. cbn [kview vw_byte vw_pins]. by rewrite Ht.
  - apply amd64_alloc_law.
  - apply amd64_poke_law.
  - apply amd64_map_law.
  - apply amd64_unmap_law.
  - apply amd64_release_law.
Defined.

Lemma program_load_spec a owner img info0 s :
  reachable (s_k s) Sp -> a ∈ Sp -> 0 <= owner < 2 ^ 32 -> bytes_ok img -> lenZ img < 2 ^ 32 -> length (seg info0) = 8%nat ->
  exists rc out s', xload_exb (Some a) owner (Some img) (lenZ img) true info0 s = Some (rc, out, s') /\
    reachable (s_k s') Sp /\
    ((rc = XLOAD_OK /\ exists info o ps stk, out = Some o /\ loaded owner img (kview a s) (kview a s') info o ps stk) \/
     (XLOAD_E_MAP <= rc < 0 /\ out = None /\ kview a s' ≡ kview a s)).
Proof.
  intros Hr Ha Ho Hb Hl Hi. destruct (@xload_spec _ _ _ a (amd64_laws a) owner img Ho Hb Hl info0 s (conj Hr Ha) Hi) as (rc & out & s' & E & [H1 _] & H2).
  exists rc, out, s'. split_and!; [exact E|exact H1|exact H2].
Qed.


End Laws.

(** * Witness *)

#[local] Existing Instance demo_boot_state.

(** The space of the demonstration before anything is mapped in it. *)
Definition demo_sys2 : SysState := mkSys demo_ks2 (replicate 64 (mkQuota 0 0 false)).

