(* ===== verification/Xsh.v ===== *)
(** What the shell and its utilities share: text output ([utils/common.h]),
    argument words ([utils/fs/args.h]), and the string helpers and the command
    line of [core/shell.c]. A C string is the list of its characters before the
    terminator. *)

From Stdlib Require Import Ascii String.
From S2P Require Import Prelude.
From S2P Require Import Bytes.
From S2P Require Import Xerlibc.
From S2P Require Import Syslib.

(** * Text *)

(** A literal as character codes. *)
Definition txt (s : string) : list Z := (fun c => Z.of_N (N_of_ascii c)) <$> list_ascii_of_string s.
Arguments txt s%_string_scope.

Definition put_dec (v : Z) : list Z := xl_u64_dec v.
Definition put_hex (v width : Z) : list Z := xl_u64_hex v width.

(** [xk_println] of a message. *)
Definition line (s : list Z) : list Z := s ++ [10].

(** * Comparing *)

(** The [same] of the utilities. *)
Fixpoint same (a b : list Z) : bool :=
  match a, b with
  | x :: a, y :: b => (x =? y) && same a b
  | [], [] => true
  | _, _ => false
  end.

(** [xk_strcmp] on strings without a NUL inside. *)
Fixpoint str_diff (a b : list Z) : Z :=
  match a, b with
  | x :: a, y :: b => if x =? y then str_diff a b else x - y
  | [], y :: _ => 0 - y
  | x :: _, [] => x - 0
  | [], [] => 0
  end.

Definition streq (a b : list Z) : bool := str_diff a b =? 0.

(** * Words *)

Definition blank : Z := 32.

Fixpoint skip_blanks (s : list Z) : list Z :=
  match s with
  | c :: s' => if c =? blank then skip_blanks s' else s
  | [] => []
  end.

(** The loop of [next_word]: what is kept of the word, and the rest. *)
Fixpoint word_loop (s out : list Z) (max : Z) : list Z * list Z :=
  match s with
  | c :: s' => if c =? blank then (out, s) else word_loop s' (if lenZ out <? max - 1 then out ++ [c] else out) max
  | [] => (out, [])
  end.

Definition next_word (s : list Z) (max : Z) : list Z * list Z := word_loop (skip_blanks s) [] max.

(** * Helpers of the shell *)

Definition MAX_INPUT_LEN : Z := 512.
Definition MAX_CMD_LEN : Z := 32.
Definition MAX_ARG_LEN : Z := 480.
Definition MAX_PATH_LEN : Z := 256.
Definition MAX_USER_LEN : Z := 16.
Definition READ_MAX : Z := 4096.

Definition copy_str (src : list Z) (max : Z) : list Z := take (Z.to_nat (max - 1)) src.

Definition shell_bar : Z := 124.

Definition is_root_path (path : list Z) : bool := (nthZ path 0 =? shell_bar) && (nthZ path 1 =? 0).

(** Drops one trailing bar, except for the root itself. *)
Definition normalize_path (p : list Z) : list Z :=
  let n := lenZ p in
  if (1 <? n) && (nthZ p (n - 1) =? shell_bar) then take (Z.to_nat (n - 1)) p else p.

(** The index of the last bar, 0 when there is none. *)
Fixpoint last_of (p : list Z) (i last : Z) : Z :=
  match p with
  | c :: p => last_of p (i + 1) (if c =? shell_bar then i else last)
  | [] => last
  end.

Definition parent_of (path : list Z) : list Z :=
  let last := last_of path 0 0 in
  if last =? 0 then [shell_bar] else take (Z.to_nat last) path.

Definition resolve_operand (cwd arg : list Z) : list Z := normalize_path (Path.resolve_superdir_path cwd (Some arg)).

(** The first word, cut at [max - 1] characters, and the rest: after a cut the
    rest starts inside the word. *)
Fixpoint first_loop (s : list Z) (k : nat) (first : list Z) : list Z * list Z :=
  match k, s with
  | S k, c :: s' => if c =? blank then (first, s) else first_loop s' k (first ++ [c])
  | _, _ => (first, s)
  end.

Definition split_first (s : list Z) (max : Z) : list Z * list Z :=
  let '(first, rest) := first_loop s (Z.to_nat (max - 1)) [] in (first, skip_blanks rest).

(** Drops trailing blanks. *)
Definition trim_blanks (l : list Z) : list Z := reverse (skip_blanks (reverse l)).

Definition parse_command_line (l : list Z) : list Z * list Z :=
  let '(cmd, rest) := split_first l MAX_CMD_LEN in (cmd, trim_blanks (copy_str rest MAX_ARG_LEN)).

(** * Lemmas *)

Lemma same_spec a b : same a b = true <-> a = b.
Proof.
  revert b. induction a as [|x a IH]; intros [|y b]; cbn [same]; try done.
  rewrite andb_true_iff, Z.eqb_eq, IH. split; [intros [-> ->]; done|]. by intros [= -> ->].
Qed.

Lemma streq_spec a b : Forall (fun c => c <> 0) a -> Forall (fun c => c <> 0) b -> streq a b = true <-> a = b.
Proof.
  unfold streq. rewrite Z.eqb_eq. revert b. induction a as [|x a IH]; intros [|y b] Ha Hb; cbn [str_diff]; try done.
  - apply Forall_cons in Hb as [Hy _]. split; [lia|done].
  - apply Forall_cons in Ha as [Hx _]. split; [lia|done].
  - apply Forall_cons in Ha as [Hx Ha], Hb as [Hy Hb]. destruct (Z.eqb_spec x y) as [->|].
    + rewrite IH by done. split; [by intros ->|by intros [= ->]].
    + split; [lia|congruence].
Qed.

Lemma cstr_chars m a l : cstr_at m a l -> Forall (fun c => c <> 0) l.
Proof. revert a. induction l as [|c l IH]; intros a; cbn; [done|]. intros (_ & Hc & H). constructor; [done|by eapply IH]. Qed.

(** Comparing the lists is what [xk_strcmp] does in memory. *)
Lemma streq_memory m a b l1 l2 fuel : cstr_at m a l1 -> cstr_at m b l2 -> (length l1 <= fuel)%nat ->
  exists r, xk_strcmp fuel m a b = Some r /\ (r =? 0) = streq l1 l2.
Proof.
  intros H1 H2 Hf. unfold xk_strcmp. rewrite xk_strcmp_same, !Z.add_0_r.
  destruct (strcmp_loop_spec m l1 a b l2 fuel H1 H2 Hf) as (r & E & Hr). exists r. split; [done|].
  pose proof (streq_spec l1 l2 (cstr_chars _ _ _ H1) (cstr_chars _ _ _ H2)) as Hs.
  destruct (Z.eqb_spec r 0), (streq l1 l2); try done; exfalso; intuition congruence.
Qed.

Definition blanks (l : list Z) : Prop := Forall (fun c => c = blank) l.
Definition solid (l : list Z) : Prop := Forall (fun c => c <> blank) l.

(** The text starts and ends with a character other than a blank. *)
Definition tight (l : list Z) : Prop := match l with [] => True | c :: _ => c <> blank /\ exists d l', l = l' ++ [d] /\ d <> blank end.

Lemma skip_blanks_app sp l : blanks sp -> (forall c l', l = c :: l' -> c <> blank) -> skip_blanks (sp ++ l) = l.
Proof.
  intros Hs Hl. induction Hs as [|c sp -> _ IH]; cbn [app skip_blanks].
  - destruct l as [|c l']; [done|]. specialize (Hl c l' eq_refl). cbn. by destruct (Z.eqb_spec c blank).
  - by rewrite Z.eqb_refl.
Qed.

Lemma first_loop_spec w : forall k rest first, solid w -> (length w <= k)%nat ->
  (rest = [] \/ exists r, rest = blank :: r) -> first_loop (w ++ rest) k first = (first ++ w, rest).
Proof.
  induction w as [|c w IH]; intros k rest first Hw Hk Hr; cbn [app].
  - rewrite app_nil_r. by destruct Hr as [->|(r & ->)], k.
  - apply Forall_cons in Hw as [Hc Hw]. destruct k as [|k]; cbn [length first_loop] in *; [lia|].
    destruct (Z.eqb_spec c blank); [done|]. rewrite IH by (done || lia). by rewrite <- app_assoc.
Qed.

Lemma trim_spec a sp : tight a -> blanks sp -> trim_blanks (a ++ sp) = a.
Proof.
  intros Ha Hs. unfold trim_blanks. rewrite reverse_app, skip_blanks_app; [apply reverse_involutive|by apply Forall_reverse|].
  intros c l' E. destruct a as [|x a]; [done|]. destruct Ha as (_ & d & y & Ea & Hd). rewrite Ea, reverse_app in E. by injection E as <-.
Qed.

(** A word of at most 31 characters, blanks, an argument of at most 479, blanks:
    the command line is split into the word and the argument. *)
Lemma parse_words w sp a sp' : solid w -> lenZ w <= 31 -> blanks sp -> tight a -> blanks sp' -> lenZ (a ++ sp') <= 479 ->
  (sp = [] -> a ++ sp' = []) -> parse_command_line (w ++ sp ++ a ++ sp') = (w, a).
Proof.
  intros Hw Hl Hs Ha Hs' Hla Hsep. unfold parse_command_line, split_first. change (MAX_CMD_LEN - 1) with 31.
  assert (sp ++ a ++ sp' = [] \/ exists r, sp ++ a ++ sp' = blank :: r) as Hr.
  { destruct Hs as [|c sp -> _]; [left; by apply Hsep|right; by eexists]. }
  rewrite first_loop_spec by (done || lia). cbn [app].
  assert (trim_blanks (copy_str (skip_blanks (sp ++ a ++ sp')) MAX_ARG_LEN) = a) as ->; [|done].
  destruct (decide (a = [])) as [->|Hn].
  - cbn [app]. rewrite <- (app_nil_r (sp ++ sp')), skip_blanks_app; [done| |done]. by apply Forall_app.
  - rewrite skip_blanks_app; [|done|].
    + unfold copy_str. change (MAX_ARG_LEN - 1) with 479. rewrite take_ge by lia. by apply trim_spec.
    + intros c l' E. destruct a as [|x a]; [done|]. injection E as <- _. apply Ha.
Qed.
