(* ===== verification/Run.v ===== *)
(** The [run] command: the embedded images ([images/images.c],
    [images/prog_exb.h]) and [utils/run.c], which creates an address space,
    loads an image into it, runs it in time slices and reclaims everything. *)

From Stdlib Require Import String.
From S2P Require Import Prelude.
From S2P Require Import Bytes.
From S2P Require Import Physical.
From S2P Require Import Ledger.
From S2P Require Import Paging.
From S2P Require Import PageTree.
From S2P Require Import Aspace.
From S2P Require Import Exb.
From S2P Require Import Sys.
From S2P Require Import Frames.
From S2P Require Import Trap.
From S2P Require Import Proc.
From S2P Require Import Load.
From S2P Require Import LoadAmd64.
From S2P Require Import Xsh.

#[local] Ltac Zify.zify_post_hook ::= Z.div_mod_to_equations.

(** * Embedded images *)

Definition prog_exb : list Z :=
  [127; 69; 88; 66; 1; 1; 64; 0; 0; 0; 0; 0; 1; 0; 0; 0;
   0; 0; 0; 0; 128; 0; 0; 0; 176; 0; 0; 0; 149; 184; 6; 188;
   64; 0; 0; 0; 1; 0; 0; 0; 96; 0; 0; 0; 3; 0; 0; 0;
   0; 0; 0; 0; 0; 0; 0; 0; 0; 0; 0; 0; 0; 0; 0; 0;
   0; 0; 0; 0; 128; 0; 0; 0; 18; 0; 0; 0; 0; 0; 0; 0;
   144; 0; 0; 0; 18; 0; 0; 0; 5; 0; 0; 0; 0; 0; 0; 0;
   1; 0; 0; 0; 0; 0; 0; 0; 0; 32; 0; 0; 0; 0; 0; 0;
   2; 0; 0; 0; 0; 0; 0; 0; 16; 0; 0; 0; 0; 0; 0; 0;
   3; 0; 0; 0; 0; 0; 0; 0; 4; 0; 0; 0; 0; 0; 0; 0;
   243; 15; 30; 250; 184; 1; 0; 0; 0; 191; 7; 0; 0; 0; 205; 128;
   235; 254; 0; 0; 0; 0; 0; 0; 0; 0; 0; 0; 0; 0; 0; 0].

Definition prog_exb_len : Z := 176.

Record XshImage := mkImage { im_name : list Z; im_data : list Z; im_len : Z }.

Definition g_images : list XshImage := [mkImage (txt "prog") prog_exb prog_exb_len].

Fixpoint image_scan (l : list XshImage) (name : list Z) : option XshImage :=
  match l with
  | [] => None
  | img :: l => if same (im_name img) name then Some img else image_scan l name
  end.

Definition xsh_image_find (name : list Z) : option XshImage := image_scan g_images name.
Definition xsh_image_count : Z := lenZ g_images.
Definition xsh_image_at (i : Z) : option XshImage := g_images !! Z.to_nat i.

(** * The command *)

Definition RUN_OWNER : Z := 1.
Definition RUN_SLICE_MS : Z := 10.
Definition RUN_MAX_SLICES : Z := 500.

Definition list_images : list Z :=
  line (txt "embedded images:") ++
  concat ((fun i => txt "  " ++ line (default [] (im_name <$> xsh_image_at i))) <$> seqZ 0 xsh_image_count).

(** What the processor does in each slice: the interrupts pending when it
    starts, and the traps of the program. *)
Definition Ring3 : Type := nat -> list Event * list Event.

(** The loop over the slices: [n] of them are left, [k] have run. The status,
    the number of slices, and [r]. [None] stands for a program that neither
    leaves nor is interrupted. *)
Fixpoint run_slices (n k : nat) (a : XAspace) (ctx : XContext) (r : option XProcResult) (cpu : Ring3) (s : ProcState) :
    option (Z * Z * option XProcResult * ProcState) :=
  match n with
  | O => Some (XPROC_PREEMPT, Z.of_nat k, r, s)
  | S n =>
    match xproc_run_ctx (Some a) (Some ctx) true (cpu k).1 (cpu k).2 s with
    | Refused st => Some (st, Z.of_nat (S k), r, s)
    | Ended st ctx' r' s' =>
      if st =? XPROC_PREEMPT then run_slices n (S k) a (default ctx ctx') r' cpu s' else Some (st, Z.of_nat (S k), r', s')
    | NotEnded _ => None
    end
  end.

(** What the command says of the end of the program. *)
Definition run_report (st : Z) (r : XProcResult) : list Z :=
  if st =? XPROC_PREEMPT then line (txt "EXTIMEOUT: program used its CPU limit and was stopped") else
  if st =? XPROC_EXIT then txt "exit=" ++ line (put_dec (exit_code r)) else
  if st =? XPROC_FAULT then
    txt "EXFAULT: vector=" ++ put_dec (x_vector r) ++ txt " error=" ++ put_hex (x_error r) 4 ++
    txt " cr2=" ++ put_hex (x_cr2 r) 16 ++ txt " rip=" ++ line (put_hex (x_rip r) 16)
  else line (txt "EXSTATE: unexpected run state").

Definition set_ks (s : ProcState) (ks : KState) : ProcState := set_p_sys s (set_sk (p_sys s) ks).

(** The slices, with the quantum set before and cleared after. *)
Definition run_program (a : XAspace) (res : XLoadResult) (cpu : Ring3) (s : ProcState) :
    option (Z * Z * option XProcResult * ProcState) :=
  let '(q, s) := xproc_set_quantum_ms RUN_SLICE_MS s in
  let s := if negb (q =? 0) then (xproc_set_quantum_ms 0 s).2 else s in
  '(st, slices, r, s) ← run_slices (Z.to_nat RUN_MAX_SLICES) 0 a (xctx_init (l_entry res) (l_stack_top res)) None cpu s;
  Some (st, slices, r, (xproc_set_quantum_ms 0 s).2).

(** The loader's failure path: the space alone is left to destroy. *)
Definition run_unload (a : XAspace) (s : ProcState) : ProcState := set_ks s (xas_destroy (Some a) (s_k (p_sys s))).2.

(** From [xas_create] on: the status, the output and the state; [info] is what
    the loader's record of the image holds before it is filled. *)
Definition run_image (img : XshImage) (info : ExbInfo) (cpu : Ring3) (s : ProcState) : option (Z * list Z * ProcState) :=
  match xas_create RUN_OWNER (s_k (p_sys s)) with
  | (_, None, ks) => Some (-1, line (txt "EXNOMEM: no address space for the program"), set_ks s ks)
  | (rc, Some a, ks) =>
    if negb (rc =? XAS_OK) then Some (-1, line (txt "EXNOMEM: no address space for the program"), set_ks s ks) else
    '(rc, res, sys) ← xload_exb (Some a) RUN_OWNER (Some (im_data img)) (im_len img) true info (p_sys (set_ks s ks));
    let s := set_p_sys s sys in
    if negb (rc =? XLOAD_OK) then
      Some (-1, txt "EXBADIMAGE: load failed, code " ++ line (put_dec (u64 (- rc))), run_unload a s)
    else
      res ← res;
      '(st, slices, r, s) ← run_program a res cpu s;
      '(reclaimed, _, ks) ← xproc_reap 66 (Some a) (s_k (p_sys s));
      Some (if st =? XPROC_EXIT then 0 else -1,
            run_report st (default zero_result r) ++
              txt "slices=" ++ put_dec slices ++ txt " reclaimed=" ++ line (put_dec reclaimed),
            set_ks s ks)
  end.

Definition cmd_run_main (name : list Z) (info : ExbInfo) (cpu : Ring3) (s : ProcState) : option (Z * list Z * ProcState) :=
  if bool_decide (name = []) then Some (0, list_images, s) else
  match xsh_image_find name with
  | None => Some (-1, txt "EXNOENT: no embedded image named " ++ line name, s)
  | Some img => run_image img info cpu s
  end.

(** * What stays *)

(** The live tokens, as the loader sees them. *)
Definition tokens_of (ks : KState) (t : Z) : option TokView :=
  (fun e => mkTV (owner_id e) (n_frames e) (rights e)) <$> tok_entry ks t.

(** The tokens of everyone but [o] are the same. *)
Definition others_kept (o : Z) (ks ks' : KState) : Prop :=
  forall t tv, tv_owner tv <> o -> tokens_of ks' t = Some tv <-> tokens_of ks t = Some tv.

#[export] Instance others_kept_preorder o : PreOrder (others_kept o).
Proof. split; [by intros ks t tv|]. intros k1 k2 k3 H1 H2 t tv Ho. by rewrite (H2 t tv Ho), (H1 t tv Ho). Qed.

Lemma kept_same o ks ks' : (forall t, tokens_of ks' t = tokens_of ks t) -> others_kept o ks ks'.
Proof. intros H t tv _. by rewrite H. Qed.

Lemma same_tokens_of ks ks' t : same_tokens (ledger (k_mem ks)) (ledger (k_mem ks')) -> tokens_of ks' t = tokens_of ks t.
Proof.
  intros H. unfold tokens_of, tok_entry. case_decide as Ht; [|done]. destruct (H t Ht) as [c ->]. by destruct (info _ t).
Qed.

Lemma tokens_of_Some ks t tv : tokens_of ks t = Some tv <->
  0 <= t < 2 ^ 64 /\ exists e, info (ledger (k_mem ks)) t = Some e /\ tv = mkTV (owner_id e) (n_frames e) (rights e).
Proof.
  unfold tokens_of. rewrite fmap_Some. setoid_rewrite tok_entry_Some. split.
  - intros (e & [Ht He] & ->). eauto.
  - intros (Ht & e & He & ->). eauto.
Qed.

(** Adding or removing tokens of [o] only. *)
Lemma kept_info o ks ks' :
  (forall t e, 0 <= t < 2 ^ 64 -> owner_id e <> o -> info (ledger (k_mem ks')) t = Some e <-> info (ledger (k_mem ks)) t = Some e) ->
  others_kept o ks ks'.
Proof.
  intros H t tv Ho. rewrite !tokens_of_Some. split; intros (Ht & e & He & ->); (split; [done|]); exists e; (split; [|done]); by apply H.
Qed.

(** ** System calls *)

Lemma call_kept a f s S : k_inv (s_k s) S -> a ∈ S -> regs_ok f ->
  others_kept (as_owner a) (s_k s) (s_k (xsys_resource a f s).2).
Proof.
  intros Hk Ha Hf. assert (forall r : ExcFrame, others_kept (as_owner a) (s_k s) (s_k (r, s).2)) as Hid by done.
  unfold xsys_resource. destruct (_ =? XSYS_ALLOC); [|destruct (_ =? XSYS_MAP); [|destruct (_ =? XSYS_UNMAP); [|destruct (_ =? XSYS_FREE)]]].
  - pose proof (sys_alloc_spec a f s S Hk Ha Hf) as H. destruct (sys_alloc a f s) as [f' s']. cbn [snd]. apply kept_info.
    intros t e Ht Ho. destruct H as [_ [(x & Hx)|(_ & Hl & _)]]; [|unfold k_ledger in Hl; by rewrite Hl].
    pose proof (al_info _ _ _ _ _ _ Hx t Ht) as Hi. unfold k_ledger in Hi. rewrite Hi. case_decide as D; [|done]. subst t.
    pose proof (al_fresh _ _ _ _ _ _ Hx) as Hn. unfold k_ledger in Hn. rewrite Hn. split; [|done].
    intros [= <-]. by destruct (al_entry _ _ _ _ _ _ Hx) as [? _].
  - destruct Hf as (Hn & _ & Hd). unfold sys_map. destruct (_ >? _) eqn:E; [done|]. rewrite u32_small by lia.
    pose proof (xas_map_tokens (s_k s) S a (f_rsi f) (f_rdi f) (f_rdx f) Hk Ha Hn ltac:(lia)) as Ht.
    destruct (xas_map _ _ _ _ _) as [rc ks']. apply kept_same. intros t. by apply same_tokens_of.
  - unfold sys_unmap. pose proof (xas_unmap_tokens (s_k s) S a (f_rdi f) Hk) as Ht.
    destruct (xas_unmap _ _ _) as [rc ks']. apply kept_same. intros t. by apply same_tokens_of.
  - destruct Hf as (Hn & _). unfold sys_free, xtok_release_owned.
    assert (others_kept (as_owner a) (s_k s) (set_kmem (s_k s) (release_impl (f_rdi f) (REL_CHECK_RIGHT .| REL_CHECK_OWNER) (as_owner a) (k_mem (s_k s))).2)) as Hkept.
    { pose proof (release_impl_spec (f_rdi f) (REL_CHECK_RIGHT .| REL_CHECK_OWNER) (as_owner a) _ (k_mem_inv _ _ Hk) Hn) as H.
      destruct (info _ _) as [e|] eqn:He; [|by rewrite H; apply kept_info]. destruct (_ && negb _) eqn:Eo; [by rewrite H; apply kept_info|].
      destruct (_ && (_ =? 0)); [by rewrite H; apply kept_info|]. destruct (negb (map_count e =? 0)); [by rewrite H; apply kept_info|].
      destruct H as (st' & -> & (_ & _ & _ & _ & Hi) & _). apply kept_info. intros t x Ht Ho. cbn [snd set_kmem k_mem].
      rewrite Hi by done. case_decide as D; [|done]. subst t. rewrite He. split; [done|]. intros [= <-].
      change (tst ((REL_CHECK_RIGHT .| REL_CHECK_OWNER) .& REL_CHECK_OWNER)) with true in Eo. cbn [andb] in Eo.
      by apply negb_false_iff, Z.eqb_eq in Eo. }
    destruct (release_impl _ _ _ _) as [rc st']. cbn [snd] in Hkept.
    destruct (rc =? 0); [exact Hkept|]. destruct (rc =? XTOK_REL_EBUSY); [exact Hkept|]. destruct (rc =? XTOK_REL_ERIGHTS); exact Hkept.
  - destruct (_ =? XSYS_INFO); [|done]. unfold sys_info. destruct (quota_of _ _), (xtok_owner_usage _ _).
    repeat (destruct (_ =? _); [done|]). done.
Qed.

(** A trap changes the kernel's books through a system call at most. *)
Lemma trap_sys e s a : g_as s = Some a ->
  p_sys (on_trap e s).2 = p_sys s \/ p_sys (on_trap e s).2 = (xsys_resource a (ev_frame e) (p_sys s)).2.
Proof.
  intros Ha. unfold on_trap, exception_handler.
  assert (p_sys (user_hook (ev_frame e) (ev_cr2 e) s).2 = p_sys s \/
    p_sys (user_hook (ev_frame e) (ev_cr2 e) s).2 = (xsys_resource a (ev_frame e) (p_sys s)).2) as Hu.
  { unfold user_hook. destruct (g_res s) as [r|]; [|by left]. destruct (_ =? 0x80); [|by left].
    destruct (_ =? XSYS_EXIT); [by left|]. destruct (_ =? XSYS_LOG); [by left|]. destruct (_ =? XSYS_YIELD); [by left|].
    rewrite Ha. destruct (_ && _); [|by left]. right. by destruct (xsys_resource a (ev_frame e) (p_sys s)). }
  assert (p_sys (irq_hook (ev_frame e) (ev_cr2 e) s).2 = p_sys s) as Hi.
  { unfold irq_hook. destruct (_ =? LAPIC_TIMER_VEC); [|by destruct (_ =? LAPIC_SPURIOUS_VEC)].
    cbn [set_p_lapic g_res g_ctx]. destruct (g_res s), (g_ctx s); try done. by destruct (_ =? 3). }
  destruct (_ && _); [by left|]. destruct (_ || _); [exact Hu|by left].
Qed.

Section Slices.
Context `{Bt : Boot} (a : XAspace) (S : list XAspace) (Ha : a ∈ S).

Lemma run_user_kept q ctx evs : forall vs s, in_run q a ctx vs S s -> Forall user_event evs ->
  match run_user evs s with
  | Left _ s' | Running s' | Stopped s' => others_kept (as_owner a) (s_k (p_sys s)) (s_k (p_sys s'))
  end.
Proof.
  induction evs as [|e evs IH]; intros vs s Hin Hev; cbn [run_user]; [done|].
  apply Forall_cons in Hev as [He Hev]. pose proof (on_trap_spec q a ctx vs S s e Hin Ha He) as H.
  assert (others_kept (as_owner a) (s_k (p_sys s)) (s_k (p_sys (on_trap e s).2))) as Hk.
  { destruct (trap_sys e s a (ir_as _ _ _ _ _ _ Hin)) as [-> | ->]; [done|].
    apply (call_kept a (ev_frame e) (p_sys s) S); [apply reachable_inv, (ir_reach _ _ _ _ _ _ Hin)|done|apply He]. }
  destruct (ends e).
  - destruct H as (s' & E & _). by rewrite E in *.
  - destruct H as (f' & s' & E & Hin'). rewrite E in *. cbn [snd] in Hk. specialize (IH _ s' Hin' Hev).
    by destruct (run_user evs s'); (etransitivity; [exact Hk|]).
Qed.

Lemma stale_sys evs : forall s, Forall stale_event evs -> p_sys (fold_left (fun s e => (on_trap e s).2) evs s) = p_sys s.
Proof.
  induction evs as [|e evs IH]; intros s Hev; [done|]. apply Forall_cons in Hev as [(Hcs & Hv & Hne) Hev]. cbn [fold_left].
  rewrite IH by done. unfold on_trap, exception_handler. rewrite Z.geb_leb. destruct (Z.leb_spec 32 (f_vector (ev_frame e))); [|lia].
  destruct (Z.eqb_spec (f_vector (ev_frame e)) 0x80); [done|]. cbn [andb negb]. unfold irq_hook.
  destruct (_ =? LAPIC_TIMER_VEC); [|by destruct (_ =? LAPIC_SPURIOUS_VEC)].
  cbn [set_p_lapic g_res g_ctx]. destruct (g_res s), (g_ctx s); try done. by destruct (_ =? 3).
Qed.

Lemma begin_sys ctx stale s : Forall stale_event stale -> p_sys (run_begin a ctx stale s) = p_sys s.
Proof.
  intros Hst. unfold run_begin. cbv zeta. destruct (armed s); [|done]. cbn [set_p_lapic p_sys]. by rewrite stale_sys.
Qed.

(** A slice: interrupts pending at its start, traps of a program in ring 3,
    and in the end a trap that leaves the program: the timer, at the latest. *)
Definition slice_ok (c : list Event * list Event) : Prop :=
  Forall stale_event c.1 /\ Forall user_event c.2 /\ Exists (fun e => ends e <> None) c.2.

(** How a slice ends. *)
Definition slice_end (c : list Event * list Event) : option Z := head (omap ends c.2).

Lemma slice_end_split pre e post st : Forall (fun e => ends e = None) pre -> ends e = Some st ->
  head (omap ends (pre ++ e :: post)) = Some st.
Proof. intros Hp He. induction Hp as [|x pre Hx _ IH]; cbn; [by rewrite He|]. by rewrite Hx. Qed.

Lemma slice_spec ctx c s : reachable (s_k (p_sys s)) S -> slice_ok c ->
  exists st ctx' r' s', xproc_run_ctx (Some a) (Some ctx) true c.1 c.2 s = Ended st (Some ctx') (Some r') s' /\
    slice_end c = Some st /\ reachable (s_k (p_sys s')) S /\
    others_kept (as_owner a) (s_k (p_sys s)) (s_k (p_sys s')) /\ g_res s' = None /\ g_ctx s' = None /\ g_as s' = None.
Proof.
  intros Hr (Hst & Hu & He). pose proof (run_ctx_spec a ctx c.1 c.2 s S Hr Ha Hst Hu) as H.
  pose proof (run_user_kept _ _ c.2 [] _ (run_begin_spec a ctx c.1 s S Hr Hst) Hu) as Hk.
  rewrite begin_sys in Hk by done. unfold xproc_run_ctx in *. apply reachable_inv in Hr as Hki.
  destruct (ki_space _ _ Hki a Ha) as [Hl _]. rewrite Hl in *. cbn [negb orb] in *.
  destruct (run_user c.2 _) as [s1|st s1|s1].
  - destruct H as [Hn _]. apply Exists_exists in He as (e & Hin & He). rewrite Forall_forall in Hn. by destruct He; auto.
  - destruct H as (pre & e & post & E & Hp & Hend & Hres & Hctx & G1 & G2 & G3 & _ & Hr' & _).
    rewrite Hres, Hctx. eexists st, _, _, _. split; [done|]. split_and!; try done.
    unfold slice_end. rewrite E. by apply slice_end_split.
  - destruct H as [Hn _]. apply Exists_exists in He as (e & Hin & He). rewrite Forall_forall in Hn. by destruct He; auto.
Qed.

(** The status with which [n] slices from slice [k] end, and the slices used. *)
Fixpoint fate (n k : nat) (cpu : Ring3) : Z * Z :=
  match n with
  | O => (XPROC_PREEMPT, Z.of_nat k)
  | Datatypes.S n =>
    let st := default 0 (slice_end (cpu k)) in
    if st =? XPROC_PREEMPT then fate n (Datatypes.S k) cpu else (st, Z.of_nat (Datatypes.S k))
  end.

Definition idle_cpu (s : ProcState) : Prop := g_res s = None /\ g_ctx s = None /\ g_as s = None.

Lemma slices_spec cpu : (forall k, slice_ok (cpu k)) -> forall n k ctx r s, reachable (s_k (p_sys s)) S -> idle_cpu s ->
  exists r' s', run_slices n k a ctx r cpu s = Some (fate n k cpu, r', s') /\ reachable (s_k (p_sys s')) S /\
    others_kept (as_owner a) (s_k (p_sys s)) (s_k (p_sys s')) /\ idle_cpu s'.
Proof.
  intros Hc. induction n as [|n IH]; intros k ctx r s Hr Hi; cbn [run_slices fate]; [by exists r, s|].
  destruct (slice_spec ctx (cpu k) s Hr (Hc k)) as (st & ctx' & r' & s' & -> & -> & Hr' & Hk & Hidle). change (default 0 (Some st)) with st.
  destruct (st =? XPROC_PREEMPT); [|by exists (Some r'), s'].
  destruct (IH (Datatypes.S k) ctx' (Some r') s' Hr' Hidle) as (r2 & s2 & E & Hr2 & Hk2 & Hi2).
  exists r2, s2. split_and!; [exact E|done|by etransitivity|done].
Qed.

Lemma quantum_same ms s : p_sys (xproc_set_quantum_ms ms s).2 = p_sys s /\ (idle_cpu (xproc_set_quantum_ms ms s).2 <-> idle_cpu s).
Proof. unfold xproc_set_quantum_ms. destruct (ms =? 0); [done|]. destruct (_ =? 0); [done|]. by destruct (_ >? _). Qed.

Lemma program_spec cpu res s : (forall k, slice_ok (cpu k)) -> reachable (s_k (p_sys s)) S -> idle_cpu s ->
  exists r' s', run_program a res cpu s = Some (fate 500 0 cpu, r', s') /\ reachable (s_k (p_sys s')) S /\
    others_kept (as_owner a) (s_k (p_sys s)) (s_k (p_sys s')) /\ idle_cpu s'.
Proof.
  intros Hc Hr Hi. unfold run_program. pose proof (quantum_same RUN_SLICE_MS s) as [E1 I1].
  destruct (xproc_set_quantum_ms RUN_SLICE_MS s) as [q s1]. cbn [snd] in *.
  set (s2 := if negb (q =? 0) then _ else s1).
  assert (p_sys s2 = p_sys s /\ idle_cpu s2) as [E2 I2].
  { unfold s2. destruct (negb _); [|tauto]. destruct (quantum_same 0 s1) as [E I]. rewrite E. tauto. }
  destruct (slices_spec cpu Hc (Z.to_nat RUN_MAX_SLICES) 0 (xctx_init (l_entry res) (l_stack_top res)) None s2) as (r & s3 & E & H1 & H2 & H3);
    [by rewrite E2|done|].
  rewrite E. change (Z.to_nat RUN_MAX_SLICES) with 500%nat. cbn [mbind option_bind]. destruct (fate 500 0 cpu) as [st n].
  destruct (quantum_same 0 s3) as [E4 I4]. eexists r, _. split; [done|]. rewrite E4. rewrite E2 in H2. tauto.
Qed.
End Slices.

(** ** The whole command *)

Lemma pieces_kept ps : forall v o, fresh_pieces ps v -> Forall (fun p => tv_owner (pc_tv p) = o) ps ->
  forall t tv, tv_owner tv <> o -> vw_tok (v_pieces ps v) t = Some tv <-> vw_tok v t = Some tv.
Proof.
  induction ps as [|p ps IH]; intros v o Hf Hp t tv Ho; [done|]. destruct Hf as (Hn & _ & Hf). apply Forall_cons in Hp as [Hpo Hp].
  change (v_pieces (p :: ps) v) with (v_pieces ps (v_piece p v)). rewrite (IH _ o Hf Hp t tv Ho).
  cbn [v_piece v_take v_map v_fill v_alloc vw_tok]. unfold upd. case_decide as D; [|done]. subst t. rewrite Hn. split; [|done].
  intros [= <-]. done.
Qed.

Lemma loaded_kept owner img a s s' info o ps stk :
  loaded owner img (kview a s) (kview a s') info o ps stk -> others_kept owner (s_k s) (s_k s').
Proof.
  intros H t tv Ho. destruct (ld_view _ _ _ _ _ _ _ _ H) as (Et & _). specialize (Et t).
  change (vw_tok (kview a s') t) with (tokens_of (s_k s') t) in Et. rewrite Et.
  change (tokens_of (s_k s) t) with (vw_tok (kview a s) t). apply (pieces_kept _ _ owner); [apply H| |done].
  apply Forall_app. split.
  - eapply Forall2_Forall_r; [apply H|]. apply Forall_forall. by intros sg _ p (tok & ->).
  - destruct (ld_stack _ _ _ _ _ _ _ _ H) as (tok & ->). by repeat constructor.
Qed.

Lemma without_new a S : NoDup (roots (a :: S)) -> without a (a :: S) = S.
Proof.
  intros [Hn _]%NoDup_cons. unfold without. rewrite filter_cons_False by tauto.
  induction S as [|b S IH]; [done|]. apply not_elem_of_cons in Hn as [Hb Hn].
  rewrite filter_cons_True by (intros E; by apply Hb). by rewrite IH.
Qed.

(** What a slot of the ledger counts for. *)
Definition slot_frames (e : XTokenEntry) : option Z := if live e then Some (n_frames e) else None.

Lemma slot_token ks S i e : k_inv ks S -> g_table (ledger (k_mem ks)) !! i = Some e -> live e = true ->
  exists t, 0 <= t < 2 ^ 64 /\ token_slot t = Z.of_nat i /\ tokens_of ks t = Some (mkTV (owner_id e) (n_frames e) (rights e)).
Proof.
  intros Hk He Hl. pose proof (mi_ledger _ (k_mem_inv _ _ Hk)) as Hw. apply lookup_lt_Some in He as Hlt. rewrite (lw_len _ Hw) in Hlt.
  pose proof (eo_gen _ (entry_of _ _ _ Hw He)) as Hg. pose proof (pack_token_range (Z.of_nat i) (generation e)) as Hr.
  exists (pack_token (Z.of_nat i) (generation e)). split_and!; [lia|lia|by apply token_slot_pack; lia|].
  apply tokens_of_Some. split; [lia|]. exists e. split; [|done]. apply info_pack; [done|lia|by rewrite Nat2Z.id|done].
Qed.

Lemma slots_le ks S ks' S' i e e' : k_inv ks S -> k_inv ks' S' -> (forall t, tokens_of ks' t = tokens_of ks t) ->
  g_table (ledger (k_mem ks)) !! i = Some e -> g_table (ledger (k_mem ks')) !! i = Some e' -> live e = true -> slot_frames e' = slot_frames e.
Proof.
  intros Hk Hk' Hs He He' Hl. destruct (slot_token ks S i e Hk He Hl) as (t & Ht & Hi & Et). rewrite <- Hs in Et.
  apply tokens_of_Some in Et as (_ & x & (_ & _ & Hx & Hlx & _)%info_Some & [= E1 E2 E3]). rewrite Hi, Nat2Z.id, He' in Hx.
  injection Hx as ->. unfold slot_frames. by rewrite Hl, Hlx, E2.
Qed.

Lemma slots_same ks S ks' S' : k_inv ks S -> k_inv ks' S' -> (forall t, tokens_of ks' t = tokens_of ks t) ->
  slot_frames <$> g_table (ledger (k_mem ks')) = slot_frames <$> g_table (ledger (k_mem ks)).
Proof.
  intros Hk Hk' Hs. apply list_eq_same_length with 4096%nat.
  - rewrite length_fmap. apply (mi_ledger _ (k_mem_inv _ _ Hk)).
  - rewrite length_fmap. apply (mi_ledger _ (k_mem_inv _ _ Hk')).
  - intros i x y _. rewrite !list_lookup_fmap, !fmap_Some. intros (e' & He' & ->) (e & He & ->).
    destruct (live e) eqn:Hl; [by apply (slots_le ks S ks' S' i)|]. destruct (live e') eqn:Hl'.
    + symmetry. apply (slots_le ks' S' ks S i); (done || by intros t; rewrite Hs).
    + unfold slot_frames. by rewrite Hl, Hl'.
Qed.

Lemma live_sum_slots t t' : slot_frames <$> t = slot_frames <$> t' -> live_sum t = live_sum t' /\ countb live t = countb live t'.
Proof.
  revert t'. induction t as [|e t IH]; intros [|e' t']; cbn [fmap list_fmap]; try done. intros [= He Ht].
  destruct (IH t' Ht) as [H1 H2]. cbn [live_sum countb]. rewrite H1, H2. unfold slot_frames in He.
  destruct (live e), (live e'); try done. by injection He as ->.
Qed.

Section Command.
Context `{Bt : Boot}.

(** With the same tokens, the counts are the same. *)
Lemma counts_same ks S ks' S' : reachable ks S -> reachable ks' S' -> (forall t, tokens_of ks' t = tokens_of ks t) ->
  xtok_live_count (ledger (k_mem ks')) = xtok_live_count (ledger (k_mem ks)) /\
  (S = [] -> S' = [] -> phys_free_count (phys (k_mem ks')) = phys_free_count (phys (k_mem ks))).
Proof.
  intros Hr Hr' Hs. pose proof (reachable_inv _ _ Hr) as Hk. pose proof (reachable_inv _ _ Hr') as Hk'.
  destruct (live_sum_slots _ _ (slots_same ks S ks' S' Hk Hk' Hs)) as [E1 E2]. split.
  - unfold xtok_live_count. by rewrite (lw_live _ (mi_ledger _ (k_mem_inv _ _ Hk))), (lw_live _ (mi_ledger _ (k_mem_inv _ _ Hk'))), E2.
  - intros -> ->. pose proof (free_count ks Hr). pose proof (free_count ks' Hr'). lia.
Qed.

(** What a run may do to the kernel's books: nothing to the tokens of others,
    and its owner ends with none, or with what it had if nothing was run. *)
Definition settled (ks ks' : KState) : Prop :=
  others_kept RUN_OWNER ks ks' /\
  ((forall t, tokens_of ks' t = tokens_of ks t) \/ (forall t tv, tokens_of ks' t = Some tv -> tv_owner tv <> RUN_OWNER)).

Lemma settled_same ks ks' : (forall t, tokens_of ks' t = tokens_of ks t) -> settled ks ks'.
Proof. intros H. split; [by apply kept_same|by left]. Qed.

(** Without tokens of the owner before, every token is as before. *)
Lemma settled_all ks ks' : settled ks ks' -> (forall t tv, tokens_of ks t = Some tv -> tv_owner tv <> RUN_OWNER) ->
  forall t, tokens_of ks' t = tokens_of ks t.
Proof.
  intros [Hk [Hs|Hn]] H0 t; [done|]. destruct (tokens_of ks' t) as [tv|] eqn:E'.
  - symmetry. apply Hk; [by apply (Hn t)|done].
  - destruct (tokens_of ks t) as [tv|] eqn:E; [|done]. rewrite <- E'. apply Hk; [by apply (H0 t)|done].
Qed.

Lemma reaped ks S a : reachable ks S -> a ∈ S -> as_owner a = RUN_OWNER ->
  exists n ks', xproc_reap 66 (Some a) ks = Some (n, Some (mkAs (as_root a) (as_owner a) false), ks') /\
    reachable ks' (without a S) /\ others_kept RUN_OWNER ks ks' /\
    (forall t tv, tokens_of ks' t = Some tv -> tv_owner tv <> RUN_OWNER).
Proof.
  intros Hr Ha Ho. destruct (reap_spec 66 a ks S Hr Ha ltac:(lia)) as (ks' & E & Hr' & Hno & _ & Hf & Hb). rewrite Ho in *.
  eexists _, ks'. split_and!; [exact E|exact Hr'| |].
  - intros t tv Hne. rewrite !tokens_of_Some. split; intros (Ht & e & He & ->); (split; [done|]); cbn [tv_owner] in Hne.
    + destruct (Hb t e Ht He) as (x & c & Hx & ->). by exists x.
    + destruct (Hf t e Ht He Hne) as [c Hc]. by eexists.
  - intros t tv (Ht & e & He & ->)%tokens_of_Some. by apply (Hno t).
Qed.

(** The statuses [run_image] returns, and what they say of the program. *)
Definition ran (cpu : Ring3) (rc : Z) : Prop := rc = -1 \/ (rc = 0 /\ (fate 500 0 cpu).1 = XPROC_EXIT).

Lemma image_spec img info cpu s S : reachable (s_k (p_sys s)) S -> idle_cpu s -> (forall k, slice_ok (cpu k)) ->
  bytes_ok (im_data img) -> im_len img = lenZ (im_data img) -> im_len img < 2 ^ 32 -> length (seg info) = 8%nat ->
  exists rc out s', run_image img info cpu s = Some (rc, out, s') /\ reachable (s_k (p_sys s')) S /\ idle_cpu s' /\
    settled (s_k (p_sys s)) (s_k (p_sys s')) /\ ran cpu rc.
Proof.
  intros Hr Hi Hc Hb El Hl Hinfo. apply reachable_inv in Hr as Hk. unfold run_image.
  pose proof (xas_create_spec RUN_OWNER (s_k (p_sys s)) S Hk ltac:(done)) as Hcr.
  destruct (xas_create RUN_OWNER (s_k (p_sys s))) as [[rc a] ks1] eqn:Ecr.
  pose proof (reachable_step _ _ _ _ Hr (ks_create _ S RUN_OWNER rc a ks1 ltac:(done) Ecr)) as Hr1.
  assert (unchanged (s_k (p_sys s)) ks1 S) as Hun by (destruct a; tauto).
  assert (forall t, tokens_of ks1 t = tokens_of (s_k (p_sys s)) t) as Hs1.
  { intros t. apply same_tokens_of. rewrite (un_ledger _ _ _ Hun). apply same_tokens_refl. }
  destruct a as [a|]; [|eexists _, _, _; split_and!; [done|done|done|by apply settled_same|by left]].
  destruct Hcr as (-> & Ho & Hk1 & _). change (negb (XAS_OK =? XAS_OK)) with false. cbv iota. rewrite El in *.
  assert (a ∈ a :: S) as Ha by (by left). pose proof (without_new a S (ki_nodup _ _ Hk1)) as Ew.
  destruct (program_load_spec (a :: S) a RUN_OWNER (im_data img) info (p_sys (set_ks s ks1)) Hr1 Ha ltac:(done) Hb Hl Hinfo)
    as (rc & out & sys & E & Hr2 & Hcase). rewrite E. cbn [mbind option_bind]. cbv zeta.
  destruct Hcase as [(-> & inf & res & ps & stk & -> & Hld)|(Hrc & -> & Hv)].
  - change (negb (XLOAD_OK =? XLOAD_OK)) with false. cbv iota. cbn [mbind option_bind].
    apply loaded_kept in Hld. set (s2 := set_p_sys s sys) in *.
    destruct (program_spec a (a :: S) Ha cpu res s2 Hc Hr2 Hi) as (r & s3 & E3 & Hr3 & Hk3 & Hi3). rewrite E3. cbn [mbind option_bind].
    destruct (fate 500 0 cpu) as [st n] eqn:Ef. destruct (reaped _ _ a Hr3 Ha Ho) as (m & ks4 & E4 & Hr4 & Hk4 & Hn4). rewrite E4.
    rewrite Ew in Hr4. eexists _, _, _. split_and!; [done|done|done| |].
    + split; [|by right]. rewrite Ho in Hk3. transitivity ks1; [by apply kept_same|].
      transitivity (s_k sys); [exact Hld|]. by transitivity (s_k (p_sys s3)).
    + unfold ran. rewrite Ef. cbn [fst]. destruct (Z.eqb_spec st XPROC_EXIT); [right|left]; done.
  - rewrite (proj2 (Z.eqb_neq rc XLOAD_OK)) by (unfold XLOAD_OK; lia). cbn [negb].
    pose proof (reachable_step _ _ _ _ Hr2 (ks_destroy _ _ a Ha)) as Hr3. rewrite Ew in Hr3.
    apply reachable_inv in Hr2 as Hk2. destruct (xas_destroy_spec _ _ a Hk2 Ha) as [_ Hd].
    eexists _, _, _. split_and!; [done|exact Hr3|done| |by left]. apply settled_same. intros t. rewrite <- Hs1.
    transitivity (tokens_of (s_k sys) t); [apply same_tokens_of, Hd|]. destruct Hv as (Hv & _). exact (Hv t).
Qed.

Lemma images_ok img name : xsh_image_find name = Some img ->
  bytes_ok (im_data img) /\ im_len img = lenZ (im_data img) /\ im_len img < 2 ^ 32.
Proof.
  unfold xsh_image_find. cbn [image_scan g_images]. destruct (same _ _); [|done]. intros [= <-].
  split_and!; [|reflexivity|done]. vm_compute. repeat constructor; congruence.
Qed.

Lemma run_settled name info cpu s S :
  reachable (s_k (p_sys s)) S -> idle_cpu s -> (forall k, slice_ok (cpu k)) -> length (seg info) = 8%nat ->
  exists rc out s', cmd_run_main name info cpu s = Some (rc, out, s') /\ reachable (s_k (p_sys s')) S /\ idle_cpu s' /\
    settled (s_k (p_sys s)) (s_k (p_sys s')) /\ (ran cpu rc \/ rc = 0 /\ name = []).
Proof.
  intros Hr Hi Hc Hinfo. unfold cmd_run_main. case_bool_decide; [eexists _, _, _; split_and!; [done|done|done|by apply settled_same|by right]|].
  destruct (xsh_image_find name) as [img|] eqn:Ei.
  - destruct (images_ok img name Ei) as (Hb & El & Hl).
    destruct (image_spec img info cpu s S Hr Hi Hc Hb El Hl Hinfo) as (rc & out & s' & E & H1 & H2 & H3 & H4). eauto 10.
  - eexists _, _, _; split_and!; [done|done|done|by apply settled_same|by left; left].
Qed.

End Command.

(** * Witness *)

#[local] Existing Instance demo_boot_state.

(** The embedded program, interrupted once, exits with 7. *)
Definition demo_cpu : Ring3 := fun k => ([], if (k =? 0)%nat then [demo_trap 0x40 0 0] else [demo_trap 0x80 XSYS_EXIT 7]).
Definition demo_idle : ProcState := mkProc (mkSys demo_ks0 (replicate 64 (mkQuota 0 0 false))) demo_lapic None None None 0 0 0 0.

Lemma demo_slices k : slice_ok (demo_cpu k).
Proof.
  unfold slice_ok, demo_cpu. cbn [fst snd]. split; [done|]. destruct (k =? 0)%nat; (split; [by repeat constructor|by left]).
Qed.

Lemma demo_reach0 : reachable demo_ks0 [].
Proof. split; [apply demo_boot|done]. Qed.

Lemma demo_no_tokens t tv : tokens_of demo_ks0 t = Some tv -> tv_owner tv <> RUN_OWNER.
Proof.
  intros (_ & e & (_ & _ & He & Hl & _)%info_Some & _)%tokens_of_Some. cbn [demo_ks0 demo_mem k_mem ledger xtok_init g_table] in He.
  apply lookup_replicate in He as [-> _]. done.
Qed.

