(* ===== verification/Shell.v ===== *)
(** The shell ([apps/xsh/core/shell.c]) and the directives of [apps/xsh/utils]:
    the identity, the current directory, the file and volume commands over
    EXFS, and the dispatcher. The commands that reach hardware other than block
    devices, [pci] and [nvme], come through an interface. *)

From Stdlib Require Import String.
From S2P Require Import Prelude.
From S2P Require Import Bytes.
From S2P Require Import Xerlibc.
From S2P Require Import Syslib.
From S2P Require Import Physical.
From S2P Require Import Ledger.
From S2P Require Import Paging.
From S2P Require Import Aspace.
From S2P Require Import Exb.
From S2P Require Import Sys.
From S2P Require Import Trap.
From S2P Require Import Proc.
From S2P Require Import Blk.
From S2P Require Import Dev.
From S2P Require Import ExfsDefs.
From S2P Require Import Exfs.
From S2P Require Import ExfsNames.
From S2P Require Import ExfsTree.
From S2P Require Import Xsh.
From S2P Require Import Run.

(** What reaches the console. *)
Inductive Out := Say (t : list Z) | Clear.

(** The directives that talk to other hardware: the state they share with the
    block devices, and the kernel's. *)
Class Board (D : Type) := {
  cmd_pci_main : D -> option (Z * list Z * D);
  cmd_nvme_main : list Z -> KState -> D -> option (Z * list Z * KState * D) }.

(** They come back. *)
Class BoardTotal (D : Type) `{Board D} : Prop := {
  pci_total : forall s : D, exists r, cmd_pci_main s = Some r;
  nvme_total : forall arg ks (s : D), exists r, cmd_nvme_main arg ks s = Some r }.

Definition DEFAULT_USER : list Z := txt "xent".
Definition SUPER_USER : list Z := txt "sprusr".

Section Shell.
Context {D : Type} `{B : Board D}.

(** The session, the volume of [exfs.c], the devices and what they hold, the
    rest of the kernel, and what was printed. *)
Record Xsh := mkXsh {
  cwd : list Z; user : list Z; super : bool;
  vol : Vol D; disk : D; devs : list (DevSlot (BlkDev D));
  proc : ProcState; out : list Out
}.
Implicit Types (st : Xsh) (arg path : list Z).

Definition set_cwd st x : Xsh := mkXsh x (user st) (super st) (vol st) (disk st) (devs st) (proc st) (out st).
Definition set_ident st u x : Xsh := mkXsh (cwd st) u x (vol st) (disk st) (devs st) (proc st) (out st).
Definition set_vol st V s : Xsh := mkXsh (cwd st) (user st) (super st) V s (devs st) (proc st) (out st).
Definition set_disk st s : Xsh := set_vol st (vol st) s.
Definition set_proc st p : Xsh := mkXsh (cwd st) (user st) (super st) (vol st) (disk st) (devs st) p (out st).
Definition emit st (o : Out) : Xsh := mkXsh (cwd st) (user st) (super st) (vol st) (disk st) (devs st) (proc st) (out st ++ [o]).
Definition say (t : list Z) st : Xsh := emit st (Say t).
Definition println (t : list Z) st : Xsh := say (line t) st.

(** * Helpers *)

Definition fail (code detail : list Z) : list Z := code ++ txt ": " ++ line detail.

Definition report (rc : Z) : list Z :=
  if rc =? EXFS_ENOENT then fail (txt "EXNOENT") (txt "path unresolved") else
  if rc =? EXFS_EEXIST then fail (txt "EXEXIST") (txt "target already bound") else
  if rc =? EXFS_ENOSPC then fail (txt "EXFULL") (txt "no free space or node table full") else
  if rc =? EXFS_ENOMEM then fail (txt "EXNOMEM") (txt "extent table or pool exhausted") else
  if rc =? EXFS_EISDIR then fail (txt "EXISDIR") (txt "target is a directory") else
  if rc =? EXFS_ENOTEMPTY then fail (txt "EXNOTEMPTY") (txt "directory holds live nodes") else
  if rc =? EXFS_EINVAL then fail (txt "EXBADARG") (txt "invalid name") else
  if rc =? EXFS_ENOFS then fail (txt "EXNOFS") (txt "no volume mounted") else
  if rc =? EXFS_EBROKEN then fail (txt "EXBROKEN") (txt "volume failed a commit: remount") else
  fail (txt "EXIOERR") (txt "operation failed").

Definition resolve st arg : list Z := resolve_operand (cwd st) arg.
Definition set_identity (name : list Z) (sup : bool) st : Xsh := set_ident st (copy_str name MAX_USER_LEN) sup.

(** * Utilities on the volume *)

Definition cmd_form_main (flag path : list Z) st : Z * Xsh :=
  if same flag (txt "-file") then let '(rc, V) := exfs_create (vol st) path in (rc, set_vol st V (disk st)) else
  if same flag (txt "-dir") then let '(rc, V) := exfs_mkdir (vol st) path in (rc, set_vol st V (disk st)) else
  (EXFS_EINVAL, st).

Definition cmd_remove_main path st : Z * Xsh :=
  let '(rc, V) := exfs_delete (vol st) path in (rc, set_vol st V (disk st)).

Definition stat_text (type : Z) path (size : Z) : list Z :=
  (if type =? EXFS_TYPE_DIR then txt "dir   " else txt "file  ") ++ path ++
  (if type =? EXFS_TYPE_FILE then txt "  size=" ++ put_dec (u64 size) ++ txt " bytes" else []) ++ line [].

Definition cmd_stat_main path st : Z * Xsh :=
  let type := exfs_stat (vol st) path in
  if type <? 0 then (type, st) else (EXFS_OK, say (stat_text type path (exfs_size (vol st) path)) st).

Definition HEX_MAX : Z := 256.

(** One line of the dump: sixteen columns, then the printable characters. *)
Definition hex_line (buf : list Z) (n off : Z) : list Z :=
  put_hex off 8 ++ txt "  " ++
  concat ((fun i => (if off + i <? n then put_hex (nthZ buf (off + i)) 2 else txt "  ") ++ txt " ") <$> seqZ 0 16) ++
  txt " " ++
  concat ((fun i => if off + i <? n then let c := nthZ buf (off + i) in [if (32 <=? c) && (c <=? 126) then c else 46] else []) <$> seqZ 0 16) ++
  line [].

Definition hex_dump (buf : list Z) (n : Z) : list Z :=
  if n =? 0 then line (txt "(empty)") else concat ((fun k => hex_line buf n (k * 16)) <$> seqZ 0 ((n + 15) / 16)).

Definition cmd_hexdump_main path st : Z * Xsh :=
  let '(n, buf, s) := exfs_read (vol st) path HEX_MAX (disk st) in
  if n <? 0 then (n, set_disk st s) else (EXFS_OK, say (hex_dump buf n) (set_disk st s)).

(** * Other utilities *)

Definition cmd_echo_main (text : list Z) st : Xsh := println text st.

Definition cmd_mem_main st : Xsh :=
  let p := phys (k_mem (s_k (p_sys (proc st)))) in
  let total := phys_total_count p in let free := phys_free_count p in
  say (txt "frames total=" ++ put_dec total ++ txt "  used=" ++ put_dec (u64 (total - free)) ++
       txt "  free=" ++ put_dec free ++ txt "  free-MiB=" ++ put_dec (u64 (free * 4) / 1024) ++ line []) st.

Definition cmd_tokens_main st : Xsh :=
  say (txt "tokens live=" ++ put_dec (xtok_live_count (k_ledger (p_sys (proc st)))) ++ line []) st.

(** * Volumes *)

Definition cmd_mount_main arg st : Z * Xsh :=
  let '(fmt, rest) := next_word arg 16 in
  let '(path, _) := next_word rest 64 in
  if bool_decide (fmt = []) || bool_decide (path = []) then (-1, println (txt "usage: mount exfs|vexfs |dev|<name>") st) else
  if same fmt (txt "vexfs") then (-1, println (txt "EXNOTIMPL: vexfs is not available yet") st) else
  if negb (same fmt (txt "exfs")) then (-1, say (txt "EXBADARG: unknown format " ++ line fmt) st) else
  match dev_lookup (devs st) path with
  | None => (-1, say (txt "EXNOENT: no such device " ++ line path) st)
  | Some d =>
    if exfs_is_mounted (vol st) then (-1, println (txt "EXBUSY: a volume is already mounted; run umount first") st) else
    let '(rc, V, s) := exfs_mount (vol st) (Some d) (disk st) in
    let st := set_vol st V s in
    if rc =? EXFS_OK then (0, say (txt "mounted " ++ path ++ line (txt " as exfs")) st) else
    if rc =? EXFS_ENOFS then (-1, say (txt "EXNOFS: no exfs volume on " ++ line path) st) else
    (-1, say (txt "EXIOERR: mount failed, code " ++ put_dec (u64 (- rc)) ++ line []) st)
  end.

Definition cmd_unmount_main arg st : Z * Xsh :=
  if negb (exfs_is_mounted (vol st)) then (-1, println (txt "EXNOFS: nothing is mounted") st) else
  let '(rc, V, s) := exfs_unmount (vol st) (disk st) in
  let st := set_vol st V s in
  if rc =? EXFS_OK then (0, println (txt "unmounted") st) else
  (-1, say (txt "EXIOERR: commit failed, volume still mounted, code " ++ put_dec (u64 (- rc)) ++ line []) st).

Definition cmd_format_main arg st : Z * Xsh :=
  let '(fmt, rest) := next_word arg 16 in
  let '(path, rest) := next_word rest 64 in
  let '(confirm, _) := next_word rest 64 in
  if bool_decide (fmt = []) || bool_decide (path = []) || bool_decide (confirm = []) then
    (-1, println (txt "the device is repeated to confirm: formatting destroys its content")
           (println (txt "usage: format exfs|vexfs |dev|<name> |dev|<name>") st)) else
  if negb (same path confirm) then (-1, println (txt "REFUSED: the confirmation does not match the device; nothing was written") st) else
  if same fmt (txt "vexfs") then (-1, println (txt "EXNOTIMPL: vexfs is not available yet") st) else
  if negb (same fmt (txt "exfs")) then (-1, say (txt "EXBADARG: unknown format " ++ line fmt) st) else
  match dev_lookup (devs st) path with
  | None => (-1, say (txt "EXNOENT: no such device " ++ line path) st)
  | Some d =>
    if exfs_is_mounted (vol st) then (-1, println (txt "EXBUSY: a volume is mounted; run unmount before formatting") st) else
    let '(rc, V, s) := exfs_format (vol st) (Some d) (disk st) in
    let st := set_vol st V s in
    if rc =? EXFS_OK then (0, say (txt "formatted " ++ path ++ line (txt " as exfs; |user |root |bin |boot created")) st) else
    (-1, say (txt "EXIOERR: format failed, code " ++ put_dec (u64 (- rc)) ++ line []) st)
  end.

Definition cmd_sync_main arg st : Z * Xsh :=
  if negb (exfs_is_mounted (vol st)) then (-1, println (txt "EXNOFS: nothing is mounted") st) else
  let '(rc, V, s) := exfs_commit (vol st) (disk st) in
  let st := set_vol st V s in
  if rc =? EXFS_OK then (0, println (txt "committed") st) else
  (-1, say (txt "EXIOERR: commit failed, previous state intact, code " ++ put_dec (u64 (- rc)) ++ line []) st).

Definition BIN_PREFIX : list Z := txt "|bin|".

(** The path a program is installed at: the name is cut so that 60 characters fit. *)
Definition install_path (name : list Z) : list Z := BIN_PREFIX ++ take (60 - length BIN_PREFIX) name.

Fixpoint install_loop (l : list XshImage) st : Z * Xsh :=
  match l with
  | [] => (0, st)
  | img :: l =>
    let path := install_path (im_name img) in
    let '(rc, st) := if exfs_stat (vol st) path =? EXFS_ENOENT
                     then let '(rc, V) := exfs_create (vol st) path in (rc, set_vol st V (disk st)) else (EXFS_OK, st) in
    if negb (rc =? EXFS_OK) then (-1, say (txt "EXFULL: cannot create " ++ line path) st) else
    let '(rc, V, s) := exfs_write (vol st) path (im_data img) (im_len img) (disk st) in
    let st := set_vol st V s in
    if negb (rc =? EXFS_OK) then (-1, say (txt "EXIOERR: cannot store " ++ line path) st) else
    install_loop l (say (txt "installed " ++ path ++ txt " (" ++ put_dec (im_len img) ++ line (txt " bytes)")) st)
  end.

Definition cmd_install_main arg st : Z * Xsh :=
  if negb (exfs_is_mounted (vol st)) then (-1, println (txt "EXNOFS: mount a volume first") st) else install_loop g_images st.

(** * Directives *)

Definition print_child (name : list Z) (type : Z) : list Z := txt "  " ++ name ++ (if type =? EXFS_TYPE_DIR then txt "|" else []) ++ [10].

Definition cmd_ver st : Xsh :=
  println (txt "directives: ver clear list form remove locate whereami read write echo mem tokens stat hexdump run mount unmount format sync install pci nvme whoami sprusr xent halt")
    (println (txt "XASMOS xeret 0.05 (amd64, UEFI)") st).

Definition cmd_whoami st : Xsh := say (user st ++ line (if super st then txt " (superuser)" else [])) st.

Definition cmd_xent st : Xsh :=
  println (txt "login: xent") (set_cwd (set_identity DEFAULT_USER false st) (copy_str [shell_bar] MAX_PATH_LEN)).

(** [sprusr]; [run] is the dispatcher. *)
Definition cmd_sprusr (run : list Z -> list Z -> Xsh -> option (bool * Xsh)) arg st : option (bool * Xsh) :=
  if bool_decide (arg = []) then
    Some (false, println (txt "login: sprusr (superuser). 'xent' returns to the default account.")
                   (set_cwd (set_identity SUPER_USER true st) (copy_str [shell_bar] MAX_PATH_LEN)))
  else
    let saved_super := super st in
    let saved_user := copy_str (user st) MAX_USER_LEN in
    let '(cmd, rest) := split_first arg MAX_CMD_LEN in
    if bool_decide (cmd = []) then Some (false, say (fail (txt "EXBADARG") (txt "usage: sprusr [command [args...]]")) st) else
    '(halted, st) ← run cmd rest (set_identity SUPER_USER true st);
    Some (halted, set_identity saved_user saved_super st).

Definition required : list Z := fail (txt "EXBADARG") (txt "operand required").

Definition cmd_locate arg st : Xsh :=
  if bool_decide (arg = []) then say required st else
  let path := resolve st arg in
  let t := exfs_stat (vol st) path in
  if t <? 0 then say (report t) st else
  if negb (t =? EXFS_TYPE_DIR) then say (fail (txt "EXNOTDIR") (txt "target is not a directory")) st else
  set_cwd st (copy_str path MAX_PATH_LEN).

Definition list_text (calls : list (list Z * Z)) : list Z :=
  concat ((fun c => print_child c.1 c.2) <$> calls) ++ (if bool_decide (calls = []) then line (txt "  (empty)") else []).

Definition cmd_list arg st : Xsh :=
  let path := if bool_decide (arg = []) then copy_str (cwd st) MAX_PATH_LEN else resolve st arg in
  let t := exfs_stat (vol st) path in
  if t <? 0 then say (report t) st else
  if t =? EXFS_TYPE_FILE then println path st else
  say (list_text (exfs_list (vol st) path).2) st.

(** What is printed for the result of a utility. *)
Definition report_unless_ok (r : Z * Xsh) : Xsh := if negb (r.1 =? EXFS_OK) then say (report r.1) r.2 else r.2.

Definition cmd_form arg st : Xsh :=
  let '(flag, rest) := split_first arg MAX_CMD_LEN in
  if (negb (streq flag (txt "-file")) && negb (streq flag (txt "-dir"))) || bool_decide (rest = []) then
    say (fail (txt "EXBADARG") (txt "usage: form -file|-dir <path>")) st
  else report_unless_ok (cmd_form_main flag (resolve st rest) st).

Definition cmd_remove arg st : Xsh :=
  if bool_decide (arg = []) then say required st else
  let path := resolve st arg in
  if is_root_path path then say (fail (txt "EXPERM") (txt "root node is immutable")) st else
  let '(rc, st) := cmd_remove_main path st in
  if negb (rc =? EXFS_OK) then say (report rc) st else
  if streq path (cwd st) then set_cwd st (parent_of path) else st.

Definition cmd_write arg st : Xsh :=
  let '(path_tok, text) := split_first arg MAX_PATH_LEN in
  if bool_decide (path_tok = []) || bool_decide (text = []) then say (fail (txt "EXBADARG") (txt "usage: write <path> <text>")) st else
  let '(rc, V, s) := exfs_write (vol st) (resolve st path_tok) text (lenZ text) (disk st) in
  report_unless_ok (rc, set_vol st V s).

Definition cmd_read arg st : Xsh :=
  if bool_decide (arg = []) then say required st else
  let path := resolve st arg in
  let size := exfs_size (vol st) path in
  if size <? 0 then say (report size) st else
  let '(n, buf, s) := exfs_read (vol st) path READ_MAX (disk st) in
  let st := set_disk st s in
  if n <? 0 then say (report n) st else
  let st := println (cstr (take (Z.to_nat n) buf)) st in
  if n <? size then say (txt "EXTRUNC: showing the first " ++ put_dec n ++ line (txt " bytes")) st else st.

Definition report_if_error (r : Z * Xsh) : Xsh := if r.1 <? 0 then say (report r.1) r.2 else r.2.

Definition cmd_stat arg st : Xsh :=
  if bool_decide (arg = []) then say (fail (txt "EXBADARG") (txt "usage: stat <path>")) st else
  report_if_error (cmd_stat_main (resolve st arg) st).

Definition cmd_hexdump arg st : Xsh :=
  if bool_decide (arg = []) then say (fail (txt "EXBADARG") (txt "usage: hexdump <path>")) st else
  report_if_error (cmd_hexdump_main (resolve st arg) st).

(** * Dispatcher *)

Definition go st : option (bool * Xsh) := Some (false, st).

(** [true]: the shell must halt. [None]: the fuel ran out, or a program that
    was run never came back. *)
Fixpoint dispatch (fuel : nat) (info : ExbInfo) (cpu : Ring3) (command argument : list Z) st : option (bool * Xsh) :=
  match fuel with
  | O => None
  | S fuel =>
    if streq command (txt "halt") then Some (true, println (txt "Halting XASMOS.") st) else
    if streq command (txt "ver") then go (cmd_ver st) else
    if streq command (txt "clear") then go (emit st Clear) else
    if streq command (txt "whereami") then go (say (txt "Current SuperDir: " ++ line (cwd st)) st) else
    if streq command (txt "whoami") then go (cmd_whoami st) else
    if streq command (txt "sprusr") then cmd_sprusr (dispatch fuel info cpu) argument st else
    if streq command (txt "xent") then go (cmd_xent st) else
    if streq command (txt "locate") || streq command (txt "ubicate") then go (cmd_locate argument st) else
    if streq command (txt "list") then go (cmd_list argument st) else
    if streq command (txt "form") then go (cmd_form argument st) else
    if streq command (txt "remove") then go (cmd_remove argument st) else
    if streq command (txt "read") then go (cmd_read argument st) else
    if streq command (txt "write") then go (cmd_write argument st) else
    if streq command (txt "stat") then go (cmd_stat argument st) else
    if streq command (txt "hexdump") then go (cmd_hexdump argument st) else
    if streq command (txt "echo") then go (cmd_echo_main argument st) else
    if streq command (txt "mem") then go (cmd_mem_main st) else
    if streq command (txt "tokens") then go (cmd_tokens_main st) else
    if streq command (txt "run") then '(_, t, p) ← cmd_run_main argument info cpu (proc st); go (say t (set_proc st p)) else
    if streq command (txt "mount") then go (cmd_mount_main argument st).2 else
    if streq command (txt "unmount") then go (cmd_unmount_main argument st).2 else
    if streq command (txt "format") then go (cmd_format_main argument st).2 else
    if streq command (txt "sync") then go (cmd_sync_main argument st).2 else
    if streq command (txt "install") then go (cmd_install_main argument st).2 else
    if streq command (txt "pci") then '(_, t, s) ← cmd_pci_main (disk st); go (say t (set_disk st s)) else
    if streq command (txt "nvme") then
      '(_, t, ks, s) ← cmd_nvme_main argument (s_k (p_sys (proc st))) (disk st);
      go (say t (set_proc (set_disk st s) (set_ks (proc st) ks)))
    else
    if streq command (txt "sysinfo") || streq command (txt "exofetch") then go (say (fail (txt "EXNOSYS") (txt "directive unimplemented")) st) else
    go (say (txt "EXBADCMD: unrecognized directive: " ++ line command) st)
  end.

(** * Main loop *)

(** A line typed, and what a program run by it meets. *)
Record Input := mkInput { in_line : list Z; in_info : ExbInfo; in_cpu : Ring3 }.

Definition prompt st : Xsh := say (user st ++ txt ":" ++ cwd st ++ (if super st then txt "% " else txt "@ ")) st.

(** One round: [true] ends the loop. An argument has a shorter one inside, so
    its length bounds the nesting of [sprusr]. *)
Definition shell_round (i : Input) st : option (bool * Xsh) :=
  let st := prompt st in
  if lenZ (in_line i) <=? 0 then go st else
  let '(command, argument) := parse_command_line (in_line i) in
  if bool_decide (command = []) then go st else dispatch (S (length argument)) (in_info i) (in_cpu i) command argument st.

Fixpoint shell_loop (l : list Input) st : option (bool * Xsh) :=
  match l with
  | [] => go st
  | i :: l => '(halted, st) ← shell_round i st; if (halted : bool) then Some (true, st) else shell_loop l st
  end.

(** The shell on the lines that are typed: halted, or waiting for the next one. *)
Definition shell_main (l : list Input) st : option (bool * Xsh) :=
  '(halted, st) ← shell_loop l (println (txt "XASMOS Shell v0.05 -- 'ver' lists directives") st);
  Some (halted, if (halted : bool) then println (txt "System halted.") st else st).
End Shell.
