(* ===== verification/ShellOk.v ===== *)
(** What the shell guarantees: every directive comes back, the identity changes
    only by a login, the current directory is always a directory of the
    volume, and the file directives are the operations on a tree of names. *)

From Stdlib Require Import String.
From S2P Require Import Prelude.
From S2P Require Import Bytes.
From S2P Require Import Xerlibc.
From S2P Require Import Syslib.
From S2P Require Import Physical.
From S2P Require Import Ledger.
From S2P Require Import Paging.
From S2P Require Import Aspace.
From S2P Require Import Exb.
From S2P Require Import Sys.
From S2P Require Import Trap.
From S2P Require Import Proc.
From S2P Require Import Blk.
From S2P Require Import Dev.
From S2P Require Import ExfsDefs.
From S2P Require Import Gmap.
From S2P Require Import GmapOk.
From S2P Require Import Exfs.
From S2P Require Import ExfsNames.
From S2P Require Import ExfsData.
From S2P Require Import ExfsFiles.
From S2P Require Import ExfsWrite.
From S2P Require Import ExfsTree.
From S2P Require Import Xsh.
From S2P Require Import Run.
From S2P Require Import Shell.

Ltac cases := repeat first [progress cbn [fst snd] | case_match | progress simplify_eq].
Ltac each c := cbn [dispatch]; repeat match goal with |- context [if ?b then _ else _] => match b with context [streq c _] => destruct b eqn:? end end.

(** The command is one of the two names. *)
Lemma streq_txt c (s : string) : no_nul c -> streq c (txt s) = true -> no_nul (txt s) -> c = txt s.
Proof. intros Hc H Hs. by apply streq_spec in H. Qed.

Ltac known := repeat match goal with
  | H : streq ?c (txt ?s) || streq ?c (txt ?t) = true |- _ => apply orb_true_iff in H as [H|H]
  | H : streq ?c (txt ?s) = true, Hn : no_nul ?c |- _ => apply streq_txt in H; [subst c; clear Hn|exact Hn|by repeat constructor]
  end.


Section ShellOk.
Context {D : Type} `{B : Board D}.
Implicit Types (st : Xsh (D := D)) (arg path c a : list Z) (V : Vol D).

(** * One directive at a time *)

(** [sprusr] with a command. *)
Definition one_shot c a : bool :=
  streq c (txt "sprusr") && negb (bool_decide (a = [])) && negb (bool_decide ((split_first a MAX_CMD_LEN).1 = [])).

(** The directive [sprusr] ends up running: the command and its argument. *)
Fixpoint peel (fuel : nat) c a : list Z * list Z :=
  match fuel with
  | O => (c, a)
  | S fuel => if one_shot c a then peel fuel (split_first a MAX_CMD_LEN).1 (split_first a MAX_CMD_LEN).2 else (c, a)
  end.

Lemma first_loop_parts s : forall k first, exists w rest, first_loop s k first = (first ++ w, rest) /\ s = w ++ rest.
Proof.
  induction s as [|x s IH]; intros [|k] first; cbn [first_loop]; try (by exists [], []; rewrite app_nil_r); [by exists [], (x :: s); rewrite app_nil_r|].
  destruct (x =? blank); [by exists [], (x :: s); rewrite app_nil_r|]. destruct (IH k (first ++ [x])) as (w & rest & -> & ->).
  exists (x :: w), rest. split; [|done]. by rewrite <- app_assoc.
Qed.

Lemma skip_blanks_parts s : exists sp, s = sp ++ skip_blanks s.
Proof.
  induction s as [|x s [sp IH]]; [by exists []|]. cbn [skip_blanks]. destruct (x =? blank); [|by exists []]. exists (x :: sp). cbn. by f_equal.
Qed.

(** The word, what is skipped, and the rest make up the string. *)
Lemma split_first_parts s max : let '(w, rest) := split_first s max in exists sp, s = w ++ sp ++ rest.
Proof.
  unfold split_first. destruct (first_loop_parts s (Z.to_nat (max - 1)) []) as (w & rest & -> & ->).
  destruct (skip_blanks_parts rest) as [sp E]. exists sp. cbn [app]. by rewrite <- E.
Qed.

Lemma split_first_shorter s max : let '(w, rest) := split_first s max in w <> [] -> (length rest < length s)%nat.
Proof.
  pose proof (split_first_parts s max) as H. destruct (split_first s max) as [w rest]. destruct H as [sp ->]. intros Hw.
  rewrite !length_app. destruct w; [done|]. cbn [length]. lia.
Qed.

Lemma split_first_forall (P : Z -> Prop) s max : Forall P s -> let '(w, rest) := split_first s max in Forall P w /\ Forall P rest.
Proof.
  pose proof (split_first_parts s max) as H. destruct (split_first s max) as [w rest]. destruct H as [sp ->].
  rewrite !Forall_app. tauto.
Qed.

(** The fuel beyond the first round only counts for [sprusr]. *)
Lemma dispatch_direct fuel info cpu c a st : one_shot c a = false -> dispatch (S fuel) info cpu c a st = dispatch 1 info cpu c a st.
Proof.
  unfold one_shot. intros Hd. cbn [dispatch]. repeat (case_match; [done|]). destruct (streq c (txt "sprusr")) eqn:E; [|done].
  unfold cmd_sprusr. destruct (bool_decide (a = [])); [done|]. destruct (split_first a MAX_CMD_LEN) as [w r]. cbn in Hd.
  by destruct (bool_decide (w = [])).
Qed.

Lemma dispatch_one_shot fuel info cpu c a st : no_nul c -> one_shot c a = true ->
  dispatch (S fuel) info cpu c a st =
  '(h, st') ← dispatch fuel info cpu (split_first a MAX_CMD_LEN).1 (split_first a MAX_CMD_LEN).2 (set_identity SUPER_USER true st);
  Some (h, set_identity (copy_str (user st) MAX_USER_LEN) (super st) st').
Proof.
  unfold one_shot. intros Hc [[Hs Ha]%andb_true_iff Hw]%andb_true_iff. apply streq_spec in Hs as ->; [|done|by repeat constructor].
  cbn [dispatch]. change (streq (txt "sprusr") (txt "halt")) with false. change (streq (txt "sprusr") (txt "ver")) with false.
  change (streq (txt "sprusr") (txt "clear")) with false. change (streq (txt "sprusr") (txt "whereami")) with false.
  change (streq (txt "sprusr") (txt "whoami")) with false. change (streq (txt "sprusr") (txt "sprusr")) with true. cbv iota.
  unfold cmd_sprusr. apply negb_true_iff in Ha, Hw. rewrite Ha. destruct (split_first a MAX_CMD_LEN) as [w r]. cbn [fst snd] in *. by rewrite Hw.
Qed.

Lemma peel_rest fuel : forall c a, let '(c', a') := peel fuel c a in exists pre, a = pre ++ a'.
Proof.
  induction fuel as [|fuel IH]; intros c a; cbn [peel]; [by exists []|]. destruct (one_shot c a); [|by exists []].
  pose proof (split_first_parts a MAX_CMD_LEN) as Hp. destruct (split_first a MAX_CMD_LEN) as [w r]. destruct Hp as [sp ->]. cbn [fst snd].
  specialize (IH w r). destruct (peel fuel w r) as [c' a']. destruct IH as [pre ->]. exists (w ++ sp ++ pre). by rewrite <- !app_assoc.
Qed.

(** Who the directive runs as, and the identity it leaves. *)
Definition elevate c a st : Xsh := if one_shot c a then set_identity SUPER_USER true st else st.
Definition lower c a st0 st : Xsh := if one_shot c a then set_identity (copy_str (user st0) MAX_USER_LEN) (super st0) st else st.

(** Any directive is a direct one, run as the superuser after [sprusr]. *)
Lemma dispatch_peel info cpu : forall fuel c a st, no_nul c -> no_nul a -> (length a < fuel)%nat ->
  let '(c', a') := peel fuel c a in
  no_nul c' /\ no_nul a' /\ one_shot c' a' = false /\ 
  dispatch fuel info cpu c a st = '(h, st') ← dispatch 1 info cpu c' a' (elevate c a st); Some (h, lower c a st st').
Proof.
  induction fuel as [|fuel IH]; intros c a st Hc Ha Hf; [lia|]. cbn [peel]. unfold elevate, lower. destruct (one_shot c a) eqn:Eo.
  - rewrite dispatch_one_shot by done. unfold one_shot in Eo. pose proof (split_first_shorter a MAX_CMD_LEN) as Hl.
    pose proof (split_first_forall (fun x => x <> 0) a MAX_CMD_LEN Ha) as Hn. destruct (split_first a MAX_CMD_LEN) as [w r]. cbn [fst snd] in *.
    destruct Hn as [Hw Hr]. apply andb_true_iff in Eo as [_ Eo]. apply negb_true_iff, bool_decide_eq_false in Eo.
    specialize (IH w r (set_identity SUPER_USER true st) Hw Hr ltac:(specialize (Hl Eo); lia)).
    destruct (peel fuel w r) as [c' a']. destruct IH as (H1 & H2 & H3 & ->). split_and!; try done.
    assert (elevate w r (set_identity SUPER_USER true st) = set_identity SUPER_USER true st) as -> by (unfold elevate; by destruct (one_shot w r)).
    destruct (dispatch 1 _ _ _ _ _) as [[h st']|]; [|done]. cbn [mbind option_bind]. unfold lower. by destruct (one_shot w r).
  - split_and!; try done. rewrite dispatch_direct by done. by destruct (dispatch 1 _ _ _ _ _) as [[h st']|].
Qed.

(** * Frames *)

(** The session is the same but for the volume and what was printed. *)
Definition quiet st st' : Prop :=
  cwd st' = cwd st /\ user st' = user st /\ super st' = super st /\ devs st' = devs st /\ proc st' = proc st.

#[global] Instance quiet_preorder : PreOrder quiet.
Proof. split; [done|]. unfold quiet. intros s1 s2 s3. intuition congruence. Qed.


Lemma quiet_form flag path st : quiet st (cmd_form_main flag path st).2.
Proof. unfold cmd_form_main. by cases. Qed.
Lemma quiet_stat path st : quiet st (cmd_stat_main path st).2.
Proof. unfold cmd_stat_main. by cases. Qed.
Lemma quiet_hexdump path st : quiet st (cmd_hexdump_main path st).2.
Proof. unfold cmd_hexdump_main. by cases. Qed.
Lemma quiet_mount arg st : quiet st (cmd_mount_main arg st).2.
Proof. unfold cmd_mount_main. by cases. Qed.
Lemma quiet_unmount arg st : quiet st (cmd_unmount_main arg st).2.
Proof. unfold cmd_unmount_main. by cases. Qed.
Lemma quiet_format arg st : quiet st (cmd_format_main arg st).2.
Proof. unfold cmd_format_main. by cases. Qed.
Lemma quiet_sync arg st : quiet st (cmd_sync_main arg st).2.
Proof. unfold cmd_sync_main. by cases. Qed.
Lemma quiet_install_loop l st : quiet st (install_loop l st).2.
Proof.
  revert st. induction l as [|img l IH]; intros st; [done|]. cbn [install_loop].
  destruct (exfs_stat _ _ =? _); [destruct (exfs_create _ _) as [rc V]|]; (destruct (negb _); [done|]);
    destruct (exfs_write _ _ _ _ _) as [[rc' V'] s']; (destruct (negb _); [done|]); (etransitivity; [|apply IH]); done.
Qed.
Lemma quiet_install arg st : quiet st (cmd_install_main arg st).2.
Proof. unfold cmd_install_main. destruct (negb _); [done|apply quiet_install_loop]. Qed.

(** ** Directives that are run directly *)


Lemma quiet_list arg st : quiet st (cmd_list arg st).
Proof. unfold cmd_list. by cases. Qed.
Lemma quiet_form_arg arg st : quiet st (cmd_form arg st).
Proof.
  unfold cmd_form, report_unless_ok. destruct (split_first _ _) as [flag rest]. destruct (_ || _); [done|].
  pose proof (quiet_form flag (resolve st rest) st) as H. destruct (negb _); [|done]. by etransitivity; [exact H|].
Qed.
Lemma quiet_write arg st : quiet st (cmd_write arg st).
Proof. unfold cmd_write, report_unless_ok. by cases. Qed.
Lemma quiet_read arg st : quiet st (cmd_read arg st).
Proof. unfold cmd_read. by cases. Qed.
Lemma quiet_stat_arg arg st : quiet st (cmd_stat arg st).
Proof.
  unfold cmd_stat, report_if_error. destruct (bool_decide _); [done|].
  pose proof (quiet_stat (resolve st arg) st) as H. destruct (_ <? _); [|done]. by etransitivity; [exact H|].
Qed.
Lemma quiet_hexdump_arg arg st : quiet st (cmd_hexdump arg st).
Proof.
  unfold cmd_hexdump, report_if_error. destruct (bool_decide _); [done|].
  pose proof (quiet_hexdump (resolve st arg) st) as H. destruct (_ <? _); [|done]. by etransitivity; [exact H|].
Qed.

(** The directives that may move the current directory leave the rest. *)
Definition same_session st st' : Prop := user st' = user st /\ super st' = super st /\ devs st' = devs st /\ proc st' = proc st.

Lemma quiet_session st st' : quiet st st' -> same_session st st'.
Proof. unfold quiet, same_session. tauto. Qed.
Lemma session_locate arg st : same_session st (cmd_locate arg st).
Proof. unfold cmd_locate. by cases. Qed.
Lemma session_remove arg st : same_session st (cmd_remove arg st).
Proof. unfold cmd_remove, cmd_remove_main. by cases. Qed.

(** Who is logged in. *)
Definition identity st : list Z * bool := (user st, super st).

(** The identity after a directive: a login changes it, nothing else does. *)
Definition after_login c a (id : list Z * bool) : list Z * bool :=
  if streq c (txt "xent") then (DEFAULT_USER, false) else
  if streq c (txt "sprusr") && bool_decide (a = []) then (SUPER_USER, true) else id.

Lemma session_identity st st' : same_session st st' -> identity st' = identity st.
Proof. unfold same_session, identity. by intros (-> & -> & _). Qed.

Lemma not_one_shot c a : one_shot c a = false -> streq c (txt "sprusr") = true -> a = [] \/ (split_first a MAX_CMD_LEN).1 = [].
Proof.
  unfold one_shot. intros H E. rewrite E in H. destruct (decide (a = [])) as [|Ha]; [by left|right]. rewrite bool_decide_eq_false_2 in H by done. cbn in H.
  by apply negb_false_iff, bool_decide_eq_true in H.
Qed.

Section Kernel.
Context `{Bt : Boot, !BoardTotal D} (Sp : list XAspace).

(** The kernel between two directives: no program runs and no token is live. *)
Definition rested st : Prop :=
  reachable (s_k (p_sys (proc st))) Sp /\ idle_cpu (proc st) /\ forall t, tokens_of (s_k (p_sys (proc st))) t = None.

Lemma session_rested st st' : same_session st st' -> rested st -> rested st'.
Proof. unfold same_session, rested. by intros (_ & _ & _ & ->). Qed.

(** What every directive does to the session, when it is run directly. *)
Definition ends st c a (r : option (bool * Xsh (D := D))) : Prop :=
  exists h st', r = Some (h, st') /\ identity st' = after_login c a (identity st) /\ (streq c (txt "nvme") = false -> rested st') /\
    h = streq c (txt "halt").

Lemma ends_session st st' c a : rested st -> same_session st st' -> streq c (txt "halt") = false -> after_login c a (identity st) = identity st ->
  ends st c a (go st').
Proof.
  intros Hr Hs Hh Hl. exists false, st'. rewrite Hl, Hh. split_and!; [done|by apply session_identity|intros _; by apply (session_rested st)|done].
Qed.

Lemma direct_ends info cpu c a st : no_nul c -> one_shot c a = false -> rested st -> (forall k, slice_ok (cpu k)) -> length (seg info) = 8%nat ->
  ends st c a (dispatch 1 info cpu c a st).
Proof.
  intros Hn Ho Hr Hc Hi. pose proof (not_one_shot c a Ho) as Hs.
  each c; known; try (apply ends_session; [done| |reflexivity|reflexivity];
    first [done|apply session_locate|apply session_remove|apply quiet_session;
      first [apply quiet_list|apply quiet_form_arg|apply quiet_write|apply quiet_read|apply quiet_stat_arg|apply quiet_hexdump_arg
            |apply quiet_mount|apply quiet_unmount|apply quiet_format|apply quiet_sync|apply quiet_install]]).
  - by exists true, (println (txt "Halting XASMOS.") st).
  - destruct (Hs eq_refl) as [->|Hw].
    + unfold cmd_sprusr. rewrite bool_decide_eq_true_2 by done. by eexists false, _.
    + unfold cmd_sprusr, ends, after_login. change (streq (txt "sprusr") (txt "xent")) with false. change (streq (txt "sprusr") (txt "sprusr")) with true.
      case_bool_decide; [by eexists false, _|]. destruct (split_first a MAX_CMD_LEN) as [w r]. cbn in Hw. subst w. by eexists false, _.
  - by eexists false, _.
  - destruct Hr as (Hk & Hid & Hno). destruct (run_settled a info cpu (proc st) Sp Hk Hid Hc Hi) as (rc & t & p & -> & Hk' & Hid' & Hset & _).
    eexists false, _. split_and!; [done|done|intros _|done]. split_and!; [done|done|]. intros tk. cbn [proc say emit set_proc].
    rewrite (settled_all _ _ Hset) by (intros t' tv Ht; by rewrite Hno in Ht). apply Hno.
  - destruct (pci_total (disk st)) as [[[rc t] s] ->]. by eexists false, _.
  - destruct (nvme_total a (s_k (p_sys (proc st))) (disk st)) as [[[[rc t] ks] s] ->]. by eexists false, _.
  - apply ends_session; [done|done|done|]. unfold after_login.
    repeat match goal with H : streq c _ = false |- _ => rewrite H; clear H end. done.
Qed.

(** The directive a line asks for. *)
Definition asked (l : list Z) : list Z * list Z := let '(c, a) := parse_command_line l in peel (S (length a)) c a.

Lemma dispatch_ends info cpu c a st : no_nul c -> no_nul a -> lenZ (user st) <= 15 -> rested st -> (forall k, slice_ok (cpu k)) -> length (seg info) = 8%nat ->
  exists h st', dispatch (S (length a)) info cpu c a st = Some (h, st') /\ identity st' = after_login c a (identity st) /\
    (streq (peel (S (length a)) c a).1 (txt "nvme") = false -> rested st') /\ h = streq (peel (S (length a)) c a).1 (txt "halt").
Proof.
  intros Hn Ha Hu Hr Hc Hi. pose proof (dispatch_peel info cpu (S (length a)) c a st Hn Ha ltac:(lia)) as H.
  destruct (peel (S (length a)) c a) as [c' a'] eqn:Ep. destruct H as (Hn' & Ha' & Ho & ->). cbn [fst].
  assert (rested (elevate c a st)) as Hre by (unfold elevate; by destruct (one_shot c a)).
  destruct (direct_ends info cpu c' a' (elevate c a st) Hn' Ho Hre Hc Hi) as (h & st' & -> & Hid & Hk & Hh). cbn [mbind option_bind].
  exists h, (lower c a st st'). split; [done|]. split; [|split; [|done]].
  - unfold lower, elevate in *. destruct (one_shot c a) eqn:E.
    + unfold set_identity, copy_str. rewrite !(take_ge (user st)) by (unfold MAX_USER_LEN; lia). unfold one_shot in E.
      destruct (streq c (txt "sprusr")) eqn:Es; [|done]. apply streq_txt in Es as ->; [|done|by repeat constructor].
      unfold after_login. cbn in E. destruct (bool_decide (a = [])); [done|]. done.
    + cbn [peel] in Ep. rewrite E in Ep. by injection Ep as <- <-.
  - intros Hv. specialize (Hk Hv). unfold lower. by destruct (one_shot c a).
Qed.

(** ** Sessions *)

(** A line without NUL; a program run by it ends or is interrupted each slice. *)
Definition typed (i : Input) : Prop := no_nul (in_line i) /\ (forall k, slice_ok (in_cpu i k)) /\ length (seg (in_info i)) = 8%nat.

Definition asks (s : string) (i : Input) : bool := streq (asked (in_line i)).1 (txt s).

(** Who is logged in after the lines, up to the one that halts. *)
Definition line_login (l : list Z) (id : list Z * bool) : list Z * bool := let '(c, a) := parse_command_line l in after_login c a id.
Fixpoint who (l : list Input) (id : list Z * bool) : list Z * bool :=
  match l with
  | [] => id
  | i :: l => if asks "halt" i then id else who l (line_login (in_line i) id)
  end.

Lemma trim_forall (P : Z -> Prop) l : Forall P l -> Forall P (trim_blanks l).
Proof.
  intros H. unfold trim_blanks. apply Forall_reverse. destruct (skip_blanks_parts (reverse l)) as [sp E]. apply Forall_reverse in H.
  rewrite E in H. by apply Forall_app in H as [_ H].
Qed.

Lemma trim_length l : (length (trim_blanks l) <= length l)%nat.
Proof.
  unfold trim_blanks. rewrite length_reverse. destruct (skip_blanks_parts (reverse l)) as [sp E]. apply (f_equal length) in E.
  rewrite length_reverse, length_app in E. lia.
Qed.

Lemma parse_no_nul l : no_nul l -> no_nul (parse_command_line l).1 /\ no_nul (parse_command_line l).2.
Proof.
  intros H. unfold parse_command_line. pose proof (split_first_forall (fun x => x <> 0) l MAX_CMD_LEN H) as Hs.
  destruct (split_first l MAX_CMD_LEN) as [w r]. destruct Hs as [Hw Hr]. split; [done|]. by apply trim_forall, no_nul_take.
Qed.

Lemma login_short c a id : lenZ id.1 <= 15 -> lenZ (after_login c a id).1 <= 15.
Proof. unfold after_login. by destruct (streq c _); [|destruct (_ && _)]. Qed.

Lemma prompt_same st : same_session st (prompt st).
Proof. done. Qed.

Lemma peel_nil n a : peel n [] a = ([], a).
Proof. by destruct n. Qed.

Lemma round_ends i st : typed i -> lenZ (user st) <= 15 -> rested st ->
  exists h st', shell_round i st = Some (h, st') /\ identity st' = line_login (in_line i) (identity st) /\
    (asks "nvme" i = false -> rested st') /\ h = asks "halt" i.
Proof.
  intros (Hl & Hc & Hi) Hu Hr. unfold shell_round, line_login, asks, asked. pose proof (parse_no_nul (in_line i) Hl) as [Hn Ha].
  destruct (parse_command_line (in_line i)) as [c a] eqn:Ep. cbn [fst snd] in *. destruct (Z.leb_spec (lenZ (in_line i)) 0) as [Hz|_].
  { assert (in_line i = []) as E by (by destruct (in_line i); [|cbn in Hz; lia]). rewrite E in Ep. injection Ep as <- <-. by exists false, (prompt st). }
  destruct (decide (c = [])) as [->|Hne]; [rewrite bool_decide_eq_true_2, peel_nil by done; by exists false, (prompt st)|].
  rewrite bool_decide_eq_false_2 by done. by apply (dispatch_ends (in_info i) (in_cpu i) c a (prompt st)).
Qed.

Lemma halt_login i id : typed i -> asks "halt" i = true -> line_login (in_line i) id = id.
Proof.
  intros (Hl & _). unfold asks, asked, line_login. pose proof (parse_no_nul (in_line i) Hl) as [Hn Ha].
  destruct (parse_command_line (in_line i)) as [c a]. cbn [fst snd] in *. unfold after_login, peel; fold peel.
  destruct (streq c (txt "xent")) eqn:Ex; [apply streq_txt in Ex as ->; [done|done|by repeat constructor]|].
  destruct (streq c (txt "sprusr") && bool_decide (a = [])) eqn:Es; [|done]. apply andb_true_iff in Es as [Es Ea].
  apply streq_txt in Es as ->; [|done|by repeat constructor]. apply bool_decide_eq_true in Ea as ->. done.
Qed.

Lemma loop_ends l : forall st, Forall typed l -> Forall (fun i => asks "nvme" i = false) l -> lenZ (user st) <= 15 -> rested st ->
  exists h st', shell_loop l st = Some (h, st') /\ identity st' = who l (identity st) /\ rested st' /\ h = existsb (asks "halt") l.
Proof.
  induction l as [|i l IH]; intros st Ht Hv Hu Hr; [by exists false, st|]. apply Forall_cons in Ht as [Hi Ht], Hv as [Hvi Hv].
  destruct (round_ends i st Hi Hu Hr) as (h & st1 & E & Hid & Hk & ->). cbn [shell_loop who existsb]. rewrite E. cbn [mbind option_bind].
  specialize (Hk Hvi). destruct (asks "halt" i) eqn:Eh.
  - exists true, st1. by rewrite Hid, (halt_login i).
  - assert (lenZ (user st1) <= 15) as Hu1.
    { change (lenZ (identity st1).1 <= 15). rewrite Hid. unfold line_login. destruct (parse_command_line _). by apply login_short. }
    destruct (IH st1 Ht Hv Hu1 Hk) as (h & st' & E' & H1 & H2 & H3). exists h, st'. rewrite E', H1, Hid. done.
Qed.
End Kernel.

(** * The current directory *)

(** The volume is a tree and the current directory one of its directories. *)
Record cwd_ok st : Prop := {
  cw_ns : ns_ok (vol st);
  cw_chars : no_nul (cwd st) /\ lenZ (cwd st) <= 255;
  cw_dir : cwd st = [bar] \/ node (vol st) (cwd st) EXFS_TYPE_DIR
}.

Lemma copy_max_ok src : forall dst, no_nul dst -> no_nul src -> lenZ dst <= 255 -> no_nul (Path.copy_max dst src) /\ lenZ (Path.copy_max dst src) <= 255.
Proof.
  intros dst Hd Hs Hl. rewrite Path.copy_max_spec by done. split; [apply no_nul_take, Forall_app; by split|]. rewrite length_take. lia.
Qed.

Lemma resolve_ok cw arg : no_nul cw -> no_nul arg -> no_nul (resolve_operand cw arg) /\ lenZ (resolve_operand cw arg) <= 255.
Proof.
  intros Hc Ha. unfold resolve_operand. set (p := Path.resolve_superdir_path cw (Some arg)). assert (no_nul p /\ lenZ p <= 255) as [Hp Hl].
  { unfold p, Path.resolve_superdir_path. destruct arg as [|x arg]; [by apply copy_max_ok; [constructor| |]|].
    destruct (_ =? _); [by apply copy_max_ok; [constructor| |]|]. destruct (copy_max_ok cw [] ltac:(constructor) Hc ltac:(done)) as [H1 H2].
    destruct ((0 <? _) && negb _ && _) eqn:E; [|by apply copy_max_ok]. unbool. unfold Path.RESOLVE_MAX in *.
    apply copy_max_ok; [apply Forall_app; split; [done|by constructor]|done|rewrite length_app; cbn [length]; lia]. }
  unfold normalize_path. destruct (_ && _); [|done]. split; [by apply no_nul_take|]. rewrite length_take. lia.
Qed.

Lemma root_path p : no_nul p -> is_root_path p = true <-> p = [bar].
Proof.
  intros Hp. unfold is_root_path. split; [|by intros ->]. destruct p as [|x [|y p]]; [done| |].
  - rewrite nthZ_cons_0. intros [->%Z.eqb_eq _]%andb_true_iff. done.
  - intros [_ H%Z.eqb_eq]%andb_true_iff. apply Forall_cons in Hp as [_ [Hy _]%Forall_cons]. change (nthZ (x :: y :: p) 1) with y in H. done.
Qed.

(** What [exfs_stat] says is a directory. *)
Lemma stat_dir V p : no_nul p -> exfs_stat V p = EXFS_TYPE_DIR -> p = [bar] \/ node V p EXFS_TYPE_DIR.
Proof.
  intros Hp. unfold exfs_stat. change (is_root p) with (is_root_path p). destruct (is_root_path p) eqn:E; [left; by apply root_path|].
  destruct (find V p) as [i|] eqn:Ef; [|done]. intros Ht. right. destruct (find_Some V p i Hp Ef) as (H1 & H2 & H3). by exists i, (file V i).
Qed.

Lemma last_of_spec p : forall i last, (forall k, 0 <= k < lenZ p -> nthZ p k <> bar) /\ last_of p i last = last \/
  exists k, 0 <= k < lenZ p /\ nthZ p k = bar /\ (forall j, k < j < lenZ p -> nthZ p j <> bar) /\ last_of p i last = i + k.
Proof.
  induction p as [|c p IH]; intros i last; cbn [last_of]; [left; split; [intros k Hk; cbn in Hk; lia|done]|].
  destruct (IH (i + 1) (if c =? shell_bar then i else last)) as [[Hn ->]|(k & Hk & Hb & Hl & ->)].
  - destruct (Z.eqb_spec c shell_bar) as [->|Hc].
    + right. exists 0. cbn [length]. split_and!; [lia|lia|done| |lia]. intros j Hj. replace j with (j - 1 + 1) by lia.
      rewrite nthZ_cons_S by lia. apply Hn. lia.
    + left. split; [|done]. cbn [length]. intros k Hk. destruct (Z.eq_dec k 0) as [->|]; [by rewrite nthZ_cons_0|].
      replace k with (k - 1 + 1) by lia. rewrite nthZ_cons_S by lia. apply Hn. lia.
  - right. exists (k + 1). cbn [length]. split_and!; [lia|lia|by rewrite nthZ_cons_S by lia| |lia].
    intros j Hj. replace j with (j - 1 + 1) by lia. rewrite nthZ_cons_S by lia. apply Hl. lia.
Qed.

(** The parent the shell computes is the one EXFS keeps. *)
Lemma parent_of_spec p : name_ok p = true -> parent_of p = if last_bar p =? 0 then [bar] else take (Z.to_nat (last_bar p)) p.
Proof.
  intros Hk. destruct (name_ok_facts p Hk) as (_ & _ & _ & Hb). unfold parent_of.
  assert (last_of p 0 0 = last_bar p) as ->; [|done]. destruct (last_bar_spec p) as [[E _]|(B1 & B2 & B3)]; [lia|].
  destruct (last_of_spec p 0 0) as [[Hn _]|(k & Hk1 & Hk2 & Hk3 & ->)]; [by destruct (Hn (last_bar p) B1)|].
  destruct (Z.lt_trichotomy (last_bar p) k) as [H|[H|H]]; [by destruct (B3 k ltac:(lia))|lia|by destruct (Hk3 (last_bar p) ltac:(lia))].
Qed.

(** Directives that keep the names keep the invariant. *)
Lemma cwd_same st st' : cwd_ok st -> cwd st' = cwd st -> same_names (vol st) (vol st') -> cwd_ok st'.
Proof.
  intros [N Hc Hd] E Hs. split; [by apply (same_ns_ok (vol st))|by rewrite E|]. rewrite E. destruct Hd; [by left|right]. by apply (same_node (vol st)).
Qed.

Lemma cwd_created st t p rc V s : cwd_ok st -> no_nul p -> (t = EXFS_TYPE_FILE \/ t = EXFS_TYPE_DIR) -> exfs_new t (vol st) p = (rc, V) ->
  cwd_ok (set_vol st V s).
Proof.
  intros [N Hc Hd] Hp Ht E. pose proof (exfs_new_spec (vol st) p t N Hp Ht) as H. rewrite E in H. destruct H as [N' Hpost].
  split; [done|done|]. destruct Hd as [?|Hd]; [by left|right]. destruct Hpost as [(_ & _ & _ & _ & _ & Ha)|(-> & _)]; [|done]. apply Ha. by left.
Qed.

Lemma cwd_home st u b t : cwd_ok st -> cwd_ok (println t (set_cwd (set_identity u b st) (copy_str [shell_bar] MAX_PATH_LEN))).
Proof. intros [N _ _]. split; [done|split; [by repeat constructor|done]|by left]. Qed.

Lemma cwd_locate_ok arg st : cwd_ok st -> no_nul arg -> cwd_ok (cmd_locate arg st).
Proof.
  intros Hw Ha. unfold cmd_locate, resolve. destruct (bool_decide _); [by apply (cwd_same st)|].
  destruct (resolve_ok (cwd st) arg) as [Hp Hl]; [apply Hw|done|]. destruct (_ <? _); [by apply (cwd_same st)|].
  destruct (Z.eqb_spec (exfs_stat (vol st) (resolve_operand (cwd st) arg)) EXFS_TYPE_DIR) as [E|]; cbn [negb]; [|by apply (cwd_same st)].
  split; [apply Hw| |]; cbn [cwd set_cwd]; unfold copy_str; rewrite take_ge by (unfold MAX_PATH_LEN; lia); [done|]. by apply stat_dir.
Qed.

(** Removing the current directory goes up to its parent. *)
Lemma cwd_remove_ok arg st : cwd_ok st -> no_nul arg -> cwd_ok (cmd_remove arg st).
Proof.
  intros Hw Ha. unfold cmd_remove, cmd_remove_main, resolve. destruct (bool_decide _); [by apply (cwd_same st)|].
  destruct (resolve_ok (cwd st) arg) as [Hp Hl]; [apply Hw|done|]. set (p := resolve_operand (cwd st) arg) in *.
  destruct (is_root_path p); [by apply (cwd_same st)|]. destruct Hw as [N Hc Hd]. pose proof (exfs_delete_spec (vol st) p N Hp) as H.
  destruct (exfs_delete (vol st) p) as [rc V]. destruct H as [N' Hpost]. destruct Hpost as [(-> & _ & [u Hu] & Hdel & _)|(-> & Hrc)].
  - change (negb (EXFS_OK =? EXFS_OK)) with false. cbv iota. cbn [cwd set_vol]. destruct (streq p (cwd st)) eqn:E.
    + assert (name_ok p = true) as Hk by (destruct Hu as (i & f & H1 & H2 & <- & _); by apply (ns_name _ N i f)).
      split; [done| |]; cbn [cwd set_cwd vol set_vol]; rewrite parent_of_spec by done.
      * destruct (_ =? 0); [split; [by repeat constructor|done]|]. split; [by apply no_nul_take|]. rewrite length_take. lia.
      * destruct (Z.eqb_spec (last_bar p) 0) as [|Hb]; [by left|right]. apply Hdel. destruct Hu as (i & f & H1 & H2 & H3 & _).
        destruct (ns_parent _ N i f H1 H2) as [Hx|Hx]; rewrite H3 in Hx; [done|]. split; [done|]. intros Heq.
        destruct (name_ok_facts p Hk) as (_ & _ & _ & Hlb). apply (f_equal length) in Heq. rewrite length_take in Heq. lia.
    + split; [done|done|]. destruct Hd as [?|Hd]; [by left|right]. apply Hdel. split; [done|]. intros Heq. cbn [cwd set_vol] in Heq.
      rewrite <- Heq, (proj2 (streq_spec _ _ (proj1 Hc) (proj1 Hc)) eq_refl) in E. done.
  - assert (cwd_ok (set_vol st (vol st) (disk st))) as Hst by (by split). destruct (negb _) eqn:E; [by apply (cwd_same st)|].
    exfalso. apply negb_false_iff, Z.eqb_eq in E. intuition (subst; discriminate).
Qed.

(** Directives that leave the volume and the current directory. *)
Definition still st st' : Prop := cwd st' = cwd st /\ vol st' = vol st.

Lemma cwd_still st st' : cwd_ok st -> still st st' -> cwd_ok st'.
Proof. intros Hw [E1 E2]. apply (cwd_same st); [done|done|by rewrite E2]. Qed.

Lemma cwd_form_ok arg st : cwd_ok st -> no_nul arg -> cwd_ok (cmd_form arg st).
Proof.
  intros Hw Ha. unfold cmd_form, report_unless_ok, cmd_form_main. pose proof (split_first_forall (fun x => x <> 0) arg MAX_CMD_LEN Ha) as Hs.
  destruct (split_first arg MAX_CMD_LEN) as [flag rest]. destruct Hs as [_ Hr]. destruct (_ || _); [by apply (cwd_still st)|].
  destruct (resolve_ok (cwd st) rest) as [Hp _]; [apply Hw|done|]. fold (resolve st rest) in Hp.
  destruct (same flag (txt "-file")); [|destruct (same flag (txt "-dir")); [|by apply (cwd_still st)]].
  - destruct (exfs_create _ _) as [rc V] eqn:E. assert (cwd_ok (set_vol st V (disk st))) as H by (by apply (cwd_created st EXFS_TYPE_FILE _ rc V _ Hw Hp ltac:(by left))).
    cbn [fst snd]. destruct (negb _); [|done]. by apply (cwd_still (set_vol st V (disk st))).
  - destruct (exfs_mkdir _ _) as [rc V] eqn:E. assert (cwd_ok (set_vol st V (disk st))) as H by (by apply (cwd_created st EXFS_TYPE_DIR _ rc V _ Hw Hp ltac:(by right))).
    cbn [fst snd]. destruct (negb _); [|done]. by apply (cwd_still (set_vol st V (disk st))).
Qed.

Lemma cwd_write_ok arg st : cwd_ok st -> cwd_ok (cmd_write arg st).
Proof.
  intros Hw. unfold cmd_write, report_unless_ok. destruct (split_first _ _) as [tok text]. destruct (_ || _); [by apply (cwd_still st)|].
  pose proof (exfs_write_same (vol st) (resolve st tok) text (lenZ text) (disk st)) as H.
  destruct (exfs_write _ _ _ _ _) as [[rc V] s]. cbn [fst snd] in *. by destruct (negb _); apply (cwd_same st).
Qed.

Lemma cwd_read_ok arg st : cwd_ok st -> cwd_ok (cmd_read arg st).
Proof. intros Hw. unfold cmd_read. by cases; apply (cwd_still st). Qed.
Lemma cwd_list_ok arg st : cwd_ok st -> cwd_ok (cmd_list arg st).
Proof. intros Hw. unfold cmd_list. by cases; apply (cwd_still st). Qed.
Lemma cwd_stat_ok arg st : cwd_ok st -> cwd_ok (cmd_stat arg st).
Proof. intros Hw. unfold cmd_stat, report_if_error, cmd_stat_main. by cases; apply (cwd_still st). Qed.
Lemma cwd_hexdump_ok arg st : cwd_ok st -> cwd_ok (cmd_hexdump arg st).
Proof. intros Hw. unfold cmd_hexdump, report_if_error, cmd_hexdump_main. by cases; apply (cwd_still st). Qed.

Lemma cwd_sync_ok arg st : cwd_ok st -> cwd_ok (cmd_sync_main arg st).2.
Proof.
  intros Hw. unfold cmd_sync_main. destruct (negb _); [by apply (cwd_still st)|]. pose proof (exfs_commit_same (vol st) (disk st)) as H.
  destruct (exfs_commit _ _) as [[rc V] s]. cbn in H. by destruct (_ =? _); apply (cwd_same st).
Qed.

Lemma cwd_unmount_ok arg st : cwd_ok st -> cwd_ok (cmd_unmount_main arg st).2.
Proof.
  intros Hw. unfold cmd_unmount_main, exfs_unmount. destruct (negb (exfs_is_mounted _)); [by apply (cwd_still st)|].
  destruct (negb (v_mounted _)). { by destruct (_ =? _); apply (cwd_same st). }
  pose proof (exfs_commit_same (vol st) (disk st)) as H. destruct (exfs_commit _ _) as [[rc V] s]. cbn in H.
  by destruct (negb (rc =? EXFS_OK)); destruct (_ =? _); apply (cwd_same st).
Qed.

Lemma cwd_install_loop l : Forall (fun img => no_nul (install_path (im_name img))) l -> forall st, cwd_ok st -> cwd_ok (install_loop l st).2.
Proof.
  induction l as [|img l IH]; intros Hl st Hw; [done|]. apply Forall_cons in Hl as [Hp Hl]. cbn [install_loop].
  set (r := if exfs_stat _ _ =? _ then _ else _). assert (cwd_ok r.2) as H1.
  { unfold r. destruct (_ =? _); [|done]. destruct (exfs_create _ _) as [rc V] eqn:E. by apply (cwd_created st EXFS_TYPE_FILE (install_path (im_name img)) rc); [| |left|]. }
  destruct r as [rc st1]. cbn [snd] in H1. destruct (negb _); [by apply (cwd_still st1)|].
  pose proof (exfs_write_same (vol st1) (install_path (im_name img)) (im_data img) (im_len img) (disk st1)) as Hs.
  destruct (exfs_write _ _ _ _ _) as [[rc' V] s]. cbn in Hs. assert (cwd_ok (set_vol st1 V s)) as H2 by (by apply (cwd_same st1)).
  destruct (negb _); [by apply (cwd_still (set_vol st1 V s))|]. apply IH; [done|]. by apply (cwd_still (set_vol st1 V s)).
Qed.

Lemma cwd_install_ok arg st : cwd_ok st -> cwd_ok (cmd_install_main arg st).2.
Proof.
  intros Hw. unfold cmd_install_main. destruct (negb _); [by apply (cwd_still st)|]. apply cwd_install_loop; [|done].
  vm_compute. repeat constructor; discriminate.
Qed.

(** Replacing the volume is the only way to lose it. *)
Definition replaces c : bool := streq c (txt "mount") || streq c (txt "format").

Lemma direct_cwd info cpu c a st h st' : no_nul c -> no_nul a -> one_shot c a = false -> replaces c = false -> cwd_ok st ->
  dispatch 1 info cpu c a st = Some (h, st') -> cwd_ok st'.
Proof.
  intros Hn Ha Ho Hm Hw. pose proof (not_one_shot c a Ho) as Hs. pose proof (fun x => cwd_still st x Hw) as Hst.
  each c; known; intros E; try (injection E as <- <-; first [by apply Hst|by apply cwd_locate_ok|by apply cwd_list_ok|by apply cwd_form_ok
    |by apply cwd_remove_ok|by apply cwd_read_ok|by apply cwd_write_ok|by apply cwd_stat_ok|by apply cwd_hexdump_ok
    |by apply cwd_unmount_ok|by apply cwd_sync_ok|by apply cwd_install_ok|by apply cwd_home|done]); try done.
  - unfold cmd_sprusr in E. destruct (Hs eq_refl) as [->|Hw0].
    + rewrite bool_decide_eq_true_2 in E by done. injection E as <- <-. by apply cwd_home.
    + case_bool_decide; [injection E as <- <-; by apply cwd_home|]. destruct (split_first a MAX_CMD_LEN) as [w r]. cbn in Hw0. subst w.
      rewrite bool_decide_eq_true_2 in E by done. injection E as <- <-. by apply Hst.
  - destruct (cmd_run_main _ _ _ _) as [[[rc t] p]|]; [|done]. injection E as <- <-. by apply Hst.
  - destruct (cmd_pci_main _) as [[[rc t] s]|]; [|done]. injection E as <- <-. by apply Hst.
  - destruct (cmd_nvme_main _ _ _) as [[[[rc t] ks] s]|]; [|done]. injection E as <- <-. by apply Hst.
Qed.
Lemma dispatch_cwd info cpu c a st h st' : no_nul c -> no_nul a -> replaces (peel (S (length a)) c a).1 = false -> cwd_ok st ->
  dispatch (S (length a)) info cpu c a st = Some (h, st') -> cwd_ok st'.
Proof.
  intros Hn Ha Hm Hw. pose proof (dispatch_peel info cpu (S (length a)) c a st Hn Ha ltac:(lia)) as H.
  destruct (peel (S (length a)) c a) as [c' a']. destruct H as (Hn' & Ha' & Ho & ->). cbn [fst] in Hm.
  assert (cwd_ok (elevate c a st)) as Hwe by (unfold elevate; destruct (one_shot c a); [by apply (cwd_still st)|done]).
  destruct (dispatch 1 info cpu c' a' _) as [[h1 st1]|] eqn:E; [|done]. cbn. intros [= <- <-].
  pose proof (direct_cwd info cpu c' a' _ h1 st1 Hn' Ha' Ho Hm Hwe E) as H1. unfold lower. destruct (one_shot c a); [by apply (cwd_still st1)|done].
Qed.

Lemma cwd_loop l : forall st h st', Forall (fun i => no_nul (in_line i)) l -> Forall (fun i => replaces (asked (in_line i)).1 = false) l -> cwd_ok st ->
  shell_loop l st = Some (h, st') -> cwd_ok st'.
Proof.
  induction l as [|i l IH]; intros st h st' Hl Hm Hw; [by intros [= <- <-]|]. apply Forall_cons in Hl as [Hi Hl], Hm as [Hmi Hm]. cbn [shell_loop].
  destruct (shell_round i st) as [[h1 st1]|] eqn:E; [|done]. cbn. assert (cwd_ok st1) as H1.
  { revert E. unfold shell_round. assert (cwd_ok (prompt st)) as Hp by (by apply (cwd_still st)). destruct (_ <=? _); [by intros [= <- <-]|].
    pose proof (parse_no_nul (in_line i) Hi) as [Hn Ha]. unfold asked in Hmi. destruct (parse_command_line (in_line i)) as [c a].
    destruct (bool_decide (c = [])); [by intros [= <- <-]|]. by apply dispatch_cwd. }
  destruct h1; [by intros [= <- <-]|]. by apply IH.
Qed.

Lemma cwd_stat_dir st : cwd_ok st -> exfs_stat (vol st) (cwd st) = EXFS_TYPE_DIR.
Proof.
  intros [N [Hc _] [-> |Hd]]; [done|]. unfold exfs_stat. destruct (is_root (cwd st)); [done|]. by destruct (find_node _ _ _ N Hc Hd) as (i & -> & ->).
Qed.
End ShellOk.

(** * The file directives on a tree

    What the user sees of the volume: a tree of names, a current directory, and
    the text that is printed. *)

Inductive act :=
  | ALocate (p : list Z) | AList (p : list Z) | AForm (t : Z) (p : list Z) | ARemove (p : list Z)
  | AWrite (p text : list Z) | ARead (p : list Z) | AStat (p : list Z) | AHexdump (p : list Z).

(** A directive with one path. *)
Definition operand (cw a : list Z) (f : list Z -> act) : option act := if bool_decide (a = []) then None else Some (f (resolve_operand cw a)).

Definition form_act (cw a : list Z) : option act :=
  let '(flag, rest) := split_first a MAX_CMD_LEN in
  if bool_decide (rest = []) then None else
  if same flag (txt "-file") then Some (AForm EXFS_TYPE_FILE (resolve_operand cw rest)) else
  if same flag (txt "-dir") then Some (AForm EXFS_TYPE_DIR (resolve_operand cw rest)) else None.

Definition write_act (cw a : list Z) : option act :=
  let '(tok, text) := split_first a MAX_PATH_LEN in
  if bool_decide (tok = []) || bool_decide (text = []) then None else Some (AWrite (resolve_operand cw tok) text).

(** The operation a line with enough operands stands for, in a directory. *)
Definition act_of (cw c a : list Z) : option act :=
  if streq c (txt "locate") || streq c (txt "ubicate") then operand cw a ALocate else
  if streq c (txt "list") then Some (AList (if bool_decide (a = []) then cw else resolve_operand cw a)) else
  if streq c (txt "form") then form_act cw a else
  if streq c (txt "remove") then operand cw a ARemove else
  if streq c (txt "read") then operand cw a ARead else
  if streq c (txt "write") then write_act cw a else
  if streq c (txt "stat") then operand cw a AStat else
  if streq c (txt "hexdump") then operand cw a AHexdump else None.

(** The node at a path; the root is a directory. *)
Definition tstat (T : Tree) (p : list Z) : option tnode := if is_root p then Some TDir else T !! p.

Definition unless_ok (rc : Z) : list Z := if rc =? EXFS_OK then [] else report rc.

(** The type EXFS keeps for a node. *)
Definition type_of (x : tnode) : Z := match x with TDir => EXFS_TYPE_DIR | TFile _ => EXFS_TYPE_FILE end.

(** What a directive prints, the directory and the tree it leaves. *)
Definition act_spec (x : act) (cw : list Z) (T : Tree) (t cw' : list Z) (T' : Tree) : Prop :=
  match x with
  | ALocate p => T' = T /\
    match tstat T p with
    | Some TDir => cw' = p /\ t = []
    | Some (TFile _) => cw' = cw /\ t = fail (txt "EXNOTDIR") (txt "target is not a directory")
    | None => cw' = cw /\ t = report EXFS_ENOENT
    end
  | AList p => T' = T /\ cw' = cw /\
    match tstat T p with
    | Some TDir => exists calls, t = list_text calls /\ NoDup calls /\
        forall rest u, (rest, u) ∈ calls <-> plain rest /\ type_of <$> T !! (prefix_of p ++ rest) = Some u
    | Some (TFile _) => t = line p
    | None => t = report EXFS_ENOENT
    end
  | AForm u p => cw' = cw /\ exists rc, tnew T p (if u =? EXFS_TYPE_DIR then TDir else TFile []) rc T' /\ t = unless_ok rc
  | ARemove p =>
    if is_root p then t = fail (txt "EXPERM") (txt "root node is immutable") /\ cw' = cw /\ T' = T else
    exists rc, tree_spec (FDelete p) T rc [] T' /\ t = unless_ok rc /\
      cw' = (if (rc =? EXFS_OK) && bool_decide (p = cw) then parent_of p else cw)
  | AWrite p text => cw' = cw /\ exists rc, tchange T p (fun _ => text) rc T' /\ t = unless_ok rc
  | ARead p => T' = T /\ cw' = cw /\
    match T !! p with
    | Some (TFile c) => t = line (cstr (take 4096 c)) ++ (if 4096 <? lenZ c then txt "EXTRUNC: showing the first " ++ put_dec 4096 ++ line (txt " bytes") else [])
    | Some TDir => t = report EXFS_EISDIR
    | None => t = report EXFS_ENOENT
    end
  | AStat p => T' = T /\ cw' = cw /\
    match tstat T p with
    | Some TDir => t = txt "dir   " ++ p ++ line []
    | Some (TFile c) => t = txt "file  " ++ p ++ txt "  size=" ++ put_dec (lenZ c) ++ txt " bytes" ++ line []
    | None => t = report EXFS_ENOENT
    end
  | AHexdump p => T' = T /\ cw' = cw /\
    match T !! p with
    | Some (TFile c) => t = hex_dump (take 256 c) (Z.min 256 (lenZ c))
    | Some TDir => t = report EXFS_EISDIR
    | None => t = report EXFS_ENOENT
    end
  end.

Section Refine.
Context {D : Type} `{B : Board D} (d : BlkDev D) `{!BlockDevice d} `{!FailStop d}.
Implicit Types (st : Xsh (D := D)) (arg path c a : list Z) (V : Vol D) (T : Tree).

(** The text printed between two states. *)
Definition said st st' (t : list Z) : Prop := exists ts, out st' = out st ++ (Say <$> ts) /\ concat ts = t.

Lemma said_one st t : said st (say t st) t.
Proof. exists [t]. split; [done|]. cbn. by rewrite app_nil_r. Qed.
Lemma said_none st st' : out st' = out st -> said st st' [].
Proof. intros E. exists []. rewrite E. split; [by rewrite app_nil_r|done]. Qed.

Lemma said_app s1 s2 s3 t u : said s1 s2 t -> said s2 s3 u -> said s1 s3 (t ++ u).
Proof. intros (ts & E1 & <-) (us & E2 & <-). exists (ts ++ us). by rewrite E2, E1, fmap_app, app_assoc, concat_app. Qed.

(** The volume holds the tree, and the current directory is a string. *)
Record shows st T : Prop := { sh_sim : sim d (vol st) (disk st) T; sh_cwd : no_nul (cwd st) /\ lenZ (cwd st) <= 255 }.

(** The state after a directive that stands for [x]. *)
Definition acted st T (x : act) st' : Prop :=
  bd_dead (disk st') = false -> exists t T', said st st' t /\ act_spec x (cwd st) T t (cwd st') T' /\ shows st' T'.

Lemma step_op V s T op rc o V' s' : sim d V s T -> flegal op -> fexec op V s = (rc, o, V', s') -> bd_dead s' = false ->
  exists T', tree_spec op T rc o T' /\ sim d V' s' T'.
Proof.
  intros HS Hl E Hd. pose proof (step_any d V s T HS op Hl) as H. rewrite E in H. destruct H as [_ H]. destruct (H Hd) as (T' & H1 & H2 & _). eauto.
Qed.

Lemma sim_alive V s T : sim d V s T -> bd_dead s = false.
Proof. intros H. apply H. Qed.

Lemma stat_tree V s T p : sim d V s T -> no_nul p -> exfs_stat V p = match tstat T p with Some x => type_of x | None => EXFS_ENOENT end.
Proof.
  intros HS Hp. destruct (step_op V s T (FStat p) _ _ V s HS Hp eq_refl (sim_alive _ _ _ HS)) as (T' & (_ & _ & ->) & _).
  unfold tstat. destruct (is_root p); [done|]. by destruct (T !! p) as [[|c]|].
Qed.

Lemma size_tree V s T p : sim d V s T -> no_nul p ->
  exfs_size V p = match T !! p with Some (TFile c) => lenZ c | Some TDir => EXFS_EISDIR | None => EXFS_ENOENT end.
Proof. intros HS Hp. by destruct (step_op V s T (FSize p) _ _ V s HS Hp eq_refl (sim_alive _ _ _ HS)) as (T' & (_ & _ & ->) & _). Qed.

(** The length of a file fits 64 bits. *)
Lemma tree_small V s T n c : sim d V s T -> T !! n = Some (TFile c) -> lenZ c < 2 ^ 64.
Proof.
  intros [_ Hf _ _ [Ht _]] (i & f & Hi & _ & _ & <-)%Ht. pose proof (fo_file _ _ _ Hf i f Hi) as Hok. rewrite (length_content d V s f Hok).
  pose proof (fk_size _ _ _ _ Hok) as Hz. pose proof (ext_blocks_bound _ (fk_ext _ _ _ _ Hok)) as Hb. pose proof (fk_n _ _ _ _ Hok) as Hn.
  rewrite length_fext in Hb by lia. unfold data_blocks in Hz. lia.
Qed.

Lemma node_tree V s T n t : sim d V s T -> node V n t <-> type_of <$> T !! n = Some t.
Proof.
  intros [N _ _ _ HT]. destruct HT as [Hf Hd]. split.
  - intros H. assert (t = EXFS_TYPE_FILE \/ t = EXFS_TYPE_DIR) as [-> | ->].
    { destruct H as (i & f & H1 & H2 & H3 & <-). by apply (ns_type V N i f). }
    + apply (node_stores d V s) in H as [c Hc]. apply Hf in Hc. by rewrite Hc.
    + apply Hd in H. by rewrite H.
  - destruct (T !! n) as [[|c]|] eqn:E; intros [= <-]; [by apply Hd|]. apply (node_stores d V s). exists c. by apply Hf.
Qed.

(** A directive that changes nothing and prints one text. *)
Lemma acted_say st T x t : shows st T -> act_spec x (cwd st) T t (cwd st) T -> acted st T x (say t st).
Proof. intros [H1 H2] Hx _. exists t, T. split; [apply said_one|]. split; [done|]. by split. Qed.

Lemma locate_acts st T p a : shows st T -> no_nul a -> a <> [] -> p = resolve_operand (cwd st) a -> acted st T (ALocate p) (cmd_locate a st).
Proof.
  intros Hs Ha Hne ->. unfold cmd_locate, resolve. rewrite bool_decide_eq_false_2 by done. destruct Hs as [HS [Hc Hl]].
  destruct (resolve_ok (cwd st) a Hc Ha) as [Hp Hpl]. set (p := resolve_operand _ _) in *. pose proof (stat_tree (vol st) (disk st) T p HS Hp) as Est. rewrite Est.
  destruct (tstat T p) as [[|x]|] eqn:Et; cbn [type_of].
  - intros _. exists [], T. split; [by apply said_none|]. cbn [cwd set_cwd]. unfold copy_str, act_spec. rewrite Et, take_ge by (unfold MAX_PATH_LEN; lia). done.
  - apply acted_say; [done|]. cbn. by rewrite Et.
  - apply acted_say; [done|]. cbn. by rewrite Et.
Qed.

Lemma list_acts st T p : shows st T -> no_nul p -> lenZ p <= 255 -> forall a, (if bool_decide (a = []) then copy_str (cwd st) MAX_PATH_LEN else resolve st a) = p ->
  acted st T (AList p) (cmd_list a st).
Proof.
  intros Hs Hp Hpl a Ea. unfold cmd_list. rewrite Ea. pose proof (sh_sim _ _ Hs) as HS. pose proof (stat_tree (vol st) (disk st) T p HS Hp) as Est. rewrite Est.
  destruct (tstat T p) as [[|x]|] eqn:Et; cbn [type_of]; (apply acted_say; [done|]); cbn; rewrite Et; try done.
  split_and!; [done|done|]. pose proof (exfs_list_spec (vol st) p (sm_ns _ _ _ _ HS) Hp (proj1 (sm_active _ _ _ _ HS))) as H.
  assert (is_root p = true \/ node (vol st) p EXFS_TYPE_DIR) as Hdir.
  { unfold tstat in Et. destruct (is_root p); [by left|right]. by rewrite (node_tree _ _ _ _ _ HS), Et. }
  specialize (H Hdir). destruct (exfs_list (vol st) p) as [n calls]. destruct H as (_ & Hnd & Hc). exists calls. split_and!; [done|done|].
  intros rest u. by rewrite Hc, (node_tree _ _ _ _ _ HS).
Qed.

Lemma said_unless st rc : said st (if negb (rc =? EXFS_OK) then say (report rc) st else st) (unless_ok rc).
Proof. unfold unless_ok. destruct (rc =? EXFS_OK); [by apply said_none|apply said_one]. Qed.

(** A change of the volume that is reported when it fails. *)
Lemma acted_change st T op rc V s x : shows st T -> flegal op -> fexec op (vol st) (disk st) = (rc, [], V, s) ->
  (forall T', tree_spec op T rc [] T' -> act_spec x (cwd st) T (unless_ok rc) (cwd st) T') ->
  acted st T x (report_unless_ok (rc, set_vol st V s)).
Proof.
  intros [HS Hc] Hl E Hx Hd. unfold report_unless_ok in *. cbn [fst snd] in *.
  assert (bd_dead s = false) as Hd' by (by destruct (negb _)).
  destruct (step_op _ _ T op rc [] V s HS Hl E Hd') as (T' & Ht & HS'). exists (unless_ok rc), T'. split.
  - exact (said_unless (set_vol st V s) rc).
  - destruct (negb (rc =? EXFS_OK)); by split; [apply Hx|split].
Qed.

Lemma form_acts st T u p a flag rest : shows st T -> no_nul a -> split_first a MAX_CMD_LEN = (flag, rest) -> rest <> [] ->
  (flag = txt "-file" /\ u = EXFS_TYPE_FILE \/ flag = txt "-dir" /\ u = EXFS_TYPE_DIR) -> p = resolve_operand (cwd st) rest ->
  acted st T (AForm u p) (cmd_form a st).
Proof.
  intros Hs Ha Es Hr Hf ->. unfold cmd_form, resolve. pose proof (split_first_forall (fun x => x <> 0) a MAX_CMD_LEN Ha) as Hn.
  rewrite Es in *. destruct Hn as [_ Hn]. destruct (resolve_ok (cwd st) rest) as [Hp _]; [apply Hs|done|]. set (p := resolve_operand _ _) in *.
  rewrite bool_decide_eq_false_2 by done. destruct Hf as [[-> ->]|[-> ->]].
  - change (acted st T (AForm EXFS_TYPE_FILE p) (report_unless_ok (let '(rc, V) := exfs_create (vol st) p in (rc, set_vol st V (disk st))))).
    destruct (exfs_create (vol st) p) as [rc V] eqn:E. apply (acted_change st T (FCreate p)); [done|done|cbn [fexec]; by rewrite E|].
    intros T' [_ H]. split; [done|]. exists rc. done.
  - change (acted st T (AForm EXFS_TYPE_DIR p) (report_unless_ok (let '(rc, V) := exfs_mkdir (vol st) p in (rc, set_vol st V (disk st))))).
    destruct (exfs_mkdir (vol st) p) as [rc V] eqn:E. apply (acted_change st T (FMkdir p)); [done|done|cbn [fexec]; by rewrite E|].
    intros T' [_ H]. split; [done|]. exists rc. done.
Qed.

Lemma write_acts st T p a tok text : shows st T -> no_nul a -> bytes_ok a -> lenZ a < 2 ^ 32 -> split_first a MAX_PATH_LEN = (tok, text) ->
  tok <> [] -> text <> [] -> p = resolve_operand (cwd st) tok -> acted st T (AWrite p text) (cmd_write a st).
Proof.
  intros Hs Ha Hb Hl Es Htok Htext ->. unfold cmd_write, resolve. pose proof (split_first_forall (fun x => x <> 0) a MAX_PATH_LEN Ha) as Hn.
  pose proof (split_first_forall _ a MAX_PATH_LEN Hb) as Hbt. pose proof (split_first_parts a MAX_PATH_LEN) as Hp. rewrite Es in *.
  destruct Hn as [Hn _], Hbt as [_ Hbt], Hp as [sp Ea]. destruct (resolve_ok (cwd st) tok) as [Hp _]; [apply Hs|done|]. set (p := resolve_operand _ _) in *.
  rewrite !bool_decide_eq_false_2 by done. cbn [orb].
  destruct (exfs_write (vol st) p text (lenZ text) (disk st)) as [[rc V] s] eqn:E. apply (acted_change st T (FWrite p text)).
  - done.
  - split_and!; [done|done|]. rewrite Ea, !length_app in Hl. lia.
  - cbn [fexec]. by rewrite E.
  - intros T' [_ H]. split; [done|]. by exists rc.
Qed.

Lemma parent_chars p : no_nul p -> lenZ p <= 255 -> no_nul (parent_of p) /\ lenZ (parent_of p) <= 255.
Proof.
  intros Hp Hl. unfold parent_of. destruct (_ =? 0); [split; [by repeat constructor|done]|]. split; [by apply no_nul_take|]. rewrite length_take. lia.
Qed.

Lemma remove_acts st T p a : shows st T -> no_nul a -> a <> [] -> p = resolve_operand (cwd st) a -> acted st T (ARemove p) (cmd_remove a st).
Proof.
  intros Hs Ha Hne ->. unfold cmd_remove, cmd_remove_main, resolve. rewrite bool_decide_eq_false_2 by done. pose proof Hs as [HS [Hc Hl]].
  destruct (resolve_ok (cwd st) a Hc Ha) as [Hp Hpl]. set (p := resolve_operand _ _) in *. change (is_root_path p) with (is_root p).
  destruct (is_root p) eqn:Er; [apply acted_say; [done|]; cbn; by rewrite Er|].
  destruct (exfs_delete (vol st) p) as [rc V] eqn:E. intros Hd.
  assert (fexec (FDelete p) (vol st) (disk st) = (rc, [], V, disk st)) as Ex by (cbn [fexec]; by rewrite E).
  destruct (step_op _ _ T (FDelete p) rc [] V _ HS Hp Ex (sim_alive _ _ _ HS)) as (T' & Ht & HS').
  exists (unless_ok rc), T'. unfold act_spec. rewrite Er. unfold unless_ok. cbn [cwd set_vol].
  destruct (Z.eqb_spec rc EXFS_OK) as [->|Hrc]; cbn [negb andb].
  - assert (streq p (cwd st) = bool_decide (p = cwd st)) as ->.
    { destruct (streq p (cwd st)) eqn:Eq; symmetry; [by apply bool_decide_eq_true_2, streq_spec|].
      apply bool_decide_eq_false_2. intros Ep. by rewrite (proj2 (streq_spec p (cwd st) Hp Hc) Ep) in Eq. }
    case_bool_decide; (split; [by apply said_none|]; split; [by exists EXFS_OK|]; split; [done|]); [by apply parent_chars|done].
  - split; [apply (said_one (set_vol st V (disk st)))|]. split; [|by split]. exists rc. rewrite (proj2 (Z.eqb_neq rc EXFS_OK) Hrc). done.
Qed.

(** Reading: the status, the bytes, and the state of the device after it. *)
Lemma read_tree st T p cap : shows st T -> no_nul p -> 0 <= cap < 2 ^ 64 ->
  let '(n, buf, s) := exfs_read (vol st) p cap (disk st) in bd_dead s = false ->
  sim d (vol st) s T /\
  match T !! p with
  | Some (TFile c) => buf = take (Z.to_nat cap) c /\ n = lenZ buf
  | Some TDir => n = EXFS_EISDIR
  | None => n = EXFS_ENOENT
  end.
Proof.
  intros [HS _] Hp Hcap. unfold exfs_read. destruct (exfs_read_at (vol st) p 0 cap (disk st)) as [[n buf] s] eqn:E. intros Hd.
  assert (fexec (FRead p 0 cap) (vol st) (disk st) = (n, buf, vol st, s)) as Ex by (cbn [fexec]; by rewrite E).
  destruct (step_op _ _ T (FRead p 0 cap) n buf _ s HS ltac:(done) Ex Hd) as (T' & [-> Ht] & HS'). split; [done|].
  destruct (T !! p) as [[|c]|]; [apply Ht| |apply Ht]. exact Ht.
Qed.

Lemma read_acts st T p a : shows st T -> no_nul a -> a <> [] -> p = resolve_operand (cwd st) a -> acted st T (ARead p) (cmd_read a st).
Proof.
  intros Hs Ha Hne ->. unfold cmd_read, resolve. rewrite bool_decide_eq_false_2 by done. pose proof Hs as [HS [Hc Hl]].
  destruct (resolve_ok (cwd st) a Hc Ha) as [Hp _]. set (p := resolve_operand _ _) in *. pose proof (size_tree (vol st) (disk st) T p HS Hp) as Esz. rewrite Esz.
  pose proof (read_tree st T p READ_MAX Hs Hp ltac:(done)) as Hr. destruct (exfs_read (vol st) p READ_MAX (disk st)) as [[n buf] s].
  destruct (T !! p) as [[|c]|] eqn:Et; try (apply acted_say; [done|]; cbn; by rewrite Et).
  rewrite (proj2 (Z.ltb_ge (lenZ c) 0)) by lia. intros Hd.
  assert (bd_dead s = false) as Hd' by (revert Hd; by repeat case_match). destruct (Hr Hd') as (HS' & -> & ->). change (Z.to_nat READ_MAX) with 4096%nat in *.
  set (buf := take 4096 c) in *. assert (lenZ buf = Z.min 4096 (lenZ c)) as Elen by (unfold buf; rewrite length_take; lia).
  rewrite (proj2 (Z.ltb_ge (lenZ buf) 0)) in * by lia. rewrite Nat2Z.id, firstn_all in *. cbv zeta in *.
  assert ((lenZ buf <? lenZ c) = (4096 <? lenZ c)) as -> by (destruct (Z.ltb_spec (lenZ buf) (lenZ c)), (Z.ltb_spec 4096 (lenZ c)); lia).
  cbn [act_spec]. rewrite Et. destruct (Z.ltb_spec 4096 (lenZ c)) as [Hbig|]; eexists _, T.
  - assert (lenZ buf = 4096) as -> by lia. split; [|split; [by split_and!|by split]].
    apply (said_app st (println (cstr buf) (set_disk st s))); [apply (said_one (set_disk st s))|apply said_one].
  - split; [|split; [by split_and!|by split]]. rewrite app_nil_r. apply (said_one (set_disk st s)).
Qed.

Lemma stat_acts st T p a : shows st T -> no_nul a -> a <> [] -> p = resolve_operand (cwd st) a -> acted st T (AStat p) (cmd_stat a st).
Proof.
  intros Hs Ha Hne ->. unfold cmd_stat, cmd_stat_main, report_if_error, resolve. rewrite bool_decide_eq_false_2 by done. pose proof Hs as [HS [Hc Hl]].
  destruct (resolve_ok (cwd st) a Hc Ha) as [Hp _]. set (p := resolve_operand _ _) in *.
  pose proof (stat_tree (vol st) (disk st) T p HS Hp) as Est. pose proof (size_tree (vol st) (disk st) T p HS Hp) as Esz.
  rewrite Est, Esz. destruct (tstat T p) as [[|x]|] eqn:Et; cbn [type_of]; (apply acted_say; [done|]; cbn [act_spec]; rewrite Et; split_and!; try done).
  unfold tstat in Et. destruct (is_root p); [done|]. rewrite Et. unfold stat_text. cbn [fst snd].
  change (EXFS_TYPE_FILE =? EXFS_TYPE_DIR) with false. change (EXFS_TYPE_FILE =? EXFS_TYPE_FILE) with true. cbv iota.
  rewrite u64_small by (pose proof (tree_small _ _ _ _ _ HS Et); lia). by rewrite <- !app_assoc.
Qed.

Lemma hexdump_acts st T p a : shows st T -> no_nul a -> a <> [] -> p = resolve_operand (cwd st) a -> acted st T (AHexdump p) (cmd_hexdump a st).
Proof.
  intros Hs Ha Hne ->. unfold cmd_hexdump, cmd_hexdump_main, report_if_error, resolve. rewrite bool_decide_eq_false_2 by done. pose proof Hs as [HS [Hc Hl]].
  destruct (resolve_ok (cwd st) a Hc Ha) as [Hp _]. set (p := resolve_operand _ _) in *.
  pose proof (read_tree st T p HEX_MAX Hs Hp ltac:(done)) as Hr. destruct (exfs_read (vol st) p HEX_MAX (disk st)) as [[n buf] s]. intros Hd.
  assert (bd_dead s = false) as Hd' by (revert Hd; by repeat (case_match; cbn [fst snd])). destruct (Hr Hd') as (HS' & Hn). cbn [act_spec].
  destruct (T !! p) as [[|c]|] eqn:Et.
  - subst n. exists (report EXFS_EISDIR), T. split; [apply (said_one (set_disk st s))|]. split; [done|by split].
  - destruct Hn as [-> ->]. change (Z.to_nat HEX_MAX) with 256%nat. set (buf := take 256 c) in *. rewrite (proj2 (Z.ltb_ge (lenZ buf) 0)) by lia.
    exists (hex_dump buf (lenZ buf)), T. split; [apply (said_one (set_disk st s))|]. split; [|by split]. split_and!; [done|done|].
    unfold buf. rewrite length_take. f_equal. lia.
  - subst n. exists (report EXFS_ENOENT), T. split; [apply (said_one (set_disk st s))|]. split; [done|by split].
Qed.

(** The directive, run directly. *)
Lemma direct_acts info cpu c a st T x : shows st T -> no_nul c -> no_nul a -> bytes_ok a -> lenZ a < 2 ^ 32 ->
  act_of (cwd st) c a = Some x -> exists st', dispatch 1 info cpu c a st = Some (false, st') /\ acted st T x st'.
Proof.
  intros Hs Hc Ha Hb Hl. pose proof Hs as [HS [Hcw Hcl]].
  assert (forall f, operand (cwd st) a f = Some x -> a <> [] /\ x = f (resolve_operand (cwd st) a)) as Hop
    by (unfold operand; intros f; case_bool_decide; [done|]; by intros [= <-]).
  each c; known; try discriminate; intros Hx; try (eexists; split; [reflexivity|]);
    try (apply Hop in Hx as [Hne ->]; first [by apply locate_acts|by apply remove_acts|by apply read_acts|by apply stat_acts|by apply hexdump_acts]).
  - injection Hx as <-. case_bool_decide as Ea.
    + apply (list_acts st T (cwd st)); [done|done|done|]. rewrite bool_decide_eq_true_2 by done. apply take_ge. unfold MAX_PATH_LEN. lia.
    + destruct (resolve_ok (cwd st) a Hcw Ha). apply list_acts; [done|done|done|]. by rewrite bool_decide_eq_false_2.
  - change (form_act (cwd st) a = Some x) in Hx. unfold form_act in Hx. destruct (split_first a MAX_CMD_LEN) as [flag rest] eqn:Es.
    case_bool_decide; [done|]. destruct (same flag (txt "-file")) eqn:E1; [|destruct (same flag (txt "-dir")) eqn:E2; [|done]]; injection Hx as <-.
    + apply same_spec in E1. by apply (form_acts st T _ _ a flag rest); [..|left|].
    + apply same_spec in E2. by apply (form_acts st T _ _ a flag rest); [..|right|].
  - change (write_act (cwd st) a = Some x) in Hx. unfold write_act in Hx. destruct (split_first a MAX_PATH_LEN) as [tok text] eqn:Es.
    destruct (bool_decide (tok = []) || _) eqn:E; [done|]. apply orb_false_iff in E as [E1%bool_decide_eq_false E2%bool_decide_eq_false]. injection Hx as <-.
    by apply (write_acts st T _ a tok text).
  - exfalso. unfold act_of in Hx. repeat match goal with H : _ = false |- _ => rewrite H in Hx; clear H end. done.
Qed.

(** Any directive, with [sprusr] before it or not. *)
Lemma dispatch_acts info cpu c a st T x : shows st T -> no_nul c -> no_nul a -> bytes_ok a -> lenZ a < 2 ^ 32 ->
  (let '(c', a') := peel (S (length a)) c a in act_of (cwd st) c' a' = Some x) ->
  exists st', dispatch (S (length a)) info cpu c a st = Some (false, st') /\ acted st T x st'.
Proof.
  intros Hs Hc Ha Hb Hl Hx. pose proof (dispatch_peel info cpu (S (length a)) c a st Hc Ha ltac:(lia)) as H.
  pose proof (peel_rest (S (length a)) c a) as Hp. destruct (peel (S (length a)) c a) as [c' a']. destruct H as (Hc' & Ha' & _ & ->), Hp as [pre Ep].
  assert (shows (elevate c a st) T /\ out (elevate c a st) = out st /\ cwd (elevate c a st) = cwd st) as (Hse & Eo & Ec).
  { unfold elevate. destruct (one_shot c a); [|done]. destruct Hs. by split. }
  rewrite <- Ec in Hx. rewrite Ep in Hb, Hl. apply Forall_app in Hb as [_ Hb]. rewrite length_app in Hl.
  destruct (direct_acts info cpu c' a' _ T x Hse Hc' Ha' Hb ltac:(lia) Hx) as (st' & -> & Hact). cbn [mbind option_bind].
  eexists. split; [done|]. intros Hd. assert (disk (lower c a st st') = disk st') as Ed by (unfold lower; by destruct (one_shot c a)).
  rewrite Ed in Hd. destruct (Hact Hd) as (t & T' & H1 & H2 & [H3 H4]). exists t, T'. unfold said in *. rewrite Eo, Ec in *. unfold lower.
  destruct (one_shot c a); split_and!; try done; by split.
Qed.

Lemma round_acts l info cpu st T x : shows st T -> no_nul l -> bytes_ok l -> lenZ l < 2 ^ 32 -> act_of (cwd st) (asked l).1 (asked l).2 = Some x ->
  exists st', shell_round (mkInput l info cpu) st = Some (false, st') /\
    (bd_dead (disk st') = false -> exists t T', said (prompt st) st' t /\ act_spec x (cwd st) T t (cwd st') T' /\ shows st' T').
Proof.
  intros Hs Hl Hb Hlen Hx. unfold shell_round. cbn [in_line in_info in_cpu]. destruct (Z.leb_spec (lenZ l) 0) as [Hz|_].
  { assert (l = []) as -> by (by destruct l; [|cbn in Hz; lia]). done. }
  pose proof (parse_no_nul l Hl) as [Hn Ha]. unfold asked in Hx. unfold parse_command_line in *.
  pose proof (split_first_forall _ l MAX_CMD_LEN Hb) as Hbs. pose proof (split_first_parts l MAX_CMD_LEN) as Hp.
  destruct (split_first l MAX_CMD_LEN) as [c rest]. cbn [fst snd] in *. set (a := trim_blanks (copy_str rest MAX_ARG_LEN)) in *.
  assert (bytes_ok a) as Hba by (apply trim_forall; unfold copy_str; rewrite <- (take_drop (Z.to_nat (MAX_ARG_LEN - 1)) rest) in Hbs; by destruct Hbs as [_ [Hbs _]%Forall_app]).
  assert (lenZ a < 2 ^ 32) as Hla by (unfold a; pose proof (trim_length (copy_str rest MAX_ARG_LEN)); unfold copy_str in *; rewrite length_take in *; unfold MAX_ARG_LEN in *; lia).
  destruct (decide (c = [])) as [->|Hne]; [rewrite peel_nil in Hx; done|]. rewrite bool_decide_eq_false_2 by done.
  assert (shows (prompt st) T) as Hsp by (destruct Hs; by split).
  apply (dispatch_acts info cpu c a (prompt st) T x Hsp Hn Ha Hba Hla). by destruct (peel (S (length a)) c a).
Qed.
End Refine.

(** * Volumes *)

Section Volumes.
Context {D : Type} `{B : Board D}.
Implicit Types (st : Xsh (D := D)) (arg : list Z).

(** The three words of [format]. *)
Definition format_words arg : list Z * list Z * list Z :=
  let '(fmt, rest) := next_word arg 16 in let '(path, rest) := next_word rest 64 in let '(confirm, _) := next_word rest 64 in (fmt, path, confirm).

(** Formatting is confirmed: [format] changes neither the volume nor any device,
    or the line named a format that exists and the same device twice, no volume
    was mounted, and the effect is that of [exfs_format] on that device. *)
Theorem format_is_confirmed arg st : let '(fmt, path, confirm) := format_words arg in
  (vol (cmd_format_main arg st).2 = vol st /\ disk (cmd_format_main arg st).2 = disk st) \/
  (fmt = txt "exfs" /\ path = confirm /\ path <> [] /\ exfs_is_mounted (vol st) = false /\
   exists d rc, dev_lookup (devs st) path = Some d /\
     exfs_format (vol st) (Some d) (disk st) = (rc, vol (cmd_format_main arg st).2, disk (cmd_format_main arg st).2)).
Proof.
  unfold format_words, cmd_format_main. destruct (next_word arg 16) as [fmt r1]. destruct (next_word r1 64) as [path r2]. destruct (next_word r2 64) as [confirm r3].
  destruct (_ || _) eqn:Ee; [by left|]. destruct (same path confirm) eqn:Es; cbn [negb]; [|by left]. destruct (same fmt (txt "vexfs")); [by left|].
  destruct (same fmt (txt "exfs")) eqn:Ef; cbn [negb]; [|by left]. destruct (dev_lookup (devs st) path) as [d|] eqn:Ed; [|by left].
  destruct (exfs_is_mounted (vol st)) eqn:Em; [by left|]. right. apply same_spec in Es as <-, Ef as ->.
  apply orb_false_iff in Ee as [[_ Ep]%orb_false_iff _]. apply bool_decide_eq_false in Ep.
  destruct (exfs_format (vol st) (Some d) (disk st)) as [[rc V] s] eqn:E. split_and!; try done. exists d, rc. split; [done|]. by destruct (_ =? _).
Qed.
End Volumes.

(** * Sessions *)

Lemma main_ends {D : Type} `{B : Board D} `{Bt : Boot} `{!BoardTotal D} (Sp : list XAspace) (l : list Input) (st : Xsh (D := D)) :
  Forall typed l -> Forall (fun i => asks "nvme" i = false) l -> lenZ (user st) <= 15 -> rested Sp st ->
  exists h st', shell_main l st = Some (h, st') /\ h = existsb (asks "halt") l /\ identity st' = who l (identity st) /\ rested Sp st' /\
    (Sp = [] -> phys_free_count (phys (k_mem (s_k (p_sys (proc st'))))) = phys_free_count (phys (k_mem (s_k (p_sys (proc st)))))).
Proof.
  intros Ht Hv Hu Hr. unfold shell_main. destruct (loop_ends Sp l (println (txt "XASMOS Shell v0.05 -- 'ver' lists directives") st) Ht Hv Hu Hr)
    as (h & st1 & -> & H1 & H2 & H3). cbn [mbind option_bind]. eexists h, _. split; [done|].
  assert (rested Sp (if h then println (txt "System halted.") st1 else st1)) as H2' by (by destruct h). split_and!; [done|by destruct h|done|].
  intros ->. destruct Hr as (Hk & _ & Hno), H2' as (Hk' & _ & Hno'). refine (proj2 (counts_same _ [] _ [] Hk Hk' _) eq_refl eq_refl).
  intros t. by rewrite Hno, Hno'.
Qed.

Lemma main_cwd {D : Type} `{B : Board D} (l : list Input) (st st' : Xsh (D := D)) (h : bool) :
  Forall (fun i => no_nul (in_line i)) l -> Forall (fun i => replaces (asked (in_line i)).1 = false) l -> cwd_ok st ->
  shell_main l st = Some (h, st') -> cwd_ok st' /\ exfs_stat (vol st') (cwd st') = EXFS_TYPE_DIR.
Proof.
  intros Hl Hm Hw E. assert (cwd_ok st') as Hw'; [|split; [done|by apply cwd_stat_dir]]. unfold shell_main in E.
  destruct (shell_loop l _) as [[h' st1]|] eqn:E1; [|done]. cbn in E. apply cwd_loop in E1; [|done|done|by apply (cwd_still st)].
  injection E as -> <-. destruct h; [by apply (cwd_still st1)|done].
Qed.

(** * Results *)


(** The current directory never dangles. As long as no line mounts or
    formats a volume, whatever the lines do, remove or make, with any device and
    any failure of it, the current directory is a directory of the volume: the
    root, or a node that exists; removing it goes up to its parent. *)
Theorem shell_cwd_is_directory {D : Type} `{B : Board D} (l : list Input) (st st' : Xsh (D := D)) (h : bool) :
  Forall (fun i => no_nul (in_line i)) l -> Forall (fun i => replaces (asked (in_line i)).1 = false) l -> cwd_ok st ->
  shell_main l st = Some (h, st') -> cwd_ok st' /\ exfs_stat (vol st') (cwd st') = EXFS_TYPE_DIR.
Proof. apply main_cwd. Qed.


(** * Witnesses *)

#[local] Existing Instance demo_boot_state.

(** A machine without PCI devices. *)
#[local] Instance demo_board : Board RamDisk := {|
  cmd_pci_main s := Some (0, [], s);
  cmd_nvme_main _ ks s := Some (-1, line (txt "EXNOENT: no NVMe controller on the PCI bus"), ks, s) |}.
#[local] Instance demo_board_total : BoardTotal RamDisk.
Proof. split; intros; by eexists. Qed.

Definition demo_shell (m : GMap RamDisk) (s : RamDisk) : Xsh := mkXsh [bar] DEFAULT_USER false (demo_mounted m) s [] demo_idle [].
Definition demo_line (s : string) : Input := mkInput (txt s) demo_out demo_cpu.

Lemma demo_typed s : no_nul (txt s) -> typed (demo_line s).
Proof. intros H. split; [done|]. split; [apply demo_slices|done]. Qed.

Lemma demo_rested m s : rested [] (demo_shell m s).
Proof.
  split; [apply demo_reach0|]. split; [done|]. intros t. destruct (tokens_of _ t) as [tv|] eqn:E; [|done].
  apply tokens_of_Some in E as (_ & e & (_ & _ & He & Hl & _)%info_Some & _). cbn [demo_shell proc demo_idle p_sys s_k demo_ks0 demo_mem k_mem ledger xtok_init g_table] in He.
  apply lookup_replicate in He as [-> _]. done.
Qed.


(** A directory is made, entered and removed. *)
Lemma shell_cwd_is_directory_witness : exists m s h st',
  shell_main [demo_line "form -dir |d"; demo_line "locate d"; demo_line "remove |d"] (demo_shell m s) = Some (h, st') /\
  exfs_stat (vol st') (cwd st') = EXFS_TYPE_DIR.
Proof.
  destruct demo_sim as (m & s & HS). set (l := [demo_line "form -dir |d"; demo_line "locate d"; demo_line "remove |d"]).
  assert (Forall typed l) as Ht by (repeat constructor; try apply demo_slices; discriminate).
  assert (Forall (fun i => asks "nvme" i = false) l) as Hv by (by repeat constructor).
  destruct (loop_ends [] l (println (txt "XASMOS Shell v0.05 -- 'ver' lists directives") (demo_shell m s)) Ht Hv) as (h & st1 & E & _); [cbn; lia|apply demo_rested|].
  assert (shell_main l (demo_shell m s) = Some (h, if h then println (txt "System halted.") st1 else st1)) as E' by (unfold shell_main; by rewrite E).
  exists m, s, h, (if h then println (txt "System halted.") st1 else st1). split; [exact E'|].
  apply (shell_cwd_is_directory l (demo_shell m s) _ h).
  - repeat constructor; discriminate.
  - repeat constructor.
  - split; [apply HS|split; [by repeat constructor|done]|by left].
  - exact E'.
Defined.

