(* ===== verification/Tools.v ===== *)
(** The directives that reach hardware ([utils/pci.c], [utils/nvme.c]), and the
    disks of the machine: the boot volume in memory and the NVMe disk, seen as
    one state with a device each. *)

From Stdlib Require Import String.
From S2P Require Import Prelude.
From S2P Require Import Bytes.
From S2P Require Import Paging.
From S2P Require Import Pci.
From S2P Require Import Blk.
From S2P Require Import Nvme.
From S2P Require Import Xsh.
From S2P Require Import Shell.

Section Tools.
Context {E : Type} `{Bs : Bus E} {Cfg : Type} `{CS : ConfigSpace Cfg}.
Abbreviation Store := (@Storage E Cfg).
Implicit Types (st : Store).

(** * pci *)

Definition pci_bar_text (d : PciDev) (b : Z) : list Z :=
  if nthZ (bar_size d) b =? 0 then [] else
  txt "  bar" ++ put_dec b ++ txt "=" ++ put_hex (nthZ (bar d) b) 16 ++ txt "/" ++ put_hex (nthZ (bar_size d) b) 16.

Definition pci_line (d : PciDev) : list Z :=
  put_hex (bus d) 2 ++ txt ":" ++ put_hex (dev d) 2 ++ txt "." ++ put_dec (fn d) ++ txt "  " ++
  put_hex (vendor d) 4 ++ txt ":" ++ put_hex (device d) 4 ++ txt "  class " ++ put_hex (class_code d) 2 ++ put_hex (subclass d) 2 ++
  txt "/" ++ put_hex (prog_if d) 2 ++ concat (pci_bar_text d <$> seqZ 0 6) ++ line [].

Definition pci_main (p : Pci (Cfg := Cfg)) : option (Z * list Z * Pci (Cfg := Cfg)) :=
  '(n, p) ← pci_scan p;
  Some (0, (if n <? 0 then line (txt "warning: device table full, list is partial") else []) ++
           concat ((fun i => default [] (pci_line <$> pci_at p i)) <$> seqZ 0 (pci_count p)), p).

(** * nvme *)

Definition print_code (what : list Z) (rc : Z) : list Z := what ++ txt ", code " ++ put_dec (u64 (- rc)) ++ line [].

Definition set_sm st (m : @NvmeMachine E Cfg) : Store := mkStorage _ (g_dev st) (g_open st) (g_test st) m.
Definition set_nv st (n : Nvme (E := E)) : Store := set_sm st (mkNvmeMachine _ n (m_ks (s_m st)) (m_pci (s_m st))).

Definition bring_up st : option (Z * list Z * Store) :=
  '(rc, st) ← storage_open st;
  Some (if rc =? STORAGE_OK then
          let dev := storage_device st in
          (0, txt "nvme: sectors=" ++ put_dec (blk_sector_count dev) ++ txt " sector=" ++ put_dec (blk_sector_size dev) ++ line (txt " bytes"), st)
        else if rc =? STORAGE_ENODEV then (-1, line (txt "EXNOENT: no NVMe controller on the PCI bus"), st)
        else (-1, print_code (txt "EXIOERR: nvme_init failed") rc, st)).

(** [buf] is the static buffer [g_sector]. *)
Definition read_probe (buf : list Z) st : Z * list Z * list Z * Store :=
  let '(rc, b, n) := blk_read (storage_device st) 0 1 (Some buf) (nv (s_m st)) in
  let buf := default buf b in
  let st := set_nv st n in
  if negb (rc =? BLK_OK) then (-1, print_code (txt "EXIOERR: read of sector 0 failed") rc, buf, st) else
  (0, txt "sector 0:" ++ concat ((fun i => txt " " ++ put_hex (nthZ buf i) 2) <$> seqZ 0 16) ++ line [], buf, st).

Definition g_pattern (ss : Z) : list Z := (fun i => if i <? ss then u8 (u32 (u32 (i * 131) + 7)) else 0) <$> seqZ 0 4096.

(** The first byte that differs. *)
Fixpoint first_bad (k : nat) (i : Z) (sector pattern : list Z) : option Z :=
  match k with
  | O => None
  | S k => if nthZ sector i =? nthZ pattern i then first_bad k (i + 1) sector pattern else Some i
  end.

Definition write_test (buf : list Z) st : Z * list Z * list Z * Store :=
  if negb (storage_is_test_disk st) then (-1, line (txt "REFUSED: the write test runs only on the test disk (serial xasmos)"), buf, st) else
  let dev := storage_device st in
  let ss := blk_sector_size dev in
  if (ss =? 0) || (4096 <? ss) then (-1, line (txt "EXBADARG: sector size not supported by the test"), buf, st) else
  let pattern := g_pattern ss in
  let '(rc, n) := blk_write dev 1 1 (Some pattern) (nv (s_m st)) in
  if negb (rc =? BLK_OK) then (-1, line (txt "FAIL write sector 1"), buf, set_nv st n) else
  let '(rc, n) := blk_flush dev n in
  if negb (rc =? BLK_OK) then (-1, line (txt "FAIL flush"), buf, set_nv st n) else
  let '(rc, b, n) := blk_read dev 1 1 (Some buf) n in
  let buf := default buf b in
  if negb (rc =? BLK_OK) then (-1, line (txt "FAIL read sector 1"), buf, set_nv st n) else
  match first_bad (Z.to_nat ss) 0 buf pattern with
  | Some i => (-1, txt "FAIL byte " ++ put_dec i ++ txt " wrote " ++ put_hex (nthZ pattern i) 2 ++ txt " read " ++ put_hex (nthZ buf i) 2 ++ line [], buf, set_nv st n)
  | None => (0, txt "PASS write/flush/read sector 1, " ++ put_dec ss ++ line (txt " bytes match"), buf, set_nv st n)
  end.

Definition nvme_main (arg buf : list Z) st : option (Z * list Z * list Z * Store) :=
  '(r, t, st) ← bring_up st;
  if negb (r =? 0) then Some (-1, t, buf, st) else
  let '(rc, u, buf, st) :=
    if bool_decide (arg = []) then read_probe buf st else
    if same arg (txt "test") then write_test buf st else (-1, line (txt "usage: nvme [test]"), buf, st) in
  Some (rc, t ++ u, buf, st).

(** * Disks *)

(** The memory of the boot volume ([g_boot]), the NVMe disk and the PCI bus,
    and the buffer of [nvme.c]. *)
Record Disks := mkDisks { boot_disk : RamDisk; store : Store; g_sector : list Z }.
Implicit Types (w : Disks).

Definition set_boot_ram w (r : RamDisk) : Disks := mkDisks r (store w) (g_sector w).
Definition set_store w st : Disks := mkDisks (boot_disk w) st (g_sector w).
Definition set_disk_nv w (n : Nvme (E := E)) : Disks := set_store w (set_nv (store w) n).

(** A device on a part of the state. *)
Definition lift_ops {A X} (get : X -> A) (put : X -> A -> X) (o : BlkOps A) : BlkOps X :=
  mkOps ((fun f x lba n buf => let '(rc, b, a) := f (get x) lba n buf in (rc, b, put x a)) <$> op_read o)
        ((fun f x lba n buf => let '(rc, a) := f (get x) lba n buf in (rc, put x a)) <$> op_write o)
        ((fun f x => let '(rc, a) := f (get x) in (rc, put x a)) <$> op_flush o).
Definition lift_dev {A X} (get : X -> A) (put : X -> A -> X) (d : BlkDev A) : BlkDev X :=
  Blk.mkDev (lift_ops get put <$> ops d) (sector_size d) (sector_count d).

Definition ram_device w : option (BlkDev Disks) := lift_dev boot_disk set_boot_ram <$> ramdisk_device (Some (boot_disk w)).
Definition nvme_device w : option (BlkDev Disks) := lift_dev (fun w => nv (s_m (store w))) set_disk_nv <$> storage_device (store w).

(** The kernel's state is the one the caller has. *)
Definition with_ks st (ks : KState) : Store := set_sm st (mkNvmeMachine _ (nv (s_m st)) ks (m_pci (s_m st))).

#[export] Instance disks_board : Board Disks := {|
  cmd_pci_main w :=
    '(rc, t, p) ← pci_main (m_pci (s_m (store w)));
    Some (rc, t, set_store w (set_sm (store w) (mkNvmeMachine _ (nv (s_m (store w))) (m_ks (s_m (store w))) p)));
  cmd_nvme_main arg ks w :=
    '(rc, t, buf, st) ← nvme_main arg (g_sector w) (with_ks (store w) ks);
    Some (rc, t, m_ks (s_m st), mkDisks (boot_disk w) st buf) |}.

#[export] Instance disks_total `{CL : !ConfigLaws Cfg} : BoardTotal Disks.
Proof.
  split.
  - intros w. cbn [cmd_pci_main disks_board]. unfold pci_main. destruct (pci_scan_table (m_pci (s_m (store w)))) as (r & p & -> & _). by eexists.
  - intros arg ks w. cbn [cmd_nvme_main disks_board]. unfold nvme_main, bring_up. destruct (storage_open_spec (with_ks (store w) ks)) as (rc & st & -> & _). cbn [mbind option_bind].
    set (r := if rc =? STORAGE_OK then _ else _). destruct r as [[r t] st']. cbn [mbind option_bind]. destruct (negb _); [by eexists|].
    destruct (if bool_decide (arg = []) then _ else _) as [[[rc' u] buf] st'']. by eexists.
Qed.

End Tools.
