(* ===== verification/Start.v ===== *)
(** From power-on to the shell: the UEFI loader ([boot/exord/efi/efi_main.c]),
    the kernel's entry ([kernel/xeret/main.c]), the boot coordinator and its
    volume stage ([init/exit]). Each step is the composition of the operations
    of the other files; a machine that halts shows what it printed. *)

From Stdlib Require Import String.
From S2P Require Import Prelude.
From S2P Require Import Bytes.
From S2P Require Import Physical.
From S2P Require Import Console.
From S2P Require Import Pci.
From S2P Require Import Ledger.
From S2P Require Import Paging.
From S2P Require Import Aspace.
From S2P Require Import Exb.
From S2P Require Import Sys.
From S2P Require Import Trap.
From S2P Require Import Proc.
From S2P Require Import Blk.
From S2P Require Import Dev.
From S2P Require Import Nvme.
From S2P Require Import ExfsDefs.
From S2P Require Import Exfs.
From S2P Require Import ExfsNames.
From S2P Require Import Xsh.
From S2P Require Import Run.
From S2P Require Import Shell.
From S2P Require Import ShellOk.
From S2P Require Import Tools.

(** * The UEFI loader *)

Definition EfiReservedMemoryType : Z := 0.
Definition EfiUnusableMemory : Z := 8.
Definition EfiMemoryMappedIO : Z := 11.
Definition EfiMemoryMappedIOPortSpace : Z := 12.
Definition EfiPalCode : Z := 13.
Definition XERET_MMAP_MAX_BYTES : Z := 65536.
Definition EFI_SUCCESS : Z := 0.

Definition is_ram_backed_type (t : Z) : bool :=
  negb ((t =? EfiReservedMemoryType) || (t =? EfiMemoryMappedIO) || (t =? EfiMemoryMappedIOPortSpace) || (t =? EfiUnusableMemory) || (t =? EfiPalCode)).

(** One round of the loop: the highest end so far. *)
Definition higher_end (d : EFI_MEMORY_DESCRIPTOR) (highest : Z) : Z :=
  if negb (is_ram_backed_type (Type_ d)) then highest else
  let en := u64 (PhysicalStart d + u64 (NumberOfPages d * 4096)) in
  if highest <? en then en else highest.

(** The descriptor loop; the fuel is the size of the map. *)
Fixpoint phys_end_loop (fuel : nat) (map : list Z) (off map_size desc_size highest : Z) : Z :=
  match fuel with
  | O => highest
  | S fuel =>
    if u64 (off + desc_size) <=? map_size
    then phys_end_loop fuel map (u64 (off + desc_size)) map_size desc_size (higher_end (read_desc map off) highest)
    else highest
  end.

Definition compute_phys_end (map : list Z) (map_size desc_size : Z) : Z := phys_end_loop (Z.to_nat map_size) map 0 map_size desc_size 0.

(** What the firmware answers: the graphics mode, if there is one; for each
    [GetMemoryMap] the status, the size, the size of a descriptor and the bytes;
    for each [ExitBootServices] the status; where the static buffer lies. *)
Record MapAnswer := mkAnswer { ma_status : Z; ma_size : Z; ma_desc_size : Z; ma_bytes : list Z }.
Record Firmware := mkFirmware { fw_gop : option FramebufferInfo; fw_map : nat -> MapAnswer; fw_exit : nat -> Z; fw_buffer : Z }.

Definition handoff_of (fw : Firmware) (info : FramebufferInfo) (a : MapAnswer) : XeretHandoff * list Z :=
  (mkHandoff XERET_HANDOFF_MAGIC info (fw_buffer fw) (ma_size a) (ma_desc_size a) (compute_phys_end (ma_bytes a) (ma_size a) (ma_desc_size a)), ma_bytes a).

(** The handoff and the memory map, or [None]: it stops before the kernel. *)
Definition efi_main (fw : Firmware) : option (XeretHandoff * list Z) :=
  match fw_gop fw with
  | None => None
  | Some info =>
    let a := fw_map fw 0 in
    if negb (ma_status a =? EFI_SUCCESS) then None else
    if fw_exit fw 0 =? EFI_SUCCESS then Some (handoff_of fw info a) else
    let a := fw_map fw 1 in
    if negb (ma_status a =? EFI_SUCCESS) then None else
    if fw_exit fw 1 =? EFI_SUCCESS then Some (handoff_of fw info a) else None
  end.

(** * The volumes *)

Section Start.
Context {E : Type} `{Bs : Bus E} {Cfg : Type} `{CS : ConfigSpace Cfg}.
Abbreviation Machine := (Xsh (D := Disks (E := E) (Cfg := Cfg))).
Implicit Types (st : Machine).

Definition BOOT_VOLUME_BYTES : Z := 64 * 1024 * 1024.

Definition set_registry st l : Machine := mkXsh (cwd st) (user st) (super st) (vol st) (disk st) l (proc st) (out st).
Definition set_kernel st (ks : KState) : Machine := set_proc st (set_ks (proc st) ks).
Definition kernel st : KState := s_k (p_sys (proc st)).

(** The boot volume, in memory. *)
Definition stage_boot st : Z * Machine :=
  let '(rc, r) := ramdisk_init true (Some (Blk.mem (boot_disk (disk st)))) BOOT_VOLUME_BYTES 512 in
  if negb (rc =? BLK_OK) then (-1, println (txt "[EXIT ERROR] boot volume memory rejected") st) else
  let st := set_disk st (set_boot_ram (disk st) (default (boot_disk (disk st)) r)) in
  let '(rc, l) := dev_register (devs st) (Some (txt "rd0")) (ram_device (disk st)) in
  let st := set_registry st l in
  if negb (rc =? DEV_OK) then (-1, println (txt "[EXIT ERROR] cannot publish |dev|rd0") st) else
  let boot := dev_lookup (devs st) (txt "|dev|rd0") in
  let '(rc, V, s) := match boot with None => (EXFS_EIO, vol st, disk st) | Some _ => exfs_format (vol st) boot (disk st) end in
  let st := set_vol st V s in
  if negb (rc =? EXFS_OK) then (-1, println (txt "[EXIT ERROR] boot volume format failed") st) else
  (0, println (txt "[EXIT] boot volume |dev|rd0: exfs, 64 MiB, RAM") st).

(** The system disk, if there is one. *)
Definition stage_system st : option Machine :=
  '(rc, sto) ← storage_open (with_ks (store (disk st)) (kernel st));
  let st := set_kernel (set_disk st (set_store (disk st) sto)) (m_ks (s_m sto)) in
  if (rc =? STORAGE_OK) && bool_decide (is_Some (storage_device sto)) then
    let '(rc, l) := dev_register (devs st) (Some (txt "nd0")) (nvme_device (disk st)) in
    let st := set_registry st l in
    Some (if rc =? DEV_OK then println (txt "[EXIT] system disk |dev|nd0 registered") st else st)
  else Some (println (txt "[EXIT] no system disk: |dev|nd0 unavailable") st).

Definition stage_volumes st : option (Z * Machine) :=
  let '(rc, st) := stage_boot st in
  if negb (rc =? 0) then Some (-1, st) else
  st ← stage_system st; Some (0, st).

(** [true]: the machine has halted. *)
Definition exit_main_executor (l : list Input) st : option (bool * Machine) :=
  let st := println (txt "[EXIT] Initializing XASMOS userland environment...") st in
  '(rc, st) ← stage_volumes st;
  if negb (rc =? 0) then Some (true, println (txt "[EXIT ERROR] volume stage failed. Halting system.") st) else
  shell_main l (println (txt "[EXIT] Spawning core shell (XSH)...") st).

(** * The kernel's entry *)

Definition fb_hex (v : Z) : list Z := txt "0x" ++ ((fun i => nthZ Serial.hex_digits ((v .>> (60 - 4 * i)) .& 0xF)) <$> seqZ 0 16).

Definition halts (t : list Z) st : option (bool * Machine) := Some (true, println t st).

(** The state of the bitmap and of the ledger. *)
Definition set_phys (ks : KState) (p : PhysBitmap) : KState := set_kmem ks (mkMem p (Ledger.mem (k_mem ks)) (ledger (k_mem ks))).
Definition set_ledger (ks : KState) (g : Ledger) : KState := set_kmem ks (mkMem (phys (k_mem ks)) (Ledger.mem (k_mem ks)) g).

(** What the timer and the processor features are reported as. *)
Definition timer_text (rc : Z) (l : Lapic) : list Z :=
  if rc =? 0 then txt "timer: LAPIC ticks/ms=" ++ fb_hex (lapic_ticks_per_ms l) ++ line (if lapic_x2apic l then txt " (x2APIC)" else txt " (xAPIC)")
  else line (txt "timer: unavailable, no preemption").
Definition prot_text (p : Z) : list Z :=
  txt "prot:" ++ (if tst (p .& XPROT_NX) then txt " NX" else []) ++ (if tst (p .& XPROT_WP) then txt " WP" else []) ++
  (if tst (p .& XPROT_SMEP) then txt " SMEP" else []) ++ line [].
Definition frames_text (hand : XeretHandoff) (p : PhysBitmap) : list Z :=
  txt "fb " ++ fb_hex (fb_width (fb hand)) ++ txt "x" ++ fb_hex (fb_height (fb hand)) ++ txt " phys_end=" ++ fb_hex (hand_phys_end hand) ++ line [] ++
  txt "frames free=" ++ fb_hex (phys_free_count p) ++ txt "/" ++ fb_hex (phys_total_count p) ++ line [].

(** The console is cleared by [fb_console_init]; [xproc_init] loads the tables
    of [Trap]. [mmap] is the memory at [mmap_addr]; [cpuid] and [hw] are the
    processor and the timer; [l] is what is typed. *)
Definition kernel_main (hand : XeretHandoff) (mmap : list Z) (cpuid : Z -> Z -> Z * Z * Z * Z) (hw : HwIn) (l : list Input) st : option (bool * Machine) :=
  let st := println (txt "Boot Services exited. Handoff accepted.") (println (txt "XASMOS MAINFRAME EXOKERNEL -- xeret (UEFI/GOP)") (emit st Clear)) in
  if negb (magic hand =? XERET_HANDOFF_MAGIC) then halts (txt "EXBADBOOT: handoff magic mismatch. Halting.") st else
  let '(rc, p) := phys_init_from_handoff (Some hand) mmap (phys (k_mem (kernel st))) in
  let st := set_kernel st (set_phys (kernel st) p) in
  if negb (rc =? 0) then halts (txt "EXBADBOOT: physical memory init failed. Halting.") st else
  let st := set_kernel st (set_ledger (kernel st) xtok_init) in
  let fb_size := u64 (u64 (pixels_per_scanline (fb hand) * 4) * fb_height (fb hand)) in
  let '(rc, ks) := xpt_init_identity cpuid (hand_phys_end hand) (fb_base (fb hand)) fb_size (kernel st) in
  let st := set_kernel st ks in
  if negb (rc =? 0) then halts (txt "EXBADBOOT: page table install failed. Halting.") st else
  let '(rc, la) := lapic_timer_init hw (p_lapic (proc st)) in
  let st := set_proc st (set_p_lapic (proc st) la) in
  let st := say (frames_text hand (phys (k_mem (kernel st)))) (say (prot_text (g_prot (kernel st))) (say (timer_text rc la) st)) in
  exit_main_executor l st.

(** The whole machine: [None] stands for a machine that stops in the loader. *)
Definition power_on (fw : Firmware) (cpuid : Z -> Z -> Z * Z * Z * Z) (hw : HwIn) (l : list Input) st : option (option (bool * Machine)) :=
  (fun '(hand, mmap) => kernel_main hand mmap cpuid hw l st) <$> efi_main fw.
End Start.

(** * The kernel's books while it starts

    No token, no record of a mapping, a well-formed bitmap: the state every
    theorem on the running kernel starts from. *)

Definition mem_fresh (st : MemState) : Prop := phys_wf (phys st) /\ ledger st = xtok_init.

Lemma alloc_frame_wf p : phys_wf p -> phys_wf (phys_alloc_frames 1 p).2.
Proof.
  intros Hp. pose proof (alloc_frames_result 1 p Hp ltac:(lia)) as H. destruct (phys_alloc_frames 1 p) as [a q].
  destruct H as [(s & _ & _ & _ & _ & _ & _ & Hq & _)|[[= -> ->] _]]; done.
Qed.

Lemma alloc_zero_fresh st : mem_fresh st -> mem_fresh (alloc_zero_table st).2.
Proof.
  intros [Hp Hl]. unfold alloc_zero_table. pose proof (alloc_frame_wf (phys st) Hp) as H. destruct (phys_alloc_frames 1 (phys st)) as [a p].
  by destruct (a =? 0).
Qed.

Lemma next_level_fresh t idx fl st : mem_fresh st -> mem_fresh (next_level t idx fl st).2.
Proof.
  intros H. unfold next_level. destruct (negb _); [|done]. pose proof (alloc_zero_fresh st H) as H1. destruct (alloc_zero_table st) as [ph st1].
  by destruct (ph =? 0).
Qed.

Lemma map_huge_fresh root start en fl st : mem_fresh st -> mem_fresh (map_huge root start en fl st).2.
Proof.
  unfold map_huge. generalize (align_down start XERET_HUGE_SIZE) as a. intros a. generalize (Z.to_nat ((en - a) / XERET_HUGE_SIZE + 1)) as k.
  intros k. revert a st. induction k as [|k IH]; intros a st H; cbn [map_huge_loop]; [done|]. destruct (_ <? _); [|done].
  assert (mem_fresh (map_huge_step root fl a st).2) as H1.
  { unfold map_huge_step. pose proof (next_level_fresh root ((a .>> 39) .& 0x1FF) XPT_KERNEL_RW st H) as H1.
    destruct (next_level root _ _ st) as [[pdpt|] st1]; [|done].
    pose proof (next_level_fresh pdpt ((a .>> 30) .& 0x1FF) XPT_KERNEL_RW st1 H1) as H2. destruct (next_level pdpt _ _ st1) as [[pd|] st2]; [|done].
    by destruct (negb _). }
  destruct (map_huge_step root fl a st) as [[|r|r] st1]; [by apply IH|done|done].
Qed.

Definition fresh (ks : KState) : Prop := mem_fresh (k_mem ks) /\ g_maps ks = replicate 1024 dead_rec.

Lemma fresh_boot ks : fresh ks <-> k_boot ks.
Proof. split; [intros [[H1 H2] H3]; by split|intros [H1 H2 H3]; by split; [split|]]. Qed.

Lemma huge_or_fail_fresh root start en fl ks k : fresh ks -> (forall ks, fresh ks -> fresh (k ks).2) -> fresh (huge_or_fail root start en fl ks k).2.
Proof.
  intros [Hm Hg] Hk. unfold huge_or_fail. pose proof (map_huge_fresh root start en fl (k_mem ks) Hm) as H. destruct (map_huge _ _ _ _ _) as [r st].
  destruct (negb _); [by split|]. apply Hk. by split.
Qed.

Lemma protections_fresh cpuid ks : fresh ks -> fresh (enable_protections cpuid ks).2.
Proof.
  intros H. unfold enable_protections. destruct (cpuid 0x80000000 0) as [[[a b] c] d]. destruct (_ <? _); [done|].
  destruct (cpuid 0x80000001 0) as [[[a' b'] c'] d']. destruct (negb _); [done|]. destruct (cpuid 0 0) as [[[a2 b2] c2] d2]. destruct (_ >=? _); [|done].
  destruct (cpuid 7 0) as [[[a3 b3] c3] d3]. by destruct (tst _).
Qed.

(** Installing the kernel's tables only takes frames. *)
Lemma identity_fresh cpuid pe base size ks : fresh ks -> fresh (xpt_init_identity cpuid pe base size ks).2.
Proof.
  intros H. unfold xpt_init_identity. repeat (destruct (_ : bool); [done|]). pose proof (protections_fresh cpuid ks H) as [H1 H1'].
  destruct (enable_protections cpuid ks) as [r ks1]. cbn [snd] in *. destruct (negb _); [done|]. pose proof (alloc_zero_fresh (k_mem ks1) H1) as H2.
  destruct (alloc_zero_table (k_mem ks1)) as [root st]. destruct (_ =? 0); [by split|]. apply huge_or_fail_fresh; [by split|]. intros ks2 Hk2.
  assert (forall ks, fresh ks -> fresh (match next_level root XPT_MMIO_PML4 XPT_KERNEL_RW (k_mem ks) with
    | (None, st) => (-1, set_kmem ks st) | (Some _, st) => (0, Paging.set_boot (set_kmem ks st) root) end).2) as Hfin.
  { intros ks3 [H3 H3']. pose proof (next_level_fresh root XPT_MMIO_PML4 XPT_KERNEL_RW (k_mem ks3) H3) as H4.
    destruct (next_level _ _ _ (k_mem ks3)) as [[n|] st3]; by split. }
  assert (forall ks, fresh ks -> fresh (huge_or_fail root 0 (align_up (if pe <? XPT_MMIO_BASE then pe else XPT_MMIO_BASE) XERET_HUGE_SIZE) (XPT_KERNEL_RW .| XPT_GLOBAL) ks (fun ks =>
    (if pe >? FOUR_GIB then huge_or_fail root FOUR_GIB (align_up pe XERET_HUGE_SIZE) (XPT_KERNEL_RW .| XPT_GLOBAL) ks else fun k => k ks)
      (fun ks => match next_level root XPT_MMIO_PML4 XPT_KERNEL_RW (k_mem ks) with
        | (None, st) => (-1, set_kmem ks st) | (Some _, st) => (0, Paging.set_boot (set_kmem ks st) root) end))).2) as Hlow.
  { intros ks3 Hk3. apply huge_or_fail_fresh; [done|]. intros ks4 Hk4. destruct (_ >? _); [by apply huge_or_fail_fresh|by apply Hfin]. }
  destruct (tst size); [by apply huge_or_fail_fresh|by apply Hlow].
Qed.

Lemma map_uc_fresh k : forall i pdpt base start fl st, mem_fresh st -> mem_fresh (map_uc_loop k i pdpt base start fl st).2.
Proof.
  induction k as [|k IH]; intros i pdpt base start fl st H; cbn [map_uc_loop]; [done|]. set (va := base + _). set (pa := start + _).
  assert (mem_fresh (map_uc_step pdpt va pa fl st).2) as H1.
  { unfold map_uc_step. pose proof (next_level_fresh pdpt ((va .>> 30) .& 0x1FF) XPT_KERNEL_RW st H) as H1.
    destruct (next_level pdpt _ _ st) as [[pd|] st1]; [|done].
    pose proof (next_level_fresh pd ((va .>> 21) .& 0x1FF) XPT_KERNEL_RW st1 H1) as H2. destruct (next_level pd _ _ st1) as [[pt|] st2]; [|done].
    by destruct (tst _). }
  destruct (map_uc_step pdpt va pa fl st) as [[|r|r] st1]; [by apply IH|done|done].
Qed.

Lemma map_uncached_fresh ph size ks : fresh ks -> fresh (xpt_map_uncached ph size ks).2.
Proof.
  intros [Hm Hg]. unfold xpt_map_uncached. repeat (destruct (_ : bool); [done|]).
  match goal with |- context [map_uc_loop ?k ?i ?pd ?b ?s ?f ?st] => pose proof (map_uc_fresh k i pd b s f st Hm) as H; destruct (map_uc_loop k i pd b s f st) as [r st1] end.
  by destruct (negb _).
Qed.

(** Bringing up the NVMe disk only takes frames. *)
Section Disk.
Context {E : Type} `{Bs : Bus E} {Cfg : Type} `{CS : ConfigSpace Cfg}.

Lemma alloc_zeroed_fresh ks (e : E) : fresh ks -> let '(_, _, ks', _) := alloc_zeroed ks e in fresh ks'.
Proof.
  intros [[Hp Hl] Hg]. unfold alloc_zeroed. pose proof (alloc_frame_wf _ Hp) as H. destruct (phys_alloc_frames 1 _) as [p ph].
  by destruct (p =? 0); (split; [split|]).
Qed.

Lemma queue_alloc_fresh q id ks (e : E) : fresh ks -> let '(_, _, ks', _) := queue_alloc q id ks e in fresh ks'.
Proof.
  intros H. unfold queue_alloc. pose proof (alloc_zeroed_fresh ks e H) as H1. destruct (alloc_zeroed ks e) as [[[rc p] ks1] e1].
  destruct (negb _); [done|]. pose proof (alloc_zeroed_fresh ks1 e1 H1) as H2. destruct (alloc_zeroed ks1 e1) as [[[rc' p'] ks2] e2]. by destruct (negb _).
Qed.

Lemma nvme_init_fresh d ho (m : @NvmeMachine E Cfg) : fresh (m_ks m) -> fresh (m_ks (nvme_init d ho m).2).
Proof.
  intros H. unfold nvme_init. destruct d as [d|]; [|done]. repeat (destruct (_ : bool); [done|]).
  destruct (pci_enable _ _) as [r pci]. destruct (negb _); [done|].
  match goal with |- context [xpt_map_uncached ?a ?b ?k] => pose proof (map_uncached_fresh a b k H) as H1; destruct (xpt_map_uncached a b k) as [[r1 va] ks1] end.
  destruct (negb _); [done|]. destruct (rd64 _ _ _) as [cap e]. destruct (wait_rdy _ _ _) as [rc e1]. destruct (negb _); [done|].
  match goal with |- context [queue_alloc ?q ?i ?k ?e] => pose proof (queue_alloc_fresh q i k e H1) as H2; destruct (queue_alloc q i k e) as [[[rc2 q2] ks2] e2] end.
  destruct (negb _); [done|].
  match goal with |- context [queue_alloc ?q ?i ?k ?e] => pose proof (queue_alloc_fresh q i k e H2) as H3; destruct (queue_alloc q i k e) as [[[rc3 q3] ks3] e3] end.
  destruct (negb _); [done|].
  match goal with |- context [alloc_zeroed ?k ?e] => pose proof (alloc_zeroed_fresh k e H3) as H4; destruct (alloc_zeroed k e) as [[[rc4 p4] ks4] e4] end.
  destruct (negb _); [done|]. destruct (wait_rdy _ _ _) as [rc5 e5]. destruct (negb _); [done|].
  destruct (identify_namespace _ _) as [[rc6 c6] e6]. destruct (negb _); [done|]. destruct (create_io_queues _ _) as [[rc7 c7] e7]. by destruct (negb _).
Qed.

Lemma storage_open_fresh (s : @Storage E Cfg) rc s' : fresh (m_ks (s_m s)) -> storage_open s = Some (rc, s') -> fresh (m_ks (s_m s')).
Proof.
  intros H. unfold storage_open. destruct (g_open s); [by intros [= <- <-]|]. destruct (pci_scan _) as [[r pci]|]; [|done]. cbn [mbind option_bind].
  destruct (pci_find _ _ _ _ _) as [d|]; [|by intros [= <- <-]].
  pose proof (nvme_init_fresh (Some d) true (mkNvmeMachine Cfg (nv (s_m s)) (m_ks (s_m s)) pci) H) as H1.
  destruct (nvme_init _ _ _) as [[rc1 dv] m]. cbn [snd] in H1. destruct (negb _); [by intros [= <- <-]|].
  destruct (nvme_controller_serial _ _ _) as [[rs serial] n]. by intros [= <- <-].
Qed.
End Disk.

(** * The loader *)

(** The descriptors of a map. *)
Definition in_map (size dsize k : Z) : Prop := 0 <= k /\ (k + 1) * dsize <= size.
Definition desc_end (d : EFI_MEMORY_DESCRIPTOR) : Z := PhysicalStart d + NumberOfPages d * 4096.

(** What UEFI promises of the map: it fits the buffer, a descriptor holds at
    least the known fields, there is some memory, and no memory lies beyond
    the 52-bit physical addresses of the processor. *)
Record map_sane (a : MapAnswer) : Prop := {
  ms_size : 0 < ma_size a <= XERET_MMAP_MAX_BYTES;
  ms_desc : 40 <= ma_desc_size a < 2 ^ 32;
  ms_bytes : bytes_ok (ma_bytes a);
  ms_end : forall k, in_map (ma_size a) (ma_desc_size a) k -> let d := read_desc (ma_bytes a) (k * ma_desc_size a) in
    is_ram_backed_type (Type_ d) = true -> desc_end d <= 2 ^ 52;
  ms_some : exists k, in_map (ma_size a) (ma_desc_size a) k /\ let d := read_desc (ma_bytes a) (k * ma_desc_size a) in
    is_ram_backed_type (Type_ d) = true /\ 0 < NumberOfPages d
}.

Record fw_sane (fw : Firmware) : Prop := {
  fs_buffer : fw_buffer fw <> 0;
  fs_fb : forall info, fw_gop fw = Some info -> 0 <= fb_base info < 2 ^ 64;
  fs_map : forall k, ma_status (fw_map fw k) = EFI_SUCCESS -> map_sane (fw_map fw k)
}.

Lemma read_desc_range mmap off : bytes_ok mmap -> 0 <= off -> 0 <= PhysicalStart (read_desc mmap off) < 2 ^ 64 /\ 0 <= NumberOfPages (read_desc mmap off) < 2 ^ 64.
Proof. intros H Ho. split; apply get64_range; (done || lia). Qed.

Section Map.
Context (a : MapAnswer) (Ha : map_sane a).
Let ds := ma_desc_size a.
Let desc (k : Z) : EFI_MEMORY_DESCRIPTOR := read_desc (ma_bytes a) (k * ds).

(** The loop from descriptor [k]. *)
Lemma phys_end_loop_spec fuel : forall k h, 0 <= k -> k * ds <= ma_size a -> ma_size a - k * ds <= Z.of_nat fuel * ds -> 0 <= h <= 2 ^ 52 ->
  let r := phys_end_loop fuel (ma_bytes a) (k * ds) (ma_size a) ds h in
  h <= r <= 2 ^ 52 /\ (forall j, k <= j -> in_map (ma_size a) ds j -> is_ram_backed_type (Type_ (desc j)) = true -> desc_end (desc j) <= r).
Proof.
  pose proof (ms_size a Ha) as Hsz. pose proof (ms_desc a Ha) as Hds. unfold XERET_MMAP_MAX_BYTES in Hsz. fold ds in Hds.
  induction fuel as [|fuel IH]; intros k h Hk Hle Hf Hh; cbn [phys_end_loop]; cbv zeta.
  { split; [lia|]. intros j Hj [_ Hin]. exfalso. nia. }
  rewrite u64_small by lia. destruct (Z.leb_spec (k * ds + ds) (ma_size a)) as [Hin|Hout].
  2: { split; [lia|]. intros j Hj [_ Hin]. exfalso. nia. }
  replace (k * ds + ds) with ((k + 1) * ds) in * by lia. fold (desc k).
  assert (h <= higher_end (desc k) h <= 2 ^ 52 /\ (is_ram_backed_type (Type_ (desc k)) = true -> desc_end (desc k) <= higher_end (desc k) h)) as [H1 H2].
  { unfold higher_end. destruct (is_ram_backed_type (Type_ (desc k))) eqn:Et; cbn [negb]; [|split; [lia|done]].
    pose proof (ms_end a Ha k ltac:(by split) Et) as He. fold ds in He. fold (desc k) in He. unfold desc_end in *.
    destruct (read_desc_range (ma_bytes a) (k * ds) (ms_bytes a Ha) ltac:(lia)) as [R1 R2]. fold (desc k) in R1, R2.
    rewrite (u64_small (NumberOfPages _ * 4096)), u64_small by lia. destruct (Z.ltb_spec h (PhysicalStart (desc k) + NumberOfPages (desc k) * 4096)); lia. }
  destruct (IH (k + 1) (higher_end (desc k) h)) as [H3 H4]; [lia|lia|lia|lia|]. split; [lia|]. intros j Hj Hin' Ht.
  destruct (Z.eq_dec j k) as [->|]; [specialize (H2 Ht); lia|]. apply H4; (done || lia).
Qed.

Lemma phys_end_spec : let r := compute_phys_end (ma_bytes a) (ma_size a) ds in
  0 < r <= 2 ^ 52 /\ forall j, in_map (ma_size a) ds j -> is_ram_backed_type (Type_ (desc j)) = true -> desc_end (desc j) <= r.
Proof.
  pose proof (ms_size a Ha) as Hsz. pose proof (ms_desc a Ha) as Hds. fold ds in Hds. unfold compute_phys_end. cbv zeta.
  destruct (phys_end_loop_spec (Z.to_nat (ma_size a)) 0 0) as [H1 H2]; [lia|lia|nia|lia|]. rewrite Z.mul_0_l in *.
  assert (forall j, in_map (ma_size a) ds j -> is_ram_backed_type (Type_ (desc j)) = true -> desc_end (desc j) <= phys_end_loop (Z.to_nat (ma_size a)) (ma_bytes a) 0 (ma_size a) ds 0) as H3.
  { intros j Hin Ht. apply H2; [by destruct Hin|done|done]. }
  split; [|done]. split; [|lia]. destruct (ms_some a Ha) as (j & Hin & Ht & Hn). specialize (H3 j Hin Ht). unfold desc_end in H3. fold ds in Hn. fold (desc j) in Hn.
  destruct (read_desc_range (ma_bytes a) (j * ds) (ms_bytes a Ha)) as [R1 _]; [destruct Hin; nia|]. fold (desc j) in R1. lia.
Qed.

(** Every frame the kernel may use is inside the bitmap it will make. *)
Lemma phys_end_covers j f : in_map (ma_size a) ds j -> desc_covers (desc j) f -> f < (compute_phys_end (ma_bytes a) (ma_size a) ds + 4095) / 4096.
Proof.
  intros Hin (Hu & Hn & Hf). destruct phys_end_spec as [H1 H2]. assert (is_ram_backed_type (Type_ (desc j)) = true) as Ht.
  { unfold usable in Hu. unfold is_ram_backed_type. apply negb_true_iff. unfold EfiConventionalMemory, EfiBootServicesCode, EfiBootServicesData, EfiLoaderCode, EfiLoaderData in Hu.
    unfold EfiReservedMemoryType, EfiMemoryMappedIO, EfiMemoryMappedIOPortSpace, EfiUnusableMemory, EfiPalCode.
    rewrite !orb_true_iff, !Z.eqb_eq in Hu. rewrite !orb_false_iff, !Z.eqb_neq. lia. }
  specialize (H2 j Hin Ht). unfold desc_end in H2. pose proof (ms_end a Ha j Hin Ht) as He. fold ds in He. fold (desc j) in He. unfold desc_end in He.
  pose proof (ms_desc a Ha) as Hds. fold ds in Hds.
  destruct (read_desc_range (ma_bytes a) (j * ds) (ms_bytes a Ha)) as [R1 R2]; [destruct Hin; nia|]. fold (desc j) in R1, R2.
  assert (PhysicalStart (desc j) / 4096 + NumberOfPages (desc j) <= 2 ^ 52) by (pose proof (Z.div_le_upper_bound (PhysicalStart (desc j)) 4096 (PhysicalStart (desc j)) ltac:(lia) ltac:(lia)); lia).
  rewrite u64_small in Hf by (pose proof (Z.div_pos (PhysicalStart (desc j)) 4096); lia).
  apply Z.lt_le_trans with (PhysicalStart (desc j) / 4096 + NumberOfPages (desc j)); [lia|]. rewrite <- Z.div_add by lia. apply Z.div_le_mono; lia.
Qed.
End Map.

(** The handoff is sound and comes from the map with which the firmware let go. *)
Lemma efi_main_spec fw hand mmap : fw_sane fw -> efi_main fw = Some (hand, mmap) ->
  handoff_ok hand mmap /\
  (exists k, (k <= 1)%nat /\ ma_status (fw_map fw k) = EFI_SUCCESS /\ fw_exit fw k = EFI_SUCCESS /\ mmap = ma_bytes (fw_map fw k) /\
     mmap_size hand = ma_size (fw_map fw k) /\ mmap_desc_size hand = ma_desc_size (fw_map fw k)) /\
  forall k f, in_map (mmap_size hand) (mmap_desc_size hand) k -> desc_covers (read_desc mmap (k * mmap_desc_size hand)) f ->
    f < (hand_phys_end hand + 4095) / 4096.
Proof.
  intros Hs E. assert (exists k info, fw_gop fw = Some info /\ (k <= 1)%nat /\ ma_status (fw_map fw k) = EFI_SUCCESS /\ fw_exit fw k = EFI_SUCCESS /\
    (hand, mmap) = handoff_of fw info (fw_map fw k)) as (k & info & Hg & Hk & Hst & Hx & Eh).
  { unfold efi_main in E. destruct (fw_gop fw) as [info|]; [|done].
    destruct (Z.eqb_spec (ma_status (fw_map fw 0)) EFI_SUCCESS); cbn [negb] in E; [|done].
    destruct (Z.eqb_spec (fw_exit fw 0) EFI_SUCCESS); [exists 0%nat, info; injection E as <- <-; auto|].
    destruct (Z.eqb_spec (ma_status (fw_map fw 1)) EFI_SUCCESS); cbn [negb] in E; [|done].
    destruct (Z.eqb_spec (fw_exit fw 1) EFI_SUCCESS); [exists 1%nat, info; injection E as <- <-; auto|done]. }
  pose proof (fs_map fw Hs k Hst) as Hm. injection Eh as -> ->. destruct (phys_end_spec _ Hm) as [He _]. pose proof (ms_size _ Hm). pose proof (ms_desc _ Hm).
  unfold XERET_MMAP_MAX_BYTES in *. split_and!.
  - split; cbn; [done| |lia|by apply (fs_fb fw Hs)|apply Hm]. split; [apply Hs|]. lia.
  - exists k. done.
  - intros j f. apply (phys_end_covers _ Hm).
Qed.

(** * Up to the shell, and to the end of the session *)

Section Up.
Context {E : Type} `{Bs : Bus E} {Cfg : Type} `{CS : ConfigSpace Cfg} `{CL : !ConfigLaws Cfg}.
Abbreviation Machine := (Xsh (D := Disks (E := E) (Cfg := Cfg))).
Implicit Types (st : Machine).

(** What the loader leaves in the static data of the kernel: no program runs,
    no mapping is recorded, the shell is at its root, and the inode table is a
    tree (all its slots are unused). *)
Record start_ok st : Prop := {
  so_idle : idle_cpu (proc st);
  so_maps : g_maps (kernel st) = replicate 1024 dead_rec;
  so_user : lenZ (user st) <= 15;
  so_cwd : cwd st = [bar];
  so_ns : ns_ok (vol st)
}.

(** The kernel is up, and nothing has been run yet. *)
Definition up st : Prop := fresh (kernel st) /\ idle_cpu (proc st) /\ lenZ (user st) <= 15 /\ cwd_ok st.

(** Printing, and the parts the stages change. *)
Lemma up_same st st' : up st -> proc st' = proc st -> user st' = user st -> cwd st' = cwd st -> vol st' = vol st -> up st'.
Proof.
  intros (H1 & H2 & H3 & H4) E1 E2 E3 E4. unfold up, kernel. rewrite E1, E2. split_and!; [done|done|done|]. apply (cwd_still st); [done|by split].
Qed.

Lemma up_kernel st ks : up st -> fresh ks -> up (set_kernel st ks).
Proof. intros (H1 & H2 & H3 & H4) Hk. split_and!; [done|done|done|by apply (cwd_still st)]. Qed.

Lemma up_vol st V s : up st -> cwd st = [bar] -> ns_ok V -> up (set_vol st V s).
Proof. intros (H1 & H2 & H3 & H4) Hc HV. split_and!; [done|done|done|]. split; [done|apply H4|by left]. Qed.

Lemma stage_boot_up st : up st -> cwd st = [bar] -> up (stage_boot st).2.
Proof.
  intros Hu Hc. unfold stage_boot. destruct (ramdisk_init _ _ _ _) as [rc r]. destruct (negb _); [by apply (up_same st)|].
  destruct (dev_register _ _ _) as [rc1 l]. destruct (negb _); [by apply (up_same st)|].
  set (st1 := set_registry _ l). assert (up st1) as H1 by (by apply (up_same st)). assert (cwd st1 = [bar]) as Hc1 by done.
  set (r2 := match dev_lookup _ _ with None => _ | Some _ => _ end). assert (ns_ok r2.1.2) as HV.
  { unfold r2. destruct (dev_lookup _ _) as [d|]; [|apply H1]. apply exfs_format_names, H1. }
  destruct r2 as [[rc2 V] s]. cbn [fst snd] in HV. pose proof (up_vol st1 V s H1 Hc1 HV) as H2.
  destruct (negb (rc2 =? EXFS_OK)); by apply (up_same (set_vol st1 V s)).
Qed.

Lemma stage_system_up st : up st -> exists st', stage_system st = Some st' /\ up st'.
Proof.
  intros Hu. unfold stage_system. destruct (storage_open_spec (with_ks (store (disk st)) (kernel st))) as (rc & sto & E1 & _).
  rewrite E1. cbn [mbind option_bind]. pose proof (storage_open_fresh (with_ks (store (disk st)) (kernel st)) rc sto (proj1 Hu) E1) as Hf.
  set (st1 := set_kernel _ _). assert (up st1) as H1 by (apply up_kernel; [by apply (up_same st)|done]).
  destruct ((rc =? STORAGE_OK) && _); [|eexists; split; [done|by apply (up_same st1)]].
  destruct (dev_register _ _ _) as [rc2 l]. eexists. split; [done|]. by destruct (rc2 =? DEV_OK); apply (up_same st1).
Qed.

(** What holds at the end: the kernel's invariant with no address space alive
    and no live token, and a current directory that exists. *)
Definition settled_down (l : list Input) st : Prop :=
  k_inv (kernel st) [] /\ (forall t, tokens_of (kernel st) t = None) /\ idle_cpu (proc st) /\
  (Forall (fun i => replaces (asked (in_line i)).1 = false) l -> cwd_ok st).

Lemma fresh_no_token ks t : fresh ks -> tokens_of ks t = None.
Proof.
  intros [[_ Hl] _]. destruct (tokens_of ks t) as [tv|] eqn:Et; [|done]. apply tokens_of_Some in Et as (_ & e & (_ & _ & He & Hli & _)%info_Some & _).
  rewrite Hl in He. cbn [xtok_init g_table] in He. apply lookup_replicate in He as [-> _]. done.
Qed.

Lemma up_settled l st : up st -> settled_down l st.
Proof.
  intros (H1 & H2 & H3 & H4). split_and!; [by apply boot_k_inv, fresh_boot|intros t; by apply fresh_no_token|done|done].
Qed.

Lemma shell_settled l st : up st -> Forall typed l -> Forall (fun i => asks "nvme" i = false) l ->
  exists h st', shell_main l st = Some (h, st') /\ settled_down l st' /\
    phys_free_count (phys (k_mem (kernel st'))) = phys_free_count (phys (k_mem (kernel st))).
Proof.
  intros (H1 & H2 & H3 & H4) Ht Hv. pose (Bt := kernel st : Boot).
  assert (rested [] st) as Hr.
  { split; [split; [by apply fresh_boot|done]|]. split; [done|]. intros t. by apply fresh_no_token. }
  destruct (main_ends [] l st Ht Hv H3 Hr) as (h & st' & E1 & _ & _ & (Hk & Hi & Hno) & Hfree).
  exists h, st'. split; [done|]. split; [|by apply Hfree]. split_and!; [by apply reachable_inv|done|done|].
  intros Hm. apply (main_cwd l st st' h); [|done|done|done]. eapply Forall_impl; [exact Ht|]. by intros i (? & _).
Qed.

Lemma exit_settled l st : up st -> cwd st = [bar] -> Forall typed l -> Forall (fun i => asks "nvme" i = false) l ->
  exists h st', exit_main_executor l st = Some (h, st') /\ settled_down l st'.
Proof.
  intros Hu Hc Ht Hv. unfold exit_main_executor, stage_volumes. set (st0 := println _ st). assert (up st0) as H0 by (by apply (up_same st)).
  pose proof (stage_boot_up st0 H0 Hc) as H1. destruct (stage_boot st0) as [rc st1]. cbn [snd] in H1.
  destruct (Z.eqb_spec rc 0) as [->|Hrc]; cbn [negb mbind option_bind].
  - destruct (stage_system_up st1 H1) as (st2 & -> & H2). cbn [mbind option_bind]. change (negb (0 =? 0)) with false. cbv iota.
    destruct (shell_settled l (println (txt "[EXIT] Spawning core shell (XSH)...") st2)) as (h & st' & E1 & H3 & _); [by apply (up_same st2)|done|done|by exists h, st'].
  - change (negb (-1 =? 0)) with true. cbv iota. eexists true, _. split; [done|]. apply up_settled. by apply (up_same st1).
Qed.

Lemma kernel_settled hand mmap cpuid hw l st : handoff_ok hand mmap -> start_ok st -> Forall typed l -> Forall (fun i => asks "nvme" i = false) l ->
  exists h st', kernel_main hand mmap cpuid hw l st = Some (h, st') /\ settled_down l st'.
Proof.
  intros Hh [S1 S2 S3 S4 S5] Ht Hv. unfold kernel_main. set (st0 := println _ _). rewrite (Physical.ho_magic _ _ Hh), Z.eqb_refl. cbn [negb].
  destruct (init_spec hand mmap (phys (k_mem (kernel st0))) Hh) as (Hrc & Hwf & _).
  destruct (phys_init_from_handoff (Some hand) mmap _) as [rc p]. cbn [fst snd] in Hrc, Hwf. subst rc. change (negb (0 =? 0)) with false. cbv iota.
  set (st2 := set_kernel (set_kernel st0 _) _). assert (up st2) as H2.
  { split; [split; [by split|exact S2]|]. split; [exact S1|]. split; [exact S3|]. split; [exact S5| |by left].
    change (cwd st2) with (cwd st). rewrite S4. split; [by repeat constructor|done]. }
  match goal with |- context [xpt_init_identity ?c ?e ?b ?z ?k] => pose proof (identity_fresh c e b z k (proj1 H2)) as H3; destruct (xpt_init_identity c e b z k) as [rc ks] end.
  cbn [snd] in H3. pose proof (up_kernel st2 ks H2 H3) as H4. destruct (negb _).
  { eexists true, _. split; [done|]. apply up_settled. by apply (up_same (set_kernel st2 ks)). }
  destruct (lapic_timer_init hw _) as [rc2 la]. set (st5 := set_proc _ (set_p_lapic _ la)). assert (up st5) as H5.
  { destruct H4 as (K1 & K2 & K3 & K4). split; [done|]. split; [done|]. split; [done|]. by apply (cwd_still (set_kernel st2 ks)). }
  apply exit_settled; [by apply (up_same st5)|done|done|done].
Qed.
End Up.

(** * Results *)

(** C31: The loader hands over soundly. Whatever the firmware answers within the
    promises of UEFI, the handoff the kernel gets is well formed, it carries the
    memory map of the very call after which the firmware let go, first or
    second, and its end of memory covers every frame of a usable type, so that
    none of them is missing from the bitmap for want of room below the end. *)
Theorem efi_handoff_sound (fw : Firmware) (hand : XeretHandoff) (mmap : list Z) : fw_sane fw -> efi_main fw = Some (hand, mmap) ->
  handoff_ok hand mmap /\
  (exists k, (k <= 1)%nat /\ ma_status (fw_map fw k) = EFI_SUCCESS /\ fw_exit fw k = EFI_SUCCESS /\ mmap = ma_bytes (fw_map fw k) /\
     mmap_size hand = ma_size (fw_map fw k) /\ mmap_desc_size hand = ma_desc_size (fw_map fw k)) /\
  forall k f, in_map (mmap_size hand) (mmap_desc_size hand) k -> desc_covers (read_desc mmap (k * mmap_desc_size hand)) f ->
    f < (hand_phys_end hand + 4095) / 4096.
Proof. apply efi_main_spec. Qed.


(** * Witnesses *)

(** Firmware with 4 MiB of memory, whose first exit fails: the map had changed. *)
Definition demo_fw : Firmware := mkFirmware (Some (mkFb 0 0 0 0 0)) (fun _ => mkAnswer 0 48 48 demo_mmap) (fun k => if (k =? 0)%nat then 2 else 0) 4096.

Lemma demo_fw_sane : fw_sane demo_fw.
Proof.
  split; [done|by intros info [= <-]|]. intros k _. split; cbn [demo_fw fw_map ma_size ma_desc_size ma_bytes].
  - unfold XERET_MMAP_MAX_BYTES. lia.
  - lia.
  - apply demo_handoff_ok.
  - intros j [H1 H2]. assert (j = 0) as -> by lia. vm_compute. congruence.
  - exists 0. split; [by split|]. by vm_compute.
Qed.

Lemma efi_handoff_sound_witness : exists hand mmap, efi_main demo_fw = Some (hand, mmap) /\ handoff_ok hand mmap /\ hand_phys_end hand = 1024 * 4096.
Proof.
  assert (efi_main demo_fw = Some (handoff_of demo_fw (mkFb 0 0 0 0 0) (mkAnswer 0 48 48 demo_mmap))) as E by reflexivity.
  eexists _, _. split; [exact E|]. split; [|vm_compute; reflexivity]. apply (efi_handoff_sound demo_fw _ _ demo_fw_sane E).
Defined.

#[local] Existing Instance sim_bus.
#[local] Existing Instance demo_space.
#[local] Existing Instance demo_laws.

(** A processor with NX, a machine without a working timer, an empty inode table. *)
Definition demo_cpuid (leaf _ : Z) : Z * Z * Z * Z := if leaf =? 0 then (1, 0, 0, 0) else (0x80000001, 0, 0, 0x100000).
Definition demo_slot : ExfsFile := mkFile false 0 0 (replicate 96 0) 0 0 0 0 (replicate 16 0) false.
Definition demo_machine : Xsh (D := Disks (E := Sim) (Cfg := Z -> Z)) :=
  mkXsh [bar] DEFAULT_USER false
    (mkVol None 0 0 0 0 false false false (Gmap.mkGMap None 0 0 0 0 [] [] [] [] 0) 0 (replicate 128 demo_slot) (fun _ => mkExt 0 0) (replicate 2048 0) [])
    (mkDisks (mkRam ∅ 512 0) (mkStorage _ None false false (mkNvmeMachine _ sim_nvme demo_ks0 demo_pci)) (replicate 4096 0))
    (replicate 8 (mkSlot [] None)) demo_idle [].

Lemma demo_start : start_ok demo_machine.
Proof.
  split; [done|reflexivity|by vm_compute|done|]. apply unused_ns_ok; [split; [reflexivity|]|];
    intros i f Hf; cbn [demo_machine vol v_files] in Hf; apply lookup_replicate in Hf as [-> _]; [apply length_replicate|done].
Qed.

